(* ===== verification/_CoqProject ===== *)
-Q . S2P
Prelude.v
Fips197.v
AesTables.v
Aes.v
AesCorrect.v
CryptoWrap.v
Ctr.v
Omac.v
Siv.v
Blocks.v
Mem.v
Ccm.v
Gcm.v
Ccmp.v
Gcmp.v
Swcrypto.v
Sha256.v
Arc4.v
Tkip.v
WepTkip.v
Reorder.v
RecvPn.v
Ie.v
Rsn.v
PwrSeq.v
StaTable.v
RecvFrame.v
Defrag.v
Msdu.v
Efuse.v
EfusePg.v
CmdQueue.v
Sms4.v
SwAes.v
SwCcmp.v
SecFrames.v
MgmtProtect.v
RmReq.v
RmFsm.v
RmSafe.v
XmitAttrib.v
RxValidate.v
XmitBuild.v
XmitAir.v
XmitQueue.v
XmitQueueInv.v
XmitQueueOps.v
XmitQueuePs.v
XmitQueueSafe.v
XmitQueueRun.v
XmitQueueBuf.v
XmitQueueLive.v
BcnIe.v
ApBss.v
ApBssInv.v
ApBssRun.v
