(* ===== verification/Prelude.v ===== *)
(** * Verification of the RTL88x2BU Linux driver

    The program is the out-of-tree Wi-Fi driver [88x2bu]: [core/] holds the
    802.11 logic (security, receive, transmit, management), [hal/] the chip,
    [os_dep/] and [platform/] the kernel glue; [rust/] ports single C files and
    is chosen by [CONFIG_RUST].  This library models C code, translated function
    by function into Rocq definitions that evaluate, and proves what makes the
    parts correct.

    ** Parts and files

    - This file: machine integers ([u8] ... [u64] truncate, [uint w] is the
      range), C operators, arrays with default reads, byte strings, the outcome
      type [cres] ([Ret], [Err], [Oob] for an access outside an object), bit-level
      automation ([by_bits], the hint database [machine]).
    - Mem: memory as a list of bytes, checked reads and writes.
    - Fips197, AesTables, Aes, AesCorrect: [core/crypto/aes-internal.c] and
      [aes-internal-enc.c]; the T-table implementation and its key schedule are
      FIPS 197, for both sets of tables.
    - CryptoWrap, Blocks: [rtw_crypto_wrap.c] and the block arithmetic the modes
      share.  Ctr, Omac, Siv, Ccm, Gcm: the AES modes.  [rtw_malloc] is a function
      of the size, so that every allocation may fail.
    - Ccmp, Gcmp, Swcrypto: protection of a frame, [core/crypto/ccmp.c], [gcmp.c]
      and the in-place wrappers of [core/rtw_swcrypto.c].
    - Sha256: hash, HMAC and key derivation.
    - Arc4, Tkip, WepTkip: [core/rtw_security.c], RC4, CRC-32, Michael, the TKIP
      key mixing, and the encryption of a frame in fragments.
    - Reorder: block-ack reordering, [core/rtw_recv.c]: a queue, a window and a
      timer per traffic class, as a step function on [reorder].
    - RecvPn: packet numbers and duplicates, [core/rtw_recv_pn_rest.c].
    - Ie: information elements, [core/rtw_ieee80211.c]; Rsn: the WPA and RSN
      elements of the same file.
    - PwrSeq: the power-sequence interpreter of halmac, the tables of the 8822B
      and the USB power switch.  The registers are the type class [Hardware].
    - StaTable: the station table, [core/rtw_sta_mgt_*.c].
    - RecvFrame: the pool of receive frames and the window of bytes in each,
      [include/rtw_recv.h] and [core/rtw_recv.c]; Defrag: the queue of fragments
      of each station and the TKIP check behind it; Msdu: A-MSDUs, the forwarding
      decision of an access point and the conversion to Ethernet.
    - Efuse: the efuse log of halmac, [halmac_efuse_88xx.c], in a monad of the
      adapter's state with early return and a weakest-precondition logic; the
      hardware is the class [EfuseHw] with its laws [EfuseLaws], which a one-time
      programmable memory is shown to satisfy.  EfusePg: programming by a map and a
      mask.

    - CmdQueue: the command queue and its thread, [core/rtw_cmd_queue.c] and
      [core/rtw_cmd_thread.c], with the callers that wait for a command: a
      transition system in which every access to shared data is a step.
    - SwAes, SwCcmp: the second AES and CCMP of [core/rtw_security.c]; SecFrames:
      the software encryption and decryption of a frame there, with the choice of
      the key, and the decryptor of [core/rtw_recv.c]; MgmtProtect: the integrity
      of management frames, [rtw_BIP_verify] and [validate_mgmt_protect].
    - Sms4: the cipher of WAPI, [core/rtw_wapi_sms4.c].
    - RmReq: the bytes of radio measurement requests, built and parsed,
      [core/rtw_rm.c]; RmFsm: the measurements, their clocks, events and state
      machine, [core/rtw_rm_fsm.c], in a state monad where reading a freed object is
      [Oob]; RmSafe: their theory.
    - XmitAttrib: the attributes of a packet to send, [update_attrib] of
      [core/rtw_xmit_update_attrib_*.c], with the session rules of
      [core/rtw_sta_mgt_stctl.c]; XmitBuild: the frames built from them,
      [rtw_xmitframe_coalesce] of [core/rtw_xmit.c].
    - RxValidate: the way of a received data frame through [validate_recv_frame],
      the decryptor and [portctrl] of [core/rtw_recv.c], for a station, an access
      point and the other modes.
    - XmitAir: one driver's transmit path and another's receive path together.
    - XmitQueue: the transmit queues, [core/rtw_xmit.c] and
      [hal/rtl8822b/usb/rtl8822bu_xmit.c]: the pools of frames and buffers, the
      service queues of the stations, power saving (sleep queues, PS-Poll, U-APSD,
      TIM), the copies of group packets, the tasklet that packs USB buffers, and
      what a station that joins or leaves does to them.  The linked lists are one
      list of links, and linking a node twice is [Oob].  XmitQueueInv, XmitQueueOps,
      XmitQueuePs, XmitQueueSafe: their invariant and that every operation keeps it;
      XmitQueueRun, XmitQueueLive: what holds after every sequence of operations;
      XmitQueueBuf: where the USB buffers are.
    - BcnIe: the edits of the elements of a stored beacon, [core/rtw_ap.c] and
      [core/rtw_ieee80211.c]; ApBss: what an access point counts and announces when
      stations join and leave, [core/rtw_ap*.c]; ApBssInv: its invariant; ApBssRun:
      the events of an access point in any order.

    The parts meet where the driver joins them: RecvPn reads back the CCMP header
    that Ccmp writes, Defrag reads packet numbers with RecvPn and computes MICs
    with Tkip, Defrag and Msdu look up stations in StaTable, Swcrypto calls Ccmp and Gcmp, which call Ccm and Gcm over
    the Aes definitions; SecFrames and MgmtProtect call Swcrypto, Defrag's frames
    and RecvPn's packet numbers; RmFsm parses with RmReq; XmitBuild encrypts
    with SecFrames and WepTkip, RxValidate checks with RecvPn and decrypts with
    SecFrames, XmitAir ends in Msdu; XmitQueue takes its attributes from XmitAttrib
    and its outcome of building from XmitBuild, as answers of its environment; Siv calls Omac and Ctr; Rsn searches with Ie; Reorder
    and RecvPn start from the records that the station table initialises.

    ** Theorems

    - Refinement of published specifications: AES, CMAC, S2V, CCM, GCM, SHA-256,
      HMAC, Michael.  The specification is written down separately and the C code
      is shown equal to it on every input in range.
    - Round trips and authenticity: what is encrypted is decrypted again (frames,
      fragments, in place), and decryption succeeds exactly on what the key
      holder made.  TKIP gives different frames different RC4 keys.
    - Reorder: the implementation refines a window of numbered frames; frames are
      delivered in order and once; the timer runs exactly when frames wait; it
      drains the queue.
    - RecvPn: accepted broadcast packet numbers increase strictly per key once one
      above 0 is stored.
    - Ie, Rsn: elements that were written are found; removal is a filter; on
      arbitrary bytes the searches and parsers stay in bounds (with the slack the
      theorem names) and well-formed RSN and WPA elements mean what they say.
    - PwrSeq: for every device, the interpreter does what the command set
      documents, terminates on tables that end, with a bound on the accesses, and
      the power switch reports the state it leaves.
    - StaTable: the table is a partial map of at most [NUM_STA] addresses, with or
      without its broadcast station; every record is in exactly one list, and AIDs are unique and in range.
    - Defrag: a call neither loses a frame nor frees one twice; fragments that
      arrive in order under one key are reassembled to the payload that was cut,
      and others are dropped; a frame whose MIC is wrong does not get through.  The
      caller for management frames does free a fragment twice, as an example shows.
    - Msdu: deaggregation of arbitrary bytes stays in bounds; an access point that
      isolates its stations forwards nothing between them, and a flipped A-MSDU
      bit is not an injection; encoding and deaggregation are inverse; a single
      MSDU gives the packet a subframe would.
    - Efuse: parsing arbitrary contents terminates in bounds; a value written is
      the value read, and the rest of the map is kept; programming gives the map
      the mask asks for when there is room.
    - CmdQueue: in every interleaving no freed command, stack frame or buffer is
      touched, commands are dealt with once and in order, a caller is told the
      truth, and no command is left behind while the thread sleeps.
    - SwAes, SwCcmp: the byte-wise AES is the table-driven one, and the second CCMP
      makes the same frames as [core/crypto/ccmp.c]; it decrypts exactly what it
      makes.  SecFrames: what the decryptor hands on decrypted was encrypted under
      the installed key of its sender or group.  MgmtProtect: from a station with
      protection only verified or exempt management frames pass, none twice.
    - Sms4: the cipher is GB/T 32907, decryption inverts encryption.
    - RmReq, RmSafe: a request is parsed to what was asked; whatever frames, timer
      ticks, commands and answers come, no freed measurement is touched and every
      measurement has its own clock; the end frees all of them.
    - XmitAttrib: packet numbers of a station count up by one, and a packet for a
      station under encryption leaves encrypted with its key or not at all.
      RxValidate: in a protected network only key handshake frames and frames
      authenticated under the sender's key pass.  XmitAir: the Ethernet packet a
      station sends is the Ethernet packet its access point hands up.
    - XmitQueueRun, XmitQueueLive: whatever operations run, every frame is in one
      queue, but for one lost with each packet too short for its header, every
      counter is a length, every packet is given back once; a station that sleeps
      is sent only data it asked for, the clearing of its queues apart, and gets
      the rest in order when it wakes up; the tasklet leaves frames only when the
      USB core has all buffers, and what it packs fits a buffer.
    - BcnIe, ApBssRun: the edits of a beacon are edits of its list of elements;
      the counters of an access point count its stations, and its stored beacon
      announces ERP protection, HT operation and waiting traffic as they are.

    ** Fuel and bounds

    Loops that are not structural take fuel that is the number of bytes or
    entries they can consume: the counter mode the data, OMAC the total length,
    SHA-256 the input, the PRF its output, the flush of Michael three bytes, the
    element loops the length of the buffer (an element has two bytes or more),
    the polling loop twice its counter, which is reloaded at most once, the efuse
    parser the size of the efuse, deaggregation the length of the frame, the parser
    of measurement requests the length of the frame.  A measurement runs through at
    most five nested states; the event loop has the weight of the queued events,
    which every event lowers; the end of the measurements cancels each at most
    twice.  The loop over the fragments of a packet has its length and one.  The loops
    of the transmit tasklet have the number of links and one: each turn takes a
    frame off a service queue.  For each
    the lemmas show the fuel is not used up on the inputs of the theorems, and
    [pwr_seq_terminates] that it never is on tables that end.  Lengths are natural numbers where the
    C type cannot overflow for a buffer that fits in memory, and [Z] with the wrap
    written out where it can ([rtw_ies_remove_ie], sequence and packet numbers,
    polling counters).  The host is little-endian; [aget] reads 0 outside an array
    and is used only where the length lemmas exclude that; [buf_write],
    [mem_read] and [mem_byte] give [Oob].

    ** Not modelled

    Locks and the interleavings they exclude: an operation of the receive path
    of the station table or of the transmit queues is one step; only CmdQueue
    interleaves.
    [recv_process_mpdu] is a parameter of Reorder (its verdict), registers and
    delays are the interface of PwrSeq. Left out are the rate, WPS, P2P and mesh
    helpers of [rtw_ieee80211.c], of
    the station table the access control list and the tracked sessions; of the
    efuse the zones of super-speed USB chips (the 8822B has none), the Bluetooth
    bank and the dump through the firmware, and the handshake for one byte is an
    interface. Socket buffers are the bytes they hold. The handlers of commands
    and their results come from the surroundings; so do the scan results and HAL
    readings of a radio measurement, whose report frames are modelled as sent but
    not byte by byte. Of the transmit queues the rewritten beacons, null frames and
    the flow control of the network device are left out. The MLME state machines
    and mesh are not modelled; the HAL, phydm and coexistence code is
    register traffic whose meaning only the chip defines, and firmware images
    and register headers are data. *)
From stdpp Require Export base list list_numbers numbers.
From Stdlib Require Export ZArith Lia.
Local Open Scope Z_scope.

Declare Scope c_scope.
Delimit Scope c_scope with C.
Global Open Scope Z_scope.

(** ** Machine integers *)

(** Truncation to an unsigned type of the given width. *)
Definition u8 (z : Z) : Z := Z.land z 0xff.
Definition u16 (z : Z) : Z := Z.land z 0xffff.
Definition u32 (z : Z) : Z := Z.land z 0xffffffff.
Definition u64 (z : Z) : Z := Z.land z 0xffffffffffffffff.

Definition uint (w z : Z) : Prop := 0 <= z < 2 ^ w.
Abbreviation is_u8 := (uint 8).
Abbreviation is_u16 := (uint 16).
Abbreviation is_u32 := (uint 32).
Abbreviation is_u64 := (uint 64).

(** C operators on unsigned operands; a shift to the left is wrapped where the
    code assigns it. *)
Infix "⊕" := Z.lxor (at level 50, left associativity) : c_scope.
Infix ".&" := Z.land (at level 47, left associativity) : c_scope.
Infix ".|" := Z.lor (at level 51, left associativity) : c_scope.
Infix "<<" := Z.shiftl (at level 45, left associativity) : c_scope.
Infix ">>" := Z.shiftr (at level 45, left associativity) : c_scope.
Global Open Scope c_scope.

(** [BIT(x)] of [wifi.h] and [osdep_service.h]. *)
Definition BIT (n : Z) : Z := 1 << n.

(** ** Arrays *)

(** An array element.  Every use below is at an index inside the array, which
    the length lemmas of each component state; where the index comes from
    untrusted data the components use stdpp's partial [!!] instead. *)
Definition aget (l : list Z) (i : nat) : Z := nth i l 0.
Notation "l .[ i ]" := (aget l i%nat)
  (at level 1, format "l .[ i ]") : c_scope.

Definition bytes (l : list Z) : Prop := Forall is_u8 l.
Definition words (l : list Z) : Prop := Forall is_u32 l.

(** Byte-wise exclusive or of two buffers, as the code's xor loops do. *)
Definition xor_bytes (a b : list Z) : list Z := zip_with Z.lxor a b.

(** [IS_MCAST] of a MAC address: the group bit of its first byte. *)
Definition IS_MCAST (da : list Z) : bool := negb (da.[0] .& 1 =? 0).

(** [os_memset] and [os_memcpy] on a buffer at an offset. *)
Definition memset (n : nat) (v : Z) : list Z := replicate n v.
Definition memcpy (dst : list Z) (o : nat) (src : list Z) : list Z :=
  list_inserts o src dst.

(** ** Bit-level facts *)

Create HintDb machine.

Lemma uint_testbit w z i : uint w z → w ≤ i → Z.testbit z i = false.
Proof.
  intros [H0 H1] Hi. destruct (decide (0 ≤ w)) as [Hw|Hw].
  - rewrite <- (Z.mod_small z (2 ^ w)) by lia. by apply Z.mod_pow2_bits_high.
  - rewrite Z.pow_neg_r in H1 by lia. lia.
Qed.

Lemma uint_bits w z :
  0 ≤ w → 0 ≤ z → (∀ i, w ≤ i → Z.testbit z i = false) → uint w z.
Proof.
  intros Hw Hz Hb. split; [done|].
  assert (z = z mod 2 ^ w) as ->; [|apply Z.mod_pos_bound; lia].
  apply Z.bits_inj'. intros i Hi. destruct (decide (i < w)).
  - by rewrite Z.mod_pow2_bits_low.
  - rewrite Z.mod_pow2_bits_high, Hb by lia. done.
Qed.

Lemma uint_ones w z : 0 ≤ w → uint w (Z.land z (Z.ones w)).
Proof. intros Hw. rewrite Z.land_ones by done. apply Z.mod_pos_bound; lia. Qed.

Lemma uint_id w z : 0 ≤ w → uint w z → Z.land z (Z.ones w) = z.
Proof. intros Hw Hz. rewrite Z.land_ones by done. by apply Z.mod_small. Qed.

Lemma u8_mod z : u8 z = z mod 2 ^ 8.
Proof. by apply (Z.land_ones z 8). Qed.
Lemma u16_mod z : u16 z = z mod 2 ^ 16.
Proof. by apply (Z.land_ones z 16). Qed.
Lemma u32_mod z : u32 z = z mod 2 ^ 32.
Proof. by apply (Z.land_ones z 32). Qed.
Lemma u64_mod z : u64 z = z mod 2 ^ 64.
Proof. by apply (Z.land_ones z 64). Qed.

Lemma u8_uint z : is_u8 (u8 z).
Proof. by apply (uint_ones 8). Qed.
Lemma u16_uint z : is_u16 (u16 z).
Proof. by apply (uint_ones 16). Qed.
Lemma u32_uint z : is_u32 (u32 z).
Proof. by apply (uint_ones 32). Qed.
Lemma u64_uint z : is_u64 (u64 z).
Proof. by apply (uint_ones 64). Qed.

Lemma u8_id z : is_u8 z → u8 z = z.
Proof. by apply (uint_id 8). Qed.
Lemma u16_id z : is_u16 z → u16 z = z.
Proof. by apply (uint_id 16). Qed.
Lemma u32_id z : is_u32 z → u32 z = z.
Proof. by apply (uint_id 32). Qed.
Lemma u64_id z : is_u64 z → u64 z = z.
Proof. by apply (uint_id 64). Qed.

Lemma uint_lxor w a b : 0 ≤ w → uint w a → uint w b → uint w (a ⊕ b).
Proof.
  intros Hw Ha Hb. apply uint_bits; [done| |].
  - apply Z.lxor_nonneg. destruct Ha, Hb. lia.
  - intros i Hi. by rewrite Z.lxor_spec, !(uint_testbit w) by done.
Qed.
Lemma uint_lor w a b : 0 ≤ w → uint w a → uint w b → uint w (a .| b).
Proof.
  intros Hw Ha Hb. apply uint_bits; [done| |].
  - apply Z.lor_nonneg. destruct Ha, Hb. lia.
  - intros i Hi. by rewrite Z.lor_spec, !(uint_testbit w) by done.
Qed.
Lemma uint_land_l w a b : 0 ≤ w → uint w a → uint w (a .& b).
Proof.
  intros Hw Ha. apply uint_bits; [done| |].
  - apply Z.land_nonneg. destruct Ha. lia.
  - intros i Hi. by rewrite Z.land_spec, (uint_testbit w).
Qed.
Lemma uint_land_r w a b : 0 ≤ w → uint w b → uint w (a .& b).
Proof. rewrite Z.land_comm. apply uint_land_l. Qed.
Lemma uint_shiftr w a n : 0 ≤ w → 0 ≤ n → uint w a → uint w (a >> n).
Proof.
  intros Hw Hn Ha. apply uint_bits; [done| |].
  - apply Z.shiftr_nonneg. by destruct Ha.
  - intros i Hi. rewrite Z.shiftr_spec, (uint_testbit w) by (done || lia). done.
Qed.
Lemma uint_shiftl w n a : 0 ≤ w → 0 ≤ n → uint w a → uint (w + n) (a << n).
Proof.
  intros Hw Hn [H0 H1]. unfold uint. rewrite Z.shiftl_mul_pow2, Z.pow_add_r by done.
  nia.
Qed.
Lemma uint_weaken w w' a : w ≤ w' → uint w a → uint w' a.
Proof.
  intros Hw [H0 H1]. split; [done|].
  eapply Z.lt_le_trans; [done|]. apply Z.pow_le_mono_r; lia.
Qed.

#[export] Hint Resolve u8_uint u16_uint u32_uint u64_uint : machine.
#[export] Hint Resolve uint_lxor uint_lor uint_land_l uint_land_r uint_shiftr : machine.
#[export] Hint Extern 1 (0 ≤ _) => lia : machine.

(** Closed range goals: [uint w c] for a literal [c]. *)
Ltac uint_lit := split; [discriminate || lia | reflexivity || lia].
#[export] Hint Extern 1 (uint _ _) => (uint_lit; fail) : machine.

(** A boolean check over an initial segment of the naturals, read back as a
    bounded quantifier: table facts are proved by evaluation. *)
Definition all_below (n : nat) (P : Z → bool) : bool :=
  forallb (λ k, P (Z.of_nat k)) (seq 0 n).

Lemma all_below_spec n P x : all_below n P = true → 0 ≤ x < Z.of_nat n → P x = true.
Proof.
  unfold all_below. rewrite List.forallb_forall. intros H Hx.
  rewrite <- (Z2Nat.id x) by lia. apply H, List.in_seq. lia.
Qed.

Lemma all_u8 (f g : Z → Z) x :
  all_below 256 (λ x, f x =? g x) = true → is_u8 x → f x = g x.
Proof. intros H Hx. apply Z.eqb_eq. by apply (all_below_spec 256 _ x H). Qed.

(** ** Words and bytes *)

(** The four bytes of a word, most significant first, and back. *)
Definition be32 (a b c d : Z) : Z := (a << 24) ⊕ (b << 16) ⊕ (c << 8) ⊕ d.
Definition byte_at (x k : Z) : Z := u8 (x >> (8 * k)).

Lemma lxor_interchange a b c d : (a ⊕ b) ⊕ (c ⊕ d) = (a ⊕ c) ⊕ (b ⊕ d).
Proof.
  apply Z.bits_inj'. intros i _. rewrite !Z.lxor_spec.
  by repeat destruct (Z.testbit _ _).
Qed.

Lemma be32_lxor a b c d a' b' c' d' :
  be32 a b c d ⊕ be32 a' b' c' d' = be32 (a ⊕ a') (b ⊕ b') (c ⊕ c') (d ⊕ d').
Proof.
  unfold be32. rewrite !Z.shiftl_lxor. apply Z.bits_inj'. intros i _.
  rewrite !Z.lxor_spec. by repeat destruct (Z.testbit _ _).
Qed.

(** Case analysis on a bit index below a literal bound. *)
Ltac bit_cases i n :=
  let rec go k :=
    lazymatch k with
    | O => exfalso; lia
    | S ?k' =>
        let z := eval cbv in (Z.of_nat k') in
        destruct (decide (i = z)) as [->|]; [|go k']
    end in go n.

Ltac testbit_spec :=
  rewrite ?Z.lxor_spec, ?Z.land_spec, ?Z.lor_spec, ?Z.shiftl_spec, ?Z.shiftr_spec by lia.

(** One rewriting step on a bit test at a closed index. *)
Ltac testbit_step :=
  match goal with
  | |- context [Z.testbit ?t (Zneg ?k)] => rewrite (Z.testbit_neg_r t (Zneg k)) by reflexivity
  | |- context [Z.testbit (Z.lxor ?a ?b) ?k] => rewrite (Z.lxor_spec a b k)
  | |- context [Z.testbit (Z.land ?a ?b) ?k] => rewrite (Z.land_spec a b k)
  | |- context [Z.testbit (Z.lor ?a ?b) ?k] => rewrite (Z.lor_spec a b k)
  | |- context [Z.testbit (Z.shiftl ?a ?n) ?k] =>
      rewrite (Z.shiftl_spec a n k) by (cbv; congruence);
      let j := eval cbv in (k - n) in change (k - n) with j
  | |- context [Z.testbit (Z.shiftr ?a ?n) ?k] =>
      rewrite (Z.shiftr_spec a n k) by (cbv; congruence);
      let j := eval cbv in (k + n) in change (k + n) with j
  | H : uint ?w ?a |- context [Z.testbit ?a ?k] =>
      rewrite (uint_testbit w a k H) by (cbv; congruence)
  | |- context [Z.testbit ?c ?k] =>
      let v := eval cbv in (Z.testbit c k) in
      match v with true => idtac | false => idtac end;
      change (Z.testbit c k) with v
  end.

Ltac bool_simp :=
  rewrite ?Bool.xorb_false_r, ?Bool.xorb_false_l, ?andb_true_r, ?andb_false_r,
    ?orb_false_r, ?orb_false_l.

Lemma uint_eq_bits w x y :
  uint w x → uint w y → (∀ i, 0 ≤ i < w → Z.testbit x i = Z.testbit y i) → x = y.
Proof.
  intros Hx Hy H. apply Z.bits_inj'. intros i Hi. destruct (decide (i < w)).
  - by apply H.
  - by rewrite !(uint_testbit w) by (done || lia).
Qed.

(** Close a bitwise identity at every index below the literal [n]. *)
Ltac by_bits n :=
  let i := fresh "i" in let Hi := fresh "Hi" in
  intros i Hi; bit_cases i n; clear Hi; repeat testbit_step; repeat progress bool_simp; reflexivity.

Lemma u32_byte_ext x y :
  is_u32 x → is_u32 y →
  byte_at x 0 = byte_at y 0 → byte_at x 1 = byte_at y 1 →
  byte_at x 2 = byte_at y 2 → byte_at x 3 = byte_at y 3 → x = y.
Proof.
  intros Hx Hy H0 H1 H2 H3. apply Z.bits_inj'. intros i Hi.
  assert (∀ k j, byte_at x k = byte_at y k → 0 ≤ k → 0 ≤ j < 8 →
    Z.testbit x (j + 8 * k) = Z.testbit y (j + 8 * k)) as Hk.
  { intros k j E Hk Hj. apply (f_equal (λ z, Z.testbit z j)) in E.
    unfold byte_at, u8 in E. change 0xff with (Z.ones 8) in E.
    rewrite !Z.land_spec, Z.testbit_ones_nonneg, !Z.shiftr_spec in E by lia.
    rewrite (proj2 (Z.ltb_lt j 8)), !andb_true_r in E by lia. done. }
  destruct (decide (i < 32)) as [Hlt|Hge].
  - assert (i = i mod 8 + 8 * (i / 8)) as E by (rewrite Z.add_comm; by apply Z.div_mod).
    pose proof (Z.mod_pos_bound i 8 ltac:(lia)).
    assert (0 ≤ i / 8 < 4) by (split; [apply Z.div_pos|apply Z.div_lt_upper_bound]; lia).
    rewrite E. apply Hk; [|lia|lia].
    assert (i / 8 = 0 ∨ i / 8 = 1 ∨ i / 8 = 2 ∨ i / 8 = 3) as [->|[->|[->| ->]]] by lia; done.
  - by rewrite !(uint_testbit 32) by (done || lia).
Qed.

Lemma be32_uint a b c d :
  is_u8 a → is_u8 b → is_u8 c → is_u8 d → is_u32 (be32 a b c d).
Proof.
  intros Ha Hb Hc Hd. unfold be32. repeat apply uint_lxor; try lia.
  - by apply (uint_shiftl 8 24).
  - apply (uint_weaken 24); [lia|]. by apply (uint_shiftl 8 16).
  - apply (uint_weaken 16); [lia|]. by apply (uint_shiftl 8 8).
  - apply (uint_weaken 8); [lia|done].
Qed.

Section be32_bytes.
Context (a b c d : Z) (Ha : is_u8 a) (Hb : is_u8 b) (Hc : is_u8 c) (Hd : is_u8 d).

Ltac solve_byte :=
    apply (uint_eq_bits 8); [apply u8_uint|done|];
    unfold byte_at, u8, be32; by_bits 8%nat.

Lemma byte_at_be32_0 : byte_at (be32 a b c d) 0 = d.
Proof using Ha Hb Hc Hd. solve_byte. Qed.
Lemma byte_at_be32_1 : byte_at (be32 a b c d) 1 = c.
Proof using Ha Hb Hc Hd. solve_byte. Qed.
Lemma byte_at_be32_2 : byte_at (be32 a b c d) 2 = b.
Proof using Ha Hb Hc Hd. solve_byte. Qed.
Lemma byte_at_be32_3 : byte_at (be32 a b c d) 3 = a.
Proof using Ha Hb Hc Hd. solve_byte. Qed.
End be32_bytes.

Lemma byte_at_uint x k : is_u8 (byte_at x k).
Proof. apply u8_uint. Qed.
#[export] Hint Resolve byte_at_uint be32_uint : machine.

Lemma be32_byte_at x :
  is_u32 x → be32 (byte_at x 3) (byte_at x 2) (byte_at x 1) (byte_at x 0) = x.
Proof.
  intros Hx. apply u32_byte_ext; [auto with machine|done|..].
  - by rewrite byte_at_be32_0 by auto with machine.
  - by rewrite byte_at_be32_1 by auto with machine.
  - by rewrite byte_at_be32_2 by auto with machine.
  - by rewrite byte_at_be32_3 by auto with machine.
Qed.

(** ** Arrays as lists *)

Lemma aget_lookup l i x : l !! i = Some x → l.[i] = x.
Proof.
  revert i. induction l as [|y l IH]; intros [|i]; cbn; try done.
  - by intros [= ->].
  - apply IH.
Qed.
Lemma lookup_aget l i : (i < length l)%nat → l !! i = Some (l.[i]).
Proof. intros Hi. destruct (lookup_lt_is_Some_2 l i Hi) as [x Hx]. by erewrite aget_lookup. Qed.
Lemma aget_default l i : (length l ≤ i)%nat → l.[i] = 0.
Proof. apply List.nth_overflow. Qed.

Lemma aget_drop l n i : (drop n l).[i] = l.[n + i].
Proof.
  revert n. induction l as [|x l IH]; intros [|n]; try done; [by destruct i|].
  apply IH.
Qed.
Lemma aget_take l n i : (i < n)%nat → (take n l).[i] = l.[i].
Proof.
  revert n i. induction l as [|x l IH]; intros [|n] [|i] Hi; try done; try lia.
  cbn. apply IH. lia.
Qed.
Lemma aget_app_l l k i : (i < length l)%nat → (l ++ k).[i] = l.[i].
Proof. apply List.app_nth1. Qed.
Lemma aget_app_r l k n i : length l = n → (l ++ k).[n + i] = k.[i].
Proof. intros <-. unfold aget. rewrite List.app_nth2 by lia. f_equal. lia. Qed.
Lemma aget_insert_eq (l : list Z) i x : (i < length l)%nat → (<[i:=x]> l).[i] = x.
Proof. intros. apply aget_lookup. by apply list_lookup_insert_eq. Qed.
Lemma aget_insert_ne (l : list Z) i j x : i ≠ j → (<[i:=x]> l).[j] = l.[j].
Proof.
  intros Hne. destruct (decide (j < length l)%nat).
  - apply aget_lookup. rewrite list_lookup_insert_ne by done. by apply lookup_aget.
  - rewrite !aget_default; [done|lia|rewrite length_insert; lia].
Qed.
Lemma aget_map {A} (f : A → Z) l i x : l !! i = Some x → (map f l).[i] = f x.
Proof. intros H. apply aget_lookup. by rewrite list_lookup_fmap, H. Qed.

Lemma list_aget_eq (l k : list Z) :
  length l = length k → (∀ i, (i < length l)%nat → l.[i] = k.[i]) → l = k.
Proof.
  intros Hl H. apply (list_eq_same_length l k (length l)); [done|done|].
  intros i x y Hi Hx Hy. rewrite <- (aget_lookup _ _ _ Hx), <- (aget_lookup _ _ _ Hy).
  by apply H.
Qed.

Lemma length_map_seq (f : nat → Z) a n : length (map f (seq a n)) = n.
Proof. by rewrite List.length_map, List.length_seq. Qed.
Lemma aget_map_seq (f : nat → Z) a n i : (i < n)%nat → (map f (seq a n)).[i] = f (a + i)%nat.
Proof. intros Hi. apply aget_map, lookup_seq. lia. Qed.

Lemma take_aget l n : (n ≤ length l)%nat → take n l = map (aget l) (seq 0 n).
Proof.
  intros Hn. apply list_aget_eq.
  - rewrite length_map_seq, length_take. lia.
  - intros i Hi. rewrite length_take in Hi.
    rewrite aget_take, aget_map_seq by lia. done.
Qed.

Lemma aget_uint w l i : 0 ≤ w → Forall (uint w) l → uint w (l.[i]).
Proof.
  intros Hw H. destruct (decide (i < length l)%nat).
  - eapply Forall_lookup_1; [done|]. by apply lookup_aget.
  - rewrite aget_default by lia. split; [done|]. by apply Z.pow_pos_nonneg.
Qed.
#[export] Hint Resolve aget_uint : machine.

Lemma length_xor_bytes a b : length a = length b → length (xor_bytes a b) = length a.
Proof. intros. unfold xor_bytes. rewrite length_zip_with. lia. Qed.
Lemma xor_bytes_uint a b : bytes a → bytes b → bytes (xor_bytes a b).
Proof.
  unfold bytes. intros Ha. revert b.
  induction Ha as [|x a Hx Ha IH]; intros b Hb; [constructor|].
  destruct Hb as [|y b Hy Hb]; cbn; constructor; [by apply uint_lxor|by apply IH].
Qed.
Lemma aget_xor_bytes a b i :
  (i < length a)%nat → (i < length b)%nat → (xor_bytes a b).[i] = a.[i] ⊕ b.[i].
Proof.
  intros Ha Hb. apply aget_lookup. unfold xor_bytes.
  by rewrite lookup_zip_with, !lookup_aget by done.
Qed.
(** Applying the same keystream twice restores the text. *)
Lemma xor_bytes_cancel a k :
  length a = length k → xor_bytes (xor_bytes a k) k = a.
Proof.
  revert k. induction a as [|x a IH]; intros [|y k] Hl; try done. cbn in *.
  f_equal; [|apply IH; lia]. by rewrite Z.lxor_assoc, Z.lxor_nilpotent, Z.lxor_0_r.
Qed.
Lemma xor_bytes_comm a b : xor_bytes a b = xor_bytes b a.
Proof.
  revert b. induction a as [|x a IH]; intros [|y b]; try done. cbn.
  by rewrite Z.lxor_comm, IH.
Qed.
Lemma bytes_app a b : bytes a → bytes b → bytes (a ++ b).
Proof. apply Forall_app_2. Qed.
Lemma bytes_take n a : bytes a → bytes (take n a).
Proof. apply Forall_take. Qed.
Lemma bytes_drop n a : bytes a → bytes (drop n a).
Proof. apply Forall_drop. Qed.
Lemma bytes_replicate n v : is_u8 v → bytes (replicate n v).
Proof. apply Forall_replicate. Qed.
#[export] Hint Resolve bytes_app bytes_take bytes_drop bytes_replicate xor_bytes_uint : machine.

(** ** Big-endian numbers *)
Definition be_val (l : list Z) : Z := fold_left (λ acc b, acc * 256 + b) l 0.
Fixpoint be_bytes (n : nat) (z : Z) : list Z :=
  match n with
  | O => []
  | S n => be_bytes n (z / 256) ++ [z mod 256]
  end.

Lemma be_val_snoc l b : be_val (l ++ [b]) = be_val l * 256 + b.
Proof. unfold be_val. by rewrite fold_left_app. Qed.
Lemma length_be_bytes n z : length (be_bytes n z) = n.
Proof. revert z. induction n; intros; cbn; [done|]. rewrite length_app, IHn. cbn. lia. Qed.
Lemma be_bytes_uint n z : bytes (be_bytes n z).
Proof.
  revert z. induction n; intros; cbn; [constructor|].
  apply bytes_app; [done|]. constructor; [|constructor].
  by apply (Z.mod_pos_bound z 256).
Qed.
Lemma be_val_nonneg l : bytes l → 0 ≤ be_val l.
Proof.
  induction l as [|b l IH] using rev_ind; [done|]. intros [Hl Hb]%Forall_app.
  rewrite be_val_snoc. inversion Hb as [|? ? [? ?] ?]; subst. specialize (IH Hl). lia.
Qed.
Lemma be_bytes_val l : bytes l → be_bytes (length l) (be_val l) = l.
Proof.
  induction l as [|b l IH] using rev_ind; [done|]. intros [Hl Hb]%Forall_app.
  rewrite length_app, Nat.add_1_r, be_val_snoc. cbn [be_bytes].
  inversion Hb as [|? ? [Hb0 Hb1] ?]; subst. change (2 ^ 8) with 256 in Hb1.
  rewrite Z.div_add_l, (Z.div_small b), Z.add_0_r, IH by (done || lia).
  by rewrite Z.add_comm, Z.mod_add, Z.mod_small by lia.
Qed.
Lemma be_val_bytes n z : 0 ≤ z < 256 ^ Z.of_nat n → be_val (be_bytes n z) = z.
Proof.
  revert z. induction n as [|n IH]; intros z Hz.
  - cbn in *. lia.
  - cbn [be_bytes]. rewrite be_val_snoc, IH; [pose proof (Z.div_mod z 256); lia|].
    rewrite Nat2Z.inj_succ, Z.pow_succ_r in Hz by lia. split; [apply Z.div_pos; lia|].
    apply Z.div_lt_upper_bound; lia.
Qed.
Lemma be_bytes_mod n z : be_bytes n (z mod 256 ^ Z.of_nat n) = be_bytes n z.
Proof.
  revert z. induction n as [|n IH]; intros z; [done|]. cbn [be_bytes].
  assert (0 < 256 ^ Z.of_nat n) by (apply Z.pow_pos_nonneg; lia).
  rewrite Nat2Z.inj_succ, Z.pow_succ_r by lia.
  rewrite Z.rem_mul_r by lia.
  f_equal.
  - rewrite Z.add_comm, (Z.mul_comm 256), Z.div_add_l by lia.
    rewrite (Z.div_small (z mod 256)), Z.add_0_r by (apply Z.mod_pos_bound; lia). apply IH.
  - rewrite (Z.mul_comm 256), Z.mod_add, Z.mod_mod by lia. done.
Qed.

(** ** Keystreams *)

(** [n] consecutive blocks of a block generator. *)
Definition stream (f : nat → list Z) (n : nat) : list Z := concat (map f (seq 0 n)).

Lemma stream_S f n : stream f (S n) = f 0%nat ++ stream (λ i, f (S i)) n.
Proof. unfold stream. cbn. f_equal. rewrite <- seq_shift, map_map. done. Qed.

Lemma length_stream f n :
  (∀ i, length (f i) = 16%nat) → length (stream f n) = (16 * n)%nat.
Proof.
  revert f. induction n as [|n IH]; intros f Hf; [done|].
  rewrite stream_S, length_app, Hf, IH by done. lia.
Qed.

Lemma aget_stream f n j :
  (∀ i, length (f i) = 16%nat) → (j < 16 * n)%nat →
  (stream f n).[j] = (f (j / 16)%nat).[j mod 16].
Proof.
  revert f j. induction n as [|n IH]; intros f j Hf Hj; [lia|].
  rewrite stream_S. destruct (decide (j < 16)%nat) as [Hlt|Hge].
  - rewrite aget_app_l by (rewrite Hf; lia). by rewrite Nat.div_small, Nat.mod_small.
  - replace j with (16 + (j - 16))%nat by lia. rewrite aget_app_r by done.
    rewrite IH by (done || lia).
    replace (16 + (j - 16))%nat with ((j - 16) + 1 * 16)%nat by lia.
    rewrite Nat.div_add, Nat.Div0.mod_add by lia. by rewrite Nat.add_1_r.
Qed.

Lemma stream_ext f g n : (∀ i, (i < n)%nat → f i = g i) → stream f n = stream g n.
Proof.
  intros H. unfold stream. f_equal. apply map_ext_in. intros i Hi%in_seq. apply H. lia.
Qed.

Lemma xor_bytes_app a b k l :
  length a = length k → xor_bytes (a ++ b) (k ++ l) = xor_bytes a k ++ xor_bytes b l.
Proof. intros. by apply zip_with_app. Qed.
Lemma xor_bytes_app_short a k l :
  (length a ≤ length k)%nat → xor_bytes a (k ++ l) = xor_bytes a k.
Proof.
  revert k. induction a as [|x a IH]; intros [|y k] H; cbn in *; try done; try lia.
  f_equal. apply IH. lia.
Qed.
Lemma xor_bytes_take_r a k : xor_bytes a k = xor_bytes a (take (length a) k).
Proof.
  revert k. induction a as [|x a IH]; intros [|y k]; try done. cbn. f_equal. apply IH.
Qed.
(** Applying a long enough keystream twice restores the text. *)
Lemma xor_bytes_twice a k : (length a ≤ length k)%nat → xor_bytes (xor_bytes a k) k = a.
Proof.
  revert k. induction a as [|x a IH]; intros [|y k] Hl; cbn in *; try done; try lia.
  f_equal; [|apply IH; lia]. by rewrite Z.lxor_assoc, Z.lxor_nilpotent, Z.lxor_0_r.
Qed.
Lemma length_xor_bytes_le a k : (length a ≤ length k)%nat → length (xor_bytes a k) = length a.
Proof. intros. unfold xor_bytes. rewrite length_zip_with. lia. Qed.

(** ** Outcomes of a C function

    [Ret v]: it returns normally; [Err e]: it returns the error code [e];
    [Oob]: it reads or writes outside an object, which C leaves undefined. *)
Inductive cres (A : Type) : Type :=
  | Ret (a : A)
  | Err (e : Z)
  | Oob.
Arguments Ret {_} _.
Arguments Err {_} _.
Arguments Oob {_}.

Definition cbind {A B} (m : cres A) (k : A → cres B) : cres B :=
  match m with Ret a => k a | Err e => Err e | Oob => Oob end.
Notation "'let*' x := m 'in' k" := (cbind m (λ x, k))
  (at level 10, x pattern, k at level 200) : c_scope.

(** Sequential in-place xor of [src] into [dst] from index [i] on. *)
Fixpoint xor_at (i : nat) (dst src : list Z) : list Z :=
  match src with
  | [] => dst
  | x :: src => xor_at (S i) (<[i:=dst.[i] ⊕ x]> dst) src
  end.

Lemma length_xor_at i dst src : length (xor_at i dst src) = length dst.
Proof.
  revert i dst. induction src as [|x src IH]; intros i dst; [done|].
  cbn [xor_at]. by rewrite IH, length_insert.
Qed.
Lemma aget_xor_at i dst src k :
  (i + length src ≤ length dst)%nat →
  (xor_at i dst src).[k] =
    if ((i <=? k) && (k <? i + length src))%nat then dst.[k] ⊕ src.[k - i] else dst.[k].
Proof.
  revert i dst. induction src as [|x src IH]; intros i dst Hl; cbn [xor_at length] in *.
  - destruct (Nat.leb_spec i k), (Nat.ltb_spec k (i + 0)); cbn; try done; lia.
  - rewrite IH by (rewrite length_insert; lia).
    destruct (decide (i = k)) as [->|Hne].
    + rewrite (proj2 (Nat.leb_gt (S k) k)), Nat.leb_refl by lia. cbn [andb].
      rewrite (proj2 (Nat.ltb_lt k (k + S (length src)))) by lia.
      rewrite aget_insert_eq, Nat.sub_diag by lia. done.
    + rewrite aget_insert_ne by done.
      replace (k <? S i + length src)%nat with (k <? i + S (length src))%nat
        by (f_equal; lia).
      destruct (Nat.leb_spec (S i) k), (Nat.leb_spec i k); try lia; cbn [andb]; try done.
      destruct (Nat.ltb_spec k (i + S (length src))); [|done].
      replace (k - i)%nat with (S (k - S i)) by lia. done.
Qed.
Lemma aget_replicate n v i : (i < n)%nat → (replicate n v).[i] = v.
Proof. intros. apply aget_lookup. by apply lookup_replicate_2. Qed.
Lemma xor_at_0 dst src :
  (length src ≤ length dst)%nat →
  xor_at 0 dst src = xor_bytes dst (src ++ replicate (length dst - length src) 0).
Proof.
  intros Hl. apply list_aget_eq.
  - rewrite length_xor_at, length_xor_bytes_le;
      [done|rewrite length_app, length_replicate; lia].
  - rewrite length_xor_at. intros i Hi.
    rewrite aget_xor_at, aget_xor_bytes by (rewrite ?length_app, ?length_replicate; lia).
    cbn [Nat.leb andb]. rewrite Nat.add_0_l, Nat.sub_0_r.
    destruct (Nat.ltb_spec i (length src)).
    + by rewrite aget_app_l.
    + replace i with (length src + (i - length src))%nat at 3 by lia.
      rewrite aget_app_r, aget_replicate, Z.lxor_0_r by lia. done.
Qed.

Lemma xor_at_shift p q src :
  xor_at (length p) (p ++ q) src = p ++ xor_at 0 q src.
Proof.
  assert (∀ i q, xor_at (length p + i) (p ++ q) src = p ++ xor_at i q src) as H.
  { induction src as [|x src IH]; intros i q'; [done|]. cbn [xor_at].
    rewrite aget_app_r by done. rewrite insert_app_r. rewrite <- Nat.add_succ_r. apply IH. }
  rewrite <- (Nat.add_0_r (length p)). apply H.
Qed.

Lemma xor_at_app p q src :
  length src = length p → xor_at 0 (p ++ q) src = xor_bytes p src ++ q.
Proof.
  intros H. rewrite xor_at_0 by (rewrite length_app; lia). rewrite length_app.
  replace (length p + length q - length src)%nat with (length q) by lia.
  rewrite xor_bytes_app by done. f_equal.
  clear. induction q as [|x q IH]; [done|]. unfold xor_bytes in *. cbn [length replicate zip_with].
  by rewrite IH, Z.lxor_0_r.
Qed.

Lemma be_val_cons b l : be_val (b :: l) = b * 256 ^ Z.of_nat (length l) + be_val l.
Proof.
  induction l as [|c l IH] using rev_ind; [cbn; lia|].
  rewrite app_comm_cons, !be_val_snoc, IH, length_app, Nat.add_1_r, Nat2Z.inj_succ.
  rewrite Z.pow_succ_r by lia. lia.
Qed.
Lemma be_val_bound l : bytes l → be_val l < 256 ^ Z.of_nat (length l).
Proof.
  induction l as [|b l IH] using rev_ind; [done|]. intros [Hl Hb]%Forall_app.
  rewrite be_val_snoc, length_app, Nat.add_1_r, Nat2Z.inj_succ, Z.pow_succ_r by lia.
  inversion Hb as [|? ? [Hb0 Hb1] ?]; subst. change (2 ^ 8) with 256 in Hb1.
  specialize (IH Hl). lia.
Qed.
Lemma be_val_be_bytes n z : be_val (be_bytes n z) = z mod 256 ^ Z.of_nat n.
Proof.
  rewrite <- be_bytes_mod, be_val_bytes; [done|].
  apply Z.mod_pos_bound, Z.pow_pos_nonneg; lia.
Qed.

Lemma memcpy_eq dst o src :
  (o + length src ≤ length dst)%nat →
  memcpy dst o src = take o dst ++ src ++ drop (o + length src) dst.
Proof.
  intros H. unfold memcpy. rewrite <- (take_drop o dst) at 1.
  replace o with (length (take o dst) + 0)%nat at 1 by (rewrite length_take; lia).
  rewrite list_inserts_app_r. f_equal.
  rewrite <- (take_drop (length src) (drop o dst)).
  rewrite list_inserts_0_r by (rewrite length_take, length_drop; lia).
  by rewrite drop_drop.
Qed.
Lemma length_memcpy dst o src : length (memcpy dst o src) = length dst.
Proof. apply length_inserts. Qed.

(** A test of one bit with a mask. *)
Lemma land_bit_eqb a n : 0 ≤ n → (a .& 2 ^ n =? 0) = negb (Z.testbit a n).
Proof.
  intros Hn. destruct (Z.eqb_spec (a .& 2 ^ n) 0) as [E|E].
  - apply (f_equal (λ z, Z.testbit z n)) in E. rewrite Z.land_spec, Z.bits_0, Z.pow2_bits_true in E by done.
    rewrite andb_true_r in E. by rewrite E.
  - destruct (Z.testbit a n) eqn:B; [done|]. destruct E. apply Z.bits_inj'. intros i Hi.
    rewrite Z.land_spec, Z.bits_0, Z.pow2_bits_eqb by done.
    destruct (Z.eqb_spec n i) as [->|]; [by rewrite B|apply andb_false_r].
Qed.

(** Two folds over the same list keep a relation between their states. *)
Lemma fold_left_rel {A B C} (R : A → B → Prop) (f : A → C → A) (g : B → C → B) (P : C → Prop) l a b :
  R a b → Forall P l → (∀ a b c, R a b → P c → R (f a c) (g b c)) →
  R (fold_left f l a) (fold_left g l b).
Proof.
  intros H Hl Hs. revert a b H. induction Hl as [|c l Hc Hl IH]; intros a b H; [done|].
  apply IH, Hs; done.
Qed.

(** Concrete byte strings are checked by evaluation. *)
Definition bytesb (l : list Z) : bool := forallb (λ x, (0 <=? x) && (x <? 256)) l.
Lemma bytesb_spec l : bytesb l = true → bytes l.
Proof.
  unfold bytesb. rewrite List.forallb_forall. intros H. apply List.Forall_forall.
  intros x Hx. specialize (H x Hx). apply andb_true_iff in H as [H1 H2].
  apply Z.leb_le in H1. apply Z.ltb_lt in H2. by split.
Qed.
Ltac bytes_lit := apply bytesb_spec; vm_compute; reflexivity.

(** A number from its low byte and the rest. *)
Lemma lor_split8 z : (z / 256 << 8) .| z mod 256 = z.
Proof.
  change 256 with (2 ^ 8). rewrite <- Z.shiftr_div_pow2, <- Z.land_ones by lia.
  apply Z.bits_inj'. intros i Hi. rewrite Z.lor_spec, Z.land_spec, Z.shiftl_spec, Z.testbit_ones_nonneg by lia.
  destruct (Z.ltb_spec i 8).
  - rewrite (Z.testbit_neg_r _ (i - 8)) by lia. by rewrite andb_true_r.
  - rewrite Z.shiftr_spec, andb_false_r, orb_false_r by lia. f_equal. lia.
Qed.
