(* ===== verification/Fips197.v ===== *)
(** * AES as FIPS-197 defines it

    The abstract specification the driver's two AES implementations are
    compared with: arithmetic in GF(2^8), the S-box as inversion followed by
    the affine map, the round transformations on the 16-byte state, the key
    expansion and the cipher.  Nothing here is taken from the driver. *)
From S2P Require Import Prelude.

(** ** The field GF(2^8) modulo x^8 + x^4 + x^3 + x + 1 *)
Definition xtime (a : Z) : Z :=
  if Z.testbit a 7 then u8 (a << 1) ⊕ 0x1b else a << 1.

Definition gmul (a b : Z) : Z :=
  foldr (λ k acc, (if Z.testbit b (Z.of_nat k) then Nat.iter k xtime a else 0) ⊕ acc)
    0 (seq 0 8).

Definition gsquare (a : Z) : Z := gmul a a.

(** Inversion as the power 254 = 2 + 4 + 8 + 16 + 32 + 64 + 128. *)
Definition ginv (a : Z) : Z :=
  let a2 := gsquare a in let a4 := gsquare a2 in let a8 := gsquare a4 in
  let a16 := gsquare a8 in let a32 := gsquare a16 in let a64 := gsquare a32 in
  let a128 := gsquare a64 in
  gmul a2 (gmul a4 (gmul a8 (gmul a16 (gmul a32 (gmul a64 a128))))).

(** ** The S-box *)
Definition rotl8 (a k : Z) : Z := u8 (a << k) .| (a >> (8 - k)).

Definition SBox (x : Z) : Z :=
  let b := ginv x in
  b ⊕ rotl8 b 1 ⊕ rotl8 b 2 ⊕ rotl8 b 3 ⊕ rotl8 b 4 ⊕ 0x63.

(** The inverse S-box: inverse affine map, then inversion. *)
Definition InvSBox (y : Z) : Z :=
  ginv (rotl8 y 1 ⊕ rotl8 y 3 ⊕ rotl8 y 6 ⊕ 0x05).

(** ** Round transformations on the state, a 16-byte list in column order *)
Definition SubBytes (s : list Z) : list Z := map SBox s.

Definition ShiftRows (s : list Z) : list Z :=
  map (λ k, let c := (k / 4)%nat in let r := (k mod 4)%nat in
            s.[r + 4 * ((c + r) mod 4)]) (seq 0 16).

Definition MixColumn (a b c d : Z) : list Z :=
  [ gmul 2 a ⊕ gmul 3 b ⊕ c ⊕ d;
    a ⊕ gmul 2 b ⊕ gmul 3 c ⊕ d;
    a ⊕ b ⊕ gmul 2 c ⊕ gmul 3 d;
    gmul 3 a ⊕ b ⊕ c ⊕ gmul 2 d ].

Definition MixColumns (s : list Z) : list Z :=
  concat (map (λ c, MixColumn s.[4 * c] s.[4 * c + 1] s.[4 * c + 2] s.[4 * c + 3])
    (seq 0 4)).

(** The bytes of a word, most significant first. *)
Definition word_bytes (w : Z) : list Z :=
  [byte_at w 3; byte_at w 2; byte_at w 1; byte_at w 0].

Definition AddRoundKey (s w : list Z) : list Z := xor_bytes s (concat (map word_bytes w)).

(** ** Key expansion *)
Definition SubWord (w : Z) : Z :=
  be32 (SBox (byte_at w 3)) (SBox (byte_at w 2)) (SBox (byte_at w 1)) (SBox (byte_at w 0)).
Definition RotWord (w : Z) : Z :=
  be32 (byte_at w 2) (byte_at w 1) (byte_at w 0) (byte_at w 3).
Definition Rcon (i : nat) : Z := be32 (Nat.iter (i - 1) xtime 1) 0 0 0.

(** One more word [w[i]], where [i] is the number of words so far. *)
Definition KeyStep (Nk : nat) (w : list Z) : list Z :=
  let i := length w in
  let temp := w.[i - 1] in
  let temp :=
    if (i mod Nk =? 0)%nat then SubWord (RotWord temp) ⊕ Rcon (i / Nk)
    else if ((6 <? Nk) && (i mod Nk =? 4))%nat then SubWord temp
    else temp in
  w ++ [w.[i - Nk] ⊕ temp].

Definition key_words (Nk : nat) (key : list Z) : list Z :=
  map (λ j, be32 key.[4 * j] key.[4 * j + 1] key.[4 * j + 2] key.[4 * j + 3]) (seq 0 Nk).

Definition KeyExpansion (Nk Nr : nat) (key : list Z) : list Z :=
  Nat.iter (4 * (Nr + 1) - Nk) (KeyStep Nk) (key_words Nk key).

(** ** The cipher *)
Definition round_key (w : list Z) (r : nat) : list Z := take 4 (drop (4 * r) w).

Definition Round (w s : list Z) (r : nat) : list Z :=
  AddRoundKey (MixColumns (ShiftRows (SubBytes s))) (round_key w r).

Definition Cipher (Nr : nat) (w inp : list Z) : list Z :=
  let s := AddRoundKey inp (round_key w 0) in
  let s := fold_left (Round w) (seq 1 (Nr - 1)) s in
  AddRoundKey (ShiftRows (SubBytes s)) (round_key w Nr).

(** The appendix B example of the standard. *)
Example fips197_appendix_B :
  let key := [0x2b;0x7e;0x15;0x16;0x28;0xae;0xd2;0xa6;0xab;0xf7;0x15;0x88;0x09;0xcf;0x4f;0x3c] in
  Cipher 10 (KeyExpansion 4 10 key)
    [0x32;0x43;0xf6;0xa8;0x88;0x5a;0x30;0x8d;0x31;0x31;0x98;0xa2;0xe0;0x37;0x07;0x34]
  = [0x39;0x25;0x84;0x1d;0x02;0xdc;0x09;0xfb;0xdc;0x11;0x85;0x97;0x19;0x6a;0x0b;0x32].
Proof. vm_compute. reflexivity. Qed.

(** ** Facts about the specification *)
Definition u8_closed (f : Z → Z) : bool :=
  all_below 256 (λ x, (0 <=? f x) && (f x <? 256)).

Lemma u8_closed_spec f x : u8_closed f = true → is_u8 x → is_u8 (f x).
Proof.
  unfold u8_closed. intros H Hx. apply (all_below_spec 256 _ x) in H as E; [|done].
  apply andb_prop in E as [E1 E2]. split; [by apply Z.leb_le|by apply Z.ltb_lt].
Qed.

Lemma SBox_uint x : is_u8 x → is_u8 (SBox x).
Proof. apply u8_closed_spec. vm_compute. reflexivity. Qed.
Lemma InvSBox_uint x : is_u8 x → is_u8 (InvSBox x).
Proof. apply u8_closed_spec. vm_compute. reflexivity. Qed.
Lemma InvSBox_SBox x : is_u8 x → InvSBox (SBox x) = x.
Proof. apply (all_u8 (λ x, InvSBox (SBox x)) (λ x, x)). vm_compute. reflexivity. Qed.
Lemma gmul2_uint x : is_u8 x → is_u8 (gmul 2 x).
Proof. apply (u8_closed_spec (gmul 2)). vm_compute. reflexivity. Qed.
Lemma gmul3_uint x : is_u8 x → is_u8 (gmul 3 x).
Proof. apply (u8_closed_spec (gmul 3)). vm_compute. reflexivity. Qed.
#[export] Hint Resolve SBox_uint InvSBox_uint gmul2_uint gmul3_uint : machine.

Lemma SubWord_uint w : is_u32 (SubWord w).
Proof. unfold SubWord. auto 10 with machine. Qed.
Lemma RotWord_uint w : is_u32 (RotWord w).
Proof. unfold RotWord. auto 10 with machine. Qed.
#[export] Hint Resolve SubWord_uint RotWord_uint : machine.

Lemma xtime_uint x : is_u8 x → is_u8 (xtime x).
Proof. apply u8_closed_spec. vm_compute. reflexivity. Qed.
Lemma Rcon_uint i : is_u32 (Rcon i).
Proof.
  unfold Rcon. apply be32_uint; [|by uint_lit..].
  induction (i - 1)%nat as [|n IH]; [by uint_lit|]. rewrite Nat.iter_succ. by apply xtime_uint.
Qed.
#[export] Hint Resolve Rcon_uint : machine.
