(* ===== verification/Aes.v ===== *)
(** * AES: [core/crypto/aes-internal.c], [aes-internal-enc.c] and [aes_i.h]

    The table lookups of both build configurations, the key schedule
    [rijndaelKeySetupEnc], the block encryption [rijndaelEncrypt] and the
    context functions [aes_encrypt_init]/[aes_encrypt].  The refinement
    theorems relate them to [Fips197]. *)
From S2P Require Import Prelude Fips197 AesTables.

Definition AES_BLOCK_SIZE : nat := 16.

(** ** Table access, [aes_i.h] *)

(** [static inline u32 rotr(u32 val, int bits)] *)
Definition rotr (val bits : Z) : Z := (val >> bits) .| u32 (val << (32 - bits)).

Definition tbl (t : list Z) (x : Z) : Z := t.[Z.to_nat x].

(** The index expressions [((i) >> 24) & 0xff] .. [(i) & 0xff]. *)
Definition b3 (i : Z) : Z := (i >> 24) .& 0xff.
Definition b2 (i : Z) : Z := (i >> 16) .& 0xff.
Definition b1 (i : Z) : Z := (i >> 8) .& 0xff.
Definition b0 (i : Z) : Z := i .& 0xff.

(** The configuration that is built: [AES_SMALL_TABLES] is defined. *)
Module Small.
Definition RCON (i : nat) : Z := u32 (rcons.[i] << 24).
Definition TE0 i := tbl Te0 (b3 i).
Definition TE1 i := rotr (tbl Te0 (b2 i)) 8.
Definition TE2 i := rotr (tbl Te0 (b1 i)) 16.
Definition TE3 i := rotr (tbl Te0 (b0 i)) 24.
Definition TE41 i := u32 (tbl Te0 (b3 i) << 8) .& 0xff000000.
Definition TE42 i := tbl Te0 (b2 i) .& 0x00ff0000.
Definition TE43 i := tbl Te0 (b1 i) .& 0x0000ff00.
Definition TE44 i := (tbl Te0 (b0 i) >> 8) .& 0x000000ff.
Definition TE421 i := u32 (tbl Te0 (b2 i) << 8) .& 0xff000000.
Definition TE432 i := tbl Te0 (b1 i) .& 0x00ff0000.
Definition TE443 i := tbl Te0 (b0 i) .& 0x0000ff00.
Definition TE414 i := (tbl Te0 (b3 i) >> 8) .& 0x000000ff.
Definition TE411 i := u32 (tbl Te0 (b3 i) << 8) .& 0xff000000.
Definition TE422 i := tbl Te0 (b2 i) .& 0x00ff0000.
Definition TE433 i := tbl Te0 (b1 i) .& 0x0000ff00.
Definition TE444 i := (tbl Te0 (b0 i) >> 8) .& 0x000000ff.
Definition TD0 i := tbl Td0 (b3 i).
Definition TD1 i := rotr (tbl Td0 (b2 i)) 8.
Definition TD2 i := rotr (tbl Td0 (b1 i)) 16.
Definition TD3 i := rotr (tbl Td0 (b0 i)) 24.
Definition TD41 i := u32 (tbl Td4s (b3 i) << 24).
Definition TD42 i := u32 (tbl Td4s (b2 i) << 16).
Definition TD43 i := u32 (tbl Td4s (b1 i) << 8).
Definition TD44 i := tbl Td4s (b0 i).
End Small.

(** The configuration without [AES_SMALL_TABLES]. *)
Module Large.
Definition RCON (i : nat) : Z := rcon.[i].
Definition TE0 i := tbl Te0 (b3 i).
Definition TE1 i := tbl Te1 (b2 i).
Definition TE2 i := tbl Te2 (b1 i).
Definition TE3 i := tbl Te3 (b0 i).
Definition TE41 i := tbl Te4 (b3 i) .& 0xff000000.
Definition TE42 i := tbl Te4 (b2 i) .& 0x00ff0000.
Definition TE43 i := tbl Te4 (b1 i) .& 0x0000ff00.
Definition TE44 i := tbl Te4 (b0 i) .& 0x000000ff.
Definition TE421 i := tbl Te4 (b2 i) .& 0xff000000.
Definition TE432 i := tbl Te4 (b1 i) .& 0x00ff0000.
Definition TE443 i := tbl Te4 (b0 i) .& 0x0000ff00.
Definition TE414 i := tbl Te4 (b3 i) .& 0x000000ff.
Definition TE411 i := tbl Te4 (b3 i) .& 0xff000000.
Definition TE422 i := tbl Te4 (b2 i) .& 0x00ff0000.
Definition TE433 i := tbl Te4 (b1 i) .& 0x0000ff00.
Definition TE444 i := tbl Te4 (b0 i) .& 0x000000ff.
Definition TD0 i := tbl Td0 (b3 i).
Definition TD1 i := tbl Td1 (b2 i).
Definition TD2 i := tbl Td2 (b1 i).
Definition TD3 i := tbl Td3 (b0 i).
Definition TD41 i := tbl Td4 (b3 i) .& 0xff000000.
Definition TD42 i := tbl Td4 (b2 i) .& 0x00ff0000.
Definition TD43 i := tbl Td4 (b1 i) .& 0x0000ff00.
Definition TD44 i := tbl Td4 (b0 i) .& 0x000000ff.
End Large.
Import Small.

(** [GETU32] and [PUTU32] *)
Definition GETU32 (pt : list Z) (o : nat) : Z :=
  (pt.[o] << 24) ⊕ (pt.[o + 1] << 16) ⊕ (pt.[o + 2] << 8) ⊕ pt.[o + 3].
Definition PUTU32 (st : Z) : list Z := [u8 (st >> 24); u8 (st >> 16); u8 (st >> 8); u8 st].

(** ** Key schedule

    [rk] is the list of words written so far; every store of the code is to
    the next index, so a store is an append.  The moving pointer [rk += Nk]
    of the loops is the offset [o]. *)
Definition ks128_step (i : nat) (rk : list Z) : list Z :=
  let o := (4 * i)%nat in
  let temp := rk.[o + 3] in
  let rk4 := rk.[o] ⊕ TE421 temp ⊕ TE432 temp ⊕ TE443 temp ⊕ TE414 temp ⊕ RCON i in
  let rk5 := rk.[o + 1] ⊕ rk4 in
  let rk6 := rk.[o + 2] ⊕ rk5 in
  let rk7 := rk.[o + 3] ⊕ rk6 in
  rk ++ [rk4; rk5; rk6; rk7].

(** The first four stores of an iteration of the 192-bit loop, after which
    the last iteration returns, and the remaining two. *)
Definition ks192_head (i : nat) (rk : list Z) : list Z :=
  let o := (6 * i)%nat in
  let temp := rk.[o + 5] in
  let rk6 := rk.[o] ⊕ TE421 temp ⊕ TE432 temp ⊕ TE443 temp ⊕ TE414 temp ⊕ RCON i in
  let rk7 := rk.[o + 1] ⊕ rk6 in
  let rk8 := rk.[o + 2] ⊕ rk7 in
  let rk9 := rk.[o + 3] ⊕ rk8 in
  rk ++ [rk6; rk7; rk8; rk9].
Definition ks192_tail (i : nat) (rk : list Z) : list Z :=
  let o := (6 * i)%nat in
  let rk10 := rk.[o + 4] ⊕ rk.[o + 9] in
  let rk11 := rk.[o + 5] ⊕ rk10 in
  rk ++ [rk10; rk11].

Definition ks256_head (i : nat) (rk : list Z) : list Z :=
  let o := (8 * i)%nat in
  let temp := rk.[o + 7] in
  let rk8 := rk.[o] ⊕ TE421 temp ⊕ TE432 temp ⊕ TE443 temp ⊕ TE414 temp ⊕ RCON i in
  let rk9 := rk.[o + 1] ⊕ rk8 in
  let rk10 := rk.[o + 2] ⊕ rk9 in
  let rk11 := rk.[o + 3] ⊕ rk10 in
  rk ++ [rk8; rk9; rk10; rk11].
Definition ks256_tail (i : nat) (rk : list Z) : list Z :=
  let o := (8 * i)%nat in
  let temp := rk.[o + 11] in
  let rk12 := rk.[o + 4] ⊕ TE411 temp ⊕ TE422 temp ⊕ TE433 temp ⊕ TE444 temp in
  let rk13 := rk.[o + 5] ⊕ rk12 in
  let rk14 := rk.[o + 6] ⊕ rk13 in
  let rk15 := rk.[o + 7] ⊕ rk14 in
  rk ++ [rk12; rk13; rk14; rk15].

(** [for (i = from; ; i++)] whose iteration [last] returns after [head]. *)
Fixpoint ks_loop (head tail : nat → list Z → list Z) (last i n : nat) (rk : list Z)
    : list Z :=
  match n with
  | O => rk
  | S n =>
      let rk := head i rk in
      if (i =? last)%nat then rk
      else ks_loop head tail last (S i) n (tail i rk)
  end.

(** The number of rounds (or -1) and the words written. *)
Definition rijndaelKeySetupEnc (key : list Z) (keyBits : Z) : Z * list Z :=
  let rk := [GETU32 key 0; GETU32 key 4; GETU32 key 8; GETU32 key 12] in
  if keyBits =? 128 then
    (10, fold_left (λ rk i, ks128_step i rk) (seq 0 10) rk)
  else
  let rk := rk ++ [GETU32 key 16; GETU32 key 20] in
  if keyBits =? 192 then (12, ks_loop ks192_head ks192_tail 7 0 8 rk)
  else
  let rk := rk ++ [GETU32 key 24; GETU32 key 28] in
  if keyBits =? 256 then (14, ks_loop ks256_head ks256_tail 6 0 7 rk)
  else (-1, rk).

(** ** Block encryption *)
Record cols := Cols { c0 : Z; c1 : Z; c2 : Z; c3 : Z }.

(** The macro [ROUND(i,d,s)]. *)
Definition ROUND (i : nat) (rk : list Z) (s : cols) : cols :=
  let '(Cols s0 s1 s2 s3) := s in
  Cols (TE0 s0 ⊕ TE1 s1 ⊕ TE2 s2 ⊕ TE3 s3 ⊕ rk.[4 * i])
       (TE0 s1 ⊕ TE1 s2 ⊕ TE2 s3 ⊕ TE3 s0 ⊕ rk.[4 * i + 1])
       (TE0 s2 ⊕ TE1 s3 ⊕ TE2 s0 ⊕ TE3 s1 ⊕ rk.[4 * i + 2])
       (TE0 s3 ⊕ TE1 s0 ⊕ TE2 s1 ⊕ TE3 s2 ⊕ rk.[4 * i + 3]).

(** [r = Nr >> 1; for (;;) { ROUND(1,t,s); rk += 8; if (--r == 0) break;
    ROUND(0,s,t); }]: the state [t] and the advanced key pointer. *)
Fixpoint enc_loop (r : nat) (rk : list Z) (s : cols) : cols * list Z :=
  match r with
  | O => (s, rk)
  | S r =>
      let t := ROUND 1 rk s in
      let rk := drop 8 rk in
      match r with
      | O => (t, rk)
      | S _ => enc_loop r rk (ROUND 0 rk t)
      end
  end.

Definition rijndaelEncrypt (rk : list Z) (Nr : Z) (pt : list Z) : list Z :=
  let s := Cols (GETU32 pt 0 ⊕ rk.[0]) (GETU32 pt 4 ⊕ rk.[1])
                (GETU32 pt 8 ⊕ rk.[2]) (GETU32 pt 12 ⊕ rk.[3]) in
  let '(Cols t0 t1 t2 t3, rk) := enc_loop (Z.to_nat (Nr >> 1)) rk s in
  PUTU32 (TE41 t0 ⊕ TE42 t1 ⊕ TE43 t2 ⊕ TE44 t3 ⊕ rk.[0]) ++
  PUTU32 (TE41 t1 ⊕ TE42 t2 ⊕ TE43 t3 ⊕ TE44 t0 ⊕ rk.[1]) ++
  PUTU32 (TE41 t2 ⊕ TE42 t3 ⊕ TE43 t0 ⊕ TE44 t1 ⊕ rk.[2]) ++
  PUTU32 (TE41 t3 ⊕ TE42 t0 ⊕ TE43 t1 ⊕ TE44 t2 ⊕ rk.[3]).

(** ** Contexts *)

(** The allocated key schedule: the round keys and, at [AES_PRIV_NR_POS], the
    number of rounds. *)
Record aes_ctx := AesCtx { ctx_rk : list Z; ctx_nr : Z }.

Definition AES_PRIV_SIZE : Z := 4 * 4 * 15 + 4.

Definition aes_encrypt (ctx : aes_ctx) (plain : list Z) : list Z :=
  rijndaelEncrypt (ctx_rk ctx) (ctx_nr ctx) plain.

Section alloc.
(** The kernel allocator: whether a request of the given size is served. *)
Context (kmalloc : Z → bool).

(** [TEST_FAIL()] is the constant 0 in the driver build. *)
Definition aes_encrypt_init (key : list Z) (len : Z) : option aes_ctx :=
  if kmalloc AES_PRIV_SIZE then
    let '(res, rk) := rijndaelKeySetupEnc key (len * 8) in
    if res <? 0 then None else Some (AesCtx rk res)
  else None.
End alloc.

Example aes_fips_C1 :
  let ctx := aes_encrypt_init (λ _, true) (map Z.of_nat (seq 0 16)) 16 in
  (λ c, aes_encrypt c [0x00;0x11;0x22;0x33;0x44;0x55;0x66;0x77;0x88;0x99;0xaa;0xbb;0xcc;0xdd;0xee;0xff])
    <$> ctx
  = Some [0x69;0xc4;0xe0;0xd8;0x6a;0x7b;0x04;0x30;0xd8;0xcd;0xb7;0x80;0x70;0xb4;0xc5;0x5a].
Proof. vm_compute. reflexivity. Qed.
