(* ===== verification/AesCorrect.v ===== *)
(** * AES: the driver's tables, key schedule and cipher refine FIPS-197 *)
From S2P Require Import Prelude Fips197 AesTables Aes.
Import Small.

(** ** Tables *)

Lemma Te0_spec x :
  is_u8 x → tbl Te0 x = be32 (gmul 2 (SBox x)) (SBox x) (SBox x) (gmul 3 (SBox x)).
Proof.
  apply (all_u8 (tbl Te0) (λ x, be32 (gmul 2 (SBox x)) (SBox x) (SBox x) (gmul 3 (SBox x)))).
  vm_compute. reflexivity.
Qed.

Lemma rotr_uint x k : 0 ≤ k → is_u32 x → is_u32 (rotr x k).
Proof. intros. apply uint_lor; auto with machine. Qed.

Section rotr.
Context (a b c d : Z) (Ha : is_u8 a) (Hb : is_u8 b) (Hc : is_u8 c) (Hd : is_u8 d).
Ltac solve_rotr :=
    apply (uint_eq_bits 32); [apply rotr_uint; auto with machine|auto with machine|];
    unfold rotr, u32, be32; by_bits 32%nat.
Lemma rotr_be32_8 : rotr (be32 a b c d) 8 = be32 d a b c.
Proof using Ha Hb Hc Hd. solve_rotr. Qed.
Lemma rotr_be32_16 : rotr (be32 a b c d) 16 = be32 c d a b.
Proof using Ha Hb Hc Hd. solve_rotr. Qed.
Lemma rotr_be32_24 : rotr (be32 a b c d) 24 = be32 b c d a.
Proof using Ha Hb Hc Hd. solve_rotr. Qed.
End rotr.

Section lookups.
Context (a b c d : Z) (Ha : is_u8 a) (Hb : is_u8 b) (Hc : is_u8 c) (Hd : is_u8 d).
Let s := be32 a b c d.

Lemma b3_be32 : b3 s = a.
Proof using Ha Hb Hc Hd. exact (byte_at_be32_3 a b c d Ha Hb Hc Hd). Qed.
Lemma b2_be32 : b2 s = b.
Proof using Ha Hb Hc Hd. exact (byte_at_be32_2 a b c d Ha Hb Hc Hd). Qed.
Lemma b1_be32 : b1 s = c.
Proof using Ha Hb Hc Hd. exact (byte_at_be32_1 a b c d Ha Hb Hc Hd). Qed.
Lemma b0_be32 : b0 s = d.
Proof using Ha Hb Hc Hd. exact (byte_at_be32_0 a b c d Ha Hb Hc Hd). Qed.

Lemma TE0_be32 : TE0 s = be32 (gmul 2 (SBox a)) (SBox a) (SBox a) (gmul 3 (SBox a)).
Proof using Ha Hb Hc Hd. unfold TE0. by rewrite b3_be32, Te0_spec. Qed.
Lemma TE1_be32 : TE1 s = be32 (gmul 3 (SBox b)) (gmul 2 (SBox b)) (SBox b) (SBox b).
Proof using Ha Hb Hc Hd.
    unfold TE1. rewrite b2_be32, Te0_spec, rotr_be32_8 by auto with machine. done.
Qed.
Lemma TE2_be32 : TE2 s = be32 (SBox c) (gmul 3 (SBox c)) (gmul 2 (SBox c)) (SBox c).
Proof using Ha Hb Hc Hd.
    unfold TE2. rewrite b1_be32, Te0_spec, rotr_be32_16 by auto with machine. done.
Qed.
Lemma TE3_be32 : TE3 s = be32 (SBox d) (SBox d) (gmul 3 (SBox d)) (gmul 2 (SBox d)).
Proof using Ha Hb Hc Hd.
    unfold TE3. rewrite b0_be32, Te0_spec, rotr_be32_24 by auto with machine. done.
Qed.
End lookups.

Lemma Te0_mask3 x : is_u8 x → u32 (tbl Te0 x << 8) .& 0xff000000 = SBox x << 24.
Proof.
  apply (all_u8 (λ x, u32 (tbl Te0 x << 8) .& 0xff000000) (λ x, SBox x << 24)).
  vm_compute. reflexivity.
Qed.
Lemma Te0_mask2 x : is_u8 x → tbl Te0 x .& 0x00ff0000 = SBox x << 16.
Proof.
  apply (all_u8 (λ x, tbl Te0 x .& 0x00ff0000) (λ x, SBox x << 16)). vm_compute. reflexivity.
Qed.
Lemma Te0_mask1 x : is_u8 x → tbl Te0 x .& 0x0000ff00 = SBox x << 8.
Proof.
  apply (all_u8 (λ x, tbl Te0 x .& 0x0000ff00) (λ x, SBox x << 8)). vm_compute. reflexivity.
Qed.
Lemma Te0_mask0 x : is_u8 x → (tbl Te0 x >> 8) .& 0x000000ff = SBox x.
Proof.
  apply (all_u8 (λ x, (tbl Te0 x >> 8) .& 0x000000ff) SBox). vm_compute. reflexivity.
Qed.

#[local] Opaque SBox gmul tbl Te0.

Lemma b3_byte x : b3 x = byte_at x 3.
Proof. reflexivity. Qed.
Lemma b2_byte x : b2 x = byte_at x 2.
Proof. reflexivity. Qed.
Lemma b1_byte x : b1 x = byte_at x 1.
Proof. reflexivity. Qed.
Lemma b0_byte x : b0 x = byte_at x 0.
Proof. reflexivity. Qed.

Ltac te4_masks :=
  rewrite ?b3_byte, ?b2_byte, ?b1_byte, ?b0_byte;
  rewrite Te0_mask3, Te0_mask2, Te0_mask1, Te0_mask0 by apply byte_at_uint;
  reflexivity.

(** The last round's lookups assemble a word from one S-box output each. *)
Lemma TE4_spec t0 t1 t2 t3 :
  TE41 t0 ⊕ TE42 t1 ⊕ TE43 t2 ⊕ TE44 t3 =
  be32 (SBox (byte_at t0 3)) (SBox (byte_at t1 2)) (SBox (byte_at t2 1)) (SBox (byte_at t3 0)).
Proof.
  unfold TE41, TE42, TE43, TE44, be32. te4_masks.
Qed.

(** The key schedule's lookups are [SubWord] after [RotWord], and [SubWord]. *)
Lemma TE4_SubRot t :
  TE421 t ⊕ TE432 t ⊕ TE443 t ⊕ TE414 t = SubWord (RotWord t).
Proof.
  unfold TE421, TE432, TE443, TE414, SubWord, RotWord.
  rewrite byte_at_be32_3, byte_at_be32_2, byte_at_be32_1, byte_at_be32_0 by auto with machine.
  te4_masks.
Qed.
Lemma TE4_Sub t : TE411 t ⊕ TE422 t ⊕ TE433 t ⊕ TE444 t = SubWord t.
Proof. apply TE4_spec. Qed.

(** ** Rounds *)
Definition col_bytes (c : cols) : list Z :=
  concat (map word_bytes [c0 c; c1 c; c2 c; c3 c]).
Definition cols_ok (c : cols) : Prop :=
  is_u32 (c0 c) ∧ is_u32 (c1 c) ∧ is_u32 (c2 c) ∧ is_u32 (c3 c).

Lemma word_bytes_be32 a b c d :
  is_u8 a → is_u8 b → is_u8 c → is_u8 d → word_bytes (be32 a b c d) = [a; b; c; d].
Proof.
  intros. unfold word_bytes.
  by rewrite byte_at_be32_3, byte_at_be32_2, byte_at_be32_1, byte_at_be32_0.
Qed.
Lemma word_bytes_uint w : bytes (word_bytes w).
Proof. repeat constructor; apply byte_at_uint. Qed.

(** Present a word by its bytes. *)
Ltac split_word w :=
  let H := fresh in
  pose proof (be32_byte_at w ltac:(assumption)) as H;
  let a := fresh "xa" in let b := fresh "xb" in let c := fresh "xc" in let d := fresh "xd" in
  pose proof (byte_at_uint w 3); pose proof (byte_at_uint w 2);
  pose proof (byte_at_uint w 1); pose proof (byte_at_uint w 0);
  generalize dependent (byte_at w 3); intros a; generalize dependent (byte_at w 2); intros b;
  generalize dependent (byte_at w 1); intros c; generalize dependent (byte_at w 0); intros d;
  intros; subst w.

Lemma ROUND_spec i rk s :
  words rk → cols_ok s →
  col_bytes (ROUND i rk s) =
    AddRoundKey (MixColumns (ShiftRows (SubBytes (col_bytes s))))
      [rk.[4 * i]; rk.[4 * i + 1]; rk.[4 * i + 2]; rk.[4 * i + 3]].
Proof.
  intros Hrk (H0 & H1 & H2 & H3). destruct s as [s0 s1 s2 s3]; cbn [c0 c1 c2 c3] in *.
  pose proof (aget_uint 32 rk (4 * i) ltac:(lia) Hrk) as K0.
  pose proof (aget_uint 32 rk (4 * i + 1) ltac:(lia) Hrk) as K1.
  pose proof (aget_uint 32 rk (4 * i + 2) ltac:(lia) Hrk) as K2.
  pose proof (aget_uint 32 rk (4 * i + 3) ltac:(lia) Hrk) as K3.
  unfold ROUND, col_bytes, AddRoundKey; cbn [c0 c1 c2 c3 map concat].
  generalize dependent (rk.[4 * i]); generalize dependent (rk.[4 * i + 1]);
  generalize dependent (rk.[4 * i + 2]); generalize dependent (rk.[4 * i + 3]).
  intros k3 K3 k2 K2 k1 K1 k0 K0. clear Hrk.
  split_word s0. split_word s1. split_word s2. split_word s3.
  split_word k0. split_word k1. split_word k2. split_word k3.
  rewrite !TE0_be32, !TE1_be32, !TE2_be32, !TE3_be32, !be32_lxor by done.
  rewrite !word_bytes_be32 by auto 10 with machine. reflexivity.
Qed.

Lemma ROUND_ok i rk s : words rk → cols_ok s → cols_ok (ROUND i rk s).
Proof.
  intros Hrk (H0 & H1 & H2 & H3). destruct s as [s0 s1 s2 s3]; cbn [c0 c1 c2 c3] in *.
  split_word s0. split_word s1. split_word s2. split_word s3.
  unfold ROUND, cols_ok; cbn [c0 c1 c2 c3].
  rewrite !TE0_be32, !TE1_be32, !TE2_be32, !TE3_be32 by done.
  split_and!; apply uint_lxor; auto with machine;
    rewrite !be32_lxor; apply be32_uint; auto 10 with machine.
Qed.

Lemma round_key_aget w r :
  (4 * r + 4 ≤ length w)%nat →
  round_key w r = [w.[4 * r]; w.[4 * r + 1]; w.[4 * r + 2]; w.[4 * r + 3]].
Proof.
  intros H. unfold round_key. rewrite take_aget by (rewrite length_drop; lia).
  cbn [seq map]. rewrite !aget_drop. by rewrite Nat.add_0_r.
Qed.

Lemma round_key_drop w k : round_key (drop 8 w) k = round_key w (2 + k).
Proof. unfold round_key. rewrite drop_drop. f_equal. f_equal. lia. Qed.

Lemma Round_drop w s k : Round (drop 8 w) s k = Round w s (2 + k).
Proof. unfold Round. by rewrite round_key_drop. Qed.

Lemma ROUND_Round i rk s :
  words rk → cols_ok s → (4 * i + 4 ≤ length rk)%nat →
  col_bytes (ROUND i rk s) = Round rk (col_bytes s) i.
Proof. intros. rewrite ROUND_spec by done. unfold Round. by rewrite round_key_aget. Qed.

Lemma fold_Round_drop w s a n :
  fold_left (Round (drop 8 w)) (seq a n) s = fold_left (Round w) (seq (2 + a) n) s.
Proof.
  revert s a. induction n as [|n IH]; intros s a; [done|]. cbn [seq fold_left].
  by rewrite IH, Round_drop.
Qed.

Lemma enc_loop_SS r rk s :
  enc_loop (S (S r)) rk s = enc_loop (S r) (drop 8 rk) (ROUND 0 (drop 8 rk) (ROUND 1 rk s)).
Proof. reflexivity. Qed.

(** The loop of [rijndaelEncrypt] performs [2 r - 1] rounds and leaves the key
    pointer at the last round key. *)
Lemma enc_loop_spec r rk s :
  words rk → cols_ok s → (8 * S r + 4 ≤ length rk)%nat →
  let '(t, rk') := enc_loop (S r) rk s in
  cols_ok t ∧ rk' = drop (8 * S r) rk ∧
  col_bytes t = fold_left (Round rk) (seq 1 (2 * S r - 1)) (col_bytes s).
Proof.
  revert rk s. induction r as [|r IH]; intros rk s Hrk Hs Hlen.
  - cbn [enc_loop]. split; [by apply ROUND_ok|]. split; [done|].
    by rewrite ROUND_Round by (done || lia).
  - rewrite enc_loop_SS.
    set (t := ROUND 1 rk s). set (rk8 := drop 8 rk).
    assert (words rk8) as Hrk8 by (by apply Forall_drop).
    assert (cols_ok t) as Ht by (by apply ROUND_ok).
    specialize (IH rk8 (ROUND 0 rk8 t) Hrk8 (ROUND_ok _ _ _ Hrk8 Ht)
      ltac:(subst rk8; rewrite length_drop; lia)).
    destruct (enc_loop (S r) rk8 (ROUND 0 rk8 t)) as [t' rk'].
    destruct IH as (Ht' & -> & Heq). split; [done|].
    split; [subst rk8; rewrite drop_drop; f_equal; lia|].
    rewrite Heq. subst rk8 t.
    rewrite fold_Round_drop, ROUND_Round by (done || (rewrite length_drop; lia)).
    rewrite Round_drop, ROUND_Round by (done || lia).
    by replace (2 * S (S r) - 1)%nat with (S (S (2 * S r - 1))) by lia.
Qed.

(** ** The cipher *)
Lemma GETU32_be32 pt o : GETU32 pt o = be32 pt.[o] pt.[o + 1] pt.[o + 2] pt.[o + 3].
Proof. reflexivity. Qed.
Lemma PUTU32_word_bytes st : PUTU32 st = word_bytes st.
Proof. reflexivity. Qed.
Lemma GETU32_uint pt o : bytes pt → is_u32 (GETU32 pt o).
Proof. intros H. rewrite GETU32_be32. auto 6 with machine. Qed.
Lemma word_bytes_lxor x y :
  is_u32 x → is_u32 y → word_bytes (x ⊕ y) = xor_bytes (word_bytes x) (word_bytes y).
Proof.
  intros Hx Hy. split_word x. split_word y.
  rewrite be32_lxor, !word_bytes_be32 by auto with machine. done.
Qed.

Lemma length16 (l : list Z) : length l = 16%nat →
  l = [l.[0]; l.[1]; l.[2]; l.[3]; l.[4]; l.[5]; l.[6]; l.[7];
       l.[8]; l.[9]; l.[10]; l.[11]; l.[12]; l.[13]; l.[14]; l.[15]].
Proof.
  intros H. rewrite <- (firstn_all l) at 1. rewrite H, take_aget by lia. reflexivity.
Qed.

(** Adding the first round key. *)
Lemma initial_cols rk pt :
  words rk → bytes pt → length pt = 16%nat → (4 ≤ length rk)%nat →
  let s := Cols (GETU32 pt 0 ⊕ rk.[0]) (GETU32 pt 4 ⊕ rk.[1])
                (GETU32 pt 8 ⊕ rk.[2]) (GETU32 pt 12 ⊕ rk.[3]) in
  cols_ok s ∧ col_bytes s = AddRoundKey pt (round_key rk 0).
Proof.
  intros Hrk Hpt Hlen Hk s. split.
  - subst s. unfold cols_ok; cbn [c0 c1 c2 c3].
    split_and!; apply uint_lxor; auto using GETU32_uint with machine.
  - subst s. unfold col_bytes, AddRoundKey. rewrite round_key_aget by lia.
    cbn [c0 c1 c2 c3 map concat].
    rewrite !word_bytes_lxor by auto using GETU32_uint with machine.
    rewrite !GETU32_be32, !word_bytes_be32 by auto with machine.
    rewrite (length16 pt Hlen) at 17. reflexivity.
Qed.

(** One output word of the last round. *)
Lemma last_word t0 t1 t2 t3 k :
  is_u32 k →
  PUTU32 (TE41 t0 ⊕ TE42 t1 ⊕ TE43 t2 ⊕ TE44 t3 ⊕ k) =
  xor_bytes [SBox (byte_at t0 3); SBox (byte_at t1 2); SBox (byte_at t2 1); SBox (byte_at t3 0)]
    (word_bytes k).
Proof.
  intros Hk. rewrite PUTU32_word_bytes, TE4_spec, word_bytes_lxor by auto 10 with machine.
  by rewrite word_bytes_be32 by auto with machine.
Qed.

Lemma rijndaelEncrypt_Cipher r rk pt :
  words rk → bytes pt → length pt = 16%nat → (8 * S r + 4 ≤ length rk)%nat →
  rijndaelEncrypt rk (2 * Z.of_nat (S r)) pt = Cipher (2 * S r) rk pt.
Proof.
  intros Hrk Hpt Hlen Hk. unfold rijndaelEncrypt, Cipher.
  replace (Z.to_nat ((2 * Z.of_nat (S r)) >> 1)) with (S r); cycle 1.
  { rewrite Z.shiftr_div_pow2 by lia. change (2 ^ 1) with 2.
    rewrite Z.mul_comm, Z.div_mul by lia. lia. }
  destruct (initial_cols rk pt Hrk Hpt Hlen ltac:(lia)) as [Hs Es].
  pose proof (enc_loop_spec r rk _ Hrk Hs Hk) as Hloop.
  destruct (enc_loop (S r) rk _) as [[t0 t1 t2 t3] rk'].
  destruct Hloop as ((H0 & H1 & H2 & H3) & -> & Et). cbn [c0 c1 c2 c3] in *.
  rewrite Es in Et. rewrite <- Et. rewrite !last_word by auto using Forall_drop with machine.
  rewrite !aget_drop, round_key_aget by lia. unfold AddRoundKey.
  replace (4 * (2 * S r))%nat with (8 * S r)%nat by lia. rewrite Nat.add_0_r.
  reflexivity.
Qed.

(** ** The key schedule *)
#[local] Opaque SubWord RotWord Rcon RCON.

Lemma RCON_Rcon i : (i < 10)%nat → RCON i = Rcon (i + 1).
Proof.
  intros Hi. do 10 (destruct i as [|i]; [vm_compute; reflexivity|]). lia.
Qed.

Lemma KeyStep_at Nk w n :
  length w = n →
  KeyStep Nk w = w ++ [w.[n - Nk] ⊕
    (if (n mod Nk =? 0)%nat then SubWord (RotWord w.[n - 1]) ⊕ Rcon (n / Nk)
     else if ((6 <? Nk) && (n mod Nk =? 4))%nat then SubWord w.[n - 1] else w.[n - 1])].
Proof. by intros <-. Qed.

Lemma KeyStep_first Nk w i :
  Nk ≠ 0%nat → length w = (Nk * (i + 1))%nat →
  KeyStep Nk w =
    w ++ [w.[Nk * i] ⊕ (SubWord (RotWord w.[Nk * i + (Nk - 1)]) ⊕ Rcon (i + 1))].
Proof.
  intros HN Hl. rewrite (KeyStep_at _ _ _ Hl).
  rewrite (Nat.mul_comm Nk), Nat.Div0.mod_mul, Nat.div_mul by done. cbn [Nat.eqb].
  do 3 f_equal; [f_equal; lia|]. do 4 f_equal. lia.
Qed.

Lemma KeyStep_next Nk w i k :
  length w = (Nk * (i + 1) + k)%nat → (0 < k < Nk)%nat → (6 < Nk → k ≠ 4)%nat →
  KeyStep Nk w = w ++ [w.[Nk * i + k] ⊕ w.[Nk * (i + 1) + (k - 1)]].
Proof.
  intros Hl Hk H4. rewrite (KeyStep_at _ _ _ Hl).
  rewrite (Nat.add_comm _ k), (Nat.mul_comm Nk), Nat.Div0.mod_add, Nat.mod_small by lia.
  destruct (Nat.eqb_spec k 0) as [|_]; [lia|].
  destruct (Nat.ltb_spec 6 Nk) as [HN|HN]; [destruct (Nat.eqb_spec k 4); [lia|]|]; cbn [andb];
    do 2 f_equal; f_equal; f_equal; lia.
Qed.

Lemma KeyStep_mid w i :
  length w = (8 * (i + 1) + 4)%nat →
  KeyStep 8 w = w ++ [w.[8 * i + 4] ⊕ SubWord w.[8 * (i + 1) + 3]].
Proof.
  intros Hl. rewrite (KeyStep_at _ _ _ Hl).
  rewrite (Nat.add_comm _ 4), (Nat.mul_comm 8), Nat.Div0.mod_add. cbn [Nat.eqb andb Nat.ltb Nat.leb Nat.modulo Nat.divmod fst snd Nat.sub].
  do 2 f_equal; f_equal; f_equal; try f_equal; lia.
Qed.

Lemma length_KeyStep Nk w : length (KeyStep Nk w) = S (length w).
Proof. unfold KeyStep. rewrite length_app. cbn. lia. Qed.
Lemma length_iter_KeyStep Nk n w : length (Nat.iter n (KeyStep Nk) w) = (n + length w)%nat.
Proof. induction n as [|n IH]; [done|]. by rewrite Nat.iter_succ, length_KeyStep, IH. Qed.

(** Simplify the reads of [w ++ l], where [length w] is known. *)
Ltac key_reads :=
  rewrite <- ?app_assoc; cbn [app];
  repeat match goal with
    | H : length ?w = ?n |- context [(?w ++ ?l).[?n + ?k]] =>
        rewrite (aget_app_r w l n k H); cbn [Nat.sub aget nth]
    | H : length ?w = ?n |- context [(?w ++ ?l).[?j]] =>
        rewrite (aget_app_l w l j) by lia
    end.
(** The [KeyStep] of [w ++ l] at position [k] of its group. *)
Ltac key_next i k :=
  match goal with
  | |- context [KeyStep ?N (?w ++ ?l)] =>
      rewrite (KeyStep_next N (w ++ l) i k) by (rewrite ?length_app; cbn [length]; lia)
  end; key_reads.

Lemma sched_word w t i : (i < 10)%nat →
  w ⊕ TE421 t ⊕ TE432 t ⊕ TE443 t ⊕ TE414 t ⊕ RCON i
  = w ⊕ (SubWord (RotWord t) ⊕ Rcon (i + 1)).
Proof. intros Hi. by rewrite <- TE4_SubRot, RCON_Rcon, <- !Z.lxor_assoc. Qed.

Lemma sched_word_mid w t :
  w ⊕ TE411 t ⊕ TE422 t ⊕ TE433 t ⊕ TE444 t = w ⊕ SubWord t.
Proof. by rewrite <- TE4_Sub, <- !Z.lxor_assoc. Qed.

Lemma ks128_step_spec i rk :
  length rk = (4 * (i + 1))%nat → (i < 10)%nat →
  ks128_step i rk = Nat.iter 4 (KeyStep 4) rk.
Proof.
  intros Hl Hi. rewrite !Nat.iter_succ. unfold ks128_step.
  rewrite sched_word by done. cbn [Nat.iter nat_rect].
  rewrite (KeyStep_first 4 rk i) by (done || lia).
  key_next i 1%nat. key_next i 2%nat. key_next i 3%nat. done.
Qed.

Lemma ks192_head_spec i rk :
  length rk = (6 * (i + 1))%nat → (i < 10)%nat →
  ks192_head i rk = Nat.iter 4 (KeyStep 6) rk.
Proof.
  intros Hl Hi. rewrite !Nat.iter_succ. unfold ks192_head.
  rewrite sched_word by done. cbn [Nat.iter nat_rect].
  rewrite (KeyStep_first 6 rk i) by (done || lia).
  key_next i 1%nat. key_next i 2%nat. key_next i 3%nat. done.
Qed.

Lemma ks256_head_spec i rk :
  length rk = (8 * (i + 1))%nat → (i < 10)%nat →
  ks256_head i rk = Nat.iter 4 (KeyStep 8) rk.
Proof.
  intros Hl Hi. rewrite !Nat.iter_succ. unfold ks256_head.
  rewrite sched_word by done. cbn [Nat.iter nat_rect].
  rewrite (KeyStep_first 8 rk i) by (done || lia).
  key_next i 1%nat. key_next i 2%nat. key_next i 3%nat. done.
Qed.

Lemma ks192_tail_spec i rk :
  length rk = (6 * (i + 1) + 4)%nat →
  ks192_tail i rk = Nat.iter 2 (KeyStep 6) rk.
Proof.
  intros Hl. rewrite !Nat.iter_succ. unfold ks192_tail. cbn [Nat.iter nat_rect].
  rewrite (KeyStep_next 6 rk i 4) by lia.
  rewrite (KeyStep_next 6 _ i 5) by (rewrite ?length_app; cbn [length]; lia).
  rewrite (aget_app_l rk _ (6 * i + 5)) by lia.
  replace (6 * (i + 1) + (5 - 1))%nat with (6 * (i + 1) + 4 + 0)%nat by lia.
  rewrite (aget_app_r rk _ _ 0 Hl). rewrite <- app_assoc. cbn [app aget nth Nat.sub].
  replace (6 * (i + 1) + 3)%nat with (6 * i + 9)%nat by lia. done.
Qed.

Lemma ks256_tail_spec i rk :
  length rk = (8 * (i + 1) + 4)%nat →
  ks256_tail i rk = Nat.iter 4 (KeyStep 8) rk.
Proof.
  intros Hl. rewrite !Nat.iter_succ. unfold ks256_tail. cbn [Nat.iter nat_rect].
  rewrite sched_word_mid, (KeyStep_mid rk i) by done.
  replace (8 * (i + 1) + 3)%nat with (8 * i + 11)%nat by lia.
  do 3 (match goal with
    | |- context [KeyStep ?N (rk ++ ?l)] =>
      let k := eval cbn in (4 + length l)%nat in
      rewrite (KeyStep_next N (rk ++ l) i k) by (rewrite ?length_app; cbn [length]; lia)
    end;
    match goal with
    | |- context [(rk ++ ?l).[8 * (i + 1) + (?k - 1)]] =>
      replace (8 * (i + 1) + (k - 1))%nat with (8 * (i + 1) + 4 + (length l - 1))%nat
        by (cbn; lia);
      rewrite (aget_app_r rk l _ _ Hl), (aget_app_l rk l) by lia
    end; rewrite <- app_assoc; cbn [app aget nth Nat.sub length]).
  done.
Qed.

Lemma ks128_loop a n rk :
  length rk = (4 * (a + 1))%nat → (a + n ≤ 10)%nat →
  fold_left (λ rk i, ks128_step i rk) (seq a n) rk = Nat.iter (4 * n) (KeyStep 4) rk.
Proof.
  revert a rk. induction n as [|n IH]; intros a rk Hl Hn; [done|].
  cbn [seq fold_left]. rewrite ks128_step_spec by (done || lia).
  rewrite IH by (rewrite ?length_iter_KeyStep; lia).
  by rewrite <- Nat.iter_add, (Nat.mul_succ_r 4 n).
Qed.

Lemma ks_loop_S head tail last i n rk :
  ks_loop head tail last i (S n) rk =
    if (i =? last)%nat then head i rk else ks_loop head tail last (S i) n (tail i (head i rk)).
Proof. reflexivity. Qed.

Section ks_loop.
Context (Nk last : nat) (head tail : nat → list Z → list Z).
Context (HNk : (4 ≤ Nk)%nat) (Hlast : (last < 10)%nat).
Context (head_spec : ∀ i rk, length rk = (Nk * (i + 1))%nat → (i < 10)%nat →
    head i rk = Nat.iter 4 (KeyStep Nk) rk).
Context (tail_spec : ∀ i rk, length rk = (Nk * (i + 1) + 4)%nat →
    tail i rk = Nat.iter (Nk - 4) (KeyStep Nk) rk).

Lemma ks_loop_spec n i rk :
    length rk = (Nk * (i + 1))%nat → (i + S n = last + 1)%nat →
    ks_loop head tail last i (S n) rk = Nat.iter (Nk * n + 4) (KeyStep Nk) rk.
Proof using All.
    revert i rk. induction n as [|n IH]; intros i rk Hl Hi; rewrite ks_loop_S.
    - rewrite head_spec by (done || lia). rewrite Nat.mul_0_r.
      destruct (Nat.eqb_spec i last); [done|lia].
    - destruct (Nat.eqb_spec i last) as [|_]; [lia|].
      rewrite head_spec by (done || lia).
      rewrite tail_spec by (rewrite length_iter_KeyStep; lia).
      rewrite <- Nat.iter_add.
      replace (Nk * S n + 4)%nat with ((Nk * n + 4) + (Nk - 4 + 4))%nat by lia.
      rewrite (Nat.iter_add (Nk * n + 4)).
      apply IH; rewrite ?length_iter_KeyStep; lia.
Qed.
End ks_loop.

Lemma rijndaelKeySetupEnc_128 key :
  rijndaelKeySetupEnc key 128 = (10, KeyExpansion 4 10 key).
Proof.
  unfold rijndaelKeySetupEnc, KeyExpansion. cbn [Z.eqb Pos.eqb].
  rewrite ks128_loop by (done || lia). reflexivity.
Qed.
Lemma rijndaelKeySetupEnc_192 key :
  rijndaelKeySetupEnc key 192 = (12, KeyExpansion 6 12 key).
Proof.
  unfold rijndaelKeySetupEnc, KeyExpansion. cbn [Z.eqb Pos.eqb].
  rewrite (ks_loop_spec 6 7) by (done || lia || eauto using ks192_head_spec, ks192_tail_spec).
  reflexivity.
Qed.
Lemma rijndaelKeySetupEnc_256 key :
  rijndaelKeySetupEnc key 256 = (14, KeyExpansion 8 14 key).
Proof.
  unfold rijndaelKeySetupEnc, KeyExpansion. cbn [Z.eqb Pos.eqb].
  rewrite (ks_loop_spec 8 6) by (done || lia || eauto using ks256_head_spec, ks256_tail_spec).
  reflexivity.
Qed.
Lemma rijndaelKeySetupEnc_other key bits :
  bits ≠ 128 → bits ≠ 192 → bits ≠ 256 → fst (rijndaelKeySetupEnc key bits) = -1.
Proof.
  intros H1 H2 H3. unfold rijndaelKeySetupEnc.
  by rewrite (proj2 (Z.eqb_neq _ _) H1), (proj2 (Z.eqb_neq _ _) H2), (proj2 (Z.eqb_neq _ _) H3).
Qed.

Lemma KeyStep_words Nk w : words w → words (KeyStep Nk w).
Proof.
  intros H. apply Forall_app_2; [done|]. constructor; [|constructor].
  apply uint_lxor; auto with machine.
  repeat case_match; auto with machine.
Qed.

Lemma length_key_words Nk key : length (key_words Nk key) = Nk.
Proof. apply length_map_seq. Qed.
Lemma length_KeyExpansion Nk Nr key :
  (Nk ≤ 4 * (Nr + 1))%nat → length (KeyExpansion Nk Nr key) = (4 * (Nr + 1))%nat.
Proof.
  intros H. unfold KeyExpansion. rewrite length_iter_KeyStep, length_key_words. lia.
Qed.
Lemma KeyExpansion_words Nk Nr key : bytes key → words (KeyExpansion Nk Nr key).
Proof.
  intros Hk. unfold KeyExpansion.
  induction (4 * (Nr + 1) - Nk)%nat as [|n IH]; [|rewrite Nat.iter_succ; by apply KeyStep_words].
  apply Forall_map, Forall_forall. intros j _. cbn. auto 6 with machine.
Qed.

(** ** Contexts *)

(** The key lengths AES has, in bytes; [Nk] and [Nr] of the standard. *)
Definition aes_key_len (len : Z) : bool := (len =? 16) || (len =? 24) || (len =? 32).
Definition aes_Nk (len : Z) : nat := Z.to_nat (len / 4).
Definition aes_Nr (len : Z) : nat := (aes_Nk len + 6)%nat.

Lemma aes_key_len_cases len : aes_key_len len = true → len = 16 ∨ len = 24 ∨ len = 32.
Proof. unfold aes_key_len. rewrite !orb_true_iff, !Z.eqb_eq. tauto. Qed.

Section correct.
Context (kmalloc : Z → bool).

Lemma aes_encrypt_init_eq key len :
  aes_encrypt_init kmalloc key len =
    if kmalloc AES_PRIV_SIZE && aes_key_len len then
      Some (AesCtx (KeyExpansion (aes_Nk len) (aes_Nr len) key) (Z.of_nat (aes_Nr len)))
    else None.
Proof.
  unfold aes_encrypt_init. destruct (kmalloc AES_PRIV_SIZE); cbn [andb]; [|done].
  destruct (aes_key_len len) eqn:E.
  - destruct (aes_key_len_cases len E) as [->|[->| ->]].
    + change (16 * 8) with 128. by rewrite (rijndaelKeySetupEnc_128 key).
    + change (24 * 8) with 192. by rewrite (rijndaelKeySetupEnc_192 key).
    + change (32 * 8) with 256. by rewrite (rijndaelKeySetupEnc_256 key).
  - unfold aes_key_len in E. rewrite !orb_false_iff, !Z.eqb_neq in E.
    pose proof (rijndaelKeySetupEnc_other key (len * 8) ltac:(lia) ltac:(lia) ltac:(lia)).
    destruct (rijndaelKeySetupEnc key (len * 8)) as [res rk]. cbn in *. by subst res.
Qed.

Lemma aes_encrypt_Cipher key len ctx pt :
  bytes key → bytes pt → length pt = AES_BLOCK_SIZE →
  aes_encrypt_init kmalloc key len = Some ctx →
  aes_encrypt ctx pt = Cipher (aes_Nr len) (KeyExpansion (aes_Nk len) (aes_Nr len) key) pt.
Proof.
  intros Hk Hp Hl. rewrite aes_encrypt_init_eq.
  destruct (kmalloc AES_PRIV_SIZE); [|done]. cbn [andb].
  destruct (aes_key_len len) eqn:E; [|done]. intros [= <-].
  unfold aes_encrypt. cbn [ctx_rk ctx_nr].
  pose proof (KeyExpansion_words (aes_Nk len) (aes_Nr len) key Hk).
  destruct (aes_key_len_cases len E) as [->|[->| ->]].
  - change (aes_Nr 16) with 10%nat in *. change (aes_Nk 16) with 4%nat in *.
    pose proof (rijndaelEncrypt_Cipher 4 (KeyExpansion 4 10 key) pt) as R.
    change (2 * Z.of_nat 5) with (Z.of_nat 10) in R. change (2 * 5)%nat with 10%nat in R.
    apply R; [assumption..|]. rewrite length_KeyExpansion; lia.
  - change (aes_Nr 24) with 12%nat in *. change (aes_Nk 24) with 6%nat in *.
    pose proof (rijndaelEncrypt_Cipher 5 (KeyExpansion 6 12 key) pt) as R.
    change (2 * Z.of_nat 6) with (Z.of_nat 12) in R. change (2 * 6)%nat with 12%nat in R.
    apply R; [assumption..|]. rewrite length_KeyExpansion; lia.
  - change (aes_Nr 32) with 14%nat in *. change (aes_Nk 32) with 8%nat in *.
    pose proof (rijndaelEncrypt_Cipher 6 (KeyExpansion 8 14 key) pt) as R.
    change (2 * Z.of_nat 7) with (Z.of_nat 14) in R. change (2 * 7)%nat with 14%nat in R.
    apply R; [assumption..|]. rewrite length_KeyExpansion; lia.
Qed.

(** C22: Once [aes_encrypt_init] has returned a context for a key, [aes_encrypt]
    maps every 16-byte block to the block FIPS-197 prescribes for that key:
    the table-driven rounds and the unrolled key schedule are the standard's
    cipher for all three key lengths. *)
Theorem aes_encrypt_refines_fips197 key len ctx pt :
  bytes key → bytes pt → length pt = AES_BLOCK_SIZE →
  aes_encrypt_init kmalloc key len = Some ctx →
  aes_encrypt ctx pt = Cipher (aes_Nr len) (KeyExpansion (aes_Nk len) (aes_Nr len) key) pt.
Proof. intros. by apply aes_encrypt_Cipher. Qed.

(** [aes_encrypt_init] fails exactly when the allocation fails or the key
    is not 16, 24 or 32 bytes long; otherwise it yields the expanded key. *)
Theorem aes_encrypt_init_fails key len :
  aes_encrypt_init kmalloc key len = None ↔
  kmalloc AES_PRIV_SIZE = false ∨ (len ≠ 16 ∧ len ≠ 24 ∧ len ≠ 32).
Proof.
  rewrite aes_encrypt_init_eq. destruct (kmalloc AES_PRIV_SIZE); cbn [andb].
  - unfold aes_key_len. destruct (Z.eqb_spec len 16), (Z.eqb_spec len 24), (Z.eqb_spec len 32);
      cbn [orb]; naive_solver lia.
  - naive_solver.
Qed.
End correct.

Lemma aes_encrypt_refines_witness :
  let key := map Z.of_nat (seq 0 16) in let pt := map Z.of_nat (seq 16 16) in
  ∃ ctx, aes_encrypt_init (λ _, true) key 16 = Some ctx ∧
    aes_encrypt ctx pt = Cipher 10 (KeyExpansion 4 10 key) pt.
Proof.
  eexists. split; [rewrite aes_encrypt_init_eq; reflexivity|].
  apply (aes_encrypt_refines_fips197 (λ _, true) _ 16).
  - repeat constructor; vm_compute; congruence.
  - repeat constructor; vm_compute; congruence.
  - reflexivity.
  - rewrite aes_encrypt_init_eq. reflexivity.
Defined.

(** ** What the modes of operation rely on *)

(** A block cipher as its clients see it: 16 bytes in, 16 bytes out. *)
Class BlockCipher (E : list Z → list Z) : Prop := {
  bc_length x : length (E x) = AES_BLOCK_SIZE;
  bc_bytes x : bytes (E x)
}.

#[export] Instance aes_BlockCipher ctx : BlockCipher (aes_encrypt ctx).
Proof.
  split; intros x; unfold aes_encrypt, rijndaelEncrypt;
    destruct (enc_loop _ _ _) as [[t0 t1 t2 t3] rk]; [done|].
  rewrite !PUTU32_word_bytes. repeat apply bytes_app; apply word_bytes_uint.
Qed.

Lemma bc_length16 E `{!BlockCipher E} x : length (E x) = 16%nat.
Proof. apply bc_length. Qed.

(** ** The two table configurations *)
#[local] Transparent SBox gmul tbl Te0.

(** The tables are what the comment above them says, with [S] the S-box of
    the standard and [Si] its inverse: [Te0[x] = S[x].[02,01,01,03]] and so on. *)
Definition Te_spec (x : Z) : bool :=
  let s := SBox x in
  (tbl Te0 x =? be32 (gmul 2 s) s s (gmul 3 s)) && (tbl Te1 x =? be32 (gmul 3 s) (gmul 2 s) s s) &&
  (tbl Te2 x =? be32 s (gmul 3 s) (gmul 2 s) s) && (tbl Te3 x =? be32 s s (gmul 3 s) (gmul 2 s)) &&
  (tbl Te4 x =? be32 s s s s).
Definition Td_spec (x : Z) : bool :=
  let t := InvSBox x in
  let e := gmul 0x0e t in let n := gmul 0x09 t in
  let d := gmul 0x0d t in let b := gmul 0x0b t in
  (tbl Td0 x =? be32 e n d b) && (tbl Td1 x =? be32 b e n d) &&
  (tbl Td2 x =? be32 d b e n) && (tbl Td3 x =? be32 n d b e) &&
  (tbl Td4 x =? be32 t t t t) && (tbl Td4s x =? t).

(** Every entry of every AES table is the value the standard gives:
    the forward tables are the S-box times the MixColumns coefficients, the
    inverse tables the inverse S-box times the InvMixColumns coefficients. *)
Theorem aes_tables_correct x : is_u8 x → Te_spec x = true ∧ Td_spec x = true.
Proof.
  intros Hx. split.
  - apply (all_below_spec 256 Te_spec x); [|done]. vm_compute. reflexivity.
  - apply (all_below_spec 256 Td_spec x); [|done]. vm_compute. reflexivity.
Qed.
Lemma aes_tables_correct_witness : is_u8 0x53 ∧ Te_spec 0x53 = true ∧ Td_spec 0x53 = true.
Proof. split; [uint_lit|]. apply (aes_tables_correct 0x53). uint_lit. Defined.

Lemma b3_uint i : is_u8 (b3 i).
Proof. apply u8_uint. Qed.
Lemma b2_uint i : is_u8 (b2 i).
Proof. apply u8_uint. Qed.
Lemma b1_uint i : is_u8 (b1 i).
Proof. apply u8_uint. Qed.
Lemma b0_uint i : is_u8 (b0 i).
Proof. apply u8_uint. Qed.
#[export] Hint Resolve b3_uint b2_uint b1_uint b0_uint : machine.

(** Equality of two table expressions on every byte, read off at an index. *)
Ltac by_table :=
  match goal with
  | |- context [tbl _ (?b ?i)] =>
      pattern (b i);
      match goal with |- (λ y, @?f y = @?h y) _ =>
        refine (all_u8 f h (b i) _ _); [vm_compute; reflexivity|auto with machine] end
  end.

(** The build with [AES_SMALL_TABLES] (the one compiled) reads from
    rotations and masks of [Te0], [Td0] and [Td4s] exactly what the build
    without it reads from the ten full tables, for every index word. *)
Theorem aes_small_tables_eq_large i :
  Small.TE0 i = Large.TE0 i ∧ Small.TD0 i = Large.TD0 i ∧
  Small.TE1 i = Large.TE1 i ∧
  Small.TE2 i = Large.TE2 i ∧
  Small.TE3 i = Large.TE3 i ∧
  Small.TE41 i = Large.TE41 i ∧
  Small.TE42 i = Large.TE42 i ∧
  Small.TE43 i = Large.TE43 i ∧
  Small.TE44 i = Large.TE44 i ∧
  Small.TE421 i = Large.TE421 i ∧
  Small.TE432 i = Large.TE432 i ∧
  Small.TE443 i = Large.TE443 i ∧
  Small.TE414 i = Large.TE414 i ∧
  Small.TE411 i = Large.TE411 i ∧
  Small.TE422 i = Large.TE422 i ∧
  Small.TE433 i = Large.TE433 i ∧
  Small.TE444 i = Large.TE444 i ∧
  Small.TD1 i = Large.TD1 i ∧
  Small.TD2 i = Large.TD2 i ∧
  Small.TD3 i = Large.TD3 i ∧
  Small.TD41 i = Large.TD41 i ∧
  Small.TD42 i = Large.TD42 i ∧
  Small.TD43 i = Large.TD43 i ∧
  Small.TD44 i = Large.TD44 i.
Proof.
  split_and!; [reflexivity|reflexivity|..].
  - unfold Small.TE1, Large.TE1. by_table.
  - unfold Small.TE2, Large.TE2. by_table.
  - unfold Small.TE3, Large.TE3. by_table.
  - unfold Small.TE41, Large.TE41. by_table.
  - unfold Small.TE42, Large.TE42. by_table.
  - unfold Small.TE43, Large.TE43. by_table.
  - unfold Small.TE44, Large.TE44. by_table.
  - unfold Small.TE421, Large.TE421. by_table.
  - unfold Small.TE432, Large.TE432. by_table.
  - unfold Small.TE443, Large.TE443. by_table.
  - unfold Small.TE414, Large.TE414. by_table.
  - unfold Small.TE411, Large.TE411. by_table.
  - unfold Small.TE422, Large.TE422. by_table.
  - unfold Small.TE433, Large.TE433. by_table.
  - unfold Small.TE444, Large.TE444. by_table.
  - unfold Small.TD1, Large.TD1. by_table.
  - unfold Small.TD2, Large.TD2. by_table.
  - unfold Small.TD3, Large.TD3. by_table.
  - unfold Small.TD41, Large.TD41. by_table.
  - unfold Small.TD42, Large.TD42. by_table.
  - unfold Small.TD43, Large.TD43. by_table.
  - unfold Small.TD44, Large.TD44. by_table.
Qed.
