(* ===== verification/CryptoWrap.v ===== *)
(** * Byte-order macros and memory helpers

    The [RTW_PUT_*]/[RTW_GET_*] macros of [include/osdep_service.h], the
    comparison [_rtw_memcmp2] of [os_dep/osdep_service.c] and the wrappers of
    [core/crypto/rtw_crypto_wrap.c]. *)
From S2P Require Import Prelude.

(** ** Byte order *)
Definition RTW_GET_BE16 (a : list Z) : Z := u16 ((a.[0] << 8) .| a.[1]).
Definition RTW_PUT_BE16 (val : Z) : list Z := [u16 val >> 8; u16 val .& 0xff].
Definition RTW_GET_LE16 (a : list Z) : Z := u16 ((a.[1] << 8) .| a.[0]).
Definition RTW_PUT_LE16 (val : Z) : list Z := [u16 val .& 0xff; u16 val >> 8].
Definition RTW_GET_BE32 (a : list Z) : Z :=
  (a.[0] << 24) .| (a.[1] << 16) .| (a.[2] << 8) .| a.[3].
Definition RTW_PUT_BE32 (val : Z) : list Z :=
  [u8 ((u32 val >> 24) .& 0xff); u8 ((u32 val >> 16) .& 0xff);
   u8 ((u32 val >> 8) .& 0xff); u8 (u32 val .& 0xff)].
Definition RTW_PUT_BE64 (val : Z) : list Z :=
  [u8 (u64 val >> 56); u8 (u64 val >> 48); u8 (u64 val >> 40); u8 (u64 val >> 32);
   u8 (u64 val >> 24); u8 (u64 val >> 16); u8 (u64 val >> 8); u8 (u64 val .& 0xff)].

(** ** Comparison *)

(** [_rtw_memcmp2]: 0 on equal buffers, otherwise the difference of the first
    bytes that differ. *)
Fixpoint rtw_memcmp2 (sz : nat) (dst src : list Z) : Z :=
  match sz with
  | O => 0
  | S sz => if dst.[0] =? src.[0] then rtw_memcmp2 sz (drop 1 dst) (drop 1 src)
            else dst.[0] - src.[0]
  end.
Definition os_memcmp (s1 s2 : list Z) (n : nat) : Z := rtw_memcmp2 n s1 s2.

(** [os_memcmp_const]: accumulates the differences, with no early exit. *)
Definition os_memcmp_const (a b : list Z) (len : nat) : Z :=
  fold_left (λ res i, u8 (res .| (a.[i] ⊕ b.[i]))) (seq 0 len) 0.

(** [os_strlen]: the bytes before the first zero; running off the end of the
    buffer is out of bounds. *)
Fixpoint os_strlen (s : list Z) : cres nat :=
  match s with
  | [] => Oob
  | c :: s => if c =? 0 then Ret 0%nat else let* n := os_strlen s in Ret (S n)
  end.

(** ** Facts *)
Lemma rtw_memcmp2_0 n a b :
  (n ≤ length a)%nat → (n ≤ length b)%nat →
  rtw_memcmp2 n a b = 0 ↔ take n a = take n b.
Proof.
  revert a b. induction n as [|n IH]; intros a b Ha Hb; [done|].
  destruct a as [|x a]; [cbn in Ha; lia|]. destruct b as [|y b]; [cbn in Hb; lia|].
  cbn [length] in *. cbn [rtw_memcmp2 aget nth].
  change (drop 1 (x :: a)) with a. change (drop 1 (y :: b)) with b.
  change (take (S n) (x :: a)) with (x :: take n a). change (take (S n) (y :: b)) with (y :: take n b).
  destruct (Z.eqb_spec x y) as [->|Hne].
  - rewrite IH by lia. split; [by intros ->|by intros [= ->]].
  - split; [lia|]. intros [= -> _]. done.
Qed.

Lemma memcmp_const_acc a b l r :
  bytes a → bytes b → is_u8 r →
  is_u8 (fold_left (λ res i, u8 (res .| (a.[i] ⊕ b.[i]))) l r) ∧
  (fold_left (λ res i, u8 (res .| (a.[i] ⊕ b.[i]))) l r = 0 ↔
   r = 0 ∧ Forall (λ i, a.[i] = b.[i]) l).
Proof.
  intros Ha Hb. revert r. induction l as [|i l IH]; intros r Hr; cbn [fold_left].
  { split; [done|]. split; [auto|tauto]. }
  specialize (IH (u8 (r .| (a.[i] ⊕ b.[i]))) (u8_uint _)) as [H1 H2]. split; [done|].
  rewrite H2, u8_id by auto 6 with machine. rewrite Z.lor_eq_0_iff, Z.lxor_eq_0_iff, Forall_cons_iff.
  tauto.
Qed.

Lemma os_memcmp_const_0 a b n :
  bytes a → bytes b → (n ≤ length a)%nat → (n ≤ length b)%nat →
  os_memcmp_const a b n = 0 ↔ take n a = take n b.
Proof.
  intros Ha Hb Hla Hlb. unfold os_memcmp_const.
  destruct (memcmp_const_acc a b (seq 0 n) 0 Ha Hb ltac:(uint_lit)) as [_ ->].
  rewrite Forall_forall. split.
  - intros [_ H]. apply list_aget_eq; rewrite !length_take; [lia|].
    intros i Hi. rewrite !aget_take by lia. apply H, in_seq. lia.
  - intros H. split; [done|]. intros i Hi%in_seq.
    by rewrite <- (aget_take a n i), H, aget_take by lia.
Qed.

Lemma RTW_PUT_LE16_bytes v : bytes (RTW_PUT_LE16 v).
Proof.
  unfold RTW_PUT_LE16. pose proof (u16_uint v) as [H0 H1]. constructor; [|constructor; [|constructor]].
  - apply (u8_uint (u16 v)).
  - rewrite Z.shiftr_div_pow2 by lia. split; [apply Z.div_pos; lia|].
    apply Z.div_lt_upper_bound; [lia|]. change (2 ^ 8 * 2 ^ 8) with (2 ^ 16). done.
Qed.
Lemma aget_put_le16 v : is_u16 v → RTW_GET_LE16 (RTW_PUT_LE16 v) = v.
Proof.
  intros Hv. unfold RTW_GET_LE16, RTW_PUT_LE16. cbn [aget nth]. rewrite (u16_id v) by done.
  apply (uint_eq_bits 16); [apply u16_uint|done|]. unfold u16. by_bits 16%nat.
Qed.
