(* ===== verification/Ctr.v ===== *)
(** * AES in counter mode: [core/crypto/aes-ctr.c] *)
From S2P Require Import Prelude Aes AesCorrect.

Section ctr.
(** [aes_encrypt(ctx, ·)] for the context at hand. *)
Context (E : list Z → list Z).

(** [for (i = AES_BLOCK_SIZE - 1; i >= 0; i--) { counter[i]++; if (counter[i])
    break; }], with [n] the index plus one. *)
Fixpoint ctr_inc (n : nat) (counter : list Z) : list Z :=
  match n with
  | O => counter
  | S i =>
      let c := u8 (counter.[i] + 1) in
      let counter := <[i:=c]> counter in
      if c =? 0 then ctr_inc i counter else counter
  end.

(** The [while (left > 0)] loop; [fuel] bounds the number of iterations. *)
Fixpoint ctr_loop (fuel : nat) (counter data : list Z) : list Z :=
  match fuel with
  | O => []
  | S fuel =>
      let l := length data in
      if (l =? 0)%nat then [] else
      let buf := E counter in
      let len := if (l <? AES_BLOCK_SIZE)%nat then l else AES_BLOCK_SIZE in
      xor_bytes (take len data) buf
        ++ ctr_loop fuel (ctr_inc AES_BLOCK_SIZE counter) (drop len data)
  end.
End ctr.

Section alloc.
Context (kmalloc : Z → bool).

(** [None] is the return value -1; [Some d] is 0 with the data now [d]. *)
Definition aes_ctr_encrypt (key : list Z) (key_len : Z) (nonce data : list Z) : option (list Z) :=
  match aes_encrypt_init kmalloc key key_len with
  | None => None
  | Some ctx => Some (ctr_loop (aes_encrypt ctx) (length data) (take AES_BLOCK_SIZE nonce) data)
  end.

Definition aes_128_ctr_encrypt (key nonce data : list Z) : option (list Z) :=
  aes_ctr_encrypt key 16 nonce data.
End alloc.

(** ** Counter arithmetic *)

(** The counter is a 128-bit big-endian number. *)
Definition ctr_block (nonce : list Z) (i : Z) : list Z := be_bytes 16 (be_val nonce + i).

Lemma ctr_inc_prefix p q :
  bytes p → ctr_inc (length p) (p ++ q) = be_bytes (length p) (be_val p + 1) ++ q.
Proof.
  revert q. induction p as [|b p IH] using rev_ind; intros q Hp; [done|].
  apply Forall_app in Hp as [Hp Hb].
  rewrite length_app, Nat.add_1_r, be_val_snoc. cbn [ctr_inc be_bytes].
  inversion Hb as [|? ? Hb8 _]; subst. destruct Hb8 as [Hb0 Hb1]. change (2 ^ 8) with 256 in Hb1.
  rewrite <- !app_assoc. cbn [app].
  replace ((p ++ b :: q).[length p]) with b; cycle 1.
  { replace (length p) with (length p + 0)%nat by lia. by rewrite aget_app_r. }
  rewrite (insert_app_r_alt p (b :: q) (length p)) by lia. rewrite Nat.sub_diag. cbn [list_insert].
  change (insert 0%nat (u8 (b + 1)) (b :: q)) with (u8 (b + 1) :: q).
  rewrite u8_mod. change (2 ^ 8) with 256.
  destruct (decide (b = 255)) as [->|Hne].
  - change ((255 + 1) mod 256 =? 0) with true. cbn match.
    rewrite IH by done.
    replace (be_val p * 256 + 255 + 1) with ((be_val p + 1) * 256) by lia.
    rewrite Z.div_mul, Z.mod_mul by lia. done.
  - rewrite (Z.mod_small (b + 1)) by lia. destruct (Z.eqb_spec (b + 1) 0); [lia|].
    rewrite <- Z.add_assoc, Z.div_add_l, (Z.div_small (b + 1)), Z.add_0_r by lia.
    rewrite be_bytes_val by done.
    by rewrite (Z.add_comm (be_val p * 256)), Z.mod_add, Z.mod_small by lia.
Qed.

Lemma ctr_inc_block c : bytes c → length c = 16%nat → ctr_inc 16 c = ctr_block c 1.
Proof.
  intros Hb Hl. pose proof (ctr_inc_prefix c [] Hb) as H.
  by rewrite !app_nil_r, Hl in H.
Qed.

Lemma ctr_block_add c i j : ctr_block (ctr_block c i) j = ctr_block c (i + j).
Proof.
  unfold ctr_block. rewrite be_val_be_bytes.
  rewrite <- be_bytes_mod, <- (be_bytes_mod _ (be_val c + (i + j))).
  rewrite Z.add_mod_idemp_l, Z.add_assoc by (apply Z.pow_nonzero; lia). done.
Qed.

Lemma ctr_block_0 c : bytes c → length c = 16%nat → ctr_block c 0 = c.
Proof. intros Hb Hl. unfold ctr_block. rewrite Z.add_0_r, <- Hl. by apply be_bytes_val. Qed.
Lemma ctr_block_bytes c i : bytes (ctr_block c i).
Proof. apply be_bytes_uint. Qed.
Lemma length_ctr_block c i : length (ctr_block c i) = 16%nat.
Proof. apply length_be_bytes. Qed.

(** ** Counter mode is a keystream cipher *)
Section keystream.
Context (E : list Z → list Z) `{!BlockCipher E}.

Definition ctr_stream (c : list Z) (n : nat) : list Z :=
  stream (λ i, E (ctr_block c (Z.of_nat i))) n.

Lemma ctr_stream_S c n :
  bytes c → length c = 16%nat → ctr_stream c (S n) = E c ++ ctr_stream (ctr_block c 1) n.
Proof.
  intros Hb Hl. unfold ctr_stream. rewrite stream_S, ctr_block_0 by done. f_equal.
  apply stream_ext. intros i _. rewrite ctr_block_add. do 2 f_equal. lia.
Qed.

Lemma ctr_loop_nil fuel c : ctr_loop E fuel c [] = [].
Proof. by destruct fuel. Qed.

Lemma ctr_loop_stream fuel c data :
  bytes c → length c = 16%nat → (length data ≤ fuel)%nat →
  ctr_loop E fuel c data = xor_bytes data (ctr_stream c fuel).
Proof.
  revert c data. induction fuel as [|fuel IH]; intros c data Hb Hl Hd.
  { by destruct data. }
  cbn [ctr_loop]. destruct (Nat.eqb_spec (length data) 0) as [H0|H0].
  { by destruct data. }
  pose proof (bc_length c) as HE. unfold AES_BLOCK_SIZE in *.
  rewrite ctr_stream_S, ctr_inc_block by done.
  destruct (Nat.ltb_spec (length data) 16) as [Hs|Hs].
  - rewrite firstn_all, skipn_all, ctr_loop_nil, app_nil_r.
    by rewrite xor_bytes_app_short by (rewrite HE; lia).
  - rewrite IH; [|apply ctr_block_bytes|apply length_ctr_block|rewrite length_drop; lia].
    rewrite <- xor_bytes_app, take_drop; [done|]. rewrite length_take, HE. lia.
Qed.

Lemma length_ctr_stream c n : length (ctr_stream c n) = (16 * n)%nat.
Proof. apply length_stream. intros. apply bc_length. Qed.

Lemma ctr_loop_involutive c data :
  bytes c → length c = 16%nat →
  ctr_loop E (length data) c (ctr_loop E (length data) c data) = data.
Proof.
  intros Hb Hl. rewrite (ctr_loop_stream _ _ data) by done.
  rewrite ctr_loop_stream;
    [|done|done|rewrite length_xor_bytes_le; [done|rewrite length_ctr_stream; lia]].
  apply xor_bytes_twice. rewrite length_ctr_stream. lia.
Qed.

Lemma length_ctr_loop c data :
  bytes c → length c = 16%nat → length (ctr_loop E (length data) c data) = length data.
Proof.
  intros. rewrite ctr_loop_stream by done. apply length_xor_bytes_le.
  rewrite length_ctr_stream. lia.
Qed.

Lemma aget_ctr_loop c data j :
  bytes c → length c = 16%nat → (j < length data)%nat →
  (ctr_loop E (length data) c data).[j] =
    data.[j] ⊕ (E (ctr_block c (Z.of_nat j / 16))).[j mod 16].
Proof.
  intros Hb Hl Hj. rewrite ctr_loop_stream by done.
  rewrite aget_xor_bytes by (rewrite ?length_ctr_stream; lia). f_equal.
  unfold ctr_stream. rewrite aget_stream by (intros; (apply bc_length || lia)).
  by rewrite Nat2Z.inj_div.
Qed.
End keystream.

Lemma aes_ctr_involutive kmalloc key key_len nonce data out :
  bytes nonce → length nonce = 16%nat →
  aes_ctr_encrypt kmalloc key key_len nonce data = Some out →
  aes_ctr_encrypt kmalloc key key_len nonce out = Some data.
Proof.
  intros Hb Hl. unfold aes_ctr_encrypt.
  destruct (aes_encrypt_init kmalloc key key_len) as [ctx|]; [|done]. intros [= <-].
  rewrite (take_ge nonce) by (unfold AES_BLOCK_SIZE; lia). f_equal.
  rewrite length_ctr_loop by (apply _ || done). by apply ctr_loop_involutive; [apply _|..].
Qed.

Section properties.
Context (kmalloc : Z → bool).

(** [aes_ctr_encrypt] is the counter mode of the block cipher: it keeps
    the length, and byte [j] of the result is byte [j] of the data xored with
    byte [j mod 16] of the encryption of the 128-bit big-endian number
    [nonce + j / 16], carries and the wrap-around at 2^128 included. *)
Theorem aes_ctr_encrypt_functional key key_len nonce data out ctx :
  bytes nonce → length nonce = 16%nat →
  aes_encrypt_init kmalloc key key_len = Some ctx →
  aes_ctr_encrypt kmalloc key key_len nonce data = Some out →
  length out = length data ∧
  ∀ j, (j < length data)%nat →
    out.[j] = data.[j] ⊕ (aes_encrypt ctx (ctr_block nonce (Z.of_nat j / 16))).[j mod 16].
Proof.
  intros Hb Hl Hctx. unfold aes_ctr_encrypt. rewrite Hctx. intros [= <-].
  rewrite (take_ge nonce) by (unfold AES_BLOCK_SIZE; lia).
  split; [by apply length_ctr_loop; [apply _|..]|].
  intros j Hj. by apply aget_ctr_loop; [apply _|..].
Qed.
(** Counter mode undoes itself: encrypting the result of
    [aes_ctr_encrypt] with the same key and nonce restores the data. *)
Theorem aes_ctr_encrypt_involutive key key_len nonce data out :
  bytes nonce → length nonce = 16%nat →
  aes_ctr_encrypt kmalloc key key_len nonce data = Some out →
  aes_ctr_encrypt kmalloc key key_len nonce out = Some data.
Proof. apply aes_ctr_involutive. Qed.
End properties.

Lemma aes_ctr_witness :
  ∃ ctx out, let nonce := replicate 16 0xff in
    aes_encrypt_init (λ _, true) (replicate 16 1) 16 = Some ctx ∧
    aes_ctr_encrypt (λ _, true) (replicate 16 1) 16 nonce (replicate 20 7) = Some out ∧
    out.[17] = 7 ⊕ (aes_encrypt ctx (ctr_block nonce 1)).[1].
Proof.
  destruct (aes_encrypt_init (λ _, true) (replicate 16 1) 16) as [ctx|] eqn:E1;
    [|rewrite aes_encrypt_init_eq in E1; discriminate].
  eexists ctx, _. split; [reflexivity|]. split.
  { unfold aes_ctr_encrypt. rewrite E1. reflexivity. }
  apply (aes_ctr_encrypt_functional (λ _, true) (replicate 16 1) 16
    (replicate 16 0xff) (replicate 20 7) _ ctx) with (j := 17%nat).
  - apply bytes_replicate. uint_lit.
  - reflexivity.
  - exact E1.
  - unfold aes_ctr_encrypt. rewrite E1. reflexivity.
  - cbn. lia.
Defined.

Lemma aes_ctr_involutive_witness :
  ∃ out, aes_ctr_encrypt (λ _, true) (replicate 32 1) 32 (replicate 16 9) [1; 2; 3] = Some out ∧
    aes_ctr_encrypt (λ _, true) (replicate 32 1) 32 (replicate 16 9) out = Some [1; 2; 3].
Proof.
  eexists. split.
  { unfold aes_ctr_encrypt. rewrite aes_encrypt_init_eq. reflexivity. }
  apply (aes_ctr_encrypt_involutive (λ _, true) (replicate 32 1) 32).
  - apply bytes_replicate. uint_lit.
  - reflexivity.
  - unfold aes_ctr_encrypt. rewrite aes_encrypt_init_eq. reflexivity.
Defined.
