(* ===== verification/Omac.v ===== *)
(** * One-key CBC MAC (OMAC1/CMAC) with AES: [core/crypto/aes-omac1.c] *)
From S2P Require Import Prelude Aes AesCorrect.

(** [gf_mulx]: doubling in GF(2^128), in place. *)
Definition gf_mulx (pad : list Z) : list Z :=
  let carry := pad.[0] .& 0x80 in
  let pad := fold_left
    (λ pad i, <[i := u8 ((pad.[i] << 1) .| (pad.[i + 1] >> 7))]> pad)
    (seq 0 (AES_BLOCK_SIZE - 1)) pad in
  let pad := <[15%nat := u8 (pad.[15] << 1)]> pad in
  if carry =? 0 then pad else <[15%nat := pad.[15] ⊕ 0x87]> pad.

Section omac.
Context (E : list Z → list Z).

(** The byte loops.  [cur] holds the bytes from [pos] up to [end], [rest] the
    elements after index [e].  [stop i] is the test that leaves the loop when
    the current element is used up.  Reading [*pos] with [pos == end], or
    [addr[e]] past the vector, is out of bounds. *)
Fixpoint omac_absorb (stop : nat → bool) (n i : nat) (cbc cur : list Z) (rest : list (list Z))
    : cres (list Z * list Z * list (list Z)) :=
  match n with
  | O => Ret (cbc, cur, rest)
  | S n =>
      match cur with
      | [] => Oob
      | x :: cur =>
          let cbc := <[i := cbc.[i] ⊕ x]> cbc in
          match cur with
          | [] =>
              if stop i then Ret (cbc, [], rest)
              else match rest with
                   | [] => Oob
                   | c :: rest => omac_absorb stop n (S i) cbc c rest
                   end
          | _ => omac_absorb stop n (S i) cbc cur rest
          end
      end
  end.

(** [while (left >= AES_BLOCK_SIZE)]; [fuel] bounds the iterations. *)
Fixpoint omac_blocks (fuel l : nat) (cbc cur : list Z) (rest : list (list Z))
    : cres (nat * list Z * list Z * list (list Z)) :=
  match fuel with
  | O => Ret (l, cbc, cur, rest)
  | S fuel =>
      if (l <? AES_BLOCK_SIZE)%nat then Ret (l, cbc, cur, rest) else
      let stop i := ((i + 1 =? AES_BLOCK_SIZE) && (l =? AES_BLOCK_SIZE))%nat in
      let* (cbc, cur, rest) := omac_absorb stop AES_BLOCK_SIZE 0 cbc cur rest in
      let cbc := if (AES_BLOCK_SIZE <? l)%nat then E cbc else cbc in
      omac_blocks fuel (l - AES_BLOCK_SIZE) cbc cur rest
  end.

(** The body of [omac1_aes_vector] once the context exists. *)
Definition omac_body (addr : list (list Z)) : cres (list Z) :=
  match addr with
  | [] => Oob
  | cur :: rest =>
      let total_len := sum_list (map length addr) in
      let* (l, cbc, cur, rest) :=
        omac_blocks total_len total_len (memset AES_BLOCK_SIZE 0) cur rest in
      let pad := gf_mulx (E (memset AES_BLOCK_SIZE 0)) in
      let* (cbc, pad) :=
        if (negb (l =? 0) || (total_len =? 0))%nat then
          let* (cbc, _, _) := omac_absorb (λ i, (i + 1 =? l)%nat) l 0 cbc cur rest in
          Ret (<[l := cbc.[l] ⊕ 0x80]> cbc, gf_mulx pad)
        else Ret (cbc, pad) in
      Ret (E (xor_bytes pad cbc))
  end.
End omac.

Section alloc.
Context (kmalloc : Z → bool).

Definition omac1_aes_vector (key : list Z) (key_len : Z) (addr : list (list Z)) : cres (list Z) :=
  match aes_encrypt_init kmalloc key key_len with
  | None => Err (-1)
  | Some ctx => omac_body (aes_encrypt ctx) addr
  end.
Definition omac1_aes_128_vector (key : list Z) (addr : list (list Z)) : cres (list Z) :=
  omac1_aes_vector key 16 addr.
Definition omac1_aes_128 (key data : list Z) : cres (list Z) :=
  omac1_aes_128_vector key [data].
Definition omac1_aes_256 (key data : list Z) : cres (list Z) :=
  omac1_aes_vector key 32 [data].
End alloc.

(** NIST SP 800-38B, example 2: a 16-byte message. *)
Example omac1_aes_128_test :
  omac1_aes_128 (λ _, true)
    [0x2b;0x7e;0x15;0x16;0x28;0xae;0xd2;0xa6;0xab;0xf7;0x15;0x88;0x09;0xcf;0x4f;0x3c]
    [0x6b;0xc1;0xbe;0xe2;0x2e;0x40;0x9f;0x96;0xe9;0x3d;0x7e;0x11;0x73;0x93;0x17;0x2a]
  = Ret [0x07;0x0a;0x16;0xb4;0x6b;0x4d;0x41;0x44;0xf7;0x9b;0xdd;0x9d;0xd0;0x4a;0x28;0x7c].
Proof. vm_compute. reflexivity. Qed.

(** ** CMAC as NIST SP 800-38B defines it *)

(** Doubling of a 128-bit big-endian number in GF(2^128). *)
Definition gdbl (x : Z) : Z :=
  if x <? 2 ^ 127 then 2 * x else Z.lxor (2 * x mod 2 ^ 128) 0x87.

Section cmac.
Context (E : list Z → list Z).
Definition cmac_K1 : list Z := be_bytes 16 (gdbl (be_val (E (replicate 16 0)))).
Definition cmac_K2 : list Z := be_bytes 16 (gdbl (be_val cmac_K1)).

(** The last block, complete or padded with the bit string 10...0. *)
Definition cmac_last (m : list Z) : list Z :=
  if (length m =? 16)%nat then xor_bytes m cmac_K1
  else xor_bytes (m ++ 0x80 :: replicate (15 - length m) 0) cmac_K2.

Fixpoint cmac_chain (fuel : nat) (c m : list Z) : list Z :=
  match fuel with
  | O => []
  | S fuel =>
      if (length m <=? 16)%nat then E (xor_bytes c (cmac_last m))
      else cmac_chain fuel (E (xor_bytes c (take 16 m))) (drop 16 m)
  end.

Definition CMAC (m : list Z) : list Z := cmac_chain (S (length m)) (replicate 16 0) m.
End cmac.

(** ** [gf_mulx] doubles *)

(** The shift by one bit to the left that the loop of [gf_mulx] performs. *)
Fixpoint shl1 (l : list Z) : list Z :=
  match l with
  | [] => []
  | b :: t => u8 ((b << 1) .| (t.[0] >> 7)) :: shl1 t
  end.

Lemma length_shl1 l : length (shl1 l) = length l.
Proof. induction l; cbn; auto. Qed.
Lemma shl1_uint l : bytes (shl1 l).
Proof. induction l; cbn; constructor; auto. apply u8_uint. Qed.

Lemma shl1_head b c : is_u8 b → is_u8 c → u8 ((b << 1) .| (c >> 7)) = 2 * b mod 256 + c / 128.
Proof.
  intros Hb Hc.
  rewrite u8_mod. change (2 ^ 8) with 256.
  assert (Z.land (b << 1) (c >> 7) = 0) as Hd.
  { apply (uint_eq_bits 8); [apply uint_land_r; auto with machine|uint_lit|].
    intros i Hi. rewrite Z.land_spec, Z.bits_0. destruct (decide (i = 0)) as [->|].
    - by rewrite Z.shiftl_spec_low.
    - rewrite (Z.shiftr_spec c), (uint_testbit 8 c), andb_false_r by (done || lia). done. }
  rewrite <- Z.lxor_lor, <- Z.add_nocarry_lxor by done.
  rewrite Z.shiftl_mul_pow2, Z.shiftr_div_pow2 by lia. change (2 ^ 1) with 2. change (2 ^ 7) with 128.
  rewrite (Z.mul_comm b 2). destruct Hb as [? Hb], Hc as [? Hc]. change (2 ^ 8) with 256 in *.
  assert (0 ≤ c / 128 < 2).
  { split; [apply Z.div_pos; lia|apply Z.div_lt_upper_bound; lia]. }
  rewrite <- (Z.mod_small (2 * b mod 256 + c / 128) 256).
  - by rewrite Z.add_mod_idemp_l by lia.
  - assert (2 * b mod 256 = 2 * (b mod 128)) as ->.
    { change 256 with (2 * 128). by rewrite Z.mul_mod_distr_l by lia. }
    pose proof (Z.mod_pos_bound b 128). lia.
Qed.

Lemma be_val_top t : bytes t → t.[0] / 128 = 2 * be_val t / 256 ^ Z.of_nat (length t).
Proof.
  intros Hb. destruct t as [|c t]; [done|]. inversion Hb as [|? ? _ Ht]; subst.
  rewrite be_val_cons. cbn [length aget nth]. rewrite Nat2Z.inj_succ, Z.pow_succ_r by lia.
  assert (0 < 256 ^ Z.of_nat (length t)) by (apply Z.pow_pos_nonneg; lia).
  pose proof (be_val_bound t Ht). pose proof (be_val_nonneg t Ht).
  replace (256 * 256 ^ Z.of_nat (length t)) with (2 * (256 ^ Z.of_nat (length t) * 128)) by lia.
  rewrite Z.div_mul_cancel_l, <- Z.div_div, Z.div_add_l, (Z.div_small (be_val t)) by lia.
  f_equal. lia.
Qed.

Lemma be_val_shl1 l :
  bytes l → be_val (shl1 l) = 2 * be_val l mod 256 ^ Z.of_nat (length l).
Proof.
  induction l as [|b t IH]; intros Hb; [by rewrite Z.mod_1_r|].
  pose proof (be_val_bound _ (shl1_uint (b :: t))) as Hbound. rewrite length_shl1 in Hbound.
  pose proof (be_val_nonneg _ (shl1_uint (b :: t))) as Hnn.
  inversion Hb as [|? ? Hb8 Ht]; subst. specialize (IH Ht).
  set (P := 256 ^ Z.of_nat (length t)) in *.
  assert (0 < P) by (apply Z.pow_pos_nonneg; lia).
  apply (Z.mod_unique_pos _ _ (2 * b / 256)).
  - split; done.
  - cbn [shl1]. rewrite !be_val_cons, length_shl1, IH. fold P.
    rewrite shl1_head, be_val_top by auto with machine. fold P.
    cbn [length]. rewrite Nat2Z.inj_succ, Z.pow_succ_r by lia. fold P.
    pose proof (Z.div_mod (2 * be_val t) P). pose proof (Z.div_mod (2 * b) 256). nia.
Qed.

Lemma gf_mulx_shl1 p :
  length p = 16%nat → bytes p →
  gf_mulx p = if (p.[0] .& 0x80) =? 0 then shl1 p
              else <[15%nat := (shl1 p).[15] ⊕ 0x87]> (shl1 p).
Proof.
  intros Hl Hb. rewrite (length16 p Hl) in *. unfold gf_mulx.
  generalize dependent (p.[0]); generalize (p.[1]) (p.[2]) (p.[3]) (p.[4]) (p.[5]) (p.[6]) (p.[7])
    (p.[8]) (p.[9]) (p.[10]) (p.[11]) (p.[12]) (p.[13]) (p.[14]) (p.[15]). intros.
  cbn [seq fold_left AES_BLOCK_SIZE Nat.sub insert list_insert aget nth Nat.add shl1].
  rewrite Z.shiftr_0_l, Z.lor_0_r. done.
Qed.

Lemma lxor_low a x y : is_u8 x → is_u8 y → Z.lxor (a * 256 + x) y = a * 256 + Z.lxor x y.
Proof.
  intros Hx Hy. change 256 with (2 ^ 8). rewrite <- Z.shiftl_mul_pow2 by lia.
  assert (∀ z, is_u8 z → Z.land (a << 8) z = 0) as Hd.
  { intros z Hz. apply Z.bits_inj'. intros i Hi. rewrite Z.land_spec, Z.bits_0.
    destruct (decide (i < 8)).
    - by rewrite Z.shiftl_spec_low.
    - by rewrite (uint_testbit 8 z), andb_false_r by (done || lia). }
  rewrite !Z.add_nocarry_lxor by (apply Hd; auto with machine). by rewrite Z.lxor_assoc.
Qed.

Lemma carry_spec p :
  length p = 16%nat → bytes p → (p.[0] .& 0x80 =? 0) = (be_val p <? 2 ^ 127).
Proof.
  intros Hl Hb. destruct p as [|b t]; [done|]. inversion Hb as [|? ? Hb8 Ht]; subst.
  cbn [aget nth]. rewrite be_val_cons. assert (length t = 15%nat) as -> by (cbn in Hl; lia).
  pose proof (be_val_bound t Ht) as Hv. pose proof (be_val_nonneg t Ht).
  replace (length t) with 15%nat in Hv by (cbn in Hl; lia).
  change (256 ^ Z.of_nat 15) with (2 ^ 120) in *. change (2 ^ 127) with (128 * 2 ^ 120).
  assert ((b .& 0x80 =? 0) = (b <? 128)) as ->.
  { pose proof (all_below_spec 256 (λ b, Bool.eqb (b .& 0x80 =? 0) (b <? 128)) b
      ltac:(vm_compute; reflexivity) Hb8) as H1. by apply Bool.eqb_prop in H1. }
  destruct (Z.ltb_spec b 128), (Z.ltb_spec (b * 2 ^ 120 + be_val t) (128 * 2 ^ 120)); nia.
Qed.

Lemma gf_mulx_gdbl p :
  length p = 16%nat → bytes p → gf_mulx p = be_bytes 16 (gdbl (be_val p)).
Proof.
  intros Hl Hb. rewrite gf_mulx_shl1, carry_spec by done. unfold gdbl.
  pose proof (be_val_shl1 p Hb) as Hs. rewrite Hl in Hs.
  change (256 ^ Z.of_nat 16) with (2 ^ 128) in Hs.
  pose proof (be_val_nonneg p Hb).
  destruct (Z.ltb_spec (be_val p) (2 ^ 127)) as [Hlt|Hge].
  - rewrite Z.mod_small in Hs by lia. rewrite <- Hs.
    symmetry. rewrite <- (be_bytes_val (shl1 p)) at 2 by apply shl1_uint.
    by rewrite length_shl1, Hl.
  - rewrite <- Hs. pose proof (length_shl1 p) as Hl2. rewrite Hl in Hl2.
    pose proof (shl1_uint p) as Hu. generalize dependent (shl1 p). intros q _ Hlq Hq.
    destruct q as [|x q _] using rev_ind; [done|]. rewrite length_app in Hlq. cbn in Hlq.
    apply Forall_app in Hq as [Hq Hx]. inversion Hx as [|? ? Hx8 _]; subst.
    assert (length q = 15%nat) as Hlq' by lia.
    rewrite be_val_snoc, lxor_low by (done || uint_lit). rewrite <- be_val_snoc.
    replace ((q ++ [x]).[15]) with x by (rewrite (aget_app_r q _ 15 0 Hlq'); done).
    rewrite (insert_app_r_alt q [x] 15) by lia. rewrite Hlq'. cbn [Nat.sub insert list_insert].
    rewrite <- (be_bytes_val (q ++ [x ⊕ 0x87])) at 1; [by rewrite length_app, Hlq'|].
    apply bytes_app; [done|]. constructor; [|constructor]. apply uint_lxor; (done || uint_lit).
Qed.

(** ** The vector walk *)

(** No empty element is followed by a non-empty one: the precondition under
    which [omac1_aes_vector] stays inside its input. *)
Fixpoint no_gap (v : list (list Z)) : bool :=
  match v with
  | [] => true
  | [] :: v => forallb (λ x, match x with [] => true | _ => false end) v
  | _ :: v => no_gap v
  end.

Lemma no_gap_nil_concat v : no_gap ([] :: v) = true → concat v = [].
Proof.
  cbn. induction v as [|[|x l] v IH]; cbn; done.
Qed.
Lemma no_gap_tail x v : no_gap (x :: v) = true → no_gap v = true.
Proof.
  destruct x as [|b x]; [|done]. cbn. intros H. induction v as [|[|y l] v IH]; cbn in *; done.
Qed.

Section walk.
Context (stop : nat → bool).

Lemma omac_absorb_spec n i cbc cur rest :
  no_gap (cur :: rest) = true →
  (n ≤ length (cur ++ concat rest))%nat →
  (∀ k, (k < n)%nat → stop (i + k)%nat = (k + 1 =? length (cur ++ concat rest))%nat) →
  ∃ cur' rest',
    omac_absorb stop n i cbc cur rest = Ret (xor_at i cbc (take n (cur ++ concat rest)), cur', rest') ∧
    cur' ++ concat rest' = drop n (cur ++ concat rest) ∧ no_gap (cur' :: rest') = true.
Proof.
  revert i cbc cur rest. induction n as [|n IH]; intros i cbc cur rest Hgap Hn Hstop.
  { eexists cur, rest. done. }
  destruct cur as [|x cur].
  { apply no_gap_nil_concat in Hgap. rewrite Hgap in Hn. cbn in Hn. lia. }
  assert (Hnext : ∀ cur2 rest2, cur2 ++ concat rest2 = cur ++ concat rest →
    no_gap (cur2 :: rest2) = true →
    ∃ cur' rest', omac_absorb stop n (S i) (<[i:=cbc.[i] ⊕ x]> cbc) cur2 rest2 =
      Ret (xor_at (S i) (<[i:=cbc.[i] ⊕ x]> cbc) (take n (cur ++ concat rest)), cur', rest') ∧
      cur' ++ concat rest' = drop n (cur ++ concat rest) ∧ no_gap (cur' :: rest') = true).
  { intros cur2 rest2 Heq Hg. cbn in Hn. rewrite <- Heq. apply IH; [done|rewrite Heq; lia|].
    intros k Hk. specialize (Hstop (S k) ltac:(lia)). cbn in Hstop.
    rewrite <- Nat.add_succ_comm in Hstop. by rewrite Hstop, Heq. }
  cbn [omac_absorb app take drop xor_at firstn skipn].
  destruct cur as [|y cur]; [|by apply Hnext].
  destruct (stop i) eqn:Es.
  - specialize (Hstop 0%nat ltac:(lia)). rewrite Nat.add_0_r, Es in Hstop. symmetry in Hstop.
    apply Nat.eqb_eq in Hstop. cbn in Hstop.
    assert (concat rest = []) as Hc by (destruct (concat rest); [done|cbn in Hstop; lia]).
    eexists [], rest. cbn [app]. rewrite Hc, firstn_nil, skipn_nil. split; [done|]. split; [done|].
    cbn. clear -Hc. induction rest as [|[|] rest IH]; cbn in *; try done. by apply IH.
  - destruct rest as [|c rest].
    + specialize (Hstop 0%nat ltac:(lia)). rewrite Nat.add_0_r, Es in Hstop. done.
    + by apply (Hnext c rest).
Qed.
End walk.

Section refinement.
Context (E : list Z → list Z) `{!BlockCipher E}.

(** What the code computes from the chaining value and the bytes left. *)
Definition omac_final (c m : list Z) : list Z := E (xor_bytes c (cmac_last E m)).

Lemma xor_at_block c m : length c = 16%nat → length m = 16%nat → xor_at 0 c m = xor_bytes c m.
Proof.
  intros Hc Hm. rewrite xor_at_0 by lia. by rewrite Hc, Hm, Nat.sub_diag, app_nil_r.
Qed.

(** Loop invariant: after the [while] loop the bytes left are fewer than a
    block and the chaining value is that of CMAC, except that a final complete
    block has been absorbed but not encrypted. *)
Lemma omac_blocks_spec fuel c cur rest :
  length c = 16%nat →
  no_gap (cur :: rest) = true →
  (length (cur ++ concat rest) ≤ fuel)%nat →
  (0 < length (cur ++ concat rest))%nat →
  ∃ l c' cur' rest' m',
    omac_blocks E fuel (length (cur ++ concat rest)) c cur rest = Ret (l, c', cur', rest') ∧
    length c' = 16%nat ∧ no_gap (cur' :: rest') = true ∧
    cur' ++ concat rest' = m' ∧ l = length m' ∧ (l < 16)%nat ∧
    ∃ c0 m0, length c0 = 16%nat ∧ (0 < length m0 ≤ 16)%nat ∧
      (if (l =? 0)%nat then length m0 = 16%nat ∧ c' = xor_bytes c0 m0 else c' = c0 ∧ m' = m0) ∧
      ∀ k, (length (cur ++ concat rest) < k)%nat →
        cmac_chain E k c (cur ++ concat rest) = omac_final c0 m0.
Proof.
  revert c cur rest. induction fuel as [|fuel IH]; intros c cur rest Hc Hgap Hf Hpos; [lia|].
  set (m := cur ++ concat rest) in *. cbn [omac_blocks]. unfold AES_BLOCK_SIZE.
  destruct (Nat.ltb_spec (length m) 16) as [Hs|Hs].
  { eexists _, c, cur, rest, m. split; [done|]. do 4 (split; [done|]). split; [done|].
    eexists c, m. split; [done|]. split; [lia|].
    destruct (Nat.eqb_spec (length m) 0); [lia|]. split; [done|].
    intros [|k] Hk; [lia|]. cbn [cmac_chain]. by rewrite (proj2 (Nat.leb_le _ _)) by lia. }
  edestruct (omac_absorb_spec (λ i, ((i + 1 =? 16) && (length m =? 16))%nat) 16 0 c cur rest)
    as (cur' & rest' & -> & Hrem & Hgap'); [done|fold m; lia|fold m|].
  { intros k Hk. cbn. destruct (Nat.eqb_spec (length m) 16) as [->|Hm].
    - by rewrite andb_true_r.
    - rewrite andb_false_r. destruct (Nat.eqb_spec (k + 1) (length m)); [lia|done]. }
  fold m in Hrem |- *. cbn [cbind].
  rewrite xor_at_block by (done || rewrite length_take; lia).
  destruct (Nat.ltb_spec 16 (length m)) as [Hgt|Hle].
  - assert (length m - 16 = length (cur' ++ concat rest'))%nat as Hlen.
    { rewrite Hrem, length_drop. lia. }
    rewrite Hlen.
    edestruct (IH (E (xor_bytes c (take 16 m))) cur' rest')
      as (l & c' & cur2 & rest2 & m' & -> & H1 & H2 & H3 & H4 & H5 & c0 & m0 & H6 & H7 & H8 & H9);
      [apply bc_length|done|lia|lia|].
    eexists l, c', cur2, rest2, m'. do 6 (split; [done|]).
    eexists c0, m0. do 3 (split; [done|]). intros [|k] Hk; [lia|]. cbn [cmac_chain].
    rewrite (proj2 (Nat.leb_gt (length m) 16)) by lia.
    rewrite <- Hrem. apply H9. lia.
  - assert (length m = 16)%nat as Hm by lia. rewrite Hm, Nat.sub_diag.
    assert (drop 16 m = []) as Hd by (apply drop_ge; lia). rewrite Hd in Hrem.
    eexists 0%nat, _, cur', rest', []. split.
    { destruct fuel; [lia|]. reflexivity. }
    rewrite length_xor_bytes_le, (take_ge m) by (rewrite ?length_take; lia).
    do 5 (split; [done || lia|]).
    eexists c, m. split; [done|]. split; [lia|]. split; [done|].
    intros [|k] Hk; [lia|]. cbn [cmac_chain]. by rewrite (proj2 (Nat.leb_le _ _)) by lia.
Qed.

Lemma xor_at_snoc i c m x :
  xor_at i c (m ++ [x]) = <[(i + length m)%nat := (xor_at i c m).[i + length m] ⊕ x]> (xor_at i c m).
Proof.
  revert i c. induction m as [|y m IH]; intros i c; cbn [app xor_at length].
  - by rewrite Nat.add_0_r.
  - rewrite IH. by rewrite <- Nat.add_succ_comm.
Qed.

Lemma xor_bytes_swap a b c : xor_bytes a (xor_bytes b c) = xor_bytes b (xor_bytes c a).
Proof.
  revert b c. induction a as [|x a IH]; intros [|y b] [|z c]; try done.
  cbn. f_equal; [|apply IH]. by rewrite Z.lxor_comm, Z.lxor_assoc.
Qed.

Lemma pad_block_eq c m :
  length c = 16%nat → (length m < 16)%nat →
  <[length m := (xor_at 0 c m).[length m] ⊕ 0x80]> (xor_at 0 c m) =
  xor_bytes c (m ++ 0x80 :: replicate (15 - length m) 0).
Proof.
  intros Hc Hm. pose proof (xor_at_snoc 0 c m 0x80) as E1. cbn [Nat.add] in E1. rewrite <- E1.
  rewrite xor_at_0 by (rewrite length_app; cbn; lia).
  rewrite length_app, Hc, <- app_assoc. cbn [length app].
  by replace (16 - (length m + 1))%nat with (15 - length m)%nat by lia.
Qed.

Lemma K1_eq : gf_mulx (E (replicate 16 0)) = cmac_K1 E.
Proof. apply gf_mulx_gdbl; [apply bc_length|apply bc_bytes]. Qed.
Lemma K2_eq : gf_mulx (cmac_K1 E) = cmac_K2 E.
Proof. apply gf_mulx_gdbl; [apply length_be_bytes|apply be_bytes_uint]. Qed.

Lemma omac_pad_eq c m :
  length c = 16%nat → (length m < 16)%nat →
  E (xor_bytes (cmac_K2 E) (<[length m := (xor_at 0 c m).[length m] ⊕ 0x80]> (xor_at 0 c m)))
  = omac_final c m.
Proof.
  intros Hc Hm. rewrite pad_block_eq by done. unfold omac_final, cmac_last.
  destruct (Nat.eqb_spec (length m) 16); [lia|]. by rewrite xor_bytes_swap.
Qed.

Lemma sum_length_concat (v : list (list Z)) : sum_list (map length v) = length (concat v).
Proof. induction v as [|x v IH]; [done|]. cbn. by rewrite length_app, IH. Qed.

Lemma omac_body_CMAC addr :
  addr ≠ [] → no_gap addr = true → omac_body E addr = Ret (CMAC E (concat addr)).
Proof.
  intros Hne Hgap. destruct addr as [|cur rest]; [done|]. unfold omac_body, CMAC.
  rewrite sum_length_concat. cbn [concat]. unfold memset, AES_BLOCK_SIZE.
  destruct (Nat.eqb_spec (length (cur ++ concat rest)) 0) as [H0|H0].
  - rewrite H0. cbn [omac_blocks cbind]. cbn [Nat.eqb negb orb omac_absorb cbind].
    rewrite K1_eq, K2_eq.
    destruct (cur ++ concat rest); [|done].
    pose proof (omac_pad_eq (replicate 16 0) [] eq_refl ltac:(cbn; lia)) as H. cbn [xor_at length] in H.
    rewrite H. reflexivity.
  - edestruct (omac_blocks_spec (length (cur ++ concat rest)) (replicate 16 0) cur rest)
      as (l & c' & cur' & rest' & m' & -> & H1 & H2 & H3 & H4 & H5 & c0 & m0 & H6 & H7 & H8 & H9);
      [done|done|lia|lia|]. cbn [cbind]. rewrite H9, K1_eq, K2_eq by lia.
    destruct (Nat.eqb_spec l 0) as [Hl|Hl]; cbn [negb orb].
    + destruct H8 as [Hm0 ->]. cbn [cbind]. unfold omac_final, cmac_last.
      rewrite Hm0. cbn [Nat.eqb]. by rewrite xor_bytes_swap.
    + destruct H8 as [-> ->].
      edestruct (omac_absorb_spec (λ i, (i + 1 =? l)%nat) l 0 c0 cur' rest')
        as (cur2 & rest2 & -> & _); [done|rewrite H3; lia| |].
      { intros k Hk. by rewrite H3, H4. }
      cbn [cbind]. rewrite H3, H4, take_ge by done. rewrite omac_pad_eq by (done || lia). done.
Qed.
End refinement.

(** ** Properties *)
Section properties.
Context (kmalloc : Z → bool).

(** [omac1_aes_vector] computes the CMAC of SP 800-38B of the concatenated
    elements and never reads outside them, whenever no empty element is
    followed by a non-empty one; when the context cannot be made it returns
    -1 before touching the data. *)
Theorem omac1_aes_vector_CMAC key key_len addr :
  addr ≠ [] → no_gap addr = true →
  omac1_aes_vector kmalloc key key_len addr =
    match aes_encrypt_init kmalloc key key_len with
    | None => Err (-1)
    | Some ctx => Ret (CMAC (aes_encrypt ctx) (concat addr))
    end.
Proof.
  intros Hne Hgap. unfold omac1_aes_vector. destruct (aes_encrypt_init _ _ _) as [ctx|]; [|done].
  by apply omac_body_CMAC; [apply _|..].
Qed.

(** The precondition is needed: with an empty element before the last
    data byte, [omac1_aes_vector] reads past the end of that element. *)
Theorem omac1_aes_vector_gap_oob key key_len ctx x rest :
  aes_encrypt_init kmalloc key key_len = Some ctx →
  omac1_aes_vector kmalloc key key_len ([] :: (x :: rest) :: []) = Oob.
Proof.
  intros Hctx. unfold omac1_aes_vector, omac_body. rewrite Hctx.
  rewrite sum_length_concat. cbn [concat app length].
  destruct (Nat.ltb_spec (S (length (rest ++ []))) AES_BLOCK_SIZE) as [Hs|Hs].
  - cbn [omac_blocks]. rewrite (proj2 (Nat.ltb_lt _ _) Hs). reflexivity.
  - cbn [omac_blocks]. rewrite (proj2 (Nat.ltb_ge _ _) Hs). reflexivity.
Qed.
End properties.

Lemma omac1_aes_vector_CMAC_witness :
  no_gap [[1; 2]; [3]; []] = true ∧
  omac1_aes_vector (λ _, true) (replicate 16 0) 16 [[1; 2]; [3]; []] =
    match aes_encrypt_init (λ _, true) (replicate 16 0) 16 with
    | None => Err (-1) | Some ctx => Ret (CMAC (aes_encrypt ctx) [1; 2; 3]) end.
Proof.
  split; [reflexivity|].
  exact (omac1_aes_vector_CMAC (λ _, true) (replicate 16 0) 16 [[1; 2]; [3]; []]
    ltac:(discriminate) eq_refl).
Defined.

Lemma omac1_aes_vector_gap_witness :
  omac1_aes_vector (λ _, true) (replicate 16 0) 16 [[]; [7]] = Oob.
Proof.
  destruct (aes_encrypt_init (λ _, true) (replicate 16 0) 16) as [ctx|] eqn:E1;
    [|rewrite aes_encrypt_init_eq in E1; discriminate].
  exact (omac1_aes_vector_gap_oob (λ _, true) (replicate 16 0) 16 ctx 7 [] E1).
Defined.
