(* ===== verification/Siv.v ===== *)
(** * AES-SIV (RFC 5297): [core/crypto/aes-siv.c] *)
From S2P Require Import Prelude Aes AesCorrect CryptoWrap Ctr Omac.

(** [static const u8 zero[AES_BLOCK_SIZE]] *)
Definition zero : list Z := memset AES_BLOCK_SIZE 0.

Definition dbl (pad : list Z) : list Z :=
  let carry := pad.[0] .& 0x80 in
  let pad := fold_left
    (λ pad i, <[i := u8 ((pad.[i] << 1) .| (pad.[i + 1] >> 7))]> pad)
    (seq 0 (AES_BLOCK_SIZE - 1)) pad in
  let pad := <[15%nat := u8 (pad.[15] << 1)]> pad in
  if carry =? 0 then pad else <[15%nat := pad.[15] ⊕ 0x87]> pad.

Definition siv_xor (a b : list Z) : list Z := xor_at 0 a (take AES_BLOCK_SIZE b).

Definition xorend (a : list Z) (alen : nat) (b : list Z) (blen : nat) : list Z :=
  if (alen <? blen)%nat then a else xor_at (alen - blen) a (take blen b).

Definition pad_block (addr : list Z) (len : nat) : list Z :=
  let pad := memcpy (memset AES_BLOCK_SIZE 0) 0 (take len addr) in
  if (len <? AES_BLOCK_SIZE)%nat then <[len := 0x80]> pad else pad.

Definition ENOMEM : Z := 12.

Section alloc.
Context (kmalloc : Z → bool).

Section s2v.
Context (key : list Z) (key_len : Z).

(** One element, as every call of [omac1_aes_vector] here passes. *)
Let omac1 (d : list Z) : cres (list Z) := omac1_aes_vector kmalloc key key_len [d].

(** [for (i = 0; i < num_elem - 1; i++)] over the leading elements. *)
Fixpoint s2v_loop (elems : list (list Z)) (tmp : list Z) : cres (list Z) :=
  match elems with
  | [] => Ret tmp
  | a :: elems =>
      let* tmp2 := omac1_aes_vector kmalloc key key_len [a] in
      s2v_loop elems (siv_xor (dbl tmp) tmp2)
  end.

(** [addr] lists the elements with their lengths; the value is the MAC. *)
Definition aes_s2v (addr : list (list Z)) : cres (list Z) :=
  match addr with
  | [] => omac1 (<[15%nat := 1]> zero)
  | _ =>
      let* tmp := omac1 zero in
      let* tmp := s2v_loop (removelast addr) tmp in
      let a := List.last addr [] in
      if (AES_BLOCK_SIZE <=? length a)%nat then
        if kmalloc (Z.of_nat (length a)) then
          omac1 (xorend a (length a) tmp AES_BLOCK_SIZE)
        else Err (- ENOMEM)
      else omac1 (siv_xor (dbl tmp) (pad_block a (length a)))
  end.
End s2v.

(** [v[8] &= 0x7f; v[12] &= 0x7f;] *)
Definition siv_ctr (v : list Z) : list Z :=
  let v := <[8%nat := v.[8] .& 0x7f]> v in <[12%nat := v.[12] .& 0x7f]> v.

Definition siv_key_len (key_len : Z) : bool :=
  (key_len =? 32) || (key_len =? 48) || (key_len =? 64).

(** The result is the contents of [out]: the IV, then the encrypted text. *)
Definition aes_siv_encrypt (key : list Z) (key_len : Z) (pw : list Z) (addr : list (list Z))
    : cres (list Z) :=
  if (5 <? length addr)%nat || negb (siv_key_len key_len) then Err (-1) else
  let key_len := key_len / 2 in
  let k1 := key in
  let k2 := drop (Z.to_nat key_len) key in
  match aes_s2v k1 key_len (addr ++ [pw]) with
  | Oob => Oob
  | Err _ => Err (-1)
  | Ret v =>
      match aes_ctr_encrypt kmalloc k2 key_len (siv_ctr v) pw with
      | None => Err (-1)
      | Some crypt_pw => Ret (take AES_BLOCK_SIZE v ++ crypt_pw)
      end
  end.

Definition aes_siv_decrypt (key : list Z) (key_len : Z) (iv_crypt : list Z) (addr : list (list Z))
    : cres (list Z) :=
  if (length iv_crypt <? AES_BLOCK_SIZE)%nat || (5 <? length addr)%nat
     || negb (siv_key_len key_len) then Err (-1) else
  let key_len := key_len / 2 in
  let k1 := key in
  let k2 := drop (Z.to_nat key_len) key in
  let iv := take AES_BLOCK_SIZE iv_crypt in
  match aes_ctr_encrypt kmalloc k2 key_len (siv_ctr iv) (drop AES_BLOCK_SIZE iv_crypt) with
  | None => Err (-1)
  | Some out =>
      let* check := aes_s2v k1 key_len (addr ++ [out]) in
      if os_memcmp check iv_crypt AES_BLOCK_SIZE =? 0 then Ret out else Err (-1)
  end.
End alloc.

(** RFC 5297, appendix A.1. *)
Example aes_siv_rfc5297_A1 :
  aes_siv_encrypt (λ _, true)
    [0xff;0xfe;0xfd;0xfc;0xfb;0xfa;0xf9;0xf8;0xf7;0xf6;0xf5;0xf4;0xf3;0xf2;0xf1;0xf0;
     0xf0;0xf1;0xf2;0xf3;0xf4;0xf5;0xf6;0xf7;0xf8;0xf9;0xfa;0xfb;0xfc;0xfd;0xfe;0xff] 32
    [0x11;0x22;0x33;0x44;0x55;0x66;0x77;0x88;0x99;0xaa;0xbb;0xcc;0xdd;0xee]
    [[0x10;0x11;0x12;0x13;0x14;0x15;0x16;0x17;0x18;0x19;0x1a;0x1b;0x1c;0x1d;0x1e;0x1f;
      0x20;0x21;0x22;0x23;0x24;0x25;0x26;0x27]]
  = Ret [0x85;0x63;0x2d;0x07;0xc6;0xe8;0xf3;0x7f;0x95;0x0a;0xcd;0x32;0x0a;0x2e;0xcc;0x93;
         0x40;0xc0;0x2b;0x96;0x90;0xc4;0xdc;0x04;0xda;0xef;0x7f;0x6a;0xfe;0x5c].
Proof. vm_compute. reflexivity. Qed.

(** ** S2V as RFC 5297 defines it *)
Section S2V.
Context (E : list Z → list Z).
Definition bdbl (l : list Z) : list Z := be_bytes 16 (gdbl (be_val l)).
Definition S2V (addr : list (list Z)) : list Z :=
  match addr with
  | [] => CMAC E (be_bytes 16 1)
  | _ =>
      let D := fold_left (λ D s, xor_bytes (bdbl D) (CMAC E s)) (removelast addr)
                 (CMAC E (replicate 16 0)) in
      let a := List.last addr [] in
      let n := (length a - 16)%nat in
      if (16 <=? length a)%nat then CMAC E (take n a ++ xor_bytes (drop n a) D)
      else CMAC E (xor_bytes (bdbl D) (a ++ 0x80 :: replicate (15 - length a) 0))
  end.
End S2V.

(** ** Facts *)
Lemma dbl_bdbl p : length p = 16%nat → bytes p → dbl p = bdbl p.
Proof. apply gf_mulx_gdbl. Qed.

Section cmac_facts.
Context (E : list Z → list Z) `{!BlockCipher E}.
Lemma cmac_chain_block k c m :
  (length m < k)%nat → length (cmac_chain E k c m) = 16%nat ∧ bytes (cmac_chain E k c m).
Proof.
  revert c m. induction k as [|k IH]; intros c m Hk; [lia|]. cbn [cmac_chain].
  destruct (Nat.leb_spec (length m) 16).
  - split; [apply bc_length|apply bc_bytes].
  - apply IH. rewrite length_drop. lia.
Qed.
Lemma length_CMAC m : length (CMAC E m) = 16%nat.
Proof. apply cmac_chain_block. lia. Qed.
Lemma CMAC_bytes m : bytes (CMAC E m).
Proof. apply cmac_chain_block. lia. Qed.
End cmac_facts.

Lemma siv_xor_eq a b :
  length a = 16%nat → length b = 16%nat → siv_xor a b = xor_bytes a b.
Proof.
  intros Ha Hb. unfold siv_xor, AES_BLOCK_SIZE. rewrite take_ge by lia.
  rewrite xor_at_0 by lia. by rewrite Ha, Hb, Nat.sub_diag, app_nil_r.
Qed.

Lemma xorend_eq a d :
  (16 ≤ length a)%nat → length d = 16%nat →
  xorend a (length a) d 16 = take (length a - 16) a ++ xor_bytes (drop (length a - 16) a) d.
Proof.
  intros Ha Hd. unfold xorend. rewrite (proj2 (Nat.ltb_ge _ _)), (take_ge d) by lia.
  set (n := (length a - 16)%nat).
  rewrite <- (take_drop n a) at 1.
  replace n with (length (take n a)) at 1 by (rewrite length_take; lia).
  rewrite xor_at_shift. f_equal.
  assert (length (drop n a) = 16%nat) as Hl by (rewrite length_drop; lia).
  rewrite xor_at_0 by lia. by rewrite Hl, Hd, Nat.sub_diag, app_nil_r.
Qed.

Lemma pad_block_spec a :
  (length a < 16)%nat → pad_block a (length a) = a ++ 0x80 :: replicate (15 - length a) 0.
Proof.
  intros H. unfold pad_block, memset, AES_BLOCK_SIZE.
  rewrite firstn_all, memcpy_eq by (rewrite length_replicate; lia).
  rewrite take_0, drop_replicate, Nat.add_0_l, app_nil_l.
  rewrite (proj2 (Nat.ltb_lt _ _) H). rewrite insert_app_r_alt by lia. rewrite Nat.sub_diag.
  replace (16 - length a)%nat with (S (15 - length a)) by lia. done.
Qed.

Section s2v_facts.
Context (kmalloc : Z → bool) (key : list Z) (key_len : Z) (ctx : aes_ctx).
Context (Hctx : aes_encrypt_init kmalloc key key_len = Some ctx).
Let E := aes_encrypt ctx.

Lemma omac1_single d : omac1_aes_vector kmalloc key key_len [d] = Ret (CMAC E d).
Proof using Hctx.
  unfold omac1_aes_vector. rewrite Hctx.
  rewrite omac_body_CMAC; [|apply _|done|by destruct d]. cbn [concat]. by rewrite app_nil_r.
Qed.

Lemma s2v_loop_spec elems tmp :
  length tmp = 16%nat → bytes tmp →
  let D := fold_left (λ D s, xor_bytes (bdbl D) (CMAC E s)) elems tmp in
  s2v_loop kmalloc key key_len elems tmp = Ret D ∧ length D = 16%nat ∧ bytes D.
Proof using Hctx.
  revert tmp. induction elems as [|a elems IH]; intros tmp Hl Hb; cbn [s2v_loop fold_left]; [done|].
  rewrite omac1_single. cbn [cbind].
  rewrite dbl_bdbl by done.
  assert (length (CMAC E a) = 16%nat) as HC by (apply length_CMAC, _).
  assert (length (bdbl tmp) = 16%nat) as HD by apply length_be_bytes.
  rewrite siv_xor_eq by done. apply IH.
  - rewrite length_xor_bytes; lia.
  - apply xor_bytes_uint; [apply be_bytes_uint|apply CMAC_bytes, _].
Qed.

(** When memory is available, [aes_s2v] is S2V. *)
Lemma aes_s2v_S2V addr :
  (∀ n, kmalloc n = true) → aes_s2v kmalloc key key_len addr = Ret (S2V E addr).
Proof using Hctx.
  intros Hmem. unfold aes_s2v, S2V. destruct addr as [|a0 addr].
  { rewrite omac1_single. reflexivity. }
  rewrite omac1_single. cbn [cbind].
  destruct (s2v_loop_spec (removelast (a0 :: addr)) (CMAC E zero)) as (-> & HD & HDb);
    [apply length_CMAC, _|apply CMAC_bytes, _|]. cbn [cbind].
  change zero with (replicate 16 0) in *. unfold AES_BLOCK_SIZE.
  set (D := fold_left _ _ _) in *. set (a := List.last (a0 :: addr) []).
  destruct (Nat.leb_spec 16 (length a)).
  - by rewrite Hmem, omac1_single, xorend_eq.
  - rewrite omac1_single, dbl_bdbl, pad_block_spec by done.
    rewrite siv_xor_eq; [done|apply length_be_bytes|].
    rewrite length_app. cbn [length]. rewrite length_replicate. lia.
Qed.

Lemma aes_s2v_block addr v :
  aes_s2v kmalloc key key_len addr = Ret v → length v = 16%nat ∧ bytes v.
Proof using Hctx.
  assert (∀ d, Ret (CMAC E d) = Ret v → length v = 16%nat ∧ bytes v) as Hfin.
  { intros d [= <-]. split; [apply length_CMAC, _|apply CMAC_bytes, _]. }
  unfold aes_s2v. destruct addr as [|a0 addr]; [rewrite omac1_single; apply Hfin|].
  rewrite omac1_single. cbn [cbind].
  destruct (s2v_loop_spec (removelast (a0 :: addr)) (CMAC E zero)) as (-> & _);
    [apply length_CMAC, _|apply CMAC_bytes, _|]. cbn [cbind].
  repeat case_match; rewrite ?omac1_single; try done; apply Hfin.
Qed.
End s2v_facts.

Lemma aes_s2v_block_any kmalloc key key_len addr v :
  aes_s2v kmalloc key key_len addr = Ret v → length v = 16%nat ∧ bytes v.
Proof.
  destruct (aes_encrypt_init kmalloc key key_len) as [ctx|] eqn:E.
  { by apply aes_s2v_block with (ctx := ctx). }
  unfold aes_s2v, omac1_aes_vector. rewrite E. by destruct addr.
Qed.

Lemma siv_ctr_ok v : length v = 16%nat → bytes v → length (siv_ctr v) = 16%nat ∧ bytes (siv_ctr v).
Proof.
  intros Hl Hb. unfold siv_ctr. split; [by rewrite !length_insert|].
  apply Forall_insert; [apply Forall_insert|]; auto 6 with machine.
Qed.

Lemma siv_half key_len : siv_key_len key_len = true → aes_key_len (key_len / 2) = true.
Proof.
  unfold siv_key_len. rewrite !orb_true_iff, !Z.eqb_eq. by intros [[->| ->]| ->].
Qed.

Section properties.
Context (kmalloc : Z → bool).

(** Whenever the cipher context can be set up and memory is available,
    [aes_s2v] computes the S2V function of RFC 5297 over its elements (CMAC
    chain, doubling, [xorend] of a long last element and [pad_block] of a
    short one), for any number of elements of any lengths. *)
Theorem aes_s2v_refines_S2V key key_len ctx addr :
  (∀ n, kmalloc n = true) →
  aes_encrypt_init kmalloc key key_len = Some ctx →
  aes_s2v kmalloc key key_len addr = Ret (S2V (aes_encrypt ctx) addr).
Proof. intros Hmem Hctx. by apply aes_s2v_S2V. Qed.

(** Round trip of AES-SIV: whatever [aes_siv_encrypt] outputs,
    [aes_siv_decrypt] under the same key and associated data accepts and turns
    back into the plaintext, for every key size, also when memory runs out
    for some allocation sizes. *)
Theorem aes_siv_roundtrip key key_len pw addr out :
  aes_siv_encrypt kmalloc key key_len pw addr = Ret out →
  aes_siv_decrypt kmalloc key key_len out addr = Ret pw.
Proof.
  unfold aes_siv_encrypt, aes_siv_decrypt.
  destruct (5 <? length addr)%nat; [done|]. rewrite orb_false_l, orb_false_r.
  destruct (siv_key_len key_len) eqn:Hkl; [|done]. cbn [negb].
  destruct (aes_s2v kmalloc key (key_len / 2) (addr ++ [pw])) as [v|e|] eqn:Hv; [|done..].
  destruct (aes_ctr_encrypt _ _ _ _ _) as [crypt|] eqn:Hc; [|done]. intros [= <-].
  destruct (aes_s2v_block_any _ _ _ _ _ Hv) as [Hl Hb].
  destruct (siv_ctr_ok v Hl Hb) as [Hl' Hb'].
  unfold AES_BLOCK_SIZE. rewrite (take_ge v) by lia.
  rewrite length_app, Hl, (proj2 (Nat.ltb_ge (16 + length crypt) 16)) by lia. cbn [orb].
  rewrite take_app_length', drop_app_length' by done.
  rewrite (aes_ctr_involutive _ _ _ _ _ _ Hb' Hl' Hc), Hv. cbn [cbind].
  rewrite (proj2 (Z.eqb_eq _ 0)); [done|].
  apply rtw_memcmp2_0; [lia|rewrite length_app; lia|].
  by rewrite take_app_length', take_ge by lia.
Qed.

(** AES-SIV only returns authenticated data: when [aes_siv_decrypt]
    accepts, the first 16 bytes of its input are the S2V tag of the returned
    plaintext and the associated data, and the rest of the input is what
    [aes_siv_encrypt] makes of them. *)
Theorem aes_siv_decrypt_authentic key key_len iv_crypt addr out :
  bytes iv_crypt →
  aes_siv_decrypt kmalloc key key_len iv_crypt addr = Ret out →
  aes_s2v kmalloc key (key_len / 2) (addr ++ [out]) = Ret (take 16 iv_crypt) ∧
  aes_siv_encrypt kmalloc key key_len out addr = Ret iv_crypt.
Proof.
  intros Hbc. unfold aes_siv_decrypt, aes_siv_encrypt, AES_BLOCK_SIZE.
  destruct (Nat.ltb_spec (length iv_crypt) 16) as [|Hlen]; [done|]. cbn [orb].
  destruct (_ || _) eqn:Hg; [done|].
  destruct (aes_ctr_encrypt _ _ _ _ _) as [crypt|] eqn:Hc; [|done].
  destruct (aes_s2v _ _ _ _) as [v|e|] eqn:Hv; cbn [cbind]; [|done..].
  destruct (Z.eqb_spec (os_memcmp v iv_crypt 16) 0) as [Hm|]; [|done]. intros [= <-].
  rewrite Hv. destruct (aes_s2v_block_any _ _ _ _ _ Hv) as [Hl Hb].
  apply rtw_memcmp2_0 in Hm; [|lia..]. rewrite (take_ge v) in Hm by lia. subst v.
  split; [done|]. destruct (siv_ctr_ok _ Hl Hb) as [Hl' Hb'].
  rewrite (aes_ctr_involutive _ _ _ _ _ _ Hb' Hl' Hc).
  by rewrite (take_ge (take 16 iv_crypt)), take_drop by lia.
Qed.
End properties.

Lemma aes_s2v_refines_S2V_witness :
  ∃ ctx, aes_encrypt_init (λ _, true) (replicate 16 3) 16 = Some ctx ∧
    aes_s2v (λ _, true) (replicate 16 3) 16 [[1; 2]; replicate 20 5] =
      Ret (S2V (aes_encrypt ctx) [[1; 2]; replicate 20 5]).
Proof.
  eexists. split; [rewrite aes_encrypt_init_eq; reflexivity|].
  apply (aes_s2v_refines_S2V (λ _, true)); [done|]. by rewrite aes_encrypt_init_eq.
Defined.

Lemma aes_siv_roundtrip_witness :
  ∃ out, aes_siv_encrypt (λ _, true) (replicate 32 7) 32 [1; 2; 3] [[4]] = Ret out ∧
    aes_siv_decrypt (λ _, true) (replicate 32 7) 32 out [[4]] = Ret [1; 2; 3].
Proof.
  destruct (aes_siv_encrypt (λ _, true) (replicate 32 7) 32 [1; 2; 3] [[4]]) as [out|e|] eqn:E;
    [|vm_compute in E; discriminate..].
  exists out. split; [done|]. by apply (aes_siv_roundtrip (λ _, true)).
Defined.

Lemma aes_siv_decrypt_authentic_witness :
  ∃ iv_crypt out, bytes iv_crypt ∧
    aes_siv_decrypt (λ _, true) (replicate 32 7) 32 iv_crypt [[4]] = Ret out ∧
    aes_siv_encrypt (λ _, true) (replicate 32 7) 32 out [[4]] = Ret iv_crypt.
Proof.
  let e := eval vm_compute in (aes_siv_encrypt (λ _, true) (replicate 32 7) 32 [1; 2] [[4]]) in
  match e with Ret ?c => exists c, [1; 2] end.
  split; [bytes_lit|]. split; [vm_compute; reflexivity|].
  apply (aes_siv_decrypt_authentic (λ _, true)); [bytes_lit|vm_compute; reflexivity].
Defined.
