(* ===== verification/Blocks.v ===== *)
(** * Block-wise processing of byte strings

    The shared vocabulary of the block modes: a string cut into 16-byte
    blocks, zero padding to whole blocks, checked writes into a buffer, and
    the lemmas that turn a C loop over [len / 16] blocks and a partial last
    block into a fold over the blocks of the padded string. *)
From S2P Require Import Prelude CryptoWrap.

(** The whole 16-byte blocks of [l]. *)
Definition blocks (l : list Z) : list (list Z) :=
  map (λ i, take 16 (drop (16 * i) l)) (seq 0 (length l / 16)).

Definition pad16 (l : list Z) : list Z := l ++ replicate ((16 - length l mod 16) mod 16) 0.

(** [memcpy] into a buffer of a known size: [Oob] when it does not fit. *)
Definition buf_write (buf : list Z) (o : nat) (src : list Z) : cres (list Z) :=
  if (o + length src <=? length buf)%nat then Ret (memcpy buf o src) else Oob.

Lemma blocks_cons b l : length b = 16%nat → blocks (b ++ l) = b :: blocks l.
Proof.
  intros Hb. unfold blocks. rewrite length_app, Hb.
  replace (16 + length l)%nat with (length l + 1 * 16)%nat by lia.
  rewrite Nat.div_add, Nat.add_1_r by lia. cbn [seq map].
  rewrite Nat.mul_0_r, drop_0, take_app_length' by done. f_equal.
  rewrite <- seq_shift, map_map. apply map_ext. intros i.
  replace (16 * S i)%nat with (length b + 16 * i)%nat by lia. by rewrite drop_app_add.
Qed.
Lemma blocks_short l : (length l < 16)%nat → blocks l = [].
Proof. intros H. unfold blocks. by rewrite Nat.div_small. Qed.
Lemma blocks_one b : length b = 16%nat → blocks b = [b].
Proof. intros H. rewrite <- (app_nil_r b), blocks_cons by done. by rewrite app_nil_r. Qed.

(** Induction over a string one block at a time. *)
Lemma block_ind (P : list Z → Prop) :
  (∀ l, (length l < 16)%nat → P l) →
  (∀ b l, length b = 16%nat → P l → P (b ++ l)) → ∀ l, P l.
Proof.
  intros Hs Hb l. remember (length l) as n eqn:Hn. revert l Hn.
  induction n as [n IH] using lt_wf_ind. intros l ->.
  destruct (Nat.lt_ge_cases (length l) 16) as [H|H]; [by apply Hs|].
  rewrite <- (take_drop 16 l). apply Hb; [rewrite length_take; lia|].
  eapply IH; [|done]. rewrite length_drop. lia.
Qed.

Lemma pad16_block b l : length b = 16%nat → pad16 (b ++ l) = b ++ pad16 l.
Proof.
  intros Hb. unfold pad16. rewrite length_app, Hb, <- app_assoc. do 3 f_equal.
  replace (16 + length l)%nat with (length l + 1 * 16)%nat by lia. by rewrite Nat.Div0.mod_add.
Qed.
Lemma pad16_nil : pad16 [] = [].
Proof. done. Qed.
Lemma pad16_short l : l ≠ [] → (length l < 16)%nat → pad16 l = l ++ replicate (16 - length l) 0.
Proof.
  intros Hl H. unfold pad16. rewrite (Nat.mod_small (length l)) by lia.
  rewrite Nat.mod_small; [done|]. destruct l; [done|]. cbn [length] in *. lia.
Qed.
Lemma length_pad16_short l : l ≠ [] → (length l < 16)%nat → length (pad16 l) = 16%nat.
Proof. intros Hl H. rewrite (pad16_short l Hl H), length_app, length_replicate. lia. Qed.

Lemma blocks_app_pad a l : blocks (pad16 a ++ l) = blocks (pad16 a) ++ blocks l.
Proof.
  induction a as [a Ha|b a Hb IH] using block_ind.
  - destruct a as [|x a]; [done|].
    pose proof (length_pad16_short (x :: a) ltac:(discriminate) Ha) as H.
    by rewrite (blocks_cons _ l H), (blocks_one _ H).
  - rewrite pad16_block, <- app_assoc, !(blocks_cons b) by done. by rewrite IH.
Qed.

(** The blocks of a padded string: the whole ones, then the padded rest. *)
Lemma blocks_pad16 l :
  blocks (pad16 l) =
    blocks l ++ (if (length l mod 16 =? 0)%nat then []
                 else [pad16 (drop (16 * (length l / 16)) l)]).
Proof.
  induction l as [l Hl|b l Hb IH] using block_ind.
  - destruct l as [|x l]; [done|].
    rewrite (blocks_short _ Hl), (Nat.mod_small _ _ Hl), (Nat.div_small _ _ Hl), drop_0.
    by rewrite (blocks_one _ (length_pad16_short (x :: l) ltac:(discriminate) Hl)).
  - rewrite pad16_block, !(blocks_cons b), IH, length_app, Hb by done. cbn [app]. f_equal. f_equal.
    replace (16 + length l)%nat with (length l + 1 * 16)%nat by lia.
    rewrite Nat.Div0.mod_add, Nat.div_add by lia. destruct (_ =? _)%nat; [done|].
    replace (16 * (length l / 16 + 1))%nat with (length b + 16 * (length l / 16))%nat by lia.
    by rewrite drop_app_add.
Qed.

(** A C loop that walks a pointer over [len / 16] blocks is a fold. *)
Lemma fold_blocks {A} (f : A → list Z → A) l a :
  fold_left (λ a i, f a (take 16 (drop (16 * i) l))) (seq 0 (length l / 16)) a =
    fold_left f (blocks l) a.
Proof.
  unfold blocks. generalize (seq 0 (length l / 16)). intros ns. revert a.
  induction ns as [|i ns IH]; intros a; [done|]. cbn [fold_left map]. apply IH.
Qed.

Lemma Forall_blocks l : Forall (λ b, length b = 16%nat) (blocks l).
Proof.
  induction l as [l Hl|b l Hb IH] using block_ind.
  - rewrite blocks_short by done. constructor.
  - rewrite blocks_cons by done. by constructor.
Qed.

(** ** Checked writes *)
Lemma buf_write_ok buf o src :
  (o + length src ≤ length buf)%nat →
  buf_write buf o src = Ret (take o buf ++ src ++ drop (o + length src) buf).
Proof.
  intros H. unfold buf_write. rewrite (proj2 (Nat.leb_le _ _) H). by rewrite memcpy_eq.
Qed.

(** ** Sixteen-byte xor *)
Lemma xor_at_16 a b :
  length a = 16%nat → (16 ≤ length b)%nat → xor_at 0 a (take 16 b) = xor_bytes a (take 16 b).
Proof.
  intros Ha Hb. assert (length (take 16 b) = 16%nat) as Hl by (rewrite length_take; lia).
  rewrite xor_at_0 by lia. by rewrite Ha, Hl, Nat.sub_diag, app_nil_r.
Qed.
Lemma xor_at_pad a l :
  length a = 16%nat → l ≠ [] → (length l < 16)%nat → xor_at 0 a l = xor_bytes a (pad16 l).
Proof. intros Ha Hl H. rewrite xor_at_0 by lia. by rewrite (pad16_short l Hl H), Ha. Qed.

Lemma xor_bytes_zeros l : xor_bytes (replicate (length l) 0) l = l.
Proof. induction l as [|x l IH]; [done|]. unfold xor_bytes in *. cbn [length replicate zip_with]. by rewrite IH. Qed.

(** ** Byte order as big-endian numbers *)
Lemma RTW_PUT_BE16_be v : RTW_PUT_BE16 v = be_bytes 2 v.
Proof.
  unfold RTW_PUT_BE16. cbn [be_bytes app]. rewrite u16_mod, Z.shiftr_div_pow2 by lia.
  change 0xff with (Z.ones 8). rewrite Z.land_ones by lia.
  change (2 ^ 8) with 256. change (2 ^ 16) with (256 * 256).
  f_equal; [|f_equal].
  - rewrite Z.rem_mul_r by lia. rewrite Z.mul_comm, Z.div_add by lia.
    by rewrite (Z.div_small (v mod 256)) by (apply Z.mod_pos_bound; lia).
  - rewrite Z.rem_mul_r, Z.mul_comm, Z.mod_add, Z.mod_mod by lia. done.
Qed.

Lemma be_val_app a b : be_val (a ++ b) = be_val a * 256 ^ Z.of_nat (length b) + be_val b.
Proof.
  induction b as [|x b IH] using rev_ind; [rewrite app_nil_r; cbn; lia|].
  rewrite app_assoc, !be_val_snoc, IH, length_app, Nat.add_1_r, Nat2Z.inj_succ.
  rewrite Z.pow_succ_r by lia. lia.
Qed.

Lemma shl8_bits A x k :
  is_u8 x → 0 ≤ k →
  Z.testbit (A * 256 + x) k = if k <? 8 then Z.testbit x k else Z.testbit A (k - 8).
Proof.
  intros Hx Hk. assert (A * 256 + x = (A << 8) .| x) as ->.
  { assert (Z.land (A << 8) x = 0) as H0.
    { apply Z.bits_inj_0. intros i. destruct (Z.lt_ge_cases i 0); [by rewrite Z.testbit_neg_r|].
      rewrite Z.land_spec. destruct (Z.lt_ge_cases i 8).
      - by rewrite Z.shiftl_spec_low.
      - by rewrite (uint_testbit 8 x), andb_false_r. }
    rewrite <- Z.lxor_lor, <- Z.add_nocarry_lxor, Z.shiftl_mul_pow2 by (done || lia). lia. }
  rewrite Z.lor_spec, Z.shiftl_spec by lia. destruct (Z.ltb_spec k 8).
  - by rewrite (Z.testbit_neg_r A) by lia.
  - by rewrite (uint_testbit 8 x), orb_false_r by (done || lia).
Qed.

Lemma RTW_GET_BE32_be a b c d l :
  is_u8 a → is_u8 b → is_u8 c → is_u8 d → RTW_GET_BE32 (a :: b :: c :: d :: l) = be_val [a; b; c; d].
Proof.
  intros Ha Hb Hc Hd. unfold RTW_GET_BE32. cbn [aget nth].
  change (be_val [a; b; c; d]) with ((((0 * 256 + a) * 256 + b) * 256 + c) * 256 + d).
  apply Z.bits_inj'. intros k Hk. rewrite !Z.lor_spec, !Z.shiftl_spec by lia.
  rewrite shl8_bits by (done || lia). destruct (Z.ltb_spec k 8).
  { by rewrite !Z.testbit_neg_r by lia. }
  rewrite (uint_testbit 8 d), orb_false_r, shl8_bits by (done || lia). destruct (Z.ltb_spec (k - 8) 8).
  { by rewrite !(Z.testbit_neg_r _ (k - 16)), !(Z.testbit_neg_r _ (k - 24)) by lia. }
  rewrite (uint_testbit 8 c), orb_false_r, shl8_bits by (done || lia).
  replace (k - 8 - 8) with (k - 16) by lia. destruct (Z.ltb_spec (k - 16) 8).
  { by rewrite (Z.testbit_neg_r _ (k - 24)) by lia. }
  rewrite (uint_testbit 8 b), orb_false_r, shl8_bits by (done || lia).
  replace (k - 16 - 8) with (k - 24) by lia. destruct (Z.ltb_spec (k - 24) 8); [done|].
  by rewrite (uint_testbit 8 a), Z.testbit_0_l by (done || lia).
Qed.

Lemma RTW_PUT_BE32_be v : RTW_PUT_BE32 v = be_bytes 4 v.
Proof.
  assert (∀ k, 0 ≤ k ≤ 3 → u8 ((u32 v >> (8 * k)) .& 0xff) = v / 256 ^ k mod 256) as H.
  { intros k Hk. rewrite (u8_id (_ .& _)) by apply (u8_uint (u32 v >> (8 * k))).
    change ((u32 v >> (8 * k)) .& 0xff) with (u8 (u32 v >> (8 * k))). rewrite u8_mod, u32_mod.
    apply Z.bits_inj'. intros i Hi. destruct (Z.lt_ge_cases i 8).
    - change 256 with (2 ^ 8). rewrite <- Z.pow_mul_r by lia.
      rewrite !Z.mod_pow2_bits_low, Z.shiftr_spec, Z.mod_pow2_bits_low, Z.div_pow2_bits by lia. done.
    - change 256 with (2 ^ 8) at 2. by rewrite !Z.mod_pow2_bits_high by lia. }
  unfold RTW_PUT_BE32. cbn [be_bytes app].
  change 24 with (8 * 3). change 16 with (8 * 2) at 1. change (u32 v >> 8) with (u32 v >> (8 * 1)).
  replace (u32 v .& 0xff) with ((u32 v >> (8 * 0)) .& 0xff) by (by rewrite Z.shiftr_0_r).
  rewrite !H by lia. rewrite !Zdiv_Zdiv by lia. by rewrite Z.pow_0_r, Z.div_1_r.
Qed.

Lemma be_val4_uint l : length l = 4%nat → bytes l → is_u32 (be_val l).
Proof.
  intros Hl Hb. split; [by apply be_val_nonneg|]. pose proof (be_val_bound l Hb) as H.
  by rewrite Hl in H.
Qed.

Lemma RTW_GET_BE32_app l b : length l = 4%nat → bytes l → RTW_GET_BE32 (l ++ b) = be_val l.
Proof.
  intros Hl Hb. do 4 (destruct l as [|? l]; [done|]). destruct l; [|done].
  unfold bytes in Hb. rewrite !Forall_cons_iff in Hb. destruct Hb as (?&?&?&?&_).
  by apply RTW_GET_BE32_be.
Qed.

Lemma RTW_PUT_BE64_be v : RTW_PUT_BE64 (u64 v) = be_bytes 8 v.
Proof.
  assert (∀ k, 0 ≤ k ≤ 7 → u8 (u64 (u64 v) >> (8 * k)) = v / 256 ^ k mod 256) as H.
  { intros k Hk. rewrite (u64_id (u64 v)) by apply u64_uint. rewrite u8_mod, u64_mod.
    apply Z.bits_inj'. intros i Hi. destruct (Z.lt_ge_cases i 8).
    - change 256 with (2 ^ 8). rewrite <- Z.pow_mul_r by lia.
      rewrite !Z.mod_pow2_bits_low, Z.shiftr_spec, Z.mod_pow2_bits_low, Z.div_pow2_bits by lia. done.
    - change 256 with (2 ^ 8) at 2. by rewrite !Z.mod_pow2_bits_high by lia. }
  unfold RTW_PUT_BE64. cbn [be_bytes app].
  pose proof (H 7 ltac:(lia)) as H7. pose proof (H 6 ltac:(lia)) as H6.
  pose proof (H 5 ltac:(lia)) as H5. pose proof (H 4 ltac:(lia)) as H4.
  pose proof (H 3 ltac:(lia)) as H3. pose proof (H 2 ltac:(lia)) as H2.
  pose proof (H 1 ltac:(lia)) as H1. pose proof (H 0 ltac:(lia)) as H0.
  change (8 * 7) with 56 in H7. change (8 * 6) with 48 in H6. change (8 * 5) with 40 in H5.
  change (8 * 4) with 32 in H4. change (8 * 3) with 24 in H3. change (8 * 2) with 16 in H2.
  change (8 * 1) with 8 in H1. change (8 * 0) with 0 in H0.
  rewrite H7, H6, H5, H4, H3, H2, H1.
  rewrite Z.shiftr_0_r in H0.
  change (u64 (u64 v) .& 0xff) with (u8 (u64 (u64 v))). rewrite (u8_id (u8 _)) by apply u8_uint.
  rewrite H0, !Zdiv_Zdiv by lia. by rewrite Z.pow_0_r, Z.div_1_r.
Qed.
