(* ===== verification/Mem.v ===== *)
(** * Memory as a list of bytes

    Reads and writes at an offset of a buffer, [Oob] outside of it, and the
    lemmas that say which bytes a write changes. *)
From S2P Require Import Prelude CryptoWrap Blocks.

(** [n] bytes of memory at offset [o]. *)
Definition slice (o n : nat) (mem : list Z) : list Z := take n (drop o mem).
Definition mem_read (mem : list Z) (o n : nat) : cres (list Z) :=
  if (o + n <=? length mem)%nat then Ret (slice o n mem) else Oob.

(** The same with the count as the machine integer it is in the code: a count
    that has wrapped is compared as such. *)
Definition mem_readz (mem : list Z) (o : nat) (n : Z) : cres (list Z) :=
  if Z.of_nat o + n <=? Z.of_nat (length mem) then Ret (slice o (Z.to_nat n) mem) else Oob.

(** A byte of memory at a computed index. *)
Definition mem_byte (mem : list Z) (i : Z) : cres Z :=
  if i <? 0 then Oob else match mem !! Z.to_nat i with Some b => Ret b | None => Oob end.

(** ** Memory slices *)
Lemma length_slice o n mem : (o + n ≤ length mem)%nat → length (slice o n mem) = n.
Proof. intros H. unfold slice. rewrite length_take, length_drop. lia. Qed.
Lemma slice_bytes o n mem : bytes mem → bytes (slice o n mem).
Proof. intros. unfold slice. auto with machine. Qed.
Lemma slice_slice o n p q mem : (p + q ≤ n)%nat → slice p q (slice o n mem) = slice (o + p) q mem.
Proof.
  intros H. unfold slice. rewrite skipn_firstn_comm, drop_drop, take_take.
  by rewrite Nat.min_l by lia.
Qed.
Lemma slice_drop o p q mem : slice p q (drop o mem) = slice (o + p) q mem.
Proof. unfold slice. by rewrite drop_drop. Qed.
Lemma lookup_slice o n mem i : (i < n)%nat → slice o n mem !! i = mem !! (o + i)%nat.
Proof. intros H. unfold slice. by rewrite lookup_take_lt, lookup_drop. Qed.
Lemma slice_ext o n m m' :
  length m = length m' → (∀ i, (o ≤ i < o + n)%nat → m !! i = m' !! i) → slice o n m = slice o n m'.
Proof.
  intros Hl H. apply list_eq. intros i. destruct (decide (i < n)%nat).
  - rewrite !lookup_slice by done. apply H. lia.
  - rewrite !lookup_ge_None_2; [done|unfold slice; rewrite length_take; lia..].
Qed.
Lemma slice_memcpy_same p s mem : (p + length s ≤ length mem)%nat → slice p (length s) (memcpy mem p s) = s.
Proof.
  intros H. apply list_eq. intros i. destruct (decide (i < length s)%nat).
  - rewrite lookup_slice by done. unfold memcpy. rewrite list_lookup_inserts by lia. f_equal. lia.
  - rewrite !lookup_ge_None_2; [done|lia|rewrite length_slice; [lia|by rewrite length_memcpy]].
Qed.
Lemma slice_memcpy_other o n p s mem :
  (o + n ≤ p ∨ p + length s ≤ o)%nat → slice o n (memcpy mem p s) = slice o n mem.
Proof.
  intros H. apply slice_ext; [apply length_memcpy|]. intros i Hi. unfold memcpy.
  destruct H; [apply list_lookup_inserts_lt|apply list_lookup_inserts_ge]; lia.
Qed.
Lemma memcpy_memcpy mem p a b : memcpy (memcpy mem p a) (p + length a) b = memcpy mem p (a ++ b).
Proof. unfold memcpy. rewrite list_inserts_app_l. f_equal. lia. Qed.
Lemma Forall_inserts_bytes o s mem : bytes mem → bytes s → bytes (list_inserts o s mem).
Proof.
  intros Hm Hs. revert o. induction Hs as [|x s Hx Hs IH]; intros o; [done|].
  cbn. apply Forall_insert; [apply IH|done].
Qed.
Lemma mem_read_ok mem o n : (o + n ≤ length mem)%nat → mem_read mem o n = Ret (slice o n mem).
Proof. intros H. unfold mem_read. by rewrite (proj2 (Nat.leb_le _ _) H). Qed.
Lemma buf_write_memcpy mem o s : (o + length s ≤ length mem)%nat → buf_write mem o s = Ret (memcpy mem o s).
Proof. intros H. unfold buf_write. by rewrite (proj2 (Nat.leb_le _ _) H). Qed.
(** Reading and overwriting the middle part of a buffer. *)
Lemma mem_read_mid (a b c : list Z) : mem_read (a ++ b ++ c) (length a) (length b) = Ret b.
Proof.
  rewrite mem_read_ok by (rewrite !length_app; lia). unfold slice. by rewrite drop_app_length, take_app_length.
Qed.
Lemma buf_write_mid (a b b' c : list Z) :
  length b = length b' → buf_write (a ++ b ++ c) (length a) b' = Ret (a ++ b' ++ c).
Proof.
  intros H. rewrite buf_write_ok by (rewrite !length_app; lia).
  by rewrite take_app_length, drop_app_add, <- H, drop_app_length.
Qed.
Lemma mem_byte_at mem i x : mem !! i = Some x → mem_byte mem (Z.of_nat i) = Ret x.
Proof. intros H. unfold mem_byte. rewrite (proj2 (Z.ltb_ge _ _)), Nat2Z.id, H by lia. done. Qed.
Lemma mem_byte_next mem i x : mem !! S i = Some x → mem_byte mem (Z.of_nat i + 1) = Ret x.
Proof. intros H. replace (Z.of_nat i + 1) with (Z.of_nat (S i)) by lia. by apply mem_byte_at. Qed.
Lemma mem_readz_nat mem o n : mem_readz mem o (Z.of_nat n) = mem_read mem o n.
Proof.
  unfold mem_readz, mem_read. rewrite Nat2Z.id.
  destruct (Z.leb_spec (Z.of_nat o + Z.of_nat n) (Z.of_nat (length mem))), (Nat.leb_spec (o + n) (length mem)); done || lia.
Qed.
