(* ===== verification/Ccm.v ===== *)
(** * AES-CCM: [core/crypto/aes-ccm.c]

    Counter mode with CBC-MAC, with the length field L = 2 that every caller
    uses.  The output parameters [crypt] and [auth] are offsets into one
    buffer, as in every caller, so that the bytes [aes_ccm_encr] writes past
    the end of the text and the tag written over them are part of the model. *)
From S2P Require Import Prelude Aes AesCorrect CryptoWrap Blocks.

(** Four 32-bit xors, which is a byte-wise xor in either byte order. *)
Definition xor_aes_block (dst src : list Z) : list Z := xor_at 0 dst (take AES_BLOCK_SIZE src).

Section ccm.
(** [aes_encrypt(aes, ·)] for the context at hand. *)
Context (E : list Z → list Z).

(** [b] and [aad_buf] are written completely for L = 2 before they are read. *)
Definition aes_ccm_auth_start (M L : nat) (nonce aad : list Z) (plain_len : nat) : list Z :=
  let aad_len := length aad in
  let b0 := if (aad_len =? 0)%nat then 0 else 0x40 in
  let b0 := u8 (b0 .| (u64 (Z.of_nat M - 2) / 2 << 3)) in
  let b0 := u8 (b0 .| u64 (Z.of_nat L - 1)) in
  let b := <[0%nat := b0]> (memset AES_BLOCK_SIZE 0) in
  let b := memcpy b 1 (take (15 - L) nonce) in
  let b := memcpy b (AES_BLOCK_SIZE - L) (RTW_PUT_BE16 (Z.of_nat plain_len)) in
  let x := E b in
  if (aad_len =? 0)%nat then x else
  let aad_buf := memcpy (memset (2 * AES_BLOCK_SIZE) 0) 0 (RTW_PUT_BE16 (Z.of_nat aad_len)) in
  let aad_buf := memcpy aad_buf 2 aad in
  let aad_buf := memcpy aad_buf (2 + aad_len) (memset (2 * AES_BLOCK_SIZE - 2 - aad_len) 0) in
  let aad_buf := xor_aes_block aad_buf x in
  let x := E (take AES_BLOCK_SIZE aad_buf) in
  if (AES_BLOCK_SIZE - 2 <? aad_len)%nat then
    E (xor_aes_block (drop AES_BLOCK_SIZE aad_buf) x)
  else x.

(** [data] is the [len] bytes at the C pointer. *)
Definition aes_ccm_auth (data x : list Z) : list Z :=
  let len := length data in
  let last := (len mod AES_BLOCK_SIZE)%nat in
  let n := (len / AES_BLOCK_SIZE)%nat in
  let x := fold_left (λ x i, E (xor_aes_block x (drop (AES_BLOCK_SIZE * i) data))) (seq 0 n) x in
  if (last =? 0)%nat then x else E (xor_at 0 x (drop (AES_BLOCK_SIZE * n) data)).

Definition aes_ccm_encr_start (L : nat) (nonce a : list Z) : list Z :=
  memcpy (<[0%nat := u8 (Z.of_nat L - 1)]> a) 1 (take (15 - L) nonce).

(** [WPA_PUT_BE16(&a[AES_BLOCK_SIZE - 2], i)] *)
Definition ccm_counter (a : list Z) (i : nat) : list Z :=
  memcpy a (AES_BLOCK_SIZE - 2) (RTW_PUT_BE16 (Z.of_nat i)).

(** [n] iterations of the loop over whole blocks, from counter [i] on, writing
    to [buf] at [out]. *)
Fixpoint ccm_encr_loop (n i : nat) (inp buf : list Z) (out : nat) (a : list Z)
    : cres (list Z * list Z) :=
  match n with
  | O => Ret (buf, a)
  | S n =>
      let a := ccm_counter a i in
      let* buf := buf_write buf out (E a) in
      let buf := xor_at out buf (take AES_BLOCK_SIZE inp) in
      ccm_encr_loop n (S i) (drop AES_BLOCK_SIZE inp) buf (out + AES_BLOCK_SIZE) a
  end.

(** The last block is written whole, then its first [last] bytes are xored. *)
Definition aes_ccm_encr (inp buf : list Z) (out : nat) (a : list Z) : cres (list Z * list Z) :=
  let len := length inp in
  let last := (len mod AES_BLOCK_SIZE)%nat in
  let n := (len / AES_BLOCK_SIZE)%nat in
  let* (buf, a) := ccm_encr_loop n 1 inp buf out a in
  if (last =? 0)%nat then Ret (buf, a) else
  let a := ccm_counter a (S n) in
  let out := (out + AES_BLOCK_SIZE * n)%nat in
  let* buf := buf_write buf out (E a) in
  Ret (xor_at out buf (drop (AES_BLOCK_SIZE * n) inp), a).

(** [auth[i] = x[i] ^ tmp[i]] for [i < M]. *)
Definition aes_ccm_encr_auth (M : nat) (x a buf : list Z) (auth : nat) : cres (list Z) :=
  let tmp := E (ccm_counter a 0) in
  buf_write buf auth (take M (xor_bytes x tmp)).

(** The value is [t]; [a] keeps the zero counter. *)
Definition aes_ccm_decr_auth (M : nat) (a auth : list Z) : list Z * list Z :=
  let a := ccm_counter a 0 in
  (take M (xor_bytes auth (E a)), a).
End ccm.

Section alloc.
Context (kmalloc : Z → bool).

(** The result is the buffer after both outputs were written; the context is
    released before a return. *)
Definition aes_ccm_ae (key : list Z) (key_len : Z) (nonce : list Z) (M : nat)
    (plain aad buf : list Z) (crypt auth : nat) : cres (list Z) :=
  let L := 2%nat in
  if (30 <? length aad)%nat || (AES_BLOCK_SIZE <? M)%nat then Err (-1) else
  match aes_encrypt_init kmalloc key key_len with
  | None => Err (-1)
  | Some ctx =>
      let E := aes_encrypt ctx in
      let x := aes_ccm_auth_start E M L nonce aad (length plain) in
      let x := aes_ccm_auth E plain x in
      let a := aes_ccm_encr_start L nonce (memset AES_BLOCK_SIZE 0) in
      let* (buf, a) := aes_ccm_encr E plain buf crypt a in
      aes_ccm_encr_auth E M x a buf auth
  end.

Definition aes_ccm_ad (key : list Z) (key_len : Z) (nonce : list Z) (M : nat)
    (crypt aad auth plain : list Z) : cres (list Z) :=
  let L := 2%nat in
  if (30 <? length aad)%nat || (AES_BLOCK_SIZE <? M)%nat then Err (-1) else
  match aes_encrypt_init kmalloc key key_len with
  | None => Err (-1)
  | Some ctx =>
      let E := aes_encrypt ctx in
      let a := aes_ccm_encr_start L nonce (memset AES_BLOCK_SIZE 0) in
      let '(t, a) := aes_ccm_decr_auth E M a auth in
      let* (plain, a) := aes_ccm_encr E crypt plain 0 a in
      let x := aes_ccm_auth_start E M L nonce aad (length crypt) in
      let x := aes_ccm_auth E (take (length crypt) plain) x in
      if os_memcmp_const x t M =? 0 then Ret plain else Err (-1)
  end.
End alloc.

(** RFC 3610, packet vector 1; the last byte of the buffer is keystream that
    [aes_ccm_encr] leaves behind the tag. *)
Example aes_ccm_rfc3610_1 :
  aes_ccm_ae (λ _, true) (map Z.of_nat (seq 0xc0 16)) 16
    [0;0;0;3;2;1;0;0xa0;0xa1;0xa2;0xa3;0xa4;0xa5] 8
    (map Z.of_nat (seq 8 23)) (map Z.of_nat (seq 0 8)) (replicate 32 0) 0 23
  = Ret [0x58;0x8C;0x97;0x9A;0x61;0xC6;0x63;0xD2;0xF0;0x66;0xD0;0xC2;0xC0;0xF9;0x89;0x80;
         0x6D;0x5F;0x6B;0x61;0xDA;0xC3;0x84;0x17;0xE8;0xD1;0x2C;0xFD;0xF9;0x26;0xE0;143].
Proof. vm_compute. reflexivity. Qed.

(** ** CCM as RFC 3610 defines it *)
Section spec.
Context (E : list Z → list Z).
Definition cbc_step (x b : list Z) : list Z := E (xor_bytes x b).
Definition CBC_MAC (l : list Z) : list Z := fold_left cbc_step (blocks l) (replicate 16 0).

(** B_0, the encoded associated data and the message, each zero-padded. *)
Definition ccm_B0 (M : nat) (nonce : list Z) (adata : bool) (l : nat) : list Z :=
  (64 * Z.b2z adata + 8 * ((Z.of_nat M - 2) / 2) + 1) :: nonce ++ be_bytes 2 (Z.of_nat l).
Definition ccm_adata (aad : list Z) : list Z :=
  match aad with [] => [] | _ => pad16 (be_bytes 2 (Z.of_nat (length aad)) ++ aad) end.
Definition ccm_B (M : nat) (nonce aad msg : list Z) : list Z :=
  ccm_B0 M nonce (negb (length aad =? 0)%nat) (length msg) ++ ccm_adata aad ++ pad16 msg.
Definition ccm_A (nonce : list Z) (i : nat) : list Z := 1 :: nonce ++ be_bytes 2 (Z.of_nat i).

Definition ccm_crypt (nonce msg : list Z) : list Z :=
  xor_bytes msg (stream (λ i, E (ccm_A nonce (S i))) (length msg)).
Definition ccm_tag (M : nat) (nonce aad msg : list Z) : list Z :=
  take M (xor_bytes (CBC_MAC (ccm_B M nonce aad msg)) (E (ccm_A nonce 0))).
End spec.

(** ** Authentication *)
Section auth.
Context (E : list Z → list Z) `{!BlockCipher E}.

Lemma length_cbc_step x b : length (cbc_step E x b) = 16%nat.
Proof. apply (bc_length16 E). Qed.

Lemma cbc_fold bs x :
  length x = 16%nat → Forall (λ b, length b = 16%nat) bs →
  fold_left (λ x b, E (xor_at 0 x b)) bs x = fold_left (cbc_step E) bs x ∧
  length (fold_left (cbc_step E) bs x) = 16%nat.
Proof.
  intros Hx Hbs. revert x Hx. induction Hbs as [|b bs Hb Hbs IH]; intros x Hx; [done|].
  cbn [fold_left].
  assert (xor_at 0 x b = xor_bytes x b) as ->.
  { rewrite xor_at_0 by lia. by rewrite Hx, Hb, Nat.sub_diag, app_nil_r. }
  apply (IH (cbc_step E x b)), length_cbc_step.
Qed.

Lemma aes_ccm_auth_eq data x :
  length x = 16%nat → aes_ccm_auth E data x = fold_left (cbc_step E) (blocks (pad16 data)) x.
Proof.
  intros Hx. unfold aes_ccm_auth, xor_aes_block, AES_BLOCK_SIZE.
  rewrite (fold_blocks (λ x b, E (xor_at 0 x b)) data x).
  destruct (cbc_fold (blocks data) x Hx (Forall_blocks data)) as [-> Hl].
  rewrite blocks_pad16, fold_left_app. destruct (Nat.eqb_spec (length data mod 16) 0) as [|Hm]; [done|].
  cbn [fold_left]. unfold cbc_step at 2. f_equal.
  pose proof (Nat.div_mod_eq (length data) 16). pose proof (Nat.mod_upper_bound (length data) 16).
  assert (length (drop (16 * (length data / 16)) data) = (length data mod 16)%nat) as Hd
    by (rewrite length_drop; lia).
  rewrite xor_at_pad; [done|done| |lia]. intros Hn. apply Hm. by rewrite <- Hd, Hn.
Qed.

Lemma ccm_flags M (b : bool) :
  (2 ≤ M ≤ 16)%nat →
  u8 (u8 ((if b then 0 else 0x40) .| (u64 (Z.of_nat M - 2) / 2 << 3)) .| u64 (Z.of_nat 2 - 1)) =
    64 * Z.b2z (negb b) + 8 * ((Z.of_nat M - 2) / 2) + 1.
Proof.
  intros HM. do 17 (destruct M as [|M]; [try lia; by destruct b|]). lia.
Qed.

Lemma ccm_b0_buf b0 nonce n :
  length nonce = 13%nat →
  memcpy (memcpy (<[0%nat:=b0]> (memset 16 0)) 1 (take 13 nonce)) 14 (RTW_PUT_BE16 n) =
    b0 :: nonce ++ be_bytes 2 n.
Proof.
  intros Hn. rewrite RTW_PUT_BE16_be. cbn [be_bytes app].
  do 13 (destruct nonce as [|? nonce]; [done|]). by destruct nonce.
Qed.

Lemma ccm_aad_buf n aad :
  (length aad ≤ 30)%nat →
  memcpy (memcpy (memcpy (memset 32 0) 0 (RTW_PUT_BE16 n)) 2 aad) (2 + length aad)
    (memset (32 - 2 - length aad) 0) = be_bytes 2 n ++ aad ++ replicate (30 - length aad) 0.
Proof.
  intros Ha. rewrite RTW_PUT_BE16_be.
  change (memcpy (memset 32 0) 0 (be_bytes 2 n)) with (be_bytes 2 n ++ replicate 30 0).
  set (p := be_bytes 2 n). assert (length p = 2%nat) as Hp by apply length_be_bytes.
  rewrite (memcpy_eq (p ++ replicate 30 0)) by (rewrite length_app, Hp, length_replicate; lia).
  rewrite take_app_length' by done. rewrite (drop_app_ge p), Hp, drop_replicate by (rewrite Hp; lia).
  replace (2 + length aad - 2)%nat with (length aad) by lia.
  unfold memset. rewrite memcpy_eq by (rewrite !length_app, !length_replicate; lia).
  rewrite !app_assoc, <- app_assoc. rewrite take_app_length' by (rewrite length_app; lia).
  rewrite drop_ge by (rewrite !length_app, !length_replicate; lia). by rewrite app_nil_r.
Qed.

Lemma ccm_adata_blocks aad :
  aad ≠ [] → (length aad ≤ 30)%nat →
  let buf := be_bytes 2 (Z.of_nat (length aad)) ++ aad ++ replicate (30 - length aad) 0 in
  blocks (ccm_adata aad) =
    take 16 buf :: (if (14 <? length aad)%nat then [drop 16 buf] else []).
Proof.
  intros Hne Ha buf. unfold ccm_adata. destruct aad as [|y aad']; [done|].
  set (aad := y :: aad') in *. set (p := be_bytes 2 _) in *.
  assert (length p = 2%nat) as Hp by apply length_be_bytes.
  assert (length buf = 32%nat) as Hb.
  { unfold buf. rewrite !length_app, length_replicate. lia. }
  set (k := (if (14 <? length aad)%nat then 32 else 16)%nat).
  assert (pad16 (p ++ aad) = take k buf) as ->.
  { unfold pad16, buf. rewrite app_assoc, take_app, take_replicate, length_app, Hp.
    assert (1 ≤ length aad)%nat by (cbn; lia).
    assert ((2 + length aad) ≤ k)%nat by (unfold k; destruct (Nat.ltb_spec 14 (length aad)); lia).
    rewrite take_ge by (rewrite length_app; lia). do 2 f_equal. unfold k.
    destruct (Nat.ltb_spec 14 (length aad)).
    - destruct (decide (length aad = 30%nat)) as [->|]; [done|].
      replace (2 + length aad)%nat with (length aad - 14 + 1 * 16)%nat at 1 by lia.
      rewrite Nat.Div0.mod_add, (Nat.mod_small (length aad - 14)), Nat.mod_small by lia. lia.
    - destruct (decide (length aad = 14%nat)) as [->|]; [done|].
      rewrite (Nat.mod_small (2 + length aad)), Nat.mod_small by lia. lia. }
  unfold k. destruct (14 <? length aad)%nat.
  - rewrite (take_ge buf) by lia. rewrite <- (take_drop 16 buf) at 1.
    rewrite blocks_cons by (rewrite length_take; lia).
    rewrite blocks_one by (rewrite length_drop; lia). done.
  - rewrite blocks_one by (rewrite length_take; lia). done.
Qed.

Lemma aes_ccm_auth_start_eq M nonce aad n :
  length nonce = 13%nat → (length aad ≤ 30)%nat → (2 ≤ M ≤ 16)%nat →
  aes_ccm_auth_start E M 2 nonce aad n =
    fold_left (cbc_step E)
      (blocks (ccm_B0 M nonce (negb (length aad =? 0)%nat) n ++ ccm_adata aad))
      (replicate 16 0).
Proof.
  intros Hn Ha HM. unfold aes_ccm_auth_start, xor_aes_block, AES_BLOCK_SIZE.
  rewrite ccm_flags by done. cbn [Nat.sub Nat.mul Nat.add].
  rewrite ccm_b0_buf by done. fold (ccm_B0 M nonce (negb (length aad =? 0)%nat) n).
  set (B0 := ccm_B0 _ _ _ _).
  assert (length B0 = 16%nat) as HB.
  { unfold B0, ccm_B0. cbn [length]. by rewrite length_app, length_be_bytes, Hn. }
  rewrite blocks_cons by done. cbn [fold_left]. unfold cbc_step at 2.
  replace (replicate 16 0) with (replicate (length B0) 0) by (by rewrite HB).
  rewrite xor_bytes_zeros.
  destruct (Nat.eqb_spec (length aad) 0) as [H0|H0]; [by destruct aad|].
  rewrite ccm_adata_blocks; [|by destruct aad|done]. cbn [fold_left].
  change (S (S (length aad))) with (2 + length aad)%nat.
  rewrite (ccm_aad_buf _ aad Ha). set (buf := be_bytes 2 _ ++ _).
  assert (length buf = 32%nat) as Hb.
  { unfold buf. rewrite !length_app, length_be_bytes, length_replicate. lia. }
  assert (length (take 16 buf) = 16%nat) as Ht by (rewrite length_take; lia).
  assert (length (drop 16 buf) = 16%nat) as Hd by (rewrite length_drop; lia).
  rewrite (take_ge (E B0)) by (rewrite (bc_length16 E); lia).
  assert (xor_at 0 buf (E B0) = xor_bytes (take 16 buf) (E B0) ++ drop 16 buf) as ->.
  { rewrite <- (take_drop 16 buf) at 1. rewrite xor_at_app; [done|by rewrite (bc_length16 E)]. }
  assert (length (xor_bytes (take 16 buf) (E B0)) = 16%nat) as Hx
    by (rewrite length_xor_bytes; rewrite Ht, ?(bc_length16 E); done).
  rewrite take_app_length', drop_app_length' by done.
  rewrite (xor_bytes_comm (take 16 buf)). fold (cbc_step E (E B0) (take 16 buf)).
  destruct (14 <? length aad)%nat; cbn [fold_left]; [|done].
  unfold cbc_step at 2. rewrite (xor_bytes_comm _ (drop 16 buf)).
  rewrite xor_at_16; [|done|rewrite length_cbc_step; lia].
  rewrite take_ge by (rewrite length_cbc_step; lia). done.
Qed.

Lemma ccm_T M nonce aad msg :
  length nonce = 13%nat → (length aad ≤ 30)%nat → (2 ≤ M ≤ 16)%nat →
  aes_ccm_auth E msg (aes_ccm_auth_start E M 2 nonce aad (length msg)) =
    CBC_MAC E (ccm_B M nonce aad msg).
Proof.
  intros Hn Ha HM. rewrite aes_ccm_auth_start_eq, aes_ccm_auth_eq by
    (done || (apply cbc_fold; [done|apply Forall_blocks])).
  rewrite <- fold_left_app. unfold CBC_MAC, ccm_B. f_equal.
  rewrite app_assoc. set (B0 := ccm_B0 _ _ _ _).
  assert (length B0 = 16%nat) as HB.
  { unfold B0, ccm_B0. cbn [length]. by rewrite length_app, length_be_bytes, Hn. }
  rewrite <- app_assoc, !blocks_cons by done. cbn [app]. f_equal.
  destruct aad as [|y aad]; [done|]. unfold ccm_adata. by rewrite blocks_app_pad.
Qed.
End auth.

(** ** Encryption *)
Lemma ccm_counter_eq a i :
  length a = 16%nat → ccm_counter a i = take 14 a ++ be_bytes 2 (Z.of_nat i).
Proof.
  intros Ha. unfold ccm_counter, AES_BLOCK_SIZE. rewrite RTW_PUT_BE16_be.
  rewrite memcpy_eq by (rewrite length_be_bytes; cbn; lia). rewrite length_be_bytes.
  rewrite (drop_ge a) by (cbn; lia). by rewrite app_nil_r.
Qed.

Lemma ccm_counter_set a i j :
  length a = 16%nat →
  length (ccm_counter a i) = 16%nat ∧ ccm_counter (ccm_counter a i) j = ccm_counter a j.
Proof.
  intros Ha. assert (length (ccm_counter a i) = 16%nat) as Hl.
  { unfold ccm_counter. by rewrite length_memcpy. }
  split; [done|]. rewrite !ccm_counter_eq in * by done.
  by rewrite take_app_length' by (rewrite length_take; lia).
Qed.

Section encr.
Context (E : list Z → list Z) `{!BlockCipher E}.

Definition ccm_stream (a : list Z) (i n : nat) : list Z :=
  stream (λ k, E (ccm_counter a (i + k))) n.
Lemma ccm_stream_S a i n :
  ccm_stream a i (S n) = E (ccm_counter a i) ++ ccm_stream a (S i) n.
Proof.
  unfold ccm_stream. rewrite stream_S, Nat.add_0_r. f_equal.
  apply stream_ext. intros k _. do 2 f_equal. lia.
Qed.
Lemma length_ccm_stream a i n : length (ccm_stream a i n) = (16 * n)%nat.
Proof. apply length_stream. intros. apply (bc_length16 E). Qed.

(** Writing a block and xoring text into its beginning. *)
Lemma buf_xor_block (buf b t : list Z) out :
  length b = 16%nat → (length t ≤ 16)%nat → (out + 16 ≤ length buf)%nat →
  xor_at out (take out buf ++ b ++ drop (out + 16) buf) t =
    take out buf ++ xor_bytes t b ++ drop (length t) b ++ drop (out + 16) buf.
Proof.
  intros Hb Ht Hl. assert (length (take out buf) = out) as Ho by (rewrite length_take; lia).
  rewrite <- Ho at 1. rewrite xor_at_shift. f_equal.
  rewrite <- (take_drop (length t) b) at 1. rewrite <- app_assoc, xor_at_app by (rewrite length_take; lia).
  f_equal. by rewrite (xor_bytes_take_r t b), xor_bytes_comm.
Qed.

Lemma ccm_encr_loop_eq n i inp buf out a :
  length a = 16%nat → (16 * n ≤ length inp)%nat → (out + 16 * n ≤ length buf)%nat →
  ∃ a', length a' = 16%nat ∧ (∀ j, ccm_counter a' j = ccm_counter a j) ∧
  ccm_encr_loop E n i inp buf out a =
    Ret (take out buf ++ xor_bytes (take (16 * n) inp) (ccm_stream a i n)
           ++ drop (out + 16 * n) buf, a').
Proof.
  revert i inp buf out a. induction n as [|n IH]; intros i inp buf out a Ha Hi Ho.
  { exists a. split_and!; [done..|]. cbn [ccm_encr_loop]. rewrite Nat.mul_0_r, Nat.add_0_r, take_0.
    by rewrite app_nil_l, take_drop. }
  cbn [ccm_encr_loop]. unfold AES_BLOCK_SIZE in *.
  destruct (ccm_counter_set a i 0 Ha) as [Hc _].
  rewrite buf_write_ok by (rewrite (bc_length16 E); lia). cbn [cbind]. rewrite (bc_length16 E).
  assert (length (take 16 inp) = 16%nat) as Ht by (rewrite length_take; lia).
  rewrite buf_xor_block by (apply (bc_length16 E) || lia).
  rewrite Ht, (drop_ge (E _)) by (rewrite (bc_length16 E); lia).
  rewrite app_nil_l.
  assert (length (xor_bytes (take 16 inp) (E (ccm_counter a i))) = 16%nat) as Hx
    by (rewrite length_xor_bytes; rewrite Ht, ?(bc_length16 E); done).
  edestruct (IH (S i) (drop 16 inp)) as (a' & Ha' & Hj & ->);
    [exact Hc|rewrite length_drop; lia| |].
  { rewrite !length_app, Hx, length_take, length_drop. lia. }
  exists a'. split_and!; [done|intros j; rewrite Hj; by apply ccm_counter_set|].
  do 2 f_equal. set (X := xor_bytes (take 16 inp) _) in *.
  assert (length (take out buf ++ X) = (out + 16)%nat) as Hp
    by (rewrite length_app, length_take, Hx; lia).
  rewrite (app_assoc (take out buf) X), take_app_length' by done.
  rewrite drop_app_ge by (rewrite Hp; lia). rewrite Hp, drop_drop.
  replace (out + 16 + (out + 16 + 16 * n - (out + 16)))%nat with (out + 16 * S n)%nat by lia.
  rewrite <- app_assoc. f_equal. rewrite app_assoc. f_equal.
  rewrite ccm_stream_S. replace (16 * S n)%nat with (16 + 16 * n)%nat by lia.
  rewrite <- take_take_drop, xor_bytes_app by (by rewrite (bc_length16 E)). f_equal. f_equal.
  apply stream_ext. intros k _. f_equal. by apply ccm_counter_set.
Qed.

Lemma ccm_stream_app a i n m : ccm_stream a i (n + m) = ccm_stream a i n ++ ccm_stream a (i + n) m.
Proof.
  revert i. induction n as [|n IH]; intros i; [by rewrite Nat.add_0_r|].
  cbn [Nat.add]. rewrite !ccm_stream_S, IH, <- app_assoc. do 3 f_equal. lia.
Qed.

Lemma aes_ccm_encr_eq inp buf out a :
  length a = 16%nat → (out + 16 * ((length inp + 15) / 16) ≤ length buf)%nat →
  ∃ a' spill, length a' = 16%nat ∧ (∀ j, ccm_counter a' j = ccm_counter a j) ∧
  aes_ccm_encr E inp buf out a =
    Ret (take out buf ++ xor_bytes inp (ccm_stream a 1 (length inp)) ++ spill, a') ∧
  (out + length inp + length spill = length buf)%nat.
Proof.
  intros Ha Hl. unfold aes_ccm_encr, AES_BLOCK_SIZE.
  set (n := (length inp / 16)%nat). set (last := (length inp mod 16)%nat).
  assert (length inp = 16 * n + last)%nat as Hn by apply Nat.div_mod_eq.
  assert (last < 16)%nat as Hlast by (by apply Nat.mod_upper_bound).
  assert (out + 16 * n + (if decide (last = 0) then 0 else 16) ≤ length buf)%nat as Hroom.
  { pose proof (Nat.div_mod_eq (length inp + 15) 16).
    pose proof (Nat.mod_upper_bound (length inp + 15) 16). destruct (decide (last = 0%nat)); lia. }
  destruct (ccm_encr_loop_eq n 1 inp buf out a Ha ltac:(lia) ltac:(lia)) as (a1 & Ha1 & Hj & ->).
  cbn [cbind]. set (X := xor_bytes (take (16 * n) inp) _).
  assert (length X = 16 * n)%nat as HX.
  { unfold X. rewrite length_xor_bytes_le; rewrite ?length_ccm_stream, length_take; lia. }
  assert (xor_bytes inp (ccm_stream a 1 (length inp)) =
    X ++ xor_bytes (drop (16 * n) inp) (ccm_stream a (1 + n) (length inp - n))) as Hks.
  { rewrite <- (take_drop (16 * n) inp) at 1.
    replace (length inp) with (n + (length inp - n))%nat at 1 by lia.
    rewrite ccm_stream_app, xor_bytes_app; [done|]. rewrite length_take, length_ccm_stream. lia. }
  destruct (Nat.eqb_spec last 0) as [H0|H0].
  - exists a1, (drop (out + 16 * n) buf). split_and!; [done|done| |].
    + rewrite Hks, (drop_ge inp) by lia. by rewrite app_nil_r.
    + rewrite length_drop. rewrite decide_True in Hroom by done. lia.
  - rewrite decide_False in Hroom by done.
    destruct (ccm_counter_set a1 (S n) 0 Ha1) as [Hc _].
    set (buf1 := take out buf ++ X ++ drop (out + 16 * n) buf).
    assert (length buf1 = length buf) as Hb1.
    { unfold buf1. rewrite !length_app, length_take, length_drop, HX. lia. }
    rewrite buf_write_ok by (rewrite (bc_length16 E); lia). cbn [cbind]. rewrite (bc_length16 E).
    assert (length (drop (16 * n) inp) = last) as Hd by (rewrite length_drop; lia).
    rewrite buf_xor_block by (apply (bc_length16 E) || lia).
    set (rest := drop (length (drop _ _)) _ ++ _).
    exists (ccm_counter a1 (S n)), rest.
    split_and!; [done|intros j; rewrite <- Hj; by apply ccm_counter_set| |].
    + do 2 f_equal. rewrite Hks. rewrite <- (app_assoc X), (app_assoc (take out buf) X). f_equal.
      { unfold buf1. rewrite app_assoc, take_app_length'; [done|].
        rewrite length_app, length_take, HX. lia. }
      f_equal. replace (length inp - n)%nat with (S (length inp - n - 1)) by lia.
      rewrite ccm_stream_S, xor_bytes_app_short by (rewrite (bc_length16 E); lia).
      by rewrite Hj.
    + unfold rest. rewrite length_app, !length_drop, (bc_length16 E), Hb1. lia.
Qed.
End encr.

Lemma ccm_start_counter nonce i :
  length nonce = 13%nat →
  ccm_counter (aes_ccm_encr_start 2 nonce (memset 16 0)) i = ccm_A nonce i.
Proof.
  intros Hn. rewrite ccm_counter_eq.
  - unfold ccm_A. do 13 (destruct nonce as [|? nonce]; [done|]). by destruct nonce.
  - unfold aes_ccm_encr_start. by rewrite length_memcpy.
Qed.

Section ccm_core.
Context (E : list Z → list Z) `{!BlockCipher E}.

Lemma ccm_stream_start nonce msg :
  length nonce = 13%nat →
  xor_bytes msg (ccm_stream E (aes_ccm_encr_start 2 nonce (memset 16 0)) 1 (length msg)) =
    ccm_crypt E nonce msg.
Proof.
  intros Hn. unfold ccm_crypt, ccm_stream. f_equal. apply stream_ext. intros i _.
  by rewrite ccm_start_counter.
Qed.

Lemma length_ccm_crypt nonce msg : length (ccm_crypt E nonce msg) = length msg.
Proof.
  apply length_xor_bytes_le. rewrite length_stream; [lia|]. intros. apply (bc_length16 E).
Qed.
Lemma ccm_crypt_twice nonce msg : ccm_crypt E nonce (ccm_crypt E nonce msg) = msg.
Proof.
  unfold ccm_crypt at 1. rewrite length_ccm_crypt. apply xor_bytes_twice.
  rewrite length_stream; [lia|]. intros. apply (bc_length16 E).
Qed.

Lemma CBC_MAC_block b l :
  length b = 16%nat → length (CBC_MAC E (b ++ l)) = 16%nat ∧ bytes (CBC_MAC E (b ++ l)).
Proof.
  intros Hb. unfold CBC_MAC. rewrite blocks_cons by done. cbn [fold_left].
  generalize (replicate 16 0). intros z.
  assert (∀ x, length (cbc_step E x b) = 16%nat ∧ bytes (cbc_step E x b)) as Hs
    by (intros; split; [apply (bc_length16 E)|apply (bc_bytes (E := E))]).
  generalize (blocks l). intros bs. induction bs as [|c bs IH] using rev_ind; [apply Hs|].
  rewrite fold_left_app. split; [apply (bc_length16 E)|apply (bc_bytes (E := E))].
Qed.
Lemma ccm_mac_block M nonce aad msg :
  length nonce = 13%nat →
  let T := CBC_MAC E (ccm_B M nonce aad msg) in length T = 16%nat ∧ bytes T.
Proof.
  intros Hn. apply CBC_MAC_block. unfold ccm_B0. cbn [length].
  by rewrite length_app, length_be_bytes, Hn.
Qed.
Lemma length_ccm_tag M nonce aad msg :
  length nonce = 13%nat → (M ≤ 16)%nat → length (ccm_tag E M nonce aad msg) = M.
Proof.
  intros Hn HM. unfold ccm_tag. destruct (ccm_mac_block M nonce aad msg Hn) as [Hl _].
  rewrite length_take, length_xor_bytes; rewrite Hl, ?(bc_length16 E); lia.
Qed.
End ccm_core.

(** ** The two entry points *)
Section entry.
Context (kmalloc : Z → bool) (key : list Z) (key_len : Z) (ctx : aes_ctx).
Context (Hctx : aes_encrypt_init kmalloc key key_len = Some ctx).
Context (nonce aad : list Z) (M : nat).
Context (Hn : length nonce = 13%nat) (Ha : (length aad ≤ 30)%nat) (HM : (2 ≤ M ≤ 16)%nat).
Let E := aes_encrypt ctx.

Lemma length_encr_start : length (aes_ccm_encr_start 2 nonce (memset 16 0)) = 16%nat.
Proof. unfold aes_ccm_encr_start. by rewrite length_memcpy. Qed.
Lemma ccm_guard : ((30 <? length aad) || (16 <? M))%nat = false.
Proof using Hn Ha HM. apply orb_false_iff. split; apply Nat.ltb_ge; lia. Qed.

Lemma aes_ccm_ae_eq plain buf crypt :
  (crypt + 16 * ((length plain + 15) / 16) ≤ length buf)%nat →
  (crypt + length plain + M ≤ length buf)%nat →
  ∃ rest,
  aes_ccm_ae kmalloc key key_len nonce M plain aad buf crypt (crypt + length plain) =
    Ret (take crypt buf ++ ccm_crypt E nonce plain ++ ccm_tag E M nonce aad plain ++ rest) ∧
  (crypt + length plain + M + length rest = length buf)%nat.
Proof using Hctx Hn Ha HM.
  intros Hroom Hroom'. unfold aes_ccm_ae, AES_BLOCK_SIZE. rewrite ccm_guard, Hctx. fold E.
  destruct (aes_ccm_encr_eq E plain buf crypt _ length_encr_start Hroom)
    as (a' & spill & Ha' & Hj & -> & Hlen). cbn [cbind]. unfold aes_ccm_encr_auth.
  rewrite Hj, ccm_start_counter, ccm_T, ccm_stream_start by (done || apply _).
  fold (ccm_tag E M nonce aad plain).
  pose proof (length_ccm_tag E M nonce aad plain Hn ltac:(lia)) as HlT.
  pose proof (length_ccm_crypt E nonce plain) as HlC.
  assert (length (take crypt buf) = crypt) as Hlt by (rewrite length_take; lia).
  rewrite buf_write_ok by (rewrite !length_app, HlT, HlC, Hlt; lia).
  rewrite HlT, (app_assoc (take crypt buf)).
  rewrite take_app_length' by (rewrite length_app; lia).
  rewrite drop_app_ge by (rewrite length_app; lia).
  rewrite length_app, Hlt, HlC, <- app_assoc. eexists. split; [done|].
  rewrite length_drop. lia.
Qed.

(** The tag test of the receiver. *)
Definition ccm_accepts (crypt auth : list Z) : bool :=
  bool_decide (auth = ccm_tag E M nonce aad (ccm_crypt E nonce crypt)).

Lemma ccm_tag_test auth msg :
  length auth = M → bytes auth →
  (os_memcmp_const (CBC_MAC E (ccm_B M nonce aad msg))
     (take M (xor_bytes auth (E (ccm_A nonce 0)))) M =? 0) =
  bool_decide (auth = ccm_tag E M nonce aad msg).
Proof using Hn Ha HM.
  intros Hl Hb. destruct (ccm_mac_block E M nonce aad msg Hn) as [HT HTb].
  pose proof (bc_length16 E (ccm_A nonce 0)) as HS.
  pose proof (bc_bytes (E := E) (ccm_A nonce 0)) as HSb.
  unfold ccm_tag. set (T := CBC_MAC _ _) in *. set (S0 := E (ccm_A nonce 0)) in *.
  assert (length (take M S0) = M) as HSl by (rewrite length_take; lia).
  assert (xor_bytes auth S0 = xor_bytes auth (take M S0)) as Hx by (rewrite <- Hl; apply xor_bytes_take_r).
  assert (take M (xor_bytes T S0) = xor_bytes (take M T) (take M S0)) as Hy.
  { unfold xor_bytes. by rewrite zip_with_take. }
  assert (length (xor_bytes auth (take M S0)) = M) as Hxl by (rewrite length_xor_bytes; lia).
  rewrite Hx, Hy, (take_ge (xor_bytes _ _)) by lia.
  assert (length (take M T) = M) as HTl by (rewrite length_take; lia).
  apply eq_bool_prop_intro. rewrite bool_decide_spec. rewrite Is_true_true, Z.eqb_eq.
  rewrite os_memcmp_const_0 by (auto with machine || lia). rewrite (take_ge (xor_bytes _ _)) by lia.
  split; [intros ->|intros ->]; by rewrite xor_bytes_twice by lia.
Qed.

Lemma aes_ccm_ad_eq crypt auth plain :
  length auth = M → bytes auth →
  (16 * ((length crypt + 15) / 16) ≤ length plain)%nat →
  ∃ rest,
  aes_ccm_ad kmalloc key key_len nonce M crypt aad auth plain =
    (if ccm_accepts crypt auth then Ret (ccm_crypt E nonce crypt ++ rest) else Err (-1)) ∧
  (length crypt + length rest = length plain)%nat.
Proof using Hctx Hn Ha HM.
  intros Hl Hb Hroom. unfold aes_ccm_ad, aes_ccm_decr_auth, AES_BLOCK_SIZE.
  rewrite ccm_guard, Hctx. fold E.
  destruct (ccm_counter_set _ 0 0 length_encr_start) as [Hc0 _].
  destruct (aes_ccm_encr_eq E crypt plain 0 _ Hc0 Hroom)
    as (a' & spill & Ha' & Hj & -> & Hlen). cbn [cbind]. rewrite take_0, app_nil_l.
  assert (∀ n, ccm_stream E (ccm_counter (aes_ccm_encr_start 2 nonce (memset 16 0)) 0) 1 n =
    ccm_stream E (aes_ccm_encr_start 2 nonce (memset 16 0)) 1 n) as Hs.
  { intros n. apply stream_ext. intros i _. f_equal. apply ccm_counter_set, length_encr_start. }
  rewrite Hs, ccm_stream_start, ccm_start_counter by done.
  rewrite take_app_length' by (symmetry; apply (length_ccm_crypt E)).
  pose proof (ccm_T E M nonce aad (ccm_crypt E nonce crypt) Hn Ha HM) as HT.
  rewrite (length_ccm_crypt E) in HT. rewrite HT, ccm_tag_test by done.
  exists spill. split; [done|lia].
Qed.
End entry.

Section properties.
Context (kmalloc : Z → bool).

(** C36: [aes_ccm_ae] computes CCM as RFC 3610 defines it with L = 2: into a
    buffer with room for the text rounded up to whole blocks and for the tag,
    it writes the text xored with the keystream of the blocks A_1, A_2, ...
    and, right after it, the first [M] bytes of the CBC-MAC of the formatted
    blocks xored with E(A_0); nothing before the output changes and nothing
    outside the buffer is touched. *)
Theorem aes_ccm_ae_refines_rfc3610 key key_len ctx nonce aad M plain buf crypt :
  aes_encrypt_init kmalloc key key_len = Some ctx →
  length nonce = 13%nat → (length aad ≤ 30)%nat → (2 ≤ M ≤ 16)%nat →
  (crypt + 16 * ((length plain + 15) / 16) ≤ length buf)%nat →
  (crypt + length plain + M ≤ length buf)%nat →
  ∃ rest,
  aes_ccm_ae kmalloc key key_len nonce M plain aad buf crypt (crypt + length plain) =
    Ret (take crypt buf ++ ccm_crypt (aes_encrypt ctx) nonce plain
           ++ ccm_tag (aes_encrypt ctx) M nonce aad plain ++ rest) ∧
  (crypt + length plain + M + length rest = length buf)%nat.
Proof. intros. by apply aes_ccm_ae_eq. Qed.

(** [aes_ccm_ad] is exact: with room for the text rounded up to whole
    blocks it returns -1 unless the received tag is the RFC 3610 tag of the
    text it decrypts, and then the output buffer starts with that text. *)
Theorem aes_ccm_ad_exact key key_len ctx nonce aad M crypt auth plain :
  aes_encrypt_init kmalloc key key_len = Some ctx →
  length nonce = 13%nat → (length aad ≤ 30)%nat → (2 ≤ M ≤ 16)%nat →
  length auth = M → bytes auth →
  (16 * ((length crypt + 15) / 16) ≤ length plain)%nat →
  let E := aes_encrypt ctx in
  let msg := ccm_crypt E nonce crypt in
  ccm_crypt E nonce msg = crypt ∧
  ((auth = ccm_tag E M nonce aad msg ∧
    ∃ rest, aes_ccm_ad kmalloc key key_len nonce M crypt aad auth plain = Ret (msg ++ rest)) ∨
   (auth ≠ ccm_tag E M nonce aad msg ∧
    aes_ccm_ad kmalloc key key_len nonce M crypt aad auth plain = Err (-1))).
Proof.
  intros Hctx Hn Ha HM Hl Hb Hroom E msg. split; [apply (ccm_crypt_twice E)|].
  destruct (aes_ccm_ad_eq kmalloc key key_len ctx Hctx nonce aad M Hn Ha HM crypt auth plain Hl Hb Hroom)
    as (rest & -> & _).
  unfold ccm_accepts. fold E msg. destruct (bool_decide_reflect (auth = ccm_tag E M nonce aad msg)).
  - left. split; [done|]. by eexists.
  - by right.
Qed.

(** A partial last block is written whole: on a buffer that holds exactly
    the text and the tag, [aes_ccm_ae] writes past its end whenever the tag
    is shorter than the padding of the last block.  The callers therefore
    allocate one block more. *)
Theorem aes_ccm_ae_needs_slack key key_len ctx nonce aad M plain :
  aes_encrypt_init kmalloc key key_len = Some ctx →
  (length aad ≤ 30)%nat → (M ≤ 16)%nat →
  (0 < length plain < 16)%nat → (length plain + M < 16)%nat →
  aes_ccm_ae kmalloc key key_len nonce M plain aad (replicate (length plain + M) 0) 0 (length plain)
    = Oob.
Proof.
  intros Hctx Ha HM Hp Hs. unfold aes_ccm_ae, aes_ccm_encr, AES_BLOCK_SIZE.
  rewrite (proj2 (orb_false_iff _ _)) by (split; apply Nat.ltb_ge; lia). rewrite Hctx.
  rewrite Nat.div_small, Nat.mod_small by lia. cbn [ccm_encr_loop cbind].
  destruct (Nat.eqb_spec (length plain) 0); [lia|]. cbn [cbind]. unfold buf_write.
  rewrite (bc_length16 (aes_encrypt ctx)), length_replicate.
  rewrite (proj2 (Nat.leb_gt _ _)) by lia. done.
Qed.
End properties.

Lemma aes_ccm_ae_witness :
  ∃ ctx rest, aes_encrypt_init (λ _, true) (replicate 16 1) 16 = Some ctx ∧
    aes_ccm_ae (λ _, true) (replicate 16 1) 16 (replicate 13 2) 8 [3; 4] [5] (replicate 20 0) 0 2 =
      Ret (ccm_crypt (aes_encrypt ctx) (replicate 13 2) [3; 4] ++
           ccm_tag (aes_encrypt ctx) 8 (replicate 13 2) [5] [3; 4] ++ rest).
Proof.
  destruct (aes_encrypt_init (λ _, true) (replicate 16 1) 16) as [ctx|] eqn:E1;
    [|rewrite aes_encrypt_init_eq in E1; discriminate].
  destruct (aes_ccm_ae_refines_rfc3610 (λ _, true) (replicate 16 1) 16 ctx (replicate 13 2) [5] 8
    [3; 4] (replicate 20 0) 0 E1) as (rest & H & _); [done|cbn; lia|lia|cbn; lia|cbn; lia|].
  exists ctx, rest. split; [done|exact H].
Defined.

Lemma aes_ccm_ad_witness :
  ∃ ctx msg, aes_encrypt_init (λ _, true) (replicate 16 1) 16 = Some ctx ∧
    msg = ccm_crypt (aes_encrypt ctx) (replicate 13 2) [9; 9] ∧
    (aes_ccm_ad (λ _, true) (replicate 16 1) 16 (replicate 13 2) 8 [9; 9] [5] (replicate 8 0)
       (replicate 16 0) = Err (-1) ∨
     replicate 8 0 = ccm_tag (aes_encrypt ctx) 8 (replicate 13 2) [5] msg).
Proof.
  destruct (aes_encrypt_init (λ _, true) (replicate 16 1) 16) as [ctx|] eqn:E1;
    [|rewrite aes_encrypt_init_eq in E1; discriminate].
  exists ctx; eexists; split; [done|]; split; [done|].
  destruct (aes_ccm_ad_exact (λ _, true) (replicate 16 1) 16 ctx (replicate 13 2) [5] 8
    [9; 9] (replicate 8 0) (replicate 16 0) E1) as [_ [[H _]|[_ H]]];
    [done|cbn; lia|lia|done|bytes_lit|cbn; lia|by right|by left].
Defined.

Lemma aes_ccm_ae_needs_slack_witness :
  aes_ccm_ae (λ _, true) (replicate 16 1) 16 (replicate 13 2) 8 [3; 4] [5] (replicate 10 0) 0 2 = Oob.
Proof.
  eapply (aes_ccm_ae_needs_slack (λ _, true) (replicate 16 1) 16 _ (replicate 13 2) [5] 8 [3; 4]);
    [rewrite aes_encrypt_init_eq; reflexivity|cbn; lia..].
Defined.
