(* ===== verification/Gcm.v ===== *)
(** * AES-GCM and GMAC: [core/crypto/aes-gcm.c] *)
From S2P Require Import Prelude Aes AesCorrect CryptoWrap Blocks.

Definition inc32 (block : list Z) : list Z :=
  let val := RTW_GET_BE32 (drop (AES_BLOCK_SIZE - 4) block) in
  let val := u32 (val + 1) in
  memcpy block (AES_BLOCK_SIZE - 4) (RTW_PUT_BE32 val).

(** Four 32-bit xors, which is a byte-wise xor in either byte order. *)
Definition xor_block (dst src : list Z) : list Z := xor_at 0 dst (take AES_BLOCK_SIZE src).

Definition shift_right_block (v : list Z) : list Z :=
  let val := RTW_GET_BE32 (drop 12 v) >> 1 in
  let val := if v.[11] .& 1 =? 0 then val else val .| 0x80000000 in
  let v := memcpy v 12 (RTW_PUT_BE32 val) in
  let val := RTW_GET_BE32 (drop 8 v) >> 1 in
  let val := if v.[7] .& 1 =? 0 then val else val .| 0x80000000 in
  let v := memcpy v 8 (RTW_PUT_BE32 val) in
  let val := RTW_GET_BE32 (drop 4 v) >> 1 in
  let val := if v.[3] .& 1 =? 0 then val else val .| 0x80000000 in
  let v := memcpy v 4 (RTW_PUT_BE32 val) in
  let val := RTW_GET_BE32 v >> 1 in
  memcpy v 0 (RTW_PUT_BE32 val).

(** The body of the two nested loops of [gf_mult]. *)
Definition gf_mult_step (x : list Z) (i : nat) (zv : list Z * list Z) (j : nat) : list Z * list Z :=
  let '(z, v) := zv in
  let z := if x.[i] .& (1 << (7 - Z.of_nat j)) =? 0 then z else xor_block z v in
  let v := if v.[15] .& 1 =? 0 then shift_right_block v
           else let v := shift_right_block v in <[0%nat := v.[0] ⊕ 0xe1]> v in
  (z, v).
Definition gf_mult (x y : list Z) : list Z :=
  let z := memset 16 0 in
  let v := take 16 y in
  (fold_left (λ zv i, fold_left (gf_mult_step x i) (seq 0 8) zv) (seq 0 16) (z, v)).1.

Definition ghash_start : list Z := memset 16 0.

(** [y] after the call; [x] is the [xlen] bytes at the C pointer. *)
Definition ghash (h x y : list Z) : list Z :=
  let m := (length x / 16)%nat in
  let y := fold_left (λ y i, gf_mult (xor_block y (drop (16 * i) x)) h) (seq 0 m) y in
  let xpos := (16 * m)%nat in
  if (xpos <? length x)%nat then
    let last := (length x - xpos)%nat in
    let tmp := memcpy (memset 16 0) 0 (drop xpos x) in
    let tmp := memcpy tmp last (memset (16 - last) 0) in
    gf_mult (xor_block y tmp) h
  else y.

Section gctr.
Context (E : list Z → list Z).

(** [n] whole blocks: the bytes written to [y] and the counter block. *)
Fixpoint gctr_loop (n : nat) (cb x : list Z) : list Z * list Z :=
  match n with
  | O => ([], cb)
  | S n =>
      let o := xor_block (E cb) x in
      let '(os, cb) := gctr_loop n (inc32 cb) (drop AES_BLOCK_SIZE x) in (o ++ os, cb)
  end.

(** The bytes written to [y], as many as [x] has. *)
Definition aes_gctr (icb x : list Z) : list Z :=
  if (length x =? 0)%nat then [] else
  let n := (length x / 16)%nat in
  let '(y, cb) := gctr_loop n (take AES_BLOCK_SIZE icb) x in
  let last := (length x - 16 * n)%nat in
  if (last =? 0)%nat then y
  else y ++ xor_bytes (drop (16 * n) x) (take last (E cb)).

Definition aes_gcm_gctr (J0 inp : list Z) : list Z :=
  if (length inp =? 0)%nat then [] else
  let J0inc := inc32 (take AES_BLOCK_SIZE J0) in
  aes_gctr J0inc inp.
End gctr.

Definition aes_gcm_prepare_j0 (iv H : list Z) : list Z :=
  if (length iv =? 12)%nat then
    <[15%nat := 1]> (iv ++ memset (AES_BLOCK_SIZE - length iv) 0)
  else
    let J0 := ghash H iv ghash_start in
    let len_buf := RTW_PUT_BE64 0 ++ RTW_PUT_BE64 (u64 (Z.of_nat (length iv) * 8)) in
    ghash H len_buf J0.

Definition aes_gcm_ghash (H aad crypt : list Z) : list Z :=
  let S := ghash_start in
  let S := ghash H aad S in
  let S := ghash H crypt S in
  let len_buf := RTW_PUT_BE64 (u64 (Z.of_nat (length aad) * 8)) ++
                 RTW_PUT_BE64 (u64 (Z.of_nat (length crypt) * 8)) in
  ghash H len_buf S.

Section alloc.
Context (kmalloc : Z → bool).

Definition aes_gcm_init_hash_subkey (key : list Z) (key_len : Z) : option (aes_ctx * list Z) :=
  match aes_encrypt_init kmalloc key key_len with
  | None => None
  | Some aes => Some (aes, aes_encrypt aes (memset AES_BLOCK_SIZE 0))
  end.

(** [Err (-1)], or the contents of [crypt] and of [tag]. *)
Definition aes_gcm_ae (key : list Z) (key_len : Z) (iv plain aad : list Z)
    : cres (list Z * list Z) :=
  match aes_gcm_init_hash_subkey key key_len with
  | None => Err (-1)
  | Some (aes, H) =>
      let E := aes_encrypt aes in
      let J0 := aes_gcm_prepare_j0 iv H in
      let crypt := aes_gcm_gctr E J0 plain in
      let S := aes_gcm_ghash H aad crypt in
      let tag := aes_gctr E J0 S in
      Ret (crypt, tag)
  end.

Definition aes_gcm_ad (key : list Z) (key_len : Z) (iv crypt aad tag : list Z) : cres (list Z) :=
  match aes_gcm_init_hash_subkey key key_len with
  | None => Err (-1)
  | Some (aes, H) =>
      let E := aes_encrypt aes in
      let J0 := aes_gcm_prepare_j0 iv H in
      let plain := aes_gcm_gctr E J0 crypt in
      let S := aes_gcm_ghash H aad crypt in
      let T := aes_gctr E J0 S in
      if os_memcmp_const tag T 16 =? 0 then Ret plain else Err (-1)
  end.

Definition aes_gmac (key : list Z) (key_len : Z) (iv aad : list Z) : cres (list Z) :=
  let* (_, tag) := aes_gcm_ae key key_len iv [] aad in Ret tag.
End alloc.

(** GCM specification, test case 4 (60-byte text, 20-byte AAD). *)
Example aes_gcm_case4 :
  aes_gcm_ae (λ _, true)
    [0xfe;0xff;0xe9;0x92;0x86;0x65;0x73;0x1c;0x6d;0x6a;0x8f;0x94;0x67;0x30;0x83;0x08] 16
    [0xca;0xfe;0xba;0xbe;0xfa;0xce;0xdb;0xad;0xde;0xca;0xf8;0x88]
    [0xd9;0x31;0x32;0x25;0xf8;0x84;0x06;0xe5;0xa5;0x59;0x09;0xc5;0xaf;0xf5;0x26;0x9a;
     0x86;0xa7;0xa9;0x53;0x15;0x34;0xf7;0xda;0x2e;0x4c;0x30;0x3d;0x8a;0x31;0x8a;0x72;
     0x1c;0x3c;0x0c;0x95;0x95;0x68;0x09;0x53;0x2f;0xcf;0x0e;0x24;0x49;0xa6;0xb5;0x25;
     0xb1;0x6a;0xed;0xf5;0xaa;0x0d;0xe6;0x57;0xba;0x63;0x7b;0x39]
    [0xfe;0xed;0xfa;0xce;0xde;0xad;0xbe;0xef;0xfe;0xed;0xfa;0xce;0xde;0xad;0xbe;0xef;
     0xab;0xad;0xda;0xd2]
  = Ret ([0x42;0x83;0x1e;0xc2;0x21;0x77;0x74;0x24;0x4b;0x72;0x21;0xb7;0x84;0xd0;0xd4;0x9c;
          0xe3;0xaa;0x21;0x2f;0x2c;0x02;0xa4;0xe0;0x35;0xc1;0x7e;0x23;0x29;0xac;0xa1;0x2e;
          0x21;0xd5;0x14;0xb2;0x54;0x66;0x93;0x1c;0x7d;0x8f;0x6a;0x5a;0xac;0x84;0xaa;0x05;
          0x1b;0xa3;0x0b;0x39;0x6a;0x0a;0xac;0x97;0x3d;0x58;0xe0;0x91],
         [0x5b;0xc9;0x4f;0xbc;0x32;0x21;0xa5;0xdb;0x94;0xfa;0xe9;0x5a;0xe7;0x12;0x1a;0x47]).
Proof. vm_compute. reflexivity. Qed.

(** ** The product of SP 800-38D, on 128-bit numbers *)

(** [V_(i+1)] from [V_i], with R = 11100001 || 0^120. *)
Definition gcm_shift (V : Z) : Z := (V >> 1) ⊕ (if Z.testbit V 0 then 0xe1 << 120 else 0).
Fixpoint gcm_pow (k : nat) (V : Z) : Z :=
  match k with O => V | S k => gcm_shift (gcm_pow k V) end.
Fixpoint gsum (n : nat) (f : nat → Z) : Z :=
  match n with O => 0 | S n => gsum n f ⊕ f n end.
(** X • Y: bit [k] from the left of X selects [V_k]. *)
Definition gcm_mul (X Y : Z) : Z :=
  gsum 128 (λ k, if Z.testbit X (127 - Z.of_nat k) then gcm_pow k Y else 0).

Lemma be_val_lxor a b :
  length a = length b → bytes a → bytes b → be_val (xor_bytes a b) = be_val a ⊕ be_val b.
Proof.
  revert b. induction a as [|x a IH] using rev_ind; intros b Hl Ha Hb.
  { by destruct b. }
  destruct b as [|y b _] using rev_ind; [rewrite length_app in Hl; cbn in Hl; lia|].
  rewrite !length_app in Hl. cbn [length] in Hl.
  apply Forall_app in Ha as [Ha Hx]. apply Forall_app in Hb as [Hb Hy].
  inversion Hx; inversion Hy; subst.
  rewrite xor_bytes_app by lia. change (xor_bytes [x] [y]) with [x ⊕ y].
  rewrite !be_val_snoc, IH by (done || lia). apply Z.bits_inj'. intros k Hk.
  rewrite Z.lxor_spec, !shl8_bits by auto with machine. rewrite !Z.lxor_spec.
  by destruct (k <? 8).
Qed.

Lemma be_val_testbit x i k :
  bytes x → (i < length x)%nat → 0 ≤ k < 8 →
  Z.testbit (be_val x) (8 * (Z.of_nat (length x) - 1 - Z.of_nat i) + k) = Z.testbit (x.[i]) k.
Proof.
  induction x as [|b x IH] using rev_ind; intros Hx Hi Hk; [cbn in Hi; lia|].
  apply Forall_app in Hx as [Hx Hb]. inversion Hb; subst.
  rewrite length_app in *. cbn [length] in *. rewrite be_val_snoc, shl8_bits by (done || lia).
  destruct (decide (i = length x)) as [->|Hne].
  - replace (Z.of_nat (length x + 1) - 1 - Z.of_nat (length x)) with 0 by lia.
    rewrite Z.mul_0_r, Z.add_0_l, (proj2 (Z.ltb_lt k 8)) by lia.
    rewrite <- (Nat.add_0_r (length x)), aget_app_r by done. done.
  - rewrite (proj2 (Z.ltb_ge _ _)) by lia. rewrite aget_app_l by lia.
    rewrite <- IH by (done || lia). f_equal. lia.
Qed.

Lemma word_half w (c : bool) :
  is_u32 w → (if c then (w >> 1) .| 0x80000000 else w >> 1) = w / 2 + 2 ^ 31 * Z.b2z c.
Proof.
  intros [H0 H1]. rewrite Z.shiftr_div_pow2 by lia. change (2 ^ 1) with 2. destruct c; cbn [Z.b2z]; [|lia].
  assert (0 ≤ w / 2 < 2 ^ 31) as Hw.
  { split; [apply Z.div_pos; lia|]. apply Z.div_lt_upper_bound; lia. }
  assert (Z.land (w / 2) 0x80000000 = 0) as Hz.
  { apply Z.bits_inj_0. intros i. rewrite Z.land_spec. change 0x80000000 with (2 ^ 31).
    destruct (Z.lt_ge_cases i 31).
    - by rewrite Z.pow2_bits_false, andb_false_r by lia.
    - by rewrite (uint_testbit 31 (w / 2)) by (done || lia). }
  rewrite <- Z.lxor_lor, <- Z.add_nocarry_lxor by done. lia.
Qed.

Lemma b2z_odd b : Z.b2z (negb (b .& 1 =? 0)) = b mod 2.
Proof.
  change 1 with (Z.ones 1). rewrite Z.land_ones by lia. change (2 ^ 1) with 2.
  pose proof (Z.mod_pos_bound b 2 ltac:(lia)).
  assert (b mod 2 = 0 ∨ b mod 2 = 1) as [-> | ->] by lia; done.
Qed.

Lemma be_val_mod2 l x : be_val (l ++ [x]) mod 2 = x mod 2.
Proof.
  rewrite be_val_snoc. replace (be_val l * 256 + x) with (x + (be_val l * 128) * 2) by lia.
  by rewrite Z.mod_add by lia.
Qed.

(** One 32-bit word of the shift, with the low bit of the word before it. *)
Definition shift_word (c : Z) (w : list Z) : list Z := be_bytes 4 (be_val w / 2 + 2 ^ 31 * c).

Lemma aget_last p b : length p = 4%nat → bytes p → Z.b2z (negb ((p ++ b).[3] .& 1 =? 0)) = be_val p mod 2.
Proof.
  intros Hp Hb. do 4 (destruct p as [|? p]; [done|]). destruct p; [|done].
  rewrite b2z_odd. change [z; z0; z1; z2] with ([z; z0; z1] ++ [z2]). by rewrite be_val_mod2.
Qed.

Lemma memcpy_word o a w b x :
  length w = 4%nat → o = length a → memcpy (a ++ w ++ b) o (be_bytes 4 x) = a ++ be_bytes 4 x ++ b.
Proof.
  intros Hw ->. rewrite memcpy_eq by (rewrite !length_app, length_be_bytes; lia).
  rewrite take_app_length, length_be_bytes, drop_app_add. do 2 f_equal.
  by rewrite <- Hw, drop_app_length.
Qed.

Lemma shift_word_step o a p w b :
  length p = 4%nat → length w = 4%nat → bytes p → bytes w → o = length (a ++ p) →
  let v := (a ++ p) ++ w ++ b in
  memcpy v o (RTW_PUT_BE32
    (if v.[o - 1] .& 1 =? 0 then RTW_GET_BE32 (drop o v) >> 1
     else (RTW_GET_BE32 (drop o v) >> 1) .| 0x80000000)) =
  (a ++ p) ++ shift_word (be_val p mod 2) w ++ b.
Proof.
  intros Hp Hw Bp Bw -> v. unfold v. rewrite drop_app_length, RTW_GET_BE32_app by done.
  rewrite RTW_PUT_BE32_be, memcpy_word by done. unfold shift_word. do 4 f_equal.
  replace (length (a ++ p) - 1)%nat with (length a + 3)%nat by (rewrite length_app; lia).
  rewrite <- app_assoc, aget_app_r by done.
  rewrite <- (aget_last p (w ++ b) Hp Bp). rewrite <- word_half by (by apply be_val4_uint).
  by destruct (_ =? 0).
Qed.

Lemma shift_right_block_words p0 p1 p2 p3 :
  length p0 = 4%nat → length p1 = 4%nat → length p2 = 4%nat → length p3 = 4%nat →
  bytes p0 → bytes p1 → bytes p2 → bytes p3 →
  shift_right_block (p0 ++ p1 ++ p2 ++ p3) =
    shift_word 0 p0 ++ shift_word (be_val p0 mod 2) p1 ++ shift_word (be_val p1 mod 2) p2
      ++ shift_word (be_val p2 mod 2) p3.
Proof.
  intros L0 L1 L2 L3 B0 B1 B2 B3. unfold shift_right_block.
  pose proof (shift_word_step 12 (p0 ++ p1) p2 p3 [] L2 L3 B2 B3
    ltac:(rewrite !length_app; lia)) as H. cbn zeta in H. cbn [Nat.sub] in H.
  rewrite !app_nil_r, <- !app_assoc in H. rewrite H; clear H.
  pose proof (shift_word_step 8 p0 p1 p2 (shift_word (be_val p2 mod 2) p3) L1 L2 B1 B2
    ltac:(rewrite !length_app; lia)) as H. cbn zeta in H. cbn [Nat.sub] in H.
  rewrite <- !app_assoc in H. rewrite H; clear H.
  pose proof (shift_word_step 4 [] p0 p1 (shift_word (be_val p1 mod 2) p2 ++ shift_word (be_val p2 mod 2) p3)
    L0 L1 B0 B1 ltac:(rewrite !length_app; cbn; lia)) as H. cbn zeta in H. cbn [Nat.sub app] in H.
  rewrite H; clear H.
  rewrite RTW_GET_BE32_app, RTW_PUT_BE32_be by done.
  etrans; [apply (memcpy_word 0 [] p0 _ _ L0 eq_refl)|]. cbn [app]. f_equal. unfold shift_word. f_equal.
  rewrite Z.shiftr_div_pow2, Z.mul_0_r, Z.add_0_r by lia. done.
Qed.

Lemma be_val_words p0 p1 p2 p3 :
  length p1 = 4%nat → length p2 = 4%nat → length p3 = 4%nat →
  be_val (p0 ++ p1 ++ p2 ++ p3) =
    ((be_val p0 * 2 ^ 32 + be_val p1) * 2 ^ 32 + be_val p2) * 2 ^ 32 + be_val p3.
Proof.
  intros L1 L2 L3. rewrite !be_val_app, !length_app, L1, L2, L3.
  change (256 ^ Z.of_nat (4 + (4 + 4))) with (2 ^ 32 * 2 ^ 32 * 2 ^ 32).
  change (256 ^ Z.of_nat (4 + 4)) with (2 ^ 32 * 2 ^ 32).
  change (256 ^ Z.of_nat 4) with (2 ^ 32). ring.
Qed.

Lemma be_val_shift_word c w :
  is_u32 (be_val w) → (0 ≤ c ≤ 1) → be_val (shift_word c w) = be_val w / 2 + 2 ^ 31 * c.
Proof.
  intros [H0 H1] Hc. apply be_val_bytes. change (256 ^ Z.of_nat 4) with (2 ^ 32).
  pose proof (Z.div_mod (be_val w) 2 ltac:(lia)).
  pose proof (Z.mod_pos_bound (be_val w) 2 ltac:(lia)). lia.
Qed.

Lemma shift_right_block_val v :
  length v = 16%nat → bytes v →
  length (shift_right_block v) = 16%nat ∧ bytes (shift_right_block v) ∧
  be_val (shift_right_block v) = be_val v >> 1.
Proof.
  intros Hl Hb. do 16 (destruct v as [|? v]; [done|]). destruct v; [|done].
  unfold bytes in Hb. rewrite !Forall_cons_iff in Hb. destruct_and! Hb.
  set (p0 := [z; z0; z1; z2]). set (p1 := [z3; z4; z5; z6]). set (p2 := [z7; z8; z9; z10]).
  set (p3 := [z11; z12; z13; z14]).
  change (z :: _) with (p0 ++ p1 ++ p2 ++ p3).
  assert (bytes p0 ∧ bytes p1 ∧ bytes p2 ∧ bytes p3) as (B0 & B1 & B2 & B3)
    by (split_and!; repeat (constructor; [done|]); constructor).
  pose proof (be_val4_uint p0 eq_refl B0) as U0. pose proof (be_val4_uint p1 eq_refl B1) as U1.
  pose proof (be_val4_uint p2 eq_refl B2) as U2. pose proof (be_val4_uint p3 eq_refl B3) as U3.
  rewrite shift_right_block_words by done.
  assert (∀ w, 0 ≤ be_val w mod 2 ≤ 1) as Hm
    by (intros w; pose proof (Z.mod_pos_bound (be_val w) 2); lia).
  split; [done|]. split.
  { apply bytes_app; [|apply bytes_app; [|apply bytes_app]]; apply be_bytes_uint. }
  rewrite be_val_words by done. rewrite !be_val_shift_word by (done || lia).
  rewrite be_val_words, Z.shiftr_div_pow2 by (done || lia). change (2 ^ 1) with 2.
  clearbody p0 p1 p2 p3.
  pose proof (Z.div_mod (be_val p0) 2 ltac:(lia)). pose proof (Z.div_mod (be_val p1) 2 ltac:(lia)).
  pose proof (Z.div_mod (be_val p2) 2 ltac:(lia)). pose proof (Z.div_mod (be_val p3) 2 ltac:(lia)).
  pose proof (Hm p3).
  apply Z.div_unique with (be_val p3 mod 2); [left; lia|]. lia.
Qed.

(** *** One step and the whole product *)
Lemma gcm_shift_uint V : uint 128 V → uint 128 (gcm_shift V).
Proof.
  intros HV. unfold gcm_shift. apply uint_lxor; [lia|by apply uint_shiftr|].
  destruct (Z.testbit V 0); uint_lit.
Qed.

Lemma bit_test b k : 0 ≤ k → (b .& (1 << k) =? 0) = negb (Z.testbit b k).
Proof.
  intros Hk. rewrite Z.shiftl_1_l.
  assert (b .& 2 ^ k = if Z.testbit b k then 2 ^ k else 0) as ->.
  { apply Z.bits_inj'. intros i Hi. rewrite Z.land_spec, Z.pow2_bits_eqb by lia.
    destruct (Z.eqb_spec k i) as [->|Hne].
    - destruct (Z.testbit b i); [by rewrite Z.pow2_bits_true|by rewrite Z.testbit_0_l].
    - rewrite andb_false_r. destruct (Z.testbit b k); [|by rewrite Z.testbit_0_l].
      by rewrite Z.pow2_bits_false. }
  pose proof (Z.pow_pos_nonneg 2 k). destruct (Z.testbit b k); [|done].
  apply Z.eqb_neq. lia.
Qed.

Lemma be_val_bit0 v : length v = 16%nat → bytes v → Z.testbit (be_val v) 0 = Z.testbit (v.[15]) 0.
Proof.
  intros Hl Hb. pose proof (be_val_testbit v 15 0 Hb ltac:(lia) ltac:(lia)) as H.
  rewrite Hl in H. exact H.
Qed.

Definition gf_block (v : list Z) (V : Z) : Prop := length v = 16%nat ∧ bytes v ∧ be_val v = V.

Lemma xor_block_val z v Z V : gf_block z Z → gf_block v V → gf_block (xor_block z v) (Z ⊕ V).
Proof.
  intros (Lz & Bz & <-) (Lv & Bv & <-). unfold xor_block, AES_BLOCK_SIZE.
  rewrite xor_at_16, (take_ge v) by lia. split_and!.
  - rewrite length_xor_bytes; lia.
  - by apply xor_bytes_uint.
  - by apply be_val_lxor; [lia|..].
Qed.

Lemma gf_mult_step_val x i j z v Z V :
  length x = 16%nat → bytes x → (i < 16)%nat → (j < 8)%nat → gf_block z Z → gf_block v V →
  let zv := gf_mult_step x i (z, v) j in
  gf_block zv.1 (Z ⊕ if Z.testbit (be_val x) (127 - Z.of_nat (8 * i + j)) then V else 0) ∧
  gf_block zv.2 (gcm_shift V).
Proof.
  intros Hx Bx Hi Hj HZ HV. cbn [gf_mult_step fst snd]. rewrite bit_test by lia.
  assert (Z.testbit (x.[i]) (7 - Z.of_nat j) =
    Z.testbit (be_val x) (127 - Z.of_nat (8 * i + j))) as ->.
  { rewrite <- be_val_testbit by (done || lia). f_equal. lia. }
  split.
  - destruct (Z.testbit (be_val x) _); cbn [negb]; [by apply xor_block_val|by rewrite Z.lxor_0_r].
  - destruct HV as (Lv & Bv & <-). change 1 with (1 << 0). rewrite bit_test by lia.
    unfold gcm_shift. rewrite be_val_bit0 by done.
    destruct (shift_right_block_val v Lv Bv) as (Ls & Bs & <-).
    destruct (Z.testbit (v.[15]) 0); cbn [negb]; [|by rewrite Z.lxor_0_r].
    set (s := shift_right_block v) in *.
    assert (<[0%nat:=s.[0] ⊕ 0xe1]> s = xor_bytes s (0xe1 :: replicate 15 0)) as ->.
    { destruct s as [|s0 s]; [done|]. injection Ls as Ls. unfold xor_bytes. cbn [zip_with].
      change (<[0%nat:=(s0 :: s).[0] ⊕ 0xe1]> (s0 :: s)) with ((s0 ⊕ 0xe1) :: s). f_equal.
      fold (xor_bytes s (replicate 15 0)). by rewrite <- Ls, xor_bytes_comm, xor_bytes_zeros. }
    assert (bytes (0xe1 :: replicate 15 0)) as Br by bytes_lit.
    split_and!; [by rewrite length_xor_bytes|by apply xor_bytes_uint|by rewrite be_val_lxor].
Qed.

Definition gcm_step (X : Z) (ZV : Z * Z) (k : nat) : Z * Z :=
  (ZV.1 ⊕ (if Z.testbit X (127 - Z.of_nat k) then ZV.2 else 0), gcm_shift ZV.2).

Lemma gf_inner_val x i zv ZV js :
  length x = 16%nat → bytes x → (i < 16)%nat → Forall (λ j, (j < 8)%nat) js →
  gf_block zv.1 ZV.1 → gf_block zv.2 ZV.2 →
  let zv' := fold_left (gf_mult_step x i) js zv in
  let ZV' := fold_left (gcm_step (be_val x)) (map (λ j, 8 * i + j)%nat js) ZV in
  gf_block zv'.1 ZV'.1 ∧ gf_block zv'.2 ZV'.2.
Proof.
  intros Hx Bx Hi Hjs. revert zv ZV. induction Hjs as [|j js Hj Hjs IH]; intros [z v] [Z V] HZ HV; [done|].
  cbn [fold_left map]. destruct (gf_mult_step_val x i j z v Z V) as [H1 H2]; [done..|].
  by apply IH.
Qed.

Lemma gf_outer_val x zv ZV ns :
  length x = 16%nat → bytes x → Forall (λ i, (i < 16)%nat) ns →
  gf_block zv.1 ZV.1 → gf_block zv.2 ZV.2 →
  let zv' := fold_left (λ zv i, fold_left (gf_mult_step x i) (seq 0 8) zv) ns zv in
  let ZV' := fold_left (gcm_step (be_val x)) (concat (map (λ i, map (λ j, 8 * i + j)%nat (seq 0 8)) ns)) ZV in
  gf_block zv'.1 ZV'.1 ∧ gf_block zv'.2 ZV'.2.
Proof.
  intros Hx Bx Hns. revert zv ZV. induction Hns as [|i ns Hi Hns IH]; intros zv ZV HZ HV; [done|].
  cbn [fold_left map concat]. rewrite fold_left_app. apply IH.
  - apply gf_inner_val; [done..| |done|done]. apply List.Forall_forall. intros j Hj%in_seq. lia.
  - apply gf_inner_val; [done..| |done|done]. apply List.Forall_forall. intros j Hj%in_seq. lia.
Qed.

Lemma gcm_steps_sum X Y n :
  fold_left (gcm_step X) (seq 0 n) (0, Y) =
    (gsum n (λ k, if Z.testbit X (127 - Z.of_nat k) then gcm_pow k Y else 0), gcm_pow n Y).
Proof.
  induction n as [|n IH]; [done|]. rewrite seq_S, fold_left_app, IH. reflexivity.
Qed.

Lemma gf_indices : concat (map (λ i, map (λ j, 8 * i + j)%nat (seq 0 8)) (seq 0 16)) = seq 0 128.
Proof. vm_compute. reflexivity. Qed.

Lemma gcm_mul_steps X Y : gcm_mul X Y = (fold_left (gcm_step X) (seq 0 128) (0, Y)).1.
Proof.
  unfold gcm_mul. generalize 128%nat. intros n. rewrite gcm_steps_sum. reflexivity.
Qed.

Lemma gf_mult_val x y :
  length x = 16%nat → bytes x → length y = 16%nat → bytes y →
  gf_block (gf_mult x y) (gcm_mul (be_val x) (be_val y)).
Proof.
  intros Hx Bx Hy By. unfold gf_mult. cbv zeta. rewrite take_ge by lia.
  rewrite gcm_mul_steps, <- gf_indices.
  apply (gf_outer_val x (memset 16 0, y) (0, be_val y) (seq 0 16)); [done|done| | |done].
  - apply List.Forall_forall. intros j Hj%in_seq. lia.
  - split_and!; [done|bytes_lit|done].
Qed.

(** ** Algebra of the product *)
Lemma lxor_if (c : bool) a b : (if c then a ⊕ b else 0) = (if c then a else 0) ⊕ (if c then b else 0).
Proof. by destruct c. Qed.

Lemma gsum_ext n f g : (∀ k, (k < n)%nat → f k = g k) → gsum n f = gsum n g.
Proof.
  induction n as [|n IH]; intros H; [done|]. cbn [gsum]. rewrite IH by (intros; apply H; lia).
  by rewrite H by lia.
Qed.
Lemma gsum_lxor n f g : gsum n (λ k, f k ⊕ g k) = gsum n f ⊕ gsum n g.
Proof. induction n as [|n IH]; [done|]. cbn [gsum]. rewrite IH. apply lxor_interchange. Qed.
Lemma gsum_0 n : gsum n (λ _, 0) = 0.
Proof. induction n as [|n IH]; [done|]. cbn [gsum]. by rewrite IH. Qed.
Lemma gsum_if n (c : bool) f : gsum n (λ k, if c then f k else 0) = if c then gsum n f else 0.
Proof. destruct c; [done|apply gsum_0]. Qed.
Lemma gsum_swap n m (f : nat → nat → Z) :
  gsum n (λ i, gsum m (λ j, f i j)) = gsum m (λ j, gsum n (λ i, f i j)).
Proof.
  induction n as [|n IH]; cbn [gsum]; [by rewrite gsum_0|]. by rewrite IH, gsum_lxor.
Qed.

Lemma gcm_shift_lxor a b : gcm_shift (a ⊕ b) = gcm_shift a ⊕ gcm_shift b.
Proof.
  unfold gcm_shift. rewrite Z.lxor_spec, Z.shiftr_lxor. rewrite <- lxor_interchange. f_equal.
  destruct (Z.testbit a 0), (Z.testbit b 0); cbn [xorb];
    by rewrite ?Z.lxor_nilpotent, ?Z.lxor_0_r, ?Z.lxor_0_l.
Qed.
Lemma gcm_pow_lxor k a b : gcm_pow k (a ⊕ b) = gcm_pow k a ⊕ gcm_pow k b.
Proof. induction k as [|k IH]; [done|]. cbn [gcm_pow]. by rewrite IH, gcm_shift_lxor. Qed.
Lemma gcm_pow_0 k : gcm_pow k 0 = 0.
Proof. induction k as [|k IH]; [done|]. cbn [gcm_pow]. by rewrite IH. Qed.
Lemma gcm_pow_gsum k n f : gcm_pow k (gsum n f) = gsum n (λ j, gcm_pow k (f j)).
Proof. induction n as [|n IH]; [apply gcm_pow_0|]. cbn [gsum]. by rewrite gcm_pow_lxor, IH. Qed.
Lemma gcm_pow_add j k V : gcm_pow j (gcm_pow k V) = gcm_pow (j + k) V.
Proof. induction j as [|j IH]; [done|]. cbn [gcm_pow Nat.add]. by rewrite IH. Qed.

(** Bit [j] from the left is the [j]-th power of the generator. *)
Lemma gcm_bit j : (j < 128)%nat → 2 ^ (127 - Z.of_nat j) = gcm_pow j (2 ^ 127).
Proof.
  intros Hj. induction j as [|j IH]; [done|]. specialize (IH ltac:(lia)).
  cbn [gcm_pow]. rewrite <- IH. unfold gcm_shift.
  rewrite Z.pow2_bits_false, Z.lxor_0_r, Z.shiftr_div_pow2, <- Z.pow_sub_r by lia. f_equal. lia.
Qed.

Lemma gsum_testbit n f i : Z.testbit (gsum n f) i = fold_left (λ b k, xorb b (Z.testbit (f k) i)) (seq 0 n) false.
Proof.
  induction n as [|n IH]; [by rewrite Z.testbit_0_l|].
  cbn [gsum]. by rewrite seq_S, fold_left_app, Z.lxor_spec, IH.
Qed.

Lemma gsum_bits_prefix n Y i :
  (n ≤ 128)%nat →
  Z.testbit (gsum n (λ j, if Z.testbit Y (127 - Z.of_nat j) then 2 ^ (127 - Z.of_nat j) else 0)) i =
    (127 - Z.of_nat n <? i) && (i <=? 127) && Z.testbit Y i.
Proof.
  intros Hn. induction n as [|n IH].
  - cbn [gsum]. rewrite Z.testbit_0_l. destruct (Z.ltb_spec (127 - Z.of_nat 0) i), (Z.leb_spec i 127);
      try done; lia.
  - cbn [gsum]. rewrite Z.lxor_spec, IH by lia.
    assert (∀ m, 0 ≤ m → Z.testbit (if Z.testbit Y m then 2 ^ m else 0) i = (i =? m) && Z.testbit Y i) as Hb.
    { intros m Hm. destruct (Z.eqb_spec i m) as [->|Hne]; destruct (Z.testbit Y m) eqn:Hy;
        rewrite ?Z.testbit_0_l; try done.
      - by rewrite Z.pow2_bits_true.
      - by rewrite Z.pow2_bits_false. }
    rewrite Hb by lia.
    destruct (Z.ltb_spec (127 - Z.of_nat n) i), (Z.ltb_spec (127 - Z.of_nat (S n)) i),
      (Z.leb_spec i 127), (Z.eqb_spec i (127 - Z.of_nat n)); cbn [andb]; try lia;
      by destruct (Z.testbit Y i).
Qed.

Lemma gsum_bits Y :
  uint 128 Y →
  gsum 128 (λ j, if Z.testbit Y (127 - Z.of_nat j) then gcm_pow j (2 ^ 127) else 0) = Y.
Proof.
  intros HY. rewrite (gsum_ext _ _ (λ j, if Z.testbit Y (127 - Z.of_nat j) then 2 ^ (127 - Z.of_nat j) else 0))
    by (intros k Hk; by rewrite gcm_bit).
  apply Z.bits_inj'. intros i Hi. rewrite gsum_bits_prefix by lia.
  destruct (Z.ltb_spec (127 - Z.of_nat 128) i); [|lia]. cbn [andb].
  destruct (Z.leb_spec i 127); [done|]. by rewrite (uint_testbit 128) by (done || lia).
Qed.

(** The product as a double sum of powers of the generator. *)
Lemma gcm_mul_double X Y :
  uint 128 Y →
  gcm_mul X Y = gsum 128 (λ k, gsum 128 (λ j,
    if Z.testbit X (127 - Z.of_nat k) && Z.testbit Y (127 - Z.of_nat j)
    then gcm_pow (k + j) (2 ^ 127) else 0)).
Proof.
  intros HY. unfold gcm_mul. apply gsum_ext. intros k _. rewrite <- (gsum_bits Y HY) at 1.
  rewrite gcm_pow_gsum, <- gsum_if. apply gsum_ext. intros j _.
  destruct (Z.testbit X _), (Z.testbit Y _); cbn [andb]; rewrite ?gcm_pow_0, ?gcm_pow_add; done.
Qed.

Lemma gcm_mul_comm X Y : uint 128 X → uint 128 Y → gcm_mul X Y = gcm_mul Y X.
Proof.
  intros HX HY. rewrite !gcm_mul_double, gsum_swap by done.
  apply gsum_ext. intros k _. apply gsum_ext. intros j _. by rewrite andb_comm, Nat.add_comm.
Qed.
Lemma gcm_mul_lxor_r X Y Y' : gcm_mul X (Y ⊕ Y') = gcm_mul X Y ⊕ gcm_mul X Y'.
Proof.
  unfold gcm_mul. generalize 128%nat. intros n. rewrite <- gsum_lxor. apply gsum_ext. intros k _.
  by rewrite gcm_pow_lxor, lxor_if.
Qed.
Lemma gcm_mul_1 X : uint 128 X → gcm_mul X (2 ^ 127) = X.
Proof. apply gsum_bits. Qed.
Lemma gcm_shift_gsum n f : gcm_shift (gsum n f) = gsum n (λ j, gcm_shift (f j)).
Proof. induction n as [|n IH]; [done|]. cbn [gsum]. by rewrite gcm_shift_lxor, IH. Qed.
Lemma gcm_pow_shift k Y : gcm_pow k (gcm_shift Y) = gcm_shift (gcm_pow k Y).
Proof. induction k as [|k IH]; [done|]. cbn [gcm_pow]. by rewrite IH. Qed.
Lemma gcm_mul_shift X Y : gcm_mul X (gcm_shift Y) = gcm_shift (gcm_mul X Y).
Proof.
  unfold gcm_mul. generalize 128%nat. intros n. rewrite gcm_shift_gsum. apply gsum_ext. intros k _.
  rewrite gcm_pow_shift. by destruct (Z.testbit X _).
Qed.
Lemma gcm_mul_pow k X Y : gcm_mul X (gcm_pow k Y) = gcm_pow k (gcm_mul X Y).
Proof. induction k as [|k IH]; cbn [gcm_pow]; [done|]. by rewrite gcm_mul_shift, IH. Qed.
Lemma gcm_mul_0_r X : gcm_mul X 0 = 0.
Proof.
  unfold gcm_mul. generalize 128%nat. intros n. rewrite (gsum_ext _ _ (λ _, 0)); [apply gsum_0|].
  intros k _. rewrite gcm_pow_0. by destruct (Z.testbit _ _).
Qed.
Lemma gcm_mul_gsum X n f : gcm_mul X (gsum n f) = gsum n (λ j, gcm_mul X (f j)).
Proof.
  induction n as [|n IH]; cbn [gsum]; [apply gcm_mul_0_r|]. by rewrite gcm_mul_lxor_r, IH.
Qed.
Lemma gsum_uint n f : (∀ k, uint 128 (f k)) → uint 128 (gsum n f).
Proof. intros H. induction n as [|n IH]; [uint_lit|]. cbn [gsum]. by apply uint_lxor. Qed.
Lemma gcm_pow_uint k V : uint 128 V → uint 128 (gcm_pow k V).
Proof. intros HV. induction k as [|k IH]; [done|]. by apply gcm_shift_uint. Qed.
Lemma gcm_mul_uint X Y : uint 128 Y → uint 128 (gcm_mul X Y).
Proof.
  intros HY. apply gsum_uint. intros k. destruct (Z.testbit X _); [by apply gcm_pow_uint|uint_lit].
Qed.
Lemma gcm_mul_left X Y W : gcm_mul X (gcm_mul Y W) = gcm_mul Y (gcm_mul X W).
Proof.
  assert (∀ n V, gcm_mul X (gsum n (λ k, if Z.testbit Y (127 - Z.of_nat k) then gcm_pow k V else 0)) =
    gsum n (λ k, if Z.testbit Y (127 - Z.of_nat k) then gcm_pow k (gcm_mul X V) else 0)) as H.
  { intros n V. rewrite gcm_mul_gsum. apply gsum_ext. intros k _.
    destruct (Z.testbit Y _); [apply gcm_mul_pow|apply gcm_mul_0_r]. }
  apply (H 128%nat W).
Qed.
Lemma gcm_mul_assoc X Y W :
  uint 128 X → uint 128 Y → uint 128 W → gcm_mul X (gcm_mul Y W) = gcm_mul (gcm_mul X Y) W.
Proof.
  intros HX HY HW. rewrite (gcm_mul_comm Y W), gcm_mul_left by done.
  apply gcm_mul_comm; [done|by apply gcm_mul_uint].
Qed.

#[global] Opaque gcm_mul gf_mult.

(** ** GHASH, GCTR and GCM as SP 800-38D defines them *)
Definition GHASH (H : Z) (x : list Z) : Z :=
  fold_left (λ Y b, gcm_mul (Y ⊕ be_val b) H) (blocks x) 0.
(** The counter block [i] increments after [c]; the increment wraps at 2^32. *)
Definition ctr32 (c : list Z) (i : nat) : list Z :=
  take 12 c ++ be_bytes 4 (be_val (drop 12 c) + Z.of_nat i).
Definition gcm_J0 (H : Z) (iv : list Z) : list Z :=
  if (length iv =? 12)%nat then iv ++ [0; 0; 0; 1]
  else be_bytes 16 (GHASH H (pad16 iv ++ be_bytes 8 0 ++ be_bytes 8 (8 * Z.of_nat (length iv)))).

Section gcm_spec.
Context (E : list Z → list Z).
Definition GCTR (icb x : list Z) : list Z :=
  xor_bytes x (stream (λ i, E (ctr32 icb i)) (length x)).
Definition gcm_crypt (iv x : list Z) : list Z :=
  GCTR (ctr32 (gcm_J0 (be_val (E (replicate 16 0))) iv) 1) x.
Definition gcm_tag (iv aad crypt : list Z) : list Z :=
  let H := be_val (E (replicate 16 0)) in
  GCTR (gcm_J0 H iv)
    (be_bytes 16 (GHASH H (pad16 aad ++ pad16 crypt ++
       be_bytes 8 (8 * Z.of_nat (length aad)) ++ be_bytes 8 (8 * Z.of_nat (length crypt))))).
End gcm_spec.

(** *** GHASH *)
Lemma gf_block_bytes v V : gf_block v V → v = be_bytes 16 V.
Proof. intros (Hl & Hb & <-). rewrite <- Hl. by rewrite be_bytes_val. Qed.

Lemma gf_block_self v : length v = 16%nat → bytes v → gf_block v (be_val v).
Proof. by intros; split; [|split]. Qed.

Section ghash_facts.
Context (h : list Z) (Hl : length h = 16%nat) (Hb : bytes h).

Lemma ghash_step b y Y :
  gf_block y Y → length b = 16%nat → bytes b →
  gf_block (gf_mult (xor_at 0 y b) h) (gcm_mul (Y ⊕ be_val b) (be_val h)).
Proof using Hl Hb.
  intros Hy Hlb Hbb.
  pose proof (xor_block_val y b Y (be_val b) Hy (gf_block_self b Hlb Hbb)) as Hx.
  unfold xor_block in Hx. rewrite take_ge in Hx by (unfold AES_BLOCK_SIZE; lia).
  destruct Hx as (L & B & V). rewrite <- V. exact (gf_mult_val _ _ L B Hl Hb).
Qed.

Lemma ghash_fold bs y Y :
  gf_block y Y → Forall (λ b, length b = 16%nat) bs → Forall bytes bs →
  gf_block (fold_left (λ y b, gf_mult (xor_at 0 y b) h) bs y)
           (fold_left (λ Y b, gcm_mul (Y ⊕ be_val b) (be_val h)) bs Y).
Proof using Hl Hb.
  intros Hy Hbs Hbb.
  apply (fold_left_rel gf_block _ _ (λ b, length b = 16%nat ∧ bytes b)); [exact Hy| |].
  - by apply Forall_and.
  - intros y' Y' b Hy' [Hlb Hb1]. exact (ghash_step b y' Y' Hy' Hlb Hb1).
Qed.

Lemma blocks_bytes x : bytes x → Forall bytes (blocks x).
Proof.
  intros Hx. apply List.Forall_forall. unfold blocks. intros b Hin.
  apply List.in_map_iff in Hin as (i & <- & _). auto with machine.
Qed.
Lemma pad16_bytes x : bytes x → bytes (pad16 x).
Proof. intros Hx. unfold pad16. apply bytes_app; [done|]. apply bytes_replicate. uint_lit. Qed.

Lemma ghash_val x y Y :
  bytes x → gf_block y Y →
  gf_block (ghash h x y)
    (fold_left (λ Y b, gcm_mul (Y ⊕ be_val b) (be_val h)) (blocks (pad16 x)) Y).
Proof using Hl Hb.
  intros Hx Hy. unfold ghash, xor_block, AES_BLOCK_SIZE.
  rewrite (fold_blocks (λ y b, gf_mult (xor_at 0 y b) h) x y).
  pose proof (ghash_fold (blocks x) y Y Hy (Forall_blocks x) (blocks_bytes x Hx)) as Hg.
  rewrite blocks_pad16, fold_left_app.
  pose proof (Nat.div_mod_eq (length x) 16) as Hdm. pose proof (Nat.mod_upper_bound (length x) 16).
  destruct (Nat.eqb_spec (length x mod 16) 0) as [H0|H0].
  { rewrite (proj2 (Nat.ltb_ge _ _)) by lia. done. }
  rewrite (proj2 (Nat.ltb_lt _ _)) by lia. set (d := drop _ x).
  assert (length d = length x mod 16)%nat as Hd by (unfold d; rewrite length_drop; lia).
  assert (d ≠ []) as Hne by (intros E; rewrite E in Hd; done || (symmetry in Hd; done)).
  replace (length x - 16 * (length x / 16))%nat with (length d) by lia.
  assert (memcpy (memcpy (memset 16 0) 0 d) (length d) (memset (16 - length d) 0) = pad16 d) as ->.
  { rewrite (pad16_short d) by (done || lia). unfold memset.
    rewrite memcpy_eq by (rewrite length_memcpy, !length_replicate; lia).
    rewrite (memcpy_eq _ 0 d) by (rewrite length_replicate; lia). rewrite take_0, app_nil_l.
    rewrite take_app_length, drop_ge by
      (rewrite length_app, length_drop, !length_replicate; lia). by rewrite app_nil_r. }
  pose proof (length_pad16_short d Hne ltac:(lia)) as Hpl.
  rewrite (take_ge (pad16 d)) by lia.
  apply (ghash_fold [pad16 d]); [done|by repeat constructor|].
  constructor; [|constructor]. apply pad16_bytes. unfold d. auto with machine.
Qed.
End ghash_facts.

(** *** Counter mode *)
Lemma inc32_eq c : length c = 16%nat → bytes c → inc32 c = ctr32 c 1.
Proof.
  intros Hl Hb. unfold inc32, ctr32. change (AES_BLOCK_SIZE - 4)%nat with 12%nat.
  assert (length (drop 12 c) = 4%nat) as Hd by (rewrite length_drop; lia).
  rewrite <- (app_nil_r (drop 12 c)), RTW_GET_BE32_app, app_nil_r by (done || auto with machine).
  rewrite RTW_PUT_BE32_be, u32_mod.
  change (2 ^ 32) with (256 ^ Z.of_nat 4). rewrite be_bytes_mod.
  rewrite memcpy_eq by (rewrite length_be_bytes; lia). rewrite length_be_bytes.
  rewrite (drop_ge c (12 + 4)) by lia. by rewrite app_nil_r.
Qed.

Lemma ctr32_block c i :
  length c = 16%nat → bytes c → length (ctr32 c i) = 16%nat ∧ bytes (ctr32 c i).
Proof.
  intros Hl Hb. unfold ctr32. split.
  - rewrite length_app, length_take, length_be_bytes. lia.
  - apply bytes_app; [auto with machine|apply be_bytes_uint].
Qed.
Lemma ctr32_add c i j : length c = 16%nat → ctr32 (ctr32 c i) j = ctr32 c (i + j).
Proof.
  intros Hl. unfold ctr32. assert (length (take 12 c) = 12%nat) as Ht by (rewrite length_take; lia).
  rewrite take_app_length', drop_app_length' by done. f_equal. rewrite be_val_be_bytes.
  rewrite <- be_bytes_mod, <- (be_bytes_mod _ (be_val (drop 12 c) + _)).
  rewrite Z.add_mod_idemp_l by (apply Z.pow_nonzero; lia). do 2 f_equal. lia.
Qed.
Lemma ctr32_0 c : length c = 16%nat → bytes c → ctr32 c 0 = c.
Proof.
  intros Hl Hb. unfold ctr32. rewrite Z.add_0_r.
  pose proof (be_bytes_val (drop 12 c) ltac:(auto with machine)) as H.
  rewrite length_drop, Hl in H. cbn [Nat.sub] in H. rewrite H. apply take_drop.
Qed.

Section gctr_facts.
Context (E : list Z → list Z) `{!BlockCipher E}.

Definition gctr_stream (c : list Z) (n : nat) : list Z := stream (λ i, E (ctr32 c i)) n.
Lemma length_gctr_stream c n : length (gctr_stream c n) = (16 * n)%nat.
Proof. apply length_stream. intros. apply (bc_length16 E). Qed.
Lemma gctr_stream_S c n :
  length c = 16%nat → bytes c → gctr_stream c (S n) = E c ++ gctr_stream (ctr32 c 1) n.
Proof.
  intros Hl Hb. unfold gctr_stream. rewrite stream_S, ctr32_0 by done. f_equal.
  apply stream_ext. intros i _. by rewrite ctr32_add.
Qed.

Lemma xor_bytes_split n x a b :
  length a = n → (n ≤ length x)%nat →
  xor_bytes x (a ++ b) = xor_bytes (take n x) a ++ xor_bytes (drop n x) b.
Proof.
  intros Ha Hn. rewrite <- (take_drop n x) at 1. apply xor_bytes_app. rewrite length_take. lia.
Qed.

Lemma gctr_stream_app c n m :
  length c = 16%nat → bytes c →
  gctr_stream c (n + m) = gctr_stream c n ++ gctr_stream (ctr32 c n) m.
Proof.
  revert c. induction n as [|n IH]; intros c Hl Hb; [by rewrite ctr32_0|]. cbn [Nat.add].
  destruct (ctr32_block c 1 Hl Hb) as [Hl1 Hb1].
  by rewrite !gctr_stream_S, IH, ctr32_add, <- app_assoc by done.
Qed.

Lemma gctr_loop_eq n c x :
  length c = 16%nat → bytes c → (16 * n ≤ length x)%nat →
  gctr_loop E n c x = (xor_bytes (take (16 * n) x) (gctr_stream c n), ctr32 c n).
Proof.
  revert c x. induction n as [|n IH]; intros c x Hl Hb Hx.
  { cbn [gctr_loop]. by rewrite ctr32_0. }
  cbn [gctr_loop]. destruct (ctr32_block c 1 Hl Hb) as [Hl1 Hb1]. unfold AES_BLOCK_SIZE.
  rewrite inc32_eq, IH by (done || (rewrite length_drop; lia)).
  rewrite ctr32_add, gctr_stream_S by done. f_equal.
  replace (16 * S n)%nat with (16 + 16 * n)%nat by lia.
  assert (length (take 16 x) = 16%nat) as Ht by (rewrite length_take; lia).
  rewrite <- take_take_drop, xor_bytes_app by (by rewrite (bc_length16 E)). f_equal.
  unfold xor_block. rewrite xor_at_16 by (apply (bc_length16 E) || lia). apply xor_bytes_comm.
Qed.

Lemma aes_gctr_eq c x : length c = 16%nat → bytes c → aes_gctr E c x = GCTR E c x.
Proof.
  intros Hl Hb. unfold aes_gctr, GCTR. fold (gctr_stream c (length x)).
  destruct (Nat.eqb_spec (length x) 0) as [H0|H0]; [by destruct x|].
  unfold AES_BLOCK_SIZE. rewrite (take_ge c) by lia.
  pose proof (Nat.div_mod_eq (length x) 16). pose proof (Nat.mod_upper_bound (length x) 16).
  set (n := (length x / 16)%nat) in *. rewrite gctr_loop_eq by (done || lia).
  assert (gctr_stream c (length x) = gctr_stream c n ++ gctr_stream (ctr32 c n) (length x - n)) as ->.
  { rewrite <- gctr_stream_app by done. f_equal. lia. }
  rewrite (xor_bytes_split (16 * n)) by (rewrite ?length_gctr_stream; lia).
  destruct (Nat.eqb_spec (length x - 16 * n) 0) as [Hz|Hz].
  { rewrite (drop_ge x) by lia. by rewrite app_nil_r. }
  f_equal. destruct (ctr32_block c n Hl Hb) as [Hln Hbn].
  replace (length x - n)%nat with (S (length x - n - 1)) by lia.
  rewrite gctr_stream_S, xor_bytes_app_short by (done || (rewrite length_drop, (bc_length16 E); lia)).
  rewrite (xor_bytes_take_r _ (E _)), length_drop. done.
Qed.

Lemma length_GCTR c x : length (GCTR E c x) = length x.
Proof. apply length_xor_bytes_le. fold (gctr_stream c (length x)).
  rewrite length_gctr_stream. lia. Qed.
Lemma GCTR_twice c x : GCTR E c (GCTR E c x) = x.
Proof.
  unfold GCTR at 1. rewrite length_GCTR. apply xor_bytes_twice. fold (gctr_stream c (length x)).
  rewrite length_gctr_stream. lia.
Qed.
Lemma GCTR_bytes c x : bytes x → bytes (GCTR E c x).
Proof.
  intros Hx. apply xor_bytes_uint; [done|]. unfold stream. apply Forall_concat.
  apply List.Forall_forall. intros b Hin. apply List.in_map_iff in Hin as (i & <- & _). apply bc_bytes.
Qed.
End gctr_facts.

(** *** The entry points *)
Section gcm_entry.
Context (E : list Z → list Z) `{!BlockCipher E}.
Let Hs := E (memset AES_BLOCK_SIZE 0).
Let H := be_val (E (replicate 16 0)).

Lemma gcm_subkey : length Hs = 16%nat ∧ bytes Hs ∧ be_val Hs = H.
Proof. split_and!; [apply (bc_length16 E)|apply (bc_bytes (E := E))|done]. Qed.

Lemma be_bytes_length n z : length (be_bytes n z) = n.
Proof. apply length_be_bytes. Qed.

Lemma gf_block_zero : gf_block ghash_start 0.
Proof. split; [done|]. split; [bytes_lit|done]. Qed.

(** A chain of [ghash] calls, the last one on a 16-byte block. *)
Lemma ghash_last x y Y l :
  bytes x → length l = 16%nat → bytes l → gf_block y Y →
  gf_block (ghash Hs l (ghash Hs x y))
    (fold_left (λ Y b, gcm_mul (Y ⊕ be_val b) H) (blocks (pad16 x ++ l)) Y).
Proof using BlockCipher0.
  intros Hx Hl Hbl Hy. destruct gcm_subkey as (HL & HB & HV).
  rewrite blocks_app_pad, fold_left_app, <- HV.
  assert (blocks l = blocks (pad16 l)) as ->.
  { rewrite blocks_pad16, Hl. by rewrite app_nil_r. }
  by apply ghash_val, ghash_val.
Qed.

Lemma aes_gcm_prepare_j0_eq iv :
  bytes iv → aes_gcm_prepare_j0 iv Hs = gcm_J0 H iv ∧
  length (gcm_J0 H iv) = 16%nat ∧ bytes (gcm_J0 H iv).
Proof using BlockCipher0.
  intros Hiv. unfold aes_gcm_prepare_j0, gcm_J0.
  destruct (Nat.eqb_spec (length iv) 12) as [Hl|Hl].
  - split_and!.
    + do 12 (destruct iv as [|? iv]; [done|]). by destruct iv.
    + rewrite length_app, Hl. done.
    + apply bytes_app; [done|bytes_lit].
  - split_and!; [|apply length_be_bytes|apply be_bytes_uint]. apply gf_block_bytes.
    change (RTW_PUT_BE64 0) with (be_bytes 8 0). rewrite RTW_PUT_BE64_be, (Z.mul_comm _ 8).
    apply ghash_last; [done| | |apply gf_block_zero].
    + by rewrite length_app, !length_be_bytes.
    + apply bytes_app; apply be_bytes_uint.
Qed.

Lemma aes_gcm_ghash_eq aad crypt :
  bytes aad → bytes crypt →
  aes_gcm_ghash Hs aad crypt =
    be_bytes 16 (GHASH H (pad16 aad ++ pad16 crypt ++
       be_bytes 8 (8 * Z.of_nat (length aad)) ++ be_bytes 8 (8 * Z.of_nat (length crypt)))).
Proof using BlockCipher0.
  intros Ha Hc. apply gf_block_bytes. unfold aes_gcm_ghash, GHASH.
  rewrite !RTW_PUT_BE64_be, !(Z.mul_comm _ 8). rewrite blocks_app_pad, fold_left_app.
  apply ghash_last; [done| | |].
  - by rewrite length_app, !length_be_bytes.
  - apply bytes_app; apply be_bytes_uint.
  - destruct gcm_subkey as (HL & HB & HV). rewrite <- HV. apply ghash_val; try done. apply gf_block_zero.
Qed.

Lemma aes_gcm_gctr_eq iv x :
  bytes iv → aes_gcm_gctr E (aes_gcm_prepare_j0 iv Hs) x = gcm_crypt E iv x.
Proof using BlockCipher0.
  intros Hiv. destruct (aes_gcm_prepare_j0_eq iv Hiv) as (-> & HL & HB).
  unfold aes_gcm_gctr, gcm_crypt. fold H.
  destruct (Nat.eqb_spec (length x) 0) as [H0|H0]; [by destruct x|].
  rewrite take_ge by (unfold AES_BLOCK_SIZE; lia). rewrite inc32_eq by done.
  destruct (ctr32_block (gcm_J0 H iv) 1 HL HB). by apply aes_gctr_eq.
Qed.

Lemma aes_gcm_tag_eq iv aad crypt :
  bytes iv → bytes aad → bytes crypt →
  aes_gctr E (aes_gcm_prepare_j0 iv Hs) (aes_gcm_ghash Hs aad crypt) = gcm_tag E iv aad crypt.
Proof using BlockCipher0.
  intros Hiv Ha Hc. destruct (aes_gcm_prepare_j0_eq iv Hiv) as (-> & HL & HB).
  rewrite aes_gcm_ghash_eq, aes_gctr_eq by done. done.
Qed.

Lemma gcm_tag_block iv aad crypt :
  length (gcm_tag E iv aad crypt) = 16%nat ∧ bytes (gcm_tag E iv aad crypt).
Proof using BlockCipher0.
  unfold gcm_tag. split.
  - rewrite (length_GCTR E). apply length_be_bytes.
  - apply (GCTR_bytes E), be_bytes_uint.
Qed.
Lemma gcm_crypt_twice iv x : gcm_crypt E iv (gcm_crypt E iv x) = x.
Proof using BlockCipher0. apply (GCTR_twice E). Qed.
Lemma gcm_crypt_bytes iv x : bytes x → bytes (gcm_crypt E iv x).
Proof using BlockCipher0. apply (GCTR_bytes E). Qed.
End gcm_entry.

Section gcm_alloc.
Context (kmalloc : Z → bool) (key : list Z) (key_len : Z) (ctx : aes_ctx).
Context (Hctx : aes_encrypt_init kmalloc key key_len = Some ctx).
Context (iv aad : list Z) (Hiv : bytes iv) (Haad : bytes aad).

Lemma aes_gcm_ae_eq plain :
  bytes plain →
  aes_gcm_ae kmalloc key key_len iv plain aad =
    Ret (gcm_crypt (aes_encrypt ctx) iv plain,
         gcm_tag (aes_encrypt ctx) iv aad (gcm_crypt (aes_encrypt ctx) iv plain)).
Proof using Hctx Hiv Haad.
  intros Hp. unfold aes_gcm_ae, aes_gcm_init_hash_subkey. rewrite Hctx. cbv zeta.
  rewrite aes_gcm_gctr_eq, aes_gcm_tag_eq by (done || apply _ || by apply gcm_crypt_bytes, Hp; apply _).
  done.
Qed.

Lemma aes_gcm_ad_eq crypt tag :
  bytes crypt → bytes tag → length tag = 16%nat →
  aes_gcm_ad kmalloc key key_len iv crypt aad tag =
    if bool_decide (tag = gcm_tag (aes_encrypt ctx) iv aad crypt)
    then Ret (gcm_crypt (aes_encrypt ctx) iv crypt) else Err (-1).
Proof using Hctx Hiv Haad.
  intros Hc Ht Hl. unfold aes_gcm_ad, aes_gcm_init_hash_subkey. rewrite Hctx. cbv zeta.
  rewrite aes_gcm_gctr_eq, aes_gcm_tag_eq by (done || apply _).
  destruct (gcm_tag_block (aes_encrypt ctx) iv aad crypt) as [HL HB].
  set (T := gcm_tag _ _ _ _) in *.
  assert ((os_memcmp_const tag T 16 =? 0) = bool_decide (tag = T)) as ->; [|done].
  apply eq_bool_prop_intro. rewrite bool_decide_spec, Is_true_true, Z.eqb_eq.
  rewrite os_memcmp_const_0 by (done || lia). by rewrite !take_ge by lia.
Qed.
End gcm_alloc.

(** Equality of blocks is equality of the numbers. *)
Lemma gf_block_eq v v' V V' : gf_block v V → gf_block v' V' → V = V' → v = v'.
Proof. intros H%gf_block_bytes H'%gf_block_bytes ->. congruence. Qed.

Definition gf_one : list Z := 0x80 :: replicate 15 0.

(** [gf_mult] is multiplication in GF(2^128) as SP 800-38D represents it:
    on 16-byte blocks its result is the product [gcm_mul] of the standard
    (bit k of x selects the k-th multiple of y by the generator, reduced with
    R = 0xe1 || 0^120), and that product is commutative, associative,
    distributes over xor and has the block 0x80 00 ... 00 as its unit. *)
Theorem gf_mult_field x y w :
  length x = 16%nat → bytes x → length y = 16%nat → bytes y → length w = 16%nat → bytes w →
  length (gf_mult x y) = 16%nat ∧ bytes (gf_mult x y) ∧
  be_val (gf_mult x y) = gcm_mul (be_val x) (be_val y) ∧
  gf_mult x y = gf_mult y x ∧
  gf_mult x (gf_mult y w) = gf_mult (gf_mult x y) w ∧
  gf_mult x (xor_bytes y w) = xor_bytes (gf_mult x y) (gf_mult x w) ∧
  gf_mult x gf_one = x.
Proof.
  intros Lx Bx Ly By Lw Bw.
  assert (∀ b, length b = 16%nat → bytes b → uint 128 (be_val b)) as HU.
  { intros b Lb Bb. split; [by apply be_val_nonneg|]. pose proof (be_val_bound b Bb) as H.
    by rewrite Lb in H. }
  destruct (gf_mult_val x y Lx Bx Ly By) as (Lxy & Bxy & Vxy).
  destruct (gf_mult_val y w Ly By Lw Bw) as (Lyw & Byw & Vyw).
  destruct (gf_mult_val x w Lx Bx Lw Bw) as (Lxw & Bxw & Vxw).
  split; [done|]. split; [done|]. split; [done|]. split; [|split; [|split]].
  - eapply gf_block_eq; [by apply gf_mult_val|by apply gf_mult_val|]. by apply gcm_mul_comm; apply HU.
  - eapply gf_block_eq; [by apply gf_mult_val|by apply gf_mult_val|]. rewrite Vxy, Vyw.
    by apply gcm_mul_assoc; apply HU.
  - assert (length (xor_bytes y w) = 16%nat) as Lyx by (rewrite length_xor_bytes; lia).
    pose proof (gf_mult_val x _ Lx Bx Lyx (xor_bytes_uint _ _ By Bw)) as H.
    rewrite (be_val_lxor y w ltac:(lia) By Bw), gcm_mul_lxor_r, <- Vxy, <- Vxw in H.
    rewrite <- (be_val_lxor (gf_mult x y) (gf_mult x w) (eq_trans Lxy (eq_sym Lxw)) Bxy Bxw) in H.
    apply gf_block_bytes in H. rewrite H.
    replace 16%nat with (length (xor_bytes (gf_mult x y) (gf_mult x w)))
      by (rewrite length_xor_bytes; lia).
    apply be_bytes_val. by apply xor_bytes_uint.
  - eapply gf_block_eq; [apply gf_mult_val; [done|done|done|bytes_lit]|by apply gf_block_self|].
    change (be_val gf_one) with (2 ^ 127). by apply gcm_mul_1, HU.
Qed.

Section properties.
Context (kmalloc : Z → bool).

(** C35: [aes_gcm_ae] is GCM-AE of SP 800-38D: for an IV of any length the
    ciphertext is the text xored with the keystream of the counter blocks
    inc32(J_0), inc32^2(J_0), ... (the 32-bit counter wraps), and the tag is
    the GHASH of the padded AAD, the padded ciphertext and their 64-bit bit
    lengths, encrypted with counter block J_0. *)
Theorem aes_gcm_ae_refines_sp800_38d key key_len ctx iv aad plain :
  aes_encrypt_init kmalloc key key_len = Some ctx → bytes iv → bytes aad → bytes plain →
  let crypt := gcm_crypt (aes_encrypt ctx) iv plain in
  aes_gcm_ae kmalloc key key_len iv plain aad =
    Ret (crypt, gcm_tag (aes_encrypt ctx) iv aad crypt) ∧
  length crypt = length plain ∧ length (gcm_tag (aes_encrypt ctx) iv aad crypt) = 16%nat.
Proof.
  intros Hctx Hiv Ha Hp crypt. split; [by apply aes_gcm_ae_eq|]. split.
  - apply (length_GCTR (aes_encrypt ctx)).
  - apply (gcm_tag_block (aes_encrypt ctx)).
Qed.

(** [aes_gcm_ad] accepts exactly what [aes_gcm_ae] produces: it returns
    the text [plain] for a ciphertext and a 16-byte tag if and only if
    encrypting [plain] under the same key, IV and AAD gives that ciphertext
    and that tag; otherwise it returns -1. *)
Theorem aes_gcm_ad_inverse_of_ae key key_len iv aad crypt tag :
  bytes iv → bytes aad → bytes crypt → bytes tag → length tag = 16%nat →
  (∀ plain, aes_gcm_ad kmalloc key key_len iv crypt aad tag = Ret plain ↔
     bytes plain ∧ aes_gcm_ae kmalloc key key_len iv plain aad = Ret (crypt, tag)) ∧
  ((∃ plain, aes_gcm_ad kmalloc key key_len iv crypt aad tag = Ret plain) ∨
   aes_gcm_ad kmalloc key key_len iv crypt aad tag = Err (-1)).
Proof.
  intros Hiv Ha Hc Ht Hl.
  destruct (aes_encrypt_init kmalloc key key_len) as [ctx|] eqn:Hctx; cycle 1.
  { unfold aes_gcm_ad, aes_gcm_ae, aes_gcm_init_hash_subkey. rewrite Hctx.
    split; [|by right]. intros plain. split; [done|]. by intros [_ ?]. }
  rewrite (aes_gcm_ad_eq _ _ _ ctx) by done. set (E := aes_encrypt ctx).
  destruct (bool_decide_reflect (tag = gcm_tag E iv aad crypt)) as [->|Hne].
  - split; [|left; by eexists]. intros plain. split.
    + intros [= <-]. split; [by apply (gcm_crypt_bytes E)|].
      rewrite (aes_gcm_ae_eq _ _ _ ctx) by (done || by apply (gcm_crypt_bytes E)).
      fold E. by rewrite (gcm_crypt_twice E).
    + intros [Hp Hae]. rewrite (aes_gcm_ae_eq _ _ _ ctx) in Hae by done. injection Hae as <- _.
      fold E. by rewrite (gcm_crypt_twice E).
  - split; [|by right]. intros plain. split; [done|]. intros [Hp Hae].
    rewrite (aes_gcm_ae_eq _ _ _ ctx) in Hae by done. injection Hae as <- <-. done.
Qed.
End properties.

Lemma gf_mult_field_witness :
  gf_mult [0x12;3;0;0;0;0;0;0;0;0;0;0;0;0;0;0xff] (gf_mult gf_one gf_one) =
    gf_mult (gf_mult [0x12;3;0;0;0;0;0;0;0;0;0;0;0;0;0;0xff] gf_one) gf_one.
Proof.
  apply (gf_mult_field [0x12;3;0;0;0;0;0;0;0;0;0;0;0;0;0;0xff] gf_one gf_one);
    (reflexivity || bytes_lit).
Defined.

Lemma aes_gcm_ae_witness :
  ∃ ctx, aes_encrypt_init (λ _, true) (replicate 16 1) 16 = Some ctx ∧
    aes_gcm_ae (λ _, true) (replicate 16 1) 16 (replicate 12 2) [3; 4] [5] =
      Ret (gcm_crypt (aes_encrypt ctx) (replicate 12 2) [3; 4],
           gcm_tag (aes_encrypt ctx) (replicate 12 2) [5]
             (gcm_crypt (aes_encrypt ctx) (replicate 12 2) [3; 4])).
Proof.
  destruct (aes_encrypt_init (λ _, true) (replicate 16 1) 16) as [ctx|] eqn:E1;
    [|rewrite aes_encrypt_init_eq in E1; discriminate].
  exists ctx. split; [done|].
  apply (aes_gcm_ae_refines_sp800_38d (λ _, true) (replicate 16 1) 16 ctx (replicate 12 2) [5] [3; 4]);
    [exact E1|bytes_lit..].
Defined.

Lemma aes_gcm_ad_witness :
  ∃ crypt tag,
    aes_gcm_ae (λ _, true) (replicate 16 1) 16 (replicate 12 2) [3; 4] [5] = Ret (crypt, tag) ∧
    aes_gcm_ad (λ _, true) (replicate 16 1) 16 (replicate 12 2) crypt [5] tag = Ret [3; 4].
Proof.
  let e := eval vm_compute in
    (aes_gcm_ae (λ _, true) (replicate 16 1) 16 (replicate 12 2) [3; 4] [5]) in
  match e with Ret (?c, ?t) => exists c, t end.
  split; [vm_compute; reflexivity|].
  apply (aes_gcm_ad_inverse_of_ae (λ _, true)); [bytes_lit..|reflexivity|].
  split; [bytes_lit|vm_compute; reflexivity].
Defined.
