(* ===== verification/Ccmp.v ===== *)
(** * CCMP frame protection: [core/crypto/ccmp.c]

    A frame is the list of bytes from its MAC header on.  [amsdu_mode] is what
    [rtw_registrypriv_amsdu_mode(padapter)] returns.  A buffer that
    [os_malloc] returns starts as zeros in the model; every byte of it that is
    read was written before. *)
From S2P Require Import Prelude Aes AesCorrect CryptoWrap Blocks Ccm.

Definition ETH_ALEN : nat := 6.
Definition WLAN_FC_TODS : Z := 0x0100.
Definition WLAN_FC_FROMDS : Z := 0x0200.
Definition WLAN_FC_RETRY : Z := 0x0800.
Definition WLAN_FC_PWRMGT : Z := 0x1000.
Definition WLAN_FC_MOREDATA : Z := 0x2000.
Definition WLAN_FC_ISWEP : Z := 0x4000.
Definition WLAN_FC_ORDER : Z := 0x8000.
Definition WLAN_FC_TYPE_MGMT : Z := 0x0000.
Definition WLAN_FC_TYPE_DATA : Z := 0x0008.
Definition WLAN_FC_STYPE_QOS_DATA : Z := 0x0080.
Definition WLAN_FC_GET_TYPE (fc : Z) : Z := fc .& 0x000c.
Definition WLAN_FC_GET_STYPE (fc : Z) : Z := fc .& 0x00f0.
Definition RTW_AMSDU_MODE_SPP : Z := 1.

(** A [NULL] result. *)
Definition NULL : Z := 0.

Definition fc_addr4 (fc : Z) : bool :=
  fc .& (WLAN_FC_TODS .| WLAN_FC_FROMDS) =? WLAN_FC_TODS .| WLAN_FC_FROMDS.
Definition fc_qos (fc : Z) : bool :=
  (WLAN_FC_GET_TYPE fc =? WLAN_FC_TYPE_DATA)
  && negb (WLAN_FC_GET_STYPE fc .& WLAN_FC_STYPE_QOS_DATA =? 0).

(** The six bytes of the packet number, most significant first, out of the
    eight bytes of the CCMP header at [data]. *)
Definition ccmp_get_pn (data : list Z) : list Z :=
  [data.[7]; data.[6]; data.[5]; data.[4]; data.[1]; data.[0]].

(** [x &= ~m] is [Z.ldiff].  The first component is the [aad_len] bytes of
    [aad], the second is [nonce]. *)
Definition ccmp_aad_nonce (amsdu_mode : Z) (hdr data : list Z) : list Z * list Z :=
  let fc := RTW_GET_LE16 hdr in
  let addr4 := fc_addr4 fc in
  let qos := fc_qos fc in
  let nonce0 :=
    if qos then (drop (24 + if addr4 then ETH_ALEN else 0) hdr).[0] .& 0x0f
    else if WLAN_FC_GET_TYPE fc =? WLAN_FC_TYPE_DATA then 0
    else if WLAN_FC_GET_TYPE fc =? WLAN_FC_TYPE_MGMT then 0x10 else 0 in
  let fc :=
    if WLAN_FC_GET_TYPE fc =? WLAN_FC_TYPE_DATA then
      let fc := Z.ldiff fc 0x0070 in if qos then Z.ldiff fc WLAN_FC_ORDER else fc
    else fc in
  let fc := Z.ldiff fc (WLAN_FC_RETRY .| WLAN_FC_PWRMGT .| WLAN_FC_MOREDATA) in
  let fc := fc .| WLAN_FC_ISWEP in
  let aad := RTW_PUT_LE16 fc in
  let aad := aad ++ take (3 * ETH_ALEN) (drop 4 hdr) in
  let seq := RTW_GET_LE16 (drop 22 hdr) in
  let seq := Z.ldiff seq 0xfff0 in
  let aad := aad ++ RTW_PUT_LE16 seq in
  let aad := aad ++ take (if addr4 then ETH_ALEN else 0) (drop 24 hdr) in
  let aad :=
    if qos then
      let pos0 := (drop (24 + if addr4 then ETH_ALEN else 0) hdr).[0] in
      let pos0 := Z.ldiff pos0 0x70 in
      let pos0 := if amsdu_mode =? RTW_AMSDU_MODE_SPP then pos0 else Z.ldiff pos0 0x80 in
      aad ++ [pos0; 0]
    else aad in
  let nonce := nonce0 :: take ETH_ALEN (drop 10 hdr)
    ++ [data.[7]; data.[6]; data.[5]; data.[4]; data.[1]; data.[0]] in
  (aad, nonce).

(** [a3] is [NULL] or an address. *)
Definition ccmp_aad_nonce_pv1 (hdr a1 a2 : list Z) (a3 : option (list Z)) (pn : list Z)
    : list Z * list Z :=
  let fc := RTW_GET_LE16 hdr in
  let type := (fc .& 0x1c) >> 2 in
  let nonce0 := if type =? 1 then 0x20 .| 0x10 else 0x20 in
  let fc := Z.ldiff fc 0xec00 in
  let fc := fc .| 0x1000 in
  let aad := RTW_PUT_LE16 fc in
  let aad :=
    if (type =? 0) || (type =? 3) then
      let aad := aad ++ take ETH_ALEN a1 ++ take ETH_ALEN a2 in
      let sc := if type =? 0 then drop (2 + 2 + ETH_ALEN) hdr else drop (2 + 2 * ETH_ALEN) hdr in
      let aad := aad ++ [sc.[0] .& 0x0f; 0] in
      match a3 with Some a3 => aad ++ take ETH_ALEN a3 | None => aad end
    else aad in
  (aad, nonce0 :: take ETH_ALEN a2 ++ [pn.[5]; pn.[4]; pn.[3]; pn.[2]; pn.[1]; pn.[0]]).

(** [hdr->frame_control |= host_to_le16(bit)]. *)
Definition set_fc (bit : Z) (frame : list Z) : list Z :=
  memcpy frame 0 (RTW_PUT_LE16 (RTW_GET_LE16 frame .| bit)).

(** The CCMP header built from a packet number. *)
Definition ccmp_hdr (pn : list Z) (keyid : Z) : list Z :=
  [pn.[5]; pn.[4]; 0x00; u8 (0x20 .| (keyid << 6)); pn.[3]; pn.[2]; pn.[1]; pn.[0]].

Section alloc.
Context (kmalloc : Z → bool) (amsdu_mode : Z).

(** [ccmp_decrypt] and [ccmp_256_decrypt] differ in the key length and the
    length of the MIC.  [data] is the memory at the pointer, [data_len] the
    length that is passed; the result is the buffer and [*decrypted_len]. *)
Definition ccmp_decrypt_with (tk_len : Z) (M : nat) (tk hdr data : list Z) (data_len : Z)
    : cres (list Z * nat) :=
  if data_len <? 8 + Z.of_nat M then Err NULL else
  if negb (kmalloc (data_len + Z.of_nat AES_BLOCK_SIZE)) then Err NULL else
  if Z.of_nat (length data) <? data_len then Oob else
  let data_len := Z.to_nat data_len in
  let plain := memset (data_len + AES_BLOCK_SIZE) 0 in
  let mlen := (data_len - 8 - M)%nat in
  let '(aad, nonce) := ccmp_aad_nonce amsdu_mode hdr data in
  match aes_ccm_ad kmalloc tk tk_len nonce M (take mlen (drop 8 data)) aad
          (take M (drop (8 + mlen) data)) plain with
  | Oob => Oob
  | Err _ => Err NULL
  | Ret plain => Ret (plain, mlen)
  end.
Definition ccmp_decrypt := ccmp_decrypt_with 16 8.
Definition ccmp_256_decrypt := ccmp_decrypt_with 32 16.

(** Likewise the two encryption functions; [pn] is [NULL] when the frame
    already carries the CCMP header.  The result is the buffer and
    [*encrypted_len]. *)
Definition ccmp_encrypt_with (tk_len : Z) (M : nat) (tk frame : list Z) (len hdrlen : nat)
    (pn : option (list Z)) (keyid : Z) : cres (list Z * nat) :=
  if (len <? hdrlen)%nat || (hdrlen <? 24)%nat then Err NULL else
  let plen := (len - hdrlen)%nat in
  let size := (hdrlen + 8 + plen + M + AES_BLOCK_SIZE)%nat in
  if negb (kmalloc (Z.of_nat size)) then Err NULL else
  if (length frame <? len + match pn with None => 8 | Some _ => 0 end)%nat then Oob else
  let crypt := memset size 0 in
  let* (crypt, pdata) :=
    match pn with
    | None =>
        let* crypt := buf_write crypt 0 (take (hdrlen + 8) frame) in
        Ret (set_fc WLAN_FC_ISWEP crypt, drop (hdrlen + 8) frame)
    | Some pn =>
        let* crypt := buf_write crypt 0 (take hdrlen frame) in
        let* crypt := buf_write (set_fc WLAN_FC_ISWEP crypt) hdrlen (ccmp_hdr pn keyid) in
        Ret (crypt, drop hdrlen frame)
    end in
  let pos := (hdrlen + 8)%nat in
  let '(aad, nonce) := ccmp_aad_nonce amsdu_mode crypt (drop hdrlen crypt) in
  match aes_ccm_ae kmalloc tk tk_len nonce M (take plen pdata) aad crypt pos (pos + plen) with
  | Oob => Oob
  | Err _ => Err NULL
  | Ret crypt => Ret (crypt, hdrlen + 8 + plen + M)%nat
  end.
Definition ccmp_encrypt := ccmp_encrypt_with 16 8.
Definition ccmp_256_encrypt := ccmp_encrypt_with 32 16.

Definition ccmp_encrypt_pv1 (tk a1 a2 : list Z) (a3 : option (list Z)) (frame : list Z)
    (len hdrlen : nat) (pn : list Z) : cres (list Z * nat) :=
  if (len <? hdrlen)%nat || (hdrlen <? 12)%nat then Err NULL else
  let plen := (len - hdrlen)%nat in
  let size := (hdrlen + plen + 8 + AES_BLOCK_SIZE)%nat in
  if negb (kmalloc (Z.of_nat size)) then Err NULL else
  if (length frame <? len)%nat then Oob else
  let* crypt := buf_write (memset size 0) 0 (take hdrlen frame) in
  let crypt := set_fc 0x1000 crypt in
  let pos := hdrlen in
  let '(aad, nonce) := ccmp_aad_nonce_pv1 crypt a1 a2 a3 pn in
  match aes_ccm_ae kmalloc tk 16 nonce 8 (take plen (drop hdrlen frame)) aad crypt pos (pos + plen) with
  | Oob => Oob
  | Err _ => Err NULL
  | Ret crypt => Ret (crypt, hdrlen + plen + 8)%nat
  end.
End alloc.

(** ** What the associated data and the nonce depend on *)
Lemma take_drop_take {A} m n k (l : list A) :
  (m + n ≤ k)%nat → take n (drop m (take k l)) = take n (drop m l).
Proof. intros H. rewrite skipn_firstn_comm, take_take. f_equal. lia. Qed.
Lemma aget_drop_take m i k l : (m + i < k)%nat → (drop m (take k l)).[i] = (drop m l).[i].
Proof. intros H. by rewrite !aget_drop, aget_take. Qed.

Lemma RTW_GET_LE16_take m k l : (m + 2 ≤ k)%nat → RTW_GET_LE16 (drop m (take k l)) = RTW_GET_LE16 (drop m l).
Proof. intros H. unfold RTW_GET_LE16. by rewrite !aget_drop_take by lia. Qed.

Lemma ccmp_aad_nonce_local mode hdr data :
  ccmp_aad_nonce mode (take 32 hdr) (take 8 data) = ccmp_aad_nonce mode hdr data.
Proof.
  unfold ccmp_aad_nonce, ETH_ALEN.
  pose proof (RTW_GET_LE16_take 0 32 hdr ltac:(lia)) as Hfc. rewrite !drop_0 in Hfc.
  rewrite Hfc, (RTW_GET_LE16_take 22) by lia.
  rewrite (take_drop_take 4 _ 32 hdr), (take_drop_take 10 _ 32 hdr) by lia.
  destruct (fc_addr4 (RTW_GET_LE16 hdr)).
  - rewrite (aget_drop_take (24 + 6) 0 32 hdr), (take_drop_take 24 _ 32 hdr) by lia.
    by rewrite !(aget_take data 8) by lia.
  - rewrite (aget_drop_take (24 + 0) 0 32 hdr), (take_drop_take 24 _ 32 hdr) by lia.
    by rewrite !(aget_take data 8) by lia.
Qed.

Lemma ccmp_aad_nonce_ext mode hdr hdr' data data' :
  take 32 hdr = take 32 hdr' → take 8 data = take 8 data' →
  ccmp_aad_nonce mode hdr data = ccmp_aad_nonce mode hdr' data'.
Proof.
  intros H1 H2. rewrite <- (ccmp_aad_nonce_local _ hdr), H1, H2. apply ccmp_aad_nonce_local.
Qed.

Lemma ccmp_aad_nonce_length mode hdr data :
  (16 ≤ length hdr)%nat →
  (length (ccmp_aad_nonce mode hdr data).1 ≤ 30)%nat ∧
  length (ccmp_aad_nonce mode hdr data).2 = 13%nat.
Proof.
  intros H. unfold ccmp_aad_nonce, ETH_ALEN. cbn [fst snd]. split.
  - set (fc := RTW_GET_LE16 hdr).
    assert (∀ (a : bool) pre, (length pre ≤ 22)%nat → ∀ (q : bool) x y,
      (length (if q then (pre ++ take (if a then 6 else 0) (drop 24 hdr)) ++ [x; y]
               else pre ++ take (if a then 6 else 0) (drop 24 hdr)) ≤ 30)%nat) as Hb.
    { intros a pre Hp q x y. destruct q, a; rewrite !length_app, ?length_take; cbn [length]; lia. }
    apply Hb. rewrite !length_app, length_take. unfold RTW_PUT_LE16. cbn [length]. lia.
  - cbn [length]. rewrite length_app, length_take, length_drop. cbn [length]. lia.
Qed.

(** ** The transmitted frame *)
Section frames.
Context (mode : Z).

Lemma set_fc_app bit a b : (2 ≤ length a)%nat → set_fc bit (a ++ b) = set_fc bit a ++ b.
Proof.
  intros H. unfold set_fc, RTW_GET_LE16, RTW_PUT_LE16. do 2 (destruct a as [|? a]; [cbn in H; lia|]).
  done.
Qed.
Lemma length_set_fc bit a : length (set_fc bit a) = length a.
Proof. apply length_memcpy. Qed.

Definition ccmp_frame_hdr (frame : list Z) (hdrlen : nat) : list Z :=
  set_fc WLAN_FC_ISWEP (take hdrlen frame).
Definition ccmp_frame_iv (frame : list Z) (hdrlen : nat) (pn : option (list Z)) (keyid : Z) : list Z :=
  match pn with None => take 8 (drop hdrlen frame) | Some pn => ccmp_hdr pn keyid end.
Definition ccmp_frame_payload (frame : list Z) (len hdrlen : nat) (pn : option (list Z)) : list Z :=
  take (len - hdrlen) (drop (hdrlen + match pn with None => 8 | Some _ => 0 end) frame).
End frames.

Section encrypt_facts.
Context (kmalloc : Z → bool) (mode : Z) (Hmem : ∀ n, kmalloc n = true).
Context (tk_len : Z) (M : nat) (HM : (2 ≤ M ≤ 16)%nat) (tk : list Z) (ctx : aes_ctx).
Context (Hctx : aes_encrypt_init kmalloc tk tk_len = Some ctx).
Let E := aes_encrypt ctx.

Lemma ccmp_encrypt_with_eq frame len hdrlen pn keyid :
  (24 ≤ hdrlen ≤ len)%nat →
  (len + match pn with None => 8 | Some _ => 0 end ≤ length frame)%nat →
  let hdr := ccmp_frame_hdr frame hdrlen in
  let iv := ccmp_frame_iv frame hdrlen pn keyid in
  let payload := ccmp_frame_payload frame len hdrlen pn in
  let aad := (ccmp_aad_nonce mode (hdr ++ iv) iv).1 in
  let nonce := (ccmp_aad_nonce mode (hdr ++ iv) iv).2 in
  length hdr = hdrlen ∧ length iv = 8%nat ∧ length payload = (len - hdrlen)%nat ∧
  ∃ rest,
  ccmp_encrypt_with kmalloc mode tk_len M tk frame len hdrlen pn keyid =
    Ret (hdr ++ iv ++ ccm_crypt E nonce payload ++ ccm_tag E M nonce aad payload ++ rest,
         hdrlen + 8 + (len - hdrlen) + M)%nat.
Proof using Hmem HM Hctx.
  intros Hh Hf hdr iv payload aad nonce.
  assert (length hdr = hdrlen) as Lh.
  { unfold hdr, ccmp_frame_hdr. rewrite length_set_fc, length_take. lia. }
  assert (length iv = 8%nat) as Li.
  { unfold iv, ccmp_frame_iv. destruct pn; [done|]. rewrite length_take, length_drop. lia. }
  assert (length payload = (len - hdrlen)%nat) as Lp.
  { unfold payload, ccmp_frame_payload. rewrite length_take, length_drop. lia. }
  split; [done|]. split; [done|]. split; [done|].
  unfold ccmp_encrypt_with. rewrite (proj2 (Nat.ltb_ge len hdrlen)), (proj2 (Nat.ltb_ge hdrlen 24)) by lia.
  cbn [orb]. rewrite Hmem, (proj2 (Nat.ltb_ge (length frame) _)) by lia. cbn [negb].
  set (size := (hdrlen + 8 + (len - hdrlen) + M + AES_BLOCK_SIZE)%nat).
  set (z := memset (size - hdrlen - 8) 0).
  assert (match pn with
    | None =>
        let* crypt := buf_write (memset size 0) 0 (take (hdrlen + 8) frame) in
        Ret (set_fc WLAN_FC_ISWEP crypt, drop (hdrlen + 8) frame)
    | Some pn =>
        let* crypt := buf_write (memset size 0) 0 (take hdrlen frame) in
        let* crypt := buf_write (set_fc WLAN_FC_ISWEP crypt) hdrlen (ccmp_hdr pn keyid) in
        Ret (crypt, drop hdrlen frame)
    end = Ret (hdr ++ iv ++ z, drop (hdrlen + match pn with None => 8 | Some _ => 0 end) frame)) as ->.
  { unfold memset. destruct pn as [pn|].
    - rewrite buf_write_ok by (rewrite length_take, length_replicate; lia). cbn [cbind].
      rewrite take_0, app_nil_l, length_take, Nat.min_l, Nat.add_0_l, drop_replicate by lia.
      rewrite set_fc_app by (rewrite length_take; lia). fold (ccmp_frame_hdr frame hdrlen). fold hdr.
      rewrite buf_write_ok by (rewrite length_app, Lh, length_replicate; cbn; lia). cbn [cbind].
      rewrite take_app_length' by done. rewrite drop_app_ge by (rewrite Lh; lia).
      rewrite Lh, drop_replicate. rewrite Nat.add_0_r. do 3 f_equal. unfold iv, ccmp_frame_iv. f_equal.
      unfold z, memset. f_equal. cbn. lia.
    - rewrite buf_write_ok by (rewrite length_take, length_replicate; lia). cbn [cbind].
      rewrite take_0, app_nil_l, length_take, Nat.min_l, Nat.add_0_l, drop_replicate by lia.
      rewrite <- take_take_drop, <- app_assoc, set_fc_app by (rewrite length_take; lia).
      do 4 f_equal. unfold z, memset. f_equal. lia. }
  cbn [cbind]. rewrite drop_app_length' by done.
  rewrite (ccmp_aad_nonce_ext mode _ (hdr ++ iv) _ iv); cycle 1.
  { rewrite app_assoc, take_app_le by (rewrite length_app; lia). done. }
  { by rewrite take_app_le by lia. }
  destruct (ccmp_aad_nonce mode (hdr ++ iv) iv) as [aad' nonce'] eqn:Han.
  destruct (ccmp_aad_nonce_length mode (hdr ++ iv) iv) as [Ha Hn]; [rewrite length_app; lia|].
  rewrite Han in Ha, Hn. cbn [fst snd] in Ha, Hn.
  fold (ccmp_frame_payload frame len hdrlen pn). fold payload.
  rewrite <- Lp.
  assert (length (hdr ++ iv ++ z) = size) as Ls.
  { rewrite !length_app, Lh, Li. unfold z, memset. rewrite length_replicate. unfold size. lia. }
  pose proof (Nat.div_mod_eq (length payload + 15) 16). pose proof (Nat.mod_upper_bound (length payload + 15) 16).
  destruct (aes_ccm_ae_eq kmalloc tk tk_len ctx Hctx nonce' aad' M Hn Ha HM payload (hdr ++ iv ++ z) (hdrlen + 8))
    as (rest & -> & Hr); [rewrite Ls; unfold size, AES_BLOCK_SIZE; lia..|].
  exists rest. unfold aad, nonce. cbn [fst snd]. f_equal. f_equal.
  rewrite (app_assoc hdr iv z), take_app_length' by (rewrite length_app; lia). by rewrite <- app_assoc.
Qed.
End encrypt_facts.

Section decrypt_facts.
Context (kmalloc : Z → bool) (mode : Z) (Hmem : ∀ n, kmalloc n = true).
Context (tk_len : Z) (M : nat) (HM : (2 ≤ M ≤ 16)%nat) (tk : list Z) (ctx : aes_ctx).
Context (Hctx : aes_encrypt_init kmalloc tk tk_len = Some ctx).
Let E := aes_encrypt ctx.

Lemma ccmp_decrypt_with_eq hdr data data_len :
  (16 ≤ length hdr)%nat → bytes data →
  8 + Z.of_nat M ≤ data_len ≤ Z.of_nat (length data) →
  let mlen := (Z.to_nat data_len - 8 - M)%nat in
  let c := take mlen (drop 8 data) in
  let t := take M (drop (8 + mlen) data) in
  let aad := (ccmp_aad_nonce mode hdr data).1 in
  let nonce := (ccmp_aad_nonce mode hdr data).2 in
  ∃ rest,
  ccmp_decrypt_with kmalloc mode tk_len M tk hdr data data_len =
    if bool_decide (t = ccm_tag E M nonce aad (ccm_crypt E nonce c))
    then Ret (ccm_crypt E nonce c ++ rest, mlen) else Err NULL.
Proof using Hmem HM Hctx.
  intros Hh Hb Hd mlen c t aad nonce.
  unfold ccmp_decrypt_with. rewrite (proj2 (Z.ltb_ge data_len _)), Hmem by lia. cbn [negb].
  rewrite (proj2 (Z.ltb_ge (Z.of_nat (length data)) _)) by lia.
  destruct (ccmp_aad_nonce_length mode hdr data Hh) as [Ha Hn]. unfold aad, nonce.
  destruct (ccmp_aad_nonce mode hdr data) as [aad' nonce']. cbn [fst snd] in *.
  fold mlen c t.
  assert (length c = mlen) as Lc by (unfold c, mlen; rewrite length_take, length_drop; lia).
  assert (length t = M) as Lt by (unfold t, mlen; rewrite length_take, length_drop; lia).
  assert (bytes t) as Bt by (unfold t; auto with machine).
  pose proof (Nat.div_mod_eq (length c + 15) 16). pose proof (Nat.mod_upper_bound (length c + 15) 16).
  destruct (aes_ccm_ad_eq kmalloc tk tk_len ctx Hctx nonce' aad' M Hn Ha HM c t
    (memset (Z.to_nat data_len + AES_BLOCK_SIZE) 0) Lt Bt) as (rest & -> & _).
  { unfold memset. rewrite length_replicate. unfold AES_BLOCK_SIZE, mlen in *. lia. }
  exists rest. unfold ccm_accepts. fold E. by destruct (bool_decide _).
Qed.
End decrypt_facts.

(** ** Fields that a retransmission may change *)
(** Clear Retry, Power Management and More Data; set Protected. *)
Definition fc_norm (fc : Z) : Z :=
  Z.ldiff fc (WLAN_FC_RETRY .| WLAN_FC_PWRMGT .| WLAN_FC_MOREDATA) .| WLAN_FC_ISWEP.

Lemma fc_norm_land fc k : Z.land 0x7800 k = 0 → fc_norm fc .& k = fc .& k.
Proof.
  intros H. apply Z.bits_inj'. intros i Hi.
  assert (Z.testbit 0x7800 i && Z.testbit k i = false) as Hk by (by rewrite <- Z.land_spec, H, Z.testbit_0_l).
  unfold fc_norm. change 0x7800 with (0x3800 .| 0x4000) in Hk.
  change (WLAN_FC_RETRY .| WLAN_FC_PWRMGT .| WLAN_FC_MOREDATA) with 0x3800.
  change WLAN_FC_ISWEP with 0x4000. rewrite Z.lor_spec in Hk.
  rewrite !Z.land_spec, Z.lor_spec, Z.ldiff_spec.
  destruct (Z.testbit fc i), (Z.testbit 0x3800 i), (Z.testbit 0x4000 i), (Z.testbit k i);
    done.
Qed.

Lemma fc_norm_ldiff fc a :
  Z.ldiff (Z.ldiff (fc_norm fc) a) (WLAN_FC_RETRY .| WLAN_FC_PWRMGT .| WLAN_FC_MOREDATA) .| WLAN_FC_ISWEP =
  Z.ldiff (Z.ldiff fc a) (WLAN_FC_RETRY .| WLAN_FC_PWRMGT .| WLAN_FC_MOREDATA) .| WLAN_FC_ISWEP.
Proof.
  apply Z.bits_inj'. intros i Hi. unfold fc_norm.
  change (WLAN_FC_RETRY .| WLAN_FC_PWRMGT .| WLAN_FC_MOREDATA) with 0x3800.
  change WLAN_FC_ISWEP with 0x4000.
  rewrite !Z.lor_spec, !Z.ldiff_spec, !Z.lor_spec, !Z.ldiff_spec.
  destruct (Z.testbit fc i), (Z.testbit 0x3800 i), (Z.testbit 0x4000 i), (Z.testbit a i); done.
Qed.

Lemma fc_norm_eq_facts fc fc' :
  fc_norm fc = fc_norm fc' →
  fc_addr4 fc = fc_addr4 fc' ∧ fc_qos fc = fc_qos fc' ∧ WLAN_FC_GET_TYPE fc = WLAN_FC_GET_TYPE fc' ∧
  ∀ a, Z.ldiff (Z.ldiff fc a) (WLAN_FC_RETRY .| WLAN_FC_PWRMGT .| WLAN_FC_MOREDATA) .| WLAN_FC_ISWEP =
       Z.ldiff (Z.ldiff fc' a) (WLAN_FC_RETRY .| WLAN_FC_PWRMGT .| WLAN_FC_MOREDATA) .| WLAN_FC_ISWEP.
Proof.
  intros H.
  assert (∀ k, Z.land 0x7800 k = 0 → fc .& k = fc' .& k) as Hk.
  { intros k Hk. by rewrite <- (fc_norm_land fc k Hk), H, fc_norm_land. }
  unfold fc_addr4, fc_qos, WLAN_FC_GET_TYPE, WLAN_FC_GET_STYPE, WLAN_FC_TODS, WLAN_FC_FROMDS.
  split; [by rewrite Hk|]. split; [by rewrite !(Hk 0x000c), !(Hk 0x00f0)|]. split; [by apply Hk|].
  intros a. by rewrite <- fc_norm_ldiff, H, fc_norm_ldiff.
Qed.

Lemma ccmp_aad_nonce_mutable mode hdr hdr' data :
  fc_norm (RTW_GET_LE16 hdr) = fc_norm (RTW_GET_LE16 hdr') →
  Z.ldiff (RTW_GET_LE16 (drop 22 hdr)) 0xfff0 = Z.ldiff (RTW_GET_LE16 (drop 22 hdr')) 0xfff0 →
  take 18 (drop 4 hdr) = take 18 (drop 4 hdr') →
  take 8 (drop 24 hdr) = take 8 (drop 24 hdr') →
  ccmp_aad_nonce mode hdr data = ccmp_aad_nonce mode hdr' data.
Proof.
  intros Hfc Hseq Haddr Hx. destruct (fc_norm_eq_facts _ _ Hfc) as (H4 & Hq & Ht & Hl).
  assert (∀ i, (i < 8)%nat → (drop (24 + i) hdr).[0] = (drop (24 + i) hdr').[0]) as Hi.
  { intros i Hi. rewrite !aget_drop, Nat.add_0_r, <- !aget_drop.
    by rewrite <- (aget_take (drop 24 hdr) 8), Hx, aget_take by done. }
  assert (∀ n, (n ≤ 8)%nat → take n (drop 24 hdr) = take n (drop 24 hdr')) as Hn.
  { intros n Hn. rewrite <- (Nat.min_l n 8), <- !take_take by done. by rewrite Hx. }
  assert (take 6 (drop 10 hdr) = take 6 (drop 10 hdr')) as H2.
  { change 10%nat with (4 + 6)%nat. rewrite <- !drop_drop.
    rewrite <- (take_drop_take 6 6 18 (drop 4 hdr)), <- (take_drop_take 6 6 18 (drop 4 hdr')) by lia.
    by rewrite Haddr. }
  unfold ccmp_aad_nonce, ETH_ALEN. rewrite H4, Hq, Ht, Hseq, H2. change (3 * 6)%nat with 18%nat. rewrite Haddr.
  assert (∀ b : bool, (drop (24 + (if b then 6 else 0)) hdr).[0] =
    (drop (24 + (if b then 6 else 0)) hdr').[0]) as Hb by (intros b; apply Hi; destruct b; lia).
  rewrite Hb.
  rewrite (Hn (if fc_addr4 (RTW_GET_LE16 hdr') then 6 else 0)%nat) by (case_match; lia).
  set (fc := RTW_GET_LE16 hdr) in *. set (fc' := RTW_GET_LE16 hdr') in *.
  assert (∀ (b : bool) (q : bool),
    Z.ldiff (if b then (if q then Z.ldiff (Z.ldiff fc 0x0070) WLAN_FC_ORDER else Z.ldiff fc 0x0070) else fc)
      (WLAN_FC_RETRY .| WLAN_FC_PWRMGT .| WLAN_FC_MOREDATA) .| WLAN_FC_ISWEP =
    Z.ldiff (if b then (if q then Z.ldiff (Z.ldiff fc' 0x0070) WLAN_FC_ORDER else Z.ldiff fc' 0x0070) else fc')
      (WLAN_FC_RETRY .| WLAN_FC_PWRMGT .| WLAN_FC_MOREDATA) .| WLAN_FC_ISWEP) as Hout.
  { intros [] []; [|apply Hl|exact Hfc|exact Hfc].
    assert (∀ x, Z.ldiff (Z.ldiff x 0x0070) WLAN_FC_ORDER = Z.ldiff x 0x8070) as Hm.
    { intros x. apply Z.bits_inj'. intros i _. change 0x8070 with (0x70 .| 0x8000).
      rewrite !Z.ldiff_spec, Z.lor_spec. change WLAN_FC_ORDER with 0x8000.
      destruct (Z.testbit x i), (Z.testbit 0x70 i), (Z.testbit 0x8000 i); done. }
    rewrite !Hm. apply Hl. }
  by rewrite Hout.
Qed.

(** ** Bytes *)
Lemma set_fc_bytes bit l : (2 ≤ length l)%nat → bytes l → bytes (set_fc bit l).
Proof.
  intros Hl Hb. unfold set_fc. rewrite memcpy_eq by (cbn; lia).
  apply bytes_app; [auto with machine|]. apply bytes_app; [apply RTW_PUT_LE16_bytes|auto with machine].
Qed.
Lemma ccm_crypt_bytes E `{!BlockCipher E} nonce msg : bytes msg → bytes (ccm_crypt E nonce msg).
Proof.
  intros H. apply xor_bytes_uint; [done|]. unfold stream. apply Forall_concat, List.Forall_forall.
  intros b Hin. apply List.in_map_iff in Hin as (i & <- & _). apply bc_bytes.
Qed.
Lemma ccm_tag_bytes E `{!BlockCipher E} M nonce aad msg :
  length nonce = 13%nat → bytes (ccm_tag E M nonce aad msg).
Proof.
  intros Hn. apply bytes_take, xor_bytes_uint; [|apply bc_bytes]. by apply (ccm_mac_block E).
Qed.
Lemma ccmp_hdr_bytes pn keyid : bytes pn → bytes (ccmp_hdr pn keyid).
Proof.
  intros Hp. unfold ccmp_hdr. repeat (constructor; [auto with machine|]). constructor.
Qed.

(** The two key sizes of the C functions: CCMP-128 with an 8-byte MIC and
    CCMP-256 with a 16-byte MIC. *)
Definition ccmp_variant (tk_len : Z) (M : nat) : Prop :=
  (tk_len = 16 ∧ M = 8%nat) ∨ (tk_len = 32 ∧ M = 16%nat).
Lemma ccmp_variant_init kmalloc tk_len M tk :
  ccmp_variant tk_len M → (∀ n, kmalloc n = true) →
  (2 ≤ M ≤ 16)%nat ∧ ∃ ctx, aes_encrypt_init kmalloc tk tk_len = Some ctx.
Proof.
  intros Hv Hmem. split; [destruct Hv as [[_ ->]|[_ ->]]; lia|].
  rewrite aes_encrypt_init_eq, Hmem. destruct Hv as [[-> _]|[-> _]]; by eexists.
Qed.

Lemma ccmp_frames_roundtrip kmalloc mode tk_len M tk frame len hdrlen pn keyid :
  ccmp_variant tk_len M → (∀ n, kmalloc n = true) →
  bytes frame → (24 ≤ hdrlen ≤ len)%nat →
  match pn with
  | None => (len + 8 ≤ length frame)%nat
  | Some pn => (len ≤ length frame)%nat ∧ length pn = 6%nat ∧ bytes pn
  end →
  ∃ enc, let n := (hdrlen + 8 + (len - hdrlen) + M)%nat in
    ccmp_encrypt_with kmalloc mode tk_len M tk frame len hdrlen pn keyid = Ret (enc, n) ∧
    (n ≤ length enc)%nat ∧
    take (hdrlen + 8) enc =
      set_fc WLAN_FC_ISWEP (take hdrlen frame) ++ ccmp_frame_iv frame hdrlen pn keyid ∧
    (∀ p, pn = Some p → ccmp_get_pn (drop hdrlen enc) = p) ∧
    ∃ plain, let data := drop hdrlen (take n enc) in
      ccmp_decrypt_with kmalloc mode tk_len M tk enc data (Z.of_nat (n - hdrlen)) =
        Ret (plain, len - hdrlen)%nat ∧
      take (len - hdrlen) plain = ccmp_frame_payload frame len hdrlen pn.
Proof.
  intros Hv Hmem Hbf Hh Hpn. destruct (ccmp_variant_init kmalloc _ _ tk Hv Hmem) as [HM [ctx Hctx]].
  assert (len + match pn with None => 8 | Some _ => 0 end ≤ length frame)%nat as Hf by (destruct pn; lia).
  destruct (ccmp_encrypt_with_eq kmalloc mode Hmem tk_len M HM tk ctx Hctx frame len hdrlen pn keyid Hh Hf)
    as (Lh & Li & Lp & rest & Henc).
  set (hdr := ccmp_frame_hdr frame hdrlen) in *. set (iv := ccmp_frame_iv _ _ _ _) in *.
  set (payload := ccmp_frame_payload _ _ _ _) in *. set (E := aes_encrypt ctx) in *.
  set (aad := (ccmp_aad_nonce mode (hdr ++ iv) iv).1) in *.
  set (nonce := (ccmp_aad_nonce mode (hdr ++ iv) iv).2) in *.
  destruct (ccmp_aad_nonce_length mode (hdr ++ iv) iv) as [_ Hn]; [rewrite length_app; lia|]. fold nonce in Hn.
  set (C := ccm_crypt E nonce payload) in *. set (T := ccm_tag E M nonce aad payload) in *.
  assert (length C = len - hdrlen)%nat as LC by (unfold C; by rewrite (length_ccm_crypt E)).
  assert (length T = M) as LT by (apply (length_ccm_tag E); (done || lia)).
  assert (bytes iv) as Bi.
  { unfold iv, ccmp_frame_iv. destruct pn as [p|]; [apply ccmp_hdr_bytes, Hpn|auto with machine]. }
  assert (bytes C) as BC.
  { apply (ccm_crypt_bytes E). unfold payload, ccmp_frame_payload. auto with machine. }
  assert (bytes T) as BT by (by apply (ccm_tag_bytes E)).
  eexists. cbv zeta. split; [exact Henc|].
  set (n := (hdrlen + 8 + (len - hdrlen) + M)%nat).
  assert (take n (hdr ++ iv ++ C ++ T ++ rest) = hdr ++ iv ++ C ++ T) as Htake.
  { rewrite !app_assoc, take_app_length'; [by rewrite <- !app_assoc|]. rewrite !length_app. unfold n. lia. }
  split.
  { rewrite !length_app. unfold n. lia. }
  split.
  { rewrite app_assoc, take_app_length' by (rewrite length_app; lia). done. }
  split.
  { intros p ->. destruct Hpn as (_ & Hlp & _). rewrite drop_app_length' by done.
    do 6 (destruct p as [|? p]; [done|]). by destruct p. }
  rewrite Htake, drop_app_length' by done.
  assert (length (iv ++ C ++ T) = n - hdrlen)%nat as LD by (rewrite !length_app; unfold n; lia).
  destruct (ccmp_decrypt_with_eq kmalloc mode Hmem tk_len M HM tk ctx Hctx (hdr ++ iv ++ C ++ T ++ rest)
    (iv ++ C ++ T) (Z.of_nat (n - hdrlen))) as (rest' & Hd).
  { rewrite length_app. lia. }
  { auto with machine. }
  { rewrite LD. unfold n. lia. }
  rewrite (ccmp_aad_nonce_ext mode _ (hdr ++ iv) _ iv) in Hd; cycle 1.
  { rewrite app_assoc, take_app_le by (rewrite length_app; lia). done. }
  { by rewrite take_app_le by lia. }
  fold E aad nonce in Hd. rewrite Nat2Z.id in Hd.
  replace (n - hdrlen - 8 - M)%nat with (len - hdrlen)%nat in Hd by (unfold n; lia).
  rewrite (drop_app_length' iv (C ++ T) 8 (eq_sym Li)), (take_app_length' C T) in Hd by done.
  rewrite (app_assoc iv C T) in Hd.
  rewrite (drop_app_length' (iv ++ C) T), (take_ge T) in Hd by (rewrite ?length_app; lia).
  assert (ccm_crypt E nonce C = payload) as HC by apply (ccm_crypt_twice E).
  rewrite HC in Hd. fold T in Hd.
  rewrite bool_decide_true in Hd by done. rewrite <- app_assoc in Hd.
  eexists. split; [exact Hd|]. by rewrite take_app_length'.
Qed.

(** Only the first [data_len] bytes of the body and 32 bytes of the header
    matter. *)
Lemma ccmp_decrypt_with_ext kmalloc mode tk_len M tk hdr hdr' data data' n :
  take 32 hdr = take 32 hdr' → take n data = take n data' → (n ≤ length data)%nat → (n ≤ length data')%nat →
  ccmp_decrypt_with kmalloc mode tk_len M tk hdr data (Z.of_nat n) =
  ccmp_decrypt_with kmalloc mode tk_len M tk hdr' data' (Z.of_nat n).
Proof.
  intros Hh Hd Hn Hn'. unfold ccmp_decrypt_with.
  destruct (Z.ltb_spec (Z.of_nat n) (8 + Z.of_nat M)); [done|]. destruct (negb _); [done|].
  rewrite !(proj2 (Z.ltb_ge _ _)) by lia. rewrite Nat2Z.id.
  assert (take 8 data = take 8 data') as H8.
  { rewrite <- (Nat.min_l 8 n), <- !take_take by lia. by rewrite Hd. }
  rewrite (ccmp_aad_nonce_ext mode hdr hdr' data data' Hh H8).
  set (mlen := (n - 8 - M)%nat).
  assert (take mlen (drop 8 data) = take mlen (drop 8 data')) as ->.
  { rewrite <- (take_drop_take 8 mlen n data), <- (take_drop_take 8 mlen n data') by (unfold mlen; lia).
    by rewrite Hd. }
  assert (take M (drop (8 + mlen) data) = take M (drop (8 + mlen) data')) as ->; [|done].
  rewrite <- (take_drop_take (8 + mlen) M n data), <- (take_drop_take (8 + mlen) M n data')
    by (unfold mlen; lia). by rewrite Hd.
Qed.

Section properties.
Context (kmalloc : Z → bool) (mode : Z).

(** C26: CCMP round trip, for CCMP-128 and CCMP-256, with the packet number
    passed separately or already in the frame: encryption returns the header
    with the Protected bit set, the CCMP header, the ciphertext and the MIC,
    without touching memory outside the buffer it allocated; decrypting that
    frame returns the payload, and the packet number read from it is the one
    that was passed. *)
Theorem ccmp_roundtrip tk_len M tk frame len hdrlen pn keyid :
  ccmp_variant tk_len M → (∀ n, kmalloc n = true) →
  bytes frame → (24 ≤ hdrlen ≤ len)%nat →
  match pn with
  | None => (len + 8 ≤ length frame)%nat
  | Some pn => (len ≤ length frame)%nat ∧ length pn = 6%nat ∧ bytes pn
  end →
  ∃ enc, let n := (hdrlen + 8 + (len - hdrlen) + M)%nat in
    ccmp_encrypt_with kmalloc mode tk_len M tk frame len hdrlen pn keyid = Ret (enc, n) ∧
    (n ≤ length enc)%nat ∧
    take (hdrlen + 8) enc =
      set_fc WLAN_FC_ISWEP (take hdrlen frame) ++ ccmp_frame_iv frame hdrlen pn keyid ∧
    (∀ p, pn = Some p → ccmp_get_pn (drop hdrlen enc) = p) ∧
    ∃ plain, let data := drop hdrlen (take n enc) in
      ccmp_decrypt_with kmalloc mode tk_len M tk enc data (Z.of_nat (n - hdrlen)) =
        Ret (plain, len - hdrlen)%nat ∧
      take (len - hdrlen) plain = ccmp_frame_payload frame len hdrlen pn.
Proof. apply ccmp_frames_roundtrip. Qed.

(** CCMP decryption is exact and memory-safe: on a frame body that is
    really there it returns the [mlen] decrypted bytes if the MIC in the frame
    is the RFC 3610 tag of them under the AAD and nonce built from the header,
    and [NULL] in every other case; a body shorter than CCMP header and MIC
    is refused. *)
Theorem ccmp_decrypt_exact tk_len M tk hdr data :
  ccmp_variant tk_len M → (∀ n, kmalloc n = true) →
  (16 ≤ length hdr)%nat → bytes data →
  let res := ccmp_decrypt_with kmalloc mode tk_len M tk hdr data (Z.of_nat (length data)) in
  ((length data < 8 + M)%nat ∧ res = Err NULL) ∨
  ∃ ctx, aes_encrypt_init kmalloc tk tk_len = Some ctx ∧
    let E := aes_encrypt ctx in
    let mlen := (length data - 8 - M)%nat in
    let '(aad, nonce) := ccmp_aad_nonce mode hdr data in
    let msg := ccm_crypt E nonce (take mlen (drop 8 data)) in
    (drop (8 + mlen) data = ccm_tag E M nonce aad msg ∧
     ∃ plain, res = Ret (plain, mlen) ∧ take mlen plain = msg) ∨
    (drop (8 + mlen) data ≠ ccm_tag E M nonce aad msg ∧ res = Err NULL).
Proof.
  intros Hv Hmem Hh Hb res. destruct (ccmp_variant_init kmalloc _ _ tk Hv Hmem) as [HM [ctx Hctx]].
  destruct (Nat.lt_ge_cases (length data) (8 + M)) as [Hs|Hs].
  { left. split; [done|]. unfold res, ccmp_decrypt_with. by rewrite (proj2 (Z.ltb_lt _ _)) by lia. }
  right. exists ctx. split; [done|]. cbv zeta.
  destruct (ccmp_decrypt_with_eq kmalloc mode Hmem tk_len M HM tk ctx Hctx hdr data
    (Z.of_nat (length data)) Hh Hb ltac:(lia)) as (rest & Hd). fold res in Hd.
  destruct (ccmp_aad_nonce mode hdr data) as [aad nonce]. cbn [fst snd] in Hd.
  rewrite Nat2Z.id in Hd. set (mlen := (length data - 8 - M)%nat) in *.
  rewrite (take_ge (drop (8 + mlen) data)) in Hd by (rewrite length_drop; unfold mlen; lia).
  destruct (bool_decide_reflect (drop (8 + mlen) data =
    ccm_tag (aes_encrypt ctx) M nonce aad (ccm_crypt (aes_encrypt ctx) nonce (take mlen (drop 8 data))))).
  - left. split; [done|]. eexists. split; [exact Hd|]. apply take_app_length'.
    rewrite (length_ccm_crypt (aes_encrypt ctx)), length_take, length_drop. unfold mlen. lia.
  - right. by split.
Qed.

(** The CCMP nonce is flags, transmitter address and packet number, so
    under one key two frames of one transmitter share a nonce only if they
    share the packet number; the AAD fits the 30 bytes the code reserves; and
    neither depends on what a retransmission may change: the Retry, Power
    Management and More Data bits, the Protected bit and the sequence number. *)
Theorem ccmp_aad_nonce_wf hdr data :
  (16 ≤ length hdr)%nat →
  let '(aad, nonce) := ccmp_aad_nonce mode hdr data in
  (length aad ≤ 30)%nat ∧ length nonce = 13%nat ∧
  drop 1 nonce = take 6 (drop 10 hdr) ++ ccmp_get_pn data ∧
  ∀ hdr', fc_norm (RTW_GET_LE16 hdr) = fc_norm (RTW_GET_LE16 hdr') →
    Z.ldiff (RTW_GET_LE16 (drop 22 hdr)) 0xfff0 = Z.ldiff (RTW_GET_LE16 (drop 22 hdr')) 0xfff0 →
    take 18 (drop 4 hdr) = take 18 (drop 4 hdr') → take 8 (drop 24 hdr) = take 8 (drop 24 hdr') →
    ccmp_aad_nonce mode hdr' data = (aad, nonce).
Proof.
  intros Hh. pose proof (ccmp_aad_nonce_length mode hdr data Hh) as [Ha Hn].
  pose proof (λ hdr', ccmp_aad_nonce_mutable mode hdr hdr' data) as Hm.
  assert (drop 1 (ccmp_aad_nonce mode hdr data).2 = take 6 (drop 10 hdr) ++ ccmp_get_pn data) as Hd by done.
  destruct (ccmp_aad_nonce mode hdr data) as [aad nonce]. cbn [fst snd] in *.
  split_and!; [done..|]. intros hdr' H1 H2 H3 H4. symmetry. by apply Hm.
Qed.
End properties.

Lemma ccmp_roundtrip_witness :
  ∃ enc, ccmp_encrypt (λ _, true) 0 (replicate 16 1) (0x08 :: replicate 27 3) 28 24
           (Some [1; 2; 3; 4; 5; 6]) 0 = Ret (enc, 44%nat) ∧
    ccmp_get_pn (drop 24 enc) = [1; 2; 3; 4; 5; 6].
Proof.
  destruct (ccmp_roundtrip (λ _, true) 0 16 8 (replicate 16 1) (0x08 :: replicate 27 3) 28 24
    (Some [1; 2; 3; 4; 5; 6]) 0) as (enc & H1 & _ & _ & H2 & _).
  - by left.
  - done.
  - bytes_lit.
  - lia.
  - split; [cbn; lia|]. split; [done|bytes_lit].
  - exists enc. split; [exact H1|by apply H2].
Defined.

Lemma ccmp_decrypt_exact_witness :
  ccmp_decrypt (λ _, true) 0 (replicate 16 1) (replicate 24 0) (replicate 10 0) 10 = Err NULL.
Proof.
  destruct (ccmp_decrypt_exact (λ _, true) 0 16 8 (replicate 16 1) (replicate 24 0) (replicate 10 0))
    as [[_ H]|(ctx & H1 & H2)]; [by left|done|cbn; lia|bytes_lit|exact H|reflexivity].
Defined.

Lemma ccmp_aad_nonce_wf_witness :
  (length (ccmp_aad_nonce 0 (0x88 :: 0x03 :: replicate 30 0xff)%Z (replicate 8 7%Z)).1 ≤ 30)%nat.
Proof.
  pose proof (ccmp_aad_nonce_wf 0 (0x88 :: 0x03 :: replicate 30 0xff) (replicate 8 7) ltac:(cbn; lia)) as H.
  destruct (ccmp_aad_nonce _ _ _) as [aad nonce]. apply H.
Defined.
