(* ===== verification/Gcmp.v ===== *)
(** * GCMP frame protection: [core/crypto/gcmp.c] *)
From S2P Require Import Prelude Aes AesCorrect CryptoWrap Blocks Gcm Ccmp.

(** As [ccmp_aad_nonce], but the Protected bit is taken from the header and
    the nonce has no flags byte. *)
Definition gcmp_aad_nonce (amsdu_mode : Z) (hdr data : list Z) : list Z * list Z :=
  let fc := RTW_GET_LE16 hdr in
  let addr4 := fc_addr4 fc in
  let qos := fc_qos fc in
  let fc :=
    if WLAN_FC_GET_TYPE fc =? WLAN_FC_TYPE_DATA then
      let fc := Z.ldiff fc 0x0070 in if qos then Z.ldiff fc WLAN_FC_ORDER else fc
    else fc in
  let fc := Z.ldiff fc (WLAN_FC_RETRY .| WLAN_FC_PWRMGT .| WLAN_FC_MOREDATA) in
  let aad := RTW_PUT_LE16 fc in
  let aad := aad ++ take (3 * ETH_ALEN) (drop 4 hdr) in
  let seq := RTW_GET_LE16 (drop 22 hdr) in
  let seq := Z.ldiff seq 0xfff0 in
  let aad := aad ++ RTW_PUT_LE16 seq in
  let aad := aad ++ take (if addr4 then ETH_ALEN else 0) (drop 24 hdr) in
  let aad :=
    if qos then
      let pos0 := (drop (24 + if addr4 then ETH_ALEN else 0) hdr).[0] in
      let pos0 := Z.ldiff pos0 0x70 in
      let pos0 := if amsdu_mode =? RTW_AMSDU_MODE_SPP then pos0 else Z.ldiff pos0 0x80 in
      aad ++ [pos0; 0]
    else aad in
  (aad, take ETH_ALEN (drop 10 hdr)
          ++ [data.[7]; data.[6]; data.[5]; data.[4]; data.[1]; data.[0]]).

Section alloc.
Context (kmalloc : Z → bool) (amsdu_mode : Z).

(** [data] is the memory at the pointer, [data_len] the length passed. *)
Definition gcmp_decrypt (tk : list Z) (tk_len : Z) (hdr data : list Z) (data_len : Z)
    : cres (list Z * nat) :=
  if data_len <? 8 + 16 then Err NULL else
  if negb (kmalloc (data_len + Z.of_nat AES_BLOCK_SIZE)) then Err NULL else
  if Z.of_nat (length data) <? data_len then Oob else
  let data_len := Z.to_nat data_len in
  let plain := memset (data_len + AES_BLOCK_SIZE) 0 in
  let m := drop 8 data in
  let mlen := (data_len - 8 - 16)%nat in
  let '(aad, nonce) := gcmp_aad_nonce amsdu_mode hdr data in
  match aes_gcm_ad kmalloc tk tk_len nonce (take mlen m) aad (take 16 (drop mlen m)) with
  | Oob => Oob
  | Err _ => Err NULL
  | Ret p => let* plain := buf_write plain 0 p in Ret (plain, mlen)
  end.

(** [pn] is [NULL] when the frame already carries the GCMP header. *)
Definition gcmp_encrypt (tk : list Z) (tk_len : Z) (frame : list Z) (len hdrlen : nat)
    (pn : option (list Z)) (keyid : Z) : cres (list Z * nat) :=
  if (len <? hdrlen)%nat || (hdrlen <? 24)%nat then Err NULL else
  let plen := (len - hdrlen)%nat in
  let size := (hdrlen + 8 + plen + 16 + AES_BLOCK_SIZE)%nat in
  if negb (kmalloc (Z.of_nat size)) then Err NULL else
  if (length frame <? len + match pn with None => 8 | Some _ => 0 end)%nat then Oob else
  let crypt := memset size 0 in
  let* (crypt, pdata) :=
    match pn with
    | None =>
        let* crypt := buf_write crypt 0 (take (hdrlen + 8) frame) in
        Ret (crypt, drop (hdrlen + 8) frame)
    | Some pn =>
        let* crypt := buf_write crypt 0 (take hdrlen frame) in
        let* crypt := buf_write crypt hdrlen (ccmp_hdr pn keyid) in
        Ret (crypt, drop hdrlen frame)
    end in
  let pos := (hdrlen + 8)%nat in
  let '(aad, nonce) := gcmp_aad_nonce amsdu_mode crypt (drop hdrlen crypt) in
  match aes_gcm_ae kmalloc tk tk_len nonce (take plen pdata) aad with
  | Oob => Oob
  | Err _ => Err NULL
  | Ret (c, tag) =>
      let* crypt := buf_write crypt pos c in
      let* crypt := buf_write crypt (pos + plen) tag in
      Ret (crypt, hdrlen + 8 + plen + 16)%nat
  end.
End alloc.

(** ** Associated data and nonce *)
Lemma gcmp_aad_nonce_local mode hdr data :
  gcmp_aad_nonce mode (take 32 hdr) (take 8 data) = gcmp_aad_nonce mode hdr data.
Proof.
  unfold gcmp_aad_nonce, ETH_ALEN.
  pose proof (RTW_GET_LE16_take 0 32 hdr ltac:(lia)) as Hfc. rewrite !drop_0 in Hfc.
  rewrite Hfc, (RTW_GET_LE16_take 22) by lia.
  rewrite (take_drop_take 4 _ 32 hdr), (take_drop_take 10 _ 32 hdr) by lia.
  destruct (fc_addr4 (RTW_GET_LE16 hdr)).
  - rewrite (aget_drop_take (24 + 6) 0 32 hdr), (take_drop_take 24 _ 32 hdr) by lia.
    by rewrite !(aget_take data 8) by lia.
  - rewrite (aget_drop_take (24 + 0) 0 32 hdr), (take_drop_take 24 _ 32 hdr) by lia.
    by rewrite !(aget_take data 8) by lia.
Qed.

Lemma gcmp_aad_nonce_ext mode hdr hdr' data data' :
  take 32 hdr = take 32 hdr' → take 8 data = take 8 data' →
  gcmp_aad_nonce mode hdr data = gcmp_aad_nonce mode hdr' data'.
Proof.
  intros H1 H2. rewrite <- (gcmp_aad_nonce_local _ hdr), H1, H2. apply gcmp_aad_nonce_local.
Qed.

Lemma ldiff_uint w a b : 0 ≤ w → uint w a → uint w (Z.ldiff a b).
Proof.
  intros Hw Ha. apply uint_bits; [done| |].
  - apply Z.ldiff_nonneg. destruct Ha. lia.
  - intros i Hi. by rewrite Z.ldiff_spec, (uint_testbit w).
Qed.

Lemma gcmp_aad_nonce_bytes mode hdr data :
  bytes hdr → bytes data →
  bytes (gcmp_aad_nonce mode hdr data).1 ∧ bytes (gcmp_aad_nonce mode hdr data).2.
Proof.
  intros Hh Hd. unfold gcmp_aad_nonce. cbn [fst snd]. split.
  - assert (∀ pre (q : bool) x, bytes pre → is_u8 x → bytes (if q then pre ++ [x; 0] else pre)) as Hq.
    { intros pre q x Hp Hx. destruct q; [|done]. apply bytes_app; [done|].
      constructor; [done|]. constructor; [uint_lit|constructor]. }
    apply Hq.
    + repeat apply bytes_app; try apply RTW_PUT_LE16_bytes; auto with machine.
    + set (p := (drop _ hdr).[0]). assert (is_u8 p) by (apply aget_uint; [lia|]; apply bytes_drop, Hh).
      destruct (mode =? _); repeat (apply ldiff_uint; [lia|]); done.
  - apply bytes_app; [auto with machine|]. repeat (constructor; [auto with machine|]). constructor.
Qed.

(** ** The transmitted frame *)
Section gcmp_facts.
Context (kmalloc : Z → bool) (mode : Z) (Hmem : ∀ n, kmalloc n = true).
Context (tk_len : Z) (tk : list Z) (ctx : aes_ctx).
Context (Hctx : aes_encrypt_init kmalloc tk tk_len = Some ctx).
Let E := aes_encrypt ctx.

Lemma gcmp_encrypt_eq frame len hdrlen pn keyid :
  (24 ≤ hdrlen ≤ len)%nat → bytes frame → bytes (ccmp_frame_iv frame hdrlen pn keyid) →
  (len + match pn with None => 8 | Some _ => 0 end ≤ length frame)%nat →
  let hdr := take hdrlen frame in
  let iv := ccmp_frame_iv frame hdrlen pn keyid in
  let payload := ccmp_frame_payload frame len hdrlen pn in
  let aad := (gcmp_aad_nonce mode (hdr ++ iv) iv).1 in
  let nonce := (gcmp_aad_nonce mode (hdr ++ iv) iv).2 in
  length hdr = hdrlen ∧ length iv = 8%nat ∧ length payload = (len - hdrlen)%nat ∧
  gcmp_encrypt kmalloc mode tk tk_len frame len hdrlen pn keyid =
    Ret (hdr ++ iv ++ gcm_crypt E nonce payload
           ++ gcm_tag E nonce aad (gcm_crypt E nonce payload) ++ memset AES_BLOCK_SIZE 0,
         hdrlen + 8 + (len - hdrlen) + 16)%nat.
Proof using Hmem Hctx.
  intros Hh Hb Bi Hf hdr iv payload aad nonce.
  assert (length hdr = hdrlen) as Lh by (unfold hdr; rewrite length_take; lia).
  assert (length iv = 8%nat) as Li.
  { unfold iv, ccmp_frame_iv. destruct pn; [done|]. rewrite length_take, length_drop. lia. }
  assert (length payload = (len - hdrlen)%nat) as Lp.
  { unfold payload, ccmp_frame_payload. rewrite length_take, length_drop. lia. }
  split; [done|]. split; [done|]. split; [done|].
  unfold gcmp_encrypt. rewrite (proj2 (Nat.ltb_ge len hdrlen)), (proj2 (Nat.ltb_ge hdrlen 24)) by lia.
  cbn [orb]. rewrite Hmem, (proj2 (Nat.ltb_ge (length frame) _)) by lia. cbn [negb].
  set (size := (hdrlen + 8 + (len - hdrlen) + 16 + AES_BLOCK_SIZE)%nat).
  set (z := memset (size - hdrlen - 8) 0).
  assert (match pn with
    | None =>
        let* crypt := buf_write (memset size 0) 0 (take (hdrlen + 8) frame) in
        Ret (crypt, drop (hdrlen + 8) frame)
    | Some pn =>
        let* crypt := buf_write (memset size 0) 0 (take hdrlen frame) in
        let* crypt := buf_write crypt hdrlen (ccmp_hdr pn keyid) in
        Ret (crypt, drop hdrlen frame)
    end = Ret (hdr ++ iv ++ z, drop (hdrlen + match pn with None => 8 | Some _ => 0 end) frame)) as ->.
  { unfold memset. destruct pn as [pn|].
    - rewrite buf_write_ok by (rewrite length_take, length_replicate; lia). cbn [cbind].
      fold hdr. rewrite take_0, app_nil_l, Lh, Nat.add_0_l, drop_replicate.
      rewrite buf_write_ok by (rewrite length_app, Lh, length_replicate; cbn; lia). cbn [cbind].
      rewrite take_app_length' by done. rewrite drop_app_ge by (rewrite Lh; lia).
      rewrite Lh, drop_replicate. rewrite Nat.add_0_r. do 3 f_equal. unfold iv, ccmp_frame_iv. f_equal.
      unfold z, memset. f_equal. cbn. lia.
    - rewrite buf_write_ok by (rewrite length_take, length_replicate; lia). cbn [cbind].
      rewrite take_0, app_nil_l, length_take, Nat.min_l, Nat.add_0_l, drop_replicate by lia.
      rewrite <- take_take_drop, <- app_assoc.
      do 4 f_equal. unfold z, memset. f_equal. lia. }
  cbn [cbind]. rewrite drop_app_length' by done.
  rewrite (gcmp_aad_nonce_ext mode _ (hdr ++ iv) _ iv); cycle 1.
  { rewrite app_assoc, take_app_le by (rewrite length_app; lia). done. }
  { by rewrite take_app_le by lia. }
  destruct (gcmp_aad_nonce_bytes mode (hdr ++ iv) iv) as [Ba Bn];
    [apply bytes_app; [unfold hdr; auto with machine|done]|done|].
  unfold aad, nonce. destruct (gcmp_aad_nonce mode (hdr ++ iv) iv) as [aad' nonce'].
  cbn [fst snd] in *. fold (ccmp_frame_payload frame len hdrlen pn). fold payload.
  assert (bytes payload) as Bp by (unfold payload, ccmp_frame_payload; auto with machine).
  rewrite (aes_gcm_ae_eq kmalloc tk tk_len ctx Hctx nonce' aad' Bn Ba payload Bp). fold E.
  set (C := gcm_crypt E nonce' payload). set (T := gcm_tag E nonce' aad' C).
  assert (length C = len - hdrlen)%nat as LC by (unfold C, gcm_crypt; by rewrite (length_GCTR E)).
  assert (length T = 16%nat) as LT by apply (gcm_tag_block E).
  assert (length z = len - hdrlen + 16 + AES_BLOCK_SIZE)%nat as Lz.
  { unfold z, memset. rewrite length_replicate. unfold size. lia. }
  rewrite (app_assoc hdr iv z).
  rewrite buf_write_ok by (rewrite !length_app; lia). cbn [cbind].
  rewrite take_app_length' by (rewrite length_app; lia).
  rewrite drop_app_ge by (rewrite length_app; lia).
  rewrite LC, (app_assoc (hdr ++ iv) C).
  rewrite buf_write_ok by (rewrite !length_app, length_drop; lia). cbn [cbind].
  rewrite take_app_length' by (rewrite !length_app; lia).
  rewrite drop_app_ge by (rewrite !length_app; lia).
  rewrite drop_drop. do 2 f_equal. rewrite <- !app_assoc. do 4 f_equal.
  unfold z, memset. rewrite drop_replicate. f_equal. rewrite !length_app. unfold size. lia.
Qed.

Lemma gcmp_decrypt_eq hdr data data_len :
  bytes hdr → bytes data → 24 ≤ data_len ≤ Z.of_nat (length data) →
  let mlen := (Z.to_nat data_len - 8 - 16)%nat in
  let c := take mlen (drop 8 data) in
  let t := take 16 (drop mlen (drop 8 data)) in
  let aad := (gcmp_aad_nonce mode hdr data).1 in
  let nonce := (gcmp_aad_nonce mode hdr data).2 in
  ∃ rest,
  gcmp_decrypt kmalloc mode tk tk_len hdr data data_len =
    if bool_decide (t = gcm_tag E nonce aad c)
    then Ret (gcm_crypt E nonce c ++ rest, mlen) else Err NULL.
Proof using Hmem Hctx.
  intros Hh Hb Hd mlen c t aad nonce.
  unfold gcmp_decrypt. rewrite (proj2 (Z.ltb_ge data_len _)), Hmem by lia. cbn [negb].
  rewrite (proj2 (Z.ltb_ge (Z.of_nat (length data)) _)) by lia.
  destruct (gcmp_aad_nonce_bytes mode hdr data Hh Hb) as [Ba Bn]. unfold aad, nonce.
  destruct (gcmp_aad_nonce mode hdr data) as [aad' nonce']. cbn [fst snd] in *. fold mlen c t.
  assert (length c = mlen) as Lc by (unfold c, mlen; rewrite length_take, length_drop; lia).
  assert (length t = 16%nat) as Lt.
  { unfold t, mlen. rewrite length_take, !length_drop. lia. }
  rewrite (aes_gcm_ad_eq kmalloc tk tk_len ctx Hctx nonce' aad' Bn Ba c t)
    by (unfold c, t in *; auto with machine). fold E.
  destruct (bool_decide _); [|by exists []].
  rewrite buf_write_ok; [eexists; rewrite take_0, app_nil_l; done|].
  unfold memset, gcm_crypt. rewrite length_replicate, (length_GCTR E), Lc.
  unfold mlen, AES_BLOCK_SIZE. lia.
Qed.
End gcmp_facts.

Lemma gcmp_frames_roundtrip kmalloc mode tk_len tk frame len hdrlen pn keyid :
  aes_key_len tk_len = true → (∀ n, kmalloc n = true) →
  bytes frame → (24 ≤ hdrlen ≤ len)%nat →
  match pn with
  | None => (len + 8 ≤ length frame)%nat
  | Some pn => (len ≤ length frame)%nat ∧ length pn = 6%nat ∧ bytes pn
  end →
  ∃ enc, let n := (hdrlen + 8 + (len - hdrlen) + 16)%nat in
    gcmp_encrypt kmalloc mode tk tk_len frame len hdrlen pn keyid = Ret (enc, n) ∧
    (n ≤ length enc)%nat ∧
    take (hdrlen + 8) enc = take hdrlen frame ++ ccmp_frame_iv frame hdrlen pn keyid ∧
    ∃ plain, let data := drop hdrlen (take n enc) in
      gcmp_decrypt kmalloc mode tk tk_len enc data (Z.of_nat (n - hdrlen)) =
        Ret (plain, len - hdrlen)%nat ∧
      take (len - hdrlen) plain = ccmp_frame_payload frame len hdrlen pn.
Proof.
  intros Hv Hmem Hbf Hh Hpn.
  destruct (aes_encrypt_init kmalloc tk tk_len) as [ctx|] eqn:Hctx;
    [|rewrite aes_encrypt_init_eq, Hv, Hmem in Hctx; discriminate].
  assert (len + match pn with None => 8 | Some _ => 0 end ≤ length frame)%nat as Hf by (destruct pn; lia).
  assert (bytes (ccmp_frame_iv frame hdrlen pn keyid)) as Bi.
  { unfold ccmp_frame_iv. destruct pn as [p|]; [apply ccmp_hdr_bytes, Hpn|auto with machine]. }
  destruct (gcmp_encrypt_eq kmalloc mode Hmem tk_len tk ctx Hctx frame len hdrlen pn keyid Hh Hbf Bi Hf)
    as (Lh & Li & Lp & Henc).
  assert (bytes (take hdrlen frame)) as Bh by auto with machine.
  set (hdr := take hdrlen frame) in *. set (iv := ccmp_frame_iv _ _ _ _) in *.
  set (payload := ccmp_frame_payload _ _ _ _) in *. set (E := aes_encrypt ctx) in *.
  set (aad := (gcmp_aad_nonce mode (hdr ++ iv) iv).1) in *.
  set (nonce := (gcmp_aad_nonce mode (hdr ++ iv) iv).2) in *.
  set (C := gcm_crypt E nonce payload) in *. set (T := gcm_tag E nonce aad C) in *.
  assert (length C = len - hdrlen)%nat as LC by (unfold C, gcm_crypt; by rewrite (length_GCTR E)).
  destruct (gcm_tag_block E nonce aad C) as [LT BT]. fold T in LT, BT.
  assert (bytes C) as BC.
  { apply (gcm_crypt_bytes E). unfold payload, ccmp_frame_payload. auto with machine. }
  set (rest := memset AES_BLOCK_SIZE 0) in *. assert (bytes rest) as Br by bytes_lit.
  eexists. cbv zeta. split; [exact Henc|].
  set (n := (hdrlen + 8 + (len - hdrlen) + 16)%nat).
  assert (take n (hdr ++ iv ++ C ++ T ++ rest) = hdr ++ iv ++ C ++ T) as Htake.
  { rewrite !app_assoc, take_app_length'; [by rewrite <- !app_assoc|]. rewrite !length_app. unfold n. lia. }
  split.
  { rewrite !length_app. unfold n. lia. }
  split.
  { rewrite app_assoc, take_app_length' by (rewrite length_app; lia). done. }
  rewrite Htake, drop_app_length' by done.
  assert (length (iv ++ C ++ T) = n - hdrlen)%nat as LD by (rewrite !length_app; unfold n; lia).
  destruct (gcmp_decrypt_eq kmalloc mode Hmem tk_len tk ctx Hctx (hdr ++ iv ++ C ++ T ++ rest)
    (iv ++ C ++ T) (Z.of_nat (n - hdrlen))) as (rest' & Hd).
  { auto 8 with machine. }
  { auto with machine. }
  { rewrite LD. unfold n. lia. }
  rewrite (gcmp_aad_nonce_ext mode _ (hdr ++ iv) _ iv) in Hd; cycle 1.
  { rewrite app_assoc, take_app_le by (rewrite length_app; lia). done. }
  { by rewrite take_app_le by lia. }
  fold E aad nonce in Hd. rewrite Nat2Z.id in Hd.
  replace (n - hdrlen - 8 - 16)%nat with (len - hdrlen)%nat in Hd by (unfold n; lia).
  rewrite (drop_app_length' iv (C ++ T) 8 (eq_sym Li)), (take_app_length' C T) in Hd by done.
  rewrite (drop_app_length' C T), (take_ge T) in Hd by (done || lia).
  assert (gcm_crypt E nonce C = payload) as HC by apply (gcm_crypt_twice E).
  rewrite HC in Hd. fold T in Hd. rewrite bool_decide_true in Hd by done.
  eexists. split; [exact Hd|]. by rewrite take_app_length'.
Qed.

Lemma gcmp_decrypt_ext kmalloc mode tk tk_len hdr hdr' data data' n :
  take 32 hdr = take 32 hdr' → take n data = take n data' → (n ≤ length data)%nat → (n ≤ length data')%nat →
  gcmp_decrypt kmalloc mode tk tk_len hdr data (Z.of_nat n) =
  gcmp_decrypt kmalloc mode tk tk_len hdr' data' (Z.of_nat n).
Proof.
  intros Hh Hd Hn Hn'. unfold gcmp_decrypt.
  destruct (Z.ltb_spec (Z.of_nat n) (8 + 16)); [done|]. destruct (negb _); [done|].
  rewrite !(proj2 (Z.ltb_ge _ _)) by lia. rewrite Nat2Z.id.
  assert (take 8 data = take 8 data') as H8.
  { rewrite <- (Nat.min_l 8 n), <- !take_take by lia. by rewrite Hd. }
  rewrite (gcmp_aad_nonce_ext mode hdr hdr' data data' Hh H8).
  set (mlen := (n - 8 - 16)%nat).
  assert (take mlen (drop 8 data) = take mlen (drop 8 data')) as ->.
  { rewrite <- (take_drop_take 8 mlen n data), <- (take_drop_take 8 mlen n data') by (unfold mlen; lia).
    by rewrite Hd. }
  assert (take 16 (drop mlen (drop 8 data)) = take 16 (drop mlen (drop 8 data'))) as ->; [|done].
  rewrite !drop_drop.
  rewrite <- (take_drop_take (8 + mlen) 16 n data), <- (take_drop_take (8 + mlen) 16 n data')
    by (unfold mlen; lia). by rewrite Hd.
Qed.

Section properties.
Context (kmalloc : Z → bool) (mode : Z).

(** GCMP round trip for 128- and 256-bit keys, with the packet number
    passed separately or already in the frame: encryption returns header,
    GCMP header, ciphertext and a 16-byte tag inside the buffer it allocated,
    and decrypting that frame returns the payload. *)
Theorem gcmp_roundtrip tk_len tk frame len hdrlen pn keyid :
  aes_key_len tk_len = true → (∀ n, kmalloc n = true) →
  bytes frame → (24 ≤ hdrlen ≤ len)%nat →
  match pn with
  | None => (len + 8 ≤ length frame)%nat
  | Some pn => (len ≤ length frame)%nat ∧ length pn = 6%nat ∧ bytes pn
  end →
  ∃ enc, let n := (hdrlen + 8 + (len - hdrlen) + 16)%nat in
    gcmp_encrypt kmalloc mode tk tk_len frame len hdrlen pn keyid = Ret (enc, n) ∧
    (n ≤ length enc)%nat ∧
    take (hdrlen + 8) enc = take hdrlen frame ++ ccmp_frame_iv frame hdrlen pn keyid ∧
    ∃ plain, let data := drop hdrlen (take n enc) in
      gcmp_decrypt kmalloc mode tk tk_len enc data (Z.of_nat (n - hdrlen)) =
        Ret (plain, len - hdrlen)%nat ∧
      take (len - hdrlen) plain = ccmp_frame_payload frame len hdrlen pn.
Proof. apply gcmp_frames_roundtrip. Qed.
End properties.

Lemma gcmp_roundtrip_witness :
  ∃ enc, gcmp_encrypt (λ _, true) 0 (replicate 32 1) 32 (0x08 :: replicate 35 3) 28 24 None 0 =
           Ret (enc, 52%nat) ∧
    take 24 enc = 0x08 :: replicate 23 3.
Proof.
  destruct (gcmp_roundtrip (λ _, true) 0 32 (replicate 32 1) (0x08 :: replicate 35 3) 28 24 None 0)
    as (enc & H1 & _ & H2 & _).
  - reflexivity.
  - done.
  - bytes_lit.
  - lia.
  - cbn. lia.
  - exists enc. split; [exact H1|].
    apply (f_equal (take 24)) in H2. rewrite take_take in H2. exact H2.
Defined.
