(* ===== verification/Swcrypto.v ===== *)
(** * Software cipher wrappers: [core/rtw_swcrypto.c]

    The functions the transmit and receive paths call.  A frame is encrypted
    and decrypted in place: the memory from the frame pointer on is a list of
    bytes, and the result is that memory after the call. *)
From S2P Require Import Prelude Aes AesCorrect CryptoWrap Blocks Omac Siv Ccm Gcm Ccmp Gcmp.

Definition FAIL : Z := 0.

Section alloc.
Context (kmalloc : Z → bool) (mode : Z).

(** [_rtw_memcpy(frame, enc, enc_len)] *)
Definition copy_back (frame : list Z) (o : nat) (r : cres (list Z * nat)) : cres (list Z) :=
  match r with
  | Oob => Oob
  | Err _ => Err FAIL
  | Ret (b, n) => buf_write frame o (take n b)
  end.

Definition rtw_ccmp_encrypt (key : list Z) (key_len : Z) (hdrlen : nat) (frame : list Z) (plen : nat)
    : cres (list Z) :=
  copy_back frame 0
    (if key_len =? 16 then ccmp_encrypt kmalloc mode key frame (hdrlen + plen) hdrlen None 0
     else if key_len =? 32 then ccmp_256_encrypt kmalloc mode key frame (hdrlen + plen) hdrlen None 0
     else Err NULL).

(** [plen - hdrlen] is computed on 32-bit unsigned integers. *)
Definition rtw_ccmp_decrypt (key : list Z) (key_len : Z) (hdrlen : nat) (frame : list Z) (plen : Z)
    : cres (list Z) :=
  let n := u32 (plen - Z.of_nat hdrlen) in
  copy_back frame (hdrlen + 8)
    (if key_len =? 16 then ccmp_decrypt kmalloc mode key frame (drop hdrlen frame) n
     else if key_len =? 32 then ccmp_256_decrypt kmalloc mode key frame (drop hdrlen frame) n
     else Err NULL).

Definition rtw_gcmp_encrypt (key : list Z) (key_len : Z) (hdrlen : nat) (frame : list Z) (plen : nat)
    : cres (list Z) :=
  copy_back frame 0 (gcmp_encrypt kmalloc mode key key_len frame (hdrlen + plen) hdrlen None 0).

Definition rtw_gcmp_decrypt (key : list Z) (key_len : Z) (hdrlen : nat) (frame : list Z) (plen : Z)
    : cres (list Z) :=
  let n := u32 (plen - Z.of_nat hdrlen) in
  copy_back frame (hdrlen + 8) (gcmp_decrypt kmalloc mode key key_len frame (drop hdrlen frame) n).

(** The result is the [mic] buffer. *)
Definition bip_ccmp_protect (key : list Z) (key_len : Z) (data : list Z) : cres (list Z) :=
  match
    (if key_len =? 16 then omac1_aes_128 kmalloc key data
     else if key_len =? 32 then omac1_aes_256 kmalloc key data
     else Err (-1))
  with
  | Ret mic => Ret mic
  | Err _ => Err FAIL
  | Oob => Oob
  end.

(** [whdr_pos + len - mic_len - 6] is where the packet number of the MME is. *)
Definition bip_gcmp_protect (whdr_pos : list Z) (len : nat) (key : list Z) (key_len : Z)
    (data : list Z) : cres (list Z) :=
  if (len <? 16 + 6)%nat || (length whdr_pos <? len)%nat then Oob else
  let gcmp_ipn := drop (len - 16 - 6) whdr_pos in
  let nonce := take ETH_ALEN (drop 10 whdr_pos) ++
    [gcmp_ipn.[5]; gcmp_ipn.[4]; gcmp_ipn.[3]; gcmp_ipn.[2]; gcmp_ipn.[1]; gcmp_ipn.[0]] in
  match aes_gmac kmalloc key key_len nonce data with
  | Ret mic => Ret mic
  | Err _ => Err FAIL
  | Oob => Oob
  end.
End alloc.

(** ** In-place round trips *)
Lemma copy_back_ok frame o b n :
  (n ≤ length b)%nat → (o + n ≤ length frame)%nat →
  copy_back frame o (Ret (b, n)) = Ret (take o frame ++ take n b ++ drop (o + n) frame).
Proof.
  intros Hb Hf. cbn [copy_back]. assert (length (take n b) = n) as Hl by (rewrite length_take; lia).
  rewrite buf_write_ok by lia. by rewrite Hl.
Qed.

Section inplace.
(** A cipher on frames: [enc] of a frame and its length, [dec] of a header and a body. *)
Context (enc : list Z → cres (list Z * nat)) (dec : list Z → list Z → Z → cres (list Z * nat)).
Context (hdrlen plen n : nat) (frame e plain hdr iv payload : list Z).
Context (Hn : (hdrlen + 8 + plen ≤ n)%nat) (Hh : (24 ≤ hdrlen)%nat) (Hlen : (n ≤ length frame)%nat).
Context (Henc : enc frame = Ret (e, n)) (Hel : (n ≤ length e)%nat).
Context (Hpre : take (hdrlen + 8) e = hdr ++ iv).
Context (Hdec : dec e (drop hdrlen (take n e)) (Z.of_nat (n - hdrlen)) = Ret (plain, plen)).
Context (Hplain : take plen plain = payload) (Hpl : length payload = plen).
Context (Hext : ∀ h h' d d' k, take 32 h = take 32 h' → take k d = take k d' →
  (k ≤ length d)%nat → (k ≤ length d')%nat → dec h d (Z.of_nat k) = dec h' d' (Z.of_nat k)).

Lemma inplace_roundtrip :
  ∃ frame1 frame2,
    copy_back frame 0 (enc frame) = Ret frame1 ∧
    length frame1 = length frame ∧ drop n frame1 = drop n frame ∧
    copy_back frame1 (hdrlen + 8) (dec frame1 (drop hdrlen frame1) (Z.of_nat (n - hdrlen))) = Ret frame2 ∧
    length frame2 = length frame ∧
    take (hdrlen + 8 + plen) frame2 = hdr ++ iv ++ payload ∧ drop n frame2 = drop n frame.
Proof using All.
  rewrite Henc, copy_back_ok by lia. rewrite take_0, app_nil_l, Nat.add_0_l.
  set (frame1 := take n e ++ drop n frame).
  assert (length (take n e) = n) as Le by (rewrite length_take; lia).
  assert (length frame1 = length frame) as L1 by (unfold frame1; rewrite length_app, length_drop; lia).
  assert (take n frame1 = take n e) as T1 by (unfold frame1; by rewrite take_app_length').
  assert (drop n frame1 = drop n frame) as D1 by (unfold frame1; by rewrite drop_app_length').
  assert (dec frame1 (drop hdrlen frame1) (Z.of_nat (n - hdrlen)) = Ret (plain, plen)) as Hd.
  { rewrite <- Hdec. apply Hext.
    - rewrite <- (Nat.min_l 32 n), <- !take_take by lia. by rewrite T1.
    - rewrite <- T1, take_drop_take by lia. done.
    - rewrite length_drop. lia.
    - rewrite length_drop. lia. }
  assert (plen ≤ length plain)%nat as Hpp by (rewrite <- Hpl, <- Hplain, length_take; lia).
  assert (length (take (hdrlen + 8) frame1) = (hdrlen + 8)%nat) as L2 by (rewrite length_take; lia).
  exists frame1. eexists. split; [done|]. split; [done|]. split; [done|].
  split; [rewrite Hd, copy_back_ok by lia; done|].
  rewrite Hplain. split; [rewrite !length_app, length_drop; lia|]. split.
  - rewrite app_assoc, take_app_length' by (rewrite length_app; lia).
    rewrite app_assoc, <- Hpre. f_equal.
    rewrite <- (Nat.min_l (hdrlen + 8) n), <- !take_take by lia. by rewrite T1.
  - rewrite app_assoc, drop_app_ge by (rewrite length_app; lia).
    rewrite length_app, L2, Hpl, drop_drop, <- D1. f_equal. lia.
Qed.
End inplace.

(** [uint] subtraction does not wrap for a frame longer than its header. *)
Lemma u32_sub n h : (h ≤ n)%nat → Z.of_nat n < 2 ^ 32 → u32 (Z.of_nat n - Z.of_nat h) = Z.of_nat (n - h).
Proof. intros H Hn. rewrite u32_id; [lia|]. split; lia. Qed.

Section properties.
Context (kmalloc : Z → bool) (mode : Z) (Hmem : ∀ n, kmalloc n = true).

(** In-place CCMP: for a 16- or 32-byte key, [_rtw_ccmp_encrypt] turns
    header, CCMP header and payload in a buffer with room for the MIC into the
    protected frame, and [_rtw_ccmp_decrypt] on it restores header (now with
    the Protected bit), CCMP header and payload; neither writes outside the
    protected frame, and the buffer keeps its size. *)
Theorem rtw_ccmp_inplace_roundtrip key key_len hdrlen frame plen M :
  ccmp_variant key_len M → bytes frame → (24 ≤ hdrlen)%nat →
  (hdrlen + 8 + plen + M ≤ length frame)%nat → Z.of_nat (length frame) < 2 ^ 32 →
  let n := (hdrlen + 8 + plen + M)%nat in
  ∃ frame1 frame2,
    rtw_ccmp_encrypt kmalloc mode key key_len hdrlen frame plen = Ret frame1 ∧
    length frame1 = length frame ∧ drop n frame1 = drop n frame ∧
    rtw_ccmp_decrypt kmalloc mode key key_len hdrlen frame1 (Z.of_nat n) = Ret frame2 ∧
    length frame2 = length frame ∧
    take (hdrlen + 8 + plen) frame2 =
      set_fc WLAN_FC_ISWEP (take hdrlen frame) ++ take 8 (drop hdrlen frame) ++
      take plen (drop (hdrlen + 8) frame) ∧
    drop n frame2 = drop n frame.
Proof using Hmem.
  intros Hv Hb Hh Hl H32 n.
  destruct (ccmp_frames_roundtrip kmalloc mode key_len M key frame (hdrlen + plen) hdrlen None 0 Hv Hmem Hb
    ltac:(lia) ltac:(cbv beta iota; lia)) as (e & He & Hel & Hpre & _ & plain & Hd & Hp).
  replace (hdrlen + 8 + (hdrlen + plen - hdrlen) + M)%nat with n in * by (unfold n; lia).
  replace (hdrlen + plen - hdrlen)%nat with plen in * by lia.
  unfold ccmp_frame_payload in Hp. replace (hdrlen + plen - hdrlen)%nat with plen in Hp by lia.
  pose proof (inplace_roundtrip
    (λ f, ccmp_encrypt_with kmalloc mode key_len M key f (hdrlen + plen) hdrlen None 0)
    (ccmp_decrypt_with kmalloc mode key_len M key)
    hdrlen plen n frame e plain _ _ _ ltac:(unfold n; lia) Hh ltac:(unfold n; lia) He Hel Hpre Hd Hp
    ltac:(rewrite length_take, length_drop; lia)
    (ccmp_decrypt_with_ext kmalloc mode key_len M key)) as Hr.
  unfold rtw_ccmp_encrypt, rtw_ccmp_decrypt. rewrite u32_sub by (unfold n; lia).
  destruct Hv as [[-> ->]|[-> ->]]; exact Hr.
Qed.

(** In-place GCMP, for the key sizes AES has: the same contract, with a
    16-byte tag and the frame control left as it is. *)
Theorem rtw_gcmp_inplace_roundtrip key key_len hdrlen frame plen :
  aes_key_len key_len = true → bytes frame → (24 ≤ hdrlen)%nat →
  (hdrlen + 8 + plen + 16 ≤ length frame)%nat → Z.of_nat (length frame) < 2 ^ 32 →
  let n := (hdrlen + 8 + plen + 16)%nat in
  ∃ frame1 frame2,
    rtw_gcmp_encrypt kmalloc mode key key_len hdrlen frame plen = Ret frame1 ∧
    length frame1 = length frame ∧ drop n frame1 = drop n frame ∧
    rtw_gcmp_decrypt kmalloc mode key key_len hdrlen frame1 (Z.of_nat n) = Ret frame2 ∧
    length frame2 = length frame ∧
    take (hdrlen + 8 + plen) frame2 =
      take hdrlen frame ++ take 8 (drop hdrlen frame) ++ take plen (drop (hdrlen + 8) frame) ∧
    drop n frame2 = drop n frame.
Proof using Hmem.
  intros Hv Hb Hh Hl H32 n.
  destruct (gcmp_frames_roundtrip kmalloc mode key_len key frame (hdrlen + plen) hdrlen None 0 Hv Hmem Hb
    ltac:(lia) ltac:(cbv beta iota; lia)) as (e & He & Hel & Hpre & plain & Hd & Hp).
  replace (hdrlen + 8 + (hdrlen + plen - hdrlen) + 16)%nat with n in * by (unfold n; lia).
  replace (hdrlen + plen - hdrlen)%nat with plen in * by lia.
  unfold ccmp_frame_payload in Hp. replace (hdrlen + plen - hdrlen)%nat with plen in Hp by lia.
  pose proof (inplace_roundtrip
    (λ f, gcmp_encrypt kmalloc mode key key_len f (hdrlen + plen) hdrlen None 0)
    (gcmp_decrypt kmalloc mode key key_len)
    hdrlen plen n frame e plain _ _ _ ltac:(unfold n; lia) Hh ltac:(unfold n; lia) He Hel Hpre Hd Hp
    ltac:(rewrite length_take, length_drop; lia)
    (gcmp_decrypt_ext kmalloc mode key key_len)) as Hr.
  unfold rtw_gcmp_encrypt, rtw_gcmp_decrypt. rewrite u32_sub by (unfold n; lia). exact Hr.
Qed.

(** [_rtw_ccmp_decrypt] returns [_FAIL] for every key length other than 16
    and 32 bytes, and both it and [_rtw_gcmp_decrypt] return [_FAIL], without
    reading the body, when the body is shorter than CCMP header and MIC. *)
Theorem rtw_decrypt_refuses key key_len hdrlen frame plen :
  Z.of_nat hdrlen ≤ plen < 2 ^ 32 →
  (key_len ≠ 16 → key_len ≠ 32 →
     rtw_ccmp_decrypt kmalloc mode key key_len hdrlen frame plen = Err FAIL) ∧
  (plen < Z.of_nat hdrlen + 16 →
     rtw_ccmp_decrypt kmalloc mode key key_len hdrlen frame plen = Err FAIL ∧
     rtw_gcmp_decrypt kmalloc mode key key_len hdrlen frame plen = Err FAIL).
Proof using.
  intros Hp. split.
  - intros H16 H32. unfold rtw_ccmp_decrypt. by rewrite !(proj2 (Z.eqb_neq _ _)) by done.
  - intros Hs.
    assert (u32 (plen - Z.of_nat hdrlen) = plen - Z.of_nat hdrlen) as Hu by (apply u32_id; split; lia).
    unfold rtw_ccmp_decrypt, rtw_gcmp_decrypt, ccmp_decrypt, ccmp_256_decrypt, ccmp_decrypt_with,
      gcmp_decrypt. rewrite Hu. rewrite !(proj2 (Z.ltb_lt _ _)) by lia.
    split; [|done]. by destruct (key_len =? 16), (key_len =? 32).
Qed.
End properties.

Lemma rtw_ccmp_inplace_witness :
  ∃ frame1 frame2,
    rtw_ccmp_encrypt (λ _, true) 0 (replicate 16 1) 16 24 (0x08 :: replicate 49 3) 10 = Ret frame1 ∧
    rtw_ccmp_decrypt (λ _, true) 0 (replicate 16 1) 16 24 frame1 50 = Ret frame2 ∧
    take 10 (drop 32 frame2) = replicate 10 3.
Proof.
  destruct (rtw_ccmp_inplace_roundtrip (λ _, true) 0 (λ _, eq_refl) (replicate 16 1) 16 24
    (0x08 :: replicate 49 3) 10 8) as (f1 & f2 & H1 & _ & _ & H2 & _ & H3 & _).
  - by left.
  - bytes_lit.
  - lia.
  - cbn. lia.
  - reflexivity.
  - exists f1, f2. split; [exact H1|]. split; [exact H2|].
    apply (f_equal (drop 32)) in H3. rewrite skipn_firstn_comm in H3. exact H3.
Defined.

Lemma rtw_gcmp_inplace_witness :
  ∃ frame1 frame2,
    rtw_gcmp_encrypt (λ _, true) 0 (replicate 32 1) 32 24 (0x08 :: replicate 57 3) 10 = Ret frame1 ∧
    rtw_gcmp_decrypt (λ _, true) 0 (replicate 32 1) 32 24 frame1 58 = Ret frame2 ∧
    take 10 (drop 32 frame2) = replicate 10 3.
Proof.
  destruct (rtw_gcmp_inplace_roundtrip (λ _, true) 0 (λ _, eq_refl) (replicate 32 1) 32 24
    (0x08 :: replicate 57 3) 10) as (f1 & f2 & H1 & _ & _ & H2 & _ & H3 & _).
  - reflexivity.
  - bytes_lit.
  - lia.
  - cbn. lia.
  - reflexivity.
  - exists f1, f2. split; [exact H1|]. split; [exact H2|].
    apply (f_equal (drop 32)) in H3. rewrite skipn_firstn_comm in H3. exact H3.
Defined.

Lemma rtw_decrypt_refuses_witness :
  rtw_gcmp_decrypt (λ _, true) 0 [] 16 24 (replicate 30 0) 30 = Err FAIL.
Proof.
  apply (rtw_decrypt_refuses (λ _, true) 0 [] 16 24 (replicate 30 0) 30); cbn; lia.
Defined.
