(* ===== verification/Sha256.v ===== *)
(** * SHA-256, HMAC-SHA-256 and the KDF of IEEE 802.11

    [core/crypto/sha256-internal.c], [sha256.c] and [sha256-prf.c]. *)
From S2P Require Import Prelude CryptoWrap Blocks.

(** ** The compression function *)
(** Row by row as in the source. *)
Definition K : list Z :=
  ([0x428a2f98; 0x71374491; 0xb5c0fbcf; 0xe9b5dba5; 0x3956c25b] ++
   [0x59f111f1; 0x923f82a4; 0xab1c5ed5; 0xd807aa98; 0x12835b01] ++
   [0x243185be; 0x550c7dc3; 0x72be5d74; 0x80deb1fe; 0x9bdc06a7] ++
   [0xc19bf174; 0xe49b69c1; 0xefbe4786; 0x0fc19dc6; 0x240ca1cc] ++
   [0x2de92c6f; 0x4a7484aa; 0x5cb0a9dc; 0x76f988da; 0x983e5152] ++
   [0xa831c66d; 0xb00327c8; 0xbf597fc7; 0xc6e00bf3; 0xd5a79147] ++
   [0x06ca6351; 0x14292967; 0x27b70a85; 0x2e1b2138; 0x4d2c6dfc] ++
   [0x53380d13; 0x650a7354; 0x766a0abb; 0x81c2c92e; 0x92722c85] ++
   [0xa2bfe8a1; 0xa81a664b; 0xc24b8b70; 0xc76c51a3; 0xd192e819] ++
   [0xd6990624; 0xf40e3585; 0x106aa070; 0x19a4c116; 0x1e376c08] ++
   [0x2748774c; 0x34b0bcb5; 0x391c0cb3; 0x4ed8aa4a; 0x5b9cca4f] ++
   [0x682e6ff3; 0x748f82ee; 0x78a5636f; 0x84c87814; 0x8cc70208] ++
   [0x90befffa; 0xa4506ceb; 0xbef9a3f7; 0xc67178f2])%list.

Definition RORc (x y : Z) : Z :=
  u32 (((x .& 0xffffffff) >> (y .& 31)) .| u64 (x << (32 - (y .& 31)))).
Definition Ch (x y z : Z) : Z := z ⊕ (x .& (y ⊕ z)).
Definition Maj (x y z : Z) : Z := ((x .| y) .& z) .| (x .& y).
Definition Sx (x n : Z) : Z := RORc x n.
Definition Rx (x n : Z) : Z := (x .& 0xffffffff) >> n.
Definition Sigma0 (x : Z) : Z := Sx x 2 ⊕ Sx x 13 ⊕ Sx x 22.
Definition Sigma1 (x : Z) : Z := Sx x 6 ⊕ Sx x 11 ⊕ Sx x 25.
Definition Gamma0 (x : Z) : Z := Sx x 7 ⊕ Sx x 18 ⊕ Rx x 3.
Definition Gamma1 (x : Z) : Z := Sx x 17 ⊕ Sx x 19 ⊕ Rx x 10.

Definition SHA256_BLOCK_SIZE : nat := 64.
Definition SHA256_MAC_LEN : nat := 32.

(** [W[0..63]]: sixteen words of the block, then one word per iteration. *)
Definition sha256_W (buf : list Z) : list Z :=
  let W := map (λ i, RTW_GET_BE32 (drop (4 * i) buf)) (seq 0 16) in
  fold_left (λ W i, W ++ [u32 (Gamma1 (W.[i - 2]) + W.[i - 7] + Gamma0 (W.[i - 15]) + W.[i - 16])])
    (seq 16 48) W.

(** One iteration: [RND] on [S[0..7]], then the rotation of [S]. *)
Definition sha256_RND (W S : list Z) (i : nat) : list Z :=
  let t0 := u32 (S.[7] + Sigma1 (S.[4]) + Ch (S.[4]) (S.[5]) (S.[6]) + K.[i] + W.[i]) in
  let t1 := u32 (Sigma0 (S.[0]) + Maj (S.[0]) (S.[1]) (S.[2])) in
  let S := <[3%nat := u32 (S.[3] + t0)]> S in
  let S := <[7%nat := u32 (t0 + t1)]> S in
  let t := S.[7] in
  [t; S.[0]; S.[1]; S.[2]; S.[3]; S.[4]; S.[5]; S.[6]].

Definition sha256_compress (state buf : list Z) : list Z :=
  let S := map (aget state) (seq 0 8) in
  let W := sha256_W buf in
  let S := fold_left (sha256_RND W) (seq 0 64) S in
  map (λ i, u32 (state.[i] + S.[i])) (seq 0 8).

(** ** The streaming interface *)
Record sha256_state := Sha256State {
  sha_length : Z;        (* u64 *)
  sha_state : list Z;    (* u32[8] *)
  sha_curlen : nat;      (* u32 *)
  sha_buf : list Z       (* u8[64] *)
}.

(** The buffer is left uninitialised; only written bytes are read. *)
Definition sha256_init : sha256_state :=
  Sha256State 0
    [0x6A09E667; 0xBB67AE85; 0x3C6EF372; 0xA54FF53A; 0x510E527F; 0x9B05688C; 0x1F83D9AB; 0x5BE0CD19]
    0 (memset SHA256_BLOCK_SIZE 0).

(** The [while (inlen > 0)] loop; [fuel] bounds the number of iterations. *)
Fixpoint sha256_process_loop (fuel : nat) (md : sha256_state) (inp : list Z) : sha256_state :=
  match fuel with
  | O => md
  | S fuel =>
      if (length inp =? 0)%nat then md else
      if (sha_curlen md =? 0)%nat && (SHA256_BLOCK_SIZE <=? length inp)%nat then
        let md := Sha256State (u64 (sha_length md + 512))
          (sha256_compress (sha_state md) (take SHA256_BLOCK_SIZE inp)) (sha_curlen md) (sha_buf md) in
        sha256_process_loop fuel md (drop SHA256_BLOCK_SIZE inp)
      else
        let n := (length inp `min` (SHA256_BLOCK_SIZE - sha_curlen md))%nat in
        let buf := memcpy (sha_buf md) (sha_curlen md) (take n inp) in
        let curlen := (sha_curlen md + n)%nat in
        let md :=
          if (curlen =? SHA256_BLOCK_SIZE)%nat then
            Sha256State (u64 (sha_length md + 512)) (sha256_compress (sha_state md) buf) 0 buf
          else Sha256State (sha_length md) (sha_state md) curlen buf in
        sha256_process_loop fuel md (drop n inp)
  end.
Definition sha256_process (md : sha256_state) (inp : list Z) : cres sha256_state :=
  if (SHA256_BLOCK_SIZE <=? sha_curlen md)%nat then Err (-1)
  else Ret (sha256_process_loop (length inp) md inp).

(** The result is the 32 bytes written to [out]. *)
Definition sha256_done (md : sha256_state) : cres (list Z) :=
  if (SHA256_BLOCK_SIZE <=? sha_curlen md)%nat then Err (-1) else
  let len := u64 (sha_length md + Z.of_nat (sha_curlen md) * 8) in
  let buf := <[sha_curlen md := 0x80]> (sha_buf md) in
  let curlen := S (sha_curlen md) in
  let '(state, buf, curlen) :=
    if (56 <? curlen)%nat then
      let buf := memcpy buf curlen (memset (SHA256_BLOCK_SIZE - curlen) 0) in
      (sha256_compress (sha_state md) buf, buf, 0%nat)
    else (sha_state md, buf, curlen) in
  let buf := memcpy buf curlen (memset (56 - curlen) 0) in
  let buf := memcpy buf 56 (RTW_PUT_BE64 len) in
  let state := sha256_compress state buf in
  Ret (concat (map (λ i, RTW_PUT_BE32 (state.[i])) (seq 0 8))).

Fixpoint sha256_process_all (md : sha256_state) (addr : list (list Z)) : cres sha256_state :=
  match addr with
  | [] => Ret md
  | a :: addr => let* md := sha256_process md a in sha256_process_all md addr
  end.
Definition sha256_vector (addr : list (list Z)) : cres (list Z) :=
  let* md := sha256_process_all sha256_init addr in sha256_done md.

(** ** HMAC *)
Definition hmac_pad (key : list Z) (v : Z) : list Z :=
  map (λ b, b ⊕ v) (memcpy (memset 64 0) 0 key).
Definition hmac_sha256_vector (key : list Z) (addr : list (list Z)) : cres (list Z) :=
  if (5 <? length addr)%nat then Err (-1) else
  let* key := if (64 <? length key)%nat then sha256_vector [key] else Ret key in
  let* mac := sha256_vector (hmac_pad key 0x36 :: addr) in
  sha256_vector [hmac_pad key 0x5c; mac].

(** ** The key derivation function *)
Section prf.
Context (key label data length_le : list Z).

(** The [while (pos < buf_len)] loop: the bytes written from [pos] on, with
    [left] bytes to go; [fuel] bounds the number of iterations. *)
Fixpoint prf_loop (fuel : nat) (counter : Z) (left : nat) : cres (list Z) :=
  match fuel with
  | O => Ret []
  | S fuel =>
      if (left =? 0)%nat then Ret [] else
      let counter_le := RTW_PUT_LE16 counter in
      let* hash := hmac_sha256_vector key [counter_le; label; data; length_le] in
      if (SHA256_MAC_LEN <=? left)%nat then
        let* rest := prf_loop fuel (u16 (counter + 1)) (left - SHA256_MAC_LEN) in
        Ret (hash ++ rest)
      else Ret (take left hash)
  end.
End prf.

(** [label] is the memory of the C string. *)
Definition sha256_prf_bits (key label data : list Z) (buf_len_bits : nat) : cres (list Z) :=
  let buf_len := ((buf_len_bits + 7) / 8)%nat in
  let* n := os_strlen label in
  let length_le := RTW_PUT_LE16 (Z.of_nat buf_len_bits) in
  let* buf := prf_loop key (take n label) data length_le buf_len 1 buf_len in
  if (buf_len_bits mod 8 =? 0)%nat then Ret buf else
  let mask := u8 (0xff << (8 - Z.of_nat (buf_len_bits mod 8))) in
  let pos := length buf in
  Ret (<[(pos - 1)%nat := buf.[pos - 1] .& mask]> buf).
Definition sha256_prf (key label data : list Z) (buf_len : nat) : cres (list Z) :=
  sha256_prf_bits key label data (buf_len * 8).

(** FIPS 180-4: the digest of the three bytes of "abc". *)
Example sha256_abc :
  sha256_vector [[0x61]; [0x62; 0x63]] =
  Ret [0xba;0x78;0x16;0xbf;0x8f;0x01;0xcf;0xea;0x41;0x41;0x40;0xde;0x5d;0xae;0x22;0x23;
       0xb0;0x03;0x61;0xa3;0x96;0x17;0x7a;0x9c;0xb4;0x10;0xff;0x61;0xf2;0x00;0x15;0xad].
Proof. vm_compute. reflexivity. Qed.

(** ** SHA-256 as FIPS 180-4 defines it *)
Module Fips180.
Definition ROTR (n x : Z) : Z := (x >> n) .| u32 (x << (32 - n)).
Definition SHR (n x : Z) : Z := x >> n.
Definition Ch (x y z : Z) : Z := (x .& y) ⊕ Z.ldiff z x.
Definition Maj (x y z : Z) : Z := (x .& y) ⊕ (x .& z) ⊕ (y .& z).
Definition Sum0 (x : Z) : Z := ROTR 2 x ⊕ ROTR 13 x ⊕ ROTR 22 x.
Definition Sum1 (x : Z) : Z := ROTR 6 x ⊕ ROTR 11 x ⊕ ROTR 25 x.
Definition sig0 (x : Z) : Z := ROTR 7 x ⊕ ROTR 18 x ⊕ SHR 3 x.
Definition sig1 (x : Z) : Z := ROTR 17 x ⊕ ROTR 19 x ⊕ SHR 10 x.

(** The first [n] primes, and the first 32 bits of the fractional part of a
    square or cube root, as a check on a candidate. *)
Definition is_prime (p : Z) : bool :=
  forallb (λ d, negb (p mod Z.of_nat d =? 0)) (seq 2 (Z.to_nat (Z.sqrt p) - 1)).
Definition primes : list Z := List.filter is_prime (map Z.of_nat (seq 2 310)).
Definition sqrt_frac (p k : Z) : bool :=
  let r := Z.sqrt p * 2 ^ 32 + k in (r ^ 2 <=? p * 2 ^ 64) && (p * 2 ^ 64 <? (r + 1) ^ 2).
Definition cbrt_frac (p k : Z) : bool :=
  existsb (λ n, let r := Z.of_nat n * 2 ^ 32 + k in
    (0 <=? k) && (k <? 2 ^ 32) && (r ^ 3 <=? p * 2 ^ 96) && (p * 2 ^ 96 <? (r + 1) ^ 3)) (seq 1 8).

(** The message schedule: W_0, ..., W_63. *)
Definition W (M : list Z) : list Z :=
  fold_left (λ W t, W ++ [u32 (sig1 (W.[t - 2]) + W.[t - 7] + sig0 (W.[t - 15]) + W.[t - 16])])
    (seq 16 48) M.

(** Working variables a, ..., h. *)
Definition round (K W : list Z) (v : list Z) (t : nat) : list Z :=
  match v with
  | [a; b; c; d; e; f; g; h] =>
      let T1 := u32 (h + Sum1 e + Ch e f g + K.[t] + W.[t]) in
      let T2 := u32 (Sum0 a + Maj a b c) in
      [u32 (T1 + T2); a; b; c; u32 (d + T1); e; f; g]
  | _ => v
  end.
Definition words_of (b : list Z) : list Z := map (λ i, be_val (take 4 (drop (4 * i) b))) (seq 0 16).
Definition compress (H b : list Z) : list Z :=
  zip_with (λ x y, u32 (x + y)) H (fold_left (round K (W (words_of b))) (seq 0 64) H).

Definition pad (m : list Z) : list Z :=
  m ++ 0x80 :: replicate ((119 - length m mod 64) mod 64) 0 ++ be_bytes 8 (8 * Z.of_nat (length m)).
Definition H0 : list Z :=
  [0x6A09E667; 0xBB67AE85; 0x3C6EF372; 0xA54FF53A; 0x510E527F; 0x9B05688C; 0x1F83D9AB; 0x5BE0CD19].
Fixpoint hash_blocks (n : nat) (H m : list Z) : list Z :=
  match n with O => H | S n => hash_blocks n (compress H (take 64 m)) (drop 64 m) end.
Definition SHA256 (m : list Z) : list Z :=
  concat (map (be_bytes 4) (hash_blocks (length (pad m) / 64) H0 (pad m))).
End Fips180.

(** ** The word functions *)
Lemma RORc_ROTR x n : is_u32 x → 0 < n < 32 → RORc x n = Fips180.ROTR n x.
Proof.
  intros Hx Hn. unfold RORc, Fips180.ROTR.
  assert (n .& 31 = n) as ->.
  { change 31 with (Z.ones 5). rewrite Z.land_ones by lia. apply Z.mod_small. lia. }
  change (x .& 0xffffffff) with (u32 x). rewrite (u32_id x) by done.
  apply (uint_eq_bits 32); [apply u32_uint|auto with machine|]. intros i Hi.
  unfold u32, u64. change 0xffffffff with (Z.ones 32). change 0xffffffffffffffff with (Z.ones 64).
  rewrite !Z.land_spec, !Z.lor_spec, !Z.land_spec, !Z.testbit_ones_nonneg by lia.
  rewrite (proj2 (Z.ltb_lt i 32)), (proj2 (Z.ltb_lt i 64)) by lia. by rewrite !andb_true_r.
Qed.
Lemma ROTR_uint n x : 0 ≤ n → is_u32 x → is_u32 (Fips180.ROTR n x).
Proof. intros Hn Hx. unfold Fips180.ROTR. auto with machine. Qed.

Section words.
Context (x : Z) (Hx : is_u32 x).
Lemma Sigma0_eq : Sigma0 x = Fips180.Sum0 x.
Proof using Hx. unfold Sigma0, Fips180.Sum0, Sx. by rewrite !RORc_ROTR by (done || lia). Qed.
Lemma Sigma1_eq : Sigma1 x = Fips180.Sum1 x.
Proof using Hx. unfold Sigma1, Fips180.Sum1, Sx. by rewrite !RORc_ROTR by (done || lia). Qed.
Lemma Rx_eq n : Rx x n = Fips180.SHR n x.
Proof using Hx. unfold Rx, Fips180.SHR. change (x .& 0xffffffff) with (u32 x). by rewrite u32_id. Qed.
Lemma Gamma0_eq : Gamma0 x = Fips180.sig0 x.
Proof using Hx. unfold Gamma0, Fips180.sig0, Sx. by rewrite !RORc_ROTR, Rx_eq by (done || lia). Qed.
Lemma Gamma1_eq : Gamma1 x = Fips180.sig1 x.
Proof using Hx. unfold Gamma1, Fips180.sig1, Sx. by rewrite !RORc_ROTR, Rx_eq by (done || lia). Qed.
End words.

Lemma Ch_eq x y z : Ch x y z = Fips180.Ch x y z.
Proof.
  unfold Ch, Fips180.Ch. apply Z.bits_inj'. intros i _. rewrite !Z.lxor_spec, !Z.land_spec, Z.ldiff_spec, Z.lxor_spec.
  by destruct (Z.testbit x i), (Z.testbit y i), (Z.testbit z i).
Qed.
Lemma Maj_eq x y z : Maj x y z = Fips180.Maj x y z.
Proof.
  unfold Maj, Fips180.Maj. apply Z.bits_inj'. intros i _.
  rewrite !Z.lxor_spec, Z.lor_spec, !Z.land_spec, Z.lor_spec.
  by destruct (Z.testbit x i), (Z.testbit y i), (Z.testbit z i).
Qed.

(** ** The compression function *)
Lemma sha256_RND_eq W S i :
  length S = 8%nat → words S →
  sha256_RND W S i = Fips180.round K W S i ∧ length (Fips180.round K W S i) = 8%nat ∧
  words (Fips180.round K W S i).
Proof.
  intros Hl Hw. do 8 (destruct S as [|? S]; [done|]). destruct S; [|done].
  unfold words in Hw. rewrite !Forall_cons_iff in Hw. destruct Hw as (?&?&?&?&?&?&?&?&_).
  split; [|split; [done|]].
  - unfold sha256_RND, Fips180.round. cbn [aget nth insert list_insert].
    rewrite Sigma0_eq, Sigma1_eq, Ch_eq, Maj_eq by done. reflexivity.
  - unfold Fips180.round. repeat (constructor; [auto with machine|]). constructor.
Qed.

Lemma sha256_W_eq W ts :
  words W →
  fold_left (λ W i, W ++ [u32 (Gamma1 (W.[i - 2]) + W.[i - 7] + Gamma0 (W.[i - 15]) + W.[i - 16])]) ts W =
  fold_left (λ W t, W ++ [u32 (Fips180.sig1 (W.[t - 2]) + W.[t - 7] + Fips180.sig0 (W.[t - 15]) + W.[t - 16])]) ts W.
Proof.
  revert W. induction ts as [|t ts IH]; intros W HW; [done|]. cbn [fold_left].
  rewrite Gamma0_eq, Gamma1_eq by (apply aget_uint; [lia|done]). apply IH.
  apply Forall_app. split; [done|]. constructor; [apply u32_uint|constructor].
Qed.

Lemma sha256_first_words b :
  length b = 64%nat → bytes b →
  map (λ i, RTW_GET_BE32 (drop (4 * i) b)) (seq 0 16) = Fips180.words_of b ∧ words (Fips180.words_of b).
Proof.
  intros Hl Hb.
  assert (∀ i, (i < 16)%nat →
    RTW_GET_BE32 (drop (4 * i) b) = be_val (take 4 (drop (4 * i) b)) ∧
    is_u32 (be_val (take 4 (drop (4 * i) b)))) as Hi.
  { intros i Hi. assert (length (take 4 (drop (4 * i) b)) = 4%nat) as Ht
      by (rewrite length_take, length_drop; lia).
    assert (bytes (take 4 (drop (4 * i) b))) as Hbt by auto with machine.
    split; [|by apply be_val4_uint].
    rewrite <- (take_drop 4 (drop (4 * i) b)) at 1. by apply RTW_GET_BE32_app. }
  split.
  - apply map_ext_in. intros i Hin%in_seq. apply Hi. lia.
  - apply List.Forall_forall. intros w Hin. apply List.in_map_iff in Hin as (i & <- & Hin%in_seq).
    apply Hi. lia.
Qed.

Definition sha_H (H : list Z) : Prop := length H = 8%nat ∧ words H.

Lemma sha256_rounds_eq W ts S :
  sha_H S →
  fold_left (sha256_RND W) ts S = fold_left (Fips180.round K W) ts S ∧
  sha_H (fold_left (Fips180.round K W) ts S).
Proof.
  revert S. induction ts as [|t ts IH]; intros S HS; [done|]. cbn [fold_left].
  destruct HS as [Hl Hw]. destruct (sha256_RND_eq W S t Hl Hw) as (-> & Hl' & Hw').
  by apply IH.
Qed.

Lemma sha256_compress_eq H b :
  sha_H H → length b = 64%nat → bytes b →
  sha256_compress H b = Fips180.compress H b ∧ sha_H (Fips180.compress H b).
Proof.
  intros HH Hl Hb. unfold sha256_compress, Fips180.compress, sha256_W, Fips180.W.
  destruct (sha256_first_words b Hl Hb) as [-> Hw]. rewrite sha256_W_eq by done.
  set (W := fold_left _ (seq 16 48) _). destruct HH as [HL HW].
  assert (map (aget H) (seq 0 8) = H) as ->.
  { rewrite <- take_aget by lia. apply take_ge. lia. }
  destruct (sha256_rounds_eq W (seq 0 64) H (conj HL HW)) as [-> [HL' HW']].
  set (V := fold_left (Fips180.round K W) (seq 0 64) H) in *. clearbody V.
  assert (length (zip_with (λ x y, u32 (x + y)) H V) = 8%nat) as Lz by (rewrite length_zip_with; lia).
  split; [|split; [done|]].
  - apply list_aget_eq; [by rewrite length_map_seq|]. intros i Hi. rewrite length_map_seq in Hi.
    rewrite aget_map_seq by done. symmetry. apply aget_lookup.
    rewrite lookup_zip_with, (lookup_aget H), (lookup_aget V) by lia. done.
  - apply Forall_lookup_2. intros i x Hx. apply lookup_zip_with_Some in Hx as (?&?&->&_&_). apply u32_uint.
Qed.

(** ** Streaming *)
Lemma hash_blocks_ok n H m :
  sha_H H → bytes m → (64 * n ≤ length m)%nat → sha_H (Fips180.hash_blocks n H m).
Proof.
  revert H m. induction n as [|n IH]; intros H m HH Hm Hl; [done|]. cbn [Fips180.hash_blocks].
  apply IH; [|auto with machine|rewrite length_drop; lia].
  apply sha256_compress_eq; [done|rewrite length_take; lia|auto with machine].
Qed.
Lemma hash_blocks_app n k H a b :
  length a = (64 * n)%nat →
  Fips180.hash_blocks (n + k) H (a ++ b) = Fips180.hash_blocks k (Fips180.hash_blocks n H a) b.
Proof.
  revert H a. induction n as [|n IH]; intros H a Ha.
  - by destruct a.
  - cbn [Nat.add Fips180.hash_blocks].
    rewrite take_app_le, drop_app_le by lia. apply IH. rewrite length_drop. lia.
Qed.
Lemma hash_blocks_prefix n H a b :
  (64 * n ≤ length a)%nat → Fips180.hash_blocks n H (a ++ b) = Fips180.hash_blocks n H a.
Proof.
  revert H a. induction n as [|n IH]; intros H a Ha; [done|]. cbn [Fips180.hash_blocks].
  rewrite take_app_le, drop_app_le by lia. apply IH. rewrite length_drop. lia.
Qed.

(** The state represents the message [a ++ r]: whole blocks [a] hashed, the
    rest [r] waiting in the buffer. *)
Definition sha_rep (md : sha256_state) (n : nat) (a r : list Z) : Prop :=
  length a = (64 * n)%nat ∧ (length r < 64)%nat ∧ bytes a ∧ bytes r ∧
  sha_state md = Fips180.hash_blocks n Fips180.H0 a ∧
  sha_curlen md = length r ∧ length (sha_buf md) = 64%nat ∧ take (length r) (sha_buf md) = r ∧
  sha_length md = u64 (512 * Z.of_nat n).

Lemma H0_ok : sha_H Fips180.H0.
Proof. split; [done|]. unfold Fips180.H0. repeat (constructor; [uint_lit|]). constructor. Qed.

Lemma sha_rep_init : sha_rep sha256_init 0 [] [].
Proof. unfold sha_rep. split_and!; first [done | cbn; lia | by constructor]. Qed.

Lemma u64_add_512 n : u64 (u64 (512 * Z.of_nat n) + 512) = u64 (512 * Z.of_nat (S n)).
Proof. rewrite !u64_mod, Zplus_mod_idemp_l. f_equal. lia. Qed.

(** Hashing one more block. *)
Lemma sha_rep_block md n a r b :
  sha_rep md n a r → length b = 64%nat → bytes b →
  sha256_compress (sha_state md) b = Fips180.hash_blocks (S n) Fips180.H0 (a ++ b) ∧
  u64 (sha_length md + 512) = u64 (512 * Z.of_nat (S n)).
Proof.
  intros (La & Lr & Ba & Br & Hs & Hc & Lb & Hb & Hlen) Hl Hbb.
  rewrite Hlen, u64_add_512. split; [|done]. rewrite Hs.
  replace (S n) with (n + 1)%nat by lia. rewrite hash_blocks_app by done. cbn [Fips180.hash_blocks].
  rewrite (take_ge b) by lia. apply sha256_compress_eq; [|done|done].
  apply hash_blocks_ok; [apply H0_ok|done|lia].
Qed.

Lemma sha256_process_loop_rep fuel md n a r inp :
  sha_rep md n a r → bytes inp → (length inp ≤ fuel)%nat →
  ∃ n' a' r', sha_rep (sha256_process_loop fuel md inp) n' a' r' ∧ a' ++ r' = a ++ r ++ inp.
Proof.
  revert md n a r inp. induction fuel as [|fuel IH]; intros md n a r inp Hrep Bi Hf.
  { destruct inp; [|cbn in Hf; lia]. exists n, a, r. by rewrite app_nil_r. }
  cbn [sha256_process_loop]. destruct (Nat.eqb_spec (length inp) 0) as [H0|H0].
  { destruct inp; [|done]. exists n, a, r. by rewrite app_nil_r. }
  pose proof Hrep as (La & Lr & Ba & Br & Hs & Hc & Lb & Hb & Hlen).
  unfold SHA256_BLOCK_SIZE. rewrite Hc.
  destruct ((length r =? 0)%nat && (64 <=? length inp)%nat) eqn:Hcase.
  - apply andb_true_iff in Hcase as [Hr0%Nat.eqb_eq H64%Nat.leb_le].
    destruct r; [|done]. assert (length (take 64 inp) = 64%nat) as Lt by (rewrite length_take; lia).
    destruct (sha_rep_block md n a [] (take 64 inp) Hrep Lt ltac:(auto with machine)) as [-> ->].
    edestruct (IH (Sha256State (u64 (512 * Z.of_nat (S n))) (Fips180.hash_blocks (S n) Fips180.H0 (a ++ take 64 inp))
      (length (@nil Z)) (sha_buf md)) (S n) (a ++ take 64 inp) [] (drop 64 inp)) as (n' & a' & r' & Hr' & Heq).
    + unfold sha_rep. cbn [sha_state sha_curlen sha_buf sha_length].
      split_and!; [rewrite length_app; lia|cbn; lia|auto with machine|constructor|done..].
    + auto with machine.
    + rewrite length_drop. lia.
    + exists n', a', r'. split; [done|]. rewrite Heq. cbn [app]. by rewrite <- app_assoc, take_drop.
  - set (k := (length inp `min` (64 - length r))%nat).
    assert (length (take k inp) = k) as Lk by (rewrite length_take; unfold k; lia).
    set (buf := memcpy (sha_buf md) (length r) (take k inp)).
    assert (length buf = 64%nat) as Lbuf by (unfold buf; by rewrite length_memcpy).
    assert (take (length r + k) buf = r ++ take k inp) as Tbuf.
    { unfold buf. rewrite memcpy_eq by (rewrite Lk, Lb; unfold k; lia). rewrite Hb.
      rewrite app_assoc, take_app_length'; [done|]. rewrite length_app. lia. }
    assert (bytes (r ++ take k inp)) as Brk by auto with machine.
    destruct (Nat.eqb_spec (length r + k) 64) as [Hfull|Hpart].
    + rewrite Hfull, (take_ge buf) in Tbuf by lia.
      destruct (sha_rep_block md n a r buf Hrep Lbuf ltac:(by rewrite Tbuf)) as [-> ->].
      edestruct (IH (Sha256State (u64 (512 * Z.of_nat (S n))) (Fips180.hash_blocks (S n) Fips180.H0 (a ++ buf))
        0 buf) (S n) (a ++ buf) [] (drop k inp)) as (n' & a' & r' & Hr' & Heq).
      * unfold sha_rep. cbn [sha_state sha_curlen sha_buf sha_length].
        split_and!; [rewrite length_app; lia|cbn; lia|apply bytes_app; [done|by rewrite Tbuf]|constructor|done..].
      * auto with machine.
      * rewrite length_drop. lia.
      * exists n', a', r'. split; [done|]. rewrite Heq, Tbuf. cbn [app]. by rewrite <- !app_assoc, take_drop.
    + edestruct (IH (Sha256State (sha_length md) (sha_state md) (length r + k) buf) n a (r ++ take k inp) (drop k inp))
        as (n' & a' & r' & Hr' & Heq).
      * unfold sha_rep. cbn [sha_state sha_curlen sha_buf sha_length].
        rewrite length_app, Lk. split_and!; try done. unfold k in *. lia.
      * auto with machine.
      * rewrite length_drop. unfold k. apply andb_false_iff in Hcase. rewrite Nat.eqb_neq, Nat.leb_gt in Hcase. lia.
      * exists n', a', r'. split; [done|]. rewrite Heq. by rewrite <- !app_assoc, take_drop.
Qed.

Lemma sha256_output st :
  length st = 8%nat → concat (map (λ i, RTW_PUT_BE32 (st.[i])) (seq 0 8)) = concat (map (be_bytes 4) st).
Proof.
  intros Hl. do 8 (destruct st as [|? st]; [done|]). destruct st; [|done].
  cbn [seq map aget nth]. by rewrite !RTW_PUT_BE32_be.
Qed.

(** The padded buffer of the last block(s). *)
Lemma memcpy_tail buf p o src :
  take o buf = p → o = length p → (o + length src ≤ length buf)%nat →
  take (o + length src) (memcpy buf o src) = p ++ src.
Proof.
  intros Hp Ho Hl. rewrite memcpy_eq, Hp by done.
  rewrite app_assoc, take_app_length'; [done|]. rewrite length_app. lia.
Qed.

Lemma insert_tail (buf p : list Z) o x :
  take o buf = p → (o < length buf)%nat → take (S o) (<[o := x]> buf) = p ++ [x].
Proof.
  intros Hp Ho. rewrite <- Hp.
  rewrite (take_S_r _ _ x) by (by apply list_lookup_insert_eq). f_equal. by rewrite take_insert_ge by lia.
Qed.

(** [sha256_done] with the buffer described by its first bytes. *)
Lemma sha256_final_block buf p len :
  take (length p) buf = p → (length p ≤ 56)%nat → length buf = 64%nat →
  memcpy (memcpy buf (length p) (memset (56 - length p) 0)) 56 (RTW_PUT_BE64 (u64 len)) =
    p ++ replicate (56 - length p) 0 ++ be_bytes 8 len.
Proof.
  intros Hp Hl Hb. rewrite RTW_PUT_BE64_be. unfold memset.
  pose proof (memcpy_tail buf p (length p) (replicate (56 - length p) 0) Hp eq_refl
    ltac:(rewrite length_replicate; lia)) as H1. rewrite length_replicate in H1.
  replace (length p + (56 - length p))%nat with 56%nat in H1 by lia.
  set (buf1 := memcpy buf _ _) in *. assert (length buf1 = 64%nat) as L1 by (unfold buf1; by rewrite length_memcpy).
  pose proof (memcpy_tail buf1 _ 56 (be_bytes 8 len) H1
    ltac:(rewrite length_app, length_replicate; lia) ltac:(rewrite length_be_bytes; lia)) as H2.
  rewrite length_be_bytes in H2. rewrite take_ge in H2 by (rewrite length_memcpy; lia).
  by rewrite H2, <- app_assoc.
Qed.

Lemma sha_pad_tail a r n :
  length a = (64 * n)%nat → (length r < 64)%nat →
  let len := 8 * Z.of_nat (length (a ++ r)) in
  (if (56 <? S (length r))%nat
   then Fips180.pad (a ++ r) = a ++ (r ++ 0x80 :: replicate (63 - length r) 0) ++ replicate 56 0 ++ be_bytes 8 len
   else Fips180.pad (a ++ r) = a ++ (r ++ [0x80]) ++ replicate (55 - length r) 0 ++ be_bytes 8 len) ∧
  (length (Fips180.pad (a ++ r)) / 64 = n + if 56 <? S (length r) then 2 else 1)%nat.
Proof.
  intros La Lr len.
  assert (length (a ++ r) mod 64 = length r)%nat as Hm.
  { rewrite length_app, La, (Nat.mul_comm 64), Nat.add_comm, Nat.Div0.mod_add, Nat.mod_small by lia. done. }
  assert (Fips180.pad (a ++ r) = a ++ r ++ 0x80 :: replicate ((119 - length r) mod 64) 0 ++ be_bytes 8 len) as Hp.
  { unfold Fips180.pad. by rewrite Hm, <- app_assoc. }
  destruct (Nat.ltb_spec 56 (S (length r))).
  - rewrite (Nat.mod_small (119 - length r) 64) in Hp by lia. split.
    + rewrite Hp. f_equal. rewrite <- app_assoc. cbn [app]. f_equal. f_equal.
      rewrite app_assoc, <- replicate_add. do 2 f_equal. lia.
    + rewrite Hp. rewrite !length_app. cbn [length]. rewrite length_app, length_replicate, length_be_bytes, La.
      replace (64 * n + (length r + S (119 - length r + 8)))%nat with ((n + 2) * 64)%nat by lia.
      by rewrite Nat.div_mul by lia.
  - replace ((119 - length r) mod 64)%nat with (55 - length r)%nat in Hp; cycle 1.
    { replace (119 - length r)%nat with (55 - length r + 1 * 64)%nat by lia.
      rewrite Nat.Div0.mod_add, Nat.mod_small by lia. done. }
    split.
    + rewrite Hp. f_equal. by rewrite <- app_assoc.
    + rewrite Hp. rewrite !length_app. cbn [length]. rewrite length_app, length_replicate, length_be_bytes, La.
      replace (64 * n + (length r + S (55 - length r + 8)))%nat with ((n + 1) * 64)%nat by lia.
      by rewrite Nat.div_mul by lia.
Qed.

Lemma sha256_done_eq md n a r : sha_rep md n a r → sha256_done md = Ret (Fips180.SHA256 (a ++ r)).
Proof.
  intros Hrep. pose proof Hrep as (La & Lr & Ba & Br & Hs & Hc & Lb & Hb & Hlen).
  unfold sha256_done, Fips180.SHA256, SHA256_BLOCK_SIZE. rewrite Hc, (proj2 (Nat.leb_gt _ _)) by lia.
  assert (u64 (sha_length md + Z.of_nat (length r) * 8) = u64 (8 * Z.of_nat (length (a ++ r)))) as ->.
  { rewrite Hlen, !u64_mod, Zplus_mod_idemp_l, length_app, La. f_equal. lia. }
  set (len := 8 * Z.of_nat (length (a ++ r))).
  pose proof (insert_tail (sha_buf md) r (length r) 0x80 Hb ltac:(lia)) as Hi.
  set (buf := <[length r := 0x80]> (sha_buf md)) in *.
  assert (length buf = 64%nat) as Lbuf by (unfold buf; by rewrite length_insert).
  assert (sha_H (sha_state md)) as HH by (rewrite Hs; apply hash_blocks_ok; [apply H0_ok|done|lia]).
  assert (∀ k, bytes (replicate k 0)) as Bz by (intros; apply bytes_replicate; uint_lit).
  assert (bytes (r ++ [0x80])) as Br8 by (apply bytes_app; [done|bytes_lit]).
  assert (length (r ++ [0x80]) = S (length r)) as Lr8 by (rewrite length_app; cbn; lia).
  destruct (sha_pad_tail a r n La Lr) as [Hpad ->]. fold len in Hpad.
  destruct (Nat.ltb_spec 56 (S (length r))) as [Hbig|Hsmall].
  - set (b1 := memcpy buf (S (length r)) (memset (64 - S (length r)) 0)).
    assert (length b1 = 64%nat) as L1 by (unfold b1; by rewrite length_memcpy).
    assert (b1 = r ++ 0x80 :: replicate (63 - length r) 0) as E1.
    { pose proof (memcpy_tail buf _ (S (length r)) (memset (64 - S (length r)) 0) Hi (eq_sym Lr8)
        ltac:(unfold memset; rewrite length_replicate; lia)) as H1. fold b1 in H1.
      unfold memset in H1. rewrite length_replicate, take_ge, <- app_assoc in H1 by lia. exact H1. }
    pose proof (sha256_final_block b1 [] len eq_refl ltac:(cbn; lia) L1) as Hf.
    cbn [app length Nat.sub] in Hf. cbn [Nat.sub]. rewrite Hf.
    rewrite Hpad, <- E1. set (b2 := replicate 56 0 ++ be_bytes 8 len).
    assert (bytes b1) as B1 by (rewrite E1; apply bytes_app; [done|]; constructor; [uint_lit|apply Bz]).
    assert (bytes b2) as B2 by (apply bytes_app; [apply Bz|apply be_bytes_uint]).
    assert (length b2 = 64%nat) as L2 by (unfold b2; by rewrite length_app, length_be_bytes).
    destruct (sha256_compress_eq (sha_state md) b1 HH L1 B1) as [-> HH1].
    destruct (sha256_compress_eq _ b2 HH1 L2 B2) as [-> HH2].
    rewrite sha256_output by apply HH2. rewrite hash_blocks_app by done. rewrite <- Hs.
    cbn [Fips180.hash_blocks]. rewrite take_app_length', drop_app_length', (take_ge b2) by (done || lia). done.
  - rewrite <- Lr8 in Hi. pose proof (sha256_final_block buf (r ++ [0x80]) len Hi ltac:(lia) Lbuf) as Hf.
    rewrite Lr8 in Hf. rewrite Hf. rewrite Hpad.
    replace (56 - S (length r))%nat with (55 - length r)%nat by lia.
    set (b := (r ++ [0x80]) ++ _).
    assert (bytes b) as Bb by (apply bytes_app; [done|]; apply bytes_app; [apply Bz|apply be_bytes_uint]).
    assert (length b = 64%nat) as L2.
    { unfold b. rewrite !length_app, length_be_bytes, length_replicate. cbn [length]. lia. }
    destruct (sha256_compress_eq _ b HH L2 Bb) as [-> HH2].
    rewrite sha256_output by apply HH2. rewrite hash_blocks_app by done. rewrite <- Hs.
    cbn [Fips180.hash_blocks]. by rewrite (take_ge b) by lia.
Qed.

Lemma sha256_process_all_rep md n a r addr :
  sha_rep md n a r → Forall bytes addr →
  ∃ md' n' a' r', sha256_process_all md addr = Ret md' ∧ sha_rep md' n' a' r' ∧
    a' ++ r' = a ++ r ++ concat addr.
Proof.
  revert md n a r. induction addr as [|x addr IH]; intros md n a r Hrep Hb.
  { exists md, n, a, r. by rewrite app_nil_r. }
  apply Forall_cons_iff in Hb as [Hx Hb]. cbn [sha256_process_all concat]. unfold sha256_process.
  pose proof Hrep as (_ & Lr & _ & _ & _ & Hc & _).
  rewrite Hc, (proj2 (Nat.leb_gt _ _)) by (unfold SHA256_BLOCK_SIZE; lia). cbn [cbind].
  destruct (sha256_process_loop_rep (length x) md n a r x Hrep Hx (Nat.le_refl _)) as (n1 & a1 & r1 & H1 & E1).
  destruct (IH _ n1 a1 r1 H1 Hb) as (md' & n' & a' & r' & -> & H2 & E2).
  exists md', n', a', r'. split; [done|]. split; [done|]. rewrite E2, app_assoc, E1. by rewrite <- !app_assoc.
Qed.

Lemma sha256_vector_eq addr :
  Forall bytes addr → sha256_vector addr = Ret (Fips180.SHA256 (concat addr)).
Proof.
  intros Hb. unfold sha256_vector.
  destruct (sha256_process_all_rep _ 0 [] [] addr sha_rep_init Hb) as (md' & n' & a' & r' & -> & Hr & E).
  cbn [cbind]. rewrite (sha256_done_eq _ _ _ _ Hr), E. done.
Qed.

Lemma SHA256_block m : bytes m → length (Fips180.SHA256 m) = 32%nat ∧ bytes (Fips180.SHA256 m).
Proof.
  intros Hm. unfold Fips180.SHA256. set (p := Fips180.pad m).
  assert (bytes p) as Bp.
  { unfold p, Fips180.pad. apply bytes_app; [done|]. constructor; [uint_lit|].
    apply bytes_app; [apply bytes_replicate; uint_lit|apply be_bytes_uint]. }
  destruct (hash_blocks_ok (length p / 64) Fips180.H0 p H0_ok Bp) as [Hl _].
  { pose proof (Nat.div_mod_eq (length p) 64). lia. }
  set (st := Fips180.hash_blocks _ _ _) in *. clearbody st. clear - Hl.
  do 8 (destruct st as [|? st]; [done|]). destruct st; [|done]. split; [done|].
  apply Forall_concat. repeat (constructor; [apply be_bytes_uint|]). constructor.
Qed.

(** ** HMAC as RFC 2104 defines it, and the KDF of IEEE 802.11 12.7.1.7.2 *)
Definition HMAC (key text : list Z) : list Z :=
  let key := if (64 <? length key)%nat then Fips180.SHA256 key else key in
  let K0 := key ++ replicate (64 - length key) 0 in
  Fips180.SHA256 (xor_bytes K0 (replicate 64 0x5c) ++
    Fips180.SHA256 (xor_bytes K0 (replicate 64 0x36) ++ text)).

Lemma hmac_pad_eq key v :
  (length key ≤ 64)%nat →
  hmac_pad key v = xor_bytes (key ++ replicate (64 - length key) 0) (replicate 64 v).
Proof.
  intros Hk. unfold hmac_pad, memset. rewrite memcpy_eq by (rewrite length_replicate; lia).
  rewrite take_0, app_nil_l, Nat.add_0_l, drop_replicate.
  set (l := key ++ _). assert (length l = 64%nat) as <- by (unfold l; rewrite length_app, length_replicate; lia).
  clearbody l. induction l as [|x l IH]; [done|]. unfold xor_bytes in *. cbn [map length replicate zip_with].
  by rewrite IH.
Qed.

Lemma hmac_pad_bytes key v : bytes key → is_u8 v → bytes (hmac_pad key v).
Proof.
  intros Hk Hv. unfold hmac_pad.
  assert (bytes (memcpy (memset 64 0) 0 key)) as Hb.
  { unfold memcpy. assert (bytes (memset 64 0)) as Hz by bytes_lit.
    revert Hz. generalize (memset 64 0). generalize 0%nat.
    induction Hk as [|x k Hx Hk IH]; intros o l Hl; [exact Hl|].
    cbn [list_inserts]. apply Forall_insert; [by apply IH|done]. }
  induction Hb as [|x l Hx Hl IH]; constructor; [by apply uint_lxor|done].
Qed.

Lemma hmac_sha256_vector_eq key addr :
  bytes key → Forall bytes addr → (length addr ≤ 5)%nat →
  hmac_sha256_vector key addr = Ret (HMAC key (concat addr)).
Proof.
  intros Bk Ba Hl. unfold hmac_sha256_vector, HMAC. rewrite (proj2 (Nat.ltb_ge 5 _)) by lia.
  assert ((if (64 <? length key)%nat then sha256_vector [key] else Ret key) =
    Ret (if (64 <? length key)%nat then Fips180.SHA256 key else key)) as ->.
  { destruct (64 <? length key)%nat; [|done]. rewrite sha256_vector_eq by (by repeat constructor).
    cbn [concat]. by rewrite app_nil_r. }
  cbn [cbind]. set (k := if (64 <? length key)%nat then _ else key).
  assert (bytes k ∧ (length k ≤ 64)%nat) as [Bk' Lk].
  { unfold k. destruct (Nat.ltb_spec 64 (length key)); [|done].
    destruct (SHA256_block key Bk) as [-> ?]. split; [done|lia]. }
  rewrite sha256_vector_eq by (constructor; [apply hmac_pad_bytes; [done|uint_lit]|done]). cbn [cbind concat].
  assert (bytes (hmac_pad k 0x36 ++ concat addr)) as Bt.
  { apply bytes_app; [apply hmac_pad_bytes; [done|uint_lit]|by apply Forall_concat]. }
  rewrite sha256_vector_eq; cycle 1.
  { constructor; [apply hmac_pad_bytes; [done|uint_lit]|]. constructor; [by apply SHA256_block|constructor]. }
  cbn [concat]. by rewrite app_nil_r, !hmac_pad_eq by done.
Qed.

(** Output block [i] of the KDF, and the key stream of [n] blocks. *)
Definition kdf_block (key label data : list Z) (bits i : nat) : list Z :=
  HMAC key (RTW_PUT_LE16 (Z.of_nat i) ++ label ++ data ++ RTW_PUT_LE16 (Z.of_nat bits)).
Definition kdf_stream (key label data : list Z) (bits i n : nat) : list Z :=
  concat (map (kdf_block key label data bits) (seq i n)).

Lemma HMAC_block key text : bytes key → bytes text → length (HMAC key text) = 32%nat ∧ bytes (HMAC key text).
Proof.
  intros Bk Bt. unfold HMAC. set (k := if (64 <? length key)%nat then _ else key).
  assert (bytes k) as Bk' by (unfold k; destruct (64 <? length key)%nat; [by apply SHA256_block|done]).
  assert (∀ v t, is_u8 v → bytes t → bytes (xor_bytes (k ++ replicate (64 - length k) 0) (replicate 64 v) ++ t)) as Hx.
  { intros v t Hv Ht. apply bytes_app; [|done]. apply xor_bytes_uint; [|by apply bytes_replicate].
    apply bytes_app; [done|]. apply bytes_replicate. uint_lit. }
  apply SHA256_block, Hx; [uint_lit|]. apply SHA256_block, Hx; [uint_lit|done].
Qed.

Section kdf.
Context (key label data : list Z) (bits : nat).
Context (Bk : bytes key) (Bl : bytes label) (Bd : bytes data).

Lemma length_kdf_block i : length (kdf_block key label data bits i) = 32%nat.
Proof using Bk Bl Bd.
  apply HMAC_block; [done|]. apply bytes_app; [apply RTW_PUT_LE16_bytes|].
  apply bytes_app; [done|]. apply bytes_app; [done|apply RTW_PUT_LE16_bytes].
Qed.

Lemma prf_loop_eq fuel i left :
  (left ≤ fuel)%nat → Z.of_nat i + Z.of_nat ((left + 31) / 32) < 2 ^ 16 →
  prf_loop key label data (RTW_PUT_LE16 (Z.of_nat bits)) fuel (Z.of_nat i) left =
    Ret (take left (kdf_stream key label data bits i ((left + 31) / 32))).
Proof using Bk Bl Bd.
  revert i left. induction fuel as [|fuel IH]; intros i left Hf Hi.
  { assert (left = 0%nat) as -> by lia. done. }
  cbn [prf_loop]. destruct (Nat.eqb_spec left 0) as [->|H0]; [done|].
  rewrite hmac_sha256_vector_eq; [|done| |cbn; lia]; cycle 1.
  { repeat (constructor; [first [apply RTW_PUT_LE16_bytes|done]|]). constructor. }
  cbn [cbind concat]. rewrite app_nil_r. fold (kdf_block key label data bits i).
  unfold SHA256_MAC_LEN. destruct (Nat.leb_spec 32 left) as [Hge|Hlt].
  - replace (left + 31)%nat with ((left - 32) + 31 + 1 * 32)%nat in Hi |- * by lia.
    rewrite Nat.div_add in Hi |- * by lia. rewrite Nat.add_1_r in Hi |- *.
    assert (u16 (Z.of_nat i + 1) = Z.of_nat (S i)) as ->.
    { rewrite u16_id; [lia|]. split; lia. }
    rewrite IH by lia. cbn [cbind]. unfold kdf_stream. cbn [seq map concat]. f_equal.
    rewrite take_app_ge by (rewrite length_kdf_block; lia). by rewrite length_kdf_block.
  - replace ((left + 31) / 32)%nat with 1%nat.
    + unfold kdf_stream. cbn [seq map concat]. by rewrite app_nil_r.
    + replace (left + 31)%nat with ((left - 1) + 1 * 32)%nat by lia.
      rewrite Nat.div_add, (Nat.div_small (left - 1)) by lia. done.
Qed.
End kdf.

Lemma os_strlen_app l rest : Forall (λ c, c ≠ 0) l → os_strlen (l ++ 0 :: rest) = Ret (length l).
Proof.
  induction 1 as [|c l Hc Hl IH]; [done|]. cbn [app os_strlen length].
  rewrite (proj2 (Z.eqb_neq _ _) Hc), IH. done.
Qed.

(** C39: [sha256_vector] is SHA-256 of FIPS 180-4 applied to the concatenation
    of its elements: how the message is cut into elements and how the
    streaming buffer splits it into blocks does not matter, and the padding
    and the 64-bit length are those of the standard. *)
Theorem sha256_vector_refines_fips180 addr :
  Forall bytes addr → sha256_vector addr = Ret (Fips180.SHA256 (concat addr)).
Proof. apply sha256_vector_eq. Qed.

(** The constant tables are the ones FIPS 180-4 defines: [K] holds the
    first 32 bits of the fractional parts of the cube roots of the first 64
    primes, and the initial state those of the square roots of the first
    eight. *)
Theorem sha256_constants :
  length K = 64%nat ∧ length Fips180.primes = 64%nat ∧
  forallb (λ '(p, k), Fips180.cbrt_frac p k) (zip Fips180.primes K) = true ∧
  forallb (λ '(p, h), Fips180.sqrt_frac p h) (zip Fips180.primes (sha_state sha256_init)) = true.
Proof. split_and!; vm_compute; reflexivity. Qed.

(** [hmac_sha256_vector] is HMAC-SHA-256 of RFC 2104 over the
    concatenation of at most five elements, for keys shorter and longer than
    a block; more elements are refused with -1. *)
Theorem hmac_sha256_vector_rfc2104 key addr :
  bytes key → Forall bytes addr →
  hmac_sha256_vector key addr =
    if (length addr <=? 5)%nat then Ret (HMAC key (concat addr)) else Err (-1).
Proof.
  intros Bk Ba. destruct (Nat.leb_spec (length addr) 5).
  - by apply hmac_sha256_vector_eq.
  - unfold hmac_sha256_vector. by rewrite (proj2 (Nat.ltb_lt 5 _)) by lia.
Qed.

(** [sha256_prf_bits] is the KDF of IEEE 802.11: for a C string [label] it
    returns the first [buf_len_bits] bits, rounded up to bytes with the unused
    low bits of the last byte cleared, of the blocks
    HMAC(key, i || label || data || length) for i = 1, 2, ... *)
Theorem sha256_prf_bits_kdf key label rest data bits :
  bytes key → bytes label → Forall (λ c, c ≠ 0) label → bytes data →
  Z.of_nat bits ≤ 256 * 65000 →
  let n := ((bits + 7) / 8)%nat in
  let out := take n (kdf_stream key label data bits 1 ((n + 31) / 32)) in
  sha256_prf_bits key (label ++ 0 :: rest) data bits =
    Ret (if (bits mod 8 =? 0)%nat then out
         else <[(n - 1)%nat := out.[n - 1] .& u8 (0xff << (8 - Z.of_nat (bits mod 8)))]> out) ∧
  length out = n.
Proof.
  intros Bk Bl Hl Bd Hbits n out. unfold sha256_prf_bits. rewrite os_strlen_app by done. cbn [cbind].
  rewrite take_app_length. fold n.
  pose proof (Nat.div_mod_eq (bits + 7) 8). pose proof (Nat.mod_upper_bound (bits + 7) 8).
  pose proof (Nat.div_mod_eq (n + 31) 32). pose proof (Nat.mod_upper_bound (n + 31) 32).
  fold n in H.
  assert (length out = n) as Hlen.
  { unfold out. rewrite length_take. apply Nat.min_l.
    assert (∀ i k, length (kdf_stream key label data bits i k) = 32 * k)%nat as ->; [|lia].
    intros i k. revert i. induction k as [|k IH]; intros i; [done|]. unfold kdf_stream in *.
    cbn [seq map concat]. rewrite length_app, IH, length_kdf_block by done. lia. }
  change 1 with (Z.of_nat 1). rewrite prf_loop_eq by (done || lia). cbn [cbind]. fold out. rewrite Hlen.
  split; [|done]. by destruct (bits mod 8 =? 0)%nat.
Qed.

Lemma sha256_vector_witness :
  sha256_vector [[1]; [2; 3]] = Ret (Fips180.SHA256 [1; 2; 3]).
Proof. apply (sha256_vector_refines_fips180 [[1]; [2; 3]]). repeat (constructor; [bytes_lit|]). constructor. Defined.

Lemma hmac_sha256_vector_witness :
  hmac_sha256_vector [7] [[1]; [2; 3]] = Ret (HMAC [7] [1; 2; 3]).
Proof.
  apply (hmac_sha256_vector_rfc2104 [7] [[1]; [2; 3]]); [bytes_lit|].
  repeat (constructor; [bytes_lit|]). constructor.
Defined.

Lemma sha256_prf_bits_witness :
  let n := ((16 + 7) / 8)%nat in
  let out := take n (kdf_stream [7] [0x61] [1] 16 1 ((n + 31) / 32)) in
  sha256_prf_bits [7] ([0x61] ++ 0 :: []) [1] 16 =
    Ret (if (16 mod 8 =? 0)%nat then out
         else <[(n - 1)%nat := out.[n - 1] .& u8 (0xff << (8 - Z.of_nat (16 mod 8)))]> out) ∧
  length out = n.
Proof.
  apply (sha256_prf_bits_kdf [7] [0x61] [] [1] 16).
  - bytes_lit.
  - bytes_lit.
  - by repeat constructor.
  - bytes_lit.
  - vm_compute. discriminate.
Defined.
