(* ===== verification/Arc4.v ===== *)
(** * RC4 and CRC-32: the primitives of WEP and TKIP in [core/rtw_security.c] *)
From stdpp Require Import sorting.
From S2P Require Import Prelude.

(** ** RC4 *)
Record arc4context := Arc4 { arc4_x : Z; arc4_y : Z; arc4_state : list Z }.

(** One iteration of the key-scheduling loop, on [stateindex], [keyindex] and
    the state. *)
Definition arcfour_init_step (key : list Z) (key_len : Z) (st : Z * Z * list Z) (counter : nat)
    : Z * Z * list Z :=
  let '(stateindex, keyindex, state) := st in
  let t := state.[counter] in
  let stateindex := u32 (stateindex + key.[Z.to_nat keyindex] + t) .& 0xff in
  let u := state.[Z.to_nat stateindex] in
  let state := <[Z.to_nat stateindex := u8 t]> state in
  let state := <[counter := u8 u]> state in
  let keyindex := keyindex + 1 in
  (stateindex, if key_len <=? keyindex then 0 else keyindex, state).

Definition arcfour_init (key : list Z) (key_len : Z) : arc4context :=
  let state := map (λ i, u8 (Z.of_nat i)) (seq 0 256) in
  let '(_, _, state) := fold_left (arcfour_init_step key key_len) (seq 0 256) (0, 0, state) in
  Arc4 0 0 state.

Definition arcfour_byte (c : arc4context) : Z * arc4context :=
  let state := arc4_state c in
  let x := u32 (arc4_x c + 1) .& 0xff in
  let sx := state.[Z.to_nat x] in
  let y := u32 (sx + arc4_y c) .& 0xff in
  let sy := state.[Z.to_nat y] in
  let state := <[Z.to_nat y := u8 sx]> state in
  let state := <[Z.to_nat x := u8 sy]> state in
  (state.[Z.to_nat ((sx + sy) .& 0xff)], Arc4 x y state).

Fixpoint arcfour_encrypt (c : arc4context) (src : list Z) : list Z * arc4context :=
  match src with
  | [] => ([], c)
  | b :: src =>
      let '(k, c) := arcfour_byte c in
      let '(dest, c) := arcfour_encrypt c src in
      ((b ⊕ u8 k) :: dest, c)
  end.

(** ** CRC-32 *)
Definition CRC32_POLY : Z := 0x04c11db7.

Definition crc32_reverseBit (data : Z) : Z :=
  u8 (((data << 7) .& 0x80) .| ((data << 5) .& 0x40) .| ((data << 3) .& 0x20) .| ((data << 1) .& 0x10)
    .| ((data >> 1) .& 0x08) .| ((data >> 3) .& 0x04) .| ((data >> 5) .& 0x02) .| ((data >> 7) .& 0x01)).

(** [c] after the inner loop for index [i]. *)
Definition crc32_entry_loop (c : Z) (_ : nat) : Z :=
  if c .& 0x80000000 =? 0 then u32 (c << 1) else u32 (c << 1) ⊕ CRC32_POLY.
(** On a little-endian host [p[k]] is byte [k] of [c], and [p1[k]] byte [k] of
    the table entry. *)
Definition crc32_entry (i : Z) : Z :=
  let c := u32 (crc32_reverseBit (u8 i) << 24) in
  let c := fold_left crc32_entry_loop (seq 0 8) c in
  let p k := byte_at c k in
  crc32_reverseBit (p 3) .| (crc32_reverseBit (p 2) << 8) .| (crc32_reverseBit (p 1) << 16)
    .| (crc32_reverseBit (p 0) << 24).
(** The table [crc32_init] fills on the first use; nothing else writes it. *)
Definition crc32_table : list Z := Eval vm_compute in map (λ i, crc32_entry (Z.of_nat i)) (seq 0 256).

(** [buf] is the [len] bytes at the C pointer, none if [len] is negative. *)
Definition getcrc32 (buf : list Z) : Z :=
  let crc := fold_left (λ crc b, crc32_table.[Z.to_nat ((crc ⊕ b) .& 0xff)] ⊕ (crc >> 8)) buf 0xffffffff in
  u32 (Z.lnot crc).

(** "123456789" is the usual check string; its CRC-32 is 0xCBF43926. *)
Example getcrc32_check :
  getcrc32 [0x31; 0x32; 0x33; 0x34; 0x35; 0x36; 0x37; 0x38; 0x39] = 0xCBF43926.
Proof. vm_compute. reflexivity. Qed.
(** RC4 with the key "Key" on "Plaintext". *)
Example arcfour_check :
  (arcfour_encrypt (arcfour_init [0x4b; 0x65; 0x79] 3)
     [0x50; 0x6c; 0x61; 0x69; 0x6e; 0x74; 0x65; 0x78; 0x74]).1 =
  [0xBB; 0xF3; 0x16; 0xE8; 0xD9; 0x40; 0xAF; 0x0A; 0xD3].
Proof. vm_compute. reflexivity. Qed.

(** ** The RC4 state stays a permutation *)
Definition arc4_ok (c : arc4context) : Prop :=
  is_u8 (arc4_x c) ∧ is_u8 (arc4_y c) ∧ arc4_state c ≡ₚ map Z.of_nat (seq 0 256).

Lemma perm256_length (l : list Z) : l ≡ₚ map Z.of_nat (seq 0 256) → length l = 256%nat.
Proof. intros H. by rewrite H. Qed.
Lemma perm256_bytes (l : list Z) : l ≡ₚ map Z.of_nat (seq 0 256) → bytes l.
Proof.
  intros H. unfold bytes. rewrite H. apply List.Forall_forall. intros x Hx.
  apply List.in_map_iff in Hx as (i & <- & Hi%in_seq). split; [lia|]. change (2 ^ 8) with 256. lia.
Qed.
Lemma mask_index z : (Z.to_nat (z .& 0xff) < 256)%nat.
Proof. pose proof (u8_uint z) as [H0 H1]. unfold u8 in *. change (2 ^ 8) with 256 in H1. lia. Qed.

(** The exchange of two elements, as the code writes it. *)
Lemma swap_perm (l : list Z) i j :
  l ≡ₚ map Z.of_nat (seq 0 256) → (i < 256)%nat → (j < 256)%nat →
  <[i := u8 (l.[j])]> (<[j := u8 (l.[i])]> l) ≡ₚ map Z.of_nat (seq 0 256).
Proof.
  intros H Hi Hj. pose proof (perm256_length l H) as Hl. pose proof (perm256_bytes l H) as Hb.
  rewrite !u8_id by (apply aget_uint; [lia|done]). etrans; [|exact H].
  apply (Permutation_insert_swap l j i); apply lookup_aget; lia.
Qed.

Lemma arcfour_init_step_perm key key_len si ki st n :
  st ≡ₚ map Z.of_nat (seq 0 256) → (n < 256)%nat →
  (arcfour_init_step key key_len (si, ki, st) n).2 ≡ₚ map Z.of_nat (seq 0 256).
Proof.
  intros H Hn. unfold arcfour_init_step. cbn [snd]. apply swap_perm; [done|done|apply mask_index].
Qed.

Lemma arcfour_init_ok key key_len : arc4_ok (arcfour_init key key_len).
Proof.
  unfold arcfour_init.
  assert (∀ ns st, Forall (λ n, (n < 256)%nat) ns → st.2 ≡ₚ map Z.of_nat (seq 0 256) →
    (fold_left (arcfour_init_step key key_len) ns st).2 ≡ₚ map Z.of_nat (seq 0 256)) as H.
  { intros ns. induction ns as [|n ns IH]; intros [[si ki] st] Hns Hst; [done|].
    apply Forall_cons_iff in Hns as [Hn Hns]. cbn [fold_left]. apply IH; [done|].
    by apply arcfour_init_step_perm. }
  specialize (H (seq 0 256) (0, 0, map (λ i, u8 (Z.of_nat i)) (seq 0 256))).
  destruct (fold_left _ _ _) as [[si ki] st]. cbn [snd] in H.
  split_and!; [uint_lit|uint_lit|]. cbn [arc4_state]. apply H.
  - apply List.Forall_forall. intros n Hn%in_seq. lia.
  - assert (map (λ i, u8 (Z.of_nat i)) (seq 0 256) = map Z.of_nat (seq 0 256)) as -> by (vm_compute; reflexivity).
    done.
Qed.

Lemma arcfour_byte_ok c : arc4_ok c → is_u8 (arcfour_byte c).1 ∧ arc4_ok (arcfour_byte c).2.
Proof.
  intros (Hx & Hy & Hp). unfold arcfour_byte. cbn [fst snd].
  set (x := u32 _ .& 0xff). set (sx := (arc4_state c).[Z.to_nat x]).
  set (y := u32 (sx + _) .& 0xff). set (sy := (arc4_state c).[Z.to_nat y]).
  assert (<[Z.to_nat x:=u8 sy]> (<[Z.to_nat y:=u8 sx]> (arc4_state c)) ≡ₚ map Z.of_nat (seq 0 256)) as Hs
    by (apply swap_perm; [done|apply mask_index..]).
  split.
  - apply aget_uint; [lia|]. by apply perm256_bytes.
  - split_and!; [apply (u8_uint (u32 _))|apply (u8_uint (u32 _))|done].
Qed.

(** ** RC4 is a keystream cipher *)
Fixpoint arc4_stream (c : arc4context) (n : nat) : list Z * arc4context :=
  match n with
  | O => ([], c)
  | S n => let '(k, c) := arcfour_byte c in let '(ks, c) := arc4_stream c n in (u8 k :: ks, c)
  end.
Lemma arcfour_encrypt_stream c src :
  arcfour_encrypt c src = (xor_bytes src (arc4_stream c (length src)).1, (arc4_stream c (length src)).2).
Proof.
  revert c. induction src as [|b src IH]; intros c; [done|]. cbn [arcfour_encrypt length arc4_stream].
  destruct (arcfour_byte c) as [k c']. rewrite IH. by destruct (arc4_stream c' (length src)) as [ks c''].
Qed.
Lemma arc4_stream_length c n : length (arc4_stream c n).1 = n.
Proof.
  revert c. induction n as [|n IH]; intros c; [done|]. cbn [arc4_stream].
  destruct (arcfour_byte c) as [k c']. specialize (IH c'). destruct (arc4_stream c' n). cbn in *. lia.
Qed.
Lemma arc4_stream_bytes c n : bytes (arc4_stream c n).1.
Proof.
  revert c. induction n as [|n IH]; intros c; [constructor|]. cbn [arc4_stream].
  destruct (arcfour_byte c) as [k c']. specialize (IH c'). destruct (arc4_stream c' n).
  cbn [fst] in *. constructor; [apply u8_uint|done].
Qed.
Lemma arcfour_encrypt_app c a b :
  (arcfour_encrypt c (a ++ b)).1 =
    (arcfour_encrypt c a).1 ++ (arcfour_encrypt (arcfour_encrypt c a).2 b).1.
Proof.
  revert c. induction a as [|x a IH]; intros c; [done|]. cbn [app arcfour_encrypt].
  destruct (arcfour_byte c) as [k c']. specialize (IH c').
  destruct (arcfour_encrypt c' (a ++ b)), (arcfour_encrypt c' a) as [d c'']. cbn [fst snd] in *.
  by rewrite IH.
Qed.
Lemma length_arcfour_encrypt c src : length (arcfour_encrypt c src).1 = length src.
Proof.
  rewrite arcfour_encrypt_stream. cbn [fst]. apply length_xor_bytes_le. by rewrite arc4_stream_length.
Qed.
Lemma arcfour_encrypt_bytes c src : bytes src → bytes (arcfour_encrypt c src).1.
Proof.
  intros H. rewrite arcfour_encrypt_stream. cbn [fst]. apply xor_bytes_uint; [done|apply arc4_stream_bytes].
Qed.
Lemma arcfour_twice c src : (arcfour_encrypt c (arcfour_encrypt c src).1).1 = src.
Proof.
  rewrite (arcfour_encrypt_stream c (arcfour_encrypt c src).1), length_arcfour_encrypt.
  rewrite (arcfour_encrypt_stream c src). cbn [fst]. apply xor_bytes_twice. by rewrite arc4_stream_length.
Qed.

(** ** CRC-32 bit by bit *)

(** One step of the reflected shift register of IEEE 802.3. *)
Definition crc_step (c : Z) : Z := (c >> 1) ⊕ (if Z.odd c then 0xEDB88320 else 0).
Fixpoint crc_steps (n : nat) (c : Z) : Z :=
  match n with O => c | S n => crc_steps n (crc_step c) end.
(** Each byte enters low bit first; the register starts and ends complemented. *)
Definition crc_feed (c : Z) (m : list Z) : Z := fold_left (λ c b, crc_steps 8 (c ⊕ b)) m c.
Definition CRC32 (m : list Z) : Z := crc_feed 0xffffffff m ⊕ 0xffffffff.

Lemma crc_step_lxor a b : crc_step (a ⊕ b) = crc_step a ⊕ crc_step b.
Proof.
  unfold crc_step. rewrite Z.shiftr_lxor, <- !Z.bit0_odd, Z.lxor_spec, <- lxor_interchange. f_equal.
  destruct (Z.testbit a 0), (Z.testbit b 0); cbn [xorb];
    by rewrite ?Z.lxor_nilpotent, ?Z.lxor_0_r, ?Z.lxor_0_l.
Qed.
Lemma crc_steps_lxor n a b : crc_steps n (a ⊕ b) = crc_steps n a ⊕ crc_steps n b.
Proof. revert a b. induction n as [|n IH]; intros a b; [done|]. cbn [crc_steps]. by rewrite crc_step_lxor, IH. Qed.
Lemma crc_steps_add n k c : crc_steps (n + k) c = crc_steps k (crc_steps n c).
Proof. revert c. induction n as [|n IH]; intros c; [done|]. cbn [Nat.add crc_steps]. apply IH. Qed.
Lemma crc_step_even x : crc_step (2 * x) = x.
Proof.
  unfold crc_step. rewrite Z.odd_mul. cbn [Z.odd andb]. rewrite Z.lxor_0_r, Z.shiftr_div_pow2 by lia.
  rewrite Z.mul_comm, Z.div_mul by lia. done.
Qed.
(** Bits above the processed ones just move down. *)
Lemma crc_steps_shift n x : crc_steps n (x << Z.of_nat n) = x.
Proof.
  revert x. induction n as [|n IH]; intros x; [apply Z.shiftl_0_r|]. cbn [crc_steps].
  assert (x << Z.of_nat (S n) = 2 * (x << Z.of_nat n)) as ->.
  { rewrite !Z.shiftl_mul_pow2, Nat2Z.inj_succ, Z.pow_succ_r by lia. ring. }
  by rewrite crc_step_even.
Qed.
Lemma crc_step_uint c : is_u32 c → is_u32 (crc_step c).
Proof.
  intros H. unfold crc_step. apply uint_lxor; [lia|by apply uint_shiftr|].
  destruct (Z.odd c); uint_lit.
Qed.
Lemma crc_steps_uint n c : is_u32 c → is_u32 (crc_steps n c).
Proof. revert c. induction n as [|n IH]; intros c H; [done|]. by apply IH, crc_step_uint. Qed.

Lemma crc_table_steps i : is_u8 i → crc32_table.[Z.to_nat i] = crc_steps 8 i.
Proof.
  intros Hi. apply (all_u8 (λ i, crc32_table.[Z.to_nat i]) (crc_steps 8)); [|done].
  vm_compute. reflexivity.
Qed.

Lemma split_low8 c : 0 ≤ c → c = (c .& 0xff) ⊕ ((c >> 8) << 8).
Proof.
  intros Hc. apply Z.bits_inj'. intros i Hi. change 0xff with (Z.ones 8).
  rewrite Z.lxor_spec, Z.land_spec, Z.testbit_ones_nonneg, Z.shiftl_spec by lia.
  destruct (Z.ltb_spec i 8).
  - by rewrite (Z.testbit_neg_r _ (i - 8)), andb_true_r, xorb_false_r by lia.
  - rewrite andb_false_r, Z.shiftr_spec by lia. cbn [xorb]. f_equal. lia.
Qed.

Lemma crc_table_step c b :
  is_u32 c → is_u8 b →
  crc32_table.[Z.to_nat ((c ⊕ b) .& 0xff)] ⊕ (c >> 8) = crc_steps 8 (c ⊕ b).
Proof.
  intros Hc Hb. rewrite crc_table_steps by apply (u8_uint (c ⊕ b)).
  rewrite (split_low8 (c ⊕ b)) at 2 by (apply Z.lxor_nonneg; destruct Hc, Hb; lia).
  rewrite crc_steps_lxor. f_equal. change 8 with (Z.of_nat 8) at 3. rewrite crc_steps_shift.
  rewrite Z.shiftr_lxor, (Z.shiftr_div_pow2 b), (Z.div_small b), Z.lxor_0_r by (lia || done). done.
Qed.

Lemma crc_feed_uint c m : is_u32 c → bytes m → is_u32 (crc_feed c m).
Proof.
  intros Hc Hm. revert c Hc. induction Hm as [|b m Hb Hm IH]; intros c Hc; [done|].
  apply IH, crc_steps_uint, uint_lxor; [lia|done|]. by apply (uint_weaken 8).
Qed.

Lemma lnot_u32 c : is_u32 c → u32 (Z.lnot c) = c ⊕ 0xffffffff.
Proof.
  intros Hc. apply (uint_eq_bits 32); [apply u32_uint|apply uint_lxor; [lia|done|uint_lit]|].
  intros i Hi. unfold u32. change 0xffffffff with (Z.ones 32).
  rewrite Z.land_spec, Z.lxor_spec, Z.lnot_spec, Z.testbit_ones_nonneg, (proj2 (Z.ltb_lt i 32)) by lia.
  by destruct (Z.testbit c i).
Qed.

Lemma getcrc32_eq m : bytes m → getcrc32 m = CRC32 m.
Proof.
  intros Hm. unfold getcrc32, CRC32, crc_feed. cbv zeta.
  assert (is_u32 0xffffffff) as Hi by uint_lit.
  destruct (fold_left_rel (λ a b, a = b ∧ is_u32 a)
    (λ crc b, crc32_table.[Z.to_nat ((crc ⊕ b) .& 0xff)] ⊕ (crc >> 8)) (λ c b, crc_steps 8 (c ⊕ b))
    is_u8 m 0xffffffff 0xffffffff (conj eq_refl Hi) Hm) as [H Hu].
  { intros c c' b [<- Hc] Hb. rewrite crc_table_step by done. split; [done|].
    apply crc_steps_uint, uint_lxor; [lia|done|]. by apply (uint_weaken 8). }
  rewrite <- H. by apply lnot_u32.
Qed.

(** Four bytes enter as one little-endian word. *)
Definition le32 (v : Z) : list Z := [byte_at v 0; byte_at v 1; byte_at v 2; byte_at v 3].

Lemma crc_feed_app c a b : crc_feed c (a ++ b) = crc_feed (crc_feed c a) b.
Proof. unfold crc_feed. by rewrite fold_left_app. Qed.

Lemma crc_feed4 c b0 b1 b2 b3 :
  crc_feed c [b0; b1; b2; b3] = crc_steps 32 (c ⊕ (b0 ⊕ (b1 << 8) ⊕ (b2 << 16) ⊕ (b3 << 24))).
Proof.
  unfold crc_feed. cbn [fold_left].
  assert (∀ n m c b, crc_steps n (crc_steps m c ⊕ b) = crc_steps (m + n) (c ⊕ (b << Z.of_nat m))) as H.
  { intros n m x b. rewrite crc_steps_add. f_equal. by rewrite crc_steps_lxor, crc_steps_shift. }
  rewrite (H 8%nat 8%nat (c ⊕ b0) b1), (H 8%nat (8 + 8)%nat _ b2), (H 8%nat (8 + 8 + 8)%nat _ b3).
  change (8 + 8 + 8 + 8)%nat with 32%nat. f_equal. change (Z.of_nat 8) with 8.
  change (Z.of_nat (8 + 8)) with 16. change (Z.of_nat (8 + 8 + 8)) with 24. by rewrite !Z.lxor_assoc.
Qed.

Lemma le32_word v : is_u32 v → byte_at v 0 ⊕ (byte_at v 1 << 8) ⊕ (byte_at v 2 << 16) ⊕ (byte_at v 3 << 24) = v.
Proof.
  intros Hv. rewrite <- (be32_byte_at v Hv) at 5. unfold be32.
  apply Z.bits_inj'. intros i _. rewrite !Z.lxor_spec.
  by destruct (Z.testbit (byte_at v 0) i), (Z.testbit (byte_at v 1 << 8) i),
    (Z.testbit (byte_at v 2 << 16) i), (Z.testbit (byte_at v 3 << 24) i).
Qed.

Lemma crc_step_inj c c' : is_u32 c → is_u32 c' → crc_step c = crc_step c' → c = c'.
Proof.
  intros Hc Hc' H. apply Z.lxor_eq_0_iff.
  assert (is_u32 (c ⊕ c')) as Hd by auto with machine.
  assert (crc_step (c ⊕ c') = 0) as H0 by (rewrite crc_step_lxor, H; apply Z.lxor_nilpotent).
  set (d := c ⊕ c') in *. clearbody d. unfold crc_step in H0. apply Z.lxor_eq in H0.
  rewrite Z.shiftr_div_pow2 in H0 by lia. change (2 ^ 1) with 2 in H0.
  destruct Hd as [Hd0 Hd1]. change (2 ^ 32) with 4294967296 in Hd1.
  pose proof (Z.div_mod d 2 ltac:(lia)). pose proof (Z.mod_pos_bound d 2 ltac:(lia)).
  destruct (Z.odd d) eqn:Ho; cbv iota in H0; [lia|]. rewrite Zodd_mod in Ho. apply Z.eqb_neq in Ho. lia.
Qed.
Lemma crc_steps_inj n c c' : is_u32 c → is_u32 c' → crc_steps n c = crc_steps n c' → c = c'.
Proof.
  revert c c'. induction n as [|n IH]; intros c c' Hc Hc' H; [done|].
  apply crc_step_inj; [done|done|]. apply IH; [by apply crc_step_uint..|done].
Qed.
Lemma crc_feed_inj m c c' : bytes m → is_u32 c → is_u32 c' → crc_feed c m = crc_feed c' m → c = c'.
Proof.
  intros Hm. revert c c'. induction Hm as [|b m Hb Hm IH]; intros c c' Hc Hc' H; [done|].
  assert (is_u32 b) as Hb' by (by apply (uint_weaken 8)).
  apply IH in H; [|by apply crc_steps_uint, uint_lxor..].
  apply crc_steps_inj in H; [|by apply uint_lxor..].
  apply (f_equal (λ z, z ⊕ b)) in H. by rewrite !Z.lxor_assoc, Z.lxor_nilpotent, !Z.lxor_0_r in H.
Qed.

(** RC4 is sound as a cipher: after key scheduling, whatever the key, and
    after every byte of keystream, the 256-byte state is a permutation of
    0..255 and both indices are bytes, so every table access is in range; and
    encrypting twice from the same state restores the text. *)
Theorem arcfour_invariant key key_len src :
  arc4_ok (arcfour_init key key_len) ∧
  (∀ c, arc4_ok c → is_u8 (arcfour_byte c).1 ∧ arc4_ok (arcfour_byte c).2) ∧
  (∀ c, (arcfour_encrypt c (arcfour_encrypt c src).1).1 = src).
Proof.
  split; [apply arcfour_init_ok|]. split; [apply arcfour_byte_ok|]. intros c. apply arcfour_twice.
Qed.

(** [getcrc32], with the byte table [crc32_init] builds out of bit-reversed
    entries, is the bit-serial CRC-32 of IEEE 802.3; appending the checksum
    little-endian, as WEP and TKIP do, gives the fixed residue 0x2144df1c; and
    every change confined to four consecutive bytes changes the checksum. *)
Theorem getcrc32_crc32 m :
  bytes m →
  getcrc32 m = CRC32 m ∧
  getcrc32 (m ++ le32 (getcrc32 m)) = 0x2144df1c ∧
  ∀ p w w' s, m = p ++ w ++ s → length w = 4%nat → length w' = 4%nat → bytes w' → w ≠ w' →
    getcrc32 (p ++ w' ++ s) ≠ getcrc32 m.
Proof.
  intros Hm. assert (is_u32 0xffffffff) as Hi by uint_lit. split; [by apply getcrc32_eq|]. split.
  - rewrite getcrc32_eq by (apply bytes_app; [done|]; unfold le32;
      repeat (constructor; [apply byte_at_uint|]); constructor).
    rewrite (getcrc32_eq m Hm). unfold CRC32 at 1. rewrite crc_feed_app.
    assert (is_u32 (CRC32 m)) as Hc by (apply uint_lxor; [lia|by apply crc_feed_uint|done]).
    unfold le32. rewrite crc_feed4, (le32_word (CRC32 m) Hc). unfold CRC32.
    rewrite <- Z.lxor_assoc, Z.lxor_nilpotent, Z.lxor_0_l. vm_compute. reflexivity.
  - intros p w w' s -> Lw Lw' Bw' Hne.
    apply Forall_app in Hm as [Bp Hm]. apply Forall_app in Hm as [Bw Bs].
    rewrite !getcrc32_eq by (apply bytes_app; [done|by apply bytes_app]). unfold CRC32. intros H.
    apply (f_equal (λ z, z ⊕ 0xffffffff)) in H.
    rewrite !Z.lxor_assoc, Z.lxor_nilpotent, !Z.lxor_0_r, !crc_feed_app in H.
    pose proof (crc_feed_uint _ p Hi Bp) as Hp. set (c := crc_feed 0xffffffff p) in *.
    apply crc_feed_inj in H; [|done|by apply crc_feed_uint..].
    apply Hne. clear -H Lw Lw' Bw Bw' Hp.
    do 4 (destruct w as [|? w]; [done|]). destruct w; [|done].
    do 4 (destruct w' as [|? w']; [done|]). destruct w'; [|done].
    unfold bytes in *. rewrite !Forall_cons_iff in Bw, Bw'.
    destruct Bw as (?&?&?&?&_), Bw' as (?&?&?&?&_).
    rewrite !crc_feed4 in H.
    assert (∀ a b c d, a ⊕ (b << 8) ⊕ (c << 16) ⊕ (d << 24) = be32 d c b a) as Hbe.
    { intros a b e d. unfold be32. apply Z.bits_inj'. intros i _. rewrite !Z.lxor_spec.
      by destruct (Z.testbit a i), (Z.testbit (b << 8) i), (Z.testbit (e << 16) i), (Z.testbit (d << 24) i). }
    rewrite !Hbe in H. apply crc_steps_inj in H; [|by apply uint_lxor; [lia|done|by apply be32_uint]..].
    apply (f_equal (λ z, c ⊕ z)) in H. rewrite <- !Z.lxor_assoc, Z.lxor_nilpotent, !Z.lxor_0_l in H.
    pose proof (f_equal (λ z, byte_at z 0) H) as E0. pose proof (f_equal (λ z, byte_at z 1) H) as E1.
    pose proof (f_equal (λ z, byte_at z 2) H) as E2. pose proof (f_equal (λ z, byte_at z 3) H) as E3.
    cbn beta in *. rewrite !byte_at_be32_0 in E0 by done. rewrite !byte_at_be32_1 in E1 by done.
    rewrite !byte_at_be32_2 in E2 by done. rewrite !byte_at_be32_3 in E3 by done. congruence.
Qed.

Lemma getcrc32_witness : getcrc32 ([1; 2; 3] ++ le32 (getcrc32 [1; 2; 3])) = 0x2144df1c.
Proof. apply (getcrc32_crc32 [1; 2; 3]). bytes_lit. Defined.
