(* ===== verification/Tkip.v ===== *)
(** * TKIP: the Michael MIC and the key mixing of [core/rtw_security.c] *)
From S2P Require Import Prelude Fips197 Arc4.

(** ** Michael *)
Record mic_data := Mic {
  K0 : Z; K1 : Z;       (* key *)
  mL : Z; mR : Z;       (* current state *)
  mM : Z;               (* message accumulator *)
  nBytesInM : nat       (* bytes in the accumulator *)
}.

Definition secmicgetuint32 (p : list Z) : Z :=
  fold_left (λ res i, res .| u32 (p.[i] << (8 * Z.of_nat i))) (seq 0 4) 0.
Definition secmicputuint32 (val : Z) : list Z :=
  [u8 (val .& 0xff); u8 ((val >> 8) .& 0xff); u8 (((val >> 8) >> 8) .& 0xff);
   u8 ((((val >> 8) >> 8) >> 8) .& 0xff)].

Definition secmicclear (d : mic_data) : mic_data := Mic (K0 d) (K1 d) (K0 d) (K1 d) 0 0.
Definition rtw_secmicsetkey (key : list Z) : mic_data :=
  secmicclear (Mic (secmicgetuint32 key) (secmicgetuint32 (drop 4 key)) 0 0 0 0).

Definition ROL32 (A n : Z) : Z := u32 (A << n) .| ((A >> (32 - n)) .& ((1 << n) - 1)).
Definition ROR32 (A n : Z) : Z := ROL32 A (32 - n).

(** The statements that run when the accumulator is full. *)
Definition michael_block (L R M : Z) : Z * Z :=
  let L := L ⊕ M in
  let R := u32 (R ⊕ ROL32 L 17) in
  let L := u32 (L + R) in
  let R := u32 (R ⊕ (((L .& 0xff00ff00) >> 8) .| u32 ((L .& 0x00ff00ff) << 8))) in
  let L := u32 (L + R) in
  let R := u32 (R ⊕ ROL32 L 3) in
  let L := u32 (L + R) in
  let R := u32 (R ⊕ ROR32 L 2) in
  let L := u32 (L + R) in
  (L, R).

Definition rtw_secmicappendbyte (d : mic_data) (b : Z) : mic_data :=
  let M := u32 (mM d .| (b << (8 * Z.of_nat (nBytesInM d)))) in
  let n := S (nBytesInM d) in
  if (4 <=? n)%nat then
    let '(L, R) := michael_block (mL d) (mR d) M in Mic (K0 d) (K1 d) L R 0 0
  else Mic (K0 d) (K1 d) (mL d) (mR d) M n.
Definition rtw_secmicappend (d : mic_data) (src : list Z) : mic_data :=
  fold_left rtw_secmicappendbyte src d.

(** [while (nBytesInM != 0)]: at most three iterations are needed. *)
Fixpoint secmic_flush (fuel : nat) (d : mic_data) : mic_data :=
  match fuel with
  | O => d
  | S fuel => if (nBytesInM d =? 0)%nat then d else secmic_flush fuel (rtw_secmicappendbyte d 0)
  end.
(** The eight bytes of [dst] and the reset state. *)
Definition rtw_secgetmic (d : mic_data) : list Z * mic_data :=
  let d := rtw_secmicappendbyte d 0x5a in
  let d := rtw_secmicappendbyte d 0 in
  let d := rtw_secmicappendbyte d 0 in
  let d := rtw_secmicappendbyte d 0 in
  let d := rtw_secmicappendbyte d 0 in
  let d := secmic_flush 3 d in
  (secmicputuint32 (mL d) ++ secmicputuint32 (mR d), secmicclear d).

Definition rtw_seccalctkipmic (key header data : list Z) (pri : Z) : list Z :=
  let d := rtw_secmicsetkey key in
  let d :=
    if header.[1] .& 1 =? 0 then
      let d := rtw_secmicappend d (take 6 (drop 4 header)) in
      if header.[1] .& 2 =? 0 then rtw_secmicappend d (take 6 (drop 10 header))
      else rtw_secmicappend d (take 6 (drop 16 header))
    else
      let d := rtw_secmicappend d (take 6 (drop 16 header)) in
      if header.[1] .& 2 =? 0 then rtw_secmicappend d (take 6 (drop 10 header))
      else rtw_secmicappend d (take 6 (drop 24 header)) in
  let d := rtw_secmicappend d [pri; 0; 0; 0] in
  let d := rtw_secmicappend d data in
  (rtw_secgetmic d).1.

(** ** Key mixing *)
Definition RotR1 (v16 : Z) : Z := ((v16 >> 1) .& 0x7FFF) ⊕ ((v16 .& 1) << 15).
Definition Lo8 (v16 : Z) : Z := u8 (v16 .& 0x00FF).
Definition Hi8 (v16 : Z) : Z := u8 ((v16 >> 8) .& 0x00FF).
Definition Lo16 (v32 : Z) : Z := u16 (v32 .& 0xFFFF).
Definition Hi16 (v32 : Z) : Z := u16 ((v32 >> 16) .& 0xFFFF).
Definition Mk16 (hi lo : Z) : Z := lo ⊕ (u16 hi << 8).
Definition TK16 (tk : list Z) (N : nat) : Z := Mk16 (tk.[2 * N + 1]) (tk.[2 * N]).

(** [Sbox1[0]] and [Sbox1[1]]. *)
Definition Sbox1_0 : list Z :=
  [0xC6A5; 0xF884; 0xEE99; 0xF68D; 0xFF0D; 0xD6BD; 0xDEB1; 0x9154; 0x6050; 0x0203;
   0xCEA9; 0x567D; 0xE719; 0xB562; 0x4DE6; 0xEC9A; 0x8F45; 0x1F9D; 0x8940; 0xFA87;
   0xEF15; 0xB2EB; 0x8EC9; 0xFB0B; 0x41EC; 0xB367; 0x5FFD; 0x45EA; 0x23BF; 0x53F7;
   0xE496; 0x9B5B; 0x75C2; 0xE11C; 0x3DAE; 0x4C6A; 0x6C5A; 0x7E41; 0xF502; 0x834F;
   0x685C; 0x51F4; 0xD134; 0xF908; 0xE293; 0xAB73; 0x6253; 0x2A3F; 0x080C; 0x9552;
   0x4665; 0x9D5E; 0x3028; 0x37A1; 0x0A0F; 0x2FB5; 0x0E09; 0x2436; 0x1B9B; 0xDF3D;
   0xCD26; 0x4E69; 0x7FCD; 0xEA9F; 0x121B; 0x1D9E; 0x5874; 0x342E; 0x362D; 0xDCB2;
   0xB4EE; 0x5BFB; 0xA4F6; 0x764D; 0xB761; 0x7DCE; 0x527B; 0xDD3E; 0x5E71; 0x1397;
   0xA6F5; 0xB968; 0x0000; 0xC12C; 0x4060; 0xE31F; 0x79C8; 0xB6ED; 0xD4BE; 0x8D46;
   0x67D9; 0x724B; 0x94DE; 0x98D4; 0xB0E8; 0x854A; 0xBB6B; 0xC52A; 0x4FE5; 0xED16;
   0x86C5; 0x9AD7; 0x6655; 0x1194; 0x8ACF; 0xE910; 0x0406; 0xFE81; 0xA0F0; 0x7844;
   0x25BA; 0x4BE3; 0xA2F3; 0x5DFE; 0x80C0; 0x058A; 0x3FAD; 0x21BC; 0x7048; 0xF104;
   0x63DF; 0x77C1; 0xAF75; 0x4263; 0x2030; 0xE51A; 0xFD0E; 0xBF6D; 0x814C; 0x1814;
   0x2635; 0xC32F; 0xBEE1; 0x35A2; 0x88CC; 0x2E39; 0x9357; 0x55F2; 0xFC82; 0x7A47;
   0xC8AC; 0xBAE7; 0x322B; 0xE695; 0xC0A0; 0x1998; 0x9ED1; 0xA37F; 0x4466; 0x547E;
   0x3BAB; 0x0B83; 0x8CCA; 0xC729; 0x6BD3; 0x283C; 0xA779; 0xBCE2; 0x161D; 0xAD76;
   0xDB3B; 0x6456; 0x744E; 0x141E; 0x92DB; 0x0C0A; 0x486C; 0xB8E4; 0x9F5D; 0xBD6E;
   0x43EF; 0xC4A6; 0x39A8; 0x31A4; 0xD337; 0xF28B; 0xD532; 0x8B43; 0x6E59; 0xDAB7;
   0x018C; 0xB164; 0x9CD2; 0x49E0; 0xD8B4; 0xACFA; 0xF307; 0xCF25; 0xCAAF; 0xF48E;
   0x47E9; 0x1018; 0x6FD5; 0xF088; 0x4A6F; 0x5C72; 0x3824; 0x57F1; 0x73C7; 0x9751;
   0xCB23; 0xA17C; 0xE89C; 0x3E21; 0x96DD; 0x61DC; 0x0D86; 0x0F85; 0xE090; 0x7C42;
   0x71C4; 0xCCAA; 0x90D8; 0x0605; 0xF701; 0x1C12; 0xC2A3; 0x6A5F; 0xAEF9; 0x69D0;
   0x1791; 0x9958; 0x3A27; 0x27B9; 0xD938; 0xEB13; 0x2BB3; 0x2233; 0xD2BB; 0xA970;
   0x0789; 0x33A7; 0x2DB6; 0x3C22; 0x1592; 0xC920; 0x8749; 0xAAFF; 0x5078; 0xA57A;
   0x038F; 0x59F8; 0x0980; 0x1A17; 0x65DA; 0xD731; 0x84C6; 0xD0B8; 0x82C3; 0x29B0;
   0x5A77; 0x1E11; 0x7BCB; 0xA8FC; 0x6DD6; 0x2C3A].
Definition Sbox1_1 : list Z :=
  [0xA5C6; 0x84F8; 0x99EE; 0x8DF6; 0x0DFF; 0xBDD6; 0xB1DE; 0x5491; 0x5060; 0x0302;
   0xA9CE; 0x7D56; 0x19E7; 0x62B5; 0xE64D; 0x9AEC; 0x458F; 0x9D1F; 0x4089; 0x87FA;
   0x15EF; 0xEBB2; 0xC98E; 0x0BFB; 0xEC41; 0x67B3; 0xFD5F; 0xEA45; 0xBF23; 0xF753;
   0x96E4; 0x5B9B; 0xC275; 0x1CE1; 0xAE3D; 0x6A4C; 0x5A6C; 0x417E; 0x02F5; 0x4F83;
   0x5C68; 0xF451; 0x34D1; 0x08F9; 0x93E2; 0x73AB; 0x5362; 0x3F2A; 0x0C08; 0x5295;
   0x6546; 0x5E9D; 0x2830; 0xA137; 0x0F0A; 0xB52F; 0x090E; 0x3624; 0x9B1B; 0x3DDF;
   0x26CD; 0x694E; 0xCD7F; 0x9FEA; 0x1B12; 0x9E1D; 0x7458; 0x2E34; 0x2D36; 0xB2DC;
   0xEEB4; 0xFB5B; 0xF6A4; 0x4D76; 0x61B7; 0xCE7D; 0x7B52; 0x3EDD; 0x715E; 0x9713;
   0xF5A6; 0x68B9; 0x0000; 0x2CC1; 0x6040; 0x1FE3; 0xC879; 0xEDB6; 0xBED4; 0x468D;
   0xD967; 0x4B72; 0xDE94; 0xD498; 0xE8B0; 0x4A85; 0x6BBB; 0x2AC5; 0xE54F; 0x16ED;
   0xC586; 0xD79A; 0x5566; 0x9411; 0xCF8A; 0x10E9; 0x0604; 0x81FE; 0xF0A0; 0x4478;
   0xBA25; 0xE34B; 0xF3A2; 0xFE5D; 0xC080; 0x8A05; 0xAD3F; 0xBC21; 0x4870; 0x04F1;
   0xDF63; 0xC177; 0x75AF; 0x6342; 0x3020; 0x1AE5; 0x0EFD; 0x6DBF; 0x4C81; 0x1418;
   0x3526; 0x2FC3; 0xE1BE; 0xA235; 0xCC88; 0x392E; 0x5793; 0xF255; 0x82FC; 0x477A;
   0xACC8; 0xE7BA; 0x2B32; 0x95E6; 0xA0C0; 0x9819; 0xD19E; 0x7FA3; 0x6644; 0x7E54;
   0xAB3B; 0x830B; 0xCA8C; 0x29C7; 0xD36B; 0x3C28; 0x79A7; 0xE2BC; 0x1D16; 0x76AD;
   0x3BDB; 0x5664; 0x4E74; 0x1E14; 0xDB92; 0x0A0C; 0x6C48; 0xE4B8; 0x5D9F; 0x6EBD;
   0xEF43; 0xA6C4; 0xA839; 0xA431; 0x37D3; 0x8BF2; 0x32D5; 0x438B; 0x596E; 0xB7DA;
   0x8C01; 0x64B1; 0xD29C; 0xE049; 0xB4D8; 0xFAAC; 0x07F3; 0x25CF; 0xAFCA; 0x8EF4;
   0xE947; 0x1810; 0xD56F; 0x88F0; 0x6F4A; 0x725C; 0x2438; 0xF157; 0xC773; 0x5197;
   0x23CB; 0x7CA1; 0x9CE8; 0x213E; 0xDD96; 0xDC61; 0x860D; 0x850F; 0x90E0; 0x427C;
   0xC471; 0xAACC; 0xD890; 0x0506; 0x01F7; 0x121C; 0xA3C2; 0x5F6A; 0xF9AE; 0xD069;
   0x9117; 0x5899; 0x273A; 0xB927; 0x38D9; 0x13EB; 0xB32B; 0x3322; 0xBBD2; 0x70A9;
   0x8907; 0xA733; 0xB62D; 0x223C; 0x9215; 0x20C9; 0x4987; 0xFFAA; 0x7850; 0x7AA5;
   0x8F03; 0xF859; 0x8009; 0x171A; 0xDA65; 0x31D7; 0xC684; 0xB8D0; 0xC382; 0xB029;
   0x775A; 0x111E; 0xCB7B; 0xFCA8; 0xD66D; 0x3A2C].
Definition S_ (v16 : Z) : Z := Sbox1_0.[Z.to_nat (Lo8 v16)] ⊕ Sbox1_1.[Z.to_nat (Hi8 v16)].

Definition PHASE1_LOOP_CNT : nat := 8.

(** [a[i] += v] on an array of 16-bit words. *)
Definition addto (a : list Z) (i : nat) (v : Z) : list Z := <[i := u16 (a.[i] + v)]> a.

Definition phase1_step (tk : list Z) (p1k : list Z) (i : nat) : list Z :=
  let o := (i mod 2)%nat in
  let p1k := addto p1k 0 (S_ (p1k.[4] ⊕ TK16 tk (o + 0))) in
  let p1k := addto p1k 1 (S_ (p1k.[0] ⊕ TK16 tk (o + 2))) in
  let p1k := addto p1k 2 (S_ (p1k.[1] ⊕ TK16 tk (o + 4))) in
  let p1k := addto p1k 3 (S_ (p1k.[2] ⊕ TK16 tk (o + 6))) in
  let p1k := addto p1k 4 (S_ (p1k.[3] ⊕ TK16 tk (o + 0))) in
  addto p1k 4 (u16 (Z.of_nat i)).
Definition phase1 (tk ta : list Z) (iv32 : Z) : list Z :=
  let p1k := [Lo16 iv32; Hi16 iv32; Mk16 (ta.[1]) (ta.[0]); Mk16 (ta.[3]) (ta.[2]);
              Mk16 (ta.[5]) (ta.[4])] in
  fold_left (phase1_step tk) (seq 0 PHASE1_LOOP_CNT) p1k.

(** The two sweeps over [PPK]. *)
Definition phase2_mix (tk PPK : list Z) : list Z :=
  let PPK := addto PPK 0 (S_ (PPK.[5] ⊕ TK16 tk 0)) in
  let PPK := addto PPK 1 (S_ (PPK.[0] ⊕ TK16 tk 1)) in
  let PPK := addto PPK 2 (S_ (PPK.[1] ⊕ TK16 tk 2)) in
  let PPK := addto PPK 3 (S_ (PPK.[2] ⊕ TK16 tk 3)) in
  let PPK := addto PPK 4 (S_ (PPK.[3] ⊕ TK16 tk 4)) in
  let PPK := addto PPK 5 (S_ (PPK.[4] ⊕ TK16 tk 5)) in
  let PPK := addto PPK 0 (RotR1 (PPK.[5] ⊕ TK16 tk 6)) in
  let PPK := addto PPK 1 (RotR1 (PPK.[0] ⊕ TK16 tk 7)) in
  let PPK := addto PPK 2 (RotR1 (PPK.[1])) in
  let PPK := addto PPK 3 (RotR1 (PPK.[2])) in
  let PPK := addto PPK 4 (RotR1 (PPK.[3])) in
  addto PPK 5 (RotR1 (PPK.[4])).
Definition phase2 (tk p1k : list Z) (iv16 : Z) : list Z :=
  let PPK := map (aget p1k) (seq 0 5) ++ [u16 (p1k.[4] + iv16)] in
  let PPK := phase2_mix tk PPK in
  [Hi8 iv16; ((Hi8 iv16) .| 0x20) .& 0x7F; Lo8 iv16; Lo8 ((PPK.[5] ⊕ TK16 tk 0) >> 1)]
  ++ concat (map (λ i, [Lo8 (PPK.[i]); Hi8 (PPK.[i])]) (seq 0 6)).

(** ** Michael as IEEE 802.11 defines it *)
Definition rotl32 (x n : Z) : Z := x * 2 ^ n mod 2 ^ 32 + x / 2 ^ (32 - n).
Definition rotr32 (x n : Z) : Z := rotl32 x (32 - n).
(** The bytes of each half exchanged. *)
Definition XSWAP (x : Z) : Z := be32 (byte_at x 2) (byte_at x 3) (byte_at x 0) (byte_at x 1).
(** The block function of the standard. *)
Definition b_fun (l r : Z) : Z * Z :=
  let r := r ⊕ rotl32 l 17 in let l := (l + r) mod 2 ^ 32 in
  let r := r ⊕ XSWAP l in let l := (l + r) mod 2 ^ 32 in
  let r := r ⊕ rotl32 l 3 in let l := (l + r) mod 2 ^ 32 in
  let r := r ⊕ rotr32 l 2 in let l := (l + r) mod 2 ^ 32 in
  (l, r).
(** The words of a byte string, least significant byte first. *)
Fixpoint le_words (m : list Z) : list Z :=
  match m with
  | a :: b :: c :: d :: m => be32 d c b a :: le_words m
  | _ => []
  end.
Definition michael_pad (m : list Z) : list Z :=
  let m := m ++ [0x5a; 0; 0; 0; 0] in m ++ replicate ((4 - length m mod 4) mod 4) 0.
Definition Michael (key m : list Z) : list Z :=
  let '(l, r) := fold_left (λ '(l, r) w, b_fun (l ⊕ w) r) (le_words (michael_pad m))
                   (be32 key.[3] key.[2] key.[1] key.[0], be32 key.[7] key.[6] key.[5] key.[4]) in
  le32 l ++ le32 r.

(** *** The word operations *)
Lemma rotl32_bits A n : is_u32 A → 0 < n < 32 → rotl32 A n = u32 (A << n) .| (A >> (32 - n)).
Proof.
  intros HA Hn. unfold rotl32.
  assert (0 ≤ A / 2 ^ (32 - n) < 2 ^ n) as [Hq0 Hq1].
  { destruct HA as [H0 H1]. split; [apply Z.div_pos; lia|].
    apply Z.div_lt_upper_bound; [lia|]. rewrite <- Z.pow_add_r by lia.
    by replace (32 - n + n) with 32 by lia. }
  rewrite u32_mod, Z.shiftl_mul_pow2, Z.shiftr_div_pow2 by lia. apply Z.add_nocarry_lor.
  apply Z.bits_inj'. intros i Hi. rewrite Z.land_spec, Z.bits_0.
  destruct (decide (i < n)).
  - rewrite Z.mod_pow2_bits_low, Z.mul_pow2_bits_low by lia. done.
  - rewrite (uint_testbit n (A / _)) by (by (split; lia) || lia). apply andb_false_r.
Qed.

Lemma ROL32_rotl A n : is_u32 A → 0 < n < 32 → ROL32 A n = rotl32 A n.
Proof.
  intros HA Hn. rewrite rotl32_bits by done. unfold ROL32. f_equal.
  rewrite Z.shiftl_1_l, Z.sub_1_r, <- Z.ones_equiv. apply uint_id; [lia|]. split.
  - apply Z.shiftr_nonneg. apply HA.
  - rewrite Z.shiftr_div_pow2 by lia. apply Z.div_lt_upper_bound; [lia|].
    rewrite <- Z.pow_add_r by lia. replace (32 - n + n) with 32 by lia. apply HA.
Qed.
Lemma xswap_bits L :
  is_u32 L → ((L .& 0xff00ff00) >> 8) .| u32 ((L .& 0x00ff00ff) << 8) = XSWAP L.
Proof.
  intros HL. apply (uint_eq_bits 32).
  - auto 10 with machine.
  - unfold XSWAP. auto 10 with machine.
  - unfold XSWAP, be32, byte_at, u32, u8. by_bits 32%nat.
Qed.

Lemma rotl32_uint A n : is_u32 A → 0 < n < 32 → is_u32 (rotl32 A n).
Proof. intros HA Hn. rewrite rotl32_bits by done. apply uint_lor; auto with machine. Qed.
Lemma XSWAP_uint L : is_u32 (XSWAP L).
Proof. unfold XSWAP. auto with machine. Qed.
#[local] Hint Resolve rotl32_uint XSWAP_uint : machine.
#[local] Hint Extern 1 (_ < _ < _) => lia : machine.

Lemma michael_block_spec L R M :
  is_u32 L → is_u32 R → is_u32 M → michael_block L R M = b_fun (L ⊕ M) R.
Proof.
  intros HL HR HM. unfold michael_block, b_fun, ROR32, rotr32. rewrite <- !u32_mod.
  assert (is_u32 (L ⊕ M)) as HX by auto with machine. revert HX. generalize (L ⊕ M). intros X HX.
  rewrite !ROL32_rotl, !xswap_bits by auto with machine.
  rewrite (u32_id (R ⊕ rotl32 X 17)) by auto with machine.
  set (R1 := R ⊕ rotl32 X 17). assert (is_u32 R1) as HR1 by (unfold R1; auto with machine).
  set (L1 := u32 (X + R1)). rewrite (u32_id (R1 ⊕ XSWAP L1)) by auto with machine.
  set (R2 := R1 ⊕ XSWAP L1). assert (is_u32 R2) as HR2 by (unfold R2; auto with machine).
  set (L2 := u32 (L1 + R2)). rewrite (u32_id (R2 ⊕ rotl32 L2 3)) by (unfold L2; auto with machine).
  set (R3 := R2 ⊕ rotl32 L2 3). assert (is_u32 R3) as HR3 by (unfold R3, L2; auto with machine).
  set (L3 := u32 (L2 + R3)). rewrite (u32_id (R3 ⊕ rotl32 L3 (32 - 2))) by (unfold L3; auto with machine).
  done.
Qed.
Lemma b_fun_uint l r : is_u32 l → is_u32 r → is_u32 (b_fun l r).1 ∧ is_u32 (b_fun l r).2.
Proof.
  intros Hl Hr. unfold b_fun, rotr32. rewrite <- !u32_mod. cbn [fst snd].
  split; auto 20 with machine.
Qed.

(** *** The streaming interface *)

(** A state with an empty accumulator. *)
Definition mic_aligned (k0 k1 l r : Z) : mic_data := Mic k0 k1 l r 0 0.

Lemma bytes4 a b c d : bytes [a; b; c; d] → is_u8 a ∧ is_u8 b ∧ is_u8 c ∧ is_u8 d.
Proof. unfold bytes. rewrite !Forall_cons_iff. tauto. Qed.

Lemma append4 k0 k1 l r a b c d :
  is_u32 l → is_u32 r → bytes [a; b; c; d] →
  rtw_secmicappend (mic_aligned k0 k1 l r) [a; b; c; d] =
    let '(l', r') := b_fun (l ⊕ be32 d c b a) r in mic_aligned k0 k1 l' r'.
Proof.
  intros Hl Hr (Ha & Hb & Hc & Hd)%bytes4.
  rewrite <- michael_block_spec by auto with machine.
  unfold rtw_secmicappend, mic_aligned, rtw_secmicappendbyte.
  cbn [fold_left K0 K1 mL mR mM nBytesInM Nat.leb].
  match goal with |- context [michael_block l r ?X] => assert (X = be32 d c b a) as -> end; [|done].
  apply (uint_eq_bits 32); [apply u32_uint|auto with machine|].
  unfold u32, be32. by_bits 32%nat.
Qed.

(** Induction four bytes at a time. *)
Lemma quad_ind (P : list Z → Prop) :
  (∀ m, (length m < 4)%nat → P m) →
  (∀ a b c d m, P m → P (a :: b :: c :: d :: m)) → ∀ m, P m.
Proof.
  intros Hs Hc. fix go 1. intros [|a [|b [|c [|d m]]]]; try (apply Hs; cbn; lia). apply Hc, go.
Qed.

Lemma append_words m k0 k1 l r :
  (length m mod 4 = 0)%nat → bytes m → is_u32 l → is_u32 r →
  rtw_secmicappend (mic_aligned k0 k1 l r) m =
    let '(l', r') := fold_left (λ '(l, r) w, b_fun (l ⊕ w) r) (le_words m) (l, r) in
    mic_aligned k0 k1 l' r'.
Proof.
  revert l r. induction m as [m Hm|a b c d m IH] using quad_ind; intros l r Hl Hb Hll Hr.
  - rewrite Nat.mod_small in Hl by done. by destruct m.
  - change (a :: b :: c :: d :: m) with ([a; b; c; d] ++ m) in Hb |- *.
    apply Forall_app in Hb as [Hq Hb]. unfold rtw_secmicappend. rewrite fold_left_app.
    fold (rtw_secmicappend (mic_aligned k0 k1 l r) [a; b; c; d]). rewrite append4 by done.
    cbn [le_words app fold_left].
    assert (is_u32 (l ⊕ be32 d c b a)) as HX.
    { apply bytes4 in Hq as (? & ? & ? & ?). auto with machine. }
    pose proof (b_fun_uint _ r HX Hr) as [Hl' Hr'].
    destruct (b_fun (l ⊕ be32 d c b a) r) as [l' r']. cbn [fst snd] in *. apply IH; try done.
    cbn [length] in Hl. change (S (S (S (S (length m))))) with (4 + length m)%nat in Hl.
    replace (4 + length m)%nat with (length m + 1 * 4)%nat in Hl by lia.
    by rewrite Nat.Div0.mod_add in Hl.
Qed.

Lemma append_count d m :
  (nBytesInM d < 4)%nat →
  nBytesInM (rtw_secmicappend d m) = ((nBytesInM d + length m) mod 4)%nat.
Proof.
  revert d. induction m as [|x m IH]; intros d Hd.
  - cbn [rtw_secmicappend fold_left length]. by rewrite Nat.add_0_r, Nat.mod_small.
  - change (rtw_secmicappend d (x :: m)) with (rtw_secmicappend (rtw_secmicappendbyte d x) m).
    cbn [length]. unfold rtw_secmicappendbyte.
    destruct (Nat.leb_spec 4 (S (nBytesInM d))) as [H|H].
    + destruct (michael_block _ _ _) as [l r]. rewrite IH by (cbn; lia). cbn [nBytesInM].
      replace (nBytesInM d + S (length m))%nat with (length m + 1 * 4)%nat by lia.
      by rewrite Nat.Div0.mod_add.
    + rewrite IH by (cbn; lia). cbn [nBytesInM]. f_equal. lia.
Qed.

(** The loop that fills the last word ends within the three iterations the
    model allows, and appends exactly the missing zeroes. *)
Lemma flush_spec d :
  (nBytesInM d < 4)%nat →
  secmic_flush 3 d = rtw_secmicappend d (replicate ((4 - nBytesInM d) mod 4) 0) ∧
  nBytesInM (secmic_flush 3 d) = 0%nat.
Proof.
  intros Hd. assert (secmic_flush 3 d = rtw_secmicappend d (replicate ((4 - nBytesInM d) mod 4) 0)) as E.
  { destruct d as [k0 k1 l r M n]. cbn [nBytesInM] in *.
    destruct n as [|[|[|[|n]]]]; [..|lia]; cbn -[michael_block];
      by try destruct (michael_block _ _ _). }
  split; [done|]. rewrite E, append_count, length_replicate by done.
  destruct (nBytesInM d) as [|[|[|[|n]]]]; [done..|lia].
Qed.

Lemma secmicgetuint32_be32 p :
  bytes p → secmicgetuint32 p = be32 p.[3] p.[2] p.[1] p.[0].
Proof.
  intros Hp. unfold secmicgetuint32. cbn [seq fold_left].
  assert (is_u8 p.[0] ∧ is_u8 p.[1] ∧ is_u8 p.[2] ∧ is_u8 p.[3]) as (H0 & H1 & H2 & H3)
    by (split_and!; apply aget_uint; (done || lia)).
  apply (uint_eq_bits 32); [repeat apply uint_lor; auto with machine; uint_lit|auto with machine|].
  unfold u32, be32. by_bits 32%nat.
Qed.
Lemma secmicputuint32_le32 w : is_u32 w → secmicputuint32 w = le32 w.
Proof.
  intros Hw. unfold secmicputuint32, le32, byte_at, u8. rewrite !Z.shiftr_shiftr by lia.
  rewrite <- !Z.land_assoc. rewrite !Z.land_diag, Z.shiftr_0_r. done.
Qed.

Lemma length_michael_pad m : (length (michael_pad m) mod 4 = 0)%nat.
Proof.
  unfold michael_pad. generalize (m ++ [0x5a; 0; 0; 0; 0]). intros l.
  rewrite length_app, length_replicate. pose proof (Nat.div_mod_eq (length l) 4) as E.
  pose proof (Nat.mod_upper_bound (length l) 4 ltac:(lia)).
  destruct (decide (length l mod 4 = 0)%nat) as [H0|H0].
  - rewrite H0. change ((4 - 0) mod 4)%nat with 0%nat. by rewrite Nat.add_0_r.
  - rewrite (Nat.mod_small (4 - _)) by lia.
    replace (length l + (4 - length l mod 4))%nat with ((length l / 4 + 1) * 4)%nat by lia.
    apply Nat.Div0.mod_mul.
Qed.
Lemma michael_pad_bytes m : bytes m → bytes (michael_pad m).
Proof.
  intros Hm. unfold michael_pad. apply bytes_app; [|apply bytes_replicate; uint_lit].
  apply bytes_app; [done|bytes_lit].
Qed.
Lemma le_words_uint m : bytes m → words (le_words m).
Proof.
  induction m as [m Hm|a b c d m IH] using quad_ind; intros Hb.
  - destruct m as [|? [|? [|? [|? m]]]]; try apply Forall_nil_2. cbn in Hm. lia.
  - change (a :: b :: c :: d :: m) with ([a; b; c; d] ++ m) in Hb. apply Forall_app in Hb as [Hq Hb].
    apply bytes4 in Hq as (? & ? & ? & ?). constructor; [auto with machine|by apply IH].
Qed.
Lemma michael_fold_uint ws l r :
  words ws → is_u32 l → is_u32 r →
  let st := fold_left (λ '(l, r) w, b_fun (l ⊕ w) r) ws (l, r) in is_u32 st.1 ∧ is_u32 st.2.
Proof.
  intros Hw. revert l r. induction Hw as [|w ws Hw Hws IH]; intros l r Hl Hr; [done|].
  cbn [fold_left]. destruct (b_fun_uint (l ⊕ w) r) as [Hl' Hr']; [auto with machine|done|].
  destruct (b_fun (l ⊕ w) r) as [l' r']. by apply IH.
Qed.

(** The MIC of a message fed into a freshly keyed state in any number of
    pieces is Michael of the whole message. *)
Lemma secgetmic_Michael key m :
  bytes key → bytes m →
  rtw_secgetmic (rtw_secmicappend (rtw_secmicsetkey key) m) = (Michael key m, rtw_secmicsetkey key).
Proof.
  intros Hk Hm. set (d := rtw_secmicsetkey key).
  set (m5 := m ++ [0x5a; 0; 0; 0; 0]).
  assert (rtw_secmicappendbyte (rtw_secmicappendbyte (rtw_secmicappendbyte (rtw_secmicappendbyte
    (rtw_secmicappendbyte (rtw_secmicappend d m) 0x5a) 0) 0) 0) 0 = rtw_secmicappend d m5) as E.
  { unfold m5, rtw_secmicappend. by rewrite fold_left_app. }
  assert (nBytesInM (rtw_secmicappend d m5) = (length m5 mod 4)%nat) as Hn
    by (apply (append_count d m5); cbn; lia).
  assert (length m5 mod 4 < 4)%nat as Hlt by (apply Nat.mod_upper_bound; lia).
  destruct (flush_spec (rtw_secmicappend d m5)) as [F _]; [by rewrite Hn|].
  assert (secmic_flush 3 (rtw_secmicappend d m5) = rtw_secmicappend d (michael_pad m)) as G.
  { rewrite F, Hn. unfold rtw_secmicappend. by rewrite <- fold_left_app. }
  unfold rtw_secgetmic. rewrite E, G. clear E F G.
  assert (d = mic_aligned (K0 d) (K1 d) (K0 d) (K1 d)) as Hd by done.
  assert (K0 d = be32 key.[3] key.[2] key.[1] key.[0] ∧ K1 d = be32 key.[7] key.[6] key.[5] key.[4])
    as [Hk0 Hk1].
  { unfold d, rtw_secmicsetkey, secmicclear. cbn [K0 K1].
    rewrite !secmicgetuint32_be32, !aget_drop by auto with machine. done. }
  assert (is_u32 (K0 d) ∧ is_u32 (K1 d)) as [H0 H1].
  { rewrite Hk0, Hk1. split; apply be32_uint; apply aget_uint; (done || lia). }
  pose proof (append_words (michael_pad m) (K0 d) (K1 d) (K0 d) (K1 d) (length_michael_pad m)
    (michael_pad_bytes m Hm) H0 H1) as A. rewrite <- Hd in A. rewrite A. clear A.
  unfold Michael. rewrite <- Hk0, <- Hk1.
  assert (is_u32 (fold_left (λ '(l, r) w, b_fun (l ⊕ w) r) (le_words (michael_pad m)) (K0 d, K1 d)).1
    ∧ is_u32 (fold_left (λ '(l, r) w, b_fun (l ⊕ w) r) (le_words (michael_pad m)) (K0 d, K1 d)).2) as [Hl Hr]
    by (apply michael_fold_uint; [by apply le_words_uint, michael_pad_bytes|done..]).
  destruct (fold_left _ _ _) as [l r]. cbn [fst snd] in Hl, Hr.
  unfold mic_aligned, secmicclear. cbn [mL mR K0 K1].
  by rewrite !secmicputuint32_le32.
Qed.

(** The destination and the source address of a data frame, which the header
    holds at offsets that depend on the ToDS and FromDS bits. *)
Definition frame_DA (header : list Z) : list Z :=
  take 6 (drop (if Z.testbit header.[1] 0 then 16 else 4) header).
Definition frame_SA (header : list Z) : list Z :=
  take 6 (drop (match Z.testbit header.[1] 0, Z.testbit header.[1] 1 with
                | _, false => 10 | false, true => 16 | true, true => 24 end) header).

Lemma seccalctkipmic_eq key header data pri :
  bytes key → bytes header → bytes data → is_u8 pri →
  rtw_seccalctkipmic key header data pri =
    Michael key (frame_DA header ++ frame_SA header ++ [pri; 0; 0; 0] ++ data).
Proof.
  intros Hk Hh Hd Hp. unfold rtw_seccalctkipmic.
  set (d := rtw_secmicsetkey key). cbv zeta.
  match goal with |- (rtw_secgetmic ?X).1 = _ =>
    assert (X = rtw_secmicappend d (frame_DA header ++ frame_SA header ++ [pri; 0; 0; 0] ++ data)) as ->
  end.
  { unfold rtw_secmicappend. rewrite !fold_left_app. do 2 f_equal. unfold frame_DA, frame_SA.
    rewrite (land_bit_eqb _ 0), (land_bit_eqb _ 1) by lia.
    by destruct (Z.testbit _ 0), (Z.testbit _ 1). }
  unfold d. rewrite secgetmic_Michael; [done|done|].
  repeat apply bytes_app; [unfold frame_DA, frame_SA; auto with machine..| |done].
  apply Forall_cons_iff. split; [done|bytes_lit].
Qed.

(** ** The S-box of the key mixing *)

(** One 16-bit entry: twice and three times the AES S-box. *)
Definition tkip_sbox (x : Z) : Z := (gmul 2 (SBox x) << 8) .| gmul 3 (SBox x).
Definition swap16 (v : Z) : Z := u16 (v << 8) .| (v >> 8).

Lemma S_eq v : S_ v = tkip_sbox (byte_at v 0) ⊕ swap16 (tkip_sbox (byte_at v 1)).
Proof.
  unfold S_. f_equal.
  - assert (Lo8 v = byte_at v 0) as -> by (unfold Lo8, byte_at, u8; by rewrite <- Z.land_assoc, Z.shiftr_0_r).
    apply (all_u8 (λ x, Sbox1_0.[Z.to_nat x]) tkip_sbox); [vm_compute; reflexivity|auto with machine].
  - assert (Hi8 v = byte_at v 1) as -> by (unfold Hi8, byte_at, u8; by rewrite <- Z.land_assoc).
    apply (all_u8 (λ x, Sbox1_1.[Z.to_nat x]) (λ x, swap16 (tkip_sbox x)));
      [vm_compute; reflexivity|auto with machine].
Qed.

(** ** The key mixing is injective *)
Definition hwords (n : nat) (l : list Z) : Prop := length l = n ∧ Forall is_u16 l.

Lemma addto_hwords n l i v : hwords n l → hwords n (addto l i v).
Proof.
  intros [Hl Hb]. split; [by unfold addto; rewrite length_insert|].
  apply Forall_insert; [done|apply u16_uint].
Qed.

(** Adding to one word a function of another is undone by subtracting it. *)
Lemma addto_inj n (f : Z → Z) l k i j :
  hwords n l → hwords n k → i ≠ j → (i < n)%nat →
  addto l i (f l.[j]) = addto k i (f k.[j]) → l = k.
Proof.
  intros [Hl Hlb] [Hk Hkb] Hij Hi E.
  assert (∀ x, i ≠ x → l.[x] = k.[x]) as Hne.
  { intros x Hx. apply (f_equal (λ a, a.[x])) in E. unfold addto in E. by rewrite !aget_insert_ne in E. }
  apply list_aget_eq; [congruence|]. intros x _. destruct (decide (i = x)) as [<-|Hx]; [|by apply Hne].
  apply (f_equal (λ a, a.[i])) in E. unfold addto in E. rewrite !aget_insert_eq, !u16_mod in E by lia.
  rewrite (Hne j Hij) in E. apply (f_equal (λ z, (z - f k.[j]) mod 2 ^ 16)) in E.
  rewrite !Zminus_mod_idemp_l, !Z.add_simpl_r in E.
  pose proof (aget_uint 16 l i ltac:(lia) Hlb). pose proof (aget_uint 16 k i ltac:(lia) Hkb).
  by rewrite !Z.mod_small in E.
Qed.

(** Peel off the outermost addition of both sides. *)
Ltac peel n :=
  match goal with
  | E : addto ?l ?i (?f (?l.[?j] ⊕ ?c)) = addto ?k ?i (?f (?k.[?j] ⊕ ?c)) |- _ =>
      apply (addto_inj n (λ x, f (x ⊕ c)) l k i j) in E; [|auto 20 using addto_hwords..|lia|lia]
  | E : addto ?l ?i (?f ?l.[?j]) = addto ?k ?i (?f ?k.[?j]) |- _ =>
      apply (addto_inj n f l k i j) in E; [|auto 20 using addto_hwords..|lia|lia]
  | E : addto ?l ?i ?v = addto ?k ?i ?v |- _ =>
      apply (addto_inj n (λ _, v) l k i (S i)) in E; [|auto 20 using addto_hwords..|lia|lia]
  end.

Lemma phase1_step_hwords tk l i : hwords 5 l → hwords 5 (phase1_step tk l i).
Proof. intros H. unfold phase1_step. auto 20 using addto_hwords. Qed.
Lemma phase1_step_inj tk l k i :
  hwords 5 l → hwords 5 k → phase1_step tk l i = phase1_step tk k i → l = k.
Proof.
  intros Hl Hk E. unfold phase1_step in E. generalize dependent (i mod 2)%nat. intros o E.
  repeat peel 5%nat. done.
Qed.

Lemma phase1_rounds_hwords tk ns l : hwords 5 l → hwords 5 (fold_left (phase1_step tk) ns l).
Proof. revert l. induction ns as [|i ns IH]; intros l Hl; [done|]. by apply IH, phase1_step_hwords. Qed.
Lemma phase1_rounds_inj tk ns l k :
  hwords 5 l → hwords 5 k →
  fold_left (phase1_step tk) ns l = fold_left (phase1_step tk) ns k → l = k.
Proof.
  revert l k. induction ns as [|i ns IH]; intros l k Hl Hk E; [done|].
  apply (phase1_step_inj tk l k i Hl Hk). apply IH; [by apply phase1_step_hwords..|done].
Qed.

Lemma phase2_mix_hwords tk l : hwords 6 l → hwords 6 (phase2_mix tk l).
Proof. intros H. unfold phase2_mix. auto 20 using addto_hwords. Qed.
Lemma phase2_mix_inj tk l k :
  hwords 6 l → hwords 6 k → phase2_mix tk l = phase2_mix tk k → l = k.
Proof. intros Hl Hk E. unfold phase2_mix in E. repeat peel 6%nat. done. Qed.

(** 16-bit values from their bytes. *)
Lemma lo_hi8_inj v w : is_u16 v → is_u16 w → Lo8 v = Lo8 w → Hi8 v = Hi8 w → v = w.
Proof.
  intros Hv Hw El Eh. apply (uint_eq_bits 16); [done..|]. intros i Hi.
  destruct (decide (i < 8)) as [H|H].
  - apply (f_equal (λ z, Z.testbit z i)) in El. unfold Lo8, u8 in El. change 0xFF with (Z.ones 8) in El.
    rewrite !Z.land_spec, Z.testbit_ones_nonneg, (proj2 (Z.ltb_lt i 8)), !andb_true_r in El by lia. done.
  - apply (f_equal (λ z, Z.testbit z (i - 8))) in Eh. unfold Hi8, u8 in Eh. change 0xFF with (Z.ones 8) in Eh.
    rewrite !Z.land_spec, !Z.shiftr_spec, Z.testbit_ones_nonneg, (proj2 (Z.ltb_lt (i - 8) 8)), !andb_true_r,
      Z.sub_add in Eh by lia. done.
Qed.
Lemma Mk16_inj h l h' l' :
  is_u8 h → is_u8 l → is_u8 h' → is_u8 l' → Mk16 h l = Mk16 h' l' → h = h' ∧ l = l'.
Proof.
  intros Hh Hl Hh' Hl' E. unfold Mk16 in E.
  assert (∀ x, is_u8 x → u16 x = x) as Hid by (intros; apply u16_id; by apply (uint_weaken 8)).
  rewrite !Hid in E by done. clear Hid.
  assert (∀ h l, is_u8 h → is_u8 l → u8 (l ⊕ (h << 8)) = l ∧ (l ⊕ (h << 8)) >> 8 = h) as H.
  { clear. intros h l Hh Hl. split.
    - apply (uint_eq_bits 8); [apply u8_uint|done|]. unfold u8. by_bits 8%nat.
    - rewrite Z.shiftr_lxor, Z.shiftr_shiftl_l, Z.shiftl_0_r by lia.
      rewrite Z.shiftr_div_pow2, Z.div_small by (done || lia). apply Z.lxor_0_l. }
  destruct (H h l Hh Hl) as [A B], (H h' l' Hh' Hl') as [A' B']. split; congruence.
Qed.
Lemma Mk16_uint h l : is_u8 h → is_u8 l → is_u16 (Mk16 h l).
Proof.
  intros Hh Hl. unfold Mk16. apply uint_lxor; [lia|by apply (uint_weaken 8)|].
  rewrite u16_id by (by apply (uint_weaken 8)). by apply (uint_shiftl 8 8).
Qed.
Lemma lo_hi16_inj v w : is_u32 v → is_u32 w → Lo16 v = Lo16 w → Hi16 v = Hi16 w → v = w.
Proof.
  intros Hv Hw El Eh. unfold Lo16, Hi16, u16 in *. rewrite <- !Z.land_assoc in El, Eh.
  change (0xFFFF .& 0xFFFF) with (Z.ones 16) in *. rewrite !Z.land_ones in El, Eh by lia.
  rewrite !Z.shiftr_div_pow2 in Eh by lia. destruct Hv as [Hv0 Hv1], Hw as [Hw0 Hw1].
  rewrite !(Z.mod_small (_ / _)) in Eh
    by (split; [apply Z.div_pos; lia|apply Z.div_lt_upper_bound; lia]).
  rewrite (Z.div_mod v (2 ^ 16)), (Z.div_mod w (2 ^ 16)) by lia. congruence.
Qed.

Lemma phase1_init_hwords ta iv32 :
  bytes ta →
  hwords 5 [Lo16 iv32; Hi16 iv32; Mk16 (ta.[1]) (ta.[0]); Mk16 (ta.[3]) (ta.[2]); Mk16 (ta.[5]) (ta.[4])].
Proof.
  intros Hta. split; [done|].
  assert (∀ i, is_u8 ta.[i]) as H by (intros i; by apply aget_uint).
  repeat (apply Forall_cons_iff; split); try apply Forall_nil_2; try apply u16_uint; apply Mk16_uint; apply H.
Qed.

Lemma phase1_init_inj ta ta' iv32 iv32' :
  bytes ta → bytes ta' → length ta = 6%nat → length ta' = 6%nat → is_u32 iv32 → is_u32 iv32' →
  [Lo16 iv32; Hi16 iv32; Mk16 (ta.[1]) (ta.[0]); Mk16 (ta.[3]) (ta.[2]); Mk16 (ta.[5]) (ta.[4])] =
  [Lo16 iv32'; Hi16 iv32'; Mk16 (ta'.[1]) (ta'.[0]); Mk16 (ta'.[3]) (ta'.[2]); Mk16 (ta'.[5]) (ta'.[4])] →
  ta = ta' ∧ iv32 = iv32'.
Proof.
  intros Hta Hta' Hl Hl' Hiv Hiv' E'.
  injection E' as E0 E1 E2 E3 E4. split; [|by apply lo_hi16_inj].
  assert (∀ i, is_u8 ta.[i] ∧ is_u8 ta'.[i]) as H by (intros i; split; by apply aget_uint).
  apply Mk16_inj in E2, E3, E4; [|apply H..].
  apply list_aget_eq; [congruence|]. rewrite Hl. intros [|[|[|[|[|[|i]]]]]] Hi; [..|lia]; tauto.
Qed.

Lemma phase1_eq tk ta iv32 :
  phase1 tk ta iv32 = fold_left (phase1_step tk) (seq 0 PHASE1_LOOP_CNT)
    [Lo16 iv32; Hi16 iv32; Mk16 (ta.[1]) (ta.[0]); Mk16 (ta.[3]) (ta.[2]); Mk16 (ta.[5]) (ta.[4])].
Proof. reflexivity. Qed.
Lemma phase1_inj tk ta ta' iv32 iv32' :
  bytes ta → bytes ta' → length ta = 6%nat → length ta' = 6%nat → is_u32 iv32 → is_u32 iv32' →
  phase1 tk ta iv32 = phase1 tk ta' iv32' → ta = ta' ∧ iv32 = iv32'.
Proof.
  intros Hta Hta' Hl Hl' Hiv Hiv'. rewrite !phase1_eq. generalize (seq 0 PHASE1_LOOP_CNT). intros ns E.
  apply phase1_init_inj; try done. eapply phase1_rounds_inj; [by apply phase1_init_hwords..|exact E].
Qed.
Lemma phase1_hwords tk ta iv32 : bytes ta → hwords 5 (phase1 tk ta iv32).
Proof. intros H. rewrite phase1_eq. by apply phase1_rounds_hwords, phase1_init_hwords. Qed.

Lemma hwords_phase2_in p1k iv16 : hwords 5 p1k → hwords 6 (map (aget p1k) (seq 0 5) ++ [u16 (p1k.[4] + iv16)]).
Proof.
  intros [Hl Hb]. split; [done|].
  apply Forall_app. split; [|by apply Forall_cons_iff; split; [apply u16_uint|]].
  rewrite <- take_aget by lia. by apply Forall_take.
Qed.

Lemma ppk_bytes_inj P Q :
  hwords 6 P → hwords 6 Q →
  concat (map (λ i, [Lo8 (P.[i]); Hi8 (P.[i])]) (seq 0 6)) =
    concat (map (λ i, [Lo8 (Q.[i]); Hi8 (Q.[i])]) (seq 0 6)) → P = Q.
Proof.
  intros [HPl HPb] [HQl HQb] E. cbn [seq map concat app] in E.
  injection E as A0 B0 A1 B1 A2 B2 A3 B3 A4 B4 A5 B5.
  assert (∀ i, is_u16 P.[i] ∧ is_u16 Q.[i]) as H by (intros i; split; by apply aget_uint).
  apply list_aget_eq; [congruence|]. rewrite HPl.
  intros [|[|[|[|[|[|i]]]]]] Hlt; [..|lia]; (apply lo_hi8_inj; [apply H..|assumption|assumption]).
Qed.

Lemma phase2_inj tk p q iv16 iv16' :
  hwords 5 p → hwords 5 q → is_u16 iv16 → is_u16 iv16' →
  phase2 tk p iv16 = phase2 tk q iv16' → p = q ∧ iv16 = iv16'.
Proof.
  intros Hp Hq Hi Hi' E. unfold phase2 in E. cbv zeta in E.
  apply app_inj_1 in E as [E4 E]; [|done].
  assert (iv16 = iv16') as <- by (injection E4 as A _ B _; by apply lo_hi8_inj). split; [|done].
  apply ppk_bytes_inj in E; [|by apply phase2_mix_hwords, hwords_phase2_in..].
  apply phase2_mix_inj in E; [|by apply hwords_phase2_in..].
  apply app_inj_1 in E as [E _]; [|done]. destruct Hp as [Hp _], Hq as [Hq _].
  rewrite <- !take_aget, !take_ge in E by lia. done.
Qed.

(** ** Results *)

(** The Michael MIC of a data frame, computed by feeding the addresses,
    the priority and the payload byte by byte into the accumulator, is the
    Michael function of IEEE 802.11 applied to the key and to
    DA, SA, priority, three zero bytes, payload: the string padded with 0x5a
    and four to seven zeroes, cut into little-endian words, run through the
    block function.  DA and SA are found by the ToDS and FromDS bits. *)
Theorem rtw_seccalctkipmic_michael key header data pri :
  bytes key → bytes header → bytes data → is_u8 pri →
  rtw_seccalctkipmic key header data pri =
    Michael key (frame_DA header ++ frame_SA header ++ [pri; 0; 0; 0] ++ data).
Proof. apply seccalctkipmic_eq. Qed.

(** The RC4 key of a TKIP packet determines the transmitter address and
    the 48-bit packet number it was mixed from: for one temporal key the two
    mixing phases never produce the same RC4 key twice for different
    (TA, IV32, IV16), as the comment above [phase2] promises.  The packet
    number itself appears in the first and third key byte. *)
Theorem tkip_rc4key_unique tk ta ta' iv32 iv32' iv16 iv16' :
  bytes ta → bytes ta' → length ta = 6%nat → length ta' = 6%nat →
  is_u32 iv32 → is_u32 iv32' → is_u16 iv16 → is_u16 iv16' →
  (ta, iv32, iv16) ≠ (ta', iv32', iv16') →
  phase2 tk (phase1 tk ta iv32) iv16 ≠ phase2 tk (phase1 tk ta' iv32') iv16'.
Proof.
  intros Hta Hta' Hl Hl' H32 H32' H16 H16' Hne E. apply Hne.
  apply phase2_inj in E as [E ->]; [|by apply phase1_hwords..|done|done].
  by apply phase1_inj in E as [-> ->].
Qed.

(** The two 256-entry tables of the key mixing are derived from the AES
    S-box: an entry is 2·S(x) and 3·S(x) over GF(2^8), and the second table is
    the first with its bytes exchanged, so the 16-bit substitution is the one
    of the standard for every argument. *)
Theorem tkip_S_is_aes_sbox v :
  S_ v = tkip_sbox (byte_at v 0) ⊕ swap16 (tkip_sbox (byte_at v 1)).
Proof. apply S_eq. Qed.

Lemma rtw_seccalctkipmic_witness :
  rtw_seccalctkipmic [1; 2; 3; 4; 5; 6; 7; 8] (replicate 31 0) [0x70; 0x61; 0x79; 0x6c; 0x6f; 0x61; 0x64] 0 =
    [0x76; 0x69; 0xf1; 0x42; 0x2c; 0x73; 0x89; 0x08].
Proof.
  rewrite rtw_seccalctkipmic_michael; [|bytes_lit..|uint_lit]. vm_compute. reflexivity.
Defined.
Lemma tkip_rc4key_unique_witness :
  phase2 (replicate 16 7) (phase1 (replicate 16 7) [2; 0; 0; 0; 0; 1] 5) 0xffff ≠
    phase2 (replicate 16 7) (phase1 (replicate 16 7) [2; 0; 0; 0; 0; 1] 6) 0xffff.
Proof.
  apply tkip_rc4key_unique; [bytes_lit|bytes_lit|reflexivity|reflexivity|uint_lit..|].
  intros [=].
Defined.
