(* ===== verification/WepTkip.v ===== *)
(** * WEP and TKIP frames: [rtw_wep_encrypt], [rtw_wep_decrypt],
      [rtw_tkip_encrypt] and [rtw_tkip_decrypt] of [core/rtw_security.c]

    The functions work in place on the memory of a frame: the bytes from
    [buf_addr] on for a transmitted one, from [rx_data] on for a received one.
    A result holds that memory after the call.  The rate-limited log messages
    of [rtw_tkip_decrypt] and the static counters that only they use are left
    out. *)
From S2P Require Import Prelude Fips197 Arc4 Tkip CryptoWrap Blocks Mem.

Definition WEP40 : Z := 1.
Definition TKIP : Z := 2.
Definition WEP104 : Z := 5.
Definition SUCCESS : Z := 1.
Definition FAIL : Z := 0.

(** ** Data *)

(** One group of [DBG_SW_SEC_CNT] counters. *)
Record sw_cnt := SwCnt { cnt_bc : Z; cnt_mc : Z; cnt_uc : Z }.

Record security_priv := SecurityPriv {
  dot11PrivacyKeyIndex : nat;
  dot11DefKey : list (list Z);          (* six keys of 32 bytes *)
  dot11DefKeylen : list Z;
  dot118021XGrpKeyid : nat;
  dot118021XGrpKey : list (list Z);     (* six keys of 32 bytes *)
  binstallGrpkey : Z;
  wep_sw_enc_cnt : sw_cnt; wep_sw_dec_cnt : sw_cnt;
  tkip_sw_enc_cnt : sw_cnt; tkip_sw_dec_cnt : sw_cnt
}.

(** The fields of [struct pkt_attrib] and [struct xmit_frame] that are used. *)
Record pkt_attrib := PktAttrib {
  encrypt : Z; hdrlen : nat; last_txcmdsz : Z; nr_frags : nat; iv_len : nat; icv_len : nat;
  ra : list Z; ta : list Z; UncstKey : list Z
}.
Record xmit_frame := XmitFrame {
  attrib : pkt_attrib;
  pkt_offset : Z;
  buf_addr : option Z;         (* [None] is NULL *)
  buf : list Z                 (* the memory from [buf_addr] on *)
}.
(** The fields of [struct rx_pkt_attrib] and [struct recv_frame_hdr]. *)
Record recv_frame := RecvFrame {
  rx_encrypt : Z; rx_hdrlen : nat; rx_iv_len : nat; rx_key_index : nat; rx_ra : list Z; rx_ta : list Z;
  rx_len : Z;
  rx_data : list Z             (* the memory from [rx_data] on *)
}.

Definition is_multicast_mac_addr (addr : list Z) : bool := (addr.[0] .& 1 =? 1) && negb (addr.[0] =? 0xff).
Definition is_broadcast_mac_addr (addr : list Z) : bool :=
  (addr.[0] .& 0xff =? 0xff) && (addr.[1] .& 0xff =? 0xff) && (addr.[2] .& 0xff =? 0xff)
  && (addr.[3] .& 0xff =? 0xff) && (addr.[4] .& 0xff =? 0xff) && (addr.[5] .& 0xff =? 0xff).

(** [WEP_SW_ENC_CNT_INC] and its siblings, on the group they count in. *)
Definition SW_CNT_INC (c : sw_cnt) (ra : list Z) : sw_cnt :=
  if is_broadcast_mac_addr ra then SwCnt (u64 (cnt_bc c + 1)) (cnt_mc c) (cnt_uc c)
  else if is_multicast_mac_addr ra then SwCnt (cnt_bc c) (u64 (cnt_mc c + 1)) (cnt_uc c)
  else SwCnt (cnt_bc c) (cnt_mc c) (u64 (cnt_uc c + 1)).
Definition WEP_SW_ENC_CNT_INC (s : security_priv) (ra : list Z) : security_priv :=
  SecurityPriv (dot11PrivacyKeyIndex s) (dot11DefKey s) (dot11DefKeylen s) (dot118021XGrpKeyid s)
    (dot118021XGrpKey s) (binstallGrpkey s)
    (SW_CNT_INC (wep_sw_enc_cnt s) ra) (wep_sw_dec_cnt s) (tkip_sw_enc_cnt s) (tkip_sw_dec_cnt s).
Definition WEP_SW_DEC_CNT_INC (s : security_priv) (ra : list Z) : security_priv :=
  SecurityPriv (dot11PrivacyKeyIndex s) (dot11DefKey s) (dot11DefKeylen s) (dot118021XGrpKeyid s)
    (dot118021XGrpKey s) (binstallGrpkey s)
    (wep_sw_enc_cnt s) (SW_CNT_INC (wep_sw_dec_cnt s) ra) (tkip_sw_enc_cnt s) (tkip_sw_dec_cnt s).
Definition TKIP_SW_ENC_CNT_INC (s : security_priv) (ra : list Z) : security_priv :=
  SecurityPriv (dot11PrivacyKeyIndex s) (dot11DefKey s) (dot11DefKeylen s) (dot118021XGrpKeyid s)
    (dot118021XGrpKey s) (binstallGrpkey s)
    (wep_sw_enc_cnt s) (wep_sw_dec_cnt s) (SW_CNT_INC (tkip_sw_enc_cnt s) ra) (tkip_sw_dec_cnt s).
Definition TKIP_SW_DEC_CNT_INC (s : security_priv) (ra : list Z) : security_priv :=
  SecurityPriv (dot11PrivacyKeyIndex s) (dot11DefKey s) (dot11DefKeylen s) (dot118021XGrpKeyid s)
    (dot118021XGrpKey s) (binstallGrpkey s)
    (wep_sw_enc_cnt s) (wep_sw_dec_cnt s) (tkip_sw_enc_cnt s) (SW_CNT_INC (tkip_sw_dec_cnt s) ra).

(** ** Shared pieces *)

(** Conversion of a 32-bit unsigned value to [sint]. *)
Definition s32 (z : Z) : Z := let v := u32 z in if v <? 2 ^ 31 then v else v - 2 ^ 32.

Definition RND4 (x : Z) : Z := ((x >> 2) + (if x .& 3 =? 0 then 0 else 1)) << 2.

Definition TXDESC_SIZE : Z := 48.
Definition PACKET_OFFSET_SZ : Z := 8.
(** The value of the [u8] variable [hw_hdr_offset]; the driver is built with
    CONFIG_USB_TX_AGGREGATION. *)
Definition hw_hdr_offset (pkt_offset : Z) : nat := Z.to_nat (u8 (TXDESC_SIZE + pkt_offset * PACKET_OFFSET_SZ)).

(** [crc = getcrc32(payload, length); arcfour_init(key); arcfour_encrypt] on
    the payload and then on the four bytes of [crc], written behind it.
    [arcfour_encrypt] takes the length as an unsigned number, so a negative
    one runs out of the buffer. *)
Definition seal (key : list Z) (key_len : Z) (mem : list Z) (payload : nat) (length : Z) : cres (list Z) :=
  if length <? 0 then Oob
  else
    let n := Z.to_nat length in
    let* p := mem_read mem payload n in
    let crc := le32 (getcrc32 p) in
    let mycontext := arcfour_init key key_len in
    let '(c, mycontext) := arcfour_encrypt mycontext p in
    let* mem := buf_write mem payload c in
    buf_write mem (payload + n) (arcfour_encrypt mycontext crc).1.

(** The loop over the fragments that [rtw_wep_encrypt] and [rtw_tkip_encrypt]
    share: [n] fragments are left, the current one starts at offset [off] of
    the memory at address [addr]; [rc4key] derives key and key length from the
    [ivn] bytes it reads of the IV field. *)
Section frag.
Context (rc4key : list Z → cres (list Z * Z)) (ivn : nat) (a : pkt_attrib) (frag_len addr : Z).

Definition frag_length (last : bool) : Z :=
  s32 ((if last then last_txcmdsz a else frag_len)
       - Z.of_nat (hdrlen a) - Z.of_nat (iv_len a) - Z.of_nat (icv_len a)).
Definition frag_next (off : nat) : nat :=
  Z.to_nat (u64 (RND4 (addr + Z.of_nat off + frag_len)) - addr).

Fixpoint frag_encrypt (n off : nat) (mem : list Z) : cres (list Z) :=
  match n with
  | O => Ret mem
  | S n =>
      let* iv := mem_read mem (off + hdrlen a) ivn in
      let* (key, key_len) := rc4key iv in
      let last := (n =? 0)%nat in
      let* mem := seal key key_len mem (off + iv_len a + hdrlen a) (frag_length last) in
      if last then Ret mem else frag_encrypt n (frag_next off) mem
  end.
End frag.

(** ** WEP *)

(** [wepkey[16]]: three bytes of the IV, then the default key. *)
Definition wep_rc4key (s : security_priv) (idx : nat) (iv : list Z) : cres (list Z * Z) :=
  match dot11DefKeylen s !! idx, dot11DefKey s !! idx with
  | Some keylength, Some skey =>
      if keylength <=? 13 then Ret (iv ++ take (Z.to_nat keylength) skey, 3 + keylength) else Oob
  | _, _ => Oob
  end.

Definition is_wep (enc : Z) : bool := (enc =? WEP40) || (enc =? WEP104).

Definition rtw_wep_encrypt (s : security_priv) (frag_len : Z) (f : xmit_frame)
    : cres (security_priv * list Z) :=
  match buf_addr f with
  | None => Ret (s, buf f)
  | Some addr =>
      let a := attrib f in
      if is_wep (encrypt a) then
        let* mem := frag_encrypt (wep_rc4key s (dot11PrivacyKeyIndex s)) 3 a frag_len addr
                      (nr_frags a) (hw_hdr_offset (pkt_offset f)) (buf f) in
        Ret (WEP_SW_ENC_CNT_INC s (ra a), mem)
      else Ret (s, buf f)
  end.

(** Decryption of the payload and the ICV behind it, in place. *)
Definition unseal (key : list Z) (key_len : Z) (mem : list Z) (payload : nat) (length : Z) : cres (list Z) :=
  if length <? 0 then Oob
  else
    let* c := mem_read mem payload (Z.to_nat length) in
    buf_write mem payload (arcfour_encrypt (arcfour_init key key_len) c).1.

(** The check sum computed over the plain text is not used. *)
Definition rtw_wep_decrypt (s : security_priv) (f : recv_frame) : cres (security_priv * list Z) :=
  if is_wep (rx_encrypt f) then
    let* iv := mem_read (rx_data f) (rx_hdrlen f) 3 in
    let* (key, key_len) := wep_rc4key s (rx_key_index f) iv in
    let length := s32 (rx_len f - Z.of_nat (rx_hdrlen f) - Z.of_nat (rx_iv_len f)) in
    let payload := (rx_iv_len f + rx_hdrlen f)%nat in
    let* mem := unseal key key_len (rx_data f) payload length in
    Ret (WEP_SW_DEC_CNT_INC s (rx_ra f), mem)
  else Ret (s, rx_data f).

(** ** TKIP *)

(** [GET_TKIP_PN] and the two halves the key mixing takes: [pnl] and [pnh].
    The two highest bytes of [dot11txpn.val], which the macro leaves unset, are
    cut off by the conversion to [u32]. *)
Definition tkip_pnl (iv : list Z) : Z := iv.[2] .| (iv.[0] << 8).
Definition tkip_pnh (iv : list Z) : Z := iv.[4] .| (iv.[5] << 8) .| (iv.[6] << 16) .| (iv.[7] << 24).

Definition tkip_rc4key (prwskey ta iv : list Z) : list Z :=
  phase2 prwskey (phase1 prwskey ta (tkip_pnh iv)) (tkip_pnl iv).

Definition rtw_tkip_encrypt (s : security_priv) (frag_len : Z) (f : xmit_frame)
    : cres (Z * security_priv * list Z) :=
  match buf_addr f with
  | None => Err FAIL
  | Some addr =>
      let a := attrib f in
      if encrypt a =? TKIP then
        match (if IS_MCAST (ra a) then dot118021XGrpKey s !! dot118021XGrpKeyid s
               else Some (UncstKey a)) with
        | None => Oob
        | Some prwskey =>
            let* mem := frag_encrypt (λ iv, Ret (tkip_rc4key prwskey (ta a) iv, 16)) 8 a frag_len addr
                          (nr_frags a) (hw_hdr_offset (pkt_offset f)) (buf f) in
            Ret (SUCCESS, TKIP_SW_ENC_CNT_INC s (ra a), mem)
        end
      else Ret (SUCCESS, s, buf f)
  end.

(** The comparison of the ICV: [payload] is the offset of the plain text. *)
Definition icv_differs (mem : list Z) (payload : nat) (length : Z) : cres bool :=
  let crc := le32 (getcrc32 (slice payload (Z.to_nat (length - 4)) mem)) in
  let at_ k := mem_byte mem (Z.of_nat payload + length - k) in
  let* b := at_ 1 in if negb (crc.[3] =? b) then Ret true else
  let* b := at_ 2 in if negb (crc.[2] =? b) then Ret true else
  let* b := at_ 3 in if negb (crc.[1] =? b) then Ret true else
  let* b := at_ 4 in Ret (negb (crc.[0] =? b)).

(** [stainfo] is the unicast key of the station [rtw_get_stainfo] finds for the
    transmitter address, [None] if it finds none. *)
Definition rtw_tkip_decrypt (s : security_priv) (stainfo : option (list Z)) (f : recv_frame)
    : cres (Z * security_priv * list Z) :=
  if rx_encrypt f =? TKIP then
    match stainfo with
    | None => Ret (FAIL, s, rx_data f)
    | Some uncst =>
        if IS_MCAST (rx_ra f) && (binstallGrpkey s =? 0) then Ret (FAIL, s, rx_data f)
        else
          match (if IS_MCAST (rx_ra f) then dot118021XGrpKey s !! rx_key_index f else Some uncst) with
          | None => Oob
          | Some prwskey =>
              let payload := (rx_iv_len f + rx_hdrlen f)%nat in
              let length := s32 (rx_len f - Z.of_nat (rx_hdrlen f) - Z.of_nat (rx_iv_len f)) in
              let* iv := mem_read (rx_data f) (rx_hdrlen f) 8 in
              let* mem := unseal (tkip_rc4key prwskey (rx_ta f) iv) 16 (rx_data f) payload length in
              let* bad := icv_differs mem payload length in
              Ret (if bad then FAIL else SUCCESS, TKIP_SW_DEC_CNT_INC s (rx_ra f), mem)
          end
    end
  else Ret (SUCCESS, s, rx_data f).

(** ** One fragment *)

(** The text RC4 is applied to: the payload and its CRC-32, low byte first. *)
Definition with_icv (m : list Z) : list Z := m ++ le32 (CRC32 m).
Definition rc4 (kk : list Z * Z) (m : list Z) : list Z := (arcfour_encrypt (arcfour_init kk.1 kk.2) m).1.

Lemma length_rc4 kk m : length (rc4 kk m) = length m.
Proof. apply length_arcfour_encrypt. Qed.
Lemma rc4_twice kk m : rc4 kk (rc4 kk m) = m.
Proof. apply arcfour_twice. Qed.
Lemma length_with_icv m : length (with_icv m) = (length m + 4)%nat.
Proof. unfold with_icv. by rewrite length_app. Qed.

Lemma seal_ok kk mem p n :
  bytes mem → (p + n + 4 ≤ length mem)%nat →
  seal kk.1 kk.2 mem p (Z.of_nat n) = Ret (memcpy mem p (rc4 kk (with_icv (slice p n mem)))).
Proof.
  intros Hb H. unfold seal. rewrite (proj2 (Z.ltb_ge _ _)), Nat2Z.id by lia.
  rewrite mem_read_ok by lia. cbn [cbind].
  assert (length (slice p n mem) = n) as Hl by (apply length_slice; lia).
  unfold rc4, with_icv. rewrite <- getcrc32_eq by (by apply slice_bytes).
  pose proof (arcfour_encrypt_app (arcfour_init kk.1 kk.2) (slice p n mem) (le32 (getcrc32 (slice p n mem)))) as E.
  pose proof (length_arcfour_encrypt (arcfour_init kk.1 kk.2) (slice p n mem)) as Hc.
  destruct (arcfour_encrypt (arcfour_init kk.1 kk.2) (slice p n mem)) as [c ctx]. cbn [fst snd] in *.
  pose proof (length_arcfour_encrypt ctx (le32 (getcrc32 (slice p n mem)))) as Ht.
  destruct (arcfour_encrypt ctx _) as [t ctx']. cbn [fst snd] in *. rewrite E. cbn [fst].
  assert (length t = 4%nat) by (rewrite Ht; reflexivity).
  rewrite buf_write_memcpy by lia. cbn [cbind].
  rewrite buf_write_memcpy by (rewrite length_memcpy; lia).
  f_equal. rewrite <- memcpy_memcpy. f_equal. lia.
Qed.

Lemma unseal_ok kk mem p n :
  (p + n ≤ length mem)%nat →
  unseal kk.1 kk.2 mem p (Z.of_nat n) = Ret (memcpy mem p (rc4 kk (slice p n mem))).
Proof.
  intros H. unfold unseal. rewrite (proj2 (Z.ltb_ge _ _)), Nat2Z.id by lia.
  rewrite mem_read_ok by lia. cbn [cbind]. apply buf_write_memcpy.
  rewrite length_rc4, length_slice; lia.
Qed.

(** The comparison with the ICV, read as one equation. *)
Lemma icv_differs_ok mem p n :
  bytes mem → (4 ≤ n)%nat → (p + n ≤ length mem)%nat →
  icv_differs mem p (Z.of_nat n) =
    Ret (negb (bool_decide (slice p n mem = with_icv (slice p (n - 4) mem)))).
Proof.
  intros Hb H4 Hn. unfold icv_differs.
  replace (Z.to_nat (Z.of_nat n - 4)) with (n - 4)%nat by lia.
  rewrite getcrc32_eq by (by apply slice_bytes).
  assert (∀ k, (1 ≤ k ≤ 4)%nat → mem_byte mem (Z.of_nat p + Z.of_nat n - Z.of_nat k) = Ret mem.[p + n - k]) as Hr.
  { intros k Hk. unfold mem_byte. rewrite (proj2 (Z.ltb_ge _ _)) by lia.
    replace (Z.to_nat _) with (p + n - k)%nat by lia. by rewrite lookup_aget by lia. }
  pose proof (Hr 1%nat ltac:(lia)) as R1. pose proof (Hr 2%nat ltac:(lia)) as R2.
  pose proof (Hr 3%nat ltac:(lia)) as R3. pose proof (Hr 4%nat ltac:(lia)) as R4. clear Hr.
  change (Z.of_nat 1) with 1 in R1. change (Z.of_nat 2) with 2 in R2.
  change (Z.of_nat 3) with 3 in R3. change (Z.of_nat 4) with 4 in R4. rewrite R1, R2, R3, R4. cbn [cbind].
  assert (slice p n mem = slice p (n - 4) mem ++
    [mem.[p + n - 4]; mem.[p + n - 3]; mem.[p + n - 2]; mem.[p + n - 1]]) as E.
  { apply list_aget_eq; [rewrite length_app, !length_slice by lia; cbn; lia|].
    rewrite length_slice by lia. intros i Hi. unfold slice at 1. rewrite aget_take, aget_drop by lia.
    destruct (decide (i < n - 4)%nat).
    - rewrite aget_app_l by (rewrite length_slice; lia). unfold slice. by rewrite aget_take, aget_drop by lia.
    - replace i with ((n - 4) + (i - (n - 4)))%nat at 2 by lia.
      rewrite aget_app_r by (rewrite length_slice; lia).
      assert (i = n - 4 ∨ i = n - 3 ∨ i = n - 2 ∨ i = n - 1)%nat as Hi4 by lia.
      destruct Hi4 as [->|[->|[->| ->]]];
        match goal with |- _ = _.[?k] => let k' := fresh in
          first [replace k with 0%nat by lia|replace k with 1%nat by lia|replace k with 2%nat by lia
                |replace k with 3%nat by lia] end; cbn [aget nth]; f_equal; lia. }
  unfold with_icv. set (w := CRC32 _) in *. set (x := slice p (n - 4) mem) in *.
  rewrite E. clear E R1 R2 R3 R4. unfold le32. cbn [aget nth].
  set (b3 := mem.[p + n - 1]). set (b2 := mem.[p + n - 2]). set (b1 := mem.[p + n - 3]).
  set (b0 := mem.[p + n - 4]).
  destruct (bool_decide_reflect (x ++ [b0; b1; b2; b3] = x ++ [byte_at w 0; byte_at w 1; byte_at w 2; byte_at w 3]))
    as [E|E].
  - apply app_inv_head in E. injection E as E0 E1 E2 E3. by rewrite E0, E1, E2, E3, !Z.eqb_refl.
  - destruct (Z.eqb_spec (byte_at w 3) b3); [|done]. destruct (Z.eqb_spec (byte_at w 2) b2); [|done].
    destruct (Z.eqb_spec (byte_at w 1) b1); [|done]. destruct (Z.eqb_spec (byte_at w 0) b0); [|done].
    destruct E. congruence.
Qed.

(** ** All fragments *)
Section fragments.
Context (rc4key : list Z → cres (list Z * Z)) (K : list Z → list Z * Z) (ivn : nat) (a : pkt_attrib).
Context (frag_len addr : Z).

(** What the transmit path guarantees of the attributes: an IV field the key
    derivation fits in, a four-byte ICV, and sizes that hold header, IV and
    ICV. *)
Definition frag_sizes_ok : Prop :=
  (ivn ≤ iv_len a)%nat ∧ icv_len a = 4%nat ∧
  Z.of_nat (hdrlen a + iv_len a) + 4 ≤ frag_len < 2 ^ 31 ∧
  Z.of_nat (hdrlen a + iv_len a) + 4 ≤ last_txcmdsz a < 2 ^ 31.

(** The size of a fragment and of its payload. *)
Definition frag_size (last : bool) : nat := Z.to_nat (if last then last_txcmdsz a else frag_len).
Definition frag_body (last : bool) : nat := (frag_size last - hdrlen a - iv_len a - 4)%nat.
(** Where fragment [k] starts when the first one is at [off]. *)
Definition frag_offset (off k : nat) : nat := Nat.iter k (frag_next frag_len addr) off.

Context (HK : ∀ iv, length iv = ivn → rc4key iv = Ret (K iv)) (Hsz : frag_sizes_ok) (Ha : 0 ≤ addr).

Lemma frag_length_body last : frag_length a frag_len last = Z.of_nat (frag_body last).
Proof using Hsz.
  destruct Hsz as (H1 & H2 & H3 & H4). unfold frag_length, frag_body, frag_size, s32. rewrite H2.
  destruct last; rewrite u32_id by (split; lia); rewrite (proj2 (Z.ltb_lt _ _)) by lia; lia.
Qed.
Lemma RND4_bounds x : 0 ≤ x → x ≤ RND4 x ≤ x + 3.
Proof.
  intros Hx. unfold RND4. change 3 with (Z.ones 2). rewrite Z.land_ones, Z.shiftl_mul_pow2, Z.shiftr_div_pow2 by lia.
  pose proof (Z.div_mod x (2 ^ 2) ltac:(lia)). pose proof (Z.mod_pos_bound x (2 ^ 2) ltac:(lia)).
  change (Z.ones 2) with 3. change (2 ^ 2) with 4 in *. destruct (Z.eqb_spec (x mod 4) 0); lia.
Qed.
Lemma frag_next_bounds off :
  addr + Z.of_nat off + frag_len + 3 < 2 ^ 64 →
  (off + frag_size false ≤ frag_next frag_len addr off ≤ off + frag_size false + 3)%nat.
Proof using Hsz Ha.
  intros H. destruct Hsz as (H1 & H2 & H3 & H4). unfold frag_next, frag_size.
  pose proof (RND4_bounds (addr + Z.of_nat off + frag_len) ltac:(lia)) as Hr.
  rewrite u64_id by (split; lia). lia.
Qed.
Lemma frag_offset_S off k : frag_offset off (S k) = frag_offset (frag_next frag_len addr off) k.
Proof. unfold frag_offset. by rewrite Nat.iter_succ_r. Qed.
Lemma frag_offset_ge off k :
  addr + Z.of_nat off + Z.of_nat k * (frag_len + 3) < 2 ^ 64 → (off ≤ frag_offset off k)%nat.
Proof using Hsz Ha.
  revert off. induction k as [|k IH]; intros off H; [done|].
  rewrite frag_offset_S. pose proof Hsz as (H1 & H2 & H3 & H4).
  rewrite Nat2Z.inj_succ, Z.mul_succ_l in H.
  assert (0 ≤ Z.of_nat k * (frag_len + 3)) by (apply Z.mul_nonneg_nonneg; lia).
  assert (addr + Z.of_nat off + frag_len + 3 < 2 ^ 64) as Hb by lia.
  pose proof (frag_next_bounds off Hb) as Hn. unfold frag_size in Hn.
  etrans; [|apply IH; lia]. lia.
Qed.

(** Fragment [k] of [n] after encryption: header and IV unchanged, the body
    replaced by the RC4 image of payload and ICV. *)
Definition frag_sealed (off n : nat) (mem mem' : list Z) (k : nat) : Prop :=
  let last := (S k =? n)%nat in
  let o := frag_offset off k in
  let p := (o + iv_len a + hdrlen a)%nat in
  (o + frag_size last ≤ length mem)%nat ∧
  slice o (iv_len a + hdrlen a) mem' = slice o (iv_len a + hdrlen a) mem ∧
  slice p (frag_body last + 4) mem' =
    rc4 (K (slice (o + hdrlen a) ivn mem)) (with_icv (slice p (frag_body last) mem)).

Lemma frag_body_size last : (frag_body last + 4 + iv_len a + hdrlen a = frag_size last)%nat.
Proof using Hsz. destruct Hsz as (H1 & H2 & H3 & H4). unfold frag_body, frag_size. destruct last; lia. Qed.

(** The memory after one fragment. *)
Definition frag_step (last : bool) (off : nat) (mem : list Z) : list Z :=
  let p := (off + iv_len a + hdrlen a)%nat in
  memcpy mem p (rc4 (K (slice (off + hdrlen a) ivn mem)) (with_icv (slice p (frag_body last) mem))).
Lemma frag_step_length last off mem : length (frag_step last off mem) = length mem.
Proof. apply length_memcpy. Qed.
Lemma frag_step_bytes last off mem : bytes mem → bytes (frag_step last off mem).
Proof.
  intros H. unfold frag_step, memcpy. apply Forall_inserts_bytes; [done|]. unfold rc4.
  apply arcfour_encrypt_bytes, bytes_app; [by apply slice_bytes|].
  repeat (apply Forall_cons_iff; split; [apply byte_at_uint|]). apply Forall_nil_2.
Qed.
Lemma frag_step_other last off mem o c :
  (off + frag_size last ≤ length mem)%nat →
  (o + c ≤ off + iv_len a + hdrlen a ∨ off + frag_size last ≤ o)%nat →
  slice o c (frag_step last off mem) = slice o c mem.
Proof using Hsz.
  intros Hl H. pose proof (frag_body_size last). unfold frag_step. apply slice_memcpy_other.
  rewrite length_rc4, length_with_icv, length_slice; lia.
Qed.
Lemma frag_step_body last off mem :
  (off + frag_size last ≤ length mem)%nat →
  let p := (off + iv_len a + hdrlen a)%nat in
  slice p (frag_body last + 4) (frag_step last off mem) =
    rc4 (K (slice (off + hdrlen a) ivn mem)) (with_icv (slice p (frag_body last) mem)).
Proof using Hsz.
  intros Hl p. pose proof (frag_body_size last). unfold frag_step. fold p.
  set (c := rc4 _ _). assert (length c = frag_body last + 4)%nat as Hc
    by (unfold c; rewrite length_rc4, length_with_icv, length_slice; unfold p; lia).
  rewrite <- Hc. apply slice_memcpy_same. unfold p. lia.
Qed.

Lemma frag_encrypt_S n off mem :
  bytes mem → (off + frag_size (n =? 0)%nat ≤ length mem)%nat →
  frag_encrypt rc4key ivn a frag_len addr (S n) off mem =
    if (n =? 0)%nat then Ret (frag_step true off mem)
    else frag_encrypt rc4key ivn a frag_len addr n (frag_next frag_len addr off) (frag_step false off mem).
Proof using HK Hsz.
  intros Hb Hl. pose proof (frag_body_size (n =? 0)%nat) as Hs. cbn [frag_encrypt].
  pose proof Hsz as (Hiv & _). rewrite mem_read_ok by lia. cbn [cbind].
  rewrite HK by (rewrite length_slice; lia). cbn [cbind].
  rewrite frag_length_body.
  pose proof (seal_ok (K (slice (off + hdrlen a) ivn mem)) mem (off + iv_len a + hdrlen a)
    (frag_body (n =? 0)%nat) Hb ltac:(lia)) as E.
  destruct (K _) as [key kl] eqn:EK. cbn [fst snd] in E. rewrite E. cbn [cbind].
  unfold frag_step. by destruct (n =? 0)%nat; rewrite EK.
Qed.

Lemma frag_encrypt_ok n off mem :
  bytes mem → addr + Z.of_nat off + Z.of_nat n * (frag_len + 3) < 2 ^ 64 →
  (frag_offset off n + frag_size true ≤ length mem)%nat →
  ∃ mem', frag_encrypt rc4key ivn a frag_len addr (S n) off mem = Ret mem' ∧
    length mem' = length mem ∧ bytes mem' ∧
    (∀ o c, (o + c ≤ off)%nat → slice o c mem' = slice o c mem) ∧
    ∀ k, (k ≤ n)%nat → frag_sealed off (S n) mem mem' k.
Proof using HK Hsz Ha.
  revert off mem. induction n as [|n IH]; intros off mem Hb Hw Hl.
  - exists (frag_step true off mem). rewrite frag_encrypt_S by done. split_and!;
      [done|apply frag_step_length|by apply frag_step_bytes|..].
    + intros o c H. apply frag_step_other; [done|lia].
    + intros k Hk. assert (k = 0)%nat as -> by lia. split_and!; [done|apply frag_step_other; [done|cbn; lia]|].
      by apply frag_step_body.
  - pose proof Hsz as (H1 & H2 & H3 & H4). rewrite frag_offset_S in Hl.
    rewrite Nat2Z.inj_succ, Z.mul_succ_l in Hw.
    assert (0 ≤ Z.of_nat n * (frag_len + 3)) by (apply Z.mul_nonneg_nonneg; lia).
    assert (addr + Z.of_nat off + frag_len + 3 < 2 ^ 64) as Hn by lia.
    pose proof (frag_next_bounds off Hn) as Hnx. set (off' := frag_next frag_len addr off) in *.
    assert (addr + Z.of_nat off' + Z.of_nat n * (frag_len + 3) < 2 ^ 64) as Hw'
      by (unfold frag_size in Hnx; lia).
    pose proof (frag_offset_ge off' n Hw') as Hge.
    assert (off + frag_size false ≤ length mem)%nat as Hfit by lia.
    rewrite frag_encrypt_S by done. cbn [Nat.eqb].
    destruct (IH off' (frag_step false off mem)) as (mem' & E & Hlen & Hb' & Hbefore & Hall);
      [by apply frag_step_bytes|done|by rewrite frag_step_length|].
    exists mem'. split_and!; [done|by rewrite Hlen, frag_step_length|done|..].
    + intros o c Hoc. rewrite Hbefore by lia. apply frag_step_other; [done|lia].
    + intros [|k] Hk.
      * pose proof (frag_body_size false). unfold frag_sealed. cbn [Nat.eqb]. change (frag_offset off 0) with off.
        split_and!; [done|rewrite Hbefore by lia; apply frag_step_other; [done|lia]|].
        rewrite Hbefore by lia. by apply frag_step_body.
      * destruct (Hall k ltac:(lia)) as (A & B & C). unfold frag_sealed. rewrite frag_offset_S. fold off'.
        change (S (S k) =? S (S n))%nat with (S k =? S n)%nat.
        assert (off' ≤ frag_offset off' k)%nat as Hok.
        { apply frag_offset_ge. pose proof (Z.mul_le_mono_nonneg_r (Z.of_nat k) (Z.of_nat n) (frag_len + 3)). lia. }
        rewrite frag_step_length in A. split_and!; [done|rewrite B; apply frag_step_other; [done|lia]|].
        rewrite C. rewrite (frag_step_other false off mem (frag_offset off' k + hdrlen a) ivn) by (lia || (right; lia)).
        rewrite frag_step_other; [reflexivity|exact Hfit|right; lia].
Qed.
End fragments.

(** ** Receiving *)

(** The sizes of a received frame: everything inside the memory, at least an
    ICV behind the IV. *)
Definition rx_sizes_ok (ivn : nat) (f : recv_frame) (n : nat) : Prop :=
  bytes (rx_data f) ∧ (ivn ≤ rx_iv_len f)%nat ∧ (4 ≤ n)%nat ∧
  rx_len f = Z.of_nat (rx_hdrlen f + rx_iv_len f + n) ∧ rx_len f < 2 ^ 31 ∧
  rx_len f ≤ Z.of_nat (length (rx_data f)).
(** Payload and ICV in the clear. *)
Definition rx_plain (kk : list Z * Z) (f : recv_frame) (n : nat) : list Z :=
  rc4 kk (slice (rx_iv_len f + rx_hdrlen f) n (rx_data f)).

Lemma rx_length ivn f n :
  rx_sizes_ok ivn f n → s32 (rx_len f - Z.of_nat (rx_hdrlen f) - Z.of_nat (rx_iv_len f)) = Z.of_nat n.
Proof.
  intros (_ & _ & _ & H & H' & _). unfold s32. rewrite u32_id by (split; lia).
  rewrite (proj2 (Z.ltb_lt _ _)) by lia. lia.
Qed.
Lemma rx_unseal ivn kk f n :
  rx_sizes_ok ivn f n →
  unseal kk.1 kk.2 (rx_data f) (rx_iv_len f + rx_hdrlen f)
    (s32 (rx_len f - Z.of_nat (rx_hdrlen f) - Z.of_nat (rx_iv_len f))) =
    Ret (memcpy (rx_data f) (rx_iv_len f + rx_hdrlen f) (rx_plain kk f n)).
Proof. intros H. rewrite (rx_length ivn f n) by done. apply unseal_ok. destruct H. lia. Qed.
Lemma length_rx_plain ivn kk f n : rx_sizes_ok ivn f n → length (rx_plain kk f n) = n.
Proof. intros (? & ? & ? & ? & ? & ?). unfold rx_plain. rewrite length_rc4, length_slice; lia. Qed.
Lemma rx_plain_bytes kk f n : bytes (rx_data f) → bytes (rx_plain kk f n).
Proof. intros H. by apply arcfour_encrypt_bytes, slice_bytes. Qed.
Lemma rx_icv ivn kk f n :
  rx_sizes_ok ivn f n →
  icv_differs (memcpy (rx_data f) (rx_iv_len f + rx_hdrlen f) (rx_plain kk f n))
    (rx_iv_len f + rx_hdrlen f) (s32 (rx_len f - Z.of_nat (rx_hdrlen f) - Z.of_nat (rx_iv_len f))) =
    Ret (negb (bool_decide (rx_plain kk f n = with_icv (take (n - 4) (rx_plain kk f n))))).
Proof.
  intros H. rewrite (rx_length ivn f n) by done. pose proof (length_rx_plain ivn kk f n H) as Hp.
  destruct H as (Hb & H1 & H2 & H3 & H4 & H5). set (p := (rx_iv_len f + rx_hdrlen f)%nat).
  set (plain := rx_plain kk f n) in *.
  rewrite icv_differs_ok; [|apply Forall_inserts_bytes; [done|by apply rx_plain_bytes]|done
                           |rewrite length_memcpy; unfold p; lia].
  assert (slice p n (memcpy (rx_data f) p plain) = plain) as E.
  { rewrite <- Hp at 1. apply slice_memcpy_same. unfold p. lia. }
  assert (slice p (n - 4) (memcpy (rx_data f) p plain) = take (n - 4) plain) as E'.
  { rewrite <- E at 2. unfold slice. rewrite take_take. f_equal. lia. }
  by rewrite E, E'.
Qed.

(** The temporal key a received TKIP frame is decrypted with. *)
Definition rx_tkip_key (s : security_priv) (uncst : list Z) (f : recv_frame) : option (list Z) :=
  if IS_MCAST (rx_ra f) then dot118021XGrpKey s !! rx_key_index f else Some uncst.

Lemma tkip_decrypt_eq s uncst prwskey f n :
  rx_encrypt f = TKIP → rx_sizes_ok 8 f n → rx_tkip_key s uncst f = Some prwskey →
  (IS_MCAST (rx_ra f) = true → binstallGrpkey s ≠ 0) →
  let kk := (tkip_rc4key prwskey (rx_ta f) (slice (rx_hdrlen f) 8 (rx_data f)), 16) in
  rtw_tkip_decrypt s (Some uncst) f =
    Ret (if bool_decide (rx_plain kk f n = with_icv (take (n - 4) (rx_plain kk f n))) then SUCCESS else FAIL,
         TKIP_SW_DEC_CNT_INC s (rx_ra f),
         memcpy (rx_data f) (rx_iv_len f + rx_hdrlen f) (rx_plain kk f n)).
Proof.
  intros He Hs Hk Hg kk. unfold rtw_tkip_decrypt. rewrite He. cbn [Z.eqb TKIP Pos.eqb].
  assert (IS_MCAST (rx_ra f) && (binstallGrpkey s =? 0) = false) as ->.
  { destruct (IS_MCAST (rx_ra f)); [|done]. cbn. apply Z.eqb_neq. by apply Hg. }
  unfold rx_tkip_key in Hk. rewrite Hk.
  rewrite mem_read_ok by (destruct Hs; lia). cbn [cbind].
  pose proof (rx_unseal 8 kk f n Hs) as U. unfold kk in U at 1 2. cbn [fst snd] in U.
  rewrite U. cbn [cbind]. rewrite (rx_icv 8 kk f n Hs). cbn [cbind].
  by destruct (bool_decide _).
Qed.

Lemma wep_decrypt_eq s f n key kl :
  is_wep (rx_encrypt f) = true → rx_sizes_ok 3 f n →
  wep_rc4key s (rx_key_index f) (slice (rx_hdrlen f) 3 (rx_data f)) = Ret (key, kl) →
  rtw_wep_decrypt s f =
    Ret (WEP_SW_DEC_CNT_INC s (rx_ra f),
         memcpy (rx_data f) (rx_iv_len f + rx_hdrlen f) (rx_plain (key, kl) f n)).
Proof.
  intros He Hs Hk. unfold rtw_wep_decrypt. rewrite He.
  rewrite mem_read_ok by (destruct Hs; lia). cbn [cbind]. rewrite Hk. cbn [cbind].
  pose proof (rx_unseal 3 (key, kl) f n Hs) as U. cbn [fst snd] in U. by rewrite U.
Qed.

(** ** From transmitter to receiver *)

(** Fragment [k] as the receiver sees it: the memory from the fragment on, and
    the attributes of the transmitted frame. *)
Definition received (a : pkt_attrib) (frag_len addr : Z) (key_index off : nat) (mem : list Z) (k : nat)
    : recv_frame :=
  RecvFrame (encrypt a) (hdrlen a) (iv_len a) key_index (ra a) (ta a)
    (if (S k =? nr_frags a)%nat then last_txcmdsz a else frag_len)
    (drop (frag_offset frag_len addr off k) mem).

Section deliver.
Context (K : list Z → list Z * Z) (ivn : nat) (a : pkt_attrib) (frag_len addr : Z) (key_index off : nat).
Context (mem mem' : list Z) (k : nat).
Context (Hsz : frag_sizes_ok ivn a frag_len).
Context (Hb' : bytes mem') (Hlen : length mem' = length mem).
Context (Hseal : frag_sealed K ivn a frag_len addr off (nr_frags a) mem mem' k).

Let f := received a frag_len addr key_index off mem' k.
Let last := (S k =? nr_frags a)%nat.
Let o := frag_offset frag_len addr off k.
Let m := slice (o + iv_len a + hdrlen a) (frag_body a frag_len last) mem.

Lemma deliver_sizes : rx_sizes_ok ivn f (frag_body a frag_len last + 4).
Proof using Hsz Hseal Hlen Hb'.
  destruct Hseal as (A & _). fold last o in A. destruct (Hsz) as (H1 & H2 & H3 & H4).
  pose proof (frag_body_size ivn a frag_len Hsz last) as Hs.
  assert (rx_len f = Z.of_nat (frag_size a frag_len last)) as E
    by (unfold f, received, frag_size; cbn [rx_len]; fold last; destruct last; lia).
  unfold rx_sizes_ok. rewrite E. cbn [f received rx_hdrlen rx_iv_len rx_data].
  rewrite length_drop, Hlen. fold o. split_and!; [by apply bytes_drop|done|lia|lia| |lia].
  unfold frag_size. destruct last; lia.
Qed.
Lemma deliver_iv : slice (rx_hdrlen f) ivn (rx_data f) = slice (o + hdrlen a) ivn mem.
Proof using Hsz Hseal Hlen Hb'.
  destruct Hseal as (_ & B & _). fold o in B. destruct (Hsz) as (H1 & _).
  cbn [f received rx_hdrlen rx_data]. fold o. rewrite slice_drop.
  rewrite <- !(slice_slice o (iv_len a + hdrlen a) (hdrlen a) ivn) by lia. by rewrite B.
Qed.
Lemma deliver_plain :
  rx_plain (K (slice (o + hdrlen a) ivn mem)) f (frag_body a frag_len last + 4) = with_icv m.
Proof using Hsz Hseal Hlen Hb'.
  destruct Hseal as (_ & _ & C). fold last o in C. fold m in C.
  unfold rx_plain. cbn [f received rx_hdrlen rx_iv_len rx_data]. fold o. rewrite slice_drop.
  rewrite Nat.add_assoc, C. apply rc4_twice.
Qed.
Lemma length_deliver : length m = frag_body a frag_len last.
Proof using Hsz Hseal Hlen Hb'.
  destruct Hseal as (A & _). fold last o in A. pose proof (frag_body_size ivn a frag_len Hsz last).
  apply length_slice. lia.
Qed.
(** The receiver's memory starts with header, IV, payload and ICV. *)
Lemma deliver_memory :
  take (frag_size a frag_len last) (memcpy (rx_data f) (rx_iv_len f + rx_hdrlen f) (with_icv m)) =
    slice o (iv_len a + hdrlen a) mem ++ with_icv m.
Proof using Hsz Hseal Hlen Hb'.
  pose proof length_deliver as Hm. destruct Hseal as (A & B & _). fold last o in A. fold o in B.
  pose proof (frag_body_size ivn a frag_len Hsz last) as Hs.
  cbn [f received rx_hdrlen rx_iv_len rx_data]. fold o.
  rewrite memcpy_eq by (rewrite length_with_icv, length_drop, Hlen; lia).
  fold (slice o (iv_len a + hdrlen a) mem'). rewrite B, app_assoc.
  apply take_app_length'. rewrite length_app, length_with_icv, length_slice by lia. lia.
Qed.
Lemma deliver_all :
  rx_sizes_ok ivn f (frag_body a frag_len last + 4) ∧
  slice (rx_hdrlen f) ivn (rx_data f) = slice (o + hdrlen a) ivn mem ∧
  rx_plain (K (slice (o + hdrlen a) ivn mem)) f (frag_body a frag_len last + 4) = with_icv m ∧
  take (frag_body a frag_len last + 4 - 4) (with_icv m) = m ∧
  take (frag_size a frag_len last) (memcpy (rx_data f) (rx_iv_len f + rx_hdrlen f) (with_icv m)) =
    slice o (iv_len a + hdrlen a) mem ++ with_icv m.
Proof using Hsz Hseal Hlen Hb'.
  split_and!; [apply deliver_sizes|apply deliver_iv|apply deliver_plain| |apply deliver_memory].
  rewrite Nat.add_sub. apply take_app_length'. symmetry. apply length_deliver.
Qed.
End deliver.

(** ** Results *)

(** The transmit attributes and the memory of a frame that can be sent: sizes
    that make sense, at least one fragment, the whole frame inside the buffer
    and below the end of the address space. *)
Definition sendable (ivn : nat) (frag_len : Z) (f : xmit_frame) (addr : Z) : Prop :=
  let a := attrib f in
  let off := hw_hdr_offset (pkt_offset f) in
  buf_addr f = Some addr ∧ 0 ≤ addr ∧ bytes (buf f) ∧ frag_sizes_ok ivn a frag_len ∧ (0 < nr_frags a)%nat ∧
  addr + Z.of_nat off + Z.of_nat (nr_frags a) * (frag_len + 3) < 2 ^ 64 ∧
  (frag_offset frag_len addr off (nr_frags a - 1) + frag_size a frag_len true ≤ length (buf f))%nat.

Lemma sendable_encrypt rc4key K ivn frag_len f addr :
  sendable ivn frag_len f addr → (∀ iv, length iv = ivn → rc4key iv = Ret (K iv)) →
  ∃ mem', frag_encrypt rc4key ivn (attrib f) frag_len addr (nr_frags (attrib f))
            (hw_hdr_offset (pkt_offset f)) (buf f) = Ret mem' ∧
    length mem' = length (buf f) ∧ bytes mem' ∧
    ∀ k, (k < nr_frags (attrib f))%nat →
      frag_sealed K ivn (attrib f) frag_len addr (hw_hdr_offset (pkt_offset f)) (nr_frags (attrib f))
        (buf f) mem' k.
Proof.
  intros (_ & Ha & Hb & Hsz & Hn & Hw & Hl) HK. destruct (nr_frags (attrib f)) as [|n]; [lia|].
  rewrite Nat.sub_succ, Nat.sub_0_r in Hl. pose proof Hsz as (_ & _ & H3 & _).
  rewrite Nat2Z.inj_succ, Z.mul_succ_l in Hw.
  destruct (frag_encrypt_ok rc4key K ivn (attrib f) frag_len addr HK Hsz Ha n
    (hw_hdr_offset (pkt_offset f)) (buf f) Hb ltac:(lia) Hl)
    as (mem' & E & Hlen & Hb' & _ & Hall).
  exists mem'. split_and!; [done..|]. intros k Hk. apply Hall. lia.
Qed.

(** C34: TKIP between driver and driver.  A frame of one or more fragments is
    encrypted in place by [rtw_tkip_encrypt], which always succeeds on a frame
    that fits its buffer; each fragment, received by a station that has the
    same temporal key (the pairwise key for a unicast frame, the group key for
    a multicast one), is accepted by [rtw_tkip_decrypt], and the receiver's
    memory then holds the original header, IV and payload followed by the
    payload's CRC-32.  Fragments start at the next multiple of four after
    [frag_len] bytes, which the theorem follows from the first to the last. *)
Theorem tkip_fragments_roundtrip s s' frag_len f addr prwskey k :
  encrypt (attrib f) = TKIP → sendable 8 frag_len f addr →
  (if IS_MCAST (ra (attrib f)) then dot118021XGrpKey s !! dot118021XGrpKeyid s = Some prwskey
     ∧ dot118021XGrpKey s' !! dot118021XGrpKeyid s = Some prwskey ∧ binstallGrpkey s' ≠ 0
   else UncstKey (attrib f) = prwskey) →
  (k < nr_frags (attrib f))%nat →
  let a := attrib f in
  let off := hw_hdr_offset (pkt_offset f) in
  let o := frag_offset frag_len addr off k in
  let last := (S k =? nr_frags a)%nat in
  let h := (iv_len a + hdrlen a)%nat in
  let m := slice (o + iv_len a + hdrlen a) (frag_body a frag_len last) (buf f) in
  ∃ mem', rtw_tkip_encrypt s frag_len f = Ret (SUCCESS, TKIP_SW_ENC_CNT_INC s (ra a), mem') ∧
  ∃ rx, rtw_tkip_decrypt s' (Some prwskey) (received a frag_len addr (dot118021XGrpKeyid s) off mem' k) =
          Ret (SUCCESS, TKIP_SW_DEC_CNT_INC s' (ra a), rx) ∧
        take (frag_size a frag_len last) rx = slice o h (buf f) ++ m ++ le32 (CRC32 m).
Proof.
  intros He Hs Hkey Hk a off o last h m.
  set (K := λ iv, (tkip_rc4key prwskey (ta a) iv, 16)).
  destruct (sendable_encrypt (λ iv, Ret (K iv)) K 8 frag_len f addr Hs ltac:(done))
    as (mem' & E & Hlen & Hb' & Hall).
  exists mem'. pose proof Hs as (Haddr & _ & _ & Hsz & _). fold a off in Hsz, E, Hall. specialize (Hall k Hk).
  split.
  { unfold rtw_tkip_encrypt. rewrite Haddr. fold a. unfold a at 1. rewrite He. cbn [Z.eqb TKIP Pos.eqb].
    assert ((if IS_MCAST (ra a) then dot118021XGrpKey s !! dot118021XGrpKeyid s else Some (UncstKey a)) =
      Some prwskey) as ->.
    { fold a in Hkey. destruct (IS_MCAST (ra a)); [apply Hkey|by rewrite Hkey]. }
    fold off. unfold K in E. by rewrite E. }
  set (rf := received a frag_len addr (dot118021XGrpKeyid s) off mem' k).
  pose proof (deliver_all K 8 a frag_len addr (dot118021XGrpKeyid s) off (buf f) mem' k Hsz Hb' Hlen Hall)
    as (D & Div & Dp & Dt & Dm).
  fold rf o last in D, Div, Dp, Dt, Dm. fold m in Dp, Dt, Dm.
  assert (rx_tkip_key s' prwskey rf = Some prwskey ∧ (IS_MCAST (rx_ra rf) = true → binstallGrpkey s' ≠ 0)) as [Hk1 Hk2].
  { unfold rx_tkip_key. cbn [rf received rx_ra rx_key_index]. fold a in Hkey.
    destruct (IS_MCAST (ra a)); [|done]. split; [apply Hkey|intros _; apply Hkey]. }
  pose proof (tkip_decrypt_eq s' prwskey prwskey rf _ He D Hk1 Hk2) as T. cbv zeta in T.
  rewrite Div in T. change (rx_ta rf) with (ta a) in T.
  change (tkip_rc4key prwskey (ta a) (slice (o + hdrlen a) 8 (buf f)), 16) with
    (K (slice (o + hdrlen a) 8 (buf f))) in T.
  rewrite Dp, Dt, bool_decide_true in T by done. rewrite T. eexists. split; [done|exact Dm].
Qed.

(** WEP between driver and driver: every fragment [rtw_wep_encrypt]
    produces with the default key of its key index (at most 13 bytes, so that
    [wepkey[16]] holds IV and key), decrypted by [rtw_wep_decrypt] with the same
    key under the index the frame carries, is the original fragment followed
    by the CRC-32 of its payload. *)
Theorem wep_fragments_roundtrip s s' frag_len f addr keyid keylength skey k :
  is_wep (encrypt (attrib f)) = true → sendable 3 frag_len f addr →
  dot11DefKey s !! dot11PrivacyKeyIndex s = Some skey → dot11DefKey s' !! keyid = Some skey →
  dot11DefKeylen s !! dot11PrivacyKeyIndex s = Some keylength → dot11DefKeylen s' !! keyid = Some keylength →
  keylength ≤ 13 → (k < nr_frags (attrib f))%nat →
  let a := attrib f in
  let off := hw_hdr_offset (pkt_offset f) in
  let o := frag_offset frag_len addr off k in
  let last := (S k =? nr_frags a)%nat in
  let m := slice (o + iv_len a + hdrlen a) (frag_body a frag_len last) (buf f) in
  ∃ mem', rtw_wep_encrypt s frag_len f = Ret (WEP_SW_ENC_CNT_INC s (ra a), mem') ∧
  ∃ rx, rtw_wep_decrypt s' (received a frag_len addr keyid off mem' k) =
          Ret (WEP_SW_DEC_CNT_INC s' (ra a), rx) ∧
        take (frag_size a frag_len last) rx =
          slice o (iv_len a + hdrlen a) (buf f) ++ m ++ le32 (CRC32 m).
Proof.
  intros He Hs Hk1 Hk2 Hl1 Hl2 Hkl Hk a off o last m.
  set (K := λ iv, (iv ++ take (Z.to_nat keylength) skey, 3 + keylength)).
  destruct (sendable_encrypt (wep_rc4key s (dot11PrivacyKeyIndex s)) K 3 frag_len f addr Hs)
    as (mem' & E & Hlen & Hb' & Hall).
  { intros iv _. unfold wep_rc4key. rewrite Hl1, Hk1. by rewrite (proj2 (Z.leb_le _ _) Hkl). }
  exists mem'. pose proof Hs as (Haddr & _ & _ & Hsz & _). fold a off in Hsz, E, Hall. specialize (Hall k Hk).
  split; [unfold rtw_wep_encrypt; rewrite Haddr; fold a; unfold a at 1; rewrite He; fold off; by rewrite E|].
  set (rf := received a frag_len addr keyid off mem' k).
  pose proof (deliver_all K 3 a frag_len addr keyid off (buf f) mem' k Hsz Hb' Hlen Hall)
    as (D & Div & Dp & Dt & Dm).
  fold rf o last in D, Div, Dp, Dt, Dm. fold m in Dp, Dt, Dm.
  pose proof (wep_decrypt_eq s' rf _ (slice (o + hdrlen a) 3 (buf f) ++ take (Z.to_nat keylength) skey)
    (3 + keylength) He D) as T.
  rewrite Div in T. eexists. split; [|exact Dm]. rewrite <- Dp. apply T.
  unfold wep_rc4key. cbn [rf received rx_key_index]. rewrite Hl2, Hk2.
  by rewrite (proj2 (Z.leb_le _ _) Hkl).
Qed.

(** What [rtw_tkip_decrypt] does on every branch.  Without a station entry
    or, for a group addressed frame, without an installed group key it fails
    and leaves frame and counters alone; otherwise it replaces the text by its
    RC4 image under the mixed key and reports success exactly when the four
    last bytes are the CRC-32 of the rest. *)
Theorem tkip_decrypt_exact s stainfo f n :
  rx_encrypt f = TKIP → rx_sizes_ok 8 f n →
  (∀ uncst, stainfo = Some uncst → is_Some (rx_tkip_key s uncst f)) →
  match stainfo with
  | None => rtw_tkip_decrypt s stainfo f = Ret (FAIL, s, rx_data f)
  | Some uncst =>
      (IS_MCAST (rx_ra f) = true ∧ binstallGrpkey s = 0 ∧
       rtw_tkip_decrypt s stainfo f = Ret (FAIL, s, rx_data f)) ∨
      ∃ prwskey plain, rx_tkip_key s uncst f = Some prwskey ∧
        plain = rx_plain (tkip_rc4key prwskey (rx_ta f) (slice (rx_hdrlen f) 8 (rx_data f)), 16) f n ∧
        ∃ res, rtw_tkip_decrypt s stainfo f =
          Ret (res, TKIP_SW_DEC_CNT_INC s (rx_ra f),
               memcpy (rx_data f) (rx_iv_len f + rx_hdrlen f) plain) ∧
        (res = SUCCESS ↔ ∃ m, plain = m ++ le32 (CRC32 m)) ∧ (res = SUCCESS ∨ res = FAIL)
  end.
Proof.
  intros He Hs Hkey. destruct stainfo as [uncst|]; [|unfold rtw_tkip_decrypt; by rewrite He].
  destruct (IS_MCAST (rx_ra f) && (binstallGrpkey s =? 0)) eqn:G.
  - left. apply andb_prop in G as G'. destruct G' as [G1 G2]. split_and!; [done|by apply Z.eqb_eq|].
    unfold rtw_tkip_decrypt. rewrite He. cbn [Z.eqb TKIP Pos.eqb]. by rewrite G.
  - right. destruct (Hkey uncst eq_refl) as [prwskey Hk]. exists prwskey. eexists.
    split_and!; [done|reflexivity|]. eexists. split.
    + apply (tkip_decrypt_eq s uncst prwskey f n He Hs Hk). intros Hm. rewrite Hm in G. by apply Z.eqb_neq.
    + set (plain := rx_plain _ f n). assert (length plain = n) as Hl by (by apply (length_rx_plain 8)).
      destruct (bool_decide_reflect (plain = with_icv (take (n - 4) plain))) as [E|E];
        (split; [split; [intros A|intros [m Hm]]|by auto]); [by eexists|done|done|].
      destruct E. assert (take (n - 4) plain = m) as ->; [|done].
      rewrite Hm. apply take_app_length'. rewrite Hm, length_app in Hl. cbn [le32 length] in Hl. lia.
Qed.

(** WEP decryption does not look at the ICV: the frame of the first vector with
    its last byte changed is delivered all the same, although its last four
    bytes are not the CRC-32 of its payload. *)
Example wep_decrypt_accepts_bad_icv :
  let s := SecurityPriv 0 [[1; 2; 3; 4; 5]] [5] 0 [] 0 (SwCnt 0 0 0) (SwCnt 0 0 0) (SwCnt 0 0 0) (SwCnt 0 0 0) in
  let f := RecvFrame WEP40 24 4 0 (replicate 6 0) (replicate 6 0) 37
             (replicate 24 0 ++ [0xaa; 0xbb; 0xcc; 0; 0x2b; 0x6b; 0x36; 0x1e; 0x51; 0xe6; 0x46; 0xfb; 0xc5]) in
  ∃ s' rx, rtw_wep_decrypt s f = Ret (s', rx) ∧
    slice 28 5 rx = [0x48; 0x65; 0x6c; 0x6c; 0x6f] ∧ slice 33 4 rx ≠ le32 (CRC32 (slice 28 5 rx)).
Proof. eexists _, _. split; [vm_compute; reflexivity|]. split; [vm_compute; reflexivity|vm_compute; congruence]. Qed.

(** ** Instances *)
Definition no_cnt : sw_cnt := SwCnt 0 0 0.
Definition demo_sec : security_priv :=
  SecurityPriv 0 [[1; 2; 3; 4; 5]] [5] 0 [replicate 32 9] 1 no_cnt no_cnt no_cnt no_cnt.
(** Two fragments of 46 and 40 bytes; the second one starts at the next
    multiple of four. *)
Definition demo_frame (enc : Z) (ivl : nat) : xmit_frame :=
  XmitFrame (PktAttrib enc 24 40 2 ivl 4 [2; 0; 0; 0; 0; 1] [2; 0; 0; 0; 0; 2] (replicate 16 3)) 0 (Some 4096)
    (replicate 148 7).

(** Closes [sendable] for a concrete frame. *)
Ltac sendable_lit :=
  unfold sendable, frag_sizes_ok; split_and!;
  first [reflexivity | bytes_lit | vm_compute; (congruence || lia) | lia].

Lemma tkip_fragments_roundtrip_witness :
  ∃ mem', rtw_tkip_encrypt demo_sec 46 (demo_frame TKIP 8) =
      Ret (SUCCESS, TKIP_SW_ENC_CNT_INC demo_sec [2; 0; 0; 0; 0; 1], mem') ∧
  ∃ rx, rtw_tkip_decrypt demo_sec (Some (replicate 16 3))
          (received (attrib (demo_frame TKIP 8)) 46 4096 0 48 mem' 1) =
          Ret (SUCCESS, TKIP_SW_DEC_CNT_INC demo_sec [2; 0; 0; 0; 0; 1], rx) ∧
        take 40 rx = replicate 36 7 ++ le32 (CRC32 (replicate 4 7)).
Proof.
  apply (tkip_fragments_roundtrip demo_sec demo_sec 46 (demo_frame TKIP 8) 4096 (replicate 16 3) 1);
    [reflexivity|sendable_lit|reflexivity|cbn; lia].
Defined.
Lemma wep_fragments_roundtrip_witness :
  ∃ mem', rtw_wep_encrypt demo_sec 46 (demo_frame WEP40 4) =
      Ret (WEP_SW_ENC_CNT_INC demo_sec [2; 0; 0; 0; 0; 1], mem') ∧
  ∃ rx, rtw_wep_decrypt demo_sec (received (attrib (demo_frame WEP40 4)) 46 4096 0 48 mem' 0) =
          Ret (WEP_SW_DEC_CNT_INC demo_sec [2; 0; 0; 0; 0; 1], rx) ∧
        take 46 rx = replicate 42 7 ++ le32 (CRC32 (replicate 14 7)).
Proof.
  apply (wep_fragments_roundtrip demo_sec demo_sec 46 (demo_frame WEP40 4) 4096 0 5 [1; 2; 3; 4; 5] 0);
    [reflexivity|sendable_lit|reflexivity..|lia|cbn; lia].
Defined.
Lemma tkip_decrypt_exact_witness :
  rtw_tkip_decrypt demo_sec None (RecvFrame TKIP 24 8 0 (replicate 6 0) (replicate 6 0) 40 (replicate 40 0)) =
    Ret (FAIL, demo_sec, replicate 40 0).
Proof.
  apply (tkip_decrypt_exact demo_sec None
    (RecvFrame TKIP 24 8 0 (replicate 6 0) (replicate 6 0) 40 (replicate 40 0)) 8);
    [reflexivity| |congruence].
  unfold rx_sizes_ok. split_and!; first [reflexivity|bytes_lit|vm_compute; (congruence || lia)|cbn; lia].
Defined.
