(* ===== verification/Reorder.v ===== *)
(** * The receive reordering buffer of [core/rtw_recv.c]

    One block-ack session: the control block of a traffic identifier, the
    counters of [struct recv_priv] it maintains and the frames handed to
    [recv_process_mpdu], oldest first.  Every entry point runs with the lock of
    the pending queue held, so a run is a sequence of these steps. *)
From stdpp Require Import sorting.
From S2P Require Import Prelude.

Definition SN_LESS (a b : Z) : bool := negb ((a - b) .& 0x800 =? 0).
Definition SN_EQUAL (a b : Z) : bool := a =? b.

(** A data frame: the attributes used here, whether [preorder_ctrl] points to
    the control block (it is NULL for group addressed and for non-QoS frames)
    and the frame body. *)
Record rx_frame := RxFrame { seq_num : Z; qos : bool; preorder_ctrl : bool; body : nat }.

Record reorder := Reorder {
  (* struct recv_reorder_ctrl *)
  enable : bool; indicate_seq : Z; wsize_b : Z; ampdu_size : Z;
  pending : list rx_frame; timer_set : bool; bReorderWaiting : bool; rec_abba_rsp_ack : bool;
  (* struct recv_priv *)
  rx_drop : Z; dbg_rx_drop_count : Z; dbg_rx_ampdu_drop_count : Z;
  dbg_rx_ampdu_forced_indicate_count : Z; dbg_rx_ampdu_loss_count : Z; dbg_rx_ampdu_window_shift_cnt : Z;
  (* the frames given to recv_process_mpdu *)
  up : list rx_frame
}.

(** ** Assignments to one field *)
Definition set_indicate_seq (v : Z) (r : reorder) : reorder :=
  Reorder (enable r) v (wsize_b r) (ampdu_size r) (pending r) (timer_set r) (bReorderWaiting r)
    (rec_abba_rsp_ack r) (rx_drop r) (dbg_rx_drop_count r) (dbg_rx_ampdu_drop_count r)
    (dbg_rx_ampdu_forced_indicate_count r) (dbg_rx_ampdu_loss_count r) (dbg_rx_ampdu_window_shift_cnt r) (up r).
Definition set_pending (q : list rx_frame) (r : reorder) : reorder :=
  Reorder (enable r) (indicate_seq r) (wsize_b r) (ampdu_size r) q (timer_set r) (bReorderWaiting r)
    (rec_abba_rsp_ack r) (rx_drop r) (dbg_rx_drop_count r) (dbg_rx_ampdu_drop_count r)
    (dbg_rx_ampdu_forced_indicate_count r) (dbg_rx_ampdu_loss_count r) (dbg_rx_ampdu_window_shift_cnt r) (up r).
Definition set_timer (b : bool) (r : reorder) : reorder :=
  Reorder (enable r) (indicate_seq r) (wsize_b r) (ampdu_size r) (pending r) b (bReorderWaiting r)
    (rec_abba_rsp_ack r) (rx_drop r) (dbg_rx_drop_count r) (dbg_rx_ampdu_drop_count r)
    (dbg_rx_ampdu_forced_indicate_count r) (dbg_rx_ampdu_loss_count r) (dbg_rx_ampdu_window_shift_cnt r) (up r).
Definition set_waiting (b : bool) (r : reorder) : reorder :=
  Reorder (enable r) (indicate_seq r) (wsize_b r) (ampdu_size r) (pending r) (timer_set r) b
    (rec_abba_rsp_ack r) (rx_drop r) (dbg_rx_drop_count r) (dbg_rx_ampdu_drop_count r)
    (dbg_rx_ampdu_forced_indicate_count r) (dbg_rx_ampdu_loss_count r) (dbg_rx_ampdu_window_shift_cnt r) (up r).
Definition set_abba (b : bool) (r : reorder) : reorder :=
  Reorder (enable r) (indicate_seq r) (wsize_b r) (ampdu_size r) (pending r) (timer_set r) (bReorderWaiting r)
    b (rx_drop r) (dbg_rx_drop_count r) (dbg_rx_ampdu_drop_count r)
    (dbg_rx_ampdu_forced_indicate_count r) (dbg_rx_ampdu_loss_count r) (dbg_rx_ampdu_window_shift_cnt r) (up r).
Definition set_enable (b : bool) (r : reorder) : reorder :=
  Reorder b (indicate_seq r) (wsize_b r) (ampdu_size r) (pending r) (timer_set r) (bReorderWaiting r)
    (rec_abba_rsp_ack r) (rx_drop r) (dbg_rx_drop_count r) (dbg_rx_ampdu_drop_count r)
    (dbg_rx_ampdu_forced_indicate_count r) (dbg_rx_ampdu_loss_count r) (dbg_rx_ampdu_window_shift_cnt r) (up r).
Definition set_ampdu_size (v : Z) (r : reorder) : reorder :=
  Reorder (enable r) (indicate_seq r) (wsize_b r) v (pending r) (timer_set r) (bReorderWaiting r)
    (rec_abba_rsp_ack r) (rx_drop r) (dbg_rx_drop_count r) (dbg_rx_ampdu_drop_count r)
    (dbg_rx_ampdu_forced_indicate_count r) (dbg_rx_ampdu_loss_count r) (dbg_rx_ampdu_window_shift_cnt r) (up r).
(** The 64-bit counters. *)
Definition count_drop (r : reorder) : reorder :=
  Reorder (enable r) (indicate_seq r) (wsize_b r) (ampdu_size r) (pending r) (timer_set r) (bReorderWaiting r)
    (rec_abba_rsp_ack r) (rx_drop r) (u64 (dbg_rx_drop_count r + 1)) (dbg_rx_ampdu_drop_count r)
    (dbg_rx_ampdu_forced_indicate_count r) (dbg_rx_ampdu_loss_count r) (dbg_rx_ampdu_window_shift_cnt r) (up r).
Definition count_ampdu_drop (r : reorder) : reorder :=
  Reorder (enable r) (indicate_seq r) (wsize_b r) (ampdu_size r) (pending r) (timer_set r) (bReorderWaiting r)
    (rec_abba_rsp_ack r) (rx_drop r) (dbg_rx_drop_count r) (u64 (dbg_rx_ampdu_drop_count r + 1))
    (dbg_rx_ampdu_forced_indicate_count r) (dbg_rx_ampdu_loss_count r) (dbg_rx_ampdu_window_shift_cnt r) (up r).
Definition count_forced (r : reorder) : reorder :=
  Reorder (enable r) (indicate_seq r) (wsize_b r) (ampdu_size r) (pending r) (timer_set r) (bReorderWaiting r)
    (rec_abba_rsp_ack r) (rx_drop r) (dbg_rx_drop_count r) (dbg_rx_ampdu_drop_count r)
    (u64 (dbg_rx_ampdu_forced_indicate_count r + 1)) (dbg_rx_ampdu_loss_count r)
    (dbg_rx_ampdu_window_shift_cnt r) (up r).
Definition count_loss (n : Z) (r : reorder) : reorder :=
  Reorder (enable r) (indicate_seq r) (wsize_b r) (ampdu_size r) (pending r) (timer_set r) (bReorderWaiting r)
    (rec_abba_rsp_ack r) (u64 (rx_drop r + n)) (dbg_rx_drop_count r) (dbg_rx_ampdu_drop_count r)
    (dbg_rx_ampdu_forced_indicate_count r) (u64 (dbg_rx_ampdu_loss_count r + n))
    (dbg_rx_ampdu_window_shift_cnt r) (up r).
Definition count_shift (r : reorder) : reorder :=
  Reorder (enable r) (indicate_seq r) (wsize_b r) (ampdu_size r) (pending r) (timer_set r) (bReorderWaiting r)
    (rec_abba_rsp_ack r) (rx_drop r) (dbg_rx_drop_count r) (dbg_rx_ampdu_drop_count r)
    (dbg_rx_ampdu_forced_indicate_count r) (dbg_rx_ampdu_loss_count r)
    (u64 (dbg_rx_ampdu_window_shift_cnt r + 1)) (up r).
Definition hand_up (f : rx_frame) (r : reorder) : reorder :=
  Reorder (enable r) (indicate_seq r) (wsize_b r) (ampdu_size r) (pending r) (timer_set r) (bReorderWaiting r)
    (rec_abba_rsp_ack r) (rx_drop r) (dbg_rx_drop_count r) (dbg_rx_ampdu_drop_count r)
    (dbg_rx_ampdu_forced_indicate_count r) (dbg_rx_ampdu_loss_count r) (dbg_rx_ampdu_window_shift_cnt r)
    (up r ++ [f]).

(** ** The operations *)
Inductive rx_ret := RX_SUCCESS | RX_FAIL | RX_HANDLED.

Section ops.
(** Whether [recv_process_mpdu] returns [_SUCCESS] for a frame. *)
Context (mpdu_ok : rx_frame → bool).

Definition check_indicate_seq (r : reorder) (seq : Z) : bool * reorder :=
  let wsize := wsize_b r in
  let r := if indicate_seq r =? 0xFFFF then set_indicate_seq seq r else r in
  let wend := (indicate_seq r + wsize - 1) .& 0xFFF in
  if SN_LESS seq (indicate_seq r) then (false, r)
  else if SN_EQUAL seq (indicate_seq r) then (true, set_indicate_seq ((indicate_seq r + 1) .& 0xFFF) r)
  else if SN_LESS wend seq then
    let r := set_indicate_seq
               (if wsize - 1 <=? seq then u16 (seq + 1 - wsize) else u16 (0xFFF - (wsize - (seq + 1)) + 1)) r in
    (true, count_shift r)
  else (true, r).

(** The queue with the frame inserted, or [None] for a duplicate. *)
Fixpoint enqueue_reorder_recvframe (q : list rx_frame) (f : rx_frame) : option (list rx_frame) :=
  match q with
  | [] => Some [f]
  | g :: q' =>
      if SN_LESS (seq_num g) (seq_num f) then cons g <$> enqueue_reorder_recvframe q' f
      else if SN_EQUAL (seq_num g) (seq_num f) then None
      else Some (f :: g :: q')
  end.

Definition recv_indicatepkts_pkt_loss_cnt (r : reorder) (prev_seq current_seq : Z) : reorder :=
  if current_seq <? prev_seq then count_loss (4096 + current_seq - prev_seq) r
  else count_loss (current_seq - prev_seq) r.

(** The loop over the pending queue and the value of [bPktInBuf] after it. *)
Fixpoint indicate_loop (q : list rx_frame) (r : reorder) : bool * reorder :=
  match q with
  | [] => (false, r)
  | f :: q' =>
      if negb (SN_LESS (indicate_seq r) (seq_num f)) then
        let r := set_pending q' r in
        let r := if SN_EQUAL (indicate_seq r) (seq_num f)
                 then set_indicate_seq ((indicate_seq r + 1) .& 0xFFF) r else r in
        let r := hand_up f r in
        let r := if mpdu_ok f then r else count_drop r in
        indicate_loop q' r
      else (true, r)
  end.

Definition recv_indicatepkts_in_order (r : reorder) (bforced : bool) : bool * reorder :=
  if bforced then
    let r := count_forced r in
    match pending r with
    | [] => (true, r)
    | f :: _ =>
        let r := recv_indicatepkts_pkt_loss_cnt r (indicate_seq r) (seq_num f) in
        let r := set_indicate_seq (seq_num f) r in
        indicate_loop (pending r) r
    end
  else indicate_loop (pending r) r.

Definition recv_indicatepkt_reorder (r : reorder) (f : rx_frame) : rx_ret * reorder :=
  if negb (qos f) || negb (preorder_ctrl f) || negb (enable r) then (RX_SUCCESS, r)
  else
    let r := if rec_abba_rsp_ack r then set_indicate_seq 0xFFFF (set_abba false r) else r in
    let '(ok, r) := check_indicate_seq r (seq_num f) in
    if negb ok then (RX_FAIL, count_ampdu_drop r)
    else
      match enqueue_reorder_recvframe (pending r) f with
      | None => (RX_FAIL, r)
      | Some q =>
          let '(inbuf, r) := recv_indicatepkts_in_order (set_pending q r) false in
          if inbuf then
            (RX_HANDLED, if bReorderWaiting r then r else set_timer true (set_waiting true r))
          else (RX_HANDLED, set_timer false (set_waiting false r))
      end.

(** The timer has fired: it is no longer set when the handler starts. *)
Definition rtw_reordering_ctrl_timeout_handler (cannot_run : bool) (r : reorder) : reorder :=
  let r := set_timer false r in
  if cannot_run then r
  else
    let r := set_waiting false r in
    let '(again, r) := recv_indicatepkts_in_order r true in
    if again then set_timer true r else r.

Definition recv_set_iseq_before_mpdu_process (r : reorder) (f : rx_frame) : reorder :=
  if preorder_ctrl f then set_indicate_seq (seq_num f) r else r.
Definition recv_set_iseq_after_mpdu_process (r : reorder) (f : rx_frame) : reorder :=
  if preorder_ctrl f then set_indicate_seq ((indicate_seq r + 1) mod 4096) r else r.

(** The end of [recv_func_posthandle]: reordering, then the frames that are not
    subject to it go up at once; a frame that was dropped is counted. *)
Definition posthandle_reorder (r : reorder) (f : rx_frame) : rx_ret * reorder :=
  let '(ret, r) := recv_indicatepkt_reorder r f in
  match ret with
  | RX_FAIL => (RX_FAIL, count_drop r)
  | RX_HANDLED => (RX_HANDLED, r)
  | RX_SUCCESS =>
      let r := recv_set_iseq_before_mpdu_process r f in
      let r := hand_up f r in
      let r := recv_set_iseq_after_mpdu_process r f in
      if mpdu_ok f then (RX_SUCCESS, r) else (RX_FAIL, count_drop r)
  end.
End ops.

(** [rtw_process_bar_frame]: [ctl] is the sequence control word of the block
    ack request. *)
Definition rtw_process_bar_frame (r : reorder) (ctl : Z) : reorder := set_indicate_seq (u16 ctl >> 4) r.

(** [add_ba_rsp_hdl] after the response was sent. *)
Definition add_ba_rsp_hdl (r : reorder) (status size : Z) : reorder :=
  let r := set_abba true r in
  if status =? 0 then set_ampdu_size size (set_enable true r)
  else if status =? 37 then set_enable false r else r.

(** The control block of a new station. *)
Definition init_recvreorder_ctrl : reorder :=
  Reorder false 0xffff 64 0xff [] false false false 0 0 0 0 0 0 [].

(** ** The specification: unbounded sequence numbers

    Every frame has the position [v] of the transmitter's stream it belongs to;
    its 12-bit sequence number is [v mod 4096].  The buffer is a window start
    and an ordered list of frames that wait for a gap to close. *)
Record window := Window { w_start : Z; w_pend : list (Z * rx_frame) }.

(** Ordered insertion; [None] for a position that is already waiting. *)
Fixpoint w_insert (v : Z) (f : rx_frame) (q : list (Z * rx_frame)) : option (list (Z * rx_frame)) :=
  match q with
  | [] => Some [(v, f)]
  | (u, g) :: q' =>
      if u <? v then cons (u, g) <$> w_insert v f q'
      else if u =? v then None
      else Some ((v, f) :: (u, g) :: q')
  end.
(** Release what precedes the start and what continues it without a gap:
    the frames released, the new start and the frames that still wait. *)
Fixpoint w_release (start : Z) (q : list (Z * rx_frame)) : list (Z * rx_frame) * window :=
  match q with
  | [] => ([], Window start [])
  | (u, g) :: q' =>
      if u <=? start then
        let '(out, w) := w_release (if u =? start then start + 1 else start) q' in ((u, g) :: out, w)
      else ([], Window start ((u, g) :: q'))
  end.
(** A frame at position [v] arrives; [None] if it is dropped.  [n] is the size
    of the window. *)
Definition w_recv (n : Z) (w : window) (v : Z) (f : rx_frame) : option (list (Z * rx_frame) * window) :=
  if v <? w_start w then None
  else
    let start := if v =? w_start w then v + 1 else Z.max (w_start w) (v + 1 - n) in
    match w_insert v f (w_pend w) with
    | None => None
    | Some q => Some (w_release start q)
    end.
(** The timer gives up on the gap before the first waiting frame; the number of
    positions given up on. *)
Definition w_timeout (w : window) : list (Z * rx_frame) * window * Z :=
  match w_pend w with
  | [] => ([], w, 0)
  | (u, _) :: _ => (w_release u (w_pend w), u - w_start w)
  end.

(** Between two steps everything that waits lies inside the window, behind a
    gap, in order. *)
Definition w_inv (n : Z) (w : window) : Prop :=
  Forall (λ p, w_start w < p.1 < w_start w + n) (w_pend w) ∧ StronglySorted Z.lt (w_pend w).*1.

(** ** Circular comparison *)
Lemma sn_less x y :
  -2048 ≤ x - y ≤ 2047 → SN_LESS (x mod 4096) (y mod 4096) = (x <? y).
Proof.
  intros H. unfold SN_LESS. change 0x800 with (2 ^ 11). rewrite land_bit_eqb, negb_involutive by lia.
  rewrite <- (Z.mod_pow2_bits_low _ 12) by lia. change (2 ^ 12) with 4096.
  rewrite <- Zminus_mod. rewrite Z.testbit_odd, Z.shiftr_div_pow2 by lia. change (2 ^ 11) with 2048.
  destruct (Z.ltb_spec x y).
  - replace (x - y) with ((x - y + 4096) + (-1) * 4096) by lia. rewrite Z.mod_add, Z.mod_small by lia.
    replace ((x - y + 4096) / 2048) with 1; [done|]. apply (Z.div_unique _ _ _ (x - y + 2048)); lia.
  - rewrite (Z.mod_small (x - y)), Z.div_small by lia. done.
Qed.
Lemma sn_equal x y : -4095 ≤ x - y ≤ 4095 → SN_EQUAL (x mod 4096) (y mod 4096) = (x =? y).
Proof.
  intros H. unfold SN_EQUAL. destruct (Z.eqb_spec x y) as [->|Hne]; [apply Z.eqb_refl|].
  apply Z.eqb_neq. intros E. apply Hne.
  pose proof (Z.div_mod x 4096 ltac:(lia)). pose proof (Z.div_mod y 4096 ltac:(lia)). lia.
Qed.
Lemma mod_succ x : (x mod 4096 + 1) .& 0xFFF = (x + 1) mod 4096.
Proof. change 0xFFF with (Z.ones 12). rewrite Z.land_ones by lia. change (2 ^ 12) with 4096. by rewrite Zplus_mod_idemp_l. Qed.

(** ** The specification keeps its invariant *)
Lemma w_insert_spec v f q q' :
  w_insert v f q = Some q' → StronglySorted Z.lt q.*1 →
  StronglySorted Z.lt q'.*1 ∧ q' ≡ₚ (v, f) :: q.
Proof.
  revert q'. induction q as [|[u g] q IH]; intros q' E Hs; cbn [w_insert] in E.
  - injection E as <-. split; [by repeat constructor|done].
  - cbn [fmap list_fmap fst] in Hs. apply StronglySorted_inv in Hs as [Hs Hu].
    destruct (Z.ltb_spec u v).
    + apply fmap_Some in E as (q1 & E & ->). destruct (IH q1 E Hs) as [H1 H2]. split.
      * cbn [fmap list_fmap fst]. constructor; [done|]. rewrite H2. constructor; [done|exact Hu].
      * rewrite H2. by constructor.
    + destruct (Z.eqb_spec u v); [done|]. injection E as <-. split; [|done].
      cbn [fmap list_fmap fst]. constructor; [by constructor|]. constructor; [lia|].
      eapply List.Forall_impl; [|exact Hu]. cbn. intros; lia.
Qed.
(** What the release returns. *)
Record release_ok (start : Z) (q out : list (Z * rx_frame)) (w : window) : Prop := {
  rel_split : q = out ++ w_pend w;
  rel_start : start ≤ w_start w;
  rel_out : Forall (λ p, p.1 < w_start w) out;
  rel_pend : Forall (λ p, w_start w < p.1) (w_pend w);
}.
Lemma w_release_ok q : ∀ start, StronglySorted Z.lt q.*1 →
  let '(out, w) := w_release start q in release_ok start q out w.
Proof.
  induction q as [|[u g] q IH]; intros start Hs; cbn [w_release fmap list_fmap fst] in *.
  - by split; try constructor.
  - apply StronglySorted_inv in Hs as [Hs Hu]. destruct (Z.leb_spec u start) as [Hle|Hgt].
    + specialize (IH (if u =? start then start + 1 else start) Hs).
      destruct (w_release _ q) as [out w]. destruct IH as [H1 H2 H3 H4].
      assert (u < w_start w ∧ start ≤ w_start w) as [Hu' Hst] by (destruct (Z.eqb_spec u start); lia).
      split; [by rewrite H1 at 1|done|by constructor|done].
    + split; [done|cbn; lia|constructor|]. cbn. constructor; [done|].
      apply (Forall_fmap fst (λ x, start < x)). eapply List.Forall_impl; [|exact Hu]. cbn. intros; lia.
Qed.

Lemma w_recv_start_bounds n w v :
  1 ≤ n → w_start w ≤ v →
  let s := if v =? w_start w then v + 1 else Z.max (w_start w) (v + 1 - n) in
  w_start w ≤ s ≤ v + 1 ∧ v < s + n ∧ (v = w_start w → s = v + 1).
Proof. intros Hn Hv. cbv zeta. destruct (Z.eqb_spec v (w_start w)); lia. Qed.

(** A step of the specification keeps the invariant; what it hands out lies
    between the old and the new start; nothing is lost or duplicated. *)
Record step_ok (n : Z) (w : window) (out : list (Z * rx_frame)) (w' : window) : Prop := {
  step_inv : w_inv n w';
  step_start : w_start w ≤ w_start w';
  step_out : Forall (λ p, w_start w ≤ p.1 < w_start w') out;
  step_sorted : StronglySorted Z.lt out.*1;
}.
Lemma release_step n w start q out w' :
  StronglySorted Z.lt q.*1 → Forall (λ p, w_start w ≤ p.1 < start + n) q → w_start w ≤ start →
  w_release start q = (out, w') → step_ok n w out w'.
Proof.
  intros Hs Hq Hst E. pose proof (w_release_ok q start Hs) as H. rewrite E in H.
  destruct H as [-> H2 H3 H4]. rewrite fmap_app in Hs.
  apply StronglySorted_app in Hs as (_ & S1 & S2).
  apply Forall_app in Hq as [Q1 Q2]. split; [split; [|done]|lia| |done].
  - apply Forall_and; [done|]. eapply List.Forall_impl; [|exact Q2]. cbn. lia.
  - apply Forall_and; [|done]. eapply List.Forall_impl; [|exact Q1]. cbn. lia.
Qed.

Lemma w_recv_ok n w v f out w' :
  1 ≤ n → w_inv n w → w_recv n w v f = Some (out, w') →
  step_ok n w out w' ∧ out ++ w_pend w' ≡ₚ (v, f) :: w_pend w.
Proof.
  intros Hn [Hw Hs] E. unfold w_recv in E. destruct (Z.ltb_spec v (w_start w)) as [|Hv]; [done|].
  pose proof (w_recv_start_bounds n w v Hn Hv) as Hst. cbv zeta in Hst, E.
  set (s := if v =? w_start w then _ else _) in *.
  destruct (w_insert v f (w_pend w)) as [q|] eqn:Ei; [|done]. injection E as E.
  destruct (w_insert_spec v f (w_pend w) q Ei Hs) as [Sq Pq]. split.
  - apply (release_step n w s q out w'); [done| |lia|done]. rewrite Pq. constructor; [cbn; lia|].
    eapply List.Forall_impl; [|exact Hw]. cbn. lia.
  - pose proof (w_release_ok q s Sq) as H. rewrite E in H. destruct H as [<- _ _ _]. done.
Qed.
Lemma w_timeout_ok n w out w' lost :
  w_inv n w → w_timeout w = (out, w', lost) →
  step_ok n w out w' ∧ out ++ w_pend w' = w_pend w ∧ 0 ≤ lost ∧ (w_pend w ≠ [] → out ≠ []).
Proof.
  intros [Hw Hs] E. unfold w_timeout in E. destruct (w_pend w) as [|[u g] q] eqn:Eq.
  - injection E as <- <- <-. rewrite Eq. split_and!; [|done..]. split; [|lia|constructor..].
    split; rewrite Eq; [done|constructor].
  - apply (f_equal snd) in E as EL. apply (f_equal fst) in E. cbn [fst snd] in E, EL. subst lost.
    pose proof (w_release_ok _ u Hs) as H. rewrite E in H.
    apply Forall_cons_iff in Hw as Hw'. destruct Hw' as [Hu _]. cbn [fst] in Hu.
    split_and!; [|by destruct H as [<- _ _ _]|lia|].
    + apply (release_step n w u ((u, g) :: q) out w'); [done| |lia|done].
      eapply List.Forall_impl; [|exact Hw]. cbn. lia.
    + intros _. cbn [w_release] in E. rewrite Z.leb_refl in E. destruct (w_release _ q). by injection E as <- _.
Qed.

(** ** The code implements the specification *)

(** The 12-bit number of a frame is its position modulo 4096. *)
Definition numbered (p : Z * rx_frame) : Prop := seq_num p.2 = p.1 mod 4096.

Record refines (n : Z) (r : reorder) (w : window) : Prop := {
  ref_seq : indicate_seq r = w_start w mod 4096;
  ref_size : wsize_b r = n;
  ref_pend : pending r = (w_pend w).*2;
  ref_num : Forall numbered (w_pend w);
  ref_inv : w_inv n w;
  ref_enable : enable r = true;
  ref_abba : rec_abba_rsp_ack r = false;
}.

Lemma enqueue_refines v f q :
  seq_num f = v mod 4096 → Forall numbered q → Forall (λ p, -2048 ≤ p.1 - v ≤ 2047) q →
  enqueue_reorder_recvframe q.*2 f = fmap (M := list) snd <$> w_insert v f q.
Proof.
  intros Hf Hn Hr. induction Hn as [|[u g] q Hg Hn IH]; [done|].
  apply Forall_cons_iff in Hr as [Hu Hr]. unfold numbered in Hg. cbn [fst snd] in Hg, Hu.
  cbn [enqueue_reorder_recvframe w_insert fmap list_fmap snd]. rewrite Hg, Hf, sn_less, sn_equal by lia.
  destruct (u <? v).
  - fold (fmap (M := list) (A := Z * rx_frame) snd q). rewrite IH by done. by destruct (w_insert v f q).
  - by destruct (u =? v).
Qed.

(** The fields the delivery loop leaves alone. *)
Definition same_ctl (r r' : reorder) : Prop :=
  enable r' = enable r ∧ wsize_b r' = wsize_b r ∧ rec_abba_rsp_ack r' = rec_abba_rsp_ack r ∧
  timer_set r' = timer_set r ∧ bReorderWaiting r' = bReorderWaiting r ∧ rx_drop r' = rx_drop r ∧
  dbg_rx_ampdu_loss_count r' = dbg_rx_ampdu_loss_count r.

#[export] Instance same_ctl_preorder : PreOrder same_ctl.
Proof.
  split; [intros r; by unfold same_ctl; split_and!|]. intros r1 r2 r3 (A1 & A2 & A3 & A4 & A5 & A6 & A7) (B1 & B2 & B3 & B4 & B5 & B6 & B7).
  unfold same_ctl. split_and!; congruence.
Qed.

Lemma loop_refines mpdu_ok q : ∀ start r,
  Forall numbered q → StronglySorted Z.lt q.*1 → Forall (λ p, -2048 ≤ start - p.1 ≤ 2047) q →
  indicate_seq r = start mod 4096 → pending r = q.*2 →
  let '(out, w) := w_release start q in
  let '(inbuf, r') := indicate_loop mpdu_ok q.*2 r in
  inbuf = negb (bool_decide (w_pend w = [])) ∧ indicate_seq r' = w_start w mod 4096 ∧
  pending r' = (w_pend w).*2 ∧ up r' = up r ++ out.*2 ∧ same_ctl r r'.
Proof.
  induction q as [|[u g] q IH]; intros start r Hn Hs Hr Hseq Hp.
  - cbn. rewrite app_nil_r. by split_and!.
  - apply Forall_cons_iff in Hn as [Hg Hn], Hr as [Hu Hr]. unfold numbered in Hg. cbn [fst snd] in Hg, Hu.
    cbn [fmap list_fmap fst] in Hs. apply StronglySorted_inv in Hs as [Hs Hsu].
    cbn [w_release fmap list_fmap snd indicate_loop]. rewrite Hseq, Hg, sn_less by done.
    rewrite <- Z.leb_antisym. destruct (Z.leb_spec u start) as [Hle|Hgt].
    2: { cbn. rewrite app_nil_r. by split_and!. }
    cbn [indicate_seq set_pending]. rewrite Hseq, sn_equal by lia. rewrite (Z.eqb_sym start u).
    set (start' := if u =? start then start + 1 else start).
    set (r1 := if mpdu_ok g then _ else _).
    assert (indicate_seq r1 = start' mod 4096 ∧ pending r1 = q.*2 ∧ up r1 = up r ++ [g] ∧ same_ctl r r1)
      as (A & B & C & D).
    { unfold r1, start', same_ctl. destruct (mpdu_ok g), (u =? start);
        cbn [indicate_seq pending up hand_up set_pending set_indicate_seq count_drop enable wsize_b rec_abba_rsp_ack
          timer_set bReorderWaiting rx_drop dbg_rx_ampdu_loss_count]; rewrite ?Hseq, ?mod_succ; by split_and!. }
    specialize (IH start' r1 Hn Hs).
    assert (Forall (λ p, -2048 ≤ start' - p.1 ≤ 2047) q) as Hr'.
    { unfold start'. destruct (Z.eqb_spec u start) as [->|]; [|done].
      apply (Forall_fmap fst (Z.lt start)) in Hsu.
      eapply List.Forall_impl; [|exact (Forall_and Hr Hsu)]. cbn. lia. }
    specialize (IH Hr' A B). destruct (w_release start' q) as [out w].
    destruct (indicate_loop mpdu_ok q.*2 r1) as [inbuf r']. destruct IH as (I1 & I2 & I3 & I4 & I5).
    split_and!; [done..| |].
    + rewrite I4, C. cbn [fmap list_fmap snd]. by rewrite <- app_assoc.
    + by etrans.
Qed.

(** The window as [check_indicate_seq] moves it. *)
Lemma check_refines n r w v :
  1 ≤ n ≤ 255 → refines n r w → -2048 ≤ v - w_start w ≤ 2047 →
  let s := if v =? w_start w then v + 1 else Z.max (w_start w) (v + 1 - n) in
  let '(ok, r') := check_indicate_seq r (v mod 4096) in
  ok = negb (v <? w_start w) ∧ (ok = true → indicate_seq r' = s mod 4096) ∧
  (ok = false ∨ s = w_start w → indicate_seq r' = indicate_seq r) ∧
  pending r' = pending r ∧ up r' = up r ∧ same_ctl r r'.
Proof.
  intros Hn [R1 R2 R3 R4 R5 R6 R7] Hv. unfold check_indicate_seq.
  pose proof (Z.mod_pos_bound (w_start w) 4096 ltac:(lia)) as Hb.
  pose proof (Z.mod_pos_bound v 4096 ltac:(lia)) as Hbv.
  assert ((indicate_seq r =? 0xFFFF) = false) as -> by (apply Z.eqb_neq; lia).
  assert ((indicate_seq r + wsize_b r - 1) .& 0xFFF = (w_start w + n - 1) mod 4096) as ->.
  { rewrite R1, R2. change 0xFFF with (Z.ones 12). rewrite Z.land_ones by lia. change (2 ^ 12) with 4096.
    rewrite <- !Z.add_sub_assoc. by rewrite Zplus_mod_idemp_l. }
  rewrite !R1, sn_less, sn_equal by lia.
  destruct (Z.ltb_spec v (w_start w)) as [|Hge]; [split_and!; try done; intros; congruence|].
  destruct (Z.eqb_spec v (w_start w)) as [->|Hne].
  { cbn. split_and!; try done; [intros _; by rewrite mod_succ|intros [?|?]; [done|lia]]. }
  rewrite sn_less by lia. destruct (Z.ltb_spec (w_start w + n - 1) v) as [Hout|Hin].
  - rewrite Z.max_r by lia. cbn. split_and!; try done; [intros _|intros [?|?]; [done|lia]]. rewrite R2, !u16_mod.
    assert (∀ x, 0 ≤ x < 4096 → x mod 4096 = (v + 1 - n) mod 4096 → x mod 2 ^ 16 = (v + 1 - n) mod 4096) as Hx.
    { intros x Hx E. rewrite <- E. rewrite !Z.mod_small; [done|lia|]. change (2 ^ 16) with 65536. lia. }
    destruct (Z.leb_spec (n - 1) (v mod 4096)); apply Hx; [lia| |lia|].
    + rewrite <- Z.add_sub_assoc, Zplus_mod_idemp_l. f_equal. lia.
    + replace (4095 - (n - (v mod 4096 + 1)) + 1) with (v mod 4096 + (1 - n) + 1 * 4096) by lia.
      rewrite Z.mod_add, Zplus_mod_idemp_l by lia. f_equal. lia.
  - rewrite Z.max_l by lia. split_and!; try done; intros; by rewrite R1.
Qed.

Lemma w_inv_range n w v :
  1 ≤ n ≤ 255 → w_inv n w → w_start w ≤ v ≤ w_start w + 2047 →
  Forall (λ p, -2048 ≤ p.1 - v ≤ 2047) (w_pend w).
Proof. intros Hn [Hw _] Hv. eapply List.Forall_impl; [|exact Hw]. cbn. lia. Qed.

Lemma refines_same n r r' w :
  refines n r w → indicate_seq r' = indicate_seq r → pending r' = pending r → wsize_b r' = wsize_b r →
  enable r' = enable r → rec_abba_rsp_ack r' = rec_abba_rsp_ack r → refines n r' w.
Proof. intros [R1 R2 R3 R4 R5 R6 R7] Hi Hp Hw He Ha. split; congruence || done. Qed.
Lemma w_insert_None v f q : w_insert v f q = None → v ∈ q.*1.
Proof.
  induction q as [|[u g] q IH]; cbn [w_insert]; [done|]. destruct (u <? v).
  - destruct (w_insert v f q); [done|]. intros _. cbn. apply list_elem_of_further. by apply IH.
  - destruct (Z.eqb_spec u v) as [->|]; [|done]. intros _. cbn. apply list_elem_of_here.
Qed.
Lemma w_insert_numbered v f q q' :
  w_insert v f q = Some q' → StronglySorted Z.lt q.*1 → seq_num f = v mod 4096 →
  Forall numbered q → Forall numbered q'.
Proof. intros E Hs Hf Hq. destruct (w_insert_spec v f q q' E Hs) as [_ ->]. by constructor. Qed.

Lemma recv_refines mpdu_ok n r w v f :
  1 ≤ n ≤ 255 → refines n r w → qos f = true → preorder_ctrl f = true → seq_num f = v mod 4096 →
  -2048 ≤ v - w_start w ≤ 2047 →
  let '(ret, r') := recv_indicatepkt_reorder mpdu_ok r f in
  match w_recv n w v f with
  | None => ret = RX_FAIL ∧ refines n r' w ∧ up r' = up r
  | Some (out, w') => ret = RX_HANDLED ∧ refines n r' w' ∧ up r' = up r ++ out.*2
  end.
Proof.
  intros Hn Href Hq Hc Hf Hv. pose proof Href as [R1 R2 R3 R4 R5 R6 R7].
  unfold recv_indicatepkt_reorder. rewrite Hq, Hc, R6, R7, Hf. cbn [negb orb].
  pose proof (check_refines n r w v Hn Href Hv) as C. cbv zeta in C.
  destruct (check_indicate_seq r (v mod 4096)) as [ok r1]. destruct C as (-> & Cs & Ck & Cp & Cu & Cc).
  destruct (w_recv n w v f) as [[out w']|] eqn:Ew; unfold w_recv in Ew;
    destruct (Z.ltb_spec v (w_start w)) as [Hlt|Hge]; try done; cbn [negb].
  - pose proof (w_recv_start_bounds n w v ltac:(lia) Hge) as Hst. cbv zeta in Hst, Ew.
    set (s := if v =? w_start w then _ else _) in *.
    rewrite Cp, R3, (enqueue_refines v f) by (done || apply (w_inv_range n); (done || lia)).
    destruct (w_insert v f (w_pend w)) as [q|] eqn:Ei; [|done]. injection Ew as Ew.
    cbn [fmap option_fmap option_map]. destruct R5 as [Hw Hs].
    destruct (w_insert_spec v f (w_pend w) q Ei Hs) as [Sq Pq].
    assert (Forall (λ p, -2048 ≤ s - p.1 ≤ 2047) q) as Hr.
    { rewrite Pq. constructor; [cbn; lia|]. eapply List.Forall_impl; [|exact Hw]. cbn. lia. }
    assert (Forall numbered q) as Hnum by (by eapply w_insert_numbered).
    unfold recv_indicatepkts_in_order.
    pose proof (loop_refines mpdu_ok q s (set_pending q.*2 r1) Hnum Sq Hr (Cs eq_refl) eq_refl) as L.
    rewrite Ew in L. change (pending (set_pending q.*2 r1)) with q.*2.
    destruct (indicate_loop mpdu_ok q.*2 (set_pending q.*2 r1)) as [inbuf r2].
    destruct L as (Lb & Li & Lp & Lu & (L1 & L2 & L3 & _)). destruct Cc as (C1 & C2 & C3 & _).
    assert (refines n r2 w') as Href2.
    { assert (w_recv n w v f = Some (out, w')) as Ew'.
      { unfold w_recv. rewrite (proj2 (Z.ltb_ge _ _) Hge). fold s. by rewrite Ei, Ew. }
      destruct (w_recv_ok n w v f out w' ltac:(lia) (conj Hw Hs) Ew') as [[] Hperm].
      split; cbn in *; try congruence.
      assert (Forall numbered (out ++ w_pend w')) as Hall by (rewrite Hperm; by constructor).
      by apply Forall_app in Hall as [_ ?]. }
    cbn in Lu. rewrite Cu in Lu.
    destruct inbuf; [destruct (bReorderWaiting r2)|]; (split_and!; [done| |done]);
      by eapply refines_same.
  - destruct Cc as (C1 & C2 & C3 & _). split_and!; [done| |done].
    eapply refines_same; [exact Href|cbn; apply Ck; auto|done..].
  - destruct Cc as (C1 & C2 & C3 & _).
    pose proof (w_recv_start_bounds n w v ltac:(lia) Hge) as Hst. cbv zeta in Hst, Ew.
    rewrite Cp, R3, (enqueue_refines v f) by (done || apply (w_inv_range n); (done || lia)).
    destruct (w_insert v f (w_pend w)) as [q|] eqn:Ei; [done|]. cbn [fmap option_fmap option_map].
    split_and!; [done| |done]. eapply refines_same; [exact Href| |done..]. apply Ck. right.
    apply w_insert_None, list_elem_of_fmap in Ei as ([u g] & -> & Hin). destruct R5 as [Hw _].
    rewrite Forall_forall in Hw. apply list_elem_of_In in Hin. specialize (Hw _ Hin). cbn [fst] in Hw |- *.
    destruct (Z.eqb_spec u (w_start w)); lia.
Qed.

Lemma loss_count_mod x y : 0 ≤ y - x < 4096 →
  (if y mod 4096 <? x mod 4096 then 4096 + y mod 4096 - x mod 4096 else y mod 4096 - x mod 4096) = y - x.
Proof.
  intros H. pose proof (Z.div_mod x 4096 ltac:(lia)). pose proof (Z.div_mod y 4096 ltac:(lia)).
  pose proof (Z.mod_pos_bound x 4096 ltac:(lia)). pose proof (Z.mod_pos_bound y 4096 ltac:(lia)).
  destruct (Z.ltb_spec (y mod 4096) (x mod 4096)); lia.
Qed.

Lemma timeout_refines mpdu_ok n r w :
  1 ≤ n ≤ 255 → refines n r w → w_pend w ≠ [] →
  let '(out, w', lost) := w_timeout w in
  let r' := rtw_reordering_ctrl_timeout_handler mpdu_ok false r in
  refines n r' w' ∧ up r' = up r ++ out.*2 ∧
  rx_drop r' = u64 (rx_drop r + lost) ∧ dbg_rx_ampdu_loss_count r' = u64 (dbg_rx_ampdu_loss_count r + lost).
Proof.
  intros Hn Href Hne. pose proof Href as [R1 R2 R3 R4 R5 R6 R7].
  destruct (w_timeout w) as [[out w'] lost] eqn:Et.
  destruct (w_timeout_ok n w out w' lost R5 Et) as ([Hinv _ _ _] & Hsplit & _ & _).
  unfold w_timeout in Et. destruct (w_pend w) as [|[u g] q] eqn:Eq; [done|].
  apply (f_equal snd) in Et as El. apply (f_equal fst) in Et as Ew. cbn [fst snd] in Ew, El. subst lost.
  destruct R5 as [Hw Hs]. rewrite Eq in Hw, Hs. apply Forall_cons_iff in Hw as Hw'. destruct Hw' as [Hu _]. cbn [fst] in Hu.
  assert (seq_num g = u mod 4096) as Hg by (by apply Forall_cons_iff in R4 as [? _]).
  unfold rtw_reordering_ctrl_timeout_handler, recv_indicatepkts_in_order.
  set (r0 := count_forced (set_waiting false (set_timer false r))).
  change (pending r0) with (pending r). rewrite R3. cbn [fmap list_fmap snd].
  set (r1 := set_indicate_seq (seq_num g) (recv_indicatepkts_pkt_loss_cnt r0 (indicate_seq r0) (seq_num g))).
  assert (indicate_seq r1 = u mod 4096 ∧ pending r1 = pending r ∧ up r1 = up r ∧ enable r1 = enable r ∧
    wsize_b r1 = wsize_b r ∧ rec_abba_rsp_ack r1 = rec_abba_rsp_ack r ∧
    rx_drop r1 = u64 (rx_drop r + (u - w_start w)) ∧
    dbg_rx_ampdu_loss_count r1 = u64 (dbg_rx_ampdu_loss_count r + (u - w_start w))) as (A1 & A2 & A3 & A4 & A5 & A6 & A7 & A8).
  { unfold r1, recv_indicatepkts_pkt_loss_cnt. change (indicate_seq r0) with (indicate_seq r).
    rewrite R1, Hg. pose proof (loss_count_mod (w_start w) u ltac:(lia)) as E.
    destruct (u mod 4096 <? w_start w mod 4096); rewrite E; by split_and!. }
  rewrite A2, R3.
  assert (Forall (λ p, -2048 ≤ u - p.1 ≤ 2047) ((u, g) :: q)) as Hr.
  { eapply List.Forall_impl; [|exact Hw]. cbn. lia. }
  pose proof (loop_refines mpdu_ok ((u, g) :: q) u r1 R4 Hs Hr A1 ltac:(by rewrite A2)) as L.
  rewrite Ew in L. change (g :: q.*2) with (((u, g) :: q).*2).
  destruct (indicate_loop mpdu_ok _ r1) as [again r2].
  destruct L as (_ & Li & Lp & Lu & (L1 & L2 & L3 & _ & _ & L6 & L7)).
  assert (refines n r2 w') as Href2.
  { split; try congruence. rewrite <- Hsplit in R4. by apply Forall_app in R4 as [_ ?]. }
  destruct again; (split_and!; [by eapply refines_same|cbn; congruence..]).
Qed.

(** ** Runs *)
Inductive event :=
  | Arrive (f : rx_frame)       (* a frame reaches [recv_indicatepkt_reorder] *)
  | TimerFires                  (* the timer, if it is set *)
  | BlockAckReq (ctl : Z)
  | AddBa (status size : Z).

Definition step (mpdu_ok : rx_frame → bool) (r : reorder) (e : event) : reorder :=
  match e with
  | Arrive f => (recv_indicatepkt_reorder mpdu_ok r f).2
  | TimerFires => if timer_set r then rtw_reordering_ctrl_timeout_handler mpdu_ok false r else r
  | BlockAckReq ctl => rtw_process_bar_frame r ctl
  | AddBa status size => add_ba_rsp_hdl r status size
  end.
Definition run (mpdu_ok : rx_frame → bool) (r : reorder) (es : list event) : reorder :=
  fold_left (step mpdu_ok) es r.

(** A run of the specification: [Some (v, f)] is the arrival of [f] at position
    [v], [None] the timer.  Its output and the window after it. *)
Definition w_step (n : Z) (w : window) (e : option (Z * rx_frame)) : list (Z * rx_frame) * window :=
  match e with
  | Some (v, f) => default ([], w) (w_recv n w v f)
  | None => (w_timeout w).1
  end.
Fixpoint w_run (n : Z) (w : window) (es : list (option (Z * rx_frame))) : list (Z * rx_frame) * window :=
  match es with
  | [] => ([], w)
  | e :: es =>
      let '(out, w) := w_step n w e in
      let '(out', w) := w_run n w es in (out ++ out', w)
  end.
(** The arrivals the specification does not drop. *)
Fixpoint w_accepted (n : Z) (w : window) (es : list (option (Z * rx_frame))) : list (Z * rx_frame) :=
  match es with
  | [] => []
  | e :: es =>
      match e with
      | Some (v, f) => if w_recv n w v f is Some _ then [(v, f)] else []
      | None => []
      end ++ w_accepted n (w_step n w e).2 es
  end.
(** The transmitter stays within half of the sequence number space of the
    window, and numbers its frames modulo 4096. *)
Fixpoint w_fair (n : Z) (w : window) (es : list (option (Z * rx_frame))) : Prop :=
  match es with
  | [] => True
  | e :: es =>
      match e with
      | Some (v, f) => -2048 ≤ v - w_start w ≤ 2047 ∧ seq_num f = v mod 4096 ∧ qos f = true ∧ preorder_ctrl f = true
      | None => True
      end ∧ w_fair n (w_step n w e).2 es
  end.
Definition concrete (e : option (Z * rx_frame)) : event :=
  match e with Some (_, f) => Arrive f | None => TimerFires end.

(** The timer is set exactly while frames wait. *)
Definition timer_ok (r : reorder) : Prop :=
  (timer_set r = true ↔ pending r ≠ []) ∧ (bReorderWaiting r = true → timer_set r = true).

Lemma indicate_loop_frame mpdu_ok q r :
  let '(inbuf, r') := indicate_loop mpdu_ok q r in
  pending r = q →
  (inbuf = true ↔ pending r' ≠ []) ∧ timer_set r' = timer_set r ∧ bReorderWaiting r' = bReorderWaiting r ∧
  ∃ out, q = out ++ pending r' ∧ up r' = up r ++ out.
Proof.
  revert r. induction q as [|f q IH]; intros r; cbn [indicate_loop].
  { intros H. rewrite H. split_and!; try done. exists []. by rewrite !app_nil_r. }
  destruct (negb _) eqn:L.
  2: { intros H. rewrite H. split_and!; try done. exists []. by rewrite !app_nil_r. }
  set (r1 := if mpdu_ok f then _ else _). specialize (IH r1).
  assert (pending r1 = q ∧ timer_set r1 = timer_set r ∧ bReorderWaiting r1 = bReorderWaiting r ∧ up r1 = up r ++ [f])
    as (A & B & C & D) by (unfold r1; destruct (mpdu_ok f), (SN_EQUAL _ _); done).
  destruct (indicate_loop mpdu_ok q r1) as [inbuf r']. intros _.
  destruct (IH A) as (I1 & I2 & I3 & out & I4 & I5). split_and!; [done|congruence|congruence|].
  exists (f :: out). split; [by rewrite I4 at 1|]. by rewrite I5, D, <- app_assoc.
Qed.

Lemma check_indicate_seq_frame r v :
  let '(_, r') := check_indicate_seq r v in
  pending r' = pending r ∧ timer_set r' = timer_set r ∧ bReorderWaiting r' = bReorderWaiting r ∧ up r' = up r.
Proof.
  unfold check_indicate_seq. destruct (_ =? 0xFFFF); repeat destruct (SN_LESS _ _); repeat destruct (SN_EQUAL _ _); done.
Qed.

Lemma enqueue_nonempty q f q' : enqueue_reorder_recvframe q f = Some q' → q' ≠ [].
Proof.
  destruct q as [|g q]; cbn; [by intros [= <-]|]. destruct (SN_LESS _ _).
  - by intros (? & _ & ->)%fmap_Some.
  - destruct (SN_EQUAL _ _); [done|]. by intros [= <-].
Qed.

Lemma recv_timer_ok mpdu_ok r f : timer_ok r → timer_ok (recv_indicatepkt_reorder mpdu_ok r f).2.
Proof.
  intros [T1 T2]. unfold recv_indicatepkt_reorder. destruct (_ || _ || _); [done|].
  set (r0 := if rec_abba_rsp_ack r then _ else r).
  assert (pending r0 = pending r ∧ timer_set r0 = timer_set r ∧ bReorderWaiting r0 = bReorderWaiting r)
    as (A & B & C) by (unfold r0; by destruct (rec_abba_rsp_ack r)).
  pose proof (check_indicate_seq_frame r0 (seq_num f)) as K.
  destruct (check_indicate_seq r0 (seq_num f)) as [ok r1]. destruct K as (K1 & K2 & K3 & _).
  assert (timer_ok r1) as [S1 S2] by (unfold timer_ok; by rewrite K1, K2, K3, A, B, C).
  destruct ok; cbn [negb]; [|done].
  destruct (enqueue_reorder_recvframe (pending r1) f) as [q|] eqn:Eq; [|done].
  pose proof (indicate_loop_frame mpdu_ok q (set_pending q r1)) as L. unfold recv_indicatepkts_in_order.
  change (pending (set_pending q r1)) with q in L |- *.
  destruct (indicate_loop mpdu_ok q (set_pending q r1)) as [inbuf r2].
  destruct (L eq_refl) as (L1 & L2 & L3 & _). cbn [timer_set bReorderWaiting set_pending] in L2, L3.
  destruct inbuf; cbn [snd].
  - destruct (bReorderWaiting r2) eqn:W.
    + assert (timer_set r2 = true) as Ht by (rewrite L2; apply S2; congruence).
      split; [|done]. rewrite Ht. naive_solver.
    + split; [cbn; naive_solver|done].
  - split; cbn; [|done]. split; [done|]. intros H. by apply L1 in H.
Qed.

Lemma timeout_frame mpdu_ok r :
  pending r ≠ [] →
  let r' := rtw_reordering_ctrl_timeout_handler mpdu_ok false r in
  timer_ok r' ∧ ∃ out, out ≠ [] ∧ pending r = out ++ pending r' ∧ up r' = up r ++ out.
Proof.
  intros Hne. unfold rtw_reordering_ctrl_timeout_handler, recv_indicatepkts_in_order.
  set (r0 := count_forced (set_waiting false (set_timer false r))). change (pending r0) with (pending r).
  destruct (pending r) as [|f q] eqn:Ep; [done|].
  set (r1 := set_indicate_seq (seq_num f) (recv_indicatepkts_pkt_loss_cnt r0 (indicate_seq r0) (seq_num f))).
  assert (pending r1 = f :: q ∧ up r1 = up r ∧ timer_set r1 = false ∧ bReorderWaiting r1 = false
    ∧ indicate_seq r1 = seq_num f) as (A1 & A2 & A3 & A4 & A5)
    by (unfold r1, recv_indicatepkts_pkt_loss_cnt; destruct (_ <? _); cbn; by rewrite Ep).
  rewrite A1. pose proof (indicate_loop_frame mpdu_ok (f :: q) r1) as L.
  assert (∃ r2, indicate_loop mpdu_ok (f :: q) r1 = indicate_loop mpdu_ok q r2 ∧ pending r2 = q ∧
    up r2 = up r ++ [f]) as (r2 & E2 & P2 & U2).
  { cbn [indicate_loop]. rewrite A5. assert (SN_LESS (seq_num f) (seq_num f) = false) as ->.
    { unfold SN_LESS. by rewrite Z.sub_diag. }
    eexists. split; [reflexivity|]. rewrite <- A2. by destruct (mpdu_ok f), (SN_EQUAL _ _). }
  pose proof (indicate_loop_frame mpdu_ok q r2) as L2. rewrite E2 in L |- *.
  destruct (indicate_loop mpdu_ok q r2) as [again r3]. destruct (L A1) as (L1 & Lt & Lw & _).
  destruct (L2 P2) as (_ & _ & _ & out & Q1 & Q2). split.
  - destruct again; split; cbn; rewrite ?Lt, ?Lw, ?A3, ?A4; naive_solver.
  - exists (f :: out). split_and!; [done| |].
    + destruct again; cbn; by rewrite Q1 at 1.
    + destruct again; cbn; by rewrite Q2, U2, <- app_assoc.
Qed.

Lemma step_timer_ok mpdu_ok r e : timer_ok r → timer_ok (step mpdu_ok r e).
Proof.
  intros T. destruct e as [f| |ctl|status size]; cbn [step].
  - by apply recv_timer_ok.
  - destruct (timer_set r) eqn:Et; [|done]. apply timeout_frame. destruct T as [T _]. by apply T.
  - done.
  - unfold add_ba_rsp_hdl. destruct (status =? 0); [done|]. by destruct (status =? 37).
Qed.
Lemma run_timer_ok mpdu_ok r es : timer_ok r → timer_ok (run mpdu_ok r es).
Proof. revert r. induction es as [|e es IH]; intros r T; [done|]. by apply IH, step_timer_ok. Qed.

(** One step of the code is one step of the specification. *)
Lemma step_refines mpdu_ok n r w e :
  1 ≤ n ≤ 255 → refines n r w → timer_ok r → w_fair n w [e] →
  let '(out, w') := w_step n w e in
  let r' := step mpdu_ok r (concrete e) in
  refines n r' w' ∧ timer_ok r' ∧ up r' = up r ++ out.*2.
Proof.
  intros Hn Href T [He _]. pose proof (step_timer_ok mpdu_ok r (concrete e) T) as T'.
  destruct e as [[v f]|]; cbn [concrete w_step step] in *.
  - destruct He as (Hv & Hs & Hq & Hc). pose proof (recv_refines mpdu_ok n r w v f Hn Href Hq Hc Hs Hv) as R.
    destruct (recv_indicatepkt_reorder mpdu_ok r f) as [ret r']. cbn [snd] in *.
    destruct (w_recv n w v f) as [[out w']|]; cbn [default]; destruct R as (_ & R1 & R2); [done|].
    cbn. by rewrite app_nil_r.
  - destruct (w_timeout w) as [[out w'] lost] eqn:Et. cbn [fst]. destruct T as [T _].
    pose proof (ref_pend _ _ _ Href) as Hp.
    destruct (w_pend w) as [|p q] eqn:Eq.
    + assert (timer_set r = false) as Ef by (destruct (timer_set r); [by destruct (proj1 T eq_refl)|done]).
      rewrite Ef in *. unfold w_timeout in Et. rewrite Eq in Et. injection Et as <- <- <-.
      cbn. by rewrite app_nil_r.
    + assert (timer_set r = true) as Ef by (apply T; by rewrite Hp). rewrite Ef in *.
      pose proof (timeout_refines mpdu_ok n r w Hn Href ltac:(by rewrite Eq)) as R. rewrite Et in R.
      destruct R as (R1 & R2 & _). done.
Qed.

Lemma w_fair_cons n w e es : w_fair n w (e :: es) ↔ w_fair n w [e] ∧ w_fair n (w_step n w e).2 es.
Proof. cbn. tauto. Qed.

Lemma run_refines mpdu_ok n es : ∀ r w,
  1 ≤ n ≤ 255 → refines n r w → timer_ok r → w_fair n w es →
  let '(out, w') := w_run n w es in
  let r' := run mpdu_ok r (map concrete es) in
  refines n r' w' ∧ timer_ok r' ∧ up r' = up r ++ out.*2.
Proof.
  induction es as [|e es IH]; intros r w Hn Href T Hf; cbn [w_run map].
  - cbn. by rewrite app_nil_r.
  - apply w_fair_cons in Hf as [He Hf]. pose proof (step_refines mpdu_ok n r w e Hn Href T He) as S.
    destruct (w_step n w e) as [out1 w1]. destruct S as (S1 & S2 & S3). cbn [snd] in Hf.
    specialize (IH _ w1 Hn S1 S2 Hf). destruct (w_run n w1 es) as [out2 w2].
    change (run mpdu_ok r (concrete e :: map concrete es)) with
      (run mpdu_ok (step mpdu_ok r (concrete e)) (map concrete es)).
    destruct IH as (I1 & I2 & I3). split_and!; [done|done|]. by rewrite I3, S3, fmap_app, app_assoc.
Qed.

Lemma w_step_ok n w e :
  1 ≤ n → w_inv n w →
  let '(out, w') := w_step n w e in
  step_ok n w out w' ∧ out ++ w_pend w' ≡ₚ w_pend w ++ w_accepted n w [e].
Proof.
  intros Hn Hi. destruct e as [[v f]|]; cbn [w_step w_accepted].
  - destruct (w_recv n w v f) as [[out w']|] eqn:E; cbn [default].
    + destruct (w_recv_ok n w v f out w' Hn Hi E) as [S P]. split; [done|]. rewrite P. apply Permutation_cons_append.
    + rewrite !app_nil_r. split; [|done]. split; [done|lia|constructor..].
  - destruct (w_timeout w) as [[out w'] lost] eqn:E. cbn [fst].
    destruct (w_timeout_ok n w out w' lost Hi E) as (S & P & _). split; [done|]. by rewrite P, !app_nil_r.
Qed.

Lemma w_run_ok n es : ∀ w,
  1 ≤ n → w_inv n w →
  let '(out, w') := w_run n w es in
  step_ok n w out w' ∧ out ++ w_pend w' ≡ₚ w_pend w ++ w_accepted n w es.
Proof.
  induction es as [|e es IH]; intros w Hn Hi; cbn [w_run].
  - cbn. rewrite app_nil_r. split; [|done]. split; [done|lia|constructor..].
  - pose proof (w_step_ok n w e Hn Hi) as S. cbn [w_accepted] in S |- *.
    destruct (w_step n w e) as [out1 w1]. cbn [snd] in S |- *. destruct S as [[I1 A1 B1 C1] P1].
    specialize (IH w1 Hn I1). destruct (w_run n w1 es) as [out2 w2]. destruct IH as [[I2 A2 B2 C2] P2].
    rewrite app_nil_r in P1. split.
    + split; [done|lia| |].
      * apply Forall_app. split; [|]; (eapply List.Forall_impl; [|eassumption]); cbn; lia.
      * rewrite fmap_app. apply StronglySorted_app_2; [|done|done].
        intros x1 x2 (p1 & -> & H1)%list_elem_of_fmap (p2 & -> & H2)%list_elem_of_fmap.
        rewrite Forall_forall in B1, B2. apply list_elem_of_In in H1, H2. specialize (B1 _ H1). specialize (B2 _ H2). lia.
    + rewrite <- app_assoc, P2, app_assoc, P1. by rewrite app_assoc.
Qed.

(** ** A block-ack session *)

(** The state [add_ba_rsp_hdl] leaves behind, or a new control block: the
    window start will be taken from the first frame. *)
Definition session_new (n : Z) (r : reorder) : Prop :=
  enable r = true ∧ wsize_b r = n ∧ pending r = [] ∧ timer_ok r ∧
  (rec_abba_rsp_ack r = true ∨ indicate_seq r = 0xFFFF).

Lemma session_first mpdu_ok n r v f :
  session_new n r → qos f = true → preorder_ctrl f = true → seq_num f = v mod 4096 →
  let r1 := set_indicate_seq (v mod 4096) (set_abba false r) in
  recv_indicatepkt_reorder mpdu_ok r f = recv_indicatepkt_reorder mpdu_ok r1 f ∧
  refines n r1 (Window v []) ∧ timer_ok r1 ∧ up r1 = up r.
Proof.
  intros (He & Hw & Hp & Ht & Hs) Hq Hc Hf r1. split_and!; [|split; cbn; try done; by split; constructor|done|done].
  unfold recv_indicatepkt_reorder. cbn [r1 enable rec_abba_rsp_ack set_indicate_seq set_abba].
  rewrite Hq, Hc, He. cbn [negb orb]. rewrite Hf.
  assert (check_indicate_seq (if rec_abba_rsp_ack r then set_indicate_seq 65535 (set_abba false r) else r) (v mod 4096) =
          check_indicate_seq r1 (v mod 4096)) as ->; [|done].
  unfold check_indicate_seq. pose proof (Z.mod_pos_bound v 4096 ltac:(lia)).
  change (indicate_seq r1) with (v mod 4096). rewrite (proj2 (Z.eqb_neq (v mod 4096) 0xFFFF)) by lia.
  destruct r as [en ind ws am pe ti wa ab d1 d2 d3 d4 d5 d6 u0]. cbn in *.
  destruct ab; [done|]. destruct Hs as [|Hs]; [done|]. by rewrite Hs.
Qed.

Lemma session_run mpdu_ok n r v f es :
  1 ≤ n ≤ 255 → session_new n r → w_fair n (Window v []) (Some (v, f) :: es) →
  let '(out, w') := w_run n (Window v []) (Some (v, f) :: es) in
  let r' := run mpdu_ok r (map concrete (Some (v, f) :: es)) in
  refines n r' w' ∧ timer_ok r' ∧ up r' = up r ++ out.*2.
Proof.
  intros Hn Hs Hf. pose proof Hf as [(_ & H1 & H2 & H3) _].
  destruct (session_first mpdu_ok n r v f Hs H2 H3 H1) as (E & Href & Ht & Hu).
  set (r1 := set_indicate_seq _ _) in *.
  pose proof (run_refines mpdu_ok n (Some (v, f) :: es) r1 (Window v []) Hn Href Ht Hf) as R.
  destruct (w_run n _ _) as [out w']. rewrite Hu in R.
  unfold run in *. cbn [map fold_left concrete step] in *. by rewrite E.
Qed.

(** Distinct integers of an interval. *)
Lemma sorted_interval_length (l : list Z) : ∀ a b,
  StronglySorted Z.lt l → Forall (λ x, a < x < b) l → l ≠ [] → Z.of_nat (length l) < b - a.
Proof.
  induction l as [|x l IH]; intros a b Hs Hl Hne; [done|].
  apply StronglySorted_inv in Hs as [Hs Hx]. apply Forall_cons_iff in Hl as [Hxa Hl].
  destruct l as [|y l]; [cbn; lia|].
  assert (Forall (λ z, x < z < b) (y :: l)) as Hxy
    by (eapply List.Forall_impl; [|exact (Forall_and Hx Hl)]; cbn; lia).
  specialize (IH x b Hs Hxy ltac:(done)). cbn [length] in *. lia.
Qed.

(** Firing the timer until nothing waits. *)
Lemma timer_drains mpdu_ok k : ∀ r,
  timer_ok r → (length (pending r) ≤ k)%nat →
  let r' := Nat.iter k (λ r, step mpdu_ok r TimerFires) r in
  pending r' = [] ∧ up r' = up r ++ pending r.
Proof.
  induction k as [|k IH]; intros r T Hl.
  - cbn. destruct (pending r); [by rewrite app_nil_r|]. cbn in Hl. lia.
  - cbv zeta. rewrite Nat.iter_succ_r.
    destruct (decide (pending r = [])) as [E|E].
    + assert (step mpdu_ok r TimerFires = r) as Es.
      { cbn. destruct T as [T _]. destruct (timer_set r); [|done]. by destruct (proj1 T eq_refl). }
      rewrite Es. apply IH; [done|]. rewrite E. cbn. lia.
    + assert (step mpdu_ok r TimerFires = rtw_reordering_ctrl_timeout_handler mpdu_ok false r) as Es.
      { cbn. destruct T as [T _]. by rewrite (proj2 T E). }
      rewrite Es. destruct (timeout_frame mpdu_ok r E) as (T' & out & Hne & Hp & Hu).
      destruct (IH _ T') as [I1 I2].
      { rewrite Hp, length_app in Hl. destruct out; [done|]. cbn [length] in Hl. lia. }
      split; [done|]. by rewrite I2, Hu, Hp, <- app_assoc.
Qed.

(** ** Results *)

(** C18: the reordering code implements the unbounded specification.  In a
    session that starts with the frame at position [v], for any sequence of
    arrivals and timer expiries in which the transmitter stays within half of
    the 12-bit sequence space of the window, the frames handed to
    [recv_process_mpdu] are exactly those the specification releases, in the
    same order, and afterwards window start, pending queue and window size
    agree with it: the circular comparisons, the window shift across 0xFFF and
    the increments modulo 4096 never differ from integer arithmetic. *)
Theorem reorder_refines_window mpdu_ok n r v f es :
  1 ≤ n ≤ 255 → session_new n r → w_fair n (Window v []) (Some (v, f) :: es) →
  let '(out, w') := w_run n (Window v []) (Some (v, f) :: es) in
  let r' := run mpdu_ok r (map concrete (Some (v, f) :: es)) in
  refines n r' w' ∧ up r' = up r ++ out.*2.
Proof.
  intros Hn Hs Hf. pose proof (session_run mpdu_ok n r v f es Hn Hs Hf) as R.
  destruct (w_run n _ _) as [out w']. by destruct R as (R1 & _ & R2).
Qed.

(** C6: delivery in order and exactly once.  In such a session the frames handed
    up, followed by the frames still waiting, are in strictly increasing order
    of their position in the transmitter's stream and are a permutation of the
    accepted arrivals; fewer frames than the window size ever wait. *)
Theorem reorder_in_order_exactly_once mpdu_ok n r v f es :
  1 ≤ n ≤ 255 → session_new n r → w_fair n (Window v []) (Some (v, f) :: es) →
  let r' := run mpdu_ok r (map concrete (Some (v, f) :: es)) in
  ∃ out pend, up r' = up r ++ out.*2 ∧ pending r' = pend.*2 ∧
    StronglySorted Z.lt (out ++ pend).*1 ∧
    out ++ pend ≡ₚ w_accepted n (Window v []) (Some (v, f) :: es) ∧
    Z.of_nat (length (pending r')) < n.
Proof.
  intros Hn Hs Hf r'. pose proof (session_run mpdu_ok n r v f es Hn Hs Hf) as R.
  pose proof (w_run_ok n (Some (v, f) :: es) (Window v []) ltac:(lia)) as W.
  destruct (w_run n _ _) as [out w']. destruct R as (R & _ & Hu).
  destruct W as [[[I1 I2] _ O1 O2] P]; [split; constructor|]. exists out, (w_pend w').
  split_and!; [done|apply R| |exact P|].
  - rewrite fmap_app. apply StronglySorted_app_2; [|done|done].
    intros x1 x2 (p1 & -> & H1)%list_elem_of_fmap (p2 & -> & H2)%list_elem_of_fmap.
    rewrite Forall_forall in I1, O1. apply list_elem_of_In in H1, H2. specialize (O1 _ H1). specialize (I1 _ H2). lia.
  - unfold r'. rewrite (ref_pend _ _ _ R), length_fmap. rewrite <- (length_fmap fst).
    destruct (decide ((w_pend w').*1 = [])) as [->|Hne]; [cbn; lia|].
    pose proof (sorted_interval_length _ (w_start w') (w_start w' + n) I2) as L. cbv beta in L.
    enough (Z.of_nat (length (w_pend w').*1) < w_start w' + n - w_start w') by lia.
    apply L; [|done]. apply Forall_fmap. eapply List.Forall_impl; [|exact I1]. cbn. lia.
Qed.

(** From a new control block on, whatever frames, timer expiries, block ack
    requests and ADDBA responses follow, the reordering timer is set exactly
    while frames wait in the queue: no frame is left behind without a timer,
    and the timer never runs on an empty queue. *)
Theorem reorder_timer_iff_pending mpdu_ok es :
  let r := run mpdu_ok init_recvreorder_ctrl es in
  (timer_set r = true ↔ pending r ≠ []) ∧ (bReorderWaiting r = true → timer_set r = true).
Proof. apply (run_timer_ok mpdu_ok init_recvreorder_ctrl es). split; [split; [done|by intros []]|done]. Qed.

(** C37: waiting frames always get out.  If no frame arrives any more, as many
    expiries of the timer as there are frames waiting empty the queue, and
    every one of them is handed up, in queue order. *)
Theorem reorder_timer_drains mpdu_ok es :
  let r := run mpdu_ok init_recvreorder_ctrl es in
  let r' := run mpdu_ok r (replicate (length (pending r)) TimerFires) in
  pending r' = [] ∧ up r' = up r ++ pending r.
Proof.
  cbv zeta. assert (timer_ok (run mpdu_ok init_recvreorder_ctrl es)) as T
    by (apply run_timer_ok; split; [split; [done|by intros []]|done]).
  revert T. generalize (run mpdu_ok init_recvreorder_ctrl es). intros r T.
  assert (∀ k r, run mpdu_ok r (replicate k TimerFires) = Nat.iter k (λ r, step mpdu_ok r TimerFires) r) as E.
  { intros k. induction k as [|k IH]; intros r0; [done|]. rewrite Nat.iter_succ_r, <- IH. done. }
  rewrite E. by apply timer_drains.
Qed.

(** A block ack request moves the window without releasing what waits before
    it.  Frames 5 and 6 wait for 2..4, the request moves the start to 10; when
    the timer then fires it gives up on 4091 frames that were never missing and
    moves the start back to 7. *)
Example reorder_bar_moves_window_back :
  let fr s := RxFrame s true true 0 in
  let r := run (λ _, true) init_recvreorder_ctrl
             [AddBa 0 64; Arrive (fr 1); Arrive (fr 5); Arrive (fr 6); BlockAckReq (10 * 16); TimerFires] in
  rx_drop r = 4091 ∧ indicate_seq r = 7 ∧ map seq_num (up r) = [1; 5; 6].
Proof. vm_compute. auto. Qed.

(** *** Instances: a session around the wrap of the sequence numbers *)
Definition demo_rx (v : Z) : option (Z * rx_frame) := Some (v, RxFrame (v mod 4096) true true (Z.to_nat v)).
Definition demo_run : list (option (Z * rx_frame)) :=
  [demo_rx 4094; demo_rx 4097; demo_rx 4096; demo_rx 4096; None; demo_rx 4095; demo_rx 4300].

Lemma session_new_addba : session_new 64 (add_ba_rsp_hdl init_recvreorder_ctrl 0 64).
Proof. split_and!; first [by left|done|split; [by intros []|done]]. Defined.

Lemma reorder_refines_window_witness :
  let '(out, w') := w_run 64 (Window 4094 []) demo_run in
  let r' := run (λ _, true) (add_ba_rsp_hdl init_recvreorder_ctrl 0 64) (map concrete demo_run) in
  refines 64 r' w' ∧ up r' = [] ++ out.*2.
Proof.
  apply (reorder_refines_window (λ _, true) 64 (add_ba_rsp_hdl init_recvreorder_ctrl 0 64) 4094); [lia| |].
  - apply session_new_addba.
  - cbn. vm_compute. intuition congruence.
Defined.
Lemma reorder_in_order_witness :
  let r' := run (λ _, true) (add_ba_rsp_hdl init_recvreorder_ctrl 0 64) (map concrete demo_run) in
  ∃ out pend, up r' = [] ++ out.*2 ∧ pending r' = pend.*2 ∧
    StronglySorted Z.lt (out ++ pend).*1 ∧
    out ++ pend ≡ₚ w_accepted 64 (Window 4094 []) demo_run ∧ Z.of_nat (length (pending r')) < 64.
Proof.
  apply (reorder_in_order_exactly_once (λ _, true) 64 (add_ba_rsp_hdl init_recvreorder_ctrl 0 64) 4094); [lia| |].
  - apply session_new_addba.
  - cbn. vm_compute. intuition congruence.
Defined.
