(* ===== verification/RecvPn.v ===== *)
(** * Duplicate and replay detection of received frames: [core/rtw_recv_pn_rest.c]

    The state is the part of [struct sta_info] and [struct security_priv] the
    three functions use.  A frame is given by its attributes and the memory
    from [rx_data] on.  The host is little-endian. *)
From stdpp Require Import sorting.
From S2P Require Import Prelude CryptoWrap Blocks Mem Ccmp.

Definition AES : Z := 4.

(** ** Data *)
Record rx_state := RxState {
  (* sta_info.sta_recvpriv *)
  tid_rxseq : list Z; bmc_tid_rxseq : list Z;      (* 16 entries each *)
  nonqos_rxseq : Z; nonqos_bmc_rxseq : Z;
  rx_iv : list (list Z);                           (* rxcache.iv[16][8] *)
  last_tid : Z;
  duplicate_cnt : Z;                               (* sta_stats, u32 *)
  iv_seq : list (list Z)                           (* security_priv.iv_seq[4][8] *)
}.
Record rx_attr := RxAttr {
  encrypt : Z; hdrlen : nat; priority : nat; qos : bool; mcast : bool; seq_num : Z; frag_num : Z;
  rx_data : list Z
}.

Definition set_tid_rxseq (l : list Z) (s : rx_state) : rx_state :=
  RxState l (bmc_tid_rxseq s) (nonqos_rxseq s) (nonqos_bmc_rxseq s) (rx_iv s) (last_tid s) (duplicate_cnt s) (iv_seq s).
Definition set_bmc_tid_rxseq (l : list Z) (s : rx_state) : rx_state :=
  RxState (tid_rxseq s) l (nonqos_rxseq s) (nonqos_bmc_rxseq s) (rx_iv s) (last_tid s) (duplicate_cnt s) (iv_seq s).
Definition set_nonqos_rxseq (v : Z) (s : rx_state) : rx_state :=
  RxState (tid_rxseq s) (bmc_tid_rxseq s) v (nonqos_bmc_rxseq s) (rx_iv s) (last_tid s) (duplicate_cnt s) (iv_seq s).
Definition set_nonqos_bmc_rxseq (v : Z) (s : rx_state) : rx_state :=
  RxState (tid_rxseq s) (bmc_tid_rxseq s) (nonqos_rxseq s) v (rx_iv s) (last_tid s) (duplicate_cnt s) (iv_seq s).
Definition set_rx_iv (l : list (list Z)) (tid : Z) (s : rx_state) : rx_state :=
  RxState (tid_rxseq s) (bmc_tid_rxseq s) (nonqos_rxseq s) (nonqos_bmc_rxseq s) l tid (duplicate_cnt s) (iv_seq s).
Definition count_duplicate (s : rx_state) : rx_state :=
  RxState (tid_rxseq s) (bmc_tid_rxseq s) (nonqos_rxseq s) (nonqos_bmc_rxseq s) (rx_iv s) (last_tid s)
    (u32 (duplicate_cnt s + 1)) (iv_seq s).
Definition set_iv_seq (l : list (list Z)) (s : rx_state) : rx_state :=
  RxState (tid_rxseq s) (bmc_tid_rxseq s) (nonqos_rxseq s) (nonqos_bmc_rxseq s) (rx_iv s) (last_tid s) (duplicate_cnt s) l.

(** ** Packet numbers *)

(** [le64_to_cpu( *(u64 * )p)] and [cpu_to_le64], on eight bytes. *)
Definition le64_to_cpu (p : list Z) : Z := be_val (rev p).
Definition cpu_to_le64 (v : Z) : list Z := rev (be_bytes 8 v).

Definition CCMPH_2_PN (ch : Z) : Z := (ch .& 0x000000000000ffff) .| ((ch .& 0xffffffff00000000) >> 16).
Definition CCMPH_2_KEYID (ch : Z) : Z := (ch .& 0x00000000c0000000) >> 30.
(** On [u64] operands. *)
Definition PN_LESS_CHK (a b : Z) : bool := negb (u64 (a - b) .& 0x800000000000 =? 0).
Definition VALID_PN_CHK (new old : Z) : bool := (old =? 0) || PN_LESS_CHK old new.

(** ** The three checks: the verdict and the state after it *)
Definition recv_ucast_pn_decache (s : rx_state) (f : rx_attr) : cres (bool * rx_state) :=
  let tid := priority f in
  if (15 <? tid)%nat then Ret (false, s)
  else if encrypt f =? AES then
    let* hdr := mem_read (rx_data f) (hdrlen f) 8 in
    let pkt_pn := CCMPH_2_PN (le64_to_cpu hdr) in
    match rx_iv s !! tid with
    | None => Oob
    | Some iv =>
        let curr_pn := CCMPH_2_PN (le64_to_cpu iv) in
        if negb (VALID_PN_CHK pkt_pn curr_pn) then Ret (true, s)
        else Ret (true, set_rx_iv (<[tid := hdr]> (rx_iv s)) (Z.of_nat tid) s)
    end
  else Ret (true, s).

(** [station] is [check_fwstate(pmlmepriv, WIFI_STATION_STATE)]. *)
Definition recv_bcast_pn_decache (station : bool) (s : rx_state) (f : rx_attr) : cres (bool * rx_state) :=
  if (encrypt f =? AES) && station then
    let* hdr := mem_read (rx_data f) (hdrlen f) 8 in
    let tmp_iv_hdr := le64_to_cpu hdr in
    let key_id := Z.to_nat (CCMPH_2_KEYID tmp_iv_hdr) in
    let pkt_pn := CCMPH_2_PN tmp_iv_hdr in
    match iv_seq s !! key_id with
    | None => Oob
    | Some cur =>
        let curr_pn := le64_to_cpu cur .& 0x0000ffffffffffff in
        if negb (VALID_PN_CHK pkt_pn curr_pn) then Ret (false, s)
        else Ret (true, set_iv_seq (<[key_id := cpu_to_le64 pkt_pn]> (iv_seq s)) s)
    end
  else Ret (true, s).

Definition seq_ctrl (f : rx_attr) : Z := u16 (((seq_num f .& 0xffff) << 4) .| (frag_num f .& 0xf)).

Definition recv_decache (s : rx_state) (f : rx_attr) : cres (bool * rx_state) :=
  let tid := priority f in
  if (15 <? tid)%nat then Ret (false, s)
  else
    let prxseq :=
      if qos f then if mcast f then bmc_tid_rxseq s !! tid else tid_rxseq s !! tid
      else Some (if mcast f then nonqos_bmc_rxseq s else nonqos_rxseq s) in
    match prxseq with
    | None => Oob
    | Some old =>
        if seq_ctrl f =? old then Ret (false, count_duplicate s)
        else
          Ret (true,
            if qos f then
              if mcast f then set_bmc_tid_rxseq (<[tid := seq_ctrl f]> (bmc_tid_rxseq s)) s
              else set_tid_rxseq (<[tid := seq_ctrl f]> (tid_rxseq s)) s
            else if mcast f then set_nonqos_bmc_rxseq (seq_ctrl f) s
            else set_nonqos_rxseq (seq_ctrl f) s)
    end.

(** The order in which [validate_recv_data_frame] runs them. *)
Definition rx_checks (station : bool) (s : rx_state) (f : rx_attr) : cres (bool * rx_state) :=
  let* (ok, s) := recv_decache s f in
  if negb ok then Ret (false, s)
  else if mcast f then recv_bcast_pn_decache station s f else recv_ucast_pn_decache s f.

(** The state of a new station. *)
Definition rx_init : rx_state :=
  RxState (replicate 16 0xffff) (replicate 16 0xffff) 0xffff 0xffff (replicate 16 (replicate 8 0)) 0 0
    (replicate 4 (replicate 8 0)).

(** ** Reading the CCMP header *)
Lemma lor_add lo hi k : 0 ≤ k → uint k lo → lo .| (hi << k) = lo + hi * 2 ^ k.
Proof.
  intros Hk Hlo. rewrite <- Z.shiftl_mul_pow2 by done. symmetry. apply Z.add_nocarry_lor.
  apply Z.bits_inj'. intros i Hi. rewrite Z.land_spec, Z.bits_0, Z.shiftl_spec by done.
  destruct (decide (i < k)).
  - rewrite (Z.testbit_neg_r hi) by lia. apply andb_false_r.
  - by rewrite (uint_testbit k lo) by (done || lia).
Qed.
Lemma CCMPH_2_PN_eq ch : is_u64 ch → CCMPH_2_PN ch = ch mod 2 ^ 16 + (ch / 2 ^ 32) * 2 ^ 16.
Proof.
  intros Hc. unfold CCMPH_2_PN.
  assert ((ch .& 0xffffffff00000000) >> 16 = (ch >> 32) << 16) as ->.
  { apply Z.bits_inj'. intros i Hi. rewrite Z.shiftr_spec, Z.land_spec, Z.shiftl_spec by lia.
    change 0xffffffff00000000 with (Z.ones 32 << 32). rewrite Z.shiftl_spec by lia.
    destruct (decide (i < 16)).
    - rewrite (Z.testbit_neg_r (Z.ones 32)), andb_false_r, Z.testbit_neg_r by lia. done.
    - rewrite Z.shiftr_spec by lia. replace (i - 16 + 32) with (i + 16) by lia.
      rewrite Z.testbit_ones_nonneg by lia. destruct (Z.ltb_spec (i + 16 - 32) 32); [apply andb_true_r|].
      rewrite (uint_testbit 64 ch) by (done || lia). done. }
  change 0x000000000000ffff with (Z.ones 16). rewrite Z.land_ones, Z.shiftr_div_pow2 by lia.
  apply lor_add; [lia|]. apply Z.mod_pos_bound. lia.
Qed.

Section header.
Context (b0 b1 b2 b3 b4 b5 b6 b7 : Z) (Hb : bytes [b0; b1; b2; b3; b4; b5; b6; b7]).

Lemma le64_split :
  let lo := b0 + 256 * b1 in let mid := b2 + 256 * b3 in let hi := be_val [b7; b6; b5; b4] in
  le64_to_cpu [b0; b1; b2; b3; b4; b5; b6; b7] = lo + 2 ^ 16 * mid + 2 ^ 32 * hi ∧
  0 ≤ lo < 2 ^ 16 ∧ 0 ≤ mid < 2 ^ 16 ∧ 0 ≤ hi < 2 ^ 32.
Proof using Hb.
  unfold bytes in Hb. rewrite !Forall_cons_iff in Hb.
  destruct Hb as (H0 & H1 & H2 & H3 & H4 & H5 & H6 & H7 & _). unfold uint in *. change (2 ^ 8) with 256 in *.
  unfold le64_to_cpu, be_val. cbn [rev app fold_left]. change (2 ^ 16) with 65536. change (2 ^ 32) with 4294967296.
  split_and!; lia.
Qed.
(** The packet number and the key identifier of a CCMP header. *)
Lemma ccmp_header_pn : CCMPH_2_PN (le64_to_cpu [b0; b1; b2; b3; b4; b5; b6; b7]) = be_val [b7; b6; b5; b4; b1; b0].
Proof using Hb.
  pose proof le64_split as (E & Hlo & Hmid & Hhi). rewrite E.
  set (lo := b0 + 256 * b1) in *. set (mid := b2 + 256 * b3) in *. set (hi := be_val [b7; b6; b5; b4]) in *.
  rewrite CCMPH_2_PN_eq by (split; lia).
  replace (lo + 2 ^ 16 * mid + 2 ^ 32 * hi) with (lo + (mid + 2 ^ 16 * hi) * 2 ^ 16) at 1 by lia.
  rewrite Z.mod_add, (Z.mod_small lo) by lia.
  rewrite (Z.add_comm _ (2 ^ 32 * hi)), (Z.mul_comm (2 ^ 32) hi), Z.div_add_l by lia.
  rewrite (Z.div_small (lo + _)) by lia. unfold lo, hi, be_val. cbn [fold_left]. lia.
Qed.
Lemma ccmp_header_keyid : CCMPH_2_KEYID (le64_to_cpu [b0; b1; b2; b3; b4; b5; b6; b7]) = b3 >> 6.
Proof using Hb.
  pose proof le64_split as (E & Hlo & Hmid & Hhi). rewrite E. unfold CCMPH_2_KEYID.
  rewrite Z.shiftr_land. change (0x00000000c0000000 >> 30) with (Z.ones 2). rewrite Z.land_ones, !Z.shiftr_div_pow2 by lia.
  assert (is_u8 b2 ∧ is_u8 b3) as [[H20 H21] [H30 H31]].
  { unfold bytes in Hb. rewrite !Forall_cons_iff in Hb. tauto. }
  change (2 ^ 8) with 256 in *. set (hi := be_val [b7; b6; b5; b4]) in *.
  replace (b0 + 256 * b1 + 2 ^ 16 * (b2 + 256 * b3) + 2 ^ 32 * hi)
    with ((b0 + 256 * b1 + 2 ^ 16 * b2 + 2 ^ 24 * (b3 mod 64)) + (b3 / 64 + 4 * hi) * 2 ^ 30)
    by (pose proof (Z.div_mod b3 64); lia).
  pose proof (Z.mod_pos_bound b3 64 ltac:(lia)).
  rewrite Z.div_add, (Z.div_small (_ + 2 ^ 24 * _)), Z.add_0_l, (Z.mul_comm 4) by lia.
  rewrite Z.mod_add by lia. change (2 ^ 2) with 4. change (2 ^ 6) with 64. apply Z.mod_small.
  split; [apply Z.div_pos; lia|apply Z.div_lt_upper_bound; lia].
Qed.
End header.

Lemma le64_roundtrip v : is_u64 v → le64_to_cpu (cpu_to_le64 v) = v.
Proof. intros Hv. unfold le64_to_cpu, cpu_to_le64. rewrite rev_involutive. by apply be_val_bytes. Qed.
Lemma length_cpu_to_le64 v : length (cpu_to_le64 v) = 8%nat.
Proof. unfold cpu_to_le64. by rewrite length_rev, length_be_bytes. Qed.

(** ** Comparison of packet numbers *)
Lemma pn_less a b : -2 ^ 47 ≤ a - b < 2 ^ 47 → PN_LESS_CHK a b = (a <? b).
Proof.
  intros H. unfold PN_LESS_CHK. change 0x800000000000 with (2 ^ 47). rewrite land_bit_eqb, negb_involutive by lia.
  rewrite u64_mod, Z.mod_pow2_bits_low by lia.
  rewrite <- (Z.mod_pow2_bits_low _ 48) by lia. rewrite Z.testbit_odd, Z.shiftr_div_pow2 by lia.
  destruct (Z.ltb_spec a b).
  - replace (a - b) with ((a - b + 2 ^ 48) + (-1) * 2 ^ 48) by lia. rewrite Z.mod_add, Z.mod_small by lia.
    replace ((a - b + 2 ^ 48) / 2 ^ 47) with 1; [done|]. apply (Z.div_unique _ _ _ (a - b + 2 ^ 47)); lia.
  - rewrite (Z.mod_small (a - b)), Z.div_small by lia. done.
Qed.
Lemma valid_pn new old :
  0 ≤ new < 2 ^ 47 → 0 ≤ old < 2 ^ 47 → VALID_PN_CHK new old = (old =? 0) || (old <? new).
Proof. intros Hn Ho. unfold VALID_PN_CHK. by rewrite pn_less by lia. Qed.

(** ** Group addressed frames *)

(** The last packet number accepted under group key [k]. *)
Definition stored_pn (s : rx_state) (k : nat) : Z := le64_to_cpu (default [] (iv_seq s !! k)) .& 0x0000ffffffffffff.

Definition frame_hdr (f : rx_attr) : list Z := slice (hdrlen f) 8 (rx_data f).
Definition frame_pn (f : rx_attr) : Z := CCMPH_2_PN (le64_to_cpu (frame_hdr f)).
Definition frame_key (f : rx_attr) : nat := Z.to_nat (CCMPH_2_KEYID (le64_to_cpu (frame_hdr f))).

(** A CCMP frame that holds its header. *)
Definition ccmp_frame (f : rx_attr) : Prop :=
  encrypt f = AES ∧ bytes (rx_data f) ∧ (hdrlen f + 8 ≤ length (rx_data f))%nat.
Definition rx_ok (s : rx_state) : Prop :=
  length (iv_seq s) = 4%nat ∧ length (rx_iv s) = 16%nat ∧
  length (tid_rxseq s) = 16%nat ∧ length (bmc_tid_rxseq s) = 16%nat ∧
  Forall (λ p, length p = 8%nat ∧ bytes p) (rx_iv s) ∧ Forall (λ p, length p = 8%nat ∧ bytes p) (iv_seq s).

Lemma eight_bytes (l : list Z) : length l = 8%nat → ∃ b0 b1 b2 b3 b4 b5 b6 b7, l = [b0; b1; b2; b3; b4; b5; b6; b7].
Proof.
  destruct l as [|b0 [|b1 [|b2 [|b3 [|b4 [|b5 [|b6 [|b7 [|b8 l]]]]]]]]]; intros H; try discriminate H.
  by exists b0, b1, b2, b3, b4, b5, b6, b7.
Qed.
Lemma frame_hdr_ok f : ccmp_frame f → length (frame_hdr f) = 8%nat ∧ bytes (frame_hdr f).
Proof. intros (_ & Hb & Hl). split; [by apply length_slice|by apply slice_bytes]. Qed.
Lemma be_val_uint48 l : length l = 6%nat → bytes l → uint 48 (be_val l).
Proof.
  intros Hl Hb. split; [by apply be_val_nonneg|]. pose proof (be_val_bound l Hb) as H. rewrite Hl in H. exact H.
Qed.
Lemma pn_of_hdr_uint l : length l = 8%nat → bytes l → uint 48 (CCMPH_2_PN (le64_to_cpu l)).
Proof.
  intros Hl Hb. destruct (eight_bytes l Hl) as (b0 & b1 & b2 & b3 & b4 & b5 & b6 & b7 & ->).
  rewrite ccmp_header_pn by done. apply be_val_uint48; [done|].
  unfold bytes in *. rewrite !Forall_cons_iff in Hb. destruct Hb as (? & ? & ? & ? & ? & ? & ? & ? & _).
  by repeat (apply Forall_cons_iff; split; [done|]).
Qed.
Lemma frame_key_lt f : ccmp_frame f → (frame_key f < 4)%nat.
Proof.
  intros Hf. destruct (frame_hdr_ok f Hf) as [Hl Hb]. unfold frame_key.
  destruct (eight_bytes _ Hl) as (b0 & b1 & b2 & b3 & b4 & b5 & b6 & b7 & E). rewrite E in *.
  rewrite ccmp_header_keyid by done. unfold bytes in Hb. rewrite !Forall_cons_iff in Hb.
  destruct Hb as (_ & _ & _ & [H0 H1] & _). change (2 ^ 8) with 256 in H1.
  rewrite Z.shiftr_div_pow2 by lia. change (2 ^ 6) with 64.
  assert (b3 / 64 < 4) by (apply Z.div_lt_upper_bound; lia). assert (0 ≤ b3 / 64) by (apply Z.div_pos; lia). lia.
Qed.

(** What [recv_bcast_pn_decache] does with a CCMP frame. *)
Lemma bcast_step s f :
  rx_ok s → ccmp_frame f →
  recv_bcast_pn_decache true s f =
    Ret (if VALID_PN_CHK (frame_pn f) (stored_pn s (frame_key f))
         then (true, set_iv_seq (<[frame_key f := cpu_to_le64 (frame_pn f)]> (iv_seq s)) s) else (false, s)).
Proof.
  intros Hs Hf. pose proof (frame_key_lt f Hf) as Hk. pose proof Hf as (He & Hb & Hl).
  unfold recv_bcast_pn_decache. rewrite He. cbn [Z.eqb AES Pos.eqb andb].
  rewrite mem_read_ok by done. cbn [cbind]. fold (frame_hdr f). fold (frame_pn f). fold (frame_key f).
  destruct (lookup_lt_is_Some_2 (iv_seq s) (frame_key f)) as [cur Hc]; [destruct Hs; lia|].
  unfold stored_pn. rewrite Hc. cbn [default]. by destruct (VALID_PN_CHK _ _).
Qed.
Lemma stored_pn_insert s k k' v :
  (k < length (iv_seq s))%nat → uint 48 v →
  stored_pn (set_iv_seq (<[k := cpu_to_le64 v]> (iv_seq s)) s) k' = if decide (k = k') then v else stored_pn s k'.
Proof.
  intros Hk Hv. unfold stored_pn. cbn [iv_seq set_iv_seq]. destruct (decide (k = k')) as [<-|Hne].
  - rewrite list_lookup_insert_eq by done. cbn [default from_option id].
    rewrite le64_roundtrip by (by apply (uint_weaken 48)). by apply (uint_id 48).
  - by rewrite list_lookup_insert_ne.
Qed.
Lemma rx_ok_insert s k v : rx_ok s → rx_ok (set_iv_seq (<[k := cpu_to_le64 v]> (iv_seq s)) s).
Proof.
  intros (H1 & H2 & H3 & H4 & H5 & H6). unfold rx_ok. cbn [iv_seq set_iv_seq rx_iv tid_rxseq bmc_tid_rxseq].
  rewrite length_insert. split_and!; try done. apply Forall_insert; [done|].
  split; [apply length_cpu_to_le64|]. apply Forall_rev, be_bytes_uint.
Qed.

(** A run of group addressed frames: those accepted, in order. *)
Fixpoint bcast_run (s : rx_state) (fs : list rx_attr) : cres (list rx_attr * rx_state) :=
  match fs with
  | [] => Ret ([], s)
  | f :: fs =>
      let* (ok, s) := recv_bcast_pn_decache true s f in
      let* (acc, s) := bcast_run s fs in
      Ret (if ok then f :: acc else acc, s)
  end.
Definition key_pns (k : nat) (fs : list rx_attr) : list Z :=
  map frame_pn (List.filter (λ f, (frame_key f =? k)%nat) fs).
(** A packet number counter that has not gone half way round. *)
Definition pn_sane (f : rx_attr) : Prop := 0 ≤ frame_pn f < 2 ^ 47.

(** The receiver of the specification: of the packet numbers that arrive under
    one key, with [last] the last one accepted, those that are accepted.  While
    [last] is 0 every number is. *)
Fixpoint accepted (last : Z) (pns : list Z) : list Z :=
  match pns with
  | [] => []
  | pn :: pns => if (last =? 0) || (last <? pn) then pn :: accepted pn pns else accepted last pns
  end.
Lemma accepted_increases pns : ∀ last, 0 ≤ last → Forall (λ pn, 0 ≤ pn) pns →
  ∃ n l, accepted last pns = replicate n 0 ++ l ∧ StronglySorted Z.lt l ∧ Forall (λ pn, last < pn) l ∧ (0 < last → n = 0%nat).
Proof.
  induction pns as [|pn pns IH]; intros last Hl Hp; [exists 0%nat, []; split_and!; try done; constructor|].
  apply Forall_cons_iff in Hp as [Hp Hps]. cbn [accepted].
  destruct ((last =? 0) || (last <? pn)) eqn:Ha; [|by apply IH]. apply orb_true_iff in Ha. rewrite Z.eqb_eq, Z.ltb_lt in Ha.
  destruct (IH pn Hp Hps) as (n & l & -> & Hs & Hf & Hn). destruct (decide (pn = 0)) as [->|Hne].
  - exists (S n), l. assert (last = 0) as -> by lia. by split_and!.
  - rewrite (Hn ltac:(lia)). exists 0%nat, (pn :: l). cbn [replicate app].
    assert (last < pn) by lia. split_and!; [done|by constructor| |done].
    constructor; [done|]. eapply List.Forall_impl; [|exact Hf]. cbn. lia.
Qed.

Lemma bcast_run_ok fs : ∀ s,
  rx_ok s → Forall ccmp_frame fs → Forall pn_sane fs → (∀ k, 0 ≤ stored_pn s k < 2 ^ 47) →
  ∃ acc s', bcast_run s fs = Ret (acc, s') ∧ rx_ok s' ∧
    ∀ k, key_pns k acc = accepted (stored_pn s k) (key_pns k fs).
Proof.
  induction fs as [|f fs IH]; intros s Hs Hf Hp Hst; [by exists [], s|].
  apply Forall_cons_iff in Hf as [Hf Hfs], Hp as [Hp Hps]. cbn [bcast_run].
  rewrite bcast_step by done. unfold pn_sane in Hp. rewrite valid_pn by (done || apply Hst). cbn [cbind].
  pose proof (frame_key_lt f Hf) as Hk. unfold key_pns. cbn [List.filter].
  destruct ((stored_pn s (frame_key f) =? 0) || (stored_pn s (frame_key f) <? frame_pn f)) eqn:Ea; cbn [cbind].
  2: { destruct (IH s Hs Hfs Hps Hst) as (acc & s' & E & I1 & I2). rewrite E. exists acc, s'. split_and!; [done|done|].
       intros k. destruct (Nat.eqb_spec (frame_key f) k) as [<-|]; [|apply I2]. cbn [map accepted]. rewrite Ea. apply I2. }
  set (s1 := set_iv_seq _ s).
  assert (∀ k, stored_pn s1 k = if decide (frame_key f = k) then frame_pn f else stored_pn s k) as Hs1.
  { intros k. apply stored_pn_insert; [destruct Hs; lia|]. split; [lia|].
    eapply Z.lt_trans; [apply Hp|]. reflexivity. }
  destruct (IH s1) as (acc & s' & E & I1 & I2); [by apply rx_ok_insert|done|done| |].
  { intros k. rewrite Hs1. destruct (decide _); [lia|apply Hst]. }
  rewrite E. cbn [cbind List.filter]. exists (f :: acc), s'. split_and!; [done|done|]. intros k. cbn [List.filter].
  specialize (I2 k). unfold key_pns in I2. rewrite Hs1 in I2.
  destruct (Nat.eqb_spec (frame_key f) k) as [<-|Hne]; [|by rewrite decide_False in I2].
  rewrite decide_True in I2 by done. cbn [map accepted]. by rewrite Ea, I2.
Qed.
Lemma key_pns_nonneg k fs : Forall pn_sane fs → Forall (λ pn, 0 ≤ pn) (key_pns k fs).
Proof.
  intros H. unfold key_pns. apply Forall_map, List.Forall_forall. intros f [Hf _]%filter_In.
  rewrite List.Forall_forall in H. apply H in Hf. unfold pn_sane in Hf. lia.
Qed.

(** ** Duplicates *)

(** The four kinds of cached sequence control: QoS or not, group addressed or
    not; [t] is the traffic identifier of the QoS ones. *)
Definition cached_seq (s : rx_state) (q m : bool) (t : nat) : option Z :=
  if q then if m then bmc_tid_rxseq s !! t else tid_rxseq s !! t
  else Some (if m then nonqos_bmc_rxseq s else nonqos_rxseq s).
(** Whether a cache entry is the one of a frame. *)
Definition same_stream (f : rx_attr) (q m : bool) (t : nat) : bool :=
  eqb q (qos f) && eqb m (mcast f) && (negb q || (t =? priority f)%nat).

Lemma decache_spec s f :
  rx_ok s → (priority f ≤ 15)%nat →
  ∃ old, cached_seq s (qos f) (mcast f) (priority f) = Some old ∧
  ∃ s', recv_decache s f = Ret (negb (seq_ctrl f =? old), s') ∧
    duplicate_cnt s' = (if seq_ctrl f =? old then u32 (duplicate_cnt s + 1) else duplicate_cnt s) ∧
    ∀ q m t, cached_seq s' q m t = if same_stream f q m t then Some (seq_ctrl f) else cached_seq s q m t.
Proof.
  intros (H1 & H2 & H3 & H4 & _) Ht.
  destruct (lookup_lt_is_Some_2 (tid_rxseq s) (priority f)) as [x1 E1]; [lia|].
  destruct (lookup_lt_is_Some_2 (bmc_tid_rxseq s) (priority f)) as [x2 E2]; [lia|].
  unfold recv_decache. rewrite (proj2 (Nat.ltb_ge _ _) Ht). fold (cached_seq s (qos f) (mcast f) (priority f)).
  assert (∃ old, cached_seq s (qos f) (mcast f) (priority f) = Some old) as [old Eo].
  { unfold cached_seq. destruct (qos f), (mcast f); eauto. }
  exists old. split; [done|]. rewrite Eo. destruct (Z.eqb_spec (seq_ctrl f) old) as [Eq|Hne].
  - eexists. split; [reflexivity|]. split; [done|]. intros q m t.
    change (cached_seq (count_duplicate s) q m t) with (cached_seq s q m t).
    unfold same_stream. destruct (Bool.eqb_spec q (qos f)) as [->|]; [|done].
    destruct (Bool.eqb_spec m (mcast f)) as [->|]; [|done]. cbn [andb].
    destruct (Nat.eqb_spec t (priority f)) as [->|Hn].
    + by rewrite orb_true_r, Eo, Eq.
    + destruct (qos f); [done|]. cbn [negb orb]. rewrite Eq. exact Eo.
  - eexists. split; [reflexivity|]. unfold cached_seq, same_stream in *.
    split; [by destruct (qos f), (mcast f)|].
    intros q m t. destruct q, (qos f), m, (mcast f);
      cbn [eqb andb negb orb tid_rxseq bmc_tid_rxseq nonqos_rxseq nonqos_bmc_rxseq set_tid_rxseq
        set_bmc_tid_rxseq set_nonqos_rxseq set_nonqos_bmc_rxseq]; try done;
      (destruct (Nat.eqb_spec t (priority f)) as [->|];
       [by rewrite list_lookup_insert_eq by lia|by rewrite list_lookup_insert_ne]).
Qed.

(** ** Results *)

(** C27: no replay of group addressed CCMP frames at a station.  For any
    sequence of such frames, as long as the packet number counters stay below
    half of their range, the check never reads outside the key table, and each
    group key has a counter of its own: of the frames under it exactly those are
    accepted that [accepted] takes, a frame above the last one accepted or any
    frame while the stored number is 0.  So the packet numbers accepted under a
    key are some number of zeros, none if the stored number was above 0, and then
    strictly increasing ones above the stored number: no packet number above 0
    is accepted twice, and none that is older than an accepted one.  The number
    0 is accepted again and again ([pn_zero_replayed]).  In the other modes the
    code makes no check. *)
Theorem bcast_pn_no_replay s fs :
  rx_ok s → Forall ccmp_frame fs → Forall pn_sane fs → (∀ k, 0 ≤ stored_pn s k < 2 ^ 47) →
  ∃ acc s', bcast_run s fs = Ret (acc, s') ∧ rx_ok s' ∧
    ∀ k, key_pns k acc = accepted (stored_pn s k) (key_pns k fs) ∧
    ∃ n pns, key_pns k acc = replicate n 0 ++ pns ∧ (0 < stored_pn s k → n = 0%nat) ∧
      StronglySorted Z.lt pns ∧ Forall (λ pn, stored_pn s k < pn) pns.
Proof.
  intros Hs Hf Hp Hst. destruct (bcast_run_ok fs s Hs Hf Hp Hst) as (acc & s' & E & I1 & I2).
  exists acc, s'. split_and!; [done|done|]. intros k. split; [done|].
  destruct (accepted_increases (key_pns k fs) (stored_pn s k)) as (n & l & El & ? & ? & ?);
    [apply Hst|by apply key_pns_nonneg|]. exists n, l. by rewrite I2.
Qed.

(** Duplicate detection.  A frame is dropped exactly when its sequence
    control (sequence and fragment number) equals the one cached for its
    stream (per traffic identifier for QoS frames, group addressed apart from
    unicast); the drop is counted; afterwards the cache of this stream holds
    the frame's sequence control and every other cache is untouched, so that
    an immediate retransmission is dropped whatever came in on other streams. *)
Theorem recv_decache_exact s f :
  rx_ok s → (priority f ≤ 15)%nat →
  ∃ old, cached_seq s (qos f) (mcast f) (priority f) = Some old ∧
  ∃ s', recv_decache s f = Ret (negb (seq_ctrl f =? old), s') ∧
    duplicate_cnt s' = (if seq_ctrl f =? old then u32 (duplicate_cnt s + 1) else duplicate_cnt s) ∧
    ∀ q m t, cached_seq s' q m t = if same_stream f q m t then Some (seq_ctrl f) else cached_seq s q m t.
Proof. apply decache_spec. Qed.

(** Transmitter and receiver agree on the CCMP header: from the header
    [ccmp_encrypt] writes for a packet number and key identifier, the receive
    path reads back the same 48-bit number and the same identifier. *)
Theorem ccmp_header_read_back pn keyid :
  bytes pn → length pn = 6%nat → 0 ≤ keyid < 4 →
  CCMPH_2_PN (le64_to_cpu (ccmp_hdr pn keyid)) = be_val pn ∧
  CCMPH_2_KEYID (le64_to_cpu (ccmp_hdr pn keyid)) = keyid.
Proof.
  intros Hb Hl Hk. destruct pn as [|p0 [|p1 [|p2 [|p3 [|p4 [|p5 [|p6 pn]]]]]]]; try discriminate Hl.
  unfold ccmp_hdr. cbn [aget nth].
  assert (bytes [p5; p4; 0; u8 (0x20 .| (keyid << 6)); p3; p2; p1; p0]) as Hh.
  { unfold bytes in *. rewrite !Forall_cons_iff in Hb. destruct Hb as (? & ? & ? & ? & ? & ? & _).
    repeat (apply Forall_cons_iff; split; [first [assumption|uint_lit|apply u8_uint]|]). apply Forall_nil_2. }
  rewrite ccmp_header_pn, ccmp_header_keyid by done. split; [done|].
  assert (keyid = 0 ∨ keyid = 1 ∨ keyid = 2 ∨ keyid = 3) as [->|[->|[->| ->]]] by lia; reflexivity.
Qed.

(** Unicast frames: the check finds a replayed packet number but accepts the
    frame all the same; it only keeps the cached number from going back. *)
Lemma ucast_replay_accepted s f :
  rx_ok s → ccmp_frame f → (priority f ≤ 15)%nat →
  ∃ s', recv_ucast_pn_decache s f = Ret (true, s').
Proof.
  intros (_ & H2 & _) (He & _ & Hl) Ht. unfold recv_ucast_pn_decache. rewrite (proj2 (Nat.ltb_ge _ _) Ht), He.
  cbn [Z.eqb AES Pos.eqb]. rewrite mem_read_ok by done. cbn [cbind].
  destruct (lookup_lt_is_Some_2 (rx_iv s) (priority f)) as [iv Hi]; [lia|]. rewrite Hi.
  destruct (negb _); eauto.
Qed.

(** *** Instances *)
Lemma rx_init_ok : rx_ok rx_init.
Proof.
  unfold rx_ok. split_and!; try reflexivity;
    (apply Forall_replicate; split; [reflexivity|bytes_lit]).
Defined.
(** A group addressed frame with a 24-byte header under key 1. *)
Definition demo_bcast (pn : Z) : rx_attr :=
  RxAttr AES 24 0 true true 7 0 (replicate 24 0 ++ ccmp_hdr (be_bytes 6 pn) 1 ++ replicate 12 0).

(** With nothing stored under a key, a frame with packet number 0 is accepted
    as often as it is sent. *)
Example pn_zero_replayed :
  match bcast_run rx_init (map demo_bcast [0; 0; 0; 4; 0; 3; 4]) with
  | Ret (acc, _) => key_pns 1 acc = [0; 0; 0; 4]
  | _ => False
  end.
Proof. vm_compute. reflexivity. Qed.

Lemma bcast_pn_no_replay_witness :
  ∃ acc s', bcast_run rx_init (map demo_bcast [0; 5; 9; 5; 9; 12]) = Ret (acc, s') ∧ rx_ok s' ∧
    ∀ k, key_pns k acc = accepted (stored_pn rx_init k) (key_pns k (map demo_bcast [0; 5; 9; 5; 9; 12])) ∧
    ∃ n pns, key_pns k acc = replicate n 0 ++ pns ∧ (0 < stored_pn rx_init k → n = 0%nat) ∧
      StronglySorted Z.lt pns ∧ Forall (λ pn, stored_pn rx_init k < pn) pns.
Proof.
  apply bcast_pn_no_replay.
  - apply rx_init_ok.
  - cbn [map]. repeat (apply Forall_cons_iff; split; [split_and!; [reflexivity|bytes_lit|vm_compute; lia]|]).
    apply Forall_nil_2.
  - cbn [map]. repeat (apply Forall_cons_iff; split; [split; vm_compute; (reflexivity || discriminate)|]). apply Forall_nil_2.
  - intros k. destruct k as [|[|[|[|k]]]]; split; vm_compute; congruence.
Defined.
Lemma recv_decache_exact_witness :
  ∃ old, cached_seq rx_init true true 0 = Some old ∧
  ∃ s', recv_decache rx_init (demo_bcast 5) = Ret (negb (seq_ctrl (demo_bcast 5) =? old), s') ∧
    duplicate_cnt s' = (if seq_ctrl (demo_bcast 5) =? old then u32 (duplicate_cnt rx_init + 1) else duplicate_cnt rx_init) ∧
    ∀ q m t, cached_seq s' q m t =
      if same_stream (demo_bcast 5) q m t then Some (seq_ctrl (demo_bcast 5)) else cached_seq rx_init q m t.
Proof. apply (recv_decache_exact rx_init (demo_bcast 5)); [apply rx_init_ok|cbn; lia]. Defined.
Lemma ccmp_header_read_back_witness :
  CCMPH_2_PN (le64_to_cpu (ccmp_hdr [0; 0; 0; 1; 2; 3] 2)) = 66051 ∧
  CCMPH_2_KEYID (le64_to_cpu (ccmp_hdr [0; 0; 0; 1; 2; 3] 2)) = 2.
Proof. apply (ccmp_header_read_back [0; 0; 0; 1; 2; 3] 2); [bytes_lit|reflexivity|lia]. Defined.
(** A replayed unicast packet number passes. *)
Example ucast_replay_passes :
  let fr pn s := RxAttr AES 24 0 true false s 0 (replicate 24 0 ++ ccmp_hdr (be_bytes 6 pn) 0 ++ replicate 12 0) in
  match rx_checks true rx_init (fr 9 1) with
  | Ret (true, s) => match rx_checks true s (fr 3 2) with Ret (ok, _) => ok | _ => false end
  | _ => false
  end = true.
Proof. vm_compute. reflexivity. Qed.
