(* ===== verification/Ie.v ===== *)
(** * Information elements: [core/rtw_ieee80211.c]

    Building, searching and removing elements.  A buffer is the list of the
    bytes at the C pointer; every access is checked against it, [Oob] is an
    access outside.  An element that is found is given by its offset. *)
From S2P Require Import Prelude CryptoWrap Blocks Mem.

(** ** Building *)

(** [rtw_set_ie]: the buffer and [*frlen] after the call; the C function also
    returns the pointer behind the element, [off + len + 2]. *)
Definition rtw_set_ie (buf : list Z) (off : nat) (index : Z) (source : list Z) (frlen : Z)
    : cres (list Z * Z) :=
  let len := length source in
  let* buf := buf_write buf off [u8 index] in
  let* buf := buf_write buf (off + 1) [u8 (Z.of_nat len)] in
  let* buf := if (0 <? len)%nat then buf_write buf (off + 2) source else Ret buf in
  Ret (buf, u32 (frlen + (Z.of_nat len + 2))).
Definition rtw_set_fixed_ie (buf : list Z) (off : nat) (source : list Z) (frlen : Z) : cres (list Z * Z) :=
  let* buf := buf_write buf off source in
  Ret (buf, u32 (frlen + Z.of_nat (length source))).

(** ** Searching *)

(** The loop of [rtw_get_ie] at offset [i]; the result is the offset of the
    element and [*len].  Every iteration advances by two or more, so a fuel of
    [limit] is never used up. *)
Fixpoint get_ie_loop (fuel : nat) (pbuf : list Z) (index limit : Z) (i : nat) : cres (option (nat * Z)) :=
  match fuel with
  | O => Ret None
  | S fuel =>
      let* id := mem_byte pbuf (Z.of_nat i) in
      let* l := mem_byte pbuf (Z.of_nat i + 1) in
      if id =? index then Ret (Some (i, l))
      else
        let i := (i + Z.to_nat (l + 2))%nat in
        if limit <=? Z.of_nat i then Ret None else get_ie_loop fuel pbuf index limit i
  end.
Definition rtw_get_ie (pbuf : list Z) (index limit : Z) : cres (option (nat * Z)) :=
  if limit <? 1 then Ret None else get_ie_loop (Z.to_nat limit) pbuf index limit 0.

(** [!oui || _rtw_memcmp(&in_ie[cnt + 2], oui, oui_len)] *)
Definition oui_matches (in_ie : list Z) (cnt : nat) (oui : option (list Z)) : cres bool :=
  match oui with
  | None => Ret true
  | Some o => let* b := mem_read in_ie (cnt + 2) (length o) in Ret (bool_decide (b = o))
  end.

(** The loop of [rtw_get_ie_ex], called with a pointer for [*ielen]: the offset
    of the element and [*ielen]; with [copy] the element is also read as a
    whole, into the buffer [ie]. *)
Fixpoint get_ie_ex_loop (fuel : nat) (in_ie : list Z) (in_len eid : Z) (oui : option (list Z)) (copy : bool)
    (cnt : nat) : cres (option (nat * Z)) :=
  match fuel with
  | O => Ret None
  | S fuel =>
      if Z.of_nat cnt <? in_len then
        let* id := mem_byte in_ie (Z.of_nat cnt) in
        let* m := if eid =? id then oui_matches in_ie cnt oui else Ret false in
        let* l := mem_byte in_ie (Z.of_nat cnt + 1) in
        if m then
          let* _ := if copy then mem_read in_ie cnt (Z.to_nat (l + 2)) else Ret [] in
          Ret (Some (cnt, l + 2))
        else get_ie_ex_loop fuel in_ie in_len eid oui copy (cnt + Z.to_nat (l + 2))
      else Ret None
  end.
Definition rtw_get_ie_ex (in_ie : list Z) (in_len eid : Z) (oui : option (list Z)) (copy : bool)
    : cres (option (nat * Z)) :=
  if in_len <=? 0 then Ret None else get_ie_ex_loop (Z.to_nat in_len) in_ie in_len eid oui copy 0.

(** ** Removing *)

(** One iteration of the loop of [rtw_ies_remove_ie] removes one element: the
    bytes behind it, [remain_len] of them, are moved to its place. *)
Fixpoint remove_loop (fuel : nat) (ies : list Z) (ies_len : Z) (start : nat) (search_len eid : Z)
    (oui : option (list Z)) (ret : bool) : cres (bool * list Z * Z) :=
  match fuel with
  | O => Ret (ret, ies, ies_len)
  | S fuel =>
      let* r := rtw_get_ie_ex (drop start ies) search_len eid oui false in
      match r with
      | Some (o, ielen) =>
          if ielen =? 0 then Ret (ret, ies, ies_len)
          else
            let target := (start + o)%nat in
            let remain := (target + Z.to_nat ielen)%nat in
            let remain_len := u32 (search_len - (Z.of_nat o + ielen)) in
            let* b := mem_readz ies remain remain_len in
            let* ies := buf_write ies target b in
            remove_loop fuel ies (u32 (ies_len - ielen)) target remain_len eid oui true
      | None => Ret (ret, ies, ies_len)
      end
  end.
(** The result, the buffer and [*ies_len]. *)
Definition rtw_ies_remove_ie (ies : list Z) (ies_len offset eid : Z) (oui : option (list Z))
    : cres (bool * list Z * Z) :=
  if ies_len <=? offset then Ret (false, ies, ies_len)
  else remove_loop (S (Z.to_nat ies_len)) ies ies_len (Z.to_nat offset) (u32 (ies_len - offset)) eid oui false.

(** ** Elements as data *)
Definition element : Type := Z * list Z.
Definition element_ok (e : element) : Prop := is_u8 e.1 ∧ bytes e.2 ∧ (length e.2 ≤ 255)%nat.
Definition encode1 (e : element) : list Z := e.1 :: Z.of_nat (length e.2) :: e.2.
Definition encode (l : list element) : list Z := concat (map encode1 l).

(** The element is one the search looks for. *)
Definition matches (eid : Z) (oui : option (list Z)) (e : element) : bool :=
  (e.1 =? eid) && match oui with None => true | Some o => bool_decide (take (length o) e.2 = o) end.
(** The offset of the first match and its length. *)
Fixpoint find_element (eid : Z) (oui : option (list Z)) (l : list element) (o : nat) : option (nat * Z) :=
  match l with
  | [] => None
  | e :: l =>
      if matches eid oui e then Some (o, Z.of_nat (length e.2) + 2)
      else find_element eid oui l (o + length (encode1 e))
  end.
(** Every element that may match is long enough for the comparison. *)
Definition oui_fits (eid : Z) (oui : option (list Z)) (l : list element) : Prop :=
  match oui with
  | None => True
  | Some o => Forall (λ e, e.1 = eid → (length o ≤ length e.2)%nat) l
  end.

(** ** The search on well-formed elements *)
Lemma length_encode1 e : length (encode1 e) = (length e.2 + 2)%nat.
Proof. cbn. lia. Qed.
Lemma encode_cons e l : encode (e :: l) = encode1 e ++ encode l.
Proof. done. Qed.
Lemma encode_app l k : encode (l ++ k) = encode l ++ encode k.
Proof. unfold encode. by rewrite map_app, concat_app. Qed.

Lemma length_encode_ge l : (2 * length l ≤ length (encode l))%nat.
Proof. induction l as [|e l IH]; [done|]. rewrite encode_cons, length_app, length_encode1. cbn [length]. lia. Qed.

(** The two leading bytes of an element inside a buffer. *)
Lemma element_head pre e rest mem :
  mem = pre ++ encode1 e ++ rest →
  mem_byte mem (Z.of_nat (length pre)) = Ret e.1 ∧
  mem_byte mem (Z.of_nat (length pre) + 1) = Ret (Z.of_nat (length e.2)).
Proof.
  intros ->. split.
  - apply mem_byte_at. rewrite lookup_app_r, Nat.sub_diag by lia. done.
  - apply mem_byte_next. rewrite lookup_app_r by lia. replace (S (length pre) - length pre)%nat with 1%nat by lia. done.
Qed.
Lemma element_oui pre e rest mem oui eid :
  mem = pre ++ encode1 e ++ rest → e.1 = eid → oui_fits eid oui [e] →
  oui_matches mem (length pre) oui = Ret (matches eid oui e).
Proof.
  intros -> He Hf. unfold oui_matches, matches. rewrite He, Z.eqb_refl. cbn [andb].
  destruct oui as [o|]; [|done]. apply Forall_cons_iff in Hf as [Hf _]. specialize (Hf He).
  rewrite mem_read_ok by (rewrite !length_app, length_encode1; lia). cbn [cbind].
  assert (slice (length pre + 2) (length o) (pre ++ encode1 e ++ rest) = take (length o) e.2) as ->; [|done].
  unfold slice. rewrite drop_app_add. change (drop 2 (encode1 e ++ rest)) with (e.2 ++ rest).
  by rewrite take_app_le.
Qed.

Lemma oui_fits_cons eid oui e l : oui_fits eid oui (e :: l) ↔ oui_fits eid oui [e] ∧ oui_fits eid oui l.
Proof. unfold oui_fits. destruct oui; [|tauto]. rewrite !Forall_cons_iff. intuition. Qed.

Lemma get_ie_ex_loop_encode eid oui copy l : ∀ fuel pre rest mem,
  mem = pre ++ encode l ++ rest → oui_fits eid oui l → (length (encode l) ≤ fuel)%nat → (0 < fuel)%nat →
  get_ie_ex_loop fuel mem (Z.of_nat (length pre + length (encode l))) eid oui copy (length pre) =
    Ret (find_element eid oui l (length pre)).
Proof.
  induction l as [|e l IH]; intros fuel pre rest mem Hm Hf Hfuel Hpos; (destruct fuel as [|fuel]; [lia|]);
    cbn [get_ie_ex_loop find_element].
  { rewrite (proj2 (Z.ltb_ge _ _)) by (cbn; lia). done. }
  rewrite encode_cons in *. rewrite <- app_assoc in Hm. rewrite length_app, length_encode1 in Hfuel |- *.
  apply oui_fits_cons in Hf as [Hf1 Hf]. rewrite (proj2 (Z.ltb_lt _ _)) by lia.
  destruct (element_head pre e _ mem Hm) as [-> ->]. cbn [cbind].
  assert ((if eid =? e.1 then oui_matches mem (length pre) oui else Ret false) = Ret (matches eid oui e)) as ->.
  { destruct (Z.eqb_spec eid e.1) as [E|E].
    - by rewrite (element_oui pre e _ mem oui eid Hm).
    - unfold matches. by rewrite (proj2 (Z.eqb_neq e.1 eid)). }
  cbn [cbind]. destruct (matches eid oui e) eqn:M.
  - destruct copy; [|done]. by rewrite mem_read_ok by (rewrite Hm, !length_app, length_encode1; lia).
  - replace (length pre + Z.to_nat (Z.of_nat (length e.2) + 2))%nat with (length (pre ++ encode1 e))
      by (rewrite length_app, length_encode1; lia).
    replace (length pre + (length e.2 + 2 + length (encode l)))%nat with (length (pre ++ encode1 e) + length (encode l))%nat
      by (rewrite length_app, length_encode1; lia).
    rewrite (IH fuel (pre ++ encode1 e) rest mem); [|by rewrite Hm, <- app_assoc|done|lia|lia].
    do 2 f_equal. by rewrite length_app, length_encode1.
Qed.

Lemma get_ie_ex_encode eid oui copy l rest :
  oui_fits eid oui l →
  rtw_get_ie_ex (encode l ++ rest) (Z.of_nat (length (encode l))) eid oui copy = Ret (find_element eid oui l 0).
Proof.
  intros Hf. unfold rtw_get_ie_ex. destruct (Z.leb_spec (Z.of_nat (length (encode l))) 0) as [H|H].
  - destruct l as [|e l]; [done|]. rewrite encode_cons, length_app, length_encode1 in H. lia.
  - rewrite Nat2Z.id. apply (get_ie_ex_loop_encode eid oui copy l _ [] rest); [done|done|lia|lia].
Qed.

(** [rtw_get_ie] looks at the identifier only. *)
Lemma get_ie_loop_encode index l : ∀ fuel pre rest mem,
  l ≠ [] → mem = pre ++ encode l ++ rest → (length (encode l) ≤ fuel)%nat →
  get_ie_loop fuel mem index (Z.of_nat (length pre + length (encode l))) (length pre) =
    Ret ((λ '(o, n), (o, n - 2)) <$> find_element index None l (length pre)).
Proof.
  induction l as [|e l IH]; intros fuel pre rest mem Hne Hm Hfuel; [done|].
  rewrite encode_cons in *. rewrite <- app_assoc in Hm. rewrite length_app, length_encode1 in Hfuel |- *.
  destruct fuel as [|fuel]; [lia|]. cbn [get_ie_loop find_element].
  destruct (element_head pre e _ mem Hm) as [-> ->]. cbn [cbind]. unfold matches. rewrite andb_true_r.
  destruct (Z.eqb_spec e.1 index).
  - cbn. do 3 f_equal. lia.
  - rewrite length_encode1.
    replace (length pre + Z.to_nat (Z.of_nat (length e.2) + 2))%nat with (length (pre ++ encode1 e))
      by (rewrite length_app, length_encode1; lia).
    replace (length pre + (length e.2 + 2))%nat with (length (pre ++ encode1 e))
      by (rewrite length_app, length_encode1; lia).
    replace (length pre + (length e.2 + 2 + length (encode l)))%nat with (length (pre ++ encode1 e) + length (encode l))%nat
      by (rewrite length_app, length_encode1; lia).
    destruct l as [|e' l].
    + replace (length (encode [])) with 0%nat by done. by rewrite Nat.add_0_r, Z.leb_refl.
    + rewrite (proj2 (Z.leb_gt _ _)) by (rewrite (encode_cons e'), (length_app (encode1 e')), (length_encode1 e'); lia).
      apply (IH fuel _ rest); [done|by rewrite Hm, <- app_assoc|lia].
Qed.

Lemma get_ie_encode index l rest :
  l ≠ [] →
  rtw_get_ie (encode l ++ rest) index (Z.of_nat (length (encode l))) =
    Ret ((λ '(o, n), (o, n - 2)) <$> find_element index None l 0).
Proof.
  intros Hne. unfold rtw_get_ie. pose proof (length_encode_ge l).
  assert (0 < length l)%nat by (destruct l; [done|cbn; lia]).
  rewrite (proj2 (Z.ltb_ge _ _)), Nat2Z.id by lia. by apply (get_ie_loop_encode index l _ [] rest).
Qed.

(** *** Removal *)
Lemma find_element_first eid oui l : ∀ o,
  match find_element eid oui l o with
  | None => List.filter (λ e, negb (matches eid oui e)) l = l ∧ Forall (λ e, matches eid oui e = false) l
  | Some (o', n) => ∃ l1 e l2, l = l1 ++ e :: l2 ∧ Forall (λ e, matches eid oui e = false) l1 ∧
      matches eid oui e = true ∧ o' = (o + length (encode l1))%nat ∧ n = Z.of_nat (length (encode1 e))
  end.
Proof.
  induction l as [|e l IH]; intros o; cbn [find_element]; [by split|].
  destruct (matches eid oui e) eqn:M.
  - exists [], e, l. split_and!; try done; rewrite ?length_encode1; cbn; lia.
  - specialize (IH (o + length (encode1 e))%nat). destruct (find_element _ _ _ _) as [[o' n]|].
    + destruct IH as (l1 & e' & l2 & -> & H1 & H2 & -> & ->). exists (e :: l1), e', l2.
      split_and!; [done|by constructor|done| |done]. rewrite encode_cons, length_app. lia.
    + destruct IH as [IH1 IH2]. cbn [List.filter]. rewrite M. cbn [negb]. split; [by rewrite IH1|by constructor].
Qed.
Lemma filter_app_unmatched eid oui l1 e l2 :
  Forall (λ e, matches eid oui e = false) l1 → matches eid oui e = true →
  List.filter (λ e, negb (matches eid oui e)) (l1 ++ e :: l2) =
    l1 ++ List.filter (λ e, negb (matches eid oui e)) l2.
Proof.
  intros H1 H2. induction H1 as [|e' l1 He Hl IH]; cbn [app List.filter]; [by rewrite H2|].
  rewrite He. cbn [negb]. by rewrite IH.
Qed.
Lemma oui_fits_app eid oui l k : oui_fits eid oui (l ++ k) ↔ oui_fits eid oui l ∧ oui_fits eid oui k.
Proof. unfold oui_fits. destruct oui; [|tauto]. apply Forall_app. Qed.

(** Moving the tail over the removed element. *)
Lemma move_tail (done_ x b junk : list Z) :
  ∃ junk', length junk' = (length x + length junk)%nat ∧
  buf_write (done_ ++ x ++ b ++ junk) (length done_) b = Ret (done_ ++ b ++ junk').
Proof.
  exists (drop (length b) (x ++ b ++ junk)). split; [rewrite length_drop, !length_app; lia|].
  rewrite buf_write_ok by (rewrite !length_app; lia). f_equal.
  rewrite take_app_length. by rewrite drop_app_add.
Qed.
Lemma remove_loop_encode eid oui : ∀ fuel l done_ junk tot ret,
  oui_fits eid oui l → (length l < fuel)%nat →
  Z.of_nat (length (done_ ++ encode l)) = tot → tot < 2 ^ 32 →
  ∃ junk', let l' := List.filter (λ e, negb (matches eid oui e)) l in
  remove_loop fuel (done_ ++ encode l ++ junk) tot (length done_) (Z.of_nat (length (encode l))) eid oui ret =
    Ret (ret || existsb (matches eid oui) l, done_ ++ encode l' ++ junk', Z.of_nat (length (done_ ++ encode l'))).
Proof.
  induction fuel as [|fuel IH]; intros l done_ junk tot ret Hf Hfuel Htot Hb; [lia|].
  cbn [remove_loop]. rewrite drop_app_length, get_ie_ex_encode by done. cbn [cbind].
  pose proof (find_element_first eid oui l 0) as F. destruct (find_element eid oui l 0) as [[o n]|].
  2: { destruct F as [F1 F2]. exists junk. cbv zeta. rewrite F1. repeat f_equal; [|lia].
       assert (existsb (matches eid oui) l = false) as ->; [|by rewrite orb_false_r].
       clear -F2. induction F2 as [|e l He _ IH]; [done|]. cbn. by rewrite He. }
  destruct F as (l1 & e & l2 & -> & H1 & H2 & -> & ->).
  apply oui_fits_app in Hf as [Hf1 Hf2]. apply oui_fits_cons in Hf2 as [_ Hf2].
  rewrite (proj2 (Z.eqb_neq _ _)) by (rewrite length_encode1; lia).
  rewrite encode_app, encode_cons in Htot |- *. rewrite !length_app in Htot |- *.
  rewrite u32_id by (split; lia). rewrite Nat2Z.id.
  replace (Z.of_nat _ - _) with (Z.of_nat (length (encode l2))) by lia. rewrite mem_readz_nat.
  replace (done_ ++ (encode l1 ++ encode1 e ++ encode l2) ++ junk)
    with (((done_ ++ encode l1) ++ encode1 e) ++ encode l2 ++ junk) by (by rewrite <- !app_assoc).
  replace (length done_ + (0 + length (encode l1)) + length (encode1 e))%nat
    with (length ((done_ ++ encode l1) ++ encode1 e)) by (rewrite !length_app; lia).
  rewrite mem_read_mid. cbn [cbind].
  replace (length done_ + (0 + length (encode l1)))%nat with (length (done_ ++ encode l1)) by (rewrite length_app; lia).
  destruct (move_tail (done_ ++ encode l1) (encode1 e) (encode l2) junk) as (junk' & _ & E).
  rewrite <- (app_assoc (done_ ++ encode l1)), E. cbn [cbind].
  rewrite u32_id by (split; lia).
  destruct (IH l2 (done_ ++ encode l1) junk' (tot - Z.of_nat (length (encode1 e))) true) as [junk'' IH'];
    [done|rewrite length_app in Hfuel; cbn [length] in Hfuel; lia|rewrite !length_app; lia|lia|].
  exists junk''. cbv zeta in *. rewrite IH', filter_app_unmatched, encode_app by done.
  rewrite existsb_app. cbn [existsb]. rewrite H2, orb_true_l, !orb_true_r, !length_app.
  by rewrite <- !app_assoc, Nat.add_assoc.
Qed.

(** ** Writing *)
Lemma set_ie_mid pre e gap rest frlen :
  element_ok e → length gap = length (encode1 e) →
  rtw_set_ie (pre ++ gap ++ rest) (length pre) e.1 e.2 frlen =
    Ret (pre ++ encode1 e ++ rest, u32 (frlen + Z.of_nat (length (encode1 e)))).
Proof.
  intros (Hi & Hb & Hl) Hg. destruct e as [i d]. unfold rtw_set_ie, encode1 in *. cbn [fst snd length] in *.
  destruct gap as [|g0 [|g1 gap]]; cbn [length] in Hg; [lia|lia|].
  rewrite (u8_id i), u8_id by (done || split; lia). set (n := Z.of_nat (length d)).
  change (pre ++ (g0 :: g1 :: gap) ++ rest) with (pre ++ [g0] ++ g1 :: gap ++ rest).
  rewrite (buf_write_mid pre [g0] [i]) by done. cbn [cbind app].
  replace (pre ++ i :: g1 :: gap ++ rest) with ((pre ++ [i]) ++ [g1] ++ gap ++ rest) by (by rewrite <- app_assoc).
  replace (length pre + 1)%nat with (length (pre ++ [i])) by (rewrite length_app; done).
  rewrite (buf_write_mid (pre ++ [i]) [g1] [n]) by done. cbn [cbind].
  assert ((if (0 <? length d)%nat
           then buf_write ((pre ++ [i]) ++ [n] ++ gap ++ rest) (length pre + 2) d
           else Ret ((pre ++ [i]) ++ [n] ++ gap ++ rest)) = Ret (pre ++ (i :: n :: d) ++ rest)) as ->.
  { destruct (Nat.ltb_spec 0 (length d)).
    - replace ((pre ++ [i]) ++ [n] ++ gap ++ rest) with ((pre ++ [i; n]) ++ gap ++ rest) by (by rewrite <- !app_assoc).
      replace (length pre + 2)%nat with (length (pre ++ [i; n])) by (rewrite length_app; done).
      rewrite buf_write_mid by lia. by rewrite <- app_assoc.
    - destruct d, gap; cbn [length] in *; try lia. by rewrite <- app_assoc. }
  cbn [cbind]. do 3 f_equal. unfold n. lia.
Qed.

(** Elements written one behind the other, the way the frame builders chain
    the calls: the pointer the one call returns is the one the next starts at. *)
Fixpoint set_ies (buf : list Z) (off : nat) (l : list element) (frlen : Z) : cres (list Z * Z) :=
  match l with
  | [] => Ret (buf, frlen)
  | e :: l =>
      let* (buf, frlen) := rtw_set_ie buf off e.1 e.2 frlen in
      set_ies buf (off + length e.2 + 2) l frlen
  end.
Lemma set_ies_mid l : ∀ pre gap rest frlen,
  Forall element_ok l → length gap = length (encode l) → 0 ≤ frlen → frlen + Z.of_nat (length gap) < 2 ^ 32 →
  set_ies (pre ++ gap ++ rest) (length pre) l frlen =
    Ret (pre ++ encode l ++ rest, frlen + Z.of_nat (length gap)).
Proof.
  induction l as [|e l IH]; intros pre gap rest frlen Hok Hg H0 Hb.
  - destruct gap; [|done]. cbn. do 2 f_equal. lia.
  - apply Forall_cons_iff in Hok as [He Hl]. rewrite encode_cons, length_app in Hg.
    rewrite <- (take_drop (length (encode1 e)) gap). set (g1 := take _ gap). set (g2 := drop _ gap).
    assert (length g1 = length (encode1 e)) as E1 by (unfold g1; rewrite length_take; lia).
    assert (length g2 = length (encode l)) as E2 by (unfold g2; rewrite length_drop; lia).
    cbn [set_ies]. rewrite <- (app_assoc g1 g2 rest), set_ie_mid by done. cbn [cbind].
    rewrite u32_id by (split; lia).
    replace (length pre + length e.2 + 2)%nat with (length (pre ++ encode1 e))
      by (rewrite length_app, length_encode1; lia).
    rewrite app_assoc, IH by (done || lia). rewrite encode_cons, <- !app_assoc, length_app.
    do 2 f_equal. lia.
Qed.

(** ** Bounds on any input *)

(** Whatever the bytes are, the search only reads the [in_len] bytes and, for
    an element that is cut off, its length byte and the compared or copied
    bytes behind them. *)
Definition slack (oui : option (list Z)) (copy : bool) : nat :=
  match oui with None => 0 | Some o => length o end + if copy then 257 else 1.

Lemma mem_byte_in mem i : bytes mem → 0 ≤ i < Z.of_nat (length mem) → ∃ b, mem_byte mem i = Ret b ∧ is_u8 b.
Proof.
  intros Hm Hi. destruct (lookup_lt_is_Some_2 mem (Z.to_nat i)) as [b Hb]; [lia|].
  exists b. split; [|by eapply Forall_lookup_1]. unfold mem_byte. by rewrite (proj2 (Z.ltb_ge _ _)), Hb by lia.
Qed.
Lemma oui_matches_in mem cnt oui in_len copy :
  (in_len + slack oui copy ≤ length mem)%nat → (cnt < in_len)%nat → ∃ m, oui_matches mem cnt oui = Ret m.
Proof.
  intros Hl Hc. unfold oui_matches, slack in *. destruct oui as [o|]; [|by eexists].
  rewrite mem_read_ok by (destruct copy; lia). by eexists.
Qed.

Lemma get_ie_ex_loop_bounds mem (in_len : nat) eid oui copy : bytes mem →
  (in_len + slack oui copy ≤ length mem)%nat →
  ∀ fuel cnt, (in_len - cnt ≤ fuel)%nat →
  ∃ r, get_ie_ex_loop fuel mem (Z.of_nat in_len) eid oui copy cnt = Ret r ∧
    ∀ o n, r = Some (o, n) → (cnt ≤ o < in_len)%nat ∧ 2 ≤ n ≤ 257 ∧ mem !! o = Some eid.
Proof.
  intros Hb Hl. induction fuel as [|fuel IH]; intros cnt Hf; [by eexists|]. cbn [get_ie_ex_loop].
  destruct (Z.ltb_spec (Z.of_nat cnt) (Z.of_nat in_len)) as [Hc|Hc]; [|by eexists].
  assert (1 ≤ slack oui copy)%nat by (unfold slack; destruct copy; lia).
  destruct (mem_byte_in mem (Z.of_nat cnt)) as (id & Hid & _); [done|lia|].
  destruct (mem_byte_in mem (Z.of_nat cnt + 1)) as (l & -> & [Hl0 Hl1]); [done|lia|].
  rewrite Hid. cbn [cbind].
  assert (∃ m, (if eid =? id then oui_matches mem cnt oui else Ret false) = Ret m ∧ (m = true → id = eid)) as (m & -> & Hm).
  { destruct (Z.eqb_spec eid id) as [->|]; [|by exists false].
    destruct (oui_matches_in mem cnt oui in_len copy) as [m ->]; [done|lia|]. by exists m. }
  cbn [cbind]. destruct m.
  - exists (Some (cnt, l + 2)). split.
    + destruct copy; [|done]. rewrite mem_read_ok; [done|]. unfold slack in Hl. lia.
    + intros o n [= <- <-]. split_and!; [lia|lia|lia|lia|]. unfold mem_byte in Hid.
      rewrite (proj2 (Z.ltb_ge _ _)), Nat2Z.id in Hid by lia. destruct (mem !! cnt); [|done].
      injection Hid as ->. by rewrite Hm.
  - destruct (IH (cnt + Z.to_nat (l + 2))%nat) as (r & -> & Hr); [lia|]. exists r. split; [done|].
    intros o n E. destruct (Hr o n E) as (? & ? & ?). split_and!; try done; lia.
Qed.

(** [rtw_get_ie_ex] reads no byte more than its documented range and one
    truncated element: on any bytes, with [slack] readable bytes behind
    [in_len], it returns, and a hit is an element with the right identifier
    that starts inside the range. *)
Theorem get_ie_ex_bounds in_ie in_len eid oui copy :
  bytes in_ie → (Z.to_nat in_len + slack oui copy ≤ length in_ie)%nat →
  ∃ r, rtw_get_ie_ex in_ie in_len eid oui copy = Ret r ∧
    ∀ o n, r = Some (o, n) → Z.of_nat o < in_len ∧ 2 ≤ n ≤ 257 ∧ in_ie !! o = Some eid.
Proof.
  intros Hb Hl. unfold rtw_get_ie_ex. destruct (Z.leb_spec in_len 0); [by eexists|].
  destruct (get_ie_ex_loop_bounds in_ie (Z.to_nat in_len) eid oui copy Hb Hl (Z.to_nat in_len) 0) as (r & E & Hr); [lia|].
  rewrite Z2Nat.id in E by lia. exists r. split; [done|]. intros o n Eo.
  destruct (Hr o n Eo) as (? & ? & ?). split_and!; [lia|lia|lia|done].
Qed.
(** The range ends behind a vendor element that has been cut off. *)
Lemma get_ie_ex_bounds_witness :
  ∃ r, rtw_get_ie_ex (48 :: 1 :: 7 :: 0xdd :: 9 :: replicate 270 0) 5 0xdd None true = Ret r ∧
    ∀ o n, r = Some (o, n) → Z.of_nat o < 5 ∧ 2 ≤ n ≤ 257 ∧
      (48 :: 1 :: 7 :: 0xdd :: 9 :: replicate 270 0) !! o = Some 0xdd.
Proof. apply (get_ie_ex_bounds _ 5 0xdd None true); [bytes_lit|vm_compute; lia]. Defined.

(** ** Theorems on well-formed elements *)
Lemma find_element_find eid oui l rest :
  match List.find (matches eid oui) l with
  | None => find_element eid oui l 0 = None
  | Some e => ∃ o, find_element eid oui l 0 = Some (o, Z.of_nat (length (encode1 e))) ∧
      mem_read (encode l ++ rest) o (length (encode1 e)) = Ret (encode1 e)
  end.
Proof.
  pose proof (find_element_first eid oui l 0) as F. destruct (find_element eid oui l 0) as [[o n]|].
  - destruct F as (l1 & e & l2 & -> & H1 & H2 & -> & ->).
    assert (List.find (matches eid oui) (l1 ++ e :: l2) = Some e) as ->.
    { clear -H1 H2. induction H1 as [|e' l1 He _ IH]; cbn [app List.find]; [by rewrite H2|by rewrite He]. }
    exists (length (encode l1)). split; [done|]. rewrite encode_app, encode_cons, <- !app_assoc. apply mem_read_mid.
  - destruct F as [_ F]. destruct (List.find _ l) as [e|] eqn:E; [|done].
    apply find_some in E as [E1 E2]. rewrite List.Forall_forall in F. rewrite (F e E1) in E2. done.
Qed.

(** Elements written one behind the other with [rtw_set_ie] are found
    again by [rtw_get_ie_ex] and, by identifier only, [rtw_get_ie]: the search
    gives the first element with the identifier and the OUI, whole, and fails
    exactly when there is none. *)
Theorem set_ie_get_ie_roundtrip pre gap rest l frlen eid oui copy :
  Forall element_ok l → l ≠ [] → oui_fits eid oui l → length gap = length (encode l) →
  0 ≤ frlen → frlen + Z.of_nat (length gap) < 2 ^ 32 →
  ∃ ies, set_ies (pre ++ gap ++ rest) (length pre) l frlen =
      Ret (pre ++ ies, frlen + Z.of_nat (length gap)) ∧
    (match List.find (matches eid oui) l with
     | None => rtw_get_ie_ex ies (Z.of_nat (length gap)) eid oui copy = Ret None
     | Some e => ∃ o, rtw_get_ie_ex ies (Z.of_nat (length gap)) eid oui copy =
           Ret (Some (o, Z.of_nat (length (encode1 e)))) ∧
         mem_read ies o (length (encode1 e)) = Ret (encode1 e)
     end) ∧
    (match List.find (matches eid None) l with
     | None => rtw_get_ie ies eid (Z.of_nat (length gap)) = Ret None
     | Some e => ∃ o, rtw_get_ie ies eid (Z.of_nat (length gap)) =
           Ret (Some (o, Z.of_nat (length e.2))) ∧
         mem_read ies o (length (encode1 e)) = Ret (encode1 e)
     end).
Proof.
  intros Hok Hne Hf Hg H0 Hb. exists (encode l ++ rest). rewrite set_ies_mid by done. split; [done|].
  rewrite Hg, get_ie_ex_encode by done. split.
  - pose proof (find_element_find eid oui l rest) as F. destruct (List.find _ l) as [e|]; [|by rewrite F].
    destruct F as (o & -> & Hr). eauto.
  - rewrite get_ie_encode by done.
    pose proof (find_element_find eid None l rest) as F. destruct (List.find _ l) as [e|]; [|by rewrite F].
    destruct F as (o & -> & Hr). exists o. split; [|done]. rewrite length_encode1. cbn. do 3 f_equal. lia.
Qed.
Lemma set_ie_get_ie_roundtrip_witness :
  ∃ ies, set_ies ([1; 2] ++ replicate 11 0 ++ [9]) 2 [(48, [1; 0]); (0xdd, [0; 0x50; 0xf2; 1; 7])] 5 = Ret ([1; 2] ++ ies, 16) ∧
    (∃ o, rtw_get_ie_ex ies 11 0xdd (Some [0; 0x50; 0xf2; 1]) true = Ret (Some (o, 7)) ∧
       mem_read ies o 7 = Ret [0xdd; 5; 0; 0x50; 0xf2; 1; 7]) ∧
    (∃ o, rtw_get_ie ies 0xdd 11 = Ret (Some (o, 5)) ∧ mem_read ies o 7 = Ret [0xdd; 5; 0; 0x50; 0xf2; 1; 7]).
Proof.
  apply (set_ie_get_ie_roundtrip [1; 2] (replicate 11 0) [9] [(48, [1; 0]); (0xdd, [0; 0x50; 0xf2; 1; 7])] 5
    0xdd (Some [0; 0x50; 0xf2; 1]) true).
  - repeat constructor; discriminate || (cbn; lia).
  - done.
  - repeat (apply Forall_cons; [cbn; lia|]). apply Forall_nil; exact I.
  - reflexivity.
  - lia.
  - vm_compute. reflexivity.
Defined.

(** [rtw_ies_remove_ie] keeps the bytes before [offset] and removes exactly
    the matching elements behind it, in place and in order; [*ies_len] is the
    new length and the result says whether something was removed. *)
Theorem remove_ie_filter pre l junk eid oui :
  oui_fits eid oui l → l ≠ [] → Z.of_nat (length (pre ++ encode l)) < 2 ^ 32 →
  ∃ junk', let l' := List.filter (λ e, negb (matches eid oui e)) l in
  rtw_ies_remove_ie (pre ++ encode l ++ junk) (Z.of_nat (length (pre ++ encode l))) (Z.of_nat (length pre)) eid oui =
    Ret (existsb (matches eid oui) l, pre ++ encode l' ++ junk', Z.of_nat (length (pre ++ encode l'))).
Proof.
  intros Hf Hne Hb. pose proof (length_encode_ge l) as Hl.
  assert (0 < length l)%nat by (destruct l; [done|cbn; lia]).
  unfold rtw_ies_remove_ie. rewrite (proj2 (Z.leb_gt _ _)) by (rewrite length_app; lia).
  replace (u32 _) with (Z.of_nat (length (encode l)))
    by (rewrite u32_id; rewrite length_app in *; [lia|split; lia]).
  rewrite !Nat2Z.id. destruct (remove_loop_encode eid oui (S (length (pre ++ encode l))) l pre junk
    (Z.of_nat (length (pre ++ encode l))) false) as [junk' E]; [done|rewrite length_app; lia|done|done|].
  exists junk'. cbv zeta in *. rewrite E. done.
Qed.
Lemma remove_ie_filter_witness :
  ∃ junk', rtw_ies_remove_ie [5; 1; 1; 9; 0xdd; 0; 3; 0; 0xdd; 2; 4; 4] 12 1 0xdd None =
    Ret (true, [5; 1; 1; 9; 3; 0] ++ junk', 6).
Proof.
  refine (remove_ie_filter [5] [(1, [9]); (0xdd, []); (3, []); (0xdd, [4; 4])] [] 0xdd None _ _ _);
    [exact I|discriminate|vm_compute; reflexivity].
Defined.

(** *** Truncated elements

    [rtw_get_ie] looks at the length byte of an element that starts at the last
    byte of its range; [rtw_ies_remove_ie] takes the length of a truncated last
    element at its word, and the unsigned count of the bytes behind it wraps. *)
Example get_ie_truncated_oob : rtw_get_ie [1; 0; 48] 48 3 = Oob.
Proof. reflexivity. Qed.
Example get_ie_ex_truncated_oob : rtw_get_ie_ex [1; 0; 48] 3 48 None false = Oob.
Proof. reflexivity. Qed.
Lemma remove_ie_truncated_oob : rtw_ies_remove_ie (0xdd :: 5 :: 1 :: replicate 61 0) 3 0 0xdd None = Oob.
Proof. vm_compute. reflexivity. Qed.
