(* ===== verification/Rsn.v ===== *)
(** * The WPA and RSN elements: [core/rtw_ieee80211.c]

    [rtw_get_wpa_ie], [rtw_parse_wpa_ie], [rtw_rsne_info_parse] and
    [rtw_parse_wpa2_ie] read what an access point sends in beacons and probe
    responses.  The element is the list of the bytes at the pointer; a pointer
    into it that the parser keeps is an offset, [None] for [NULL]. *)
From S2P Require Import Prelude CryptoWrap Blocks Mem Ie.

(** ** Suite selectors *)
Definition RTW_WPA_OUI_TYPE : list Z := [0x00; 0x50; 0xf2; 1].
Definition wpa_oui (t : Z) : list Z := [0x00; 0x50; 0xf2; t].
Definition rsn_oui (t : Z) : list Z := [0x00; 0x0f; 0xac; t].

Definition WPA_CIPHER_NONE := BIT 0.
Definition WPA_CIPHER_WEP40 := BIT 1.
Definition WPA_CIPHER_WEP104 := BIT 2.
Definition WPA_CIPHER_TKIP := BIT 3.
Definition WPA_CIPHER_CCMP := BIT 4.
Definition WPA_CIPHER_GCMP := BIT 5.
Definition WPA_CIPHER_GCMP_256 := BIT 6.
Definition WPA_CIPHER_CCMP_256 := BIT 7.
Definition WPA_CIPHER_BIP_CMAC_128 := BIT 8.
Definition WPA_CIPHER_BIP_GMAC_128 := BIT 9.
Definition WPA_CIPHER_BIP_GMAC_256 := BIT 10.
Definition WPA_CIPHER_BIP_CMAC_256 := BIT 11.
Definition WLAN_AKM_TYPE_8021X := BIT 0.

(** A chain of [_rtw_memcmp] tests, in the order of the code; 0 when none hits. *)
Definition first_suite (tbl : list (list Z * Z)) (s : list Z) : Z :=
  match List.find (λ '(sel, _), bool_decide (s = sel)) tbl with Some (_, v) => v | None => 0 end.

Definition rtw_get_wpa_cipher_suite : list Z → Z := first_suite [
  (wpa_oui 0, WPA_CIPHER_NONE); (wpa_oui 1, WPA_CIPHER_WEP40); (wpa_oui 2, WPA_CIPHER_TKIP);
  (wpa_oui 4, WPA_CIPHER_CCMP); (wpa_oui 5, WPA_CIPHER_WEP104)].
Definition rtw_get_rsn_cipher_suite : list Z → Z := first_suite [
  (rsn_oui 0, WPA_CIPHER_NONE); (rsn_oui 1, WPA_CIPHER_WEP40); (rsn_oui 2, WPA_CIPHER_TKIP);
  (rsn_oui 4, WPA_CIPHER_CCMP); (rsn_oui 8, WPA_CIPHER_GCMP); (rsn_oui 9, WPA_CIPHER_GCMP_256);
  (rsn_oui 10, WPA_CIPHER_CCMP_256); (rsn_oui 5, WPA_CIPHER_WEP104); (rsn_oui 6, WPA_CIPHER_BIP_CMAC_128);
  (rsn_oui 11, WPA_CIPHER_BIP_GMAC_128); (rsn_oui 12, WPA_CIPHER_BIP_GMAC_256);
  (rsn_oui 13, WPA_CIPHER_BIP_CMAC_256)].
Definition rtw_get_akm_suite_bitmap : list Z → Z := first_suite [
  (rsn_oui 1, WLAN_AKM_TYPE_8021X); (rsn_oui 2, BIT 1); (rsn_oui 3, BIT 2); (rsn_oui 4, BIT 3);
  (rsn_oui 5, BIT 4); (rsn_oui 6, BIT 5); (rsn_oui 7, BIT 6); (rsn_oui 8, BIT 7); (rsn_oui 9, BIT 8);
  (rsn_oui 11, BIT 9); (rsn_oui 12, BIT 10); (rsn_oui 14, BIT 11); (rsn_oui 15, BIT 12);
  (rsn_oui 16, BIT 13); (rsn_oui 17, BIT 14)].

(** ** Reading *)
Definition read_le16 (ie : list Z) (pos : nat) : cres Z :=
  let* a0 := mem_byte ie (Z.of_nat pos) in
  let* a1 := mem_byte ie (Z.of_nat (pos + 1)) in
  Ret (u16 ((a1 << 8) .| a0)).
(** [RTW_GET_LE16] of a pointer into the element, above; a [for] loop that collects the suites of a list of selectors. *)
Fixpoint or_suites (f : list Z → Z) (ie : list Z) (pos : nat) (cnt : nat) (acc : Z) : cres Z :=
  match cnt with
  | O => Ret acc
  | S cnt =>
      let* s := mem_read ie pos 4 in
      or_suites f ie (pos + 4) cnt (acc .| f s)
  end.

(** ** [rtw_get_wpa_ie]

    The offset of the element and [*wpa_ie_len]; [at_] is [pbuf - pie].  Every
    iteration lowers [limit_new]. *)
Fixpoint get_wpa_ie_loop (fuel : nat) (pie : list Z) (limit : Z) (at_ : nat) (limit_new : Z)
    : cres (option (nat * Z)) :=
  match fuel with
  | O => Ret None
  | S fuel =>
      let* r := rtw_get_ie (drop at_ pie) 0xdd limit_new in
      match r with
      | None => Ret None
      | Some (o, len) =>
          let pbuf := (at_ + o)%nat in
          let* oui := mem_read pie (pbuf + 2) 4 in
          let* ok :=
            if bool_decide (oui = RTW_WPA_OUI_TYPE) then
              let* val16 := read_le16 pie (pbuf + 6) in Ret (val16 =? 1)
            else Ret false in
          if ok then Ret (Some (pbuf, len))
          else
            let limit_new := limit - Z.of_nat pbuf - 2 - len in
            if limit_new <=? 0 then Ret None
            else get_wpa_ie_loop fuel pie limit (pbuf + Z.to_nat (2 + len)) limit_new
      end
  end.
Definition rtw_get_wpa_ie (pie : list Z) (limit : Z) : cres (option (nat * Z)) :=
  get_wpa_ie_loop (S (Z.to_nat limit)) pie limit 0 limit.
Definition rtw_get_wpa2_ie (pie : list Z) (limit : Z) : cres (option (nat * Z)) := rtw_get_ie pie 48 limit.

(** ** [rtw_parse_wpa_ie] *)
Record wpa_out := { group_cipher : Z; pairwise_cipher : Z; akm : Z }.

(** The result, [true] for [_SUCCESS], and the output parameters, which start
    with what the caller put there. *)
Definition parse_wpa_akm (wpa_ie : list Z) (pos : nat) (left : Z) (out : wpa_out) : cres (bool * wpa_out) :=
  if left <? 6 then Ret (true, out)
  else
    let* s := mem_read wpa_ie (pos + 2) 4 in
    Ret (true, if bool_decide (s = wpa_oui 1)
               then {| group_cipher := out.(group_cipher); pairwise_cipher := out.(pairwise_cipher);
                       akm := WLAN_AKM_TYPE_8021X |} else out).
Definition parse_wpa_pairwise (wpa_ie : list Z) (pos : nat) (left : Z) (out : wpa_out) : cres (bool * wpa_out) :=
  if 2 <=? left then
    let* count := read_le16 wpa_ie pos in
    let pos := (pos + 2)%nat in
    let left := left - 2 in
    if (count =? 0) || (left <? count * 4) then Ret (false, out)
    else
      let* pw := or_suites rtw_get_wpa_cipher_suite wpa_ie pos (Z.to_nat count) out.(pairwise_cipher) in
      parse_wpa_akm wpa_ie (pos + 4 * Z.to_nat count) (left - 4 * count)
        {| group_cipher := out.(group_cipher); pairwise_cipher := pw; akm := out.(akm) |}
  else if left =? 1 then Ret (false, out)
  else parse_wpa_akm wpa_ie pos left out.
Definition rtw_parse_wpa_ie (wpa_ie : list Z) (wpa_ie_len : Z) (out : wpa_out) : cres (bool * wpa_out) :=
  if wpa_ie_len <=? 0 then Ret (false, out)
  else
    let* id := mem_byte wpa_ie 0 in
    if negb (id =? 0xdd) then Ret (false, out)
    else
      let* l := mem_byte wpa_ie 1 in
      if negb (l =? u8 (wpa_ie_len - 2)) then Ret (false, out)
      else
        let* oui := mem_read wpa_ie 2 4 in
        if negb (bool_decide (oui = RTW_WPA_OUI_TYPE)) then Ret (false, out)
        else
          let left := wpa_ie_len - 8 in
          if 4 <=? left then
            let* s := mem_read wpa_ie 8 4 in
            parse_wpa_pairwise wpa_ie 12 (left - 4)
              {| group_cipher := rtw_get_wpa_cipher_suite s; pairwise_cipher := out.(pairwise_cipher);
                 akm := out.(akm) |}
          else if 0 <? left then Ret (false, out)
          else parse_wpa_pairwise wpa_ie 8 left out.

(** ** [rtw_rsne_info_parse] *)
Record rsne_info := {
  gcs : option nat;
  pcs_cnt : Z; pcs_list : option nat;
  akm_cnt : Z; akm_list : option nat;
  cap : option nat;
  pmkid_cnt : Z; pmkid_list : option nat;
  gmcs : option nat;
  err : bool
}.
Definition rsne_info0 : rsne_info := Build_rsne_info None 0 None 0 None None 0 None None false.

Definition rsne_err (i : rsne_info) : cres (bool * rsne_info) :=
  Ret (false, Build_rsne_info i.(gcs) i.(pcs_cnt) i.(pcs_list) i.(akm_cnt) i.(akm_list) i.(cap)
                i.(pmkid_cnt) i.(pmkid_list) i.(gmcs) true).
(** [if (ie + ie_len < pos + n) { if (ie + ie_len != pos) goto err; goto exit; }] *)
Definition rsne_need (ie_len pos n : Z) (i : rsne_info) (k : cres (bool * rsne_info)) : cres (bool * rsne_info) :=
  if ie_len <? pos + n then if ie_len =? pos then Ret (true, i) else rsne_err i else k.

(** The fields from the PMKID count on. *)
Definition rsne_pmkid (ie : list Z) (ie_len : Z) (pos : nat) (i : rsne_info) : cres (bool * rsne_info) :=
  rsne_need ie_len (Z.of_nat pos) 2 i (
    let* cnt := read_le16 ie pos in
    let pos := (pos + 2)%nat in
    if ie_len <? Z.of_nat pos + 16 * cnt then rsne_err i
    else
      let i := Build_rsne_info i.(gcs) i.(pcs_cnt) i.(pcs_list) i.(akm_cnt) i.(akm_list) i.(cap) cnt (Some pos) None false in
      let pos := (pos + 16 * Z.to_nat cnt)%nat in
      rsne_need ie_len (Z.of_nat pos) 4 i (
        Ret (true, Build_rsne_info i.(gcs) i.(pcs_cnt) i.(pcs_list) i.(akm_cnt) i.(akm_list) i.(cap)
                     i.(pmkid_cnt) i.(pmkid_list) (Some pos) false))).
(** The AKM list and the capabilities. *)
Definition rsne_akm (ie : list Z) (ie_len : Z) (pos : nat) (i : rsne_info) : cres (bool * rsne_info) :=
  rsne_need ie_len (Z.of_nat pos) 2 i (
    let* cnt := read_le16 ie pos in
    let pos := (pos + 2)%nat in
    rsne_need ie_len (Z.of_nat pos) (4 * cnt) i (
      let i := Build_rsne_info i.(gcs) i.(pcs_cnt) i.(pcs_list) cnt (Some pos) None 0 None None false in
      let pos := (pos + 4 * Z.to_nat cnt)%nat in
      rsne_need ie_len (Z.of_nat pos) 2 i (
        rsne_pmkid ie ie_len (pos + 2)
          (Build_rsne_info i.(gcs) i.(pcs_cnt) i.(pcs_list) i.(akm_cnt) i.(akm_list) (Some pos) 0 None None false)))).
(** The group cipher and the pairwise list. *)
Definition rsne_suites (ie : list Z) (ie_len : Z) (pos : nat) : cres (bool * rsne_info) :=
  rsne_need ie_len (Z.of_nat pos) 4 rsne_info0 (
    let i := Build_rsne_info (Some pos) 0 None 0 None None 0 None None false in
    let pos := (pos + 4)%nat in
    rsne_need ie_len (Z.of_nat pos) 2 i (
      let* cnt := read_le16 ie pos in
      let pos := (pos + 2)%nat in
      rsne_need ie_len (Z.of_nat pos) (4 * cnt) i (
        rsne_akm ie ie_len (pos + 4 * Z.to_nat cnt)
          (Build_rsne_info i.(gcs) cnt (Some pos) 0 None None 0 None None false)))).
Definition rtw_rsne_info_parse (ie : list Z) (ie_len : Z) : cres (bool * rsne_info) :=
  if ie_len <? 4 then rsne_err rsne_info0
  else
    let* id := mem_byte ie 0 in
    let* ok := if negb (id =? 48) then Ret false else let* l := mem_byte ie 1 in Ret (l =? ie_len - 2) in
    if negb ok then rsne_err rsne_info0
    else
      let* ver := read_le16 ie 2 in
      if negb (ver =? 1) then rsne_err rsne_info0 else rsne_suites ie ie_len 4.

(** ** [rtw_parse_wpa2_ie], called with a pointer for every output

    The length is an [int] here and an unsigned one in [rtw_rsne_info_parse]. *)
Record wpa2_out := {
  group_cipher2 : Z; pairwise_cipher2 : Z; gmcs2 : Z; akm2 : Z; mfp_opt : Z; spp_opt : Z
}.
Definition suite_at (ie : list Z) (p : option nat) (dflt : Z) : cres Z :=
  match p with Some p => let* s := mem_read ie p 4 in Ret (rtw_get_rsn_cipher_suite s) | None => Ret dflt end.
Definition suites_at (f : list Z → Z) (ie : list Z) (p : option nat) (cnt : Z) : cres Z :=
  match p with Some p => or_suites f ie p (Z.to_nat cnt) 0 | None => Ret 0 end.
(** [LE_BITS_TO_2BYTE] of the capabilities, the default when there are none. *)
Definition cap_bits (ie : list Z) (p : option nat) (off : Z) : cres Z :=
  match p with Some p => let* v := read_le16 ie p in Ret ((v >> off) .& 3) | None => Ret 0 end.
Definition rtw_parse_wpa2_ie (rsn_ie : list Z) (rsn_ie_len : Z) (out : wpa2_out) : cres (bool * wpa2_out) :=
  let* (ok, info) := rtw_rsne_info_parse rsn_ie (u32 rsn_ie_len) in
  if negb ok then Ret (false, out)
  else
    let* g := suite_at rsn_ie info.(gcs) 0 in
    let* pw := suites_at rtw_get_rsn_cipher_suite rsn_ie info.(pcs_list) info.(pcs_cnt) in
    let* gm := suite_at rsn_ie info.(gmcs) WPA_CIPHER_BIP_CMAC_128 in
    let* ak := suites_at rtw_get_akm_suite_bitmap rsn_ie info.(akm_list) info.(akm_cnt) in
    let* mfp := cap_bits rsn_ie info.(cap) 6 in
    let* spp := cap_bits rsn_ie info.(cap) 10 in
    Ret (true, Build_wpa2_out g pw gm ak mfp spp).

(** ** Memory safety on any element *)

(** The fields a successful parse gives lie inside the element. *)
Definition fits (ie_len : Z) (p : option nat) (n : Z) : Prop :=
  0 ≤ n ∧ match p with None => True | Some p => Z.of_nat p + n ≤ ie_len end.
Definition info_ok (ie_len : Z) (i : rsne_info) : Prop :=
  fits ie_len i.(gcs) 4 ∧ fits ie_len i.(pcs_list) (4 * i.(pcs_cnt)) ∧ fits ie_len i.(akm_list) (4 * i.(akm_cnt)) ∧
  fits ie_len i.(cap) 2 ∧ fits ie_len i.(pmkid_list) (16 * i.(pmkid_cnt)) ∧ fits ie_len i.(gmcs) 4.
Definition parsed_ok (ie_len : Z) (r : cres (bool * rsne_info)) : Prop :=
  ∃ b i, r = Ret (b, i) ∧ info_ok ie_len i ∧ i.(err) = negb b.

Lemma get_le16_in ie pos :
  bytes ie → (pos + 2 ≤ length ie)%nat → ∃ v, read_le16 ie pos = Ret v ∧ is_u16 v.
Proof.
  intros Hb Hl. unfold read_le16.
  destruct (mem_byte_in ie (Z.of_nat pos)) as (a & -> & _); [done|lia|].
  destruct (mem_byte_in ie (Z.of_nat (pos + 1))) as (b & -> & _); [done|lia|].
  cbn [cbind]. eexists. split; [done|apply u16_uint].
Qed.
Lemma rsne_err_ok ie_len i : info_ok ie_len i → parsed_ok ie_len (rsne_err i).
Proof. intros H. by repeat eexists; try apply H. Qed.
Lemma rsne_need_ok ie_len pos n i k :
  info_ok ie_len i → i.(err) = false → (pos + n ≤ ie_len → parsed_ok ie_len k) →
  parsed_ok ie_len (rsne_need ie_len pos n i k).
Proof.
  intros Hi He Hk. unfold rsne_need. destruct (Z.ltb_spec ie_len (pos + n)); [|by apply Hk].
  destruct (ie_len =? pos); [|by apply rsne_err_ok]. by exists true, i.
Qed.

Section safety.
Context (ie : list Z) (ie_len : Z) (Hb : bytes ie) (Hl : ie_len ≤ Z.of_nat (length ie)).

Ltac info := unfold info_ok, fits in *; cbn [gcs pcs_cnt pcs_list akm_cnt akm_list cap pmkid_cnt pmkid_list gmcs err rsne_info0] in *;
  destruct_and?; split_and?; first [done | lia].

Lemma rsne_pmkid_ok pos i : info_ok ie_len i → i.(err) = false → parsed_ok ie_len (rsne_pmkid ie ie_len pos i).
Proof using Hb Hl.
  intros Hi He. unfold rsne_pmkid. apply rsne_need_ok; [done..|]. intros Hp.
  destruct (get_le16_in ie pos) as (cnt & -> & [Hc _]); [done|lia|]. cbn [cbind].
  destruct (Z.ltb_spec ie_len (Z.of_nat (pos + 2) + 16 * cnt)); [by apply rsne_err_ok|].
  apply rsne_need_ok; [info|done|]. intros Hp'. repeat eexists; info.
Qed.
Lemma rsne_akm_ok pos i : info_ok ie_len i → i.(err) = false → parsed_ok ie_len (rsne_akm ie ie_len pos i).
Proof using Hb Hl.
  intros Hi He. unfold rsne_akm. apply rsne_need_ok; [done..|]. intros Hp.
  destruct (get_le16_in ie pos) as (cnt & -> & [Hc _]); [done|lia|]. cbn [cbind].
  apply rsne_need_ok; [done..|]. intros Hp'.
  apply rsne_need_ok; [info|done|]. intros Hp''. apply rsne_pmkid_ok; [info|done].
Qed.
Lemma rsne_suites_ok pos : parsed_ok ie_len (rsne_suites ie ie_len pos).
Proof using Hb Hl.
  unfold rsne_suites. apply rsne_need_ok; [info|done|]. intros Hp.
  apply rsne_need_ok; [info|done|]. intros Hp'.
  destruct (get_le16_in ie (pos + 4)) as (cnt & -> & [Hc _]); [done|lia|]. cbn [cbind].
  apply rsne_need_ok; [info|done|]. intros Hp''. apply rsne_akm_ok; [info|done].
Qed.
Lemma rsne_info_parse_ok : parsed_ok ie_len (rtw_rsne_info_parse ie ie_len).
Proof using Hb Hl.
  unfold rtw_rsne_info_parse. destruct (Z.ltb_spec ie_len 4); [by apply rsne_err_ok|].
  destruct (mem_byte_in ie 0) as (id & -> & _); [done|lia|]. cbn [cbind].
  destruct (mem_byte_in ie 1) as (l & -> & _); [done|lia|]. cbn [cbind].
  assert (∃ ok, (if negb (id =? 48) then Ret false else Ret (l =? ie_len - 2)) = Ret ok) as [ok ->]
    by (destruct (id =? 48); by eexists).
  cbn [cbind]. destruct ok; cbn [negb]; [|apply rsne_err_ok; info].
  destruct (get_le16_in ie 2) as (ver & -> & _); [done|lia|]. cbn [cbind].
  destruct (ver =? 1); [apply rsne_suites_ok|apply rsne_err_ok; info].
Qed.

Lemma or_suites_in f cnt : ∀ pos acc,
  Z.of_nat pos + 4 * Z.of_nat cnt ≤ ie_len → ∃ v, or_suites f ie pos cnt acc = Ret v.
Proof using Hl.
  induction cnt as [|cnt IH]; intros pos acc H; [by eexists|]. cbn [or_suites].
  rewrite mem_read_ok by lia. cbn [cbind]. apply IH. lia.
Qed.
Lemma suite_at_in p d : fits ie_len p 4 → ∃ v, suite_at ie p d = Ret v.
Proof using Hl.
  intros [_ H]. unfold suite_at. destruct p as [p|]; [|by eexists]. rewrite mem_read_ok by lia. by eexists.
Qed.
Lemma suites_at_in f p n : fits ie_len p (4 * n) → ∃ v, suites_at f ie p n = Ret v.
Proof using Hl. intros [H0 H]. destruct p as [p|]; [|by eexists]. apply or_suites_in. lia. Qed.
Lemma cap_bits_in p o : fits ie_len p 2 → ∃ v, cap_bits ie p o = Ret v.
Proof using Hb Hl.
  intros [_ H]. unfold cap_bits. destruct p as [p|]; [|by eexists].
  destruct (get_le16_in ie p) as (v & -> & _); [done|lia|by eexists].
Qed.
End safety.

(** A negative length is a large unsigned one, which no length byte equals. *)
Lemma rsne_negative_len ie len :
  bytes ie → (2 ≤ length ie)%nat → -2 ^ 31 ≤ len < 0 → rtw_rsne_info_parse ie (u32 len) = rsne_err rsne_info0.
Proof.
  intros Hb Hl Hn. assert (u32 len = len + 2 ^ 32) as ->.
  { rewrite u32_mod. replace len with (len + 2 ^ 32 + (-1) * 2 ^ 32) at 1 by lia. rewrite Z.mod_add, Z.mod_small by lia. done. }
  unfold rtw_rsne_info_parse. rewrite (proj2 (Z.ltb_ge _ _)) by lia.
  destruct (mem_byte_in ie 0) as (id & -> & _); [done|lia|]. cbn [cbind].
  destruct (mem_byte_in ie 1) as (l & -> & [_ Hu]); [done|lia|]. cbn [cbind].
  destruct (id =? 48); cbn [negb]; [|done]. cbn [cbind]. change (2 ^ 8) with 256 in Hu.
  by rewrite (proj2 (Z.eqb_neq _ _)) by lia.
Qed.

(** C29: Whatever bytes an access point sends, the RSN element parser stays
    inside the [rsn_ie_len] bytes it is given: [rtw_rsne_info_parse] returns
    fields that lie inside the element, with [err] set exactly on failure, and
    [rtw_parse_wpa2_ie] returns; when it fails its outputs are untouched.  The
    length is any [int]; of a negative one the parser reads two bytes. *)
Theorem parse_wpa2_ie_safe rsn_ie rsn_ie_len out :
  bytes rsn_ie → -2 ^ 31 ≤ rsn_ie_len < 2 ^ 31 → rsn_ie_len ≤ Z.of_nat (length rsn_ie) →
  0 ≤ rsn_ie_len ∨ (2 ≤ length rsn_ie)%nat →
  ∃ ok info out', rtw_rsne_info_parse rsn_ie (u32 rsn_ie_len) = Ret (ok, info) ∧ info_ok rsn_ie_len info ∧
    info.(err) = negb ok ∧ rtw_parse_wpa2_ie rsn_ie rsn_ie_len out = Ret (ok, out') ∧ (ok = false → out' = out).
Proof.
  intros Hb Hr Hl Hn. unfold rtw_parse_wpa2_ie. destruct (decide (0 ≤ rsn_ie_len)) as [Hp|Hp].
  2: { rewrite rsne_negative_len by (done || lia). unfold rsne_err. eexists false, _, out. split; [reflexivity|].
       split; [|done]. unfold info_ok, fits. cbn. split_and!; done. }
  rewrite u32_id by (split; lia).
  destruct (rsne_info_parse_ok rsn_ie rsn_ie_len Hb Hl) as (ok & info & E & Hi & He).
  exists ok, info. rewrite E. cbn [cbind]. destruct ok; cbn [negb]; [|by exists out].
  pose proof Hi as (H1 & H2 & H3 & H4 & H5 & H6).
  destruct (suite_at_in rsn_ie rsn_ie_len Hl _ 0 H1) as [? ->].
  destruct (suites_at_in rsn_ie rsn_ie_len Hl rtw_get_rsn_cipher_suite _ _ H2) as [? ->].
  destruct (suite_at_in rsn_ie rsn_ie_len Hl _ WPA_CIPHER_BIP_CMAC_128 H6) as [? ->].
  destruct (suites_at_in rsn_ie rsn_ie_len Hl rtw_get_akm_suite_bitmap _ _ H3) as [? ->].
  destruct (cap_bits_in rsn_ie rsn_ie_len Hb Hl _ 6 H4) as [? ->].
  destruct (cap_bits_in rsn_ie rsn_ie_len Hb Hl _ 10 H4) as [? ->]. cbn [cbind]. eexists. split_and!; done.
Qed.
(** A pairwise count that runs past the end of the element. *)
Lemma parse_wpa2_ie_safe_witness :
  ∃ ok info out', rtw_rsne_info_parse [48; 9; 1; 0; 0; 15; 172; 4; 255; 255; 0] (u32 11) = Ret (ok, info) ∧ info_ok 11 info ∧
    info.(err) = negb ok ∧
    rtw_parse_wpa2_ie [48; 9; 1; 0; 0; 15; 172; 4; 255; 255; 0] 11 (Build_wpa2_out 1 2 3 4 5 6) = Ret (ok, out') ∧
    (ok = false → out' = Build_wpa2_out 1 2 3 4 5 6).
Proof. apply parse_wpa2_ie_safe; [bytes_lit|lia|vm_compute; discriminate|left; lia]. Defined.

(** ** The elements the standard defines *)
Definition le16 (z : Z) : list Z := [z mod 256; z / 256].
Definition enc_list (l : list (list Z)) : list Z := le16 (Z.of_nat (length l)) ++ concat l.
Definition enc_opt {A} (f : A → list Z) (o : option A) : list Z := match o with None => [] | Some a => f a end.

(** Every field of an RSN element behind the version is optional, but only at
    the end: a field is there when the ones before it are. *)
Record rsn_pmk := { pmkids : list (list Z); group_mgmt : option (list Z) }.
Record rsn_akm := { akms : list (list Z); caps : option (Z * option rsn_pmk) }.
Record rsn := { group : list Z; pairwise : option (list (list Z) * option rsn_akm) }.

Definition enc_pmk (x : rsn_pmk) : list Z := enc_list x.(pmkids) ++ enc_opt id x.(group_mgmt).
Definition enc_caps (x : Z * option rsn_pmk) : list Z := le16 x.1 ++ enc_opt enc_pmk x.2.
Definition enc_akm (x : rsn_akm) : list Z := enc_list x.(akms) ++ enc_opt enc_caps x.(caps).
Definition enc_pairwise (x : list (list Z) * option rsn_akm) : list Z := enc_list x.1 ++ enc_opt enc_akm x.2.
Definition enc_rsn (x : rsn) : list Z := x.(group) ++ enc_opt enc_pairwise x.(pairwise).
(** The element with its header; [None] has the version only. *)
Definition enc_rsne (x : option rsn) : list Z :=
  let body := le16 1 ++ enc_opt enc_rsn x in 48 :: Z.of_nat (length body) :: body.

Definition sized (n : nat) (l : list (list Z)) : Prop := Forall (λ s, length s = n) l ∧ Z.of_nat (length l) < 2 ^ 16.
Definition opt_all {A} (P : A → Prop) (o : option A) : Prop := match o with None => True | Some a => P a end.
Definition pmk_ok (x : rsn_pmk) : Prop := sized 16 x.(pmkids) ∧ opt_all (λ s, length s = 4%nat) x.(group_mgmt).
Definition caps_ok (x : Z * option rsn_pmk) : Prop := is_u16 x.1 ∧ opt_all pmk_ok x.2.
Definition akm_ok (x : rsn_akm) : Prop := sized 4 x.(akms) ∧ opt_all caps_ok x.(caps).
Definition pairwise_ok (x : list (list Z) * option rsn_akm) : Prop := sized 4 x.1 ∧ opt_all akm_ok x.2.
Definition rsn_ok (x : rsn) : Prop := length x.(group) = 4%nat ∧ opt_all pairwise_ok x.(pairwise).

(** What the element says, with the defaults of the absent fields. *)
Definition suites (f : list Z → Z) (l : list (list Z)) : Z := fold_left (λ a s, a .| f s) l 0.
Definition meaning (x : option rsn) : wpa2_out :=
  let pw := x ≫= pairwise in
  let ak := pw ≫= snd in
  let cp := ak ≫= caps in
  let pm := cp ≫= snd in
  let gm := pm ≫= group_mgmt in
  {| group_cipher2 := from_option (rtw_get_rsn_cipher_suite ∘ group) 0 x;
     pairwise_cipher2 := from_option (suites rtw_get_rsn_cipher_suite ∘ fst) 0 pw;
     gmcs2 := from_option rtw_get_rsn_cipher_suite WPA_CIPHER_BIP_CMAC_128 gm;
     akm2 := from_option (suites rtw_get_akm_suite_bitmap ∘ akms) 0 ak;
     mfp_opt := from_option (λ c, (c.1 >> 6) .& 3) 0 cp;
     spp_opt := from_option (λ c, (c.1 >> 10) .& 3) 0 cp |}.

(** *** Contents at an offset *)
Definition at_ (ie : list Z) (off : nat) (b : list Z) : Prop := ∃ pre post, ie = pre ++ b ++ post ∧ length pre = off.

Lemma at_app ie off a b : at_ ie off (a ++ b) ↔ at_ ie off a ∧ at_ ie (off + length a) b.
Proof.
  split.
  - intros (pre & post & -> & <-). split; [exists pre, (b ++ post)|exists (pre ++ a), post]; by rewrite ?length_app, <- ?app_assoc.
  - intros [(pre & post & -> & <-) (pre' & post' & E & L)]. exists pre, post'. split; [|done].
    rewrite <- app_assoc. apply (f_equal (drop (length pre'))) in E as E'. rewrite L in E' at 1.
    rewrite drop_app_add, drop_app_length, drop_app_length in E'. by rewrite E'.
Qed.
Lemma at_read ie off b : at_ ie off b → mem_read ie off (length b) = Ret b.
Proof. intros (pre & post & -> & <-). apply mem_read_mid. Qed.
Lemma at_read4 ie off b : at_ ie off b → length b = 4%nat → mem_read ie off 4 = Ret b.
Proof. intros H L. pose proof (at_read _ _ _ H) as E. by rewrite L in E. Qed.
Lemma at_byte ie off x b : at_ ie off (x :: b) → mem_byte ie (Z.of_nat off) = Ret x.
Proof.
  intros (pre & post & -> & <-). apply mem_byte_at. by rewrite lookup_app_r, Nat.sub_diag by lia.
Qed.
Lemma at_le16 ie off z : at_ ie off (le16 z) → is_u16 z → read_le16 ie off = Ret z.
Proof.
  intros H Hz. unfold read_le16. rewrite (at_byte _ _ _ _ H).
  change (le16 z) with ([z mod 256] ++ [z / 256]) in H. apply at_app in H as [_ H].
  cbn [length] in H. rewrite (at_byte _ _ _ _ H). cbn [cbind]. f_equal. change (2 ^ 16) with 65536 in Hz.
  assert (0 ≤ z / 256 < 256) by (unfold uint in Hz; split; [apply Z.div_pos|apply Z.div_lt_upper_bound]; lia).
  pose proof (Z.mod_pos_bound z 256 ltac:(lia)).
  rewrite lor_split8. by apply u16_id.
Qed.
Lemma length_enc_list n l : Forall (λ s, length s = n) l → length (enc_list l) = (2 + n * length l)%nat.
Proof.
  intros H. unfold enc_list. rewrite length_app. cbn [length le16]. f_equal.
  induction H as [|s l Hs _ IH]; [cbn; lia|]. cbn [concat length]. rewrite length_app, Hs, IH. lia.
Qed.
Lemma at_enc_list ie off n l :
  at_ ie off (enc_list l) → sized n l →
  read_le16 ie off = Ret (Z.of_nat (length l)) ∧ at_ ie (off + 2) (concat l).
Proof.
  intros H [Hs Hn]. apply at_app in H as [H1 H2]. split; [|done]. apply at_le16; [done|]. split; [lia|done].
Qed.
Lemma at_or_suites f ie l : ∀ off acc,
  at_ ie off (concat l) → Forall (λ s, length s = 4%nat) l →
  or_suites f ie off (length l) acc = Ret (fold_left (λ a s, a .| f s) l acc).
Proof.
  induction l as [|s l IH]; intros off acc H Hs; [done|]. apply Forall_cons_iff in Hs as [Hs Hl].
  apply at_app in H as [H1 H2]. cbn [length or_suites fold_left].
  rewrite (at_read4 _ _ _ H1 Hs). cbn [cbind]. rewrite Hs in H2. by apply IH.
Qed.

(** *** The stages of the parser *)
Lemma rsne_need_enough ie_len pos n i k : pos + n ≤ ie_len → rsne_need ie_len pos n i k = k.
Proof. intros H. unfold rsne_need. by rewrite (proj2 (Z.ltb_ge _ _)). Qed.
Lemma rsne_need_end ie_len pos n i k : 0 < n → ie_len = pos → rsne_need ie_len pos n i k = Ret (true, i).
Proof. intros H ->. unfold rsne_need. by rewrite (proj2 (Z.ltb_lt _ _)), Z.eqb_refl by lia. Qed.

Section stages.
Context (ie : list Z).
Implicit Types i : rsne_info.

(** Two descriptions with the same fields up to the given one. *)
Definition same_suites i i' : Prop := i'.(gcs) = i.(gcs) ∧ i'.(pcs_cnt) = i.(pcs_cnt) ∧ i'.(pcs_list) = i.(pcs_list).
Definition same_akm i i' : Prop :=
  same_suites i i' ∧ i'.(akm_cnt) = i.(akm_cnt) ∧ i'.(akm_list) = i.(akm_list) ∧ i'.(cap) = i.(cap).

Lemma rsne_pmkid_enc pos i x ie_len :
  at_ ie pos (enc_opt enc_pmk x) → opt_all pmk_ok x → i.(gmcs) = None →
  ie_len = Z.of_nat (pos + length (enc_opt enc_pmk x)) →
  ∃ i', rsne_pmkid ie ie_len pos i = Ret (true, i') ∧ same_akm i i' ∧
    ∀ d, suite_at ie i'.(gmcs) d = Ret (from_option rtw_get_rsn_cipher_suite d (x ≫= group_mgmt)).
Proof.
  intros Ha Hx Hg ->. unfold rsne_pmkid. destruct x as [[pm gm]|].
  2: { rewrite rsne_need_end by (cbn; lia). exists i. rewrite Hg. by split_and!. }
  destruct Hx as [Hp Hm]. cbn [enc_opt pmkids group_mgmt enc_pmk] in *. unfold enc_pmk in *. cbn [pmkids group_mgmt] in *.
  apply at_app in Ha as [Ha1 Ha2]. destruct (at_enc_list _ _ _ _ Ha1 Hp) as [E1 _].
  pose proof (length_enc_list _ _ (proj1 Hp)) as L. rewrite length_app, L in *.
  rewrite rsne_need_enough by lia. rewrite E1. cbn [cbind].
  rewrite (proj2 (Z.ltb_ge _ _)) by lia. rewrite Nat2Z.id.
  destruct gm as [g|]; cbn [opt_all enc_opt id] in *.
  - rewrite rsne_need_enough by lia. eexists. split; [done|]. split; [done|]. intros d. cbn [gmcs suite_at].
    replace (pos + 2 + 16 * length pm)%nat with (pos + (2 + 16 * length pm))%nat by lia.
    by rewrite (at_read4 _ _ _ Ha2 Hm).
  - rewrite rsne_need_end by (cbn; lia). eexists. by split_and!.
Qed.

Lemma rsne_akm_enc pos i x ie_len :
  at_ ie pos (enc_opt enc_akm x) → opt_all akm_ok x →
  i.(akm_list) = None → i.(cap) = None → i.(gmcs) = None →
  ie_len = Z.of_nat (pos + length (enc_opt enc_akm x)) →
  ∃ i', rsne_akm ie ie_len pos i = Ret (true, i') ∧ same_suites i i' ∧
    suites_at rtw_get_akm_suite_bitmap ie i'.(akm_list) i'.(akm_cnt) =
      Ret (from_option (suites rtw_get_akm_suite_bitmap ∘ akms) 0 x) ∧
    (∀ o, cap_bits ie i'.(cap) o = Ret (from_option (λ c : Z * option rsn_pmk, (c.1 >> o) .& 3) 0 (x ≫= caps))) ∧
    ∀ d, suite_at ie i'.(gmcs) d = Ret (from_option rtw_get_rsn_cipher_suite d (((x ≫= caps) ≫= snd) ≫= group_mgmt)).
Proof.
  intros Ha Hx H1 H2 H3 ->. unfold rsne_akm. destruct x as [[ak cp]|].
  2: { rewrite rsne_need_end by (cbn; lia). exists i. rewrite H1, H2, H3. by split_and!. }
  destruct Hx as [Hp Hm]. cbn [enc_opt] in *. unfold enc_akm in *. cbn [akms caps] in *.
  apply at_app in Ha as [Ha1 Ha2]. destruct (at_enc_list _ _ _ _ Ha1 Hp) as [E1 Hk].
  pose proof (length_enc_list _ _ (proj1 Hp)) as L. rewrite length_app, L in *.
  rewrite rsne_need_enough by lia. rewrite E1. cbn [cbind].
  rewrite rsne_need_enough by lia. rewrite Nat2Z.id.
  assert (suites_at rtw_get_akm_suite_bitmap ie (Some (pos + 2)%nat) (Z.of_nat (length ak)) =
    Ret (suites rtw_get_akm_suite_bitmap ak)) as Es.
  { cbn [suites_at]. rewrite Nat2Z.id. apply at_or_suites; [done|apply Hp]. }
  destruct cp as [[c pm]|]; cbn [opt_all enc_opt] in *.
  2: { rewrite rsne_need_end by (cbn; lia). eexists. by split_and!. }
  unfold enc_caps in *. cbn [fst snd] in *. destruct Hm as [Hc Hm]. cbn [fst snd] in *.
  apply at_app in Ha2 as [Ha2 Ha3]. rewrite length_app in *. cbn [length le16] in *.
  rewrite rsne_need_enough by lia.
  replace (pos + 2 + 4 * length ak + 2)%nat with (pos + (2 + 4 * length ak) + 2)%nat by lia.
  match goal with |- context [rsne_pmkid _ _ _ ?j] => set (j0 := j) end.
  edestruct (rsne_pmkid_enc (pos + (2 + 4 * length ak) + 2) j0 pm) as (i' & -> & (S1 & S2 & S3 & S4) & S5);
    [exact Ha3|done|done|f_equal; lia|]. exists i'. subst j0. unfold same_suites in S1.
  cbn [gcs pcs_cnt pcs_list akm_cnt akm_list cap] in S1, S2, S3, S4. rewrite S2, S3, S4.
  split_and!; try done. intros o. cbn [cap_bits].
  replace (pos + 2 + 4 * length ak)%nat with (pos + (2 + 4 * length ak))%nat by lia.
  by rewrite (at_le16 _ _ _ Ha2).
Qed.

Lemma rsne_suites_enc pos x ie_len :
  at_ ie pos (enc_opt enc_rsn x) → opt_all rsn_ok x → ie_len = Z.of_nat (pos + length (enc_opt enc_rsn x)) →
  ∃ i', rsne_suites ie ie_len pos = Ret (true, i') ∧
    suite_at ie i'.(gcs) 0 = Ret (meaning x).(group_cipher2) ∧
    suites_at rtw_get_rsn_cipher_suite ie i'.(pcs_list) i'.(pcs_cnt) = Ret (meaning x).(pairwise_cipher2) ∧
    suites_at rtw_get_akm_suite_bitmap ie i'.(akm_list) i'.(akm_cnt) = Ret (meaning x).(akm2) ∧
    (cap_bits ie i'.(cap) 6 = Ret (meaning x).(mfp_opt) ∧ cap_bits ie i'.(cap) 10 = Ret (meaning x).(spp_opt)) ∧
    suite_at ie i'.(gmcs) WPA_CIPHER_BIP_CMAC_128 = Ret (meaning x).(gmcs2).
Proof.
  intros Ha Hx ->. unfold rsne_suites. destruct x as [[g pw]|].
  2: { rewrite rsne_need_end by (cbn; lia). eexists. by split_and!. }
  destruct Hx as [Hg Hp]. cbn [enc_opt] in *. unfold enc_rsn in *. cbn [group pairwise] in *.
  apply at_app in Ha as [Ha1 Ha2]. rewrite length_app, Hg in *.
  rewrite rsne_need_enough by lia.
  assert (suite_at ie (Some pos) 0 = Ret (rtw_get_rsn_cipher_suite g)) as Eg
    by (cbn [suite_at]; by rewrite (at_read4 _ _ _ Ha1 Hg)).
  destruct pw as [[ps ak]|]; cbn [opt_all enc_opt] in *.
  2: { rewrite rsne_need_end by (cbn; lia). eexists. by split_and!. }
  destruct Hp as [Hp Hm]. unfold enc_pairwise in *. cbn [fst snd] in *.
  apply at_app in Ha2 as [Ha2 Ha3]. destruct (at_enc_list _ _ _ _ Ha2 Hp) as [E1 Hk].
  pose proof (length_enc_list _ _ (proj1 Hp)) as L. rewrite length_app, L in *.
  rewrite rsne_need_enough by lia. rewrite E1. cbn [cbind]. rewrite rsne_need_enough by lia. rewrite Nat2Z.id.
  replace (pos + 4 + 2 + 4 * length ps)%nat with (pos + 4 + (2 + 4 * length ps))%nat by lia.
  match goal with |- context [rsne_akm _ _ _ ?j] => set (j0 := j) end.
  edestruct (rsne_akm_enc (pos + 4 + (2 + 4 * length ps)) j0 ak) as (i' & -> & (S1 & S2 & S3) & S4 & S5 & S6);
    [exact Ha3|done|done|done|done|f_equal; lia|].
  exists i'. subst j0. cbn [gcs pcs_cnt pcs_list] in S1, S2, S3. rewrite S1, S2, S3. split_and!; try done.
  cbn [suites_at]. rewrite Nat2Z.id. apply at_or_suites; [done|apply Hp].
Qed.
End stages.

Lemma rsne_info_parse_enc x rest :
  opt_all rsn_ok x → (length (enc_rsne x) ≤ 257)%nat →
  ∃ i', rtw_rsne_info_parse (enc_rsne x ++ rest) (Z.of_nat (length (enc_rsne x))) = Ret (true, i') ∧
    suite_at (enc_rsne x ++ rest) i'.(gcs) 0 = Ret (meaning x).(group_cipher2) ∧
    suites_at rtw_get_rsn_cipher_suite (enc_rsne x ++ rest) i'.(pcs_list) i'.(pcs_cnt) = Ret (meaning x).(pairwise_cipher2) ∧
    suites_at rtw_get_akm_suite_bitmap (enc_rsne x ++ rest) i'.(akm_list) i'.(akm_cnt) = Ret (meaning x).(akm2) ∧
    (cap_bits (enc_rsne x ++ rest) i'.(cap) 6 = Ret (meaning x).(mfp_opt) ∧
     cap_bits (enc_rsne x ++ rest) i'.(cap) 10 = Ret (meaning x).(spp_opt)) ∧
    suite_at (enc_rsne x ++ rest) i'.(gmcs) WPA_CIPHER_BIP_CMAC_128 = Ret (meaning x).(gmcs2).
Proof.
  intros Hx Hl. unfold rtw_rsne_info_parse.
  assert (at_ (enc_rsne x ++ rest) 0 (enc_rsne x)) as Ha by (by exists [], rest).
  set (ie := enc_rsne x ++ rest) in *. unfold enc_rsne in *. cbv zeta in *. set (body := le16 1 ++ enc_opt enc_rsn x) in *.
  assert (length body = 2 + length (enc_opt enc_rsn x))%nat as Lb by (unfold body; rewrite length_app; done).
  cbn [length] in Hl |- *. rewrite (proj2 (Z.ltb_ge _ _)) by lia.
  rewrite (at_byte ie 0 _ _ Ha : mem_byte ie 0 = _). cbn [cbind].
  change (48 :: Z.of_nat (length body) :: body) with ([48; Z.of_nat (length body)] ++ body) in Ha.
  apply at_app in Ha as [Ha1 Ha2]. cbn [length] in Ha2.
  apply (at_app ie 0 [48] [Z.of_nat (length body)]) in Ha1 as [_ Ha1].
  rewrite (at_byte ie 1 _ _ Ha1 : mem_byte ie 1 = _). cbn [cbind].
  change (negb (48 =? 48)) with false. cbn iota. cbn [cbind]. rewrite (proj2 (Z.eqb_eq _ _)) by lia. cbn [negb].
  apply at_app in Ha2 as [Ha2 Ha3]. rewrite (at_le16 ie 2 _ Ha2) by done. cbn [cbind].
  change (negb (1 =? 1)) with false. cbn iota.
  apply (rsne_suites_enc ie 4 x); [done|done|]. rewrite Lb. lia.
Qed.

(** C33: [rtw_parse_wpa2_ie] reads every RSN element the standard allows, with
    whatever optional fields at its end: the group cipher, the union of the
    pairwise ciphers and of the key managements, the protection and SPP bits of
    the capabilities and the group management cipher, and the defaults for the
    fields that are absent. *)
Theorem parse_wpa2_ie_meaning x rest out :
  opt_all rsn_ok x → (length (enc_rsne x) ≤ 257)%nat →
  rtw_parse_wpa2_ie (enc_rsne x ++ rest) (Z.of_nat (length (enc_rsne x))) out = Ret (true, meaning x).
Proof.
  intros Hx Hl. destruct (rsne_info_parse_enc x rest Hx Hl) as (i & E & H1 & H2 & H3 & H4 & H5).
  unfold rtw_parse_wpa2_ie. rewrite u32_id by (split; lia). rewrite E. cbn [cbind negb]. rewrite H1. cbn [cbind]. rewrite H2. cbn [cbind].
  rewrite H5. cbn [cbind]. rewrite H3. cbn [cbind]. rewrite (proj1 H4), (proj2 H4). done.
Qed.
(** WPA2 and WPA3 personal together, protection of management frames possible. *)
Lemma parse_wpa2_ie_meaning_witness :
  rtw_parse_wpa2_ie [48; 24; 1; 0; 0; 15; 172; 4; 1; 0; 0; 15; 172; 4; 2; 0; 0; 15; 172; 2; 0; 15; 172; 8; 0x80; 0; 7]
    26 (Build_wpa2_out 0 0 0 0 0 0) =
    Ret (true, {| group_cipher2 := WPA_CIPHER_CCMP; pairwise_cipher2 := WPA_CIPHER_CCMP;
                  gmcs2 := WPA_CIPHER_BIP_CMAC_128; akm2 := 0x82; mfp_opt := 2; spp_opt := 0 |}).
Proof.
  refine (parse_wpa2_ie_meaning (Some {| group := rsn_oui 4; pairwise := Some ([rsn_oui 4],
    Some {| akms := [rsn_oui 2; rsn_oui 8]; caps := Some (0x80, None) |}) |}) [7] (Build_wpa2_out 0 0 0 0 0 0) _ _).
  - repeat split; try (repeat constructor); try done.
  - vm_compute. lia.
Defined.

(** ** The WPA element *)
Definition enc_wpa (ver g : list Z) (ps aks : list (list Z)) : list Z :=
  let body := RTW_WPA_OUI_TYPE ++ ver ++ g ++ enc_list ps ++ enc_list aks in
  0xdd :: Z.of_nat (length body) :: body.

Lemma parse_wpa_akm_enc ie pos left aks out :
  at_ ie pos (enc_list aks) → sized 4 aks → left = Z.of_nat (length (enc_list aks)) →
  parse_wpa_akm ie pos left out =
    Ret (true, {| group_cipher := out.(group_cipher); pairwise_cipher := out.(pairwise_cipher);
                  akm := if bool_decide (head aks = Some (wpa_oui 1)) then WLAN_AKM_TYPE_8021X else out.(akm) |}).
Proof.
  intros Ha Hs ->. unfold parse_wpa_akm. rewrite (length_enc_list 4) by apply Hs.
  destruct aks as [|a aks]; cbn [length head].
  - by destruct out.
  - rewrite (proj2 (Z.ltb_ge _ _)) by lia. destruct (at_enc_list _ _ _ _ Ha Hs) as [_ Ha'].
    apply at_app in Ha' as [Ha' _]. destruct Hs as [Hs _]. apply Forall_cons_iff in Hs as [Hs _].
    rewrite (at_read4 _ _ _ Ha' Hs). cbn [cbind]. do 2 f_equal.
    destruct (decide (a = wpa_oui 1)) as [->|Hne].
    + by rewrite !bool_decide_eq_true_2.
    + rewrite !bool_decide_eq_false_2 by congruence. by destruct out.
Qed.

(** [rtw_parse_wpa_ie] reads a WPA element: the group cipher, the pairwise
    ciphers added to those the caller had, and the key management 802.1X when
    it is the first of the list. *)
Theorem parse_wpa_ie_meaning ver g ps aks rest out :
  length ver = 2%nat → length g = 4%nat → sized 4 ps → ps ≠ [] → sized 4 aks →
  (length (enc_wpa ver g ps aks) ≤ 257)%nat →
  rtw_parse_wpa_ie (enc_wpa ver g ps aks ++ rest) (Z.of_nat (length (enc_wpa ver g ps aks))) out =
    Ret (true, {| group_cipher := rtw_get_wpa_cipher_suite g;
                  pairwise_cipher := fold_left (λ a s, a .| rtw_get_wpa_cipher_suite s) ps out.(pairwise_cipher);
                  akm := if bool_decide (head aks = Some (wpa_oui 1)) then WLAN_AKM_TYPE_8021X else out.(akm) |}).
Proof.
  intros Hv Hg Hp Hne Hk Hl. unfold rtw_parse_wpa_ie.
  assert (at_ (enc_wpa ver g ps aks ++ rest) 0 (enc_wpa ver g ps aks)) as Ha by (by exists [], rest).
  set (ie := enc_wpa ver g ps aks ++ rest) in *. unfold enc_wpa in *. cbv zeta in *.
  set (body := RTW_WPA_OUI_TYPE ++ ver ++ g ++ enc_list ps ++ enc_list aks) in *.
  pose proof (length_enc_list _ _ (proj1 Hp)) as Lp.
  assert (length body = 10 + length (enc_list ps) + length (enc_list aks))%nat as Lb
    by (unfold body; rewrite !length_app, Hv, Hg; cbn [length RTW_WPA_OUI_TYPE]; lia).
  cbn [length] in Hl |- *. rewrite (proj2 (Z.leb_gt _ _)) by lia.
  rewrite (at_byte ie 0 _ _ Ha : mem_byte ie 0 = _). cbn [cbind]. change (negb (221 =? 221)) with false. cbn iota.
  change (0xdd :: Z.of_nat (length body) :: body) with ([0xdd] ++ [Z.of_nat (length body)] ++ body) in Ha.
  apply at_app in Ha as [_ Ha]. apply at_app in Ha as [Ha1 Ha].
  rewrite (at_byte ie 1 _ _ Ha1 : mem_byte ie 1 = _). cbn [cbind].
  rewrite u8_id by (split; lia). rewrite (proj2 (Z.eqb_eq _ _)) by lia. cbn [negb].
  apply at_app in Ha as [Ha1' Ha]. rewrite (at_read4 ie 2 _ Ha1' eq_refl). cbn [cbind].
  rewrite bool_decide_eq_true_2 by done. cbn [negb]. rewrite (proj2 (Z.leb_le _ _)) by lia.
  apply at_app in Ha as [_ Ha]. apply at_app in Ha as [Hga Ha]. rewrite Hv in *.
  rewrite (at_read4 ie 8 _ Hga Hg). cbn [cbind]. rewrite Hg in Ha. apply at_app in Ha as [Hpa Hka].
  unfold parse_wpa_pairwise. rewrite (proj2 (Z.leb_le _ _)) by lia.
  destruct (at_enc_list ie 12 4 ps Hpa Hp) as [-> Hps]. cbn [cbind pairwise_cipher group_cipher akm].
  assert (0 < length ps)%nat by (destruct ps; [done|cbn; lia]).
  rewrite (proj2 (Z.eqb_neq _ _)), (proj2 (Z.ltb_ge _ _)) by lia. cbn [orb]. rewrite Nat2Z.id.
  rewrite (at_or_suites _ ie ps) by (done || apply Hp). cbn [cbind].
  rewrite (parse_wpa_akm_enc ie _ _ aks); [done| |done|lia].
  replace (12 + 2 + 4 * length ps)%nat with (12 + length (enc_list ps))%nat by lia. done.
Qed.
Lemma parse_wpa_ie_meaning_witness :
  rtw_parse_wpa_ie [0xdd; 22; 0; 0x50; 0xf2; 1; 1; 0; 0; 0x50; 0xf2; 2; 1; 0; 0; 0x50; 0xf2; 4; 1; 0; 0; 0x50; 0xf2; 1; 9] 24
    (Build_wpa_out 0 WPA_CIPHER_TKIP 0) =
    Ret (true, Build_wpa_out WPA_CIPHER_TKIP (WPA_CIPHER_TKIP .| WPA_CIPHER_CCMP) WLAN_AKM_TYPE_8021X).
Proof.
  refine (parse_wpa_ie_meaning [1; 0] (wpa_oui 2) [wpa_oui 4] [wpa_oui 1] [9] (Build_wpa_out 0 WPA_CIPHER_TKIP 0) _ _ _ _ _ _);
    try done; try (split; [repeat constructor|done]). vm_compute. lia.
Defined.

(** The parser compares the OUI before it looks at the length: an element of
    two bytes is read past its end. *)
Lemma parse_wpa_ie_short_oob out : rtw_parse_wpa_ie [0xdd; 0] 2 out = Oob.
Proof. reflexivity. Qed.
Lemma parse_wpa_akm_in ie pos left out :
  Z.of_nat pos + left ≤ Z.of_nat (length ie) → ∃ r, parse_wpa_akm ie pos left out = Ret r.
Proof.
  intros Hp. unfold parse_wpa_akm. destruct (Z.ltb_spec left 6); [by eexists|].
  rewrite mem_read_ok by lia. by eexists.
Qed.
Lemma parse_wpa_pairwise_in ie pos left out :
  bytes ie → Z.of_nat pos + left ≤ Z.of_nat (length ie) → ∃ r, parse_wpa_pairwise ie pos left out = Ret r.
Proof.
  intros Hb Hp. unfold parse_wpa_pairwise. destruct (Z.leb_spec 2 left).
  - destruct (get_le16_in ie pos) as (c & -> & [Hc _]); [done|lia|]. cbn [cbind].
    destruct (c =? 0); cbn [orb]; [by eexists|]. destruct (Z.ltb_spec (left - 2) (c * 4)); [by eexists|].
    destruct (or_suites_in ie _ Hp rtw_get_wpa_cipher_suite (Z.to_nat c) (pos + 2) out.(pairwise_cipher)) as [v ->]; [lia|].
    apply parse_wpa_akm_in. lia.
  - destruct (left =? 1); [by eexists|]. by apply parse_wpa_akm_in.
Qed.

(** With six bytes or more at the pointer, [rtw_parse_wpa_ie] stays inside
    the element on any bytes. *)
Theorem parse_wpa_ie_safe wpa_ie wpa_ie_len out :
  bytes wpa_ie → Z.max 6 wpa_ie_len ≤ Z.of_nat (length wpa_ie) →
  ∃ r, rtw_parse_wpa_ie wpa_ie wpa_ie_len out = Ret r.
Proof.
  intros Hb Hl. unfold rtw_parse_wpa_ie. destruct (wpa_ie_len <=? 0); [by eexists|].
  destruct (mem_byte_in wpa_ie 0) as (id & -> & _); [done|lia|]. cbn [cbind]. destruct (negb _); [by eexists|].
  destruct (mem_byte_in wpa_ie 1) as (l & -> & _); [done|lia|]. cbn [cbind]. destruct (negb _); [by eexists|].
  rewrite mem_read_ok by lia. cbn [cbind]. destruct (negb _); [by eexists|].
  destruct (Z.leb_spec 4 (wpa_ie_len - 8)).
  - rewrite mem_read_ok by lia. cbn [cbind]. apply parse_wpa_pairwise_in; [done|lia].
  - destruct (0 <? wpa_ie_len - 8); [by eexists|]. apply parse_wpa_pairwise_in; [done|lia].
Qed.
Lemma parse_wpa_ie_safe_witness :
  ∃ r, rtw_parse_wpa_ie [0xdd; 14; 0; 0x50; 0xf2; 1; 1; 0; 0; 0x50; 0xf2; 2; 255; 255; 0; 0] 16 (Build_wpa_out 0 0 0) = Ret r.
Proof. apply parse_wpa_ie_safe; [bytes_lit|vm_compute; discriminate]. Defined.

(** *** Finding the WPA element *)
Definition is_wpa (e : element) : bool :=
  (e.1 =? 0xdd) && bool_decide (take 6 e.2 = RTW_WPA_OUI_TYPE ++ [1; 0]).
(** Vendor elements carry an OUI and a type, WPA elements a version. *)
Definition vendor_ok (e : element) : Prop :=
  e.1 = 0xdd → (4 ≤ length e.2)%nat ∧ (take 4 e.2 = RTW_WPA_OUI_TYPE → (6 ≤ length e.2)%nat).
Fixpoint find_wpa (l : list element) (o : nat) : option (nat * Z) :=
  match l with
  | [] => None
  | e :: l => if is_wpa e then Some (o, Z.of_nat (length e.2)) else find_wpa l (o + length (encode1 e))
  end.

Lemma find_wpa_skip l1 l2 o :
  Forall (λ e, matches 0xdd None e = false) l1 → find_wpa (l1 ++ l2) o = find_wpa l2 (o + length (encode l1)).
Proof.
  intros H. revert o. induction H as [|e l1 He Hl IH]; intros o; cbn [app find_wpa]; [by rewrite Nat.add_0_r|].
  unfold matches in He. rewrite andb_true_r in He. unfold is_wpa at 1. rewrite He. cbn [andb].
  rewrite IH, encode_cons, length_app. f_equal. lia.
Qed.
Lemma le16_1 (b0 b1 : Z) : is_u8 b0 → is_u8 b1 → (u16 ((b1 << 8) .| b0) =? 1) = bool_decide ([b0; b1] = [1; 0]).
Proof.
  intros H0 H1. assert (u16 ((b1 << 8) .| b0) = b1 * 256 + b0) as ->.
  { rewrite <- Z.lxor_lor, <- Z.add_nocarry_lxor by (apply Z.bits_inj'; intros i Hi; rewrite Z.land_spec, Z.bits_0, Z.shiftl_spec by lia;
      destruct (Z.ltb_spec i 8); [rewrite (Z.testbit_neg_r _ (i - 8)) by lia; done|rewrite (uint_testbit 8 b0) by (done || lia); apply andb_false_r]).
    rewrite Z.shiftl_mul_pow2 by lia. apply u16_id. unfold uint in *. lia. }
  unfold uint in *. destruct (Z.eqb_spec (b1 * 256 + b0) 1); [rewrite bool_decide_eq_true_2|rewrite bool_decide_eq_false_2]; try done.
  - f_equal; [lia|f_equal; lia].
  - intros [= -> ->]. lia.
Qed.
(** The check the loop makes of a vendor element. *)
Lemma wpa_check mem off e :
  at_ mem off (encode1 e) → element_ok e → vendor_ok e → e.1 = 0xdd →
  (let* oui := mem_read mem (off + 2) 4 in
   if bool_decide (oui = RTW_WPA_OUI_TYPE) then
     let* val16 := read_le16 mem (off + 6) in Ret (val16 =? 1)
   else Ret false) = Ret (is_wpa e).
Proof.
  intros Ha (_ & Hb & _) Hv He. destruct (Hv He) as [H4 H6]. unfold is_wpa. rewrite He. cbn [andb].
  destruct e as [id d]. unfold encode1 in Ha. cbn [fst snd] in *.
  change (id :: Z.of_nat (length d) :: d) with ([id; Z.of_nat (length d)] ++ d) in Ha.
  apply at_app in Ha as [_ Ha]. cbn [length] in Ha.
  rewrite <- (take_drop 4 d) in Ha. apply at_app in Ha as [Ha1 Ha2].
  assert (length (take 4 d) = 4%nat) as L4 by (rewrite length_take; lia).
  rewrite (at_read4 _ _ _ Ha1 L4). cbn [cbind]. destruct (decide (take 4 d = RTW_WPA_OUI_TYPE)) as [E|E].
  - rewrite bool_decide_eq_true_2 by done. specialize (H6 E). rewrite L4 in Ha2.
    replace (off + 2 + 4)%nat with (off + 6)%nat in Ha2 by lia.
    destruct d as [|d0 [|d1 [|d2 [|d3 [|d4 [|d5 d]]]]]]; cbn [length] in H6; try lia.
    cbn [drop skipn] in Ha2. unfold read_le16. rewrite (at_byte _ _ _ _ Ha2). cbn [cbind].
    change (d4 :: d5 :: d) with ([d4] ++ d5 :: d) in Ha2. apply at_app in Ha2 as [_ Ha2]. cbn [length] in Ha2.
    rewrite (at_byte _ _ _ _ Ha2). cbn [cbind]. 
    rewrite (le16_1 _ _ (Forall_lookup_1 _ _ 4 d4 Hb eq_refl) (Forall_lookup_1 _ _ 5 d5 Hb eq_refl)).
    cbn in E. injection E as -> -> -> ->. do 2 f_equal. apply bool_decide_ext. cbn. split; [intros [= -> ->]|intros [= -> ->]]; done.
  - rewrite !bool_decide_eq_false_2; [done| |done].
    intros E'. apply E. apply (f_equal (take 4)) in E'. by rewrite take_take in E'.
Qed.

Lemma cbind_assoc {A B C} (m : cres A) (f : A → cres B) (g : B → cres C) :
  (let* a := m in let* b := f a in g b) = (let* b := (let* a := m in f a) in g b).
Proof. by destruct m. Qed.

Lemma get_wpa_ie_loop_encode : ∀ fuel l pre rest mem,
  mem = pre ++ encode l ++ rest → l ≠ [] → Forall element_ok l → Forall vendor_ok l → (length l ≤ fuel)%nat →
  get_wpa_ie_loop fuel mem (Z.of_nat (length pre + length (encode l))) (length pre) (Z.of_nat (length (encode l))) =
    Ret (find_wpa l (length pre)).
Proof.
  induction fuel as [|fuel IH]; intros l pre rest mem Hm Hne Hok Hv Hf; [destruct l; [done|cbn in Hf; lia]|].
  cbn [get_wpa_ie_loop]. rewrite Hm at 1. rewrite drop_app_length, get_ie_encode by done. cbn [cbind].
  pose proof (find_element_first 0xdd None l 0) as F. destruct (find_element 0xdd None l 0) as [[o n]|]; cbn [option_fmap fmap option_map].
  2: { destruct F as [_ F]. rewrite <- (app_nil_r l), find_wpa_skip by done. done. }
  destruct F as (l1 & e & l2 & -> & H1 & H2 & -> & ->).
  unfold matches in H2. rewrite andb_true_r in H2. apply Z.eqb_eq in H2.
  apply Forall_app in Hok as [_ Hok]. apply Forall_cons_iff in Hok as [He Hok].
  apply Forall_app in Hv as [_ Hv]. apply Forall_cons_iff in Hv as [Hve Hv].
  rewrite encode_app, encode_cons in Hm |- *. rewrite !length_app.
  replace (length pre + (0 + length (encode l1)))%nat with (length (pre ++ encode l1)) by (rewrite length_app; lia).
  rewrite cbind_assoc, (wpa_check mem _ e) by
    (done || (exists (pre ++ encode l1), (encode l2 ++ rest); by rewrite Hm, <- !app_assoc)).
  cbn [cbind]. rewrite find_wpa_skip by done. cbn [find_wpa]. rewrite !length_encode1.
  destruct (is_wpa e); [rewrite length_app; do 3 f_equal; lia|].
  destruct (decide (l2 = [])) as [->|Hne2].
  - rewrite (proj2 (Z.leb_le _ _)) by (rewrite length_app; cbn [encode map concat length]; lia). done.
  - pose proof (length_encode_ge l2). assert (0 < length l2)%nat by (destruct l2; [done|cbn; lia]).
    rewrite (proj2 (Z.leb_gt _ _)) by (rewrite length_app; lia).
    specialize (IH l2 ((pre ++ encode l1) ++ encode1 e) rest mem).
    rewrite !length_app, length_encode1 in *.
    replace (Z.to_nat (2 + (Z.of_nat (length e.2 + 2) - 2))) with (length e.2 + 2)%nat by lia.
    rewrite <- IH; [f_equal; lia|by rewrite Hm, <- !app_assoc|done|done|done|cbn [length] in Hf; lia].
Qed.

(** [rtw_get_wpa_ie] walks over the vendor elements and gives the first
    WPA element, OUI, type and version 1, or nothing when there is none. *)
Theorem get_wpa_ie_first l rest :
  l ≠ [] → Forall element_ok l → Forall vendor_ok l →
  rtw_get_wpa_ie (encode l ++ rest) (Z.of_nat (length (encode l))) = Ret (find_wpa l 0).
Proof.
  intros Hne Hok Hv. unfold rtw_get_wpa_ie. rewrite Nat2Z.id. pose proof (length_encode_ge l).
  apply (get_wpa_ie_loop_encode _ l [] rest); [done|done|done|done|lia].
Qed.
Lemma get_wpa_ie_first_witness :
  rtw_get_wpa_ie [0xdd; 4; 0; 0x50; 0xf2; 2; 48; 0; 0xdd; 6; 0; 0x50; 0xf2; 1; 1; 0; 3; 0; 99] 18 = Ret (Some (8%nat, 6)).
Proof.
  apply (get_wpa_ie_first [(0xdd, wpa_oui 2); (48, []); (0xdd, wpa_oui 1 ++ [1; 0]); (3, [])] [99]).
  - done.
  - repeat constructor; discriminate || (cbn; lia).
  - repeat (apply Forall_cons; [split; cbn; lia || discriminate|]). apply Forall_nil; exact I.
Defined.
