(* ===== verification/PwrSeq.v ===== *)
(** * Power sequences: [halmac_common_88xx.c], [halmac_pwr_seq_8822b.c]

    The card is switched on and off by tables of commands, which
    [pwr_seq_parser_88xx] interprets: masked register writes, polling, delays.
    The registers and the clock belong to the device.  They are an interface,
    [Hardware], and the theorems hold for every implementation of it: a device
    may change a register at any time. *)
From S2P Require Import Prelude.

(** ** The device *)
Class Hardware (S : Type) := {
  hw_r8 : Z → S → Z * S;
  hw_r16 : Z → S → Z * S;
  hw_w8 : Z → Z → S → S;
  hw_delay_us : Z → S → S
}.
(** [HALMAC_REG_R8] returns a [u8], [HALMAC_REG_R16] a [u16], [HALMAC_REG_W8]
    takes a [u8]. *)
Definition HALMAC_REG_R8 {S} `{Hardware S} (offset : Z) (s : S) : Z * S :=
  let '(v, s) := hw_r8 offset s in (u8 v, s).
Definition HALMAC_REG_R16 {S} `{Hardware S} (offset : Z) (s : S) : Z * S :=
  let '(v, s) := hw_r16 offset s in (u16 v, s).
Definition HALMAC_REG_W8 {S} `{Hardware S} (offset v : Z) (s : S) : S := hw_w8 offset (u8 v) s.
Definition HALMAC_REG_W8_CLR {S} `{Hardware S} (offset mask : Z) (s : S) : S :=
  let '(v, s) := HALMAC_REG_R8 offset s in HALMAC_REG_W8 offset (v .& Z.lnot mask) s.

(** ** Commands *)
Definition CMD_READ : Z := 0x00.
Definition CMD_WRITE : Z := 0x01.
Definition CMD_POLLING : Z := 0x02.
Definition CMD_DELAY : Z := 0x03.
Definition CMD_END : Z := 0x04.
Definition ADDR_MAC : Z := 0x00.
Definition ADDR_SDIO : Z := 0x03.
Definition INTF_SDIO_MSK : Z := BIT 0.
Definition INTF_USB_MSK : Z := BIT 1.
Definition INTF_PCI_MSK : Z := BIT 2.
Definition INTF_ALL_MSK : Z := BIT 0 .| BIT 1 .| BIT 2 .| BIT 3.
Definition CUT_TESTCHIP_MSK : Z := BIT 0.
Definition CUT_A_MSK : Z := BIT 1.
Definition CUT_B_MSK : Z := BIT 2.
Definition CUT_C_MSK : Z := BIT 3.
Definition CUT_D_MSK : Z := BIT 4.
Definition CUT_E_MSK : Z := BIT 5.
Definition CUT_F_MSK : Z := BIT 6.
Definition CUT_ALL_MSK : Z := 0xFF.
Definition DELAY_US : Z := 0.
Definition DELAY_MS : Z := 1.
Definition HALMAC_PWR_POLLING_CNT : Z := 20000.
Definition SDIO_LOCAL_OFFSET : Z := 0x10250000.
Definition REG_SYS_PW_CTRL : Z := 0x0004.
Definition REG_MCUFW_CTRL : Z := 0x0080.
Definition REG_SYS_STATUS1 : Z := 0x00F4.
Definition REG_CR : Z := 0x0100.
Definition REG_SW_MDIO : Z := 0x10C0.

Record halmac_wlan_pwr_cfg := pwr {
  offset : Z; cut_msk : Z; interface_msk : Z; base : Z; cmd : Z; msk : Z; value : Z
}.

Inductive halmac_interface :=
  HALMAC_INTERFACE_PCIE | HALMAC_INTERFACE_USB | HALMAC_INTERFACE_SDIO | HALMAC_INTERFACE_AXI | HALMAC_INTERFACE_UNDEFINE.
#[export] Instance halmac_interface_eq_dec : EqDecision halmac_interface.
Proof. solve_decision. Defined.

Inductive halmac_ret_status :=
  | HALMAC_RET_SUCCESS
  | HALMAC_RET_POWER_ON_FAIL
  | HALMAC_RET_POWER_OFF_FAIL
  | HALMAC_RET_PWRSEQ_POLLING_FAIL
  | HALMAC_RET_PWRSEQ_CMD_INCORRECT
  | HALMAC_RET_SWITCH_CASE_ERROR
  | HALMAC_RET_PWR_UNCHANGE.
#[export] Instance halmac_ret_status_eq_dec : EqDecision halmac_ret_status.
Proof. solve_decision. Defined.

(** ** The tables of the 8822B *)
Definition TRANS_CARDDIS_TO_CARDEMU_8822B : list halmac_wlan_pwr_cfg := [
  pwr 0x0086 CUT_ALL_MSK INTF_SDIO_MSK ADDR_SDIO CMD_WRITE (BIT 0) 0;
  pwr 0x0086 CUT_ALL_MSK INTF_SDIO_MSK ADDR_SDIO CMD_POLLING (BIT 1) (BIT 1);
  pwr 0x004A CUT_ALL_MSK INTF_USB_MSK ADDR_MAC CMD_WRITE (BIT 0) 0;
  pwr 0x0005 CUT_ALL_MSK INTF_ALL_MSK ADDR_MAC CMD_WRITE (BIT 3 .| BIT 4 .| BIT 7) 0;
  pwr 0x0300 CUT_ALL_MSK INTF_PCI_MSK ADDR_MAC CMD_WRITE 0xFF 0;
  pwr 0x0301 CUT_ALL_MSK INTF_PCI_MSK ADDR_MAC CMD_WRITE 0xFF 0;
  pwr 0xFFFF CUT_ALL_MSK INTF_ALL_MSK 0 CMD_END 0 0].
Definition TRANS_CARDEMU_TO_ACT_8822B : list halmac_wlan_pwr_cfg := [
  pwr 0xFF0A CUT_ALL_MSK INTF_USB_MSK ADDR_MAC CMD_WRITE 0xFF 0;
  pwr 0xFF0B CUT_ALL_MSK INTF_USB_MSK ADDR_MAC CMD_WRITE 0xFF 0;
  pwr 0x0012 CUT_ALL_MSK INTF_ALL_MSK ADDR_MAC CMD_WRITE (BIT 1) 0;
  pwr 0x0012 CUT_ALL_MSK INTF_ALL_MSK ADDR_MAC CMD_WRITE (BIT 0) (BIT 0);
  pwr 0x0020 CUT_ALL_MSK (INTF_USB_MSK .| INTF_SDIO_MSK) ADDR_MAC CMD_WRITE (BIT 0) (BIT 0);
  pwr 0x0001 CUT_ALL_MSK (INTF_USB_MSK .| INTF_SDIO_MSK) ADDR_MAC CMD_DELAY 1 DELAY_MS;
  pwr 0x0000 CUT_ALL_MSK (INTF_USB_MSK .| INTF_SDIO_MSK) ADDR_MAC CMD_WRITE (BIT 5) 0;
  pwr 0x0005 CUT_ALL_MSK INTF_ALL_MSK ADDR_MAC CMD_WRITE (BIT 4 .| BIT 3 .| BIT 2) 0;
  pwr 0x0075 CUT_ALL_MSK INTF_PCI_MSK ADDR_MAC CMD_WRITE (BIT 0) (BIT 0);
  pwr 0x0006 CUT_ALL_MSK INTF_ALL_MSK ADDR_MAC CMD_POLLING (BIT 1) (BIT 1);
  pwr 0x0075 CUT_ALL_MSK INTF_PCI_MSK ADDR_MAC CMD_WRITE (BIT 0) 0;
  pwr 0xFF1A CUT_ALL_MSK INTF_USB_MSK ADDR_MAC CMD_WRITE 0xFF 0;
  pwr 0x0006 CUT_ALL_MSK INTF_ALL_MSK ADDR_MAC CMD_WRITE (BIT 0) (BIT 0);
  pwr 0x0005 CUT_ALL_MSK INTF_ALL_MSK ADDR_MAC CMD_WRITE (BIT 7) 0;
  pwr 0x0005 CUT_ALL_MSK INTF_ALL_MSK ADDR_MAC CMD_WRITE (BIT 4 .| BIT 3) 0;
  pwr 0x10C3 CUT_ALL_MSK INTF_USB_MSK ADDR_MAC CMD_WRITE (BIT 0) (BIT 0);
  pwr 0x0005 CUT_ALL_MSK INTF_ALL_MSK ADDR_MAC CMD_WRITE (BIT 0) (BIT 0);
  pwr 0x0005 CUT_ALL_MSK INTF_ALL_MSK ADDR_MAC CMD_POLLING (BIT 0) 0;
  pwr 0x0020 CUT_ALL_MSK INTF_ALL_MSK ADDR_MAC CMD_WRITE (BIT 3) (BIT 3);
  pwr 0x10A8 CUT_C_MSK INTF_ALL_MSK ADDR_MAC CMD_WRITE 0xFF 0;
  pwr 0x10A9 CUT_C_MSK INTF_ALL_MSK ADDR_MAC CMD_WRITE 0xFF 0xef;
  pwr 0x10AA CUT_C_MSK INTF_ALL_MSK ADDR_MAC CMD_WRITE 0xFF 0x0c;
  pwr 0x0068 CUT_C_MSK INTF_SDIO_MSK ADDR_MAC CMD_WRITE (BIT 4) (BIT 4);
  pwr 0x0029 CUT_ALL_MSK INTF_ALL_MSK ADDR_MAC CMD_WRITE 0xFF 0xF9;
  pwr 0x0024 CUT_ALL_MSK INTF_ALL_MSK ADDR_MAC CMD_WRITE (BIT 2) 0;
  pwr 0x0074 CUT_ALL_MSK INTF_PCI_MSK ADDR_MAC CMD_WRITE (BIT 5) (BIT 5);
  pwr 0x00AF CUT_ALL_MSK INTF_ALL_MSK ADDR_MAC CMD_WRITE (BIT 5) (BIT 5);
  pwr 0xFFFF CUT_ALL_MSK INTF_ALL_MSK 0 CMD_END 0 0].
Definition TRANS_ACT_TO_CARDEMU_8822B : list halmac_wlan_pwr_cfg := [
  pwr 0x0003 CUT_ALL_MSK INTF_SDIO_MSK ADDR_MAC CMD_WRITE (BIT 2) 0;
  pwr 0x0093 CUT_ALL_MSK INTF_ALL_MSK ADDR_MAC CMD_WRITE 0xFF 0xC4;
  pwr 0x001F CUT_ALL_MSK INTF_ALL_MSK ADDR_MAC CMD_WRITE 0xFF 0;
  pwr 0x00EF CUT_ALL_MSK INTF_ALL_MSK ADDR_MAC CMD_WRITE 0xFF 0;
  pwr 0xFF1A CUT_ALL_MSK INTF_USB_MSK ADDR_MAC CMD_WRITE 0xFF 0x30;
  pwr 0x0049 CUT_ALL_MSK INTF_ALL_MSK ADDR_MAC CMD_WRITE (BIT 1) 0;
  pwr 0x0006 CUT_ALL_MSK INTF_ALL_MSK ADDR_MAC CMD_WRITE (BIT 0) (BIT 0);
  pwr 0x0002 CUT_ALL_MSK INTF_ALL_MSK ADDR_MAC CMD_WRITE (BIT 1) 0;
  pwr 0x10C3 CUT_ALL_MSK INTF_USB_MSK ADDR_MAC CMD_WRITE (BIT 0) 0;
  pwr 0x0005 CUT_ALL_MSK INTF_ALL_MSK ADDR_MAC CMD_WRITE (BIT 1) (BIT 1);
  pwr 0x0005 CUT_ALL_MSK INTF_ALL_MSK ADDR_MAC CMD_POLLING (BIT 1) 0;
  pwr 0x0020 CUT_ALL_MSK INTF_ALL_MSK ADDR_MAC CMD_WRITE (BIT 3) 0;
  pwr 0x0000 CUT_ALL_MSK (INTF_USB_MSK .| INTF_SDIO_MSK) ADDR_MAC CMD_WRITE (BIT 5) (BIT 5);
  pwr 0xFFFF CUT_ALL_MSK INTF_ALL_MSK 0 CMD_END 0 0].
Definition TRANS_CARDEMU_TO_CARDDIS_8822B : list halmac_wlan_pwr_cfg := [
  pwr 0x0005 CUT_ALL_MSK INTF_SDIO_MSK ADDR_MAC CMD_WRITE (BIT 7) (BIT 7);
  pwr 0x0007 CUT_ALL_MSK (INTF_USB_MSK .| INTF_SDIO_MSK) ADDR_MAC CMD_WRITE 0xFF 0x20;
  pwr 0x0067 CUT_ALL_MSK INTF_ALL_MSK ADDR_MAC CMD_WRITE (BIT 5) 0;
  pwr 0x0005 CUT_ALL_MSK INTF_PCI_MSK ADDR_MAC CMD_WRITE (BIT 2) (BIT 2);
  pwr 0x004A CUT_ALL_MSK INTF_USB_MSK ADDR_MAC CMD_WRITE (BIT 0) 0;
  pwr 0x0067 CUT_ALL_MSK INTF_SDIO_MSK ADDR_MAC CMD_WRITE (BIT 5) 0;
  pwr 0x0067 CUT_ALL_MSK INTF_SDIO_MSK ADDR_MAC CMD_WRITE (BIT 4) 0;
  pwr 0x004F CUT_ALL_MSK INTF_SDIO_MSK ADDR_MAC CMD_WRITE (BIT 0) 0;
  pwr 0x0067 CUT_ALL_MSK INTF_SDIO_MSK ADDR_MAC CMD_WRITE (BIT 1) 0;
  pwr 0x0046 CUT_ALL_MSK INTF_SDIO_MSK ADDR_MAC CMD_WRITE (BIT 6) (BIT 6);
  pwr 0x0067 CUT_ALL_MSK INTF_SDIO_MSK ADDR_MAC CMD_WRITE (BIT 2) 0;
  pwr 0x0046 CUT_ALL_MSK INTF_SDIO_MSK ADDR_MAC CMD_WRITE (BIT 7) (BIT 7);
  pwr 0x0062 CUT_ALL_MSK INTF_SDIO_MSK ADDR_MAC CMD_WRITE (BIT 4) (BIT 4);
  pwr 0x0081 CUT_ALL_MSK INTF_ALL_MSK ADDR_MAC CMD_WRITE (BIT 7 .| BIT 6) 0;
  pwr 0x0005 CUT_ALL_MSK (INTF_USB_MSK .| INTF_SDIO_MSK) ADDR_MAC CMD_WRITE (BIT 3 .| BIT 4) (BIT 3);
  pwr 0x0086 CUT_ALL_MSK INTF_SDIO_MSK ADDR_SDIO CMD_WRITE (BIT 0) (BIT 0);
  pwr 0x0086 CUT_ALL_MSK INTF_SDIO_MSK ADDR_SDIO CMD_POLLING (BIT 1) 0;
  pwr 0x0090 CUT_ALL_MSK (INTF_USB_MSK .| INTF_PCI_MSK) ADDR_MAC CMD_WRITE (BIT 1) 0;
  pwr 0x0044 CUT_ALL_MSK INTF_SDIO_MSK ADDR_SDIO CMD_WRITE 0xFF 0;
  pwr 0x0040 CUT_ALL_MSK INTF_SDIO_MSK ADDR_SDIO CMD_WRITE 0xFF 0x90;
  pwr 0x0041 CUT_ALL_MSK INTF_SDIO_MSK ADDR_SDIO CMD_WRITE 0xFF 0x00;
  pwr 0x0042 CUT_ALL_MSK INTF_SDIO_MSK ADDR_SDIO CMD_WRITE 0xFF 0x04;
  pwr 0xFFFF CUT_ALL_MSK INTF_ALL_MSK 0 CMD_END 0 0].

Definition card_en_flow_8822b : list (list halmac_wlan_pwr_cfg) :=
  [TRANS_CARDDIS_TO_CARDEMU_8822B; TRANS_CARDEMU_TO_ACT_8822B].
Definition card_dis_flow_8822b : list (list halmac_wlan_pwr_cfg) :=
  [TRANS_ACT_TO_CARDEMU_8822B; TRANS_CARDEMU_TO_CARDDIS_8822B].

(** ** The adapter *)

(** [adapter->chip_ver], with every other value as [CHIP_VER_OTHER]. *)
Inductive halmac_chip_ver :=
  | CHIP_VER_A_CUT | CHIP_VER_B_CUT | CHIP_VER_C_CUT | CHIP_VER_D_CUT | CHIP_VER_E_CUT | CHIP_VER_F_CUT
  | CHIP_VER_TEST | CHIP_VER_OTHER.
Definition cut_of (v : halmac_chip_ver) : option Z :=
  match v with
  | CHIP_VER_A_CUT => Some CUT_A_MSK | CHIP_VER_B_CUT => Some CUT_B_MSK | CHIP_VER_C_CUT => Some CUT_C_MSK
  | CHIP_VER_D_CUT => Some CUT_D_MSK | CHIP_VER_E_CUT => Some CUT_E_MSK | CHIP_VER_F_CUT => Some CUT_F_MSK
  | CHIP_VER_TEST => Some CUT_TESTCHIP_MSK
  | CHIP_VER_OTHER => None
  end.
Definition intf_of (i : halmac_interface) : option Z :=
  match i with
  | HALMAC_INTERFACE_PCIE | HALMAC_INTERFACE_AXI => Some INTF_PCI_MSK
  | HALMAC_INTERFACE_USB => Some INTF_USB_MSK
  | HALMAC_INTERFACE_SDIO => Some INTF_SDIO_MSK
  | HALMAC_INTERFACE_UNDEFINE => None
  end.

Inductive halmac_mac_power := HALMAC_MAC_POWER_OFF | HALMAC_MAC_POWER_ON | HALMAC_MAC_POWER_UNDEFINE.
#[export] Instance halmac_mac_power_eq_dec : EqDecision halmac_mac_power.
Proof. solve_decision. Defined.
(** The part of [struct halmac_adapter] the function touches;
    [dlfw_none] is [dlfw_state == HALMAC_DLFW_NONE]. *)
Record halmac_adapter := {
  chip_ver : halmac_chip_ver;
  intf : halmac_interface;
  rpwm : Z;
  mac_pwr : halmac_mac_power;
  dlfw_none : bool;
  h2c_seq_num : Z;
  h2c_buf_fs : Z
}.
Definition set_mac_pwr (p : halmac_mac_power) (a : halmac_adapter) : halmac_adapter :=
  Build_halmac_adapter a.(chip_ver) a.(intf) a.(rpwm) p a.(dlfw_none) a.(h2c_seq_num) a.(h2c_buf_fs).
Definition init_adapter_dynamic_param_88xx (a : halmac_adapter) : halmac_adapter :=
  Build_halmac_adapter a.(chip_ver) a.(intf) a.(rpwm) a.(mac_pwr) a.(dlfw_none) 0 0.

(** ** The interpreter

    [None] is a loop that has not ended within the fuel, [Some Oob] a walk past
    the end of a table. *)
Section interpreter.
Context {S : Type} `{Hardware S}.

Definition cmd_offset (c : halmac_wlan_pwr_cfg) : Z :=
  if c.(base) =? ADDR_SDIO then c.(offset) .| SDIO_LOCAL_OFFSET else c.(offset).

(** The loop of [pwr_cmd_polling_88xx]; [cnt] is the [u32] counter. *)
Fixpoint polling_loop (fuel : nat) (intf : halmac_interface) (c : halmac_wlan_pwr_cfg) (cnt : Z) (flg : bool) (s : S)
    : option (halmac_ret_status * S) :=
  match fuel with
  | O => None
  | Datatypes.S fuel =>
      let cnt := u32 (cnt - 1) in
      let '(v, s) := HALMAC_REG_R8 (cmd_offset c) s in
      if u8 (v .& c.(msk)) =? c.(value) .& c.(msk) then Some (HALMAC_RET_SUCCESS, s)
      else if cnt =? 0 then
        if bool_decide (intf = HALMAC_INTERFACE_PCIE) && negb flg then
          let '(v, s) := HALMAC_REG_R8 REG_SYS_PW_CTRL s in
          let v := u8 (v .| BIT 3) in
          let s := HALMAC_REG_W8 REG_SYS_PW_CTRL v s in
          let v := u8 (v .& Z.lnot (BIT 3)) in
          let s := HALMAC_REG_W8 REG_SYS_PW_CTRL v s in
          polling_loop fuel intf c HALMAC_PWR_POLLING_CNT true s
        else Some (HALMAC_RET_PWRSEQ_POLLING_FAIL, s)
      else polling_loop fuel intf c cnt flg (hw_delay_us 50 s)
  end.
(** Twice the counter is enough: the counter is reloaded at most once. *)
Definition polling_fuel : nat := Z.to_nat (2 * HALMAC_PWR_POLLING_CNT).
Definition pwr_cmd_polling_88xx (intf : halmac_interface) (c : halmac_wlan_pwr_cfg) (s : S)
    : option (halmac_ret_status * S) :=
  polling_loop polling_fuel intf c HALMAC_PWR_POLLING_CNT false s.

(** The byte a write command stores. *)
Definition write_value (c : halmac_wlan_pwr_cfg) (v : Z) : Z :=
  u8 (u8 (v .& u8 (Z.lnot c.(msk))) .| (c.(value) .& c.(msk))).
Definition selected (cut intf : Z) (c : halmac_wlan_pwr_cfg) : bool :=
  negb (c.(interface_msk) .& intf =? 0) && negb (c.(cut_msk) .& cut =? 0).

(** The loop has no other end than a command: a table without one, or without
    one for the chip's cut and interface, is read beyond its array, which is
    [Oob] here. *)
Fixpoint pwr_sub_seq_parser_88xx (itf : halmac_interface) (cut intf : Z) (cmds : list halmac_wlan_pwr_cfg) (s : S)
    : option (cres (halmac_ret_status * S)) :=
  match cmds with
  | [] => Some Oob
  | c :: cmds =>
      if selected cut intf c then
        if c.(cmd) =? CMD_WRITE then
          let '(v, s) := HALMAC_REG_R8 (cmd_offset c) s in
          pwr_sub_seq_parser_88xx itf cut intf cmds (HALMAC_REG_W8 (cmd_offset c) (write_value c v) s)
        else if c.(cmd) =? CMD_POLLING then
          '(r, s) ← pwr_cmd_polling_88xx itf c s;
          if bool_decide (r = HALMAC_RET_SUCCESS) then pwr_sub_seq_parser_88xx itf cut intf cmds s
          else Some (Ret (HALMAC_RET_PWRSEQ_POLLING_FAIL, s))
        else if c.(cmd) =? CMD_DELAY then
          pwr_sub_seq_parser_88xx itf cut intf cmds
            (hw_delay_us (if c.(value) =? DELAY_US then c.(offset) else 1000 * c.(offset)) s)
        else if c.(cmd) =? CMD_READ then pwr_sub_seq_parser_88xx itf cut intf cmds s
        else if c.(cmd) =? CMD_END then Some (Ret (HALMAC_RET_SUCCESS, s))
        else Some (Ret (HALMAC_RET_PWRSEQ_CMD_INCORRECT, s))
      else pwr_sub_seq_parser_88xx itf cut intf cmds s
  end.

Fixpoint seq_loop (itf : halmac_interface) (cut intf : Z) (cmd_seq : list (list halmac_wlan_pwr_cfg)) (s : S)
    : option (cres (halmac_ret_status * S)) :=
  match cmd_seq with
  | [] => Some (Ret (HALMAC_RET_SUCCESS, s))
  | cmds :: cmd_seq =>
      r ← pwr_sub_seq_parser_88xx itf cut intf cmds s;
      match r with
      | Ret (HALMAC_RET_SUCCESS, s) => seq_loop itf cut intf cmd_seq s
      | r => Some r
      end
  end.
(** The array of tables ends with [NULL], here with the end of the list. *)
Definition pwr_seq_parser_88xx (ver : halmac_chip_ver) (itf : halmac_interface)
    (cmd_seq : list (list halmac_wlan_pwr_cfg)) (s : S) : option (cres (halmac_ret_status * S)) :=
  match cut_of ver with
  | None => Some (Ret (HALMAC_RET_SWITCH_CASE_ERROR, s))
  | Some cut =>
      match intf_of itf with
      | None => Some (Ret (HALMAC_RET_SWITCH_CASE_ERROR, s))
      | Some intf => seq_loop itf cut intf cmd_seq s
      end
  end.

(** ** [mac_pwr_switch_usb_8822b] *)
(** The power state the registers show, read into [halmac_state.mac_pwr]. *)
Definition sense_power (a : halmac_adapter) (s : S) : halmac_adapter * S :=
  let '(value8, s) := HALMAC_REG_R8 REG_CR s in
  if value8 =? 0xEA then (set_mac_pwr HALMAC_MAC_POWER_OFF a, s)
  else
    let '(v, s) := HALMAC_REG_R8 (REG_SYS_STATUS1 + 1) s in
    (set_mac_pwr (if BIT 0 =? v .& BIT 0 then HALMAC_MAC_POWER_OFF else HALMAC_MAC_POWER_ON) a, s).
Definition mac_pwr_switch_usb_8822b (p : halmac_mac_power) (a : halmac_adapter) (s : S)
    : option (cres (halmac_ret_status * halmac_adapter * S)) :=
  let '(r, s) := HALMAC_REG_R8 0xFE58 s in
  let a := Build_halmac_adapter a.(chip_ver) a.(intf) r a.(mac_pwr) a.(dlfw_none) a.(h2c_seq_num) a.(h2c_buf_fs) in
  let '(fw, s) := HALMAC_REG_R16 REG_MCUFW_CTRL s in
  let s := if fw =? 0xC078 then HALMAC_REG_W8 0xFE58 (u8 ((a.(rpwm) ⊕ BIT 7) .& 0x80)) s else s in
  let '(a, s) := sense_power a s in
  if bool_decide (p = HALMAC_MAC_POWER_ON) && bool_decide (a.(mac_pwr) = HALMAC_MAC_POWER_ON)
  then Some (Ret (HALMAC_RET_PWR_UNCHANGE, a, s))
  else if bool_decide (p = HALMAC_MAC_POWER_OFF) then
    r ← pwr_seq_parser_88xx a.(chip_ver) a.(intf) card_dis_flow_8822b s;
    Some (let* (st, s) := r in
      if bool_decide (st = HALMAC_RET_SUCCESS) then
        let a := set_mac_pwr HALMAC_MAC_POWER_OFF a in
        let a := Build_halmac_adapter a.(chip_ver) a.(intf) a.(rpwm) a.(mac_pwr) true a.(h2c_seq_num) a.(h2c_buf_fs) in
        Ret (HALMAC_RET_SUCCESS, init_adapter_dynamic_param_88xx a, s)
      else Ret (HALMAC_RET_POWER_OFF_FAIL, a, s))
  else
    r ← pwr_seq_parser_88xx a.(chip_ver) a.(intf) card_en_flow_8822b s;
    Some (let* (st, s) := r in
      if bool_decide (st = HALMAC_RET_SUCCESS) then
        let s := HALMAC_REG_W8_CLR (REG_SYS_STATUS1 + 1) (BIT 0) s in
        let '(_, s) := HALMAC_REG_R8 (REG_SW_MDIO + 3) s in
        Ret (HALMAC_RET_SUCCESS, set_mac_pwr HALMAC_MAC_POWER_ON a, s)
      else Ret (HALMAC_RET_POWER_ON_FAIL, a, s)).
End interpreter.

(** ** What a sequence does to the device

    A device that records the accesses. *)
Inductive event :=
  | EvR8 (off v : Z)
  | EvR16 (off v : Z)
  | EvW8 (off v : Z)
  | EvDelay (us : Z).

#[export] Instance traced {S} `{Hardware S} : Hardware (S * list event) := {|
  hw_r8 o st := let '(v, s) := hw_r8 o st.1 in (v, (s, st.2 ++ [EvR8 o (u8 v)]));
  hw_r16 o st := let '(v, s) := hw_r16 o st.1 in (v, (s, st.2 ++ [EvR16 o (u16 v)]));
  hw_w8 o v st := (hw_w8 o v st.1, st.2 ++ [EvW8 o v]);
  hw_delay_us us st := (hw_delay_us us st.1, st.2 ++ [EvDelay us])
|}.

(** The documented meaning of the commands, as in [halmac_pwr_seq_cmd.h]: a
    write replaces the bits of the mask, polling reads until the bits of the
    mask have the value, with a delay of 50 microseconds in between, and gives
    up after [HALMAC_PWR_POLLING_CNT] reads. *)
Definition hit (c : halmac_wlan_pwr_cfg) (v : Z) : Prop := v .& c.(msk) = c.(value) .& c.(msk).
Definition masked_write (c : halmac_wlan_pwr_cfg) (v w : Z) : Prop :=
  is_u8 w ∧ ∀ i, 0 ≤ i < 8 → Z.testbit w i = if Z.testbit c.(msk) i then Z.testbit c.(value) i else Z.testbit v i.
Definition waits (c : halmac_wlan_pwr_cfg) (vs : list Z) : list event :=
  concat (map (λ v, [EvR8 (cmd_offset c) v; EvDelay 50]) vs).

Inductive runs (cut intf : Z) : list halmac_wlan_pwr_cfg → list event → halmac_ret_status → Prop :=
  | runs_skip c cmds tr r :
      selected cut intf c = false → runs cut intf cmds tr r → runs cut intf (c :: cmds) tr r
  | runs_write c cmds v w tr r :
      selected cut intf c = true → c.(cmd) = CMD_WRITE → masked_write c v w → runs cut intf cmds tr r →
      runs cut intf (c :: cmds) (EvR8 (cmd_offset c) v :: EvW8 (cmd_offset c) w :: tr) r
  | runs_poll c cmds vs v tr r :
      selected cut intf c = true → c.(cmd) = CMD_POLLING → Forall (λ v, ¬ hit c v) vs → hit c v →
      Z.of_nat (length vs) < HALMAC_PWR_POLLING_CNT → runs cut intf cmds tr r →
      runs cut intf (c :: cmds) (waits c vs ++ EvR8 (cmd_offset c) v :: tr) r
  | runs_poll_fail c cmds vs v :
      selected cut intf c = true → c.(cmd) = CMD_POLLING → Forall (λ v, ¬ hit c v) (vs ++ [v]) →
      Z.of_nat (length (vs ++ [v])) = HALMAC_PWR_POLLING_CNT →
      runs cut intf (c :: cmds) (waits c vs ++ [EvR8 (cmd_offset c) v]) HALMAC_RET_PWRSEQ_POLLING_FAIL
  | runs_delay c cmds tr r :
      selected cut intf c = true → c.(cmd) = CMD_DELAY → runs cut intf cmds tr r →
      runs cut intf (c :: cmds) (EvDelay (if c.(value) =? DELAY_US then c.(offset) else 1000 * c.(offset)) :: tr) r
  | runs_read c cmds tr r :
      selected cut intf c = true → c.(cmd) = CMD_READ → runs cut intf cmds tr r → runs cut intf (c :: cmds) tr r
  | runs_end c cmds :
      selected cut intf c = true → c.(cmd) = CMD_END → runs cut intf (c :: cmds) [] HALMAC_RET_SUCCESS.

Inductive flow_runs (cut intf : Z) : list (list halmac_wlan_pwr_cfg) → list event → halmac_ret_status → Prop :=
  | flow_nil : flow_runs cut intf [] [] HALMAC_RET_SUCCESS
  | flow_next t flow tr tr' r :
      runs cut intf t tr HALMAC_RET_SUCCESS → flow_runs cut intf flow tr' r →
      flow_runs cut intf (t :: flow) (tr ++ tr') r
  | flow_fail t flow tr r :
      runs cut intf t tr r → r ≠ HALMAC_RET_SUCCESS → flow_runs cut intf (t :: flow) tr r.

(** The table has known commands only, byte-wide, and an end the interpreter
    reaches. *)
Fixpoint table_ok (cut intf : Z) (cmds : list halmac_wlan_pwr_cfg) : bool :=
  match cmds with
  | [] => false
  | c :: cmds =>
      (0 <=? c.(msk)) && (c.(msk) <? 256) && (0 <=? c.(value)) && (c.(value) <? 256) &&
      if selected cut intf c then
        (c.(cmd) =? CMD_END) ||
        ((c.(cmd) =? CMD_WRITE) || (c.(cmd) =? CMD_POLLING) || (c.(cmd) =? CMD_DELAY) || (c.(cmd) =? CMD_READ)) &&
        table_ok cut intf cmds
      else table_ok cut intf cmds
  end.

(** *** Single accesses *)
Lemma write_value_masked c v :
  is_u8 v → is_u8 c.(msk) → is_u8 c.(value) → masked_write c v (write_value c v).
Proof.
  intros Hv Hm Hx. split; [apply u8_uint|]. intros i Hi. unfold write_value, u8.
  change 0xff with (Z.ones 8).
  repeat (rewrite ?Z.land_spec, ?Z.lor_spec, ?Z.lnot_spec, ?Z.testbit_ones_nonneg by lia).
  rewrite (proj2 (Z.ltb_lt i 8)) by lia.
  destruct (Z.testbit c.(msk) i), (Z.testbit c.(value) i), (Z.testbit v i); reflexivity.
Qed.
Lemma hit_spec c v :
  is_u8 v → (u8 (v .& c.(msk)) =? c.(value) .& c.(msk)) = true ↔ hit c v.
Proof. intros Hv. unfold hit. rewrite u8_id by auto with machine. apply Z.eqb_eq. Qed.
Lemma traced_r8 {S} `{Hardware S} o (s : S) t :
  ∃ v s', is_u8 v ∧ HALMAC_REG_R8 o (s, t) = (v, (s', t ++ [EvR8 o v])).
Proof.
  unfold HALMAC_REG_R8. cbn. destruct (hw_r8 o s) as [v s']. exists (u8 v), s'. split; [apply u8_uint|done].
Qed.

Section trace.
Context {S : Type} `{Hardware S}.
Implicit Types (s : S) (t tr : list event) (c : halmac_wlan_pwr_cfg).

Lemma waits_snoc c v vs tr : EvR8 (cmd_offset c) v :: EvDelay 50 :: waits c vs ++ tr = waits c (v :: vs) ++ tr.
Proof. done. Qed.

(** The polling loop ends, with a hit or after [cnt] reads. *)
Lemma polling_loop_runs itf c : itf ≠ HALMAC_INTERFACE_PCIE → ∀ fuel (cnt : nat) s t,
  (0 < cnt ≤ fuel)%nat → Z.of_nat cnt < 2 ^ 32 →
  ∃ r s' vs v, polling_loop fuel itf c (Z.of_nat cnt) false (s, t) =
      Some (r, (s', t ++ waits c vs ++ [EvR8 (cmd_offset c) v])) ∧ Forall (λ v, ¬ hit c v) vs ∧
    (r = HALMAC_RET_SUCCESS ∧ hit c v ∧ (length vs < cnt)%nat ∨
     r = HALMAC_RET_PWRSEQ_POLLING_FAIL ∧ ¬ hit c v ∧ (length vs + 1 = cnt)%nat).
Proof.
  intros Hi. induction fuel as [|fuel IH]; intros cnt s t Hc Hb; [lia|]. cbn [polling_loop].
  rewrite u32_id by (split; lia).
  destruct (traced_r8 (cmd_offset c) s t) as (v & s1 & Hv & ->).
  pose proof (hit_spec c v Hv) as Hh.
  destruct (u8 (v .& c.(msk)) =? c.(value) .& c.(msk)) eqn:E.
  { exists HALMAC_RET_SUCCESS, s1, [], v. split; [done|]. split; [done|]. left. split; [done|]. split; [by apply Hh|cbn; lia]. }
  assert (¬ hit c v) as Hn by (intros X%Hh; congruence).
  rewrite bool_decide_eq_false_2 by done. cbn [andb negb].
  destruct (Z.eqb_spec (Z.of_nat cnt - 1) 0).
  { exists HALMAC_RET_PWRSEQ_POLLING_FAIL, s1, [], v. split; [done|]. split; [done|]. right. cbn. split_and!; [done|done|lia]. }
  replace (Z.of_nat cnt - 1) with (Z.of_nat (cnt - 1)) by lia.
  destruct (IH (cnt - 1)%nat (hw_delay_us 50 s1) ((t ++ [EvR8 (cmd_offset c) v]) ++ [EvDelay 50])) as (r & s' & vs & v' & E' & Hvs & Hr); [lia|lia|].
  exists r, s', (v :: vs), v'. split; [|split; [by constructor|]].
  - cbn [hw_delay_us traced fst snd]. rewrite E'. rewrite <- !app_assoc. done.
  - destruct Hr as [(-> & ? & ?)|(-> & ? & ?)]; [left|right]; split_and!; try done; cbn [length]; lia.
Qed.

Lemma polling_runs itf c s t :
  itf ≠ HALMAC_INTERFACE_PCIE →
  ∃ r s' vs v, pwr_cmd_polling_88xx itf c (s, t) =
      Some (r, (s', t ++ waits c vs ++ [EvR8 (cmd_offset c) v])) ∧ Forall (λ v, ¬ hit c v) vs ∧
    (r = HALMAC_RET_SUCCESS ∧ hit c v ∧ Z.of_nat (length vs) < HALMAC_PWR_POLLING_CNT ∨
     r = HALMAC_RET_PWRSEQ_POLLING_FAIL ∧ ¬ hit c v ∧ Z.of_nat (length vs + 1) = HALMAC_PWR_POLLING_CNT).
Proof.
  intros Hi. unfold pwr_cmd_polling_88xx, polling_fuel, HALMAC_PWR_POLLING_CNT.
  destruct (polling_loop_runs itf c Hi (Z.to_nat (2 * 20000)) (Z.to_nat 20000) s t) as (r & s' & vs & v & E & Hvs & Hr); [lia|lia|].
  rewrite Z2Nat.id in E by lia. exists r, s', vs, v. rewrite E. split; [done|]. split; [done|].
  destruct Hr as [(? & ? & ?)|(? & ? & ?)]; [left|right]; split_and!; try done; lia.
Qed.

Lemma table_ok_cons cut intf c cmds :
  table_ok cut intf (c :: cmds) = true →
  is_u8 c.(msk) ∧ is_u8 c.(value) ∧
  if selected cut intf c then
    c.(cmd) = CMD_END ∨ (c.(cmd) = CMD_WRITE ∨ c.(cmd) = CMD_POLLING ∨ c.(cmd) = CMD_DELAY ∨ c.(cmd) = CMD_READ) ∧
      table_ok cut intf cmds = true
  else table_ok cut intf cmds = true.
Proof.
  cbn [table_ok]. rewrite !andb_true_iff, !Z.leb_le, !Z.ltb_lt. intros ((((H1 & H2) & H3) & H4) & H5).
  split; [by split|]. split; [by split|]. destruct (selected cut intf c); [|done].
  rewrite orb_true_iff, andb_true_iff, !orb_true_iff, !Z.eqb_eq in H5. tauto.
Qed.

Lemma sub_seq_runs itf cut intf : itf ≠ HALMAC_INTERFACE_PCIE → ∀ cmds s t,
  table_ok cut intf cmds = true →
  ∃ r s' tr, pwr_sub_seq_parser_88xx itf cut intf cmds (s, t) = Some (Ret (r, (s', t ++ tr))) ∧ runs cut intf cmds tr r.
Proof.
  intros Hi. induction cmds as [|c cmds IH]; intros s t Hok; [done|].
  apply table_ok_cons in Hok as (Hm & Hx & Hok). cbn [pwr_sub_seq_parser_88xx].
  destruct (selected cut intf c) eqn:Hs.
  2: { destruct (IH s t Hok) as (r & s' & tr & -> & Hr). exists r, s', tr. split; [done|by apply runs_skip]. }
  destruct Hok as [He|[Hc Hok]].
  { rewrite He. exists HALMAC_RET_SUCCESS, s, []. rewrite app_nil_r. split; [done|by apply runs_end]. }
  destruct Hc as [Hc|[Hc|[Hc|Hc]]]; rewrite Hc; cbn [Z.eqb CMD_WRITE CMD_POLLING CMD_DELAY CMD_READ Pos.eqb].
  - destruct (traced_r8 (cmd_offset c) s t) as (v & s1 & Hv & ->). unfold HALMAC_REG_W8. cbn [hw_w8 traced fst snd].
    edestruct IH as (r & s' & tr & E & Hr); [exact Hok|]. rewrite E. repeat eexists.
    + by rewrite <- !app_assoc.
    + apply runs_write; [done|done| |done]. rewrite u8_id by apply u8_uint. by apply write_value_masked.
  - destruct (polling_runs itf c s t Hi) as (r & s1 & vs & v & -> & Hvs & Hr). cbn [mbind option_bind].
    destruct Hr as [(-> & Hv & Hl)|(-> & Hv & Hl)].
    + rewrite bool_decide_eq_true_2 by done. edestruct IH as (r & s' & tr & E & Hr); [exact Hok|]. rewrite E.
      exists r, s', (waits c vs ++ EvR8 (cmd_offset c) v :: tr). split; [by rewrite <- !app_assoc|]. by apply runs_poll.
    + rewrite bool_decide_eq_false_2 by done. repeat eexists. apply runs_poll_fail; [done|done| |by rewrite length_app].
      apply Forall_app. split; [done|]. by constructor.
  - cbn [hw_delay_us traced fst snd]. edestruct IH as (r & s' & tr & E & Hr); [exact Hok|]. rewrite E. repeat eexists.
    + by rewrite <- !app_assoc.
    + by apply runs_delay.
  - edestruct IH as (r & s' & tr & E & Hr); [exact Hok|]. rewrite E. repeat eexists. by apply runs_read.
Qed.

Lemma seq_loop_runs itf cut intf : itf ≠ HALMAC_INTERFACE_PCIE → ∀ flow s t,
  forallb (table_ok cut intf) flow = true →
  ∃ r s' tr, seq_loop itf cut intf flow (s, t) = Some (Ret (r, (s', t ++ tr))) ∧ flow_runs cut intf flow tr r.
Proof.
  intros Hi. induction flow as [|cmds flow IH]; intros s t Hok; cbn [seq_loop].
  { exists HALMAC_RET_SUCCESS, s, []. rewrite app_nil_r. split; [done|constructor]. }
  cbn [forallb] in Hok. apply andb_true_iff in Hok as [Hok1 Hok].
  destruct (sub_seq_runs itf cut intf Hi cmds s t Hok1) as (r & s1 & tr & -> & Hr). cbn [mbind option_bind].
  destruct (decide (r = HALMAC_RET_SUCCESS)) as [->|Hne].
  - destruct (IH s1 (t ++ tr) Hok) as (r & s' & tr' & -> & Hr'). exists r, s', (tr ++ tr').
    split; [by rewrite app_assoc|by eapply flow_next].
  - exists r, s1, tr. split; [by destruct r|by apply flow_fail].
Qed.
End trace.

(** *** The results and the length of a run *)
Lemma runs_status cut intf cmds tr r :
  runs cut intf cmds tr r → r = HALMAC_RET_SUCCESS ∨ r = HALMAC_RET_PWRSEQ_POLLING_FAIL.
Proof. induction 1; auto. Qed.
Lemma flow_runs_status cut intf flow tr r :
  flow_runs cut intf flow tr r → r = HALMAC_RET_SUCCESS ∨ r = HALMAC_RET_PWRSEQ_POLLING_FAIL.
Proof. induction 1; eauto using runs_status. Qed.

(** An upper bound of the accesses and delays of a command. *)
Definition cost (cut intf : Z) (c : halmac_wlan_pwr_cfg) : Z :=
  if selected cut intf c then
    if c.(cmd) =? CMD_POLLING then 2 * HALMAC_PWR_POLLING_CNT else 2
  else 0.
Definition flow_cost (cut intf : Z) (flow : list (list halmac_wlan_pwr_cfg)) : Z :=
  fold_right Z.add 0 (map (λ t, fold_right Z.add 0 (map (cost cut intf) t)) flow).

Lemma length_waits c vs : length (waits c vs) = (2 * length vs)%nat.
Proof. induction vs as [|v vs IH]; [done|]. unfold waits in *. cbn. rewrite IH. lia. Qed.
Lemma cost_nonneg cut intf c : 0 ≤ cost cut intf c.
Proof. unfold cost, HALMAC_PWR_POLLING_CNT. repeat case_match; lia. Qed.
Lemma costs_nonneg cut intf t : 0 ≤ fold_right Z.add 0 (map (cost cut intf) t).
Proof. induction t as [|c t IH]; cbn; [lia|]. pose proof (cost_nonneg cut intf c). lia. Qed.
Lemma runs_length cut intf cmds tr r :
  runs cut intf cmds tr r → Z.of_nat (length tr) ≤ fold_right Z.add 0 (map (cost cut intf) cmds).
Proof.
  induction 1 as [c cmds tr r Hs _ IH|c cmds v w tr r Hs Hc _ _ IH|c cmds vs v tr r Hs Hc _ _ Hl _ IH|c cmds vs v Hs Hc _ Hl|
    c cmds tr r Hs Hc _ IH|c cmds tr r Hs Hc _ IH|c cmds Hs Hc]; cbn [map fold_right];
    pose proof (cost_nonneg cut intf c); try pose proof (costs_nonneg cut intf cmds); try lia.
  all: unfold cost in *; rewrite Hs, Hc in *; unfold HALMAC_PWR_POLLING_CNT in *; cbn in *.
  all: rewrite ?length_app, ?length_waits in *; cbn [length] in *; lia.
Qed.
Lemma flow_runs_length cut intf flow tr r :
  flow_runs cut intf flow tr r → Z.of_nat (length tr) ≤ flow_cost cut intf flow.
Proof.
  unfold flow_cost. induction 1 as [|t flow tr tr' r Ht _ IH|t flow tr r Ht Hr]; cbn [map fold_right]; [cbn; lia| |].
  - apply runs_length in Ht. rewrite length_app. lia.
  - apply runs_length in Ht. clear Hr. assert (0 ≤ fold_right Z.add 0 (map (λ t, fold_right Z.add 0 (map (cost cut intf) t)) flow)).
    { induction flow as [|t' flow IH]; cbn; [lia|]. pose proof (costs_nonneg cut intf t'). lia. }
    lia.
Qed.

(** ** The theorems *)
Definition known_ver (v : halmac_chip_ver) : Prop := v ≠ CHIP_VER_OTHER.

Lemma tables_8822b ver cut :
  cut_of ver = Some cut →
  forallb (table_ok cut INTF_USB_MSK) card_en_flow_8822b = true ∧ forallb (table_ok cut INTF_USB_MSK) card_dis_flow_8822b = true.
Proof. destruct ver; intros [= <-]; vm_compute; done. Qed.

Lemma pwr_seq_usb_runs {S} `{Hardware S} ver flow (s : S) t :
  known_ver ver → flow = card_en_flow_8822b ∨ flow = card_dis_flow_8822b →
  ∃ cut r s' tr, cut_of ver = Some cut ∧
    pwr_seq_parser_88xx ver HALMAC_INTERFACE_USB flow (s, t) = Some (Ret (r, (s', t ++ tr))) ∧
    flow_runs cut INTF_USB_MSK flow tr r.
Proof.
  intros Hv Hf. unfold pwr_seq_parser_88xx. destruct (cut_of ver) as [cut|] eqn:Ec; [|by destruct ver].
  cbn [intf_of]. destruct (tables_8822b ver cut Ec) as [H1 H2].
  destruct (seq_loop_runs HALMAC_INTERFACE_USB cut INTF_USB_MSK ltac:(done) flow s t) as (r & s' & tr & E & Hr).
  { destruct Hf as [->| ->]; assumption. }
  by exists cut, r, s', tr.
Qed.

(** C28: On every device, whatever its registers answer, the interpreter runs
    the card enable and disable tables of the 8822B over USB as the command set
    is documented: each command of the chip's cut and interface in order, masked
    writes that keep the other bits, polling with its delays until a hit, and a
    stop at the first polling that never hits. *)
Theorem pwr_seq_refines_commands {S} `{Hardware S} ver flow (s : S) :
  known_ver ver → flow = card_en_flow_8822b ∨ flow = card_dis_flow_8822b →
  ∃ cut r s' tr, cut_of ver = Some cut ∧
    pwr_seq_parser_88xx ver HALMAC_INTERFACE_USB flow (s, []) = Some (Ret (r, (s', tr))) ∧
    flow_runs cut INTF_USB_MSK flow tr r.
Proof. apply (pwr_seq_usb_runs ver flow s []). Qed.
(** A C-cut card with registers of which only 0x05 acts: it clears the bits the
    driver sets to ask for a change of state. *)
Definition demo_regs : Type := Z → Z.
#[export] Instance demo_hardware : Hardware demo_regs := {|
  hw_r8 o r := (r o, r);
  hw_r16 o r := (r o, r);
  hw_w8 o v r := λ o', if o' =? o then if o =? 5 then v .& 0xfc else v else r o';
  hw_delay_us _ r := r
|}.
Lemma pwr_seq_refines_commands_witness :
  ∃ cut r s' tr, cut_of CHIP_VER_C_CUT = Some cut ∧
    pwr_seq_parser_88xx CHIP_VER_C_CUT HALMAC_INTERFACE_USB card_en_flow_8822b ((λ _, 0xff) : demo_regs, []) = Some (Ret (r, (s', tr))) ∧
    flow_runs cut INTF_USB_MSK card_en_flow_8822b tr r.
Proof. apply (pwr_seq_refines_commands CHIP_VER_C_CUT card_en_flow_8822b); [discriminate|left; reflexivity]. Defined.
(** The run above succeeds, and one on a dead card fails. *)
Definition status_of {S} (r : option (cres (halmac_ret_status * S))) : option halmac_ret_status :=
  match r with Some (Ret (st, _)) => Some st | _ => None end.
Example demo_power_on :
  status_of (pwr_seq_parser_88xx CHIP_VER_C_CUT HALMAC_INTERFACE_USB card_en_flow_8822b ((λ _, 0xff) : demo_regs)) = Some HALMAC_RET_SUCCESS.
Proof. vm_compute. reflexivity. Qed.
Example demo_dead_card :
  status_of (pwr_seq_parser_88xx CHIP_VER_C_CUT HALMAC_INTERFACE_USB card_en_flow_8822b ((λ _, 0) : demo_regs)) = Some HALMAC_RET_PWRSEQ_POLLING_FAIL.
Proof. vm_compute. reflexivity. Qed.

(** *** Termination *)
Section termination.
Context {S : Type} `{Hardware S}.

Lemma polling_loop_ends itf c : ∀ fuel (cnt : nat) (flg : bool) (s : S),
  (0 < cnt)%nat → Z.of_nat cnt < 2 ^ 32 →
  Z.of_nat cnt + (if flg then 0 else HALMAC_PWR_POLLING_CNT) ≤ Z.of_nat fuel →
  is_Some (polling_loop fuel itf c (Z.of_nat cnt) flg s).
Proof.
  induction fuel as [|fuel IH]; intros cnt flg s Hc Hb Hf; [destruct flg; unfold HALMAC_PWR_POLLING_CNT in *; lia|].
  cbn [polling_loop]. rewrite u32_id by (split; lia).
  destruct (HALMAC_REG_R8 (cmd_offset c) s) as [v s1]. destruct (_ =? c.(value) .& c.(msk)); [by eexists|].
  destruct (Z.eqb_spec (Z.of_nat cnt - 1) 0).
  - destruct (bool_decide (itf = HALMAC_INTERFACE_PCIE)); cbn [andb]; [|by eexists].
    destruct flg; cbn [negb]; [by eexists|]. destruct (HALMAC_REG_R8 REG_SYS_PW_CTRL s1) as [v' s2].
    apply (IH (Z.to_nat 20000) true); unfold HALMAC_PWR_POLLING_CNT in *; lia.
  - replace (Z.of_nat cnt - 1) with (Z.of_nat (cnt - 1)) by lia. apply IH; destruct flg; lia.
Qed.
Lemma polling_ends itf c (s : S) : is_Some (pwr_cmd_polling_88xx itf c s).
Proof.
  unfold pwr_cmd_polling_88xx, polling_fuel, HALMAC_PWR_POLLING_CNT.
  apply (polling_loop_ends itf c _ (Z.to_nat 20000) false); unfold HALMAC_PWR_POLLING_CNT; lia.
Qed.
(** A table with an end command for the chip's cut and interface. *)
Definition has_end (cut intf : Z) (cmds : list halmac_wlan_pwr_cfg) : bool :=
  existsb (λ c, selected cut intf c && (c.(cmd) =? CMD_END)) cmds.
Lemma sub_seq_ends itf cut intf cmds : has_end cut intf cmds = true → ∀ s : S,
  ∃ r s', pwr_sub_seq_parser_88xx itf cut intf cmds s = Some (Ret (r, s')).
Proof.
  induction cmds as [|c cmds IH]; [done|]. intros Hok s. cbn [pwr_sub_seq_parser_88xx].
  unfold has_end in Hok. cbn [existsb] in Hok. fold (has_end cut intf cmds) in Hok.
  destruct (selected cut intf c); [|by apply IH]. cbn [andb] in Hok.
  destruct (Z.eqb_spec c.(cmd) CMD_END) as [->|_]; [by repeat eexists|]. specialize (IH Hok).
  destruct (_ =? CMD_WRITE); [destruct (HALMAC_REG_R8 _ s); apply IH|].
  destruct (_ =? CMD_POLLING).
  { destruct (polling_ends itf c s) as [[r s'] ->]. cbn [mbind option_bind]. destruct (bool_decide _); [apply IH|by repeat eexists]. }
  destruct (_ =? CMD_DELAY); [apply IH|]. destruct (_ =? CMD_READ); [apply IH|]. by repeat eexists.
Qed.
Lemma seq_loop_ends itf cut intf flow : forallb (has_end cut intf) flow = true → ∀ s : S,
  ∃ r s', seq_loop itf cut intf flow s = Some (Ret (r, s')).
Proof.
  induction flow as [|t flow IH]; intros Hok s; cbn [seq_loop]; [by repeat eexists|].
  cbn [forallb] in Hok. apply andb_true_iff in Hok as [Ht Hok].
  destruct (sub_seq_ends itf cut intf t Ht s) as (r & s' & ->). cbn [mbind option_bind].
  destruct r; try (by repeat eexists). by apply IH.
Qed.
End termination.

(** Every table of the flow ends for the chip. *)
Definition flow_ends (ver : halmac_chip_ver) (itf : halmac_interface) (flow : list (list halmac_wlan_pwr_cfg)) : bool :=
  match cut_of ver, intf_of itf with Some cut, Some intf => forallb (has_end cut intf) flow | _, _ => true end.

(** C38: On every device, whatever its registers answer, and on every chip
    version and interface, the interpreter returns on a flow whose tables each
    have an end command for the chip's cut and interface; a table without one
    is read beyond its array ([no_end_runs_off]).  On the flows of the 8822B
    over USB it returns success or a polling failure after at most [flow_cost]
    register accesses and delays (a polling costs 40000, another command of the
    chip 2), which is at most 80050 to switch on and 40038 to switch off. *)
Theorem pwr_seq_terminates {S} `{Hardware S} ver itf flow ver' flow' (s : S) (s' : S) :
  flow_ends ver itf flow = true → known_ver ver' → flow' = card_en_flow_8822b ∨ flow' = card_dis_flow_8822b →
  (∃ r s1, pwr_seq_parser_88xx ver itf flow s = Some (Ret (r, s1))) ∧
  ∃ cut r s1 tr, cut_of ver' = Some cut ∧
    pwr_seq_parser_88xx ver' HALMAC_INTERFACE_USB flow' (s', []) = Some (Ret (r, (s1, tr))) ∧
    (r = HALMAC_RET_SUCCESS ∨ r = HALMAC_RET_PWRSEQ_POLLING_FAIL) ∧
    Z.of_nat (length tr) ≤ flow_cost cut INTF_USB_MSK flow' ∧
    flow_cost cut INTF_USB_MSK card_en_flow_8822b ≤ 80050 ∧ flow_cost cut INTF_USB_MSK card_dis_flow_8822b ≤ 40038.
Proof.
  intros He Hv Hf. split.
  - unfold pwr_seq_parser_88xx, flow_ends in *. destruct (cut_of ver), (intf_of itf); try (by repeat eexists).
    by apply seq_loop_ends.
  - destruct (pwr_seq_usb_runs ver' flow' s' [] Hv Hf) as (cut & r & s1 & tr & Hc & E & Hr).
    exists cut, r, s1, tr. split; [done|]. split; [done|]. split; [by eapply flow_runs_status|].
    split; [by eapply flow_runs_length|]. clear -Hc.
    destruct ver'; (discriminate Hc || injection Hc as <-); split; vm_compute; discriminate.
Qed.
Lemma pwr_seq_terminates_witness :
  (∃ r s1, pwr_seq_parser_88xx CHIP_VER_C_CUT HALMAC_INTERFACE_PCIE card_en_flow_8822b ((λ _, 0xff) : demo_regs) = Some (Ret (r, s1))) ∧
  ∃ cut r s1 tr, cut_of CHIP_VER_B_CUT = Some cut ∧
    pwr_seq_parser_88xx CHIP_VER_B_CUT HALMAC_INTERFACE_USB card_dis_flow_8822b ((λ _, 0) : demo_regs, []) =
      Some (Ret (r, (s1, tr))) ∧
    (r = HALMAC_RET_SUCCESS ∨ r = HALMAC_RET_PWRSEQ_POLLING_FAIL) ∧
    Z.of_nat (length tr) ≤ flow_cost cut INTF_USB_MSK card_dis_flow_8822b ∧
    flow_cost cut INTF_USB_MSK card_en_flow_8822b ≤ 80050 ∧ flow_cost cut INTF_USB_MSK card_dis_flow_8822b ≤ 40038.
Proof.
  apply (pwr_seq_terminates CHIP_VER_C_CUT HALMAC_INTERFACE_PCIE card_en_flow_8822b CHIP_VER_B_CUT card_dis_flow_8822b);
    [reflexivity|discriminate|right; reflexivity].
Defined.
(** A table whose end is for another cut. *)
Example no_end_runs_off :
  pwr_seq_parser_88xx CHIP_VER_C_CUT HALMAC_INTERFACE_USB
    [[{| offset := 0xFFFF; cut_msk := CUT_B_MSK; interface_msk := INTF_USB_MSK; base := 0; cmd := CMD_END; msk := 0; value := 0 |}]]
    ((λ _, 0) : demo_regs) = Some Oob.
Proof. reflexivity. Qed.

(** ** Switching the power

    A map of device states that commutes with the accesses commutes with the
    interpreter; forgetting the record is such a map. *)
Class HwMorphism {S T} `{Hardware S} `{Hardware T} (f : S → T) : Prop := {
  hw_r8_morph o s : hw_r8 o (f s) = prod_map id f (hw_r8 o s);
  hw_w8_morph o v s : hw_w8 o v (f s) = f (hw_w8 o v s);
  hw_delay_morph us s : hw_delay_us us (f s) = f (hw_delay_us us s)
}.
#[export] Instance traced_morphism {S} `{Hardware S} : HwMorphism (fst : S * list event → S).
Proof. split; intros; cbn; try done. by destruct (hw_r8 o s.1). Qed.

Section morphism.
Context {S T : Type} `{Hardware S} `{Hardware T} (f : S → T) `{!HwMorphism f}.

Definition map_run (r : cres (halmac_ret_status * S)) : cres (halmac_ret_status * T) :=
  match r with Ret (st, s) => Ret (st, f s) | Err e => Err e | Oob => Oob end.

Lemma r8_morph o s : HALMAC_REG_R8 o (f s) = prod_map id f (HALMAC_REG_R8 o s).
Proof. unfold HALMAC_REG_R8. rewrite hw_r8_morph. by destruct (hw_r8 o s). Qed.
Lemma w8_morph o v s : HALMAC_REG_W8 o v (f s) = f (HALMAC_REG_W8 o v s).
Proof. apply hw_w8_morph. Qed.
Lemma polling_loop_morph itf c fuel : ∀ cnt flg s,
  polling_loop fuel itf c cnt flg (f s) = prod_map id f <$> polling_loop fuel itf c cnt flg s.
Proof.
  induction fuel as [|fuel IH]; intros cnt flg s; [done|]. cbn [polling_loop]. rewrite r8_morph.
  destruct (HALMAC_REG_R8 (cmd_offset c) s) as [v s1]. cbn [prod_map id fst snd]. destruct (_ =? c.(value) .& c.(msk)); [done|].
  destruct (_ =? 0); [|rewrite hw_delay_morph; apply IH]. destruct (_ && _); [|done].
  rewrite r8_morph. destruct (HALMAC_REG_R8 REG_SYS_PW_CTRL s1) as [v' s2]. cbn [prod_map id fst snd]. rewrite !w8_morph. apply IH.
Qed.
Lemma sub_seq_morph itf cut intf cmds : ∀ s,
  pwr_sub_seq_parser_88xx itf cut intf cmds (f s) = map_run <$> pwr_sub_seq_parser_88xx itf cut intf cmds s.
Proof.
  induction cmds as [|c cmds IH]; intros s; [done|]. cbn [pwr_sub_seq_parser_88xx].
  destruct (selected cut intf c); [|apply IH].
  destruct (_ =? CMD_WRITE).
  { rewrite r8_morph. destruct (HALMAC_REG_R8 _ s) as [v s1]. cbn [prod_map id fst snd]. rewrite w8_morph. apply IH. }
  destruct (_ =? CMD_POLLING).
  { unfold pwr_cmd_polling_88xx. rewrite polling_loop_morph.
    destruct (polling_loop _ _ _ _ _ s) as [[r s1]|]; [|done]. cbn [fmap option_fmap option_map mbind option_bind prod_map id].
    destruct (bool_decide _); [apply IH|done]. }
  destruct (_ =? CMD_DELAY); [rewrite hw_delay_morph; apply IH|].
  destruct (_ =? CMD_READ); [apply IH|]. by destruct (_ =? CMD_END).
Qed.
Lemma seq_loop_morph itf cut intf flow : ∀ s,
  seq_loop itf cut intf flow (f s) = map_run <$> seq_loop itf cut intf flow s.
Proof.
  induction flow as [|t flow IH]; intros s; [done|]. cbn [seq_loop]. rewrite sub_seq_morph.
  destruct (pwr_sub_seq_parser_88xx itf cut intf t s) as [[[[] s1]| |]|]; try done. apply IH.
Qed.
Lemma pwr_seq_morph ver itf flow s :
  pwr_seq_parser_88xx ver itf flow (f s) = map_run <$> pwr_seq_parser_88xx ver itf flow s.
Proof. unfold pwr_seq_parser_88xx. destruct (cut_of ver), (intf_of itf); try done. apply seq_loop_morph. Qed.
End morphism.

Lemma pwr_seq_usb_returns {S} `{Hardware S} ver flow (s : S) :
  known_ver ver → flow = card_en_flow_8822b ∨ flow = card_dis_flow_8822b →
  ∃ r s', pwr_seq_parser_88xx ver HALMAC_INTERFACE_USB flow s = Some (Ret (r, s')) ∧
    (r = HALMAC_RET_SUCCESS ∨ r = HALMAC_RET_PWRSEQ_POLLING_FAIL).
Proof.
  intros Hv Hf. destruct (pwr_seq_usb_runs ver flow s [] Hv Hf) as (cut & r & s' & tr & _ & E & Hr).
  exists r, s'. split; [|by eapply flow_runs_status].
  pose proof (pwr_seq_morph (fst : S * list event → S) ver HALMAC_INTERFACE_USB flow (s, [])) as M.
  rewrite E in M. exact M.
Qed.

(** [mac_pwr_switch_usb_8822b] on every device and known cut: it returns;
    on success the recorded state is the requested one, and after switching off
    the firmware counts as not loaded and the H2C counters restart; an unchanged
    state is reported only when the card was asked on and its registers show it
    on; a failed switch leaves the state the registers showed. *)
Theorem mac_pwr_switch_states {S} `{Hardware S} p a (s : S) :
  p ≠ HALMAC_MAC_POWER_UNDEFINE → known_ver a.(chip_ver) → a.(intf) = HALMAC_INTERFACE_USB →
  ∃ st a' s', mac_pwr_switch_usb_8822b p a s = Some (Ret (st, a', s')) ∧
    a'.(chip_ver) = a.(chip_ver) ∧ a'.(intf) = a.(intf) ∧
    match st with
    | HALMAC_RET_SUCCESS => a'.(mac_pwr) = p ∧
        if bool_decide (p = HALMAC_MAC_POWER_OFF)
        then a'.(dlfw_none) = true ∧ a'.(h2c_seq_num) = 0 ∧ a'.(h2c_buf_fs) = 0
        else a'.(dlfw_none) = a.(dlfw_none) ∧ a'.(h2c_seq_num) = a.(h2c_seq_num)
    | HALMAC_RET_PWR_UNCHANGE => p = HALMAC_MAC_POWER_ON ∧ a'.(mac_pwr) = HALMAC_MAC_POWER_ON
    | HALMAC_RET_POWER_ON_FAIL => p = HALMAC_MAC_POWER_ON ∧ a'.(mac_pwr) = HALMAC_MAC_POWER_OFF
    | HALMAC_RET_POWER_OFF_FAIL => p = HALMAC_MAC_POWER_OFF ∧ a'.(dlfw_none) = a.(dlfw_none)
    | _ => False
    end.
Proof.
  intros Hp Hv Hi. destruct a as [ver itf rp mp dl sq bf]. cbn in Hv, Hi. subst itf.
  unfold mac_pwr_switch_usb_8822b. destruct (HALMAC_REG_R8 0xFE58 s) as [r s1]. cbn [chip_ver intf rpwm mac_pwr dlfw_none h2c_seq_num h2c_buf_fs].
  destruct (HALMAC_REG_R16 REG_MCUFW_CTRL s1) as [fw s2].
  match goal with |- context [sense_power ?x ?y] => assert (∃ m s3, sense_power x y = (set_mac_pwr m x, s3) ∧ m ≠ HALMAC_MAC_POWER_UNDEFINE) as (m & s3 & -> & Hm) end.
  { unfold sense_power. destruct (HALMAC_REG_R8 REG_CR _) as [v s3]. destruct (v =? 0xEA); [by repeat eexists|].
    destruct (HALMAC_REG_R8 _ s3) as [v' s4]. destruct (_ =? _); by repeat eexists. }
  cbn [set_mac_pwr chip_ver intf rpwm mac_pwr dlfw_none h2c_seq_num h2c_buf_fs].
  set (a := Build_halmac_adapter ver HALMAC_INTERFACE_USB r m dl sq bf).
  destruct p; [| |done].
  - rewrite (bool_decide_eq_false_2 (HALMAC_MAC_POWER_OFF = HALMAC_MAC_POWER_ON)), (bool_decide_eq_true_2 (HALMAC_MAC_POWER_OFF = _)) by done.
    cbn [andb]. destruct (pwr_seq_usb_returns ver card_dis_flow_8822b s3 Hv (or_intror eq_refl)) as (st & s4 & -> & [-> | ->]);
      cbn [mbind option_bind cbind]; repeat eexists.
  - rewrite (bool_decide_eq_true_2 (HALMAC_MAC_POWER_ON = HALMAC_MAC_POWER_ON)), (bool_decide_eq_false_2 (HALMAC_MAC_POWER_ON = HALMAC_MAC_POWER_OFF)) by done.
    cbn [andb]. destruct m; [rewrite bool_decide_eq_false_2 by done|by rewrite bool_decide_eq_true_2; repeat eexists|done].
    destruct (pwr_seq_usb_returns ver card_en_flow_8822b s3 Hv (or_introl eq_refl)) as (st & s4 & -> & [-> | ->]);
      cbn [mbind option_bind cbind].
    + rewrite bool_decide_eq_true_2 by done. destruct (HALMAC_REG_R8 (REG_SW_MDIO + 3) _) as [v5 s5]. repeat eexists.
    + rewrite bool_decide_eq_false_2 by done. repeat eexists.
Qed.
Lemma mac_pwr_switch_states_witness :
  let a := Build_halmac_adapter CHIP_VER_D_CUT HALMAC_INTERFACE_USB 0 HALMAC_MAC_POWER_OFF false 7 9 in
  ∃ st a' s', mac_pwr_switch_usb_8822b HALMAC_MAC_POWER_OFF a ((λ _, 0xff) : demo_regs) = Some (Ret (st, a', s')) ∧
    a'.(chip_ver) = a.(chip_ver) ∧ a'.(intf) = a.(intf) ∧
    match st with
    | HALMAC_RET_SUCCESS => a'.(mac_pwr) = HALMAC_MAC_POWER_OFF ∧
        a'.(dlfw_none) = true ∧ a'.(h2c_seq_num) = 0 ∧ a'.(h2c_buf_fs) = 0
    | HALMAC_RET_PWR_UNCHANGE => HALMAC_MAC_POWER_OFF = HALMAC_MAC_POWER_ON ∧ a'.(mac_pwr) = HALMAC_MAC_POWER_ON
    | HALMAC_RET_POWER_ON_FAIL => HALMAC_MAC_POWER_OFF = HALMAC_MAC_POWER_ON ∧ a'.(mac_pwr) = HALMAC_MAC_POWER_OFF
    | HALMAC_RET_POWER_OFF_FAIL => HALMAC_MAC_POWER_OFF = HALMAC_MAC_POWER_OFF ∧ a'.(dlfw_none) = a.(dlfw_none)
    | _ => False
    end.
Proof. intros a. apply (mac_pwr_switch_states HALMAC_MAC_POWER_OFF a); [discriminate|discriminate|reflexivity]. Defined.
