(* ===== verification/StaTable.v ===== *)
(** * The station table: [core/rtw_sta_mgt_*.c], [include/sta_info.h]

    The driver keeps [NUM_STA] station records in one array.  A record is either
    in the free queue or in one of the [NUM_STA] buckets of a hash table keyed by
    the MAC address.  A record is its index in the array; a linked list is the
    list of the indices in it.  The rest of a record (queues, timers, sequence
    numbers, see RecvPn and Reorder) is initialised and flushed by functions that
    do not touch the table. *)
From S2P Require Import Prelude.
From stdpp Require Import list gmap.
Local Open Scope Z_scope.

Definition NUM_STA : nat := 32.
Definition bc_addr : list Z := [0xff; 0xff; 0xff; 0xff; 0xff; 0xff].

Record sta_info := { mac_addr : list Z; aid : Z }.
Record sta_priv := {
  pstainfo_buf : list sta_info;
  free_sta_queue : list nat;
  sta_hash : list (list nat);
  asoc_sta_count : Z;
  sta_aid : list (option nat);
  max_aid : Z;
  started_aid : Z;
  rr_aid : bool;
  max_num_sta : Z
}.

(** ** The hash *)
Definition wifi_mac_hash (mac : list Z) : Z :=
  let x := mac.[0] in
  let x := u32 (x << 2) ⊕ mac.[1] in
  let x := u32 (x << 2) ⊕ mac.[2] in
  let x := u32 (x << 2) ⊕ mac.[3] in
  let x := u32 (x << 2) ⊕ mac.[4] in
  let x := u32 (x << 2) ⊕ mac.[5] in
  let x := x ⊕ (x >> 8) in
  x .& (Z.of_nat NUM_STA - 1).

(** ** Operations *)
Definition set_buf b s := Build_sta_priv b s.(free_sta_queue) s.(sta_hash) s.(asoc_sta_count) s.(sta_aid) s.(max_aid) s.(started_aid) s.(rr_aid) s.(max_num_sta).
Definition set_free q s := Build_sta_priv s.(pstainfo_buf) q s.(sta_hash) s.(asoc_sta_count) s.(sta_aid) s.(max_aid) s.(started_aid) s.(rr_aid) s.(max_num_sta).
Definition set_hash h s := Build_sta_priv s.(pstainfo_buf) s.(free_sta_queue) h s.(asoc_sta_count) s.(sta_aid) s.(max_aid) s.(started_aid) s.(rr_aid) s.(max_num_sta).
Definition set_count c s := Build_sta_priv s.(pstainfo_buf) s.(free_sta_queue) s.(sta_hash) c s.(sta_aid) s.(max_aid) s.(started_aid) s.(rr_aid) s.(max_num_sta).
Definition set_aids a st s := Build_sta_priv s.(pstainfo_buf) s.(free_sta_queue) s.(sta_hash) s.(asoc_sta_count) a s.(max_aid) st s.(rr_aid) s.(max_num_sta).

(** [_rtw_init_sta_priv] with memory available; [num] is [macid_ctl->num]. *)
Definition rtw_init_sta_priv (num : Z) : sta_priv := {|
  pstainfo_buf := replicate NUM_STA {| mac_addr := replicate 6 0; aid := 0 |};
  free_sta_queue := seq 0 NUM_STA;
  sta_hash := replicate NUM_STA [];
  asoc_sta_count := 0;
  sta_aid := replicate (Z.to_nat num) None;
  max_aid := num;
  started_aid := 1;
  rr_aid := false;
  max_num_sta := Z.of_nat NUM_STA
|}.

Definition mac_of (s : sta_priv) (i : nat) : list Z :=
  match s.(pstainfo_buf) !! i with Some p => p.(mac_addr) | None => [] end.

Definition rtw_alloc_stainfo (s : sta_priv) (hwaddr : list Z) : option nat * sta_priv :=
  match s.(free_sta_queue) with
  | [] => (None, s)
  | i :: q =>
      let s := set_free q s in
      let s := set_buf (<[i := {| mac_addr := hwaddr; aid := 0 |}]> s.(pstainfo_buf)) s in
      let index := wifi_mac_hash hwaddr in
      if Z.of_nat NUM_STA <=? index then (None, s)
      else
        let s := set_hash (alter (λ l, l ++ [i]) (Z.to_nat index) s.(sta_hash)) s in
        (Some i, set_count (s.(asoc_sta_count) + 1) s)
  end.

(** The walk over a bucket. *)
Definition find_sta (s : sta_priv) (addr : list Z) (bucket : list nat) : option nat :=
  List.find (λ i, bool_decide (mac_of s i = addr)) bucket.
Definition rtw_get_stainfo (s : sta_priv) (hwaddr : list Z) : option nat :=
  let addr := if IS_MCAST hwaddr then bc_addr else hwaddr in
  let index := wifi_mac_hash addr in
  match s.(sta_hash) !! Z.to_nat index with Some b => find_sta s addr b | None => None end.
Definition rtw_get_bcmc_stainfo (s : sta_priv) : option nat := rtw_get_stainfo s bc_addr.

(** [rtw_list_delete]: the record is unlinked from the list it is in. *)
Definition list_delete (i : nat) (h : list (list nat)) : list (list nat) :=
  map (List.filter (λ j, negb (j =? i)%nat)) h.
(** What [rtw_free_stainfo] does to the table; [ap] is
    [pmlmeinfo->state == _HW_STATE_AP_].  It also flushes the queues of the
    record, stops its timers, gives its macid back and clears its power-save
    fields, none of which the table reads; pre-link stations are configured out
    ([CONFIG_RTW_PRE_LINK_STA] is 0), so every record is unlinked. *)
Definition free_aid (ap : bool) (s : sta_priv) (i : nat) : sta_priv :=
  match s.(pstainfo_buf) !! i with
  | Some p =>
      if ap && (0 <? p.(aid)) && bool_decide (s.(sta_aid) !! Z.to_nat (p.(aid) - 1) = Some (Some i)) then
        let s := set_aids (<[Z.to_nat (p.(aid) - 1) := None]> s.(sta_aid)) s.(started_aid) s in
        set_buf (<[i := {| mac_addr := p.(mac_addr); aid := 0 |}]> s.(pstainfo_buf)) s
      else s
  | None => s
  end.
Definition rtw_free_stainfo (ap : bool) (s : sta_priv) (psta : option nat) : sta_priv :=
  match psta with
  | None => s
  | Some i =>
      let s := set_hash (list_delete i s.(sta_hash)) s in
      let s := set_count (s.(asoc_sta_count) - 1) s in
      let s := free_aid ap s i in
      set_free (s.(free_sta_queue) ++ [i]) s
  end.

(** [rtw_free_all_stainfo]: the records but the broadcast one are unlinked and
    collected, bucket by bucket, then freed. *)
Definition rtw_free_all_stainfo (ap : bool) (s : sta_priv) : sta_priv :=
  if s.(asoc_sta_count) =? 1 then s
  else
    let keep i := bool_decide (rtw_get_bcmc_stainfo s = Some i) in
    let free_sta_list := List.filter (λ i, negb (keep i)) (concat s.(sta_hash)) in
    let s := set_hash (map (List.filter keep) s.(sta_hash)) s in
    fold_left (λ s i, rtw_free_stainfo ap s (Some i)) free_sta_list s.

Definition rtw_init_bcmc_stainfo (s : sta_priv) : bool * sta_priv :=
  let '(psta, s) := rtw_alloc_stainfo s bc_addr in
  (match psta with Some _ => true | None => false end, s).

(** ** Association identifiers *)

(** The [for] loop of [rtw_aid_alloc] from [i] on, [n] iterations left: the
    values of [i], [aid] and [used_cnt] behind it. *)
Fixpoint aid_loop (n : nat) (s : sta_priv) (i aid used_cnt : Z) : Z * Z * Z :=
  match n with
  | O => (i, aid, used_cnt)
  | S n =>
      let aid := (i + s.(started_aid) - 1) mod s.(max_aid) + 1 in
      match s.(sta_aid) !! Z.to_nat (aid - 1) with
      | Some (Some _) =>
          let used_cnt := used_cnt + 1 in
          if s.(max_num_sta) <=? used_cnt then (i, aid, used_cnt) else aid_loop n s (i + 1) aid used_cnt
      | _ => (i, aid, used_cnt)
      end
  end.
Definition rtw_aid_alloc (s : sta_priv) (sta : nat) : Z * sta_priv :=
  let '(i, a, used_cnt) := aid_loop (Z.to_nat s.(max_aid)) s 0 0 0 in
  let a := if (s.(max_aid) <=? i) || (s.(max_num_sta) <=? used_cnt) then 0 else a in
  let s := set_buf (alter (λ p, {| mac_addr := p.(mac_addr); aid := a |}) sta s.(pstainfo_buf)) s in
  if a =? 0 then (a, s)
  else
    (a, set_aids (<[Z.to_nat (a - 1) := Some sta]> s.(sta_aid))
          (if s.(rr_aid) then a mod s.(max_aid) + 1 else s.(started_aid)) s).

(** ** Lists of lists *)
Section lists.
Context {A : Type}.
Implicit Types (h : list (list A)) (l : list A).

Lemma elem_of_concat h x : x ∈ concat h ↔ ∃ k l, h !! k = Some l ∧ x ∈ l.
Proof.
  rewrite list_elem_of_In, in_concat. split.
  - intros (l & Hl & Hx). apply list_elem_of_In, list_elem_of_lookup in Hl as [k Hk].
    exists k, l. by rewrite list_elem_of_In.
  - intros (k & l & Hk & Hx). exists l. split; apply list_elem_of_In; [by eapply list_elem_of_lookup_2|done].
Qed.
Lemma concat_alter_snoc h k x :
  (k < length h)%nat → concat (alter (λ l, l ++ [x]) k h) ≡ₚ x :: concat h.
Proof.
  revert k. induction h as [|l h IH]; intros [|k] Hk; cbn [length] in Hk; try lia; cbn.
  - rewrite <- app_assoc. cbn. by rewrite Permutation_middle.
  - rewrite IH by lia. by rewrite Permutation_middle.
Qed.
Lemma concat_map_filter (f : A → bool) h : concat (map (List.filter f) h) = List.filter f (concat h).
Proof. induction h as [|l h IH]; [done|]. cbn. by rewrite IH, List.filter_app. Qed.
Lemma filter_partition (f : A → bool) l : List.filter (λ x, negb (f x)) l ++ List.filter f l ≡ₚ l.
Proof.
  induction l as [|x l IH]; [done|]. cbn. destruct (f x); cbn; [|by rewrite IH].
  by rewrite <- Permutation_middle, IH.
Qed.
Lemma elem_of_filter_bool (f : A → bool) l x : x ∈ List.filter f l ↔ x ∈ l ∧ f x = true.
Proof. rewrite !list_elem_of_In. apply filter_In. Qed.
End lists.

(** ** The invariant of the table *)
Record wf (s : sta_priv) : Prop := {
  wf_buf : length s.(pstainfo_buf) = NUM_STA;
  wf_hash : length s.(sta_hash) = NUM_STA;
  (** every record is in exactly one list *)
  wf_slots : s.(free_sta_queue) ++ concat s.(sta_hash) ≡ₚ seq 0 NUM_STA;
  (** a linked record is in the bucket of its address *)
  wf_bucket : ∀ b l i, s.(sta_hash) !! b = Some l → i ∈ l → wifi_mac_hash (mac_of s i) = Z.of_nat b;
  wf_count : s.(asoc_sta_count) = Z.of_nat (length (concat s.(sta_hash)))
}.

(** The table as a map from addresses to records. *)
Definition represents (s : sta_priv) (m : gmap (list Z) nat) : Prop :=
  ∀ a i, m !! a = Some i ↔ i ∈ concat s.(sta_hash) ∧ mac_of s i = a.
(** [rtw_get_stainfo] maps every group address to the broadcast station. *)
Definition canon (a : list Z) : list Z := if IS_MCAST a then bc_addr else a.

Lemma wifi_mac_hash_bound mac : 0 ≤ wifi_mac_hash mac < Z.of_nat NUM_STA.
Proof.
  unfold wifi_mac_hash. cbv zeta. generalize (u32 (u32 (u32 (u32 (u32 (mac.[0] << 2) ⊕ mac.[1] << 2) ⊕ mac.[2] << 2) ⊕ mac.[3] << 2) ⊕ mac.[4] << 2) ⊕ mac.[5]).
  intros x. change (Z.of_nat NUM_STA - 1) with (Z.ones 5). change (Z.of_nat NUM_STA) with (2 ^ 5). by apply uint_ones.
Qed.

Section wf_facts.
Context (s : sta_priv) (Hwf : wf s).

Lemma wf_nodup : NoDup (s.(free_sta_queue) ++ concat s.(sta_hash)).
Proof using Hwf. rewrite (wf_slots s Hwf). apply NoDup_seq. Qed.
Lemma wf_linked_nodup : NoDup (concat s.(sta_hash)).
Proof using Hwf. pose proof wf_nodup as H. by apply NoDup_app in H as (_ & _ & ?). Qed.
Lemma wf_slot_lt i : i ∈ s.(free_sta_queue) ++ concat s.(sta_hash) → (i < NUM_STA)%nat.
Proof using Hwf. rewrite (wf_slots s Hwf). intros H%elem_of_seq. lia. Qed.
Lemma free_not_linked i : i ∈ s.(free_sta_queue) → i ∉ concat s.(sta_hash).
Proof using Hwf. pose proof wf_nodup as H. apply NoDup_app in H as (_ & H & _). apply H. Qed.
Lemma bucket_of a : ∃ l, s.(sta_hash) !! Z.to_nat (wifi_mac_hash a) = Some l.
Proof using Hwf.
  apply lookup_lt_is_Some_2. rewrite (wf_hash s Hwf). pose proof (wifi_mac_hash_bound a). lia.
Qed.

Lemma get_represents m hwaddr : represents s m → rtw_get_stainfo s hwaddr = m !! canon hwaddr.
Proof using Hwf.
  intros Hm. unfold rtw_get_stainfo. fold (canon hwaddr). generalize (canon hwaddr) as a. intros a. cbv zeta.
  destruct (bucket_of a) as [l Hl]. rewrite Hl. unfold find_sta.
  destruct (List.find _ l) as [j|] eqn:E.
  - apply find_some in E as [Hj E]. apply bool_decide_eq_true in E. symmetry. apply Hm. split; [|done].
    apply elem_of_concat. exists (Z.to_nat (wifi_mac_hash a)), l. split; [done|by apply list_elem_of_In].
  - destruct (m !! a) as [i|] eqn:Ei; [|done]. apply Hm in Ei as [Hi Ha].
    apply elem_of_concat in Hi as (b & l' & Hb & Hi). pose proof (wf_bucket s Hwf b l' i Hb Hi) as Hh.
    rewrite Ha in Hh. rewrite Hh, Nat2Z.id in Hl. rewrite Hb in Hl. injection Hl as ->.
    eapply find_none in E; [|apply list_elem_of_In, Hi]. by rewrite bool_decide_eq_false in E.
Qed.

Lemma represents_size m : represents s m → size m = length (concat s.(sta_hash)).
Proof using Hwf.
  intros Hm. set (l := concat s.(sta_hash)) in *.
  assert (NoDup (map (λ i, (mac_of s i, i)) l).*1) as Hnd.
  { rewrite <- list_fmap_compose. apply NoDup_fmap_2_strong; [|apply wf_linked_nodup].
    intros i j Hi Hj E. cbn in E. assert (m !! mac_of s i = Some i) as Ei by (by apply Hm).
    assert (m !! mac_of s j = Some j) as Ej by (by apply Hm). rewrite E in Ei. congruence. }
  assert (m = list_to_map (map (λ i, (mac_of s i, i)) l)) as ->.
  - apply map_eq. intros a. apply option_eq. intros i. rewrite <- elem_of_list_to_map by done.
    rewrite (Hm a i), list_elem_of_fmap. split.
    + intros [Hi <-]. by exists i.
    + intros (j & [= -> ->] & Hj). done.
  - rewrite map_size_list_to_map by done. by rewrite length_map.
Qed.
End wf_facts.

(** ** The operations keep the invariant and implement the map *)
Definition table (s : sta_priv) (m : gmap (list Z) nat) : Prop := wf s ∧ represents s m.

Lemma mac_of_insert s i j p h q c :
  (i < length s.(pstainfo_buf))%nat →
  mac_of (Build_sta_priv (<[i:=p]> s.(pstainfo_buf)) q h c s.(sta_aid) s.(max_aid) s.(started_aid) s.(rr_aid) s.(max_num_sta)) j =
    if decide (i = j) then p.(mac_addr) else mac_of s j.
Proof.
  intros Hi. unfold mac_of. cbn [pstainfo_buf]. destruct (decide (i = j)) as [->|Hne].
  - by rewrite list_lookup_insert_eq.
  - by rewrite list_lookup_insert_ne.
Qed.

Lemma init_table num : table (rtw_init_sta_priv num) ∅.
Proof.
  assert (concat (replicate NUM_STA (@nil nat)) = []) as E by done.
  split.
  - split; cbn [rtw_init_sta_priv pstainfo_buf sta_hash free_sta_queue asoc_sta_count].
    + done.
    + done.
    + by rewrite E, app_nil_r.
    + intros b l i Hb Hi. apply lookup_replicate in Hb as [-> _]. by apply not_elem_of_nil in Hi.
    + by rewrite E.
  - intros a i. rewrite lookup_empty. cbn [rtw_init_sta_priv sta_hash]. rewrite E. split; [done|].
    by intros [?%not_elem_of_nil _].
Qed.

Lemma alloc_full s m a : table s m → s.(free_sta_queue) = [] → rtw_alloc_stainfo s a = (None, s) ∧ size m = NUM_STA.
Proof.
  intros [Hwf Hm] E. unfold rtw_alloc_stainfo. rewrite E. split; [done|].
  rewrite (represents_size s Hwf m Hm). pose proof (wf_slots s Hwf) as P. rewrite E in P.
  apply Permutation_length in P. by rewrite length_app, length_seq in P.
Qed.
Lemma alloc_free s m a i q : table s m → s.(free_sta_queue) = i :: q → m !! a = None →
  (size m < NUM_STA)%nat ∧ (∀ b, m !! b ≠ Some i) ∧
  ∃ s', rtw_alloc_stainfo s a = (Some i, s') ∧ table s' (<[a := i]> m).
Proof.
  intros [Hwf Hm] E Ha. pose proof (wf_slots s Hwf) as P. rewrite E in P.
  assert (i ∉ concat s.(sta_hash)) as Hni by (apply free_not_linked; [done|]; rewrite E; left).
  assert (i < NUM_STA)%nat as Hlt by (apply (wf_slot_lt s Hwf); rewrite E; left).
  pose proof (wifi_mac_hash_bound a) as Hh. split; [|split].
  - rewrite (represents_size s Hwf m Hm). apply Permutation_length in P. rewrite length_app, length_seq in P. cbn [length] in P. lia.
  - intros b Hb. apply Hm in Hb as [Hb _]. done.
  - unfold rtw_alloc_stainfo. rewrite E. rewrite (proj2 (Z.leb_gt _ _)) by lia. eexists. split; [done|].
    set (k := Z.to_nat (wifi_mac_hash a)). assert (k < length s.(sta_hash))%nat as Hk by (rewrite (wf_hash s Hwf); lia).
    pose proof (concat_alter_snoc s.(sta_hash) k i Hk) as Pc.
    assert (∀ h c j, mac_of (set_count c (set_hash h (set_buf (<[i:={| mac_addr := a; aid := 0 |}]> s.(pstainfo_buf)) (set_free q s)))) j =
      if decide (i = j) then a else mac_of s j) as Hmac.
    { intros h c j. apply (mac_of_insert s i j {| mac_addr := a; aid := 0 |}). by rewrite (wf_buf s Hwf). }
    split; [split|].
    + cbn. by rewrite length_insert, (wf_buf s Hwf).
    + cbn. by rewrite length_alter, (wf_hash s Hwf).
    + cbn. rewrite Pc, <- P. cbn. by rewrite <- Permutation_middle.
    + intros b l j Hb Hj. cbn [set_count set_hash sta_hash] in Hb. rewrite Hmac. destruct (decide (i = j)) as [<-|Hne].
      * destruct (decide (k = b)) as [<-|Hkb]; [unfold k; lia|]. rewrite list_lookup_alter_ne in Hb by done.
        destruct Hni. apply elem_of_concat. eauto.
      * destruct (decide (k = b)) as [<-|Hkb].
        -- rewrite list_lookup_alter_eq in Hb. cbn in Hb. destruct (s.(sta_hash) !! k) as [l0|] eqn:El; [|done].
           injection Hb as <-. apply elem_of_app in Hj as [Hj|Hj%list_elem_of_singleton]; [|congruence].
           by apply (wf_bucket s Hwf k l0).
        -- rewrite list_lookup_alter_ne in Hb by done. by apply (wf_bucket s Hwf b l).
    + cbn. rewrite Pc, (wf_count s Hwf). cbn. lia.
    + intros b j. rewrite Hmac. cbn [set_count set_hash sta_hash]. rewrite Pc, elem_of_cons.
      destruct (decide (i = j)) as [<-|Hne].
      * rewrite lookup_insert_Some. split.
        -- intros [[-> _]|[_ Hb]]; [by split; [left|]|]. by apply Hm in Hb as [Hb _].
        -- intros [_ <-]. by left.
      * rewrite lookup_insert_Some, (Hm b j). split.
        -- intros [[_ <-]|[_ [H1 H2]]]; [done|]. by split; [right|].
        -- intros [[->|Hj] Hb]; [done|]. right. split; [|by split]. intros <-.
           assert (m !! a = Some j) by (by apply Hm). congruence.
Qed.

(** Freeing a linked record. *)
Lemma free_aid_same ap s i :
  let s' := free_aid ap s i in
  s'.(free_sta_queue) = s.(free_sta_queue) ∧ s'.(sta_hash) = s.(sta_hash) ∧ s'.(asoc_sta_count) = s.(asoc_sta_count) ∧
  length s'.(pstainfo_buf) = length s.(pstainfo_buf) ∧ ∀ j, mac_of s' j = mac_of s j.
Proof.
  unfold free_aid. destruct (s.(pstainfo_buf) !! i) as [p|] eqn:Ei; [|by split_and!].
  destruct (_ && _); [|by split_and!]. split_and!; try done; [cbn; apply length_insert|].
  intros j. unfold mac_of. cbn. destruct (decide (i = j)) as [<-|Hne]; [|by rewrite list_lookup_insert_ne].
  rewrite list_lookup_insert_eq by (by eapply lookup_lt_Some). by rewrite Ei.
Qed.
Lemma concat_list_delete i h : concat (list_delete i h) = List.filter (λ j, negb (j =? i)%nat) (concat h).
Proof. apply concat_map_filter. Qed.
Lemma filter_neq_perm i (l : list nat) : NoDup l → i ∈ l → i :: List.filter (λ j, negb (j =? i)%nat) l ≡ₚ l.
Proof.
  intros Hnd Hi. etrans; [|apply (filter_partition (λ j, (j =? i)%nat) l)].
  assert (List.filter (λ j, (j =? i)%nat) l = [i]) as ->; [|by rewrite Permutation_app_comm].
  induction l as [|j l IH]; [by apply not_elem_of_nil in Hi|]. apply NoDup_cons in Hnd as [Hj Hnd]. cbn.
  destruct (Nat.eqb_spec j i) as [->|Hne].
  - f_equal. clear -Hj. induction l as [|j l IH]; [done|]. apply not_elem_of_cons in Hj as [Hne Hj]. cbn.
    destruct (Nat.eqb_spec j i); [congruence|by apply IH].
  - apply IH; [done|]. by apply elem_of_cons in Hi as [->|].
Qed.
Lemma elem_of_list_delete i j h : j ∈ concat (list_delete i h) ↔ j ∈ concat h ∧ j ≠ i.
Proof.
  rewrite concat_list_delete, elem_of_filter_bool, negb_true_iff, Nat.eqb_neq. done.
Qed.

Lemma free_table ap s m a i :
  table s m → m !! a = Some i → table (rtw_free_stainfo ap s (Some i)) (delete a m).
Proof.
  intros [Hwf Hm] Ha. apply Hm in Ha as Hi. destruct Hi as [Hi Hai]. unfold rtw_free_stainfo.
  set (s1 := set_count _ _). destruct (free_aid_same ap s1 i) as (Hq & Hh & Hc & Hb & Hmac). cbv zeta in *.
  set (s2 := free_aid ap s1 i) in *. cbn [s1 set_count set_hash] in Hq, Hh, Hc, Hb.
  assert (∀ j, mac_of (set_free (s2.(free_sta_queue) ++ [i]) s2) j = mac_of s j) as Hmac' by (intros j; apply Hmac).
  pose proof (filter_neq_perm i _ (wf_linked_nodup s Hwf) Hi) as Pf.
  split; [split|]; cbn [set_free pstainfo_buf sta_hash free_sta_queue asoc_sta_count].
  - by rewrite Hb, <- (wf_buf s Hwf).
  - rewrite Hh. cbn. unfold list_delete. by rewrite length_map, (wf_hash s Hwf).
  - rewrite Hq, Hh. cbn [s1 set_count set_hash sta_hash free_sta_queue]. rewrite concat_list_delete, <- (wf_slots s Hwf), <- app_assoc. cbn [app].
    by rewrite Pf.
  - intros b l j Hl Hj. rewrite Hmac'. rewrite Hh in Hl. cbn in Hl. unfold list_delete in Hl.
    apply list_lookup_fmap_Some in Hl as (l0 & -> & Hl). apply elem_of_filter_bool in Hj as [Hj _].
    by apply (wf_bucket s Hwf b l0).
  - rewrite Hc, Hh. cbn [s1 set_count set_hash sta_hash asoc_sta_count]. rewrite concat_list_delete, (wf_count s Hwf).
    apply Permutation_length in Pf. cbn in Pf. lia.
  - intros b j. rewrite Hmac'. cbn [set_free sta_hash]. rewrite Hh. cbn [s1 set_count set_hash sta_hash].
    rewrite elem_of_list_delete, lookup_delete_Some, (Hm b j). split.
    + intros (Hne & Hj & <-). split_and!; try done. intros ->. congruence.
    + intros ((Hj & Hne) & <-). split_and!; try done. intros E. apply Hne.
      assert (m !! mac_of s j = Some j) by (by apply Hm). congruence.
Qed.

(** ** Sequences of operations

    The callers look a station up before they allocate a record for it, as
    [OnAuth] does. *)
Definition get_or_alloc (s : sta_priv) (sa : list Z) : option nat * sta_priv :=
  match rtw_get_stainfo s sa with
  | Some i => (Some i, s)
  | None => rtw_alloc_stainfo s sa
  end.

(** [start_ap_mode] and [rtw_free_assoc_resources] make the broadcast station
    anew: the old record is freed when there is one, then
    [rtw_init_bcmc_stainfo] allocates.  [rtw_setopmode] allocates behind
    [stop_ap_mode], which has freed the old one. *)
Definition renew_bcmc (ap : bool) (s : sta_priv) : option nat * sta_priv :=
  let s := rtw_free_stainfo ap s (rtw_get_bcmc_stainfo s) in
  let '(ok, s) := rtw_init_bcmc_stainfo s in
  (if ok then rtw_get_bcmc_stainfo s else None, s).

(** [OpFree] at a group address frees the broadcast station, as [stop_ap_mode] does. *)
Inductive op :=
  | OpGet (a : list Z) | OpAdd (a : list Z) | OpFree (ap : bool) (a : list Z) | OpFreeAll (ap : bool) | OpBcmc (ap : bool).
Definition step (s : sta_priv) (o : op) : option nat * sta_priv :=
  match o with
  | OpGet a => (rtw_get_stainfo s a, s)
  | OpAdd a => get_or_alloc s a
  | OpFree ap a => (rtw_get_stainfo s a, rtw_free_stainfo ap s (rtw_get_stainfo s a))
  | OpFreeAll ap => (None, rtw_free_all_stainfo ap s)
  | OpBcmc ap => renew_bcmc ap s
  end.
(** A record is added at a unicast address or at the broadcast address; at
    another group address [get_or_alloc] gives the broadcast station, but when
    there is none it makes a record that no lookup finds ([group_add_unfound]). *)
Definition legal (o : op) : Prop :=
  match o with OpAdd a => canon a = a | _ => True end.

(** The specification: a partial map of at most [NUM_STA] entries. *)
Inductive spec : gmap (list Z) nat → op → option nat → gmap (list Z) nat → Prop :=
  | spec_get m a : spec m (OpGet a) (m !! canon a) m
  | spec_present m a i : m !! a = Some i → spec m (OpAdd a) (Some i) m
  | spec_add m a i :
      m !! a = None → (size m < NUM_STA)%nat → (∀ b, m !! b ≠ Some i) → spec m (OpAdd a) (Some i) (<[a := i]> m)
  | spec_full m a : m !! a = None → size m = NUM_STA → spec m (OpAdd a) None m
  | spec_free m ap a : spec m (OpFree ap a) (m !! canon a) (delete (canon a) m)
  | spec_free_all m ap :
      size m ≠ 1%nat → spec m (OpFreeAll ap) None (filter (λ p, p.1 = bc_addr) m)
  (** [rtw_free_all_stainfo] takes a single entry for the broadcast station *)
  | spec_free_none m ap : size m = 1%nat → spec m (OpFreeAll ap) None m
  | spec_bcmc m ap i :
      (∀ b, b ≠ bc_addr → m !! b ≠ Some i) → (size (delete bc_addr m) < NUM_STA)%nat →
      spec m (OpBcmc ap) (Some i) (<[bc_addr := i]> m)
  | spec_bcmc_full m ap : m !! bc_addr = None → size m = NUM_STA → spec m (OpBcmc ap) None m.

(** *** Freeing everything *)
Lemma free_stainfo_unlinked ap s i : i ∉ concat s.(sta_hash) →
  let s' := rtw_free_stainfo ap s (Some i) in
  concat s'.(sta_hash) = concat s.(sta_hash) ∧ (∀ b l, s'.(sta_hash) !! b = Some l → ∃ l0, s.(sta_hash) !! b = Some l0 ∧ ∀ j, j ∈ l → j ∈ l0) ∧
  length s'.(sta_hash) = length s.(sta_hash) ∧
  s'.(free_sta_queue) = s.(free_sta_queue) ++ [i] ∧ s'.(asoc_sta_count) = s.(asoc_sta_count) - 1 ∧
  length s'.(pstainfo_buf) = length s.(pstainfo_buf) ∧ ∀ j, mac_of s' j = mac_of s j.
Proof.
  intros Hi. unfold rtw_free_stainfo. set (s1 := set_count _ _).
  destruct (free_aid_same ap s1 i) as (Hq & Hh & Hc & Hb & Hmac). cbv zeta in *.
  set (s2 := free_aid ap s1 i) in *. cbn [set_free sta_hash free_sta_queue asoc_sta_count pstainfo_buf].
  rewrite Hq, Hh, Hc, Hb. cbn [s1 set_count set_hash sta_hash free_sta_queue asoc_sta_count pstainfo_buf].
  split_and!; try done.
  - rewrite concat_list_delete. clear -Hi. induction (concat (sta_hash s)) as [|j l IH]; [done|].
    apply not_elem_of_cons in Hi as [Hne Hi]. cbn. destruct (Nat.eqb_spec j i); [congruence|]. cbn. by rewrite IH.
  - intros b l Hl. unfold list_delete in Hl. apply list_lookup_fmap_Some in Hl as (l0 & -> & Hl). exists l0. split; [done|].
    intros j Hj. by apply elem_of_filter_bool in Hj as [Hj _].
  - unfold list_delete. by rewrite length_map.
Qed.
Lemma free_list_unlinked ap l : ∀ s, Forall (λ i, i ∉ concat s.(sta_hash)) l →
  let s' := fold_left (λ s i, rtw_free_stainfo ap s (Some i)) l s in
  concat s'.(sta_hash) = concat s.(sta_hash) ∧ (∀ b l, s'.(sta_hash) !! b = Some l → ∃ l0, s.(sta_hash) !! b = Some l0 ∧ ∀ j, j ∈ l → j ∈ l0) ∧
  length s'.(sta_hash) = length s.(sta_hash) ∧
  s'.(free_sta_queue) = s.(free_sta_queue) ++ l ∧ s'.(asoc_sta_count) = s.(asoc_sta_count) - Z.of_nat (length l) ∧
  length s'.(pstainfo_buf) = length s.(pstainfo_buf) ∧ ∀ j, mac_of s' j = mac_of s j.
Proof.
  induction l as [|i l IH]; intros s Hl; cbn [fold_left].
  { cbv zeta. rewrite app_nil_r. split_and!; try done; [eauto|cbn; lia]. }
  apply Forall_cons in Hl as [Hi Hl]. destruct (free_stainfo_unlinked ap s i Hi) as (H1 & H2 & H3 & H4 & H5 & H6 & H7).
  cbv zeta in *. set (s1 := rtw_free_stainfo ap s (Some i)) in *.
  destruct (IH s1) as (G1 & G2 & G3 & G4 & G5 & G6 & G7); [by rewrite H1|].
  split_and!.
  - by rewrite G1.
  - intros b l' Hb. destruct (G2 b l' Hb) as (l1 & Hl1 & HH). destruct (H2 b l1 Hl1) as (l0 & Hl0 & HH'). eauto.
  - by rewrite G3.
  - by rewrite G4, H4, <- app_assoc.
  - rewrite G5, H5. cbn [length]. lia.
  - by rewrite G6.
  - intros j. by rewrite G7.
Qed.

Lemma free_all_table ap s m : table s m → size m ≠ 1%nat →
  table (rtw_free_all_stainfo ap s) (filter (λ p, p.1 = bc_addr) m).
Proof.
  intros [Hwf Hm] Hsz. unfold rtw_free_all_stainfo.
  rewrite (wf_count s Hwf), <- (represents_size s Hwf m Hm).
  destruct (Z.eqb_spec (Z.of_nat (size m)) 1) as [E|_]; [lia|].
  unfold rtw_get_bcmc_stainfo. rewrite (get_represents s Hwf m) by done. change (canon bc_addr) with bc_addr.
  set (keep := λ i, bool_decide (m !! bc_addr = Some i)).
  set (s1 := set_hash (map (List.filter keep) s.(sta_hash)) s). set (L := concat s.(sta_hash)) in *.
  assert (concat s1.(sta_hash) = List.filter keep L) as E1 by apply concat_map_filter.
  destruct (free_list_unlinked ap (List.filter (λ i, negb (keep i)) L) s1) as (G1 & G2 & G3 & G4 & G5 & G6 & G7).
  { rewrite E1. apply List.Forall_forall. intros i Hi%filter_In. destruct Hi as [_ Hi].
    intros Hk%elem_of_filter_bool. destruct Hk as [_ Hk]. by rewrite Hk in Hi. }
  cbv zeta in *. set (s2 := fold_left _ _ s1) in *.
  assert (∀ j, mac_of s1 j = mac_of s j) as Hmac by done.
  pose proof (filter_partition keep L) as PL.
  split; [split|].
  - by rewrite G6, <- (wf_buf s Hwf).
  - rewrite G3. cbn. by rewrite length_map, (wf_hash s Hwf).
  - rewrite G1, G4, E1, <- app_assoc. cbn [s1 set_hash free_sta_queue]. rewrite PL. apply (wf_slots s Hwf).
  - intros k l j Hl Hj. destruct (G2 k l Hl) as (l1 & Hl1 & HH). specialize (HH j Hj). rewrite G7, Hmac.
    cbn in Hl1. apply list_lookup_fmap_Some in Hl1 as (l0 & -> & Hl0). apply elem_of_filter_bool in HH as [HH _].
    by apply (wf_bucket s Hwf k l0).
  - rewrite G5, G1, E1. cbn [s1 set_hash asoc_sta_count]. rewrite (wf_count s Hwf). fold L.
    apply Permutation_length in PL. rewrite length_app in PL. lia.
  - intros a j. rewrite G7, Hmac, G1, E1, elem_of_filter_bool, map_lookup_filter_Some, (Hm a j). cbn [fst].
    unfold keep. rewrite bool_decide_eq_true, (Hm bc_addr j). fold L. naive_solver.
Qed.

(** *** The refinement *)
Lemma get_or_alloc_refines s m a : table s m → canon a = a →
  ∃ m', spec m (OpAdd a) (get_or_alloc s a).1 m' ∧ table (get_or_alloc s a).2 m'.
Proof.
  intros [Hwf Hm] Hc. unfold get_or_alloc. rewrite (get_represents s Hwf m), Hc by done.
  destruct (m !! a) as [i|] eqn:Ea; [exists m; by split; [constructor|split]|].
  destruct s.(free_sta_queue) as [|i q] eqn:Eq.
  - destruct (alloc_full s m a) as [-> Hs]; [done|done|]. exists m. by split; [apply spec_full|split].
  - destruct (alloc_free s m a i q) as (Hs & Hi & s' & -> & Ht); [done|done|done|]. exists (<[a := i]> m).
    by split; [apply spec_add|].
Qed.
Lemma free_found_table ap s m a : table s m → table (rtw_free_stainfo ap s (rtw_get_stainfo s a)) (delete (canon a) m).
Proof.
  intros [Hwf Hm]. rewrite (get_represents s Hwf m) by done.
  destruct (m !! canon a) as [i|] eqn:Ea; [by apply free_table|]. cbn. by rewrite delete_id.
Qed.
Lemma renew_bcmc_refines ap s m : table s m →
  ∃ m', spec m (OpBcmc ap) (renew_bcmc ap s).1 m' ∧ table (renew_bcmc ap s).2 m'.
Proof.
  intros Ht. pose proof (free_found_table ap s m bc_addr Ht) as H0. change (canon bc_addr) with bc_addr in H0.
  unfold renew_bcmc, rtw_init_bcmc_stainfo, rtw_get_bcmc_stainfo.
  set (s0 := rtw_free_stainfo ap s (rtw_get_stainfo s bc_addr)) in *.
  destruct s0.(free_sta_queue) as [|i q] eqn:Eq.
  - destruct (alloc_full s0 _ bc_addr H0 Eq) as [-> Hs]. cbn. exists m.
    assert (m !! bc_addr = None) as Hn.
    { destruct (m !! bc_addr) eqn:Eb; [|done]. rewrite map_size_delete, Eb in Hs.
      destruct Ht as [Hwf Hm]. pose proof (represents_size s Hwf m Hm) as Hz.
      pose proof (Permutation_length (wf_slots s Hwf)) as P. rewrite length_app, length_seq in P. unfold NUM_STA in *. lia. }
    rewrite delete_id in H0, Hs by done. by split; [apply spec_bcmc_full|].
  - destruct (alloc_free s0 _ bc_addr i q H0 Eq) as (Hs & Hi & s' & -> & Ht'); [apply lookup_delete_eq|].
    rewrite insert_delete_eq in Ht'. cbn. exists (<[bc_addr := i]> m). split; [|done]. destruct Ht' as [Hw Hr].
    rewrite (get_represents s' Hw _ bc_addr Hr). change (canon bc_addr) with bc_addr.
    rewrite lookup_insert_eq. apply spec_bcmc; [|done]. intros b Hb. specialize (Hi b). by rewrite lookup_delete_ne in Hi.
Qed.

Lemma table_step_refines s m o :
  table s m → legal o → ∃ m', spec m o (step s o).1 m' ∧ table (step s o).2 m'.
Proof.
  intros Ht Hl. pose proof Ht as [Hwf Hm]. pose proof (get_represents s Hwf m) as Hg.
  destruct o as [a|a|ap a|ap|ap]; cbn [step fst snd legal] in *.
  - exists m. rewrite Hg by done. by split; [constructor|].
  - by apply get_or_alloc_refines.
  - exists (delete (canon a) m). split; [|by apply free_found_table]. rewrite Hg by done. constructor.
  - destruct (decide (size m = 1%nat)) as [E|E].
    + exists m. split; [by apply spec_free_none|]. unfold rtw_free_all_stainfo.
      by rewrite (wf_count s Hwf), <- (represents_size s Hwf m Hm), E.
    + eexists. by split; [apply spec_free_all|apply free_all_table].
  - by apply renew_bcmc_refines.
Qed.

Fixpoint run (s : sta_priv) (ops : list op) : list (option nat) * sta_priv :=
  match ops with
  | [] => ([], s)
  | o :: ops => let '(r, s) := step s o in let '(rs, s) := run s ops in (r :: rs, s)
  end.
Inductive spec_run : gmap (list Z) nat → list op → list (option nat) → gmap (list Z) nat → Prop :=
  | spec_nil m : spec_run m [] [] m
  | spec_cons m o r m1 ops rs m2 : spec m o r m1 → spec_run m1 ops rs m2 → spec_run m (o :: ops) (r :: rs) m2.

Lemma table_run_refines ops : ∀ s m, table s m → Forall legal ops →
  ∃ m', spec_run m ops (run s ops).1 m' ∧ table (run s ops).2 m'.
Proof.
  induction ops as [|o ops IH]; intros s m Ht Hl; [exists m; by split; [constructor|]|].
  apply Forall_cons in Hl as [Ho Hl]. destruct (table_step_refines s m o Ht Ho) as (m1 & H1 & H2).
  cbn [run]. destruct (step s o) as [r s1]. cbn [fst snd] in *.
  destruct (IH s1 m1 H2 Hl) as (m2 & H4 & H5). destruct (run s1 ops) as [rs s2].
  exists m2. split; [by econstructor|done].
Qed.

Lemma init_bcmc_table num :
  ∃ s, rtw_init_bcmc_stainfo (rtw_init_sta_priv num) = (true, s) ∧ table s {[bc_addr := 0%nat]}.
Proof.
  destruct (alloc_free (rtw_init_sta_priv num) ∅ bc_addr 0%nat (seq 1 31)) as (_ & _ & s & E & Ht);
    [apply init_table|done|done|]. unfold rtw_init_bcmc_stainfo. rewrite E. exists s. split; [done|]. by rewrite insert_empty in Ht.
Qed.

(** C23: The station table is a partial map of at most [NUM_STA] addresses: from
    its initialisation on, every sequence of lookups, additions, removals and
    flushes, the removal and the renewal of the broadcast station among them,
    gives what the map gives.  A record that is in use is never handed out again,
    group addresses all find the broadcast station, and an addition fails only
    when the table is full.  A flush leaves the broadcast station alone, except
    that it leaves a table with a single entry as it is, whatever the entry
    ([flush_leaves_station]).  Additions are at unicast addresses or at the
    broadcast address, and look the address up first. *)
Theorem sta_table_refines_map num ops :
  Forall legal ops →
  ∃ s0, rtw_init_bcmc_stainfo (rtw_init_sta_priv num) = (true, s0) ∧
  ∃ m, spec_run {[bc_addr := 0%nat]} ops (run s0 ops).1 m ∧ represents (run s0 ops).2 m.
Proof.
  intros Hl. destruct (init_bcmc_table num) as (s0 & E & Ht). exists s0. split; [done|].
  destruct (table_run_refines ops s0 _ Ht Hl) as (m & H1 & _ & H2). by exists m.
Qed.
Lemma sta_table_refines_map_witness :
  let ops := [OpAdd [2;0;0;0;0;1]; OpAdd [2;0;0;0;0;2]; OpFree true [2;0;0;0;0;1]; OpGet [1;0;0;0;0;9]; OpFreeAll true;
    OpFree true bc_addr; OpAdd [2;0;0;0;0;3]; OpFreeAll true; OpBcmc false] in
  ∃ s0, rtw_init_bcmc_stainfo (rtw_init_sta_priv 16) = (true, s0) ∧
  ∃ m, spec_run {[bc_addr := 0%nat]} ops (run s0 ops).1 m ∧ represents (run s0 ops).2 m.
Proof. apply (sta_table_refines_map 16). repeat constructor. Defined.

(** [stop_ap_mode] frees the broadcast station.  A station added before the
    broadcast station is made anew is then the only record, and a flush leaves
    it, since [rtw_free_all_stainfo] takes a count of one for the broadcast
    station. *)
Example flush_leaves_station :
  let s0 := (rtw_init_bcmc_stainfo (rtw_init_sta_priv 16)).2 in
  let s := (run s0 [OpFree true bc_addr; OpAdd [2;0;0;0;0;1]; OpFreeAll true]).2 in
  rtw_get_stainfo s [2;0;0;0;0;1] = Some 1%nat ∧ rtw_get_bcmc_stainfo s = None.
Proof. split; vm_compute; reflexivity. Qed.
(** Without the broadcast station, an addition at another group address makes a
    record that no lookup finds; a second one makes another. *)
Example group_add_unfound :
  let s0 := (rtw_init_bcmc_stainfo (rtw_init_sta_priv 16)).2 in
  let g := [1;0;0;0;0;9] in
  (run s0 [OpFree true bc_addr; OpAdd g; OpGet g; OpAdd g; OpGet g]).1 = [Some 0%nat; Some 1%nat; None; Some 2%nat; None].
Proof. vm_compute. reflexivity. Qed.

(** Every record is in exactly one of the free queue and the buckets, a
    linked one in the bucket of its address, and [asoc_sta_count] counts the
    linked ones, after every sequence of operations. *)
Theorem sta_table_wf num ops s0 :
  Forall legal ops → rtw_init_bcmc_stainfo (rtw_init_sta_priv num) = (true, s0) → wf (run s0 ops).2.
Proof.
  intros Hl E. destruct (init_bcmc_table num) as (s0' & E' & Ht). rewrite E in E'. injection E' as <-.
  by destruct (table_run_refines ops s0 _ Ht Hl) as (m & _ & H1 & _).
Qed.
Lemma sta_table_wf_witness :
  wf (run (rtw_init_bcmc_stainfo (rtw_init_sta_priv 16)).2 [OpAdd [2;0;0;0;0;1]; OpFree false [2;0;0;0;0;1]; OpAdd [2;0;0;0;0;7]]).2.
Proof. apply (sta_table_wf 16); [repeat constructor|vm_compute; reflexivity]. Defined.

(** ** Association identifiers *)
Record wf_aid (s : sta_priv) : Prop := {
  wf_aid_len : Z.of_nat (length s.(sta_aid)) = s.(max_aid);
  wf_aid_start : 1 ≤ s.(started_aid) ≤ s.(max_aid);
  wf_aid_limit : 0 < s.(max_num_sta)
}.
Definition is_used (s : sta_priv) (k : nat) : bool :=
  match s.(sta_aid) !! k with Some (Some _) => true | _ => false end.
(** The number of identifiers in use. *)
Definition used (s : sta_priv) : Z := Z.of_nat (length (List.filter (is_used s) (seq 0 (length s.(sta_aid))))).
(** The position the search looks at in iteration [k]. *)
Definition probe (s : sta_priv) (k : nat) : nat := Z.to_nat ((Z.of_nat k + s.(started_aid) - 1) mod s.(max_aid)).

Section aid.
Context (s : sta_priv) (Hwf : wf_aid s).

Lemma probe_lt k : (probe s k < length s.(sta_aid))%nat.
Proof using Hwf.
  unfold probe. destruct Hwf as [Hlen Hst _].
  pose proof (Z.mod_pos_bound (Z.of_nat k + s.(started_aid) - 1) s.(max_aid) ltac:(lia)). lia.
Qed.
Lemma probe_inj i j : Z.of_nat i < s.(max_aid) → Z.of_nat j < s.(max_aid) → probe s i = probe s j → i = j.
Proof using Hwf.
  unfold probe. destruct Hwf as [_ Hst _]. intros Hi Hj E.
  pose proof (Z.mod_pos_bound (Z.of_nat i + s.(started_aid) - 1) s.(max_aid) ltac:(lia)).
  pose proof (Z.mod_pos_bound (Z.of_nat j + s.(started_aid) - 1) s.(max_aid) ltac:(lia)).
  apply Z2Nat.inj in E; [|lia|lia].
  pose proof (Z.div_mod (Z.of_nat i + s.(started_aid) - 1) s.(max_aid) ltac:(lia)) as Di.
  pose proof (Z.div_mod (Z.of_nat j + s.(started_aid) - 1) s.(max_aid) ltac:(lia)) as Dj.
  rewrite E in Di. clear E. revert Di Dj.
  generalize ((Z.of_nat i + s.(started_aid) - 1) / s.(max_aid)), ((Z.of_nat j + s.(started_aid) - 1) / s.(max_aid)).
  intros q q' Di Dj. destruct (Z.lt_trichotomy q q') as [Hq|[Hq|Hq]]; nia.
Qed.
Lemma probes_used n :
  Z.of_nat n ≤ s.(max_aid) → (∀ k, (k < n)%nat → is_used s (probe s k) = true) → Z.of_nat n ≤ used s.
Proof using Hwf.
  intros Hn Hu. unfold used. assert (length (map (probe s) (seq 0 n)) = n) as L by (by rewrite length_map, length_seq).
  apply inj_le. etrans; [apply Nat.eq_le_incl; symmetry; exact L|]. apply NoDup_incl_length.
  - apply NoDup_ListNoDup, NoDup_fmap_2_strong; [|apply NoDup_seq].
    intros i j Hi%elem_of_seq Hj%elem_of_seq. apply probe_inj; lia.
  - intros k Hk. apply in_map_iff in Hk as (j & <- & Hj%in_seq). apply filter_In. split; [|apply Hu; lia].
    apply in_seq. pose proof (probe_lt j). lia.
Qed.

(** The loop stops at the first free identifier, at the limit, or at the end. *)
Lemma aid_loop_spec n : ∀ k a0,
  Z.of_nat (k + n) = s.(max_aid) → (∀ j, (j < k)%nat → is_used s (probe s j) = true) → Z.of_nat k < s.(max_num_sta) →
  ∃ i a u, aid_loop n s (Z.of_nat k) a0 (Z.of_nat k) = (Z.of_nat i, a, u) ∧
    ((i < k + n)%nat ∧ a = Z.of_nat (probe s i) + 1 ∧ is_used s (probe s i) = false ∧ u < s.(max_num_sta) ∨
     Z.min s.(max_aid) s.(max_num_sta) ≤ used s ∧ (s.(max_aid) ≤ Z.of_nat i ∨ s.(max_num_sta) ≤ u)).
Proof using Hwf.
  induction n as [|n IH]; intros k a0 Hk Hu Hlim; cbn [aid_loop].
  { exists k, a0, (Z.of_nat k). split; [done|]. right. split; [|left; lia]. pose proof (probes_used k ltac:(lia) Hu). lia. }
  assert ((Z.of_nat k + s.(started_aid) - 1) mod s.(max_aid) = Z.of_nat (probe s k)) as Ep.
  { unfold probe. rewrite Z2Nat.id; [done|]. destruct Hwf as [_ Hst _]. apply Z.mod_pos_bound. lia. }
  rewrite Ep. replace (Z.of_nat (probe s k) + 1 - 1) with (Z.of_nat (probe s k)) by lia. rewrite Nat2Z.id.
  pose proof (probe_lt k) as Hp. apply lookup_lt_is_Some_2 in Hp as [[x|] Hx]; rewrite Hx.
  - assert (∀ j, (j < S k)%nat → is_used s (probe s j) = true) as Hu'.
    { intros j Hj. destruct (decide (j = k)) as [->|]; [|apply Hu; lia]. unfold is_used. by rewrite Hx. }
    destruct (Z.leb_spec s.(max_num_sta) (Z.of_nat k + 1)).
    + exists k, (Z.of_nat (probe s k) + 1), (Z.of_nat k + 1). split; [done|]. right. split; [|by right].
      pose proof (probes_used (S k) ltac:(lia) Hu'). lia.
    + replace (Z.of_nat k + 1) with (Z.of_nat (S k)) by lia.
      destruct (IH (S k) (Z.of_nat (probe s k) + 1)) as (i & a & u & E & Hr); [lia|done|lia|]. exists i, a, u. split; [done|].
      destruct Hr as [(? & ? & ? & ?)|?]; [left|by right]. split_and!; try done. lia.
  - exists k, (Z.of_nat (probe s k) + 1), (Z.of_nat k). split; [done|]. left. split_and!; try done; [lia|].
    unfold is_used. by rewrite Hx.
Qed.
End aid.

(** [rtw_aid_alloc] gives the station an identifier between 1 and [max_aid]
    that was free and records it, the other identifiers keep their stations; it
    gives 0 only when [max_aid] or [max_num_sta] identifiers are in use. *)
Theorem aid_alloc_exact s sta :
  wf_aid s →
  let '(a, s') := rtw_aid_alloc s sta in
  wf_aid s' ∧
  (1 ≤ a ≤ s.(max_aid) ∧ s.(sta_aid) !! Z.to_nat (a - 1) = Some None ∧
     s'.(sta_aid) = <[Z.to_nat (a - 1) := Some sta]> s.(sta_aid) ∨
   a = 0 ∧ s'.(sta_aid) = s.(sta_aid) ∧ Z.min s.(max_aid) s.(max_num_sta) ≤ used s).
Proof.
  intros Hwf. pose proof Hwf as [Hlen Hst Hlim]. unfold rtw_aid_alloc.
  destruct (aid_loop_spec s Hwf (Z.to_nat s.(max_aid)) 0 0) as (i & a & u & E & Hr); [lia|intros; lia|lia|].
  change (Z.of_nat 0) with 0 in E. rewrite E. destruct Hr as [(Hi & -> & Hf & Hu)|[Hused Hend]].
  - rewrite (proj2 (Z.leb_gt _ _)), (proj2 (Z.leb_gt _ _)) by lia. cbn [orb].
    pose proof (probe_lt s Hwf i) as Hp. rewrite (proj2 (Z.eqb_neq _ _)) by lia.
    replace (Z.of_nat (probe s i) + 1 - 1) with (Z.of_nat (probe s i)) by lia. rewrite Nat2Z.id. split.
    + split; cbn; rewrite ?length_insert; try done. destruct s.(rr_aid); [|done].
      pose proof (Z.mod_pos_bound (Z.of_nat (probe s i) + 1) s.(max_aid) ltac:(lia)). lia.
    + left. split_and!; try done; try lia. unfold is_used in Hf.
      destruct (lookup_lt_is_Some_2 _ _ Hp) as [[x|] Hx]; [by rewrite Hx in Hf|done].
  - assert ((s.(max_aid) <=? Z.of_nat i) || (s.(max_num_sta) <=? u) = true) as ->
      by (apply orb_true_iff; rewrite !Z.leb_le; lia).
    cbn [Z.eqb]. split; [by split|]. right. by split_and!.
Qed.
Lemma aid_alloc_exact_witness :
  let s := set_aids [Some 4%nat; None; Some 5%nat] 3 (rtw_init_sta_priv 3) in
  let '(a, s') := rtw_aid_alloc s 9 in
  wf_aid s' ∧
  (1 ≤ a ≤ s.(max_aid) ∧ s.(sta_aid) !! Z.to_nat (a - 1) = Some None ∧
     s'.(sta_aid) = <[Z.to_nat (a - 1) := Some 9%nat]> s.(sta_aid) ∨
   a = 0 ∧ s'.(sta_aid) = s.(sta_aid) ∧ Z.min s.(max_aid) s.(max_num_sta) ≤ used s).
Proof. intros s. apply (aid_alloc_exact s 9). split; vm_compute; [reflexivity|split; discriminate|reflexivity]. Defined.
