(* ===== verification/RecvFrame.v ===== *)
(** * Received frames and their pool: [include/rtw_recv.h], [core/rtw_recv.c]

    A received frame ([recv_frame_hdr]) is a window [rx_data .. rx_tail] into the buffer of a socket
    buffer, [rx_head .. rx_end].  [mem] is that buffer, so [rx_head] is offset 0
    and [rx_end] is [length mem]; a frame whose socket buffer was freed has an
    empty [mem], and every access to it is [Oob].  The driver owns
    [NR_RECVFRAME] frames; a frame is its index in that array, and a linked list
    is the list of the indices in it. *)
From S2P Require Import Prelude.
From stdpp Require Import list sets.
From S2P Require Import CryptoWrap Blocks Mem StaTable.
Local Open Scope Z_scope.

(** ** Data *)
Record rx_pkt_attrib := {
  f_hdrlen : Z; f_iv_len : Z; f_icv_len : Z; f_encrypt : Z;
  f_frag_num : Z; f_mfrag : Z; f_privacy : bool; f_bdecrypted : bool;
  f_key_index : Z; f_priority : Z; f_to_fr_ds : Z;
  f_dst : list Z; f_src : list Z; f_ta : list Z; f_ra : list Z
}.
Record recv_frame_hdr := {
  attrib : rx_pkt_attrib;
  keytrack : Z;
  len : Z;                        (* uint *)
  rx_data : Z; rx_tail : Z;
  mem : list Z
}.
Definition rx_end (f : recv_frame_hdr) : Z := Z.of_nat (length f.(mem)).

Definition set_attrib a f := Build_recv_frame_hdr a f.(keytrack) f.(len) f.(rx_data) f.(rx_tail) f.(mem).
Definition set_keytrack k f := Build_recv_frame_hdr f.(attrib) k f.(len) f.(rx_data) f.(rx_tail) f.(mem).
Definition set_mem m f := Build_recv_frame_hdr f.(attrib) f.(keytrack) f.(len) f.(rx_data) f.(rx_tail) m.
Definition set_win d t l f := Build_recv_frame_hdr f.(attrib) f.(keytrack) l d t f.(mem).
Definition set_icv_len n f := set_attrib (
  let a := f.(attrib) in
  Build_rx_pkt_attrib a.(f_hdrlen) a.(f_iv_len) n a.(f_encrypt) a.(f_frag_num) a.(f_mfrag) a.(f_privacy)
    a.(f_bdecrypted) a.(f_key_index) a.(f_priority) a.(f_to_fr_ds) a.(f_dst) a.(f_src) a.(f_ta) a.(f_ra)) f.

(** Reads and writes through a pointer into the buffer. *)
Definition ptr_read (m : list Z) (p n : Z) : cres (list Z) :=
  if p <? 0 then Oob else mem_readz m (Z.to_nat p) n.
Definition ptr_write (m : list Z) (p : Z) (s : list Z) : cres (list Z) :=
  if p <? 0 then Oob else buf_write m (Z.to_nat p) s.

(** ** The window operations: the pointer they return and the frame behind *)
Definition recvframe_push (f : recv_frame_hdr) (sz : Z) : option Z * recv_frame_hdr :=
  let d := f.(rx_data) - sz in
  if d <? 0 then (None, f) else (Some d, set_win d f.(rx_tail) (u32 (f.(len) + sz)) f).
Definition recvframe_pull (f : recv_frame_hdr) (sz : Z) : option Z * recv_frame_hdr :=
  let d := f.(rx_data) + sz in
  if f.(rx_tail) <? d then (None, f) else (Some d, set_win d f.(rx_tail) (u32 (f.(len) - sz)) f).
Definition recvframe_put (f : recv_frame_hdr) (sz : Z) : option Z * recv_frame_hdr :=
  let t := f.(rx_tail) + sz in
  if rx_end f <? t then (None, f) else (Some t, set_win f.(rx_data) t (u32 (f.(len) + sz)) f).
Definition recvframe_pull_tail (f : recv_frame_hdr) (sz : Z) : option Z * recv_frame_hdr :=
  let t := f.(rx_tail) - sz in
  if t <? f.(rx_data) then (None, f) else (Some t, set_win f.(rx_data) t (u32 (f.(len) - sz)) f).

(** ** The pool *)
Definition NR_RECVFRAME : nat := 256.
(** The receive state of the adapter: [recv_priv], the defragmentation queue of
    each station record ([sta_recvpriv.defrag_q]), [bcheck_grpkey] of
    [security_priv], and the Michael failures reported with
    [rtw_handle_tkip_mic_err], the last first. *)
Record recv_priv := {
  frames : list recv_frame_hdr;
  free_recv_queue : list nat;
  free_recvframe_cnt : Z;
  defrag_q : list (list nat);
  bcheck_grpkey : bool;
  mic_errs : list (nat * bool)
}.
Definition set_frames x s := Build_recv_priv x s.(free_recv_queue) s.(free_recvframe_cnt) s.(defrag_q) s.(bcheck_grpkey) s.(mic_errs).
Definition set_freeq q n s := Build_recv_priv s.(frames) q n s.(defrag_q) s.(bcheck_grpkey) s.(mic_errs).
Definition set_defrag q s := Build_recv_priv s.(frames) s.(free_recv_queue) s.(free_recvframe_cnt) q s.(bcheck_grpkey) s.(mic_errs).
Definition set_mic b l s := Build_recv_priv s.(frames) s.(free_recv_queue) s.(free_recvframe_cnt) s.(defrag_q) b l.
Definition upd_frame (i : nat) (g : recv_frame_hdr → recv_frame_hdr) s := set_frames (alter g i s.(frames)) s.

Definition null_attrib : rx_pkt_attrib := Build_rx_pkt_attrib 0 0 0 0 0 0 false false 0 0 0 [] [] [] [].
(** The state [_rtw_init_recv_priv] leaves, with memory available. *)
Definition rtw_init_recv_priv : recv_priv := {|
  frames := replicate NR_RECVFRAME (Build_recv_frame_hdr null_attrib 0 0 0 0 []);
  free_recv_queue := seq 0 NR_RECVFRAME;
  free_recvframe_cnt := Z.of_nat NR_RECVFRAME;
  defrag_q := replicate NUM_STA [];
  bcheck_grpkey := false;
  mic_errs := []
|}.
Definition rtw_alloc_recvframe (s : recv_priv) : option nat * recv_priv :=
  match s.(free_recv_queue) with
  | [] => (None, s)
  | i :: q => (Some i, set_freeq q (s.(free_recvframe_cnt) - 1) s)
  end.
(** [rtw_os_free_recvframe] gives the socket buffer back; [rtw_list_delete]
    unlinks the frame from the queue it is in, if any. *)
Definition rtw_free_recvframe (s : recv_priv) (i : nat) : recv_priv :=
  let s := upd_frame i (set_mem []) s in
  let s := set_defrag (list_delete i s.(defrag_q)) s in
  let q := List.filter (λ j, negb (j =? i)%nat) s.(free_recv_queue) in
  let s := upd_frame i (λ f, set_win f.(rx_data) f.(rx_tail) 0 f) s in
  set_freeq (q ++ [i]) (s.(free_recvframe_cnt) + 1) s.
(** The frames of the queue [k], each freed in turn. *)
Definition rtw_free_recvframe_queue (s : recv_priv) (k : nat) : recv_priv :=
  fold_left rtw_free_recvframe (default [] (s.(defrag_q) !! k)) s.
(** [rtw_list_insert_tail] on the queue [k]. *)
Definition defrag_insert_tail (k i : nat) (s : recv_priv) : recv_priv :=
  set_defrag (alter (λ q, q ++ [i]) k s.(defrag_q)) s.

(** ** Windows *)

(** A frame with a window inside its buffer. *)
Record frame_ok (f : recv_frame_hdr) : Prop := {
  fo_data : 0 ≤ f.(rx_data);
  fo_len : f.(rx_tail) = f.(rx_data) + f.(len);
  fo_pos : 0 ≤ f.(len);
  fo_end : f.(rx_tail) ≤ rx_end f;
  fo_small : rx_end f < 2 ^ 31
}.
(** The bytes of the window. *)
Definition contents (f : recv_frame_hdr) : list Z := slice (Z.to_nat f.(rx_data)) (Z.to_nat f.(len)) f.(mem).

Lemma length_contents f : frame_ok f → Z.of_nat (length (contents f)) = f.(len).
Proof.
  intros [Hd Hl Hp He _]. unfold contents, rx_end in *. rewrite length_slice; lia.
Qed.
Lemma u32_small x : 0 ≤ x < 2 ^ 31 → u32 x = x.
Proof. intros. apply u32_id. unfold uint. lia. Qed.

Section Window.
Context (f : recv_frame_hdr) (Hf : frame_ok f).

Lemma pull_some sz : 0 ≤ sz ≤ f.(len) →
  recvframe_pull f sz = (Some (f.(rx_data) + sz), set_win (f.(rx_data) + sz) f.(rx_tail) (f.(len) - sz) f).
Proof.
  intros Hs. destruct Hf. unfold recvframe_pull. rewrite (proj2 (Z.ltb_ge _ _)) by lia.
  rewrite u32_small by lia. done.
Qed.
Lemma pull_none sz : f.(len) < sz → recvframe_pull f sz = (None, f).
Proof. intros Hs. destruct Hf. unfold recvframe_pull. by rewrite (proj2 (Z.ltb_lt _ _)) by lia. Qed.
Lemma pull_tail_some sz : 0 ≤ sz ≤ f.(len) →
  recvframe_pull_tail f sz = (Some (f.(rx_tail) - sz), set_win f.(rx_data) (f.(rx_tail) - sz) (f.(len) - sz) f).
Proof.
  intros Hs. destruct Hf. unfold recvframe_pull_tail. rewrite (proj2 (Z.ltb_ge _ _)) by lia.
  rewrite u32_small by lia. done.
Qed.
Lemma pull_tail_none sz : f.(len) < sz → recvframe_pull_tail f sz = (None, f).
Proof. intros Hs. destruct Hf. unfold recvframe_pull_tail. by rewrite (proj2 (Z.ltb_lt _ _)) by lia. Qed.
Lemma put_some sz : 0 ≤ sz ≤ rx_end f - f.(rx_tail) →
  recvframe_put f sz = (Some (f.(rx_tail) + sz), set_win f.(rx_data) (f.(rx_tail) + sz) (f.(len) + sz) f).
Proof.
  intros Hs. destruct Hf. unfold recvframe_put. rewrite (proj2 (Z.ltb_ge _ _)) by lia.
  rewrite u32_small by lia. done.
Qed.

(** What the window shows afterwards. *)
Lemma pull_contents sz : 0 ≤ sz ≤ f.(len) →
  let f' := (recvframe_pull f sz).2 in frame_ok f' ∧ contents f' = drop (Z.to_nat sz) (contents f).
Proof.
  intros Hs. cbn zeta. rewrite pull_some by done. destruct Hf. split.
  - unfold rx_end in *. constructor; cbn; unfold rx_end; cbn; lia.
  - unfold contents, slice. cbn.  rewrite skipn_firstn_comm, drop_drop. f_equal; [lia|]. f_equal. lia.
Qed.
Lemma pull_tail_contents sz : 0 ≤ sz ≤ f.(len) →
  let f' := (recvframe_pull_tail f sz).2 in
  frame_ok f' ∧ contents f' = take (Z.to_nat (f.(len) - sz)) (contents f).
Proof.
  intros Hs. cbn zeta. rewrite pull_tail_some by done. destruct Hf. split.
  - constructor; cbn; unfold rx_end in *; cbn; lia.
  - unfold contents, slice. cbn. rewrite take_take. f_equal. lia.
Qed.
(** Bytes written behind the window and then taken into it. *)
Lemma put_contents (s : list Z) : Z.of_nat (length s) ≤ rx_end f - f.(rx_tail) →
  ∃ m, ptr_write f.(mem) f.(rx_tail) s = Ret m ∧
  let f' := (recvframe_put (set_mem m f) (Z.of_nat (length s))).2 in
  frame_ok f' ∧ contents f' = contents f ++ s ∧ rx_end f' = rx_end f.
Proof.
  intros Hs. destruct Hf. unfold rx_end in *. unfold ptr_write. rewrite (proj2 (Z.ltb_ge _ _)) by lia.
  rewrite buf_write_ok by lia. eexists. split; [done|]. cbn zeta.
  set (m := take _ _ ++ _ ++ _).
  assert (length m = length (mem f)) as Hlm by (subst m; rewrite !length_app, length_take, length_drop; lia).
  unfold recvframe_put, rx_end. cbn. rewrite Hlm, (proj2 (Z.ltb_ge _ _)), u32_small by lia. cbn.
  split_and!.
  - constructor; cbn; unfold rx_end; cbn; lia.
  - unfold contents, slice. cbn. subst m. rewrite drop_app_le by (rewrite length_take; lia).
    rewrite skipn_firstn_comm.
    replace (Z.to_nat (rx_tail f) - Z.to_nat (rx_data f))%nat with (Z.to_nat (len f)) by lia.
    rewrite app_assoc, take_app_le; [|rewrite length_app, length_take, length_drop; lia].
    rewrite take_ge; [done|rewrite length_app, length_take, length_drop; lia].
  - by rewrite Hlm.
Qed.
End Window.

(** ** Bytes at a pointer *)
Definition at_ptr (m : list Z) (p : Z) (l : list Z) : Prop :=
  ∃ pre post, m = pre ++ l ++ post ∧ p = Z.of_nat (length pre).
Lemma at_ptr_app m p a b : at_ptr m p (a ++ b) → at_ptr m p a ∧ at_ptr m (p + Z.of_nat (length a)) b.
Proof.
  intros (pre & post & -> & ->). split; [exists pre, (b ++ post)|exists (pre ++ a), post].
  - by rewrite <- !app_assoc.
  - rewrite <- !app_assoc, length_app. split; [done|lia].
Qed.
Lemma at_ptr_read m p l : at_ptr m p l → ptr_read m p (Z.of_nat (length l)) = Ret l.
Proof.
  intros (pre & post & -> & ->). unfold ptr_read. rewrite (proj2 (Z.ltb_ge _ _)), Nat2Z.id, mem_readz_nat by lia.
  apply mem_read_mid.
Qed.
Lemma at_ptr_read_z m p l n : at_ptr m p l → n = Z.of_nat (length l) → ptr_read m p n = Ret l.
Proof. intros H ->. by apply at_ptr_read. Qed.
Lemma at_ptr_contents f : frame_ok f → at_ptr f.(mem) f.(rx_data) (contents f).
Proof.
  intros []. exists (take (Z.to_nat f.(rx_data)) f.(mem)), (drop (Z.to_nat f.(len)) (drop (Z.to_nat f.(rx_data)) f.(mem))).
  unfold contents, slice, rx_end in *. rewrite take_drop, take_drop, length_take. split; [done|lia].
Qed.
(** Any range inside the buffer. *)
Lemma at_ptr_range m p n : 0 ≤ p → 0 ≤ n → p + n ≤ Z.of_nat (length m) →
  ∃ l, at_ptr m p l ∧ n = Z.of_nat (length l).
Proof.
  intros. exists (slice (Z.to_nat p) (Z.to_nat n) m). rewrite length_slice by lia. split; [|lia].
  exists (take (Z.to_nat p) m), (drop (Z.to_nat n) (drop (Z.to_nat p) m)). unfold slice.
  rewrite take_drop, take_drop, length_take. split; [done|lia].
Qed.

(** ** Accounting of the pool

    [pool_ok s fl]: every frame is in exactly one place, the free queue, one
    defragmentation queue, or [fl], the frames the receive path holds; and the
    counter counts the free queue. *)
Record pool_ok (s : recv_priv) (fl : list nat) : Prop := {
  po_perm : s.(free_recv_queue) ++ (concat s.(defrag_q) ++ fl) ≡ₚ seq 0 (length s.(frames));
  po_cnt : s.(free_recvframe_cnt) = Z.of_nat (length s.(free_recv_queue));
  po_frames : length s.(frames) = NR_RECVFRAME;
  po_queues : length s.(defrag_q) = NUM_STA
}.

#[local] Arguments list_delete : simpl never.
Lemma filter_neq_id i (l : list nat) : i ∉ l → List.filter (λ j, negb (j =? i)%nat) l = l.
Proof.
  induction l as [|x l IH]; [done|]. rewrite not_elem_of_cons. intros [Hx Hl]. cbn.
  rewrite (proj2 (Nat.eqb_neq x i)), IH by auto. done.
Qed.
Lemma list_delete_id i h : i ∉ concat h → list_delete i h = h.
Proof.
  induction h as [|l h IH]; [done|]. cbn. rewrite elem_of_app. intros Hn.
  unfold list_delete in *. cbn [map]. rewrite filter_neq_id, IH by tauto. done.
Qed.

Section Pool.
Context (s : recv_priv) (fl : list nat) (Hok : pool_ok s fl).

Lemma pool_nodup : NoDup (s.(free_recv_queue) ++ (concat s.(defrag_q) ++ fl)).
Proof. rewrite (po_perm _ _ Hok). apply NoDup_seq. Qed.
Lemma flight_elsewhere i : i ∈ fl → (i ∉ s.(free_recv_queue)) ∧ (i ∉ concat s.(defrag_q)).
Proof.
  intros Hi. pose proof pool_nodup as Hn. rewrite !NoDup_app in Hn. set_solver.
Qed.
Lemma queued_elsewhere i : i ∈ concat s.(defrag_q) → (i ∉ s.(free_recv_queue)) ∧ i ∉ fl.
Proof.
  intros Hi. pose proof pool_nodup as Hn. rewrite !NoDup_app in Hn. set_solver.
Qed.
Lemma flight_frame i : i ∈ fl → ∃ f, s.(frames) !! i = Some f.
Proof.
  intros Hi. apply lookup_lt_is_Some. assert (i ∈ seq 0 (length s.(frames))) as H.
  { rewrite <- (po_perm _ _ Hok). set_solver. }
  apply elem_of_seq in H. lia.
Qed.

Lemma pool_upd i g : pool_ok (upd_frame i g s) fl.
Proof. destruct Hok. constructor; cbn; rewrite ?length_alter; done. Qed.
Lemma pool_mic b l : pool_ok (set_mic b l s) fl.
Proof. destruct Hok. by constructor. Qed.
Lemma pool_perm fl' : fl ≡ₚ fl' → pool_ok s fl'.
Proof. intros Hp. destruct Hok. constructor; [by rewrite <- Hp|done..]. Qed.
Lemma pool_alloc i s' : rtw_alloc_recvframe s = (Some i, s') → pool_ok s' (i :: fl).
Proof.
  unfold rtw_alloc_recvframe. destruct (free_recv_queue s) as [|j q] eqn:Eq; [done|].
  intros [= -> <-]. destruct Hok as [Hp Hc Hf Hq]. rewrite Eq in *. cbn in Hc.
  constructor; cbn; [|lia|done..]. rewrite <- Hp. cbn. solve_Permutation.
Qed.
End Pool.

(** A frame the receive path holds goes back to the free queue. *)
Lemma pool_free s i fl : pool_ok s (i :: fl) → pool_ok (rtw_free_recvframe s i) fl.
Proof.
  intros Hok. destruct (flight_elsewhere _ _ Hok i) as [H1 H2]; [set_solver|].
  destruct Hok as [Hp Hc Hf Hq]. unfold rtw_free_recvframe. constructor; cbn.
  - rewrite !length_alter, filter_neq_id, list_delete_id by done. rewrite <- Hp. solve_Permutation.
  - rewrite filter_neq_id by done. rewrite length_app. cbn. lia.
  - by rewrite !length_alter.
  - rewrite list_delete_id by done. done.
Qed.

(** [rtw_list_delete] and [rtw_list_insert_tail] between the receive path and a queue. *)
Definition defrag_delete (i : nat) (s : recv_priv) : recv_priv := set_defrag (list_delete i s.(defrag_q)) s.

Lemma pool_dequeue s i fl : pool_ok s fl → i ∈ concat s.(defrag_q) → pool_ok (defrag_delete i s) (i :: fl).
Proof.
  intros Hok Hi. pose proof (pool_nodup _ _ Hok) as Hn. destruct Hok as [Hp Hc Hf Hq].
  constructor; [cbn|done|done|cbn; unfold list_delete; by rewrite length_map].
  rewrite <- Hp. rewrite concat_list_delete. apply Permutation_app_head.
  rewrite <- Permutation_middle, app_comm_cons, filter_neq_perm; [done| |done].
  rewrite !NoDup_app in Hn. tauto.
Qed.
Lemma pool_enqueue s i k fl : pool_ok s (i :: fl) → (k < NUM_STA)%nat → pool_ok (defrag_insert_tail k i s) fl.
Proof.
  intros [Hp Hc Hf Hq] Hk. constructor; cbn; [|done|done|by rewrite length_alter].
  rewrite <- Hp. rewrite concat_alter_snoc by lia. solve_Permutation.
Qed.
Lemma pool_free_queued s i fl : pool_ok s fl → i ∈ concat s.(defrag_q) → pool_ok (rtw_free_recvframe s i) fl.
Proof.
  intros Hok Hi. pose proof (pool_free _ _ _ (pool_dequeue _ _ _ Hok Hi)) as H.
  unfold rtw_free_recvframe, defrag_delete in *. cbn in *. revert H.
  rewrite (list_delete_id i (list_delete i _)); [done|]. rewrite elem_of_list_delete. tauto.
Qed.
Lemma filter_notin_nil (q : list nat) : List.filter (λ j, bool_decide (j ∉ (@nil nat))) q = q.
Proof. induction q as [|x q IH]; [done|]. cbn. rewrite bool_decide_eq_true_2 by set_solver. by rewrite IH. Qed.
Lemma filter_notin_cons i l (q : list nat) :
  List.filter (λ j, bool_decide (j ∉ i :: l)) q =
  List.filter (λ j, bool_decide (j ∉ l)) (List.filter (λ j, negb (j =? i)%nat) q).
Proof.
  induction q as [|x q IH]; [done|]. cbn. destruct (Nat.eqb_spec x i) as [->|Hx]; cbn.
  - rewrite bool_decide_eq_false_2 by set_solver. done.
  - rewrite IH. rewrite (bool_decide_ext (x ∉ i :: l) (x ∉ l)) by set_solver. done.
Qed.
Lemma filter_notin_all (l q : list nat) : (∀ i, i ∈ q → i ∈ l) → List.filter (λ j, bool_decide (j ∉ l)) q = [].
Proof.
  induction q as [|x q IH]; intros H; [done|]. cbn. rewrite bool_decide_eq_false_2 by set_solver.
  apply IH. set_solver.
Qed.
Lemma filter_notin_none (l q : list nat) : (∀ i, i ∈ q → i ∉ l) → List.filter (λ j, bool_decide (j ∉ l)) q = q.
Proof.
  induction q as [|x q IH]; intros H; [done|]. cbn. rewrite bool_decide_eq_true_2 by set_solver.
  f_equal. apply IH. set_solver.
Qed.

(** A list of frames freed one after the other. *)
Lemma free_list_spec l : ∀ s, NoDup l → (∀ i, i ∈ l → i ∉ s.(free_recv_queue)) →
  let s' := fold_left rtw_free_recvframe l s in
  s'.(free_recv_queue) = s.(free_recv_queue) ++ l ∧
  s'.(free_recvframe_cnt) = s.(free_recvframe_cnt) + Z.of_nat (length l) ∧
  s'.(defrag_q) = map (List.filter (λ j, bool_decide (j ∉ l))) s.(defrag_q) ∧
  length s'.(frames) = length s.(frames) ∧
  (∀ j, j ∉ l → s'.(frames) !! j = s.(frames) !! j) ∧
  s'.(bcheck_grpkey) = s.(bcheck_grpkey) ∧ s'.(mic_errs) = s.(mic_errs).
Proof.
  induction l as [|i l IH]; intros s Hn Hl; cbn [fold_left].
  - split_and!; try done; [by rewrite app_nil_r|cbn; lia|].
    induction (defrag_q s) as [|q h IHh]; [done|]. cbn [map]. by rewrite filter_notin_nil, <- IHh.
  - apply NoDup_cons in Hn as [Hi Hn].
    destruct (IH (rtw_free_recvframe s i)) as (E1 & E2 & E3 & E4 & E5 & E6 & E7); [done| |].
    { intros j Hj. cbn. rewrite elem_of_app, elem_of_filter_bool. set_solver. }
    cbn zeta. rewrite E1, E2, E3, E4, E6, E7. cbn. rewrite !length_alter, filter_neq_id by set_solver.
    split_and!; try done; [by rewrite <- app_assoc|lia| |].
    + unfold list_delete. rewrite map_map. apply map_ext. intros q. by rewrite filter_notin_cons.
    + intros j Hj. rewrite E5 by set_solver. cbn. rewrite !list_lookup_alter_ne by set_solver. done.
Qed.

Lemma in_queue (h : list (list nat)) k q i : h !! k = Some q → i ∈ q → i ∈ concat h.
Proof. intros Hk Hi. apply elem_of_concat. eauto. Qed.
Lemma queue_nodup (h : list (list nat)) k q : NoDup (concat h) → h !! k = Some q → NoDup q.
Proof.
  revert k. induction h as [|x h IH]; intros [|k] Hn Hk; cbn in *; [done|done|..]; rewrite NoDup_app in Hn.
  - naive_solver.
  - eapply IH; naive_solver.
Qed.
Lemma queue_cleared (h : list (list nat)) k q : NoDup (concat h) → h !! k = Some q →
  map (List.filter (λ j, bool_decide (j ∉ q))) h = <[k := []]> h.
Proof.
  revert k. induction h as [|x h IH]; intros [|k] Hn Hk; cbn [lookup list_lookup map] in *; try done;
    cbn [concat] in Hn; rewrite NoDup_app in Hn; destruct Hn as (Hx & Hxh & Hh).
  - injection Hk as ->. cbn. rewrite filter_notin_all by done. f_equal.
    clear IH Hh. induction h as [|y h IHh]; [done|]. cbn [map]. cbn [concat] in Hxh. rewrite IHh by set_solver.
    rewrite filter_notin_none by set_solver. done.
  - change (<[S k := []]> (x :: h)) with (x :: <[k := []]> h). rewrite (IH k) by done.
    rewrite filter_notin_none; [done|]. intros i Hi Hq. eapply Hxh; [done|]. by eapply in_queue.
Qed.
Lemma concat_cleared (h : list (list nat)) k q : h !! k = Some q → concat h ≡ₚ q ++ concat (<[k := []]> h).
Proof.
  revert k. induction h as [|x h IH]; intros [|k] Hk; cbn in *; try done.
  - by injection Hk as ->.
  - rewrite (IH k Hk). solve_Permutation.
Qed.

(** A queue freed with [rtw_free_recvframe_queue]. *)
Lemma free_queue_spec s fl k q : pool_ok s fl → s.(defrag_q) !! k = Some q →
  let s' := rtw_free_recvframe_queue s k in
  pool_ok s' fl ∧ s'.(defrag_q) = <[k := []]> s.(defrag_q) ∧
  s'.(free_recv_queue) = s.(free_recv_queue) ++ q ∧
  (∀ j, j ∉ q → s'.(frames) !! j = s.(frames) !! j) ∧
  s'.(bcheck_grpkey) = s.(bcheck_grpkey) ∧ s'.(mic_errs) = s.(mic_errs).
Proof.
  intros Hok Hk. pose proof (pool_nodup _ _ Hok) as Hn. rewrite !NoDup_app in Hn.
  destruct Hn as (_ & Hd & Hn & _). unfold rtw_free_recvframe_queue. rewrite Hk. change (default [] (Some q)) with q.
  destruct (free_list_spec q s) as (E1 & E2 & E3 & E4 & E5 & E6 & E7).
  { by eapply queue_nodup. }
  { intros i Hi Hf. apply (Hd i Hf). rewrite elem_of_app. left. by eapply in_queue. }
  cbn zeta. rewrite E1, E3, E6, E7, (queue_cleared _ _ _ Hn Hk). split_and!; try done.
  destruct Hok as [Hp Hc Hf Hq]. constructor.
  - rewrite E1, E3, E4, (queue_cleared _ _ _ Hn Hk), <- Hp, (concat_cleared _ _ _ Hk). solve_Permutation.
  - rewrite E1, E2, length_app. lia.
  - by rewrite E4.
  - by rewrite E3, length_map.
Qed.
