(* ===== verification/Defrag.v ===== *)
(** * Reassembly of fragmented frames: [recvframe_chk_defrag],
    [recvframe_defrag] and [recvframe_chkmic] of [core/rtw_recv.c]

    The fragments of a frame are kept in the defragmentation queue of the station
    that sent them (StaTable finds it by the transmitter address) until the last
    one arrives.  The frames are those of RecvFrame; a pointer to a frame is its
    index in the pool. *)
From S2P Require Import Prelude.
From stdpp Require Import list sets relations.
From S2P Require Import CryptoWrap Blocks Mem Tkip StaTable RecvFrame.
From S2P Require RecvPn.
Local Open Scope Z_scope.

(** ** Data *)
Definition _TKIP_ : Z := 2.
Definition _AES_ : Z := 4.
Definition _GCMP_ : Z := 7.
Definition _SEC_TYPE_256_ : Z := 0x10.
Definition _CCMP_256_ : Z := _AES_ .| _SEC_TYPE_256_.
Definition _GCMP_256_ : Z := _GCMP_ .| _SEC_TYPE_256_.
Definition WIFI_DATA_TYPE : Z := BIT 3.

(** What the functions read of the adapter: the station table, and of each station
    record the key generation counter and the Michael key; the group Michael keys
    and [binstallGrpkey] of [security_priv]; [key_index] of [mlme_ext_info]. *)
Record rx_ctx := {
  stapriv : sta_priv;
  sta_keytrack : nat → Z;
  dot11tkiprxmickey : nat → list Z;
  dot118021XGrprxmickey : list (list Z);
  binstallGrpkey : bool;
  mlme_key_index : Z
}.

(** ** The Michael check *)

(** The bytes of the header [rtw_seccalctkipmic] reads, which depend on the DS bits. *)
Definition mic_header_len (fc1 : Z) : Z :=
  if fc1 .& 1 =? 0 then (if fc1 .& 2 =? 0 then 16 else 22)
  else (if fc1 .& 2 =? 0 then 22 else 30).
Definition recvframe_chkmic (c : rx_ctx) (s : recv_priv) (i : nat) : cres (bool * recv_priv) :=
  match s.(frames) !! i with
  | None => Oob
  | Some f =>
      let a := f.(attrib) in
      let stainfo := rtw_get_stainfo c.(stapriv) a.(f_ta) in
      if a.(f_encrypt) =? _TKIP_ then
        match stainfo with
        | None => Ret (true, upd_frame i (λ f, (recvframe_pull_tail f 8).2) s)
        | Some sta =>
            let mc := IS_MCAST a.(f_ra) in
            if mc && negb c.(binstallGrpkey) then Ret (false, s)
            else
              let mickey := if mc then c.(dot118021XGrprxmickey) !! Z.to_nat a.(f_key_index)
                            else Some (c.(dot11tkiprxmickey) sta) in
              match mickey with
              | None => Oob
              | Some mickey =>
                  let datalen := u32 (f.(len) - a.(f_hdrlen) - a.(f_iv_len) - a.(f_icv_len) - 8) in
                  let pframe := f.(rx_data) in
                  let payload := pframe + a.(f_hdrlen) + a.(f_iv_len) in
                  let* fc := ptr_read f.(mem) pframe 2 in
                  let* header := ptr_read f.(mem) pframe (mic_header_len fc.[1]) in
                  let* data := ptr_read f.(mem) payload datalen in
                  let miccode := rtw_seccalctkipmic mickey header data a.(f_priority) in
                  let* framemic := ptr_read f.(mem) (payload + datalen) 8 in
                  let bmic_err := negb (bool_decide (miccode = framemic)) in
                  let brpt_micerror := negb (mc && negb (a.(f_key_index) =? c.(mlme_key_index))) in
                  let s :=
                    if bmic_err then
                      if a.(f_bdecrypted) && brpt_micerror
                      then set_mic s.(bcheck_grpkey) ((sta, mc) :: s.(mic_errs)) s else s
                    else
                      if negb s.(bcheck_grpkey) && mc then set_mic true s.(mic_errs) s else s in
                  Ret (negb bmic_err, upd_frame i (λ f, (recvframe_pull_tail f 8).2) s)
              end
        end
      else Ret (true, s)
  end.

(** ** Reassembly *)
Definition pn_cipher (e : Z) : bool := (e =? _AES_) || (e =? _CCMP_256_) || (e =? _GCMP_) || (e =? _GCMP_256_).
Definition fragment_pn (f : recv_frame_hdr) : cres Z :=
  let* h := ptr_read f.(mem) (f.(rx_data) + f.(attrib).(f_hdrlen)) 8 in
  Ret (RecvPn.CCMPH_2_PN (RecvPn.le64_to_cpu h)).

(** The packet number check of a fragment: the packet number it leaves in
    [cur_pn], or nothing when it is not the next one. *)
Definition pn_check (f : recv_frame_hdr) (cur_pn : Z) : cres (option Z) :=
  if pn_cipher f.(attrib).(f_encrypt) then
    let* pkt_pn := fragment_pn f in
    Ret (if pkt_pn =? u64 (cur_pn + 1) then Some pkt_pn else None)
  else Ret (Some cur_pn).

(** The payload of a fragment goes to the tail of the first one, over its ICV. *)
Definition append_fragment (pf nf : recv_frame_hdr) : cres recv_frame_hdr :=
  let pf := (recvframe_pull_tail pf pf.(attrib).(f_icv_len)).2 in
  let* data := ptr_read nf.(mem) nf.(rx_data) nf.(len) in
  let* m := ptr_write pf.(mem) pf.(rx_tail) data in
  let pf := (recvframe_put (set_mem m pf) nf.(len)).2 in
  Ret (set_icv_len nf.(attrib).(f_icv_len) pf).

(** The [while] loop of [recvframe_defrag] over the fragments left in the queue;
    the verdict tells whether it ran to the end. *)
Fixpoint defrag_loop (s : recv_priv) (pr : nat) (rest : list nat) (curfragnum cur_pn : Z) : cres (bool * recv_priv) :=
  match rest with
  | [] => Ret (true, s)
  | nx :: rest =>
      match s.(frames) !! pr, s.(frames) !! nx with
      | Some pf, Some nf =>
          let* pn := pn_check nf cur_pn in
          match pn with
          | None => Ret (false, s)
          | Some cur_pn =>
              if negb (pf.(keytrack) =? nf.(keytrack)) then Ret (false, s)
              else if negb (curfragnum =? nf.(attrib).(f_frag_num)) then Ret (false, s)
              else
                let wlanhdr_offset := u8 (nf.(attrib).(f_hdrlen) + nf.(attrib).(f_iv_len)) in
                let nf := (recvframe_pull nf wlanhdr_offset).2 in
                let s := upd_frame nx (λ _, nf) s in
                if rx_end pf - pf.(rx_tail) <? nf.(len) then Ret (false, s)
                else
                  let* pf := append_fragment pf nf in
                  defrag_loop (upd_frame pr (λ _, pf) s) pr rest (u8 (curfragnum + 1)) cur_pn
          end
      | _, _ => Oob
      end
  end.

(** Both ways to give a frame up: the first fragment, then the queue. *)
Definition release (s : recv_priv) (pr k : nat) : recv_priv :=
  rtw_free_recvframe_queue (rtw_free_recvframe s pr) k.
Definition recvframe_defrag (s : recv_priv) (k : nat) : cres (option nat * recv_priv) :=
  match s.(defrag_q) !! k with
  | Some (pr :: _) =>
      match s.(frames) !! pr with
      | None => Oob
      | Some pf =>
          let* cur_pn := if pn_cipher pf.(attrib).(f_encrypt) then fragment_pn pf else Ret 0 in
          let s := defrag_delete pr s in
          if negb (0 =? pf.(attrib).(f_frag_num)) then Ret (None, release s pr k)
          else
            let* (ok, s) := defrag_loop s pr (default [] (s.(defrag_q) !! k)) 1 cur_pn in
            Ret (if (ok : bool) then (Some pr, rtw_free_recvframe_queue s k) else (None, release s pr k))
      end
  | _ => Oob
  end.

(** ** The entry point *)
Definition GetFrameType (m : list Z) (p : Z) : cres Z :=
  let* fc := ptr_read m p 2 in Ret ((fc.[0] .| (fc.[1] << 8)) .& (BIT 3 .| BIT 2)).
(** The station whose queue is used: [psta], with [pdefrag_q] its queue. *)
Definition defrag_station (c : rx_ctx) (f : recv_frame_hdr) : cres (option nat) :=
  match rtw_get_stainfo c.(stapriv) f.(attrib).(f_ta) with
  | Some sta => Ret (Some sta)
  | None =>
      let* type := GetFrameType f.(mem) f.(rx_data) in
      Ret (if negb (type =? WIFI_DATA_TYPE) then rtw_get_bcmc_stainfo c.(stapriv) else None)
  end.

(** The last part: after reassembly the Michael code is checked. *)
Definition chk_defrag_mic (c : rx_ctx) (prtnframe : option nat) (s : recv_priv) : cres (option nat * recv_priv) :=
  match prtnframe with
  | Some j =>
      match s.(frames) !! j with
      | None => Oob
      | Some g =>
          if g.(attrib).(f_privacy) then
            let* (ok, s) := recvframe_chkmic c s j in
            Ret (if (ok : bool) then (Some j, s) else (None, rtw_free_recvframe s j))
          else Ret (Some j, s)
      end
  | None => Ret (None, s)
  end.
Definition recvframe_chk_defrag (c : rx_ctx) (s : recv_priv) (i : nat) : cres (option nat * recv_priv) :=
  match s.(frames) !! i with
  | None => Oob
  | Some f =>
      let ismfrag := f.(attrib).(f_mfrag) in
      let fragnum := f.(attrib).(f_frag_num) in
      let* psta := defrag_station c f in
      let whole := (ismfrag =? 0) && (fragnum =? 0) in
      if negb whole && IS_MCAST f.(attrib).(f_ra) then Ret (None, rtw_free_recvframe s i)
      else
        let s :=
          match psta with
          | Some sta => if whole then s else upd_frame i (set_keytrack (c.(sta_keytrack) sta)) s
          | None => s
          end in
        let prtnframe := if whole then Some i else None in
        let '(prtnframe, s) :=
          if ismfrag =? 1 then
            match psta with
            | Some k =>
                let s :=
                  if (fragnum =? 0) && negb (bool_decide (s.(defrag_q) !! k = Some [])) then rtw_free_recvframe_queue s k else s in
                (None, defrag_insert_tail k i s)
            | None => (None, rtw_free_recvframe s i)
            end
          else (prtnframe, s) in
        let* (prtnframe, s) :=
          if (ismfrag =? 0) && negb (fragnum =? 0) then
            match psta with
            | Some k => recvframe_defrag (defrag_insert_tail k i s) k
            | None => Ret (None, rtw_free_recvframe s i)
            end
          else Ret (prtnframe, s) in
        chk_defrag_mic c prtnframe s
  end.

(** ** Nothing but the frames' own fields changes *)
Record same_places (s s' : recv_priv) : Prop := {
  sp_free : s'.(free_recv_queue) = s.(free_recv_queue);
  sp_cnt : s'.(free_recvframe_cnt) = s.(free_recvframe_cnt);
  sp_queues : s'.(defrag_q) = s.(defrag_q);
  sp_len : length s'.(frames) = length s.(frames)
}.
#[global] Instance same_places_preorder : PreOrder same_places.
Proof. split; [by constructor|]. intros x y z [] []. constructor; congruence. Qed.
Lemma same_places_upd s i g : same_places s (upd_frame i g s).
Proof. constructor; cbn; rewrite ?length_alter; done. Qed.
Lemma same_places_mic s b l : same_places s (set_mic b l s).
Proof. by constructor. Qed.
Lemma same_places_pool s s' fl : same_places s s' → pool_ok s fl → pool_ok s' fl.
Proof. intros [E1 E2 E3 E4] []. constructor; rewrite ?E1, ?E2, ?E3, ?E4; done. Qed.
Create HintDb rxpool.
#[local] Hint Resolve same_places_upd same_places_mic : rxpool.
#[local] Hint Extern 1 (same_places ?s ?s) => reflexivity : rxpool.

Lemma cbind_ret {A B} (m : cres A) (k : A → cres B) b : cbind m k = Ret b → ∃ a, m = Ret a ∧ k a = Ret b.
Proof. destruct m; naive_solver. Qed.
Ltac cinv :=
  repeat match goal with
  | H : cbind _ _ = Ret _ |- _ => apply cbind_ret in H as (? & ? & H)
  | H : Ret _ = Ret _ |- _ => injection H as H
  | H : Oob = Ret _ |- _ => discriminate H
  | H : (_, _) = (_, _) |- _ => injection H as H
  end; subst.

Lemma chkmic_places c s i ok s' : recvframe_chkmic c s i = Ret (ok, s') → same_places s s'.
Proof.
  unfold recvframe_chkmic. intros H. repeat case_match; cinv; eauto with rxpool;
    (etrans; [|apply same_places_upd]); repeat case_match; eauto with rxpool.
Qed.
Lemma defrag_loop_places rest : ∀ s pr n pn ok s',
  defrag_loop s pr rest n pn = Ret (ok, s') → same_places s s'.
Proof.
  induction rest as [|nx rest IH]; intros s pr n pn ok s' H; cbn [defrag_loop] in H; [cinv; reflexivity|].
  repeat (case_match; cinv); eauto with rxpool.
  apply IH in H. by rewrite <- H, <- !same_places_upd.
Qed.

(** ** No frame is lost and none is in two places *)
Lemma station_lt sp a k : wf sp → rtw_get_stainfo sp a = Some k → (k < NUM_STA)%nat.
Proof.
  intros Hwf. unfold rtw_get_stainfo, find_sta. cbv zeta. case_match eqn:Hb; [|done]. intros Hf.
  apply find_some in Hf as [Hf _]. apply (wf_slot_lt _ Hwf). rewrite elem_of_app. right.
  apply elem_of_concat. eexists _, _. split; [done|]. by apply list_elem_of_In.
Qed.
Lemma defrag_station_lt c f k : wf c.(stapriv) → defrag_station c f = Ret (Some k) → (k < NUM_STA)%nat.
Proof.
  intros Hwf. unfold defrag_station. repeat case_match; intros; cinv; [by eapply station_lt|].
  case_match; [|done]. by eapply station_lt.
Qed.
Lemma release_pool s pr k fl : (k < NUM_STA)%nat → pool_ok s (pr :: fl) → pool_ok (release s pr k) fl.
Proof.
  intros Hk Hok. pose proof (pool_free _ _ _ Hok) as H. unfold release.
  destruct (lookup_lt_is_Some_2 (rtw_free_recvframe s pr).(defrag_q) k) as [q Hq]; [by rewrite (po_queues _ _ H)|].
  by destruct (free_queue_spec _ _ _ _ H Hq) as [? _].
Qed.
Lemma free_queue_pool s k fl : (k < NUM_STA)%nat → pool_ok s fl → pool_ok (rtw_free_recvframe_queue s k) fl.
Proof.
  intros Hk H. destruct (lookup_lt_is_Some_2 s.(defrag_q) k) as [q Hq]; [by rewrite (po_queues _ _ H)|].
  by destruct (free_queue_spec _ _ _ _ H Hq) as [? _].
Qed.

Lemma defrag_pool s k fl r s' : pool_ok s fl → (k < NUM_STA)%nat →
  recvframe_defrag s k = Ret (r, s') → pool_ok s' (option_list r ++ fl).
Proof.
  intros Hok Hk. unfold recvframe_defrag. case_match eqn:Hq; [|done]. case_match; [done|]. case_match eqn:Hpr; [|done].
  subst. intros H. cinv. assert (pool_ok (defrag_delete n s) (n :: fl)) as Hd.
  { apply pool_dequeue; [done|]. eapply in_queue; [done|]. set_solver. }
  case_match; cinv; [by apply release_pool|].
  destruct x0 as [ok s0]. assert (pool_ok s0 (n :: fl)) as Hs0.
  { eapply same_places_pool; [|done]. by eapply defrag_loop_places. }
  destruct ok; cinv; [by apply free_queue_pool|by apply release_pool].
Qed.

Lemma chk_mic_pool c r s fl r' s' :
  pool_ok s (option_list r ++ fl) → chk_defrag_mic c r s = Ret (r', s') → pool_ok s' (option_list r' ++ fl).
Proof.
  intros Hok. unfold chk_defrag_mic. repeat case_match; intros; cinv; try done.
  destruct x as [ok s0]. assert (pool_ok s0 (n :: fl)) as Hs0.
  { eapply same_places_pool; [|done]. by eapply chkmic_places. }
  destruct ok; cinv; [done|by apply pool_free].
Qed.
#[local] Arguments chk_defrag_mic : simpl never.
(** [recvframe_chk_defrag] conserves the frames: with every frame in the free queue,
    in one queue of fragments or held, and the counter right, so it is afterwards,
    with the frame handed in replaced by the one handed back, if any. *)
Theorem chk_defrag_conserves c s i f fl r s' :
  wf c.(stapriv) → pool_ok s (i :: fl) → s.(frames) !! i = Some f → f.(attrib).(f_mfrag) ∈ [0; 1] →
  recvframe_chk_defrag c s i = Ret (r, s') → pool_ok s' (option_list r ++ fl).
Proof.
  intros Hwf Hok Hi Hm. unfold recvframe_chk_defrag. rewrite Hi. cbv zeta. intros H.
  apply cbind_ret in H as (psta & Hs & H). case_match; [cinv; by apply pool_free|].
  set (s0 := match psta with Some _ => _ | None => s end) in H.
  assert (pool_ok s0 (i :: fl)) as Hs0 by (subst s0; repeat case_match; eauto using pool_upd).
  clearbody s0. clear Hok.
  destruct (Z.eqb_spec (f_mfrag (attrib f)) 1) as [E1|E1].
  - rewrite E1 in H. destruct psta as [k|]; cbn in H; (eapply chk_mic_pool; [|done]).
    + apply pool_enqueue; [|by eapply defrag_station_lt].
      case_match; [apply free_queue_pool; [by eapply defrag_station_lt|]|]; done.
    + by apply pool_free.
  - assert (f_mfrag (attrib f) = 0) as E0 by set_solver. rewrite E0 in H. cbn in H.
    destruct (Z.eqb_spec (f_frag_num (attrib f)) 0) as [En|En]; cbn in H; [by eapply chk_mic_pool; [|done]|].
    apply cbind_ret in H as ([r0 s1] & Hd & H). eapply chk_mic_pool; [|done].
    destruct psta as [k|]; cinv; [|by apply pool_free].
    pose proof (defrag_station_lt _ _ _ Hwf Hs). eapply defrag_pool; [|done|done]. by apply pool_enqueue.
Qed.

Lemma pool_init : pool_ok rtw_init_recv_priv [].
Proof. constructor; [|done..]. vm_compute. reflexivity. Qed.

(** ** What a fragment holds

    A well-formed fragment is header, IV (eight bytes where the cipher has packet
    numbers), body and ICV. *)
Record fragment (f : recv_frame_hdr) : Prop := {
  fr_ok : frame_ok f;
  fr_bytes : bytes f.(mem);
  fr_hdr : 0 ≤ f.(attrib).(f_hdrlen);
  fr_iv : 0 ≤ f.(attrib).(f_iv_len);
  fr_icv : 0 ≤ f.(attrib).(f_icv_len);
  fr_off : f.(attrib).(f_hdrlen) + f.(attrib).(f_iv_len) < 256;
  fr_len : f.(attrib).(f_hdrlen) + f.(attrib).(f_iv_len) + f.(attrib).(f_icv_len) ≤ f.(len);
  fr_num : 0 ≤ f.(attrib).(f_frag_num) < 16;
  fr_pn : pn_cipher f.(attrib).(f_encrypt) = true → f.(attrib).(f_iv_len) = 8
}.
Definition hdr_off (f : recv_frame_hdr) : Z := f.(attrib).(f_hdrlen) + f.(attrib).(f_iv_len).
Definition strip (f : recv_frame_hdr) : list Z := take (Z.to_nat (f.(len) - f.(attrib).(f_icv_len))) (contents f).
Definition icv (f : recv_frame_hdr) : list Z := drop (Z.to_nat (f.(len) - f.(attrib).(f_icv_len))) (contents f).
Definition body (f : recv_frame_hdr) : list Z := drop (Z.to_nat (hdr_off f)) (strip f).
Definition pn_of (f : recv_frame_hdr) : Z :=
  RecvPn.CCMPH_2_PN (RecvPn.le64_to_cpu (slice (Z.to_nat f.(attrib).(f_hdrlen)) 8 (contents f))).

(** The fragments that may follow fragment [n - 1] with packet number [pn]: the
    numbers count up, the key generation stays the same, and where the cipher
    has packet numbers they are consecutive. *)
Fixpoint in_order (kt n pn : Z) (fs : list recv_frame_hdr) : bool :=
  match fs with
  | [] => true
  | f :: fs =>
      let ciph := pn_cipher f.(attrib).(f_encrypt) in
      (if ciph then pn_of f =? pn + 1 else true) && (f.(keytrack) =? kt) && (f.(attrib).(f_frag_num) =? n) &&
      in_order kt (n + 1) (if ciph then pn_of f else pn) fs
  end.
(** They fit into the [space] behind the first fragment, whose ICV is overwritten. *)
Fixpoint fits (space icv_len : Z) (fs : list recv_frame_hdr) : bool :=
  match fs with
  | [] => true
  | f :: fs => (f.(len) - hdr_off f <=? space) && fits (space + icv_len - (f.(len) - hdr_off f)) f.(attrib).(f_icv_len) fs
  end.
Definition last_icv (f : recv_frame_hdr) (fs : list recv_frame_hdr) : list Z := icv (List.last fs f).

Lemma fragment_pn_ok f : fragment f → pn_cipher f.(attrib).(f_encrypt) = true → fragment_pn f = Ret (pn_of f) ∧ uint 48 (pn_of f).
Proof.
  intros [[] Hb Hh Hi Hc Ho Hl _ Hp] Hc'. specialize (Hp Hc'). unfold fragment_pn, pn_of, ptr_read, contents, rx_end in *.
  rewrite (proj2 (Z.ltb_ge _ _)) by lia. rewrite slice_slice by lia.
  unfold mem_readz. rewrite (proj2 (Z.leb_le _ _)) by lia. cbn [cbind].
  replace (Z.to_nat (rx_data f) + Z.to_nat (f_hdrlen (attrib f)))%nat with (Z.to_nat (rx_data f + f_hdrlen (attrib f))) by lia.
  split; [done|]. apply RecvPn.pn_of_hdr_uint; [|by apply slice_bytes]. rewrite length_slice; lia.
Qed.
Lemma pn_check_ok f pn : fragment f → uint 48 pn →
  let ciph := pn_cipher f.(attrib).(f_encrypt) in
  pn_check f pn = Ret (if (if ciph then pn_of f =? pn + 1 else true) then Some (if ciph then pn_of f else pn) else None).
Proof.
  intros Hf Hp. cbn zeta. unfold pn_check. destruct (pn_cipher _) eqn:E; [|done].
  destruct (fragment_pn_ok _ Hf E) as [-> _]. cbn [cbind]. rewrite u64_id; [done|]. unfold uint in *. lia.
Qed.
Lemma strip_icv f : strip f ++ icv f = contents f.
Proof. apply take_drop. Qed.
Lemma body_icv f : fragment f → drop (Z.to_nat (hdr_off f)) (contents f) = body f ++ icv f.
Proof.
  intros [Hok _ Hh Hi Hc _ Hl _ _]. rewrite <- strip_icv. unfold body, hdr_off.
  rewrite drop_app_le; [done|]. unfold strip. rewrite length_take. pose proof (length_contents _ Hok). lia.
Qed.

Lemma read_contents f : frame_ok f → ptr_read f.(mem) f.(rx_data) f.(len) = Ret (contents f).
Proof.
  intros []. unfold ptr_read, mem_readz, contents, rx_end in *.
  rewrite (proj2 (Z.ltb_ge _ _)), (proj2 (Z.leb_le _ _)) by lia. done.
Qed.
(** A frame that can take a fragment: its ICV is inside the window. *)
Definition head_ok (f : recv_frame_hdr) : Prop := frame_ok f ∧ 0 ≤ f.(attrib).(f_icv_len) ≤ f.(len).
Lemma fragment_head f : fragment f → head_ok f.
Proof. intros []. split; [done|lia]. Qed.

Lemma append_fragment_ok pf nf : head_ok pf → frame_ok nf →
  nf.(len) ≤ rx_end pf - pf.(rx_tail) →
  ∃ pf', append_fragment pf nf = Ret pf' ∧ frame_ok pf' ∧
    contents pf' = strip pf ++ contents nf ∧
    attrib pf' = attrib (set_icv_len nf.(attrib).(f_icv_len) pf) ∧ keytrack pf' = keytrack pf ∧
    rx_end pf' - pf'.(rx_tail) = rx_end pf - pf.(rx_tail) + pf.(attrib).(f_icv_len) - nf.(len).
Proof.
  intros [Hp Hi] Hn Hs. unfold append_fragment.
  destruct (pull_tail_contents _ Hp (f_icv_len (attrib pf)) Hi) as [Hok Hc].
  rewrite pull_tail_some in * by done. cbn [snd] in *. set (pf1 := set_win _ _ _ pf) in *.
  rewrite (read_contents _ Hn). cbn [cbind].
  destruct (put_contents pf1 Hok (contents nf)) as (m & Hw & Hok' & Hc' & He).
  { rewrite length_contents by done. unfold pf1, rx_end in *. cbn. lia. }
  rewrite Hw. cbn [cbind]. rewrite length_contents in * by done. eexists. split; [done|].
  set (pf2 := (recvframe_put _ _).2) in *.
  assert (attrib pf2 = attrib pf ∧ keytrack pf2 = keytrack pf) as [Ea Ek].
  { unfold pf2, recvframe_put. by case_match. }
  destruct Hok' as [? Ht ? ? ?]. destruct Hp. split_and!.
  - by constructor.
  - unfold contents, set_icv_len in *. cbn in *. by rewrite Hc', Hc.
  - unfold set_icv_len, set_attrib. cbn. by rewrite Ea.
  - done.
  - unfold set_icv_len, set_attrib, rx_end in *. cbn [mem rx_tail]. rewrite He, Ht.
    assert (len pf2 = len pf1 + len nf ∧ rx_data pf2 = rx_data pf) as [-> ->]; [|unfold pf1; cbn; lia].
    pose proof (length_contents pf2 ltac:(by constructor)) as Hl. rewrite Hc', length_app in Hl.
    pose proof (length_contents _ Hok). pose proof (length_contents _ Hn).
    split; [lia|]. unfold pf2, recvframe_put. by case_match.
Qed.

(** The first fragment with another one appended. *)
Lemma append_strip pf nf pf' : fragment nf → head_ok pf → frame_ok pf' →
  contents pf' = strip pf ++ body nf ++ icv nf → f_icv_len (attrib pf') = f_icv_len (attrib nf) →
  head_ok pf' ∧ strip pf' = strip pf ++ body nf ∧ icv pf' = icv nf.
Proof.
  intros Hn Hp Hok Hc Hi. pose proof (length_contents _ Hok) as Hl.
  assert (Z.of_nat (length (icv nf)) = f_icv_len (attrib nf)) as Hli.
  { destruct Hn as [H1 ? ? ? ? ? ? ? ?]. unfold icv. rewrite length_drop. pose proof (length_contents _ H1). lia. }
  rewrite Hc, !length_app in Hl. destruct Hn.
  assert (Z.to_nat (len pf' - f_icv_len (attrib pf')) = length (strip pf ++ body nf)) as E by (rewrite length_app; lia).
  unfold strip at 1, icv at 1. rewrite Hc, app_assoc, E, take_app_length, drop_app_length. split; [split; [done|lia]|done].
Qed.
Lemma last_proj {A} (h : recv_frame_hdr → A) f g fs : h f = h g → h (List.last fs f) = h (List.last fs g).
Proof. intros H. destruct fs as [|x fs]; [done|]. revert x. induction fs as [|y fs IH]; intros x; [done|]. apply IH. Qed.
Lemma last_cons (f g : recv_frame_hdr) fs : List.last (g :: fs) f = List.last fs g.
Proof. revert g. induction fs as [|x fs IH]; intros g; [done|]. cbn [List.last] in *. destruct fs; [done|]. apply (IH g). Qed.
Lemma last_icv_cons f g fs : last_icv f (g :: fs) = last_icv g fs.
Proof. unfold last_icv. by rewrite last_cons. Qed.

Lemma pull_fragment f : fragment f →
  let f' := (recvframe_pull f (u8 (hdr_off f))).2 in
  frame_ok f' ∧ contents f' = body f ++ icv f ∧ len f' = len f - hdr_off f ∧ attrib f' = attrib f.
Proof.
  intros Hf. pose proof (body_icv _ Hf) as Hb. destruct Hf. unfold hdr_off in *. rewrite u8_id by (unfold uint; lia).
  destruct (pull_contents _ fr_ok0 (f_hdrlen (attrib f) + f_iv_len (attrib f))) as [H1 H2]; [lia|]. cbn zeta in *.
  rewrite pull_some in * by (done || lia). by rewrite H2, Hb.
Qed.

Lemma frames_upd_ne s i j g : i ≠ j → (upd_frame i g s).(frames) !! j = s.(frames) !! j.
Proof. intros. cbn. by rewrite list_lookup_alter_ne. Qed.
Lemma frames_upd_eq s i f g : s.(frames) !! i = Some f → (upd_frame i g s).(frames) !! i = Some (g f).
Proof. intros H. cbn. by rewrite list_lookup_alter_eq, H. Qed.

(** The frames a list of indices stands for. *)
Definition frames_at (s : recv_priv) : list nat → list recv_frame_hdr → Prop := Forall2 (λ i f, s.(frames) !! i = Some f).
Lemma frames_at_agree s s' idx fs :
  frames_at s idx fs → (∀ i, i ∈ idx → s'.(frames) !! i = s.(frames) !! i) → frames_at s' idx fs.
Proof.
  induction 1 as [|i f idx fs Hi _ IH]; intros Ha; constructor; [rewrite Ha by set_solver; done|].
  apply IH. set_solver.
Qed.

Record loop_result (s s' : recv_priv) (pr : nat) (idx : list nat) (pf : recv_frame_hdr) (fs : list recv_frame_hdr) (ok : bool) : Prop := {
  lr_places : same_places s s';
  lr_other : ∀ j, j ∉ pr :: idx → s'.(frames) !! j = s.(frames) !! j;
  lr_grp : s'.(bcheck_grpkey) = s.(bcheck_grpkey);
  lr_mic : s'.(mic_errs) = s.(mic_errs);
  lr_frame : ok = true → ∃ pf', s'.(frames) !! pr = Some pf' ∧ frame_ok pf' ∧
    contents pf' = strip pf ++ concat (map body fs) ++ last_icv pf fs ∧
    attrib pf' = attrib (set_icv_len (List.last fs pf).(attrib).(f_icv_len) pf)
}.
Lemma loop_fail s pr idx pf fs : loop_result s s pr idx pf fs false.
Proof. by constructor. Qed.
Lemma loop_fail_upd s pr nx idx pf fs g : loop_result s (upd_frame nx g s) pr (nx :: idx) pf fs false.
Proof. constructor; [apply same_places_upd| |done..]. intros j Hj. apply frames_upd_ne. set_solver. Qed.

Lemma loop_step s s' pr nx idx pf nf pf1 g fs ok : pr ≠ nx →
  strip pf1 = strip pf ++ body nf → icv pf1 = icv nf → attrib pf1 = attrib (set_icv_len nf.(attrib).(f_icv_len) pf) →
  loop_result (upd_frame pr (λ _, pf1) (upd_frame nx g s)) s' pr idx pf1 fs ok →
  loop_result s s' pr (nx :: idx) pf (nf :: fs) ok.
Proof.
  intros Hne Hst Hic Ha [L1 L2 L3 L4 L5]. constructor; [by rewrite <- L1, <- !same_places_upd| |done|done|].
  - intros j Hj. rewrite L2, !frames_upd_ne by set_solver. done.
  - intros Hok. destruct (L5 Hok) as (pf' & H1 & H2 & H3 & H4). exists pf'. split_and!; [done..| |].
    + rewrite H3, Hst, last_icv_cons. unfold last_icv. rewrite (last_proj icv pf1 nf) by done. cbn. by rewrite <- !app_assoc.
    + rewrite H4, last_cons. rewrite (last_proj (λ f, f_icv_len (attrib f)) pf1 nf) by (by rewrite Ha).
      unfold set_icv_len, set_attrib. cbn. by rewrite Ha.
Qed.

Lemma defrag_loop_spec idx : ∀ fs s pr pf n pn,
  frames_at s idx fs → NoDup (pr :: idx) →
  s.(frames) !! pr = Some pf → head_ok pf → Forall fragment fs → uint 48 pn →
  let ok := in_order pf.(keytrack) n pn fs && fits (rx_end pf - pf.(rx_tail)) pf.(attrib).(f_icv_len) fs in
  ∃ s', defrag_loop s pr idx n pn = Ret (ok, s') ∧ loop_result s s' pr idx pf fs ok.
Proof.
  induction idx as [|nx idx IH]; intros fs s pr pf n pn Hfs Hnd Hpr Hh Hf Hpn; cbn zeta.
  - apply Forall2_nil_inv_l in Hfs as ->. eexists. split; [done|]. constructor; [done..|]. intros _.
    exists pf. split_and!; [done|apply Hh|symmetry; apply strip_icv|]. by destruct pf as [[] ? ? ? ? ?].
  - apply Forall2_cons_inv_l in Hfs as (nf & fs' & Hnx & Hfs & ->). apply Forall_cons in Hf as [Hnf Hf].
    cbn [defrag_loop]. rewrite Hpr, Hnx, (pn_check_ok _ _ Hnf Hpn). cbn [cbind in_order fits].
    set (ciph := pn_cipher _). set (pn' := if ciph then pn_of nf else pn).
    assert (uint 48 pn') as Hpn'. { unfold pn', ciph. case_match eqn:E; [by apply fragment_pn_ok|done]. }
    destruct (if ciph then pn_of nf =? pn + 1 else true); cbn [andb]; [|eauto using loop_fail].
    rewrite (Z.eqb_sym (keytrack pf)). destruct (Z.eqb_spec (keytrack nf) (keytrack pf)) as [Ek|]; cbn [andb negb]; [|eauto using loop_fail].
    rewrite (Z.eqb_sym n). destruct (Z.eqb_spec (f_frag_num (attrib nf)) n) as [En|]; cbn [andb negb]; [|eauto using loop_fail].
    destruct (pull_fragment _ Hnf) as (Hok1 & Hc1 & Hl1 & Ha1). fold (hdr_off nf). set (nf1 := (recvframe_pull nf _).2) in *.
    rewrite <- Hl1, <- Ha1, Z.leb_antisym. destruct (Z.ltb_spec (rx_end pf - rx_tail pf) (len nf1)) as [|Hs]; cbn [negb andb].
    { rewrite andb_false_r. eauto using loop_fail_upd. }
    destruct (append_fragment_ok pf nf1 Hh Hok1 Hs) as (pf1 & -> & Hok2 & Hc2 & Ha2 & Hk2 & Hs2). cbn [cbind].
    rewrite Hc1 in Hc2. rewrite Ha1 in Ha2.
    destruct (append_strip pf nf pf1) as (Hh1 & Hst & Hic); [done..|by rewrite Ha2|].
    apply NoDup_cons in Hnd as [Hp Hnd]. apply NoDup_cons in Hnd as [Hn Hnd].
    rewrite u8_id by (destruct Hnf; unfold uint; lia).
    destruct (IH fs' (upd_frame pr (λ _, pf1) (upd_frame nx (λ _, nf1) s)) pr pf1 (n + 1) pn') as (s' & -> & Hlr).
    + eapply frames_at_agree; [done|]. intros i Hi. rewrite !frames_upd_ne by set_solver. done.
    + apply NoDup_cons. split; [set_solver|done].
    + erewrite frames_upd_eq; [done|]. rewrite frames_upd_ne by set_solver. done.
    + done.
    + done.
    + done.
    + rewrite Hk2, Hs2, Ha2. cbn [f_icv_len attrib set_icv_len set_attrib]. rewrite Ha1.
      eexists. split; [done|]. rewrite Hk2, Hs2, Ha2 in Hlr. eapply loop_step; [|done..]. set_solver.
Qed.

Lemma delete_head (h : list (list nat)) k i q : NoDup (concat h) → h !! k = Some (i :: q) →
  list_delete i h = <[k := q]> h.
Proof.
  revert k. induction h as [|x h IH]; intros [|k] Hn Hk; try done; cbn [concat] in Hn; rewrite NoDup_app in Hn;
    destruct Hn as (Hx & Hxh & Hh).
  - injection Hk as ->. apply NoDup_cons in Hx as [Hi Hq].
    change (list_delete i ((i :: q) :: h)) with (List.filter (λ j, negb (j =? i)%nat) (i :: q) :: list_delete i h).
    cbn [List.filter]. rewrite Nat.eqb_refl. cbn [negb]. rewrite filter_neq_id, list_delete_id; [done|set_solver|done].
  - change (list_delete i (x :: h)) with (List.filter (λ j, negb (j =? i)%nat) x :: list_delete i h).
    cbn in Hk. rewrite (IH k) by done. rewrite filter_neq_id; [done|].
    intros Hi. eapply Hxh; [done|]. eapply in_queue; [done|set_solver].
Qed.

Lemma release_spec s fl pr k q : pool_ok s (pr :: fl) → s.(defrag_q) !! k = Some q →
  pool_ok (release s pr k) fl ∧ (release s pr k).(defrag_q) = <[k := []]> s.(defrag_q).
Proof.
  intros Hok Hq. pose proof (pool_free _ _ _ Hok) as Hf. unfold release.
  assert ((rtw_free_recvframe s pr).(defrag_q) = s.(defrag_q)) as E.
  { cbn. apply list_delete_id. apply (flight_elsewhere _ _ Hok). set_solver. }
  destruct (free_queue_spec _ _ k q Hf) as (H1 & H2 & _); [by rewrite E|]. by rewrite H2, E.
Qed.

Section Exact.
Context (s : recv_priv) (fl : list nat) (k pr : nat) (idx : list nat) (pf : recv_frame_hdr) (fs : list recv_frame_hdr).
Context (Hok : pool_ok s fl) (Hq : s.(defrag_q) !! k = Some (pr :: idx)).
Context (Hat : frames_at s (pr :: idx) (pf :: fs)) (Hfr : Forall fragment (pf :: fs)).

(** The verdict on the queue. *)
Definition acceptable : bool :=
  (pf.(attrib).(f_frag_num) =? 0) &&
  (in_order pf.(keytrack) 1 (if pn_cipher pf.(attrib).(f_encrypt) then pn_of pf else 0) fs &&
   fits (rx_end pf - pf.(rx_tail)) pf.(attrib).(f_icv_len) fs).

Lemma defrag_spec : ∃ s',
  recvframe_defrag s k = Ret (if acceptable then Some pr else None, s') ∧
  pool_ok s' ((if acceptable then [pr] else []) ++ fl) ∧ s'.(defrag_q) = <[k := []]> s.(defrag_q) ∧
  (acceptable = true → ∃ pf', s'.(frames) !! pr = Some pf' ∧ frame_ok pf' ∧
     contents pf' = strip pf ++ concat (map body fs) ++ last_icv pf fs ∧
     attrib pf' = attrib (set_icv_len (List.last fs pf).(attrib).(f_icv_len) pf) ∧
     s'.(bcheck_grpkey) = s.(bcheck_grpkey) ∧ s'.(mic_errs) = s.(mic_errs)).
Proof using All.
  pose proof (proj1 (Forall2_cons _ _ _ _ _) Hat) as [Hpr Hat']. pose proof (proj1 (Forall_cons _ _ _) Hfr) as [Hf Hfr'].
  pose proof (pool_nodup _ _ Hok) as Hnd. rewrite !NoDup_app in Hnd. destruct Hnd as (_ & _ & Hnd & _).
  pose proof (queue_nodup _ _ _ Hnd Hq) as Hndq.
  assert (pool_ok (defrag_delete pr s) (pr :: fl)) as Hd.
  { apply pool_dequeue; [done|]. eapply in_queue; [done|]. set_solver. }
  assert ((defrag_delete pr s).(defrag_q) = <[k := idx]> s.(defrag_q)) as Edq by (by apply delete_head).
  assert (∀ x, <[k := x]> s.(defrag_q) !! k = Some x) as Ek.
  { intros x. apply list_lookup_insert_eq. eapply lookup_lt_Some, Hq. }
  unfold recvframe_defrag, acceptable. rewrite Hq, Hpr.
  set (pn0 := if pn_cipher _ then pn_of pf else 0).
  assert ((if pn_cipher pf.(attrib).(f_encrypt) then fragment_pn pf else Ret 0) = Ret pn0 ∧ uint 48 pn0) as [-> Hpn].
  { unfold pn0. case_match; [by apply fragment_pn_ok|done]. }
  cbn [cbind]. rewrite Z.eqb_sym. destruct (Z.eqb_spec (f_frag_num (attrib pf)) 0) as [E0|]; cbn [negb andb].
  2: { destruct (release_spec _ _ _ k idx Hd) as [H1 H2]; [by rewrite Edq|].
       eexists. split_and!; [done|done| |done]. by rewrite H2, Edq, list_insert_insert_eq. }
  rewrite Edq, Ek. change (default [] (Some idx)) with idx.
  destruct (defrag_loop_spec idx fs (defrag_delete pr s) pr pf 1 pn0) as (s1 & -> & [L1 L2 L3 L4 L5]);
    [done|done|done|by apply fragment_head|done|done|]. cbn [cbind].
  pose proof (same_places_pool _ _ _ L1 Hd) as Hp1. pose proof (sp_queues _ _ L1) as Hq1. rewrite Edq in Hq1.
  destruct (_ && fits _ _ _) eqn:Eok.
  - destruct (free_queue_spec s1 (pr :: fl) k idx) as (H1 & H2 & _ & H4 & H5 & H6); [done|by rewrite Hq1|].
    eexists. split_and!; [done|done|by rewrite H2, Hq1, list_insert_insert_eq|]. intros _.
    destruct L5 as (pf' & P1 & P2 & P3 & P4); [done|]. exists pf'. apply NoDup_cons in Hndq as [Hpi _].
    rewrite H4, H5, H6 by done. done.
  - destruct (release_spec _ _ _ k idx Hp1) as [H1 H2]; [by rewrite Hq1|].
    eexists. split_and!; [done|done| |done]. by rewrite H2, Hq1, list_insert_insert_eq.
Qed.
End Exact.

(** ** A whole sequence of fragments *)

(** The queue of station [k] holds the fragments [fs]. *)
Record queued (s : recv_priv) (k : nat) (ids : list nat) (fs : list recv_frame_hdr) (fl : list nat) : Prop := {
  qd_pool : pool_ok s fl;
  qd_queue : s.(defrag_q) !! k = Some ids;
  qd_frames : frames_at s ids fs
}.
(** One received fragment: the adapter's state when it arrives, its index, the frame. *)
Record arrival := { ar_ctx : rx_ctx; ar_idx : nat; ar_frame : recv_frame_hdr }.
(** It comes from station [k] and is not group addressed. *)
Record arrives (s : recv_priv) (k : nat) (x : arrival) : Prop := {
  av_frame : s.(frames) !! x.(ar_idx) = Some x.(ar_frame);
  av_sta : rtw_get_stainfo x.(ar_ctx).(stapriv) x.(ar_frame).(attrib).(f_ta) = Some k;
  av_uni : IS_MCAST x.(ar_frame).(attrib).(f_ra) = false
}.
(** The fragment as queued: stamped with the key generation of the moment. *)
Definition stamped (k : nat) (x : arrival) : recv_frame_hdr := set_keytrack (x.(ar_ctx).(sta_keytrack) k) x.(ar_frame).
Definition first_frag (f : recv_frame_hdr) : Prop := f.(attrib).(f_mfrag) = 1 ∧ f.(attrib).(f_frag_num) = 0.
Definition mid_frag (f : recv_frame_hdr) : Prop := f.(attrib).(f_mfrag) = 1 ∧ f.(attrib).(f_frag_num) ≠ 0.
Definition last_frag (f : recv_frame_hdr) : Prop := f.(attrib).(f_mfrag) = 0 ∧ f.(attrib).(f_frag_num) ≠ 0.

Lemma arrives_station s k x : arrives s k x → defrag_station x.(ar_ctx) x.(ar_frame) = Ret (Some k).
Proof. intros [_ Hs _]. unfold defrag_station. by rewrite Hs. Qed.

(** Queueing a fragment behind [ids]. *)
Lemma enqueue_queued s k ids fs fl i f g : queued s k ids fs (i :: fl) → s.(frames) !! i = Some f →
  let s' := defrag_insert_tail k i (upd_frame i g s) in
  queued s' k (ids ++ [i]) (fs ++ [g f]) fl ∧ ∀ j, j ∈ fl → s'.(frames) !! j = s.(frames) !! j.
Proof.
  intros [Hp Hq Hf] Hi. pose proof (pool_nodup _ _ Hp) as Hn. rewrite !NoDup_app in Hn.
  destruct Hn as (_ & _ & _ & Hc & Hn). apply NoDup_cons in Hn as [Hifl _].
  split; [|intros j Hj; apply frames_upd_ne; set_solver]. split.
  - apply pool_enqueue; [by apply pool_upd|]. rewrite <- (po_queues _ _ Hp). by eapply lookup_lt_Some.
  - cbn. by rewrite list_lookup_alter_eq, Hq.
  - apply Forall2_app; [|apply Forall2_cons; split; [by apply frames_upd_eq|constructor]].
    eapply frames_at_agree; [done|]. intros j Hj. apply frames_upd_ne. intros <-.
    eapply Hc; [by eapply in_queue|set_solver].
Qed.

(** A frame stamped, the queue emptied, the frame queued. *)
Lemma flush_queued s k q i f fl g : pool_ok s (i :: fl) → s.(defrag_q) !! k = Some q → s.(frames) !! i = Some f →
  let s1 := upd_frame i g s in
  let s2 := if negb (bool_decide (s1.(defrag_q) !! k = Some [])) then rtw_free_recvframe_queue s1 k else s1 in
  let s' := defrag_insert_tail k i s2 in
  queued s' k [i] [g f] fl ∧ ∀ j, j ∈ fl → s'.(frames) !! j = s.(frames) !! j.
Proof.
  intros Hp Hq Hi. cbn zeta. set (s1 := upd_frame i g s).
  assert (pool_ok s1 (i :: fl)) as Hp1 by (by apply pool_upd). set (s2 := if negb _ then _ else s1).
  assert (queued s2 k [] [] (i :: fl) ∧ ∀ j, j ∈ i :: fl → s2.(frames) !! j = s1.(frames) !! j) as [Hqd Hag].
  { unfold s2. case_bool_decide as Eb; cbn [negb]; [by split; [split; [..|constructor]|]|].
    destruct (free_queue_spec s1 _ k q Hp1 Hq) as (H1 & H2 & _ & H4 & _).
    split; [split; [done| |constructor]|].
    - rewrite H2. apply list_lookup_insert_eq. by eapply lookup_lt_Some.
    - intros j Hj. apply H4. intros Hji. apply (flight_elsewhere _ _ Hp1 j Hj). by eapply in_queue. }
  pose proof (pool_nodup _ _ Hp) as Hn. rewrite !NoDup_app in Hn. destruct Hn as (_ & _ & _ & _ & Hn).
  apply NoDup_cons in Hn as [Hifl _].
  assert (s2.(frames) !! i = Some (g f)) as Hi2 by (rewrite Hag by set_solver; by apply frames_upd_eq).
  destruct (enqueue_queued s2 k [] [] fl i (g f) id Hqd Hi2) as [H1 H2].
  assert (upd_frame i id s2 = s2) as E.
  { unfold upd_frame, set_frames. rewrite list_alter_id by done. by destruct s2. }
  rewrite E in *. split; [done|]. intros j Hj. rewrite H2, Hag by set_solver. apply frames_upd_ne. set_solver.
Qed.

Section Arrivals.
Context (s : recv_priv) (k : nat) (fl : list nat) (x : arrival) (Hx : arrives s k x).

(** The first fragment discards whatever the queue held. *)
Lemma chk_first q : pool_ok s (x.(ar_idx) :: fl) → s.(defrag_q) !! k = Some q → first_frag x.(ar_frame) →
  ∃ s', recvframe_chk_defrag x.(ar_ctx) s x.(ar_idx) = Ret (None, s') ∧
    queued s' k [x.(ar_idx)] [stamped k x] fl ∧ ∀ j, j ∈ fl → s'.(frames) !! j = s.(frames) !! j.
Proof using Hx.
  intros Hp Hq [Hm Hn]. pose proof (arrives_station _ _ _ Hx) as Hs. destruct Hx as [Hf _ Hu].
  unfold recvframe_chk_defrag. rewrite Hf, Hs. cbn [cbind]. rewrite Hm, Hn, Hu. cbn. eexists. split; [done|].
  by eapply flush_queued.
Qed.
Lemma chk_mid ids fs : queued s k ids fs (x.(ar_idx) :: fl) → mid_frag x.(ar_frame) →
  ∃ s', recvframe_chk_defrag x.(ar_ctx) s x.(ar_idx) = Ret (None, s') ∧
    queued s' k (ids ++ [x.(ar_idx)]) (fs ++ [stamped k x]) fl ∧ ∀ j, j ∈ fl → s'.(frames) !! j = s.(frames) !! j.
Proof using Hx.
  intros Hqd [Hm Hn]. pose proof (arrives_station _ _ _ Hx) as Hs. destruct Hx as [Hf _ Hu].
  unfold recvframe_chk_defrag. rewrite Hf, Hs. cbn [cbind]. rewrite Hm, Hu. apply Z.eqb_neq in Hn. rewrite Hn. cbn.
  eexists. split; [done|]. by apply enqueue_queued.
Qed.
(** The last fragment: the queue is reassembled. *)
Lemma chk_last ids fs : queued s k ids fs (x.(ar_idx) :: fl) → last_frag x.(ar_frame) →
  ∃ s', recvframe_chk_defrag x.(ar_ctx) s x.(ar_idx) =
          (let* (r, s1) := recvframe_defrag s' k in chk_defrag_mic x.(ar_ctx) r s1) ∧
    queued s' k (ids ++ [x.(ar_idx)]) (fs ++ [stamped k x]) fl.
Proof using Hx.
  intros Hqd [Hm Hn]. pose proof (arrives_station _ _ _ Hx) as Hs. destruct Hx as [Hf _ Hu].
  unfold recvframe_chk_defrag. rewrite Hf, Hs. cbn [cbind]. rewrite Hm, Hu. apply Z.eqb_neq in Hn. rewrite Hn. cbn.
  eexists. split; [done|]. by apply enqueue_queued.
Qed.
End Arrivals.

Fixpoint rx_fragments (xs : list arrival) (s : recv_priv) : cres (list (option nat) * recv_priv) :=
  match xs with
  | [] => Ret ([], s)
  | x :: xs =>
      let* (r, s) := recvframe_chk_defrag x.(ar_ctx) s x.(ar_idx) in
      let* (rs, s) := rx_fragments xs s in
      Ret (r :: rs, s)
  end.
Lemma rx_fragments_app xs ys s :
  rx_fragments (xs ++ ys) s =
  (let* (rs, s) := rx_fragments xs s in let* (rs', s) := rx_fragments ys s in Ret (rs ++ rs', s)).
Proof.
  revert s. induction xs as [|x xs IH]; intros s; cbn [app rx_fragments].
  - cbn [cbind]. destruct (rx_fragments ys s) as [[]| |]; done.
  - destruct (recvframe_chk_defrag _ _ _) as [[r s1]| |]; cbn [cbind]; [|done..]. rewrite IH.
    destruct (rx_fragments xs s1) as [[rs s2]| |]; cbn [cbind]; [|done..].
    destruct (rx_fragments ys s2) as [[rs' s3]| |]; done.
Qed.
Lemma arrives_agree s s' k x : arrives s k x → s'.(frames) !! x.(ar_idx) = s.(frames) !! x.(ar_idx) → arrives s' k x.
Proof. intros [] E. constructor; [by rewrite E|done..]. Qed.

Lemma mids_queued k mids : ∀ s ids fs fl,
  queued s k ids fs (map ar_idx mids ++ fl) → Forall (arrives s k) mids → Forall (mid_frag ∘ ar_frame) mids →
  ∃ s', rx_fragments mids s = Ret (replicate (length mids) None, s') ∧
    queued s' k (ids ++ map ar_idx mids) (fs ++ map (stamped k) mids) fl ∧
    ∀ j, j ∈ fl → s'.(frames) !! j = s.(frames) !! j.
Proof.
  induction mids as [|x mids IH]; intros s ids fs fl Hqd Ha Hm.
  - exists s. cbn. by rewrite !app_nil_r.
  - apply Forall_cons in Ha as [Hx Ha]. apply Forall_cons in Hm as [Hmx Hm].
    destruct (chk_mid s k (map ar_idx mids ++ fl) x Hx ids fs Hqd Hmx) as (s1 & E1 & Hq1 & Ag1).
    destruct (IH s1 _ _ _ Hq1) as (s2 & E2 & Hq2 & Ag2); [|done|].
    { apply Forall_forall. intros y Hy. eapply arrives_agree; [by eapply Forall_forall|].
      apply Ag1. apply elem_of_app. left. by apply list_elem_of_fmap_2. }
    exists s2. cbn [rx_fragments]. rewrite E1. cbn [cbind]. rewrite E2. cbn [cbind]. split; [done|].
    rewrite <- !app_assoc in Hq2. split; [done|]. intros j Hj. rewrite Ag2 by done. apply Ag1. set_solver.
Qed.

Lemma last_icv_length f fs : Forall fragment (f :: fs) → fs ≠ [] → Z.of_nat (length (last_icv f fs)) = (List.last fs f).(attrib).(f_icv_len).
Proof.
  intros Hf Hn. assert (fragment (List.last fs f)) as [H1 ? ? ? ? ? ? ? ?].
  { clear Hn. revert f Hf. induction fs as [|g fs IH]; intros f Hf; [by apply Forall_cons in Hf as [? _]|]. rewrite last_cons. apply IH.
    by apply Forall_cons in Hf as [_ ?]. }
  unfold last_icv, icv. rewrite length_drop. pose proof (length_contents _ H1). lia.
Qed.
Lemma set_keytrack_fragment f t : fragment f → fragment (set_keytrack t f).
Proof. intros [[] ? ? ? ? ? ? ? ?]. constructor; [by constructor|done..]. Qed.
(** ** The Michael check, exactly *)
Lemma seccalctkipmic_header key hdr data pri n : n = Z.to_nat (mic_header_len hdr.[1]) →
  rtw_seccalctkipmic key (take n hdr) data pri = rtw_seccalctkipmic key hdr data pri.
Proof.
  assert (∀ o m, (o + 6 ≤ m)%nat → take 6 (drop o (take m hdr)) = take 6 (drop o hdr)) as Ht.
  { intros o m Hm. rewrite skipn_firstn_comm, take_take. by rewrite Nat.min_l by lia. }
  intros ->. unfold rtw_seccalctkipmic, mic_header_len. rewrite aget_take by (repeat case_match; lia).
  destruct (_ .& 1 =? 0) eqn:E1, (_ .& 2 =? 0) eqn:E2; rewrite !Ht by lia; done.
Qed.

(** A part of the window read through a pointer. *)
Lemma read_part f (a b r : list Z) : frame_ok f → contents f = a ++ b ++ r →
  ptr_read f.(mem) (f.(rx_data) + Z.of_nat (length a)) (Z.of_nat (length b)) = Ret b.
Proof.
  intros Hf E. pose proof (at_ptr_contents _ Hf) as H. rewrite E in H.
  apply at_ptr_app in H as [_ H]. apply at_ptr_app in H as [H _]. by apply at_ptr_read.
Qed.
Section Michael.
Context (c : rx_ctx) (s : recv_priv) (i sta : nat) (f : recv_frame_hdr).
Context (hdr iv data mic icv_bytes : list Z).
Context (Hi : s.(frames) !! i = Some f) (Hf : frame_ok f) (Hst : rtw_get_stainfo c.(stapriv) f.(attrib).(f_ta) = Some sta).
Context (He : f.(attrib).(f_encrypt) = _TKIP_) (Hu : IS_MCAST f.(attrib).(f_ra) = false).
Context (Hc : contents f = hdr ++ iv ++ data ++ mic ++ icv_bytes).
Context (Hh : Z.of_nat (length hdr) = f.(attrib).(f_hdrlen)) (Hv : Z.of_nat (length iv) = f.(attrib).(f_iv_len)).
Context (Hm : length mic = 8%nat) (Hv' : Z.of_nat (length icv_bytes) = f.(attrib).(f_icv_len)).
Context (Hl : mic_header_len hdr.[1] ≤ f.(attrib).(f_hdrlen)).

Definition mic_ok : bool := bool_decide (rtw_seccalctkipmic (c.(dot11tkiprxmickey) sta) hdr data f.(attrib).(f_priority) = mic).
Definition mic_logged : recv_priv :=
  if negb mic_ok && f.(attrib).(f_bdecrypted) then set_mic s.(bcheck_grpkey) ((sta, false) :: s.(mic_errs)) s else s.
Lemma chkmic_spec :
  recvframe_chkmic c s i = Ret (mic_ok, upd_frame i (λ f, (recvframe_pull_tail f 8).2) mic_logged).
Proof using All.
  pose proof (length_contents _ Hf) as El. rewrite Hc, !length_app in El.
  assert (1 < length hdr)%nat as H1 by (unfold mic_header_len in Hl; repeat case_match; lia).
  unfold recvframe_chkmic. rewrite Hi, Hst, He, Hu. cbn [Z.eqb _TKIP_ Pos.eqb andb].
  replace (len f - _ - _ - _ - 8) with (Z.of_nat (length data)) by lia.
  rewrite u32_small by (destruct Hf; lia).
  pose proof (read_part f [] (take 2 hdr) (drop 2 hdr ++ iv ++ data ++ mic ++ icv_bytes) Hf) as R1.
  pose proof (read_part f [] (take (Z.to_nat (mic_header_len hdr.[1])) hdr)
                (drop (Z.to_nat (mic_header_len hdr.[1])) hdr ++ iv ++ data ++ mic ++ icv_bytes) Hf) as R2.
  pose proof (read_part f (hdr ++ iv) data (mic ++ icv_bytes) Hf) as R3.
  pose proof (read_part f (hdr ++ iv ++ data) mic icv_bytes Hf) as R4.
  cbn [length app] in R1, R2. rewrite Z.add_0_r, length_take in R1, R2.
  rewrite Nat.min_l in R1, R2 by (unfold mic_header_len in *; repeat case_match; lia).
  rewrite Z2Nat.id in R2 by (unfold mic_header_len; repeat case_match; lia).
  rewrite length_app in R3. rewrite !length_app in R4. change (Z.of_nat 2) with 2 in R1.
  rewrite R1 by (by rewrite app_assoc, take_drop). cbn [cbind]. rewrite aget_take by lia.
  rewrite R2 by (by rewrite app_assoc, take_drop). cbn [cbind].
  replace (rx_data f + f_hdrlen (attrib f) + f_iv_len (attrib f)) with (rx_data f + Z.of_nat (length hdr + length iv)) by lia.
  rewrite R3 by (by rewrite <- app_assoc). cbn [cbind].
  replace (rx_data f + Z.of_nat (length hdr + length iv) + Z.of_nat (length data)) with
    (rx_data f + Z.of_nat (length hdr + (length iv + length data))) by lia.
  replace 8 with (Z.of_nat (length mic)) at 1 by lia.
  rewrite R4 by (by rewrite <- !app_assoc). cbn [cbind]. rewrite seccalctkipmic_header by done. fold mic_ok.
  unfold mic_logged. destruct mic_ok; cbn [negb andb]; [by rewrite andb_false_r|]. by rewrite andb_true_r.
Qed.
End Michael.

Lemma pull_tail_attrib f n : attrib (recvframe_pull_tail f n).2 = attrib f.
Proof. unfold recvframe_pull_tail. by case_match. Qed.

(** ** Fragments delivered *)
(** Whether the frame carries a Michael code that is checked. *)
Definition has_mic (a : rx_pkt_attrib) : bool := (a.(f_encrypt) =? _TKIP_) && a.(f_privacy).
(** The check on [plain], the frame without its ICV: its last eight bytes are the
    Michael code of what is behind header and IV, under the key of station [k]. *)
Definition mic_good (c : rx_ctx) (k : nat) (a : rx_pkt_attrib) (plain : list Z) : bool :=
  negb (has_mic a) ||
  let m := (length plain - 8)%nat in
  bool_decide (rtw_seccalctkipmic (c.(dot11tkiprxmickey) k) (take (Z.to_nat a.(f_hdrlen)) plain)
    (drop (Z.to_nat (a.(f_hdrlen) + a.(f_iv_len))) (take m plain)) a.(f_priority) = drop m plain).
(** There is room for the code, and the header has the addresses it covers. *)
Definition mic_room (a : rx_pkt_attrib) (plain : list Z) : Prop :=
  a.(f_hdrlen) + a.(f_iv_len) + 8 ≤ Z.of_nat (length plain) ∧ mic_header_len plain.[1] ≤ a.(f_hdrlen).

Lemma mic_reassembled c s fl i k f plain icv_bytes :
  pool_ok s (i :: fl) → s.(frames) !! i = Some f → frame_ok f → contents f = plain ++ icv_bytes →
  Z.of_nat (length icv_bytes) = f.(attrib).(f_icv_len) → 0 ≤ f.(attrib).(f_hdrlen) → 0 ≤ f.(attrib).(f_iv_len) →
  IS_MCAST f.(attrib).(f_ra) = false →
  (has_mic f.(attrib) = true → rtw_get_stainfo c.(stapriv) f.(attrib).(f_ta) = Some k ∧ mic_room f.(attrib) plain) →
  let ok := mic_good c k f.(attrib) plain in
  ∃ s', chk_defrag_mic c (Some i) s = Ret (if ok then Some i else None, s') ∧
    s'.(defrag_q) = s.(defrag_q) ∧ pool_ok s' ((if ok then [i] else []) ++ fl) ∧
    (ok = true → ∃ f', s'.(frames) !! i = Some f' ∧ frame_ok f' ∧ contents f' =
       if has_mic f.(attrib) then take (length (plain ++ icv_bytes) - 8) (plain ++ icv_bytes) else plain ++ icv_bytes).
Proof.
  intros Hp Hi Hf Hc Hv Hh0 Hv0 Hu Ht. cbn zeta. unfold mic_good. destruct (has_mic f.(attrib)) eqn:Em; cbn [negb orb].
  2: { exists s. unfold chk_defrag_mic. rewrite Hi. unfold has_mic in Em. destruct (f_privacy _); [|by split_and!; eauto].
       rewrite andb_true_r in Em. unfold recvframe_chkmic. rewrite Hi, Em. cbn [cbind]. by split_and!; eauto. }
  destruct (Ht eq_refl) as [Hst [Hr Hm]]. apply andb_true_iff in Em as [He%Z.eqb_eq Hpriv].
  set (m := (length plain - 8)%nat). set (hl := Z.to_nat f.(attrib).(f_hdrlen)). set (off := Z.to_nat (f.(attrib).(f_hdrlen) + f.(attrib).(f_iv_len))).
  assert (plain = take hl plain ++ drop hl (take off plain) ++ drop off (take m plain) ++ drop m plain) as Ep.
  { rewrite <- (take_drop m plain) at 1. rewrite !app_assoc. f_equal. rewrite <- (take_drop off (take m plain)) at 1. f_equal.
    rewrite take_take, Nat.min_l by lia. rewrite <- (take_drop hl (take off plain)) at 1. by rewrite take_take, Nat.min_l by lia. }
  assert (length (take hl plain) = hl) as L1 by (rewrite length_take; lia).
  assert (length (drop hl (take off plain)) = (off - hl)%nat) as L2 by (rewrite length_drop, length_take; lia).
  assert (length (drop m plain) = 8%nat) as L3 by (rewrite length_drop; lia).
  pose proof (chkmic_spec c s i k f (take hl plain) (drop hl (take off plain)) (drop off (take m plain)) (drop m plain) icv_bytes Hi Hf Hst He Hu) as Hs.
  unfold mic_ok, mic_logged in Hs. rewrite aget_take in Hs by (unfold mic_header_len in Hm; repeat case_match; lia).
  specialize (Hs ltac:(by rewrite Hc, Ep at 1; rewrite <- !app_assoc) ltac:(lia) ltac:(lia) L3 Hv Hm).
  set (ok := bool_decide _) in *. set (s1 := upd_frame i _ _) in Hs. pose proof (chkmic_places _ _ _ _ _ Hs) as Hsp.
  pose proof (same_places_pool _ _ _ Hsp Hp) as Hp1. unfold chk_defrag_mic. rewrite Hi, Hpriv, Hs. cbn [cbind].
  destruct ok; eexists; (split; [done|]).
  - split; [apply Hsp|]. split; [done|]. intros _. assert (0 ≤ 8 ≤ len f) as Hl8.
    { pose proof (length_contents _ Hf) as El. rewrite Hc, length_app in El. lia. }
    destruct (pull_tail_contents f Hf 8 Hl8) as [P1 P2]. exists (recvframe_pull_tail f 8).2. split_and!; [|done|].
    + unfold s1. apply (frames_upd_eq _ _ f). by destruct (_ && _).
    + cbn zeta in P2. rewrite P2, Hc. f_equal. pose proof (length_contents _ Hf) as El. rewrite Hc in El. lia.
  - split; [|split; [by apply pool_free|done]]. change (list_delete i s1.(defrag_q) = s.(defrag_q)).
    rewrite (sp_queues _ _ Hsp). apply list_delete_id, (flight_elsewhere _ _ Hp). set_solver.
Qed.

(** C19: a frame received in fragments is delivered exactly when it should be.
    Fragments of one station arrive at arbitrary moments (the key generation may
    change in between), the first numbered 0 and the last without the
    more-fragments bit, each at least as long as its header, IV and ICV (the
    driver does not check that: [short_fragment_appends_header]).  Whatever the
    queue held before, every fragment but the last is kept, and at the last the
    frame is delivered if and only if the fragment numbers count up from 0, all
    fragments have the same key generation, the packet numbers of CCMP and GCMP
    ones are consecutive, the bodies fit into the buffer, and, with TKIP, the
    Michael code of the whole is right (for frames with room for one, from the
    sender of the first fragment).  It then holds the first header and IV, the
    bodies in order and the last ICV, less the eight bytes of the code; otherwise
    every fragment is back in the free queue.  The queue is then empty. *)
Theorem fragments_reassembled s fl k q x0 mids xl :
  let xs := x0 :: mids ++ [xl] in
  let pf := stamped k x0 in
  let fs := map (stamped k) (mids ++ [xl]) in
  let plain := strip pf ++ concat (map body fs) in
  pool_ok s (map ar_idx xs ++ fl) → s.(defrag_q) !! k = Some q →
  Forall (arrives s k) xs → Forall (λ x, fragment x.(ar_frame)) xs →
  first_frag x0.(ar_frame) → Forall (mid_frag ∘ ar_frame) mids → last_frag xl.(ar_frame) →
  (has_mic x0.(ar_frame).(attrib) = true →
     xl.(ar_frame).(attrib).(f_ta) = x0.(ar_frame).(attrib).(f_ta) ∧ mic_room x0.(ar_frame).(attrib) plain) →
  let ok := in_order pf.(keytrack) 1 (if pn_cipher pf.(attrib).(f_encrypt) then pn_of pf else 0) fs &&
            fits (rx_end pf - pf.(rx_tail)) pf.(attrib).(f_icv_len) fs &&
            mic_good xl.(ar_ctx) k x0.(ar_frame).(attrib) plain in
  ∃ s', rx_fragments xs s =
          Ret (replicate (S (length mids)) None ++ [if ok then Some x0.(ar_idx) else None], s') ∧
    s'.(defrag_q) !! k = Some [] ∧ pool_ok s' ((if ok then [x0.(ar_idx)] else []) ++ fl) ∧
    (ok = true → ∃ f, s'.(frames) !! x0.(ar_idx) = Some f ∧ frame_ok f ∧
       let whole := plain ++ last_icv pf fs in
       contents f = if has_mic x0.(ar_frame).(attrib) then take (length whole - 8) whole else whole).
Proof.
  cbn zeta. intros Hp Hq Ha Hfr H0 Hm Hl He.
  apply Forall_cons in Ha as [Hx0 Ha]. apply Forall_app in Ha as [Ha Hxl]. apply Forall_cons in Hxl as [Hxl _].
  cbn [map] in Hp. rewrite map_app, <- !app_comm_cons, <- app_assoc in Hp.
  destruct (chk_first s k _ x0 Hx0 q Hp Hq H0) as (s1 & E1 & Hq1 & Ag1).
  destruct (mids_queued k mids s1 _ _ _ Hq1) as (s2 & E2 & Hq2 & Ag2); [|done|].
  { apply Forall_forall. intros y Hy. eapply arrives_agree; [by eapply Forall_forall|].
    apply Ag1. apply elem_of_app. left. by apply list_elem_of_fmap_2. }
  assert (arrives s2 k xl) as Hxl2.
  { eapply arrives_agree; [exact Hxl|]. rewrite Ag2, Ag1 by set_solver. done. }
  destruct (chk_last s2 k fl xl Hxl2 _ _ Hq2 Hl) as (s3 & E3 & Hq3).
  cbn [rx_fragments]. rewrite E1. cbn [cbind]. rewrite rx_fragments_app, E2. cbn [cbind rx_fragments]. rewrite E3.
  rewrite <- !app_assoc in Hq3. cbn [app] in Hq3. destruct Hq3 as [Hp3 Hk3 Hf3].
  replace (map (stamped k) mids ++ [stamped k xl]) with (map (stamped k) (mids ++ [xl])) in Hf3 by apply map_app.
  assert (Forall fragment (stamped k x0 :: map (stamped k) (mids ++ [xl]))) as Hst.
  { revert Hfr. rewrite !Forall_forall. intros Hfr f Hf. apply (list_elem_of_fmap_1 (stamped k) (x0 :: mids ++ [xl])) in Hf as (y & -> & Hy).
    by apply set_keytrack_fragment, Hfr. }
  destruct (defrag_spec s3 fl k _ _ _ _ Hp3 Hk3 Hf3 Hst) as (s4 & E4 & Hp4 & Hq4 & Hc4).
  assert (s4.(defrag_q) !! k = Some []) as Hk4 by (rewrite Hq4; apply list_lookup_insert_eq; by eapply lookup_lt_Some).
  unfold acceptable in *. destruct H0 as [_ Hn0]. cbn [stamped set_keytrack attrib] in E4, Hp4, Hc4 |- *. rewrite Hn0 in E4, Hp4, Hc4. cbn [Z.eqb andb] in E4, Hp4, Hc4.
  rewrite E4. cbn [cbind]. set (fs := map (stamped k) (mids ++ [xl])) in *. set (pf := stamped k x0) in *.
  set (acc := in_order _ _ _ _ && fits _ _ _) in *. destruct acc eqn:Eacc; cbn [andb].
  2: { exists s4. by split_and!. }
  destruct (Hc4 eq_refl) as (f & P1 & P2 & P3 & P4 & _). rewrite app_assoc in P3.
  assert (fragment x0.(ar_frame)) as Hf0 by (by apply Forall_cons in Hfr as [? _]).
  destruct (mic_reassembled xl.(ar_ctx) s4 fl _ k f _ _ Hp4 P1 P2 P3) as (s5 & E5 & Hq5 & Hp5 & Hc5).
  - rewrite P4. cbn. apply last_icv_length; [done|]. by destruct mids.
  - rewrite P4. apply Hf0.
  - rewrite P4. apply Hf0.
  - rewrite P4. apply Hx0.
  - rewrite P4. intros Hmic. destruct (He Hmic) as [Eta Hroom]. split; [|exact Hroom]. change (rtw_get_stainfo (stapriv (ar_ctx xl)) (f_ta (attrib (ar_frame x0))) = Some k).
    rewrite <- Eta. apply Hxl.
  - rewrite P4 in E5, Hp5, Hc5. cbn zeta in *. unfold mic_good, has_mic in *. cbn [set_icv_len set_attrib attrib f_encrypt f_privacy f_hdrlen f_iv_len f_priority] in *.
    rewrite E5. cbn [cbind]. exists s5. split_and!; [done|by rewrite Hq5|done|]. intros Hok. destruct (Hc5 Hok) as (f' & ? & ? & ?). by exists f'.
Qed.

(** ** A concrete reception: three CCMP fragments *)
Definition demo_addr : list Z := [2; 0x11; 0x22; 0x33; 0x44; 0x55].
Definition demo_ctx (track : Z) : rx_ctx := {|
  stapriv := (rtw_alloc_stainfo (rtw_init_sta_priv 16) demo_addr).2;
  sta_keytrack := λ _, track;
  dot11tkiprxmickey := λ _, replicate 8 0; dot118021XGrprxmickey := []; binstallGrpkey := false; mlme_key_index := 0
|}.
Definition demo_frag (num mfrag pn : Z) (body : list Z) : recv_frame_hdr := {|
  attrib := Build_rx_pkt_attrib 24 8 8 _AES_ num mfrag true true 0 0 2 [] [] demo_addr [2; 0; 0; 0; 0; 1];
  keytrack := 0; len := 40 + Z.of_nat (length body); rx_data := 16; rx_tail := 56 + Z.of_nat (length body);
  mem := replicate 16 0 ++ replicate 24 0xa0 ++ [pn; 0; 0; 0x20; 0; 0; 0; 0] ++ body ++ replicate 8 pn ++ replicate 60 0
|}.
Definition demo_rx : recv_priv :=
  let s := rtw_init_recv_priv in
  let s := upd_frame 0 (λ _, demo_frag 0 1 5 [1; 2; 3]) (rtw_alloc_recvframe s).2 in
  let s := upd_frame 1 (λ _, demo_frag 1 1 6 [4; 5]) (rtw_alloc_recvframe s).2 in
  upd_frame 2 (λ _, demo_frag 2 0 7 [6; 7; 8; 9]) (rtw_alloc_recvframe s).2.
Definition demo_arrival (track : Z) (i : nat) (f : recv_frame_hdr) : arrival :=
  {| ar_ctx := demo_ctx track; ar_idx := i; ar_frame := f |}.
Definition demo_xs (track : Z) : arrival * list arrival * arrival :=
  (demo_arrival 3 0 (demo_frag 0 1 5 [1; 2; 3]), [demo_arrival 3 1 (demo_frag 1 1 6 [4; 5])],
   demo_arrival track 2 (demo_frag 2 0 7 [6; 7; 8; 9])).

Lemma pool_take s fl i : pool_ok s fl → head s.(free_recv_queue) = Some i → pool_ok (rtw_alloc_recvframe s).2 (i :: fl).
Proof.
  intros Hok Hi. eapply pool_alloc; [done|]. unfold rtw_alloc_recvframe. by destruct (free_recv_queue s) as [|j q]; simplify_eq/=.
Qed.
Lemma demo_pool : pool_ok demo_rx [0%nat; 1%nat; 2%nat].
Proof.
  apply (pool_perm _ [2%nat; 1%nat; 0%nat]); [|solve_Permutation].
  unfold demo_rx. cbv zeta. repeat (apply pool_upd, pool_take; [|reflexivity]). apply pool_init.
Qed.
Lemma demo_fragment num mfrag pn body : 0 ≤ num < 16 → is_u8 pn → bytes body → (length body < 60)%nat →
  fragment (demo_frag num mfrag pn body).
Proof.
  intros Hn Hp Hb Hl. constructor; cbn; try done; try lia.
  - unfold demo_frag. constructor; unfold rx_end; cbn [rx_data rx_tail len mem]; try lia; rewrite !length_app, !length_replicate; cbn; lia.
  - assert (∀ n v, 0 ≤ v < 256 → bytes (replicate n v)) as Hr by (intros; apply bytes_replicate; unfold uint; lia).
    change (bytes (replicate 16 0 ++ replicate 24 0xa0 ++ (pn :: [0; 0; 0x20; 0; 0; 0; 0]) ++ body ++ replicate 8 pn ++ replicate 60 0)).
    repeat apply bytes_app; try done; try (apply Hr; unfold uint in *; lia). constructor; [done|]. by apply bytesb_spec.
Qed.

Lemma fragments_reassembled_witness :
  let '(x0, mids, xl) := demo_xs 3 in
  ∃ s', rx_fragments (x0 :: mids ++ [xl]) demo_rx = Ret ([None; None; Some 0%nat], s') ∧
    ∃ f, s'.(frames) !! 0%nat = Some f ∧
      contents f = replicate 24 0xa0 ++ [5; 0; 0; 0x20; 0; 0; 0; 0] ++ [1; 2; 3; 4; 5; 6; 7; 8; 9] ++ replicate 8 7.
Proof.
  unfold demo_xs.
  destruct (fragments_reassembled demo_rx [] 0 [] (demo_arrival 3 0 (demo_frag 0 1 5 [1; 2; 3]))
    [demo_arrival 3 1 (demo_frag 1 1 6 [4; 5])] (demo_arrival 3 2 (demo_frag 2 0 7 [6; 7; 8; 9]))) as (s' & E & _ & _ & Hc).
  - apply demo_pool.
  - reflexivity.
  - repeat constructor.
  - do 3 (apply Forall_cons; split; [apply demo_fragment; [lia|unfold uint; lia|by apply bytesb_spec|cbn; lia]|]).
    by apply Forall_nil.
  - by split.
  - repeat constructor. cbn. lia.
  - split; [done|]. cbn. lia.
  - discriminate.
  - exists s'. split; [exact E|]. destruct Hc as (f & H1 & _ & H3); [vm_compute; reflexivity|].
    exists f. split; [exact H1|]. rewrite H3. vm_compute. reflexivity.
Defined.

(** The same fragments with a new key installed before the last one are dropped. *)
Example rekey_drops_fragments :
  let '(x0, mids, xl) := demo_xs 4 in
  ∃ s', rx_fragments (x0 :: mids ++ [xl]) demo_rx = Ret ([None; None; None], s') ∧
    s'.(free_recvframe_cnt) = 256 ∧ s'.(defrag_q) !! 0%nat = Some [].
Proof. eexists. split; [vm_compute; reflexivity|]. by vm_compute. Qed.

(** ** Management frames

    [validate_recv_mgnt_frame] hands a frame to [recvframe_chk_defrag] and what comes
    back to [mgt_dispatcher]; [recv_func_prehandle] then frees the frame it was
    called with, whatever became of it. *)
Definition recv_mgmt_frame (c : rx_ctx) (s : recv_priv) (i : nat) : cres (option nat * recv_priv) :=
  let* (r, s) := recvframe_chk_defrag c s i in Ret (r, rtw_free_recvframe s i).
(** A whole management frame is dispatched and freed once. *)
Example mgmt_whole_freed :
  let s := upd_frame 0 (λ _, demo_frag 0 0 5 [1]) (rtw_alloc_recvframe rtw_init_recv_priv).2 in
  ∃ s', recv_mgmt_frame (demo_ctx 3) s 0 = Ret (Some 0%nat, s') ∧ s'.(free_recvframe_cnt) = 256 ∧ length s'.(free_recv_queue) = 256%nat.
Proof. eexists. split; [vm_compute; reflexivity|]. by vm_compute. Qed.
(** The fragments of a management frame never meet: the first is freed while it waits
    in the queue, and the last one is freed twice, so that the counter of free frames
    is one too high from then on. *)
Example mgmt_fragment_freed_twice :
  let s := upd_frame 1 (λ _, demo_frag 1 0 6 [4; 5]) (rtw_alloc_recvframe (upd_frame 0 (λ _, demo_frag 0 1 5 [1; 2; 3]) (rtw_alloc_recvframe rtw_init_recv_priv).2)).2 in
  ∃ s1 s', recv_mgmt_frame (demo_ctx 3) s 0 = Ret (None, s1) ∧ s1.(defrag_q) !! 0%nat = Some [] ∧
    recv_mgmt_frame (demo_ctx 3) s1 1 = Ret (None, s') ∧ s'.(free_recvframe_cnt) = 257 ∧ length s'.(free_recv_queue) = 256%nat.
Proof. eexists _, _. split; [vm_compute; reflexivity|]. split; [vm_compute; reflexivity|]. split; [vm_compute; reflexivity|]. by vm_compute. Qed.
(** The last fragment of a management frame completes what waits of a data frame: the
    reassembled frame is dispatched and then in no queue, the fragment freed twice. *)
Example mgmt_fragment_loses_frame :
  let s := upd_frame 1 (λ _, demo_frag 1 0 6 [4; 5]) (rtw_alloc_recvframe (upd_frame 0 (λ _, demo_frag 0 1 5 [1; 2; 3]) (rtw_alloc_recvframe rtw_init_recv_priv).2)).2 in
  ∃ s1 s', recvframe_chk_defrag (demo_ctx 3) s 0 = Ret (None, s1) ∧ recv_mgmt_frame (demo_ctx 3) s1 1 = Ret (Some 0%nat, s') ∧
    s'.(free_recvframe_cnt) = 256 ∧ (0%nat ∉ s'.(free_recv_queue)) ∧ concat s'.(defrag_q) = [].
Proof.
  eexists _, _. split; [vm_compute; reflexivity|]. split; [vm_compute; reflexivity|]. split; [vm_compute; reflexivity|].
  split; [|vm_compute; reflexivity]. apply (bool_decide_eq_false_1 _). vm_compute. reflexivity.
Qed.

(** ** Whole TKIP frames *)
(** A whole TKIP frame from a known station, made of header, IV, data, MIC and
    ICV, is handed on exactly when its MIC is the Michael code of its data under
    the key of that station; what is handed on is then header, IV and data once
    the ICV is taken off.  Otherwise the frame is freed, and a Michael failure is
    reported exactly when the hardware or the software had decrypted the frame. *)
Theorem tkip_mic_checked c s i sta f hdr iv data mic icv_bytes :
  s.(frames) !! i = Some f → frame_ok f → rtw_get_stainfo c.(stapriv) f.(attrib).(f_ta) = Some sta →
  f.(attrib).(f_encrypt) = _TKIP_ → f.(attrib).(f_privacy) = true → IS_MCAST f.(attrib).(f_ra) = false →
  f.(attrib).(f_mfrag) = 0 → f.(attrib).(f_frag_num) = 0 →
  contents f = hdr ++ iv ++ data ++ mic ++ icv_bytes →
  Z.of_nat (length hdr) = f.(attrib).(f_hdrlen) → Z.of_nat (length iv) = f.(attrib).(f_iv_len) →
  length mic = 8%nat → Z.of_nat (length icv_bytes) = f.(attrib).(f_icv_len) →
  mic_header_len hdr.[1] ≤ f.(attrib).(f_hdrlen) →
  let ok := bool_decide (rtw_seccalctkipmic (c.(dot11tkiprxmickey) sta) hdr data f.(attrib).(f_priority) = mic) in
  ∃ s', recvframe_chk_defrag c s i = Ret (if ok then Some i else None, s') ∧
    (ok = true → s'.(mic_errs) = s.(mic_errs) ∧
       ∃ f', s'.(frames) !! i = Some f' ∧ frame_ok f' ∧ strip f' = hdr ++ iv ++ data) ∧
    (ok = false → last s'.(free_recv_queue) = Some i ∧
       s'.(mic_errs) = if f.(attrib).(f_bdecrypted) then (sta, false) :: s.(mic_errs) else s.(mic_errs)).
Proof.
  intros Hi Hf Hst He Hp Hu Hm0 Hn0 Hc Hh Hv Hm Hv' Hl. cbn zeta.
  pose proof (chkmic_spec c s i sta f hdr iv data mic icv_bytes Hi Hf Hst He Hu Hc Hh Hv Hm Hv' Hl) as E.
  pose proof (length_contents _ Hf) as El. rewrite Hc, !length_app in El.
  unfold recvframe_chk_defrag, defrag_station. rewrite Hi, Hst. cbn [cbind]. rewrite Hm0, Hn0. cbn [Z.eqb negb andb cbind].
  unfold chk_defrag_mic. rewrite Hi, Hp, E. cbn [cbind]. fold (mic_ok c sta f hdr data mic). unfold mic_logged.
  destruct (mic_ok _ _ _ _ _ _); cbn [negb andb]; eexists; (split; [done|]); split; try done; intros _.
  - split; [done|]. destruct (pull_tail_contents f Hf 8) as [H1 H2]; [lia|]. cbn zeta in *.
    exists (recvframe_pull_tail f 8).2. split; [by rewrite (frames_upd_eq _ _ f)|]. split; [done|].
    pose proof (length_contents _ H1) as E1. unfold strip. rewrite pull_tail_attrib.
    rewrite H2, length_take, Hc, !length_app in E1. rewrite H2, take_take, Hc, !app_assoc.
    rewrite <- (app_assoc _ mic). rewrite take_app_le by (rewrite !length_app; lia).
    apply take_ge. rewrite !length_app. lia.
  - split; [|by destruct (f_bdecrypted _)]. cbn. by rewrite last_snoc.
Qed.

Definition demo_mic_frame (good : bool) : recv_frame_hdr :=
  let hdr := [0x08; 0x02] ++ replicate 22 0xa0 in
  let mic := rtw_seccalctkipmic (replicate 8 7) hdr [1; 2; 3] 0 in
  {| attrib := Build_rx_pkt_attrib 24 8 4 _TKIP_ 0 0 true true 0 0 2 [] [] demo_addr [2; 0; 0; 0; 0; 1];
     keytrack := 0; len := 47; rx_data := 0; rx_tail := 47;
     mem := hdr ++ replicate 8 0x20 ++ [1; 2; 3] ++ (if good then mic else replicate 8 0) ++ replicate 4 0xcc |}.
Definition demo_mic_ctx : rx_ctx := {|
  stapriv := (rtw_alloc_stainfo (rtw_init_sta_priv 16) demo_addr).2; sta_keytrack := λ _, 0;
  dot11tkiprxmickey := λ _, replicate 8 7; dot118021XGrprxmickey := []; binstallGrpkey := false; mlme_key_index := 0
|}.
Definition demo_mic_rx (good : bool) : recv_priv :=
  upd_frame 0 (λ _, demo_mic_frame good) (rtw_alloc_recvframe rtw_init_recv_priv).2.
Lemma tkip_mic_checked_witness :
  ∃ s', recvframe_chk_defrag demo_mic_ctx (demo_mic_rx true) 0 = Ret (Some 0%nat, s') ∧ s'.(mic_errs) = [].
Proof.
  destruct (tkip_mic_checked demo_mic_ctx (demo_mic_rx true) 0 0 (demo_mic_frame true)
    ([0x08; 0x02] ++ replicate 22 0xa0) (replicate 8 0x20) [1; 2; 3]
    (rtw_seccalctkipmic (replicate 8 7) ([0x08; 0x02] ++ replicate 22 0xa0) [1; 2; 3] 0) (replicate 4 0xcc))
    as (s' & E & H & _);
    try (vm_compute; reflexivity); [constructor; vm_compute; congruence|vm_compute; congruence|].
  exists s'. split; [rewrite E; vm_compute; reflexivity|]. apply H. vm_compute. reflexivity.
Defined.

(** A TKIP frame without room for a MIC: [datalen] wraps and the check leaves the buffer. *)
Example tkip_short_frame_oob :
  let f := {| attrib := attrib (demo_mic_frame true); keytrack := 0; len := 40; rx_data := 0; rx_tail := 40;
              mem := mem (demo_mic_frame true) |} in
  frame_ok f ∧ recvframe_chkmic demo_mic_ctx (upd_frame 0 (λ _, f) (demo_mic_rx true)) 0 = Oob.
Proof. cbv zeta. split; [constructor; vm_compute; congruence|vm_compute; reflexivity]. Qed.
(** A fragment shorter than its own header: [recvframe_pull] fails, its result is
    not looked at, and the header goes into the payload. *)
Example short_fragment_appends_header :
  let f := {| attrib := Build_rx_pkt_attrib 24 8 0 0 1 0 false false 0 0 2 [] [] demo_addr [2; 0; 0; 0; 0; 1];
              keytrack := 3; len := 10; rx_data := 16; rx_tail := 26; mem := replicate 116 0xee |} in
  let g := {| attrib := Build_rx_pkt_attrib 24 0 0 0 0 1 false false 0 0 2 [] [] demo_addr [2; 0; 0; 0; 0; 1];
              keytrack := 3; len := 27; rx_data := 0; rx_tail := 27; mem := replicate 100 0x11 |} in
  let s := upd_frame 1 (λ _, f) (upd_frame 0 (λ _, g) (set_defrag [[0%nat; 1%nat]] rtw_init_recv_priv)) in
  ∃ s' h, recvframe_defrag s 0 = Ret (Some 0%nat, s') ∧ s'.(frames) !! 0%nat = Some h ∧
    contents h = replicate 27 0x11 ++ replicate 10 0xee.
Proof. cbv zeta. eexists _, _. split; [vm_compute; reflexivity|]. split; [vm_compute; reflexivity|]. vm_compute. reflexivity. Qed.
