(* ===== verification/Msdu.v ===== *)
(** * From received frames to Ethernet packets: [amsdu_to_msdu],
    [validate_amsdu_content], [recv_process_mpdu] of [core/rtw_recv.c],
    [rtw_recv_llc_parse] and [wlanhdr_to_ethhdr] of [core/rtw_recv_llc_rest.c],
    [rtw_ap_rx_msdu_act_check] of [core/rtw_ap.c] and [rtw_os_alloc_msdu_pkt] of
    [os_dep/linux/recv_linux.c]

    The frames are those of RecvFrame.  A packet handed to the network stack or to
    the transmit path is the list of its bytes.  Mesh, WDS and WAPI are configured
    out, and without WAPI [rtw_recv_indicatepkt_check] passes every packet. *)
From S2P Require Import Prelude.
From stdpp Require Import list sets.
From S2P Require Import CryptoWrap Blocks Mem StaTable RecvFrame.
Local Open Scope Z_scope.

(** ** Data *)
Definition ETH_HLEN : Z := 14.
Definition ETH_ALEN : nat := 6.
Definition SNAP_SIZE : nat := 6.
Definition MAX_SUBFRAME_COUNT : nat := 64.
Definition ETH_P_AARP : Z := 0x80F3.
Definition ETH_P_IPX : Z := 0x8137.
Definition rtw_rfc1042_header : list Z := [0xaa; 0xaa; 0x03; 0x00; 0x00; 0x00].
Definition rtw_bridge_tunnel_header : list Z := [0xaa; 0xaa; 0x03; 0x00; 0x00; 0xf8].
Inductive rtw_rx_llc_hdl := RTW_RX_LLC_KEEP | RTW_RX_LLC_REMOVE.
Definition RTW_AMSDU_MODE_NON_SPP : Z := 0.
Definition RTW_RX_MSDU_ACT_INDICATE : Z := BIT 0.
Definition RTW_RX_MSDU_ACT_FORWARD : Z := BIT 1.

(** What the functions read of the adapter.  [fwd_res da] tells whether the
    transmit side has a frame for a packet to [da]; [pkt_avail n] whether the
    [n]-th packet can be allocated. *)
Inductive mlme_role := MLME_STA | MLME_AP | MLME_OTHER.
Record msdu_ctx := {
  role : mlme_role;
  amsdu_mode : Z; dot11PrivacyAlgrthm : Z;
  own_mac : list Z; ap_isolate : bool; asoc_list_cnt : Z; m_stapriv : sta_priv;
  fwd_res : list Z → bool;
  pkt_avail : nat → bool
}.

(** ** LLC *)
Definition rtw_recv_llc_parse (m : list Z) (msdu msdu_len : Z) : cres rtw_rx_llc_hdl :=
  if msdu_len <? 8 then Ret RTW_RX_LLC_KEEP
  else
    let* h := ptr_read m msdu 8 in
    let eth_type := RTW_GET_BE16 (drop SNAP_SIZE h) in
    let snap := take SNAP_SIZE h in
    Ret (if (bool_decide (snap = rtw_rfc1042_header) && negb (eth_type =? ETH_P_AARP) && negb (eth_type =? ETH_P_IPX))
            || bool_decide (snap = rtw_bridge_tunnel_header)
         then RTW_RX_LLC_REMOVE else RTW_RX_LLC_KEEP).
Definition llc_removed (h : rtw_rx_llc_hdl) : bool := match h with RTW_RX_LLC_KEEP => false | RTW_RX_LLC_REMOVE => true end.

(** ** What happens to an MSDU *)

(** [validate_amsdu_content]; true is [_SUCCESS]. *)
Definition validate_amsdu_content (c : msdu_ctx) (a : rx_pkt_attrib) (da sa : list Z) : bool :=
  if (c.(amsdu_mode) =? RTW_AMSDU_MODE_NON_SPP) && negb (c.(dot11PrivacyAlgrthm) =? 0) then
    negb ((a.(f_to_fr_ds) =? 2) && negb (bool_decide (da = a.(f_ra)))) &&
    negb ((a.(f_to_fr_ds) =? 1) && negb (bool_decide (sa = a.(f_ta)))) &&
    negb (bool_decide (da = rtw_rfc1042_header))
  else true.

Definition rtw_ap_rx_msdu_act_check (c : msdu_ctx) (da sa : list Z) : Z :=
  let fwd_chk act :=
    if c.(asoc_list_cnt) <=? 1 then act
    else if c.(fwd_res) da then act .| RTW_RX_MSDU_ACT_FORWARD else act in
  let is_da_bmc := IS_MCAST da in
  let is_da_self := negb is_da_bmc && bool_decide (da = c.(own_mac)) in
  if bool_decide (sa = c.(own_mac)) then 0
  else if is_da_bmc then
    if c.(ap_isolate) then RTW_RX_MSDU_ACT_INDICATE else fwd_chk RTW_RX_MSDU_ACT_INDICATE
  else if is_da_self then RTW_RX_MSDU_ACT_INDICATE
  else if bool_decide (is_Some (rtw_get_stainfo c.(m_stapriv) da)) then
    if c.(ap_isolate) then 0 else fwd_chk 0
  else RTW_RX_MSDU_ACT_INDICATE.
(** [rtw_sta_rx_amsdu_act_check] without WDS; other roles indicate. *)
Definition rx_msdu_act (c : msdu_ctx) (da sa : list Z) : Z :=
  match c.(role) with MLME_AP => rtw_ap_rx_msdu_act_check c da sa | _ => RTW_RX_MSDU_ACT_INDICATE end.

(** The packet of an MSDU, [msdu] the bytes behind the subframe header.  The copy
    and the clone of the socket buffer hold the same bytes. *)
Definition rtw_os_alloc_msdu_pkt (avail : bool) (da sa msdu : list Z) (llc_hdl : rtw_rx_llc_hdl) : option (list Z) :=
  if negb avail then None
  else if llc_removed llc_hdl then Some (da ++ sa ++ drop SNAP_SIZE msdu)
  else Some (da ++ sa ++ be_bytes 2 (u16 (Z.of_nat (length msdu))) ++ msdu).

(** ** Deaggregation

    [indicated] are the packets collected in [subframes], [forwarded] those given
    to [recv_fwd_pkt_hdl]; [n] counts the allocations.  A turn of the loop takes
    at least [ETH_HLEN] bytes off [a_len]. *)
Record amsdu_out := { indicated : list (list Z); forwarded : list (list Z) }.
Definition E_FUEL : Z := -1.
(** [move_to_next]: the pointers behind the subframe and its padding, with which
    the loop goes on. *)
Definition move_to_next (loop : Z → Z → cres amsdu_out) (pdata a_len nSubframe_Length : Z) (out : amsdu_out) : cres amsdu_out :=
  let pdata := pdata + ETH_HLEN in
  let a_len := a_len - ETH_HLEN in
  if (MAX_SUBFRAME_COUNT <=? length out.(indicated))%nat then Ret out
  else
    let pdata := pdata + nSubframe_Length in
    let a_len := a_len - nSubframe_Length in
    if a_len =? 0 then loop pdata a_len
    else
      let padding_len := 4 - ((nSubframe_Length + ETH_HLEN) .& 3) in
      let padding_len := if padding_len =? 4 then 0 else padding_len in
      if a_len <? padding_len then Ret out
      else loop (pdata + padding_len) (a_len - padding_len).
Fixpoint amsdu_loop (fuel : nat) (c : msdu_ctx) (a : rx_pkt_attrib) (m : list Z) (pdata a_len : Z) (n : nat)
    (out : amsdu_out) : cres amsdu_out :=
  match fuel with
  | O => Err E_FUEL
  | S fuel =>
      if a_len <=? ETH_HLEN then Ret out
      else
        let* hdr := ptr_read m pdata ETH_HLEN in
        let nSubframe_Length := RTW_GET_BE16 (drop 12 hdr) in
        if a_len <? ETH_HLEN + nSubframe_Length then Ret out
        else
          let da := take ETH_ALEN hdr in
          let sa := take ETH_ALEN (drop ETH_ALEN hdr) in
          if negb (validate_amsdu_content c a da sa) then Ret out
          else
            let* llc_hdl := rtw_recv_llc_parse m (pdata + ETH_HLEN) nSubframe_Length in
            let act := rx_msdu_act c da sa in
            let next n out :=
              move_to_next (λ pdata a_len, amsdu_loop fuel c a m pdata a_len n out) pdata a_len nSubframe_Length out in
            if act =? 0 then next n out
            else
              let* msdu := ptr_read m (pdata + ETH_HLEN) nSubframe_Length in
              match rtw_os_alloc_msdu_pkt (c.(pkt_avail) n) da sa msdu llc_hdl with
              | None => Ret out
              | Some sub_pkt =>
                  let forwarded :=
                    if act .& RTW_RX_MSDU_ACT_FORWARD =? 0 then out.(forwarded) else out.(forwarded) ++ [sub_pkt] in
                  let indicated :=
                    if act .& RTW_RX_MSDU_ACT_INDICATE =? 0 then out.(indicated) else out.(indicated) ++ [sub_pkt] in
                  next (S n) {| indicated := indicated; forwarded := forwarded |}
              end
  end.
(** What is handed on; the frame itself is freed. *)
Definition amsdu_to_msdu (c : msdu_ctx) (f : recv_frame_hdr) : cres amsdu_out :=
  let a := f.(attrib) in
  let f := (recvframe_pull f a.(f_hdrlen)).2 in
  let f := if 0 <? a.(f_iv_len) then (recvframe_pull f a.(f_iv_len)).2 else f in
  let f := if a.(f_encrypt) =? 0 then f else (recvframe_pull_tail f a.(f_icv_len)).2 in
  amsdu_loop (S (Z.to_nat f.(len))) c a f.(mem) f.(rx_data) f.(len) 0 {| indicated := []; forwarded := [] |}.

(** ** A single MSDU *)

(** [wlanhdr_to_ethhdr]: the verdict and the frame, the header rewritten in place. *)
Definition wlanhdr_to_ethhdr (f : recv_frame_hdr) (llc_hdl : rtw_rx_llc_hdl) : cres (bool * recv_frame_hdr) :=
  let a := f.(attrib) in
  let f := if a.(f_encrypt) =? 0 then f else (recvframe_pull_tail f a.(f_icv_len)).2 in
  let rmv_len := a.(f_hdrlen) + a.(f_iv_len) + (if llc_removed llc_hdl then Z.of_nat SNAP_SIZE else 0) in
  let len := u16 (f.(len) - rmv_len) in
  let '(ptr, f) := recvframe_pull f (rmv_len - ETH_HLEN + (if llc_removed llc_hdl then 2 else 0)) in
  match ptr with
  | None => Ret (false, f)
  | Some ptr =>
      let* m := ptr_write f.(mem) ptr a.(f_dst) in
      let* m := ptr_write m (ptr + 6) a.(f_src) in
      let* m := if llc_removed llc_hdl then Ret m else ptr_write m (ptr + 12) (be_bytes 2 len) in
      Ret (true, set_mem m f)
  end.
(** The branch of [recv_process_mpdu] for a frame that is not an A-MSDU: what is
    forwarded and what is indicated, as bytes; [run] is [!RTW_CANNOT_RUN]. *)
Definition recv_process_single (run : bool) (c : msdu_ctx) (f : recv_frame_hdr) : cres amsdu_out :=
  let a := f.(attrib) in
  let msdu := f.(rx_data) + a.(f_hdrlen) + a.(f_iv_len) in
  let msdu_len := u16 (f.(len) - a.(f_hdrlen) - a.(f_iv_len) - (if a.(f_encrypt) =? 0 then 0 else a.(f_icv_len))) in
  let* llc_hdl := rtw_recv_llc_parse f.(mem) msdu msdu_len in
  let act := match c.(role) with MLME_AP => rtw_ap_rx_msdu_act_check c a.(f_dst) a.(f_src) | _ => RTW_RX_MSDU_ACT_INDICATE end in
  if act =? 0 then Ret {| indicated := []; forwarded := [] |}
  else
    let* (ok, f) := wlanhdr_to_ethhdr f llc_hdl in
    if negb ok then Ret {| indicated := []; forwarded := [] |}
    else
      let* pkt := ptr_read f.(mem) f.(rx_data) f.(len) in
      Ret {| forwarded := if act .& RTW_RX_MSDU_ACT_FORWARD =? 0 then [] else [pkt];
             indicated := if (act .& RTW_RX_MSDU_ACT_INDICATE =? 0) || negb run then [] else [pkt] |}.

(** ** LLC on plain bytes *)
Definition llc_of (msdu : list Z) : rtw_rx_llc_hdl :=
  let eth_type := RTW_GET_BE16 (drop SNAP_SIZE msdu) in
  let snap := take SNAP_SIZE msdu in
  if (length msdu <? 8)%nat then RTW_RX_LLC_KEEP
  else if (bool_decide (snap = rtw_rfc1042_header) && negb (eth_type =? ETH_P_AARP) && negb (eth_type =? ETH_P_IPX))
            || bool_decide (snap = rtw_bridge_tunnel_header)
       then RTW_RX_LLC_REMOVE else RTW_RX_LLC_KEEP.
Lemma llc_parse_at m p msdu : at_ptr m p msdu →
  rtw_recv_llc_parse m p (Z.of_nat (length msdu)) = Ret (llc_of msdu).
Proof.
  intros H. unfold rtw_recv_llc_parse, llc_of.
  destruct (Z.ltb_spec (Z.of_nat (length msdu)) 8), (Nat.ltb_spec (length msdu) 8); try lia; [done|].
  rewrite <- (take_drop 8 msdu) in H. apply at_ptr_app in H as [H _].
  rewrite (at_ptr_read_z _ _ _ 8 H) by (rewrite length_take; lia). cbn [cbind].
  unfold RTW_GET_BE16. rewrite !skipn_firstn_comm, !aget_take, take_take by (unfold SNAP_SIZE; lia). done.
Qed.
Lemma llc_removed_long msdu : llc_removed (llc_of msdu) = true → (8 ≤ length msdu)%nat.
Proof. unfold llc_of. destruct (Nat.ltb_spec (length msdu) 8); [done|lia]. Qed.

(** The Ethernet packet of an MSDU. *)
Definition to_eth (da sa msdu : list Z) : list Z :=
  if llc_removed (llc_of msdu) then da ++ sa ++ drop SNAP_SIZE msdu
  else da ++ sa ++ be_bytes 2 (u16 (Z.of_nat (length msdu))) ++ msdu.
Lemma alloc_to_eth avail da sa msdu :
  rtw_os_alloc_msdu_pkt avail da sa msdu (llc_of msdu) = if avail then Some (to_eth da sa msdu) else None.
Proof. unfold rtw_os_alloc_msdu_pkt, to_eth. destruct avail; [|done]. by destruct (llc_of msdu). Qed.
Lemma to_eth_addrs da sa msdu : length da = 6%nat → length sa = 6%nat →
  take 6 (to_eth da sa msdu) = da ∧ take 6 (drop 6 (to_eth da sa msdu)) = sa.
Proof.
  intros Hd Hs. assert (∃ r, to_eth da sa msdu = da ++ sa ++ r) as [r ->] by (unfold to_eth; case_match; eauto).
  rewrite (take_app_length' _ _ 6), (drop_app_length' _ _ 6), (take_app_length' _ _ 6) by done. done.
Qed.

Lemma be16_range l : 0 ≤ RTW_GET_BE16 l < 65536.
Proof. unfold RTW_GET_BE16. pose proof (u16_uint ((l.[0] << 8) .| l.[1])) as H. unfold uint in H. lia. Qed.
Lemma be16_bytes n l : 0 ≤ n < 65536 → RTW_GET_BE16 (be_bytes 2 n ++ l) = n.
Proof.
  intros Hn. unfold RTW_GET_BE16. cbn [be_bytes app aget nth].
  rewrite (Z.mod_small (n / 256)) by (split; [apply Z.div_pos|apply Z.div_lt_upper_bound]; lia).
  rewrite lor_split8. apply u16_id. unfold uint. lia.
Qed.

(** ** What every packet satisfies, whatever the bytes of the frame are *)

(** The checks of a protected network: the addresses agree with those of the frame. *)
Definition admissible (c : msdu_ctx) (a : rx_pkt_attrib) (da sa : list Z) : Prop :=
  c.(amsdu_mode) = RTW_AMSDU_MODE_NON_SPP → c.(dot11PrivacyAlgrthm) ≠ 0 →
  (a.(f_to_fr_ds) = 2 → da = a.(f_ra)) ∧ (a.(f_to_fr_ds) = 1 → sa = a.(f_ta)) ∧ da ≠ rtw_rfc1042_header.
Lemma validate_admissible c a da sa : validate_amsdu_content c a da sa = true → admissible c a da sa.
Proof.
  unfold validate_amsdu_content, admissible. intros H Hm Hp. apply Z.eqb_eq in Hm. apply Z.eqb_neq in Hp.
  rewrite Hm, Hp in H. cbn [andb negb] in H. rewrite !andb_true_iff, !negb_true_iff, !andb_false_iff, !negb_false_iff in H.
  destruct H as [[[H1|H1] [H2|H2]] H3]; rewrite ?bool_decide_eq_true, ?bool_decide_eq_false, ?Z.eqb_neq in *; naive_solver.
Qed.
(** A packet that [bit] of the action allows. *)
Definition allowed (c : msdu_ctx) (a : rx_pkt_attrib) (bit : Z) (pkt : list Z) : Prop :=
  let da := take 6 pkt in
  let sa := take 6 (drop 6 pkt) in
  admissible c a da sa ∧ rx_msdu_act c da sa .& bit ≠ 0.
Definition out_ok (c : msdu_ctx) (a : rx_pkt_attrib) (out : amsdu_out) : Prop :=
  Forall (allowed c a RTW_RX_MSDU_ACT_INDICATE) out.(indicated) ∧
  Forall (allowed c a RTW_RX_MSDU_ACT_FORWARD) out.(forwarded).

Lemma padding_range x : let p := 4 - (x .& 3) in 0 ≤ (if p =? 4 then 0 else p) ≤ 3.
Proof.
  cbv zeta. assert (0 ≤ x .& 3 < 4) by (change 3 with (Z.ones 2); apply uint_ones; lia).
  destruct (Z.eqb_spec (4 - (x .& 3)) 4); lia.
Qed.

Section Safe.
Context (c : msdu_ctx) (a : rx_pkt_attrib) (m : list Z).

(** The two goals of the loop: at most 64 packets, each of them allowed. *)
Definition good (r : cres amsdu_out) : Prop :=
  ∃ out, r = Ret out ∧ (length out.(indicated) ≤ MAX_SUBFRAME_COUNT)%nat ∧ out_ok c a out.
Lemma good_ret out : (length out.(indicated) ≤ MAX_SUBFRAME_COUNT)%nat → out_ok c a out → good (Ret out).
Proof. intros. by exists out. Qed.

Lemma out_ok_snoc out da sa msdu : length da = 6%nat → length sa = 6%nat →
  validate_amsdu_content c a da sa = true → out_ok c a out →
  let act := rx_msdu_act c da sa in
  let pkt := to_eth da sa msdu in
  out_ok c a {| indicated := if act .& RTW_RX_MSDU_ACT_INDICATE =? 0 then out.(indicated) else out.(indicated) ++ [pkt];
                forwarded := if act .& RTW_RX_MSDU_ACT_FORWARD =? 0 then out.(forwarded) else out.(forwarded) ++ [pkt] |}.
Proof.
  intros Hd Hs Hv%validate_admissible [Hi Hf]. cbv zeta. destruct (to_eth_addrs da sa msdu Hd Hs) as [E1 E2].
  assert (∀ bit, rx_msdu_act c da sa .& bit ≠ 0 → allowed c a bit (to_eth da sa msdu)) as Ha.
  { intros bit Hb. unfold allowed. cbv zeta. rewrite E1, E2. by split. }
  split; cbn [indicated forwarded]; case_match eqn:E; [done| |done|]; apply Z.eqb_neq in E; apply Forall_app; eauto.
Qed.
Lemma next_good loop pdata a_len nl out :
  0 ≤ pdata → 0 ≤ nl → 14 + nl ≤ a_len → pdata + a_len ≤ Z.of_nat (length m) →
  (length out.(indicated) ≤ MAX_SUBFRAME_COUNT)%nat → out_ok c a out →
  (∀ p l, 0 ≤ p → 0 ≤ l ≤ a_len - 14 → p + l ≤ Z.of_nat (length m) →
    (length out.(indicated) < MAX_SUBFRAME_COUNT)%nat → good (loop p l)) →
  good (move_to_next loop pdata a_len nl out).
Proof.
  intros Hp Hn Hl Hm Hi Hok Hloop. unfold move_to_next, ETH_HLEN. cbv zeta. pose proof (padding_range (nl + 14)) as Hpd. cbv zeta in Hpd.
  set (pad := if _ =? 4 then 0 else _) in *.
  destruct (Nat.leb_spec MAX_SUBFRAME_COUNT (length (indicated out))); [by apply good_ret|].
  destruct (Z.eqb_spec (a_len - 14 - nl) 0); [apply Hloop; lia|].
  destruct (Z.ltb_spec (a_len - 14 - nl) pad); [by apply good_ret|]. apply Hloop; lia.
Qed.
Lemma amsdu_loop_safe fuel : ∀ pdata a_len n out,
  0 ≤ pdata → 0 ≤ a_len → pdata + a_len ≤ Z.of_nat (length m) → (Z.to_nat a_len < fuel)%nat →
  (length out.(indicated) < MAX_SUBFRAME_COUNT)%nat → out_ok c a out →
  good (amsdu_loop fuel c a m pdata a_len n out).
Proof.
  induction fuel as [|fuel IH]; intros pdata a_len n out Hp Ha Hm Hf Hl Hok; [lia|]. cbn [amsdu_loop].
  assert (good (Ret out)) as Hret by (apply good_ret; [lia|done]).
  unfold ETH_HLEN. destruct (Z.leb_spec a_len 14); [done|].
  destruct (at_ptr_range m pdata 14) as (hdr & Hh & Elh); [lia..|]. rewrite (at_ptr_read_z _ _ _ _ Hh Elh). cbn [cbind].
  pose proof (be16_range (drop 12 hdr)) as Hn. set (nl := RTW_GET_BE16 (drop 12 hdr)) in *.
  destruct (Z.ltb_spec a_len (14 + nl)); [done|].
  set (da := take ETH_ALEN hdr). set (sa := take ETH_ALEN (drop ETH_ALEN hdr)).
  assert (length da = 6%nat ∧ length sa = 6%nat) as [Hda Hsa].
  { unfold da, sa, ETH_ALEN. rewrite !length_take, length_drop. lia. }
  destruct (validate_amsdu_content c a da sa) eqn:Hv; cbn [negb]; [|done].
  destruct (at_ptr_range m (pdata + 14) nl) as (msdu & Hms & Elm); [lia..|].
  rewrite Elm, (llc_parse_at _ _ _ Hms), (at_ptr_read _ _ _ Hms), <- Elm. cbn [cbind].
  destruct (Z.eqb_spec (rx_msdu_act c da sa) 0).
  - apply next_good; try lia; [done|]. intros p l ? ? ? ?. apply IH; (done || lia).
  - rewrite alloc_to_eth. destruct (pkt_avail c n); [|done].
    pose proof (out_ok_snoc out da sa msdu Hda Hsa Hv Hok) as Ho. cbv zeta in Ho.
    apply next_good; try lia; [|done|].
    + cbn [indicated]. case_match; rewrite ?length_app; cbn [length]; lia.
    + intros p l ? ? ? ?. apply IH; (done || lia).
Qed.
End Safe.

Lemma pull_frame_ok f sz : frame_ok f → 0 ≤ sz → frame_ok (recvframe_pull f sz).2.
Proof.
  intros Hf Hs. destruct (Z.le_gt_cases sz (len f)); [by apply pull_contents|]. by rewrite pull_none by (done || lia).
Qed.
Lemma pull_tail_frame_ok f sz : frame_ok f → 0 ≤ sz → frame_ok (recvframe_pull_tail f sz).2.
Proof.
  intros Hf Hs. destruct (Z.le_gt_cases sz (len f)); [by apply pull_tail_contents|]. by rewrite pull_tail_none by (done || lia).
Qed.
(** The frame without its header, IV and ICV, as [amsdu_to_msdu] strips it. *)
Definition amsdu_body (f : recv_frame_hdr) : recv_frame_hdr :=
  let a := f.(attrib) in
  let f := (recvframe_pull f a.(f_hdrlen)).2 in
  let f := if 0 <? a.(f_iv_len) then (recvframe_pull f a.(f_iv_len)).2 else f in
  if a.(f_encrypt) =? 0 then f else (recvframe_pull_tail f a.(f_icv_len)).2.
Lemma amsdu_body_ok f : frame_ok f → 0 ≤ f.(attrib).(f_hdrlen) → 0 ≤ f.(attrib).(f_icv_len) → frame_ok (amsdu_body f).
Proof.
  intros Hf Hh Hi. unfold amsdu_body. cbv zeta. pose proof (pull_frame_ok _ _ Hf Hh).
  destruct (Z.ltb_spec 0 (f_iv_len (attrib f))); case_match; auto using pull_frame_ok, pull_tail_frame_ok with lia.
Qed.

(** Deaggregation of a received A-MSDU, whatever its bytes are: it terminates,
    reads nothing outside the frame's buffer, hands at most 64 packets up, and
    every packet it hands up or forwards passed the checks of a protected network
    (in a frame from the access point its destination is the receiver address, in
    a frame to it its source is the transmitter address, and it does not start
    with an LLC header) and the policy of the role for its addresses. *)
Theorem amsdu_deaggregation_safe c f :
  frame_ok f → 0 ≤ f.(attrib).(f_hdrlen) → 0 ≤ f.(attrib).(f_icv_len) →
  ∃ out, amsdu_to_msdu c f = Ret out ∧ (length out.(indicated) ≤ MAX_SUBFRAME_COUNT)%nat ∧ out_ok c f.(attrib) out.
Proof.
  intros Hf Hh Hi. pose proof (amsdu_body_ok f Hf Hh Hi) as [H1 H2 H3 H4 H5].
  unfold amsdu_to_msdu. fold (amsdu_body f). unfold rx_end in *.
  apply amsdu_loop_safe; [lia..|cbn; unfold MAX_SUBFRAME_COUNT; lia|by split; cbn].
Qed.

(** An access point that isolates its stations forwards nothing. *)
Lemma isolate_no_forward c da sa : c.(role) = MLME_AP → c.(ap_isolate) = true →
  rx_msdu_act c da sa .& RTW_RX_MSDU_ACT_FORWARD = 0.
Proof.
  intros Hr Hi. unfold rx_msdu_act, rtw_ap_rx_msdu_act_check. rewrite Hr, Hi. cbv zeta. by repeat case_match.
Qed.
(** C20: with [ap_isolate] an access point forwards no subframe of an A-MSDU to
    another station, and hands none addressed to an associated station up. *)
Theorem amsdu_isolation c f out pkt :
  frame_ok f → 0 ≤ f.(attrib).(f_hdrlen) → 0 ≤ f.(attrib).(f_icv_len) →
  c.(role) = MLME_AP → c.(ap_isolate) = true → amsdu_to_msdu c f = Ret out →
  out.(forwarded) = [] ∧
  (pkt ∈ out.(indicated) → let da := take 6 pkt in
     IS_MCAST da = true ∨ da = c.(own_mac) ∨ rtw_get_stainfo c.(m_stapriv) da = None).
Proof.
  intros Hf Hh Hi Hr Hiso E. pose proof (amsdu_body_ok f Hf Hh Hi) as [H1 H2 H3 H4 H5].
  destruct (amsdu_loop_safe c (attrib f) (mem (amsdu_body f)) (S (Z.to_nat (len (amsdu_body f)))) (rx_data (amsdu_body f))
    (len (amsdu_body f)) 0 {| indicated := []; forwarded := [] |}) as (out' & E' & _ & [Hind Hfwd]);
    [unfold rx_end in *; lia..|cbn; unfold MAX_SUBFRAME_COUNT; lia|by split; cbn|].
  unfold amsdu_to_msdu in E. fold (amsdu_body f) in E. rewrite E' in E. injection E as ->. split.
  - destruct (forwarded out) as [|x l]; [done|]. apply Forall_cons in Hfwd as [[_ Hx] _].
    by rewrite isolate_no_forward in Hx.
  - cbv zeta. rewrite Forall_forall in Hind. intros Hpk. destruct (Hind _ Hpk) as [_ Ha]. revert Ha.
    unfold rx_msdu_act, rtw_ap_rx_msdu_act_check. rewrite Hr, Hiso. cbv zeta.
    destruct (IS_MCAST (take 6 pkt)) eqn:Em; [by left|]. cbn [negb andb].
    case_bool_decide; [done|]. case_bool_decide; [auto|]. case_bool_decide as Hs; [done|].
    rewrite <- eq_None_not_Some in Hs. auto.
Qed.

(** ** A-MSDUs as the standard builds them *)
Record subframe := { s_da : list Z; s_sa : list Z; s_msdu : list Z }.
Definition enc_subframe (x : subframe) : list Z :=
  x.(s_da) ++ x.(s_sa) ++ be_bytes 2 (Z.of_nat (length x.(s_msdu))) ++ x.(s_msdu).
(** Every subframe but the last is padded to a multiple of four bytes. *)
Definition pad_bytes (x : subframe) : list Z := replicate (Z.to_nat ((- (14 + Z.of_nat (length x.(s_msdu)))) mod 4)) 0.
Fixpoint amsdu_encode (xs : list subframe) : list Z :=
  match xs with
  | [] => []
  | [x] => enc_subframe x
  | x :: xs => enc_subframe x ++ pad_bytes x ++ amsdu_encode xs
  end.
Definition eth_packet (x : subframe) : list Z := to_eth x.(s_da) x.(s_sa) x.(s_msdu).

Lemma padding_eq n : 0 ≤ n → let p := 4 - ((n + 14) .& 3) in (if p =? 4 then 0 else p) = (- (14 + n)) mod 4.
Proof.
  intros Hn. cbv zeta. change 3 with (Z.ones 2). rewrite Z.land_ones by lia. change (2 ^ 2) with 4.
  destruct (Z.eqb_spec (4 - (n + 14) mod 4) 4); Z.div_mod_to_equations; lia.
Qed.

Section Decode.
Context (c : msdu_ctx) (a : rx_pkt_attrib) (m : list Z).
Context (Hrole : c.(role) ≠ MLME_AP) (Havail : ∀ n, c.(pkt_avail) n = true).

Record sub_ok (x : subframe) : Prop := {
  so_da : length x.(s_da) = 6%nat;
  so_sa : length x.(s_sa) = 6%nat;
  so_msdu : 0 < Z.of_nat (length x.(s_msdu)) < 65536;
  so_valid : validate_amsdu_content c a x.(s_da) x.(s_sa) = true
}.
Lemma length_enc x : sub_ok x → Z.of_nat (length (enc_subframe x)) = 14 + Z.of_nat (length x.(s_msdu)).
Proof. intros []. unfold enc_subframe. rewrite !length_app, length_be_bytes. lia. Qed.

(** One turn of the loop on a subframe at the pointer. *)
Lemma decode_one fuel pdata a_len n out x : sub_ok x → at_ptr m pdata (enc_subframe x) →
  Z.of_nat (length (enc_subframe x)) ≤ a_len →
  let out' := {| indicated := out.(indicated) ++ [eth_packet x]; forwarded := out.(forwarded) |} in
  amsdu_loop (S fuel) c a m pdata a_len n out =
  move_to_next (λ pdata a_len, amsdu_loop fuel c a m pdata a_len (S n) out') pdata a_len (Z.of_nat (length x.(s_msdu))) out'.
Proof using Hrole Havail.
  intros Hx Hat Hl. cbv zeta. pose proof (length_enc x Hx) as El. destruct Hx as [Hd Hs Hm Hv].
  cbn [amsdu_loop]. unfold ETH_HLEN in *. rewrite (proj2 (Z.leb_gt _ _)) by lia.
  unfold enc_subframe in Hat. rewrite !app_assoc in Hat. apply at_ptr_app in Hat as [Hh Hms].
  assert (length ((s_da x ++ s_sa x) ++ be_bytes 2 (Z.of_nat (length (s_msdu x)))) = 14%nat) as Eh.
  { rewrite !length_app, length_be_bytes. lia. }
  rewrite (at_ptr_read_z _ _ _ 14 Hh) by (rewrite Eh; done). rewrite Eh in Hms. change (Z.of_nat 14) with 14 in Hms. cbn [cbind].
  rewrite (drop_app_length' (s_da x ++ s_sa x) _ 12) by (rewrite length_app; lia).
  rewrite <- (app_nil_r (be_bytes 2 _)), be16_bytes by lia. rewrite app_nil_r, (proj2 (Z.ltb_ge _ _)) by lia.
  rewrite <- app_assoc. rewrite (take_app_length' _ _ ETH_ALEN), (drop_app_length' _ _ ETH_ALEN), (take_app_length' _ _ ETH_ALEN) by done.
  rewrite Hv. cbn [negb]. rewrite (llc_parse_at _ _ _ Hms), (at_ptr_read _ _ _ Hms). cbn [cbind].
  rewrite alloc_to_eth, Havail. unfold rx_msdu_act. by destruct (role c).
Qed.

Lemma decode_loop xs : ∀ fuel pdata a_len n out,
  Forall sub_ok xs → at_ptr m pdata (amsdu_encode xs) → a_len = Z.of_nat (length (amsdu_encode xs)) →
  (length xs < fuel)%nat → (length out.(indicated) + length xs ≤ MAX_SUBFRAME_COUNT)%nat →
  amsdu_loop fuel c a m pdata a_len n out =
  Ret {| indicated := out.(indicated) ++ map eth_packet xs; forwarded := out.(forwarded) |}.
Proof using Hrole Havail.
  induction xs as [|x xs IH]; intros fuel pdata a_len n out Hx Hat -> Hf Hc; (destruct fuel as [|fuel]; [cbn in Hf; lia|]).
  - cbn. rewrite app_nil_r. by destruct out.
  - apply Forall_cons in Hx as [Hx Hxs]. cbn [length map] in *. pose proof (length_enc x Hx) as El.
    destruct xs as [|y ys].
    + cbn [amsdu_encode] in *. rewrite (decode_one _ _ _ _ _ x) by (done || lia). unfold move_to_next, ETH_HLEN. cbv zeta.
      rewrite El. replace (14 + _ - 14 - _) with 0 by lia. cbn [Z.eqb].
      destruct (Nat.leb _ _); [done|]. destruct fuel as [|fuel]; [lia|]. done.
    + change (amsdu_encode (x :: y :: ys)) with (enc_subframe x ++ pad_bytes x ++ amsdu_encode (y :: ys)) in *.
      apply at_ptr_app in Hat as [Hat1 Hat]. apply at_ptr_app in Hat as [_ Hat2].
      rewrite (decode_one _ _ _ _ _ x); [|done|done|rewrite length_app; lia]. unfold move_to_next, ETH_HLEN. cbv zeta.
      cbn [indicated]. rewrite (proj2 (Nat.leb_gt _ _)) by (rewrite length_app; cbn [length] in *; lia).
      rewrite padding_eq by lia. rewrite El in Hat2.
      assert (Z.of_nat (length (pad_bytes x)) = (- (14 + Z.of_nat (length (s_msdu x)))) mod 4) as Ep.
      { unfold pad_bytes. rewrite length_replicate. pose proof (Z.mod_pos_bound (- (14 + Z.of_nat (length (s_msdu x)))) 4). lia. }
      assert (0 < Z.of_nat (length (amsdu_encode (y :: ys)))) as Hpos.
      { apply Forall_cons in Hxs as [Hy _]. pose proof (length_enc y Hy). destruct ys; cbn [amsdu_encode]; rewrite ?length_app; lia. }
      rewrite !length_app, El || rewrite !length_app.
      rewrite (proj2 (Z.eqb_neq _ _)), (proj2 (Z.ltb_ge _ _)) by lia.
      rewrite (IH fuel) with (out := {| indicated := indicated out ++ [eth_packet x]; forwarded := forwarded out |}).
      * cbn [indicated forwarded]. by rewrite <- app_assoc.
      * done.
      * rewrite <- Ep. replace (pdata + 14 + Z.of_nat (length (s_msdu x)) + Z.of_nat (length (pad_bytes x))) with
          (pdata + (14 + Z.of_nat (length (s_msdu x))) + Z.of_nat (length (pad_bytes x))) by lia. done.
      * lia.
      * cbn [length] in *. lia.
      * cbn [indicated]. rewrite length_app. cbn [length] in *. lia.
Qed.
End Decode.

Lemma contents_drop f a b : frame_ok f → contents f = a ++ b → 
  let f' := (recvframe_pull f (Z.of_nat (length a))).2 in frame_ok f' ∧ contents f' = b.
Proof.
  intros Hf E. pose proof (length_contents _ Hf) as El. rewrite E, length_app in El.
  destruct (pull_contents f Hf (Z.of_nat (length a))) as [H1 H2]; [lia|]. split; [done|].
  by rewrite H2, E, Nat2Z.id, drop_app_length.
Qed.
Lemma contents_take f a b : frame_ok f → contents f = a ++ b →
  let f' := (recvframe_pull_tail f (Z.of_nat (length b))).2 in frame_ok f' ∧ contents f' = a.
Proof.
  intros Hf E. pose proof (length_contents _ Hf) as El. rewrite E, length_app in El.
  destruct (pull_tail_contents f Hf (Z.of_nat (length b))) as [H1 H2]; [lia|]. split; [done|].
  rewrite H2, E. replace (Z.to_nat (len f - Z.of_nat (length b))) with (length a) by lia. by rewrite take_app_length.
Qed.
(** A frame made of header, IV, payload and, where it is encrypted, ICV. *)
Record mpdu (f : recv_frame_hdr) (hdr iv payload icv : list Z) : Prop := {
  mp_ok : frame_ok f;
  mp_contents : contents f = hdr ++ iv ++ payload ++ icv;
  mp_hdr : f.(attrib).(f_hdrlen) = Z.of_nat (length hdr);
  mp_iv : f.(attrib).(f_iv_len) = Z.of_nat (length iv);
  mp_icv : Z.of_nat (length icv) = if f.(attrib).(f_encrypt) =? 0 then 0 else f.(attrib).(f_icv_len)
}.
Lemma amsdu_body_contents f hdr iv payload icv : mpdu f hdr iv payload icv →
  frame_ok (amsdu_body f) ∧ contents (amsdu_body f) = payload.
Proof.
  intros [Hf Hc Hh Hv Hi]. unfold amsdu_body. cbv zeta. rewrite Hh, Hv.
  destruct (contents_drop f hdr _ Hf Hc) as [H1 E1]. cbv zeta in *. set (f1 := (recvframe_pull f _).2) in *.
  set (f2 := if 0 <? _ then _ else f1). assert (frame_ok f2 ∧ contents f2 = payload ++ icv) as [H2 E2].
  { unfold f2. destruct (Z.ltb_spec 0 (Z.of_nat (length iv))); [by apply contents_drop|].
    destruct iv; [done|cbn in *; lia]. }
  destruct (f_encrypt (attrib f) =? 0).
  - destruct icv; [|cbn in Hi; lia]. by rewrite app_nil_r in E2.
  - rewrite <- Hi. by apply contents_take.
Qed.
Lemma length_encode c a xs : Forall (sub_ok c a) xs → (length xs ≤ length (amsdu_encode xs))%nat.
Proof.
  induction 1 as [|x xs Hx Hxs IH]; [cbn; lia|]. pose proof (length_enc c a x Hx).
  destruct xs as [|y ys]; [cbn; lia|].
  change (amsdu_encode (x :: y :: ys)) with (enc_subframe x ++ pad_bytes x ++ amsdu_encode (y :: ys)).
  rewrite !length_app. cbn [length] in *. lia.
Qed.

(** C31: an A-MSDU built as the standard says, of at most 64 subframes that pass
    the checks and are not empty, is taken apart exactly, when the packets can be
    allocated: a station hands up one packet per subframe,
    in order, each with the Ethernet header its LLC header asks for. *)
Theorem amsdu_roundtrip c f hdr iv xs icv :
  c.(role) ≠ MLME_AP → (∀ n, c.(pkt_avail) n = true) →
  Forall (sub_ok c f.(attrib)) xs → (length xs ≤ MAX_SUBFRAME_COUNT)%nat →
  mpdu f hdr iv (amsdu_encode xs) icv →
  amsdu_to_msdu c f = Ret {| indicated := map eth_packet xs; forwarded := [] |}.
Proof.
  intros Hr Ha Hx Hl Hf. destruct (amsdu_body_contents _ _ _ _ _ Hf) as [Hok Hc].
  unfold amsdu_to_msdu. fold (amsdu_body f). pose proof (length_contents _ Hok) as El. rewrite Hc in El.
  rewrite (decode_loop c (attrib f) _ Hr Ha xs); [done|done| |done| |cbn; lia].
  - rewrite <- Hc. by apply at_ptr_contents.
  - pose proof (length_encode _ _ _ Hx). lia.
Qed.

(** ** A single MSDU gets the same packet *)
Lemma at_ptr_write (pre old new post : list Z) p : length new = length old → p = Z.of_nat (length pre) →
  ptr_write (pre ++ old ++ post) p new = Ret (pre ++ new ++ post).
Proof.
  intros Hl ->. unfold ptr_write. rewrite (proj2 (Z.ltb_ge _ _)), Nat2Z.id by lia. by apply buf_write_mid.
Qed.
Lemma contents_mid f pre l post : f.(mem) = pre ++ l ++ post → f.(rx_data) = Z.of_nat (length pre) →
  f.(len) = Z.of_nat (length l) → contents f = l.
Proof.
  intros Hm Hd Hl. unfold contents, slice. rewrite Hm, Hd, Hl, !Nat2Z.id, drop_app_length, take_app_length. done.
Qed.
(** A list cut at a place before its end. *)
Lemma cut_back (l : list Z) n : (n ≤ length l)%nat → ∃ a b, l = a ++ b ∧ length b = n.
Proof.
  intros H. exists (take (length l - n) l), (drop (length l - n) l). rewrite take_drop, length_drop. split; [done|lia].
Qed.
Lemma cut_front (l : list Z) n : (n ≤ length l)%nat → ∃ a b, l = a ++ b ∧ length a = n.
Proof. intros H. exists (take n l), (drop n l). rewrite take_drop, length_take. split; [done|lia]. Qed.

(** The window after the pull, with the header rewritten. *)
Lemma rewritten f1 n (A O N R : list Z) pre post :
  frame_ok f1 → contents f1 = A ++ O ++ R → n = Z.of_nat (length A) → length N = length O →
  mem f1 = pre ++ (A ++ O ++ R) ++ post → rx_data f1 = Z.of_nat (length pre) →
  let f2 := set_mem ((pre ++ A) ++ N ++ (R ++ post)) (set_win (rx_data f1 + n) (rx_tail f1) (len f1 - n) f1) in
  frame_ok f2 ∧ contents f2 = N ++ R.
Proof.
  intros Hok Hc -> Hl Hmem Hdat. cbv zeta. pose proof (length_contents _ Hok) as El. rewrite Hc, !length_app in El.
  destruct Hok. split.
  - constructor; cbn; unfold rx_end in *; cbn; rewrite Hmem in *; rewrite !length_app in *; lia.
  - apply (contents_mid _ (pre ++ A) _ post); cbn; [by rewrite <- !app_assoc|rewrite length_app; lia|rewrite length_app; lia].
Qed.

Section Single.
Context (f : recv_frame_hdr) (hdr iv msdu icv : list Z) (Hf : mpdu f hdr iv msdu icv).
Context (Hd : length f.(attrib).(f_dst) = 6%nat) (Hs : length f.(attrib).(f_src) = 6%nat).
Context (Hh : (14 ≤ length hdr + length iv)%nat) (Hm : Z.of_nat (length msdu) < 65536).

Lemma stripped_tail : let f1 := if f.(attrib).(f_encrypt) =? 0 then f else (recvframe_pull_tail f f.(attrib).(f_icv_len)).2 in
  frame_ok f1 ∧ contents f1 = (hdr ++ iv) ++ msdu ∧ attrib f1 = attrib f.
Proof using All.
  destruct Hf as [Hok Hc _ _ Hi]. cbv zeta. destruct (f_encrypt (attrib f) =? 0).
  - destruct icv; [|cbn in Hi; lia]. rewrite app_nil_r in Hc. by rewrite <- app_assoc.
  - rewrite <- Hi. rewrite <- app_assoc. destruct (contents_take f (hdr ++ iv ++ msdu) icv) as [H1 H2];
      [done|by rewrite Hc, <- !app_assoc|]. split_and!; [done|done|]. unfold recvframe_pull_tail. by case_match.
Qed.
Let f1 := if f.(attrib).(f_encrypt) =? 0 then f else (recvframe_pull_tail f f.(attrib).(f_icv_len)).2.
Lemma stripped_mem : frame_ok f1 ∧ Z.of_nat (length hdr + length iv + length msdu) = len f1 ∧
  contents f1 = (hdr ++ iv) ++ msdu ∧
  ∃ pre post, mem f1 = pre ++ ((hdr ++ iv) ++ msdu) ++ post ∧ rx_data f1 = Z.of_nat (length pre).
Proof using All.
  destruct stripped_tail as (Hok & Hc & _). fold f1 in Hok, Hc. pose proof (length_contents _ Hok) as El.
  destruct (at_ptr_contents _ Hok) as (pre & post & Hmem & Hdat). rewrite Hc in *. rewrite !length_app in El. eauto 10.
Qed.
Lemma ethhdr_remove : llc_removed (llc_of msdu) = true →
  ∃ f', wlanhdr_to_ethhdr f (llc_of msdu) = Ret (true, f') ∧ frame_ok f' ∧
    contents f' = f.(attrib).(f_dst) ++ f.(attrib).(f_src) ++ drop SNAP_SIZE msdu.
Proof using All.
  intros Er. destruct stripped_mem as (Hok & El & Hc & pre & post & Hmem & Hdat). destruct Hf as [_ _ Eh Ev _].
  unfold wlanhdr_to_ethhdr. cbv zeta. fold f1. rewrite Er, Eh, Ev. unfold ETH_HLEN, SNAP_SIZE.
  pose proof (llc_removed_long _ Er). destruct (cut_back (hdr ++ iv) 6) as (A & o1 & EH & L1); [rewrite length_app; lia|].
  destruct (cut_front msdu 6) as (o2 & R & EM & L2); [lia|].
  assert (length (hdr ++ iv) = (length A + 6)%nat) as EA by (rewrite EH, length_app; lia). rewrite length_app in EA.
  rewrite pull_some by (done || lia).
  replace (Z.of_nat (length hdr) + Z.of_nat (length iv) + Z.of_nat 6 - 14 + 2) with (Z.of_nat (length A)) by lia.
  cbn [mem set_win rx_data]. rewrite EM in Hmem, Hc. rewrite EH in Hmem, Hc. rewrite Hmem, EM.
  replace (pre ++ ((A ++ o1) ++ o2 ++ R) ++ post) with ((pre ++ A) ++ o1 ++ (o2 ++ R ++ post)) by (by rewrite <- !app_assoc).
  rewrite at_ptr_write by (rewrite ?length_app; lia). cbn [cbind].
  rewrite (app_assoc (pre ++ A)), at_ptr_write by (rewrite ?length_app; lia). cbn [cbind].
  eexists. split; [done|]. rewrite (drop_app_length' o2 R 6) by done.
  destruct (rewritten f1 (Z.of_nat (length A)) A (o1 ++ o2) (f_dst (attrib f) ++ f_src (attrib f)) R pre post) as [P1 P2];
    [done|by rewrite Hc, <- !app_assoc|done|rewrite !length_app; lia|by rewrite Hmem, <- !app_assoc|done|].
  cbv zeta in P1, P2. rewrite <- !app_assoc in *. done.
Qed.
Lemma ethhdr_keep : llc_removed (llc_of msdu) = false →
  ∃ f', wlanhdr_to_ethhdr f (llc_of msdu) = Ret (true, f') ∧ frame_ok f' ∧
    contents f' = f.(attrib).(f_dst) ++ f.(attrib).(f_src) ++ be_bytes 2 (u16 (Z.of_nat (length msdu))) ++ msdu.
Proof using All.
  intros Er. destruct stripped_mem as (Hok & El & Hc & pre & post & Hmem & Hdat). destruct Hf as [_ _ Eh Ev _].
  unfold wlanhdr_to_ethhdr. cbv zeta. fold f1. rewrite Er, Eh, Ev. unfold ETH_HLEN.
  destruct (cut_back (hdr ++ iv) 14) as (A & o & EH & L); [rewrite length_app; lia|].
  destruct (cut_front o 6) as (o1 & o' & -> & L1); [lia|]. rewrite length_app in L.
  destruct (cut_front o' 6) as (o2 & o3 & -> & L2); [lia|]. rewrite length_app in L.
  assert (length (hdr ++ iv) = (length A + 14)%nat) as EA by (rewrite EH, !length_app; lia). rewrite length_app in EA.
  rewrite pull_some by (done || lia).
  replace (Z.of_nat (length hdr) + Z.of_nat (length iv) + 0 - 14 + 0) with (Z.of_nat (length A)) by lia.
  replace (len f1 - (Z.of_nat (length hdr) + Z.of_nat (length iv) + 0)) with (Z.of_nat (length msdu)) by lia.
  cbn [mem set_win rx_data]. rewrite EH in Hmem, Hc. rewrite Hmem.
  set (L16 := be_bytes 2 _). assert (length L16 = 2%nat) as LL by apply length_be_bytes.
  replace (pre ++ ((A ++ o1 ++ o2 ++ o3) ++ msdu) ++ post) with ((pre ++ A) ++ o1 ++ o2 ++ o3 ++ msdu ++ post) by (by rewrite <- !app_assoc).
  rewrite at_ptr_write by (rewrite ?length_app; lia). cbn [cbind].
  rewrite (app_assoc (pre ++ A)), at_ptr_write by (rewrite ?length_app; lia). cbn [cbind].
  rewrite (app_assoc ((pre ++ A) ++ _)), at_ptr_write by (rewrite ?length_app; lia). cbn [cbind].
  eexists. split; [done|].
  destruct (rewritten f1 (Z.of_nat (length A)) A (o1 ++ o2 ++ o3) (f_dst (attrib f) ++ f_src (attrib f) ++ L16) msdu pre post) as [P1 P2];
    [done|by rewrite Hc, <- !app_assoc|done|rewrite !length_app; lia|by rewrite Hmem, <- !app_assoc|done|].
  cbv zeta in P1, P2. rewrite <- !app_assoc in *. done.
Qed.
Lemma ethhdr_ok : ∃ f', wlanhdr_to_ethhdr f (llc_of msdu) = Ret (true, f') ∧ frame_ok f' ∧
  contents f' = to_eth f.(attrib).(f_dst) f.(attrib).(f_src) msdu.
Proof using All.
  unfold to_eth. destruct (llc_removed _) eqn:Er; [by apply ethhdr_remove|by apply ethhdr_keep].
Qed.
End Single.

(** A frame that carries one MSDU becomes the packet a subframe with the same
    addresses and the same MSDU becomes: the header rewritten in place over the
    end of the 802.11 header gives destination, source and, unless the LLC header
    is removed, the length.  It is forwarded and handed up exactly as the role's
    policy says for its addresses. *)
Theorem single_msdu_packet run c f hdr iv msdu icv :
  mpdu f hdr iv msdu icv → length f.(attrib).(f_dst) = 6%nat → length f.(attrib).(f_src) = 6%nat →
  (14 ≤ length hdr + length iv)%nat → Z.of_nat (length msdu) < 65536 →
  let act := rx_msdu_act c f.(attrib).(f_dst) f.(attrib).(f_src) in
  let pkt := to_eth f.(attrib).(f_dst) f.(attrib).(f_src) msdu in
  recv_process_single run c f = Ret {|
    forwarded := if act .& RTW_RX_MSDU_ACT_FORWARD =? 0 then [] else [pkt];
    indicated := if (act .& RTW_RX_MSDU_ACT_INDICATE =? 0) || negb run then [] else [pkt] |}.
Proof.
  intros Hf Hd Hs Hh Hm. cbv zeta. destruct (ethhdr_ok f hdr iv msdu icv Hf Hd Hs Hh Hm) as (f' & E & Hok & Hc).
  destruct Hf as [Hfo Hfc Eh Ev Ei]. unfold recv_process_single. cbv zeta.
  fold (rx_msdu_act c (f_dst (attrib f)) (f_src (attrib f))).
  pose proof (length_contents _ Hfo) as El. rewrite Hfc, !length_app in El.
  pose proof (at_ptr_contents _ Hfo) as Hat. rewrite Hfc in Hat.
  apply at_ptr_app in Hat as [_ Hat]. apply at_ptr_app in Hat as [_ Hat]. apply at_ptr_app in Hat as [Hat _].
  rewrite Eh, Ev, <- Ei. replace (len f - _ - _ - _) with (Z.of_nat (length msdu)) by lia.
  rewrite u16_id by (unfold uint; lia). rewrite (llc_parse_at _ _ _ Hat). cbn [cbind].
  destruct (Z.eqb_spec (rx_msdu_act c (f_dst (attrib f)) (f_src (attrib f))) 0) as [->|]; [done|].
  rewrite E. cbn [cbind negb]. rewrite (at_ptr_read_z _ _ _ _ (at_ptr_contents _ Hok)) by (by rewrite length_contents).
  cbn [cbind]. by rewrite Hc.
Qed.

(** ** Concrete frames *)
Definition demo_msdu : list Z := rtw_rfc1042_header ++ [0x08; 0x00; 1; 2; 3; 4; 5].
Definition demo_ra : list Z := [2; 0; 0; 0; 0; 1].
Definition demo_ta : list Z := [2; 0; 0; 0; 0; 9].
Definition demo_subs : list subframe :=
  [ {| s_da := demo_ra; s_sa := demo_ta; s_msdu := demo_msdu |};
    {| s_da := demo_ra; s_sa := demo_ta; s_msdu := [0x42; 0x42; 0x03; 7] |} ].
Definition demo_mpdu (payload : list Z) : recv_frame_hdr := {|
  attrib := Build_rx_pkt_attrib 26 8 8 4 0 0 true true 0 0 2 demo_ra demo_ta demo_ta demo_ra;
  keytrack := 0; len := 42 + Z.of_nat (length payload); rx_data := 16; rx_tail := 58 + Z.of_nat (length payload);
  mem := replicate 16 0 ++ replicate 26 0x88 ++ replicate 8 1 ++ payload ++ replicate 8 0xcc ++ replicate 20 0 |}.
Definition demo_msdu_ctx (r : mlme_role) : msdu_ctx := {|
  role := r; amsdu_mode := RTW_AMSDU_MODE_NON_SPP; dot11PrivacyAlgrthm := 4;
  own_mac := demo_ra; ap_isolate := true; asoc_list_cnt := 2; m_stapriv := rtw_init_sta_priv 16;
  fwd_res := λ _, true; pkt_avail := λ _, true |}.
Lemma demo_mpdu_ok payload : Z.of_nat (length payload) < 60000 →
  mpdu (demo_mpdu payload) (replicate 26 0x88) (replicate 8 1) payload (replicate 8 0xcc).
Proof.
  intros Hp. assert (length (mem (demo_mpdu payload)) = (78 + length payload)%nat) as El.
  { unfold demo_mpdu. cbn [mem]. rewrite !length_app, !length_replicate. lia. }
  split; [|..|done|done|done].
  - constructor; unfold rx_end; rewrite ?El; cbn [rx_data rx_tail len demo_mpdu]; lia.
  - apply (contents_mid _ (replicate 16 0) _ (replicate 20 0)); [by cbn [mem demo_mpdu]; rewrite <- !app_assoc|done|].
    cbn [len demo_mpdu]. rewrite !length_app, !length_replicate. lia.
Qed.

Lemma amsdu_deaggregation_safe_witness :
  ∃ out, amsdu_to_msdu (demo_msdu_ctx MLME_STA) (demo_mpdu (replicate 40 0xff)) = Ret out ∧
    (length out.(indicated) ≤ MAX_SUBFRAME_COUNT)%nat.
Proof.
  destruct (amsdu_deaggregation_safe (demo_msdu_ctx MLME_STA) (demo_mpdu (replicate 40 0xff))) as (out & E & Hl & _).
  - refine (mp_ok _ _ _ _ _ (demo_mpdu_ok _ _)). cbn. lia.
  - cbn. lia.
  - cbn. lia.
  - exists out. split; [exact E|exact Hl].
Defined.
Lemma amsdu_isolation_witness :
  ∃ out, amsdu_to_msdu (demo_msdu_ctx MLME_AP) (demo_mpdu (amsdu_encode demo_subs)) = Ret out ∧ out.(forwarded) = [].
Proof.
  eexists. split; [vm_compute; reflexivity|].
  refine (proj1 (amsdu_isolation (demo_msdu_ctx MLME_AP) (demo_mpdu (amsdu_encode demo_subs)) _ [] _ _ _ eq_refl eq_refl _)).
  - refine (mp_ok _ _ _ _ _ (demo_mpdu_ok _ _)). vm_compute. reflexivity.
  - cbn. lia.
  - cbn. lia.
  - vm_compute. reflexivity.
Defined.
Lemma amsdu_roundtrip_witness :
  amsdu_to_msdu (demo_msdu_ctx MLME_STA) (demo_mpdu (amsdu_encode demo_subs)) =
  Ret {| indicated := [ demo_ra ++ demo_ta ++ [0x08; 0x00; 1; 2; 3; 4; 5];
                        demo_ra ++ demo_ta ++ [0; 4; 0x42; 0x42; 0x03; 7] ]; forwarded := [] |}.
Proof.
  refine (amsdu_roundtrip (demo_msdu_ctx MLME_STA) (demo_mpdu (amsdu_encode demo_subs)) _ _ demo_subs _ _ _ _ _ (demo_mpdu_ok _ _)).
  - done.
  - done.
  - repeat constructor; cbn; lia.
  - cbn. unfold MAX_SUBFRAME_COUNT. lia.
  - vm_compute. reflexivity.
Defined.
Lemma single_msdu_packet_witness :
  recv_process_single true (demo_msdu_ctx MLME_STA) (demo_mpdu demo_msdu) =
  Ret {| indicated := [demo_ra ++ demo_ta ++ [0x08; 0x00; 1; 2; 3; 4; 5]]; forwarded := [] |}.
Proof.
  refine (single_msdu_packet true (demo_msdu_ctx MLME_STA) (demo_mpdu demo_msdu) _ _ demo_msdu _ (demo_mpdu_ok _ _) _ _ _ _);
    cbn; lia.
Defined.
(** An A-MSDU whose first subframe starts with an LLC header, as when the A-MSDU
    bit of a frame was flipped on the way, is dropped as a whole. *)
Example flipped_amsdu_dropped :
  amsdu_to_msdu (demo_msdu_ctx MLME_STA) (demo_mpdu (demo_msdu ++ replicate 40 0)) = Ret {| indicated := []; forwarded := [] |}.
Proof. vm_compute. reflexivity. Qed.
