(* ===== verification/Efuse.v ===== *)
(** * The efuse: [hal/halmac/halmac_88xx/halmac_efuse_88xx.c]

    The efuse is a one-time programmable memory of [efuse_size] bytes that keeps a
    logical map of [eeprom_size] bytes as a log: blocks of up to four words, each
    with a header of one byte (blocks 0 to 15) or two, appended one after the
    other; a later block overrides an earlier one, and 0xff ends the log.  The
    last [prtct_efuse_size] bytes are not part of the log.

    The functions run in a monad of the adapter's state with early return of a
    status.  The register handshake that reads or burns one byte is an interface;
    so is the switch of the efuse bank.  The chip is the 8822B, for which
    [super_usb_chk_88xx] always answers no. *)
From S2P Require Import Prelude.
From stdpp Require Import list.
From S2P Require Import CryptoWrap Blocks Mem.
Local Open Scope Z_scope.

(** ** Data *)
Inductive halmac_ret_status :=
  | HALMAC_RET_EFUSE_SIZE_INCORRECT | HALMAC_RET_MALLOC_FAIL | HALMAC_RET_EFUSE_R_FAIL | HALMAC_RET_EFUSE_W_FAIL
  | HALMAC_RET_BUSY_STATE | HALMAC_RET_ERROR_STATE | HALMAC_RET_EEPROM_PARSING_FAIL
  | HALMAC_RET_EFUSE_NOT_ENOUGH | HALMAC_RET_ADR_NOT_ALIGN | HALMAC_RET_SWITCH_EFUSE_BANK_FAIL.
Inductive halmac_cmd_construct_state := HALMAC_CMD_CNSTR_IDLE | HALMAC_CMD_CNSTR_BUSY | HALMAC_CMD_CNSTR_H2C_SENT | HALMAC_CMD_CNSTR_CNSTR | HALMAC_CMD_CNSTR_BUF_CLR.
#[global] Instance ret_status_eq : EqDecision halmac_ret_status.
Proof. solve_decision. Defined.
#[global] Instance cnstr_state_eq : EqDecision halmac_cmd_construct_state.
Proof. solve_decision. Defined.

(** The configuration: [hw_cfg_info], and whether an allocation of a size succeeds. *)
Record hw_cfg_info := { efuse_size : Z; eeprom_size : Z; prtct_efuse_size : Z; malloc_ok : Z → bool }.

(** One byte of the hardware: [REG_EFUSE_CTRL] and the 2.5 V supply.  [None] of a
    write is success; the bank switch tells whether it succeeded. *)
Class EfuseHw (H : Type) := {
  ef_read : H → Z → option Z;
  ef_write : H → Z → Z → option halmac_ret_status * H;
  ef_bank : H → bool * H
}.

Record adapter (H : Type) := {
  hw : H;
  efuse_map : list Z; efuse_map_valid : bool;
  efuse_end : Z;
  efuse_auto_check_en : bool;
  cmd_cnstr_state : halmac_cmd_construct_state;
  proc_sending : bool                          (* proc_status == HALMAC_CMD_PROCESS_SENDING *)
}.
Arguments hw {_} _.
Arguments efuse_map {_} _.
Arguments efuse_map_valid {_} _.
Arguments efuse_end {_} _.
Arguments efuse_auto_check_en {_} _.
Arguments cmd_cnstr_state {_} _.
Arguments proc_sending {_} _.
Arguments Build_adapter {_} _ _ _ _ _ _ _.

(** ** The monad *)
Inductive res (A : Type) := Ok (a : A) | Fail (e : halmac_ret_status).
Arguments Ok {_} _.
Arguments Fail {_} _.
Definition M (H A : Type) : Type := adapter H → cres (res A * adapter H).
Definition mret {H A} (a : A) : M H A := λ s, Ret (Ok a, s).
Definition mfail {H A} (e : halmac_ret_status) : M H A := λ s, Ret (Fail e, s).
Definition mbind {H A B} (m : M H A) (k : A → M H B) : M H B := λ s,
  let* (r, s) := m s in match r with Ok a => k a s | Fail e => Ret (Fail e, s) end.
Definition mget {H} : M H (adapter H) := λ s, Ret (Ok s, s).
Definition mset {H} (f : adapter H → adapter H) : M H unit := λ s, Ret (Ok tt, f s).
Definition mlift {H A} (c : cres (res A)) : M H A := λ s, let* r := c in Ret (r, s).
Declare Scope efuse_scope.
Delimit Scope efuse_scope with E.
Notation "x ← m ; k" := (mbind m (λ x, k)) (at level 20, m at level 100, k at level 200, right associativity) : efuse_scope.
Notation "m ;; k" := (mbind m (λ _, k)) (at level 100, k at level 200, right associativity) : efuse_scope.
Local Open Scope efuse_scope.

Definition set_hw {H} (h : H) (s : adapter H) := Build_adapter h s.(efuse_map) s.(efuse_map_valid) s.(efuse_end) s.(efuse_auto_check_en) s.(cmd_cnstr_state) s.(proc_sending).
Definition set_map {H} m v (s : adapter H) := Build_adapter s.(hw) m v s.(efuse_end) s.(efuse_auto_check_en) s.(cmd_cnstr_state) s.(proc_sending).
Definition set_end {H} e (s : adapter H) := Build_adapter s.(hw) s.(efuse_map) s.(efuse_map_valid) e s.(efuse_auto_check_en) s.(cmd_cnstr_state) s.(proc_sending).
Definition set_cnstr {H} c (s : adapter H) := Build_adapter s.(hw) s.(efuse_map) s.(efuse_map_valid) s.(efuse_end) s.(efuse_auto_check_en) c s.(proc_sending).

(** ** The parser *)
Definition efuse_avail (c : hw_cfg_info) : Z := u32 (c.(efuse_size) - c.(prtct_efuse_size)).

(** The header at [efuse_idx]: nothing at the end of the log, otherwise the block,
    the word enable bits and the index behind the header; and the index reached. *)
Definition parse_header (phy_map : list Z) (efuse_idx : Z) : cres (option (Z * Z) * Z) :=
  let* hdr := mem_byte phy_map efuse_idx in
  if hdr .& 0x1f =? 0x0f then
    let efuse_idx := efuse_idx + 1 in
    let* hdr2 := mem_byte phy_map efuse_idx in
    if hdr2 =? 0xff then Ret (None, efuse_idx)
    else
      let blk_idx := ((hdr2 .& 0xF0) >> 1) .| ((hdr >> 5) .& 0x07) in
      Ret (Some (blk_idx, hdr2 .& 0x0F), efuse_idx + 1)
  else if hdr =? 0xff then Ret (None, efuse_idx)
  else Ret (Some ((hdr .& 0xF0) >> 4, hdr .& 0x0F), efuse_idx + 1).

(** A write to the logical map. *)
Definition log_write (log_map : list Z) (i v : Z) : cres (list Z) :=
  if (0 <=? i) && (i <? Z.of_nat (length log_map)) then Ret (<[Z.to_nat i := v]> log_map) else Oob.

(** The [for] loop over the words of a block, from word [i] on: the map and the
    index behind, or a parsing failure.  The value stored comes from [src]: the
    byte of the efuse, or 0 in [eeprom_mask_parser_88xx]. *)
Fixpoint parse_words (n : nat) (c : hw_cfg_info) (src : list Z → Z → cres Z) (phy_map : list Z) (blk_idx word_en i : Z)
    (efuse_idx : Z) (log_map : list Z) : cres (res (list Z * Z)) :=
  match n with
  | O => Ret (Ok (log_map, efuse_idx))
  | S n =>
      if (Z.lnot (word_en >> i)) .& 1 =? 1 then
        let eeprom_idx := (blk_idx << 3) + (i << 1) in
        if c.(eeprom_size) <? eeprom_idx + 1 then Ret (Fail HALMAC_RET_EEPROM_PARSING_FAIL)
        else
          let* v := src phy_map efuse_idx in
          let* log_map := log_write log_map eeprom_idx v in
          let eeprom_idx := eeprom_idx + 1 in
          let efuse_idx := efuse_idx + 1 in
          if u32 (efuse_avail c - 1) <? efuse_idx then Ret (Fail HALMAC_RET_EEPROM_PARSING_FAIL)
          else
            let* v := src phy_map efuse_idx in
            let* log_map := log_write log_map eeprom_idx v in
            let efuse_idx := efuse_idx + 1 in
            if efuse_avail c <? efuse_idx then Ret (Fail HALMAC_RET_EEPROM_PARSING_FAIL)
            else parse_words n c src phy_map blk_idx word_en (i + 1) efuse_idx log_map
      else parse_words n c src phy_map blk_idx word_en (i + 1) efuse_idx log_map
  end.
Definition E_FUEL : Z := -1.
(** The [do] loop; every turn moves [efuse_idx], which is bounded by the size. *)
Fixpoint parser_loop (fuel : nat) (c : hw_cfg_info) (src : list Z → Z → cres Z) (phy_map : list Z) (efuse_idx : Z)
    (log_map : list Z) : cres (res (list Z * Z)) :=
  match fuel with
  | O => Err E_FUEL
  | S fuel =>
      let* (h, efuse_idx) := parse_header phy_map efuse_idx in
      match h with
      | None => Ret (Ok (log_map, efuse_idx))
      | Some (blk_idx, word_en) =>
          if u32 (efuse_avail c - 1) <=? efuse_idx then Ret (Fail HALMAC_RET_EEPROM_PARSING_FAIL)
          else
            let* r := parse_words 4 c src phy_map blk_idx word_en 0 efuse_idx log_map in
            match r with
            | Fail e => Ret (Fail e)
            | Ok (log_map, efuse_idx) => parser_loop fuel c src phy_map efuse_idx log_map
            end
      end
  end.
Definition blank_map (c : hw_cfg_info) : list Z := replicate (Z.to_nat c.(eeprom_size)) 0xFF.
Definition eeprom_parser_88xx (c : hw_cfg_info) (phy_map : list Z) : cres (res (list Z * Z)) :=
  parser_loop (S (length phy_map)) c mem_byte phy_map 0 (blank_map c).
Definition eeprom_mask_parser_88xx (c : hw_cfg_info) (phy_map : list Z) : cres (res (list Z * Z)) :=
  parser_loop (S (length phy_map)) c (λ _ _, Ret 0) phy_map 0 (blank_map c).

(** ** Reading and burning bytes *)
Section Code.
Context {H : Type} `{!EfuseHw H} (c : hw_cfg_info).

Fixpoint read_hw_loop (n : nat) (h : H) (addr : Z) : option (list Z) :=
  match n with
  | O => Some []
  | S n => match ef_read h addr, read_hw_loop n h (addr + 1) with Some v, Some l => Some (v :: l) | _, _ => None end
  end.
Definition read_hw_efuse_88xx (offset size : Z) : M H (list Z) :=
  s ← mget;
  match read_hw_loop (Z.to_nat size) s.(hw) offset with Some l => mret l | None => mfail HALMAC_RET_EFUSE_R_FAIL end.
Definition write_hw_efuse_88xx (offset value : Z) : M H unit :=
  mset (λ s, set_map s.(efuse_map) false s);;
  s ← mget;
  let '(r, h) := ef_write s.(hw) offset value in
  mset (set_hw h);;
  match r with
  | Some e => mfail e
  | None =>
      if s.(efuse_auto_check_en) then
        match ef_read h offset with
        | None => mfail HALMAC_RET_EFUSE_R_FAIL
        | Some v => if v =? value then mret tt else mfail HALMAC_RET_EFUSE_W_FAIL
        end
      else mret tt
  end.
Definition read_efuse_88xx (offset size : Z) : M H (list Z) :=
  s ← mget;
  if s.(efuse_map_valid) then
    mlift (let* l := mem_read s.(efuse_map) (Z.to_nat offset) (Z.to_nat size) in Ret (Ok l))
  else read_hw_efuse_88xx offset size.

(** The logical map, read through the cache. *)
Definition read_log_efuse_map_88xx : M H (list Z) :=
  s ← mget;
  (if s.(efuse_map_valid) then mret tt
   else if negb (c.(malloc_ok) c.(efuse_size)) then mfail HALMAC_RET_MALLOC_FAIL
   else
     local_map ← read_efuse_88xx 0 c.(efuse_size);
     mset (set_map local_map true));;
  s ← mget;
  r ← mlift (let* r := eeprom_parser_88xx c s.(efuse_map) in Ret (Ok r));
  match r with
  | Fail _ => mfail HALMAC_RET_EEPROM_PARSING_FAIL
  | Ok (map, e) => mset (set_end e);; mret map
  end.

(** ** Appending to the log *)
Definition ext_hdr (blk : Z) : Z := u8 ((((blk .& 0x07) << 5) .& 0xE0) .| 0x0F).
Definition ext_hdr2 (blk word_en : Z) : Z := u8 (((blk .& 0x78) << 1) + word_en).
Definition short_hdr (blk word_en : Z) : Z := u8 ((blk << 4) + word_en).

(** Consecutive bytes burnt from [addr] on. *)
Fixpoint write_seq (addr : Z) (l : list Z) : M H unit :=
  match l with
  | [] => mret tt
  | v :: l => write_hw_efuse_88xx addr v;; write_seq (addr + 1) l
  end.

(** The block with one word, checked against the room and burnt. *)
Definition write_word_block (offset byte1 byte2 : Z) : M H unit :=
  s ← mget;
  let e := s.(efuse_end) in
  let blk := u8 (offset >> 3) in
  let blk_idx := u8 ((offset .& (8 - 1)) >> 1) in
  let word_en := (1 << blk_idx) ⊕ 0x0F in
  if 0x7f <? offset then
    if c.(efuse_size) <=? u32 (4 + c.(prtct_efuse_size) + e) then mfail HALMAC_RET_EFUSE_NOT_ENOUGH
    else write_seq e [ext_hdr blk; ext_hdr2 blk word_en; byte1; byte2]
  else
    if c.(efuse_size) <=? u32 (3 + c.(prtct_efuse_size) + e) then mfail HALMAC_RET_EFUSE_NOT_ENOUGH
    else write_seq e [short_hdr blk word_en; byte1; byte2].
Definition proc_write_log_efuse_88xx (offset value : Z) : M H unit :=
  if negb (c.(malloc_ok) c.(eeprom_size)) then mfail HALMAC_RET_MALLOC_FAIL
  else
    map ← read_log_efuse_map_88xx;
    cur ← mlift (let* v := mem_byte map offset in Ret (Ok v));
    if cur =? value then mret tt
    else if offset .& 1 =? 0 then
      byte2 ← mlift (let* v := mem_byte map (offset + 1) in Ret (Ok v));
      write_word_block offset value byte2
    else
      byte1 ← mlift (let* v := mem_byte map (offset - 1) in Ret (Ok v));
      write_word_block offset byte1 value.
Definition proc_write_log_efuse_word_88xx (offset value : Z) : M H unit :=
  if negb (c.(malloc_ok) c.(eeprom_size)) then mfail HALMAC_RET_MALLOC_FAIL
  else
    map ← read_log_efuse_map_88xx;
    if offset .& 1 =? 0 then write_word_block offset (u8 (value .& 0xFF)) (u8 ((value >> 8) .& 0xFF))
    else mfail HALMAC_RET_ADR_NOT_ALIGN.

(** ** Programming a whole map *)

(** The bit of the mask byte that stands for the word at [j] of its 16 bytes. *)
Definition clr_bit (j : Z) : Z := if j <? 8 then BIT (4 + j / 2) else BIT (j / 2 - 4).
(** The mask without the words that are already as wanted: the two [for] loops. *)
Definition update_word (map_pg map : list Z) (i : Z) (mask : cres (list Z)) (j : Z) : cres (list Z) :=
  let* mask := mask in
  let* a := mem_read map_pg (Z.to_nat (i + j)) 2 in
  let* b := mem_read map (Z.to_nat (i + j)) 2 in
  if bool_decide (a = b) then
    let* m := mem_byte mask (i >> 4) in log_write mask (i >> 4) (u8 (Z.ldiff m (clr_bit j)))
  else Ret mask.
Definition steps (n : nat) (d : Z) : list Z := map (λ k, d * Z.of_nat k) (seq 0 n).
Definition update_eeprom_mask_88xx (map_pg efuse_mask : list Z) : M H (list Z) :=
  if negb (c.(malloc_ok) c.(eeprom_size)) then mfail HALMAC_RET_MALLOC_FAIL
  else
    map ← read_log_efuse_map_88xx;
    mlift (let* m := fold_left (λ mask i, fold_left (update_word map_pg map i) (steps 8 2) mask)
                       (steps (Z.to_nat (c.(eeprom_size) / 16)) 16) (Ret efuse_mask) in
           Ret (Ok m)).

(** [pre_word_en] as [program_efuse_88xx] and [mask_eeprom_88xx] take it, ... *)
Definition pre_word_en (mask : list Z) (i : Z) : cres Z :=
  let* m := mem_byte mask (i >> 4) in
  Ret (if 0 <? (i >> 3) .& 1 then m .& 0x0F else m >> 4).
(** ... and as [check_efuse_enough_88xx] does. *)
Definition check_word_en (mask : list Z) (i : Z) : cres Z :=
  let* m := mem_byte mask (i >> 4) in
  Ret (if 0 <? i .& 7 then m .& 0x0F else m >> 4).
Definition count_words (pre : Z) : Z :=
  fold_left (λ n j, if 0 <? (pre >> j) .& 1 then n + 2 else n) [0; 1; 2; 3] 0.
Definition check_efuse_enough_88xx (mask : list Z) : M H unit :=
  s ← mget;
  pg_num ← mlift (
    let* n := fold_left (λ acc i,
                let* pg_num := acc in
                let* pre := check_word_en mask i in
                Ret (if 0 <? pre then pg_num + (if 0x7f <? i then 2 else 1) + count_words pre else pg_num))
              (steps (Z.to_nat (c.(eeprom_size) / 8)) 8) (Ret 0) in
    Ret (Ok n));
  if c.(efuse_size) <=? u32 (pg_num + c.(prtct_efuse_size) + s.(efuse_end)) then mfail HALMAC_RET_EFUSE_NOT_ENOUGH
  else mret tt.
(** The words of a block that are programmed, as bytes. *)
Definition block_words (map_pg : list Z) (pre i : Z) : cres (list Z) :=
  fold_left (λ acc j,
    let* l := acc in
    if 0 <? (pre >> j) .& 1 then let* w := mem_read map_pg (Z.to_nat (i + (j << 1))) 2 in Ret (l ++ w) else Ret l)
    [0; 1; 2; 3] (Ret []).
(** [pg_extend_efuse_88xx] and [proc_pg_efuse_88xx]: the header and the words,
    and the end of the log moved behind them. *)
Definition pg_block (hdr : list Z) (map_pg : list Z) (pre i : Z) : M H unit :=
  s ← mget;
  words ← mlift (let* w := block_words map_pg pre i in Ret (Ok w));
  write_seq s.(efuse_end) (hdr ++ words);;
  mset (set_end (s.(efuse_end) + Z.of_nat (length (hdr ++ words)))).
Definition pg_extend_efuse_88xx (map_pg : list Z) (word_en pre i : Z) : M H unit :=
  let blk := u8 (i >> 3) in pg_block [ext_hdr blk; ext_hdr2 blk word_en] map_pg pre i.
Definition proc_pg_efuse_88xx (map_pg : list Z) (word_en pre i : Z) : M H unit :=
  let blk := u8 (i >> 3) in pg_block [short_hdr blk word_en] map_pg pre i.
Fixpoint program_loop (l : list Z) (map_pg mask : list Z) : M H unit :=
  match l with
  | [] => mret tt
  | i :: l =>
      pre ← mlift (let* p := pre_word_en mask i in Ret (Ok p));
      let word_en := pre ⊕ 0x0F in
      (if 0 <? pre then
         if 0x7f <? i then pg_extend_efuse_88xx map_pg word_en pre i else proc_pg_efuse_88xx map_pg word_en pre i
       else mret tt);;
      program_loop l map_pg mask
  end.
Definition program_efuse_88xx (map_pg mask : list Z) : M H unit :=
  program_loop (steps (Z.to_nat (c.(eeprom_size) / 8)) 8) map_pg mask.
Definition proc_pg_efuse_by_map_88xx (map_pg efuse_mask : list Z) : M H unit :=
  if negb (c.(malloc_ok) (c.(eeprom_size) >> 4)) then mfail HALMAC_RET_MALLOC_FAIL
  else
    mask ← update_eeprom_mask_88xx map_pg efuse_mask;
    check_efuse_enough_88xx mask;;
    program_efuse_88xx map_pg mask.

(** ** The interface functions *)
Definition cnv_efuse_state_88xx (dest : halmac_cmd_construct_state) : M H unit :=
  s ← mget;
  let st := s.(cmd_cnstr_state) in
  if negb (bool_decide (st = HALMAC_CMD_CNSTR_IDLE) || bool_decide (st = HALMAC_CMD_CNSTR_BUSY) || bool_decide (st = HALMAC_CMD_CNSTR_H2C_SENT))
  then mfail HALMAC_RET_ERROR_STATE
  else if bool_decide (st = dest) then mfail HALMAC_RET_ERROR_STATE
  else if bool_decide (dest = HALMAC_CMD_CNSTR_BUSY) && bool_decide (st = HALMAC_CMD_CNSTR_H2C_SENT) then mfail HALMAC_RET_ERROR_STATE
  else if bool_decide (dest = HALMAC_CMD_CNSTR_H2C_SENT) && bool_decide (st = HALMAC_CMD_CNSTR_IDLE) then mfail HALMAC_RET_ERROR_STATE
  else mset (set_cnstr dest).
(** With [bt_switch] clear. *)
Definition switch_efuse_bank_88xx : M H unit :=
  cnv_efuse_state_88xx HALMAC_CMD_CNSTR_BUSY;;
  s ← mget;
  let '(ok, h) := ef_bank s.(hw) in
  mset (set_hw h);;
  if (ok : bool) then mret tt else mfail HALMAC_RET_SWITCH_EFUSE_BANK_FAIL.
(** The guards the interface functions share, then the operation, then idle again. *)
Definition efuse_guarded {A} (offset_ok : bool) (op : M H A) : M H A :=
  if negb offset_ok then mfail HALMAC_RET_EFUSE_SIZE_INCORRECT
  else
    s ← mget;
    if s.(proc_sending) then mfail HALMAC_RET_BUSY_STATE
    else if negb (bool_decide (s.(cmd_cnstr_state) = HALMAC_CMD_CNSTR_IDLE)) then mfail HALMAC_RET_ERROR_STATE
    else
      switch_efuse_bank_88xx;;
      r ← op;
      cnv_efuse_state_88xx HALMAC_CMD_CNSTR_IDLE;;
      mret r.
Definition read_logical_efuse_88xx (offset : Z) : M H Z :=
  efuse_guarded (offset <? c.(eeprom_size)) (
    if negb (c.(malloc_ok) c.(eeprom_size)) then mfail HALMAC_RET_MALLOC_FAIL
    else map ← read_log_efuse_map_88xx; mlift (let* v := mem_byte map offset in Ret (Ok v))).
Definition write_log_efuse_88xx (offset value : Z) : M H unit :=
  efuse_guarded (offset <? c.(eeprom_size)) (proc_write_log_efuse_88xx offset value).
Definition write_log_efuse_word_88xx (offset value : Z) : M H unit :=
  efuse_guarded (offset <? c.(eeprom_size)) (proc_write_log_efuse_word_88xx offset value).
Definition pg_efuse_by_map_88xx (map_pg efuse_mask : list Z) : M H unit :=
  let map_size := Z.of_nat (length map_pg) in
  efuse_guarded ((map_size =? c.(eeprom_size)) && negb (0 <? map_size .& 0xF) && (Z.of_nat (length efuse_mask) =? map_size >> 4))
    (proc_pg_efuse_by_map_88xx map_pg efuse_mask).
End Code.

(** ** The log as a list of blocks *)

(** A word that is present has two bytes. *)
Record block := { b_blk : Z; b_words : list (option (Z * Z)) }.
Definition absent (w : option (Z * Z)) : bool := match w with Some _ => false | None => true end.
(** The enable bits: a bit is clear where the word is present. *)
Fixpoint word_en_of (i : Z) (ws : list (option (Z * Z))) : Z :=
  match ws with
  | [] => 0
  | w :: ws => (if absent w then 2 ^ i else 0) + word_en_of (i + 1) ws
  end.
Definition enc_word (w : option (Z * Z)) : list Z := match w with Some (x, y) => [x; y] | None => [] end.
Definition enc_words (ws : list (option (Z * Z))) : list Z := concat (map enc_word ws).
Definition enc_header (blk word_en : Z) : list Z :=
  if 0x0f <? blk then [ext_hdr blk; ext_hdr2 blk word_en] else [short_hdr blk word_en].
Definition enc_block (b : block) : list Z := enc_header b.(b_blk) (word_en_of 0 b.(b_words)) ++ enc_words b.(b_words).
Definition enc_log (bs : list block) : list Z := concat (map enc_block bs).

(** A block overrides the words it has. *)
Fixpoint put_words (at_ : nat) (ws : list (option (Z * Z))) (l : list Z) : list Z :=
  match ws with
  | [] => l
  | w :: ws => put_words (at_ + 2) ws (match w with Some (x, y) => <[S at_ := y]> (<[at_ := x]> l) | None => l end)
  end.
Definition put_block (l : list Z) (b : block) : list Z := put_words (8 * Z.to_nat b.(b_blk)) b.(b_words) l.
(** The logical map a log stands for. *)
Definition log_value (c : hw_cfg_info) (bs : list block) : list Z := fold_left put_block bs (blank_map c).

Record block_ok (c : hw_cfg_info) (b : block) : Prop := {
  bo_blk : 0 ≤ b.(b_blk) < 128;
  bo_fit : 8 * b.(b_blk) + 8 ≤ c.(eeprom_size);
  bo_four : length b.(b_words) = 4%nat;
  bo_some : ∃ w, Some w ∈ b.(b_words)
}.
(** The sizes of a chip: the log and the protected area fit, the map has whole blocks. *)
Record cfg_ok (c : hw_cfg_info) : Prop := {
  co_prtct : 2 ≤ c.(prtct_efuse_size);
  co_efuse : c.(prtct_efuse_size) + 2 ≤ c.(efuse_size) < 2 ^ 31;
  co_eeprom : 0 ≤ c.(eeprom_size) ≤ 1024;
  co_mult : c.(eeprom_size) mod 8 = 0
}.

(** *** Headers *)
Definition header_check (blk we : Z) : bool :=
  let h := short_hdr blk we in
  let e := ext_hdr blk in
  let e2 := ext_hdr2 blk we in
  implb ((blk <? 16) && (we <? 15))
    (negb (h .& 0x1f =? 0x0f) && negb (h =? 0xff) && ((h .& 0xF0) >> 4 =? blk) && (h .& 0x0F =? we)) &&
  implb (we <? 15)
    ((e .& 0x1f =? 0x0f) && negb (e2 =? 0xff) && (((e2 .& 0xF0) >> 1) .| ((e >> 5) .& 0x07) =? blk) && (e2 .& 0x0F =? we)).
Lemma header_checks blk we : 0 ≤ blk < 128 → 0 ≤ we < 15 → header_check blk we = true.
Proof.
  intros Hb Hw.
  assert (all_below 128 (λ b, all_below 15 (λ w, header_check b w)) = true) as H by (vm_compute; reflexivity).
  apply (all_below_spec 128 _ blk) in H; [|lia]. by apply (all_below_spec 15 _ we) in H; [|lia].
Qed.
Lemma mem_byte_mid (pre post : list Z) x p : p = Z.of_nat (length pre) → mem_byte (pre ++ x :: post) p = Ret x.
Proof. intros ->. apply mem_byte_at. rewrite lookup_app_r by lia. by rewrite Nat.sub_diag. Qed.
Lemma parse_header_block blk we pre post : 0 ≤ blk < 128 → 0 ≤ we < 15 →
  parse_header (pre ++ enc_header blk we ++ post) (Z.of_nat (length pre)) =
  Ret (Some (blk, we), Z.of_nat (length pre + length (enc_header blk we))).
Proof.
  intros Hb Hw. pose proof (header_checks blk we Hb Hw) as Hc. unfold header_check in Hc. cbv zeta in Hc.
  apply andb_true_iff in Hc as [Hs He]. unfold parse_header, enc_header.
  destruct (Z.ltb_spec 0x0f blk); cbn [app length].
  - rewrite (proj2 (Z.ltb_lt _ _)) in He by lia. cbn [implb] in He. rewrite !andb_true_iff in He.
    destruct He as [[[H1 H2] H3%Z.eqb_eq] H4%Z.eqb_eq].
    rewrite mem_byte_mid by done. cbn [cbind]. rewrite H1. 
    rewrite (cons_middle _ pre), app_assoc, mem_byte_mid by (rewrite length_app; cbn; lia). cbn [cbind].
    apply negb_true_iff in H2. rewrite H2, H3, H4. do 2 f_equal. lia.
  - rewrite (proj2 (Z.ltb_lt blk 16)), (proj2 (Z.ltb_lt we 15)) in Hs by lia. cbn [implb andb] in Hs. rewrite !andb_true_iff in Hs.
    destruct Hs as [[[H1%negb_true_iff H2%negb_true_iff] H3%Z.eqb_eq] H4%Z.eqb_eq].
    rewrite mem_byte_mid by done. cbn [cbind]. rewrite H1, H2, H3, H4. do 2 f_equal. lia.
Qed.

(** *** Words *)
Definition bits_ok (we i : Z) (ws : list (option (Z * Z))) : Prop :=
  ∀ k w, ws !! k = Some w → Z.testbit we (i + Z.of_nat k) = absent w.
Lemma valid_bit we i : 0 ≤ i → ((Z.lnot (we >> i)) .& 1 =? 1) = negb (Z.testbit we i).
Proof.
  intros Hi. change 1 with (2 ^ 0) at 1. assert (Z.lnot (we >> i) .& 2 ^ 0 = if Z.testbit we i then 0 else 1) as ->.
  { apply Z.bits_inj'. intros k Hk. rewrite Z.land_spec, Z.lnot_spec, Z.shiftr_spec, Z.pow2_bits_eqb by lia.
    destruct (Z.eqb_spec 0 k) as [<-|]; cbn [Z.add].
    - rewrite Z.add_0_l. by destruct (Z.testbit we i).
    - rewrite andb_false_r. destruct (Z.testbit we i); [by rewrite Z.bits_0|]. change 1 with (2 ^ 0).
      rewrite Z.pow2_bits_eqb by lia. symmetry. by apply Z.eqb_neq. }
  by destruct (Z.testbit we i).
Qed.
Lemma word_en_bits ws : length ws = 4%nat → bits_ok (word_en_of 0 ws) 0 ws.
Proof.
  intros Hl k w Hk. destruct ws as [|a [|b [|c' [|d [|]]]]]; try discriminate Hl.
  destruct k as [|[|[|[|k]]]]; try discriminate Hk; cbn in Hk; injection Hk as <-;
    destruct a, b, c', d; reflexivity.
Qed.
Lemma word_en_range ws : length ws = 4%nat → (∃ w, Some w ∈ ws) → 0 ≤ word_en_of 0 ws < 15.
Proof.
  intros Hl [w Hw]. destruct ws as [|a [|b [|c' [|d [|]]]]]; try discriminate Hl.
  destruct a, b, c', d; cbn; try lia. rewrite !elem_of_cons, elem_of_nil in Hw. naive_solver.
Qed.
Lemma length_enc_words ws : (∃ w, Some w ∈ ws) → (2 ≤ length (enc_words ws))%nat.
Proof.
  intros [[x y] Hw]. induction ws as [|v ws IH]; [by apply elem_of_nil in Hw|].
  unfold enc_words in *. cbn [map concat]. rewrite length_app. apply elem_of_cons in Hw as [<-|Hw]; [cbn; lia|].
  specialize (IH Hw). lia.
Qed.
Lemma log_write_ok l i v : 0 ≤ i < Z.of_nat (length l) → log_write l i v = Ret (<[Z.to_nat i := v]> l).
Proof. intros Hi. unfold log_write. by rewrite (proj2 (Z.leb_le _ _)), (proj2 (Z.ltb_lt _ _)) by lia. Qed.
Lemma length_put_words ws : ∀ at_ l, length (put_words at_ ws l) = length l.
Proof. induction ws as [|[[x y]|] ws IH]; intros at_ l; cbn; [done|..]; rewrite IH, ?length_insert; done. Qed.

Section Parse.
Context (c : hw_cfg_info) (Hc : cfg_ok c).

Lemma avail_eq : efuse_avail c = c.(efuse_size) - c.(prtct_efuse_size) ∧ u32 (efuse_avail c - 1) = efuse_avail c - 1.
Proof using Hc. destruct Hc. unfold efuse_avail. rewrite !u32_id; unfold uint; lia. Qed.

Lemma parse_words_spec ws : ∀ we i blk l pre post,
  0 ≤ i → i + Z.of_nat (length ws) ≤ 4 → bits_ok we i ws → 0 ≤ blk → 8 * blk + 8 ≤ c.(eeprom_size) →
  Z.of_nat (length l) = c.(eeprom_size) → Z.of_nat (length pre + length (enc_words ws)) ≤ efuse_avail c →
  parse_words (length ws) c mem_byte (pre ++ enc_words ws ++ post) blk we i (Z.of_nat (length pre)) l =
  Ret (Ok (put_words (8 * Z.to_nat blk + 2 * Z.to_nat i) ws l, Z.of_nat (length pre + length (enc_words ws)))).
Proof using Hc.
  destruct avail_eq as [_ Hav].
  induction ws as [|w ws IH]; intros we i blk l pre post Hi Hn Hb Hblk Hfit Hl Hlen; cbn [length parse_words].
  { unfold enc_words. cbn [map concat length put_words]. by rewrite Nat.add_0_r. }
  assert (bits_ok we (i + 1) ws) as Hb'.
  { intros k v Hk. specialize (Hb (S k) v Hk). rewrite <- Hb. f_equal. lia. }
  pose proof (Hb 0%nat w eq_refl) as H0. rewrite Z.add_0_r in H0. rewrite valid_bit, H0 by done. cbn [length] in Hn.
  unfold enc_words in *. cbn [map concat] in *. rewrite length_app in Hlen.
  destruct w as [[x y]|]; cbn [absent negb enc_word app length] in *.
  - rewrite !Z.shiftl_mul_pow2 by lia. change (2 ^ 3) with 8. change (2 ^ 1) with 2.
    rewrite (proj2 (Z.ltb_ge _ _)) by lia. rewrite mem_byte_mid by done. cbn [cbind].
    rewrite log_write_ok by lia. cbn [cbind]. rewrite (proj2 (Z.ltb_ge _ _)) by lia.
    rewrite (cons_middle _ pre), app_assoc, mem_byte_mid by (rewrite length_app; cbn; lia). cbn [cbind].
    rewrite log_write_ok by (rewrite length_insert; lia). cbn [cbind]. rewrite (proj2 (Z.ltb_ge _ _)) by lia.
    rewrite (cons_middle _ (pre ++ [x])), app_assoc.
    replace (Z.of_nat (length pre) + 1 + 1) with (Z.of_nat (length ((pre ++ [x]) ++ [y]))) by (rewrite !length_app; cbn; lia).
    rewrite IH; try done; try lia; [|rewrite !length_insert; lia|rewrite !length_app; cbn; lia].
    cbn [put_words]. do 3 f_equal; [f_equal; [|f_equal; [|f_equal]]; lia|rewrite !length_app; cbn; lia].
  - rewrite IH; try done; try lia. cbn [put_words]. do 3 f_equal. f_equal. lia.
Qed.

Lemma parser_block b fuel l pre post : block_ok c b → Z.of_nat (length l) = c.(eeprom_size) →
  Z.of_nat (length pre + length (enc_block b)) ≤ efuse_avail c →
  parser_loop (S fuel) c mem_byte (pre ++ enc_block b ++ post) (Z.of_nat (length pre)) l =
  parser_loop fuel c mem_byte (pre ++ enc_block b ++ post) (Z.of_nat (length pre + length (enc_block b))) (put_block l b).
Proof using Hc.
  intros [Hb Hf H4 Hs] Hl Hlen. destruct avail_eq as [_ Hav]. pose proof (length_enc_words _ Hs) as Hw.
  unfold enc_block in *. rewrite length_app in Hlen. cbn [parser_loop]. rewrite <- app_assoc.
  rewrite parse_header_block by (done || by apply word_en_range). cbn [cbind].
  rewrite Hav, (proj2 (Z.leb_gt _ _)) by lia.
  rewrite (app_assoc pre). rewrite <- length_app. rewrite <- H4.
  rewrite parse_words_spec; try done; try lia; [|by apply word_en_bits|rewrite length_app; lia].
  cbn [cbind]. unfold put_block. change (2 * Z.to_nat 0)%nat with 0%nat. rewrite Nat.add_0_r, !length_app, Nat.add_assoc. done.
Qed.
Lemma parser_log bs : ∀ fuel l pre post, Forall (block_ok c) bs → Z.of_nat (length l) = c.(eeprom_size) →
  Z.of_nat (length pre + length (enc_log bs)) ≤ efuse_avail c → (length bs < fuel)%nat →
  parser_loop fuel c mem_byte (pre ++ enc_log bs ++ 0xFF :: post) (Z.of_nat (length pre)) l =
  Ret (Ok (fold_left put_block bs l, Z.of_nat (length pre + length (enc_log bs)))).
Proof using Hc.
  induction bs as [|b bs IH]; intros fuel l pre post Hbs Hl Hlen Hf; (destruct fuel as [|fuel]; [cbn in Hf; lia|]).
  - unfold enc_log. cbn [map concat app fold_left length parser_loop]. unfold parse_header. rewrite mem_byte_mid by done.
    by rewrite Nat.add_0_r.
  - apply Forall_cons in Hbs as [Hb Hbs]. unfold enc_log in *. cbn [map concat fold_left length] in *. rewrite length_app in *.
    rewrite <- (app_assoc (enc_block b)). rewrite parser_block by (done || lia).
    rewrite (app_assoc pre), <- length_app. rewrite IH; [|done|by unfold put_block; rewrite length_put_words|rewrite length_app; lia|lia].
    by rewrite length_app, Nat.add_assoc.
Qed.
Lemma length_enc_log bs : Forall (block_ok c) bs → (length bs ≤ length (enc_log bs))%nat.
Proof using.
  induction 1 as [|b bs [_ _ _ Hs] _ IH]; [done|]. pose proof (length_enc_words _ Hs). unfold enc_log, enc_block in *.
  cbn [map concat length]. rewrite !length_app. lia.
Qed.
(** The parser on an efuse that holds a log. *)
Lemma parser_spec bs post : Forall (block_ok c) bs → Z.of_nat (length (enc_log bs)) ≤ efuse_avail c →
  eeprom_parser_88xx c (enc_log bs ++ 0xFF :: post) = Ret (Ok (log_value c bs, Z.of_nat (length (enc_log bs)))).
Proof using Hc.
  intros Hbs Hlen. unfold eeprom_parser_88xx. destruct Hc.
  rewrite (parser_log bs _ (blank_map c) [] post Hbs); [done| |done|].
  - unfold blank_map. rewrite length_replicate. lia.
  - pose proof (length_enc_log _ Hbs). rewrite length_app. lia.
Qed.
End Parse.

(** *** The parser on arbitrary bytes *)
Section Arbitrary.
Context (c : hw_cfg_info) (Hc : cfg_ok c) (phy : list Z) (Hphy : Z.of_nat (length phy) = c.(efuse_size)).
Context (src : list Z → Z → cres Z) (Hsrc : ∀ i, 0 ≤ i < Z.of_nat (length phy) → ∃ v, src phy i = Ret v).

Lemma mem_byte_some i : 0 ≤ i < Z.of_nat (length phy) → ∃ v, mem_byte phy i = Ret v.
Proof using.
  intros Hi. destruct (lookup_lt_is_Some_2 phy (Z.to_nat i)) as [v Hv]; [lia|]. exists v.
  rewrite <- (Z2Nat.id i) by lia. by apply mem_byte_at.
Qed.
Lemma land_pos a b : 0 ≤ b → 0 ≤ a .& b.
Proof using. intros. apply Z.land_nonneg. by right. Qed.

Lemma parse_header_safe idx : 0 ≤ idx ≤ efuse_avail c →
  ∃ h idx', parse_header phy idx = Ret (h, idx') ∧ idx ≤ idx' ≤ idx + 2 ∧
    match h with Some (blk, _) => 0 ≤ blk ∧ idx < idx' | None => True end.
Proof using Hc Hphy.
  intros Hi. destruct (avail_eq c Hc) as [Ha _]. destruct Hc. unfold parse_header.
  destruct (mem_byte_some idx) as [v Hv]; [lia|]. rewrite Hv. cbn [cbind].
  destruct (v .& 0x1f =? 0x0f).
  - destruct (mem_byte_some (idx + 1)) as [v2 Hv2]; [lia|]. rewrite Hv2. cbn [cbind].
    destruct (v2 =? 0xff); eexists _, _; (split; [done|]); [split; [lia|done]|]. split; [lia|]. split; [|lia].
    apply Z.lor_nonneg. split; [apply Z.shiftr_nonneg|]; apply land_pos; lia.
  - destruct (v =? 0xff); eexists _, _; (split; [done|]); [split; [lia|done]|]. split; [lia|]. split; [|lia].
    apply Z.shiftr_nonneg, land_pos. lia.
Qed.
(** A failure, or a map of the same size and an index that did not move back. *)
Definition parse_good (idx : Z) (r : cres (res (list Z * Z))) : Prop :=
  r = Ret (Fail HALMAC_RET_EEPROM_PARSING_FAIL) ∨
  ∃ l idx', r = Ret (Ok (l, idx')) ∧ Z.of_nat (length l) = c.(eeprom_size) ∧ idx ≤ idx'.
Lemma parse_words_safe n : ∀ blk we i idx l, 0 ≤ blk → 0 ≤ i → 0 ≤ idx ≤ efuse_avail c →
  Z.of_nat (length l) = c.(eeprom_size) →
  parse_words n c src phy blk we i idx l = Ret (Fail HALMAC_RET_EEPROM_PARSING_FAIL) ∨
  ∃ l' idx', parse_words n c src phy blk we i idx l = Ret (Ok (l', idx')) ∧
    Z.of_nat (length l') = c.(eeprom_size) ∧ idx ≤ idx' ≤ efuse_avail c.
Proof using Hc Hphy Hsrc.
  destruct (avail_eq c Hc) as [Ha Hav]. destruct Hc as [Hp He Hm Hev].
  induction n as [|n IH]; intros blk we i idx l Hb Hi Hx Hl; cbn [parse_words]; [right; eauto 10 with lia|].
  destruct (_ =? 1); [|apply IH; lia]. rewrite !Z.shiftl_mul_pow2 by lia. change (2 ^ 3) with 8. change (2 ^ 1) with 2.
  destruct (Z.ltb_spec (eeprom_size c) (blk * 8 + i * 2 + 1)); [by left|].
  assert (blk * 8 + i * 2 + 1 < eeprom_size c) as Hlt by (Z.div_mod_to_equations; lia).
  destruct (Hsrc idx) as [v1 Hv1]; [lia|]. rewrite Hv1. cbn [cbind]. rewrite log_write_ok by lia. cbn [cbind].
  destruct (Z.ltb_spec (u32 (efuse_avail c - 1)) (idx + 1)); [by left|].
  destruct (Hsrc (idx + 1)) as [v2 Hv2]; [lia|]. rewrite Hv2. cbn [cbind].
  rewrite log_write_ok by (rewrite length_insert; lia). cbn [cbind].
  destruct (Z.ltb_spec (efuse_avail c) (idx + 1 + 1)); [by left|].
  destruct (IH blk we (i + 1) (idx + 1 + 1) (<[Z.to_nat (blk * 8 + i * 2 + 1) := v2]> (<[Z.to_nat (blk * 8 + i * 2) := v1]> l)))
    as [->|(l' & idx' & -> & L1 & L2)]; [lia|lia|lia|rewrite !length_insert; lia|by left|]. right. eauto 10 with lia.
Qed.
Lemma parser_loop_safe fuel : ∀ idx l, 0 ≤ idx ≤ efuse_avail c → Z.of_nat (length l) = c.(eeprom_size) →
  (Z.to_nat (efuse_avail c - idx) < fuel)%nat → parse_good idx (parser_loop fuel c src phy idx l).
Proof using Hc Hphy Hsrc.
  induction fuel as [|fuel IH]; intros idx l Hx Hl Hf; [lia|]. cbn [parser_loop]. destruct (avail_eq c Hc) as [Ha Hav].
  destruct (parse_header_safe idx Hx) as (h & idx1 & E & H1 & H2). rewrite E. cbn [cbind].
  destruct h as [[blk we]|]; [|right; eauto 10 with lia]. destruct H2 as [Hb Hlt].
  destruct (Z.leb_spec (u32 (efuse_avail c - 1)) idx1); [by left|].
  destruct (parse_words_safe 4 blk we 0 idx1 l) as [->|(l2 & idx2 & -> & L2 & H3)]; [lia..|by left|]. cbn [cbind].
  destruct (IH idx2 l2) as [->|(l3 & idx3 & -> & L3 & H4)]; [lia|done|lia|by left|]. right. eauto 10 with lia.
Qed.
End Arbitrary.

(** The efuse parser and the mask parser on arbitrary efuse contents: they
    terminate, stay inside both buffers, and give either a parsing failure or a
    logical map of the full size. *)
Theorem efuse_parser_safe c phy :
  cfg_ok c → Z.of_nat (length phy) = c.(efuse_size) →
  parse_good c 0 (eeprom_parser_88xx c phy) ∧ parse_good c 0 (eeprom_mask_parser_88xx c phy).
Proof.
  intros Hc Hp. destruct (avail_eq c Hc) as [Ha _].
  assert (Z.of_nat (length (blank_map c)) = c.(eeprom_size)) as Hl by (destruct Hc; unfold blank_map; rewrite length_replicate; lia).
  split; apply parser_loop_safe; try done; try (destruct Hc; lia).
  - intros. by apply mem_byte_some.
  - intros. by exists 0.
Qed.

(** The sizes of the 8822B ([halmac_8822b_cfg.h]). *)
Definition cfg_8822b : hw_cfg_info := {| efuse_size := 1024; eeprom_size := 768; prtct_efuse_size := 96; malloc_ok := λ _, true |}.
Lemma cfg_8822b_ok : cfg_ok cfg_8822b.
Proof. constructor; cbn; lia || done. Qed.
Lemma efuse_parser_safe_witness :
  parse_good cfg_8822b 0 (eeprom_parser_88xx cfg_8822b (replicate 1024 0x2E)) ∧
  eeprom_parser_88xx cfg_8822b (replicate 1024 0x2E) = Ret (Fail HALMAC_RET_EEPROM_PARSING_FAIL).
Proof.
  split; [|vm_compute; reflexivity]. refine (proj1 (efuse_parser_safe cfg_8822b (replicate 1024 0x2E) cfg_8822b_ok _)).
  rewrite length_replicate. reflexivity.
Defined.

(** ** What the code relies on the hardware for

    [cells] are the bytes of the efuse.  A byte read is the byte that is there; a
    successful write to a blank byte leaves the value there; a write that fails
    leaves every other byte as it was. *)
Class EfuseLaws {H} `{!EfuseHw H} (c : hw_cfg_info) (cells : H → list Z) : Prop := {
  law_len : ∀ h, Z.of_nat (length (cells h)) = c.(efuse_size);
  law_read : ∀ h a v, 0 ≤ a → ef_read h a = Some v → cells h !! Z.to_nat a = Some v;
  law_write : ∀ h a v h', 0 ≤ a → ef_write h a v = (None, h') → cells h !! Z.to_nat a = Some 0xFF →
    cells h' = <[Z.to_nat a := v]> (cells h);
  law_fail : ∀ h a v e h', ef_write h a v = (Some e, h') → ∀ i, i ≠ Z.to_nat a → cells h' !! i = cells h !! i;
  law_bank : ∀ h ok h', ef_bank h = (ok, h') → cells h' = cells h
}.

(** ** A program logic for the monad *)
Definition wp {H A} (m : M H A) (s : adapter H) (Q : res A → adapter H → Prop) : Prop :=
  ∃ r s', m s = Ret (r, s') ∧ Q r s'.
Section Wp.
Context {H A B : Type}.
Implicit Types (s : adapter H).
Lemma wp_ret (a : A) s Q : Q (Ok a) s → wp (mret a) s Q.
Proof. intros HQ. by exists (Ok a), s. Qed.
Lemma wp_fail e s (Q : res A → _) : Q (Fail e) s → wp (mfail e) s Q.
Proof. intros HQ. by exists (Fail e), s. Qed.
Lemma wp_bind (m : M H A) (k : A → M H B) s Q :
  wp m s (λ r s', match r with Ok a => wp (k a) s' Q | Fail e => Q (Fail e) s' end) → wp (mbind m k) s Q.
Proof.
  intros (r & s' & E & HQ). unfold wp, mbind. rewrite E. cbn [cbind]. destruct r as [a|e]; [exact HQ|]. by exists (Fail e), s'.
Qed.
Lemma wp_mono (m : M H A) s (P Q : res A → adapter H → Prop) : wp m s P → (∀ r s', P r s' → Q r s') → wp m s Q.
Proof. intros (r & s' & E & HP) HPQ. exists r, s'. eauto. Qed.
Lemma wp_get s Q : Q (Ok s) s → wp mget s Q.
Proof. intros HQ. by exists (Ok s), s. Qed.
Lemma wp_set f s Q : Q (Ok tt) (f s) → wp (mset f) s Q.
Proof. intros HQ. by exists (Ok tt), (f s). Qed.
Lemma wp_lift (a : A) (m : cres (res A)) s Q : m = Ret (Ok a) → Q (Ok a) s → wp (mlift m) s Q.
Proof. intros -> HQ. by exists (Ok a), s. Qed.
End Wp.
Ltac wp_step :=
  match goal with
  | |- wp (mbind _ _) _ _ => apply wp_bind
  | |- wp mget _ _ => apply wp_get
  | |- wp (mset _) _ _ => apply wp_set
  | |- wp (mret _) _ _ => apply wp_ret
  | |- wp (mfail _) _ _ => apply wp_fail
  end; cbv beta iota.

(** *** The block with one word *)
Definition word_block (offset b1 b2 : Z) : block :=
  {| b_blk := offset / 8; b_words := <[Z.to_nat (offset mod 8 / 2) := Some (b1, b2)]> (replicate 4 None) |}.
Section OneWord.
Context (c : hw_cfg_info) (Hc : cfg_ok c) (offset b1 b2 : Z) (Ho : 0 ≤ offset < c.(eeprom_size)).

Lemma word_block_ok : block_ok c (word_block offset b1 b2).
Proof using Hc Ho.
  destruct Hc. constructor; cbn [word_block b_blk b_words].
  - Z.div_mod_to_equations. lia.
  - Z.div_mod_to_equations. lia.
  - by rewrite length_insert.
  - exists (b1, b2). eapply list_elem_of_lookup_2. apply list_lookup_insert_eq. rewrite length_replicate. Z.div_mod_to_equations. lia.
Qed.
Lemma word_index : ∃ k : nat, (k < 4)%nat ∧ offset mod 8 / 2 = Z.of_nat k.
Proof using Ho. exists (Z.to_nat (offset mod 8 / 2)). split; Z.div_mod_to_equations; lia. Qed.
(** The bytes [write_word_block] burns. *)
Lemma enc_word_block :
  let blk := u8 (offset >> 3) in
  let word_en := (1 << u8 ((offset .& (8 - 1)) >> 1)) ⊕ 0x0F in
  enc_block (word_block offset b1 b2) =
  if 0x7f <? offset then [ext_hdr blk; ext_hdr2 blk word_en; b1; b2] else [short_hdr blk word_en; b1; b2].
Proof using Hc Ho.
  destruct Hc. cbv zeta. change (8 - 1) with (Z.ones 3). rewrite Z.land_ones, !Z.shiftr_div_pow2 by lia.
  change (2 ^ 3) with 8. change (2 ^ 1) with 2. rewrite !u8_id by (unfold uint; Z.div_mod_to_equations; lia).
  unfold enc_block, enc_header. cbn [b_blk b_words word_block].
  destruct word_index as (k & Hk & ->). rewrite Nat2Z.id.
  assert (word_en_of 0 (<[k := Some (b1, b2)]> (replicate 4 None)) = (1 << Z.of_nat k) ⊕ 0x0F ∧
          enc_words (<[k := Some (b1, b2)]> (replicate 4 None)) = [b1; b2]) as [-> ->].
  { destruct k as [|[|[|[|]]]]; [done..|lia]. }
  destruct (Z.ltb_spec 0x0f (offset / 8)), (Z.ltb_spec 0x7f offset); try done; Z.div_mod_to_equations; lia.
Qed.
Lemma put_word_block l :
  put_block l (word_block offset b1 b2) =
  let p := Z.to_nat (offset / 2 * 2) in <[S p := b2]> (<[p := b1]> l).
Proof using Ho.
  unfold put_block. cbn [b_blk b_words word_block]. cbv zeta.
  destruct word_index as (k & Hk & Ek). rewrite Ek, Nat2Z.id.
  replace (Z.to_nat (offset / 2 * 2)) with (8 * Z.to_nat (offset / 8) + 2 * k)%nat by (Z.div_mod_to_equations; lia).
  destruct k as [|[|[|[|]]]]; [..|lia]; cbn [insert list_insert replicate put_words];
    f_equal; try lia; f_equal; lia.
Qed.
(** One byte of the word kept from the map. *)
Lemma put_word_byte l v : (Z.to_nat offset < length l)%nat → Z.of_nat (length l) = c.(eeprom_size) →
  b1 = (if offset .& 1 =? 0 then v else l.[Z.to_nat offset - 1]) →
  b2 = (if offset .& 1 =? 0 then l.[S (Z.to_nat offset)] else v) →
  put_block l (word_block offset b1 b2) = <[Z.to_nat offset := v]> l.
Proof using Hc Ho.
  intros Hl Hl' Eb1 Eb2. rewrite put_word_block, Eb1, Eb2. cbv zeta. destruct Hc. change 1 with (Z.ones 1). rewrite Z.land_ones by lia.
  change (2 ^ 1) with 2. destruct (Z.eqb_spec (offset mod 2) 0).
  - replace (offset / 2 * 2) with offset by (Z.div_mod_to_equations; lia).
    apply list_insert_id. rewrite list_lookup_insert_ne by lia. apply lookup_aget. Z.div_mod_to_equations. lia.
  - replace (Z.to_nat (offset / 2 * 2)) with (Z.to_nat offset - 1)%nat by (Z.div_mod_to_equations; lia).
    replace (S (Z.to_nat offset - 1)) with (Z.to_nat offset) by (Z.div_mod_to_equations; lia).
    f_equal. apply list_insert_id. apply lookup_aget. lia.
Qed.
End OneWord.

Section Log.
Context {H : Type} `{!EfuseHw H} (c : hw_cfg_info) (Hc : cfg_ok c) (cells : H → list Z) `{!EfuseLaws c cells}.
Implicit Types (s : adapter H).

(** The efuse holds the log [bs], followed by blank bytes; the cache, if it is
    valid, agrees with it. *)
Record holds (s : adapter H) (bs : list block) : Prop := {
  ho_blocks : Forall (block_ok c) bs;
  ho_cells : ∃ n prot, cells s.(hw) = enc_log bs ++ replicate (S n) 0xFF ++ prot ∧
    Z.of_nat (length (enc_log bs) + S n) = efuse_avail c;
  ho_cache : s.(efuse_map_valid) = true → s.(efuse_map) = cells s.(hw)
}.

(** Memory is available and no access to the hardware fails. *)
Record reliable : Prop := {
  re_malloc : ∀ n, c.(malloc_ok) n = true;
  re_read : ∀ h a v, 0 ≤ a → cells h !! Z.to_nat a = Some v → ef_read h a = Some v;
  re_write : ∀ h a v, (ef_write h a v).1 = None;
  re_bank : ∀ h, (ef_bank h).1 = true
}.

Lemma read_loop_spec n : ∀ h addr l, 0 ≤ addr → read_hw_loop n h addr = Some l →
  l = take n (drop (Z.to_nat addr) (cells h)) ∧ length l = n.
Proof using EfuseLaws0.
  induction n as [|n IH]; intros h addr l Ha E; cbn in E; [by injection E as <-|].
  destruct (ef_read h addr) as [v|] eqn:Ev; [|done]. destruct (read_hw_loop n h (addr + 1)) as [l'|] eqn:El; [|done].
  injection E as <-. destruct (IH h (addr + 1) l') as [-> Hl]; [lia|done|]. apply law_read in Ev; [|done].
  rewrite (drop_S _ _ _ Ev). cbn [take length]. rewrite Hl. replace (Z.to_nat (addr + 1)) with (S (Z.to_nat addr)) by lia. done.
Qed.
Lemma read_loop_reliable n : ∀ h addr, reliable → 0 ≤ addr → addr + Z.of_nat n ≤ Z.of_nat (length (cells h)) →
  read_hw_loop n h addr ≠ None.
Proof using.
  induction n as [|n IH]; intros h addr Hr Ha Hn; [done|]. cbn.
  destruct (lookup_lt_is_Some_2 (cells h) (Z.to_nat addr)) as [v Hv]; [lia|]. rewrite (re_read Hr _ _ _ Ha Hv).
  pose proof (IH h (addr + 1) Hr). destruct (read_hw_loop n h (addr + 1)); [done|]. intros _. apply H0; [lia|lia|done].
Qed.
(** Reading the logical map: a read or allocation failure, or the value of the log. *)
Lemma read_map_spec s bs : holds s bs →
  wp (read_log_efuse_map_88xx c) s (λ r s', holds s' bs ∧ s'.(hw) = s.(hw) ∧
    s'.(cmd_cnstr_state) = s.(cmd_cnstr_state) ∧ s'.(proc_sending) = s.(proc_sending) ∧
    s'.(efuse_auto_check_en) = s.(efuse_auto_check_en) ∧
    match r with
    | Ok m => m = log_value c bs ∧ s'.(efuse_end) = Z.of_nat (length (enc_log bs))
    | Fail _ => ¬ reliable
    end).
Proof using Hc EfuseLaws0.
  intros Hs. unfold read_log_efuse_map_88xx. wp_step. wp_step. wp_step.
  apply (wp_mono _ _ (λ r s', holds s' bs ∧ s'.(hw) = s.(hw) ∧
    s'.(cmd_cnstr_state) = s.(cmd_cnstr_state) ∧ s'.(proc_sending) = s.(proc_sending) ∧
    s'.(efuse_auto_check_en) = s.(efuse_auto_check_en) ∧
    match r with
    | Ok _ => s'.(efuse_map_valid) = true
    | Fail _ => ¬ reliable
    end)).
  - destruct (efuse_map_valid s) eqn:Ev; [by wp_step|]. destruct (malloc_ok c _) eqn:Em; cbn [negb];
      [|wp_step; split_and!; [done..|]; intros Hr; by rewrite (re_malloc Hr) in Em].
    wp_step. unfold read_efuse_88xx. wp_step. wp_step. rewrite Ev. unfold read_hw_efuse_88xx. wp_step. wp_step.
    destruct (read_hw_loop _ _ _) as [l|] eqn:El.
    2:{ wp_step. split_and!; [done..|]. intros Hr. pose proof (law_len (hw s)).
        apply read_loop_reliable in El; [done|done|done|lia]. }
    wp_step. wp_step.
    apply read_loop_spec in El as [-> _]; [|done]. destruct Hs as [Hb Hcl _].
    split; [|done]. constructor; [done|done|]. intros _. cbn. rewrite drop_0. apply take_ge. pose proof (law_len (hw s)). lia.
  - intros [[]|e] s1 (H1 & H2 & H3 & H4 & H5 & H6); [|by auto 10]. wp_step. wp_step. wp_step.
    pose proof H1 as [Hb (n & prot & Hcl & Hn) Hca]. rewrite (Hca H6), Hcl.
    eapply (wp_lift (Ok (log_value c bs, Z.of_nat (length (enc_log bs))))).
    { cbn [replicate app]. rewrite (parser_spec c Hc) by (done || lia). done. }
    wp_step. wp_step. wp_step. split; [|done]. constructor; [done|by exists n, prot|done].
Qed.

(** What a burn leaves alone. *)
Definition burnt (s s' : adapter H) : Prop :=
  s'.(efuse_end) = s.(efuse_end) ∧ s'.(cmd_cnstr_state) = s.(cmd_cnstr_state) ∧ s'.(proc_sending) = s.(proc_sending) ∧
  s'.(efuse_auto_check_en) = s.(efuse_auto_check_en).
Lemma write_hw_spec s a v : 0 ≤ a → cells s.(hw) !! Z.to_nat a = Some 0xFF →
  wp (write_hw_efuse_88xx a v) s (λ r s', burnt s s' ∧ s'.(efuse_map_valid) = false ∧
    match r with
    | Ok _ => cells s'.(hw) = <[Z.to_nat a := v]> (cells s.(hw))
    | Fail _ => ¬ reliable ∧ ∀ i, i ≠ Z.to_nat a → cells s'.(hw) !! i = cells s.(hw) !! i
    end).
Proof using EfuseLaws0.
  intros Ha Hb. unfold write_hw_efuse_88xx. wp_step. wp_step. wp_step. wp_step. cbn [hw set_map].
  destruct (ef_write (hw s) a v) as [r h] eqn:E. wp_step. wp_step.
  destruct r as [e|].
  { wp_step. split_and!; [done|done| |intros i Hi; by eapply law_fail]. intros Hr. pose proof (re_write Hr (hw s) a v) as Hw.
    by rewrite E in Hw. }
  assert (cells h = <[Z.to_nat a := v]> (cells (hw s))) as Ec by (by eapply law_write).
  assert (∀ i, i ≠ Z.to_nat a → cells h !! i = cells (hw s) !! i) as Eo.
  { intros i Hi. rewrite Ec. by apply list_lookup_insert_ne. }
  cbn [efuse_auto_check_en set_map]. destruct (efuse_auto_check_en s); [|by wp_step].
  assert (cells h !! Z.to_nat a = Some v) as Eh.
  { rewrite Ec. apply list_lookup_insert_eq. by apply lookup_lt_Some in Hb. }
  destruct (ef_read h a) as [w|] eqn:Er.
  - apply law_read in Er; [|done]. rewrite Eh in Er. injection Er as <-. rewrite Z.eqb_refl. by wp_step.
  - wp_step. split_and!; [done|done| |done]. intros Hr. by rewrite (re_read Hr _ _ _ Ha Eh) in Er.
Qed.
Lemma write_seq_spec l : ∀ s e, 0 ≤ e →
  (∀ k, (k < length l)%nat → cells s.(hw) !! (Z.to_nat e + k)%nat = Some 0xFF) →
  wp (write_seq e l) s (λ r s', burnt s s' ∧ (s.(efuse_map_valid) = false ∨ l ≠ [] → s'.(efuse_map_valid) = false) ∧
    match r with
    | Ok _ => cells s'.(hw) = list_inserts (Z.to_nat e) l (cells s.(hw))
    | Fail _ => ¬ reliable ∧ ∀ i, (i < Z.to_nat e ∨ Z.to_nat e + length l ≤ i)%nat → cells s'.(hw) !! i = cells s.(hw) !! i
    end).
Proof using EfuseLaws0.
  induction l as [|v l IH]; intros s e He Hb; cbn [write_seq]; [wp_step; split; [done|]; split; [naive_solver|done]|]. wp_step.
  eapply wp_mono; [apply write_hw_spec; [done|]|].
  { specialize (Hb 0%nat). rewrite Nat.add_0_r in Hb. apply Hb. cbn. lia. }
  intros [[]|err] s1 (Hbu & Hv & Hcl).
  - eapply wp_mono; [apply IH; [lia|]|].
    { intros k Hk. rewrite Hcl, list_lookup_insert_ne by lia. specialize (Hb (S k)).
      replace (Z.to_nat (e + 1) + k)%nat with (Z.to_nat e + S k)%nat by lia. apply Hb. cbn. lia. }
    intros r s2 (Hbu2 & Hv2 & Hr). destruct Hbu as (B1 & B2 & B3 & B4), Hbu2 as (C1 & C2 & C3 & C4).
    split; [by unfold burnt; rewrite C1, C2, C3, C4|]. split; [auto|].
    replace (Z.to_nat (e + 1)) with (S (Z.to_nat e)) in Hr by lia. destruct r as [u|err].
    + rewrite Hr, Hcl. cbn [list_inserts]. symmetry. apply list_insert_inserts_lt. lia.
    + split; [apply Hr|]. intros i Hi. cbn [length] in Hi. rewrite (proj2 Hr) by lia. rewrite Hcl. apply list_lookup_insert_ne. lia.
  - split; [done|]. split; [auto|]. split; [apply Hcl|]. intros i Hi. cbn [length] in Hi. apply Hcl. lia.
Qed.

Lemma enc_log_snoc bs b : enc_log (bs ++ [b]) = enc_log bs ++ enc_block b.
Proof using. unfold enc_log. rewrite map_app, concat_app. cbn. by rewrite app_nil_r. Qed.
Lemma log_value_snoc bs b : log_value c (bs ++ [b]) = put_block (log_value c bs) b.
Proof using. unfold log_value. by rewrite fold_left_app. Qed.
Lemma length_log_value bs : length (log_value c bs) = Z.to_nat c.(eeprom_size).
Proof using.
  unfold log_value. rewrite <- (length_replicate (Z.to_nat (eeprom_size c)) 0xFF). change (replicate _ _) with (blank_map c).
  generalize (blank_map c). induction bs as [|b bs IH]; intros l; [done|]. cbn. rewrite IH. apply length_put_words.
Qed.
(** Bytes burnt into the blank part. *)
Lemma inserts_blank (a l p : list Z) n : (length l ≤ n)%nat →
  list_inserts (length a) l (a ++ replicate n 0xFF ++ p) = a ++ l ++ replicate (n - length l) 0xFF ++ p.
Proof using.
  intros Hl. change (list_inserts (length a) l ?x) with (memcpy x (length a) l).
  rewrite memcpy_eq by (rewrite !length_app, length_replicate; lia).
  rewrite take_app_length, drop_app_add, drop_app_le by (rewrite length_replicate; lia).
  by rewrite drop_replicate.
Qed.
Lemma append_holds s s' bs b : holds s bs → block_ok c b →
  Z.of_nat (length (enc_log bs) + length (enc_block b)) < efuse_avail c →
  s'.(efuse_map_valid) = false → cells s'.(hw) = list_inserts (length (enc_log bs)) (enc_block b) (cells s.(hw)) →
  holds s' (bs ++ [b]).
Proof using.
  intros [Hb (n & prot & Hcl & Hn) _] Hbk Hlen Hv Hcl'. constructor.
  - apply Forall_app. split; [done|]. apply Forall_cons. split; [done|by apply Forall_nil].
  - rewrite Hcl, inserts_blank in Hcl' by lia. exists (n - length (enc_block b))%nat, prot. rewrite enc_log_snoc, <- app_assoc.
    rewrite length_app. split; [|lia]. rewrite Hcl'. do 3 f_equal. f_equal. lia.
  - by rewrite Hv.
Qed.
Lemma blank_behind s bs k : holds s bs → Z.of_nat (length (enc_log bs) + k) < efuse_avail c →
  cells s.(hw) !! (length (enc_log bs) + k)%nat = Some 0xFF.
Proof using.
  intros [_ (n & prot & -> & Hn) _] Hk. rewrite lookup_app_r, Nat.add_comm, Nat.add_sub by lia.
  rewrite lookup_app_l by (rewrite length_replicate; lia). apply lookup_replicate_2. lia.
Qed.

(** A block burnt behind the log. *)
Lemma write_block_spec s bs b : holds s bs → block_ok c b →
  Z.of_nat (length (enc_log bs) + length (enc_block b)) < efuse_avail c →
  wp (write_seq (Z.of_nat (length (enc_log bs))) (enc_block b)) s (λ r s', burnt s s' ∧
    match r with
    | Ok _ => holds s' (bs ++ [b])
    | Fail _ => ¬ reliable ∧ ∀ i, (i < length (enc_log bs))%nat → cells s'.(hw) !! i = cells s.(hw) !! i
    end).
Proof using EfuseLaws0.
  intros Hs Hb Hl. eapply wp_mono; [apply write_seq_spec; [lia|]|].
  { intros k Hk. rewrite Nat2Z.id. apply (blank_behind s bs); [done|lia]. }
  intros r s' (Hbu & Hv & Hr). rewrite Nat2Z.id in Hr. split; [done|]. destruct r as [u|e]; [|split; [apply Hr|]; intros i Hi; apply Hr; lia].
  eapply append_holds; [done..| |done]. apply Hv. right. unfold enc_block, enc_header. by case_match.
Qed.
Definition word_need (offset : Z) : Z := if 0x7f <? offset then 4 else 3.
Lemma write_word_spec s bs offset b1 b2 : holds s bs → 0 ≤ offset < c.(eeprom_size) →
  s.(efuse_end) = Z.of_nat (length (enc_log bs)) →
  wp (write_word_block c offset b1 b2) s (λ r s', burnt s s' ∧
    if efuse_avail c <=? Z.of_nat (length (enc_log bs)) + word_need offset
    then r = Fail HALMAC_RET_EFUSE_NOT_ENOUGH ∧ s' = s
    else match r with
         | Ok _ => holds s' (bs ++ [word_block offset b1 b2])
         | Fail _ => ¬ reliable ∧ ∀ i, (i < length (enc_log bs))%nat → cells s'.(hw) !! i = cells s.(hw) !! i
         end).
Proof using Hc EfuseLaws0.
  intros Hs Ho He. destruct (avail_eq c Hc) as [Ha _]. pose proof (word_block_ok c Hc offset b1 b2 Ho) as Hok.
  pose proof (enc_word_block c Hc offset b1 b2 Ho) as Ee. cbv zeta in Ee.
  pose proof (write_block_spec s bs (word_block offset b1 b2) Hs Hok) as Hw. rewrite Ee in Hw.
  destruct Hc as [? ? ? ?]. pose proof (ho_cells s bs Hs) as (n & prot & _ & Hn).
  unfold write_word_block, word_need. wp_step. wp_step. rewrite He.
  destruct (Z.ltb_spec 0x7f offset).
  - rewrite u32_id by (unfold uint; lia).
    destruct (Z.leb_spec (efuse_size c) (4 + prtct_efuse_size c + Z.of_nat (length (enc_log bs)))),
      (Z.leb_spec (efuse_avail c) (Z.of_nat (length (enc_log bs)) + 4)); try lia; [by wp_step|]. apply Hw. cbn [length]. lia.
  - rewrite u32_id by (unfold uint; lia).
    destruct (Z.leb_spec (efuse_size c) (3 + prtct_efuse_size c + Z.of_nat (length (enc_log bs)))),
      (Z.leb_spec (efuse_avail c) (Z.of_nat (length (enc_log bs)) + 3)); try lia; [by wp_step|]. apply Hw. cbn [length]. lia.
Qed.

(** What an operation that is to give the map the value [v] does: on success the
    log has grown and has that value; on failure the bytes of the log are as they
    were, and when the hardware is reliable the reason is a lack of room for
    [need] bytes, and the log is untouched. *)
Definition logged (bs : list block) (cells0 : list Z) (v : list Z) (need : Z) (r : res unit) (s' : adapter H) : Prop :=
  match r with
  | Ok _ => ∃ bs', holds s' (bs ++ bs') ∧ log_value c (bs ++ bs') = v
  | Fail e => (∀ i, (i < length (enc_log bs))%nat → cells s'.(hw) !! i = cells0 !! i) ∧
      (reliable → e = HALMAC_RET_EFUSE_NOT_ENOUGH ∧ efuse_avail c ≤ Z.of_nat (length (enc_log bs)) + need ∧ holds s' bs)
  end.
Definition same_state (s s' : adapter H) : Prop :=
  s'.(cmd_cnstr_state) = s.(cmd_cnstr_state) ∧ s'.(proc_sending) = s.(proc_sending).
Lemma mem_byte_log bs i : 0 ≤ i < c.(eeprom_size) → mem_byte (log_value c bs) i = Ret (log_value c bs).[Z.to_nat i].
Proof using.
  intros Hi. rewrite <- (Z2Nat.id i) at 1 by lia. apply mem_byte_at, lookup_aget. rewrite length_log_value. lia.
Qed.
(** One word burnt, seen as a change of the map. *)
Lemma write_word_logged s0 s bs offset b1 b2 v : cells s.(hw) = cells s0.(hw) → same_state s0 s →
  holds s bs → 0 ≤ offset < c.(eeprom_size) →
  s.(efuse_end) = Z.of_nat (length (enc_log bs)) → put_block (log_value c bs) (word_block offset b1 b2) = v →
  wp (write_word_block c offset b1 b2) s (λ r s', same_state s0 s' ∧ logged bs (cells s0.(hw)) v (word_need offset) r s').
Proof using Hc EfuseLaws0.
  intros Hc0 [Hs1 Hs2] Hs Ho He Hv. eapply wp_mono; [by apply write_word_spec|]. intros r s' [(_ & B1 & B2 & _) Hr].
  split; [by split; congruence|]. destruct (Z.leb_spec (efuse_avail c) (Z.of_nat (length (enc_log bs)) + word_need offset)).
  - destruct Hr as [-> ->]. cbn. split; [by rewrite Hc0|]. done.
  - destruct r as [u|e]; cbn.
    + exists [word_block offset b1 b2]. by rewrite log_value_snoc.
    + destruct Hr as [Hr1 Hr2]. split; [|by intros ?]. intros i Hi. by rewrite Hr2, Hc0.
Qed.
Lemma proc_write_spec s bs offset value : holds s bs → 0 ≤ offset < c.(eeprom_size) →
  wp (proc_write_log_efuse_88xx c offset value) s (λ r s', same_state s s' ∧
    logged bs (cells s.(hw)) (<[Z.to_nat offset := value]> (log_value c bs)) (word_need offset) r s').
Proof using Hc EfuseLaws0.
  intros Hs Ho. pose proof (length_log_value bs) as Hl. unfold proc_write_log_efuse_88xx.
  destruct (malloc_ok c (eeprom_size c)) eqn:Em; cbn [negb].
  2:{ wp_step. split; [done|]. split; [done|]. intros Hr. by rewrite (re_malloc Hr) in Em. }
  wp_step. eapply wp_mono; [by apply read_map_spec|]. intros [m|e] s1 (H1 & H2 & H3 & H4 & H5 & H6).
  2:{ split; [done|]. split; [by rewrite H2|]. by intros ?. }
  destruct H6 as [-> He]. wp_step. eapply wp_lift; [by rewrite mem_byte_log|]. cbv beta iota.
  assert (cells (hw s1) = cells (hw s)) as Hc1 by (by rewrite H2).
  destruct (Z.eqb_spec ((log_value c bs).[Z.to_nat offset]) value) as [Heq|_].
  { wp_step. split; [done|]. exists []. rewrite app_nil_r. split; [done|]. symmetry. apply list_insert_id.
    rewrite <- Heq. apply lookup_aget. lia. }
  pose proof (λ b1 b2, put_word_byte c Hc offset b1 b2 Ho (log_value c bs) value) as Hp.
  destruct (offset .& 1 =? 0) eqn:Epar.
  - assert (offset + 1 < eeprom_size c) as Ho1.
    { change 1 with (Z.ones 1) in Epar. rewrite Z.land_ones in Epar by lia. apply Z.eqb_eq in Epar. destruct Hc.
      change (2 ^ 1) with 2 in Epar. Z.div_mod_to_equations. lia. }
    wp_step. eapply wp_lift; [by rewrite mem_byte_log by lia|]. cbv beta iota. apply write_word_logged; try done.
    apply Hp; [lia|lia|done|]. f_equal. lia.
  - assert (0 < offset) as Ho1 by (destruct (Z.eq_dec offset 0) as [->|]; [done|lia]).
    wp_step. eapply wp_lift; [by rewrite mem_byte_log by lia|]. cbv beta iota. apply write_word_logged; try done.
    apply Hp; [lia|lia| |done]. f_equal. lia.
Qed.
Lemma proc_write_word_spec s bs offset value : holds s bs → 0 ≤ offset < c.(eeprom_size) → offset mod 2 = 0 →
  wp (proc_write_log_efuse_word_88xx c offset value) s (λ r s', same_state s s' ∧
    logged bs (cells s.(hw)) (<[S (Z.to_nat offset) := u8 ((value >> 8) .& 0xFF)]>
      (<[Z.to_nat offset := u8 (value .& 0xFF)]> (log_value c bs))) (word_need offset) r s').
Proof using Hc EfuseLaws0.
  intros Hs Ho Hev. unfold proc_write_log_efuse_word_88xx.
  destruct (malloc_ok c (eeprom_size c)) eqn:Em; cbn [negb].
  2:{ wp_step. split; [done|]. split; [done|]. intros Hr. by rewrite (re_malloc Hr) in Em. }
  wp_step. eapply wp_mono; [by apply read_map_spec|]. intros [m|e] s1 (H1 & H2 & H3 & H4 & H5 & H6).
  2:{ split; [done|]. split; [by rewrite H2|]. by intros ?. }
  destruct H6 as [-> He]. replace (offset .& 1 =? 0) with true.
  2:{ change 1 with (Z.ones 1). rewrite Z.land_ones by lia. change (2 ^ 1) with 2. by rewrite Hev. }
  apply write_word_logged; try done; [by rewrite H2|]. rewrite (put_word_block c offset _ _ Ho). cbv zeta.
  by replace (offset / 2 * 2) with offset by (Z.div_mod_to_equations; lia).
Qed.

(** *** The interface functions *)
Definition idle (s : adapter H) : Prop := s.(proc_sending) = false ∧ s.(cmd_cnstr_state) = HALMAC_CMD_CNSTR_IDLE.
(** An access that succeeds leaves the state idle, one that fails leaves it busy. *)
Definition after {A} (r : res A) (s : adapter H) : Prop :=
  s.(proc_sending) = false ∧
  s.(cmd_cnstr_state) = match r with Ok _ => HALMAC_CMD_CNSTR_IDLE | Fail _ => HALMAC_CMD_CNSTR_BUSY end.
Lemma holds_mono s s' bs : holds s bs → cells s'.(hw) = cells s.(hw) → s'.(efuse_map) = s.(efuse_map) →
  s'.(efuse_map_valid) = s.(efuse_map_valid) → holds s' bs.
Proof using. intros [H1 H2 H3] E1 E2 E3. constructor; [done|by rewrite E1|]. by rewrite E1, E2, E3. Qed.
Lemma cnv_spec s dest Q :
  (s.(cmd_cnstr_state) = HALMAC_CMD_CNSTR_IDLE ∧ dest = HALMAC_CMD_CNSTR_BUSY) ∨
  (s.(cmd_cnstr_state) = HALMAC_CMD_CNSTR_BUSY ∧ dest = HALMAC_CMD_CNSTR_IDLE) →
  Q (Ok tt) (set_cnstr dest s) → wp (cnv_efuse_state_88xx dest) s Q.
Proof using.
  intros Hst HQ. unfold cnv_efuse_state_88xx. wp_step. wp_step. by destruct Hst as [[-> ->]|[-> ->]]; apply wp_set.
Qed.
Lemma guarded_spec {A} (op : M H A) s bs (Q : res A → adapter H → Prop) : holds s bs → idle s →
  (∀ s1, holds s1 bs → cells s1.(hw) = cells s.(hw) → wp op s1 (λ r s', same_state s1 s' ∧ Q r s')) →
  (∀ s1 e, holds s1 bs → cells s1.(hw) = cells s.(hw) → ¬ reliable → Q (Fail e) s1) →
  (∀ r s1, Q r s1 → Q r (set_cnstr HALMAC_CMD_CNSTR_IDLE s1)) →
  wp (efuse_guarded true op) s (λ r s', Q r s' ∧ after r s').
Proof using EfuseLaws0.
  intros Hs [Hi1 Hi2] Hop Hbank Hset. unfold efuse_guarded. cbn [negb]. wp_step. wp_step. rewrite Hi1, Hi2.
  cbn [negb]. rewrite bool_decide_true by done. cbn [negb]. wp_step. unfold switch_efuse_bank_88xx. wp_step.
  apply cnv_spec; [by left|]. cbv beta iota. wp_step. wp_step. cbn [hw set_cnstr].
  destruct (ef_bank (hw s)) as [ok h] eqn:Eb. wp_step. wp_step. pose proof (law_bank _ _ _ Eb) as Hcl.
  destruct ok.
  2:{ wp_step. split; [|by split]. apply Hbank; [by eapply holds_mono|done|]. intros Hr. pose proof (re_bank Hr (hw s)) as Hb. by rewrite Eb in Hb. }
  wp_step. wp_step. eapply wp_mono; [apply Hop; [by eapply holds_mono|done]|].
  intros [a|e] s1 [[S1 S2] HQ]; [|split; [done|]; by split; [rewrite S2|rewrite S1]].
  cbn in S1, S2. wp_step. apply cnv_spec; [by right|]. cbv beta iota. wp_step.
  split; [by apply Hset|]. split; [by rewrite <- Hi1, <- S2|done].
Qed.
Lemma logged_set bs cl v n r s st : logged bs cl v n r s → logged bs cl v n r (set_cnstr st s).
Proof using.
  destruct r as [u|e]; cbn.
  - intros (bs' & Hh & Hv). exists bs'. split; [by eapply holds_mono|done].
  - intros [H1 H2]. split; [done|]. intros Hr. destruct (H2 Hr) as (? & ? & ?). split_and!; [done|done|by eapply holds_mono].
Qed.
Lemma write_log_spec s bs offset value : holds s bs → idle s → 0 ≤ offset < c.(eeprom_size) →
  wp (write_log_efuse_88xx c offset value) s (λ r s',
    logged bs (cells s.(hw)) (<[Z.to_nat offset := value]> (log_value c bs)) (word_need offset) r s' ∧ after r s').
Proof using Hc EfuseLaws0.
  intros Hs Hi Ho. unfold write_log_efuse_88xx. rewrite (proj2 (Z.ltb_lt _ _)) by lia. eapply guarded_spec; [done|done| | |].
  - intros s1 H1 E1. rewrite <- E1. by apply proc_write_spec.
  - intros s1 e H1 E1 Hr. cbn. split; [by rewrite E1|]. by intros ?.
  - intros r s1. apply logged_set.
Qed.
Lemma write_log_word_spec s bs offset value : holds s bs → idle s → 0 ≤ offset < c.(eeprom_size) → offset mod 2 = 0 →
  wp (write_log_efuse_word_88xx c offset value) s (λ r s',
    logged bs (cells s.(hw)) (<[S (Z.to_nat offset) := u8 ((value >> 8) .& 0xFF)]>
      (<[Z.to_nat offset := u8 (value .& 0xFF)]> (log_value c bs))) (word_need offset) r s' ∧ after r s').
Proof using Hc EfuseLaws0.
  intros Hs Hi Ho Hev. unfold write_log_efuse_word_88xx. rewrite (proj2 (Z.ltb_lt _ _)) by lia. eapply guarded_spec; [done|done| | |].
  - intros s1 H1 E1. rewrite <- E1. by apply proc_write_word_spec.
  - intros s1 e H1 E1 Hr. cbn. split; [by rewrite E1|]. by intros ?.
  - intros r s1. apply logged_set.
Qed.
Lemma read_logical_spec s bs offset : holds s bs → idle s → 0 ≤ offset < c.(eeprom_size) →
  wp (read_logical_efuse_88xx c offset) s (λ r s',
    (holds s' bs ∧ cells s'.(hw) = cells s.(hw) ∧
     match r with Ok v => log_value c bs !! Z.to_nat offset = Some v | Fail _ => ¬ reliable end) ∧ after r s').
Proof using Hc EfuseLaws0.
  intros Hs Hi Ho. unfold read_logical_efuse_88xx. rewrite (proj2 (Z.ltb_lt _ _)) by lia. eapply guarded_spec; [done|done| | |].
  - intros s1 H1 E1. destruct (malloc_ok c (eeprom_size c)) eqn:Em; cbn [negb].
    2:{ wp_step. split; [done|]. split_and!; [done|done|]. intros Hr. by rewrite (re_malloc Hr) in Em. }
    wp_step. eapply wp_mono; [by apply read_map_spec|]. intros [m|e] s2 (G1 & G2 & G3 & G4 & G5 & G6).
    2:{ split; [done|]. split_and!; [done|by rewrite G2|done]. }
    destruct G6 as [-> He]. eapply wp_lift; [by rewrite mem_byte_log|]. cbv beta iota. split; [done|].
    split_and!; [done|by rewrite G2|]. apply lookup_aget. rewrite length_log_value. lia.
  - intros s1 e H1 E1 Hr. done.
  - intros r s1 (G1 & G2 & G3). split_and!; [by eapply holds_mono|done|done].
Qed.
(** Busy is refused, without any change: an access that failed blocks the later ones. *)
Lemma guarded_busy {A} b (op : M H A) s : s.(proc_sending) = false → s.(cmd_cnstr_state) = HALMAC_CMD_CNSTR_BUSY →
  efuse_guarded b op s = Ret (Fail (if b : bool then HALMAC_RET_ERROR_STATE else HALMAC_RET_EFUSE_SIZE_INCORRECT), s).
Proof using. intros H1 H2. unfold efuse_guarded. destruct b; [|done]. cbn [negb]. unfold mbind, mget. cbn [cbind]. by rewrite H1, H2. Qed.
End Log.

(** ** A one-time programmable memory

    64 bytes of efuse, of which the last 8 are protected, for a map of 32 bytes: a
    write clears bits and never fails.  It satisfies what the code relies on. *)
Definition otp_cfg : hw_cfg_info := {| efuse_size := 64; eeprom_size := 32; prtct_efuse_size := 8; malloc_ok := λ _, true |}.
Definition otp_cells (h : list Z) : list Z := resize 64 0xFF h.
Definition otp_write (h : list Z) (a v : Z) : list Z :=
  match otp_cells h !! Z.to_nat a with
  | Some old => <[Z.to_nat a := if old =? 0xFF then v else old .& v]> (otp_cells h)
  | None => otp_cells h
  end.
#[global] Instance otp_hw : EfuseHw (list Z) := {|
  ef_read h a := otp_cells h !! Z.to_nat a;
  ef_write h a v := (None, otp_write h a v);
  ef_bank h := (true, h)
|}.
Lemma otp_cells_id l : length l = 64%nat → otp_cells l = l.
Proof. intros Hl. unfold otp_cells. by rewrite <- Hl, resize_all. Qed.
Lemma length_otp_cells h : length (otp_cells h) = 64%nat.
Proof. apply length_resize. Qed.
#[global] Instance otp_laws : EfuseLaws otp_cfg otp_cells.
Proof.
  constructor.
  - intros h. by rewrite length_otp_cells.
  - done.
  - intros h a v h' Ha E Hb. injection E as <-. unfold otp_write. rewrite Hb, otp_cells_id by (by rewrite length_insert, length_otp_cells).
    done.
  - intros h a v e h' E. discriminate E.
  - intros h ok h' E. injection E as _ <-. done.
Qed.
Lemma otp_reliable : reliable otp_cfg otp_cells.
Proof. by constructor. Qed.
Lemma otp_cfg_ok : cfg_ok otp_cfg.
Proof. constructor; cbn; lia || done. Qed.

Definition demo_adapter (h : list Z) : adapter (list Z) := Build_adapter h [] false 0 true HALMAC_CMD_CNSTR_IDLE false.
(** The word 0xAB 0xCD at offset 2, and a later one that overrides it. *)
Definition demo_log : list block := [word_block 2 0xAB 0xCD; word_block 2 0xAB 0x11].
Lemma demo_holds : holds otp_cfg otp_cells (demo_adapter (enc_log demo_log)) demo_log.
Proof.
  constructor; [|by exists 49%nat, (replicate 8 0xFF)|done].
  apply Forall_cons. split; [|apply Forall_cons; split; [|by apply Forall_nil]]; apply (word_block_ok otp_cfg otp_cfg_ok); cbn; lia.
Qed.
Lemma demo_idle h : idle (demo_adapter h).
Proof. done. Qed.

(** C21: a byte written through [write_log_efuse_88xx] to an efuse that holds a
    well-formed log.  On success the log has been extended, possibly by
    nothing, the efuse is idle again, and [read_logical_efuse_88xx] gives the new value at the offset and the old one
    everywhere else; on failure the bytes of the log are what they were, the reason
    on reliable hardware is a lack of room, and the state is left busy. *)
Theorem efuse_write_then_read {H} `{!EfuseHw H} c (cells : H → list Z) `{!EfuseLaws c cells} s bs offset value :
  cfg_ok c → holds c cells s bs → idle s → 0 ≤ offset < c.(eeprom_size) →
  wp (write_log_efuse_88xx c offset value) s (λ r s',
    logged c cells bs (cells s.(hw)) (<[Z.to_nat offset := value]> (log_value c bs)) (word_need offset) r s' ∧ after r s' ∧
    ∀ offset', r = Ok tt → 0 ≤ offset' < c.(eeprom_size) →
      wp (read_logical_efuse_88xx c offset') s' (λ r' _,
        match r' with
        | Ok v => Some v = if offset' =? offset then Some value else log_value c bs !! Z.to_nat offset'
        | Fail _ => ¬ reliable c cells
        end)).
Proof.
  intros Hc Hs Hi Ho. eapply wp_mono; [by apply write_log_spec|]. intros r s' [Hl Ha]. split; [done|]. split; [done|].
  intros o' -> Ho'. destruct Hl as (bs' & Hh & Hv). eapply wp_mono; [by apply read_logical_spec|].
  intros r' s2 [(_ & _ & Hr) _]. destruct r' as [v|e]; [|done]. rewrite Hv in Hr. rewrite <- Hr.
  destruct (Z.eqb_spec o' offset) as [->|].
  - apply list_lookup_insert_eq. rewrite length_log_value. lia.
  - apply list_lookup_insert_ne. lia.
Qed.
Lemma efuse_write_then_read_witness :
  holds otp_cfg otp_cells (demo_adapter (enc_log demo_log)) demo_log ∧ log_value otp_cfg demo_log !! 3%nat = Some 0x11 ∧
  wp (write_log_efuse_88xx otp_cfg 3 0x22) (demo_adapter (enc_log demo_log)) (λ r s',
    r = Ok tt ∧ wp (read_logical_efuse_88xx otp_cfg 3) s' (λ r' _, r' = Ok 0x22)).
Proof.
  split; [exact demo_holds|]. split; [reflexivity|].
  eapply wp_mono; [apply (efuse_write_then_read otp_cfg otp_cells _ demo_log 3 0x22);
    [apply otp_cfg_ok|exact demo_holds|done|cbn; lia]|].
  intros r s' (Hl & _ & Hr). destruct r as [[]|e].
  - split; [done|]. eapply wp_mono; [apply (Hr 3); [done|cbn; lia]|].
    intros [v|e] s2 Hv; [cbn in Hv; congruence|]. destruct (Hv otp_reliable).
  - destruct Hl as [_ Hl]. destruct (Hl otp_reliable) as (_ & Hn & _). exfalso. revert Hn. vm_compute. congruence.
Defined.
