(* ===== verification/EfusePg.v ===== *)
(** * Programming the efuse: [halmac_efuse_88xx.c], the theorems

    [pg_efuse_by_map_88xx] drops from the mask the words the efuse already holds,
    checks the room and appends one block for every eight bytes with a word left.
    Proved here: what it makes of the logical map.  The examples at the end show what
    happens outside the theorems. *)
From S2P Require Import Prelude.
From stdpp Require Import list.
From S2P Require Import CryptoWrap Blocks Mem Efuse.
Local Open Scope Z_scope.

(** ** The blocks that are programmed *)

(** Which half of a mask byte stands for the block at [i]: as it is programmed, and
    as the room is counted. *)
Definition prog_sel (i : Z) : bool := 0 <? (i >> 3) .& 1.
Definition check_sel (i : Z) : bool := 0 <? i .& 7.
Definition nib (low : bool) (m : Z) : Z := if low then m .& 0x0F else m >> 4.
Definition nib_at (sel : Z → bool) (mask : list Z) (i : Z) : Z := nib (sel i) (mask.[Z.to_nat (i >> 4)]).
(** The bytes a block takes, and the bytes of all blocks. *)
Definition blk_need (i pre : Z) : Z := if 0 <? pre then (if 0x7f <? i then 2 else 1) + count_words pre else 0.
Fixpoint need (sel : Z → bool) (mask : list Z) (l : list Z) : Z :=
  match l with [] => 0 | i :: l => blk_need i (nib_at sel mask i) + need sel mask l end.
Definition offsets (c : hw_cfg_info) : list Z := steps (Z.to_nat (c.(eeprom_size) / 8)) 8.

Definition pg_word (map_pg : list Z) (pre : Z) (i j : nat) : option (Z * Z) :=
  if Z.testbit pre (Z.of_nat j) then Some (map_pg.[i + 2 * j], map_pg.[i + 2 * j + 1]) else None.
Definition pg_blk (map_pg : list Z) (pre i : Z) : block :=
  {| b_blk := i / 8; b_words := map (pg_word map_pg pre (Z.to_nat i)) (seq 0 4) |}.
Fixpoint pg_blocks (map_pg mask : list Z) (l : list Z) : list block :=
  match l with
  | [] => []
  | i :: l => (if 0 <? nib_at prog_sel mask i then [pg_blk map_pg (nib_at prog_sel mask i) i] else []) ++ pg_blocks map_pg mask l
  end.

(** The map a mask asks for: the bytes of [map_pg] where the mask has the bit. *)
Definition mask_bit (p : nat) : Z := let j := Z.of_nat p mod 16 in if j <? 8 then 4 + j / 2 else j / 2 - 4.
Definition wanted (mask : list Z) (p : nat) : bool := Z.testbit (mask.[p / 16]) (mask_bit p).
Definition programmed (map_pg mask old : list Z) : list Z :=
  map (λ p, if wanted mask p then map_pg.[p] else old.[p]) (seq 0 (length old)).

(** ** Nibbles *)
Lemma nibble_bit pre j : 0 ≤ j → (0 <? (pre >> j) .& 1) = Z.testbit pre j.
Proof.
  intros Hj. change 1 with (Z.ones 1). rewrite Z.land_ones by lia. change (2 ^ 1) with 2.
  rewrite <- Z.bit0_mod, Z.shiftr_spec, Z.add_0_l by lia. by destruct (Z.testbit pre j).
Qed.
Lemma nib_range low m : is_u8 m → 0 ≤ nib low m < 16.
Proof.
  intros Hm. unfold nib, is_u8, uint in *. change (2 ^ 8) with 256 in Hm. destruct low.
  - change 0x0F with (Z.ones 4). rewrite Z.land_ones by lia. apply Z.mod_pos_bound. lia.
  - rewrite Z.shiftr_div_pow2 by lia. change (2 ^ 4) with 16. Z.div_mod_to_equations. lia.
Qed.
Lemma nib_bits low m k : 0 ≤ k < 4 → Z.testbit (nib low m) k = Z.testbit m (if low then k else k + 4).
Proof.
  intros Hk. unfold nib. destruct low; [|by rewrite Z.shiftr_spec by lia].
  change 0x0F with (Z.ones 4). rewrite Z.land_spec, Z.ones_spec_low by lia. by rewrite andb_true_r.
Qed.
Lemma nibble_words pre mp i : 0 ≤ pre < 16 →
  word_en_of 0 (map (pg_word mp pre i) (seq 0 4)) = pre ⊕ 0x0F ∧
  Z.of_nat (length (enc_words (map (pg_word mp pre i) (seq 0 4)))) = count_words pre ∧
  (0 < pre → ∃ w, Some w ∈ map (pg_word mp pre i) (seq 0 4)).
Proof.
  intros Hp. assert (∃ n : nat, pre = Z.of_nat n ∧ (n < 16)%nat) as (n & -> & Hn) by (exists (Z.to_nat pre); lia).
  do 16 (destruct n as [|n]; [split; [reflexivity|]; split; [reflexivity|]; first [by intros ?%Z.lt_irrefl
    | intros _; eexists; cbn; rewrite !elem_of_cons; eauto 10]|]). lia.
Qed.
(** Fewer words take less room. *)
Lemma blk_need_mono i a b : 0 ≤ a < 16 → 0 ≤ b < 16 → a .& b = a → blk_need i a ≤ blk_need i b.
Proof.
  intros Ha Hb Hs.
  assert (all_below 16 (λ a, all_below 16 (λ b, implb (a .& b =? a) ((count_words a <=? count_words b) && implb (0 <? a) (0 <? b) && (0 <=? count_words b)))) = true) as H by reflexivity.
  apply (all_below_spec 16 _ a) in H; [|lia]. apply (all_below_spec 16 _ b) in H; [|lia]. cbv beta in H.
  rewrite Hs, Z.eqb_refl in H. cbn [implb] in H. rewrite !andb_true_iff in H. destruct H as [[H1%Z.leb_le H2] H3%Z.leb_le].
  unfold blk_need. destruct (0 <? a), (0 <? b); try discriminate H2; destruct (0x7f <? i); lia.
Qed.
Definition submask (m m0 : list Z) : Prop := ∀ k b, 0 ≤ b → Z.testbit (m.[k]) b = true → Z.testbit (m0.[k]) b = true.
Lemma nib_at_range sel mask i : bytes mask → 0 ≤ nib_at sel mask i < 16.
Proof. intros Hm. apply nib_range. by apply aget_uint. Qed.
Lemma need_mono sel m m0 l : bytes m → bytes m0 → submask m m0 → need sel m l ≤ need sel m0 l.
Proof.
  intros Hm Hm0 Hs. induction l as [|i l IH]; [done|]. cbn [need].
  assert (blk_need i (nib_at sel m i) ≤ blk_need i (nib_at sel m0 i)); [|lia].
  apply blk_need_mono; [by apply nib_at_range..|]. apply Z.bits_inj'. intros k Hk. rewrite Z.land_spec.
  destruct (Z.lt_ge_cases k 4).
  - unfold nib_at. rewrite !nib_bits by lia. destruct (Z.testbit (m.[_]) _) eqn:E; [|done]. cbn.
    apply Hs; [destruct (sel i); lia|done].
  - assert (∀ x, 0 ≤ x < 16 → Z.testbit x k = false) as Hhi.
    { intros x Hx. destruct (Z.eq_dec x 0) as [->|]; [apply Z.bits_0|]. apply Z.bits_above_log2; [lia|].
      apply Z.lt_le_trans with 4; [|done]. apply Z.log2_lt_pow2; lia. }
    by rewrite !Hhi by (by apply nib_at_range).
Qed.

Lemma need_nonneg sel mask l : bytes mask → 0 ≤ need sel mask l.
Proof.
  intros Hm. induction l as [|i l IH]; [done|]. cbn [need].
  pose proof (blk_need_mono i 0 (nib_at sel mask i) ltac:(lia) (nib_at_range sel mask i Hm) (Z.land_0_l _)) as Hb.
  change (blk_need i 0) with 0 in Hb. lia.
Qed.

(** ** What the blocks make of the map *)
Lemma aget_put_pg mp pre i n : ∀ k l p, (i + 2 * (k + n) ≤ length l)%nat →
  (put_words (i + 2 * k) (map (pg_word mp pre i) (seq k n)) l).[p] =
  if bool_decide (i + 2 * k ≤ p < i + 2 * (k + n))%nat && Z.testbit pre (Z.of_nat ((p - i) / 2)) then mp.[p] else l.[p].
Proof.
  induction n as [|n IH]; intros k l p Hl; cbn [seq map put_words].
  { rewrite bool_decide_false by lia. done. }
  replace (i + 2 * k + 2)%nat with (i + 2 * S k)%nat by lia. rewrite IH by (destruct (pg_word mp pre i k) as [[x y]|]; rewrite ?length_insert; lia).
  destruct (decide (p = i + 2 * k ∨ p = i + 2 * k + 1)%nat) as [Hp|Hp].
  - rewrite bool_decide_false by lia. rewrite bool_decide_true by lia. cbn [andb]. unfold pg_word.
    replace ((p - i) / 2)%nat with k.
    2:{ destruct Hp as [->| ->]; [replace (i + 2 * k - i)%nat with (k * 2)%nat by lia; by rewrite Nat.div_mul|].
        replace (i + 2 * k + 1 - i)%nat with (1 + k * 2)%nat by lia. by rewrite Nat.div_add. }
    destruct (Z.testbit pre (Z.of_nat k)); [|done]. destruct Hp as [->| ->].
    + rewrite aget_insert_ne by lia. by rewrite aget_insert_eq by lia.
    + rewrite Nat.add_1_r. by rewrite aget_insert_eq by (rewrite length_insert; lia).
  - replace (bool_decide (i + 2 * S k ≤ p < i + 2 * (S k + n))%nat) with (bool_decide (i + 2 * k ≤ p < i + 2 * (k + S n))%nat)
      by (apply bool_decide_ext; lia).
    case_match; [done|]. unfold pg_word. destruct (Z.testbit pre (Z.of_nat k)); [|done]. by rewrite !aget_insert_ne by lia.
Qed.
(** The bit of the nibble is the bit of the mask. *)
Lemma nib_wanted mask p : Z.testbit (nib_at prog_sel mask (8 * (Z.of_nat p / 8))) (Z.of_nat ((p - 8 * (p / 8)) / 2)) = wanted mask p.
Proof.
  unfold wanted, nib_at, prog_sel, mask_bit. rewrite Nat2Z.inj_div, Nat2Z.inj_sub by (apply Nat.Div0.mul_div_le).
  rewrite Nat2Z.inj_mul, Nat2Z.inj_div. change (Z.of_nat 8) with 8. change (Z.of_nat 2) with 2.
  rewrite !Z.shiftr_div_pow2 by lia. change (2 ^ 3) with 8. change (2 ^ 4) with 16. change 1 with (Z.ones 1).
  rewrite Z.land_ones by lia. change (2 ^ 1) with 2.
  assert (Z.to_nat (8 * (Z.of_nat p / 8) / 16) = (p / 16)%nat) as ->.
  { replace (8 * (Z.of_nat p / 8) / 16) with (Z.of_nat (p / 16)); [lia|]. rewrite Nat2Z.inj_div. change (Z.of_nat 16) with 16.
    Z.div_mod_to_equations. lia. }
  rewrite nib_bits by (Z.div_mod_to_equations; lia). f_equal. cbv zeta.
  destruct (Z.ltb_spec 0 (8 * (Z.of_nat p / 8) / 8 mod 2)), (Z.ltb_spec (Z.of_nat p mod 16) 8); Z.div_mod_to_equations; lia.
Qed.
Definition offset_ok (size i : Z) : Prop := 0 ≤ i ∧ i mod 8 = 0 ∧ i + 8 ≤ size.
Lemma aget_pg_blocks mp mask size l : ∀ old p, bytes mask → Forall (offset_ok size) l → Z.of_nat (length old) = size →
  (fold_left put_block (pg_blocks mp mask l) old).[p] =
  if bool_decide (8 * (Z.of_nat p / 8) ∈ l) && wanted mask p then mp.[p] else old.[p].
Proof.
  induction l as [|i l IH]; intros old p Hm Hl Ho; cbn [pg_blocks fold_left].
  { rewrite bool_decide_false by (by intros ?%elem_of_nil). done. }
  apply Forall_cons in Hl as [(Hi1 & Hi2 & Hi3) Hl]. rewrite fold_left_app.
  assert (length (fold_left put_block (if 0 <? nib_at prog_sel mask i then [pg_blk mp (nib_at prog_sel mask i) i] else []) old) = length old) as Hlen.
  { case_match; [|done]. cbn [fold_left]. unfold put_block. by rewrite length_put_words. }
  rewrite IH by (done || by rewrite Hlen).
  assert ((fold_left put_block (if 0 <? nib_at prog_sel mask i then [pg_blk mp (nib_at prog_sel mask i) i] else []) old).[p] =
    if bool_decide (8 * (Z.of_nat p / 8) = i) && wanted mask p then mp.[p] else old.[p]) as ->.
  { assert (bool_decide (8 * (Z.of_nat p / 8) = i) && Z.testbit (nib_at prog_sel mask i) (Z.of_nat ((p - Z.to_nat i) / 2)) =
            bool_decide (8 * (Z.of_nat p / 8) = i) && wanted mask p) as <-.
    { case_bool_decide as E; [|done]. cbn [andb]. rewrite <- nib_wanted, E. f_equal. f_equal. f_equal. f_equal.
      assert (i = Z.of_nat (8 * (p / 8))) as Ei; [|by rewrite Ei at 1; rewrite Nat2Z.id].
      rewrite Nat2Z.inj_mul, Nat2Z.inj_div. done. }
    destruct (Z.ltb_spec 0 (nib_at prog_sel mask i)) as [Hp|Hp]; cbn [fold_left].
    - unfold put_block, pg_blk. cbn [b_blk b_words].
      replace (8 * Z.to_nat (i / 8))%nat with (Z.to_nat i + 2 * 0)%nat by (Z.div_mod_to_equations; lia).
      rewrite aget_put_pg by lia. erewrite (bool_decide_ext (_ ≤ _ < _)%nat); [done|]. Z.div_mod_to_equations. lia.
    - pose proof (nib_at_range prog_sel mask i Hm). assert (nib_at prog_sel mask i = 0) as -> by lia.
      by rewrite Z.bits_0, andb_false_r. }
  erewrite (bool_decide_ext (_ ∈ i :: l)) by apply elem_of_cons. rewrite bool_decide_or.
  destruct (bool_decide (_ ∈ l)), (bool_decide (_ = i)), (wanted mask p); done.
Qed.
Lemma elem_of_steps n d x : x ∈ steps n d ↔ ∃ k : nat, (k < n)%nat ∧ x = d * Z.of_nat k.
Proof.
  unfold steps. rewrite list_elem_of_fmap. setoid_rewrite elem_of_seq. split; intros (k & H1 & H2); exists k; lia.
Qed.
Lemma length_offsets c : length (offsets c) = Z.to_nat (c.(eeprom_size) / 8).
Proof. unfold offsets, steps. by rewrite length_map, length_seq. Qed.
Lemma offsets_ok c : Forall (offset_ok c.(eeprom_size)) (offsets c).
Proof.
  apply Forall_forall. intros x (k & Hk & ->)%elem_of_steps. unfold offset_ok. Z.div_mod_to_equations. lia.
Qed.
Lemma length_put_blocks bs : ∀ l, length (fold_left put_block bs l) = length l.
Proof. induction bs as [|b bs IH]; intros l; [done|]. cbn. rewrite IH. apply length_put_words. Qed.
(** All blocks together give the map that was asked for. *)
Lemma pg_blocks_value c mp mask old : cfg_ok c → bytes mask → Z.of_nat (length old) = c.(eeprom_size) →
  fold_left put_block (pg_blocks mp mask (offsets c)) old = programmed mp mask old.
Proof.
  intros Hc Hm Ho. apply list_aget_eq; [unfold programmed; by rewrite length_put_blocks, length_map_seq|].
  intros p Hp. rewrite length_put_blocks in Hp. erewrite aget_pg_blocks; [|done|apply offsets_ok|done].
  unfold programmed. rewrite aget_map_seq by done. rewrite bool_decide_true; [done|].
  apply elem_of_steps. exists (p / 8)%nat. rewrite Nat2Z.inj_div. split; [|done]. destruct Hc as [_ _ _ Hmod].
  apply Nat2Z.inj_lt. rewrite Nat2Z.inj_div, Z2Nat.id by (Z.div_mod_to_equations; lia). Z.div_mod_to_equations. lia.
Qed.

(** ** The mask without the words that are there already *)
Lemma fold_cres_inv {A B} (f : cres A → B → cres A) (P : A → Prop) l : ∀ a,
  (∀ a x, x ∈ l → P a → ∃ a', f (Ret a) x = Ret a' ∧ P a') → P a → ∃ a', fold_left f l (Ret a) = Ret a' ∧ P a'.
Proof.
  induction l as [|x l IH]; intros a Hf HP; cbn; [by exists a|].
  destruct (Hf a x) as (a' & -> & HP'); [by left|done|]. apply IH; [|done]. intros b y Hy. apply Hf. by right.
Qed.
Lemma clr_bit_bit j : 0 ≤ j < 16 → ∃ b, clr_bit j = 2 ^ b ∧ 0 ≤ b < 8 ∧ ∀ p : nat, Z.of_nat p mod 16 / 2 = j / 2 ↔ mask_bit p = b.
Proof.
  intros Hj. unfold clr_bit, mask_bit, BIT. destruct (Z.ltb_spec j 8).
  - exists (4 + j / 2). rewrite Z.shiftl_1_l. split; [done|]. split; [Z.div_mod_to_equations; lia|]. intros p. cbv zeta.
    destruct (Z.ltb_spec (Z.of_nat p mod 16) 8); Z.div_mod_to_equations; lia.
  - exists (j / 2 - 4). rewrite Z.shiftl_1_l. split; [done|]. split; [Z.div_mod_to_equations; lia|]. intros p. cbv zeta.
    destruct (Z.ltb_spec (Z.of_nat p mod 16) 8); Z.div_mod_to_equations; lia.
Qed.
Lemma slice2 (l : list Z) o : (o + 2 ≤ length l)%nat → slice o 2 l = [l.[o]; l.[o + 1]].
Proof.
  intros Ho. unfold slice. rewrite take_aget by (rewrite length_drop; lia). cbn. rewrite !aget_drop. by rewrite Nat.add_0_r.
Qed.
Lemma u8_ldiff m b : is_u8 m → 0 ≤ b < 8 → u8 (Z.ldiff m (2 ^ b)) = Z.ldiff m (2 ^ b).
Proof.
  intros Hm Hb.
  assert (all_below 256 (λ m, all_below 8 (λ b, u8 (Z.ldiff m (2 ^ b)) =? Z.ldiff m (2 ^ b))) = true) as H by (vm_compute; reflexivity).
  apply (all_below_spec 256 _ m) in H; [|done]. apply (all_below_spec 8 _ b) in H; [|lia]. by apply Z.eqb_eq.
Qed.
Section Mask.
Context (c : hw_cfg_info) (mp old mask0 : list Z).
Context (Hmp : Z.of_nat (length mp) = c.(eeprom_size)) (Hold : Z.of_nat (length old) = c.(eeprom_size)).
Context (H16 : c.(eeprom_size) mod 16 = 0) (Hmask : Z.of_nat (length mask0) = c.(eeprom_size) / 16).

Record updated (mask : list Z) : Prop := {
  up_len : length mask = length mask0;
  up_bytes : bytes mask;
  up_sub : submask mask mask0;
  up_value : programmed mp mask old = programmed mp mask0 old
}.
(** One turn of the loop. *)
Lemma update_word_ok mask i j : (∃ k : nat, (k < Z.to_nat (c.(eeprom_size) / 16))%nat ∧ i = 16 * Z.of_nat k) →
  (∃ k : nat, (k < 8)%nat ∧ j = 2 * Z.of_nat k) → updated mask →
  ∃ mask', update_word mp old i (Ret mask) j = Ret mask' ∧ updated mask'.
Proof using Hmp Hold Hmask H16.
  intros (k & Hk & ->) (k2 & Hk2 & ->) Hu. pose proof Hu as [U1 U2 U3 U4]. unfold update_word. cbn [cbind].
  assert (16 * Z.of_nat k + 16 ≤ eeprom_size c) as Hfit by (Z.div_mod_to_equations; lia).
  assert (Z.to_nat (16 * Z.of_nat k + 2 * Z.of_nat k2) = (16 * k + 2 * k2)%nat) as -> by lia.
  rewrite !mem_read_ok by lia. cbn [cbind]. rewrite !slice2 by lia. case_bool_decide as E; [|by exists mask].
  injection E as E1 E2. rewrite Z.shiftr_div_pow2 by lia. change (2 ^ 4) with 16.
  rewrite (Z.mul_comm 16), Z.div_mul by lia.
  rewrite (mem_byte_at mask k (mask.[k])) by (apply lookup_aget; lia). cbn [cbind]. rewrite log_write_ok by lia. rewrite Nat2Z.id.
  destruct (clr_bit_bit (2 * Z.of_nat k2)) as (b & Eb & Hb & Hmb); [lia|]. rewrite Eb.
  pose proof (aget_uint 8 mask k ltac:(lia) U2) as Hmk.
  assert (u8 (Z.ldiff (mask.[k]) (2 ^ b)) = Z.ldiff (mask.[k]) (2 ^ b)) as Eu.
  { by apply u8_ldiff. }
  eexists. split; [reflexivity|]. rewrite Eu. constructor.
  - by rewrite length_insert.
  - apply Forall_insert; [done|]. rewrite <- Eu. eauto with machine.
  - intros k' b' Hb'. destruct (decide (k' = k)) as [->|]; [|by rewrite aget_insert_ne; auto].
    rewrite aget_insert_eq, Z.ldiff_spec by lia. intros [Ht _]%andb_true_iff. by apply U3.
  - rewrite <- U4. unfold programmed. apply map_ext. intros p. unfold wanted. destruct (decide (k = p / 16)%nat) as [->|];
      [|by rewrite aget_insert_ne]. rewrite aget_insert_eq, Z.ldiff_spec, Z.pow2_bits_eqb by lia.
    destruct (Z.eqb_spec b (mask_bit p)) as [Ebp|]; [|by rewrite andb_true_r]. rewrite andb_false_r.
    assert (p = 16 * (p / 16) + 2 * k2 ∨ p = 16 * (p / 16) + 2 * k2 + 1)%nat as Hp.
    { symmetry in Ebp. apply Hmb in Ebp. pose proof (Nat2Z.inj_div p 16). change (Z.of_nat 16) with 16 in *.
      Z.div_mod_to_equations. lia. }
    destruct (Z.testbit _ _); [|done]. by destruct Hp as [->| ->].
Qed.
Lemma update_mask_ok : bytes mask0 →
  ∃ mask, fold_left (λ mask i, fold_left (update_word mp old i) (steps 8 2) mask)
            (steps (Z.to_nat (c.(eeprom_size) / 16)) 16) (Ret mask0) = Ret mask ∧ updated mask.
Proof using Hmp Hold Hmask H16.
  intros Hm. apply fold_cres_inv; [|constructor; [done|done|by intros ?|done]].
  intros m i Hi%elem_of_steps Hu. apply fold_cres_inv; [|done]. intros m' j Hj%elem_of_steps Hu'. by apply update_word_ok.
Qed.
End Mask.

(** ** Programming *)
Lemma block_words_ok mp pre i : 0 ≤ i → i + 8 ≤ Z.of_nat (length mp) →
  block_words mp pre i = Ret (enc_words (map (pg_word mp pre (Z.to_nat i)) (seq 0 4))).
Proof.
  intros Hi Hl. unfold block_words, pg_word. cbn [fold_left seq map]. rewrite !nibble_bit by lia.
  change (Z.of_nat 0) with 0. change (Z.of_nat 1) with 1. change (Z.of_nat 2) with 2. change (Z.of_nat 3) with 3.
  rewrite !Z.shiftl_mul_pow2 by lia. change (2 ^ 1) with 2.
  assert (∀ k, 0 ≤ k < 4 → mem_read mp (Z.to_nat (i + k * 2)) 2 =
    Ret [mp.[Z.to_nat i + 2 * Z.to_nat k]; mp.[Z.to_nat i + 2 * Z.to_nat k + 1]]) as Hr.
  { intros k Hk. rewrite mem_read_ok, slice2 by lia. by replace (Z.to_nat (i + k * 2)) with (Z.to_nat i + 2 * Z.to_nat k)%nat by lia. }
  rewrite !Hr by lia. by destruct (Z.testbit pre 0), (Z.testbit pre 1), (Z.testbit pre 2), (Z.testbit pre 3).
Qed.
Lemma check_fold size mask l : ∀ n, Forall (offset_ok size) l → (∀ i, i ∈ l → (Z.to_nat (i >> 4) < length mask)%nat) →
  fold_left (λ acc i,
    let* pg_num := acc in
    let* pre := check_word_en mask i in
    Ret (if 0 <? pre then pg_num + (if 0x7f <? i then 2 else 1) + count_words pre else pg_num)) l (Ret n) =
  Ret (n + need check_sel mask l).
Proof.
  induction l as [|i l IH]; intros n Hl Hin; cbn [fold_left need]; [by rewrite Z.add_0_r|]. apply Forall_cons in Hl as [(Hi & _) Hl].
  cbn [cbind]. unfold check_word_en at 2. rewrite <- (Z2Nat.id (i >> 4)) by (by apply Z.shiftr_nonneg).
  erewrite mem_byte_at by (apply lookup_aget, Hin; by left). cbn [cbind].
  rewrite IH by (try done; intros x Hx; apply Hin; by right). f_equal. unfold blk_need, nib_at, nib, check_sel.
  destruct (0 <? _); lia.
Qed.
Lemma need_bound sel mask l : bytes mask → need sel mask l ≤ 10 * Z.of_nat (length l).
Proof.
  intros Hm. induction l as [|i l IH]; [done|]. cbn [need length].
  pose proof (blk_need_mono i (nib_at sel mask i) 15 (nib_at_range sel mask i Hm) ltac:(lia)) as Hb.
  assert (blk_need i 15 ≤ 10) by (unfold blk_need; by destruct (0x7f <? i)).
  change 15 with (Z.ones 4) in Hb. pose proof (nib_at_range sel mask i Hm).
  rewrite Z.land_ones, Z.mod_small in Hb by (change (2 ^ 4) with 16; lia). specialize (Hb eq_refl). change (Z.ones 4) with 15 in Hb. lia.
Qed.
Section Program.
Context {H : Type} `{!EfuseHw H} (c : hw_cfg_info) (Hc : cfg_ok c) (cells : H → list Z) `{!EfuseLaws c cells}.
Context (mp : list Z) (Hmp : Z.of_nat (length mp) = c.(eeprom_size)).
Implicit Types (s : adapter H).

(** The block at [i] as it is burnt. *)
Lemma pg_blk_ok pre i : 0 < pre < 16 → offset_ok c.(eeprom_size) i → block_ok c (pg_blk mp pre i).
Proof using Hc.
  intros Hp (H1 & H2 & H3). destruct Hc. constructor; cbn [pg_blk b_blk b_words].
  - Z.div_mod_to_equations. lia.
  - Z.div_mod_to_equations. lia.
  - done.
  - apply nibble_words; lia.
Qed.
Lemma enc_pg_blk pre i : 0 < pre < 16 → offset_ok c.(eeprom_size) i →
  let blk := u8 (i >> 3) in
  enc_block (pg_blk mp pre i) =
  (if 0x7f <? i then [ext_hdr blk; ext_hdr2 blk (pre ⊕ 0x0F)] else [short_hdr blk (pre ⊕ 0x0F)]) ++
  enc_words (map (pg_word mp pre (Z.to_nat i)) (seq 0 4)).
Proof using Hc.
  intros Hp (H1 & H2 & H3). destruct Hc. cbv zeta. unfold enc_block, enc_header. cbn [b_blk b_words pg_blk].
  rewrite (proj1 (nibble_words pre mp (Z.to_nat i) ltac:(lia))).
  rewrite Z.shiftr_div_pow2 by lia. change (2 ^ 3) with 8. rewrite u8_id by (unfold uint; Z.div_mod_to_equations; lia).
  destruct (Z.ltb_spec 0x7f i), (Z.ltb_spec 0x0f (i / 8)); done || (Z.div_mod_to_equations; lia).
Qed.
Lemma length_pg_blk pre i : 0 < pre < 16 → offset_ok c.(eeprom_size) i → Z.of_nat (length (enc_block (pg_blk mp pre i))) = blk_need i pre.
Proof using Hc.
  intros Hp Hi. rewrite (enc_pg_blk pre i Hp Hi). rewrite length_app. unfold blk_need.
  rewrite (proj2 (Z.ltb_lt 0 pre)) by lia. rewrite <- (proj1 (proj2 (nibble_words pre mp (Z.to_nat i) ltac:(lia)))).
  destruct (0x7f <? i); cbn [length]; lia.
Qed.
Definition kept (bs : list block) s s' : Prop := ∀ k, (k < length (enc_log bs))%nat → cells s'.(hw) !! k = cells s.(hw) !! k.
Lemma pg_step_spec s bs pre i : holds c cells s bs → s.(efuse_end) = Z.of_nat (length (enc_log bs)) →
  0 < pre < 16 → offset_ok c.(eeprom_size) i → Z.of_nat (length (enc_log bs)) + blk_need i pre < efuse_avail c →
  wp (if 0x7f <? i then pg_extend_efuse_88xx mp (pre ⊕ 0x0F) pre i else proc_pg_efuse_88xx mp (pre ⊕ 0x0F) pre i) s
    (λ r s', same_state s s' ∧
      match r with
      | Ok _ => holds c cells s' (bs ++ [pg_blk mp pre i]) ∧ s'.(efuse_end) = Z.of_nat (length (enc_log (bs ++ [pg_blk mp pre i])))
      | Fail _ => ¬ reliable c cells ∧ kept bs s s'
      end).
Proof using Hc EfuseLaws0 Hmp.
  intros Hs He Hp Hi Hroom. pose proof (enc_pg_blk pre i Hp Hi) as Ee. cbv zeta in Ee. pose proof (length_pg_blk pre i Hp Hi) as Hl.
  assert (∀ hdr, enc_block (pg_blk mp pre i) = hdr ++ enc_words (map (pg_word mp pre (Z.to_nat i)) (seq 0 4)) →
    wp (pg_block hdr mp pre i) s (λ r s', same_state s s' ∧
      match r with
      | Ok _ => holds c cells s' (bs ++ [pg_blk mp pre i]) ∧ s'.(efuse_end) = Z.of_nat (length (enc_log (bs ++ [pg_blk mp pre i])))
      | Fail _ => ¬ reliable c cells ∧ kept bs s s'
      end)) as Hpg.
  { intros hdr Eh. unfold pg_block. wp_step. wp_step. wp_step. pose proof Hi as (Hi1 & _ & Hi3).
    eapply wp_lift; [by rewrite block_words_ok by lia|]. cbv beta iota. rewrite <- Eh. wp_step. rewrite He.
    eapply wp_mono; [apply (write_block_spec c cells s bs (pg_blk mp pre i)); [done|by apply pg_blk_ok|lia]|].
    intros r s1 ((_ & B1 & B2 & _) & Hr). destruct r as [u|e]; [|done]. wp_step. split; [done|].
    split; [by eapply holds_mono; [exact Hr|..]|]. cbn. rewrite enc_log_snoc, length_app. lia. }
  unfold pg_extend_efuse_88xx, proc_pg_efuse_88xx. destruct (0x7f <? i); by apply Hpg.
Qed.
Lemma holds_prefix s bs k : holds c cells s bs → (k < length (enc_log bs))%nat → cells s.(hw) !! k = enc_log bs !! k.
Proof using. intros [_ (n & prot & -> & _) _] Hk. by apply lookup_app_l. Qed.
Lemma program_loop_spec mask l : ∀ s bs, bytes mask → Forall (offset_ok c.(eeprom_size)) l →
  (∀ i, i ∈ l → (Z.to_nat (i >> 4) < length mask)%nat) →
  holds c cells s bs → s.(efuse_end) = Z.of_nat (length (enc_log bs)) →
  Z.of_nat (length (enc_log bs)) + need prog_sel mask l < efuse_avail c →
  wp (program_loop l mp mask) s (λ r s', same_state s s' ∧
    match r with
    | Ok _ => holds c cells s' (bs ++ pg_blocks mp mask l)
    | Fail _ => ¬ reliable c cells ∧ kept bs s s'
    end).
Proof using Hc EfuseLaws0 Hmp.
  induction l as [|i l IH]; intros s bs Hm Hl Hin Hs He Hroom; cbn [program_loop pg_blocks need] in *.
  { wp_step. by rewrite app_nil_r. }
  apply Forall_cons in Hl as [Hi Hl]. wp_step.
  assert (pre_word_en mask i = Ret (nib_at prog_sel mask i)) as Ep.
  { unfold pre_word_en. destruct Hi as (Hi1 & _). rewrite <- (Z2Nat.id (i >> 4)) by (by apply Z.shiftr_nonneg).
    erewrite mem_byte_at by (apply lookup_aget, Hin; by left). cbn [cbind]. done. }
  eapply wp_lift; [by rewrite Ep|]. cbv beta iota zeta. wp_step. pose proof (nib_at_range prog_sel mask i Hm) as Hn.
  pose proof (need_nonneg prog_sel mask l Hm) as Hpos.
  destruct (Z.ltb_spec 0 (nib_at prog_sel mask i)).
  - eapply wp_mono; [apply pg_step_spec; [done|done|lia|done|lia]|].
    intros [u|e] s1 [[S1 S2] Hr]; [|done]. destruct Hr as [Hh Hend].
    eapply wp_mono; [apply (IH s1 (bs ++ [pg_blk mp (nib_at prog_sel mask i) i])); try done|].
    + intros x Hx. apply Hin. by right.
    + rewrite enc_log_snoc, length_app, Nat2Z.inj_add, length_pg_blk by (done || lia). lia.
    + intros r s2 [[T1 T2] Hr]. split; [split; congruence|]. rewrite <- app_assoc in Hr. destruct r as [u2|e]; [done|].
      destruct Hr as [Hr1 Hr2]. split; [done|]. intros k Hk. rewrite Hr2 by (rewrite enc_log_snoc, length_app; lia).
      rewrite (holds_prefix s1 _ k Hh) by (rewrite enc_log_snoc, length_app; lia).
      rewrite (holds_prefix s _ k Hs Hk), enc_log_snoc. by apply lookup_app_l.
  - wp_step. assert (nib_at prog_sel mask i = 0) as E0 by lia. rewrite E0 in Hroom. cbn in Hroom. apply IH; try done.
    intros x Hx. apply Hin. by right.
Qed.

(** *** The room *)
Lemma in_mask (mask : list Z) i : c.(eeprom_size) mod 16 = 0 → Z.of_nat (length mask) = c.(eeprom_size) / 16 → i ∈ offsets c →
  (Z.to_nat (i >> 4) < length mask)%nat.
Proof using Hc.
  clear mp Hmp. intros H16 Hm (k & Hk & ->)%elem_of_steps. destruct Hc. rewrite Z.shiftr_div_pow2 by lia. change (2 ^ 4) with 16.
  Z.div_mod_to_equations. lia.
Qed.
Lemma check_enough_spec s mask e : bytes mask → c.(eeprom_size) mod 16 = 0 → Z.of_nat (length mask) = c.(eeprom_size) / 16 →
  s.(efuse_end) = e → 0 ≤ e ≤ efuse_avail c →
  wp (check_efuse_enough_88xx c mask) s (λ r s', s' = s ∧
    match r with
    | Ok _ => e + need check_sel mask (offsets c) < efuse_avail c
    | Fail er => er = HALMAC_RET_EFUSE_NOT_ENOUGH ∧ efuse_avail c ≤ e + need check_sel mask (offsets c)
    end).
Proof using Hc.
  clear mp Hmp. intros Hm H16 Hlm He Hr. unfold check_efuse_enough_88xx. wp_step. wp_step. wp_step. fold (offsets c).
  eapply wp_lift. { rewrite (check_fold c.(eeprom_size)); [done|apply offsets_ok|]. intros i. by apply in_mask. }
  cbv beta iota. rewrite He. destruct (avail_eq c Hc) as [Ha _]. pose proof (need_nonneg check_sel mask (offsets c) Hm).
  pose proof (need_bound check_sel mask (offsets c) Hm) as Hb. rewrite length_offsets in Hb.
  destruct Hc. rewrite Z.add_0_l, u32_id by (unfold uint; Z.div_mod_to_equations; lia).
  destruct (Z.leb_spec (efuse_size c) (need check_sel mask (offsets c) + prtct_efuse_size c + e)); wp_step; split; (done || lia || (split; [done|lia])).
Qed.
Lemma update_mask_spec s bs mask0 : holds c cells s bs → bytes mask0 → c.(eeprom_size) mod 16 = 0 →
  Z.of_nat (length mask0) = c.(eeprom_size) / 16 →
  wp (update_eeprom_mask_88xx c mp mask0) s (λ r s', holds c cells s' bs ∧ s'.(hw) = s.(hw) ∧ same_state s s' ∧
    match r with
    | Ok mask => updated mp (log_value c bs) mask0 mask ∧ s'.(efuse_end) = Z.of_nat (length (enc_log bs))
    | Fail _ => ¬ reliable c cells
    end).
Proof using Hc EfuseLaws0 Hmp.
  intros Hs Hm H16 Hlm. unfold update_eeprom_mask_88xx. destruct (malloc_ok c (eeprom_size c)) eqn:Em; cbn [negb].
  2:{ wp_step. split_and!; [done..|]. intros Hr. by rewrite (re_malloc _ _ Hr) in Em. }
  wp_step. eapply wp_mono; [by apply read_map_spec|]. intros [m|e] s1 (H1 & H2 & H3 & H4 & H5 & H6); [|done].
  destruct H6 as [-> He].
  destruct (update_mask_ok c mp (log_value c bs) mask0) as (mask & E & Hu); try done.
  { rewrite length_log_value. destruct Hc. lia. }
  eapply wp_lift; [by rewrite E|]. done.
Qed.
Lemma proc_pg_spec s bs mask : holds c cells s bs → bytes mask → c.(eeprom_size) mod 16 = 0 →
  Z.of_nat (length mask) = c.(eeprom_size) / 16 →
  Z.of_nat (length (enc_log bs)) + need prog_sel mask (offsets c) < efuse_avail c →
  wp (proc_pg_efuse_by_map_88xx c mp mask) s (λ r s', same_state s s' ∧
    logged c cells bs (cells s.(hw)) (programmed mp mask (log_value c bs)) (need check_sel mask (offsets c)) r s').
Proof using Hc EfuseLaws0 Hmp.
  intros Hs Hm H16 Hlm Hroom. unfold proc_pg_efuse_by_map_88xx. destruct (malloc_ok c (eeprom_size c >> 4)) eqn:Em; cbn [negb].
  2:{ wp_step. split; [done|]. split; [done|]. intros Hr. by rewrite (re_malloc _ _ Hr) in Em. }
  wp_step. eapply wp_mono; [by apply update_mask_spec|]. intros [m|e] s1 (H1 & H2 & H3 & H4).
  2:{ split; [done|]. split; [by rewrite H2|]. by intros ?. }
  destruct H4 as [[U1 U2 U3 U4] He]. rewrite <- U1 in Hlm. wp_step.
  pose proof (ho_cells _ _ _ _ Hs) as (n & prot & _ & Hn).
  eapply wp_mono; [by apply (check_enough_spec s1 m (Z.of_nat (length (enc_log bs)))); [..|lia]|].
  intros [u|e] s2 [-> Hr].
  2:{ destruct Hr as [-> Hr]. split; [done|]. split; [by rewrite H2|]. intros _. split_and!; [done| |done].
      pose proof (need_mono check_sel m mask (offsets c) U2 Hm U3). lia. }
  unfold program_efuse_88xx. fold (offsets c). pose proof (need_mono prog_sel m mask (offsets c) U2 Hm U3).
  eapply wp_mono; [apply (program_loop_spec m (offsets c) s1 bs); [done|apply offsets_ok|by intros i; apply in_mask|done|done|lia]|].
  intros r s2 [[S1 S2] Hr']. destruct H3. split; [split; congruence|]. destruct r as [u2|e]; cbn.
  - exists (pg_blocks mp m (offsets c)). split; [done|]. unfold log_value. rewrite fold_left_app. fold (log_value c bs).
    rewrite pg_blocks_value; [done|done|done|]. rewrite length_log_value. destruct Hc. lia.
  - destruct Hr' as [R1 R2]. split; [|by intros ?]. intros k Hk. by rewrite R2, H2.
Qed.
Lemma pg_by_map_spec s bs mask : holds c cells s bs → idle s → bytes mask → c.(eeprom_size) mod 16 = 0 →
  Z.of_nat (length mask) = c.(eeprom_size) / 16 →
  Z.of_nat (length (enc_log bs)) + need prog_sel mask (offsets c) < efuse_avail c →
  wp (pg_efuse_by_map_88xx c mp mask) s (λ r s',
    logged c cells bs (cells s.(hw)) (programmed mp mask (log_value c bs)) (need check_sel mask (offsets c)) r s' ∧ after r s').
Proof using Hc EfuseLaws0 Hmp.
  intros Hs Hi Hm H16 Hlm Hroom. unfold pg_efuse_by_map_88xx. rewrite Hmp, Z.eqb_refl.
  change 0xF with (Z.ones 4). rewrite Z.land_ones, Z.shiftr_div_pow2 by lia. change (2 ^ 4) with 16.
  rewrite H16, Hlm, Z.eqb_refl. cbn [Z.ltb Z.compare negb andb]. eapply (guarded_spec c cells _ s bs); [done|done| | |].
  - intros s1 H1 E1. rewrite <- E1. by apply proc_pg_spec.
  - intros s1 e H1 E1 Hr. cbn. split; [by rewrite E1|]. by intros ?.
  - intros r s1. apply logged_set.
Qed.
End Program.

(** ** The theorem *)

(** C32: [pg_efuse_by_map_88xx] on an efuse that holds a well-formed log, when
    there is room for the words of the mask: on success the logical map has the bytes of the map that was given wherever
    the mask has the bit, and the old ones elsewhere; on failure the bytes of the
    log are what they were, and on reliable hardware the reason is the room
    counted by [check_efuse_enough_88xx]. *)
Theorem efuse_program_updates_map {H} `{!EfuseHw H} c (cells : H → list Z) `{!EfuseLaws c cells} s bs map_pg mask :
  cfg_ok c → holds c cells s bs → idle s →
  Z.of_nat (length map_pg) = c.(eeprom_size) → c.(eeprom_size) mod 16 = 0 → Z.of_nat (length mask) = c.(eeprom_size) / 16 → bytes mask →
  Z.of_nat (length (enc_log bs)) + need prog_sel mask (offsets c) < efuse_avail c →
  wp (pg_efuse_by_map_88xx c map_pg mask) s (λ r s',
    logged c cells bs (cells s.(hw)) (programmed map_pg mask (log_value c bs)) (need check_sel mask (offsets c)) r s' ∧ after r s').
Proof. intros. by apply pg_by_map_spec. Qed.
Lemma efuse_program_updates_map_witness :
  wp (pg_efuse_by_map_88xx otp_cfg (map Z.of_nat (seq 100 32)) [0xF1; 0x10]) (demo_adapter (enc_log demo_log)) (λ r s',
    r = Ok tt ∧ ∃ bs', holds otp_cfg otp_cells s' bs' ∧
      log_value otp_cfg bs' = [100; 101; 102; 103; 104; 105; 106; 107; 108; 109] ++ replicate 6 0xFF ++ [116; 117] ++ replicate 14 0xFF).
Proof.
  eapply wp_mono; [apply (efuse_program_updates_map otp_cfg otp_cells _ demo_log);
    [apply otp_cfg_ok|exact demo_holds|done|done|done|done|by repeat constructor|reflexivity]|].
  intros r s' [Hl _]. destruct r as [[]|e].
  - split; [done|]. destruct Hl as (bs' & Hh & Hv). exists (demo_log ++ bs'). split; [done|]. rewrite Hv. reflexivity.
  - destruct Hl as [_ Hl]. destruct (Hl otp_reliable) as (_ & Hn & _). exfalso. revert Hn. vm_compute. congruence.
Defined.

(** ** Behaviour outside the theorems *)
Definition run_efuse {A} (m : M (list Z) A) (s : adapter (list Z)) : cres (res A * (list Z * Z)) :=
  let* (r, s) := m s in Ret (r, (s.(hw), s.(efuse_end))).
(** [check_efuse_enough_88xx] picks the half of a mask byte by [eeprom_offset & 7],
    which is 0 for every block: a mask with only the odd block of a pair counts as
    nothing.  With 5 bytes left, 9 are burnt, over the protected area, and the map
    can no longer be read. *)
Definition full_log : list block := replicate 17 (word_block 2 0xAB 0xCD).
Example room_miscounted :
  let m := (_ ← pg_efuse_by_map_88xx otp_cfg (replicate 32 1) [0x0F; 0x00]; read_logical_efuse_88xx otp_cfg 8)%E in
  (efuse_avail otp_cfg, Z.of_nat (length (enc_log full_log)), need prog_sel [0x0F; 0x00] (offsets otp_cfg),
   need check_sel [0x0F; 0x00] (offsets otp_cfg)) = (56, 51, 9, 0) ∧
  run_efuse m (demo_adapter (enc_log full_log)) =
    Ret (Fail HALMAC_RET_EEPROM_PARSING_FAIL, (enc_log full_log ++ [0x10; 1; 1; 1; 1; 1; 1; 1; 1] ++ replicate 4 0xFF, 60)).
Proof. vm_compute. done. Qed.
(** An extended header of which only the first byte was burnt ends the log at its
    second byte: the next block is read as the rest of that header, and the value
    written is not the value read. *)
Example interrupted_header :
  let m := (_ ← write_log_efuse_88xx otp_cfg 0x10 0x42; read_logical_efuse_88xx otp_cfg 0x10)%E in
  (let* (r, _) := run_efuse m (demo_adapter [0x0F]) in Ret r) = Ret (Fail HALMAC_RET_EEPROM_PARSING_FAIL).
Proof. vm_compute. done. Qed.
(** A failed access leaves the state busy: the reads that follow are refused. *)
Example failure_blocks :
  (let* (r, s) := write_log_efuse_88xx otp_cfg 4 7 (demo_adapter (enc_log (full_log ++ [word_block 2 0xAB 0xCD]))) in
   let* (r', _) := read_logical_efuse_88xx otp_cfg 4 s in Ret (r, r')) =
  Ret (Fail HALMAC_RET_EFUSE_NOT_ENOUGH, Fail HALMAC_RET_ERROR_STATE).
Proof. vm_compute. done. Qed.
