(* ===== verification/CmdQueue.v ===== *)
(** * The command queue and its thread: [core/rtw_cmd_queue.c],
    [core/rtw_cmd_thread.c], [core/rtw_cmd_priv.c], [core/rtw_xmit_sctx_rest.c]

    Any thread of the driver submits commands ([rtw_enqueue_cmd]) and may wait for
    one with a [submit_ctx] on its stack; the command thread takes them off the
    queue, runs their handlers and frees them.  The model is a transition system: a
    step is a piece of code between two accesses to shared data, a critical section
    being one step; a command is named by a number, and so is the stack frame of
    the call that submitted it.  An access to a command, a frame or a parameter
    buffer that is no longer there is [Oob]. *)
From S2P Require Import Prelude.
From stdpp Require Import gmap list sets.
Local Open Scope Z_scope.

(** ** Data *)
Definition MAX_CMDSZ : Z := 1536.
Definition H2C_SUCCESS : Z := 0.
Definition H2C_DROPPED : Z := 3.
Definition H2C_PARAMETERS_ERROR : Z := 4.
Definition H2C_ENQ_HEAD : Z := 8.
Definition CMD_DISCONNECT : Z := 1.
Definition CMD_SET_DRV_EXTRA : Z := 12.
Definition CMD_SET_CHANPLAN : Z := 13.
Definition CMD_SET_CHANSWITCH : Z := 15.
Definition CMD_ID_MAX : Z := 25.
Definition RTW_SCTX_SUBMITTED : Z := -1.
Definition RTW_SCTX_DONE_SUCCESS : Z := 0.
Definition RTW_SCTX_DONE_CMD_ERROR : Z := 11.
Definition RTW_SCTX_DONE_CMD_DROP : Z := 12.

(** [c_extra]: the parameters own a buffer ([pbuf] with a positive [size]). *)
Record cmd_obj := { cmdcode : Z; c_res : Z; cmdsz : Z; c_sctx : option nat; no_io : bool; c_extra : bool }.
Definition set_res r o := Build_cmd_obj o.(cmdcode) r o.(cmdsz) o.(c_sctx) o.(no_io) o.(c_extra).
Definition set_sctx s o := Build_cmd_obj o.(cmdcode) o.(c_res) o.(cmdsz) s o.(no_io) o.(c_extra).
Definition has_extra (o : cmd_obj) : bool := (o.(cmdcode) =? CMD_SET_DRV_EXTRA) && o.(c_extra).

Record cmd_priv := {
  cmd_queue : list nat; cmd_queue_sema : nat;
  cmd_seq : Z; cmd_issued_cnt : Z; cmdthd_running : bool
}.
Definition _rtw_init_cmd_priv : cmd_priv :=
  {| cmd_queue := []; cmd_queue_sema := 0; cmd_seq := 1; cmd_issued_cnt := 0; cmdthd_running := false |}.
Definition set_queue q c := Build_cmd_priv q c.(cmd_queue_sema) c.(cmd_seq) c.(cmd_issued_cnt) c.(cmdthd_running).
Definition set_sema n c := Build_cmd_priv c.(cmd_queue) n c.(cmd_seq) c.(cmd_issued_cnt) c.(cmdthd_running).
Definition bump_seq c := Build_cmd_priv c.(cmd_queue) c.(cmd_queue_sema) (u8 (c.(cmd_seq) + 1)) c.(cmd_issued_cnt) c.(cmdthd_running).
Definition bump_issued c := Build_cmd_priv c.(cmd_queue) c.(cmd_queue_sema) c.(cmd_seq) (u32 (c.(cmd_issued_cnt) + 1)) c.(cmdthd_running).
Definition set_running b c := Build_cmd_priv c.(cmd_queue) c.(cmd_queue_sema) c.(cmd_seq) c.(cmd_issued_cnt) b.

(** Where the command thread is: before the wait for the semaphore, at the two
    checks behind it, in [rtw_rust_cmd_thread_once] (the check, the dequeue, the
    checks of a command, its handler, its waiter, its end) and in
    [rtw_rust_cmd_thread_stop]. *)
Inductive thread_pc :=
  | T_Start | T_Wait | T_ChkRun | T_ChkQueue
  | T_Once | T_Dequeue | T_Run (p : nat) | T_Exec (p : nat) | T_Post (p : nat) | T_Free (p : nat)
  | T_Stop | T_Drain | T_Drop (p : nat) | T_DropFree (p : nat) | T_Exited.
(** Where the call that submits a command is: in [rtw_cmd_filter], before the
    insertion, before the semaphore, in [rtw_sctx_wait], before the critical section
    behind it, returned. *)
Inductive prod_pc := P_Filter | P_Insert | P_Up | P_Wait | P_Mutex | P_Ret (ok : bool).
#[global] Instance thread_pc_eq : EqDecision thread_pc.
Proof. solve_decision. Defined.
#[global] Instance prod_pc_eq : EqDecision prod_pc.
Proof. solve_decision. Defined.

(** The memory: commands, frames of waiting callers with the status of their
    [submit_ctx], parameter buffers. *)
Record heap := { objs : gmap nat cmd_obj; sctxs : gmap nat Z; pbufs : gset nat }.
(** What happened so far: commands in the order of insertion, those the thread is
    done with, the handlers that ran with their results. *)
Record history := { inserted : list nat; finished : list nat; executed : list (nat * Z) }.
(** [lps_wait]: the thread has put a command back and waits for the device to wake
    up, which [cpwm_int_hdl] reports. *)
Record world := {
  cp : cmd_priv; hp : heap; hist : history; thr : thread_pc; prods : gmap nat prod_pc;
  cannot_run : bool; hw_init_completed : bool; csa_ch : Z; lps_wait : bool
}.
Definition upd_cp f w := Build_world (f w.(cp)) w.(hp) w.(hist) w.(thr) w.(prods) w.(cannot_run) w.(hw_init_completed) w.(csa_ch) w.(lps_wait).
Definition upd_hp f w := Build_world w.(cp) (f w.(hp)) w.(hist) w.(thr) w.(prods) w.(cannot_run) w.(hw_init_completed) w.(csa_ch) w.(lps_wait).
Definition upd_hist f w := Build_world w.(cp) w.(hp) (f w.(hist)) w.(thr) w.(prods) w.(cannot_run) w.(hw_init_completed) w.(csa_ch) w.(lps_wait).
Definition at_thr t w := Build_world w.(cp) w.(hp) w.(hist) t w.(prods) w.(cannot_run) w.(hw_init_completed) w.(csa_ch) w.(lps_wait).
Definition at_prod p pc w := Build_world w.(cp) w.(hp) w.(hist) w.(thr) (<[p := pc]> w.(prods)) w.(cannot_run) w.(hw_init_completed) w.(csa_ch) w.(lps_wait).
Definition set_env c h w := Build_world w.(cp) w.(hp) w.(hist) w.(thr) w.(prods) c h w.(csa_ch) w.(lps_wait).
Definition set_csa n w := Build_world w.(cp) w.(hp) w.(hist) w.(thr) w.(prods) w.(cannot_run) w.(hw_init_completed) n w.(lps_wait).
Definition set_lps b w := Build_world w.(cp) w.(hp) w.(hist) w.(thr) w.(prods) w.(cannot_run) w.(hw_init_completed) w.(csa_ch) b.

Definition set_objs x h := Build_heap x h.(sctxs) h.(pbufs).
Definition set_sctxs x h := Build_heap h.(objs) x h.(pbufs).
Definition set_pbufs x h := Build_heap h.(objs) h.(sctxs) x.
Definition log_insert p h := Build_history (h.(inserted) ++ [p]) h.(finished) h.(executed).
Definition log_finish p h := Build_history h.(inserted) (h.(finished) ++ [p]) h.(executed).
Definition log_exec p r h := Build_history h.(inserted) h.(finished) (h.(executed) ++ [(p, r)]).

(** ** Memory *)
Definition deref (p : nat) (w : world) : cres cmd_obj := match w.(hp).(objs) !! p with Some o => Ret o | None => Oob end.
Definition write_obj (p : nat) (o : cmd_obj) (w : world) : world := upd_hp (λ h, set_objs (<[p := o]> h.(objs)) h) w.
Definition rtw_free_cmd_obj (p : nat) (w : world) : cres world :=
  let* _ := deref p w in Ret (upd_hp (λ h, set_objs (delete p h.(objs)) h) w).
(** The buffer of the parameters of [CMD_SET_DRV_EXTRA]. *)
Definition free_extra (p : nat) (o : cmd_obj) (w : world) : cres world :=
  if has_extra o then
    if decide (p ∈ w.(hp).(pbufs)) then Ret (upd_hp (λ h, set_pbufs (h.(pbufs) ∖ {[p]}) h) w) else Oob
  else Ret w.
(** [rtw_sctx_done_err (&pcmd->sctx, status)]. *)
Definition rtw_sctx_done_err (p : nat) (status : Z) (w : world) : cres world :=
  let* o := deref p w in
  match o.(c_sctx) with
  | None => Ret w
  | Some q =>
      match w.(hp).(sctxs) !! q with
      | None => Oob
      | Some _ => Ret (write_obj p (set_sctx None o) (upd_hp (λ h, set_sctxs (<[q := status]> h.(sctxs)) h) w))
      end
  end.

(** ** The queue *)

(** [rtw_cmd_filter]; true is [_SUCCESS]. *)
Definition rtw_cmd_filter (w : world) (o : cmd_obj) : bool :=
  let bAllow := (o.(cmdcode) =? CMD_SET_CHANPLAN) || o.(no_io) in
  negb ((negb w.(hw_init_completed) && negb bAllow) || negb w.(cp).(cmdthd_running)).
Definition _rtw_enqueue_cmd (p : nat) (to_head : bool) (w : world) : world :=
  upd_cp (λ c, set_queue (if to_head then p :: c.(cmd_queue) else c.(cmd_queue) ++ [p]) c) w.
Definition _rtw_dequeue_cmd (w : world) : option nat * world :=
  match w.(cp).(cmd_queue) with
  | [] => (None, w)
  | p :: q => (Some p, upd_cp (set_queue q) w)
  end.
Definition up_sema (w : world) : world := upd_cp (λ c, set_sema (S c.(cmd_queue_sema)) c) w.

(** ** A call that submits a command

    [rtw_enqueue_cmd] and, when the caller waits, what follows it in the callers of
    [rtw_cmd.c]: [rtw_sctx_wait] and the critical section that takes the frame off
    the command unless it is done.  The frame dies with the return.  [timeout]: the
    wait ends without a completion. *)
Definition return_ (p : nat) (ok : bool) (w : world) : world :=
  at_prod p (P_Ret ok) (upd_hp (λ h, set_sctxs (delete p h.(sctxs)) h) w).
Definition rtw_enqueue_cmd (p : nat) (w : world) : option (cres world) :=
  match w.(prods) !! p with
  | Some P_Filter => Some (
      let* o := deref p w in
      if negb (rtw_cmd_filter w o) || (MAX_CMDSZ <? o.(cmdsz)) then
        let* w := free_extra p o w in
        let* w := rtw_free_cmd_obj p w in
        Ret (return_ p false w)
      else Ret (at_prod p P_Insert w))
  | Some P_Insert => Some (Ret (at_prod p P_Up (upd_hist (log_insert p) (_rtw_enqueue_cmd p false w))))
  | Some P_Up => Some (Ret (
      let w := up_sema w in
      if decide (is_Some (w.(hp).(sctxs) !! p)) then at_prod p P_Wait w else return_ p true w))
  | _ => None
  end.
Definition rtw_sctx_wait (timeout : bool) (p : nat) (w : world) : option (cres world) :=
  match w.(hp).(sctxs) !! p with
  | None => Some Oob
  | Some status =>
      if timeout || negb (status =? RTW_SCTX_SUBMITTED) then Some (Ret (at_prod p P_Mutex w)) else None
  end.
(** The critical section behind the wait. *)
Definition sctx_release (p : nat) (w : world) : cres world :=
  match w.(hp).(sctxs) !! p with
  | None => Oob
  | Some status =>
      if status =? RTW_SCTX_SUBMITTED then
        let* o := deref p w in Ret (return_ p true (write_obj p (set_sctx None o) w))
      else Ret (return_ p true w)
  end.
Definition producer_step (timeout : bool) (p : nat) (w : world) : option (cres world) :=
  match w.(prods) !! p with
  | Some (P_Filter | P_Insert | P_Up) => rtw_enqueue_cmd p w
  | Some P_Wait => rtw_sctx_wait timeout p w
  | Some P_Mutex => Some (sctx_release p w)
  | Some (P_Ret _) | None => None
  end.

(** ** The command thread

    What the surroundings decide: whether the wait for the semaphore is
    interrupted, whether the device is awake ([rtw_register_cmd_alive]), and the
    result of the handler. *)
Record oracle := { o_intr : bool; o_alive : bool; o_res : Z }.
(** The end of a command: its callback, or [rtw_free_cmd_obj].  The callbacks of
    [wlancmds] free the command, except that [rtw_disassoc_cmd_callback] returns
    before that when the handler failed. *)
Definition cmd_callback (p : nat) (o : cmd_obj) (w : world) : cres world :=
  if (o.(cmdcode) =? CMD_DISCONNECT) && negb (o.(c_res) =? H2C_SUCCESS) then Ret w else rtw_free_cmd_obj p w.
Definition rtw_rust_cmd_thread_start (w : world) : world := at_thr T_Wait (upd_cp (set_running true) w).
Definition rtw_rust_cmd_thread_wait_event (x : oracle) (w : world) : option (cres world) :=
  match w.(thr) with
  | T_Wait =>
      if x.(o_intr) then Some (Ret (at_thr T_Stop w))
      else match w.(cp).(cmd_queue_sema) with
           | O => None
           | S n => Some (Ret (at_thr T_ChkRun (upd_cp (set_sema n) w)))
           end
  | T_ChkRun => Some (Ret (at_thr (if w.(cannot_run) then T_Stop else T_ChkQueue) w))
  | T_ChkQueue => Some (Ret (at_thr (match w.(cp).(cmd_queue) with [] => T_Wait | _ => T_Once end) w))
  | _ => None
  end.
Definition rtw_rust_cmd_thread_once (x : oracle) (w : world) : option (cres world) :=
  match w.(thr) with
  | T_Once => Some (Ret (at_thr (if w.(cannot_run) then T_Stop else T_Dequeue) w))
  | T_Dequeue => Some (Ret (
      match _rtw_dequeue_cmd w with
      | (None, w) => at_thr T_Wait (set_lps false w)
      | (Some p, w) => at_thr (T_Run p) (upd_cp bump_issued w)
      end))
  | T_Run p => Some (
      let* o := deref p w in
      if (MAX_CMDSZ <? o.(cmdsz)) || (CMD_ID_MAX <=? o.(cmdcode)) then
        Ret (at_thr (T_Post p) (write_obj p (set_res H2C_PARAMETERS_ERROR o) w))
      else if negb (rtw_cmd_filter w o) then
        let w := write_obj p (set_res H2C_DROPPED o) w in
        let* w := free_extra p o w in
        let w := if o.(cmdcode) =? CMD_SET_CHANSWITCH then set_csa 0 w else w in
        Ret (at_thr (T_Post p) w)
      else if o.(no_io) || x.(o_alive) then Ret (at_thr (T_Exec p) w)
      else Ret (at_thr T_Wait (set_lps true (_rtw_enqueue_cmd p true (write_obj p (set_res H2C_ENQ_HEAD o) w)))))
  | T_Exec p => Some (
      let* o := deref p w in
      let* w := free_extra p o w in          (* by the handler of CMD_SET_DRV_EXTRA *)
      Ret (at_thr (T_Post p) (upd_cp bump_seq (upd_hist (log_exec p x.(o_res)) (write_obj p (set_res x.(o_res) o) w)))))
  | T_Post p => Some (
      let* o := deref p w in
      let* w := rtw_sctx_done_err p (if o.(c_res) =? H2C_SUCCESS then RTW_SCTX_DONE_SUCCESS else RTW_SCTX_DONE_CMD_ERROR) w in
      Ret (at_thr (T_Free p) w))
  | T_Free p => Some (
      let* o := deref p w in
      let* w := cmd_callback p o w in
      Ret (at_thr T_Once (upd_hist (log_finish p) w)))
  | _ => None
  end.
Definition rtw_rust_cmd_thread_stop (w : world) : option (cres world) :=
  match w.(thr) with
  | T_Stop => Some (Ret (at_thr T_Drain (upd_cp (set_running false) w)))
  | T_Drain => Some (Ret (
      match _rtw_dequeue_cmd w with
      | (None, w) => at_thr T_Exited w
      | (Some p, w) => at_thr (T_Drop p) w
      end))
  | T_Drop p => Some (
      let* o := deref p w in
      let* w := free_extra p o w in
      let w := if o.(cmdcode) =? CMD_SET_CHANSWITCH then set_csa 0 w else w in
      let* w := rtw_sctx_done_err p RTW_SCTX_DONE_CMD_DROP w in
      Ret (at_thr (T_DropFree p) w))
  | T_DropFree p => Some (let* w := rtw_free_cmd_obj p w in Ret (at_thr T_Drain (upd_hist (log_finish p) w)))
  | _ => None
  end.
(** [rtw_cmd_thread]: the loops are in the positions. *)
Definition rtw_cmd_thread (x : oracle) (w : world) : option (cres world) :=
  match w.(thr) with
  | T_Start => Some (Ret (rtw_rust_cmd_thread_start w))
  | T_Wait | T_ChkRun | T_ChkQueue => rtw_rust_cmd_thread_wait_event x w
  | T_Once | T_Dequeue | T_Run _ | T_Exec _ | T_Post _ | T_Free _ => rtw_rust_cmd_thread_once x w
  | T_Stop | T_Drain | T_Drop _ | T_DropFree _ => rtw_rust_cmd_thread_stop w
  | T_Exited => None
  end.
Ltac unfold_thread :=
  unfold rtw_cmd_thread, rtw_rust_cmd_thread_start, rtw_rust_cmd_thread_wait_event, rtw_rust_cmd_thread_once, rtw_rust_cmd_thread_stop in *.
Ltac unfold_caller := unfold producer_step, rtw_enqueue_cmd, rtw_sctx_wait, sctx_release in *.

(** ** The transition system *)

(** A new call: the command and, when the caller waits, its frame. *)
Definition submit (p : nat) (code size : Z) (io extra wait : bool) (w : world) : world :=
  at_prod p P_Filter (upd_hp (λ h,
    {| objs := <[p := Build_cmd_obj code 0 size (if wait then Some p else None) (negb io) extra]> h.(objs);
       sctxs := if wait then <[p := RTW_SCTX_SUBMITTED]> h.(sctxs) else h.(sctxs);
       pbufs := if extra then {[p]} ∪ h.(pbufs) else h.(pbufs) |}) w).
Inductive cmd_step (w : world) : cres world → Prop :=
  | step_submit p code size io extra wait :
      w.(prods) !! p = None → 0 ≤ code → cmd_step w (Ret (submit p code size io extra wait w))
  | step_producer timeout p r : producer_step timeout p w = Some r → cmd_step w r
  | step_thread x r : rtw_cmd_thread x w = Some r → cmd_step w r
  | step_env c h : cmd_step w (Ret (set_env c h w))
  | step_stop : cmd_step w (Ret (up_sema w))                                         (* rtw_stop_cmd_thread *)
  | step_cpwm : w.(lps_wait) = true → cmd_step w (Ret (up_sema (set_lps false w)))   (* cpwm_int_hdl *)
  | step_start : w.(thr) = T_Exited → cmd_step w (Ret (at_thr T_Start w)).           (* rtw_start_drv_threads *)
Definition init_world : world := {|
  cp := _rtw_init_cmd_priv; hp := {| objs := ∅; sctxs := ∅; pbufs := ∅ |};
  hist := {| inserted := []; finished := []; executed := [] |};
  thr := T_Exited; prods := ∅; cannot_run := false; hw_init_completed := false; csa_ch := 0; lps_wait := false
|}.
Inductive reachable : world → Prop :=
  | reach_init : reachable init_world
  | reach_step w w' : reachable w → cmd_step w (Ret w') → reachable w'.

(** ** Where a command is *)
Definition hand (t : thread_pc) : list nat :=
  match t with T_Run p | T_Exec p | T_Post p | T_Free p | T_Drop p | T_DropFree p => [p] | _ => [] end.
(** What the thread still does with the command in its hand: everything, completing
    its waiter, freeing it. *)
Inductive stage := Whole | Waiter | Last.
Definition stage_of (t : thread_pc) : stage :=
  match t with T_Post _ => Waiter | T_Free _ | T_DropFree _ => Last | _ => Whole end.
Inductive place := Outside | Queued | Held (s : stage) | Finished.
Definition place_of (w : world) (p : nat) : place :=
  if decide (p ∈ w.(cp).(cmd_queue)) then Queued
  else if decide (p ∈ hand w.(thr)) then Held (stage_of w.(thr))
  else if decide (p ∈ w.(hist).(finished)) then Finished else Outside.
(** What is kept about one command. *)
Record view := {
  v_pc : option prod_pc; v_obj : option cmd_obj; v_sctx : option Z; v_pbuf : bool; v_done : bool; v_place : place
}.
Definition view_of (w : world) (p : nat) : view := {|
  v_pc := w.(prods) !! p; v_obj := w.(hp).(objs) !! p; v_sctx := w.(hp).(sctxs) !! p;
  v_pbuf := bool_decide (p ∈ w.(hp).(pbufs)); v_done := bool_decide ((p, H2C_SUCCESS) ∈ w.(hist).(executed));
  v_place := place_of w p
|}.

(** The pointer of a command and the frame it points to. *)
Definition linked (p : nat) (o : cmd_obj) (s : option Z) : Prop :=
  (o.(c_sctx) = Some p ∧ s = Some RTW_SCTX_SUBMITTED) ∨ (o.(c_sctx) = None ∧ s ≠ Some RTW_SCTX_SUBMITTED).
Definition inserted_pc (pc : option prod_pc) : bool :=
  match pc with Some (P_Up | P_Wait | P_Mutex | P_Ret true) => true | _ => false end.
Definition waits (pc : option prod_pc) (s : option Z) : Prop :=
  match pc with
  | Some (P_Wait | P_Mutex) => is_Some s
  | Some (P_Ret _) | None => s = None
  | _ => True
  end.
Record view_ok (p : nat) (v : view) : Prop := {
  vo_place : match v.(v_place) with
             | Outside => inserted_pc v.(v_pc) = false
             | _ => inserted_pc v.(v_pc) = true
             end;
  vo_obj : match v.(v_place) with
           | Outside => is_Some v.(v_obj) ↔ v.(v_pc) = Some P_Filter ∨ v.(v_pc) = Some P_Insert
           | Queued | Held _ => is_Some v.(v_obj)
           | Finished => ∀ o, v.(v_obj) = Some o → o.(cmdcode) = CMD_DISCONNECT ∧ o.(c_res) ≠ H2C_SUCCESS ∧ o.(c_sctx) = None
           end;
  vo_link : match v.(v_place) with
            | Finished => v.(v_sctx) ≠ Some RTW_SCTX_SUBMITTED
            | Held Last => v.(v_sctx) ≠ Some RTW_SCTX_SUBMITTED ∧ ∀ o, v.(v_obj) = Some o → o.(c_sctx) = None
            | _ => ∀ o, v.(v_obj) = Some o → linked p o v.(v_sctx)
            end;
  vo_waits : waits v.(v_pc) v.(v_sctx);
  vo_pbuf : match v.(v_place) with
            | Outside | Queued | Held Whole => ∀ o, v.(v_obj) = Some o → has_extra o = true → v.(v_pbuf) = true
            | _ => True
            end;
  vo_done : v.(v_sctx) = Some RTW_SCTX_DONE_SUCCESS → v.(v_done) = true;
  vo_res : match v.(v_place) with
           | Held Waiter => ∀ o, v.(v_obj) = Some o → o.(c_res) = H2C_SUCCESS → v.(v_done) = true
           | _ => True
           end
}.
Record inv (w : world) : Prop := {
  in_fifo : w.(hist).(inserted) = w.(hist).(finished) ++ hand w.(thr) ++ w.(cp).(cmd_queue);
  in_nodup : NoDup w.(hist).(inserted);
  in_view : ∀ p, view_ok p (view_of w p)
}.

(** *** Places *)
Section Places.
Context (w : world) (Hf : w.(hist).(inserted) = w.(hist).(finished) ++ hand w.(thr) ++ w.(cp).(cmd_queue)) (Hn : NoDup w.(hist).(inserted)).
Lemma place_queued p : p ∈ w.(cp).(cmd_queue) → place_of w p = Queued.
Proof using. intros Hp. unfold place_of. by rewrite decide_True. Qed.
Lemma place_held p : p ∈ hand w.(thr) → place_of w p = Held (stage_of w.(thr)).
Proof using Hf Hn.
  intros Hp. unfold place_of. rewrite decide_False, decide_True; [done|done|]. rewrite Hf in Hn.
  apply NoDup_app in Hn as (_ & _ & Hn'). apply NoDup_app in Hn' as (_ & Hd & _). by apply Hd.
Qed.
Lemma place_finished p : p ∈ w.(hist).(finished) → place_of w p = Finished.
Proof using Hf Hn.
  intros Hp. rewrite Hf in Hn. apply NoDup_app in Hn as (_ & Hd & _). specialize (Hd p Hp). rewrite elem_of_app in Hd.
  unfold place_of. rewrite !decide_False, decide_True by tauto. done.
Qed.
Lemma place_outside p : p ∉ w.(hist).(inserted) → place_of w p = Outside.
Proof using Hf. rewrite Hf, !elem_of_app. intros Hp. unfold place_of. by rewrite !decide_False by tauto. Qed.
Lemma outside_not_inserted p : place_of w p = Outside → p ∉ w.(hist).(inserted).
Proof using Hf. rewrite Hf, !elem_of_app. unfold place_of. repeat case_decide; naive_solver. Qed.
End Places.
Lemma place_frame w w' q :
  (q ∈ w'.(cp).(cmd_queue) ↔ q ∈ w.(cp).(cmd_queue)) → (q ∈ hand w'.(thr) ↔ q ∈ hand w.(thr)) →
  (q ∈ hand w.(thr) → stage_of w'.(thr) = stage_of w.(thr)) → (q ∈ w'.(hist).(finished) ↔ q ∈ w.(hist).(finished)) →
  place_of w' q = place_of w q.
Proof. intros H1 H2 H3 H4. unfold place_of. repeat case_decide; try tauto. by rewrite H3. Qed.
(** The commands a step does not concern. *)
Record framed (w w' : world) (q : nat) : Prop := {
  fr_pc : w'.(prods) !! q = w.(prods) !! q;
  fr_obj : w'.(hp).(objs) !! q = w.(hp).(objs) !! q;
  fr_sctx : w'.(hp).(sctxs) !! q = w.(hp).(sctxs) !! q;
  fr_pbuf : q ∈ w'.(hp).(pbufs) ↔ q ∈ w.(hp).(pbufs);
  fr_done : (q, H2C_SUCCESS) ∈ w'.(hist).(executed) ↔ (q, H2C_SUCCESS) ∈ w.(hist).(executed);
  fr_queue : q ∈ w'.(cp).(cmd_queue) ↔ q ∈ w.(cp).(cmd_queue);
  fr_hand : q ∈ hand w'.(thr) ↔ q ∈ hand w.(thr);
  fr_stage : q ∈ hand w.(thr) → stage_of w'.(thr) = stage_of w.(thr);
  fr_fin : q ∈ w'.(hist).(finished) ↔ q ∈ w.(hist).(finished)
}.
Lemma framed_view w w' q : framed w w' q → view_of w' q = view_of w q.
Proof.
  intros []. unfold view_of. f_equal; try done; [by apply bool_decide_ext..|by apply place_frame].
Qed.
Lemma inv_frame w w' p : inv w →
  w'.(hist).(inserted) = w'.(hist).(finished) ++ hand w'.(thr) ++ w'.(cp).(cmd_queue) → NoDup w'.(hist).(inserted) →
  (∀ q, q ≠ p → framed w w' q) → view_ok p (view_of w' p) → inv w'.
Proof.
  intros [_ _ Hv] Hf Hn Hq Hp. constructor; [done|done|]. intros q. destruct (decide (q = p)) as [->|Hne]; [done|].
  by rewrite (framed_view w w' q) by auto.
Qed.
(** A step that concerns no command. *)
Lemma inv_quiet w w' : inv w → w'.(hist) = w.(hist) → w'.(hp) = w.(hp) → w'.(prods) = w.(prods) →
  w'.(cp).(cmd_queue) = w.(cp).(cmd_queue) → hand w'.(thr) = [] → hand w.(thr) = [] → inv w'.
Proof.
  intros [Hf Hn Hv] E1 E2 E3 E4 E5 E6. constructor.
  - by rewrite E1, E4, E5, Hf, E6.
  - by rewrite E1.
  - intros q. rewrite (framed_view w w' q); [done|]. constructor; rewrite ?E1, ?E2, ?E3, ?E4, ?E5, ?E6; try done.
    by intros ?%elem_of_nil.
Qed.
Ltac frame_tac :=
  constructor; cbn; rewrite ?lookup_insert_ne, ?lookup_delete_ne, ?elem_of_app, ?elem_of_cons, ?elem_of_nil by done; try done; set_solver.
(** The same for a step of the thread at [Et]. *)
Ltac frame_thr Et :=
  constructor; cbn; rewrite ?Et; cbn;
  rewrite ?lookup_insert_ne, ?lookup_delete_ne, ?elem_of_difference, ?elem_of_singleton, ?elem_of_app, ?elem_of_cons, ?elem_of_nil by done;
  try done; naive_solver.

(** *** Steps of a caller *)
Lemma pc_outside w p : inv w → inserted_pc (w.(prods) !! p) = false → place_of w p = Outside.
Proof.
  intros [_ _ Hv] Hpc. pose proof (vo_place _ _ (Hv p)) as H. cbn in H. destruct (place_of w p); congruence.
Qed.
(** The view of the command a step is about, with its place. *)
Lemma view_at w p pl : place_of w p = pl → inv w → view_ok p {|
  v_pc := w.(prods) !! p; v_obj := w.(hp).(objs) !! p; v_sctx := w.(hp).(sctxs) !! p;
  v_pbuf := bool_decide (p ∈ w.(hp).(pbufs)); v_done := bool_decide ((p, H2C_SUCCESS) ∈ w.(hist).(executed)); v_place := pl |}.
Proof. intros <- [_ _ Hv]. apply Hv. Qed.
Lemma view_ok_at w p pl : place_of w p = pl → view_ok p {|
  v_pc := w.(prods) !! p; v_obj := w.(hp).(objs) !! p; v_sctx := w.(hp).(sctxs) !! p;
  v_pbuf := bool_decide (p ∈ w.(hp).(pbufs)); v_done := bool_decide ((p, H2C_SUCCESS) ∈ w.(hist).(executed)); v_place := pl |} →
  view_ok p (view_of w p).
Proof. by intros <-. Qed.
Ltac view_tac pl := apply (view_ok_at _ _ pl); [|constructor; cbn; rewrite ?lookup_insert_eq, ?lookup_delete_eq].

Lemma submit_inv w p code size io extra wait : inv w → w.(prods) !! p = None → inv (submit p code size io extra wait w).
Proof.
  intros Hi Hp. assert (place_of w p = Outside) as Hpl by (apply pc_outside; [done|by rewrite Hp]).
  pose proof (view_at w p _ Hpl Hi) as [_ Vo _ Vw _ Vd _]. cbn in *. rewrite Hp in *. cbn in *.
  apply (inv_frame w _ p); [done|apply Hi|apply Hi| |].
  - intros q Hq. destruct wait, extra; frame_tac.
  - view_tac Outside; try done.
    + split; [eauto|by eexists].
    + intros o [= <-]. unfold linked. destruct wait; cbn; [rewrite lookup_insert_eq; by left|]. right. by rewrite Vw.
    + intros o [= <-]. unfold has_extra. cbn. destruct extra; [|by rewrite andb_false_r]. intros _. apply bool_decide_true. set_solver.
    + destruct wait; [by rewrite lookup_insert_eq|]. by rewrite Vw.
Qed.
Lemma deref_some w p o : w.(hp).(objs) !! p = Some o → deref p w = Ret o.
Proof. unfold deref. by intros ->. Qed.
(** Freeing the buffer, when it is there. *)
Definition drop_pbuf (b : bool) (p : nat) (w : world) : world :=
  upd_hp (λ h, set_pbufs (if b then h.(pbufs) ∖ {[p]} else h.(pbufs)) h) w.
Lemma free_extra_ok w p o : (has_extra o = true → bool_decide (p ∈ w.(hp).(pbufs)) = true) →
  free_extra p o w = Ret (drop_pbuf (has_extra o) p w).
Proof.
  intros H. unfold free_extra, drop_pbuf. destruct (has_extra o); [|by destruct w as [? [] ? ? ? ? ? ? ?]].
  rewrite decide_True; [done|]. exact (proj1 (bool_decide_eq_true _) (H eq_refl)).
Qed.
Lemma free_obj_ok w p o : w.(hp).(objs) !! p = Some o → rtw_free_cmd_obj p w = Ret (upd_hp (λ h, set_objs (delete p h.(objs)) h) w).
Proof. intros H. unfold rtw_free_cmd_obj. by rewrite (deref_some _ _ _ H). Qed.
Lemma filter_inv w p r timeout : inv w → w.(prods) !! p = Some P_Filter → producer_step timeout p w = Some r → ∃ w', r = Ret w' ∧ inv w'.
Proof.
  intros Hi Hp E. assert (place_of w p = Outside) as Hpl by (apply pc_outside; [done|by rewrite Hp]).
  pose proof (view_at w p _ Hpl Hi) as [_ Vo Vl _ Vp Vd _]. unfold_caller. cbn in *. rewrite Hp in *.
  destruct (proj2 Vo) as [o Ho]; [by left|]. rewrite (deref_some _ _ _ Ho) in E. cbn [cbind] in E. injection E as <-.
  destruct (_ || _).
  - rewrite free_extra_ok by (by apply Vp). cbn [cbind]. erewrite free_obj_ok by exact Ho. cbn [cbind]. eexists. split; [done|].
    apply (inv_frame w _ p); [done|apply Hi|apply Hi| |].
    + intros q Hq. destruct (has_extra o); frame_tac.
    + view_tac Outside; try done. split; [by intros [? ?]|by intros [? | ?]].
  - eexists. split; [done|]. apply (inv_frame w _ p); [done|apply Hi|apply Hi| |].
    + intros q Hq. frame_tac.
    + view_tac Outside; try done. split; [by right|done].
Qed.
Lemma insert_inv w p : inv w → w.(prods) !! p = Some P_Insert →
  inv (at_prod p P_Up (upd_hist (log_insert p) (_rtw_enqueue_cmd p false w))).
Proof.
  intros Hi Hp. assert (place_of w p = Outside) as Hpl by (apply pc_outside; [done|by rewrite Hp]).
  pose proof (view_at w p _ Hpl Hi) as [_ Vo Vl _ Vp Vd _]. cbn in *. rewrite Hp in *.
  pose proof (outside_not_inserted w (in_fifo w Hi) p Hpl) as Hni. destruct (proj2 Vo) as [o Ho]; [by right|].
  apply (inv_frame w _ p); [done| | | |].
  - cbn. rewrite (in_fifo w Hi), <- !app_assoc. done.
  - cbn. apply NoDup_app. split; [apply Hi|]. split; [intros x Hx ->%list_elem_of_singleton; done|apply NoDup_singleton].
  - intros q Hq. frame_tac.
  - view_tac Queued; try done. apply place_queued. cbn. set_solver.
Qed.
(** Steps of a caller behind the insertion: only its own position and frame change. *)
Lemma caller_inv w w' p : inv w → w'.(cp).(cmd_queue) = w.(cp).(cmd_queue) → w'.(hist) = w.(hist) → w'.(thr) = w.(thr) →
  w'.(hp).(pbufs) = w.(hp).(pbufs) → (∀ q, q ≠ p → w'.(prods) !! q = w.(prods) !! q ∧
    w'.(hp).(objs) !! q = w.(hp).(objs) !! q ∧ w'.(hp).(sctxs) !! q = w.(hp).(sctxs) !! q) →
  inserted_pc (w.(prods) !! p) = true → inserted_pc (w'.(prods) !! p) = true → waits (w'.(prods) !! p) (w'.(hp).(sctxs) !! p) →
  (w'.(hp).(sctxs) !! p = w.(hp).(sctxs) !! p ∧ w'.(hp).(objs) !! p = w.(hp).(objs) !! p ∨
   w'.(hp).(sctxs) !! p = None ∧ w'.(hp).(objs) !! p = set_sctx None <$> w.(hp).(objs) !! p) → inv w'.
Proof.
  intros Hi E1 E2 E3 E4 Hq Hp Hp' Hw Hob. apply (inv_frame w _ p); [done|by rewrite E1, E2, E3; apply Hi|by rewrite E2; apply Hi| |].
  - intros q Hne. destruct (Hq q Hne) as (Q1 & Q2 & Q3). constructor; rewrite ?E1, ?E2, ?E3, ?E4; done.
  - assert (place_of w' p = place_of w p) as Epl by (unfold place_of; by rewrite E1, E2, E3).
    apply (view_ok_at _ _ (place_of w p) Epl). pose proof (view_at w p _ eq_refl Hi) as [Va Vo Vl Vw Vp Vd Vr]. cbn in *.
    generalize dependent (place_of w p). intros pl _ Va Vo Vl Vp Vr. rewrite E2, E4.
    destruct Hob as [[Es Eo]|[Es Eo]]; rewrite Es, Eo in *.
    + constructor; cbn; try done; (destruct pl; [congruence|done..]).
    + constructor; cbn; try done.
      * by destruct pl; [congruence|..].
      * destruct pl as [| |st|]; [congruence|by rewrite fmap_is_Some..|]. intros o (o' & Eo' & ->)%fmap_Some. by destruct (Vo o' Eo') as (V1 & V2 & _).
      * destruct pl as [| |[]|]; try congruence; try (intros o (o' & Eo' & ->)%fmap_Some; by right).
        split; [done|]. by intros o (o' & Eo' & ->)%fmap_Some.
      * destruct pl as [| |[]|]; try congruence; try done; intros o (o' & Eo' & ->)%fmap_Some; by apply (Vp o' Eo').
      * destruct pl as [| |[]|]; try done. intros o (o' & Eo' & ->)%fmap_Some. by apply (Vr o' Eo').
Qed.
Lemma unlinked w p : inv w → w.(hp).(sctxs) !! p ≠ Some RTW_SCTX_SUBMITTED → set_sctx None <$> w.(hp).(objs) !! p = w.(hp).(objs) !! p.
Proof.
  intros Hi Hs. pose proof (in_view w Hi p) as [Va Vo Vl _ _ _ _]. cbn in *. destruct (w.(hp).(objs) !! p) as [o|] eqn:Ho; [|done]. cbn.
  assert (c_sctx o = None) as E; [|by destruct o; cbn in *; subst].
  destruct (place_of w p) as [| |[]|]; try (destruct (Vl o eq_refl) as [[? ?]|[? ?]]; [done|done]); [by apply Vl|by apply (Vo o)].
Qed.
Lemma producer_inv w timeout p r : inv w → producer_step timeout p w = Some r → ∃ w', r = Ret w' ∧ inv w'.
Proof.
  intros Hi E. destruct (w.(prods) !! p) as [pc|] eqn:Hp; [|by unfold_caller; rewrite Hp in E].
  destruct pc; try by unfold_caller; rewrite Hp in E.
  - by eapply filter_inv.
  - unfold_caller. rewrite Hp in E. injection E as <-. eexists. split; [done|]. by apply insert_inv.
  - unfold_caller. rewrite Hp in E. injection E as <-. eexists. split; [done|]. cbn. case_decide as Hd.
    + apply (caller_inv w _ p); try done; cbn; rewrite ?lookup_insert_eq, ?Hp; try done; [|by left].
      intros q Hq. by rewrite lookup_insert_ne.
    + assert (w.(hp).(sctxs) !! p = None) as Hs by (by apply eq_None_not_Some).
      apply (caller_inv w _ p); try done; cbn; rewrite ?lookup_insert_eq, ?lookup_delete_eq, ?Hp, ?Hs; try done; [|by left].
      intros q Hq. by rewrite lookup_insert_ne, lookup_delete_ne.
  - pose proof (vo_waits _ _ (in_view w Hi p)) as Hw. cbn in Hw. rewrite Hp in Hw. destruct Hw as [st Hs].
    unfold_caller. rewrite Hp, Hs in E. destruct (_ || _); [|done]. injection E as <-. eexists. split; [done|].
    apply (caller_inv w _ p); try done; cbn; rewrite ?lookup_insert_eq, ?Hp; try done; [|by rewrite Hs; eexists|by left].
    intros q Hq. by rewrite lookup_insert_ne.
  - pose proof (in_view w Hi p) as [Va Vo Vl Vw Vp Vd Vr]. cbn in *. rewrite Hp in *. destruct Vw as [st Hs]. rewrite Hs in *.
    unfold_caller. rewrite Hp, Hs in E. injection E as <-. destruct (Z.eqb_spec st RTW_SCTX_SUBMITTED) as [->|Hst].
    + assert (is_Some (w.(hp).(objs) !! p)) as [o Ho].
      { destruct (place_of w p); [done|done|done|]. by destruct (Vl eq_refl). }
      rewrite (deref_some _ _ _ Ho). eexists. split; [done|].
      apply (caller_inv w _ p); try done; cbn; rewrite ?lookup_insert_eq, ?lookup_delete_eq, ?Hp, ?Ho; try done; [|by right].
      intros q Hq. by rewrite !lookup_insert_ne, lookup_delete_ne.
    + eexists. split; [done|].
      apply (caller_inv w _ p); try done; cbn; rewrite ?lookup_insert_eq, ?lookup_delete_eq, ?Hp; try done.
      * intros q Hq. by rewrite lookup_insert_ne, lookup_delete_ne.
      * right. split; [done|]. symmetry. apply unlinked; [done|]. rewrite Hs. congruence.
Qed.

(** *** Steps of the thread *)
Lemma take_inv w w' p q : inv w → w.(cp).(cmd_queue) = p :: q → hand w.(thr) = [] → w'.(cp).(cmd_queue) = q →
  hand w'.(thr) = [p] → stage_of w'.(thr) = Whole → w'.(hist) = w.(hist) → w'.(hp) = w.(hp) → w'.(prods) = w.(prods) → inv w'.
Proof.
  intros Hi Eq Eh Eq' Eh' Es E1 E2 E3. assert (place_of w p = Queued) as Hpl by (apply place_queued; rewrite Eq; by left).
  pose proof (view_at w p _ Hpl Hi) as [Va Vo Vl Vw Vp Vd _]. cbn in *.
  assert (w'.(hist).(inserted) = w'.(hist).(finished) ++ hand w'.(thr) ++ w'.(cp).(cmd_queue)) as Hf'.
  { rewrite E1, Eq', Eh', (in_fifo w Hi), Eh, Eq. done. }
  apply (inv_frame w _ p); [done|done|by rewrite E1; apply Hi| |].
  - intros r Hr. constructor; rewrite ?E1, ?E2, ?E3, ?Eq, ?Eq', ?Eh, ?Eh'; set_solver.
  - apply (view_ok_at _ _ (Held Whole)); [|rewrite E1, E2, E3; by constructor].
    rewrite <- Es. apply place_held; [done|by rewrite E1; apply Hi|]. rewrite Eh'. by left.
Qed.
(** A command that stays in the hand. *)
Lemma held_inv w w' p : inv w → hand w.(thr) = [p] → hand w'.(thr) = [p] → w'.(cp).(cmd_queue) = w.(cp).(cmd_queue) →
  w'.(hist).(inserted) = w.(hist).(inserted) → w'.(hist).(finished) = w.(hist).(finished) → w'.(prods) = w.(prods) →
  (∀ q, q ≠ p → framed w w' q) →
  (inserted_pc (w.(prods) !! p) = true → view_ok p {|
    v_pc := w.(prods) !! p; v_obj := w'.(hp).(objs) !! p; v_sctx := w'.(hp).(sctxs) !! p;
    v_pbuf := bool_decide (p ∈ w'.(hp).(pbufs)); v_done := bool_decide ((p, H2C_SUCCESS) ∈ w'.(hist).(executed));
    v_place := Held (stage_of w'.(thr)) |}) → inv w'.
Proof.
  intros Hi Eh Eh' Eq E1 E2 E3 Hfr Hv.
  assert (place_of w p = Held (stage_of w.(thr))) as Hpl by (apply place_held; [apply Hi|apply Hi|rewrite Eh; by left]).
  pose proof (vo_place _ _ (view_at w p _ Hpl Hi)) as Va. cbn in Va.
  assert (w'.(hist).(inserted) = w'.(hist).(finished) ++ hand w'.(thr) ++ w'.(cp).(cmd_queue)) as Hf'.
  { rewrite E1, E2, Eq, Eh', (in_fifo w Hi), Eh. done. }
  apply (inv_frame w _ p); [done|done|by rewrite E1; apply Hi|done|].
  apply (view_ok_at _ _ (Held (stage_of w'.(thr)))); [|rewrite E3; by apply Hv].
  apply place_held; [done|by rewrite E1; apply Hi|]. rewrite Eh'. by left.
Qed.
Lemma held_obj w p : inv w → hand w.(thr) = [p] → stage_of w.(thr) ≠ Last →
  ∃ o, w.(hp).(objs) !! p = Some o ∧ linked p o (w.(hp).(sctxs) !! p) ∧ waits (w.(prods) !! p) (w.(hp).(sctxs) !! p) ∧
    (stage_of w.(thr) = Whole → has_extra o = true → bool_decide (p ∈ w.(hp).(pbufs)) = true) ∧
    (w.(hp).(sctxs) !! p = Some RTW_SCTX_DONE_SUCCESS → bool_decide ((p, H2C_SUCCESS) ∈ w.(hist).(executed)) = true) ∧
    (stage_of w.(thr) = Waiter → o.(c_res) = H2C_SUCCESS → bool_decide ((p, H2C_SUCCESS) ∈ w.(hist).(executed)) = true).
Proof.
  intros Hi Eh Hs. assert (place_of w p = Held (stage_of w.(thr))) as Hpl by (apply place_held; [apply Hi|apply Hi|rewrite Eh; by left]).
  pose proof (view_at w p _ Hpl Hi) as [Va Vo Vl Vw Vp Vd Vr]. cbn in *. destruct Vo as [o Ho]. exists o.
  destruct (stage_of w.(thr)); [..|done]; (split_and!; [done|by apply Vl|done|intros E|done|intros E]); try discriminate E; [by apply Vp|by apply Vr].
Qed.
Lemma held_pc w p : inv w → hand w.(thr) = [p] → inserted_pc (w.(prods) !! p) = true.
Proof.
  intros Hi Eh. assert (place_of w p = Held (stage_of w.(thr))) as Hpl by (apply place_held; [apply Hi|apply Hi|rewrite Eh; by left]).
  exact (vo_place _ _ (view_at w p _ Hpl Hi)).
Qed.
Lemma run_inv w x p r : inv w → w.(thr) = T_Run p → rtw_cmd_thread x w = Some r → ∃ w', r = Ret w' ∧ inv w'.
Proof.
  intros Hi Et E. unfold_thread. rewrite Et in E. injection E as <-.
  assert (hand w.(thr) = [p]) as Eh by (by rewrite Et). destruct (held_obj w p Hi Eh) as (o & Ho & Hl & Hw & Hx & Hd & _); [by rewrite Et|].
  rewrite Et in Hx. specialize (Hx eq_refl).
  rewrite (deref_some _ _ _ Ho). cbn [cbind]. destruct (_ || _); [|destruct (negb _)]; [..|destruct (_ || _)].
  - eexists. split; [done|]. apply (held_inv w _ p); try done.
    + intros q Hq. frame_thr Et.
    + intros Hpc. cbn. rewrite lookup_insert_eq. constructor; cbn; try done; by intros o' [= <-].
  - rewrite free_extra_ok by done. cbn [cbind]. eexists. split; [done|].
    apply (held_inv w _ p); try done; try (by destruct (_ =? CMD_SET_CHANSWITCH)).
    + intros q Hq. destruct (_ =? CMD_SET_CHANSWITCH), (has_extra o); frame_thr Et.
    + intros Hpc. destruct (_ =? CMD_SET_CHANSWITCH); cbn; rewrite lookup_insert_eq; constructor; cbn; try done; by intros o' [= <-].
  - eexists. split; [done|]. apply (held_inv w _ p); try done.
    + intros q Hq. frame_thr Et.
    + intros Hpc. cbn. rewrite Ho. constructor; cbn; try done; by intros o' [= <-].
  - eexists. split; [done|]. pose proof (in_fifo w Hi) as Hf. rewrite Et in Hf. cbn in Hf. apply (inv_frame w _ p); [done|done|apply Hi| |].
    + intros q Hq. frame_thr Et.
    + view_tac Queued; try done; try by intros o' [= <-].
      * apply place_queued. by left.
      * by apply held_pc.
Qed.
Lemma exec_inv w x p r : inv w → w.(thr) = T_Exec p → rtw_cmd_thread x w = Some r → ∃ w', r = Ret w' ∧ inv w'.
Proof.
  intros Hi Et E. unfold_thread. rewrite Et in E. injection E as <-.
  assert (hand w.(thr) = [p]) as Eh by (by rewrite Et). destruct (held_obj w p Hi Eh) as (o & Ho & Hl & Hw & Hx & Hd & _); [by rewrite Et|].
  rewrite Et in Hx. specialize (Hx eq_refl). rewrite (deref_some _ _ _ Ho). cbn [cbind]. rewrite free_extra_ok by done. cbn [cbind].
  eexists. split; [done|]. apply (held_inv w _ p); try done.
  - intros q Hq. destruct (has_extra o); frame_thr Et.
  - intros Hpc. cbn. rewrite lookup_insert_eq. constructor; cbn; try done; try by intros o' [= <-].
    + intros Hs. apply bool_decide_true, elem_of_app. left. exact (proj1 (bool_decide_eq_true _) (Hd Hs)).
    + intros o' [= <-]. cbn. intros ->. apply bool_decide_true, elem_of_app. right. by left.
Qed.
(** Completing the waiter. *)
Lemma done_err_ok w p o st : w.(hp).(objs) !! p = Some o → linked p o (w.(hp).(sctxs) !! p) →
  rtw_sctx_done_err p st w = Ret (if decide (o.(c_sctx) = None) then w
    else write_obj p (set_sctx None o) (upd_hp (λ h, set_sctxs (<[p := st]> h.(sctxs)) h) w)).
Proof.
  intros Ho Hl. unfold rtw_sctx_done_err. rewrite (deref_some _ _ _ Ho). cbn [cbind].
  destruct Hl as [[-> Hs]|[-> Hs]]; [|done]. by rewrite Hs.
Qed.
Lemma waits_status pc (s : option Z) st : waits pc s → is_Some s → waits pc (Some st).
Proof. intros Hw [? ->]. destruct pc as [[]|]; cbn in *; done || by eexists. Qed.
Lemma post_inv w x p r : inv w → w.(thr) = T_Post p → rtw_cmd_thread x w = Some r → ∃ w', r = Ret w' ∧ inv w'.
Proof.
  intros Hi Et E. unfold_thread. rewrite Et in E. injection E as <-.
  assert (hand w.(thr) = [p]) as Eh by (by rewrite Et). destruct (held_obj w p Hi Eh) as (o & Ho & Hl & Hw & _ & Hd & Hr); [by rewrite Et|].
  rewrite Et in Hr. specialize (Hr eq_refl). rewrite (deref_some _ _ _ Ho). cbn [cbind]. rewrite (done_err_ok _ _ o) by done. cbn [cbind].
  eexists. split; [done|]. destruct (decide (c_sctx o = None)) as [Hc|Hc]; (apply (held_inv w _ p); try done).
  - intros q Hq. frame_thr Et.
  - intros Hpc. cbn. rewrite Ho. destruct Hl as [[Hs _]|[_ Hs]]; [congruence|]. constructor; cbn; try done.
    split; [done|]. by intros o' [= <-].
  - intros q Hq. frame_thr Et.
  - intros Hpc. cbn. rewrite !lookup_insert_eq. destruct Hl as [[_ Hs]|[Hs _]]; [|congruence]. constructor; cbn; try done.
    + split; [by destruct (_ =? _)|]. by intros o' [= <-].
    + eapply waits_status; [done|]. by rewrite Hs.
    + intros [= Est]. apply Hr. destruct (Z.eqb_spec (c_res o) H2C_SUCCESS); done.
Qed.
Lemma drop_inv w x p r : inv w → w.(thr) = T_Drop p → rtw_cmd_thread x w = Some r → ∃ w', r = Ret w' ∧ inv w'.
Proof.
  intros Hi Et E. unfold_thread. rewrite Et in E. injection E as <-.
  assert (hand w.(thr) = [p]) as Eh by (by rewrite Et). destruct (held_obj w p Hi Eh) as (o & Ho & Hl & Hw & Hx & Hd & _); [by rewrite Et|].
  rewrite Et in Hx. specialize (Hx eq_refl). rewrite (deref_some _ _ _ Ho). cbn [cbind]. rewrite free_extra_ok by done. cbn [cbind].
  rewrite (done_err_ok _ _ o) by (by destruct (_ =? _)). cbn [cbind].
  eexists. split; [done|]. destruct (decide (c_sctx o = None)) as [Hc|Hc]; (apply (held_inv w _ p); try done; try by destruct (_ =? _)).
  - intros q Hq. destruct (_ =? _), (has_extra o); frame_thr Et.
  - intros Hpc. destruct Hl as [[Hs _]|[_ Hs]]; [congruence|].
    destruct (_ =? _); cbn; rewrite Ho; (constructor; cbn; try done; split; [done|]; by intros o' [= <-]).
  - intros q Hq. destruct (_ =? _), (has_extra o); frame_thr Et.
  - intros Hpc. destruct Hl as [[_ Hs]|[Hs _]]; [|congruence].
    assert (waits (prods w !! p) (Some RTW_SCTX_DONE_CMD_DROP)) as Hw' by (eapply waits_status; [done|]; by rewrite Hs).
    destruct (_ =? _); cbn; rewrite !lookup_insert_eq; (constructor; cbn; try done; split; [done|]; by intros o' [= <-]).
Qed.
(** The thread is done with a command: it is gone, or left behind by the callback. *)
Lemma finish_inv w w' p o : inv w → hand w.(thr) = [p] → stage_of w.(thr) = Last → hand w'.(thr) = [] →
  w.(hp).(objs) !! p = Some o →
  w'.(hist) = log_finish p w.(hist) → w'.(cp).(cmd_queue) = w.(cp).(cmd_queue) → w'.(prods) = w.(prods) →
  w'.(hp).(sctxs) = w.(hp).(sctxs) → w'.(hp).(pbufs) = w.(hp).(pbufs) →
  w'.(hp).(objs) = delete p w.(hp).(objs) ∨ w'.(hp).(objs) = w.(hp).(objs) ∧ o.(cmdcode) = CMD_DISCONNECT ∧ o.(c_res) ≠ H2C_SUCCESS →
  inv w'.
Proof.
  intros Hi Eh Es Eh' Ho E1 E2 E3 E4 E5 Hob.
  assert (place_of w p = Held (stage_of w.(thr))) as Hpl by (apply place_held; [apply Hi|apply Hi|rewrite Eh; by left]).
  pose proof (view_at w p _ Hpl Hi) as [Va Vo Vl Vw Vp Vd _]. cbn in *. rewrite Es in *. destruct Vl as [Vl1 Vl2].
  assert (w'.(hist).(inserted) = w'.(hist).(finished) ++ hand w'.(thr) ++ w'.(cp).(cmd_queue)) as Hf'.
  { rewrite E1, E2, Eh'. cbn. rewrite (in_fifo w Hi), Eh, <- app_assoc. done. }
  apply (inv_frame w _ p); [done|done|by rewrite E1; apply Hi| |].
  - intros q Hq. constructor; rewrite ?E1, ?E2, ?E3, ?E4, ?E5, ?Eh, ?Eh'; cbn; rewrite ?elem_of_app, ?elem_of_cons, ?elem_of_nil; try done;
      [|naive_solver..]. destruct Hob as [->|[-> _]]; [by rewrite lookup_delete_ne|done].
  - apply (view_ok_at _ _ Finished).
    { apply place_finished; [done|by rewrite E1; apply Hi|]. rewrite E1. cbn. apply elem_of_app. right. by left. }
    rewrite E1, E3, E4, E5. constructor; cbn; try done.
    destruct Hob as [->|[-> Hd]]; [by rewrite lookup_delete_eq|]. intros o'. rewrite Ho. intros [= <-]. split_and!; [apply Hd..|by apply Vl2].
Qed.
Lemma last_obj w p : inv w → hand w.(thr) = [p] → ∃ o, w.(hp).(objs) !! p = Some o.
Proof.
  intros Hi Eh. assert (place_of w p = Held (stage_of w.(thr))) as Hpl by (apply place_held; [apply Hi|apply Hi|rewrite Eh; by left]).
  exact (vo_obj _ _ (view_at w p _ Hpl Hi)).
Qed.
Lemma thread_inv w x r : inv w → rtw_cmd_thread x w = Some r → ∃ w', r = Ret w' ∧ inv w'.
Proof.
  intros Hi E. destruct (thr w) as [| | | | | |p|p|p|p| | |p|p|] eqn:Et.
  7-9,13: by eauto using run_inv, exec_inv, post_inv, drop_inv.
  all: unfold_thread; rewrite Et in E.
  - injection E as <-. eexists. split; [done|]. apply (inv_quiet w); by rewrite ?Et.
  - destruct (o_intr x); [|destruct (cmd_queue_sema (cp w)); [done|]]; injection E as <-; (eexists; split; [done|]);
      apply (inv_quiet w); by rewrite ?Et.
  - injection E as <-. eexists. split; [done|]. apply (inv_quiet w); rewrite ?Et; try done. by destruct (cannot_run w).
  - injection E as <-. eexists. split; [done|]. apply (inv_quiet w); rewrite ?Et; try done. by destruct (cmd_queue (cp w)).
  - injection E as <-. eexists. split; [done|]. apply (inv_quiet w); rewrite ?Et; try done. by destruct (cannot_run w).
  - injection E as <-. eexists. split; [done|]. unfold _rtw_dequeue_cmd. destruct (cmd_queue (cp w)) as [|p q] eqn:Eq.
    + apply (inv_quiet w); by rewrite ?Et.
    + apply (take_inv w _ p q); by rewrite ?Et.
  - injection E as <-. destruct (last_obj w p Hi) as [o Ho]; [by rewrite Et|]. rewrite (deref_some _ _ _ Ho). cbn [cbind].
    unfold cmd_callback. destruct (_ && _) eqn:Ec.
    + apply andb_true_iff in Ec as [Ec%Z.eqb_eq Er%negb_true_iff%Z.eqb_neq].
      eexists. split; [done|]. apply (finish_inv w _ p o); rewrite ?Et; try done. by right.
    + erewrite free_obj_ok by done. eexists. split; [done|]. apply (finish_inv w _ p o); rewrite ?Et; try done. by left.
  - injection E as <-. eexists. split; [done|]. apply (inv_quiet w); by rewrite ?Et.
  - injection E as <-. eexists. split; [done|]. unfold _rtw_dequeue_cmd. destruct (cmd_queue (cp w)) as [|p q] eqn:Eq.
    + apply (inv_quiet w); by rewrite ?Et.
    + apply (take_inv w _ p q); by rewrite ?Et.
  - injection E as <-. destruct (last_obj w p Hi) as [o Ho]; [by rewrite Et|]. erewrite free_obj_ok by done.
    eexists. split; [done|]. apply (finish_inv w _ p o); rewrite ?Et; try done. by left.
  - done.
Qed.
Lemma step_inv w r : inv w → cmd_step w r → ∃ w', r = Ret w' ∧ inv w'.
Proof.
  intros Hi [p code size io extra wait Hp Hcode|timeout p r' E|x r' E|c h| |Hl|Et].
  - eexists. split; [done|]. by apply submit_inv.
  - by eapply producer_inv.
  - by eapply thread_inv.
  - eexists. split; [done|]. destruct Hi. by constructor.
  - eexists. split; [done|]. destruct Hi. by constructor.
  - eexists. split; [done|]. destruct Hi. by constructor.
  - eexists. split; [done|]. apply (inv_quiet w); by rewrite ?Et.
Qed.
Lemma init_inv : inv init_world.
Proof.
  constructor; [done|apply NoDup_nil_2|]. intros p. apply (view_ok_at _ _ Outside); [done|].
  constructor; cbn; rewrite ?lookup_empty; try done. split; [by intros [? ?]|by intros [? | ?]].
Qed.
Lemma reachable_inv w : reachable w → inv w.
Proof.
  induction 1 as [|w w' _ IH Hs]; [apply init_inv|]. destruct (step_inv _ _ IH Hs) as (w2 & [= <-] & Hi). done.
Qed.

(** *** No lost wake-up

    While the thread sleeps, or is not there, a command in the queue has a permit of
    the semaphore, or a caller that is about to give one, or the device's report to
    wait for. *)
Definition asleep (t : thread_pc) : bool := match t with T_Start | T_Wait | T_Exited => true | _ => false end.
Definition awakened (w : world) : Prop :=
  asleep w.(thr) = true → w.(cp).(cmd_queue) ≠ [] →
  (0 < w.(cp).(cmd_queue_sema))%nat ∨ (∃ p, p ∈ w.(cp).(cmd_queue) ∧ w.(prods) !! p = Some P_Up) ∨ w.(lps_wait) = true.
Lemma awakened_same w w' p pc : awakened w → w.(prods) !! p ≠ Some P_Up → w'.(cp) = w.(cp) → w'.(thr) = w.(thr) →
  w'.(lps_wait) = w.(lps_wait) → w'.(prods) = <[p := pc]> w.(prods) → awakened w'.
Proof.
  intros Ha Hp E1 E2 E3 E4. unfold awakened. rewrite E1, E2, E3, E4. intros H1 H2.
  destruct (Ha H1 H2) as [?|[(q & Q1 & Q2)|?]]; [auto| |auto]. right. left. exists q. split; [done|].
  rewrite lookup_insert_ne; [done|]. by intros <-.
Qed.
(** The world a step gives, by the cases of its definition. *)
Ltac cres_inv :=
  repeat (case_match; try discriminate);
  repeat match goal with
         | H : Ret _ = Ret _ |- _ => injection H as <-
         | H : Some (Ret _) = Some (Ret _) |- _ => injection H as <-
         end.
Lemma awakened_producer w timeout p w' : awakened w → producer_step timeout p w = Some (Ret w') → awakened w'.
Proof.
  intros Ha E. unfold_caller. destruct (w.(prods) !! p) as [[]|] eqn:Hp; try discriminate E.
  - injection E as E. unfold deref, free_extra, rtw_free_cmd_obj, cbind in E. cres_inv;
      (eapply (awakened_same w _ p); [done|by rewrite Hp|reflexivity..]).
  - injection E as <-. intros _ _. right. left. exists p. cbn. rewrite lookup_insert_eq. split; [|done]. apply elem_of_app. right. by left.
  - injection E as <-. intros _ _. left. cbn. case_decide; cbn; lia.
  - cres_inv. eapply (awakened_same w _ p); [done|by rewrite Hp|reflexivity..].
  - injection E as E. unfold deref, cbind in E. cres_inv;
      (eapply (awakened_same w _ p); [done|by rewrite Hp|reflexivity..]).
Qed.
Lemma awakened_thread w x w' : awakened w → rtw_cmd_thread x w = Some (Ret w') → awakened w'.
Proof.
  intros Ha E. unfold_thread. destruct (thr w) as [| | | | | |p|p|p|p| | |p|p|] eqn:Et; try discriminate E.
  - injection E as <-. intros _. apply Ha. by rewrite Et.
  - cres_inv; intros Hsleep; discriminate Hsleep.
  - injection E as <-. intros H1. cbn in H1. by destruct (cannot_run w).
  - injection E as <-. intros H1 H2. cbn in *. by destruct (cmd_queue (cp w)).
  - injection E as <-. intros H1. cbn in H1. by destruct (cannot_run w).
  - injection E as <-. unfold _rtw_dequeue_cmd. intros H1 H2. by destruct (cmd_queue (cp w)) eqn:Eq; cbn in *.
  - injection E as E. unfold deref, free_extra, cbind in E. cres_inv; intros Hsleep; try discriminate Hsleep; auto.
  - injection E as E. unfold deref, free_extra, cbind in E. cres_inv; intros Hsleep; discriminate Hsleep.
  - injection E as E. unfold rtw_sctx_done_err, deref, cbind in E. cres_inv; intros Hsleep; discriminate Hsleep.
  - injection E as E. unfold cmd_callback, rtw_free_cmd_obj, deref, cbind in E. cres_inv; intros Hsleep; discriminate Hsleep.
  - injection E as <-. intros H1. discriminate H1.
  - injection E as <-. unfold _rtw_dequeue_cmd. intros H1 H2. by destruct (cmd_queue (cp w)) eqn:Eq; cbn in *.
  - injection E as E. unfold rtw_sctx_done_err, free_extra, deref, cbind in E. cres_inv; intros Hsleep; discriminate Hsleep.
  - injection E as E. unfold rtw_free_cmd_obj, deref, cbind in E. cres_inv; intros Hsleep; discriminate Hsleep.
Qed.
Lemma awakened_step w w' : inv w → awakened w → cmd_step w (Ret w') → awakened w'.
Proof.
  intros Hi Ha Hs. inversion Hs as [p code size io extra wait Hp Hcode|timeout p r' E|x r' E|c h| |Hl|Et]; subst; clear Hs.
  - unfold awakened. cbn. intros H1 H2. destruct (Ha H1 H2) as [?|[(q & Q1 & Q2)|?]]; [auto| |auto]. right. left. exists q. split; [done|].
    rewrite lookup_insert_ne; [done|]. intros <-. congruence.
  - by eapply awakened_producer.
  - by eapply awakened_thread.
  - exact Ha.
  - left. cbn. lia.
  - left. cbn. lia.
  - intros _. apply Ha. by rewrite Et.
Qed.
Lemma reachable_awakened w : reachable w → awakened w.
Proof.
  induction 1 as [|w w' Hr IH Hs]; [by intros _ []|]. eapply awakened_step; [by apply reachable_inv|done|done].
Qed.

(** *** Draining the queue *)

(** [n] steps of the thread on its own. *)
Fixpoint thread_run (xs : nat → oracle) (n : nat) (w : world) : option (cres world) :=
  match n with
  | O => Some (Ret w)
  | S n => match rtw_cmd_thread (xs O) w with Some (Ret w') => thread_run (λ k, xs (S k)) n w' | r => r end
  end.
Lemma thread_run_S n xs w w' : rtw_cmd_thread (xs O) w = Some (Ret w') → thread_run xs (S n) w = thread_run (λ k, xs (S k)) n w'.
Proof. intros E. cbn. by rewrite E. Qed.
Lemma thread_run_app n : ∀ xs m w w', thread_run xs n w = Some (Ret w') →
  thread_run xs (n + m) w = thread_run (λ k, xs (n + k)%nat) m w'.
Proof.
  induction n as [|n IH]; intros xs m w w' E; cbn in *; [by injection E as <-|].
  destruct (rtw_cmd_thread (xs O) w) as [[w1| |]|]; try discriminate E. by apply IH.
Qed.
(** The steps left for the command in the hand. *)
Definition rank (t : thread_pc) : nat := match t with T_Run _ => 4 | T_Exec _ => 3 | T_Post _ => 2 | T_Free _ => 1 | _ => 0 end.
Lemma rank_step x w : inv w → x.(o_alive) = true → (0 < rank w.(thr))%nat → ∃ w', rtw_cmd_thread x w = Some (Ret w') ∧ inv w' ∧
  w'.(cp).(cmd_queue) = w.(cp).(cmd_queue) ∧ w'.(cannot_run) = w.(cannot_run) ∧
  if (rank w.(thr) =? 1)%nat then w'.(thr) = T_Once ∧ w'.(hist).(finished) = w.(hist).(finished) ++ hand w.(thr)
  else (rank w'.(thr) < rank w.(thr))%nat ∧ (0 < rank w'.(thr))%nat ∧ hand w'.(thr) = hand w.(thr) ∧ w'.(hist).(finished) = w.(hist).(finished).
Proof.
  intros Hi Hx Hr. destruct (rtw_cmd_thread x w) as [r|] eqn:E.
  2:{ unfold_thread. destruct (thr w); cbn in Hr; (lia || discriminate E). }
  destruct (thread_inv w x r Hi E) as (w' & -> & Hi'). exists w'. split; [done|]. split; [done|]. clear Hi Hi'.
  unfold_thread. destruct (thr w) as [| | | | | |p|p|p|p| | |p|p|] eqn:Et; cbn in Hr; try lia; injection E as E.
  - unfold deref, free_extra, cbind in E. cres_inv;
      try (match goal with Hf : _ || o_alive _ = false |- _ => by rewrite Hx, orb_true_r in Hf end); cbn; split_and!; (done || lia).
  - unfold deref, free_extra, cbind in E. cres_inv; cbn; split_and!; (done || lia).
  - unfold rtw_sctx_done_err, deref, cbind in E. cres_inv; cbn; split_and!; (done || lia).
  - unfold cmd_callback, rtw_free_cmd_obj, deref, cbind in E. cres_inv; cbn; split_and!; (done || lia).
Qed.
Lemma rank_run k : ∀ xs w, inv w → (∀ n, (xs n).(o_alive) = true) → (0 < rank w.(thr) ≤ k)%nat →
  ∃ n w', (n ≤ rank w.(thr))%nat ∧ thread_run xs n w = Some (Ret w') ∧ inv w' ∧ w'.(thr) = T_Once ∧
    w'.(cp).(cmd_queue) = w.(cp).(cmd_queue) ∧ w'.(cannot_run) = w.(cannot_run) ∧
    w'.(hist).(finished) = w.(hist).(finished) ++ hand w.(thr).
Proof.
  induction k as [|k IH]; intros xs w Hi Hx Hk; [lia|].
  destruct (rank_step (xs O) w Hi (Hx O)) as (w1 & E1 & Hi1 & Q1 & C1 & H1); [lia|]. destruct (Nat.eqb_spec (rank (thr w)) 1) as [Er|Er].
  - exists 1%nat, w1. cbn. rewrite E1. destruct H1. split_and!; [lia|done..].
  - destruct H1 as (R1 & R2 & Hh & F1). destruct (IH (λ k, xs (S k)) w1) as (n & w2 & Hn & E2 & Hi2 & T2 & Q2 & C2 & F2); [done|auto|lia|].
    exists (S n), w2. cbn. rewrite E1. split_and!; [lia|done|done|done|congruence|congruence|]. by rewrite F2, F1, Hh.
Qed.
(** From the head of the inner loop: every command is dealt with, in order, and the
    thread sleeps. *)
Lemma drain_once q : ∀ xs w, inv w → (∀ n, (xs n).(o_alive) = true) → w.(thr) = T_Once → w.(cannot_run) = false →
  w.(cp).(cmd_queue) = q →
  ∃ n w', (n ≤ 6 * length q + 2)%nat ∧ thread_run xs n w = Some (Ret w') ∧ w'.(thr) = T_Wait ∧ w'.(cp).(cmd_queue) = [] ∧
    w'.(hist).(finished) = w.(hist).(finished) ++ q.
Proof.
  induction q as [|p q IH]; intros xs w Hi Hx Ht Hr Hq.
  - exists 2%nat, (at_thr T_Wait (set_lps false (at_thr T_Dequeue w))). split; [cbn; lia|]. cbn. unfold_thread. rewrite Ht, Hr. cbn.
    unfold _rtw_dequeue_cmd. cbn. rewrite Hq. cbn. by rewrite app_nil_r.
  - set (w1 := at_thr T_Dequeue w). assert (rtw_cmd_thread (xs 0%nat) w = Some (Ret w1)) as E1 by (unfold_thread; by rewrite Ht, Hr).
    assert (inv w1) as Hi1 by (apply (inv_quiet w); by rewrite ?Ht).
    set (w2 := at_thr (T_Run p) (upd_cp bump_issued (upd_cp (set_queue q) w1))).
    assert (rtw_cmd_thread (xs 1%nat) w1 = Some (Ret w2)) as E2 by (unfold_thread; unfold _rtw_dequeue_cmd; cbn; by rewrite Hq).
    assert (inv w2) as Hi2 by (apply (take_inv w1 _ p q); done).
    destruct (rank_run 4 (λ k, xs (2 + k)%nat) w2) as (n3 & w3 & N3 & E3 & Hi3 & T3 & Q3 & C3 & F3); [done|auto|cbn; lia|].
    destruct (IH (λ k, xs (2 + n3 + k)%nat) w3) as (n4 & w4 & N4 & E4 & T4 & Q4 & F4); [done|auto|done|by rewrite C3|by rewrite Q3|].
    exists (2 + n3 + n4)%nat, w4. cbn [rank thr w2 at_thr] in N3. split; [cbn; lia|].
    assert (thread_run xs (2 + n3) w = Some (Ret w3)) as E23 by (cbn [Nat.add]; by rewrite (thread_run_S _ _ _ _ E1), (thread_run_S _ _ _ _ E2)).
    rewrite (thread_run_app _ _ _ _ _ E23). split_and!; [done|done|done|]. rewrite F4, F3. cbn. by rewrite <- app_assoc.
Qed.
Lemma drain_wait xs w : inv w → (∀ n, (xs n).(o_alive) = true ∧ (xs n).(o_intr) = false) → w.(thr) = T_Wait → w.(cannot_run) = false →
  (0 < w.(cp).(cmd_queue_sema))%nat →
  ∃ n w', (n ≤ 6 * length w.(cp).(cmd_queue) + 5)%nat ∧ thread_run xs n w = Some (Ret w') ∧ w'.(thr) = T_Wait ∧ w'.(cp).(cmd_queue) = [] ∧
    w'.(hist).(finished) = w.(hist).(finished) ++ w.(cp).(cmd_queue).
Proof.
  intros Hi Hx Ht Hr Hs. destruct (cmd_queue_sema (cp w)) as [|m] eqn:Em; [lia|].
  set (w1 := at_thr T_ChkRun (upd_cp (set_sema m) w)). set (w2 := at_thr T_ChkQueue w1).
  assert (thread_run xs 2 w = Some (Ret w2)) as E2.
  { cbn. unfold_thread. rewrite Ht. destruct (Hx 0%nat) as [_ ->]. rewrite Em. cbn. by rewrite Hr. }
  destruct (cmd_queue (cp w)) as [|p q] eqn:Eq.
  - exists 3%nat, (at_thr T_Wait w2). split; [cbn; lia|]. change 3%nat with (2 + 1)%nat. rewrite (thread_run_app _ _ _ _ _ E2). cbn.
    unfold_thread. cbn. rewrite Eq. by rewrite app_nil_r.
  - set (w3 := at_thr T_Once w2). assert (thread_run xs 3 w = Some (Ret w3)) as E3.
    { change 3%nat with (2 + 1)%nat. rewrite (thread_run_app _ _ _ _ _ E2). cbn. unfold_thread. cbn. by rewrite Eq. }
    destruct (drain_once (p :: q) (λ k, xs (3 + k)%nat) w3) as (n & w4 & N4 & E4 & H4); try done.
    { apply (inv_quiet w); by rewrite ?Ht. } { intros n. apply Hx. }
    exists (3 + n)%nat, w4. rewrite (thread_run_app _ _ _ _ _ E3). split; [lia|done].
Qed.

(** ** Schedules *)
Inductive action :=
  | A_submit (p : nat) (code size : Z) (io extra wait : bool) | A_prod (timeout : bool) (p : nat) | A_thread (x : oracle)
  | A_env (c h : bool) | A_stop | A_cpwm | A_start.
Definition act (a : action) (w : world) : option (cres world) :=
  match a with
  | A_submit p code size io extra wait =>
      if decide (w.(prods) !! p = None ∧ 0 ≤ code) then Some (Ret (submit p code size io extra wait w)) else None
  | A_prod timeout p => producer_step timeout p w
  | A_thread x => rtw_cmd_thread x w
  | A_env c h => Some (Ret (set_env c h w))
  | A_stop => Some (Ret (up_sema w))
  | A_cpwm => if w.(lps_wait) then Some (Ret (up_sema (set_lps false w))) else None
  | A_start => if decide (w.(thr) = T_Exited) then Some (Ret (at_thr T_Start w)) else None
  end.
Lemma act_step a w r : act a w = Some r → cmd_step w r.
Proof.
  destruct a; cbn; intros E.
  - case_decide as Hd; [|done]. injection E as <-. destruct Hd. by constructor.
  - by eapply step_producer.
  - by eapply step_thread.
  - injection E as <-. constructor.
  - injection E as <-. constructor.
  - destruct (lps_wait w) eqn:El; [|done]. injection E as <-. by constructor.
  - case_decide; [|done]. injection E as <-. by constructor.
Qed.
Fixpoint schedule (l : list action) (w : world) : option world :=
  match l with
  | [] => Some w
  | a :: l => match act a w with Some (Ret w') => schedule l w' | _ => None end
  end.
Lemma schedule_reachable l : ∀ w w', reachable w → schedule l w = Some w' → reachable w'.
Proof.
  induction l as [|a l IH]; intros w w' Hr E; cbn in E; [by injection E as <-|].
  destruct (act a w) as [[w1| |]|] eqn:Ea; try discriminate E. eapply IH; [|done]. eapply reach_step; [done|]. by eapply act_step.
Qed.
Definition good : oracle := {| o_intr := false; o_alive := true; o_res := H2C_SUCCESS |}.
Definition awake (r : Z) : oracle := {| o_intr := false; o_alive := true; o_res := r |}.
(** The thread runs; two commands arrive, and the caller of the first waits. *)
Definition demo_start : list action := [A_start; A_thread good; A_env false true].
Definition demo_two : list action := demo_start ++
  [A_submit 0 2 8 true false true; A_submit 1 12 16 true true false; A_prod false 1; A_prod false 0; A_prod false 0; A_prod false 1;
   A_prod false 0; A_prod false 1].
Definition demo_world (l : list action) : world := default init_world (schedule l init_world).
Lemma demo_reachable l : bool_decide (is_Some (schedule l init_world)) = true → reachable (demo_world l).
Proof.
  intros [w Hw]%bool_decide_eq_true. unfold demo_world. rewrite Hw. cbn. eapply schedule_reachable; [apply reach_init|done].
Qed.

(** ** The theorems *)

(** C7: whatever the interleaving of callers, the command thread, interrupts and
    stops, no step of the command queue touches a command, a caller's frame or a
    parameter buffer that is not there any more. *)
Theorem cmd_queue_safe w r : reachable w → cmd_step w r → ∃ w', r = Ret w' ∧ reachable w'.
Proof.
  intros Hr Hs. destruct (step_inv w r (reachable_inv w Hr) Hs) as (w' & -> & _). exists w'. split; [done|]. by eapply reach_step.
Qed.
Lemma cmd_queue_safe_witness : ∃ w', act (A_thread good) (demo_world demo_two) = Some (Ret w') ∧ reachable w'.
Proof.
  destruct (act (A_thread good) (demo_world demo_two)) as [r|] eqn:E; [|vm_compute in E; discriminate E].
  destruct (cmd_queue_safe (demo_world demo_two) r) as (w' & -> & Hr); [by apply demo_reachable; vm_compute|by eapply act_step|].
  by exists w'.
Defined.

(** C24: commands are taken in the order of their insertion, each once: those
    inserted are the finished ones, the one in the thread's hand and the queue, in
    this order.  A command is there until it is finished and gone then, except one
    to disconnect whose handler failed. *)
Theorem cmd_fifo_once w : reachable w →
  w.(hist).(inserted) = w.(hist).(finished) ++ hand w.(thr) ++ w.(cp).(cmd_queue) ∧ NoDup w.(hist).(inserted) ∧
  (∀ p, p ∈ hand w.(thr) ++ w.(cp).(cmd_queue) → is_Some (w.(hp).(objs) !! p)) ∧
  (∀ p o, p ∈ w.(hist).(finished) → w.(hp).(objs) !! p = Some o → o.(cmdcode) = CMD_DISCONNECT ∧ o.(c_res) ≠ H2C_SUCCESS).
Proof.
  intros Hr. pose proof (reachable_inv w Hr) as Hi. split_and!; [apply Hi|apply Hi| |].
  - intros p [Hp|Hp]%elem_of_app; [pose proof (vo_obj _ _ (view_at w p _ (place_held w (in_fifo w Hi) (in_nodup w Hi) p Hp) Hi)) as V
      |pose proof (vo_obj _ _ (view_at w p _ (place_queued w p Hp) Hi)) as V]; exact V.
  - intros p o Hp Ho. pose proof (vo_obj _ _ (view_at w p _ (place_finished w (in_fifo w Hi) (in_nodup w Hi) p Hp) Hi)) as V. cbn in V.
    by destruct (V o Ho) as (? & ? & _).
Qed.
Lemma cmd_fifo_once_witness :
  let w := demo_world (demo_two ++ repeat (A_thread good) 6) in
  w.(hist).(inserted) = [0%nat; 1%nat] ∧ w.(hist).(inserted) = w.(hist).(finished) ++ hand w.(thr) ++ w.(cp).(cmd_queue) ∧ w.(thr) = T_Exec 0.
Proof.
  cbv zeta. split; [vm_compute; reflexivity|]. split; [|vm_compute; reflexivity].
  apply (cmd_fifo_once (demo_world (demo_two ++ repeat (A_thread good) 6))), demo_reachable. vm_compute. reflexivity.
Defined.

(** What a waiting caller finds in its frame: success only when the handler of
    its command ran and returned success; and once the thread is done with the
    command the frame no longer says that it is submitted, so that the wait ends. *)
Theorem cmd_waiter_told w p st : reachable w → w.(hp).(sctxs) !! p = Some st →
  (st = RTW_SCTX_DONE_SUCCESS → (p, H2C_SUCCESS) ∈ w.(hist).(executed)) ∧ (p ∈ w.(hist).(finished) → st ≠ RTW_SCTX_SUBMITTED).
Proof.
  intros Hr Hs. pose proof (reachable_inv w Hr) as Hi. split.
  - intros ->. pose proof (vo_done _ _ (in_view w Hi p)) as V. cbn in V. exact (proj1 (bool_decide_eq_true _) (V Hs)).
  - intros Hp ->. pose proof (vo_link _ _ (view_at w p _ (place_finished w (in_fifo w Hi) (in_nodup w Hi) p Hp) Hi)) as V. by apply V.
Qed.
Definition demo_done : list action := demo_two ++ repeat (A_thread good) 9.
Lemma cmd_waiter_told_witness :
  let w := demo_world demo_done in
  w.(hp).(sctxs) !! 0%nat = Some RTW_SCTX_DONE_SUCCESS ∧ (0%nat, H2C_SUCCESS) ∈ w.(hist).(executed).
Proof.
  cbv zeta. assert ((demo_world demo_done).(hp).(sctxs) !! 0%nat = Some RTW_SCTX_DONE_SUCCESS) as Hs by (vm_compute; reflexivity).
  split; [exact Hs|]. refine (proj1 (cmd_waiter_told (demo_world demo_done) 0 _ _ Hs) eq_refl). apply demo_reachable. vm_compute. reflexivity.
Defined.

(** C25: no command is forgotten.  When the driver can run and the thread sleeps
    on a queue that is not empty, either there is a permit, and then the thread
    takes all commands to their end, in order, within six steps each and five, if
    the device is awake and no interrupt arrives meanwhile; or a caller
    is about to give one, or the thread waits for the device to report. *)
Theorem cmd_queue_drained w xs : reachable w → w.(thr) = T_Wait → w.(cannot_run) = false → w.(cp).(cmd_queue) ≠ [] →
  (∀ n, (xs n).(o_alive) = true ∧ (xs n).(o_intr) = false) →
  (∃ n w', (n ≤ 6 * length w.(cp).(cmd_queue) + 5)%nat ∧ thread_run xs n w = Some (Ret w') ∧ w'.(cp).(cmd_queue) = [] ∧
     w'.(hist).(finished) = w.(hist).(finished) ++ w.(cp).(cmd_queue)) ∨
  (∃ p, p ∈ w.(cp).(cmd_queue) ∧ w.(prods) !! p = Some P_Up) ∨ w.(lps_wait) = true.
Proof.
  intros Hr Ht Hc Hq Hx. destruct (reachable_awakened w Hr) as [Hs|Hs]; [by rewrite Ht|done| |by right]. left.
  destruct (drain_wait xs w (reachable_inv w Hr) Hx Ht Hc Hs) as (n & w' & H1 & H2 & _ & H3 & H4). by exists n, w'.
Qed.
Lemma cmd_queue_drained_witness :
  ∃ n w', thread_run (λ _, awake H2C_PARAMETERS_ERROR) n (demo_world demo_two) = Some (Ret w') ∧ w'.(cp).(cmd_queue) = [] ∧ w'.(hist).(finished) = [0%nat; 1%nat].
Proof.
  destruct (cmd_queue_drained (demo_world demo_two) (λ _, awake H2C_PARAMETERS_ERROR)) as [(n & w' & _ & H1 & H2 & H3)|[(p & Hp & Hu)|Hl]].
  - apply demo_reachable. vm_compute. reflexivity.
  - vm_compute. reflexivity.
  - vm_compute. reflexivity.
  - vm_compute. congruence.
  - done.
  - exists n, w'. split_and!; [exact H1|exact H2|]. rewrite H3. vm_compute. reflexivity.
  - exfalso. assert ((demo_world demo_two).(cp).(cmd_queue) = [0%nat; 1%nat]) as Eq by (vm_compute; reflexivity). rewrite Eq in Hp.
    apply elem_of_cons in Hp as [->|Hp]; [vm_compute in Hu; congruence|]. apply list_elem_of_singleton in Hp as ->. vm_compute in Hu. congruence.
  - exfalso. vm_compute in Hl. congruence.
Defined.

(** ** Behaviour the theorems leave open *)

(** [rtw_enqueue_cmd] reads [cmdthd_running] and inserts later: when the thread
    drains the queue and exits in between, the command is accepted and stays in the
    queue; its caller gets no answer but the timeout. *)
Example stranded_command :
  let w := demo_world (demo_start ++ [A_submit 0 2 8 true false true; A_prod false 0; A_env true true; A_stop] ++
    repeat (A_thread good) 4 ++ [A_prod false 0; A_prod false 0]) in
  reachable w ∧ w.(thr) = T_Exited ∧ w.(cp).(cmd_queue) = [0%nat] ∧ w.(prods) !! 0%nat = Some P_Wait ∧
  w.(hp).(sctxs) !! 0%nat = Some RTW_SCTX_SUBMITTED.
Proof. cbv zeta. split; [apply demo_reachable; vm_compute; reflexivity|]. vm_compute. done. Qed.
(** [rtw_disassoc_cmd_callback] does not free a command whose handler failed. *)
Example disconnect_leaks :
  let w := demo_world (demo_start ++ [A_submit 0 1 8 true false false; A_prod false 0; A_prod false 0; A_prod false 0] ++
    repeat (A_thread (awake 10)) 10) in
  reachable w ∧ w.(hist).(finished) = [0%nat] ∧ is_Some (w.(hp).(objs) !! 0%nat).
Proof. cbv zeta. split; [apply demo_reachable; vm_compute; reflexivity|]. vm_compute. eauto. Qed.
