(* ===== verification/Sms4.v ===== *)
(** * The SMS4 block cipher of the WAPI support

    The four words of [SMS4Crypt] and [SMS4KeyExt] (src/core/rtw_wapi_sms4.c)
    with the S-box, the constants and the macros they use, kept at 32 bits, and
    the cipher as GB/T 32907 describes it: the S-box as inversion in GF(2^8)
    between two affine maps, the constants of the key schedule by their
    formula, one round at a time on a shift register of four words. *)
From S2P Require Import Prelude.
From stdpp Require Import list.
Local Open Scope Z_scope.

(** ** The code *)
Definition ENCRYPT : Z := 0.
Definition DECRYPT : Z := 1.

Definition Sbox : list Z := [
  0xd6; 0x90; 0xe9; 0xfe; 0xcc; 0xe1; 0x3d; 0xb7; 0x16; 0xb6; 0x14; 0xc2; 0x28; 0xfb; 0x2c; 0x05;
  0x2b; 0x67; 0x9a; 0x76; 0x2a; 0xbe; 0x04; 0xc3; 0xaa; 0x44; 0x13; 0x26; 0x49; 0x86; 0x06; 0x99;
  0x9c; 0x42; 0x50; 0xf4; 0x91; 0xef; 0x98; 0x7a; 0x33; 0x54; 0x0b; 0x43; 0xed; 0xcf; 0xac; 0x62;
  0xe4; 0xb3; 0x1c; 0xa9; 0xc9; 0x08; 0xe8; 0x95; 0x80; 0xdf; 0x94; 0xfa; 0x75; 0x8f; 0x3f; 0xa6;
  0x47; 0x07; 0xa7; 0xfc; 0xf3; 0x73; 0x17; 0xba; 0x83; 0x59; 0x3c; 0x19; 0xe6; 0x85; 0x4f; 0xa8;
  0x68; 0x6b; 0x81; 0xb2; 0x71; 0x64; 0xda; 0x8b; 0xf8; 0xeb; 0x0f; 0x4b; 0x70; 0x56; 0x9d; 0x35;
  0x1e; 0x24; 0x0e; 0x5e; 0x63; 0x58; 0xd1; 0xa2; 0x25; 0x22; 0x7c; 0x3b; 0x01; 0x21; 0x78; 0x87;
  0xd4; 0x00; 0x46; 0x57; 0x9f; 0xd3; 0x27; 0x52; 0x4c; 0x36; 0x02; 0xe7; 0xa0; 0xc4; 0xc8; 0x9e;
  0xea; 0xbf; 0x8a; 0xd2; 0x40; 0xc7; 0x38; 0xb5; 0xa3; 0xf7; 0xf2; 0xce; 0xf9; 0x61; 0x15; 0xa1;
  0xe0; 0xae; 0x5d; 0xa4; 0x9b; 0x34; 0x1a; 0x55; 0xad; 0x93; 0x32; 0x30; 0xf5; 0x8c; 0xb1; 0xe3;
  0x1d; 0xf6; 0xe2; 0x2e; 0x82; 0x66; 0xca; 0x60; 0xc0; 0x29; 0x23; 0xab; 0x0d; 0x53; 0x4e; 0x6f;
  0xd5; 0xdb; 0x37; 0x45; 0xde; 0xfd; 0x8e; 0x2f; 0x03; 0xff; 0x6a; 0x72; 0x6d; 0x6c; 0x5b; 0x51;
  0x8d; 0x1b; 0xaf; 0x92; 0xbb; 0xdd; 0xbc; 0x7f; 0x11; 0xd9; 0x5c; 0x41; 0x1f; 0x10; 0x5a; 0xd8;
  0x0a; 0xc1; 0x31; 0x88; 0xa5; 0xcd; 0x7b; 0xbd; 0x2d; 0x74; 0xd0; 0x12; 0xb8; 0xe5; 0xb4; 0xb0;
  0x89; 0x69; 0x97; 0x4a; 0x0c; 0x96; 0x77; 0x7e; 0x65; 0xb9; 0xf1; 0x09; 0xc5; 0x6e; 0xc6; 0x84;
  0x18; 0xf0; 0x7d; 0xec; 0x3a; 0xdc; 0x4d; 0x20; 0x79; 0xee; 0x5f; 0x3e; 0xd7; 0xcb; 0x39; 0x48
].

Definition CK : list Z := [
  0x00070e15; 0x1c232a31; 0x383f464d; 0x545b6269;
  0x70777e85; 0x8c939aa1; 0xa8afb6bd; 0xc4cbd2d9;
  0xe0e7eef5; 0xfc030a11; 0x181f262d; 0x343b4249;
  0x50575e65; 0x6c737a81; 0x888f969d; 0xa4abb2b9;
  0xc0c7ced5; 0xdce3eaf1; 0xf8ff060d; 0x141b2229;
  0x30373e45; 0x4c535a61; 0x686f767d; 0x848b9299;
  0xa0a7aeb5; 0xbcc3cad1; 0xd8dfe6ed; 0xf4fb0209;
  0x10171e25; 0x2c333a41; 0x484f565d; 0x646b7279
].

(** Both operands of the macros are u32, so the left shifts wrap. *)
Definition Rotl (x y : Z) : Z := u32 (x << y) .| (x >> (32 - y)).

Definition ByteSub (A : Z) : Z :=
  u32 (Sbox.[Z.to_nat (A >> 24 .& 0xFF)] << 24 .| Sbox.[Z.to_nat (A >> 16 .& 0xFF)] << 16
    .| Sbox.[Z.to_nat (A >> 8 .& 0xFF)] << 8 .| Sbox.[Z.to_nat (A .& 0xFF)]).

Definition L1 (B : Z) : Z := B ⊕ Rotl B 2 ⊕ Rotl B 10 ⊕ Rotl B 18 ⊕ Rotl B 24.
Definition L2 (B : Z) : Z := B ⊕ Rotl B 13 ⊕ Rotl B 23.

(** The u32 at index [i] of a byte buffer, as a little-endian host reads it,
    and the bytes it writes. *)
Definition ld32 (p : list Z) (i : nat) : Z :=
  be32 p.[4 * i + 3] p.[4 * i + 2] p.[4 * i + 1] p.[4 * i].
Definition st32 (x : Z) : list Z := [byte_at x 0; byte_at x 1; byte_at x 2; byte_at x 3].

Definition xor_block (src1 src2 : list Z) : list Z :=
  st32 (ld32 src1 0 ⊕ ld32 src2 0) ++ st32 (ld32 src1 1 ⊕ ld32 src2 1) ++
  st32 (ld32 src1 2 ⊕ ld32 src2 2) ++ st32 (ld32 src1 3 ⊕ ld32 src2 3).

(** The two lines under WAPI_LITTLE_ENDIAN that turn a word round. *)
Definition swap32 (x : Z) : Z :=
  let x := Rotl x 16 in
  u32 ((x .& 0x00FF00FF) << 8) .| ((x .& 0xFF00FF00) >> 8).

Definition quad : Type := Z * Z * Z * Z.

(** One pass of the loop of [SMS4Crypt]: four rounds. *)
Definition crypt_pass (rk : list Z) (x : quad) (r : nat) : quad :=
  let '(x0, x1, x2, x3) := x in
  let x0 := x0 ⊕ L1 (ByteSub (x1 ⊕ x2 ⊕ x3 ⊕ rk.[r + 0])) in
  let x1 := x1 ⊕ L1 (ByteSub (x2 ⊕ x3 ⊕ x0 ⊕ rk.[r + 1])) in
  let x2 := x2 ⊕ L1 (ByteSub (x3 ⊕ x0 ⊕ x1 ⊕ rk.[r + 2])) in
  let x3 := x3 ⊕ L1 (ByteSub (x0 ⊕ x1 ⊕ x2 ⊕ rk.[r + 3])) in
  (x0, x1, x2, x3).

(** [for (r = 0; r < 32; r += 4)] *)
Definition loop4 : list nat := [0; 4; 8; 12; 16; 20; 24; 28]%nat.

Definition SMS4Crypt (Input rk : list Z) : list Z :=
  let x := (swap32 (ld32 Input 0), swap32 (ld32 Input 1),
            swap32 (ld32 Input 2), swap32 (ld32 Input 3)) in
  let '(x0, x1, x2, x3) := fold_left (crypt_pass rk) loop4 x in
  st32 (swap32 x3) ++ st32 (swap32 x2) ++ st32 (swap32 x1) ++ st32 (swap32 x0).

(** One pass of the loop of [SMS4KeyExt]: the four words and the round keys. *)
Definition keyext_pass (s : quad * list Z) (r : nat) : quad * list Z :=
  let '((x0, x1, x2, x3), rk) := s in
  let x0 := x0 ⊕ L2 (ByteSub (x1 ⊕ x2 ⊕ x3 ⊕ CK.[r + 0])) in
  let rk := <[(r + 0)%nat := x0]> rk in
  let x1 := x1 ⊕ L2 (ByteSub (x2 ⊕ x3 ⊕ x0 ⊕ CK.[r + 1])) in
  let rk := <[(r + 1)%nat := x1]> rk in
  let x2 := x2 ⊕ L2 (ByteSub (x3 ⊕ x0 ⊕ x1 ⊕ CK.[r + 2])) in
  let rk := <[(r + 2)%nat := x2]> rk in
  let x3 := x3 ⊕ L2 (ByteSub (x0 ⊕ x1 ⊕ x2 ⊕ CK.[r + 3])) in
  let rk := <[(r + 3)%nat := x3]> rk in
  ((x0, x1, x2, x3), rk).

(** The exchange of [rk[r]] and [rk[31 - r]] when the keys are for decryption. *)
Definition swap_rk (rk : list Z) (r : nat) : list Z :=
  let mid := rk.[r] in <[(31 - r)%nat := mid]> (<[r := rk.[31 - r]]> rk).

(** The caller's array [rk] of 32 words is updated in place. *)
Definition SMS4KeyExt (Key rk : list Z) (CryptFlag : Z) : list Z :=
  let x := (swap32 (ld32 Key 0) ⊕ 0xa3b1bac6, swap32 (ld32 Key 1) ⊕ 0x56aa3350,
            swap32 (ld32 Key 2) ⊕ 0x677d9197, swap32 (ld32 Key 3) ⊕ 0xb27022dc) in
  let rk := snd (fold_left keyext_pass loop4 (x, rk)) in
  if CryptFlag =? DECRYPT then fold_left swap_rk (seq 0 16) rk else rk.

(** ** The cipher of GB/T 32907 *)
Module Gbt32907.
(** The field GF(2^8) modulo x^8 + x^7 + x^6 + x^5 + x^4 + x^2 + 1. *)
Definition xtime (a : Z) : Z := if Z.testbit a 7 then u8 (a << 1) ⊕ 0xf5 else a << 1.
Definition fmul (a b : Z) : Z :=
  foldr (λ k acc, (if Z.testbit b (Z.of_nat k) then Nat.iter k xtime a else 0) ⊕ acc)
    0 (seq 0 8).
(** The power 254. *)
Definition finv (a : Z) : Z :=
  foldr (λ k acc, fmul (Nat.iter k (λ b, fmul b b) a) acc) 1 (seq 1 7).

Definition parity (x : Z) : bool :=
  foldr (λ k b, xorb (Z.testbit x (Z.of_nat k)) b) false (seq 0 8).
(** The cyclic matrix of first row 0xa7 and the constant 0xd3. *)
Definition affine (x : Z) : Z :=
  foldr (λ k acc, let n := Z.of_nat k in
           (Z.b2z (parity ((u8 (0xa7 << n) .| (0xa7 >> (8 - n))) .& x)) << n) ⊕ acc)
    0 (seq 0 8) ⊕ 0xd3.
Definition S (x : Z) : Z := affine (finv (affine x)).

Definition tau (x : Z) : Z :=
  be32 (S (byte_at x 3)) (S (byte_at x 2)) (S (byte_at x 1)) (S (byte_at x 0)).
(** Rotation to the left of a 32-bit word. *)
Definition rot (x n : Z) : Z := (x * 2 ^ n) mod 2 ^ 32 + x / 2 ^ (32 - n).
Definition T (x : Z) : Z :=
  let B := tau x in B ⊕ rot B 2 ⊕ rot B 10 ⊕ rot B 18 ⊕ rot B 24.
Definition T' (x : Z) : Z := let B := tau x in B ⊕ rot B 13 ⊕ rot B 23.

(** One round on the register of four words. *)
Definition round (F : Z → Z) (x : quad) (k : Z) : quad :=
  let '(x0, x1, x2, x3) := x in (x1, x2, x3, x0 ⊕ F (x1 ⊕ x2 ⊕ x3 ⊕ k)).

Definition words4 (b : list Z) : quad :=
  let w i := be32 b.[4 * i] b.[4 * i + 1] b.[4 * i + 2] b.[4 * i + 3] in
  (w 0%nat, w 1%nat, w 2%nat, w 3%nat).
Definition word_bytes (x : Z) : list Z := [byte_at x 3; byte_at x 2; byte_at x 1; byte_at x 0].
Definition quad_bytes (x : quad) : list Z :=
  let '(x0, x1, x2, x3) := x in word_bytes x0 ++ word_bytes x1 ++ word_bytes x2 ++ word_bytes x3.
Definition reverse4 (x : quad) : quad := let '(x0, x1, x2, x3) := x in (x3, x2, x1, x0).

Definition crypt (ks block : list Z) : list Z :=
  quad_bytes (reverse4 (fold_left (round T) ks (words4 block))).

(** The constants of the key schedule: byte [j] of word [i] is (4i + j) * 7. *)
Definition ck (i : nat) : Z :=
  let b j := ((4 * Z.of_nat i + j) * 7) mod 256 in be32 (b 0) (b 1) (b 2) (b 3).
Definition FK : quad := (0xa3b1bac6, 0x56aa3350, 0x677d9197, 0xb27022dc).
Definition lxor4 (x y : quad) : quad :=
  let '(x0, x1, x2, x3) := x in let '(y0, y1, y2, y3) := y in
  (x0 ⊕ y0, x1 ⊕ y1, x2 ⊕ y2, x3 ⊕ y3).
(** The word a round shifts in. *)
Fixpoint shifted (F : Z → Z) (cs : list Z) (x : quad) : list Z :=
  match cs with
  | [] => []
  | c :: cs => let x := round F x c in x.2 :: shifted F cs x
  end.
Definition round_keys (key : list Z) : list Z :=
  shifted T' (map ck (seq 0 32)) (lxor4 (words4 key) FK).

Definition encrypt (key block : list Z) : list Z := crypt (round_keys key) block.
Definition decrypt (key block : list Z) : list Z := crypt (rev (round_keys key)) block.
End Gbt32907.

(** ** Words and bytes *)
Abbreviation block16 b := (bytes b ∧ length b = 16%nat).

Definition quad_ok (x : quad) : Prop :=
  let '(x0, x1, x2, x3) := x in is_u32 x0 ∧ is_u32 x1 ∧ is_u32 x2 ∧ is_u32 x3.

Lemma Rotl_uint x n : 0 ≤ n ≤ 32 → is_u32 x → is_u32 (Rotl x n).
Proof.
  intros Hn Hx. unfold Rotl. apply uint_lor; [lia|apply u32_uint|].
  apply uint_shiftr; [lia|lia|done].
Qed.

Lemma Rotl_rot x n : 0 ≤ n ≤ 32 → is_u32 x → Rotl x n = Gbt32907.rot x n.
Proof.
  intros Hn Hx. unfold Rotl, Gbt32907.rot.
  rewrite u32_mod, Z.shiftl_mul_pow2, Z.shiftr_div_pow2 by lia.
  assert (0 ≤ x / 2 ^ (32 - n) < 2 ^ n) as Hlo.
  { unfold uint in Hx. assert (0 < 2 ^ (32 - n)) by (apply Z.pow_pos_nonneg; lia).
    split; [apply Z.div_pos; lia|].
    apply Z.div_lt_upper_bound; [done|]. rewrite <- Z.pow_add_r by lia.
    replace (32 - n + n) with 32 by lia. lia. }
  rewrite Z.lor_comm. symmetry. rewrite Z.add_comm.
  rewrite <- (Z.land_ones _ 32) by lia.
  assert (Z.land (x / 2 ^ (32 - n)) (Z.land (x * 2 ^ n) (Z.ones 32)) = 0) as Hd.
  { apply Z.bits_inj'. intros i Hi. rewrite !Z.land_spec, Z.bits_0.
    destruct (decide (i < n)).
    - rewrite Z.mul_pow2_bits_low by lia. by rewrite !andb_false_r.
    - rewrite (uint_testbit n _ i Hlo) by lia. done. }
  rewrite Z.add_nocarry_lxor by done. by apply Z.lxor_lor.
Qed.

Section word.
Context (a b c d : Z) (Ha : is_u8 a) (Hb : is_u8 b) (Hc : is_u8 c) (Hd : is_u8 d).

(** The word the code computes from four bytes is the big-endian one. *)
Lemma swap32_load : swap32 (be32 d c b a) = be32 a b c d.
Proof using Ha Hb Hc Hd.
  apply (uint_eq_bits 32); [|by apply be32_uint|].
  - unfold swap32. apply uint_lor; [lia|apply u32_uint|].
    apply uint_shiftr; [lia|lia|]. apply uint_land_r; [lia|uint_lit].
  - unfold swap32, Rotl, be32, u32. by_bits 32%nat.
Qed.
End word.

Lemma swap32_store x : is_u32 x → st32 (swap32 x) = Gbt32907.word_bytes x.
Proof.
  intros Hx. rewrite <- (be32_byte_at x Hx) at 1.
  rewrite swap32_load by auto with machine. unfold st32.
  by rewrite byte_at_be32_0, byte_at_be32_1, byte_at_be32_2, byte_at_be32_3 by auto with machine.
Qed.

Lemma words4_ok b : bytes b → quad_ok (Gbt32907.words4 b).
Proof.
  intros Hb. unfold Gbt32907.words4, quad_ok.
  repeat split_and; apply be32_uint; apply (aget_uint 8); done.
Qed.

Lemma load_words b :
  bytes b →
  (swap32 (ld32 b 0), swap32 (ld32 b 1), swap32 (ld32 b 2), swap32 (ld32 b 3)) = Gbt32907.words4 b.
Proof.
  intros Hb. unfold Gbt32907.words4, ld32.
  by rewrite !swap32_load by (by apply (aget_uint 8)).
Qed.

(** ** The round functions *)
(** The table is the S-box of the standard, the constants are its constants. *)
Lemma Sbox_spec x : is_u8 x → Sbox.[Z.to_nat x] = Gbt32907.S x.
Proof.
  intros Hx. apply Z.eqb_eq.
  apply (all_below_spec 256 (λ x, Sbox.[Z.to_nat x] =? Gbt32907.S x)); [|exact Hx].
  vm_compute. reflexivity.
Qed.

Lemma CK_spec : CK = map Gbt32907.ck (seq 0 32).
Proof. vm_compute. reflexivity. Qed.

Lemma Sbox_uint i : is_u8 (Sbox.[i]).
Proof. apply (aget_uint 8); [lia|]. change (bytes Sbox). bytes_lit. Qed.

Lemma u32_lor_be32 a b c d :
  is_u8 a → is_u8 b → is_u8 c → is_u8 d →
  u32 (a << 24 .| b << 16 .| c << 8 .| d) = be32 a b c d.
Proof.
  intros Ha Hb Hc Hd. apply (uint_eq_bits 32); [apply u32_uint|by apply be32_uint|].
  unfold u32, be32. by_bits 32%nat.
Qed.

Lemma ByteSub_tau x : ByteSub x = Gbt32907.tau x.
Proof.
  unfold ByteSub, Gbt32907.tau. rewrite u32_lor_be32 by apply Sbox_uint.
  change (x >> 24 .& 0xFF) with (byte_at x 3). change (x >> 16 .& 0xFF) with (byte_at x 2).
  change (x >> 8 .& 0xFF) with (byte_at x 1).
  change (x .& 0xFF) with (byte_at x 0). by rewrite !Sbox_spec by apply byte_at_uint.
Qed.

Lemma ByteSub_uint x : is_u32 (ByteSub x).
Proof. apply u32_uint. Qed.

Lemma L1_T x : L1 (ByteSub x) = Gbt32907.T x.
Proof.
  unfold L1, Gbt32907.T. cbv zeta.
  rewrite !Rotl_rot by (lia || apply ByteSub_uint). by rewrite ByteSub_tau.
Qed.

Lemma L2_T' x : L2 (ByteSub x) = Gbt32907.T' x.
Proof.
  unfold L2, Gbt32907.T'. cbv zeta.
  rewrite !Rotl_rot by (lia || apply ByteSub_uint). by rewrite ByteSub_tau.
Qed.

Lemma L1_uint x : is_u32 x → is_u32 (L1 x).
Proof.
  intros Hx. unfold L1.
  repeat (apply uint_lxor; [lia| |]); try exact Hx; apply Rotl_uint; (lia || exact Hx).
Qed.

Lemma L2_uint x : is_u32 x → is_u32 (L2 x).
Proof.
  intros Hx. unfold L2.
  repeat (apply uint_lxor; [lia| |]); try exact Hx; apply Rotl_uint; (lia || exact Hx).
Qed.

Lemma T_uint x : is_u32 (Gbt32907.T x).
Proof. rewrite <- L1_T. apply L1_uint, ByteSub_uint. Qed.

Lemma T'_uint x : is_u32 (Gbt32907.T' x).
Proof. rewrite <- L2_T'. apply L2_uint, ByteSub_uint. Qed.

(** ** The loops *)
Section rounds.
Context (F : Z → Z) (HF : ∀ x, is_u32 (F x)).

Lemma round_ok x k : quad_ok x → quad_ok (Gbt32907.round F x k).
Proof using HF.
  destruct x as [[[x0 x1] x2] x3]. intros (H0 & H1 & H2 & H3). simpl.
  split_and!; try done. apply uint_lxor; [lia|done|apply HF].
Qed.

Lemma rounds_ok ks x : quad_ok x → quad_ok (fold_left (Gbt32907.round F) ks x).
Proof using HF. revert x. induction ks; intros x Hx; simpl; auto using round_ok. Qed.

Lemma shifted_app cs cs' x :
  Gbt32907.shifted F (cs ++ cs') x =
  Gbt32907.shifted F cs x ++ Gbt32907.shifted F cs' (fold_left (Gbt32907.round F) cs x).
Proof using Type.
  revert x. induction cs as [|c cs IH]; intros x; simpl; [done|]. by rewrite IH.
Qed.

Lemma length_shifted cs x : length (Gbt32907.shifted F cs x) = length cs.
Proof using Type. revert x. induction cs; intros x; simpl; auto. Qed.
End rounds.

(** A pass of the code is four rounds. *)
Lemma crypt_pass_rounds rk x r :
  crypt_pass rk x r =
  fold_left (Gbt32907.round Gbt32907.T) [rk.[r + 0]; rk.[r + 1]; rk.[r + 2]; rk.[r + 3]] x.
Proof.
  destruct x as [[[x0 x1] x2] x3]. unfold crypt_pass. cbv zeta. by rewrite !L1_T.
Qed.

Lemma crypt_loop rk x :
  length rk = 32%nat →
  fold_left (crypt_pass rk) loop4 x = fold_left (Gbt32907.round Gbt32907.T) rk x.
Proof.
  intros Hl. rewrite <- (firstn_all rk) at 2. rewrite Hl, take_aget by lia.
  unfold loop4. cbn [fold_left]. rewrite !crypt_pass_rounds, <- !fold_left_app. done.
Qed.

Definition ck_at (r : nat) : list Z := [CK.[r + 0]; CK.[r + 1]; CK.[r + 2]; CK.[r + 3]].

(** A pass of the key schedule is four rounds, whose new words go to [rk]. *)
Lemma keyext_pass_rounds x pre q0 q1 q2 q3 suf r :
  length pre = r →
  keyext_pass (x, pre ++ q0 :: q1 :: q2 :: q3 :: suf) r =
  (fold_left (Gbt32907.round Gbt32907.T') (ck_at r) x,
   (pre ++ Gbt32907.shifted Gbt32907.T' (ck_at r) x) ++ suf).
Proof.
  intros Hr. destruct x as [[[x0 x1] x2] x3]. unfold keyext_pass. cbv zeta.
  rewrite !L2_T'. f_equal. subst r.
  rewrite !insert_app_r. rewrite <- app_assoc. done.
Qed.

Lemma keyext_loop n k x pre suf :
  length pre = (4 * k)%nat → length suf = (4 * n)%nat →
  snd (fold_left keyext_pass (map (λ i, 4 * i)%nat (seq k n)) (x, pre ++ suf)) =
  pre ++ Gbt32907.shifted Gbt32907.T' (concat (map (λ i, ck_at (4 * i)) (seq k n))) x.
Proof.
  revert k x pre suf. induction n as [|n IH]; intros k x pre suf Hp Hs.
  - destruct suf; [done|simpl in Hs; lia].
  - destruct suf as [|q0 [|q1 [|q2 [|q3 suf]]]]; simpl in Hs; try lia.
    cbn [seq map fold_left concat].
    rewrite (keyext_pass_rounds x pre q0 q1 q2 q3 suf (4 * k)) by done.
    rewrite IH by (rewrite ?length_app, ?length_shifted; cbn; lia).
    by rewrite (shifted_app Gbt32907.T' (ck_at (4 * k))), <- app_assoc.
Qed.

Lemma swap_rk_rev rk : length rk = 32%nat → fold_left swap_rk (seq 0 16) rk = rev rk.
Proof.
  intros Hl. do 32 (destruct rk as [|? rk]; [discriminate|]).
  destruct rk; [|discriminate]. reflexivity.
Qed.

Lemma SMS4KeyExt_spec Key rk flag :
  block16 Key → length rk = 32%nat →
  SMS4KeyExt Key rk flag =
  if flag =? DECRYPT then rev (Gbt32907.round_keys Key) else Gbt32907.round_keys Key.
Proof.
  intros [Hb Hl] Hrk. unfold SMS4KeyExt.
  assert (∀ x, snd (fold_left keyext_pass loop4 (x, rk)) =
    Gbt32907.shifted Gbt32907.T' (map Gbt32907.ck (seq 0 32)) x) as Hloop.
  { intros x. rewrite <- CK_spec. exact (keyext_loop 8 0 x [] rk eq_refl Hrk). }
  rewrite Hloop. pose proof (load_words Key Hb) as Hw. cbv zeta.
  unfold Gbt32907.round_keys. rewrite <- Hw. cbn [Gbt32907.lxor4 Gbt32907.FK].
  destruct (flag =? DECRYPT); [|done].
  apply swap_rk_rev. by rewrite length_shifted, length_map, length_seq.
Qed.

Lemma SMS4Crypt_spec Input rk :
  block16 Input → length rk = 32%nat → SMS4Crypt Input rk = Gbt32907.crypt rk Input.
Proof.
  intros [Hb Hl] Hrk. unfold SMS4Crypt. cbv zeta. rewrite load_words, crypt_loop by done.
  unfold Gbt32907.crypt.
  pose proof (rounds_ok _ T_uint rk _ (words4_ok _ Hb)) as Hok.
  destruct (fold_left _ rk _) as [[[x0 x1] x2] x3]. destruct Hok as (H0 & H1 & H2 & H3).
  by rewrite !swap32_store by done.
Qed.

(** ** Decryption undoes encryption *)
Lemma round_reverse F x k :
  Gbt32907.round F (Gbt32907.reverse4 (Gbt32907.round F x k)) k = Gbt32907.reverse4 x.
Proof.
  destruct x as [[[x0 x1] x2] x3]. simpl. f_equal.
  replace (x3 ⊕ x2 ⊕ x1 ⊕ k) with (x1 ⊕ x2 ⊕ x3 ⊕ k).
  - by rewrite Z.lxor_assoc, Z.lxor_nilpotent, Z.lxor_0_r.
  - rewrite (Z.lxor_comm x3 x2), (Z.lxor_comm (x2 ⊕ x3) x1). by rewrite !Z.lxor_assoc.
Qed.

Lemma rounds_reverse F ks x :
  fold_left (Gbt32907.round F) (rev ks)
    (Gbt32907.reverse4 (fold_left (Gbt32907.round F) ks x)) = Gbt32907.reverse4 x.
Proof.
  revert x. induction ks as [|k ks IH]; intros x; simpl; [done|].
  by rewrite fold_left_app, IH, <- (round_reverse F x k).
Qed.

Lemma words4_quad_bytes x : quad_ok x → Gbt32907.words4 (Gbt32907.quad_bytes x) = x.
Proof.
  destruct x as [[[x0 x1] x2] x3]. intros (H0 & H1 & H2 & H3).
  unfold Gbt32907.words4, Gbt32907.quad_bytes, Gbt32907.word_bytes, aget. simpl.
  by rewrite !be32_byte_at by done.
Qed.

Lemma quad_bytes_words4 b : block16 b → Gbt32907.quad_bytes (Gbt32907.words4 b) = b.
Proof.
  intros [Hb Hl]. do 16 (destruct b as [|? b]; [discriminate|]). destruct b; [|discriminate].
  unfold bytes in Hb. rewrite !Forall_cons in Hb. destruct_and!.
  unfold Gbt32907.words4, Gbt32907.quad_bytes, Gbt32907.word_bytes, aget. simpl.
  by rewrite !byte_at_be32_0, !byte_at_be32_1, !byte_at_be32_2, !byte_at_be32_3 by done.
Qed.

Lemma quad_bytes_block x : block16 (Gbt32907.quad_bytes x).
Proof.
  destruct x as [[[x0 x1] x2] x3]. split; [|done].
  unfold bytes, Gbt32907.quad_bytes, Gbt32907.word_bytes. simpl.
  rewrite !Forall_cons. split_and!; try apply byte_at_uint. constructor.
Qed.

Lemma reverse4_ok x : quad_ok x → quad_ok (Gbt32907.reverse4 x).
Proof. destruct x as [[[x0 x1] x2] x3]. simpl. naive_solver. Qed.

Lemma length_round_keys Key : length (Gbt32907.round_keys Key) = 32%nat.
Proof. unfold Gbt32907.round_keys. by rewrite length_shifted, length_map, length_seq. Qed.

Lemma crypt_reverse ks b :
  block16 b → Gbt32907.crypt (rev ks) (Gbt32907.crypt ks b) = b.
Proof.
  intros Hb. unfold Gbt32907.crypt. rewrite words4_quad_bytes.
  - rewrite rounds_reverse. 
    replace (Gbt32907.reverse4 (Gbt32907.reverse4 _)) with (Gbt32907.words4 b) by done.
    by apply quad_bytes_words4.
  - apply reverse4_ok, rounds_ok; [exact T_uint|apply words4_ok, Hb].
Qed.

Lemma xor_block_bytes a b : block16 a → block16 b → xor_block a b = xor_bytes a b.
Proof.
  intros [Ha La] [Hb Lb].
  do 16 (destruct a as [|? a]; [discriminate|]). destruct a; [|discriminate].
  do 16 (destruct b as [|? b]; [discriminate|]). destruct b; [|discriminate].
  unfold bytes in Ha, Hb. rewrite !Forall_cons in Ha, Hb. destruct_and!.
  unfold xor_block, ld32, st32, aget. simpl. rewrite !be32_lxor.
  rewrite !byte_at_be32_0, !byte_at_be32_1, !byte_at_be32_2, !byte_at_be32_3
    by (apply uint_lxor; done || lia).
  done.
Qed.

(** ** Properties *)
(** The test vector of the standard: the key is also the plaintext. *)
Definition demo_key : list Z :=
  [0x01; 0x23; 0x45; 0x67; 0x89; 0xab; 0xcd; 0xef; 0xfe; 0xdc; 0xba; 0x98; 0x76; 0x54; 0x32; 0x10].

(** C17: with the round keys [SMS4KeyExt] leaves in [rk] for ENCRYPT, SMS4Crypt
    computes the encryption of GB/T 32907 of every 16-byte block under every
    16-byte key, and with those for DECRYPT its decryption, whatever the array
    [rk] held before; the S-box table, the constants and the four rounds of
    each pass of the loops are the standard's. *)
Theorem sms4_refines_gbt32907 (Key Input rk : list Z) :
  block16 Key → block16 Input → length rk = 32%nat →
  SMS4Crypt Input (SMS4KeyExt Key rk ENCRYPT) = Gbt32907.encrypt Key Input ∧
  SMS4Crypt Input (SMS4KeyExt Key rk DECRYPT) = Gbt32907.decrypt Key Input.
Proof.
  intros HK HI Hrk. rewrite !SMS4KeyExt_spec by done.
  change (ENCRYPT =? DECRYPT) with false.
  change (DECRYPT =? DECRYPT) with true. cbv iota.
  split; apply SMS4Crypt_spec; try exact HI; [|rewrite length_rev]; apply length_round_keys.
Qed.

Lemma sms4_refines_gbt32907_witness :
  SMS4Crypt demo_key (SMS4KeyExt demo_key (replicate 32 0) ENCRYPT)
  = Gbt32907.encrypt demo_key demo_key ∧
  Gbt32907.encrypt demo_key demo_key =
  [0x68; 0x1e; 0xdf; 0x34; 0xd2; 0x06; 0x96; 0x5e; 0x86; 0xb3; 0xe9; 0x4f; 0x53; 0x6e; 0x42; 0x46].
Proof.
  split; [|vm_compute; reflexivity].
  refine (proj1 (sms4_refines_gbt32907 demo_key demo_key (replicate 32 0) _ _ _));
    [split; [bytes_lit|done]..|done].
Defined.

(** Deciphering undoes enciphering: for every 16-byte key and block,
    SMS4Crypt with the keys [SMS4KeyExt] prepares for DECRYPT gives back the
    block that SMS4Crypt enciphered with those for ENCRYPT, and the enciphered
    block is again 16 bytes. *)
Theorem sms4_roundtrip (Key Input rk rk' : list Z) :
  block16 Key → block16 Input → length rk = 32%nat → length rk' = 32%nat →
  let c := SMS4Crypt Input (SMS4KeyExt Key rk ENCRYPT) in
  block16 c ∧ SMS4Crypt c (SMS4KeyExt Key rk' DECRYPT) = Input.
Proof.
  intros HK HI Hrk Hrk'. cbv zeta. rewrite !SMS4KeyExt_spec by done.
  change (ENCRYPT =? DECRYPT) with false.
  change (DECRYPT =? DECRYPT) with true. cbv iota.
  rewrite (SMS4Crypt_spec Input); [|exact HI|apply length_round_keys].
  split; [apply quad_bytes_block|].
  rewrite SMS4Crypt_spec;
    [|apply quad_bytes_block|rewrite length_rev; apply length_round_keys].
  by apply crypt_reverse.
Qed.

Lemma sms4_roundtrip_witness :
  SMS4Crypt (SMS4Crypt demo_key (SMS4KeyExt demo_key (replicate 32 0) ENCRYPT))
    (SMS4KeyExt demo_key (replicate 32 7) DECRYPT) = demo_key.
Proof.
  refine (proj2 (sms4_roundtrip demo_key demo_key (replicate 32 0) (replicate 32 7) _ _ _ _));
    [split; [bytes_lit|done]..|done|done].
Defined.
