(* ===== verification/SwAes.v ===== *)
(** * The byte-oriented AES-128 of [core/rtw_security.c]

    The cipher the driver uses when it is built with NEW_CRYPTO = 0: the S-box
    table, the key schedule that replaces the round key in place, the round
    transformations on arrays of 16 bytes and [aes128k128d].  It computes
    AES-128 as FIPS-197 defines it, so it is the same function as the
    table-driven implementation of [core/crypto]. *)
From S2P Require Import Prelude Fips197 Aes AesCorrect.
From stdpp Require Import list.
Local Open Scope Z_scope.

Definition sbox_table : list Z := [
  0x63; 0x7c; 0x77; 0x7b; 0xf2; 0x6b; 0x6f; 0xc5;
  0x30; 0x01; 0x67; 0x2b; 0xfe; 0xd7; 0xab; 0x76;
  0xca; 0x82; 0xc9; 0x7d; 0xfa; 0x59; 0x47; 0xf0;
  0xad; 0xd4; 0xa2; 0xaf; 0x9c; 0xa4; 0x72; 0xc0;
  0xb7; 0xfd; 0x93; 0x26; 0x36; 0x3f; 0xf7; 0xcc;
  0x34; 0xa5; 0xe5; 0xf1; 0x71; 0xd8; 0x31; 0x15;
  0x04; 0xc7; 0x23; 0xc3; 0x18; 0x96; 0x05; 0x9a;
  0x07; 0x12; 0x80; 0xe2; 0xeb; 0x27; 0xb2; 0x75;
  0x09; 0x83; 0x2c; 0x1a; 0x1b; 0x6e; 0x5a; 0xa0;
  0x52; 0x3b; 0xd6; 0xb3; 0x29; 0xe3; 0x2f; 0x84;
  0x53; 0xd1; 0x00; 0xed; 0x20; 0xfc; 0xb1; 0x5b;
  0x6a; 0xcb; 0xbe; 0x39; 0x4a; 0x4c; 0x58; 0xcf;
  0xd0; 0xef; 0xaa; 0xfb; 0x43; 0x4d; 0x33; 0x85;
  0x45; 0xf9; 0x02; 0x7f; 0x50; 0x3c; 0x9f; 0xa8;
  0x51; 0xa3; 0x40; 0x8f; 0x92; 0x9d; 0x38; 0xf5;
  0xbc; 0xb6; 0xda; 0x21; 0x10; 0xff; 0xf3; 0xd2;
  0xcd; 0x0c; 0x13; 0xec; 0x5f; 0x97; 0x44; 0x17;
  0xc4; 0xa7; 0x7e; 0x3d; 0x64; 0x5d; 0x19; 0x73;
  0x60; 0x81; 0x4f; 0xdc; 0x22; 0x2a; 0x90; 0x88;
  0x46; 0xee; 0xb8; 0x14; 0xde; 0x5e; 0x0b; 0xdb;
  0xe0; 0x32; 0x3a; 0x0a; 0x49; 0x06; 0x24; 0x5c;
  0xc2; 0xd3; 0xac; 0x62; 0x91; 0x95; 0xe4; 0x79;
  0xe7; 0xc8; 0x37; 0x6d; 0x8d; 0xd5; 0x4e; 0xa9;
  0x6c; 0x56; 0xf4; 0xea; 0x65; 0x7a; 0xae; 0x08;
  0xba; 0x78; 0x25; 0x2e; 0x1c; 0xa6; 0xb4; 0xc6;
  0xe8; 0xdd; 0x74; 0x1f; 0x4b; 0xbd; 0x8b; 0x8a;
  0x70; 0x3e; 0xb5; 0x66; 0x48; 0x03; 0xf6; 0x0e;
  0x61; 0x35; 0x57; 0xb9; 0x86; 0xc1; 0x1d; 0x9e;
  0xe1; 0xf8; 0x98; 0x11; 0x69; 0xd9; 0x8e; 0x94;
  0x9b; 0x1e; 0x87; 0xe9; 0xce; 0x55; 0x28; 0xdf;
  0x8c; 0xa1; 0x89; 0x0d; 0xbf; 0xe6; 0x42; 0x68;
  0x41; 0x99; 0x2d; 0x0f; 0xb0; 0x54; 0xbb; 0x16
].

(** ** The code *)
(** [out[i] = a[i] ^ b[i]] over the first [n] indices. *)
Definition xor_n (n : nat) (a b : list Z) : list Z := map (λ i, a.[i] ⊕ b.[i]) (seq 0 n).
Definition xor_128 (a b : list Z) : list Z := xor_n 16 a b.
Definition xor_32 (a b : list Z) : list Z := xor_n 4 a b.
Definition bitwise_xor (ina inb : list Z) : list Z := xor_n 16 ina inb.

Definition sbox (a : Z) : Z := sbox_table.[Z.to_nat a].

Definition rcon_table : list Z :=
  [0x01; 0x02; 0x04; 0x08; 0x10; 0x20; 0x40; 0x80; 0x1b; 0x36; 0x36; 0x36].

(** The round key is replaced in place. *)
Definition next_key (key : list Z) (round : nat) : list Z :=
  let sbox_key := [sbox key.[13]; sbox key.[14]; sbox key.[15]; sbox key.[12]] in
  let rcon := rcon_table.[round] in
  let key := memcpy key 0 (xor_32 key sbox_key) in
  let key := <[0%nat := key.[0] ⊕ rcon]> key in
  let key := memcpy key 4 (xor_32 (drop 4 key) key) in
  let key := memcpy key 8 (xor_32 (drop 8 key) (drop 4 key)) in
  memcpy key 12 (xor_32 (drop 12 key) (drop 8 key)).

Definition byte_sub (inp : list Z) : list Z := map (λ i, sbox inp.[i]) (seq 0 16).

Definition shift_row (inp : list Z) : list Z :=
  [inp.[0]; inp.[5]; inp.[10]; inp.[15]; inp.[4]; inp.[9]; inp.[14]; inp.[3];
   inp.[8]; inp.[13]; inp.[2]; inp.[7]; inp.[12]; inp.[1]; inp.[6]; inp.[11]].

(** One pass of the loop that shifts [andf7] left by one bit. *)
Definition shl_pass (andf7 : list Z) (i : nat) : list Z :=
  let andf7 := <[i := u8 (andf7.[i] << 1)]> andf7 in
  if andf7.[i - 1] .& 0x80 =? 0x80 then <[i := andf7.[i] .| 0x01]> andf7 else andf7.

(** Four bytes in, four bytes out. *)
Definition mix_column (inp : list Z) : list Z :=
  let add1b := map (λ i, if inp.[i] .& 0x80 =? 0x80 then 0x1b else 0x00) (seq 0 4) in
  let swap_halfs := [inp.[2]; inp.[3]; inp.[0]; inp.[1]] in
  let rotl := [inp.[3]; inp.[0]; inp.[1]; inp.[2]] in
  let andf7 := [inp.[0] .& 0x7f; inp.[1] .& 0x7f; inp.[2] .& 0x7f; inp.[3] .& 0x7f] in
  let andf7 := fold_left shl_pass [3; 2; 1]%nat andf7 in
  let andf7 := <[0%nat := u8 (andf7.[0] << 1)]> andf7 in
  let andf7 := <[0%nat := andf7.[0] .& 0xfe]> andf7 in
  let add1bf7 := xor_32 add1b andf7 in
  let rotr := xor_32 inp add1bf7 in
  let rotr := [rotr.[1]; rotr.[2]; rotr.[3]; rotr.[0]] in
  let temp := xor_32 add1bf7 rotr in
  let tempb := xor_32 swap_halfs rotl in
  xor_32 temp tempb.

(** One pass of the loop over the rounds; the state is [ciphertext] and
    [round_key]. *)
Definition aes_round (data : list Z) (s : list Z * list Z) (round : nat) : list Z * list Z :=
  let '(ciphertext, round_key) := s in
  if (round =? 0)%nat then (xor_128 round_key data, next_key round_key round)
  else if (round =? 10)%nat then
    (xor_128 (shift_row (byte_sub ciphertext)) round_key, round_key)
  else
    let b := shift_row (byte_sub ciphertext) in
    let a := mix_column b ++ mix_column (drop 4 b) ++ mix_column (drop 8 b) ++ mix_column (drop 12 b) in
    (xor_128 a round_key, next_key round_key round).

(** The contents of [ciphertext] before the first round are not read. *)
Definition aes128k128d (key data : list Z) : list Z :=
  fst (fold_left (aes_round data) (seq 0 11) ([], map (aget key) (seq 0 16))).

Example aes128k128d_appendix_B :
  aes128k128d
    [0x2b;0x7e;0x15;0x16;0x28;0xae;0xd2;0xa6;0xab;0xf7;0x15;0x88;0x09;0xcf;0x4f;0x3c]
    [0x32;0x43;0xf6;0xa8;0x88;0x5a;0x30;0x8d;0x31;0x31;0x98;0xa2;0xe0;0x37;0x07;0x34]
  = [0x39;0x25;0x84;0x1d;0x02;0xdc;0x09;0xfb;0xdc;0x11;0x85;0x97;0x19;0x6a;0x0b;0x32].
Proof. vm_compute. reflexivity. Qed.

(** ** The transformations *)
Lemma length_xor_n n a b : length (xor_n n a b) = n.
Proof. apply length_map_seq. Qed.

Lemma xor_n_bytes n a b : length a = n → length b = n → xor_n n a b = xor_bytes a b.
Proof.
  intros Ha Hb. apply list_aget_eq.
  - rewrite length_xor_n, length_xor_bytes; lia.
  - intros i Hi. rewrite length_xor_n in Hi. unfold xor_n.
    rewrite aget_map_seq, aget_xor_bytes by lia. done.
Qed.

Lemma sbox_SBox x : is_u8 x → sbox x = SBox x.
Proof. apply all_u8. vm_compute. reflexivity. Qed.

Lemma sbox_uint x : is_u8 (sbox x).
Proof. apply (aget_uint 8); [lia|]. change (bytes sbox_table). bytes_lit. Qed.

Lemma byte_sub_SubBytes s : bytes s → length s = 16%nat → byte_sub s = SubBytes s.
Proof.
  intros Hb Hl. rewrite (length16 s Hl). unfold byte_sub, SubBytes, aget. cbn [seq map nth].
  by rewrite !sbox_SBox by (apply (aget_uint 8); [lia|done]).
Qed.

Lemma shift_row_ShiftRows s : shift_row s = ShiftRows s.
Proof. reflexivity. Qed.

(** Multiplication by x, as [mix_column] computes it for a byte. *)
Lemma add1b_xtime x :
  is_u8 x → (if x .& 0x80 =? 0x80 then 0x1b else 0) ⊕ u8 ((x .& 0x7f) << 1) = gmul 2 x.
Proof.
  apply (all_u8 (λ x, (if x .& 0x80 =? 0x80 then 0x1b else 0) ⊕ u8 ((x .& 0x7f) << 1)) (gmul 2)).
  vm_compute. reflexivity.
Qed.
Lemma gmul3_xor x : is_u8 x → gmul 3 x = x ⊕ gmul 2 x.
Proof. apply (all_u8 (gmul 3) (λ x, x ⊕ gmul 2 x)). vm_compute. reflexivity. Qed.
Lemma shl_even x : u8 (x << 1) .& 0xfe = u8 (x << 1).
Proof.
  apply (uint_eq_bits 8).
  - apply uint_land_r; [lia|uint_lit].
  - apply u8_uint.
  - unfold u8. by_bits 8%nat.
Qed.
Lemma no_carry x : ((x .& 0x7f) .& 0x80 =? 0x80) = false.
Proof. rewrite <- Z.land_assoc. change (0x7f .& 0x80) with 0. by rewrite Z.land_0_r. Qed.

Lemma mix_column_MixColumn a b c d l :
  is_u8 a → is_u8 b → is_u8 c → is_u8 d → mix_column (a :: b :: c :: d :: l) = MixColumn a b c d.
Proof.
  intros Ha Hb Hc Hd. unfold mix_column, shl_pass, xor_32, xor_n, aget.
  cbn [seq map fold_left nth insert list_insert Nat.sub].
  do 3 (rewrite !no_carry; cbn [nth insert list_insert]). rewrite shl_even, !add1b_xtime by done.
  unfold MixColumn. rewrite !gmul3_xor by done.
  generalize (gmul 2 a), (gmul 2 b), (gmul 2 c), (gmul 2 d). intros a2 b2 c2 d2.
  apply (f_equal4 (λ p q r s, [p; q; r; s])); apply Z.bits_inj'; intros i _; rewrite !Z.lxor_spec;
    by repeat destruct (Z.testbit _ _).
Qed.

Lemma mix_columns_MixColumns s :
  bytes s → length s = 16%nat →
  mix_column s ++ mix_column (drop 4 s) ++ mix_column (drop 8 s) ++ mix_column (drop 12 s) = MixColumns s.
Proof.
  intros Hb Hl. rewrite (length16 s Hl). cbn [drop skipn].
  rewrite !mix_column_MixColumn by (apply (aget_uint 8); [lia|done]). reflexivity.
Qed.

(** ** The key schedule *)
Definition rk_bytes (w : list Z) (r : nat) : list Z := concat (map word_bytes (round_key w r)).

Lemma Rcon_table i : (i < 10)%nat → Rcon (i + 1) = be32 rcon_table.[i] 0 0 0.
Proof. intros Hi. do 10 (destruct i as [|i]; [vm_compute; reflexivity|]). lia. Qed.

Lemma rcon_table_uint i : is_u8 (rcon_table.[i]).
Proof. apply (aget_uint 8); [lia|]. change (bytes rcon_table). bytes_lit. Qed.

Lemma SubRot_be32 a b c d :
  is_u8 a → is_u8 b → is_u8 c → is_u8 d →
  SubWord (RotWord (be32 a b c d)) = be32 (SBox b) (SBox c) (SBox d) (SBox a).
Proof.
  intros Ha Hb Hc Hd. unfold SubWord, RotWord.
  by rewrite !byte_at_be32_0, !byte_at_be32_1, !byte_at_be32_2, !byte_at_be32_3
    by (done || rewrite ?byte_at_be32_0, ?byte_at_be32_1, ?byte_at_be32_2, ?byte_at_be32_3 by done; done).
Qed.

(** The four words that follow [w], as the standard chains them. *)
Lemma KeyStep4 w i :
  length w = (4 * (i + 1))%nat →
  let n0 := w.[4 * i] ⊕ (SubWord (RotWord w.[4 * i + 3]) ⊕ Rcon (i + 1)) in
  let n1 := w.[4 * i + 1] ⊕ n0 in let n2 := w.[4 * i + 2] ⊕ n1 in
  Nat.iter 4 (KeyStep 4) w = w ++ [n0; n1; n2; w.[4 * i + 3] ⊕ n2].
Proof.
  intros Hl. cbv zeta. rewrite !Nat.iter_succ. cbn [Nat.iter nat_rect].
  rewrite (KeyStep_first 4 w i) by (done || lia). cbn [Nat.sub].
  key_next i 1%nat. key_next i 2%nat. key_next i 3%nat. done.
Qed.

Lemma next_key_words x0 x1 x2 x3 i :
  is_u32 x0 → is_u32 x1 → is_u32 x2 → is_u32 x3 → (i < 10)%nat →
  let n0 := x0 ⊕ (SubWord (RotWord x3) ⊕ Rcon (i + 1)) in
  let n1 := x1 ⊕ n0 in let n2 := x2 ⊕ n1 in
  next_key (word_bytes x0 ++ word_bytes x1 ++ word_bytes x2 ++ word_bytes x3) i =
    word_bytes n0 ++ word_bytes n1 ++ word_bytes n2 ++ word_bytes (x3 ⊕ n2).
Proof.
  intros H0 H1 H2 H3 Hi. cbv zeta.
  split_word x0. split_word x1. split_word x2. split_word x3.
  pose proof (rcon_table_uint i). rewrite Rcon_table, SubRot_be32 by done.
  rewrite !be32_lxor, !word_bytes_be32 by auto 20 with machine. rewrite !Z.lxor_0_r.
  unfold next_key. generalize dependent (rcon_table.[i]). intros rc Hrc.
  unfold aget. cbn [app nth]. rewrite !sbox_SBox by done.
  repeat match goal with |- context [SBox ?x] => generalize (SBox x); intros ? end.
  unfold memcpy, xor_32, xor_n, aget. cbn.
  rewrite !Z.lxor_assoc. reflexivity.
Qed.

Lemma iter_KeyStep_prefix Nk n w : ∃ l, Nat.iter n (KeyStep Nk) w = w ++ l.
Proof.
  induction n as [|n [l IH]]; [exists []; by rewrite app_nil_r|].
  rewrite Nat.iter_succ, IH. unfold KeyStep. eexists. by rewrite <- app_assoc.
Qed.

Lemma round_key_app w l r : (4 * r + 4 ≤ length w)%nat → round_key (w ++ l) r = round_key w r.
Proof.
  intros H. rewrite !round_key_aget by (rewrite ?length_app; lia).
  by rewrite !aget_app_l by lia.
Qed.

Lemma next_key_KeyStep w i :
  length w = (4 * (i + 1))%nat → words w → (i < 10)%nat →
  next_key (rk_bytes w i) i = rk_bytes (Nat.iter 4 (KeyStep 4) w) (i + 1).
Proof.
  intros Hl Hw Hi. unfold rk_bytes.
  rewrite (round_key_aget w i) by lia. rewrite (KeyStep4 w i Hl).
  rewrite round_key_aget by (rewrite length_app; cbn; lia).
  rewrite !(aget_app_r w _ (4 * (i + 1))) by done.
  replace (4 * (i + 1))%nat with (4 * (i + 1) + 0)%nat at 1 by lia.
  rewrite (aget_app_r w _ (4 * (i + 1))) by done.
  unfold aget at 5 6 7 8. cbn [nth map concat]. rewrite !app_nil_r.
  apply next_key_words; try done; apply (aget_uint 32); done || lia.
Qed.

Lemma rk_bytes_bytes w r : bytes (rk_bytes w r).
Proof.
  unfold rk_bytes. induction (round_key w r) as [|x l IH]; cbn [map concat]; [constructor|].
  apply bytes_app; [apply word_bytes_uint|done].
Qed.
Lemma length_rk_bytes w r : (4 * r + 4 ≤ length w)%nat → length (rk_bytes w r) = 16%nat.
Proof. intros H. unfold rk_bytes. by rewrite round_key_aget by done. Qed.

Lemma key_words_bytes key :
  bytes key → length key = 16%nat → concat (map word_bytes (key_words 4 key)) = key.
Proof.
  intros Hk Lk. unfold key_words. cbn [seq map concat].
  rewrite !word_bytes_be32 by (apply (aget_uint 8); done || lia).
  symmetry. exact (length16 key Lk).
Qed.

(** ** The rounds *)
Lemma xor_128_ok a b : bytes a → bytes b → bytes (xor_128 a b) ∧ length (xor_128 a b) = 16%nat.
Proof.
  intros Ha Hb. split; [|apply length_xor_n]. apply Forall_map, Forall_forall.
  intros i _. cbn. apply uint_lxor; [lia|by apply (aget_uint 8)..].
Qed.

Lemma shift_byte_sub s :
  bytes s → length s = 16%nat →
  shift_row (byte_sub s) = ShiftRows (SubBytes s) ∧
  bytes (shift_row (byte_sub s)) ∧ length (shift_row (byte_sub s)) = 16%nat.
Proof.
  intros Hs Ls. rewrite byte_sub_SubBytes, shift_row_ShiftRows by done. split_and!; [done| |done].
  apply Forall_map, Forall_forall. intros i _. cbn.
  apply (aget_uint 8); [lia|]. apply Forall_map. eapply Forall_impl; [exact Hs|].
  intros x Hx. by apply SBox_uint.
Qed.

Lemma MixColumn_bytes a b c d :
  is_u8 a → is_u8 b → is_u8 c → is_u8 d → bytes (MixColumn a b c d).
Proof.
  intros Ha Hb Hc Hd. unfold bytes, MixColumn. rewrite !Forall_cons. split_and!; [..|constructor];
    (apply uint_lxor; [lia|apply uint_lxor; [lia|apply uint_lxor; [lia| |]|]|]);
    auto with machine.
Qed.

Lemma MixColumns_ok s : bytes s → bytes (MixColumns s) ∧ length (MixColumns s) = 16%nat.
Proof.
  intros Hs. split; [|done]. unfold MixColumns. cbn [seq map concat].
  repeat (apply bytes_app; [apply MixColumn_bytes; by apply (aget_uint 8)|]). constructor.
Qed.

Section rounds.
Context (key data : list Z) (Hk : bytes key) (Lk : length key = 16%nat).
Context (Hd : bytes data) (Ld : length data = 16%nat).
Context (W : list Z) (HW : W = KeyExpansion 4 10 key).

(** The round key of round [r] on its own. *)
Lemma next_key_W r : (r < 10)%nat → next_key (rk_bytes W r) r = rk_bytes W (r + 1).
Proof using All.
  intros Hr. rewrite HW. unfold KeyExpansion.
  replace (4 * (10 + 1) - 4)%nat with (4 * (9 - r) + 4 + 4 * r)%nat by lia.
  rewrite !Nat.iter_add. set (w := Nat.iter (4 * r) (KeyStep 4) (key_words 4 key)).
  assert (length w = (4 * (r + 1))%nat) as Lw.
  { unfold w. rewrite length_iter_KeyStep, length_key_words. lia. }
  assert (words w) as Hw.
  { unfold w. pose proof (KeyExpansion_words 4 r key Hk) as H. unfold KeyExpansion in H.
    by replace (4 * (r + 1) - 4)%nat with (4 * r)%nat in H by lia. }
  destruct (iter_KeyStep_prefix 4 4 w) as [l4 E4].
  destruct (iter_KeyStep_prefix 4 (4 * (9 - r)) (Nat.iter 4 (KeyStep 4) w)) as [l El].
  rewrite El. unfold rk_bytes.
  rewrite (round_key_app _ l (r + 1)) by (rewrite length_iter_KeyStep; lia).
  rewrite (round_key_app _ l r) by (rewrite length_iter_KeyStep; lia).
  rewrite E4 at 1. rewrite (round_key_app w l4 r) by lia. by apply next_key_KeyStep.
Qed.

Lemma AddRoundKey_xor s r : 
  length s = 16%nat → (r ≤ 10)%nat → xor_128 s (rk_bytes W r) = AddRoundKey s (round_key W r).
Proof using All.
  intros Ls Hr. unfold xor_128, AddRoundKey. apply xor_n_bytes; [done|].
  apply length_rk_bytes. rewrite HW, length_KeyExpansion; lia.
Qed.

(** The state in front of round [r + 1]. *)
Lemma aes_rounds r :
  (r < 10)%nat →
  let s := fold_left (Round W) (seq 1 r) (AddRoundKey data (round_key W 0)) in
  fold_left (aes_round data) (seq 0 (S r)) ([], map (aget key) (seq 0 16)) = (s, rk_bytes W (r + 1)) ∧
  bytes s ∧ length s = 16%nat.
Proof using All.
  induction r as [|r IH]; intros Hr; cbv zeta.
  - cbn [seq fold_left aes_round Nat.eqb].
    assert (map (aget key) (seq 0 16) = rk_bytes W 0) as Hk0.
    { rewrite <- take_aget, take_ge by lia. rewrite HW. unfold rk_bytes, KeyExpansion.
      destruct (iter_KeyStep_prefix 4 (4 * (10 + 1) - 4) (key_words 4 key)) as [l ->].
      rewrite round_key_app by (rewrite length_key_words; lia).
      unfold round_key. rewrite drop_0, take_ge by (rewrite length_key_words; lia).
      by rewrite key_words_bytes. }
    change (map (aget key) [0; 1; 2; 3; 4; 5; 6; 7; 8; 9; 10; 11; 12; 13; 14; 15]%nat)
      with (map (aget key) (seq 0 16)).
    rewrite Hk0, next_key_W by lia.
    assert (xor_128 (rk_bytes W 0) data = AddRoundKey data (round_key W 0)) as Hx.
    { rewrite <- AddRoundKey_xor by (done || lia). unfold xor_128.
      apply map_ext. intros i. apply Z.lxor_comm. }
    rewrite Hx. split; [done|]. rewrite <- Hx. apply xor_128_ok; [apply rk_bytes_bytes|done].
  - destruct IH as (E & Hs & Ls); [lia|]. rewrite seq_S, fold_left_app. rewrite Nat.add_0_l, E.
    rewrite (seq_S r), fold_left_app. cbn [fold_left]. set (s := fold_left (Round W) _ _) in *.
    unfold aes_round. destruct (Nat.eqb_spec (S r) 0) as [|_]; [done|].
    destruct (Nat.eqb_spec (S r) 10) as [|_]; [lia|].
    destruct (shift_byte_sub s Hs Ls) as (Es & Hb & Lb).
    rewrite mix_columns_MixColumns by done. replace (r + 1)%nat with (S r) by lia.
    rewrite next_key_W by lia. rewrite Es.
    destruct (MixColumns_ok (ShiftRows (SubBytes s))) as [Hm Lm]; [by rewrite <- Es|].
    pose proof (AddRoundKey_xor (MixColumns (ShiftRows (SubBytes s))) (S r) Lm ltac:(lia)) as HR.
    change (1 + r)%nat with (S r). unfold Round at 1 2 3. rewrite <- HR.
    replace (S r + 1)%nat with (S (S r)) by lia.
    split; [reflexivity|]. apply xor_128_ok; [exact Hm|apply rk_bytes_bytes].
Qed.

Lemma aes128k128d_Cipher : aes128k128d key data = Cipher 10 W data.
Proof using All.
  destruct (aes_rounds 9) as (E & Hs & Ls); [lia|].
  unfold aes128k128d. rewrite (seq_S 10 0), fold_left_app, E.
  unfold Cipher. cbn [Nat.sub]. set (s := fold_left (Round W) _ _) in *.
  destruct (shift_byte_sub s Hs Ls) as (Es & Hb & Lb).
  cbn [seq fold_left Nat.add aes_round Nat.eqb fst].
  rewrite AddRoundKey_xor by (done || lia). by rewrite Es.
Qed.
End rounds.

(** ** What the modes of operation need *)
Lemma aes_round_key data data' l s s' :
  snd s = snd s' → snd (fold_left (aes_round data) l s) = snd (fold_left (aes_round data') l s').
Proof.
  revert s s'. induction l as [|r l IH]; intros s s' Hs; cbn [fold_left]; [done|].
  apply IH. destruct s as [c k], s' as [c' k']. cbn in Hs. subst k'. unfold aes_round.
  by destruct (r =? 0)%nat, (r =? 10)%nat.
Qed.

Lemma aes_round_keys x k :
  bytes k → length k = 16%nat → bytes (snd (fold_left (aes_round x) (seq 0 10) ([], k))).
Proof.
  intros Hk Lk.
  destruct (aes_rounds k (replicate 16 0) Hk Lk (bytes_replicate 16 0 ltac:(uint_lit))
    (length_replicate _ _) _ eq_refl 9 ltac:(lia)) as (E & _ & _).
  rewrite <- take_aget in E by lia. rewrite take_ge in E by lia.
  rewrite (aes_round_key x (replicate 16 0) (seq 0 10) ([], k) ([], k) eq_refl), E.
  apply rk_bytes_bytes.
Qed.

Lemma last_round x c rk :
  bytes rk → bytes (fst (aes_round x (c, rk) 10)) ∧ length (fst (aes_round x (c, rk) 10)) = 16%nat.
Proof.
  intros Hrk. cbn [aes_round Nat.eqb fst]. apply xor_128_ok; [|done].
  unfold shift_row, byte_sub. cbn [seq map]. unfold bytes. rewrite !Forall_cons.
  split_and!; try apply sbox_uint. constructor.
Qed.

Lemma aes128k128d_block key x :
  bytes key → bytes (aes128k128d key x) ∧ length (aes128k128d key x) = 16%nat.
Proof.
  intros Hk. unfold aes128k128d. rewrite (seq_S 10 0), fold_left_app.
  pose proof (aes_round_keys x (map (aget key) (seq 0 16))) as Hrk.
  destruct (fold_left _ (seq 0 10) _) as [c rk]. apply last_round, Hrk; [|apply length_map_seq].
  apply Forall_map, Forall_forall. intros i _. by apply (aget_uint 8).
Qed.

#[export] Instance aes128k128d_BlockCipher key (Hk : bytes key) : BlockCipher (aes128k128d key).
Proof. split; intros x; by apply aes128k128d_block. Qed.

(** ** The two implementations *)
(** The two AES implementations of the driver are one function: for every
    16-byte key and block, the byte-oriented [aes128k128d], with its in-place
    key schedule and its shift-and-mask MixColumns, returns the block that
    FIPS-197 prescribes, and with it the block of the table-driven
    [aes_encrypt] for every context [aes_encrypt_init] gives for that key. *)
Theorem sw_aes_equals_table_aes kmalloc key ctx data :
  bytes key → length key = 16%nat → bytes data → length data = 16%nat →
  aes_encrypt_init kmalloc key 16 = Some ctx →
  aes128k128d key data = Cipher 10 (KeyExpansion 4 10 key) data ∧
  aes128k128d key data = aes_encrypt ctx data.
Proof.
  intros Hk Lk Hd Ld Hc.
  pose proof (aes128k128d_Cipher key data Hk Lk Hd Ld _ eq_refl) as E.
  split; [exact E|]. rewrite E. symmetry. by apply (aes_encrypt_Cipher kmalloc key 16).
Qed.

Lemma sw_aes_equals_table_aes_witness :
  let key := map Z.of_nat (seq 0 16) in let pt := map Z.of_nat (seq 16 16) in
  match aes_encrypt_init (λ _, true) key 16 with
  | Some ctx => aes128k128d key pt = aes_encrypt ctx pt
  | None => False
  end.
Proof.
  cbv zeta. rewrite aes_encrypt_init_eq. cbn [andb aes_key_len Z.eqb Pos.eqb orb].
  refine (proj2 (sw_aes_equals_table_aes (λ _, true) _ _ _ _ _ _ _ _));
    [bytes_lit|done|bytes_lit|done|rewrite aes_encrypt_init_eq; reflexivity].
Defined.
