(* ===== verification/SwCcmp.v ===== *)
(** * CCMP of the build with NEW_CRYPTO = 0: [core/rtw_security.c]

    [aes_cipher] and [aes_decipher] protect a frame in place with the
    byte-oriented AES.  A frame is the memory from its MAC header on.
    [ieee80211w] says whether CONFIG_IEEE80211W or CONFIG_RTW_MESH is defined;
    CONSISTENT_PN_ORDER is not.  The length [plen] is unsigned, 32 bits. *)
From S2P Require Import Prelude.
From stdpp Require Import list.
From S2P Require Import Aes AesCorrect CryptoWrap Blocks Ccm Ccmp Swcrypto SwAes.
Local Open Scope Z_scope.

Definition MAX_MSG_SIZE : Z := 2048.
Definition WLAN_HDR_A3_LEN : nat := 24.
Definition WLAN_HDR_A3_QOS_LEN : nat := 26.
Definition WLAN_HDR_A4_QOS_LEN : nat := 32.
Definition WIFI_MGT_TYPE : Z := 0.
Definition WIFI_DATA : Z := BIT 3.
Definition WIFI_DATA_CFACK : Z := BIT 4 .| BIT 3.
Definition WIFI_DATA_CFPOLL : Z := BIT 5 .| BIT 3.
Definition WIFI_DATA_CFACKPOLL : Z := BIT 5 .| BIT 4 .| BIT 3.
Definition SUCCESS : Z := 1.

Definition GetFrameType (pbuf : list Z) : Z := RTW_GET_LE16 pbuf .& (BIT 3 .| BIT 2).
Definition get_frame_sub_type (pbuf : list Z) : Z :=
  RTW_GET_LE16 pbuf .& (BIT 7 .| BIT 6 .| BIT 5 .| BIT 4 .| BIT 3 .| BIT 2).

Section build.
Context (ieee80211w : bool).

(** The three conditional assignments of the priority byte, then the
    management bit. *)
Definition mic_prio (qc_exists a4_exists : bool) (mpdu : list Z) (frtype : Z) : Z :=
  let p := if qc_exists && a4_exists then mpdu.[30] .& 0x0f
           else if qc_exists && negb a4_exists then mpdu.[24] .& 0x0f else 0x00 in
  if ieee80211w && (frtype =? WIFI_MGT_TYPE) then p .| BIT 4 else p.

(** [mic_iv[8:13] = PN[5:0]] *)
Definition rev_pn (pn_vector : list Z) : list Z := map (λ i, pn_vector.[13 - i]) (seq 8 6).

Definition construct_mic_iv (qc_exists a4_exists : bool) (mpdu : list Z) (payload_length : Z)
    (pn_vector : list Z) (frtype : Z) : list Z :=
  [0x59; mic_prio qc_exists a4_exists mpdu frtype] ++ map (λ i, mpdu.[i + 8]) (seq 2 6)
  ++ rev_pn pn_vector ++ [u8 (payload_length / 256); u8 (payload_length mod 256)].

Definition construct_mic_header1 (header_length : Z) (mpdu : list Z) (frtype : Z) : list Z :=
  [u8 ((header_length - 2) / 256); u8 ((header_length - 2) mod 256);
   (if ieee80211w && (frtype =? WIFI_MGT_TYPE) then mpdu.[0] else mpdu.[0] .& 0xcf);
   mpdu.[1] .& 0xc7; mpdu.[4]; mpdu.[5]; mpdu.[6]; mpdu.[7]; mpdu.[8]; mpdu.[9];
   mpdu.[10]; mpdu.[11]; mpdu.[12]; mpdu.[13]; mpdu.[14]; mpdu.[15]].

Definition construct_mic_header2 (mpdu : list Z) (a4_exists qc_exists : bool) : list Z :=
  let h := memset 16 0 in
  let h := memcpy h 0 [mpdu.[16]; mpdu.[17]; mpdu.[18]; mpdu.[19]; mpdu.[20]; mpdu.[21]; 0x00; 0x00] in
  let h := if negb qc_exists && a4_exists then memcpy h 8 (map (λ i, mpdu.[24 + i]) (seq 0 6)) else h in
  let h := if qc_exists && negb a4_exists
           then memcpy h 8 [mpdu.[24] .& 0x0f; mpdu.[25] .& 0x00] else h in
  if qc_exists && a4_exists then
    memcpy (memcpy h 8 (map (λ i, mpdu.[24 + i]) (seq 0 6))) 14 [mpdu.[30] .& 0x0f; mpdu.[31] .& 0x00]
  else h.

Definition construct_ctr_preload (a4_exists qc_exists : bool) (mpdu pn_vector : list Z) (c : Z)
    (frtype : Z) : list Z :=
  let p := if qc_exists && a4_exists then mpdu.[30] .& 0x0f
           else if qc_exists && negb a4_exists then mpdu.[24] .& 0x0f else 0x00 in
  let p := if ieee80211w && (frtype =? WIFI_MGT_TYPE) then p .| BIT 4 else p in
  [0x01; p] ++ map (λ i, mpdu.[i + 8]) (seq 2 6) ++ rev_pn pn_vector ++ [u8 (c / 256); u8 (c mod 256)].

(** The tests of the header length and of the frame type: [qc_exists] and
    [hdrlen]. *)
Definition qos_header (frtype frsubtype : Z) (hdrlen : nat) : bool * nat :=
  let longer := if (hdrlen =? WLAN_HDR_A3_QOS_LEN)%nat || (hdrlen =? WLAN_HDR_A4_QOS_LEN)%nat
                then hdrlen else (hdrlen + 2)%nat in
  if (frtype .| frsubtype =? WIFI_DATA_CFACK) || (frtype .| frsubtype =? WIFI_DATA_CFPOLL)
     || (frtype .| frsubtype =? WIFI_DATA_CFACKPOLL) then (true, longer)
  else if (frtype =? WIFI_DATA) && ((frsubtype =? 0x08) || (frsubtype =? 0x09)
            || (frsubtype =? 0x0a) || (frsubtype =? 0x0b)) then (true, longer)
  else (false, hdrlen).

Definition a4_header (hdrlen : nat) : bool :=
  negb ((hdrlen =? WLAN_HDR_A3_LEN)%nat || (hdrlen =? WLAN_HDR_A3_QOS_LEN)%nat).

Definition read_pn (pframe : list Z) (hdrlen : nat) : list Z :=
  [pframe.[hdrlen]; pframe.[hdrlen + 1]; pframe.[hdrlen + 4]; pframe.[hdrlen + 5];
   pframe.[hdrlen + 6]; pframe.[hdrlen + 7]].

Section key.
Context (key : list Z).
Let E := aes128k128d key.

(** "Calculate MIC": the chained blocks over the headers and [plen] bytes of
    the payload at [index]; the value is [aes_out]. *)
Definition calc_mic (mic_iv mic_header1 mic_header2 msg : list Z) (index plen : nat) : list Z :=
  let aes_out := E mic_iv in
  let aes_out := E (bitwise_xor aes_out mic_header1) in
  let aes_out := E (bitwise_xor aes_out mic_header2) in
  let aes_out := fold_left (λ aes_out i, E (bitwise_xor aes_out (drop (index + 16 * i) msg)))
                   (seq 0 (plen / 16)) aes_out in
  if (plen mod 16 =? 0)%nat then aes_out else
  let padded_buffer := memcpy (memset 16 0) 0 (take (plen mod 16) (drop (index + 16 * (plen / 16)) msg)) in
  E (bitwise_xor aes_out padded_buffer).

(** The counter-mode loops over [plen] bytes at [index]: the counter block is
    built from the frame as it is in every pass. *)
Definition ctr_blocks (a4 qc : bool) (pn : list Z) (frtype : Z) (index plen : nat) (msg : list Z) : list Z :=
  let msg := fold_left (λ msg i,
      let ctr := construct_ctr_preload a4 qc msg pn (Z.of_nat i + 1) frtype in
      memcpy msg (index + 16 * i) (bitwise_xor (E ctr) (drop (index + 16 * i) msg)))
    (seq 0 (plen / 16)) msg in
  if (plen mod 16 =? 0)%nat then msg else
  let o := (index + 16 * (plen / 16))%nat in
  let ctr := construct_ctr_preload a4 qc msg pn (Z.of_nat (plen / 16) + 1) frtype in
  let padded_buffer := memcpy (memset 16 0) 0 (take (plen mod 16) (drop o msg)) in
  memcpy msg o (take (plen mod 16) (bitwise_xor (E ctr) padded_buffer)).

(** "Encrypt the MIC": the 8 bytes at [o]. *)
Definition ctr_mic (a4 qc : bool) (pn : list Z) (frtype : Z) (o : nat) (msg : list Z) : list Z :=
  let ctr := construct_ctr_preload a4 qc msg pn 0 frtype in
  let padded_buffer := memcpy (memset 16 0) 0 (take 8 (drop o msg)) in
  memcpy msg o (take 8 (bitwise_xor (E ctr) padded_buffer)).

(** The frame is read and written up to the end of the MIC; the header is read
    up to byte 31 at most. *)
Definition aes_cipher (hdrlen : nat) (pframe : list Z) (plen : Z) : cres (list Z) :=
  let frtype := GetFrameType pframe in
  let frsubtype := get_frame_sub_type pframe >> 4 in
  let a4_exists := a4_header hdrlen in
  let '(qc_exists, hdrlen) := qos_header frtype frsubtype hdrlen in
  if Z.of_nat (length pframe) <? Z.max 32 (Z.of_nat hdrlen + 8 + plen + 8) then Oob else
  let plen := Z.to_nat plen in
  let pn_vector := read_pn pframe hdrlen in
  let mic_iv := construct_mic_iv qc_exists a4_exists pframe (Z.of_nat plen) pn_vector frtype in
  let mic_header1 := construct_mic_header1 (Z.of_nat hdrlen) pframe frtype in
  let mic_header2 := construct_mic_header2 pframe a4_exists qc_exists in
  let index := (hdrlen + 8)%nat in
  let mic := take 8 (calc_mic mic_iv mic_header1 mic_header2 pframe index plen) in
  let pframe := memcpy pframe (index + plen) mic in
  let pframe := ctr_blocks a4_exists qc_exists pn_vector frtype index plen pframe in
  Ret (ctr_mic a4_exists qc_exists pn_vector frtype (index + plen) pframe).

(** The received frame is decrypted in place and copied to the static buffer
    [message], where it is encrypted again to compare the MICs.  [plen - 8] is
    an unsigned subtraction, and [message] has MAX_MSG_SIZE bytes. *)
Definition aes_decipher (hdrlen : nat) (pframe : list Z) (plen : Z) : cres (list Z * Z) :=
  let frtype := GetFrameType pframe in
  let frsubtype := get_frame_sub_type pframe >> 4 in
  let body := u32 (plen - 8) in
  let pn_vector := read_pn pframe hdrlen in
  let a4_exists := a4_header hdrlen in
  let '(qc_exists, hdrlen) := qos_header frtype frsubtype hdrlen in
  if Z.of_nat (length pframe) <? Z.max 32 (Z.of_nat hdrlen + 8 + Z.max plen body) then Oob else
  if MAX_MSG_SIZE <? Z.of_nat hdrlen + plen + 8 then Oob else
  let body := Z.to_nat body in
  let index := (hdrlen + 8)%nat in
  let pframe := ctr_blocks a4_exists qc_exists pn_vector frtype index body pframe in
  let message := take (hdrlen + Z.to_nat plen + 8) pframe in
  let pn_vector := read_pn pframe hdrlen in
  let mic_iv := construct_mic_iv qc_exists a4_exists message (Z.of_nat body) pn_vector frtype in
  let mic_header1 := construct_mic_header1 (Z.of_nat hdrlen) message frtype in
  let mic_header2 := construct_mic_header2 message a4_exists qc_exists in
  let mic := take 8 (calc_mic mic_iv mic_header1 mic_header2 message index body) in
  let message := memcpy message (index + body) mic in
  let message := ctr_blocks a4_exists qc_exists pn_vector frtype index body message in
  let message := ctr_mic a4_exists qc_exists pn_vector frtype (index + body) message in
  let same := bool_decide (take 8 (drop (index + body) pframe) = take 8 (drop (index + body) message)) in
  Ret (pframe, if same then SUCCESS else FAIL).
End key.
End build.

(** ** The nonce and the associated data *)
#[local] Opaque aes128k128d.
Section spec.
Context (w : bool).

Definition sw_nonce (qc a4 : bool) (mpdu pn : list Z) (frtype : Z) : list Z :=
  mic_prio w qc a4 mpdu frtype :: map (λ i, mpdu.[i + 8]) (seq 2 6) ++ rev_pn pn.

(** The associated data the two header blocks hold. *)
Definition sw_aad (qc a4 : bool) (mpdu : list Z) (frtype : Z) : list Z :=
  [(if w && (frtype =? WIFI_MGT_TYPE) then mpdu.[0] else mpdu.[0] .& 0xcf); mpdu.[1] .& 0xc7]
  ++ map (λ i, mpdu.[i]) (seq 4 18) ++ [0; 0]
  ++ (if a4 then map (λ i, mpdu.[i]) (seq 24 6) else [])
  ++ (if qc then [mpdu.[if a4 then 30 else 24] .& 0x0f; 0] else []).

(** The header length the flags stand for. *)
Definition hdr_flags (qc a4 : bool) : nat :=
  (24 + (if a4 then 6 else 0) + (if qc then 2 else 0))%nat.

Lemma be2 z : [u8 (z / 256); u8 (z mod 256)] = be_bytes 2 z.
Proof. cbn. by rewrite !u8_mod, Z.mod_mod by done. Qed.

Lemma be2_cons z l : u8 (z / 256) :: u8 (z mod 256) :: l = be_bytes 2 z ++ l.
Proof. by rewrite <- be2. Qed.

Lemma construct_ctr_preload_A qc a4 mpdu pn i frtype :
  construct_ctr_preload w a4 qc mpdu pn (Z.of_nat i) frtype = ccm_A (sw_nonce qc a4 mpdu pn frtype) i.
Proof.
  unfold construct_ctr_preload, ccm_A, sw_nonce. cbv zeta. rewrite be2, <- !app_comm_cons.
  by rewrite <- app_assoc.
Qed.

Lemma construct_mic_iv_B0 qc a4 mpdu n pn frtype :
  construct_mic_iv w qc a4 mpdu (Z.of_nat n) pn frtype = ccm_B0 8 (sw_nonce qc a4 mpdu pn frtype) true n.
Proof.
  unfold construct_mic_iv, ccm_B0, sw_nonce. rewrite be2, <- !app_comm_cons. by rewrite <- app_assoc.
Qed.

Lemma length_sw_nonce qc a4 mpdu pn frtype : length (sw_nonce qc a4 mpdu pn frtype) = 13%nat.
Proof. reflexivity. Qed.
Lemma length_sw_aad qc a4 mpdu frtype :
  length (sw_aad qc a4 mpdu frtype) = (hdr_flags qc a4 - 2)%nat.
Proof. by destruct qc, a4. Qed.

Lemma mic_headers qc a4 mpdu frtype :
  construct_mic_header1 w (Z.of_nat (hdr_flags qc a4)) mpdu frtype
  ++ construct_mic_header2 mpdu a4 qc =
  let aad := sw_aad qc a4 mpdu frtype in
  be_bytes 2 (Z.of_nat (length aad)) ++ aad ++ replicate (30 - length aad) 0.
Proof.
  cbv zeta. rewrite length_sw_aad. unfold construct_mic_header1. rewrite be2_cons.
  replace (Z.of_nat (hdr_flags qc a4) - 2) with (Z.of_nat (hdr_flags qc a4 - 2))
    by (unfold hdr_flags; lia).
  unfold sw_aad, construct_mic_header2. destruct qc, a4; cbn; by rewrite ?Z.land_0_r.
Qed.
End spec.

(** ** The MIC *)
Lemma take_take_drop_le {A} n m k (l : list A) :
  (m + n ≤ k)%nat → take n (drop m (take k l)) = take n (drop m l).
Proof. intros H. rewrite skipn_firstn_comm, take_take. f_equal. lia. Qed.

Lemma bitwise_xor_eq a b :
  length a = 16%nat → (16 ≤ length b)%nat → bitwise_xor a b = xor_bytes a (take 16 b).
Proof.
  intros Ha Hb. unfold bitwise_xor. rewrite <- xor_n_bytes with (n := 16%nat).
  - unfold xor_n. apply map_ext_in. intros i Hi%in_seq. by rewrite aget_take by lia.
  - done.
  - rewrite length_take. lia.
Qed.

Section mac.
Context (E : list Z → list Z) `{!BlockCipher E}.

Definition mic_chain (iv h1 h2 : list Z) : list Z :=
  E (bitwise_xor (E (bitwise_xor (E iv) h1)) h2).

Lemma mic_chain_start nonce aad n h1 h2 :
  length nonce = 13%nat → (14 < length aad ≤ 30)%nat →
  length h1 = 16%nat → length h2 = 16%nat →
  h1 ++ h2 = be_bytes 2 (Z.of_nat (length aad)) ++ aad ++ replicate (30 - length aad) 0 →
  mic_chain (ccm_B0 8 nonce true n) h1 h2 = aes_ccm_auth_start E 8 2 nonce aad n.
Proof.
  intros Hn Ha H1 H2 Hh. rewrite (aes_ccm_auth_start_eq E) by (done || lia).
  assert (length aad ≠ 0%nat) as Hne by lia.
  rewrite (proj2 (Nat.eqb_neq _ _) Hne). cbn [negb].
  rewrite blocks_cons by (unfold ccm_B0; cbn [length]; by rewrite length_app, length_be_bytes, Hn).
  rewrite ccm_adata_blocks; [|by destruct aad|lia]. rewrite <- Hh.
  rewrite take_app_length', drop_app_length' by done.
  rewrite (proj2 (Nat.ltb_lt _ _)) by lia. cbn [fold_left]. unfold mic_chain, cbc_step.
  set (B0 := ccm_B0 _ _ _ _). assert (length B0 = 16%nat) as LB.
  { unfold B0, ccm_B0. cbn [length]. by rewrite length_app, length_be_bytes, Hn. }
  replace (replicate 16 0) with (replicate (length B0) 0) by (by rewrite LB).
  rewrite xor_bytes_zeros, !bitwise_xor_eq by (rewrite ?(bc_length16 E); done || lia).
  by rewrite !take_ge by lia.
Qed.

Lemma calc_mic_eq key iv h1 h2 msg index plen :
  E = aes128k128d key → (index + plen ≤ length msg)%nat →
  calc_mic key iv h1 h2 msg index plen = aes_ccm_auth E (take plen (drop index msg)) (mic_chain iv h1 h2).
Proof.
  intros EE Hl. unfold calc_mic. rewrite <- EE. fold (mic_chain iv h1 h2).
  unfold aes_ccm_auth, AES_BLOCK_SIZE, xor_aes_block, AES_BLOCK_SIZE.
  rewrite length_take, length_drop, Nat.min_l by lia.
  pose proof (Nat.div_mod_eq plen 16). pose proof (Nat.mod_upper_bound plen 16).
  set (n := (plen / 16)%nat) in *.
  assert (∀ m x, (m ≤ n)%nat → length x = 16%nat →
    let f := fold_left (λ x i, E (xor_at 0 x (take 16 (drop (16 * i) (take plen (drop index msg)))))) (seq 0 m) x in
    fold_left (λ x i, E (bitwise_xor x (drop (index + 16 * i) msg))) (seq 0 m) x = f ∧ length f = 16%nat) as Hf.
  { induction m as [|m IH]; intros x Hm Hx; cbv zeta; [done|].
    rewrite seq_S, !fold_left_app. destruct (IH x) as [-> Hx']; [lia|done|]. cbv zeta in Hx'.
    cbn [fold_left]. rewrite Nat.add_0_l. split; [|apply (bc_length16 E)]. f_equal.
    rewrite take_take_drop_le, drop_drop by lia.
    rewrite bitwise_xor_eq by (done || rewrite length_drop; lia).
    rewrite xor_at_16; [done|done|rewrite length_drop; lia]. }
  destruct (Hf n (mic_chain iv h1 h2)) as [-> Hx]; [lia|apply (bc_length16 E)|]. cbv zeta in Hx.
  destruct (Nat.eqb_spec (plen mod 16) 0) as [|Hr]; [done|]. f_equal.
  set (x := fold_left _ _ _) in *. rewrite skipn_firstn_comm, drop_drop.
  replace (plen - 16 * n)%nat with (plen mod 16)%nat by lia.
  set (tl := take (plen mod 16) _).
  assert (length tl = (plen mod 16)%nat) as Lt by (unfold tl; rewrite length_take, length_drop; lia).
  assert (tl ≠ []) as Htl by (intros Hn; apply Hr; by rewrite <- Lt, Hn).
  assert (memcpy (memset 16 0) 0 tl = pad16 tl) as ->.
  { rewrite pad16_short; [|done|lia].
    unfold memset. rewrite memcpy_eq by (rewrite length_replicate; lia).
    by rewrite take_0, Nat.add_0_l, drop_replicate. }
  rewrite xor_at_pad; [|done|done|lia].
  assert (length (pad16 tl) = 16%nat) as Lp.
  { apply length_pad16_short; [done|lia]. }
  rewrite bitwise_xor_eq by (done || lia). by rewrite take_ge by lia.
Qed.
End mac.

(** ** Counter mode in place *)
Lemma aget_take_eq n l l' i : take n l = take n l' → (i < n)%nat → l.[i] = l'.[i].
Proof. intros H Hi. by rewrite <- (aget_take l n), H, aget_take. Qed.

Lemma sw_nonce_ext w qc a4 m m' pn f :
  take 32 m = take 32 m' → sw_nonce w qc a4 m pn f = sw_nonce w qc a4 m' pn f.
Proof.
  intros H. unfold sw_nonce, mic_prio. cbn [seq map].
  rewrite !(aget_take_eq 32 m m') by (done || lia). done.
Qed.
Lemma sw_aad_ext w qc a4 m m' f :
  take 32 m = take 32 m' → sw_aad w qc a4 m f = sw_aad w qc a4 m' f.
Proof.
  intros H. unfold sw_aad. cbn [seq map].
  destruct a4; rewrite !(aget_take_eq 32 m m') by (done || lia); done.
Qed.

Lemma stream_snoc f n : stream f (S n) = stream f n ++ f n.
Proof.
  unfold stream. rewrite seq_S, map_app, concat_app. cbn. by rewrite app_nil_r.
Qed.

Lemma take_32_app index (msg l : list Z) :
  (32 ≤ index ≤ length msg)%nat → take 32 (take index msg ++ l) = take 32 msg.
Proof.
  intros H. rewrite take_app_le by (rewrite length_take; lia). rewrite take_take. f_equal. lia.
Qed.

Section ctr.
Context (w : bool) (key : list Z) (Hk : bytes key) (a4 qc : bool) (pn : list Z) (frtype : Z).
Let E := aes128k128d key.
Local Instance HE : BlockCipher E := aes128k128d_BlockCipher key Hk.

Lemma ctr_fold index n msg :
  (32 ≤ index)%nat → (index + 16 * n ≤ length msg)%nat →
  fold_left (λ msg i,
      let ctr := construct_ctr_preload w a4 qc msg pn (Z.of_nat i + 1) frtype in
      memcpy msg (index + 16 * i) (bitwise_xor (E ctr) (drop (index + 16 * i) msg)))
    (seq 0 n) msg =
  take index msg
  ++ xor_bytes (take (16 * n) (drop index msg))
       (stream (λ i, E (ccm_A (sw_nonce w qc a4 msg pn frtype) (S i))) n)
  ++ drop (index + 16 * n) msg.
Proof using Hk.
  intros Hi. induction n as [|n IH]; intros Hl.
  - rewrite Nat.mul_0_r, take_0, Nat.add_0_r. cbn [seq fold_left stream map concat xor_bytes zip_with app].
    by rewrite take_drop.
  - rewrite seq_S, fold_left_app, IH by lia. cbn [fold_left]. clear IH. rewrite Nat.add_0_l.
    set (nonce := sw_nonce w qc a4 msg pn frtype). set (ks := λ i, E (ccm_A nonce (S i))).
    assert (∀ i, length (ks i) = 16%nat) as Lks by (intros; apply (bc_length16 E)).
    set (X := xor_bytes (take (16 * n) (drop index msg)) (stream ks n)).
    assert (length X = 16 * n)%nat as LX.
    { unfold X. rewrite length_xor_bytes_le; rewrite ?length_stream by done;
        rewrite length_take, length_drop; lia. }
    replace (Z.of_nat n + 1) with (Z.of_nat (S n)) by lia.
    rewrite construct_ctr_preload_A. rewrite (sw_nonce_ext w qc a4 _ msg) by (apply take_32_app; lia).
    fold nonce. change (E (ccm_A nonce (S n))) with (ks n).
    assert (length (take index msg ++ X) = (index + 16 * n)%nat) as LP
      by (rewrite length_app, length_take, LX; lia).
    rewrite (app_assoc (take index msg) X), drop_app_length' by done.
    rewrite memcpy_eq by
      (rewrite !length_app, length_take, LX, length_drop; unfold bitwise_xor; rewrite length_xor_n; lia).
    rewrite take_app_length' by done. unfold bitwise_xor at 2. rewrite length_xor_n.
    rewrite drop_app_ge by (rewrite LP; lia). rewrite LP, drop_drop.
    rewrite bitwise_xor_eq by (apply Lks || rewrite length_drop; lia).
    rewrite <- !app_assoc. f_equal. rewrite stream_snoc.
    replace (16 * S n)%nat with (16 * n + 16)%nat by lia.
    rewrite <- take_take_drop, drop_drop. rewrite xor_bytes_app by
      (rewrite length_stream by done; rewrite length_take, length_drop; lia).
    fold X. rewrite <- app_assoc. f_equal. rewrite (xor_bytes_comm (ks n)). f_equal. f_equal. lia.
Qed.

Lemma ctr_blocks_eq index plen msg :
  (32 ≤ index)%nat → (index + plen ≤ length msg)%nat →
  ctr_blocks w key a4 qc pn frtype index plen msg =
  take index msg ++ ccm_crypt E (sw_nonce w qc a4 msg pn frtype) (take plen (drop index msg))
  ++ drop (index + plen) msg.
Proof using Hk.
  intros Hi Hl. pose proof (Nat.div_mod_eq plen 16) as Hdm. pose proof (Nat.mod_upper_bound plen 16).
  pose proof (ctr_fold index (plen / 16) msg Hi ltac:(lia)) as Hf.
  unfold ctr_blocks. cbv zeta in Hf |- *. change (aes128k128d key) with E. rewrite Hf. clear Hf.
  set (n := (plen / 16)%nat) in *. set (r := (plen mod 16)%nat) in *.
  set (nonce := sw_nonce w qc a4 msg pn frtype). set (ks := λ i, E (ccm_A nonce (S i))).
  assert (∀ i, length (ks i) = 16%nat) as Lks by (intros; apply (bc_length16 E)).
  set (X := xor_bytes (take (16 * n) (drop index msg)) (stream ks n)).
  assert (length X = 16 * n)%nat as LX.
  { unfold X. rewrite length_xor_bytes_le; rewrite ?length_stream by done;
      rewrite length_take, length_drop; lia. }
  assert (ccm_crypt E nonce (take plen (drop index msg)) =
    X ++ xor_bytes (take r (drop (index + 16 * n) msg)) (ks n)) as Hc.
  { unfold ccm_crypt. rewrite length_take, length_drop, Nat.min_l by lia. fold ks.
    replace plen with (16 * n + r)%nat at 1 by lia.
    rewrite <- take_take_drop, drop_drop.
    assert (∃ l, stream ks plen = stream ks n ++ ks n ++ l ∨ (r = 0%nat ∧ stream ks plen = stream ks n ++ l)) as [l Hs].
    { unfold stream. destruct (decide (plen = n)) as [Hpn|].
      - exists []. right. split; [lia|]. rewrite app_nil_r. by rewrite Hpn at 1.
      - exists (concat (map ks (seq (S n) (plen - n - 1)))). left.
        replace (seq 0 plen) with (seq 0 n ++ n :: seq (S n) (plen - n - 1)).
        + by rewrite map_app, concat_app.
        + change (n :: seq (S n) (plen - n - 1)) with (seq n (1 + (plen - n - 1))).
          change n with (0 + n)%nat at 2. rewrite <- seq_app. f_equal. lia. }
    destruct Hs as [->|[Hr ->]].
    - rewrite xor_bytes_app by (rewrite length_stream by done; rewrite length_take, length_drop; lia).
      fold X. f_equal. apply xor_bytes_app_short. rewrite Lks, length_take, length_drop. lia.
    - rewrite Hr, !take_0, app_nil_r.
      rewrite xor_bytes_app_short by (rewrite length_stream by done; rewrite length_take, length_drop; lia).
      fold X. cbn. by rewrite app_nil_r. }
  rewrite Hc. destruct (Nat.eqb_spec r 0) as [Hr|Hr].
  - rewrite Hr, take_0. cbn [xor_bytes zip_with]. rewrite app_nil_r. do 3 f_equal. lia.
  - assert (length (take index msg ++ X) = (index + 16 * n)%nat) as LP
      by (rewrite length_app, length_take, LX; lia).
    replace (Z.of_nat n + 1) with (Z.of_nat (S n)) by lia.
    rewrite construct_ctr_preload_A. rewrite (sw_nonce_ext w qc a4 _ msg) by (apply take_32_app; lia).
    fold nonce. change (E (ccm_A nonce (S n))) with (ks n).
    rewrite (app_assoc (take index msg) X), drop_app_length' by done.
    set (tl := take r (drop (index + 16 * n) msg)).
    assert (length tl = r) as Lt by (unfold tl; rewrite length_take, length_drop; lia).
    assert (take r (bitwise_xor (ks n) (memcpy (memset 16 0) 0 tl)) = xor_bytes tl (ks n)) as ->.
    { unfold memset. rewrite memcpy_eq by (rewrite length_replicate; lia).
      rewrite take_0, Nat.add_0_l, app_nil_l, drop_replicate, Lt.
      rewrite bitwise_xor_eq by (apply Lks || rewrite length_app, length_replicate, Lt; lia).
      rewrite (take_ge (tl ++ _)) by (rewrite length_app, length_replicate, Lt; lia).
      unfold xor_bytes. rewrite zip_with_take, take_app_length' by done.
      fold (xor_bytes (take r (ks n)) tl) (xor_bytes tl (ks n)).
      by rewrite (xor_bytes_take_r tl), Lt, xor_bytes_comm. }
    rewrite memcpy_eq by (rewrite length_app, LP, length_drop, length_xor_bytes_le by (rewrite Lks; lia); lia).
    rewrite take_app_length' by done. rewrite length_xor_bytes_le, Lt by (rewrite Lks; lia).
    rewrite drop_app_ge by (rewrite LP; lia). rewrite LP, drop_drop, <- !app_assoc.
    do 3 f_equal. f_equal. lia.
Qed.
End ctr.

(** ** The two functions *)
(** What [qos_header] finds does not depend on the header length. *)
Definition sw_qos (frame : list Z) : bool :=
  fst (qos_header (GetFrameType frame) (get_frame_sub_type frame >> 4) WLAN_HDR_A3_LEN).

Lemma qos_header_flags frame a4 :
  qos_header (GetFrameType frame) (get_frame_sub_type frame >> 4) (hdr_flags (sw_qos frame) a4) =
  (sw_qos frame, hdr_flags (sw_qos frame) a4).
Proof.
  unfold sw_qos, qos_header. destruct (_ || _ || _); [by destruct a4|].
  destruct (_ && _); by destruct a4.
Qed.

Lemma a4_header_flags q a4 : a4_header (hdr_flags q a4) = a4.
Proof. by destruct q, a4. Qed.

Section frame.
Context (w : bool) (key : list Z) (Hk : bytes key).
Let E := aes128k128d key.
Local Instance HE' : BlockCipher E := aes128k128d_BlockCipher key Hk.

Lemma ctr_mic_eq a4 qc pn frtype o msg :
  (32 ≤ o)%nat → (o + 8 ≤ length msg)%nat →
  ctr_mic w key a4 qc pn frtype o msg =
  take o msg ++ xor_bytes (take 8 (drop o msg)) (E (ccm_A (sw_nonce w qc a4 msg pn frtype) 0))
  ++ drop (o + 8) msg.
Proof using Hk.
  intros Ho Hl. unfold ctr_mic. cbv zeta. change 0 with (Z.of_nat 0) at 1.
  rewrite construct_ctr_preload_A. change (aes128k128d key) with E.
  set (S0 := E _). assert (length S0 = 16%nat) as LS by apply (bc_length16 E).
  set (t := take 8 (drop o msg)).
  assert (length t = 8%nat) as Lt by (unfold t; rewrite length_take, length_drop; lia).
  unfold memset. rewrite (memcpy_eq (replicate 16 0)) by (rewrite length_replicate; lia).
  rewrite take_0, Nat.add_0_l, app_nil_l, drop_replicate, Lt.
  rewrite bitwise_xor_eq; [|exact LS|rewrite length_app, length_replicate, Lt; lia].
  rewrite (take_ge (t ++ _)) by (rewrite length_app, length_replicate, Lt; lia).
  assert (take 8 (xor_bytes S0 (t ++ replicate (16 - 8) 0)) = xor_bytes t S0) as ->.
  { unfold xor_bytes. rewrite zip_with_take, take_app_length' by done.
    fold (xor_bytes (take 8 S0) t) (xor_bytes t S0).
    by rewrite (xor_bytes_take_r t), Lt, xor_bytes_comm. }
  rewrite memcpy_eq; rewrite length_xor_bytes_le, Lt by lia; [done|lia].
Qed.

(** The tag the receiver and the sender compute. *)
Lemma sw_tag qc a4 mpdu pn frtype msg index plen :
  (index + plen ≤ length msg)%nat →
  let nonce := sw_nonce w qc a4 mpdu pn frtype in
  let aad := sw_aad w qc a4 mpdu frtype in
  calc_mic key (construct_mic_iv w qc a4 mpdu (Z.of_nat plen) pn frtype)
    (construct_mic_header1 w (Z.of_nat (hdr_flags qc a4)) mpdu frtype)
    (construct_mic_header2 mpdu a4 qc) msg index plen =
  CBC_MAC E (ccm_B 8 nonce aad (take plen (drop index msg))).
Proof using Hk.
  intros Hl nonce aad. rewrite (calc_mic_eq E key) by done.
  rewrite construct_mic_iv_B0. fold nonce.
  assert (length aad = (hdr_flags qc a4 - 2)%nat) as La by apply length_sw_aad.
  assert (22 ≤ length aad ≤ 30)%nat as Ha by (rewrite La; unfold hdr_flags; destruct qc, a4; lia).
  rewrite (mic_chain_start E nonce aad) by
    (apply mic_headers || apply length_sw_nonce || lia || by destruct qc, a4).
  assert (length (take plen (drop index msg)) = plen) as Lm
    by (rewrite length_take, length_drop; lia).
  rewrite <- Lm at 2. apply (ccm_T E); [done|lia|lia].
Qed.

Lemma take_8_xor T S0 :
  length T = 16%nat → length S0 = 16%nat → xor_bytes (take 8 T) S0 = take 8 (xor_bytes T S0).
Proof using Type.
  intros HT HS. rewrite (xor_bytes_take_r (take 8 T)), length_take, HT.
  unfold xor_bytes. by rewrite zip_with_take.
Qed.

Lemma read_pn_ext h (m m' : list Z) : take (h + 8) m = take (h + 8) m' → read_pn m h = read_pn m' h.
Proof using Type. intros H. unfold read_pn. by rewrite !(aget_take_eq (h + 8) m m') by (done || lia). Qed.

Lemma take_le_eq {A} n k (l l' : list A) : (k ≤ n)%nat → take n l = take n l' → take k l = take k l'.
Proof using Type. intros Hk' H. by rewrite <- (Nat.min_l k n Hk'), <- !take_take, H. Qed.

Lemma aes_cipher_eq a4 frame plen :
  let qc := sw_qos frame in
  let h := hdr_flags qc a4 in
  let nonce := sw_nonce w qc a4 frame (read_pn frame h) (GetFrameType frame) in
  let aad := sw_aad w qc a4 frame (GetFrameType frame) in
  let payload := take plen (drop (h + 8) frame) in
  (h + 8 + plen + 8 ≤ length frame)%nat →
  aes_cipher w key h frame (Z.of_nat plen) =
  Ret (take (h + 8) frame ++ ccm_crypt E nonce payload ++ ccm_tag E 8 nonce aad payload
       ++ drop (h + 8 + plen + 8) frame).
Proof using Hk.
  intros qc h nonce aad payload Hl. assert (24 ≤ h)%nat as Hh by (unfold h, hdr_flags; lia).
  pose proof (qos_header_flags frame a4) as Hq. pose proof (a4_header_flags qc a4) as Ha4. fold qc h in Hq, Ha4.
  unfold aes_cipher. rewrite Hq, Ha4.
  rewrite (proj2 (Z.ltb_ge _ _)) by lia. cbv zeta. rewrite Nat2Z.id.
  set (T := calc_mic _ _ _ _ _ _ _).
  assert (T = CBC_MAC E (ccm_B 8 nonce aad payload)) as HT
    by exact (sw_tag qc a4 frame (read_pn frame h) (GetFrameType frame) frame (h + 8) plen ltac:(lia)).
  destruct (ccm_mac_block E 8 nonce aad payload (length_sw_nonce w _ _ _ _ _)) as [LT _].
  rewrite <- HT in LT. clearbody T.
  assert (length (take 8 T) = 8%nat) as L8 by (rewrite length_take, LT; lia).
  set (m1 := memcpy frame (h + 8 + plen) (take 8 T)).
  assert (m1 = take (h + 8 + plen) frame ++ take 8 T ++ drop (h + 8 + plen + 8) frame) as E1.
  { unfold m1. rewrite memcpy_eq by lia. by rewrite L8. }
  assert (length m1 = length frame) as L1 by apply length_memcpy.
  assert (take (h + 8 + plen) m1 = take (h + 8 + plen) frame) as T1.
  { rewrite E1, take_app_length'; [done|]. rewrite length_take. lia. }
  rewrite ctr_blocks_eq by (done || lia). change (aes128k128d key) with E.
  rewrite (sw_nonce_ext w qc a4 m1 frame) by (apply (take_le_eq (h + 8 + plen)); [lia|done]). fold nonce.
  assert (take plen (drop (h + 8) m1) = payload) as ->.
  { unfold payload. rewrite <- (firstn_all2 (n:=plen) (take plen (drop (h + 8) frame)))
      by (rewrite length_take; lia).
    rewrite <- (take_take_drop_le plen (h + 8) (h + 8 + plen) m1), T1 by lia.
    rewrite take_take_drop_le by lia. by rewrite take_take, Nat.min_id. }
  assert (take (h + 8) m1 = take (h + 8) frame) as -> by (apply (take_le_eq (h + 8 + plen)); [lia|done]).
  assert (drop (h + 8 + plen) m1 = take 8 T ++ drop (h + 8 + plen + 8) frame) as ->.
  { rewrite E1, drop_app_length'; [done|]. rewrite length_take. lia. }
  set (C := ccm_crypt E nonce payload).
  assert (length C = plen) as LC.
  { unfold C. rewrite (length_ccm_crypt E). unfold payload. rewrite length_take, length_drop. lia. }
  assert (length (take (h + 8) frame ++ C) = (h + 8 + plen)%nat) as LP
    by (rewrite length_app, length_take, LC; lia).
  rewrite ctr_mic_eq by (rewrite ?length_app, ?length_take, ?length_drop, ?LC; lia).
  rewrite (sw_nonce_ext w qc a4 _ frame) by (apply take_32_app; lia). fold nonce.
  rewrite (app_assoc (take (h + 8) frame) C), take_app_length', drop_app_length' by done.
  rewrite (take_app_length' (take 8 T)) by (symmetry; exact L8).
  rewrite drop_app_ge by (rewrite LP; lia).
  rewrite take_8_xor, HT by (done || apply (bc_length16 E)). fold (ccm_tag E 8 nonce aad payload).
  rewrite <- app_assoc. do 4 f_equal. rewrite LP.
  replace (h + 8 + plen + 8 - (h + 8 + plen))%nat with 8%nat by lia.
  apply drop_app_length'. by rewrite <- HT, L8.
Qed.

(** The last 8 bytes of [message] after it was encrypted again. *)
Lemma decipher_tail a4 qc pn frtype index body m0 T :
  (32 ≤ index)%nat → length m0 = (index + body + 8)%nat → length T = 16%nat →
  take 8 (drop (index + body)
    (ctr_mic w key a4 qc pn frtype (index + body)
      (ctr_blocks w key a4 qc pn frtype index body (take (index + body) m0 ++ take 8 T)))) =
  xor_bytes (take 8 T) (E (ccm_A (sw_nonce w qc a4 m0 pn frtype) 0)).
Proof using Hk.
  intros Hi L0 LT. set (m1 := take (index + body) m0 ++ take 8 T).
  assert (length (take 8 T) = 8%nat) as L8 by (rewrite length_take, LT; lia).
  assert (length (take (index + body) m0) = (index + body)%nat) as Lh by (rewrite length_take; lia).
  assert (length m1 = (index + body + 8)%nat) as L1 by (unfold m1; rewrite length_app; lia).
  rewrite (ctr_blocks_eq w key Hk) by lia. change (aes128k128d key) with E.
  set (C := ccm_crypt E _ _).
  assert (length C = body) as LC.
  { unfold C. rewrite (length_ccm_crypt E), length_take, length_drop. lia. }
  assert (drop (index + body) m1 = take 8 T) as -> by (apply drop_app_length'; lia).
  assert (length (take index m1 ++ C) = (index + body)%nat) as LP
    by (rewrite length_app, length_take, LC; lia).
  rewrite ctr_mic_eq by (rewrite ?length_app, ?length_take, ?LC, ?LT; lia).
  rewrite (sw_nonce_ext w qc a4 _ m0).
  - rewrite (app_assoc (take index m1) C), take_app_length', (drop_app_length' (take index m1 ++ C)) by done.
    rewrite (drop_app_length' (take index m1 ++ C)) by done.
    rewrite (take_ge (take 8 T)) by lia. apply take_app_length'. rewrite length_xor_bytes_le; rewrite L8; [done|].
    rewrite (bc_length16 E). lia.
  - rewrite take_32_app by lia. unfold m1. apply take_32_app. lia.
Qed.

Lemma aes_decipher_eq a4 frame body :
  let qc := sw_qos frame in
  let h := hdr_flags qc a4 in
  let nonce := sw_nonce w qc a4 frame (read_pn frame h) (GetFrameType frame) in
  let aad := sw_aad w qc a4 frame (GetFrameType frame) in
  let msg := ccm_crypt E nonce (take body (drop (h + 8) frame)) in
  (h + 8 + body + 8 ≤ length frame)%nat → (h + body + 16 ≤ 2048)%nat →
  aes_decipher w key h frame (Z.of_nat (body + 8)) =
  Ret (take (h + 8) frame ++ msg ++ drop (h + 8 + body) frame,
       if bool_decide (take 8 (drop (h + 8 + body) frame) = ccm_tag E 8 nonce aad msg)
       then SUCCESS else FAIL).
Proof using Hk.
  intros qc h nonce aad msg Hl Hmax. assert (24 ≤ h)%nat as Hh by (unfold h, hdr_flags; lia).
  pose proof (qos_header_flags frame a4) as Hq. pose proof (a4_header_flags qc a4) as Ha4. fold qc h in Hq, Ha4.
  unfold aes_decipher. rewrite Hq, Ha4.
  replace (u32 (Z.of_nat (body + 8) - 8)) with (Z.of_nat body)
    by (rewrite u32_id; [lia|split; [lia|]; change (2 ^ 32) with 4294967296; lia]).
  rewrite (proj2 (Z.ltb_ge _ _)) by lia.
  rewrite (proj2 (Z.ltb_ge MAX_MSG_SIZE _)) by (unfold MAX_MSG_SIZE; lia). cbv zeta. rewrite !Nat2Z.id.
  rewrite (ctr_blocks_eq w key Hk) by lia. change (aes128k128d key) with E. fold nonce msg.
  assert (length msg = body) as Lm.
  { unfold msg. rewrite (length_ccm_crypt E), length_take, length_drop. lia. }
  set (f1 := take (h + 8) frame ++ msg ++ drop (h + 8 + body) frame).
  assert (length f1 = length frame) as Lf.
  { unfold f1. rewrite !length_app, length_take, length_drop, Lm. lia. }
  assert (take (h + 8) f1 = take (h + 8) frame) as T1 by (apply take_app_length'; rewrite length_take; lia).
  rewrite (read_pn_ext h f1 frame T1).
  set (m0 := take (h + (body + 8) + 8) f1).
  assert (take (h + 8) m0 = take (h + 8) frame) as T0.
  { unfold m0. rewrite take_take, Nat.min_l by lia. exact T1. }
  assert (take 32 m0 = take 32 frame) as T32 by (apply (take_le_eq (h + 8)); [lia|done]).
  assert (length m0 = (h + 8 + body + 8)%nat) as L0 by (unfold m0; rewrite length_take; lia).
  assert (take body (drop (h + 8) m0) = msg) as Em.
  { unfold m0. rewrite take_take_drop_le by lia. unfold f1.
    rewrite drop_app_length' by (rewrite length_take; lia). by apply take_app_length'. }
  pose proof (sw_tag qc a4 m0 (read_pn frame h) (GetFrameType frame) m0 (h + 8) body ltac:(lia)) as HT.
  cbv zeta in HT. fold h in HT. rewrite Em in HT.
  rewrite (sw_nonce_ext w qc a4 m0 frame), (sw_aad_ext w qc a4 m0 frame) in HT by done.
  fold nonce aad in HT. rewrite HT. clear HT.
  destruct (ccm_mac_block E 8 nonce aad msg (length_sw_nonce w _ _ _ _ _)) as [LT _].
  set (T := CBC_MAC E _) in *.
  assert (length (take 8 T) = 8%nat) as L8 by (rewrite length_take, LT; lia).
  assert (memcpy m0 (h + 8 + body) (take 8 T) = take (h + 8 + body) m0 ++ take 8 T) as ->.
  { rewrite memcpy_eq by lia. rewrite L8, (drop_ge m0) by lia. by rewrite app_nil_r. }
  rewrite (decipher_tail a4 qc (read_pn frame h) (GetFrameType frame) (h + 8) body m0 T) by (done || lia).
  rewrite (sw_nonce_ext w qc a4 m0 frame) by done. fold nonce.
  unfold T. rewrite take_8_xor by (exact LT || apply (bc_length16 E)).
  fold (ccm_tag E 8 nonce aad msg). do 3 f_equal.
  unfold f1. rewrite app_assoc, drop_app_length'; [done|].
  rewrite length_app, length_take, Lm. lia.
Qed.
End frame.

(** ** Comparison with the CCMP of [core/crypto] *)
Section ext.
Context (E E' : list Z → list Z) `{!BlockCipher E, !BlockCipher E'}.
Context (HEE : ∀ b, bytes b → length b = 16%nat → E b = E' b).

Lemma ccm_A_block nonce i :
  bytes nonce → length nonce = 13%nat → bytes (ccm_A nonce i) ∧ length (ccm_A nonce i) = 16%nat.
Proof using Type.
  intros Hn Ln. split.
  - constructor; [uint_lit|]. apply bytes_app; [done|apply be_bytes_uint].
  - unfold ccm_A. cbn [length]. by rewrite length_app, length_be_bytes, Ln.
Qed.

Lemma ccm_crypt_ext nonce msg :
  bytes nonce → length nonce = 13%nat → ccm_crypt E nonce msg = ccm_crypt E' nonce msg.
Proof using HEE.
  intros Hn Ln. unfold ccm_crypt. f_equal. apply stream_ext. intros i _.
  by apply HEE; apply ccm_A_block.
Qed.

Lemma bytes_blocks l : bytes l → Forall (λ b, bytes b ∧ length b = 16%nat) (blocks l).
Proof using Type.
  intros Hb. pose proof (Forall_blocks l) as Hl. rewrite Forall_forall in Hl |- *.
  intros b Hin. split; [|by apply Hl]. unfold blocks in Hin.
  apply list_elem_of_In, in_map_iff in Hin as (i & <- & _). by apply bytes_take, bytes_drop.
Qed.

Lemma CBC_MAC_ext l : bytes l → CBC_MAC E l = CBC_MAC E' l.
Proof using All.
  intros Hl. unfold CBC_MAC.
  assert (∀ bs x, Forall (λ b, bytes b ∧ length b = 16%nat) bs → bytes x → length x = 16%nat →
    fold_left (cbc_step E) bs x = fold_left (cbc_step E') bs x) as H.
  { induction bs as [|b bs IH]; intros x Hbs Hx Lx; [done|]. cbn [fold_left].
    apply Forall_cons in Hbs as [[Hb Lb] Hbs].
    assert (cbc_step E x b = cbc_step E' x b) as ->.
    { apply HEE; [by apply xor_bytes_uint|]. rewrite length_xor_bytes; lia. }
    apply IH; [done|apply (bc_bytes (E := E'))|apply (bc_length16 E')]. }
  apply H; [by apply bytes_blocks|apply bytes_replicate; uint_lit|done].
Qed.

Lemma bytes_pad16 l : bytes l → bytes (pad16 l).
Proof using Type. intros H. apply bytes_app; [done|]. apply bytes_replicate. uint_lit. Qed.

Lemma ccm_tag_ext nonce aad msg :
  bytes nonce → length nonce = 13%nat → bytes aad → bytes msg →
  ccm_tag E 8 nonce aad msg = ccm_tag E' 8 nonce aad msg.
Proof using All.
  intros Hn Ln Ha Hm. unfold ccm_tag. f_equal.
  destruct (ccm_A_block nonce 0 Hn Ln) as [HA LA]. rewrite HEE by done. f_equal.
  apply CBC_MAC_ext. unfold ccm_B. apply bytes_app; [|apply bytes_app].
  - constructor; [destruct (length aad =? 0)%nat; uint_lit|].
    apply bytes_app; [done|apply be_bytes_uint].
  - unfold ccm_adata. destruct aad; [constructor|].
    apply bytes_pad16, bytes_app; [apply be_bytes_uint|done].
  - by apply bytes_pad16.
Qed.
End ext.

(** The frames on which the two builds agree: the frame is marked protected;
    it is a data frame without the null bit, and a QoS one has no order bit,
    or it is a management frame and the build has 802.11w; it is the only or
    the first fragment. *)
Definition plain_fc (w : bool) (b0 b1 : Z) : bool :=
  let fc := u16 ((b1 << 8) .| b0) in
  Z.testbit b1 6 &&
  (((WLAN_FC_GET_TYPE fc =? WLAN_FC_TYPE_DATA) && negb (Z.testbit b0 6)
     && negb (fc_qos fc && Z.testbit b1 7))
   || (w && (WLAN_FC_GET_TYPE fc =? WLAN_FC_TYPE_MGMT))).

Definition plain_frame (w : bool) (frame : list Z) : bool :=
  plain_fc w frame.[0] frame.[1] && (frame.[22] .& 0x0f =? 0).

(** What both builds read from the two bytes of the frame control field. *)
Definition fc_agree (w : bool) (b0 b1 : Z) : bool :=
  let fc := u16 ((b1 << 8) .| b0) in
  let qos := fc_qos fc in
  let mgt := (w && (GetFrameType [b0; b1] =? WIFI_MGT_TYPE)) in
  let fc1 := if WLAN_FC_GET_TYPE fc =? WLAN_FC_TYPE_DATA then
               let fc := Z.ldiff fc 0x0070 in if qos then Z.ldiff fc WLAN_FC_ORDER else fc
             else fc in
  let fc2 := Z.ldiff fc1 (WLAN_FC_RETRY .| WLAN_FC_PWRMGT .| WLAN_FC_MOREDATA) .| WLAN_FC_ISWEP in
  (negb (plain_fc w b0 b1) ||
   (eqb (sw_qos [b0; b1]) qos &&
    (u16 fc2 .& 0xff =? if mgt then b0 else b0 .& 0xcf) && (u16 fc2 >> 8 =? b1 .& 0xc7) &&
    (u16 (fc .| WLAN_FC_ISWEP) =? fc) &&
    ((if WLAN_FC_GET_TYPE fc =? WLAN_FC_TYPE_DATA then 0
      else if WLAN_FC_GET_TYPE fc =? WLAN_FC_TYPE_MGMT then 0x10 else 0)
     =? if mgt then BIT 4 else 0) && (eqb mgt (negb (WLAN_FC_GET_TYPE fc =? WLAN_FC_TYPE_DATA))))).

Lemma fc_agree_all w b0 b1 : is_u8 b0 → is_u8 b1 → fc_agree w b0 b1 = true.
Proof.
  intros H0 H1. pose (P := λ b0, all_below 256 (λ b1, fc_agree true b0 b1 && fc_agree false b0 b1)).
  assert (P b0 = true) as HP.
  { apply (all_below_spec 256 P); [|exact H0]. vm_compute. reflexivity. }
  apply (all_below_spec 256 _ b1) in HP; [|exact H1]. apply andb_prop in HP as [Ht Hf]. by destruct w.
Qed.

Lemma qos_byte x : is_u8 x → Z.ldiff (Z.ldiff x 0x70) 0x80 = x .& 0x0f.
Proof. apply (all_u8 (λ x, Z.ldiff (Z.ldiff x 0x70) 0x80) (λ x, x .& 0x0f)). vm_compute. reflexivity. Qed.

Lemma seq_bytes a b :
  is_u8 a → is_u8 b → a .& 0x0f = 0 →
  RTW_PUT_LE16 (Z.ldiff (u16 ((b << 8) .| a)) 0xfff0) = [0; 0].
Proof.
  intros Ha Hb H0.
  assert (Z.ldiff (u16 ((b << 8) .| a)) 0xfff0 = a .& 0x0f) as ->; [|by rewrite H0].
  apply Z.bits_inj'. intros i Hi. unfold u16. rewrite Z.ldiff_spec, !Z.land_spec, Z.lor_spec.
  destruct (decide (i < 16)).
  - rewrite Z.shiftl_spec by lia. assert (0 ≤ i < 16) as Hi' by lia.
    clear -Ha Hb Hi'. bit_cases i 16%nat; repeat testbit_step; repeat progress bool_simp;
      rewrite ?andb_false_l, ?andb_true_r; done.
  - rewrite (uint_testbit 4 0x0f), (uint_testbit 16 0xffff) by (uint_lit || lia).
    by rewrite !andb_false_r, andb_false_l.
Qed.

Lemma map_aget_slice l o n :
  (o + n ≤ length l)%nat → map (λ i, l.[i]) (seq o n) = take n (drop o l).
Proof.
  intros H. rewrite take_aget by (rewrite length_drop; lia).
  apply list_aget_eq; rewrite !length_map_seq; [done|]. intros i Hi.
  rewrite !aget_map_seq, aget_drop by lia. by rewrite Nat.add_0_l.
Qed.

(** On such frames the nonce and the associated data are the same. *)
Lemma aad_nonce_agree w mode frame :
  plain_frame w frame = true → bytes frame → (40 ≤ length frame)%nat →
  mode ≠ RTW_AMSDU_MODE_SPP →
  let fc := RTW_GET_LE16 frame in
  let qc := sw_qos frame in let a4 := fc_addr4 fc in
  let h := hdr_flags qc a4 in
  (qc = fc_qos fc ∧ u16 (fc .| WLAN_FC_ISWEP) = fc) ∧
  ccmp_aad_nonce mode frame (drop h frame) =
  (sw_aad w qc a4 frame (GetFrameType frame), sw_nonce w qc a4 frame (read_pn frame h) (GetFrameType frame)).
Proof.
  intros Hp Hb Hl Hmode fc qc a4 h. apply andb_prop in Hp as [Hfc Hsc]. apply Z.eqb_eq in Hsc.
  assert (∀ i, is_u8 (frame.[i])) as Hu by (intros; by apply (aget_uint 8)).
  pose proof (fc_agree_all w _ _ (Hu 0%nat) (Hu 1%nat)) as Ha. unfold fc_agree in Ha.
  rewrite Hfc in Ha. cbn [negb orb] in Ha. rewrite !andb_true_iff, !Z.eqb_eq, !eqb_true_iff in Ha.
  change (sw_qos [frame.[0]; frame.[1]]) with qc in Ha.
  change (GetFrameType [frame.[0]; frame.[1]]) with (GetFrameType frame) in Ha.
  change (u16 ((frame.[1] << 8) .| frame.[0])) with fc in Ha.
  destruct Ha as (((((Hq & Hx) & Hy) & Hw) & Hz) & Hm). split; [done|].
  unfold ccmp_aad_nonce. fold fc a4. rewrite <- Hq. rewrite <- Hq in Hx, Hy. cbv zeta. f_equal.
  - unfold sw_aad.
    change (RTW_GET_LE16 (drop 22 frame)) with (u16 (((drop 22 frame).[1] << 8) .| (drop 22 frame).[0])).
    rewrite !aget_drop. rewrite seq_bytes by done.
    rewrite (proj2 (Z.eqb_neq _ _) Hmode), qos_byte by done.
    unfold ETH_ALEN. rewrite !map_aget_slice by lia.
    destruct qc, a4; unfold RTW_PUT_LE16; rewrite Hx, Hy, <- ?app_assoc, ?app_nil_r;
      cbn [app Nat.mul Nat.add]; done.
  - unfold sw_nonce, mic_prio. rewrite Hz.
    change (map (λ i, frame.[i + 8]) (seq 2 6)) with (map (λ i, frame.[i]) (seq 10 6)).
    rewrite map_aget_slice by lia. rewrite !aget_drop. cbn [rev_pn seq map Nat.sub].
    unfold rev_pn, read_pn, ETH_ALEN, aget. cbn [seq map nth Nat.sub]. 
    destruct qc, a4, (w && _); cbn [andb negb Nat.add]; rewrite ?Nat.add_0_r; try done;
      unfold fc_qos in Hq; destruct (WLAN_FC_GET_TYPE fc =? WLAN_FC_TYPE_DATA); discriminate.
Qed.

Lemma le16_bytes a b :
  is_u8 a → is_u8 b → u16 ((b << 8) .| a) .& 0xff = a ∧ u16 ((b << 8) .| a) >> 8 = b.
Proof.
  intros Ha Hb. split; (apply (uint_eq_bits 8); [|done|unfold u16; by_bits 8%nat]).
  - apply uint_land_r; [lia|uint_lit].
  - pose proof (u16_uint ((b << 8) .| a)) as [H0 H1]. rewrite Z.shiftr_div_pow2 by lia.
    split; [apply Z.div_pos; lia|]. apply Z.div_lt_upper_bound; [lia|]. exact H1.
Qed.

Lemma set_fc_protected frame :
  bytes frame → (2 ≤ length frame)%nat →
  u16 (RTW_GET_LE16 frame .| WLAN_FC_ISWEP) = RTW_GET_LE16 frame → set_fc WLAN_FC_ISWEP frame = frame.
Proof.
  intros Hb Hl Hw. unfold set_fc, RTW_PUT_LE16. rewrite Hw. unfold RTW_GET_LE16.
  destruct frame as [|a [|b l]]; cbn [length] in Hl; try lia.
  unfold bytes in Hb. rewrite !Forall_cons in Hb. destruct Hb as (Ha & Hb & _).
  unfold aget. cbn [nth]. destruct (le16_bytes a b Ha Hb) as [-> ->]. done.
Qed.

Lemma aes_agree kmalloc key ctx b :
  bytes key → length key = 16%nat → aes_encrypt_init kmalloc key 16 = Some ctx →
  bytes b → length b = 16%nat → aes_encrypt ctx b = aes128k128d key b.
Proof.
  intros Hk Lk Hc Hb Lb. rewrite (aes128k128d_Cipher key b Hk Lk Hb Lb _ eq_refl).
  by apply (aes_encrypt_Cipher kmalloc key 16).
Qed.

Lemma bytes_sw_nonce w qc a4 m h f : bytes m → bytes (sw_nonce w qc a4 m (read_pn m h) f).
Proof.
  intros Hm. assert (∀ i, is_u8 (m.[i])) as Hu by (intros; by apply (aget_uint 8)).
  unfold sw_nonce, rev_pn, read_pn, bytes. cbn [seq map app Nat.sub]. rewrite !Forall_cons.
  assert (∀ x, is_u8 (x .& 0x0f)) as Hx by (intros; apply uint_land_r; [lia|uint_lit]).
  assert (is_u8 (mic_prio w qc a4 m f)) as Hp.
  { unfold mic_prio. destruct qc, a4, (w && _); cbn [andb negb]; auto with machine;
      apply uint_lor; auto with machine; uint_lit. }
  split_and!; try done; try apply Hu.
Qed.

Lemma bytes_sw_aad w qc a4 m f : bytes m → bytes (sw_aad w qc a4 m f).
Proof.
  intros Hm. assert (∀ i, is_u8 (m.[i])) as Hu by (intros; by apply (aget_uint 8)).
  assert (∀ i c, is_u8 (m.[i] .& c)) as Hl by (intros; apply uint_land_l; [lia|apply Hu]).
  unfold sw_aad. repeat apply bytes_app.
  - unfold bytes. rewrite !Forall_cons. split_and!; [by destruct (w && _)|done|constructor].
  - apply Forall_map, Forall_forall. intros. apply Hu.
  - unfold bytes. rewrite !Forall_cons. split_and!; [uint_lit|uint_lit|constructor].
  - destruct a4; [|constructor]. apply Forall_map, Forall_forall. intros. apply Hu.
  - destruct qc; [|constructor]. unfold bytes. rewrite !Forall_cons.
    split_and!; [apply Hl|uint_lit|constructor].
Qed.

(** ** Properties *)
(** C16: the CCMP of the build with NEW_CRYPTO = 0 and the one of core/crypto
    write the same frame: for every protected data frame that is not a null
    frame, has no order bit when it is a QoS frame, and is not a later
    fragment (and, in a build with 802.11w, for every protected management
    frame), with the header length its frame control field stands for,
    [aes_cipher] leaves in the buffer byte for byte what [_rtw_ccmp_encrypt]
    leaves there with a 16-byte key, unless the AAD carries the A-MSDU bit of
    the SPP mode. *)
Theorem sw_ccmp_equals_ccmp w kmalloc mode key frame plen :
  bytes key → length key = 16%nat → bytes frame → (∀ n, kmalloc n = true) →
  mode ≠ RTW_AMSDU_MODE_SPP → plain_frame w frame = true →
  let fc := RTW_GET_LE16 frame in
  let h := hdr_flags (fc_qos fc) (fc_addr4 fc) in
  (h + 8 + plen + 8 ≤ length frame)%nat →
  aes_cipher w key h frame (Z.of_nat plen) = rtw_ccmp_encrypt kmalloc mode key 16 h frame plen.
Proof.
  intros Hk Lk Hb Hmem Hmode Hp fc h Hl.
  assert (24 ≤ h)%nat as Hh by (unfold h, hdr_flags; lia).
  destruct (aad_nonce_agree w mode frame Hp Hb ltac:(lia) Hmode) as [[Hq Hw] Han].
  fold fc in Hq, Hw, Han. rewrite Hq in Han. fold h in Han.
  pose proof (aes_cipher_eq w key Hk (fc_addr4 fc) frame plen) as Hc. cbv zeta in Hc.
  rewrite Hq in Hc. fold h in Hc. rewrite Hc by lia. clear Hc.
  set (nonce := sw_nonce _ _ _ _ _ _) in *. set (aad := sw_aad _ _ _ _ _) in *.
  destruct (aes_encrypt_init kmalloc key 16) as [ctx|] eqn:Ectx;
    [|rewrite aes_encrypt_init_eq, Hmem in Ectx; discriminate].
  pose proof (ccmp_encrypt_with_eq kmalloc mode Hmem 16 8 ltac:(lia) key ctx Ectx
    frame (h + plen) h None 0 ltac:(lia) ltac:(cbv beta iota; lia)) as He. cbv zeta in He.
  assert (ccmp_frame_hdr frame h = take h frame) as Eh.
  { apply set_fc_protected; [by apply bytes_take|rewrite length_take; lia|].
    pose proof (RTW_GET_LE16_take 0 h frame ltac:(lia)) as H16. rewrite !drop_0 in H16. by rewrite H16. }
  rewrite Eh in He. unfold ccmp_frame_iv, ccmp_frame_payload in He.
  rewrite (ccmp_aad_nonce_ext mode _ frame _ (drop h frame)) in He; cycle 1.
  { rewrite take_take_drop, take_take. f_equal. lia. }
  { by rewrite take_take, Nat.min_id. }
  rewrite Han in He. cbn [fst snd] in He. replace (h + plen - h)%nat with plen in He by lia.
  destruct He as (_ & _ & _ & rest & He).
  unfold rtw_ccmp_encrypt, ccmp_encrypt. cbn [Z.eqb Pos.eqb]. rewrite He. unfold copy_back.
  set (payload := take plen (drop (h + 8) frame)) in *.
  assert (bytes payload) as Hpay by (by apply bytes_take, bytes_drop).
  pose proof (bytes_sw_nonce w (fc_qos fc) (fc_addr4 fc) frame h (GetFrameType frame) Hb) as Hn. fold nonce in Hn.
  pose proof (bytes_sw_aad w (fc_qos fc) (fc_addr4 fc) frame (GetFrameType frame) Hb) as Ha. fold aad in Ha.
  pose proof (aes128k128d_BlockCipher key Hk) as HBC.
  rewrite (ccm_crypt_ext (aes_encrypt ctx) (aes128k128d key)) by (done || intros; by apply (aes_agree kmalloc)).
  rewrite (ccm_tag_ext (aes_encrypt ctx) (aes128k128d key)) by (done || intros; by apply (aes_agree kmalloc)).
  set (C := ccm_crypt _ _ _). set (T := ccm_tag _ _ _ _ _).
  assert (length C = plen) as LC.
  { unfold C. rewrite (length_ccm_crypt (aes128k128d key)). unfold payload. rewrite length_take, length_drop. lia. }
  assert (length T = 8%nat) as LT by (apply (length_ccm_tag (aes128k128d key)); [done|lia]).
  rewrite (app_assoc (take h frame)), take_take_drop, !app_assoc.
  rewrite take_app_length' by (rewrite !length_app, length_take, LC, LT; lia).
  rewrite buf_write_ok by (rewrite !length_app, length_take, LC, LT; lia).
  rewrite take_0, app_nil_l, !length_app, length_take, LC, LT, <- !app_assoc. do 4 f_equal. f_equal. lia.
Qed.

(** [aes_decipher] is exact.  For a frame of at most MAX_MSG_SIZE bytes it
    decrypts the body in place with the counter mode of RFC 3610 and reports
    success exactly when the 8 bytes behind it are the RFC 3610 tag of the
    decrypted body under the nonce and the associated data of the header;
    nothing else of the frame changes; and on the frame [aes_cipher] made it
    succeeds and restores the body.  A frame that is longer than MAX_MSG_SIZE
    makes it write outside its static buffer. *)
Theorem sw_ccmp_exact w key a4 frame body :
  bytes key →
  let qc := sw_qos frame in
  let h := hdr_flags qc a4 in
  let E := aes128k128d key in
  let nonce := sw_nonce w qc a4 frame (read_pn frame h) (GetFrameType frame) in
  let aad := sw_aad w qc a4 frame (GetFrameType frame) in
  let msg := ccm_crypt E nonce (take body (drop (h + 8) frame)) in
  (h + 8 + body + 8 ≤ length frame)%nat →
  ((h + 8 + body + 8 ≤ 2048)%nat →
   aes_decipher w key h frame (Z.of_nat (body + 8)) =
     Ret (take (h + 8) frame ++ msg ++ drop (h + 8 + body) frame,
          if bool_decide (take 8 (drop (h + 8 + body) frame) = ccm_tag E 8 nonce aad msg)
          then SUCCESS else FAIL) ∧
   ∃ f1 t, aes_cipher w key h frame (Z.of_nat body) = Ret f1 ∧ length t = 8%nat ∧
     aes_decipher w key h f1 (Z.of_nat (body + 8)) =
       Ret (take (h + 8 + body) frame ++ t ++ drop (h + 8 + body + 8) frame, SUCCESS)) ∧
  ((2048 < h + 8 + body + 8)%nat → Z.of_nat body + 8 < 2 ^ 32 →
   aes_decipher w key h frame (Z.of_nat (body + 8)) = Oob).
Proof.
  intros Hk qc h E nonce aad msg Hl.
  assert (24 ≤ h ≤ 32)%nat as Hh by (unfold h, hdr_flags; destruct qc, a4; lia).
  split; [intros Hmax; split|intros Hmax H32].
  - apply (aes_decipher_eq w key Hk a4 frame body Hl). fold qc h. lia.
  - pose proof (aes_cipher_eq w key Hk a4 frame body Hl) as Hc. cbv zeta in Hc.
    fold qc in Hc. fold h in Hc. fold nonce aad E in Hc.
    set (payload := take body (drop (h + 8) frame)) in *.
    set (C := ccm_crypt E nonce payload) in *. set (T := ccm_tag E 8 nonce aad payload) in *.
    pose proof (aes128k128d_BlockCipher key Hk) as HBC. fold E in HBC.
    assert (length C = body) as LC.
    { unfold C. rewrite (length_ccm_crypt E). unfold payload. rewrite length_take, length_drop. lia. }
    assert (length T = 8%nat) as LT by (apply (length_ccm_tag E); [done|lia]).
    set (f1 := take (h + 8) frame ++ C ++ T ++ drop (h + 8 + body + 8) frame) in *.
    exists f1, T. split; [done|]. split; [done|].
    assert (length (take (h + 8) frame) = (h + 8)%nat) as L0 by (rewrite length_take; lia).
    assert (length f1 = length frame) as L1.
    { unfold f1. rewrite !length_app, L0, LC, LT, length_drop. lia. }
    assert (take (h + 8) f1 = take (h + 8) frame) as T1 by (by apply take_app_length').
    assert (take 32 f1 = take 32 frame) as T32 by (apply (take_le_eq (h + 8)); [lia|done]).
    assert (RTW_GET_LE16 f1 = RTW_GET_LE16 frame) as Hfc.
    { unfold RTW_GET_LE16. by rewrite !(aget_take_eq 32 f1 frame) by (done || lia). }
    assert (sw_qos f1 = qc) as Hq1 by (unfold sw_qos, GetFrameType, get_frame_sub_type; by rewrite Hfc).
    pose proof (aes_decipher_eq w key Hk a4 f1 body) as Hd. cbv zeta in Hd.
    rewrite Hq1 in Hd. fold h in Hd. rewrite Hd by lia. clear Hd.
    unfold GetFrameType. rewrite Hfc. fold (GetFrameType frame).
    rewrite (read_pn_ext h f1 frame T1), (sw_nonce_ext w qc a4 f1 frame), (sw_aad_ext w qc a4 f1 frame) by done.
    fold nonce aad E. rewrite T1.
    assert (drop (h + 8) f1 = C ++ T ++ drop (h + 8 + body + 8) frame) as D1 by (by apply drop_app_length').
    assert (drop (h + 8 + body) f1 = T ++ drop (h + 8 + body + 8) frame) as D2.
    { rewrite <- drop_drop, D1. by apply drop_app_length'. }
    rewrite D1, D2, (take_app_length' C), (take_app_length' T) by done.
    unfold C. rewrite (ccm_crypt_twice E). rewrite bool_decide_eq_true_2 by done.
    unfold payload. by rewrite app_assoc, take_take_drop.
  - pose proof (qos_header_flags frame a4) as Hq. pose proof (a4_header_flags qc a4) as Ha4. fold qc h in Hq, Ha4.
    unfold aes_decipher. rewrite Hq, Ha4.
    replace (u32 (Z.of_nat (body + 8) - 8)) with (Z.of_nat body) by (rewrite u32_id; [lia|split; lia]).
    rewrite (proj2 (Z.ltb_ge _ _)) by lia.
    by rewrite (proj2 (Z.ltb_lt MAX_MSG_SIZE _)) by (unfold MAX_MSG_SIZE; lia).
Qed.

(** A QoS data frame, protected, with eleven bytes of payload and room for the
    MIC; [sc] is the first byte of the sequence control field. *)
Definition demo_frame (sc : Z) : list Z :=
  [0x88; 0x41; 0; 0] ++ replicate 6 1 ++ replicate 6 2 ++ replicate 6 3 ++ [sc; 0] ++ [5; 0]
  ++ [9; 0; 0; 0x20; 0; 0; 0; 0] ++ map Z.of_nat (seq 100 11) ++ replicate 8 0.
Definition sw_demo_key : list Z := map Z.of_nat (seq 0 16).

Lemma sw_ccmp_equals_ccmp_witness :
  aes_cipher true sw_demo_key 26 (demo_frame 0x30) 11 =
  rtw_ccmp_encrypt (λ _, true) 0 sw_demo_key 16 26 (demo_frame 0x30) 11.
Proof.
  apply (sw_ccmp_equals_ccmp true (λ _, true) 0 sw_demo_key (demo_frame 0x30) 11);
    [bytes_lit|done|bytes_lit|done|done|vm_compute; reflexivity|].
  change (length (demo_frame 0x30)) with 53%nat.
  change (hdr_flags _ _) with 26%nat. lia.
Defined.

Lemma sw_ccmp_exact_witness :
  match aes_cipher false sw_demo_key 26 (demo_frame 0) 11 with
  | Ret f1 => ∃ t, length t = 8%nat ∧
      aes_decipher false sw_demo_key 26 f1 19 = Ret (take 45 (demo_frame 0) ++ t ++ [], SUCCESS)
  | _ => False
  end.
Proof.
  destruct (sw_ccmp_exact false sw_demo_key false (demo_frame 0) 11 ltac:(bytes_lit)
    ltac:(change (hdr_flags _ _) with 26%nat; change (length (demo_frame 0)) with 53%nat; lia)) as [H _].
  destruct H as [_ (f1 & t & H1 & Ht & H2)]; [change (hdr_flags _ _) with 26%nat; lia|].
  change (hdr_flags (sw_qos (demo_frame 0)) false) with 26%nat in H1, H2.
  change (Z.of_nat 11) with 11 in H1. rewrite H1. exists t. split; [exact Ht|]. exact H2.
Defined.

(** A later fragment is authenticated differently by the two builds: the
    sequence control field of the associated data is always 0 here, while the
    standard and [ccmp_aad_nonce] keep the fragment number, so the receiver of
    core/crypto rejects the frame. *)
Theorem sw_ccmp_fragment_rejected :
  match aes_cipher false sw_demo_key 26 (demo_frame 0x31) 11 with
  | Ret f1 => rtw_ccmp_decrypt (λ _, true) 0 sw_demo_key 16 26 f1 53 = Err FAIL
  | _ => False
  end.
Proof. vm_compute. reflexivity. Qed.
