(* ===== verification/SecFrames.v ===== *)
(** * Protection of whole frames: [rtw_aes_encrypt], [rtw_aes_decrypt],
      [rtw_gcmp_encrypt], [rtw_gcmp_decrypt] of [core/rtw_security.c] and
      [decryptor] of [core/rtw_recv.c]

    The functions choose the key, call the cipher for every fragment of a
    transmitted frame or for a received frame, and count.  [new_crypto] is
    the macro NEW_CRYPTO, [rtw_mesh] says whether CONFIG_RTW_MESH is defined
    and [is_mesh] is MLME_IS_MESH; CONFIG_TDLS is not defined.  The
    rate-limited messages and their static counters are left out. *)
From S2P Require Import Prelude.
From stdpp Require Import list.
From S2P Require Import Aes AesCorrect CryptoWrap Blocks Mem Ccm Ccmp Gcmp Swcrypto WepTkip SwAes SwCcmp.
Local Open Scope Z_scope.

Definition AES : Z := 4.
Definition GCMP : Z := 7.
Definition SEC_TYPE_256 : Z := 0x10.
Definition CCMP_256 : Z := AES .| SEC_TYPE_256.
Definition GCMP_256 : Z := GCMP .| SEC_TYPE_256.
Definition WEP_KEYS : Z := 4.

(** The fields of [struct security_priv] that WepTkip does not have. *)
Record sec_state := SecState {
  sec : security_priv;
  aes_sw_enc_cnt : sw_cnt; aes_sw_dec_cnt : sw_cnt;
  gcmp_sw_enc_cnt : sw_cnt; gcmp_sw_dec_cnt : sw_cnt;
  hw_decrypted : bool; busetkipkey : Z
}.
Definition set_sec (p : security_priv) (s : sec_state) : sec_state :=
  SecState p (aes_sw_enc_cnt s) (aes_sw_dec_cnt s) (gcmp_sw_enc_cnt s) (gcmp_sw_dec_cnt s)
    (hw_decrypted s) (busetkipkey s).
Definition set_hw_decrypted (b : bool) (s : sec_state) : sec_state :=
  SecState (sec s) (aes_sw_enc_cnt s) (aes_sw_dec_cnt s) (gcmp_sw_enc_cnt s) (gcmp_sw_dec_cnt s)
    b (busetkipkey s).
Definition AES_SW_ENC_CNT_INC (s : sec_state) (ra : list Z) : sec_state :=
  SecState (sec s) (SW_CNT_INC (aes_sw_enc_cnt s) ra) (aes_sw_dec_cnt s) (gcmp_sw_enc_cnt s)
    (gcmp_sw_dec_cnt s) (hw_decrypted s) (busetkipkey s).
Definition AES_SW_DEC_CNT_INC (s : sec_state) (ra : list Z) : sec_state :=
  SecState (sec s) (aes_sw_enc_cnt s) (SW_CNT_INC (aes_sw_dec_cnt s) ra) (gcmp_sw_enc_cnt s)
    (gcmp_sw_dec_cnt s) (hw_decrypted s) (busetkipkey s).
Definition GCMP_SW_ENC_CNT_INC (s : sec_state) (ra : list Z) : sec_state :=
  SecState (sec s) (aes_sw_enc_cnt s) (aes_sw_dec_cnt s) (SW_CNT_INC (gcmp_sw_enc_cnt s) ra)
    (gcmp_sw_dec_cnt s) (hw_decrypted s) (busetkipkey s).
Definition GCMP_SW_DEC_CNT_INC (s : sec_state) (ra : list Z) : sec_state :=
  SecState (sec s) (aes_sw_enc_cnt s) (aes_sw_dec_cnt s) (gcmp_sw_enc_cnt s)
    (SW_CNT_INC (gcmp_sw_dec_cnt s) ra) (hw_decrypted s) (busetkipkey s).

(** The keys of the station [rtw_get_stainfo] finds. *)
Record sta_keys := StaKeys { uncst_key : list Z; gtk_skey : list Z; gtk_bmp : Z }.

Section build.
Context (kmalloc : Z → bool) (amsdu_mode : Z) (new_crypto rtw_mesh is_mesh ieee80211w : bool).

(** ** Transmission *)
(** [_rtw_ccmp_encrypt] with the length as the caller passes it: [hdrlen +
    plen] is computed on unsigned integers, and the frame functions refuse a
    length below that of the header. *)
Definition ccmp_cipher (key : list Z) (key_len : Z) (hdrlen : nat) (frame : list Z) (plen : Z) : cres (list Z) :=
  let len := u32 (Z.of_nat hdrlen + plen) in
  if len <? Z.of_nat hdrlen then Err FAIL
  else rtw_ccmp_encrypt kmalloc amsdu_mode key key_len hdrlen frame (Z.to_nat (len - Z.of_nat hdrlen)).
Definition gcmp_cipher (key : list Z) (key_len : Z) (hdrlen : nat) (frame : list Z) (plen : Z) : cres (list Z) :=
  let len := u32 (Z.of_nat hdrlen + plen) in
  if len <? Z.of_nat hdrlen then Err FAIL
  else rtw_gcmp_encrypt kmalloc amsdu_mode key key_len hdrlen frame (Z.to_nat (len - Z.of_nat hdrlen)).

(** The loop over the fragments: [n] are left, the current one starts at [off];
    the result of the cipher is not looked at, so a failed call leaves the
    fragment as it is. *)
Fixpoint frag_cipher (cipher : list Z → Z → cres (list Z)) (a : pkt_attrib) (frag_len addr : Z)
    (n off : nat) (mem : list Z) : cres (list Z) :=
  match n with
  | O => Ret mem
  | S n =>
      let last := (n =? 0)%nat in
      let plen := frag_length a frag_len last in
      let* mem := match cipher (drop off mem) plen with
                  | Oob => Oob
                  | Err _ => Ret mem
                  | Ret m => Ret (take off mem ++ m)
                  end in
      if last then Ret mem else frag_cipher cipher a frag_len addr n (frag_next frag_len addr off) mem
  end.

Definition enc_key (s : sec_state) (a : pkt_attrib) : option (list Z) :=
  if IS_MCAST (ra a) then dot118021XGrpKey (sec s) !! dot118021XGrpKeyid (sec s) else Some (UncstKey a).

Definition rtw_aes_encrypt (s : sec_state) (frag_len : Z) (f : xmit_frame) : cres (Z * sec_state * list Z) :=
  match buf_addr f with
  | None => Err FAIL
  | Some addr =>
      let a := attrib f in
      if (encrypt a =? AES) || (new_crypto && (encrypt a =? CCMP_256)) then
        match enc_key s a with
        | None => Oob
        | Some prwskey =>
            let cipher :=
              if new_crypto then
                ccmp_cipher prwskey (if encrypt a =? CCMP_256 then 32 else 16) (hdrlen a)
              else λ frame length, aes_cipher ieee80211w prwskey (hdrlen a) frame (u32 length) in
            let* mem := frag_cipher cipher a frag_len addr (nr_frags a) (hw_hdr_offset (pkt_offset f)) (buf f) in
            Ret (SUCCESS, AES_SW_ENC_CNT_INC s (ra a), mem)
        end
      else Ret (SUCCESS, s, buf f)
  end.

Definition rtw_gcmp_encrypt_frame (s : sec_state) (frag_len : Z) (f : xmit_frame) : cres (Z * sec_state * list Z) :=
  match buf_addr f with
  | None => Err FAIL
  | Some addr =>
      let a := attrib f in
      if (encrypt a =? GCMP) || (encrypt a =? GCMP_256) then
        match enc_key s a with
        | None => Oob
        | Some prwskey =>
            let cipher := gcmp_cipher prwskey (if encrypt a =? GCMP_256 then 32 else 16) (hdrlen a) in
            let* mem := frag_cipher cipher a frag_len addr (nr_frags a) (hw_hdr_offset (pkt_offset f)) (buf f) in
            Ret (SUCCESS, GCMP_SW_ENC_CNT_INC s (ra a), mem)
        end
      else Ret (SUCCESS, s, buf f)
  end.

(** ** Reception *)
(** The key of a received frame, [Err _FAIL] for the two refusals of a group
    frame.  The mask in the second condition is an inclusive or with a bit. *)
Definition dec_key (s : sec_state) (st : sta_keys) (f : recv_frame) : cres (list Z) :=
  if IS_MCAST (rx_ra f) then
    if (negb is_mesh && (binstallGrpkey (sec s) =? 0))
       || (rtw_mesh && (gtk_bmp st .| BIT (Z.of_nat (rx_key_index f)) =? 0)) then Err FAIL
    else if rtw_mesh && is_mesh then Ret (gtk_skey st)
    else match dot118021XGrpKey (sec s) !! rx_key_index f with
         | None => Oob
         | Some k => if (dot118021XGrpKeyid (sec s) =? rx_key_index f)%nat then Ret k else Err FAIL
         end
  else Ret (uncst_key st).

(** The result of [_rtw_ccmp_decrypt] as [res] and the memory of the frame. *)
Definition dec_result (mem : list Z) (r : cres (list Z)) : cres (Z * list Z) :=
  match r with Oob => Oob | Err _ => Ret (FAIL, mem) | Ret m => Ret (SUCCESS, m) end.

Definition dec_frame (is_enc : bool) (cnt_inc : sec_state → list Z → sec_state)
    (decipher : list Z → cres (Z * list Z)) (s : sec_state) (stainfo : option sta_keys) (f : recv_frame)
    : cres (Z * sec_state * list Z) :=
  if is_enc then
    match stainfo with
    | None => Ret (FAIL, s, rx_data f)
    | Some st =>
        match dec_key s st f with
        | Oob => Oob
        | Err _ => Ret (FAIL, s, rx_data f)
        | Ret prwskey =>
            let* (res, mem) := decipher prwskey in
            Ret (res, cnt_inc s (rx_ra f), mem)
        end
    end
  else Ret (SUCCESS, s, rx_data f).

Definition rtw_aes_decrypt (s : sec_state) (stainfo : option sta_keys) (f : recv_frame)
    : cres (Z * sec_state * list Z) :=
  dec_frame ((rx_encrypt f =? AES) || (new_crypto && (rx_encrypt f =? CCMP_256))) AES_SW_DEC_CNT_INC
    (λ prwskey,
      if new_crypto then
        dec_result (rx_data f)
          (rtw_ccmp_decrypt kmalloc amsdu_mode prwskey (if rx_encrypt f =? CCMP_256 then 32 else 16)
             (rx_hdrlen f) (rx_data f) (rx_len f))
      else
        let length := u32 (rx_len f - Z.of_nat (rx_hdrlen f) - Z.of_nat (rx_iv_len f)) in
        let* (mem, res) := aes_decipher ieee80211w prwskey (rx_hdrlen f) (rx_data f) length in
        Ret (res, mem))
    s stainfo f.

Definition rtw_gcmp_decrypt_frame (s : sec_state) (stainfo : option sta_keys) (f : recv_frame)
    : cres (Z * sec_state * list Z) :=
  dec_frame ((rx_encrypt f =? GCMP) || (rx_encrypt f =? GCMP_256)) GCMP_SW_DEC_CNT_INC
    (λ prwskey,
      dec_result (rx_data f)
        (rtw_gcmp_decrypt kmalloc amsdu_mode prwskey (if rx_encrypt f =? GCMP_256 then 32 else 16)
           (rx_hdrlen f) (rx_data f) (rx_len f)))
    s stainfo f.
End build.

(** ** The receive path's entry: [decryptor] *)
(** A received frame with the flag [bdecrypted] of its attributes, which the
    hardware sets for a frame it has decrypted. *)
Record rx_frame := RxFrame { rf : recv_frame; bdecrypted : bool }.
Definition set_key_index (i : nat) (f : recv_frame) : recv_frame :=
  RecvFrame (rx_encrypt f) (rx_hdrlen f) (rx_iv_len f) i (rx_ra f) (rx_ta f) (rx_len f) (rx_data f).
Definition set_rx_data (d : list Z) (f : recv_frame) : recv_frame :=
  RecvFrame (rx_encrypt f) (rx_hdrlen f) (rx_iv_len f) (rx_key_index f) (rx_ra f) (rx_ta f) (rx_len f) d.

Section decryptor.
Context (kmalloc : Z → bool) (amsdu_mode : Z) (new_crypto ieee80211w concurrent : bool).

(** The key index of an encrypted frame, two bits of its fourth IV byte. *)
Definition read_key_index (s : sec_state) (f : recv_frame) : cres recv_frame :=
  if 0 <? rx_encrypt f then
    let* b := mem_byte (rx_data f) (Z.of_nat (rx_hdrlen f) + 3) in
    let idx := (b >> 6) .& 0x3 in
    Ret (set_key_index
      (if WEP_KEYS <? idx then
         if is_wep (rx_encrypt f) then dot11PrivacyKeyIndex (sec s) else dot118021XGrpKeyid (sec s)
       else Z.to_nat idx) f)
  else Ret f.

Definition sw_decrypt (s : sec_state) (stainfo : option sta_keys) (f : recv_frame)
    : cres (Z * sec_state * list Z) :=
  let e := rx_encrypt f in
  if is_wep e then
    let* (p, mem) := rtw_wep_decrypt (sec s) f in Ret (SUCCESS, set_sec p s, mem)
  else if e =? TKIP then
    let* (r, p, mem) := rtw_tkip_decrypt (sec s) (uncst_key <$> stainfo) f in Ret (r, set_sec p s, mem)
  else if (e =? AES) || (e =? CCMP_256) then
    rtw_aes_decrypt kmalloc amsdu_mode new_crypto false false ieee80211w s stainfo f
  else if (e =? GCMP) || (e =? GCMP_256) then
    rtw_gcmp_decrypt_frame kmalloc amsdu_mode false false s stainfo f
  else Ret (SUCCESS, s, rx_data f).

(** The state, and the frame unless it was freed.  A build without
    CONFIG_RTW_MESH and CONFIG_WAPI_SUPPORT. *)
Definition decryptor (s : sec_state) (stainfo : option sta_keys) (rx : rx_frame)
    : cres (sec_state * option rx_frame) :=
  let* f := read_key_index s (rf rx) in
  let* (res, s, f) :=
    if negb (rx_encrypt f =? 0) && negb (bdecrypted rx) then
      let* hd := mem_read (rx_data f) 0 2 in
      let s := if (GetFrameType hd =? WIFI_DATA) && negb (concurrent && IS_MCAST (rx_ra f))
               then set_hw_decrypted false s else s in
      let* (res, s, mem) := sw_decrypt s stainfo f in
      Ret (res, s, set_rx_data mem f)
    else if bdecrypted rx && (0 <? rx_encrypt f)
            && ((busetkipkey s =? 1) || negb (rx_encrypt f =? TKIP)) then
      Ret (SUCCESS, set_hw_decrypted true s, f)
    else Ret (SUCCESS, s, f) in
  if res =? FAIL then Ret (s, None) else Ret (s, Some (RxFrame f true)).
End decryptor.

(** ** A frame that passes *)
Section authentic.
Context (kmalloc : Z → bool) (mode : Z) (Hmem : ∀ n, kmalloc n = true).

(** The frame of [len] bytes in [frame] carries, behind header and CCMP header,
    a body whose tag is the RFC 3610 tag under [key], and [frame'] is the
    memory with the body deciphered. *)
Definition ccmp_authentic (key : list Z) (key_len : Z) (h : nat) (len : Z) (frame frame' : list Z) : Prop :=
  let M := if key_len =? 16 then 8%nat else 16%nat in
  let n := u32 (len - Z.of_nat h) in
  let mlen := (Z.to_nat n - 8 - M)%nat in
  ∃ ctx, aes_encrypt_init kmalloc key key_len = Some ctx ∧
    8 + Z.of_nat M ≤ n ≤ Z.of_nat (length frame - h) ∧
    let '(aad, nonce) := ccmp_aad_nonce mode frame (drop h frame) in
    let msg := ccm_crypt (aes_encrypt ctx) nonce (slice (h + 8) mlen frame) in
    slice (h + 8 + mlen) M frame = ccm_tag (aes_encrypt ctx) M nonce aad msg ∧
    frame' = take (h + 8) frame ++ msg ++ drop (h + 8 + mlen) frame.

Lemma rtw_ccmp_decrypt_authentic key key_len h len frame frame' :
  key_len = 16 ∨ key_len = 32 → bytes frame → (16 ≤ length frame)%nat →
  rtw_ccmp_decrypt kmalloc mode key key_len h frame len = Ret frame' →
  ccmp_authentic key key_len h len frame frame'.
Proof using Hmem.
  intros Hkl Hb Hl. unfold rtw_ccmp_decrypt, ccmp_authentic.
  set (M := if key_len =? 16 then 8%nat else 16%nat). set (n := u32 _).
  assert ((if key_len =? 16 then ccmp_decrypt kmalloc mode key frame (drop h frame) n
     else if key_len =? 32 then ccmp_256_decrypt kmalloc mode key frame (drop h frame) n
     else Err NULL) = ccmp_decrypt_with kmalloc mode key_len M key frame (drop h frame) n) as ->.
  { unfold M. by destruct Hkl as [-> | ->]. }
  assert (2 ≤ M ≤ 16)%nat as HM by (unfold M; destruct (key_len =? 16); lia).
  destruct (aes_encrypt_init kmalloc key key_len) as [ctx|] eqn:Ectx; cycle 1.
  { rewrite aes_encrypt_init_eq, Hmem in Ectx. destruct Hkl as [-> | ->]; discriminate. }
  destruct (decide (8 + Z.of_nat M ≤ n)) as [Hn|Hn]; cycle 1.
  { unfold ccmp_decrypt_with. by rewrite (proj2 (Z.ltb_lt n _)) by lia. }
  destruct (decide (n ≤ Z.of_nat (length (drop h frame)))) as [Hn'|Hn']; cycle 1.
  { unfold ccmp_decrypt_with. rewrite (proj2 (Z.ltb_ge n _)), Hmem by lia. cbn [negb].
    by rewrite (proj2 (Z.ltb_lt _ n)) by lia. }
  pose proof (ccmp_decrypt_with_eq kmalloc mode Hmem key_len M HM key ctx Ectx frame (drop h frame) n Hl
    (bytes_drop h frame Hb) (conj Hn Hn')) as Hd. cbv zeta in Hd. destruct Hd as [rest Hd]. rewrite Hd.
  clear Hd. unfold slice. rewrite length_drop in Hn'.
  destruct (ccmp_aad_nonce mode frame (drop h frame)) as [aad nonce]. cbn [fst snd].
  set (mlen := (Z.to_nat n - 8 - M)%nat). rewrite !drop_drop. rewrite !(Nat.add_assoc h).
  set (msg := ccm_crypt _ _ _).
  destruct (bool_decide_reflect (take M (drop (h + 8 + mlen) frame) = ccm_tag (aes_encrypt ctx) M nonce aad msg))
    as [Ht|]; [|done].
  assert (length msg = mlen) as Lm.
  { unfold msg. rewrite (length_ccm_crypt (aes_encrypt ctx)), length_take, length_drop. lia. }
  cbn [copy_back]. rewrite take_app_length' by done. rewrite buf_write_ok by lia.
  intros [= <-]. exists ctx. split; [done|]. split; [lia|]. split; [done|]. by rewrite Lm.
Qed.

(** A frame leaves the receive path's decryption only when it is authentic:
    if [decryptor] returns a CCMP frame that the hardware has not decrypted,
    then its transmitter is a known station and the body it returns is the
    deciphered body, whose tag is the RFC 3610 tag under the unicast key of
    that station, or, for a group frame, under the group key the frame names,
    which is the installed one; in every other case the frame is freed.  A
    frame that is not freed is marked decrypted. *)
Theorem decryptor_authentic ieee80211w concurrent s stainfo rx s' rx' :
  let f := rf rx in
  rx_encrypt f = AES ∨ rx_encrypt f = CCMP_256 → bdecrypted rx = false →
  bytes (rx_data f) → (16 ≤ length (rx_data f))%nat →
  decryptor kmalloc mode true ieee80211w concurrent s stainfo rx = Ret (s', Some rx') →
  ∃ st key, stainfo = Some st ∧ bdecrypted rx' = true ∧
    (if IS_MCAST (rx_ra f) then
       let idx := rx_key_index (rf rx') in
       binstallGrpkey (sec s) ≠ 0 ∧ dot118021XGrpKeyid (sec s) = idx ∧
       dot118021XGrpKey (sec s) !! idx = Some key ∧
       idx = Z.to_nat (((rx_data f).[rx_hdrlen f + 3] >> 6) .& 3)
     else key = uncst_key st) ∧
    ccmp_authentic key (if rx_encrypt f =? CCMP_256 then 32 else 16) (rx_hdrlen f) (rx_len f)
      (rx_data f) (rx_data (rf rx')).
Proof using Hmem.
  intros f He Hd Hb Hl. unfold decryptor. rewrite Hd.
  assert (rx_encrypt f ≠ 0) as Hne by (destruct He as [-> | ->]; done).
  unfold read_key_index. fold f.
  rewrite (proj2 (Z.ltb_lt 0 (rx_encrypt f))) by (destruct He as [-> | ->]; done).
  destruct (mem_byte (rx_data f) (Z.of_nat (rx_hdrlen f) + 3)) as [b| |] eqn:Hiv; [|done..]. cbn [cbind].
  assert (b = (rx_data f).[rx_hdrlen f + 3]) as Hbv.
  { unfold mem_byte in Hiv. rewrite (proj2 (Z.ltb_ge _ _)) in Hiv by lia.
    replace (Z.to_nat (Z.of_nat (rx_hdrlen f) + 3)) with (rx_hdrlen f + 3)%nat in Hiv by lia.
    destruct (rx_data f !! (rx_hdrlen f + 3)%nat) as [x|] eqn:Hx; [|done]. injection Hiv as <-.
    symmetry. by apply aget_lookup. }
  assert (0 ≤ (b >> 6) .& 3 < 4) as Hi by (change 3 with (Z.ones 2); rewrite Z.land_ones by lia; apply Z.mod_pos_bound; lia).
  unfold WEP_KEYS. rewrite (proj2 (Z.ltb_ge 4 _)) by lia. set (idx := Z.to_nat ((b >> 6) .& 3)).
  set (g := set_key_index idx f). change (rx_encrypt g) with (rx_encrypt f).
  rewrite (proj2 (Z.eqb_neq _ _) Hne). cbn [negb andb].
  destruct (mem_read _ 0 2) as [hd| |]; [|done..]. cbn [cbind]. set (s1 := if (GetFrameType hd =? WIFI_DATA) && _ then set_hw_decrypted false s else s).
  assert (sec s1 = sec s) as Hs1 by (unfold s1; by destruct (_ && _)).
  assert (sw_decrypt kmalloc mode true ieee80211w s1 stainfo g =
    rtw_aes_decrypt kmalloc mode true false false ieee80211w s1 stainfo g) as ->.
  { unfold sw_decrypt. change (rx_encrypt g) with (rx_encrypt f). by destruct He as [-> | ->]. }
  unfold rtw_aes_decrypt, dec_frame. change (rx_encrypt g) with (rx_encrypt f).
  assert ((rx_encrypt f =? AES) || (true && (rx_encrypt f =? CCMP_256)) = true) as ->
    by (by destruct He as [-> | ->]).
  destruct stainfo as [st|]; [|done]. set (kl := if rx_encrypt f =? CCMP_256 then 32 else 16).
  assert (kl = 16 ∨ kl = 32) as Hkl 
    by (unfold kl; destruct (rx_encrypt f =? CCMP_256); [by right|by left]).
  destruct (dec_key false false s1 st g) as [key|e|] eqn:Hkey; [|done..]. cbn [cbind dec_result].
  change (rx_data g) with (rx_data f). change (rx_hdrlen g) with (rx_hdrlen f). change (rx_len g) with (rx_len f).
  destruct (rtw_ccmp_decrypt kmalloc mode key kl (rx_hdrlen f) (rx_data f) (rx_len f)) as [m|e|] eqn:Hdec;
    [|done..]. cbn [cbind]. intros [= <- <-]. exists st, key.
  split; [done|]. split; [done|]. cbn [rf rx_data rx_key_index set_rx_data].
  change (rx_key_index g) with idx. split; [|by apply rtw_ccmp_decrypt_authentic].
  unfold dec_key in Hkey. rewrite Hs1 in Hkey. change (rx_ra g) with (rx_ra f) in Hkey.
  change (rx_key_index g) with idx in Hkey. cbn [negb andb orb] in Hkey.
  destruct (IS_MCAST (rx_ra f)); [|by injection Hkey].
  rewrite orb_false_r in Hkey. destruct (Z.eqb_spec (binstallGrpkey (sec s)) 0); [done|].
  destruct (dot118021XGrpKey (sec s) !! idx) as [k|] eqn:Hk; [|done].
  destruct (Nat.eqb_spec (dot118021XGrpKeyid (sec s)) idx); [|done]. injection Hkey as <-.
  split_and!; try done. unfold idx. by rewrite Hbv.
Qed.
End authentic.

(** A QoS data frame to a unicast address, encrypted under [sw_demo_key]. *)
Definition demo_cnt : sw_cnt := SwCnt 0 0 0.
Definition demo_sec : sec_state :=
  SecState (SecurityPriv 0 [] [] 1 [[]; sw_demo_key] 1 demo_cnt demo_cnt demo_cnt demo_cnt)
    demo_cnt demo_cnt demo_cnt demo_cnt true 0.
Definition demo_unicast : list Z := 0x88 :: 0x41 :: 0 :: 0 :: 2 :: drop 5 (demo_frame 0).
Definition sealed_frame : list Z :=
  match rtw_ccmp_encrypt (λ _, true) 0 sw_demo_key 16 26 demo_unicast 11 with Ret m => m | _ => [] end.
Definition demo_rx_frame : rx_frame :=
  RxFrame (RecvFrame AES 26 8 0 [2; 1; 1; 1; 1; 1] (replicate 6 2) 53 sealed_frame) false.

Lemma decryptor_authentic_witness :
  match decryptor (λ _, true) 0 true true true demo_sec (Some (StaKeys sw_demo_key [] 0)) demo_rx_frame with
  | Ret (_, Some rx') => ∃ st key, Some (StaKeys sw_demo_key [] 0) = Some st ∧ bdecrypted rx' = true ∧
      key = uncst_key st ∧
      ccmp_authentic (λ _, true) 0 key 16 26 53 (rx_data (rf demo_rx_frame)) (rx_data (rf rx'))
  | _ => False
  end.
Proof.
  destruct (decryptor _ _ _ _ _ _ _ demo_rx_frame) as [[s' [rx'|]]| |] eqn:E;
    [|vm_compute in E; discriminate E..].
  assert (bytes (rx_data (rf demo_rx_frame))) as Hb by bytes_lit.
  assert (16 ≤ length (rx_data (rf demo_rx_frame)))%nat as Hl
    by (apply Nat.leb_le; vm_compute; reflexivity).
  pose proof (decryptor_authentic (λ _, true) 0 (λ _, eq_refl) true true demo_sec _ demo_rx_frame s' rx'
    (or_introl eq_refl) eq_refl Hb Hl E) as (st & key & Hs & Hd & Hk & Ha).
  exists st, key. exact (conj Hs (conj Hd (conj Hk Ha))).
Defined.

(** ** A failed encryption *)
Lemma rtw_ccmp_encrypt_nomem mode key key_len h frame plen :
  rtw_ccmp_encrypt (λ _, false) mode key key_len h frame plen = Err FAIL.
Proof.
  unfold rtw_ccmp_encrypt, ccmp_encrypt, ccmp_256_encrypt, ccmp_encrypt_with. cbn [negb].
  by destruct (key_len =? 16), (key_len =? 32); try destruct ((h + plen <? h) || (h <? 24))%nat.
Qed.

(** C40: encryption fails open: when the buffer of [ccmp_encrypt] cannot be
    allocated, [rtw_aes_encrypt] still reports _SUCCESS, counts the frame as
    encrypted and leaves every fragment in the clear. *)
Theorem aes_encrypt_fails_open mode ieee80211w s frag_len f addr :
  buf_addr f = Some addr → (encrypt (attrib f) = AES ∨ encrypt (attrib f) = CCMP_256) →
  (dot118021XGrpKeyid (sec s) < length (dot118021XGrpKey (sec s)))%nat →
  rtw_aes_encrypt (λ _, false) mode true ieee80211w s frag_len f =
    Ret (SUCCESS, AES_SW_ENC_CNT_INC s (ra (attrib f)), buf f).
Proof.
  intros Ha He Hk. unfold rtw_aes_encrypt. rewrite Ha.
  assert ((encrypt (attrib f) =? AES) || (true && (encrypt (attrib f) =? CCMP_256)) = true) as ->
    by (by destruct He as [-> | ->]).
  assert (∃ k, enc_key s (attrib f) = Some k) as [k ->].
  { unfold enc_key. destruct (IS_MCAST _); [|by eexists]. by apply lookup_lt_is_Some_2. }
  set (kl := if encrypt (attrib f) =? CCMP_256 then 32 else 16).
  set (cipher := ccmp_cipher (λ _, false) mode k kl (hdrlen (attrib f))).
  assert (∀ m p, ∃ e, cipher m p = Err e) as Hc.
  { intros m p. unfold cipher, ccmp_cipher. case_match; [by eexists|].
    rewrite rtw_ccmp_encrypt_nomem. by eexists. }
  assert (∀ n off mem, frag_cipher cipher (attrib f) frag_len addr n off mem = Ret mem) as ->; [|done].
  induction n as [|n IH]; intros off mem; [done|]. cbn [frag_cipher].
  destruct (Hc (drop off mem) (frag_length (attrib f) frag_len (n =? 0)%nat)) as [e ->]. cbn [cbind].
  destruct (n =? 0)%nat; [done|apply IH].
Qed.

Definition demo_xmit : xmit_frame :=
  XmitFrame (PktAttrib AES 26 53 1 8 8 (replicate 6 2) (replicate 6 2) sw_demo_key) 0 (Some 4096)
    (replicate 48 0 ++ demo_unicast).

Lemma aes_encrypt_fails_open_witness :
  match rtw_aes_encrypt (λ _, false) 0 true true demo_sec 2346 demo_xmit with
  | Ret (r, _, mem) => r = SUCCESS ∧ mem = buf demo_xmit
  | _ => False
  end.
Proof.
  rewrite (aes_encrypt_fails_open 0 true demo_sec 2346 demo_xmit 4096 eq_refl (or_introl eq_refl)); [done|].
  cbn. lia.
Defined.
