(* ===== verification/MgmtProtect.v ===== *)
(** * Protected management frames: [rtw_calculate_bip_mic] and
      [rtw_bip_verify] of [core/rtw_security.c], [validate_mgmt_protect] of
      [core/rtw_recv.c]

    A build with CONFIG_IEEE80211W and without CONFIG_RTW_MESH.  A frame is the
    memory from its MAC header on.  The gate in front of the management frame
    handlers is modelled with the state it changes: the last packet number of
    the group integrity key, the frame itself and the queries it issues. *)
From S2P Require Import Prelude.
From Stdlib Require Import Sorted.
From stdpp Require Import list.
From S2P Require Import Aes AesCorrect CryptoWrap Blocks Mem Ccmp Swcrypto WepTkip SwAes SwCcmp SecFrames.
Local Open Scope Z_scope.

Definition BIP_CMAC_128 : Z := 0x20.
Definition BIP_GMAC_128 : Z := 0x21.
Definition BIP_GMAC_256 : Z := 0x22.
Definition BIP_CMAC_256 : Z := 0x23.
Definition RTW_RX_HANDLED : Z := 2.
Definition MME_IE : Z := 76.
Definition BIP_AAD_SIZE : nat := 20.
Definition RETRY_BIT : Z := BIT 11.
Definition PWRMGT_BIT : Z := BIT 12.
Definition MORE_DATA_BIT : Z := BIT 13.
Definition WIFI_ACTION : Z := BIT 7 .| BIT 6 .| BIT 4.
Definition WIFI_DEAUTH : Z := BIT 7 .| BIT 6.
Definition WIFI_DISASSOC : Z := BIT 7 .| BIT 5.
Definition WLAN_STA_MFP : Z := BIT 10.

Definition CATEGORY_IS_GROUP_PRIVACY (cat : Z) : bool := (cat =? 13) || (cat =? 14).
Definition CATEGORY_IS_NON_ROBUST (cat : Z) : bool :=
  (cat =? 4) || (cat =? 7) || (cat =? 11) || (cat =? 15) || (cat =? 21) || (cat =? 0x7f).
Definition CATEGORY_IS_ROBUST (cat : Z) : bool := negb (CATEGORY_IS_NON_ROBUST cat).

(** [*(unsigned short * )pbuf &= ~cpu_to_le16(bit)] *)
Definition ClearBit (bit : Z) (pbuf : list Z) : list Z :=
  memcpy pbuf 0 (RTW_PUT_LE16 (Z.ldiff (RTW_GET_LE16 pbuf) bit)).

Section alloc.
Context (kmalloc : Z → bool).

(** ** The broadcast integrity protocol *)
(** The result is [mic]. *)
Definition rtw_calculate_bip_mic (gmcs : Z) (whdr_pos : list Z) (len : Z) (key data : list Z)
    : cres (list Z) :=
  if gmcs =? BIP_CMAC_128 then bip_ccmp_protect kmalloc key 16 data
  else if gmcs =? BIP_CMAC_256 then bip_ccmp_protect kmalloc key 32 data
  else if gmcs =? BIP_GMAC_128 then bip_gcmp_protect kmalloc whdr_pos (Z.to_nat len) key 16 data
  else if gmcs =? BIP_GMAC_256 then bip_gcmp_protect kmalloc whdr_pos (Z.to_nat len) key 32 data
  else Err FAIL.

(** A little-endian number. *)
Definition le_val (l : list Z) : Z := be_val (rev l).

(** [whdr_pos + flen - mme_offset] and the reads from it are inside the frame
    when [flen] is its length.  The result is the return value and [*ipn]. *)
Definition rtw_bip_verify (gmcs pkt_len : Z) (whdr_pos : list Z) (flen : Z) (key : list Z)
    (keyid ipn : Z) : cres (Z * Z) :=
  let mic_len : nat := if gmcs =? BIP_CMAC_128 then 8%nat else 16%nat in
  if (flen <? 24) || (flen - 24 <? Z.of_nat mic_len) then Ret (RTW_RX_HANDLED, ipn) else
  let mme_offset : nat := if (mic_len =? 8)%nat then 18%nat else 26%nat in
  let flen := Z.to_nat flen in
  if (length whdr_pos <? flen)%nat then Oob else
  let mme := drop (flen - mme_offset) whdr_pos in
  if negb (mme.[0] =? MME_IE) then Ret (RTW_RX_HANDLED, ipn) else
  let pkt_keyid := le_val (take 2 (drop 2 mme)) in
  if negb (pkt_keyid =? keyid) then Ret (FAIL, ipn) else
  let pkt_ipn := le_val (take 6 (drop 4 mme)) in
  if pkt_ipn <=? ipn then Ret (FAIL, ipn) else
  let ori_len := (flen - 24 + BIP_AAD_SIZE)%nat in
  if negb (kmalloc (Z.of_nat ori_len)) then Ret (FAIL, ipn) else
  let BIP_AAD := memset ori_len 0 in
  let BIP_AAD := memcpy BIP_AAD BIP_AAD_SIZE (take (flen - 24 - mic_len) (drop 24 whdr_pos)) in
  let BIP_AAD := memcpy BIP_AAD 0 (take 2 whdr_pos) in
  let BIP_AAD := ClearBit MORE_DATA_BIT (ClearBit PWRMGT_BIT (ClearBit RETRY_BIT BIP_AAD)) in
  let BIP_AAD := memcpy BIP_AAD 2 (take 18 (drop 4 whdr_pos)) in
  match rtw_calculate_bip_mic gmcs whdr_pos pkt_len key BIP_AAD with
  | Oob => Oob
  | Err _ => Ret (FAIL, ipn)
  | Ret mic =>
      if bool_decide (take mic_len mic = take mic_len (drop (flen - mic_len) whdr_pos))
      then Ret (SUCCESS, pkt_ipn) else Ret (FAIL, ipn)
  end.
End alloc.

(** ** The gate *)
(** The fields of [struct security_priv] for management frames. *)
Record mfp_state := MfpState {
  binstallBIPkey : bool;
  dot11wCipher : Z;
  dot11wBIPKeyid : nat;
  dot11wBIPKey : list (list Z);        (* six keys *)
  dot11wBIPrxpn : Z;
  mfp_sec : sec_state
}.
Definition set_rxpn (pn : Z) (s : mfp_state) : mfp_state :=
  MfpState (binstallBIPkey s) (dot11wCipher s) (dot11wBIPKeyid s) (dot11wBIPKey s) pn (mfp_sec s).
Definition set_mfp_sec (x : sec_state) (s : mfp_state) : mfp_state :=
  MfpState (binstallBIPkey s) (dot11wCipher s) (dot11wBIPKeyid s) (dot11wBIPKey s) (dot11wBIPrxpn s) x.

(** The fields of the transmitting station. *)
Record peer := Peer {
  flags : Z; bpairwise_key_installed : bool; dot118021XPrivacy : Z; peer_keys : sta_keys
}.

(** A received management frame: the memory with its length, the length the
    hardware reports and the protected bit. *)
Record mgmt_rx := MgmtRx { m_data : list Z; m_len : Z; pkt_len : Z; privacy : bool }.

(** [SET_ICE_IV_LEN] *)
Definition iv_icv_len (e : Z) : nat * nat :=
  if is_wep e then (4, 4)%nat
  else if e =? TKIP then (8, 4)%nat
  else if e =? AES then (8, 8)%nat
  else if (e =? GCMP) || (e =? GCMP_256) then (8, 16)%nat
  else if e =? CCMP_256 then (8, 16)%nat
  else if e =? 6 then (18, 16)%nat else (0, 0)%nat.

(** [_SUCCESS] or [_FAIL], the state, the frame, and whether an SA query was
    issued to the peer. *)
Record mgmt_result := MgmtResult { m_ret : Z; m_state : mfp_state; m_frame : mgmt_rx; sa_query : bool }.

Section gate.
Context (kmalloc : Z → bool) (amsdu_mode : Z) (new_crypto concurrent : bool).

Definition bip_gate (s : mfp_state) (f : mgmt_rx) : cres mgmt_result :=
  match dot11wBIPKey s !! dot11wBIPKeyid s with
  | None => Oob
  | Some igtk =>
      let* (ret, ipn) := rtw_bip_verify kmalloc (dot11wCipher s) (pkt_len f) (m_data f) (m_len f) igtk
                           (Z.of_nat (dot11wBIPKeyid s)) (dot11wBIPrxpn s) in
      let s := set_rxpn ipn s in
      Ret (MgmtResult (if (ret =? FAIL) || (ret =? RTW_RX_HANDLED) then FAIL else SUCCESS) s f false)
  end.

(** The branch for a frame without the protected bit. *)
Definition clear_gate (s : mfp_state) (psta : option peer) (f : mgmt_rx) : cres mgmt_result :=
  let ok := Ret (MgmtResult SUCCESS s f false) in
  let fail q := Ret (MgmtResult FAIL s f q) in
  match psta with
  | None => ok
  | Some p =>
      if flags p .& WLAN_STA_MFP =? 0 then ok else
      let* hd := mem_read (m_data f) 0 10 in
      let subtype := get_frame_sub_type hd in
      let is_bmc := IS_MCAST (drop 4 hd) in
      let* category := if subtype =? WIFI_ACTION then mem_byte (m_data f) 24 else Ret 0xFF in
      if is_bmc then
        if (subtype =? WIFI_ACTION) && CATEGORY_IS_GROUP_PRIVACY category then fail false
        else if (subtype =? WIFI_ACTION) && CATEGORY_IS_ROBUST category then bip_gate s f
        else if (subtype =? WIFI_DEAUTH) || (subtype =? WIFI_DISASSOC) then bip_gate s f
        else ok
      else if (subtype =? WIFI_DEAUTH) || (subtype =? WIFI_DISASSOC) then
        let* rb := mem_read (m_data f) 24 2 in
        let reason := RTW_GET_LE16 rb in
        fail ((reason =? 6) || (reason =? 7))
      else if (subtype =? WIFI_ACTION) && CATEGORY_IS_ROBUST category then
        if bpairwise_key_installed p then fail false else ok
      else ok
  end.

(** The branch for a protected frame: it is deciphered and the CCMP header and
    the MIC are removed.  A frame the decryption refuses has been freed, and the
    code tests for that only behind the copy: it moves the body through the
    pointer into the memory that was the frame's, here with the bytes the frame
    had, before it fails ([refused_frame_written]). *)
Definition protected_gate (s : mfp_state) (psta : option peer) (f : mgmt_rx) : cres mgmt_result :=
  let fail := Ret (MgmtResult FAIL s f false) in
  match psta with
  | None => fail
  | Some p =>
      if flags p .& WLAN_STA_MFP =? 0 then fail else
      let e := dot118021XPrivacy p in
      let '(iv_len, icv_len) := iv_icv_len e in
      let* hd := mem_read (m_data f) 0 16 in
      let data_len := u32 (pkt_len f - 24 - Z.of_nat iv_len - Z.of_nat icv_len) in
      if negb (kmalloc data_len) then fail else
      let rx := RxFrame (RecvFrame e 24 iv_len 0 (take 6 (drop 4 hd)) (take 6 (drop 10 hd)) (m_len f) (m_data f)) false in
      let* (sec', r) := decryptor kmalloc amsdu_mode new_crypto true concurrent (mfp_sec s)
                          (Some (peer_keys p)) rx in
      let s := set_mfp_sec sec' s in
      let ptr := match r with Some rx' => rx_data (rf rx') | None => m_data f end in
      let* body := mem_readz ptr (24 + iv_len) data_len in
      let* mem := buf_write ptr 24 body in
      Ret (MgmtResult (if r then SUCCESS else FAIL) s
             (MgmtRx mem (m_len f) (pkt_len f - Z.of_nat iv_len - Z.of_nat icv_len) (privacy f)) false)
  end.

Definition validate_mgmt_protect (s : mfp_state) (psta : option peer) (f : mgmt_rx) : cres mgmt_result :=
  if negb (binstallBIPkey s) then Ret (MgmtResult SUCCESS s f false)
  else if negb (privacy f) then clear_gate s psta f else protected_gate s psta f.
End gate.

(** ** What the gate lets through *)
Section facts.
Context (kmalloc : Z → bool).

(** The fields of the management MIC element at the end of a frame of [n]
    bytes. *)
Definition mme_offset (gmcs : Z) : nat := if gmcs =? BIP_CMAC_128 then 18%nat else 26%nat.
Definition frame_ipn (gmcs : Z) (frame : list Z) (n : nat) : Z :=
  le_val (take 6 (drop (n - mme_offset gmcs + 4) frame)).
Definition frame_keyid (gmcs : Z) (frame : list Z) (n : nat) : Z :=
  le_val (take 2 (drop (n - mme_offset gmcs + 2) frame)).

(** The data the MIC covers: the frame control field without the three bits
    that may change, the addresses, the body and the element with a zero MIC. *)
Definition bip_data (mic_len : nat) (frame : list Z) (n : nat) : list Z :=
  RTW_PUT_LE16 (Z.ldiff (RTW_GET_LE16 frame) (RETRY_BIT .| PWRMGT_BIT .| MORE_DATA_BIT))
  ++ take 18 (drop 4 frame) ++ take (n - 24 - mic_len) (drop 24 frame) ++ replicate mic_len 0.

Lemma ClearBit_app bit a b l :
  ClearBit bit (a :: b :: l) = RTW_PUT_LE16 (Z.ldiff (u16 ((b << 8) .| a)) bit) ++ l.
Proof. reflexivity. Qed.

Lemma ClearBit_again bit x l :
  is_u16 x → ClearBit bit (RTW_PUT_LE16 x ++ l) = RTW_PUT_LE16 (Z.ldiff x bit) ++ l.
Proof.
  intros Hx. unfold RTW_PUT_LE16 at 1. cbn [app]. rewrite ClearBit_app. rewrite (u16_id x) by done.
  do 3 f_equal. apply (uint_eq_bits 16); [apply u16_uint|done|]. unfold u16. by_bits 16%nat.
Qed.

Lemma ldiff_u16 x y : is_u16 x → is_u16 (Z.ldiff x y).
Proof.
  intros Hx. apply uint_bits; [lia| |].
  - rewrite Z.ldiff_nonneg. left. apply Hx.
  - intros i Hi. rewrite Z.ldiff_spec, (uint_testbit 16 x i Hx Hi). done.
Qed.

Lemma bip_aad_eq mic_len frame n :
  (24 + mic_len ≤ n ≤ length frame)%nat →
  let A := memset (n - 24 + BIP_AAD_SIZE) 0 in
  let A := memcpy A BIP_AAD_SIZE (take (n - 24 - mic_len) (drop 24 frame)) in
  let A := memcpy A 0 (take 2 frame) in
  let A := ClearBit MORE_DATA_BIT (ClearBit PWRMGT_BIT (ClearBit RETRY_BIT A)) in
  memcpy A 2 (take 18 (drop 4 frame)) = bip_data mic_len frame n.
Proof.
  intros Hn. cbv zeta. unfold bip_data, BIP_AAD_SIZE, memset.
  set (body := take (n - 24 - mic_len) (drop 24 frame)).
  assert (length body = (n - 24 - mic_len)%nat) as Lb by (unfold body; rewrite length_take, length_drop; lia).
  rewrite (memcpy_eq _ 20) by (rewrite length_replicate; lia).
  rewrite take_replicate, drop_replicate, Lb.
  replace (20 `min` (n - 24 + 20))%nat with 20%nat by lia.
  replace (n - 24 + 20 - (20 + (n - 24 - mic_len)))%nat with mic_len by lia.
  set (tail := body ++ replicate mic_len 0).
  destruct frame as [|a [|b frame']]; [cbn in Hn; lia..|].
  change (take 2 (a :: b :: frame')) with [a; b].
  rewrite (memcpy_eq _ 0) by (rewrite length_app, length_replicate; cbn [length]; lia).
  rewrite take_0, app_nil_l. cbn [length app Nat.add]. change (replicate 20 0) with ([0; 0] ++ replicate 18 0).
  rewrite <- app_assoc, drop_app_length' by done. rewrite ClearBit_app.
  set (fc := u16 ((b << 8) .| a)). assert (is_u16 fc) as Hfc by apply u16_uint.
  rewrite ClearBit_again, ClearBit_again by (try apply ldiff_u16; try apply ldiff_u16; exact Hfc).
  change (RTW_GET_LE16 (a :: b :: frame')) with fc.
  assert (Z.ldiff (Z.ldiff (Z.ldiff fc RETRY_BIT) PWRMGT_BIT) MORE_DATA_BIT =
    Z.ldiff fc (RETRY_BIT .| PWRMGT_BIT .| MORE_DATA_BIT)) as ->.
  { apply Z.bits_inj'. intros i Hi. rewrite !Z.ldiff_spec, !Z.lor_spec, !negb_orb, !andb_assoc. done. }
  set (v := RTW_PUT_LE16 _). assert (length v = 2%nat) as Lv by reflexivity.
  set (adr := take 18 (drop 4 (a :: b :: frame'))).
  assert (length adr = 18%nat) as La by (unfold adr; rewrite length_take, length_drop; lia).
  rewrite memcpy_eq by (rewrite !length_app, length_replicate; lia).
  rewrite take_app_length' by done. rewrite La.
  assert (drop (2 + 18) (v ++ replicate 18 0 ++ tail) = tail) as ->; [|done].
  rewrite app_assoc. apply drop_app_length'. by rewrite length_app, length_replicate, Lv.
Qed.

Definition bip_mic_len (gmcs : Z) : nat := if gmcs =? BIP_CMAC_128 then 8%nat else 16%nat.

(** [rtw_bip_verify] accepts exactly the frames with a later packet number, the
    right key and the right MIC, and only then moves the packet number. *)
Lemma bip_verify_cases gmcs plen frame flen key keyid ipn r ipn' :
  rtw_bip_verify kmalloc gmcs plen frame flen key keyid ipn = Ret (r, ipn') →
  ((r = FAIL ∨ r = RTW_RX_HANDLED) ∧ ipn' = ipn) ∨
  (r = SUCCESS ∧
   let n := Z.to_nat flen in let ml := bip_mic_len gmcs in
   (24 + ml ≤ n ≤ length frame)%nat ∧ frame_keyid gmcs frame n = keyid ∧
   ipn' = frame_ipn gmcs frame n ∧ ipn < ipn' ∧
   ∃ mic, rtw_calculate_bip_mic kmalloc gmcs frame plen key (bip_data ml frame n) = Ret mic ∧
     take ml mic = take ml (drop (n - ml) frame)).
Proof.
  unfold rtw_bip_verify. fold (bip_mic_len gmcs). set (ml := bip_mic_len gmcs).
  assert ((if (ml =? 8)%nat then 18%nat else 26%nat) = mme_offset gmcs) as ->.
  { unfold ml, bip_mic_len, mme_offset. by destruct (gmcs =? _). }
  set (n := Z.to_nat flen). rewrite !drop_drop, aget_drop.
  destruct (Z.ltb_spec flen 24) as [|H24]; [intros [= <- <-]; left; auto|].
  destruct (Z.ltb_spec (flen - 24) (Z.of_nat ml)) as [|Hml]; [intros [= <- <-]; left; auto|]. cbn [orb].
  destruct (Nat.ltb_spec (length frame) n) as [|Hlen]; [done|].
  destruct (negb (_ =? MME_IE)); [intros [= <- <-]; left; auto|].
  fold (frame_keyid gmcs frame n) (frame_ipn gmcs frame n).
  destruct (Z.eqb_spec (frame_keyid gmcs frame n) keyid) as [Hkey|]; [|intros [= <- <-]; left; auto]. cbn [negb].
  destruct (Z.leb_spec (frame_ipn gmcs frame n) ipn) as [|Hipn]; [intros [= <- <-]; left; auto|].
  destruct (kmalloc _); [|intros [= <- <-]; left; auto]. cbn [negb].
  assert (24 + ml ≤ n ≤ length frame)%nat as Hn by lia.
  pose proof (bip_aad_eq ml frame n Hn) as Haad. cbv zeta in Haad. rewrite Haad. clear Haad.
  destruct (rtw_calculate_bip_mic _ _ _ _ _ _) as [mic|e|] eqn:Hmic; [|intros [= <- <-]; left; auto|done].
  destruct (bool_decide_reflect (take ml mic = take ml (drop (n - ml) frame))) as [He|];
    [|intros [= <- <-]; left; auto].
  intros [= <- <-]. right. split; [done|]. split; [lia|]. split; [done|]. split; [done|]. split; [done|].
  by exists mic.
Qed.
End facts.

(** The frames the standard calls robust. *)
Definition subtype_of (f : mgmt_rx) : Z := get_frame_sub_type (take 10 (m_data f)).
Definition robust (f : mgmt_rx) : bool :=
  (subtype_of f =? WIFI_DEAUTH) || (subtype_of f =? WIFI_DISASSOC)
  || ((subtype_of f =? WIFI_ACTION) && CATEGORY_IS_ROBUST (m_data f).[24]).
Definition is_group (f : mgmt_rx) : bool := IS_MCAST (drop 4 (take 10 (m_data f))).

(** The frame carries a valid management MIC element under the installed group
    integrity key, with packet number [ipn]. *)
Definition bip_protected (kmalloc : Z → bool) (s : mfp_state) (f : mgmt_rx) (ipn : Z) : Prop :=
  let gmcs := dot11wCipher s in let n := Z.to_nat (m_len f) in let ml := bip_mic_len gmcs in
  ∃ igtk mic, dot11wBIPKey s !! dot11wBIPKeyid s = Some igtk ∧
    frame_keyid gmcs (m_data f) n = Z.of_nat (dot11wBIPKeyid s) ∧
    ipn = frame_ipn gmcs (m_data f) n ∧
    rtw_calculate_bip_mic kmalloc gmcs (m_data f) (pkt_len f) igtk (bip_data ml (m_data f) n) = Ret mic ∧
    take ml mic = take ml (drop (n - ml) (m_data f)).

Section gate_facts.
Context (kmalloc : Z → bool) (mode : Z) (new_crypto concurrent : bool).

Lemma bip_gate_cases s f r :
  bip_gate kmalloc s f = Ret r →
  m_frame r = f ∧ sa_query r = false ∧
  ((m_ret r = FAIL ∧ m_state r = s) ∨
   ∃ ipn, m_ret r = SUCCESS ∧ m_state r = set_rxpn ipn s ∧ dot11wBIPrxpn s < ipn ∧ bip_protected kmalloc s f ipn).
Proof using Type.
  unfold bip_gate. destruct (dot11wBIPKey s !! dot11wBIPKeyid s) as [igtk|] eqn:Hk; [|done].
  destruct (rtw_bip_verify _ _ _ _ _ _ _ _) as [[ret ipn]| |] eqn:Hv; [|done..]. cbn [cbind].
  intros [= <-]. cbn [m_frame sa_query m_ret m_state]. split; [done|]. split; [done|].
  apply bip_verify_cases in Hv as [[Hr ->]|[-> H]].
  - left. split; [by destruct Hr as [-> | ->]|by destruct s].
  - right. destruct H as (Hn & Hkey & Hipn & Hlt & mic & Hm & He). exists ipn. split_and!; try done.
    exists igtk, mic. done.
Qed.

Lemma mem_read_0 mem n x : mem_read mem 0 n = Ret x → x = take n mem.
Proof using Type.
  unfold mem_read. destruct (_ <=? _)%nat; [|done]. intros [= <-]. unfold slice. by rewrite drop_0.
Qed.
Lemma mem_byte_24 mem b : mem_byte mem 24 = Ret b → b = mem.[24].
Proof using Type.
  unfold mem_byte. cbn [Z.ltb Z.compare]. change (Z.to_nat 24) with 24%nat.
  destruct (mem !! 24%nat) as [x|] eqn:E; [|done]. intros [= <-]. symmetry. by apply aget_lookup.
Qed.

(** What a frame without the protected bit from an MFP peer gets through with. *)
Lemma clear_gate_safe s p f r :
  negb (flags p .& WLAN_STA_MFP =? 0) = true → bpairwise_key_installed p = true → robust f = true →
  clear_gate kmalloc s (Some p) f = Ret r →
  (m_ret r = FAIL ∧ m_state r = s) ∨
  (is_group f = true ∧ ∃ ipn, m_ret r = SUCCESS ∧ m_state r = set_rxpn ipn s ∧
     dot11wBIPrxpn s < ipn ∧ bip_protected kmalloc s f ipn).
Proof using Type.
  intros Hm Hp Hr. unfold clear_gate. apply negb_true_iff in Hm. rewrite Hm.
  destruct (mem_read (m_data f) 0 10) as [hd| |] eqn:Hhd; [|done..]. cbn [cbind].
  apply mem_read_0 in Hhd. subst hd. fold (subtype_of f) (is_group f). unfold robust in Hr.
  destruct (Z.eqb_spec (subtype_of f) WIFI_ACTION) as [Ha|Ha].
  - destruct (mem_byte (m_data f) 24) as [cat| |] eqn:Hc; [|done..]. cbn [cbind andb].
    apply mem_byte_24 in Hc. subst cat. rewrite Ha in Hr. cbn [andb orb Z.eqb Pos.eqb] in Hr.
    change ((WIFI_ACTION =? WIFI_DEAUTH) || (WIFI_ACTION =? WIFI_DISASSOC)) with false in Hr. cbn [orb] in Hr.
    rewrite Hr, Hp, Ha. destruct (is_group f) eqn:Hg.
    + destruct (CATEGORY_IS_GROUP_PRIVACY _); [intros [= <-]; by left|].
      intros H. apply bip_gate_cases in H as (_ & _ & [H|H]); [by left|by right].
    + change ((WIFI_ACTION =? WIFI_DEAUTH) || (WIFI_ACTION =? WIFI_DISASSOC)) with false.
      intros [= <-]. by left.
  - cbn [cbind andb orb] in *. rewrite orb_false_r in Hr. rewrite Hr. destruct (is_group f) eqn:Hg.
    + intros H. apply bip_gate_cases in H as (_ & _ & [H|H]); [by left|by right].
    + destruct (mem_read (m_data f) 24 2) as [rb| |]; [|done..]. cbn [cbind]. intros [= <-]. by left.
Qed.
End gate_facts.

(** C11: the gate for protected management frames.  Once the group integrity key
    is installed, a robust management frame (deauthentication, disassociation
    or a robust action frame) of a peer that negotiated management frame
    protection and has its pairwise key is accepted only if it is encrypted
    and [decryptor] returned it, or it is a group frame whose MIC under the
    installed key is right and whose packet number is above the last accepted
    one, which it then becomes; an unprotected unicast one is never accepted,
    and a refused frame does not move the packet number. *)
Theorem mgmt_protect_safe kmalloc mode new_crypto concurrent s p f r :
  binstallBIPkey s = true → negb (flags p .& WLAN_STA_MFP =? 0) = true →
  bpairwise_key_installed p = true → robust f = true →
  validate_mgmt_protect kmalloc mode new_crypto concurrent s (Some p) f = Ret r →
  (m_ret r = FAIL ∧ dot11wBIPrxpn (m_state r) = dot11wBIPrxpn s) ∨
  (m_ret r = SUCCESS ∧
   if privacy f then
     dot11wBIPrxpn (m_state r) = dot11wBIPrxpn s ∧
     ∃ rx sec' rx', rx_data (rf rx) = m_data f ∧ rx_encrypt (rf rx) = dot118021XPrivacy p ∧
       decryptor kmalloc mode new_crypto true concurrent (mfp_sec s) (Some (peer_keys p)) rx
         = Ret (sec', Some rx')
   else is_group f = true ∧ dot11wBIPrxpn s < dot11wBIPrxpn (m_state r) ∧
        bip_protected kmalloc s f (dot11wBIPrxpn (m_state r))).
Proof.
  intros Hb Hm Hp Hr. unfold validate_mgmt_protect. rewrite Hb. cbn [negb].
  destruct (privacy f) eqn:Hpriv; cbn [negb].
  - unfold protected_gate. apply negb_true_iff in Hm. rewrite Hm.
    destruct (iv_icv_len _) as [iv icv]. destruct (mem_read _ 0 16) as [hd| |]; [|done..]. cbn [cbind].
    destruct (kmalloc _); [|intros [= <-]; by left]. cbn [negb]. set (rx := RxFrame _ false).
    destruct (decryptor _ _ _ _ _ _ _ rx) as [[sec' r']| |] eqn:Hd; [|done..]. cbn [cbind].
    destruct (mem_readz _ _ _) as [body| |]; [|done..]. cbn [cbind].
    destruct (buf_write _ _ _) as [mem| |]; [|done..]. cbn [cbind]. intros [= <-].
    destruct r' as [rx'|]; [right|by left]. split; [done|]. split; [done|]. exists rx, sec', rx'. done.
  - intros H. apply clear_gate_safe in H as [[H1 H2]|(Hg & ipn & H1 & H2 & H3 & H4)]; [| |done..].
    + left. by rewrite H2.
    + right. rewrite H2. done.
Qed.

(** ** Sequences of frames *)
Section run.
Context (kmalloc : Z → bool) (mode : Z) (new_crypto concurrent : bool).

(** The frames of [l] one after the other: the final state and the inputs the
    gate accepted. *)
Fixpoint mgmt_run (s : mfp_state) (l : list (option peer * mgmt_rx))
    : cres (mfp_state * list (option peer * mgmt_rx)) :=
  match l with
  | [] => Ret (s, [])
  | i :: l =>
      let* r := validate_mgmt_protect kmalloc mode new_crypto concurrent s i.1 i.2 in
      let* (s', acc) := mgmt_run (m_state r) l in
      Ret (s', if m_ret r =? SUCCESS then i :: acc else acc)
  end.

(** A robust frame without the protected bit from an MFP peer with its key. *)
Definition guarded (i : option peer * mgmt_rx) : bool :=
  match i.1 with
  | None => false
  | Some p => negb (flags p .& WLAN_STA_MFP =? 0) && bpairwise_key_installed p
              && robust i.2 && negb (privacy i.2)
  end.
Definition ipn_of (gmcs : Z) (i : option peer * mgmt_rx) : Z :=
  frame_ipn gmcs (m_data i.2) (Z.to_nat (m_len i.2)).

Definition same_keys (s s' : mfp_state) : Prop :=
  binstallBIPkey s' = binstallBIPkey s ∧ dot11wCipher s' = dot11wCipher s ∧
  dot11wBIPKeyid s' = dot11wBIPKeyid s.

Lemma bip_gate_mono s f r :
  bip_gate kmalloc s f = Ret r → same_keys s (m_state r) ∧ dot11wBIPrxpn s ≤ dot11wBIPrxpn (m_state r).
Proof using Type.
  intros H. apply bip_gate_cases in H as (_ & _ & [[_ ->]|(ipn & _ & -> & Hlt & _)]).
  - split; [done|lia].
  - split; [done|]. cbn. lia.
Qed.

Lemma gate_mono s psta f r :
  validate_mgmt_protect kmalloc mode new_crypto concurrent s psta f = Ret r →
  same_keys s (m_state r) ∧ dot11wBIPrxpn s ≤ dot11wBIPrxpn (m_state r).
Proof using Type.
  assert (∀ x, same_keys s x ∧ dot11wBIPrxpn x = dot11wBIPrxpn s →
    same_keys s x ∧ dot11wBIPrxpn s ≤ dot11wBIPrxpn x) as Heq by (intros x [? ?]; split; [done|lia]).
  unfold validate_mgmt_protect. destruct (negb (binstallBIPkey s)); [intros [= <-]; by apply Heq|].
  destruct (negb (privacy f)).
  - unfold clear_gate. destruct psta as [p|]; [|intros [= <-]; by apply Heq].
    destruct (flags p .& WLAN_STA_MFP =? 0); [intros [= <-]; by apply Heq|].
    destruct (mem_read _ 0 10); [|done..]. cbn [cbind].
    match goal with |- cbind ?m _ = _ → _ => destruct m; [|done..] end. cbn [cbind].
    repeat case_match; try (intros [= <-]; by apply Heq); try apply bip_gate_mono;
      destruct (mem_read _ _ _); cbn [cbind]; try done; intros [= <-]; by apply Heq.
  - unfold protected_gate. destruct psta as [p|]; [|intros [= <-]; by apply Heq].
    destruct (flags p .& WLAN_STA_MFP =? 0); [intros [= <-]; by apply Heq|].
    destruct (iv_icv_len _). destruct (mem_read _ 0 16); [|done..]. cbn [cbind].
    destruct (negb _); [intros [= <-]; by apply Heq|].
    destruct (decryptor _ _ _ _ _ _ _ _) as [[sec' r']| |]; [|done..]. cbn [cbind].
    destruct (mem_readz _ _ _); [|done..]. cbn [cbind]. destruct (buf_write _ _ _); [|done..]. cbn [cbind].
    intros [= <-]. by apply Heq.
Qed.

Lemma guarded_accepted s i r :
  binstallBIPkey s = true → guarded i = true →
  validate_mgmt_protect kmalloc mode new_crypto concurrent s i.1 i.2 = Ret r → m_ret r = SUCCESS →
  dot11wBIPrxpn s < dot11wBIPrxpn (m_state r) ∧ ipn_of (dot11wCipher s) i = dot11wBIPrxpn (m_state r).
Proof using Type.
  intros Hb Hg. unfold guarded in Hg. destruct i as [[p|] f]; [|done]. cbn [fst snd] in *.
  apply andb_prop in Hg as [[[Hm Hp]%andb_prop Hr]%andb_prop Hv].
  unfold validate_mgmt_protect. rewrite Hb, Hv. cbn [negb]. intros H Hs.
  apply clear_gate_safe in H as [[H1 _]|(_ & ipn & _ & H2 & H3 & H4)]; [by rewrite H1 in Hs| |done..].
  rewrite H2. split; [done|]. destruct H4 as (igtk & mic & _ & _ & -> & _). done.
Qed.

Lemma run_guarded l s s' acc :
  binstallBIPkey s = true → mgmt_run s l = Ret (s', acc) →
  let ipns := map (ipn_of (dot11wCipher s)) (base.filter guarded acc) in
  StronglySorted Z.lt ipns ∧ Forall (λ n, dot11wBIPrxpn s < n) ipns.
Proof using Type.
  revert s acc. induction l as [|i l IH]; intros s acc Hb; cbn [mgmt_run].
  - intros [= <- <-]. split; constructor.
  - destruct (validate_mgmt_protect _ _ _ _ _ _ _) as [r| |] eqn:Hv; [|done..]. cbn [cbind].
    destruct (mgmt_run (m_state r) l) as [[s1 acc1]| |] eqn:Hrun; [|done..]. cbn [cbind].
    intros [= <- <-]. apply gate_mono in Hv as HM. destruct HM as ((K1 & K2 & K3) & Hle).
    destruct (IH (m_state r) acc1 ltac:(by rewrite K1) Hrun) as [IH1 IH2]. rewrite K2 in IH1, IH2.
    assert (Forall (λ n, dot11wBIPrxpn s < n) (map (ipn_of (dot11wCipher s)) (base.filter guarded acc1))) as IH3
      by (eapply Forall_impl; [exact IH2|]; cbn; intros; lia).
    destruct (Z.eqb_spec (m_ret r) SUCCESS) as [Hs|_]; [|done].
    rewrite filter_cons. case_decide as Hg; [|done]. apply Is_true_true in Hg.
    destruct (guarded_accepted s i r Hb Hg Hv Hs) as [Hlt He]. cbn [map].
    rewrite He. split; constructor; done.
Qed.
End run.

(** No replay of group management frames: along every sequence of received
    frames, the packet numbers of the robust group frames the gate accepts
    from MFP peers strictly increase and start above the stored one, so no
    such frame, and no other one with its packet number, is accepted twice. *)
Theorem mgmt_no_replay kmalloc mode new_crypto concurrent s l s' acc :
  binstallBIPkey s = true →
  mgmt_run kmalloc mode new_crypto concurrent s l = Ret (s', acc) →
  let ipns := map (ipn_of (dot11wCipher s)) (base.filter guarded acc) in
  StronglySorted Z.lt ipns ∧ NoDup ipns ∧ Forall (λ n, dot11wBIPrxpn s < n) ipns.
Proof.
  intros Hb Hrun. destruct (run_guarded _ _ _ _ l s s' acc Hb Hrun) as [H1 H2].
  cbv zeta in *. split; [done|]. split; [|done].
  clear H2. induction H1 as [|x l' Hs IH Hx]; constructor; [|done].
  intros Hin. rewrite Forall_forall in Hx. specialize (Hx x Hin). lia.
Qed.

(** A broadcast deauthentication with packet number 7 under integrity key 4. *)
Definition demo_mfp : mfp_state :=
  MfpState true BIP_CMAC_128 4 (replicate 6 sw_demo_key) 5 demo_sec.
Definition demo_peer : peer := Peer (BIT 10) true AES (StaKeys sw_demo_key [] 0).
Definition demo_deauth : mgmt_rx :=
  let hdr := [0xC0; 0; 0; 0] ++ replicate 6 0xff ++ replicate 6 2 ++ replicate 6 2 ++ [0; 0] in
  let body := [3; 0; 76; 16; 4; 0; 7; 0; 0; 0; 0; 0] in
  let mic := match rtw_calculate_bip_mic (λ _, true) BIP_CMAC_128 hdr 44 sw_demo_key
                     (bip_data 8 (hdr ++ body ++ replicate 8 0) 44) with
             | Ret mic => take 8 mic | _ => [] end in
  MgmtRx (hdr ++ body ++ mic) 44 44 false.

Lemma mgmt_protect_safe_witness :
  match validate_mgmt_protect (λ _, true) 0 true true demo_mfp (Some demo_peer) demo_deauth with
  | Ret r => m_ret r = SUCCESS ∧ dot11wBIPrxpn demo_mfp < dot11wBIPrxpn (m_state r)
  | _ => False
  end.
Proof.
  destruct (validate_mgmt_protect (λ _, true) 0 true true demo_mfp (Some demo_peer) demo_deauth)
    as [r| |] eqn:E; [|vm_compute in E; discriminate E..].
  pose proof (mgmt_protect_safe (λ _, true) 0 true true demo_mfp demo_peer demo_deauth r
    eq_refl eq_refl eq_refl ltac:(vm_compute; reflexivity) E) as [[H _]|[H1 H2]].
  - vm_compute in E. injection E as <-. discriminate H.
  - split; [exact H1|exact (proj1 (proj2 H2))].
Defined.

Lemma mgmt_no_replay_witness :
  match mgmt_run (λ _, true) 0 true true demo_mfp
          [(Some demo_peer, demo_deauth); (Some demo_peer, demo_deauth)] with
  | Ret (_, acc) => NoDup (map (ipn_of BIP_CMAC_128) (base.filter guarded acc)) ∧ length acc = 1%nat
  | _ => False
  end.
Proof.
  destruct (mgmt_run (λ _, true) 0 true true demo_mfp _) as [[s' acc]| |] eqn:E;
    [|vm_compute in E; discriminate E..].
  pose proof (mgmt_no_replay (λ _, true) 0 true true demo_mfp _ s' acc eq_refl E) as (_ & H & _).
  split; [exact H|]. vm_compute in E. injection E as <- <-. reflexivity.
Defined.

(** A forged protected deauthentication is refused, after its body was moved
    over the CCMP header in the memory of the frame that was freed. *)
Definition forged_deauth : mgmt_rx :=
  MgmtRx ([0xc0; 0x40; 0; 0] ++ replicate 20 2 ++ [1; 0; 0; 0x20; 0; 0; 0; 0] ++ [3; 0] ++ replicate 8 9) 42 42 true.
Example refused_frame_written :
  match validate_mgmt_protect (λ _, true) 0 true true demo_mfp (Some demo_peer) forged_deauth with
  | Ret r => m_ret r = FAIL ∧ slice 24 2 (m_data (m_frame r)) = [3; 0] ∧ slice 24 2 (m_data forged_deauth) = [1; 0]
  | _ => False
  end.
Proof. vm_compute. repeat split. Qed.
