(* ===== verification/RmReq.v ===== *)
(** * Radio measurement requests: [core/rtw_rm.c], [core/rtw_rm_util.c],
    [core/rtw_rm_util_rest.c], [include/rtw_rm_fsm.h]

    The data of a measurement, the frame body of a request ([issue_radio_meas_req])
    and its parser ([rm_parse_meas_req]), which reads what any station sends, and
    the choice of the channels to scan.  A received body is the list of the bytes
    from the element on; a read behind it is [Oob], and so is an index outside one
    of the arrays of the request.  [kmalloc] says which allocations succeed. *)
From S2P Require Import Prelude.
From stdpp Require Import list.
From S2P Require Import CryptoWrap Mem.
Local Open Scope Z_scope.

(** ** Constants *)
Definition RM_MASTER : Z := BIT 0.
Definition RM_SLAVE : Z := 0.
Definition RM_ALL_MEAS : Z := BIT 1.
Definition MEAS_REP_MOD_LATE : Z := BIT 0.
Definition MEAS_REP_MOD_INCAP : Z := BIT 1.
Definition MEAS_REP_MOD_REFUSE : Z := BIT 2.
Definition MEAS_REQ_IE : Z := 38.
Definition MEAS_RSP_IE : Z := 39.
Definition RADIO_MEAS : Z := 5.
Definition RM_ACT_RADIO_MEAS_REQ : Z := 0.
Definition RM_ACT_RADIO_MEAS_REP : Z := 1.
Definition RM_ACT_LINK_MEAS_REQ : Z := 2.
Definition RM_ACT_LINK_MEAS_REP : Z := 3.
Definition RM_ACT_NB_REP_REQ : Z := 4.
Definition RM_ACT_NB_REP_RESP : Z := 5.
Definition ch_load_req : Z := 3.
Definition noise_histo_req : Z := 4.
Definition bcn_req : Z := 5.
Definition bcn_req_passive : Z := 0.
Definition bcn_req_active : Z := 1.
Definition bcn_req_bcn_table : Z := 2.
Definition bcn_req_ssid : Z := 0.
Definition bcn_req_rep_info : Z := 1.
Definition bcn_req_rep_detail : Z := 2.
Definition bcn_req_req : Z := 10.
Definition bcn_req_ap_ch_rep : Z := 51.
(** [ch_load_rep_info] and [noise_histo_rep_info] are both 1. *)
Definition meas_rep_info : Z := 1.
Definition RM_BCN_PASSIVE_MEAS_CAP_EN : Z := 4.
Definition RM_BCN_ACTIVE_MEAS_CAP_EN : Z := 5.
Definition RM_BCN_TABLE_MEAS_CAP_EN : Z := 6.
Definition RM_BCN_MEAS_REP_COND_CAP_EN : Z := 7.
Definition RM_CH_LOAD_CAP_EN : Z := 9.
Definition RM_NOISE_HISTO_CAP_EN : Z := 10.
Definition RM_MAX : Z := 35.
Definition BCN_REQ_OPT_MAX_NUM : nat := 16.
Definition BCN_REQ_OPT_AP_CH_RPT_MAX_NUM : nat := 12.
Definition MAX_CH_NUM_IN_OP_CLASS : nat := 11.
Definition RTW_CHANNEL_SCAN_AMOUNT : nat := 51.

(** ** Data

    [Channel] holds the bytes that were written; the rest of the array is not
    initialised.  The three members of the union [opt] are separate fields: a
    request uses one of them, and [clm] and [nhm] are the first two bytes. *)
Record RT_OPERATING_CLASS := { global_op_class : Z; Len : Z; Channel : list Z }.
Record opt_rep_info := { cond : Z; threshold : Z }.
Record bcn_req_opt := {
  opt_id : list Z; rep_detail : Z; SsidLength : Z; Ssid : list Z; rep_cond : opt_rep_info;
  ap_ch_rpt : list RT_OPERATING_CLASS; req_start : option (list Z); req_id : list Z
}.
Record rm_meas_req := {
  q_category : Z; q_action_code : Z; q_diag_token : Z; q_rpt : Z; q_e_id : Z; q_m_token : Z;
  q_m_mode : Z; q_m_type : Z; q_op_class : Z; q_ch_num : Z; q_rand_intvl : Z; q_meas_dur : Z;
  q_bssid : list Z; q_bcn : bcn_req_opt; q_clm : opt_rep_info
}.
(** What [_rtw_memset] leaves. *)
Definition no_opt : bcn_req_opt :=
  {| opt_id := []; rep_detail := 0; SsidLength := 0; Ssid := replicate 32 0;
     rep_cond := {| cond := 0; threshold := 0 |}; ap_ch_rpt := []; req_start := None; req_id := [] |}.
Definition no_req : rm_meas_req :=
  {| q_category := 0; q_action_code := 0; q_diag_token := 0; q_rpt := 0; q_e_id := 0; q_m_token := 0;
     q_m_mode := 0; q_m_type := 0; q_op_class := 0; q_ch_num := 0; q_rand_intvl := 0; q_meas_dur := 0;
     q_bssid := replicate 6 0; q_bcn := no_opt; q_clm := {| cond := 0; threshold := 0 |} |}.

Definition set_opt_id x o := Build_bcn_req_opt x o.(rep_detail) o.(SsidLength) o.(Ssid) o.(rep_cond) o.(ap_ch_rpt) o.(req_start) o.(req_id).
Definition set_rep_detail x o := Build_bcn_req_opt o.(opt_id) x o.(SsidLength) o.(Ssid) o.(rep_cond) o.(ap_ch_rpt) o.(req_start) o.(req_id).
Definition set_ssid n x o := Build_bcn_req_opt o.(opt_id) o.(rep_detail) n x o.(rep_cond) o.(ap_ch_rpt) o.(req_start) o.(req_id).
Definition set_rep_cond x o := Build_bcn_req_opt o.(opt_id) o.(rep_detail) o.(SsidLength) o.(Ssid) x o.(ap_ch_rpt) o.(req_start) o.(req_id).
Definition set_ap_ch_rpt x o := Build_bcn_req_opt o.(opt_id) o.(rep_detail) o.(SsidLength) o.(Ssid) o.(rep_cond) x o.(req_start) o.(req_id).
Definition set_req_start x o := Build_bcn_req_opt o.(opt_id) o.(rep_detail) o.(SsidLength) o.(Ssid) o.(rep_cond) o.(ap_ch_rpt) x o.(req_id).
Definition add_opt_id (id : Z) (o : bcn_req_opt) : bcn_req_opt := set_opt_id (o.(opt_id) ++ [id]) o.
Definition set_head rpt e_id m_token m_mode m_type dt q :=
  Build_rm_meas_req q.(q_category) q.(q_action_code) dt rpt e_id m_token m_mode m_type q.(q_op_class) q.(q_ch_num)
    q.(q_rand_intvl) q.(q_meas_dur) q.(q_bssid) q.(q_bcn) q.(q_clm).
Definition set_chan oc ch ri md q :=
  Build_rm_meas_req q.(q_category) q.(q_action_code) q.(q_diag_token) q.(q_rpt) q.(q_e_id) q.(q_m_token) q.(q_m_mode) q.(q_m_type) oc ch
    ri md q.(q_bssid) q.(q_bcn) q.(q_clm).
Definition set_mode_bssid mode bssid q :=
  Build_rm_meas_req q.(q_category) q.(q_action_code) q.(q_diag_token) q.(q_rpt) q.(q_e_id) q.(q_m_token) mode q.(q_m_type) q.(q_op_class) q.(q_ch_num)
    q.(q_rand_intvl) q.(q_meas_dur) bssid q.(q_bcn) q.(q_clm).
Definition set_bcn b q :=
  Build_rm_meas_req q.(q_category) q.(q_action_code) q.(q_diag_token) q.(q_rpt) q.(q_e_id) q.(q_m_token) q.(q_m_mode) q.(q_m_type) q.(q_op_class) q.(q_ch_num)
    q.(q_rand_intvl) q.(q_meas_dur) q.(q_bssid) b q.(q_clm).
Definition set_clm c q :=
  Build_rm_meas_req q.(q_category) q.(q_action_code) q.(q_diag_token) q.(q_rpt) q.(q_e_id) q.(q_m_token) q.(q_m_mode) q.(q_m_type) q.(q_op_class) q.(q_ch_num)
    q.(q_rand_intvl) q.(q_meas_dur) q.(q_bssid) q.(q_bcn) c.

(** ** Capabilities

    [mode] is [prm->p.m_mode], which a refusal is recorded in; [cap] is
    [rm_en_cap_def]. *)
Definition rm_set_rep_mode (mode m : Z) : Z := u8 (mode .| m).
Definition rm_en_cap_chk_and_set (cap : list Z) (en mode : Z) : Z :=
  if RM_MAX <=? en then mode
  else let idx := en / 8 in
    if cap.[Z.to_nat idx] .& BIT (en - idx * 8) =? 0 then rm_set_rep_mode mode MEAS_REP_MOD_INCAP else mode.

(** ** Parsing *)
Section parse.
Context (kmalloc : Z → bool) (cap : list Z) (pbody : list Z).

(** Bytes of [struct _RT_OPERATING_CLASS]: two [int]s and eleven bytes, padded. *)
Definition sizeof_op_class : Z := 20.

(** [rm_parse_ch_load_s_elem] and [rm_parse_noise_histo_s_elem] differ in the
    capability they check.  [len] is a signed [int]; an iteration consumes two bytes
    or more. *)
Fixpoint rep_info_loop (fuel : nat) (en : Z) (len : Z) (p : nat) (c : opt_rep_info) (mode : Z)
    : cres (opt_rep_info * Z) :=
  match fuel with
  | O => Oob
  | S fuel =>
      if len =? 0 then Ret (c, mode)
      else
        let* id := mem_byte pbody (Z.of_nat p) in
        let* (c, mode) :=
          if id =? meas_rep_info then
            let mode := rm_en_cap_chk_and_set cap en mode in
            let* b := mem_read pbody (p + 2) 2 in
            Ret ({| cond := b.[0]; threshold := b.[1] |}, mode)
          else Ret (c, mode) in
        let* l := mem_byte pbody (Z.of_nat (p + 1)) in
        rep_info_loop fuel en (len - l - 2) (p + Z.to_nat l + 2) c mode
  end.
Definition rm_parse_ch_load_s_elem (p : nat) (req_len : Z) (c : opt_rep_info) (mode : Z) :=
  rep_info_loop (S (length pbody)) RM_CH_LOAD_CAP_EN req_len p c mode.
Definition rm_parse_noise_histo_s_elem (p : nat) (req_len : Z) (c : opt_rep_info) (mode : Z) :=
  rep_info_loop (S (length pbody)) RM_NOISE_HISTO_CAP_EN req_len p c mode.

(** The [switch] of [rm_parse_bcn_req_s_elem] at the sub-element at [p].  A copy of
    [l - 1] channels has a huge length when [l] is 0. *)
Definition bcn_s_elem (p : nat) (o : bcn_req_opt) (mode : Z) : cres (bcn_req_opt * Z) :=
  let* id := mem_byte pbody (Z.of_nat p) in
  if id =? bcn_req_ssid then
    let* l := mem_byte pbody (Z.of_nat (p + 1)) in
    let* s := mem_read pbody (p + 2) (Nat.min (Z.to_nat l) 31) in
    Ret (add_opt_id id (set_ssid l (memcpy o.(Ssid) 0 s) o), mode)
  else if id =? bcn_req_rep_info then
    let mode := rm_en_cap_chk_and_set cap RM_BCN_MEAS_REP_COND_CAP_EN mode in
    let* b := mem_read pbody (p + 2) 2 in
    Ret (set_rep_cond {| cond := b.[0]; threshold := b.[1] |} o, mode)
  else if id =? bcn_req_rep_detail then
    let* d := mem_byte pbody (Z.of_nat (p + 2)) in
    Ret (add_opt_id id (set_rep_detail d o), mode)
  else if id =? bcn_req_req then
    let* l := mem_byte pbody (Z.of_nat (p + 1)) in
    if kmalloc l then
      let* b := mem_read pbody (p + 2) (Z.to_nat l) in
      Ret (add_opt_id id (set_req_start (Some b) o), mode)
    else Ret (set_req_start None o, mode)
  else if id =? bcn_req_ap_ch_rep then
    let idx := length o.(ap_ch_rpt) in
    if (BCN_REQ_OPT_AP_CH_RPT_MAX_NUM <? idx)%nat then Ret (o, mode)
    else
      let o := add_opt_id id o in
      if kmalloc sizeof_op_class then
        let* cls := mem_byte pbody (Z.of_nat (p + 2)) in
        let* l := mem_byte pbody (Z.of_nat (p + 1)) in
        let i := l - 1 in
        if i <? 0 then Oob
        else
          let* ch := mem_read pbody (p + 3) (Nat.min (Z.to_nat i) MAX_CH_NUM_IN_OP_CLASS) in
          if (idx <? BCN_REQ_OPT_AP_CH_RPT_MAX_NUM)%nat then
            Ret (set_ap_ch_rpt (o.(ap_ch_rpt) ++ [{| global_op_class := cls; Len := i; Channel := ch |}]) o, mode)
          else Oob
      else Oob
  else Ret (o, mode).
Fixpoint bcn_loop (fuel : nat) (len : Z) (p : nat) (o : bcn_req_opt) (mode : Z) : cres (bcn_req_opt * Z) :=
  match fuel with
  | O => Oob
  | S fuel =>
      if (len =? 0) || (BCN_REQ_OPT_MAX_NUM <=? length o.(opt_id))%nat then Ret (o, mode)
      else
        let* (o, mode) := bcn_s_elem p o mode in
        let* l := mem_byte pbody (Z.of_nat (p + 1)) in
        bcn_loop fuel (len - l - 2) (p + Z.to_nat l + 2) o mode
  end.
Definition rm_parse_bcn_req_s_elem (p : nat) (req_len : Z) (o : bcn_req_opt) (mode : Z) :=
  bcn_loop (S (length pbody)) req_len p o mode.

Definition rm_parse_meas_req (q : rm_meas_req) (mode : Z) : cres (rm_meas_req * Z) :=
  let* req_len := mem_byte pbody 1 in
  let* oc := mem_byte pbody 5 in
  let* ch := mem_byte pbody 6 in
  let* ri := mem_read pbody 7 2 in
  let* md := mem_read pbody 9 2 in
  let q := set_chan oc ch (RTW_GET_LE16 ri) (RTW_GET_LE16 md) q in
  let* (q, p) :=
    if q.(q_m_type) =? bcn_req then
      let* mm := mem_byte pbody 11 in
      let* bssid := mem_read pbody 12 6 in
      Ret (set_bcn (set_rep_detail 2 q.(q_bcn)) (set_mode_bssid mm bssid q), 18%nat)
    else Ret (q, 11%nat) in
  let rest := req_len - (Z.of_nat p - 2) in
  if rest <=? 0 then Ret (q, mode)
  else if q.(q_m_type) =? bcn_req then
    let* (o, mode) := rm_parse_bcn_req_s_elem p rest q.(q_bcn) mode in Ret (set_bcn o q, mode)
  else if q.(q_m_type) =? ch_load_req then
    let* (c, mode) := rm_parse_ch_load_s_elem p rest q.(q_clm) mode in Ret (set_clm c q, mode)
  else if q.(q_m_type) =? noise_histo_req then
    let* (c, mode) := rm_parse_noise_histo_s_elem p rest q.(q_clm) mode in Ret (set_clm c q, mode)
  else Ret (q, mode).
End parse.

(** ** Building *)
(** [rm_gen_bcn_req_s_elem]: mode, BSSID and sub-elements.  The mode is
    [bcn_req_active] whatever the request says. *)
Definition gen_op_class (op : RT_OPERATING_CLASS) : cres (list Z) :=
  let* ch := mem_read op.(Channel) 0 (Z.to_nat op.(Len)) in
  Ret ([bcn_req_ap_ch_rep; u8 (u8 op.(Len) + 1); u8 op.(global_op_class)] ++ ch).
Fixpoint gen_op_classes (l : list RT_OPERATING_CLASS) : cres (list Z) :=
  match l with
  | [] => Ret []
  | op :: l => let* a := gen_op_class op in let* b := gen_op_classes l in Ret (a ++ b)
  end.
Definition rm_gen_bcn_req_s_elem (q : rm_meas_req) : cres (list Z) :=
  let o := q.(q_bcn) in
  let l := u8 o.(SsidLength) in
  let* ssid := if (0 <? l) && (l <=? 32) then
                 let* s := mem_read o.(Ssid) 0 (Z.to_nat l) in Ret ([bcn_req_ssid; l] ++ s)
               else Ret [] in
  let detail := [bcn_req_rep_detail; 1; o.(rep_detail)] in
  let num := length o.(req_id) in
  let req := if (0 <? num)%nat then [bcn_req_req; Z.of_nat num] ++ o.(req_id) else [] in
  let* ap := gen_op_classes o.(ap_ch_rpt) in
  Ret ([bcn_req_active] ++ q.(q_bssid) ++ ssid ++ detail ++ req ++ ap).
Definition rm_gen_ch_load_req_s_elem : list Z := [1; 2; 0; 0].
Definition rm_gen_noise_histo_req_s_elem : list Z := [1; 2; 0; 0].
Definition gen_s_elem (q : rm_meas_req) : cres (list Z) :=
  if q.(q_m_type) =? bcn_req then rm_gen_bcn_req_s_elem q
  else if q.(q_m_type) =? ch_load_req then Ret rm_gen_ch_load_req_s_elem
  else if q.(q_m_type) =? noise_histo_req then Ret rm_gen_noise_histo_req_s_elem
  else Ret [].
(** The body of the frame that [issue_radio_meas_req] hands to [dump_mgntframe],
    behind the header of [build_wlan_hdr]. *)
Definition issue_radio_meas_req (q : rm_meas_req) : cres (list Z) :=
  let* s := gen_s_elem q in
  let my_len := Z.of_nat (11 + length s) in
  Ret ([q.(q_category); q.(q_action_code); q.(q_diag_token)] ++ RTW_PUT_LE16 q.(q_rpt)
       ++ [q.(q_e_id); u8 (u8 my_len - 2); q.(q_m_token); q.(q_m_mode); q.(q_m_type); q.(q_op_class); q.(q_ch_num)]
       ++ RTW_PUT_LE16 q.(q_rand_intvl) ++ RTW_PUT_LE16 q.(q_meas_dur) ++ s).

(** ** Identifiers, tokens and units *)
Fixpoint gen_token (fuel : nat) (t : Z) : Z :=
  match fuel with
  | O => t
  | S fuel => let t := u8 (t + 1) in if t =? 0 then gen_token fuel t else t
  end.
(** The loop runs twice at most: [gen_token_nonzero]. *)
Definition rm_gen_dialog_token (t : Z) : Z := gen_token 2 t.
Definition rm_gen_meas_token (t : Z) : Z := gen_token 2 t.
(** [aid]: [prm->psta->cmn.aid], [None] without a station. *)
Definition rm_gen_rmid (aid : option Z) (diag_token role : Z) : Z :=
  match aid with
  | None => 0
  | Some aid => if diag_token =? 0 then 0 else u32 ((aid << 16) .| (diag_token << 8) .| role)
  end.
Definition RM_GET_AID (rmid : Z) : Z := (rmid .& 0xffff0000) >> 16.
Definition RM_IS_ID_FOR_ALL (rmid : Z) : bool := negb (rmid .& RM_ALL_MEAS =? 0).
Definition RM_ID_FOR_ALL (aid : Z) : Z := u32 ((aid << 16) .| RM_ALL_MEAS).

Definition is_wildcard_bssid (bssid : list Z) : bool :=
  fold_left Z.land (take 6 bssid) 0xff =? 0xff.
(** [s8] of a byte. *)
Definition s8 (z : Z) : Z := let b := u8 z in if b <? 128 then b else b - 256.
Definition translate_dbm_to_rcpi (SignalPower : Z) : Z := u8 ((SignalPower + 110) * 2).
Definition translate_percentage_to_rcpi (idx : Z) : Z := translate_dbm_to_rcpi (s8 (idx - 100)).
(** [rm_bcn_req_cond_mach] with the RCPI and RSNI of the network. *)
Definition rm_bcn_req_cond_mach (c : opt_rep_info) (rcpi rsni : Z) : bool :=
  if c.(cond) =? 0 then true
  else if c.(cond) =? 1 then c.(threshold) <? rcpi
  else if c.(cond) =? 2 then rcpi <? c.(threshold)
  else if c.(cond) =? 3 then negb (rsni =? 255) && (c.(threshold) <? rsni)
  else if c.(cond) =? 4 then negb (rsni =? 255) && (rsni <? c.(threshold))
  else false.
(** [rm_radio_meas_report_cond]; [val] is [p.ch_load] or [p.anpi]. *)
Definition rm_radio_meas_report_cond (q : rm_meas_req) (ch_load anpi : Z) : bool :=
  if (q.(q_m_type) =? ch_load_req) || (q.(q_m_type) =? noise_histo_req) then
    let val := if q.(q_m_type) =? ch_load_req then ch_load else anpi in
    let c := q.(q_clm) in
    if c.(cond) =? 0 then true
    else if c.(cond) =? 1 then c.(threshold) <=? val
    else if c.(cond) =? 2 then val <=? c.(threshold)
    else false
  else false.

(** ** The channels of a survey *)
Definition op_class (c : Z) (l : list Z) : RT_OPERATING_CLASS :=
  {| global_op_class := c; Len := Z.of_nat (length l); Channel := l |}.
Definition RTW_OP_CLASS_US : list RT_OPERATING_CLASS := [
  op_class 0 []; op_class 115 [36; 40; 44; 48]; op_class 118 [52; 56; 60; 64];
  op_class 124 [149; 153; 157; 161];
  op_class 121 [100; 104; 108; 112; 116; 120; 124; 128; 132; 136; 140];
  op_class 125 [149; 153; 157; 161; 165]; op_class 81 [1; 2; 3; 4; 5; 6; 7; 8; 9; 10; 11]].
(** The channels written to the set, one entry each. *)
Definition rm_get_ch_set (opc ch_num : Z) : list Z :=
  if negb (ch_num =? 0) then [ch_num]
  else match List.find (λ c, c.(global_op_class) =? opc) RTW_OP_CLASS_US with
       | Some c => c.(Channel)
       | None => []
       end.
Definition rm_get_oper_class_via_ch (ch : Z) : Z :=
  match List.find (λ c, existsb (Z.eqb ch) c.(Channel)) RTW_OP_CLASS_US with
  | Some c => c.(global_op_class)
  | None => 0
  end.
(** All channels of the reports of the request: [Len] channels are read of each, and
    every one is stored at the next entry of [pch_set], an array of
    [RTW_CHANNEL_SCAN_AMOUNT]. *)
Fixpoint ch_set_loop (l : list RT_OPERATING_CLASS) (k : list Z) : cres (list Z) :=
  match l with
  | [] => Ret k
  | op :: l =>
      let* ch := mem_read op.(Channel) 0 (Z.to_nat op.(Len)) in
      if (length k + length ch <=? RTW_CHANNEL_SCAN_AMOUNT)%nat then ch_set_loop l (k ++ ch) else Oob
  end.
Definition rm_get_ch_set_from_bcn_req_opt (o : bcn_req_opt) : cres (list Z) := ch_set_loop o.(ap_ch_rpt) [].
(** The survey command of [rm_sitesurvey]: the channels, the scan mode and the
    token. *)
Definition rm_sitesurvey (q : rm_meas_req) : cres (list Z * Z) :=
  let* set :=
    if q.(q_ch_num) =? 0 then Ret (rm_get_ch_set q.(q_op_class) q.(q_ch_num))
    else if q.(q_ch_num) =? 255 then rm_get_ch_set_from_bcn_req_opt q.(q_bcn)
    else Ret (rm_get_ch_set q.(q_op_class) q.(q_ch_num)) in
  Ret (set, q.(q_m_mode)).

(** ** Receiving a request

    The part of [rm_recv_radio_mens_req] that reads the frame: the body from the
    category on; the request, the report mode and whether the measurement is
    queued.  An element that is no measurement request is left where it is. *)
Definition read_req_head (pdiag_body : list Z) : cres rm_meas_req :=
  let* dt := mem_byte pdiag_body 2 in
  let* rpt := mem_read pdiag_body 3 2 in
  let* e_id := mem_byte pdiag_body 5 in
  let* m_token := mem_byte pdiag_body 7 in
  let* m_mode := mem_byte pdiag_body 8 in
  let* m_type := mem_byte pdiag_body 9 in
  Ret (set_head (RTW_GET_LE16 rpt) e_id m_token m_mode m_type dt no_req).
(** The new report mode, and whether the type of the measurement is known. *)
Definition req_type_check (cap : list Z) (q : rm_meas_req) (mode : Z) : Z * bool :=
  if q.(q_m_type) =? bcn_req then
    (if q.(q_m_mode) =? bcn_req_passive then rm_en_cap_chk_and_set cap RM_BCN_PASSIVE_MEAS_CAP_EN mode
     else if q.(q_m_mode) =? bcn_req_active then rm_en_cap_chk_and_set cap RM_BCN_ACTIVE_MEAS_CAP_EN mode
     else if q.(q_m_mode) =? bcn_req_bcn_table then rm_en_cap_chk_and_set cap RM_BCN_TABLE_MEAS_CAP_EN mode
     else rm_set_rep_mode mode MEAS_REP_MOD_INCAP, true)
  else if q.(q_m_type) =? ch_load_req then (rm_en_cap_chk_and_set cap RM_CH_LOAD_CAP_EN mode, true)
  else if q.(q_m_type) =? noise_histo_req then (rm_en_cap_chk_and_set cap RM_NOISE_HISTO_CAP_EN mode, true)
  else (rm_set_rep_mode mode MEAS_REP_MOD_INCAP, false).
Definition read_radio_meas_req (kmalloc : Z → bool) (cap pdiag_body : list Z) : cres (rm_meas_req * Z * bool) :=
  let* q := read_req_head pdiag_body in
  if negb (q.(q_e_id) =? MEAS_REQ_IE) then Ret (q, 0, false)
  else
    let (mode, known) := req_type_check cap q 0 in
    if known then
      let* (q, mode) := rm_parse_meas_req kmalloc cap (drop 5 pdiag_body) q mode in Ret (q, mode, true)
    else Ret (q, mode, true).

(** ** Sub-elements, as the standard has them *)
Definition enc_elem (e : Z * list Z) : list Z := e.1 :: Z.of_nat (length e.2) :: e.2.
Definition enc_elems (l : list (Z * list Z)) : list Z := concat (map enc_elem l).
Definition bcn_elem_meaning (cap : list Z) (e : Z * list Z) (st : bcn_req_opt * Z) : bcn_req_opt * Z :=
  let (id, v) := e in let (o, mode) := st in
  if id =? bcn_req_ssid then (add_opt_id id (set_ssid (Z.of_nat (length v)) (memcpy o.(Ssid) 0 (take 31 v)) o), mode)
  else if id =? bcn_req_rep_info then
    (set_rep_cond {| cond := v.[0]; threshold := v.[1] |} o, rm_en_cap_chk_and_set cap RM_BCN_MEAS_REP_COND_CAP_EN mode)
  else if id =? bcn_req_rep_detail then (add_opt_id id (set_rep_detail (v.[0]) o), mode)
  else if id =? bcn_req_req then (add_opt_id id (set_req_start (Some v) o), mode)
  else if id =? bcn_req_ap_ch_rep then
    (let o := add_opt_id id o in
     set_ap_ch_rpt (o.(ap_ch_rpt) ++ [{| global_op_class := v.[0]; Len := Z.of_nat (length v) - 1; Channel := take 11 (drop 1 v) |}]) o, mode)
  else (o, mode).
Definition bcn_elem_ok (e : Z * list Z) (o : bcn_req_opt) : Prop :=
  let (id, v) := e in
  (length v < 256)%nat ∧ (id = bcn_req_rep_info → (2 ≤ length v)%nat) ∧ (id = bcn_req_rep_detail → (1 ≤ length v)%nat) ∧
  (id = bcn_req_ap_ch_rep → (1 ≤ length v)%nat ∧ (length o.(ap_ch_rpt) < BCN_REQ_OPT_AP_CH_RPT_MAX_NUM)%nat).
(** The parser reads sub-elements until it has seen sixteen that it records. *)
Fixpoint bcn_meaning (cap : list Z) (l : list (Z * list Z)) (st : bcn_req_opt * Z) : bcn_req_opt * Z :=
  match l with
  | [] => st
  | e :: l => if (BCN_REQ_OPT_MAX_NUM <=? length st.1.(opt_id))%nat then st else bcn_meaning cap l (bcn_elem_meaning cap e st)
  end.
Fixpoint bcn_elems_ok (cap : list Z) (l : list (Z * list Z)) (st : bcn_req_opt * Z) : Prop :=
  match l with
  | [] => True
  | e :: l => bcn_elem_ok e st.1 ∧ bcn_elems_ok cap l (bcn_elem_meaning cap e st)
  end.

(** ** Reading encoded elements *)
Lemma length_enc_elems l : (length l ≤ length (enc_elems l))%nat.
Proof. induction l as [|e l IH]; [done|]. unfold enc_elems in *. cbn [map concat length]. rewrite length_app. unfold enc_elem at 1. cbn [length]. lia. Qed.
Section elem.
Context (a v z : list Z) (id : Z).
Abbreviation body := (a ++ enc_elem (id, v) ++ z).

Lemma elem_id : mem_byte body (Z.of_nat (length a)) = Ret id.
Proof. apply mem_byte_at. by rewrite lookup_app_r, Nat.sub_diag. Qed.
Lemma elem_len : mem_byte body (Z.of_nat (length a + 1)) = Ret (Z.of_nat (length v)).
Proof. apply mem_byte_at. rewrite lookup_app_r by lia. by replace (length a + 1 - length a)%nat with 1%nat by lia. Qed.
Lemma elem_read o n : (o + n ≤ length v)%nat → mem_read body (length a + 2 + o) n = Ret (take n (drop o v)).
Proof.
  intros H. rewrite mem_read_ok by (unfold enc_elem; cbn; rewrite !length_app; cbn; rewrite length_app; lia).
  f_equal. unfold slice, enc_elem. cbn [fst snd]. rewrite <- Nat.add_assoc, <- drop_drop, drop_app_length.
  cbn [Nat.add app drop]. rewrite drop_app_le, take_app_le by (rewrite ?length_drop; lia). done.
Qed.
Lemma elem_byte o x : v !! o = Some x → mem_byte body (Z.of_nat (length a + 2 + o)) = Ret x.
Proof.
  intros H. apply mem_byte_at. rewrite lookup_app_r by lia.
  replace (length a + 2 + o - length a)%nat with (S (S o)) by lia.
  change ((v ++ z) !! o = Some x). by rewrite lookup_app_l by (by eapply lookup_lt_Some).
Qed.
End elem.

Section bcn.
Context (kmalloc : Z → bool) (cap : list Z) (Hk : ∀ n, kmalloc n = true).

Lemma bcn_s_elem_ok a e z o mode :
  bcn_elem_ok e o →
  bcn_s_elem kmalloc cap (a ++ enc_elem e ++ z) (length a) o mode = Ret (bcn_elem_meaning cap e (o, mode)).
Proof using Hk.
  destruct e as [id v]. intros (Hl & Hi & Hd & Hc). unfold bcn_s_elem, bcn_elem_meaning. rewrite elem_id. cbn [cbind].
  destruct (Z.eqb_spec id bcn_req_ssid) as [->|]; [|destruct (Z.eqb_spec id bcn_req_rep_info) as [->|];
    [|destruct (Z.eqb_spec id bcn_req_rep_detail) as [->|];
    [|destruct (Z.eqb_spec id bcn_req_req) as [->|]; [|destruct (Z.eqb_spec id bcn_req_ap_ch_rep) as [->|]; [|done]]]]].
  - rewrite elem_len. cbn [cbind]. rewrite Nat2Z.id, <- (Nat.add_0_r (length a + 2)), elem_read by lia. cbn [cbind].
    rewrite drop_0. by rewrite Nat.min_comm, <- take_take, firstn_all.
  - specialize (Hi eq_refl). rewrite <- (Nat.add_0_r (length a + 2)), elem_read by lia. cbn [cbind].
    rewrite drop_0, !aget_take by lia. done.
  - specialize (Hd eq_refl). rewrite <- (Nat.add_0_r (length a + 2)).
    rewrite (elem_byte _ _ _ _ _ (v.[0])) by (apply lookup_aget; lia). done.
  - rewrite elem_len. cbn [cbind]. rewrite Hk, Nat2Z.id, <- (Nat.add_0_r (length a + 2)), elem_read by lia. cbn [cbind].
    by rewrite drop_0, firstn_all.
  - destruct (Hc eq_refl) as [Hv Hn]. rewrite (proj2 (Nat.ltb_ge _ _)), Hk by lia.
    rewrite <- (Nat.add_0_r (length a + 2)), (elem_byte _ _ _ _ _ (v.[0])) by (apply lookup_aget; lia). cbn [cbind].
    rewrite elem_len. cbn [cbind]. rewrite (proj2 (Z.ltb_ge _ _)) by lia.
    replace (length a + 3)%nat with (length a + 2 + 1)%nat by lia.
    rewrite elem_read by lia. cbn [cbind]. rewrite (proj2 (Nat.ltb_lt _ _)) by exact Hn. cbn [add_opt_id set_opt_id ap_ch_rpt].
    do 6 f_equal. rewrite Nat.min_comm, <- take_take. f_equal. apply take_ge. rewrite length_drop. lia.
Qed.

Lemma bcn_loop_ok l : ∀ fuel a z o mode,
  (length l < fuel)%nat → bcn_elems_ok cap l (o, mode) →
  bcn_loop kmalloc cap (a ++ enc_elems l ++ z) fuel (Z.of_nat (length (enc_elems l))) (length a) o mode
    = Ret (bcn_meaning cap l (o, mode)).
Proof using Hk.
  induction l as [|e l IH]; intros [|fuel] a z o mode Hf Hok; cbn [length] in Hf; try lia; [done|].
  destruct Hok as [He Hok]. cbn [bcn_loop bcn_meaning fst].
  assert (enc_elems (e :: l) = enc_elem e ++ enc_elems l) as E by done.
  assert (length (enc_elem e) = (2 + length e.2)%nat) as El by done.
  rewrite (proj2 (Z.eqb_neq _ _)) by (rewrite E, length_app; lia). cbn [orb].
  destruct (_ <=? _)%nat; [done|]. rewrite E, <- app_assoc, bcn_s_elem_ok by done.
  destruct e as [id v]. rewrite elem_len. destruct (bcn_elem_meaning cap (id, v) (o, mode)) as [o' mode'] eqn:Em.
  cbn [cbind]. rewrite Nat2Z.id, app_assoc.
  replace (Z.of_nat (length (enc_elem (id, v) ++ enc_elems l)) - Z.of_nat (length v) - 2) with (Z.of_nat (length (enc_elems l)))
    by (rewrite length_app, El; cbn; lia).
  replace (length a + length v + 2)%nat with (length (a ++ enc_elem (id, v))) by (rewrite length_app, El; cbn; lia).
  apply IH; [lia|done].
Qed.
End bcn.

(** ** A request and what its receiver has

    [req_wf]: what [rm_send_bcn_reqs] and the other makers of requests set up: an SSID
    of at most 32 bytes in its array, fewer than sixteen requested elements, at most
    twelve reports, each with the channels that its [Len] counts. *)
Definition op_wf (op : RT_OPERATING_CLASS) : Prop :=
  op.(Len) = Z.of_nat (length op.(Channel)) ∧ (length op.(Channel) ≤ MAX_CH_NUM_IN_OP_CLASS)%nat ∧ is_u8 op.(global_op_class).
Definition req_wf (q : rm_meas_req) (ssid : list Z) : Prop :=
  let o := q.(q_bcn) in
  is_u16 q.(q_rpt) ∧ is_u16 q.(q_rand_intvl) ∧ is_u16 q.(q_meas_dur) ∧ q.(q_e_id) = MEAS_REQ_IE ∧ length q.(q_bssid) = 6%nat ∧
  (length ssid ≤ 32)%nat ∧ o.(SsidLength) = Z.of_nat (length ssid) ∧ o.(Ssid) = ssid ++ replicate (32 - length ssid) 0 ∧
  (length o.(req_id) < 16)%nat ∧ Forall op_wf o.(ap_ch_rpt) ∧ (length o.(ap_ch_rpt) ≤ BCN_REQ_OPT_AP_CH_RPT_MAX_NUM)%nat.

Definition op_elem (op : RT_OPERATING_CLASS) : Z * list Z := (bcn_req_ap_ch_rep, op.(global_op_class) :: op.(Channel)).
Definition bcn_elems (q : rm_meas_req) (ssid : list Z) : list (Z * list Z) :=
  let o := q.(q_bcn) in
  match ssid with [] => [] | _ => [(bcn_req_ssid, ssid)] end ++ [(bcn_req_rep_detail, [o.(rep_detail)])]
  ++ match o.(req_id) with [] => [] | _ => [(bcn_req_req, o.(req_id))] end ++ map op_elem o.(ap_ch_rpt).

(** What the receiver has: everything but the category and the action, which it
    does not read, the mode, which is always active, and the last byte of an SSID of
    32 bytes, which reads as 0. *)
Definition received_opt (q : rm_meas_req) : bcn_req_opt :=
  let o := q.(q_bcn) in
  {| opt_id := (if o.(SsidLength) =? 0 then [] else [bcn_req_ssid]) ++ [bcn_req_rep_detail]
       ++ match o.(req_id) with [] => [] | _ => [bcn_req_req] end ++ map (λ _, bcn_req_ap_ch_rep) o.(ap_ch_rpt);
     rep_detail := o.(rep_detail); SsidLength := o.(SsidLength); Ssid := take 31 o.(Ssid) ++ [0];
     rep_cond := {| cond := 0; threshold := 0 |}; ap_ch_rpt := o.(ap_ch_rpt);
     req_start := match o.(req_id) with [] => None | l => Some l end; req_id := [] |}.
Definition received (q : rm_meas_req) : rm_meas_req :=
  let r := set_chan q.(q_op_class) q.(q_ch_num) q.(q_rand_intvl) q.(q_meas_dur)
    (set_head q.(q_rpt) q.(q_e_id) q.(q_m_token) q.(q_m_mode) q.(q_m_type) q.(q_diag_token) no_req) in
  if q.(q_m_type) =? bcn_req then set_bcn (received_opt q) (set_mode_bssid bcn_req_active q.(q_bssid) r) else r.

Section gen.
Context (q : rm_meas_req) (ssid : list Z) (Hwf : req_wf q ssid).

Lemma gen_op_classes_ok l :
  Forall op_wf l → gen_op_classes l = Ret (enc_elems (map op_elem l)).
Proof using.
  induction 1 as [|op l (Hl & Hn & Hc) H IH]; [done|]. cbn [gen_op_classes]. unfold gen_op_class.
  rewrite Hl, Nat2Z.id, mem_read_ok by lia. cbn [cbind]. rewrite IH. cbn [cbind]. f_equal.
  unfold slice. rewrite drop_0, firstn_all. unfold MAX_CH_NUM_IN_OP_CLASS in *.
  rewrite (u8_id (Z.of_nat _)), (u8_id (Z.of_nat _ + 1)), u8_id by (done || (split; lia)).
  unfold enc_elems, op_elem. cbn [map concat]. unfold enc_elem at 2. cbn [fst snd length app]. f_equal. f_equal. lia.
Qed.

Lemma gen_bcn_ok :
  rm_gen_bcn_req_s_elem q = Ret (bcn_req_active :: q.(q_bssid) ++ enc_elems (bcn_elems q ssid)).
Proof using Hwf.
  destruct Hwf as (_ & _ & _ & _ & _ & Hs & Hsl & Hss & Hr & Hop & Hn). unfold rm_gen_bcn_req_s_elem, bcn_elems.
  assert (u8 (q_bcn q).(SsidLength) = Z.of_nat (length ssid)) as -> by (rewrite Hsl; apply u8_id; split; lia).
  assert ((if (0 <? Z.of_nat (length ssid)) && (Z.of_nat (length ssid) <=? 32)
     then let* s := mem_read (q_bcn q).(Ssid) 0 (Z.to_nat (Z.of_nat (length ssid))) in Ret ([bcn_req_ssid; Z.of_nat (length ssid)] ++ s)
     else Ret []) = Ret (enc_elems match ssid with [] => [] | _ => [(bcn_req_ssid, ssid)] end)) as ->.
  { destruct ssid as [|x s]; [done|]. cbn [length] in *. rewrite (proj2 (Z.ltb_lt _ _)), (proj2 (Z.leb_le _ _)) by lia. cbn [andb].
    rewrite Nat2Z.id, Hss, mem_read_ok by (rewrite length_app; cbn; lia). cbn [cbind]. unfold slice.
    rewrite drop_0, take_app_length' by done. unfold enc_elems. cbn. by rewrite app_nil_r. }
  cbn [cbind]. rewrite gen_op_classes_ok by done. cbn [cbind]. f_equal. cbn [app]. do 2 f_equal.
  unfold enc_elems. rewrite !map_app, !concat_app. f_equal.
  by destruct (q_bcn q).(req_id).
Qed.
End gen.

Section roundtrip.
Context (kmalloc : Z → bool) (cap : list Z) (q : rm_meas_req) (ssid : list Z).
Context (Hk : ∀ n, kmalloc n = true) (Hwf : req_wf q ssid).

(** What the sub-elements of the request mean to the receiver. *)
Lemma op_elem_meaning op o mode :
  op_wf op →
  bcn_elem_meaning cap (op_elem op) (o, mode) = (set_ap_ch_rpt (o.(ap_ch_rpt) ++ [op]) (add_opt_id bcn_req_ap_ch_rep o), mode).
Proof using.
  intros (Hl & Hc & Hg). unfold op_elem, bcn_elem_meaning. cbn -[take drop aget length]. do 4 f_equal.
  destruct op as [c n ch]. cbn in *. subst n. do 2 f_equal; [lia|]. destruct ch; [done|]. by apply take_ge.
Qed.
Lemma op_elems_meaning l : ∀ o mode,
  Forall op_wf l → (length o.(ap_ch_rpt) + length l ≤ BCN_REQ_OPT_AP_CH_RPT_MAX_NUM)%nat →
  (length o.(opt_id) + length l ≤ BCN_REQ_OPT_MAX_NUM)%nat →
  bcn_elems_ok cap (map op_elem l) (o, mode) ∧
  bcn_meaning cap (map op_elem l) (o, mode) =
    (set_ap_ch_rpt (o.(ap_ch_rpt) ++ l) (set_opt_id (o.(opt_id) ++ map (λ _, bcn_req_ap_ch_rep) l) o), mode).
Proof using.
  induction l as [|op l IH]; intros o mode Hop Hn Hi; cbn [length map] in *.
  - split; [done|]. cbn. rewrite !app_nil_r. by destruct o.
  - apply Forall_cons in Hop as [Hw Hop]. cbn [bcn_elems_ok bcn_meaning fst].
    rewrite (proj2 (Nat.leb_gt _ _)) by lia. rewrite op_elem_meaning by done.
    edestruct (IH (set_ap_ch_rpt (o.(ap_ch_rpt) ++ [op]) (add_opt_id bcn_req_ap_ch_rep o)) mode) as [Hok ->];
      [done|cbn; rewrite length_app; cbn; lia|cbn; rewrite length_app; cbn; lia|].
    destruct Hw as (Hl & Hc & Hg). unfold MAX_CH_NUM_IN_OP_CLASS in *. split; [split; [|exact Hok]|].
    + repeat split; try done; cbn; try lia.
    + cbn. by rewrite <- !app_assoc.
Qed.
Lemma bcn_elems_meaning mode :
  bcn_elems_ok cap (bcn_elems q ssid) (set_rep_detail 2 no_opt, mode) ∧
  bcn_meaning cap (bcn_elems q ssid) (set_rep_detail 2 no_opt, mode) = (received_opt q, mode).
Proof using Hwf.
  destruct Hwf as (_ & _ & _ & _ & _ & Hs & Hsl & Hss & Hr & Hop & Hn). unfold bcn_elems, received_opt.
  rewrite Hsl, Hss. unfold BCN_REQ_OPT_AP_CH_RPT_MAX_NUM in *.
  assert (memcpy (replicate 32 0) 0 (take 31 ssid) = take 31 (ssid ++ replicate (32 - length ssid) 0) ++ [0]) as Em.
  { rewrite memcpy_eq by (rewrite length_take, length_replicate; lia). rewrite Nat.add_0_l, take_0, drop_replicate, length_take.
    rewrite take_app, take_replicate, <- app_assoc. cbn [app]. f_equal. change [0] with (replicate 1 0). rewrite <- replicate_add. f_equal. lia. }
  destruct ssid as [|x s]; destruct (q_bcn q).(req_id) as [|r rs]; cbn [app];
    cbn [bcn_elems_ok bcn_meaning bcn_elem_meaning bcn_elem_ok fst];
    repeat change (0 =? _) with true; cbn -[memcpy take replicate op_elem];
    match goal with |- context [bcn_meaning cap (map op_elem ?l) (?o, ?m)] =>
      destruct (op_elems_meaning l o m) as [H1 H2];
      [exact Hop|unfold BCN_REQ_OPT_AP_CH_RPT_MAX_NUM; cbn; lia|unfold BCN_REQ_OPT_MAX_NUM; cbn; lia|rewrite H2; clear H2]
    end.
  all: cbn [length] in *; split; [repeat split; try done; try lia; exact H1|].
  all: cbn -[memcpy take replicate Nat.sub]; rewrite ?Em; cbn -[replicate Nat.sub]; rewrite ?app_nil_r; done.
Qed.

(** The body of a request with the sub-elements [s]. *)
Definition req_body (s : list Z) : list Z :=
  [q.(q_category); q.(q_action_code); q.(q_diag_token)] ++ RTW_PUT_LE16 q.(q_rpt)
  ++ [q.(q_e_id); Z.of_nat (9 + length s); q.(q_m_token); q.(q_m_mode); q.(q_m_type); q.(q_op_class); q.(q_ch_num)]
  ++ RTW_PUT_LE16 q.(q_rand_intvl) ++ RTW_PUT_LE16 q.(q_meas_dur) ++ s.
Definition head_of : rm_meas_req :=
  set_head q.(q_rpt) q.(q_e_id) q.(q_m_token) q.(q_m_mode) q.(q_m_type) q.(q_diag_token) no_req.
Lemma read_head s : read_req_head (req_body s) = Ret head_of.
Proof using Hwf.
  destruct Hwf as (Hr & _). unfold head_of. rewrite <- (aget_put_le16 q.(q_rpt) Hr) at 1. done.
Qed.

Lemma parse_bcn mode :
  q.(q_m_type) = bcn_req →
  rm_parse_meas_req kmalloc cap (drop 5 (req_body (bcn_req_active :: q.(q_bssid) ++ enc_elems (bcn_elems q ssid)))) head_of mode
    = Ret (received q, mode).
Proof using Hk Hwf.
  intros Hty. destruct Hwf as (Hr & Hi & Hd & He & Hb & _).
  destruct (q.(q_bssid)) as [|b0 [|b1 [|b2 [|b3 [|b4 [|b5 [|]]]]]]] eqn:Eb; try discriminate Hb. clear Hb.
  pose proof (bcn_elems_meaning mode) as [Hok Hm].
  set (es := enc_elems (bcn_elems q ssid)) in *.
  set (pre := [q.(q_e_id); Z.of_nat (16 + length es); q.(q_m_token); q.(q_m_mode); q.(q_m_type); q.(q_op_class); q.(q_ch_num)]
      ++ RTW_PUT_LE16 q.(q_rand_intvl) ++ RTW_PUT_LE16 q.(q_meas_dur) ++ [bcn_req_active; b0; b1; b2; b3; b4; b5]).
  match goal with |- rm_parse_meas_req _ _ ?b _ _ = _ => replace b with (pre ++ es ++ []) by (rewrite app_nil_r; done) end.
  unfold rm_parse_meas_req.
  change (mem_byte (pre ++ es ++ []) 1) with (Ret (Z.of_nat (16 + length es))).
  change (mem_byte (pre ++ es ++ []) 5) with (Ret q.(q_op_class)).
  change (mem_byte (pre ++ es ++ []) 6) with (Ret q.(q_ch_num)).
  change (mem_read (pre ++ es ++ []) 7 2) with (Ret (RTW_PUT_LE16 q.(q_rand_intvl))).
  change (mem_read (pre ++ es ++ []) 9 2) with (Ret (RTW_PUT_LE16 q.(q_meas_dur))).
  change (mem_byte (pre ++ es ++ []) 11) with (Ret bcn_req_active).
  change (mem_read (pre ++ es ++ []) 12 6) with (Ret [b0; b1; b2; b3; b4; b5]).
  cbn [cbind]. rewrite !aget_put_le16 by done.
  cbn [q_m_type set_chan set_head head_of set_bcn set_mode_bssid]. unfold received.
  rewrite Hty, Z.eqb_refl. cbn [cbind].
  replace (Z.of_nat (16 + length es) - (Z.of_nat 18 - 2)) with (Z.of_nat (length es)) by lia.
  assert (0 < Z.of_nat (length es)) as Hpos.
  { unfold es, bcn_elems, enc_elems. rewrite !map_app, !concat_app, !length_app. cbn. lia. }
  rewrite (proj2 (Z.leb_gt _ _) Hpos). cbn [q_m_type set_chan set_head head_of set_bcn set_mode_bssid].
  rewrite Hty, Z.eqb_refl. unfold rm_parse_bcn_req_s_elem.
  rewrite (bcn_loop_ok kmalloc cap Hk (bcn_elems q ssid) _ pre []) ; [|rewrite !length_app; apply Nat.lt_succ_r|exact Hok].
  - cbn [q_bcn set_bcn set_mode_bssid set_chan head_of set_head no_req]. rewrite Hm. cbn [cbind]. unfold head_of. by rewrite ?Eb, ?Hty.
  - pose proof (length_enc_elems (bcn_elems q ssid)). unfold es. lia.
Qed.

(** Channel load and noise histogram requests have one sub-element. *)
Lemma parse_rep_info mode :
  q.(q_m_type) = ch_load_req ∨ q.(q_m_type) = noise_histo_req →
  rm_parse_meas_req kmalloc cap (drop 5 (req_body [1; 2; 0; 0])) head_of mode
    = Ret (received q, rm_en_cap_chk_and_set cap
             (if q.(q_m_type) =? ch_load_req then RM_CH_LOAD_CAP_EN else RM_NOISE_HISTO_CAP_EN) mode).
Proof using Hwf.
  intros Hty. destruct Hwf as (_ & Hi & Hd & _).
  transitivity (Ret (set_chan q.(q_op_class) q.(q_ch_num) (RTW_GET_LE16 (RTW_PUT_LE16 q.(q_rand_intvl)))
      (RTW_GET_LE16 (RTW_PUT_LE16 q.(q_meas_dur))) head_of,
    rm_en_cap_chk_and_set cap (if q.(q_m_type) =? ch_load_req then RM_CH_LOAD_CAP_EN else RM_NOISE_HISTO_CAP_EN) mode)).
  - unfold head_of, req_body, rm_parse_meas_req. destruct Hty as [-> | ->]; reflexivity.
  - rewrite !aget_put_le16 by done. unfold received, head_of. destruct Hty as [-> | ->]; reflexivity.
Qed.

Lemma issue_body s : (length s ≤ 246)%nat → gen_s_elem q = Ret s → issue_radio_meas_req q = Ret (req_body s).
Proof using.
  intros Hl H. unfold issue_radio_meas_req. rewrite H. cbn [cbind]. unfold req_body. do 5 f_equal. rewrite !u8_mod.
  f_equal. Z.div_mod_to_equations. lia.
Qed.
End roundtrip.

Lemma req_type_check_known cap q r mode :
  q.(q_m_type) = r.(q_m_type) → q.(q_m_mode) = r.(q_m_mode) → req_type_check cap q mode = req_type_check cap r mode.
Proof. intros E1 E2. unfold req_type_check. by rewrite E1, E2. Qed.
Lemma chk_idem cap en mode : is_u8 mode → rm_en_cap_chk_and_set cap en (rm_en_cap_chk_and_set cap en mode) = rm_en_cap_chk_and_set cap en mode.
Proof.
  intros Hm. unfold rm_en_cap_chk_and_set. destruct (_ <=? _); [done|]. destruct (_ =? 0); [|done]. unfold rm_set_rep_mode.
  assert (is_u8 (mode .| MEAS_REP_MOD_INCAP)) by (apply uint_lor; done).
  rewrite (u8_id (mode .| _)) by done. rewrite <- Z.lor_assoc, Z.lor_diag. by apply u8_id.
Qed.

(** ** Theorems *)

(** C15: a radio measurement request that the driver builds is read back by the
    receiver: for every well-formed beacon, channel load or noise histogram request
    whose sub-elements fit into one element, building it and reading the body gives
    the same repetitions, tokens, type, class, channel, interval, duration, BSSID,
    SSID, reporting detail, requested elements and channel reports, with active mode,
    and the only change to the report mode is what the receiver cannot do.  The SSID
    has up to 32 bytes: of one of 32 the receiver has the length and the first 31
    bytes, the last one is lost ([ssid_32_truncated]).  Well-formed is what
    [rm_send_bcn_reqs] makes ([req_wf]): at most twelve reports of at most eleven
    channels, fewer than sixteen requested elements; the receiver has memory. *)
Theorem meas_req_roundtrip kmalloc cap q ssid :
  (∀ n, kmalloc n = true) → req_wf q ssid →
  q.(q_m_type) = bcn_req ∨ q.(q_m_type) = ch_load_req ∨ q.(q_m_type) = noise_histo_req →
  (length (enc_elems (bcn_elems q ssid)) ≤ 239)%nat →
  ∃ body, issue_radio_meas_req q = Ret body ∧
    read_radio_meas_req kmalloc cap body = Ret (received q, (req_type_check cap q 0).1, true).
Proof.
  intros Hk Hwf Hty Hroom. pose proof Hwf as (_ & _ & _ & He & Hb & _).
  assert (∀ s, read_radio_meas_req kmalloc cap (req_body q s) =
    let (mode, known) := req_type_check cap q 0 in
    if known then let* (q, mode) := rm_parse_meas_req kmalloc cap (drop 5 (req_body q s)) (head_of q) mode in Ret (q, mode, true)
    else Ret (head_of q, mode, true)) as Hread.
  { intros s. unfold read_radio_meas_req. rewrite (read_head q ssid) by done. cbn [cbind]. change (q_e_id (head_of q)) with q.(q_e_id).
    rewrite He. change (negb (MEAS_REQ_IE =? MEAS_REQ_IE)) with false. cbv iota. by rewrite (req_type_check_known cap (head_of q) q). }
  destruct Hty as [Hty|Hty].
  - eexists. split.
    + apply issue_body; [|unfold gen_s_elem; rewrite Hty, Z.eqb_refl; by apply gen_bcn_ok]. cbn [length]. rewrite length_app, Hb. lia.
    + rewrite Hread. destruct (req_type_check cap q 0) as [mode known] eqn:Em.
      assert (known = true) as -> by (unfold req_type_check in Em; rewrite Hty, Z.eqb_refl in Em; by injection Em).
      rewrite parse_bcn by done. done.
  - exists (req_body q [1; 2; 0; 0]). split.
    + apply issue_body; [cbn; lia|]. unfold gen_s_elem. by destruct Hty as [-> | ->].
    + rewrite Hread. unfold req_type_check.
      destruct Hty as [E|E]; rewrite E; cbn [Z.eqb ch_load_req noise_histo_req bcn_req fst Pos.eqb];
        rewrite (parse_rep_info kmalloc cap q ssid) by auto; rewrite E; cbn [Z.eqb ch_load_req noise_histo_req Pos.eqb cbind];
        rewrite chk_idem by uint_lit; done.
Qed.

Definition demo_ops : list RT_OPERATING_CLASS := [op_class 81 [1; 6; 11]; op_class 115 [36; 40; 44; 48]].
Definition demo_req : rm_meas_req :=
  {| q_category := RADIO_MEAS; q_action_code := RM_ACT_RADIO_MEAS_REQ; q_diag_token := 7; q_rpt := 2; q_e_id := MEAS_REQ_IE;
     q_m_token := 9; q_m_mode := bcn_req_passive; q_m_type := bcn_req; q_op_class := 81; q_ch_num := 255; q_rand_intvl := 0;
     q_meas_dur := 300; q_bssid := replicate 6 0xff;
     q_bcn := {| opt_id := []; rep_detail := 1; SsidLength := 4; Ssid := [104; 111; 109; 101] ++ replicate 28 0;
       rep_cond := {| cond := 0; threshold := 0 |}; ap_ch_rpt := demo_ops; req_start := None; req_id := [0; 48] |};
     q_clm := {| cond := 0; threshold := 0 |} |}.
(** [rm_en_cap_def] as [rtw_init_rm] sets it without [CONFIG_RTW_ACS]. *)
Definition demo_cap : list Z := [0x7b; 0; 0; 0x60; 0].
Lemma meas_req_roundtrip_witness :
  ∃ body, issue_radio_meas_req demo_req = Ret body ∧
    read_radio_meas_req (λ _, true) demo_cap body = Ret (received demo_req, 0, true).
Proof.
  apply (meas_req_roundtrip (λ _, true) demo_cap demo_req [104; 111; 109; 101]);
    [done| |by left|vm_compute; lia].
  repeat split; try done; try (vm_compute; lia). repeat constructor; vm_compute; intuition congruence || lia.
Defined.

(** ** What the parser does with other bytes *)

Lemma mem_byte_inv mem i x : mem_byte mem i = Ret x → mem !! Z.to_nat i = Some x.
Proof. unfold mem_byte. destruct (i <? 0); [done|]. destruct (mem !! _); [|done]. by intros [= ->]. Qed.
(** Once the remaining length is negative, the loop only ends outside the frame. *)
Lemma rep_info_negative cap pbody en : bytes pbody → ∀ fuel len p c mode,
  len < 0 → rep_info_loop cap pbody fuel en len p c mode = Oob.
Proof.
  assert (∀ i e, mem_byte pbody i ≠ Err e) as HE by (intros i e; unfold mem_byte; by repeat case_match).
  intros Hb. induction fuel as [|fuel IH]; intros len p c mode Hlen; [done|]. cbn [rep_info_loop].
  rewrite (proj2 (Z.eqb_neq _ _)) by lia.
  destruct (mem_byte pbody (Z.of_nat p)) as [id|e|] eqn:E; [|by apply HE in E|done]. cbn [cbind].
  assert (∀ k, (if id =? meas_rep_info then
      let* b := mem_read pbody (p + 2) 2 in Ret ({| cond := b.[0]; threshold := b.[1] |}, rm_en_cap_chk_and_set cap en mode)
      else Ret (c, mode)) = k → k = Oob ∨ ∃ x, k = Ret x) as Hif.
  { intros k <-. unfold mem_read. destruct (id =? _); [|by eauto]. case_match; eauto. }
  destruct (Hif _ eq_refl) as [->|[[c' mode'] ->]]; [done|]. cbn [cbind].
  destruct (mem_byte pbody (Z.of_nat (p + 1))) as [l|e|] eqn:El; [|by apply HE in El|done]. cbn [cbind].
  apply mem_byte_inv in El. assert (is_u8 l) as [Hl _] by (by eapply Forall_lookup_1). apply IH. lia.
Qed.
(** A channel load request whose only sub-element is longer than the element says:
    however much of the buffer follows, the parser runs to its end and past it. *)
Theorem rm_parse_runs_past rest :
  bytes rest →
  let q := set_head 0 MEAS_REQ_IE 1 0 ch_load_req 1 no_req in
  rm_parse_meas_req (λ _, true) demo_cap ([38; 13; 1; 0; 3; 81; 6; 0; 0; 0; 0; 1; 200; 0; 0] ++ rest) q 0 = Oob.
Proof.
  intros Hb q. set (pbody := [38; 13; 1; 0; 3; 81; 6; 0; 0; 0; 0; 1; 200; 0; 0] ++ rest).
  assert (∀ k, rm_parse_meas_req (λ _, true) demo_cap pbody q 0 = k →
    (∃ f mode c, k = let* (c, mode) := rep_info_loop demo_cap pbody f RM_CH_LOAD_CAP_EN (-198) 213 c mode in
       Ret (set_clm c (set_chan 81 6 0 0 q), mode))) as H.
  { intros k <-. exists (length pbody), (rm_en_cap_chk_and_set demo_cap RM_CH_LOAD_CAP_EN 0), {| cond := 0; threshold := 0 |}. reflexivity. }
  destruct (H _ eq_refl) as (f & mode & c & ->).
  assert (bytes pbody) as Hp by (apply bytes_app; [|done]; repeat (constructor; [uint_lit|]); constructor).
  by rewrite rep_info_negative by done.
Qed.
(** Thirteen channel reports write behind the array of twelve pointers. *)
Theorem rm_parse_13_reports :
  rm_parse_meas_req (λ _, true) demo_cap
    ([38; 55; 1; 0; 5; 81; 255; 0; 0; 0; 0; 0] ++ replicate 6 0xff ++ enc_elems (replicate 13 (51, [81])))
    (set_head 0 MEAS_REQ_IE 1 0 bcn_req 1 no_req) 0 = Oob.
Proof. vm_compute. reflexivity. Qed.
(** Five well-formed reports of eleven channels overflow the set of a survey, and one
    report that says it has twelve reads behind its channels. *)
Theorem rm_sitesurvey_overflow :
  let survey ops := rm_sitesurvey (set_chan 81 255 0 0 (set_bcn (set_ap_ch_rpt ops no_opt) no_req)) in
  Forall op_wf (replicate 5 (op_class 81 (replicate 11 1))) ∧ survey (replicate 5 (op_class 81 (replicate 11 1))) = Oob ∧
  survey [{| global_op_class := 81; Len := 12; Channel := replicate 11 1 |}] = Oob.
Proof. split; [|by vm_compute]. apply Forall_replicate. repeat split; vm_compute; try lia; congruence. Qed.
(** An SSID of 32 bytes loses its last byte at the receiver. *)
Theorem ssid_32_truncated :
  let elem := enc_elem (bcn_req_ssid, replicate 32 97) in
  ∃ o, bcn_s_elem (λ _, true) demo_cap elem 0 no_opt 0 = Ret (o, 0) ∧ o.(SsidLength) = 32 ∧ o.(Ssid) = replicate 31 97 ++ [0].
Proof. eexists. by vm_compute. Qed.

(** Of well-formed reports, the survey takes all channels when they fit. *)
Lemma ch_set_ok l : ∀ k,
  Forall op_wf l → (length k + length (concat (map Channel l)) ≤ RTW_CHANNEL_SCAN_AMOUNT)%nat →
  ch_set_loop l k = Ret (k ++ concat (map Channel l)).
Proof.
  induction l as [|op l IH]; intros k Hw Hn; cbn [ch_set_loop map concat]; [by rewrite app_nil_r|].
  apply Forall_cons in Hw as [(Hl & _ & _) Hw]. rewrite Hl, Nat2Z.id, mem_read_ok by lia. cbn [cbind].
  unfold slice. rewrite drop_0, firstn_all. cbn [map concat] in Hn. rewrite length_app in Hn.
  rewrite (proj2 (Nat.leb_le _ _)), IH by (rewrite ?length_app; done || lia). by rewrite <- app_assoc.
Qed.

(** ** Tokens and identifiers *)
Lemma gen_token_nonzero t : is_u8 t → is_u8 (rm_gen_dialog_token t) ∧ rm_gen_dialog_token t ≠ 0 ∧ rm_gen_dialog_token t ≠ t.
Proof.
  intros Ht. apply (all_below_spec 256 (λ t, (0 <? rm_gen_dialog_token t) && (rm_gen_dialog_token t <? 256) && negb (rm_gen_dialog_token t =? t))) in Ht;
    [|by vm_compute]. unfold uint. lia.
Qed.
Lemma rmid_bits aid dt role : is_u16 aid → is_u8 dt → 0 ≤ role < 4 → dt ≠ 0 →
  let r := rm_gen_rmid (Some aid) dt role in
  is_u32 r ∧ RM_GET_AID r = aid ∧ u8 (r >> 8) = dt ∧ r .& 0xff = role.
Proof.
  intros Ha Hd Hr Hz. cbn. rewrite (proj2 (Z.eqb_neq _ _)) by done.
  assert (uint 2 role) as Hr' by done. repeat split; try apply u32_uint.
  - unfold RM_GET_AID, u32. apply (uint_eq_bits 32);
      [apply uint_shiftr, uint_land_r; [lia|lia|lia|uint_lit]|by apply (uint_weaken 16)|by_bits 32%nat].
  - unfold u32. apply (uint_eq_bits 8); [apply u8_uint|done|]. unfold u8. by_bits 8%nat.
  - unfold u32. apply (uint_eq_bits 8); [apply uint_land_r; [lia|uint_lit]|by apply (uint_weaken 2)|by_bits 8%nat].
Qed.
(** Different stations, tokens and roles have different identifiers. *)
Lemma rmid_inj aid dt role aid' dt' role' :
  is_u16 aid → is_u8 dt → 0 ≤ role < 4 → dt ≠ 0 → is_u16 aid' → is_u8 dt' → 0 ≤ role' < 4 → dt' ≠ 0 →
  rm_gen_rmid (Some aid) dt role = rm_gen_rmid (Some aid') dt' role' → aid = aid' ∧ dt = dt' ∧ role = role'.
Proof.
  intros Ha Hd Hr Hz Ha' Hd' Hr' Hz' E. destruct (rmid_bits aid dt role) as (_ & A & D & R); [done..|].
  destruct (rmid_bits aid' dt' role') as (_ & A' & D' & R'); [done..|]. rewrite E in A, D, R. repeat split; congruence.
Qed.
(** The class of a channel has the channel in its set. *)
Lemma oper_class_ch_set ch : rm_get_oper_class_via_ch ch ≠ 0 → ch ∈ rm_get_ch_set (rm_get_oper_class_via_ch ch) 0.
Proof.
  unfold rm_get_oper_class_via_ch. destruct (List.find _ _) as [c|] eqn:E; [|done]. intros Hc.
  apply List.find_some in E as [Hin Hx]. apply existsb_exists in Hx as (x & Hx & ->%Z.eqb_eq).
  unfold rm_get_ch_set. rewrite Z.eqb_refl. cbn [negb].
  assert (Forall (λ c : RT_OPERATING_CLASS, c.(global_op_class) ≠ 0 →
    List.find (λ d : RT_OPERATING_CLASS, d.(global_op_class) =? c.(global_op_class)) RTW_OP_CLASS_US = Some c) RTW_OP_CLASS_US) as H.
  { repeat constructor; intros; done. }
  rewrite List.Forall_forall in H. rewrite (H c Hin Hc). by apply list_elem_of_In.
Qed.
