(* ===== verification/RmFsm.v ===== *)
(** * The radio measurement state machine: [core/rtw_rm_fsm.c], [core/rtw_rm.c],
    [include/rtw_rm.h], [include/rtw_rm_fsm.h]

    A measurement is an object with a state and a clock of its own; objects are in a
    queue, and so are the events for them.  A timer counts the clocks down and posts
    an event as a command when one has run out; the command thread puts the event
    into the event queue and runs the handler, which lets the state machine of the
    object react and post further events.  The objects are named by numbers that are
    never used twice, so that an access to a freed object is seen: it is [Oob].

    Code runs in a monad of the state [rm_world].  What the rest of the driver and
    the chip answer is a stream: every question ([rm_ask]) takes the next answer. *)
From S2P Require Import Prelude.
From stdpp Require Import list gmap.
From S2P Require Import CryptoWrap Mem RmReq.
Local Open Scope Z_scope.

(** ** Data *)
Definition RM_REQ_TIMEOUT : Z := 10000.
Definition RM_MEAS_TIMEOUT : Z := 10000.
Definition RM_REPT_SCAN_INTVL : Z := 5000.
Definition RM_REPT_POLL_INTVL : Z := 2000.
Definition RM_COND_INTVL : Z := 2000.
Definition RM_BUSY_TRAFFIC_TIMES : Z := 10.
Definition RM_WAIT_BUSY_TIMEOUT : Z := 1000.
Definition CLOCK_UNIT : Z := 10.
Definition RM_TIMER_NUM : nat := 32.

Inductive RM_STATE := RM_ST_IDLE | RM_ST_DO_MEAS | RM_ST_WAIT_MEAS | RM_ST_SEND_REPORT | RM_ST_RECV_REPORT | RM_ST_END.
Inductive RM_EV_ID :=
  | RM_EV_state_in | RM_EV_busy_timer_expire | RM_EV_delay_timer_expire | RM_EV_meas_timer_expire
  | RM_EV_retry_timer_expire | RM_EV_repeat_delay_expire | RM_EV_request_timer_expire | RM_EV_wait_report
  | RM_EV_start_meas | RM_EV_survey_done | RM_EV_recv_rep | RM_EV_cancel | RM_EV_state_out | RM_EV_max.
#[global] Instance rm_state_eq : EqDecision RM_STATE.
Proof. solve_decision. Defined.
#[global] Instance rm_ev_eq : EqDecision RM_EV_ID.
Proof. solve_decision. Defined.

Record rm_meas_rep := {
  p_category : Z; p_action_code : Z; p_diag_token : Z; p_e_id : Z; p_m_token : Z; p_m_mode : Z; p_m_type : Z;
  p_op_class : Z; p_ch_num : Z; p_ch_load : Z; p_anpi : Z; p_rpt : Z
}.
Definition no_rep : rm_meas_rep := Build_rm_meas_rep 0 0 0 0 0 0 0 0 0 0 0 0.
Definition set_p_category x p := Build_rm_meas_rep x p.(p_action_code) p.(p_diag_token) p.(p_e_id) p.(p_m_token) p.(p_m_mode) p.(p_m_type) p.(p_op_class) p.(p_ch_num) p.(p_ch_load) p.(p_anpi) p.(p_rpt).
Definition set_p_action x p := Build_rm_meas_rep p.(p_category) x p.(p_diag_token) p.(p_e_id) p.(p_m_token) p.(p_m_mode) p.(p_m_type) p.(p_op_class) p.(p_ch_num) p.(p_ch_load) p.(p_anpi) p.(p_rpt).
Definition set_p_token x p := Build_rm_meas_rep p.(p_category) p.(p_action_code) x p.(p_e_id) p.(p_m_token) p.(p_m_mode) p.(p_m_type) p.(p_op_class) p.(p_ch_num) p.(p_ch_load) p.(p_anpi) p.(p_rpt).
Definition set_p_mode x p := Build_rm_meas_rep p.(p_category) p.(p_action_code) p.(p_diag_token) p.(p_e_id) p.(p_m_token) x p.(p_m_type) p.(p_op_class) p.(p_ch_num) p.(p_ch_load) p.(p_anpi) p.(p_rpt).
Definition set_p_elem e tk ty p := Build_rm_meas_rep p.(p_category) p.(p_action_code) p.(p_diag_token) e tk p.(p_m_mode) ty p.(p_op_class) p.(p_ch_num) p.(p_ch_load) p.(p_anpi) p.(p_rpt).
Definition set_p_eid e p := Build_rm_meas_rep p.(p_category) p.(p_action_code) p.(p_diag_token) e p.(p_m_token) p.(p_m_mode) p.(p_m_type) p.(p_op_class) p.(p_ch_num) p.(p_ch_load) p.(p_anpi) p.(p_rpt).
Definition set_p_chan oc ch p := Build_rm_meas_rep p.(p_category) p.(p_action_code) p.(p_diag_token) p.(p_e_id) p.(p_m_token) p.(p_m_mode) p.(p_m_type) oc ch p.(p_ch_load) p.(p_anpi) p.(p_rpt).
Definition set_p_result l a p := Build_rm_meas_rep p.(p_category) p.(p_action_code) p.(p_diag_token) p.(p_e_id) p.(p_m_token) p.(p_m_mode) p.(p_m_type) p.(p_op_class) p.(p_ch_num) l a p.(p_rpt).
Definition set_p_rpt x p := Build_rm_meas_rep p.(p_category) p.(p_action_code) p.(p_diag_token) p.(p_e_id) p.(p_m_token) p.(p_m_mode) p.(p_m_type) p.(p_op_class) p.(p_ch_num) p.(p_ch_load) p.(p_anpi) x.

(** [psta]: the AID of the station; its [padapter] is the adapter.  [pclock]: the
    index of the clock. *)
Record rm_obj := {
  rmid : Z; st : RM_STATE; q : rm_meas_req; p : rm_meas_rep; psta : option Z; pclock : option nat;
  meas_start_time : Z; meas_end_time : Z; wait_busy : Z; poll_mode : bool; from_ioctl : bool
}.
Definition no_obj : rm_obj := Build_rm_obj 0 RM_ST_IDLE no_req no_rep None None 0 0 0 false false.
Definition set_st x o := Build_rm_obj o.(rmid) x o.(q) o.(p) o.(psta) o.(pclock) o.(meas_start_time) o.(meas_end_time) o.(wait_busy) o.(poll_mode) o.(from_ioctl).
Definition upd_p f o := Build_rm_obj o.(rmid) o.(st) o.(q) (f o.(p)) o.(psta) o.(pclock) o.(meas_start_time) o.(meas_end_time) o.(wait_busy) o.(poll_mode) o.(from_ioctl).
Definition set_pclock x o := Build_rm_obj o.(rmid) o.(st) o.(q) o.(p) o.(psta) x o.(meas_start_time) o.(meas_end_time) o.(wait_busy) o.(poll_mode) o.(from_ioctl).
Definition set_start x o := Build_rm_obj o.(rmid) o.(st) o.(q) o.(p) o.(psta) o.(pclock) x o.(meas_end_time) o.(wait_busy) o.(poll_mode) o.(from_ioctl).
Definition set_end x o := Build_rm_obj o.(rmid) o.(st) o.(q) o.(p) o.(psta) o.(pclock) o.(meas_start_time) x o.(wait_busy) o.(poll_mode) o.(from_ioctl).
Definition set_wait_busy x o := Build_rm_obj o.(rmid) o.(st) o.(q) o.(p) o.(psta) o.(pclock) o.(meas_start_time) o.(meas_end_time) x o.(poll_mode) o.(from_ioctl).
Definition set_poll o := Build_rm_obj o.(rmid) o.(st) o.(q) o.(p) o.(psta) o.(pclock) o.(meas_start_time) o.(meas_end_time) o.(wait_busy) true o.(from_ioctl).
Definition fill_obj sta q id mode ioctl o := Build_rm_obj id o.(st) q (set_p_mode mode o.(p)) (Some sta) o.(pclock) o.(meas_start_time) o.(meas_end_time) o.(wait_busy) o.(poll_mode) ioctl.

Record rm_clock := { c_prm : option nat; counter : Z; c_evid : RM_EV_ID }.
Definition free_clock : rm_clock := {| c_prm := None; counter := 0; c_evid := RM_EV_max |}.

(** What goes out: frames to the station of the object (of a request, the body; of a
    beacon report, the number of the packet; of a null reply, the report mode) and survey commands
    with their channels and scan mode. *)
Inductive rm_out :=
  | F_meas_req (id : Z) (body : list Z) | F_nb_req (id : Z) | F_link_req (id : Z)
  | F_beacon_rep (id : Z) (packet : nat) | F_meas_rep (id ch_load anpi : Z) | F_link_rep (id : Z) | F_null (id mode : Z)
  | Survey (id : Z) (chs : list Z) (mode : Z).

(** An answer: whether an allocation or a command succeeds, [ready_for_scan], the
    current channel, the TSF, the load and noise of the channel, the number of packets
    the scan results fill. *)
Record answer := { alloc_ok : bool; ready : bool; cur_channel : Z; tsf : Z; clm_ratio : Z; nhm_ratio : Z; pkt_num : nat }.

(** [cmds]: the commands [CMD_RM_POST_EVENT] that wait for the command thread. *)
Record rm_world := {
  enable : bool; objs : gmap nat rm_obj; brk : nat; rm_queue : list nat; ev_queue : list (Z * RM_EV_ID);
  clock : list rm_clock; cap_def : list Z; dialog_token : Z; meas_token : Z;
  cmds : list (Z * RM_EV_ID); sent : list rm_out; answers : nat → answer; asked : nat
}.
Definition set_enable x w := Build_rm_world x w.(objs) w.(brk) w.(rm_queue) w.(ev_queue) w.(clock) w.(cap_def) w.(dialog_token) w.(meas_token) w.(cmds) w.(sent) w.(answers) w.(asked).
Definition set_objs x w := Build_rm_world w.(enable) x w.(brk) w.(rm_queue) w.(ev_queue) w.(clock) w.(cap_def) w.(dialog_token) w.(meas_token) w.(cmds) w.(sent) w.(answers) w.(asked).
Definition set_brk x w := Build_rm_world w.(enable) w.(objs) x w.(rm_queue) w.(ev_queue) w.(clock) w.(cap_def) w.(dialog_token) w.(meas_token) w.(cmds) w.(sent) w.(answers) w.(asked).
Definition set_rmq x w := Build_rm_world w.(enable) w.(objs) w.(brk) x w.(ev_queue) w.(clock) w.(cap_def) w.(dialog_token) w.(meas_token) w.(cmds) w.(sent) w.(answers) w.(asked).
Definition set_evq x w := Build_rm_world w.(enable) w.(objs) w.(brk) w.(rm_queue) x w.(clock) w.(cap_def) w.(dialog_token) w.(meas_token) w.(cmds) w.(sent) w.(answers) w.(asked).
Definition set_clocks x w := Build_rm_world w.(enable) w.(objs) w.(brk) w.(rm_queue) w.(ev_queue) x w.(cap_def) w.(dialog_token) w.(meas_token) w.(cmds) w.(sent) w.(answers) w.(asked).
Definition set_tokens d m w := Build_rm_world w.(enable) w.(objs) w.(brk) w.(rm_queue) w.(ev_queue) w.(clock) w.(cap_def) d m w.(cmds) w.(sent) w.(answers) w.(asked).
Definition set_cmds x w := Build_rm_world w.(enable) w.(objs) w.(brk) w.(rm_queue) w.(ev_queue) w.(clock) w.(cap_def) w.(dialog_token) w.(meas_token) x w.(sent) w.(answers) w.(asked).
Definition set_sent x w := Build_rm_world w.(enable) w.(objs) w.(brk) w.(rm_queue) w.(ev_queue) w.(clock) w.(cap_def) w.(dialog_token) w.(meas_token) w.(cmds) x w.(answers) w.(asked).
Definition set_asked x w := Build_rm_world w.(enable) w.(objs) w.(brk) w.(rm_queue) w.(ev_queue) w.(clock) w.(cap_def) w.(dialog_token) w.(meas_token) w.(cmds) w.(sent) w.(answers) x.

(** ** The monad *)
Definition R (A : Type) : Type := rm_world → cres (A * rm_world).
#[global] Instance R_ret : MRet R := λ A a w, Ret (a, w).
#[global] Instance R_bind : MBind R := λ A B k m w, match m w with Ret (a, w) => k a w | Err e => Err e | Oob => Oob end.
Definition rm_get : R rm_world := λ w, Ret (w, w).
Definition rm_modify (f : rm_world → rm_world) : R unit := λ w, Ret (tt, f w).
Definition rm_lift {A} (m : cres A) : R A := λ w, match m with Ret a => Ret (a, w) | Err e => Err e | Oob => Oob end.
Definition rm_oob {A} : R A := λ _, Oob.
Definition E_RM_FUEL : Z := -1.
Definition rm_no_fuel {A} : R A := λ _, Err E_RM_FUEL.
Definition rm_ask : R answer := λ w, Ret (w.(answers) w.(asked), set_asked (S w.(asked)) w).
Definition rm_emit (f : rm_out) : R unit := rm_modify (λ w, set_sent (w.(sent) ++ [f]) w).

(** An object that was freed, or a missing station, cannot be read. *)
Definition get_obj (i : nat) : R rm_obj :=
  w ← rm_get; match w.(objs) !! i with Some o => mret o | None => rm_oob end.
Definition upd_obj (i : nat) (f : rm_obj → rm_obj) : R unit :=
  o ← get_obj i; rm_modify (λ w, set_objs (<[i := f o]> w.(objs)) w).
Definition padapter_of (i : nat) : R unit :=
  o ← get_obj i; match o.(psta) with Some _ => mret tt | None => rm_oob end.

(** ** Clocks *)
Definition with_clock (i : nat) (f : rm_clock → rm_clock) : R unit :=
  o ← get_obj i;
  match o.(pclock) with
  | None => rm_oob
  | Some c => rm_modify (λ w, set_clocks (alter f c w.(clock)) w)
  end.
Definition rm_set_clock (i : nat) (ms : Z) (evid : RM_EV_ID) : R unit :=
  with_clock i (λ c, {| c_prm := c.(c_prm); counter := ms / CLOCK_UNIT; c_evid := evid |}).
Definition rm_cancel_clock (i : nat) : R unit :=
  with_clock i (λ c, {| c_prm := c.(c_prm); counter := 0; c_evid := RM_EV_max |}).
Definition rm_free_clock (c : nat) : R unit := rm_modify (λ w, set_clocks (<[c := free_clock]> w.(clock)) w).
(** The loop leaves [pclock] at the last clock when none is free. *)
Definition rm_alloc_clock (i : nat) : R nat :=
  w ← rm_get;
  match list_find (λ c, c.(c_prm) = None) w.(clock) with
  | Some (n, _) =>
      rm_modify (λ w, set_clocks (<[n := {| c_prm := Some i; counter := 0; c_evid := RM_EV_max |}]> w.(clock)) w);;
      mret n
  | None => mret (RM_TIMER_NUM - 1)%nat
  end.

(** ** Objects and their queue *)
Definition rm_free_rmobj (i : nat) : R unit :=
  o ← get_obj i;
  rm_modify (λ w, set_rmq (filter (.≠ i) w.(rm_queue)) w);;
  match o.(pclock) with Some c => rm_free_clock c | None => mret tt end;;
  rm_modify (λ w, set_objs (delete i w.(objs)) w).
Definition rm_alloc_rmobj : R (option nat) :=
  a ← rm_ask;
  if a.(alloc_ok) then
    w ← rm_get; let i := w.(brk) in
    rm_modify (λ w, set_brk (S i) (set_objs (<[i := no_obj]> w.(objs)) w));;
    c ← rm_alloc_clock i;
    upd_obj i (set_pclock (Some c));;
    mret (Some i)
  else mret None.
Fixpoint find_rmid (l : list nat) (id : Z) : R (option nat) :=
  match l with
  | [] => mret None
  | i :: l => o ← get_obj i; if o.(rmid) =? id then mret (Some i) else find_rmid l id
  end.
Definition _rm_get_rmobj (id : Z) : R (option nat) :=
  if id =? 0 then mret None else w ← rm_get; find_rmid w.(rm_queue) id.
Definition rm_dequeue_ev : R (option (Z * RM_EV_ID)) :=
  w ← rm_get;
  match w.(ev_queue) with
  | [] => mret None
  | e :: l => rm_modify (set_evq l);; mret (Some e)
  end.

(** ** Posting events *)
(** As a command: [rm_post_event] and [rtw_rm_post_envent_cmd]. *)
Definition rm_post_event (id : Z) (evid : RM_EV_ID) : R bool :=
  w ← rm_get;
  if w.(enable) then
    a ← rm_ask;
    (if a.(alloc_ok) then rm_modify (λ w, set_cmds (w.(cmds) ++ [(id, evid)]) w) else mret tt);;
    mret true
  else mret false.
(** Into the queue: [_rm_post_event]. *)
Definition _rm_post_event (id : Z) (evid : RM_EV_ID) : R unit :=
  if bool_decide (evid = RM_EV_max) || (id =? 0) then mret tt
  else a ← rm_ask;
    if a.(alloc_ok) then rm_modify (λ w, set_evq (w.(ev_queue) ++ [(id, evid)]) w) else mret tt.

(** ** Frames *)
(** Without a frame to send nothing is sent. *)
Definition emit_frame (f : rm_out) : R unit := a ← rm_ask; if a.(alloc_ok) then rm_emit f else mret tt.
Definition issue_null_reply (i : nat) : R unit :=
  padapter_of i;;
  o ← get_obj i;
  let ac := o.(p).(p_action_code) in
  if (ac =? RM_ACT_RADIO_MEAS_REQ) || (ac =? RM_ACT_NB_REP_REQ) || (ac =? RM_ACT_LINK_MEAS_REQ)
  then emit_frame (F_null o.(rmid) o.(p).(p_m_mode)) else mret tt.
(** The packets of a beacon report, until a frame is missing. *)
Fixpoint send_packets (id : Z) (l : list nat) : R unit :=
  match l with
  | [] => mret tt
  | k :: l => a ← rm_ask; if a.(alloc_ok) then rm_emit (F_beacon_rep id k);; send_packets id l else mret tt
  end.
Definition issue_beacon_rep (i : nat) : R unit :=
  padapter_of i;;
  o ← get_obj i;
  a ← rm_ask;
  if (a.(pkt_num) =? 0)%nat then issue_null_reply i else send_packets o.(rmid) (seq 0 a.(pkt_num)).
Definition issue_radio_meas_rep (i : nat) : R unit :=
  padapter_of i;; o ← get_obj i; emit_frame (F_meas_rep o.(rmid) o.(p).(p_ch_load) o.(p).(p_anpi)).
Definition issue_link_meas_rep (i : nat) : R unit := padapter_of i;; o ← get_obj i; emit_frame (F_link_rep o.(rmid)).
Definition send_radio_meas_req (i : nat) : R unit :=
  padapter_of i;; o ← get_obj i; a ← rm_ask;
  if a.(alloc_ok) then body ← rm_lift (issue_radio_meas_req o.(q)); rm_emit (F_meas_req o.(rmid) body) else mret tt.
(** True is [_SUCCESS]; the results of the issuing functions are not looked at. *)
Definition rm_issue_meas_req (i : nat) : R bool :=
  o ← get_obj i;
  if o.(q).(q_action_code) =? RM_ACT_RADIO_MEAS_REQ then
    (if (o.(q).(q_m_type) =? bcn_req) || (o.(q).(q_m_type) =? ch_load_req) || (o.(q).(q_m_type) =? noise_histo_req)
     then send_radio_meas_req i else mret tt);;
    mret true
  else if o.(q).(q_action_code) =? RM_ACT_NB_REP_REQ then padapter_of i;; emit_frame (F_nb_req o.(rmid));; mret true
  else if o.(q).(q_action_code) =? RM_ACT_LINK_MEAS_REQ then padapter_of i;; emit_frame (F_link_req o.(rmid));; mret true
  else mret false.
Definition survey (i : nat) : R unit :=
  padapter_of i;; o ← get_obj i; r ← rm_lift (rm_sitesurvey o.(q)); rm_emit (Survey o.(rmid) r.1 r.2).
Definition set_rep_mode (i : nat) (m : Z) : R unit :=
  upd_obj i (upd_p (λ p, set_p_mode (rm_set_rep_mode p.(p_m_mode) m) p)).
Definition retrieve_radio_meas_result (i : nat) : R unit :=
  padapter_of i;; o ← get_obj i; a ← rm_ask;
  if o.(q).(q_m_type) =? ch_load_req then upd_obj i (upd_p (λ p, set_p_result a.(clm_ratio) p.(p_anpi) p))
  else if o.(q).(q_m_type) =? noise_histo_req then upd_obj i (upd_p (λ p, set_p_result p.(p_ch_load) a.(nhm_ratio) p))
  else mret tt.

(** ** The states

    [goto] is [rm_state_goto] for the object. *)
Section states.
Context (goto : RM_STATE → R unit) (i : nat).

(** The attributes that the report takes over from the request. *)
Definition idle_state_in : R unit :=
  o ← get_obj i;
  let q := o.(q) in
  if q.(q_action_code) =? RM_ACT_RADIO_MEAS_REQ then
    upd_obj i (upd_p (λ p, set_p_rpt q.(q_rpt) (set_p_chan q.(q_op_class) q.(q_ch_num)
      (set_p_elem MEAS_RSP_IE q.(q_m_token) q.(q_m_type) (set_p_token q.(q_diag_token) (set_p_action RM_ACT_RADIO_MEAS_REP p))))));;
    if (q.(q_m_type) =? ch_load_req) || (q.(q_m_type) =? noise_histo_req) then
      a ← rm_ask; if q.(q_ch_num) =? a.(cur_channel) then upd_obj i set_poll else mret tt
    else mret tt
  else if q.(q_action_code) =? RM_ACT_NB_REP_REQ then upd_obj i (upd_p (set_p_action RM_ACT_NB_REP_RESP))
  else if q.(q_action_code) =? RM_ACT_LINK_MEAS_REQ then
    upd_obj i (upd_p (λ p, set_p_action RM_ACT_LINK_MEAS_REP (set_p_token q.(q_diag_token) p)))
  else upd_obj i (upd_p (set_p_action q.(q_action_code)));; set_rep_mode i MEAS_REP_MOD_INCAP.
Definition rm_state_idle (evid : RM_EV_ID) : R unit :=
  padapter_of i;;
  upd_obj i (upd_p (set_p_category RADIO_MEAS));;
  match evid with
  | RM_EV_state_in =>
      idle_state_in;;
      o ← get_obj i;
      if negb (o.(rmid) .& RM_MASTER =? 0) then
        ok ← rm_issue_meas_req i; goto (if (ok : bool) then RM_ST_WAIT_MEAS else RM_ST_END)
      else goto RM_ST_DO_MEAS
  | RM_EV_delay_timer_expire => goto RM_ST_DO_MEAS
  | RM_EV_cancel => goto RM_ST_END
  | RM_EV_state_out => rm_cancel_clock i
  | _ => mret tt
  end.

Definition refuse_and_end : R unit := set_rep_mode i MEAS_REP_MOD_REFUSE;; issue_null_reply i;; goto RM_ST_END.
(** [RM_EV_state_in] of [rm_state_do_meas]. *)
Definition do_meas_state_in : R unit :=
  o ← get_obj i;
  let wait_or_start :=
    a ← rm_ask;
    if a.(ready) then _rm_post_event o.(rmid) RM_EV_start_meas
    else upd_obj i (set_wait_busy RM_BUSY_TRAFFIC_TIMES);; rm_set_clock i RM_WAIT_BUSY_TIMEOUT RM_EV_busy_timer_expire in
  if o.(q).(q_action_code) =? RM_ACT_RADIO_MEAS_REQ then
    if o.(q).(q_m_type) =? bcn_req then
      if o.(q).(q_m_mode) =? bcn_req_bcn_table then _rm_post_event o.(rmid) RM_EV_survey_done else wait_or_start
    else if (o.(q).(q_m_type) =? ch_load_req) || (o.(q).(q_m_type) =? noise_histo_req) then
      if o.(poll_mode) then _rm_post_event o.(rmid) RM_EV_survey_done else mret tt
    else goto RM_ST_END
  else if o.(q).(q_action_code) =? RM_ACT_LINK_MEAS_REQ then goto RM_ST_SEND_REPORT
  else _rm_post_event o.(rmid) RM_EV_start_meas.
Definition do_meas_start : R unit :=
  o ← get_obj i;
  let timeout := rm_set_clock i RM_MEAS_TIMEOUT RM_EV_meas_timer_expire in
  if o.(q).(q_action_code) =? RM_ACT_RADIO_MEAS_REQ then
    a ← rm_ask;
    upd_obj i (set_start a.(tsf));;
    if (o.(q).(q_m_type) =? bcn_req) || (o.(q).(q_m_type) =? ch_load_req) || (o.(q).(q_m_type) =? noise_histo_req)
    then survey i;; timeout
    else goto RM_ST_END
  else timeout.
Definition do_meas_survey_done : R unit :=
  o ← get_obj i;
  if o.(q).(q_action_code) =? RM_ACT_RADIO_MEAS_REQ then
    if o.(q).(q_m_type) =? bcn_req then rm_cancel_clock i;; goto RM_ST_SEND_REPORT
    else if (o.(q).(q_m_type) =? ch_load_req) || (o.(q).(q_m_type) =? noise_histo_req) then
      retrieve_radio_meas_result i;;
      o ← get_obj i;
      if rm_radio_meas_report_cond o.(q) o.(p).(p_ch_load) o.(p).(p_anpi) then goto RM_ST_SEND_REPORT
      else rm_set_clock i RM_COND_INTVL RM_EV_retry_timer_expire
    else goto RM_ST_END
  else mret tt.
(** [wait_busy] counts down only while the adapter is not ready. *)
Definition do_meas_busy : R unit :=
  o ← get_obj i;
  a ← rm_ask;
  if a.(ready) then
    if o.(wait_busy) <=? 0 then refuse_and_end else _rm_post_event o.(rmid) RM_EV_start_meas
  else
    upd_obj i (set_wait_busy (o.(wait_busy) - 1));;
    if negb (o.(wait_busy) =? 0) then rm_set_clock i RM_WAIT_BUSY_TIMEOUT RM_EV_busy_timer_expire
    else if o.(wait_busy) - 1 <=? 0 then refuse_and_end
    else _rm_post_event o.(rmid) RM_EV_start_meas.
Definition rm_state_do_meas (evid : RM_EV_ID) : R unit :=
  padapter_of i;;
  match evid with
  | RM_EV_state_in => do_meas_state_in
  | RM_EV_start_meas => do_meas_start
  | RM_EV_survey_done => do_meas_survey_done
  | RM_EV_busy_timer_expire => do_meas_busy
  | RM_EV_retry_timer_expire => o ← get_obj i; _rm_post_event o.(rmid) RM_EV_start_meas
  | RM_EV_meas_timer_expire | RM_EV_request_timer_expire | RM_EV_cancel => refuse_and_end
  | RM_EV_state_out => rm_cancel_clock i;; a ← rm_ask; upd_obj i (set_end a.(tsf))
  | _ => mret tt
  end.
Definition rm_state_wait_meas (evid : RM_EV_ID) : R unit :=
  match evid with
  | RM_EV_state_in => rm_set_clock i RM_REQ_TIMEOUT RM_EV_request_timer_expire
  | RM_EV_recv_rep => goto RM_ST_RECV_REPORT
  | RM_EV_request_timer_expire | RM_EV_cancel => goto RM_ST_END
  | RM_EV_state_out => rm_cancel_clock i
  | _ => mret tt
  end.
Definition send_report_state_in : R unit :=
  o ← get_obj i;
  let check_repeat :=
    o ← get_obj i;
    if negb (o.(p).(p_rpt) =? 0) then
      upd_obj i (upd_p (λ p, set_p_rpt (p.(p_rpt) - 1) p));;
      rm_set_clock i (if o.(poll_mode) then RM_REPT_POLL_INTVL else RM_REPT_SCAN_INTVL) RM_EV_repeat_delay_expire
    else goto RM_ST_END in
  if o.(q).(q_action_code) =? RM_ACT_RADIO_MEAS_REQ then
    if o.(q).(q_m_type) =? bcn_req then issue_beacon_rep i;; check_repeat
    else if (o.(q).(q_m_type) =? ch_load_req) || (o.(q).(q_m_type) =? noise_histo_req) then issue_radio_meas_rep i;; check_repeat
    else goto RM_ST_END
  else if o.(q).(q_action_code) =? RM_ACT_LINK_MEAS_REQ then issue_link_meas_rep i;; goto RM_ST_END
  else goto RM_ST_END.
Definition rm_state_send_report (evid : RM_EV_ID) : R unit :=
  match evid with
  | RM_EV_state_in => send_report_state_in
  | RM_EV_repeat_delay_expire => goto RM_ST_DO_MEAS
  | RM_EV_cancel => goto RM_ST_END
  | RM_EV_state_out => rm_cancel_clock i
  | _ => mret tt
  end.
Definition recv_report_state_in : R unit :=
  o ← get_obj i;
  if o.(p).(p_action_code) =? RM_ACT_RADIO_MEAS_REP then
    if negb (o.(p).(p_m_mode) =? 0) then goto RM_ST_END
    else if negb (o.(p).(p_rpt) =? 0) then
      upd_obj i (upd_p (λ p, set_p_rpt (p.(p_rpt) - 1) p));; goto RM_ST_WAIT_MEAS
    else goto RM_ST_END
  else goto RM_ST_END.
Definition rm_state_recv_report (evid : RM_EV_ID) : R unit :=
  match evid with
  | RM_EV_state_in => recv_report_state_in
  | RM_EV_cancel => goto RM_ST_END
  | RM_EV_state_out => rm_cancel_clock i
  | _ => mret tt
  end.
Definition rm_state_end (evid : RM_EV_ID) : R unit :=
  match evid with
  | RM_EV_state_in => padapter_of i;; o ← get_obj i; _rm_post_event o.(rmid) RM_EV_state_out
  | _ => rm_free_rmobj i
  end.
Definition rm_fsm (s : RM_STATE) : RM_EV_ID → R unit :=
  match s with
  | RM_ST_IDLE => rm_state_idle | RM_ST_DO_MEAS => rm_state_do_meas | RM_ST_WAIT_MEAS => rm_state_wait_meas
  | RM_ST_SEND_REPORT => rm_state_send_report | RM_ST_RECV_REPORT => rm_state_recv_report | RM_ST_END => rm_state_end
  end.
End states.

(** ** Running the machine

    [rm_state_run] and [rm_state_goto] call each other: a state is entered at most
    four deep, and [run_levels] is one more (see [rm_state_run_spec]). *)
Definition rm_state_goto (run : nat → RM_EV_ID → R unit) (i : nat) (s : RM_STATE) : R unit :=
  o ← get_obj i;
  if decide (o.(st) = s) then mret tt
  else run i RM_EV_state_out;; upd_obj i (set_st s);; run i RM_EV_state_in.
Fixpoint run_levels (fuel : nat) (i : nat) (evid : RM_EV_ID) : R unit :=
  match fuel with
  | O => rm_no_fuel
  | S fuel => o ← get_obj i; rm_fsm (rm_state_goto (run_levels fuel) i) i o.(st) evid
  end.
Definition rm_state_run (i : nat) (evid : RM_EV_ID) : R unit := run_levels 5 i evid.

(** The walk of [rm_bcast_aid_handler]: the successor is taken before the machine of
    an object runs, which may free the object. *)
Fixpoint next_of (i : nat) (l : list nat) : option nat :=
  match l with
  | [] => None
  | j :: l => if (i =? j)%nat then head l else next_of i l
  end.
Fixpoint bcast_walk (fuel : nat) (cur : option nat) (id : Z) (evid : RM_EV_ID) : R unit :=
  match cur with
  | None => mret tt
  | Some i =>
      match fuel with
      | O => rm_no_fuel
      | S fuel =>
          w ← rm_get;
          let next := next_of i w.(rm_queue) in
          o ← get_obj i;
          (if RM_GET_AID id =? RM_GET_AID o.(rmid) then rm_state_run i evid else mret tt);;
          bcast_walk fuel next id evid
      end
  end.
Definition rm_bcast_aid_handler (id : Z) (evid : RM_EV_ID) : R unit :=
  w ← rm_get; bcast_walk (length w.(rm_queue)) (head w.(rm_queue)) id evid.

(** The handler returns at the first event whose object is gone.  An event makes the
    machine post events of a lower rank only, one for each object it reaches; the
    fuel is a bound on the events it can still lead to. *)
Definition rank (e : RM_EV_ID) : nat :=
  match e with
  | RM_EV_state_out => 0
  | RM_EV_start_meas | RM_EV_survey_done | RM_EV_recv_rep | RM_EV_cancel | RM_EV_meas_timer_expire
  | RM_EV_request_timer_expire | RM_EV_wait_report => 1
  | _ => 2
  end.
Definition ev_weight (n : nat) (e : Z * RM_EV_ID) : nat :=
  if RM_IS_ID_FOR_ALL e.1 then S (n * rank e.2) else S (rank e.2).
Definition ev_potential (w : rm_world) : nat := sum_list (ev_weight (length w.(rm_queue)) <$> w.(ev_queue)).
Fixpoint handler_loop (fuel : nat) : R unit :=
  match fuel with
  | O => rm_no_fuel
  | S fuel =>
      e ← rm_dequeue_ev;
      match e with
      | None => mret tt
      | Some (id, evid) =>
          if RM_IS_ID_FOR_ALL id then rm_bcast_aid_handler id evid;; handler_loop fuel
          else
            prm ← _rm_get_rmobj id;
            match prm with
            | None => mret tt
            | Some i => rm_state_run i evid;; handler_loop fuel
            end
      end
  end.
Definition rm_handler : R unit := w ← rm_get; handler_loop (S (ev_potential w)).
(** The command: the first one that waits. *)
Definition rm_post_event_hdl : R unit :=
  w ← rm_get;
  match w.(cmds) with
  | [] => mret tt
  | (id, evid) :: l => rm_modify (set_cmds l);; _rm_post_event id evid;; rm_handler
  end.

(** ** The timer *)
Definition tick_clock (c : nat) : R unit :=
  w ← rm_get;
  match w.(clock) !! c with
  | None => mret tt
  | Some ck =>
      match ck.(c_prm) with
      | None => mret tt
      | Some i =>
          if ck.(counter) =? 0 then mret tt
          else
            rm_modify (λ w, set_clocks (<[c := {| c_prm := Some i; counter := ck.(counter) - 1; c_evid := ck.(c_evid) |}]> w.(clock)) w);;
            if ck.(counter) - 1 =? 0 then padapter_of i;; o ← get_obj i; rm_post_event o.(rmid) ck.(c_evid);; mret tt
            else mret tt
      end
  end.
Fixpoint tick_clocks (l : list nat) : R unit :=
  match l with [] => mret tt | c :: l => tick_clock c;; tick_clocks l end.
Definition rm_timer_callback : R unit := tick_clocks (seq 0 RM_TIMER_NUM).

(** ** Start and end *)
Definition rtw_init_rm (ans : nat → answer) (cap : list Z) : rm_world :=
  {| enable := true; objs := ∅; brk := 0; rm_queue := []; ev_queue := []; clock := replicate RM_TIMER_NUM free_clock;
     cap_def := cap; dialog_token := 0; meas_token := 1; cmds := []; sent := []; answers := ans; asked := 0 |}.
(** [rm_dequeue_rm] leaves the object in the queue; a cancelled object is still there
    the second time, and then it is freed. *)
Fixpoint cancel_all (fuel : nat) : R unit :=
  w ← rm_get;
  match w.(rm_queue) with
  | [] => mret tt
  | i :: _ => match fuel with O => rm_no_fuel | S fuel => rm_state_run i RM_EV_cancel;; cancel_all fuel end
  end.
Definition rtw_deinit_rm : R unit :=
  rm_modify (set_enable false);; rm_modify (set_evq []);;
  w ← rm_get; cancel_all (2 * length w.(rm_queue)).

(** ** New measurements *)
Definition rm_enqueue_rmobj (i : nat) (to_head : bool) : R unit :=
  rm_modify (λ w, set_rmq (if to_head then i :: w.(rm_queue) else w.(rm_queue) ++ [i]) w);;
  upd_obj i (set_st RM_ST_IDLE);;
  padapter_of i;; o ← get_obj i; rm_post_event o.(rmid) RM_EV_state_in;; mret tt.
(** [rm_recv_radio_mens_req]: an element that is no measurement request leaves the
    object allocated but not queued.  [aid]: the station; [body]: from the category
    on. *)
Definition rm_recv_radio_mens_req (aid : Z) (body : list Z) : R bool :=
  prm ← rm_alloc_rmobj;
  match prm with
  | None => mret false
  | Some i =>
      w ← rm_get; a ← rm_ask;
      r ← rm_lift (read_radio_meas_req (λ _, a.(alloc_ok)) w.(cap_def) body);
      let '(rq, mode, queued) := r in
      upd_obj i (fill_obj aid rq (rm_gen_rmid (Some aid) rq.(q_diag_token) RM_SLAVE) mode false);;
      if (queued : bool) then rm_enqueue_rmobj i false;; mret true else mret false
  end.
Definition rm_recv_link_mens_req (aid : Z) (body : list Z) : R bool :=
  prm ← rm_alloc_rmobj;
  match prm with
  | None => mret false
  | Some i =>
      ac ← rm_lift (mem_byte body 1); dt ← rm_lift (mem_byte body 2);
      _ ← rm_lift (mem_read body 3 2);
      let rq := Build_rm_meas_req 0 ac dt 0 0 0 0 0 0 0 0 0 (replicate 6 0) no_opt {| cond := 0; threshold := 0 |} in
      upd_obj i (fill_obj aid rq (rm_gen_rmid (Some aid) dt RM_SLAVE) 0 false);;
      rm_enqueue_rmobj i false;; mret true
  end.
(** A report belongs to the request of this station with the same token. *)
Definition rm_recv_radio_mens_rep (aid : Z) (body : list Z) : R bool :=
  dt ← rm_lift (mem_byte body 2);
  prm ← _rm_get_rmobj (u32 ((aid << 16) .| (dt << 8) .| RM_MASTER));
  match prm with
  | None => mret true
  | Some i =>
      ac ← rm_lift (mem_byte body 1);
      e_id ← rm_lift (mem_byte body 3); tk ← rm_lift (mem_byte body 5);
      mode ← rm_lift (mem_byte body 6); ty ← rm_lift (mem_byte body 7);
      upd_obj i (upd_p (λ p, set_p_mode mode (set_p_elem e_id tk ty (set_p_token dt (set_p_action ac p)))));;
      if negb (e_id =? MEAS_RSP_IE) then mret false
      else o ← get_obj i; rm_post_event o.(rmid) RM_EV_recv_rep;; mret false
  end.
(** [rm_recv_link_mens_rep], and [rm_radio_mens_nb_rep] with [nb]. *)
Definition rm_recv_other_rep (nb : bool) (aid : Z) (body : list Z) : R bool :=
  dt ← rm_lift (mem_byte body 2);
  prm ← _rm_get_rmobj (u32 ((aid << 16) .| (dt << 8) .| RM_MASTER));
  match prm with
  | None => mret true
  | Some i =>
      ac ← rm_lift (mem_byte body 1);
      upd_obj i (upd_p (λ p, set_p_token dt (set_p_action ac p)));;
      (if nb then e_id ← rm_lift (mem_byte body 3); upd_obj i (upd_p (set_p_eid e_id)) else mret tt);;
      o ← get_obj i; ok ← rm_post_event o.(rmid) RM_EV_recv_rep;
      mret (if nb then true else ok)
  end.
(** A request of this side without reports, as [rm_add_nb_req] makes it; [f] fills in
    what the caller asks for. *)
Definition rm_add_req (aid : Z) (f : rm_meas_req → rm_meas_req) (ioctl : bool) : R bool :=
  prm ← rm_alloc_rmobj;
  match prm with
  | None => mret false
  | Some i =>
      w ← rm_get;
      let dt := rm_gen_dialog_token w.(dialog_token) in
      let mt := rm_gen_meas_token w.(meas_token) in
      rm_modify (set_tokens dt mt);;
      let rq := f (set_head 0 0 mt 0 0 dt no_req) in
      upd_obj i (fill_obj aid rq (rm_gen_rmid (Some aid) dt RM_MASTER) 0 ioctl);;
      rm_enqueue_rmobj i false;; mret true
  end.
Definition set_cat_act act rq :=
  Build_rm_meas_req RADIO_MEAS act rq.(q_diag_token) rq.(q_rpt) rq.(q_e_id) rq.(q_m_token) rq.(q_m_mode) rq.(q_m_type) rq.(q_op_class) rq.(q_ch_num)
    rq.(q_rand_intvl) rq.(q_meas_dur) rq.(q_bssid) rq.(q_bcn) rq.(q_clm).
Definition rm_add_nb_req (aid : Z) : R bool := rm_add_req aid (set_cat_act RM_ACT_NB_REP_REQ) false.
(** [n] entries of the caller's array from the entry [i] on.  Each copy has
    [sizeof(struct _RT_OPERATING_CLASS) * prpt->Len] bytes, that is [Len] entries of
    the array, of which the request uses the first: the copy reads behind the array
    when fewer are left, and has no structure at all when [Len] is 0 (what reads its
    [Len] when the request is sent then reads behind the allocation).  The result of
    the allocation is not checked. *)
Fixpoint copy_reports (rpt : list RT_OPERATING_CLASS) (i n : nat) : R (list RT_OPERATING_CLASS) :=
  match n with
  | O => mret []
  | S n =>
      match rpt !! i with
      | None => rm_oob
      | Some op =>
          a ← rm_ask;
          if a.(alloc_ok) && (1 <=? op.(Len)) && (Z.of_nat i + op.(Len) <=? Z.of_nat (length rpt))
          then k ← copy_reports rpt (S i) n; mret (op :: k) else rm_oob
      end
  end.
Definition bcn_request (opc ch dur mode : Z) (bssid ssid : option (list Z)) (detail : Z)
    (rpt : list RT_OPERATING_CLASS) (ids : list Z) (rq : rm_meas_req) : rm_meas_req :=
  let s := match ssid with Some s => take 32 s | None => [] end in
  let o := {| opt_id := []; rep_detail := detail; SsidLength := Z.of_nat (length s); Ssid := memcpy (replicate 32 0) 0 s;
    rep_cond := {| cond := 0; threshold := 0 |}; ap_ch_rpt := rpt; req_start := None;
    req_id := if (length ids <? 16)%nat then ids else [] |} in
  Build_rm_meas_req RADIO_MEAS RM_ACT_RADIO_MEAS_REQ rq.(q_diag_token) 0 MEAS_REQ_IE rq.(q_m_token) mode bcn_req opc ch 0 dur
    (default (replicate 6 0xff) bssid) o rq.(q_clm).
(** [rm_send_bcn_reqs]; [psta]: the AID of the station with the address, if any; [n]:
    [n_ap_ch_rpt]; [rpt]: the array of the caller. *)
Definition rm_send_bcn_reqs (psta : option Z) (opc ch dur mode : Z) (bssid ssid : option (list Z)) (detail : Z)
    (n : nat) (rpt : list RT_OPERATING_CLASS) (ids : list Z) : R Z :=
  if (BCN_REQ_OPT_AP_CH_RPT_MAX_NUM <? n)%nat then mret (-1)
  else match psta with
  | None => mret (-2)
  | Some aid =>
      prm ← rm_alloc_rmobj;
      match prm with
      | None => mret (-3)
      | Some i =>
          w ← rm_get;
          let dt := rm_gen_dialog_token w.(dialog_token) in
          let mt := rm_gen_meas_token w.(meas_token) in
          rm_modify (set_tokens dt mt);;
          k ← copy_reports rpt 0 n;
          let rq := bcn_request opc ch dur mode bssid ssid detail k ids (set_head 0 0 mt 0 0 dt no_req) in
          upd_obj i (fill_obj aid rq (rm_gen_rmid (Some aid) dt RM_MASTER) 0 true);;
          rm_enqueue_rmobj i false;; mret 0
      end
  end.
(** [verify_bcn_req]: the request that the debug command sends to a station, with the
    six operating classes of its table. *)
Definition verify_bcn_req (aid : Z) : R Z :=
  rm_send_bcn_reqs (Some aid) 0 255 100 bcn_req_active None (Some [82; 101; 97; 108; 75; 117; 110; 103; 70; 117]) 0 6
    [op_class 115 [36; 40; 44; 48]; op_class 118 [52; 56; 60; 64]; op_class 124 [149; 153; 157; 161];
     op_class 121 [100; 104; 108; 112; 116; 120; 124; 128; 132; 136; 140];
     op_class 125 [149; 153; 157; 161; 165]; op_class 81 [1; 2; 3; 4; 5; 6; 7; 8; 9; 10; 11]] [1; 2; 3].
(** [rm_on_action] for a frame of a known station to this adapter; the length of the
    body is what was received. *)
Definition rm_on_action (aid : Z) (body : list Z) : R bool :=
  ac ← rm_lift (mem_byte body 1); _ ← rm_lift (mem_byte body 2);
  if ac =? RM_ACT_RADIO_MEAS_REQ then rm_recv_radio_mens_req aid body
  else if ac =? RM_ACT_RADIO_MEAS_REP then rm_recv_radio_mens_rep aid body
  else if ac =? RM_ACT_LINK_MEAS_REQ then rm_recv_link_mens_req aid body
  else if ac =? RM_ACT_LINK_MEAS_REP then rm_recv_other_rep false aid body
  else if ac =? RM_ACT_NB_REP_RESP then rm_recv_other_rep true aid body
  else mret false.
