(* ===== verification/RmSafe.v ===== *)
(** * Radio measurement: nothing freed is used, nothing runs for ever

    A logic for the monad of RmFsm, what a run of the state machine of one object does
    to the rest of the state, and the invariant of the clocks, objects and queues.
    With at most [RM_TIMER_NUM] measurements at a time every object has a clock of its
    own and every step ends without touching a freed object. *)
From S2P Require Import Prelude.
From stdpp Require Import list gmap.
From S2P Require Import CryptoWrap Mem RmReq RmFsm.
Local Open Scope Z_scope.

(** ** Weakest preconditions *)
Definition wp {A} (m : R A) (Q : A → rm_world → Prop) (w : rm_world) : Prop :=
  match m w with Ret (a, w') => Q a w' | _ => False end.

Section rules.
Context {A B : Type}.
Lemma rwp_ret (a : A) Q w : Q a w → wp (mret a) Q w.
Proof. done. Qed.
Lemma rwp_bind (m : R A) (k : A → R B) Q w : wp m (λ a w', wp (k a) Q w') w → wp (m ≫= k) Q w.
Proof. unfold wp, mbind, R_bind. by destruct (m w) as [[a w']| |]. Qed.
Lemma rwp_mono (m : R A) (P Q : A → rm_world → Prop) w : wp m P w → (∀ a w', P a w' → Q a w') → wp m Q w.
Proof. unfold wp. destruct (m w) as [[a w']| |]; eauto. Qed.
Lemma rwp_lift (c : cres A) a Q w : c = Ret a → Q a w → wp (rm_lift c) Q w.
Proof. by intros ->. Qed.
End rules.

(** ** One object and the rest

    [St w0 i o evs w]: from [w0] to [w] nothing has changed but the object [i], which
    is [o] now, the clocks that remain with their objects, what was sent, and the
    events [evs] that were posted. *)
Definition St (w0 : rm_world) (i : nat) (o : rm_obj) (evs : list (Z * RM_EV_ID)) (w : rm_world) : Prop :=
  w.(enable) = w0.(enable) ∧ w.(brk) = w0.(brk) ∧ w.(rm_queue) = w0.(rm_queue) ∧ w.(objs) = <[i := o]> w0.(objs) ∧
  c_prm <$> w.(clock) = c_prm <$> w0.(clock) ∧ w.(ev_queue) = w0.(ev_queue) ++ evs ∧ w.(cmds) = w0.(cmds) ∧
  w.(cap_def) = w0.(cap_def).
(** What never changes in an object. *)
Definition same_id (o o' : rm_obj) : Prop :=
  o'.(rmid) = o.(rmid) ∧ o'.(q) = o.(q) ∧ o'.(psta) = o.(psta) ∧ o'.(pclock) = o.(pclock).
(** The requests whose frame and survey stay inside their arrays. *)
Definition req_safe (r : rm_meas_req) : Prop :=
  (∃ x, rm_sitesurvey r = Ret x) ∧ (∃ b, issue_radio_meas_req r = Ret b).

Lemma run_levels_S n i ev :
  run_levels (S n) i ev = (o ← get_obj i; rm_fsm (rm_state_goto (run_levels n) i) i o.(st) ev).
Proof. done. Qed.

Section object.
Context (w0 : rm_world) (i : nat).

Lemma St_obj o evs w : St w0 i o evs w → w.(objs) !! i = Some o.
Proof. intros (_ & _ & _ & -> & _). by rewrite lookup_insert_eq. Qed.
Lemma wp_get_obj o evs w Q : St w0 i o evs w → Q o w → wp (get_obj i) Q w.
Proof. intros H%St_obj HQ. unfold wp, get_obj, mbind, R_bind, rm_get. by rewrite H. Qed.
Lemma wp_upd_obj f o evs w (Q : unit → _) :
  St w0 i o evs w → (∀ w', St w0 i (f o) evs w' → Q tt w') → wp (upd_obj i f) Q w.
Proof.
  intros HS HQ. unfold upd_obj. apply rwp_bind. eapply wp_get_obj; [done|]. apply HQ.
  destruct HS as (? & ? & ? & E & ?). repeat split; try tauto. cbn. by rewrite E, insert_insert_eq.
Qed.
Lemma wp_ask o evs w Q : St w0 i o evs w → (∀ a w', St w0 i o evs w' → Q a w') → wp rm_ask Q w.
Proof. intros HS HQ. apply HQ. exact HS. Qed.
Lemma wp_emit f o evs w (Q : unit → _) : St w0 i o evs w → (∀ w', St w0 i o evs w' → Q tt w') → wp (rm_emit f) Q w.
Proof. intros HS HQ. apply HQ. exact HS. Qed.
Lemma wp_emit_frame f o evs w (Q : unit → _) :
  St w0 i o evs w → (∀ w', St w0 i o evs w' → Q tt w') → wp (emit_frame f) Q w.
Proof.
  intros HS HQ. unfold emit_frame. apply rwp_bind. eapply wp_ask; [done|]. intros a w1 H1.
  destruct (alloc_ok a); [by eapply wp_emit|]. by apply rwp_ret, HQ.
Qed.
Lemma wp_padapter sta o evs w (Q : unit → _) :
  o.(psta) = Some sta → St w0 i o evs w → Q tt w → wp (padapter_of i) Q w.
Proof. intros E HS HQ. unfold padapter_of. apply rwp_bind. eapply wp_get_obj; [done|]. by rewrite E. Qed.
Lemma wp_with_clock c f o evs w (Q : unit → _) :
  o.(pclock) = Some c → (∀ k, c_prm (f k) = c_prm k) → St w0 i o evs w →
  (∀ w', St w0 i o evs w' → Q tt w') → wp (with_clock i f) Q w.
Proof.
  intros E Hf HS HQ. unfold with_clock. apply rwp_bind. eapply wp_get_obj; [done|]. rewrite E. apply HQ.
  destruct HS as (? & ? & ? & ? & Hc & ?). repeat split; try tauto. cbn. rewrite <- Hc.
  apply list_eq. intros j. rewrite !list_lookup_fmap.
  destruct (decide (c = j)) as [<-|]; [rewrite list_lookup_alter_eq|by rewrite list_lookup_alter_ne].
  destruct (w.(clock) !! c); cbn; [by rewrite Hf|done].
Qed.
Lemma wp_post id ev o w (Q : unit → _) :
  St w0 i o [] w →
  (∀ w' evs, St w0 i o evs w' → evs = [] ∨ evs = [(id, ev)] ∧ id ≠ 0 ∧ ev ≠ RM_EV_max → Q tt w') → wp (_rm_post_event id ev) Q w.
Proof.
  intros HS HQ. unfold _rm_post_event. destruct (bool_decide _ || _) eqn:E; [by apply rwp_ret, (HQ _ []); auto|].
  apply orb_false_iff in E as [E1%bool_decide_eq_false E2%Z.eqb_neq].
  apply rwp_bind. eapply wp_ask; [done|]. intros a w1 H1.
  destruct (alloc_ok a); [|by apply rwp_ret, (HQ _ []); auto]. apply (HQ _ [(id, ev)]); [|by auto].
  destruct H1 as (? & ? & ? & ? & ? & He & ?). repeat split; try tauto. cbn. by rewrite He, app_nil_r.
Qed.
End object.

(** ** The machine of an object

    The object [i] is in the queue, has a station and a clock. *)
Section machine.
Context (w0 : rm_world) (i : nat) (o0 : rm_obj) (sta : Z) (c : nat).
Context (Hsta : o0.(psta) = Some sta) (Hclk : o0.(pclock) = Some c) (Hsafe : req_safe o0.(q)).

Definition evs_ok (b : nat) (evs : list (Z * RM_EV_ID)) : Prop :=
  evs = [] ∨ ∃ ev, evs = [(o0.(rmid), ev)] ∧ o0.(rmid) ≠ 0 ∧ ev ≠ RM_EV_max ∧ (rank ev < b)%nat.
(** It is still there, and has posted one event of a rank below [b] or none. *)
Definition alive (b : nat) (w : rm_world) : Prop := ∃ o evs, St w0 i o evs w ∧ same_id o0 o ∧ evs_ok b evs.
(** Code that leaves the object in its state and posts nothing. *)
Definition quiet {A} (m : R A) : Prop := ∀ o w, St w0 i o [] w → same_id o0 o →
  wp m (λ _ w', ∃ o', St w0 i o' [] w' ∧ same_id o0 o' ∧ o'.(st) = o.(st)) w.

Lemma quiet_ret {A} (a : A) : quiet (mret a).
Proof. intros o w HS Hid. by exists o. Qed.
Lemma quiet_bind {A B} (m : R A) (k : A → R B) : quiet m → (∀ a, quiet (k a)) → quiet (m ≫= k).
Proof.
  intros Hm Hk o w HS Hid. apply rwp_bind. eapply rwp_mono; [by apply Hm|]. intros a w1 (o1 & HS1 & Hid1 & E).
  eapply rwp_mono; [by apply Hk|]. intros _ w2 (o2 & ? & ? & ?). exists o2. split_and!; [done..|congruence].
Qed.
Lemma quiet_get {A} (k : rm_obj → R A) : (∀ o, same_id o0 o → quiet (k o)) → quiet (get_obj i ≫= k).
Proof. intros Hk o w HS Hid. apply rwp_bind. eapply wp_get_obj; [done|]. by apply (Hk o Hid). Qed.
Lemma quiet_upd f : (∀ o, same_id o (f o) ∧ (f o).(st) = o.(st)) → quiet (upd_obj i f).
Proof.
  intros Hf o w HS Hid. destruct (Hf o) as [(E1 & E2 & E3 & E4) E]. eapply wp_upd_obj; [done|]. intros w' HS'.
  exists (f o). split_and!; [done| |done]. destruct Hid as (? & ? & ? & ?). unfold same_id. by rewrite E1, E2, E3, E4.
Qed.
Lemma quiet_ask : quiet rm_ask.
Proof. intros o w HS Hid. eapply wp_ask; [done|]. intros a w' HS'. by exists o. Qed.
Lemma quiet_emit f : quiet (rm_emit f).
Proof. intros o w HS Hid. eapply wp_emit; [done|]. intros w' HS'. by exists o. Qed.
Lemma quiet_padapter : quiet (padapter_of i).
Proof using Hsta. intros o w HS Hid. apply (wp_padapter w0 i sta o [] w); [destruct Hid as (_ & _ & -> & _); done|done|]. by exists o. Qed.
Lemma quiet_clock f : (∀ k, c_prm (f k) = c_prm k) → quiet (with_clock i f).
Proof using Hclk.
  intros Hf o w HS Hid. apply (wp_with_clock w0 i c f o [] w); [destruct Hid as (_ & _ & _ & ->); done|done|done|].
  intros w' HS'. by exists o.
Qed.
Lemma quiet_lift {A} (r : cres A) a : r = Ret a → quiet (rm_lift r).
Proof. intros -> o w HS Hid. by exists o. Qed.

Ltac quiet_go :=
  repeat match goal with
  | |- quiet (get_obj i ≫= _) => apply quiet_get; intros ? ?
  | |- quiet (_ ≫= _) => apply quiet_bind; [|intros ?]
  | |- quiet (mret _) => apply quiet_ret
  | |- quiet rm_ask => apply quiet_ask
  | |- quiet (rm_emit _) => apply quiet_emit
  | |- quiet (padapter_of i) => apply quiet_padapter
  | |- quiet (upd_obj i _) => apply quiet_upd; done
  | |- quiet (rm_set_clock i _ _) => apply quiet_clock; done
  | |- quiet (rm_cancel_clock i) => apply quiet_clock; done
  | |- quiet (emit_frame _) => unfold emit_frame
  | |- quiet (set_rep_mode i _) => unfold set_rep_mode
  | |- quiet (if ?b then _ else _) => destruct b
  end; try done.

Lemma quiet_null : quiet (issue_null_reply i).
Proof using Hsta. unfold issue_null_reply. quiet_go. Qed.
Lemma quiet_packets id l : quiet (send_packets id l).
Proof using. induction l; cbn [send_packets]; quiet_go. Qed.
Lemma quiet_beacon_rep : quiet (issue_beacon_rep i).
Proof using Hsta. unfold issue_beacon_rep. quiet_go; [apply quiet_null|apply quiet_packets]. Qed.
Lemma quiet_meas_rep : quiet (issue_radio_meas_rep i).
Proof using Hsta. unfold issue_radio_meas_rep. quiet_go. Qed.
Lemma quiet_link_rep : quiet (issue_link_meas_rep i).
Proof using Hsta. unfold issue_link_meas_rep. quiet_go. Qed.
Lemma quiet_send_req : quiet (send_radio_meas_req i).
Proof using Hsta Hsafe.
  unfold send_radio_meas_req. quiet_go. destruct Hsafe as [_ [b Hb]]. eapply (quiet_lift _ b).
  destruct H as (_ & -> & _). done.
Qed.
Lemma quiet_issue_req : quiet (rm_issue_meas_req i).
Proof using Hsta Hsafe. unfold rm_issue_meas_req. quiet_go. apply quiet_send_req. Qed.
Lemma quiet_survey : quiet (survey i).
Proof using Hsta Hsafe.
  unfold survey. quiet_go. destruct Hsafe as [[x Hx] _]. eapply (quiet_lift _ x). destruct H as (_ & -> & _). done.
Qed.
Lemma quiet_retrieve : quiet (retrieve_radio_meas_result i).
Proof using Hsta. unfold retrieve_radio_meas_result. quiet_go. Qed.
Lemma quiet_idle_in : quiet (idle_state_in i).
Proof using Hsta. unfold idle_state_in. quiet_go. Qed.

(** ** Entering and leaving a state *)
Definition depth (s : RM_STATE) : nat :=
  match s with RM_ST_END | RM_ST_WAIT_MEAS => 1 | RM_ST_SEND_REPORT | RM_ST_RECV_REPORT => 2 | RM_ST_DO_MEAS => 3 | RM_ST_IDLE => 4 end.
Definition bound (s : RM_STATE) : nat := match s with RM_ST_DO_MEAS | RM_ST_IDLE => 2 | _ => 1 end.

Lemma alive_mono b b' w : (b ≤ b')%nat → alive b w → alive b' w.
Proof.
  intros Hb (o & evs & HS & Hid & [->|(ev & -> & ? & ? & ?)]); exists o; eexists; split_and!; try done; [by left|].
  right. exists ev. split_and!; done || lia.
Qed.
Lemma wp_alive {A} (m : R A) b b' w : wp m (λ _ w', alive b w') w → (b ≤ b')%nat → wp m (λ _ w', alive b' w') w.
Proof. intros H Hb. eapply rwp_mono; [exact H|]. intros a w'. by apply alive_mono. Qed.
Lemma alive_quiet {A} (m : R A) o w b : quiet m → St w0 i o [] w → same_id o0 o → wp m (λ _ w', alive b w') w.
Proof.
  intros Hm HS Hid. eapply rwp_mono; [by apply Hm|]. intros _ w' (o' & HS' & Hid' & _). exists o', []. split_and!; [done..|by left].
Qed.
Lemma alive_bind {A B} (m : R A) (k : A → R B) o w b :
  quiet m → St w0 i o [] w → same_id o0 o →
  (∀ a o' w', St w0 i o' [] w' → same_id o0 o' → o'.(st) = o.(st) → wp (k a) (λ _ w', alive b w') w') →
  wp (m ≫= k) (λ _ w', alive b w') w.
Proof.
  intros Hm HS Hid Hk. apply rwp_bind. eapply rwp_mono; [by apply Hm|]. intros a w1 (o1 & ? & ? & ?). by eapply Hk.
Qed.
Lemma alive_post ev o1 o w b :
  St w0 i o [] w → same_id o0 o → same_id o0 o1 → (rank ev < b)%nat → wp (_rm_post_event o1.(rmid) ev) (λ _ w', alive b w') w.
Proof.
  intros HS Hid (Eid & _) Hr. eapply wp_post; [done|]. intros w' evs HS' H. exists o, evs. split_and!; [done..|].
  destruct H as [->|(-> & ? & ?)]; [by left|]. right. exists ev. rewrite <- Eid. split_and!; done.
Qed.

Lemma leave_spec n o w :
  St w0 i o [] w → same_id o0 o → o.(st) ≠ RM_ST_END →
  wp (run_levels (S n) i RM_EV_state_out) (λ _ w', ∃ o', St w0 i o' [] w' ∧ same_id o0 o' ∧ o'.(st) = o.(st)) w.
Proof using Hsta Hclk.
  intros HS Hid Hne. rewrite run_levels_S. apply rwp_bind. eapply wp_get_obj; [done|].
  assert (∀ g, quiet (rm_fsm g i o.(st) RM_EV_state_out)) as H; [|by apply H].
  intros g. destruct o.(st); cbn [rm_fsm]; try done; unfold rm_state_idle, rm_state_do_meas, rm_state_wait_meas, rm_state_send_report, rm_state_recv_report; quiet_go.
Qed.
Lemma goto_spec n s o w :
  (∀ o w, St w0 i o [] w → same_id o0 o → o.(st) = s → wp (run_levels (S n) i RM_EV_state_in) (λ _ w', alive (bound s) w') w) →
  St w0 i o [] w → same_id o0 o → o.(st) ≠ RM_ST_END →
  wp (rm_state_goto (run_levels (S n)) i s) (λ _ w', alive (bound s) w') w.
Proof using Hsta Hclk.
  intros Henter HS Hid Hne. unfold rm_state_goto. apply rwp_bind. eapply wp_get_obj; [done|]. cbv beta.
  destruct (decide (st o = s)) as [_|_].
  - apply rwp_ret. exists o, []. split_and!; [done..|by left].
  - apply rwp_bind. eapply rwp_mono; [by apply leave_spec|]. intros _ w1 (o1 & HS1 & Hid1 & E1).
    apply rwp_bind. eapply wp_upd_obj; [done|]. intros w2 HS2. eapply Henter; [exact HS2|exact Hid1|done].
Qed.

(** Symbolic execution towards [alive]: [quiet] code is skipped, [Hg] is what is known
    about [goto]. *)
Ltac alive_step Hg :=
  match goal with
  | |- wp (get_obj i ≫= _) _ _ => apply rwp_bind; eapply wp_get_obj; [eassumption|]; cbv beta
  | |- wp (_ ≫= _) (λ _ w', alive _ w') _ =>
      eapply alive_bind; [first [apply quiet_null|apply quiet_survey|apply quiet_retrieve|apply quiet_idle_in|apply quiet_issue_req
        |apply quiet_beacon_rep|apply quiet_meas_rep|apply quiet_link_rep|quiet_go; fail]|eassumption|eassumption|];
      let a := fresh "a" in let o := fresh "o" in let w := fresh "w" in
      let HS := fresh "HS" in let Hi := fresh "Hid" in let E := fresh "Est" in intros a o w HS Hi E
  | |- wp (if ?b then _ else _) _ _ => destruct b
  | |- wp (_rm_post_event _ _) _ _ => eapply alive_post; [eassumption|eassumption|eassumption|cbn; lia]
  | |- wp (mret _) _ _ => eapply alive_quiet; [apply quiet_ret|eassumption|eassumption]
  | |- wp (rm_set_clock i _ _) _ _ => eapply alive_quiet; [quiet_go|eassumption|eassumption]
  | |- wp (rm_cancel_clock i) _ _ => eapply alive_quiet; [quiet_go|eassumption|eassumption]
  | |- wp (upd_obj i _) _ _ => eapply alive_quiet; [quiet_go|eassumption|eassumption]
  | |- wp _ _ _ => eapply wp_alive; [eapply Hg; [eassumption|eassumption|cbn; congruence]|cbn; lia]
  end.
Ltac alive_go Hg := repeat alive_step Hg.

Lemma enter_end n o w :
  St w0 i o [] w → same_id o0 o → o.(st) = RM_ST_END → wp (run_levels (S n) i RM_EV_state_in) (λ _ w', alive 1 w') w.
Proof using Hsta.
  intros HS Hid E. rewrite run_levels_S. alive_step I. rewrite E. cbn [rm_fsm rm_state_end]. alive_go I.
Qed.
Lemma enter_wait n o w :
  St w0 i o [] w → same_id o0 o → o.(st) = RM_ST_WAIT_MEAS → wp (run_levels (S n) i RM_EV_state_in) (λ _ w', alive 1 w') w.
Proof using Hclk.
  intros HS Hid E. rewrite run_levels_S. alive_step I. rewrite E. cbn [rm_fsm rm_state_wait_meas]. alive_go I.
Qed.
Lemma goto_end n o w :
  St w0 i o [] w → same_id o0 o → o.(st) ≠ RM_ST_END → wp (rm_state_goto (run_levels (S n)) i RM_ST_END) (λ _ w', alive 1 w') w.
Proof using Hsta Hclk. apply (goto_spec n RM_ST_END). intros. by eapply enter_end. Qed.
Lemma goto_wait n o w :
  St w0 i o [] w → same_id o0 o → o.(st) ≠ RM_ST_END → wp (rm_state_goto (run_levels (S n)) i RM_ST_WAIT_MEAS) (λ _ w', alive 1 w') w.
Proof using Hsta Hclk. apply (goto_spec n RM_ST_WAIT_MEAS). intros. by eapply enter_wait. Qed.
Lemma goto_send n o w :
  St w0 i o [] w → same_id o0 o → o.(st) ≠ RM_ST_END → wp (rm_state_goto (run_levels (S (S n))) i RM_ST_SEND_REPORT) (λ _ w', alive 1 w') w.
Proof using Hsta Hclk.
  apply (goto_spec (S n) RM_ST_SEND_REPORT). clear o w. intros o w HS Hid E. cbn [bound]. rewrite run_levels_S. alive_step I.
  rewrite E. cbn [rm_fsm rm_state_send_report]. unfold send_report_state_in. cbv zeta. alive_go (goto_end n).
Qed.
Lemma goto_recv n o w :
  St w0 i o [] w → same_id o0 o → o.(st) ≠ RM_ST_END → wp (rm_state_goto (run_levels (S (S n))) i RM_ST_RECV_REPORT) (λ _ w', alive 1 w') w.
Proof using Hsta Hclk.
  apply (goto_spec (S n) RM_ST_RECV_REPORT). clear o w. intros o w HS Hid E. cbn [bound]. rewrite run_levels_S. alive_step I.
  rewrite E. cbn [rm_fsm rm_state_recv_report]. unfold recv_report_state_in.
  alive_go (goto_end n). eapply goto_wait; [eassumption|eassumption|congruence].
Qed.
Lemma goto_do n o w :
  St w0 i o [] w → same_id o0 o → o.(st) ≠ RM_ST_END → wp (rm_state_goto (run_levels (S (S (S n)))) i RM_ST_DO_MEAS) (λ _ w', alive 2 w') w.
Proof using Hsta Hclk.
  apply (goto_spec (S (S n)) RM_ST_DO_MEAS). clear o w. intros o w HS Hid E. cbn [bound]. rewrite run_levels_S. alive_step I.
  rewrite E. cbn [rm_fsm]. unfold rm_state_do_meas, do_meas_state_in. cbv zeta. alive_go (goto_end (S n)).
  all: eapply wp_alive; [eapply goto_send; [eassumption|eassumption|congruence]|lia].
Qed.

(** The object is gone, with its place in the queue and its clock. *)
Definition freed (w : rm_world) : Prop :=
  w.(enable) = w0.(enable) ∧ w.(brk) = w0.(brk) ∧ w.(rm_queue) = filter (.≠ i) w0.(rm_queue) ∧ w.(objs) = delete i w0.(objs) ∧
  c_prm <$> w.(clock) = <[c := None]> (c_prm <$> w0.(clock)) ∧ w.(ev_queue) = w0.(ev_queue) ∧ w.(cmds) = w0.(cmds) ∧
  w.(cap_def) = w0.(cap_def).

Context (Hobj : w0.(objs) !! i = Some o0).

Lemma St_start : St w0 i o0 [] w0.
Proof using Hobj. repeat split; [by rewrite insert_id|by rewrite app_nil_r]. Qed.
Lemma same_id_refl : same_id o0 o0.
Proof using. done. Qed.

Lemma free_spec : wp (rm_free_rmobj i) (λ _ w', freed w') w0.
Proof using Hclk Hobj.
  unfold rm_free_rmobj. apply rwp_bind. eapply wp_get_obj; [apply St_start|]. rewrite Hclk.
  repeat split. cbn. by rewrite list_fmap_insert.
Qed.

(** One run of the machine: the object posts at most one event, of a lower rank than
    the one it got, or it is freed. *)
Lemma rm_state_run_spec ev :
  wp (rm_state_run i ev) (λ _ w', alive (rank ev) w' ∨ freed w') w0.
Proof using Hsta Hclk Hsafe Hobj.
  assert (∀ m : R unit, wp m (λ _ w', alive (rank ev) w') w0 → wp m (λ _ w', alive (rank ev) w' ∨ freed w') w0) as HA.
  { intros m H. eapply rwp_mono; [exact H|]. by left. }
  unfold rm_state_run. rewrite run_levels_S. apply rwp_bind. eapply wp_get_obj; [apply St_start|].
  pose proof St_start as HS. pose proof same_id_refl as Hid.
  destruct (st o0) eqn:Est; cbn [rm_fsm].
  - apply HA. unfold rm_state_idle. destruct ev; alive_go (goto_end 3).
    all: try (eapply wp_alive; [eapply (goto_do 1); [eassumption|eassumption|congruence]|cbn; lia]).
    match goal with |- context [if ?ok then RM_ST_WAIT_MEAS else _] => destruct ok end; [|alive_step (goto_end 3)].
    eapply wp_alive; [eapply (goto_wait 3); [eassumption|eassumption|congruence]|cbn; lia].
  - apply HA. unfold rm_state_do_meas, do_meas_state_in, do_meas_start, do_meas_survey_done, do_meas_busy, refuse_and_end.
    destruct ev; cbv zeta; alive_go (goto_end 3).
    all: eapply wp_alive; [eapply (goto_send 2); [eassumption|eassumption|congruence]|cbn; lia].
  - apply HA. unfold rm_state_wait_meas. destruct ev; alive_go (goto_end 3).
    eapply wp_alive; [eapply (goto_recv 2); [eassumption|eassumption|congruence]|cbn; lia].
  - apply HA. unfold rm_state_send_report, send_report_state_in. destruct ev; cbv zeta; alive_go (goto_end 3).
    eapply wp_alive; [eapply (goto_do 1); [eassumption|eassumption|congruence]|cbn; lia].
  - apply HA. unfold rm_state_recv_report, recv_report_state_in. destruct ev; alive_go (goto_end 3).
    eapply wp_alive; [eapply (goto_wait 3); [eassumption|eassumption|congruence]|cbn; lia].
  - unfold rm_state_end. destruct ev; try (eapply rwp_mono; [apply free_spec|]; by right).
    apply HA. alive_go I.
Qed.
End machine.

(** ** The invariant *)
Definition owners (w : rm_world) : list (option nat) := c_prm <$> w.(clock).
(** A measurement has a clock that is its own, a station, a request that can be served
    and an identifier that is not the one of all. *)
Definition obj_ok (w : rm_world) (i : nat) (o : rm_obj) : Prop :=
  (∃ c, o.(pclock) = Some c ∧ owners w !! c = Some (Some i)) ∧ is_Some o.(psta) ∧ req_safe o.(q) ∧ RM_IS_ID_FOR_ALL o.(rmid) = false.
Record rm_wf (w : rm_world) : Prop := {
  wf_clocks : length w.(clock) = RM_TIMER_NUM;
  wf_queue : NoDup w.(rm_queue);
  wf_queued i : i ∈ w.(rm_queue) → is_Some (w.(objs) !! i);
  wf_obj i o : w.(objs) !! i = Some o → obj_ok w i o ∧ (i < w.(brk))%nat;
  wf_owner c i : owners w !! c = Some (Some i) → ∃ o, w.(objs) !! i = Some o ∧ o.(pclock) = Some c
}.

(** What a run for the object [i] may do to the queues: the object may leave, and
    events below the rank [b] may be posted, [n] at most. *)
Definition posted (n b : nat) (w w' : rm_world) : Prop :=
  ∃ evs, w'.(ev_queue) = w.(ev_queue) ++ evs ∧ (length evs ≤ n)%nat ∧
    Forall (λ e, RM_IS_ID_FOR_ALL e.1 = false ∧ (rank e.2 < b)%nat) evs.

Section preserve.
Context (w0 : rm_world) (i : nat) (o0 : rm_obj) (Hwf : rm_wf w0) (Hobj : w0.(objs) !! i = Some o0).

Lemma wf_own : ∃ sta c, o0.(psta) = Some sta ∧ o0.(pclock) = Some c ∧ owners w0 !! c = Some (Some i).
Proof using Hwf Hobj. destruct (wf_obj w0 Hwf i o0 Hobj) as [((c & ? & ?) & [sta ?] & _) _]. by exists sta, c. Qed.

Lemma alive_wf b w : alive w0 i o0 b w → rm_wf w ∧ w.(rm_queue) = w0.(rm_queue) ∧ posted 1 b w0 w ∧ is_Some (w.(objs) !! i).
Proof using Hwf Hobj.
  intros (o & evs & (He & Hb & Hq & Ho & Hc & Hev & Hcm & Hcap) & (E1 & E2 & E3 & E4) & Hevs).
  pose proof (wf_obj w0 Hwf i o0 Hobj) as [(Hcl & Hs & Hr & Hid) Hlt].
  split; [|split; [done|split]].
  - constructor.
    + rewrite <- (wf_clocks w0 Hwf), <- (length_fmap c_prm w.(clock)), Hc. apply length_fmap.
    + rewrite Hq. apply Hwf.
    + intros j Hj. rewrite Hq in Hj. rewrite Ho. destruct (decide (j = i)) as [->|]; [rewrite lookup_insert_eq; by eauto|].
      rewrite lookup_insert_ne by done. by apply Hwf.
    + intros j oj Hj. rewrite Ho in Hj. unfold obj_ok, owners. rewrite Hb, Hc.
      destruct (decide (j = i)) as [->|].
      * rewrite lookup_insert_eq in Hj. injection Hj as <-. rewrite E1, E2, E3, E4. split; [|done]. done.
      * rewrite lookup_insert_ne in Hj by done. by apply (wf_obj w0 Hwf j oj Hj).
    + intros c j Hj. unfold owners in Hj. rewrite Hc in Hj. destruct (wf_owner w0 Hwf c j Hj) as (oj & Hoj & Hpc). rewrite Ho.
      destruct (decide (j = i)) as [->|]; [|exists oj; by rewrite lookup_insert_ne].
      exists o. rewrite lookup_insert_eq. split; [done|]. rewrite E4. congruence.
  - exists evs. split; [done|]. destruct Hevs as [->|(ev & -> & Hz & Hm & Hrk)]; (split; [cbn; lia|]); [constructor|].
    by apply Forall_singleton.
  - rewrite Ho, lookup_insert_eq. by eauto.
Qed.
Lemma freed_wf c w : o0.(pclock) = Some c → owners w0 !! c = Some (Some i) → freed w0 i c w →
  rm_wf w ∧ w.(rm_queue) = filter (.≠ i) w0.(rm_queue) ∧ w.(ev_queue) = w0.(ev_queue).
Proof using Hwf Hobj.
  intros Hpc Hown (He & Hb & Hq & Ho & Hc & Hev & Hcm & Hcap). split; [|done].
  assert (c < length (owners w0))%nat as Hlt by (by eapply lookup_lt_Some).
  constructor.
  - rewrite <- (wf_clocks w0 Hwf), <- (length_fmap c_prm w.(clock)), Hc, length_insert. apply length_fmap.
  - rewrite Hq. apply NoDup_filter, Hwf.
  - intros j Hj. rewrite Hq in Hj. apply list_elem_of_filter in Hj as [Hne Hj]. rewrite Ho, lookup_delete_ne by done. by apply Hwf.
  - intros j oj Hj. rewrite Ho in Hj. apply lookup_delete_Some in Hj as [Hne Hj].
    destruct (wf_obj w0 Hwf j oj Hj) as [((d & Hd & Hdj) & Hrest) Hlt']. rewrite Hb. split; [|done]. split; [|done].
    exists d. split; [done|]. unfold owners. rewrite Hc. rewrite list_lookup_insert_ne; [done|]. intros ->. congruence.
  - intros d j Hj. unfold owners in Hj. rewrite Hc in Hj. destruct (decide (c = d)) as [<-|Hne].
    + rewrite list_lookup_insert_eq in Hj by done. discriminate.
    + rewrite list_lookup_insert_ne in Hj by done. destruct (wf_owner w0 Hwf d j Hj) as (oj & Hoj & Hpd). exists oj.
      rewrite Ho. split; [|done]. apply lookup_delete_Some. split; [|done]. intros <-. congruence.
Qed.

Lemma run_wf ev : wp (rm_state_run i ev) (λ _ w', rm_wf w' ∧ posted 1 (rank ev) w0 w' ∧
  (w'.(rm_queue) = w0.(rm_queue) ∨ w'.(rm_queue) = filter (.≠ i) w0.(rm_queue))) w0.
Proof using Hwf Hobj.
  destruct wf_own as (sta & c & Hsta & Hpc & Hown). pose proof (wf_obj w0 Hwf i o0 Hobj) as [(_ & _ & Hr & _) _].
  eapply rwp_mono; [by eapply rm_state_run_spec|]. intros _ w' [Ha|Hf].
  - destruct (alive_wf _ _ Ha) as (? & ? & ? & _). by auto.
  - destruct (freed_wf c w' Hpc Hown Hf) as (? & ? & Hev). split_and!; [done| |by right].
    exists []. rewrite Hev, app_nil_r. split_and!; [done|cbn; lia|constructor].
Qed.
End preserve.

(** ** The handler *)
Lemma posted_trans n m b w1 w2 w3 : posted n b w1 w2 → posted m b w2 w3 → posted (n + m) b w1 w3.
Proof.
  intros (e1 & E1 & L1 & F1) (e2 & E2 & L2 & F2). exists (e1 ++ e2). rewrite E2, E1, app_assoc, length_app.
  split_and!; [done|lia|by apply Forall_app].
Qed.
Lemma posted_refl n b w : posted n b w w.
Proof. exists []. rewrite app_nil_r. split_and!; [done|cbn; lia|constructor]. Qed.

Lemma next_of_app pre suf i : NoDup (pre ++ i :: suf) → next_of i (pre ++ i :: suf) = head suf.
Proof.
  induction pre as [|j pre IH]; cbn; [by rewrite Nat.eqb_refl|]. intros [Hj Hn]%NoDup_cons.
  rewrite (proj2 (Nat.eqb_neq i j)); [by apply IH|]. intros ->. apply Hj. apply elem_of_app. right. by left.
Qed.
Lemma filter_ne_mid (pre suf : list nat) i : NoDup (pre ++ i :: suf) → filter (.≠ i) (pre ++ i :: suf) = pre ++ suf.
Proof.
  intros Hn. apply NoDup_app in Hn as (Hp & Hd & [Hi Hs]%NoDup_cons). rewrite filter_app, filter_cons_False by (intros H; by apply H).
  assert (∀ l : list nat, i ∉ l → filter (.≠ i) l = l) as F.
  { clear. induction l as [|j l IH]; intros H; [done|]. rewrite filter_cons_True; [rewrite IH; [done|]|]; set_solver. }
  rewrite !F; [done|done|]. intros H. apply (Hd i H). by left.
Qed.

Lemma bcast_wf id ev suf : ∀ pre w, rm_wf w → w.(rm_queue) = pre ++ suf →
  wp (bcast_walk (length suf) (head suf) id ev) (λ _ w', rm_wf w' ∧ posted (length suf) (rank ev) w w' ∧
    (length w'.(rm_queue) ≤ length w.(rm_queue))%nat) w.
Proof.
  induction suf as [|i suf IH]; intros pre w Hwf Hq.
  - split_and!; [done|apply posted_refl|done].
  - cbn [length head bcast_walk]. apply rwp_bind. unfold wp at 1, rm_get. cbv beta iota. rewrite Hq.
    assert (NoDup (pre ++ i :: suf)) as Hn by (rewrite <- Hq; apply Hwf). rewrite next_of_app by done.
    destruct (wf_queued w Hwf i) as [o Ho]; [rewrite Hq; set_solver|].
    apply rwp_bind. eapply wp_get_obj; [by apply St_start|]. cbv beta. apply rwp_bind.
    apply (rwp_mono _ (λ _ w', rm_wf w' ∧ posted 1 (rank ev) w w' ∧
      (w'.(rm_queue) = w.(rm_queue) ∨ w'.(rm_queue) = filter (.≠ i) w.(rm_queue)))).
    { destruct (_ =? _); [by eapply run_wf|]. apply rwp_ret. split_and!; [done|apply posted_refl|by left]. }
    intros _ w1 (Hwf1 & Hp1 & Hq1).
    assert (∃ pre1, w1.(rm_queue) = pre1 ++ suf ∧ (length w1.(rm_queue) ≤ length w.(rm_queue))%nat) as (pre1 & Hq1' & Hl).
    { destruct Hq1 as [E|E]; rewrite E, Hq; [exists (pre ++ [i]); by rewrite <- app_assoc|].
      rewrite filter_ne_mid by done. exists pre. split; [done|]. rewrite !length_app. cbn. lia. }
    eapply rwp_mono; [by eapply (IH pre1)|]. intros _ w2 (Hwf2 & Hp2 & Hl2). split_and!; [done| |rewrite Hq in Hl; lia].
    change (S (length suf)) with (1 + length suf)%nat. by eapply posted_trans.
Qed.

Lemma weight_posted n n' b evs :
  Forall (λ e : Z * RM_EV_ID, RM_IS_ID_FOR_ALL e.1 = false ∧ (rank e.2 < b)%nat) evs → (length evs ≤ n)%nat →
  (sum_list (ev_weight n' <$> evs) ≤ n * b)%nat.
Proof.
  intros H. revert n. induction H as [|e evs [Hu Hr] H IH]; intros n Hn; cbn in *; [lia|]. destruct n as [|n]; [lia|].
  specialize (IH n ltac:(lia)). unfold ev_weight at 1. rewrite Hu. cbn. lia.
Qed.
Lemma weight_mono n n' l : (n' ≤ n)%nat → (sum_list (ev_weight n' <$> l) ≤ sum_list (ev_weight n <$> l))%nat.
Proof. intros Hn. induction l as [|e l IH]; cbn; [done|]. unfold ev_weight at 1 3. case_match; nia. Qed.
Lemma sum_list_app (a b : list nat) : sum_list (a ++ b) = (sum_list a + sum_list b)%nat.
Proof. induction a as [|x a IH]; cbn; [done|]. rewrite IH. lia. Qed.
Lemma potential_posted n w b w' :
  posted n b w w' → (length w'.(rm_queue) ≤ length w.(rm_queue))%nat → (ev_potential w' ≤ ev_potential w + n * b)%nat.
Proof.
  intros (evs & E & L & F) Hl. unfold ev_potential. rewrite E, fmap_app, sum_list_app.
  pose proof (weight_posted n (length w'.(rm_queue)) b evs F L).
  pose proof (weight_mono (length w.(rm_queue)) (length w'.(rm_queue)) w.(ev_queue) Hl).
  lia.
Qed.

Lemma find_wf w id : rm_wf w → ∀ l, (∀ i, i ∈ l → i ∈ w.(rm_queue)) →
  wp (find_rmid l id) (λ r w', w' = w ∧ ∀ i, r = Some i → i ∈ l ∧ ∃ o, w.(objs) !! i = Some o ∧ o.(rmid) = id) w.
Proof.
  intros Hwf. induction l as [|i l IH]; intros Hl; [by apply rwp_ret|]. cbn [find_rmid].
  destruct (wf_queued w Hwf i) as [o Ho]; [apply Hl; by left|].
  apply rwp_bind. eapply wp_get_obj; [by apply St_start|]. cbv beta.
  destruct (Z.eqb_spec o.(rmid) id) as [E|].
  - apply rwp_ret. split; [done|]. intros j [= <-]. split; [by left|by exists o].
  - eapply rwp_mono; [apply IH; intros; apply Hl; by right|]. intros r w' [-> Hr]. split; [done|]. intros j Hj.
    destruct (Hr j Hj). split; [by right|done].
Qed.
Lemma get_rmobj_wf w id : rm_wf w →
  wp (_rm_get_rmobj id) (λ r w', w' = w ∧ ∀ i, r = Some i → i ∈ w.(rm_queue) ∧ ∃ o, w.(objs) !! i = Some o ∧ o.(rmid) = id) w.
Proof.
  intros Hwf. unfold _rm_get_rmobj. destruct (id =? 0); [by apply rwp_ret|]. apply rwp_bind. unfold wp at 1, rm_get. by apply find_wf.
Qed.
Lemma set_evq_wf w l : rm_wf w → rm_wf (set_evq l w).
Proof. intros []. by constructor. Qed.

Lemma handler_wf fuel : ∀ w, rm_wf w → (ev_potential w < fuel)%nat → wp (handler_loop fuel) (λ _ w', rm_wf w') w.
Proof.
  induction fuel as [|fuel IH]; intros w Hwf Hf; [lia|]. cbn [handler_loop]. apply rwp_bind.
  unfold rm_dequeue_ev. apply rwp_bind. unfold wp at 1, rm_get. cbv beta iota.
  destruct w.(ev_queue) as [|[id ev] l] eqn:Eq; [done|]. apply rwp_bind. unfold wp at 1, rm_modify. cbv beta iota. apply rwp_ret.
  set (w1 := set_evq l w). assert (rm_wf w1) as Hwf1 by (by apply set_evq_wf).
  assert (ev_potential w = ev_weight (length w.(rm_queue)) (id, ev) + ev_potential w1)%nat as Ep
    by (unfold ev_potential; by rewrite Eq). unfold ev_weight in Ep. cbn [fst snd] in Ep.
  destruct (RM_IS_ID_FOR_ALL id) eqn:Eall.
  - apply rwp_bind. unfold rm_bcast_aid_handler. apply rwp_bind. unfold wp at 1, rm_get. cbv beta iota.
    eapply rwp_mono; [by apply (bcast_wf id ev w1.(rm_queue) [])|]. intros _ w2 (Hwf2 & Hp & Hl). apply IH; [done|].
    pose proof (potential_posted _ _ _ _ Hp Hl). change (rm_queue w1) with w.(rm_queue) in *. lia.
  - apply rwp_bind. eapply rwp_mono; [by apply get_rmobj_wf|]. intros [i|] w2 [-> Hi]; [|done].
    destruct (Hi i eq_refl) as (Hin & o & Ho & _). apply rwp_bind. eapply rwp_mono; [by eapply (run_wf w1 i o)|].
    intros _ w2 (Hwf2 & Hp & Hq). apply IH; [done|].
    assert (length w2.(rm_queue) ≤ length w1.(rm_queue))%nat as Hl by (destruct Hq as [->| ->]; [done|apply length_filter]).
    pose proof (potential_posted _ _ _ _ Hp Hl). lia.
Qed.

(** ** Events, clocks and new objects *)
Lemma wf_ext w w' :
  rm_wf w → owners w' = owners w → w'.(rm_queue) = w.(rm_queue) → w'.(objs) = w.(objs) → w'.(brk) = w.(brk) → rm_wf w'.
Proof.
  intros [H1 H2 H3 H4 H5] Ec Eq Eo Eb. unfold owners in *. constructor; unfold obj_ok, owners; rewrite ?Ec, ?Eq, ?Eo, ?Eb; try done.
  by rewrite <- (length_fmap c_prm w'.(clock)), Ec, length_fmap.
Qed.
Lemma ask_wf w : rm_wf w → wp rm_ask (λ _ w', rm_wf w') w.
Proof. intros H. by eapply wf_ext. Qed.
Lemma post_wf id ev w :
  rm_wf w → wp (rm_post_event id ev) (λ _ w', rm_wf w' ∧ w'.(objs) = w.(objs) ∧ w'.(clock) = w.(clock) ∧ w'.(rm_queue) = w.(rm_queue)) w.
Proof.
  intros H. unfold rm_post_event. apply rwp_bind. unfold wp at 1, rm_get. destruct w.(enable); [|done].
  apply rwp_bind. unfold wp at 1, rm_ask. apply rwp_bind. destruct (alloc_ok _); split_and!; try done; by eapply wf_ext.
Qed.
Lemma post_ev_wf id ev w : rm_wf w → wp (_rm_post_event id ev) (λ _ w', rm_wf w') w.
Proof.
  intros H. unfold _rm_post_event. destruct (_ || _); [done|]. apply rwp_bind. unfold wp at 1, rm_ask.
  destruct (alloc_ok _); by eapply wf_ext.
Qed.
Lemma hdl_wf w : rm_wf w → wp rm_post_event_hdl (λ _ w', rm_wf w') w.
Proof.
  intros H. unfold rm_post_event_hdl. apply rwp_bind. unfold wp at 1, rm_get. destruct w.(cmds) as [|[id ev] l]; [done|].
  apply rwp_bind. unfold wp at 1, rm_modify. apply rwp_bind. eapply rwp_mono; [apply post_ev_wf; by eapply wf_ext|].
  intros a w1 H1. unfold rm_handler. apply rwp_bind. unfold wp at 1, rm_get. apply handler_wf; [done|lia].
Qed.

Lemma tick_wf c w : rm_wf w → wp (tick_clock c) (λ _ w', rm_wf w') w.
Proof.
  intros H. unfold tick_clock. apply rwp_bind. unfold wp at 1, rm_get.
  destruct (w.(clock) !! c) as [ck|] eqn:Ec; [|done]. destruct ck.(c_prm) as [i|] eqn:Ei; [|done].
  destruct (_ =? 0); [done|]. apply rwp_bind. unfold wp at 1, rm_modify.
  assert (∀ k, c_prm k = Some i → rm_wf (set_clocks (<[c := k]> w.(clock)) w)) as Hwf1.
  { intros k Hk. eapply wf_ext; [exact H| |done..]. unfold owners. cbn. rewrite list_fmap_insert, Hk, <- Ei.
    apply list_insert_id. by rewrite list_lookup_fmap, Ec. }
  set (w1 := set_clocks _ w). assert (rm_wf w1) as H1 by (by apply Hwf1).
  destruct (_ =? 0); [|done].
  destruct (wf_owner w H c i) as (o & Ho & _); [unfold owners; by rewrite list_lookup_fmap, Ec; cbn; rewrite Ei|].
  destruct (wf_obj w H i o Ho) as [(_ & [sta Hs] & _) _].
  assert (St w1 i o [] w1) as HS by (by apply St_start).
  apply rwp_bind. eapply (wp_padapter w1 i sta o); [done|done|]. apply rwp_bind. eapply wp_get_obj; [done|]. apply rwp_bind.
  eapply rwp_mono; [by apply post_wf|]. intros a w2 [? _]. done.
Qed.
Lemma ticks_wf l : ∀ w, rm_wf w → wp (tick_clocks l) (λ _ w', rm_wf w') w.
Proof.
  induction l as [|c l IH]; intros w H; [done|]. cbn [tick_clocks]. apply rwp_bind. eapply rwp_mono; [by apply tick_wf|].
  intros a w1 H1. by apply IH.
Qed.

(** With fewer measurements than clocks one clock is free. *)
Lemma clock_free w :
  rm_wf w → (size w.(objs) < RM_TIMER_NUM)%nat → ∃ n ck, list_find (λ c, c.(c_prm) = None) w.(clock) = Some (n, ck).
Proof.
  intros H Hs. destruct (list_find _ _) as [[n ck]|] eqn:E; [by eauto|]. exfalso. apply list_find_None in E.
  assert (∃ l, owners w = Some <$> l) as [l Hl].
  { unfold owners. clear -E. induction E as [|ck k Hk E [l Hl]]; [by exists []|]. cbn. rewrite Hl.
    destruct ck.(c_prm) as [i|] eqn:Ei; [|done]. by exists (i :: l). }
  assert (length l = RM_TIMER_NUM) as Hlen by (rewrite <- (wf_clocks w H), <- (length_fmap c_prm w.(clock)); fold (owners w); rewrite Hl; by rewrite length_fmap).
  assert (∀ c i, l !! c = Some i → ∃ o, w.(objs) !! i = Some o ∧ o.(pclock) = Some c) as Hown.
  { intros c i Hc. apply (wf_owner w H). by rewrite Hl, list_lookup_fmap, Hc. }
  assert (NoDup l) as Hn.
  { apply NoDup_alt. intros a b x Ha Hb. destruct (Hown a x Ha) as (o & Ho & Eo), (Hown b x Hb) as (o' & Ho' & Eo'). congruence. }
  assert (list_to_set l ⊆ (dom w.(objs) : gset nat)) as Hsub.
  { intros x Hx. apply elem_of_list_to_set, list_elem_of_lookup in Hx as [c Hc]. destruct (Hown c x Hc) as (o & Ho & _). by apply elem_of_dom_2 in Ho. }
  apply subseteq_size in Hsub. rewrite size_list_to_set, size_dom in Hsub by done. lia.
Qed.

(** A new object that is not filled in yet. *)
Definition fillable (i : nat) (w : rm_world) : Prop := ∃ c o, w.(objs) !! i = Some o ∧ o.(pclock) = Some c ∧ (i ∉ w.(rm_queue)) ∧
  (∀ o', o'.(pclock) = Some c → is_Some o'.(psta) → req_safe o'.(q) → RM_IS_ID_FOR_ALL o'.(rmid) = false →
    rm_wf (set_objs (<[i := o']> w.(objs)) w)).
Lemma fillable_ext i w w' :
  fillable i w → owners w' = owners w → w'.(rm_queue) = w.(rm_queue) → w'.(objs) = w.(objs) → w'.(brk) = w.(brk) → fillable i w'.
Proof.
  intros (c & o & Ho & Hc & Hi & Hf) E1 E2 E3 E4. exists c, o. rewrite E2, E3. split_and!; [done..|]. intros o' ? ? ? ?.
  eapply wf_ext; [by apply (Hf o')|done..].
Qed.
Lemma alloc_wf w : rm_wf w → (size w.(objs) < RM_TIMER_NUM)%nat →
  wp rm_alloc_rmobj (λ r w', (match r with None => rm_wf w' | Some i => fillable i w' end) ∧ w'.(asked) = S w.(asked) ∧
    w'.(answers) = w.(answers) ∧ w'.(cap_def) = w.(cap_def)) w.
Proof.
  intros H Hs. destruct (clock_free w H Hs) as (n & ck & Hn). unfold rm_alloc_rmobj. apply rwp_bind. unfold wp at 1, rm_ask.
  destruct (alloc_ok _); [|split; [by eapply wf_ext|done]]. apply rwp_bind. unfold wp at 1, rm_get. apply rwp_bind. unfold wp at 1, rm_modify.
  apply rwp_bind. unfold rm_alloc_clock. apply rwp_bind. unfold wp at 1, rm_get. cbn [clock set_brk set_objs set_asked]. rewrite Hn.
  set (i := brk _). assert (w.(objs) !! i = None) as Hfresh.
  { destruct (w.(objs) !! i) as [o|] eqn:E; [|done]. apply (wf_obj w H) in E as [_ E]. cbn in E. lia. }
  apply rwp_bind. unfold wp at 1, rm_modify. apply rwp_ret. apply rwp_bind. unfold upd_obj, get_obj. unfold wp at 1, mbind, R_bind, rm_get.
  cbn [objs set_brk set_objs set_asked set_clocks]. rewrite lookup_insert_eq. unfold mret, R_ret, rm_modify. cbn [objs set_brk set_objs set_asked set_clocks].
  unfold wp. split; [|done]. rewrite insert_insert_eq.
  apply list_find_Some in Hn as (Hck & Hnone & _). assert (n < length w.(clock))%nat as Hlt by (by eapply lookup_lt_Some).
  assert (i ∉ w.(rm_queue)) as Hq by (intros Hi; apply (wf_queued w H) in Hi as [o Hi]; cbn in *; congruence).
  exists n, (set_pclock (Some n) no_obj). cbn [objs set_objs set_brk set_clocks]. rewrite lookup_insert_eq. split_and!; [done..|].
  intros o' Hpc Hsta Hsafe Hid. rewrite insert_insert_eq. constructor; cbn [rm_queue objs brk clock set_objs set_brk set_clocks].
  - rewrite length_insert. apply H.
  - apply H.
  - intros j Hj. rewrite lookup_insert_ne by (intros ->; done). by apply H.
  - intros j oj. unfold obj_ok, owners. cbn [clock set_objs set_brk set_clocks set_asked]. rewrite list_fmap_insert. cbn.
    destruct (decide (j = i)) as [->|Hne].
    + rewrite lookup_insert_eq. intros [= <-]. split; [|exact (Nat.lt_succ_diag_r _)]. split_and!; [|done..]. exists n.
      rewrite list_lookup_insert_eq by (by rewrite length_fmap). done.
    + rewrite lookup_insert_ne by done. intros Hj. destruct (wf_obj w H j oj Hj) as [((c & Hc & Hcj) & Hr) Hb]. split; [|cbn in *; lia].
      split; [|done]. exists c. split; [done|]. rewrite list_lookup_insert_ne; [done|]. intros ->.
      unfold owners in Hcj. rewrite list_lookup_fmap, Hck in Hcj. cbn in Hcj. congruence.
  - intros c j. unfold owners. cbn [clock set_objs set_brk set_clocks set_asked]. rewrite list_fmap_insert. cbn.
    destruct (decide (n = c)) as [<-|Hne].
    + rewrite list_lookup_insert_eq by (by rewrite length_fmap). intros [= <-]. exists o'. by rewrite lookup_insert_eq.
    + rewrite list_lookup_insert_ne by done. intros Hj. destruct (wf_owner w H c j Hj) as (oj & Hoj & Hpj). exists oj.
      rewrite lookup_insert_ne; [done|]. intros E. assert (w.(objs) !! j = None) by (rewrite <- E; exact Hfresh). congruence.
Qed.

Lemma enqueue_wf i b w o : rm_wf w → w.(objs) !! i = Some o → (i ∉ w.(rm_queue)) → wp (rm_enqueue_rmobj i b) (λ _ w', rm_wf w') w.
Proof.
  intros H Ho Hi. unfold rm_enqueue_rmobj. apply rwp_bind. unfold wp at 1, rm_modify. set (w1 := set_rmq _ w).
  assert (rm_wf w1) as H1.
  { destruct H as [A1 A2 A3 A4 A5]. constructor; try done; cbn.
    - destruct b; [by constructor|]. apply NoDup_app. split_and!; [done| |apply NoDup_singleton]. intros x Hx Hx'. set_solver.
    - intros j Hj. assert (j = i ∨ j ∈ w.(rm_queue)) as [->|Hj'] by (destruct b; set_solver); [by eauto|by apply A3]. }
  destruct (wf_own w1 i o H1 Ho) as (sta & c & Hsta & Hc & _).
  apply rwp_bind. eapply wp_upd_obj; [by apply St_start|]. intros w2 HS2.
  assert (rm_wf w2) as H2.
  { eapply alive_wf; [exact H1|exact Ho|]. exists (set_st RM_ST_IDLE o), []. split_and!; [exact HS2|done|by left]. Unshelve. exact 0%nat. }
  apply rwp_bind. eapply (wp_padapter w1 i sta); [|exact HS2|]; [exact Hsta|]. apply rwp_bind. eapply wp_get_obj; [exact HS2|].
  apply rwp_bind. eapply rwp_mono; [by apply post_wf|]. intros a w3 [? _]. done.
Qed.
Lemma fill_wf i w aid rq id mode io :
  fillable i w → req_safe rq → RM_IS_ID_FOR_ALL id = false →
  wp (upd_obj i (fill_obj aid rq id mode io)) (λ _ w', rm_wf w' ∧ is_Some (w'.(objs) !! i) ∧ (i ∉ w'.(rm_queue))) w.
Proof.
  intros (c & o & Ho & Hc & Hi & Hf) Hs Hid. unfold upd_obj. apply rwp_bind. eapply wp_get_obj; [by apply St_start|].
  split_and!; [by apply Hf; cbn; eauto|cbn; rewrite lookup_insert_eq; by eauto|done].
Qed.
Lemma fill_enqueue_wf {A} i w aid rq id mode io (r : A) :
  fillable i w → req_safe rq → RM_IS_ID_FOR_ALL id = false →
  wp (upd_obj i (fill_obj aid rq id mode io);; rm_enqueue_rmobj i false;; mret r) (λ _ w', rm_wf w') w.
Proof.
  intros Hf Hs Hid. apply rwp_bind. eapply rwp_mono; [by apply fill_wf|]. intros a w1 (H1 & [o Ho] & Hi).
  apply rwp_bind. eapply rwp_mono; [by eapply enqueue_wf|]. intros b w2 H2. exact H2.
Qed.

Lemma rmid_not_all aid dt role : role = RM_MASTER ∨ role = RM_SLAVE → RM_IS_ID_FOR_ALL (rm_gen_rmid aid dt role) = false.
Proof.
  intros Hr. unfold RM_IS_ID_FOR_ALL, rm_gen_rmid. destruct aid as [aid|]; [|done]. destruct (dt =? 0); [done|].
  change RM_ALL_MEAS with (2 ^ 1). rewrite land_bit_eqb, negb_involutive by lia. unfold u32.
  rewrite Z.land_spec, !Z.lor_spec, !Z.shiftl_spec by lia. rewrite !Z.testbit_neg_r by lia. by destruct Hr as [-> | ->].
Qed.
Lemma upd_p_wf i o f w : rm_wf w → w.(objs) !! i = Some o →
  wp (upd_obj i (upd_p f)) (λ _ w', rm_wf w' ∧ is_Some (w'.(objs) !! i)) w.
Proof.
  intros H Ho. eapply rwp_mono; [eapply (alive_quiet w i o); [by apply quiet_upd|by apply St_start|done]|].
  intros a w' Ha. destruct (alive_wf w i o H Ho 0 w' Ha) as (? & _ & _ & ?). done.
Qed.

(** ** Steps *)
(** What happens to the component: the timer fires, the command thread takes a
    command, a frame arrives from a station, this side starts a measurement (a beacon
    request with reports of channels, or another request), another
    part of the driver posts an event (a survey is done, a station leaves), the
    component is shut down. *)
Inductive rm_input :=
  | I_timer | I_cmd | I_action (aid : Z) (body : list Z) | I_request (aid : Z) (f : rm_meas_req → rm_meas_req) (ioctl : bool)
  | I_bcn_reqs (psta : option Z) (opc ch dur mode : Z) (bssid ssid : option (list Z)) (detail : Z)
      (n : nat) (rpt : list RT_OPERATING_CLASS) (ids : list Z)
  | I_post (id : Z) (ev : RM_EV_ID) | I_deinit.
Definition rm_exec (x : rm_input) : R unit :=
  match x with
  | I_timer => rm_timer_callback
  | I_cmd => rm_post_event_hdl
  | I_action aid body => rm_on_action aid body;; mret tt
  | I_request aid f ioctl => rm_add_req aid f ioctl;; mret tt
  | I_bcn_reqs psta opc ch dur mode bssid ssid detail n rpt ids =>
      rm_send_bcn_reqs psta opc ch dur mode bssid ssid detail n rpt ids;; mret tt
  | I_post id ev => rm_post_event id ev;; mret tt
  | I_deinit => rtw_deinit_rm
  end.
(** A new measurement finds a clock; a request that arrives is parsed inside the frame
    and can be served, one of this side can be sent; the reports of a beacon request
    can be copied: the memory is there, and each has [Len] entries of the array from
    itself on, one at least. *)
Definition input_ok (w : rm_world) (x : rm_input) : Prop :=
  match x with
  | I_action aid body =>
      (8 ≤ length body)%nat ∧
      (body !! 1%nat = Some RM_ACT_RADIO_MEAS_REQ ∨ body !! 1%nat = Some RM_ACT_LINK_MEAS_REQ → (size w.(objs) < RM_TIMER_NUM)%nat) ∧
      (body !! 1%nat = Some RM_ACT_RADIO_MEAS_REQ → ∃ rq mode queued,
        read_radio_meas_req (λ _, (w.(answers) (S w.(asked))).(alloc_ok)) w.(cap_def) body = Ret (rq, mode, queued) ∧ req_safe rq)
  | I_request aid f _ => (size w.(objs) < RM_TIMER_NUM)%nat ∧ ∀ dt mt, req_safe (f (set_head 0 0 mt 0 0 dt no_req))
  | I_bcn_reqs psta opc ch dur mode bssid ssid detail n rpt ids =>
      (size w.(objs) < RM_TIMER_NUM)%nat ∧ (n ≤ length rpt)%nat ∧
      (∀ i op, (i < n)%nat → rpt !! i = Some op → 1 ≤ op.(Len) ∧ Z.of_nat i + op.(Len) ≤ Z.of_nat (length rpt)) ∧
      (∀ k, (1 ≤ k ≤ n)%nat → (w.(answers) (w.(asked) + k)%nat).(alloc_ok) = true) ∧
      ∀ dt mt, req_safe (bcn_request opc ch dur mode bssid ssid detail (take n rpt) ids (set_head 0 0 mt 0 0 dt no_req))
  | _ => True
  end.

Lemma mem_byte_lt (l : list Z) k : (k < length l)%nat → ∃ x, mem_byte l (Z.of_nat k) = Ret x ∧ l !! k = Some x.
Proof. intros H. destruct (lookup_lt_is_Some_2 l k H) as [x Hx]. exists x. split; [by apply mem_byte_at|done]. Qed.

Lemma recv_req_wf aid body w : rm_wf w → input_ok w (I_action aid body) → body !! 1%nat = Some RM_ACT_RADIO_MEAS_REQ →
  wp (rm_recv_radio_mens_req aid body) (λ _ w', rm_wf w') w.
Proof.
  intros H (_ & Hsz & Hp) E. destruct (Hp E) as (rq & mode & qd & Hread & Hsafe). unfold rm_recv_radio_mens_req. apply rwp_bind.
  eapply rwp_mono; [apply alloc_wf; [done|by apply Hsz; left]|]. intros [i|] w1 (H1 & Ea & Ean & Ec); [|exact H1].
  apply rwp_bind. unfold wp at 1, rm_get. apply rwp_bind. unfold wp at 1, rm_ask. rewrite Ea, Ean. apply rwp_bind.
  eapply rwp_lift; [rewrite Ec; exact Hread|]. set (w2 := set_asked _ w1). assert (fillable i w2) as H2 by (by eapply fillable_ext).
  destruct qd.
  - apply (fill_enqueue_wf i w2 aid rq _ mode false true); [done|done|]. apply rmid_not_all. by right.
  - apply rwp_bind. eapply rwp_mono; [apply (fill_wf i w2 aid rq _ mode false); [done|done|apply rmid_not_all; by right]|].
    intros a w3 (H3 & _). exact H3.
Qed.
Lemma recv_link_req_wf aid body w : rm_wf w → input_ok w (I_action aid body) → body !! 1%nat = Some RM_ACT_LINK_MEAS_REQ →
  wp (rm_recv_link_mens_req aid body) (λ _ w', rm_wf w') w.
Proof.
  intros H (Hlen & Hsz & _) E. unfold rm_recv_link_mens_req. apply rwp_bind.
  eapply rwp_mono; [apply alloc_wf; [done|by apply Hsz; right]|]. intros [i|] w1 (H1 & _); [|exact H1].
  destruct (mem_byte_lt body 1) as (ac & Eac & _); [lia|]. destruct (mem_byte_lt body 2) as (dt & Edt & _); [lia|].
  apply rwp_bind. eapply rwp_lift; [exact Eac|]. apply rwp_bind. eapply rwp_lift; [exact Edt|].
  apply rwp_bind. eapply rwp_lift; [apply mem_read_ok; lia|]. apply fill_enqueue_wf; [done|split; by eexists|apply rmid_not_all; by right].
Qed.
Lemma recv_rep_wf aid body w : rm_wf w → (8 ≤ length body)%nat → wp (rm_recv_radio_mens_rep aid body) (λ _ w', rm_wf w') w.
Proof.
  intros H Hlen. unfold rm_recv_radio_mens_rep.
  destruct (mem_byte_lt body 1) as (ac & Eac & _); [lia|]. destruct (mem_byte_lt body 2) as (dt & Edt & _); [lia|].
  destruct (mem_byte_lt body 3) as (e & Ee & _); [lia|]. destruct (mem_byte_lt body 5) as (tk & Etk & _); [lia|].
  destruct (mem_byte_lt body 6) as (mo & Emo & _); [lia|]. destruct (mem_byte_lt body 7) as (ty & Ety & _); [lia|].
  apply rwp_bind. eapply rwp_lift; [exact Edt|]. apply rwp_bind. eapply rwp_mono; [by apply get_rmobj_wf|]. intros [i|] w1 [-> Hi]; [|exact H].
  destruct (Hi i eq_refl) as (_ & o & Ho & _). do 5 (apply rwp_bind; eapply rwp_lift; [eassumption|]). apply rwp_bind.
  eapply rwp_mono; [by eapply upd_p_wf|]. intros a w1 (H1 & [o1 Ho1]). destruct (negb _); [exact H1|].
  apply rwp_bind. eapply wp_get_obj; [by apply St_start|]. apply rwp_bind. eapply rwp_mono; [by apply post_wf|]. intros b w2 [? _]. done.
Qed.
Lemma recv_other_wf nb aid body w : rm_wf w → (8 ≤ length body)%nat → wp (rm_recv_other_rep nb aid body) (λ _ w', rm_wf w') w.
Proof.
  intros H Hlen. unfold rm_recv_other_rep.
  destruct (mem_byte_lt body 1) as (ac & Eac & _); [lia|]. destruct (mem_byte_lt body 2) as (dt & Edt & _); [lia|].
  destruct (mem_byte_lt body 3) as (e & Ee & _); [lia|].
  apply rwp_bind. eapply rwp_lift; [exact Edt|]. apply rwp_bind. eapply rwp_mono; [by apply get_rmobj_wf|]. intros [i|] w1 [-> Hi]; [|exact H].
  destruct (Hi i eq_refl) as (_ & o & Ho & _). apply rwp_bind. eapply rwp_lift; [eassumption|]. apply rwp_bind.
  eapply rwp_mono; [by eapply upd_p_wf|]. intros a w1 (H1 & [o1 Ho1]). apply rwp_bind.
  apply (rwp_mono _ (λ _ w', rm_wf w' ∧ is_Some (w'.(objs) !! i))).
  { destruct nb; [|by apply rwp_ret; eauto]. apply rwp_bind. eapply rwp_lift; [exact Ee|]. by eapply upd_p_wf. }
  intros b w2 (H2 & [o2 Ho2]). apply rwp_bind. eapply wp_get_obj; [by apply St_start|]. apply rwp_bind.
  eapply rwp_mono; [by apply post_wf|]. intros b' w3 [? _]. done.
Qed.
Lemma on_action_wf aid body w : rm_wf w → input_ok w (I_action aid body) → wp (rm_on_action aid body) (λ _ w', rm_wf w') w.
Proof.
  intros H Hok. pose proof Hok as (Hlen & _). unfold rm_on_action.
  destruct (mem_byte_lt body 1) as (ac & Eac & Lac); [lia|]. destruct (mem_byte_lt body 2) as (dt & Edt & _); [lia|].
  apply rwp_bind. eapply rwp_lift; [exact Eac|]. apply rwp_bind. eapply rwp_lift; [exact Edt|].
  destruct (Z.eqb_spec ac RM_ACT_RADIO_MEAS_REQ) as [->|]; [by apply recv_req_wf|].
  destruct (_ =? RM_ACT_RADIO_MEAS_REP); [by apply recv_rep_wf|].
  destruct (Z.eqb_spec ac RM_ACT_LINK_MEAS_REQ) as [->|]; [by apply recv_link_req_wf|].
  destruct (_ =? RM_ACT_LINK_MEAS_REP); [by apply recv_other_wf|]. destruct (_ =? _); [by apply recv_other_wf|done].
Qed.
Lemma add_req_wf aid f io w : rm_wf w → input_ok w (I_request aid f io) → wp (rm_add_req aid f io) (λ _ w', rm_wf w') w.
Proof.
  intros H (Hsz & Hf). unfold rm_add_req. apply rwp_bind. eapply rwp_mono; [by apply alloc_wf|]. intros [i|] w1 (H1 & _); [|exact H1].
  apply rwp_bind. unfold wp at 1, rm_get. apply rwp_bind. unfold wp at 1, rm_modify.
  apply fill_enqueue_wf; [by eapply fillable_ext|apply Hf|apply rmid_not_all; by left].
Qed.

Lemma copy_reports_ok rpt n : ∀ i w, (i + n ≤ length rpt)%nat →
  (∀ j op, (i ≤ j < i + n)%nat → rpt !! j = Some op → 1 ≤ op.(Len) ∧ Z.of_nat j + op.(Len) ≤ Z.of_nat (length rpt)) →
  (∀ k, (k < n)%nat → (w.(answers) (w.(asked) + k)%nat).(alloc_ok) = true) →
  copy_reports rpt i n w = Ret (take n (drop i rpt), set_asked (w.(asked) + n)%nat w).
Proof.
  induction n as [|n IH]; intros i w Hn Hl Ha; [cbn; rewrite Nat.add_0_r; by destruct w|].
  destruct (lookup_lt_is_Some_2 rpt i) as [op Hop]; [lia|]. cbn [copy_reports]. rewrite Hop.
  destruct (Hl i op ltac:(lia) Hop) as [L1 L2]. unfold mbind, R_bind, rm_ask.
  specialize (Ha 0%nat ltac:(lia)) as A0. rewrite Nat.add_0_r in A0. rewrite A0, (proj2 (Z.leb_le _ _) L1), (proj2 (Z.leb_le _ _) L2). cbn [andb].
  rewrite (IH (S i) (set_asked (S w.(asked)) w)); [|lia|intros j op' Hj; apply Hl; lia|].
  - rewrite (drop_S _ _ _ Hop). cbn [take set_asked asked]. by replace (S (asked w) + n)%nat with (asked w + S n)%nat by lia.
  - intros k Hk. cbn [set_asked answers asked]. replace (S (asked w) + k)%nat with (asked w + S k)%nat by lia. apply Ha. lia.
Qed.
Lemma bcn_reqs_wf psta opc ch dur mode bssid ssid detail n rpt ids w :
  rm_wf w → input_ok w (I_bcn_reqs psta opc ch dur mode bssid ssid detail n rpt ids) →
  wp (rm_send_bcn_reqs psta opc ch dur mode bssid ssid detail n rpt ids) (λ _ w', rm_wf w') w.
Proof.
  intros H (Hsz & Hn & Hl & Ha & Hf). unfold rm_send_bcn_reqs. destruct (_ <? n)%nat; [done|]. destruct psta as [aid|]; [|done].
  apply rwp_bind. eapply rwp_mono; [by apply alloc_wf|]. intros [i|] w1 (H1 & Ea & Ean & _); [|exact H1].
  apply rwp_bind. unfold wp at 1, rm_get. apply rwp_bind. unfold wp at 1, rm_modify. set (w2 := set_tokens _ _ w1). apply rwp_bind.
  unfold wp at 1. rewrite (copy_reports_ok rpt n 0 w2); [|lia|intros j op Hj; apply Hl; lia|].
  - rewrite drop_0. apply fill_enqueue_wf; [by eapply fillable_ext|apply Hf|apply rmid_not_all; by left].
  - intros k Hk. change (answers w2) with (answers w1). change (asked w2) with (asked w1). rewrite Ea, Ean.
    replace (S (asked w) + k)%nat with (asked w + S k)%nat by lia. apply Ha. lia.
Qed.

(** ** Shutting down *)
Section cancel.
Context (w0 : rm_world) (i : nat) (o0 : rm_obj) (Hwf : rm_wf w0) (Hobj : w0.(objs) !! i = Some o0).

Definition ended (w : rm_world) : Prop := ∃ o evs, St w0 i o evs w ∧ same_id o0 o ∧ evs_ok o0 1 evs ∧ o.(st) = RM_ST_END.
Lemma goto_end_ended n o w : St w0 i o [] w → same_id o0 o → o.(st) ≠ RM_ST_END →
  wp (rm_state_goto (run_levels (S n)) i RM_ST_END) (λ _ w', ended w') w.
Proof using Hwf Hobj.
  destruct (wf_own w0 i o0 Hwf Hobj) as (sta & c & Hsta & Hc & _).
  intros HS Hid Hne. unfold rm_state_goto. apply rwp_bind. eapply wp_get_obj; [done|]. cbv beta. rewrite decide_False by done.
  apply rwp_bind. eapply rwp_mono; [by eapply leave_spec|]. intros a w1 (o1 & HS1 & Hid1 & E1).
  apply rwp_bind. eapply wp_upd_obj; [done|]. intros w2 HS2. rewrite run_levels_S. apply rwp_bind. eapply wp_get_obj; [done|].
  cbn [st set_st rm_fsm rm_state_end]. apply rwp_bind. eapply (wp_padapter w0 i sta); [|exact HS2|].
  { destruct Hid1 as (_ & _ & E & _). change (psta o1 = Some sta). congruence. }
  apply rwp_bind. eapply wp_get_obj; [done|]. eapply wp_post; [exact HS2|]. intros w3 evs HS3 Hev. exists (set_st RM_ST_END o1), evs.
  split_and!; [done|done| |done]. destruct Hid1 as (Er & _). destruct Hev as [->|(-> & ? & ?)]; [by left|]. right. exists RM_EV_state_out.
  cbn [rmid set_st] in *. rewrite Er in *. split_and!; done || (cbn; lia).
Qed.
Lemma ended_bind {A} (m : R A) n o w : quiet w0 i o0 m → St w0 i o [] w → same_id o0 o → o.(st) ≠ RM_ST_END →
  wp (m;; rm_state_goto (run_levels (S n)) i RM_ST_END) (λ _ w', ended w') w.
Proof using Hwf Hobj.
  intros Hm HS Hid Hne. apply rwp_bind. eapply rwp_mono; [by apply Hm|]. intros a w1 (o1 & ? & ? & E).
  eapply goto_end_ended; [done|done|congruence].
Qed.
(** A cancelled measurement ends; one that has ended is freed. *)
Lemma cancel_spec : wp (rm_state_run i RM_EV_cancel)
  (λ _ w', if decide (o0.(st) = RM_ST_END) then ∃ c, o0.(pclock) = Some c ∧ freed w0 i c w' else ended w') w0.
Proof using Hwf Hobj.
  destruct (wf_own w0 i o0 Hwf Hobj) as (sta & c & Hsta & Hc & _).
  unfold rm_state_run. rewrite run_levels_S. apply rwp_bind. eapply wp_get_obj; [by apply St_start|].
  assert (St w0 i o0 [] w0) as HS by (by apply St_start).
  destruct (decide _) as [E|E]; [|destruct (st o0) eqn:Es; cbn [rm_fsm]; try done].
  - rewrite E. cbn [rm_fsm rm_state_end]. eapply rwp_mono; [by eapply free_spec|]. intros a w' Hf. by exists c.
  - unfold rm_state_idle. apply rwp_bind. eapply (wp_padapter w0 i sta); [done|done|].
    eapply ended_bind; [by apply quiet_upd|done|done|congruence].
  - unfold rm_state_do_meas, refuse_and_end. apply rwp_bind. eapply (wp_padapter w0 i sta); [done|done|].
    apply rwp_bind. eapply rwp_mono; [by eapply (quiet_upd w0 i o0)|]. intros a w1 (o1 & HS1 & Hid1 & E1).
    eapply ended_bind; [by eapply quiet_null|done|done|congruence].
  - eapply goto_end_ended; [done|done|congruence].
  - eapply goto_end_ended; [done|done|congruence].
  - eapply goto_end_ended; [done|done|congruence].
Qed.
End cancel.

(** Twice the measurements that are running, once those that have ended. *)
Definition cancel_cost (w : rm_world) (i : nat) : nat :=
  match w.(objs) !! i with Some o => if decide (o.(st) = RM_ST_END) then 1 else 2 | None => 2 end.
Definition cancels (w : rm_world) : nat := sum_list (cancel_cost w <$> w.(rm_queue)).
Lemma cost_ext w w' (l : list nat) : (∀ j, j ∈ l → w'.(objs) !! j = w.(objs) !! j) → cancel_cost w' <$> l = cancel_cost w <$> l.
Proof. intros H. apply list_fmap_ext. intros k j Hj. unfold cancel_cost. by rewrite H by (by eapply list_elem_of_lookup_2). Qed.

Lemma cancel_all_wf fuel : ∀ w, rm_wf w → (cancels w ≤ fuel)%nat →
  wp (cancel_all fuel) (λ _ w', rm_wf w' ∧ w'.(rm_queue) = [] ∧
    ∀ i o, w'.(objs) !! i = Some o ↔ w.(objs) !! i = Some o ∧ (i ∉ w.(rm_queue))) w.
Proof.
  induction fuel as [|fuel IH]; intros w Hwf Hf.
  - cbn [cancel_all]. apply rwp_bind. unfold wp at 1, rm_get. destruct w.(rm_queue) as [|i l] eqn:Eq.
    + split_and!; [done|done|]. intros i o. split; [|by intros [? _]]. intros Ho. split; [done|apply not_elem_of_nil].
    + unfold cancels in Hf. rewrite Eq in Hf. cbn in Hf. unfold cancel_cost in Hf at 1. repeat case_match; lia.
  - cbn [cancel_all]. apply rwp_bind. unfold wp at 1, rm_get. destruct w.(rm_queue) as [|i l] eqn:Eq.
    { split_and!; [done|done|]. intros i o. split; [|by intros [? _]]. intros Ho. split; [done|apply not_elem_of_nil]. }
    destruct (wf_queued w Hwf i) as [o Ho]; [rewrite Eq; by left|].
    pose proof (wf_queue w Hwf) as Hn. rewrite Eq in Hn. apply NoDup_cons in Hn as [Hi Hn].
    assert (cancels w = cancel_cost w i + sum_list (cancel_cost w <$> l))%nat as Ec by (unfold cancels; by rewrite Eq).
    unfold cancel_cost at 1 in Ec. rewrite Ho in Ec. apply rwp_bind.
    eapply rwp_mono; [by eapply cancel_spec|]. intros a w1 Hc. cbv beta in Hc. destruct (decide _) as [E|E].
    + destruct Hc as (c & Hpc & Hfr). destruct (wf_own w i o Hwf Ho) as (_ & c' & _ & Hpc' & Hown). replace c' with c in * by congruence.
      destruct (freed_wf w i o Hwf Ho c w1 Hpc Hown Hfr) as (Hwf1 & Hq1 & _). pose proof Hfr as (_ & _ & _ & Ho1 & _).
      assert (w1.(rm_queue) = l) as Hq1' by (rewrite Hq1, Eq; apply (filter_ne_mid [] l i); by constructor).
      eapply rwp_mono; [apply IH; [done|]|].
      * unfold cancels. rewrite Hq1', (cost_ext w); [lia|]. intros j Hj. rewrite Ho1. apply lookup_delete_ne. by intros ->.
      * intros b w2 (? & ? & Hobj). split_and!; [done|done|]. intros j oj. rewrite Hobj, Hq1', Ho1, lookup_delete_Some, not_elem_of_cons.
        clear. split; intros; naive_solver.
    + pose proof Hc as (o1 & evs & (_ & _ & Hq1 & Ho1 & _) & _ & _ & Eend).
      assert (alive w i o 1 w1) as Hal by (destruct Hc as (o2 & e2 & ? & ? & ? & _); by exists o2, e2).
      destruct (alive_wf w i o Hwf Ho 1 w1 Hal) as (Hwf1 & _).
      eapply rwp_mono; [apply IH; [done|]|].
      * unfold cancels. rewrite Hq1, Eq. cbn. rewrite (cost_ext w).
        2:{ intros j Hj. rewrite Ho1. apply lookup_insert_ne. by intros ->. }
        unfold cancel_cost at 1. rewrite Ho1, lookup_insert_eq, decide_True by done. lia.
      * intros b w2 (? & ? & Hobj). split_and!; [done|done|]. intros j oj. rewrite Hobj, Hq1, Eq, Ho1.
        destruct (decide (j = i)) as [->|]; [|by rewrite lookup_insert_ne].
        split; intros [_ Hx]; destruct Hx; by left.
Qed.
Lemma cancels_le w : (cancels w ≤ 2 * length w.(rm_queue))%nat.
Proof. unfold cancels. induction w.(rm_queue) as [|i l IH]; cbn; [done|]. unfold cancel_cost at 1. repeat case_match; lia. Qed.
Lemma deinit_wf w : rm_wf w → wp rtw_deinit_rm (λ _ w', rm_wf w' ∧ w'.(rm_queue) = [] ∧
    ∀ i o, w'.(objs) !! i = Some o ↔ w.(objs) !! i = Some o ∧ (i ∉ w.(rm_queue))) w.
Proof.
  intros H. unfold rtw_deinit_rm. apply rwp_bind. unfold wp at 1, rm_modify. apply rwp_bind. unfold wp at 1, rm_modify.
  apply rwp_bind. unfold wp at 1, rm_get. set (w1 := set_evq _ _). apply (cancel_all_wf _ w1); [by eapply wf_ext|]. apply cancels_le.
Qed.

(** ** Theorems *)
Fixpoint rm_run (l : list rm_input) : R unit :=
  match l with [] => mret tt | x :: l => rm_exec x;; rm_run l end.
Fixpoint inputs_ok (w : rm_world) (l : list rm_input) : Prop :=
  match l with
  | [] => True
  | x :: l => input_ok w x ∧ ∀ w', rm_exec x w = Ret (tt, w') → inputs_ok w' l
  end.

Lemma init_wf ans cap : rm_wf (rtw_init_rm ans cap).
Proof.
  constructor.
  - apply length_replicate.
  - apply NoDup_nil_2.
  - intros i Hi. by apply not_elem_of_nil in Hi.
  - intros i o Ho. cbn in Ho. by rewrite lookup_empty in Ho.
  - intros c i. unfold owners. change (clock _) with (replicate RM_TIMER_NUM free_clock). rewrite fmap_replicate.
    intros [H _]%lookup_replicate. done.
Qed.
Lemma exec_wf w x : rm_wf w → input_ok w x → wp (rm_exec x) (λ _ w', rm_wf w') w.
Proof.
  intros H Hx. destruct x as [| |aid body|aid f io|psta opc ch dur mode bssid ssid detail n rpt ids|id ev|]; cbn [rm_exec].
  - by apply ticks_wf.
  - by apply hdl_wf.
  - apply rwp_bind. eapply rwp_mono; [by apply on_action_wf|]. done.
  - apply rwp_bind. eapply rwp_mono; [by apply add_req_wf|]. done.
  - apply rwp_bind. eapply rwp_mono; [by apply bcn_reqs_wf|]. done.
  - apply rwp_bind. eapply rwp_mono; [by apply post_wf|]. intros b w' [? _]. done.
  - eapply rwp_mono; [by apply deinit_wf|]. intros b w' [? _]. done.
Qed.
Lemma run_inputs_wf l : ∀ w, rm_wf w → inputs_ok w l → ∃ w', rm_run l w = Ret (tt, w') ∧ rm_wf w'.
Proof.
  induction l as [|x l IH]; intros w H Hl; [by exists w|]. destruct Hl as [Hx Hl]. pose proof (exec_wf w x H Hx) as Hw.
  cbn [rm_run]. unfold mbind, R_bind. unfold wp in Hw. destruct (rm_exec x w) as [[[] w1]| |]; [|done..]. apply IH; [done|by apply Hl].
Qed.

(** C8: the radio measurement state machine uses no freed memory and always
    terminates: after any sequence of timer ticks, commands, frames, beacon and other
    requests, events from the rest of the driver and a shutdown, every operation has
    returned, and every measurement has one clock that points back to it and to which
    no other one points.  The inputs are those of [input_ok]: a new measurement is
    started only while fewer than [RM_TIMER_NUM] exist, an action frame has at least
    eight bytes, a request received can be parsed and served inside its buffers, one
    of this side can be built inside its own, and the reports of a beacon request can
    be copied: their memory is there and each has [Len] entries of the caller's array
    from itself on, one at least, which the driver's own [verify_bcn_req] does not
    observe ([verify_bcn_req_overreads]). *)
Theorem rm_memory_safe ans cap l :
  inputs_ok (rtw_init_rm ans cap) l →
  ∃ w, rm_run l (rtw_init_rm ans cap) = Ret (tt, w) ∧ NoDup w.(rm_queue) ∧
    (∀ i, i ∈ w.(rm_queue) → is_Some (w.(objs) !! i)) ∧
    (∀ i o, w.(objs) !! i = Some o → ∃ c ck, o.(pclock) = Some c ∧ w.(clock) !! c = Some ck ∧ ck.(c_prm) = Some i) ∧
    (∀ c ck i, w.(clock) !! c = Some ck → ck.(c_prm) = Some i → ∃ o, w.(objs) !! i = Some o ∧ o.(pclock) = Some c).
Proof.
  intros H. destruct (run_inputs_wf l _ (init_wf ans cap) H) as (w & E & [A1 A2 A3 A4 A5]). exists w. split_and!; [done..| |].
  - intros i o Ho. destruct (A4 i o Ho) as [((c & Hc & Hown) & _) _]. unfold owners in Hown. rewrite list_lookup_fmap in Hown.
    destruct (w.(clock) !! c) as [ck|] eqn:Ek; [|done]. exists c, ck. by injection Hown.
  - intros c ck i Hc Hi. apply A5. unfold owners. by rewrite list_lookup_fmap, Hc, <- Hi.
Qed.

Definition demo_answers : nat → answer := λ _,
  {| alloc_ok := true; ready := true; cur_channel := 6; tsf := 5; clm_ratio := 10; nhm_ratio := 3; pkt_num := 1 |}.
(** A beacon request for the beacon table with two repetitions. *)
Definition demo_bcn_req : list Z := [5; 0; 7; 2; 0; 38; 16; 9; 0; 5; 81; 6; 0; 0; 0; 0; 2] ++ replicate 6 255.
Definition demo_inputs : list rm_input :=
  [I_action 1 demo_bcn_req; I_bcn_reqs (Some 2) 0 255 100 1 None None 0 1 [op_class 81 [6]] [1]; I_cmd] ++ replicate 500 I_timer ++ [I_cmd; I_post (RM_ID_FOR_ALL 1) RM_EV_cancel; I_cmd; I_deinit].

Lemma inputs_ok_timers w n l :
  (∀ w', rm_run (replicate n I_timer) w = Ret (tt, w') → inputs_ok w' l) → inputs_ok w (replicate n I_timer ++ l).
Proof.
  revert w. induction n as [|n IH]; intros w H; [by apply H|]. split; [done|]. intros w1 E. apply IH. intros w2 E2. apply H.
  cbn [replicate rm_run]. unfold mbind, R_bind. by rewrite E.
Qed.
Lemma rm_memory_safe_witness :
  ∃ w, rm_run demo_inputs (rtw_init_rm demo_answers demo_cap) = Ret (tt, w) ∧ NoDup w.(rm_queue) ∧
    (∀ i, i ∈ w.(rm_queue) → is_Some (w.(objs) !! i)) ∧
    (∀ i o, w.(objs) !! i = Some o → ∃ c ck, o.(pclock) = Some c ∧ w.(clock) !! c = Some ck ∧ ck.(c_prm) = Some i) ∧
    (∀ c ck i, w.(clock) !! c = Some ck → ck.(c_prm) = Some i → ∃ o, w.(objs) !! i = Some o ∧ o.(pclock) = Some c).
Proof.
  apply (rm_memory_safe demo_answers demo_cap demo_inputs). unfold demo_inputs. split.
  - split; [vm_compute; lia|]. split; [intros _; vm_compute; lia|]. intros _. do 3 eexists. split; [vm_compute; reflexivity|].
    split; eexists; vm_compute; reflexivity.
  - intros w1 E1. assert (w1 = match rm_exec (I_action 1 demo_bcn_req) (rtw_init_rm demo_answers demo_cap) with Ret (_, w) => w | _ => w1 end) as ->
      by (by rewrite E1). clear E1. split.
    { split; [vm_compute; lia|]. split; [done|]. split; [|split].
      - intros [|i] op Hi [= <-]; cbn; lia.
      - intros k Hk. vm_compute. reflexivity.
      - intros dt mt. split; eexists; reflexivity. }
    intros w1' _. split; [done|]. intros w2 _. apply inputs_ok_timers. intros w3 _.
    split; [done|]. intros w4 _. split; [done|]. intros w5 _. split; [done|]. intros w6 _. split; done.
Defined.

(** Shutting the component down ends and frees every queued measurement: from
    any state that the machine can be in, [rtw_deinit_rm] returns with an empty queue
    and without the objects that were queued; the other objects are kept, and when all
    were queued nothing is left and every clock is free. *)
Theorem rm_deinit_frees w :
  rm_wf w → ∃ w', rtw_deinit_rm w = Ret (tt, w') ∧ w'.(rm_queue) = [] ∧
    (∀ i o, w'.(objs) !! i = Some o ↔ w.(objs) !! i = Some o ∧ (i ∉ w.(rm_queue))) ∧
    ((∀ i, is_Some (w.(objs) !! i) → i ∈ w.(rm_queue)) → w'.(objs) = ∅ ∧ Forall (λ ck, ck.(c_prm) = None) w'.(clock)).
Proof.
  intros H. pose proof (deinit_wf w H) as Hd. unfold wp in Hd. destruct (rtw_deinit_rm w) as [[[] w']| |]; [|done..].
  destruct Hd as (H' & Hq & Ho). exists w'. split_and!; [done..|]. intros Hall.
  assert (w'.(objs) = ∅) as E0.
  { apply map_empty. intros i. destruct (w'.(objs) !! i) as [o|] eqn:E; [|done]. apply Ho in E as [E Hi]. destruct Hi. apply Hall. by eauto. }
  split; [done|]. apply Forall_forall. intros ck Hck. destruct ck.(c_prm) as [i|] eqn:E; [|done]. exfalso.
  apply list_elem_of_lookup in Hck as [c Hc]. destruct (wf_owner w' H' c i) as (o & Ho' & _).
  { unfold owners. by rewrite list_lookup_fmap, Hc, <- E. } rewrite E0 in Ho'. by rewrite lookup_empty in Ho'.
Qed.
(** Two measurements, one of them waiting for its report. *)
Definition demo_two : rm_world :=
  match (rm_on_action 1 demo_bcn_req;; rm_add_nb_req 2;; rm_post_event_hdl;; rm_post_event_hdl) (rtw_init_rm demo_answers demo_cap) with
  | Ret (_, w) => w | _ => rtw_init_rm demo_answers demo_cap end.
Definition demo_two_inputs : list rm_input :=
  [I_action 1 demo_bcn_req; I_request 2 (set_cat_act RM_ACT_NB_REP_REQ) false; I_cmd; I_cmd].
Lemma demo_two_run : rm_run demo_two_inputs (rtw_init_rm demo_answers demo_cap) = Ret (tt, demo_two).
Proof. vm_compute. reflexivity. Qed.
Lemma demo_two_ok : inputs_ok (rtw_init_rm demo_answers demo_cap) demo_two_inputs.
Proof.
  split.
  - split; [vm_compute; lia|]. split; [intros _; vm_compute; lia|]. intros _. do 3 eexists. split; [vm_compute; reflexivity|].
    split; eexists; vm_compute; reflexivity.
  - intros w1 E1. assert (size w1.(objs) = 1%nat) as Es.
    { apply (f_equal (λ r, match r with Ret (_, w) => size w.(objs) | _ => 0%nat end)) in E1. rewrite <- E1. vm_compute. reflexivity. }
    split; [split; [rewrite Es; unfold RM_TIMER_NUM; lia|]|].
    + intros dt mt. split; by eexists.
    + intros w2 _. by repeat split.
Qed.
Lemma demo_two_wf : rm_wf demo_two.
Proof.
  destruct (run_inputs_wf demo_two_inputs _ (init_wf demo_answers demo_cap) demo_two_ok) as (w & E & Hwf).
  rewrite demo_two_run in E. apply (f_equal (λ r, match r with Ret (_, w) => w | _ => w end)) in E. by rewrite E.
Qed.
Lemma rm_deinit_frees_witness :
  demo_two.(rm_queue) = [0%nat; 1%nat] ∧ ∃ w', rtw_deinit_rm demo_two = Ret (tt, w') ∧ w'.(rm_queue) = [] ∧
    (∀ i o, w'.(objs) !! i = Some o ↔ demo_two.(objs) !! i = Some o ∧ (i ∉ demo_two.(rm_queue))) ∧
    ((∀ i, is_Some (demo_two.(objs) !! i) → i ∈ demo_two.(rm_queue)) → w'.(objs) = ∅ ∧ Forall (λ ck, ck.(c_prm) = None) w'.(clock)).
Proof.
  split; [vm_compute; reflexivity|]. exact (rm_deinit_frees demo_two demo_two_wf).
Defined.

(** ** What goes wrong *)
Definition demo_run {A} (m : R A) : option rm_world :=
  match m (rtw_init_rm demo_answers demo_cap) with Ret (_, w) => Some w | _ => None end.
Fixpoint times {A} (n : nat) (m : R A) : R unit := match n with O => mret tt | S n => m;; times n m end.
Definition bcn_with (token e_id : Z) : list Z := [5; 0; token; 2; 0; e_id; 16; 9; 0; 5; 81; 6; 0; 0; 0; 0; 2] ++ replicate 6 255.

(** With [RM_TIMER_NUM] measurements the next one gets the last clock, which belongs
    to another measurement. *)
Theorem rm_clock_shared :
  ∃ w o o', demo_run (times 33 (rm_on_action 1 demo_bcn_req)) = Some w ∧ w.(objs) !! 31%nat = Some o ∧ w.(objs) !! 32%nat = Some o' ∧
    o.(pclock) = o'.(pclock).
Proof. do 3 eexists. split; [vm_compute; reflexivity|]. split; [vm_compute; reflexivity|]. split; vm_compute; reflexivity. Qed.
(** A frame whose element is no measurement request leaves an object and its clock
    behind, in no queue. *)
Theorem rm_wrong_element_leaks :
  ∃ w, demo_run (rm_on_action 1 (bcn_with 7 39);; rtw_deinit_rm) = Some w ∧ w.(rm_queue) = [] ∧ is_Some (w.(objs) !! 0%nat) ∧
    c_prm <$> w.(clock) !! 0%nat = Some (Some 0%nat).
Proof. eexists. split; [vm_compute; reflexivity|]. split_and!; vm_compute; try reflexivity. by eexists. Qed.
(** A request with the dialog token 0 gets the identifier 0, for which no event is
    ever delivered: it stays in the queue. *)
Theorem rm_token_zero_stuck :
  ∃ w o, demo_run (rm_on_action 1 (bcn_with 0 38);; rm_post_event_hdl) = Some w ∧ w.(cmds) = [] ∧ w.(rm_queue) = [0%nat] ∧
    w.(objs) !! 0%nat = Some o ∧ o.(st) = RM_ST_IDLE ∧ c_prm <$> w.(clock) !! 0%nat = Some (Some 0%nat) ∧
    counter <$> w.(clock) !! 0%nat = Some 0.
Proof. do 2 eexists. split; [vm_compute; reflexivity|]. split_and!; vm_compute; reflexivity. Qed.
(** A measurement that takes too long is refused, but no frame says so: the reply looks
    for the action code of a request, and the object has the one of a report. *)
Definition bcn_passive : list Z := [5; 0; 7; 0; 0; 38; 16; 9; 0; 5; 81; 6; 0; 0; 0; 0; 0] ++ replicate 6 255.
Theorem rm_refusal_not_sent :
  ∃ w, demo_run (rm_on_action 1 bcn_passive;; rm_post_event_hdl;; times 1000 rm_timer_callback;; rm_post_event_hdl) = Some w ∧
    w.(objs) = ∅ ∧ w.(sent) = [Survey 67328 [6] 0].
Proof. eexists. split; [vm_compute; reflexivity|]. split; vm_compute; reflexivity. Qed.
(** A channel load request for another channel than the current one is neither
    measured nor ended: no clock runs and no event is on the way. *)
Definition load_req : list Z := [5; 0; 7; 0; 0; 38; 9; 9; 0; 3; 81; 11; 0; 0; 0; 0].
Theorem rm_load_never_measured :
  ∃ w o, demo_run (rm_on_action 1 load_req;; rm_post_event_hdl) = Some w ∧ w.(objs) !! 0%nat = Some o ∧ o.(st) = RM_ST_DO_MEAS ∧
    w.(ev_queue) = [] ∧ w.(cmds) = [] ∧ w.(sent) = [] ∧ Forall (λ ck, ck.(counter) = 0) w.(clock).
Proof.
  do 2 eexists. split; [vm_compute; reflexivity|]. split_and!; try (vm_compute; reflexivity). cbn [clock].
  repeat (constructor; [reflexivity|]). constructor.
Qed.
(** The measurements that a shutdown cancels post events into the queue that was just
    emptied; nobody frees them. *)
Theorem rm_deinit_leaks_events :
  ∃ w, rtw_deinit_rm demo_two = Ret (tt, w) ∧ w.(objs) = ∅ ∧ length w.(ev_queue) = 2%nat.
Proof. eexists. split; [vm_compute; reflexivity|]. split; vm_compute; reflexivity. Qed.
(** A beacon request with two repetitions is answered three times and then freed; a
    request of this side that gets no answer is freed after its timeout. *)
Theorem rm_demo_reports :
  ∃ w, demo_run (rm_on_action 1 demo_bcn_req;; rm_post_event_hdl;;
      times 2 (times 500 rm_timer_callback;; rm_post_event_hdl)) = Some w ∧
    w.(objs) = ∅ ∧ w.(sent) = replicate 3 (F_beacon_rep 67328 0).
Proof. eexists. split; [vm_compute; reflexivity|]. split; vm_compute; reflexivity. Qed.
Theorem rm_demo_timeout :
  ∃ w w', demo_run (rm_add_nb_req 2;; rm_post_event_hdl;; times 999 rm_timer_callback;; rm_post_event_hdl) = Some w ∧ w.(rm_queue) = [0%nat] ∧
    demo_run (rm_add_nb_req 2;; rm_post_event_hdl;; times 1000 rm_timer_callback;; rm_post_event_hdl) = Some w' ∧ w'.(objs) = ∅.
Proof. do 2 eexists. split; [vm_compute; reflexivity|]. split; [vm_compute; reflexivity|]. split; vm_compute; reflexivity. Qed.

(** The debug command's own request reads behind the table of [verify_bcn_req]: the
    fourth of its six classes has eleven channels, so eleven entries are copied.  So
    does any request whose only report has two channels; a report without channels is
    copied with no bytes at all. *)
Example verify_bcn_req_overreads :
  verify_bcn_req 1 (rtw_init_rm demo_answers demo_cap) = Oob ∧
  rm_send_bcn_reqs (Some 1) 0 255 100 1 None None 0 1 [op_class 81 [1; 6]] [] (rtw_init_rm demo_answers demo_cap) = Oob ∧
  rm_send_bcn_reqs (Some 1) 0 255 100 1 None None 0 1 [op_class 81 []] [] (rtw_init_rm demo_answers demo_cap) = Oob.
Proof. vm_compute. done. Qed.
