(* ===== verification/XmitAttrib.v ===== *)
(** * Attributes of a packet to send: [update_attrib]

    [core/rtw_xmit_update_attrib_main_rest.c], [.._sec_rest.c], [.._rest.c],
    [core/rtw_xmit_qos_rest.c], with [parsing_eapol_packet] of
    [core/rtw_wlan_util.c] and the registration of session rules of
    [core/rtw_sta_mgt_stctl.c].

    The network stack hands a packet down as an Ethernet frame; [update_attrib] finds
    the station, decides on encryption, takes the next packet number and derives
    the header and the radio parameters.  Stations are the indices that
    [rtw_get_stainfo] gives (StaTable).  What it asks of other parts of the driver
    (power saving, scan, session tracking) is a list of requests.  CONFIG_LPS and
    CONFIG_WMMPS_STA are defined, CONFIG_TDLS, CONFIG_RTW_WDS, CONFIG_RTW_MESH,
    CONFIG_WAPI_SUPPORT, CONFIG_ICMP_VOQ, CONFIG_IP_R_MONITOR, CONFIG_AUTO_AP_MODE
    and CONFIG_TCP_CSUM_OFFLOAD_TX are not. *)
From S2P Require Import Prelude.
From stdpp Require Import list sorting.
From S2P Require Import CryptoWrap Mem Blocks Ccmp StaTable WepTkip RecvPn SecFrames.
Local Open Scope Z_scope.

(** ** Constants *)
Definition WIFI_ASOC_STATE : Z := 0x00000001.
Definition WIFI_STATION_STATE : Z := 0x00000008.
Definition WIFI_AP_STATE : Z := 0x00000010.
Definition WIFI_ADHOC_STATE : Z := 0x00000020.
Definition WIFI_ADHOC_MASTER_STATE : Z := 0x00000040.
Definition WIFI_MESH_STATE : Z := 0x00000200.
Definition WIFI_MP_STATE : Z := 0x00010000.
Definition WIFI_UNDER_KEY_HANDSHAKE : Z := 0x01000000.
Definition NO_PRIVACY : Z := 0.
Definition ETH_HLEN : nat := 14.
Definition ETH_P_IP : Z := 0x0800.
Definition ETH_P_ARP : Z := 0x0806.
Definition ETH_P_PAE : Z := 0x888e.
Definition WIFI_DATA_SUBTYPE : Z := 0x08.
Definition WIFI_QOS_DATA_SUBTYPE : Z := 0x88.
Definition SNAP_SIZE : Z := 6.

Inductive auth_algrthm := dot11AuthAlgrthm_Open | dot11AuthAlgrthm_Shared | dot11AuthAlgrthm_8021X
  | dot11AuthAlgrthm_Auto | dot11AuthAlgrthm_WAPI | dot11AuthAlgrthm_MaxNum.
Inductive eap_type := EAP_PACKET | NON_EAPOL | EAPOL_START | EAPOL_LOGOFF | EAPOL_KEY | EAPOL_ENCAP_ASF_ALERT
  | EAPOL_PACKET | EAPOL_WPA_GROUP_KEY_1_2 | EAPOL_WPA_GROUP_KEY_2_2 | EAPOL_1_4 | EAPOL_2_4 | EAPOL_3_4 | EAPOL_4_4.
#[global] Instance eap_type_eq_dec : EqDecision eap_type.
Proof. solve_decision. Defined.
#[global] Instance auth_algrthm_eq_dec : EqDecision auth_algrthm.
Proof. solve_decision. Defined.

(** ** Rules of the session tracker *)
Definition SESSION_TRACKER_REG_ID_NUM : nat := 1.
(** A rule looks at the local address and port and the remote ones. *)
Definition st_match_rule : Type := list Z → list Z → list Z → list Z → bool.
Record st_register := { s_proto : Z; rule : option st_match_rule }.
(** A session: the local and remote address and port, and its status. *)
Record session_tracker := { st_local : list Z * list Z; st_remote : list Z * list Z; st_status : Z }.
Record st_ctl_t := { st_reg : list st_register; tracker_q : list session_tracker }.
Definition no_reg : st_register := {| s_proto := 0; rule := None |}.
Definition rtw_st_ctl_init : st_ctl_t := {| st_reg := replicate SESSION_TRACKER_REG_ID_NUM no_reg; tracker_q := [] |}.
Definition rtw_st_ctl_clear_tracker_q (c : st_ctl_t) : st_ctl_t := {| st_reg := c.(st_reg); tracker_q := [] |}.
Definition rtw_st_ctl_register (c : st_ctl_t) (id : nat) (r : st_register) : st_ctl_t :=
  if (SESSION_TRACKER_REG_ID_NUM <=? id)%nat then c
  else {| st_reg := <[id := r]> c.(st_reg); tracker_q := c.(tracker_q) |}.
Definition rtw_st_ctl_unregister (c : st_ctl_t) (id : nat) : st_ctl_t :=
  if (SESSION_TRACKER_REG_ID_NUM <=? id)%nat then c
  else
    let c := {| st_reg := <[id := no_reg]> c.(st_reg); tracker_q := c.(tracker_q) |} in
    if existsb (λ r, negb (r.(s_proto) =? 0)) c.(st_reg) then c else rtw_st_ctl_clear_tracker_q c.
Definition rtw_st_ctl_chk_reg_s_proto (c : st_ctl_t) (proto : Z) : bool := existsb (λ r, r.(s_proto) =? proto) c.(st_reg).
Definition rtw_st_ctl_chk_reg_rule (c : st_ctl_t) (la lp ra rp : list Z) : bool :=
  existsb (λ r, match r.(rule) with Some f => f la lp ra rp | None => false end) c.(st_reg).

(** ** Data *)
(** What the radio parameters come from, and they themselves.  The HT fields
    are only written when HT is enabled. *)
Record sta_phy := {
  s_rtsen : Z; s_cts2self : Z; s_raid : Z; s_bw_mode : Z; s_sgi_20m : Z; s_sgi_40m : Z; s_sgi_80m : Z;
  s_vht_option : bool; s_ldpc : Z; s_stbc : Z; s_ht_option : Z; s_ch_offset : Z; s_min_spacing : Z;
  s_ampdu_enable : bool; s_agg_bitmap : Z; s_tx_amsdu : bool
}.
Record phy_attrib := {
  rtsen : Z; cts2self : Z; mdata : Z; eosp : Z; triggered : Z; ampdu_spacing : Z; raid : Z; bwmode : Z; sgi : Z;
  ldpc : Z; stbc : Z; ht_en : Z; ch_offset : Z; ampdu_en : bool; amsdu_ampdu_en : bool; retry_ctrl : bool
}.
(** A station; [nonenc_ms]: the time since [resp_nonenc_eapol_key_starttime].  [dot11txpn]
    is the number of the last packet. *)
Record sta_tx := {
  state : Z; ieee8021x_blocked : bool; nonenc_ms : Z; dot118021XPrivacy : Z; dot11txpn : Z;
  sta_UncstKey : list Z; sta_tkiptxmickey : list Z; sta_qos : bool; sta_macid : Z; init_rate : Z;
  st_ctl : st_ctl_t; phy : sta_phy; txseq_tid : list Z; BA_starting_seqctrl : list Z
}.
Definition set_pn v s := Build_sta_tx s.(state) s.(ieee8021x_blocked) s.(nonenc_ms) s.(dot118021XPrivacy) v s.(sta_UncstKey) s.(sta_tkiptxmickey) s.(sta_qos) s.(sta_macid) s.(init_rate) s.(st_ctl) s.(phy) s.(txseq_tid) s.(BA_starting_seqctrl).
Definition set_state v s := Build_sta_tx v s.(ieee8021x_blocked) s.(nonenc_ms) s.(dot118021XPrivacy) s.(dot11txpn) s.(sta_UncstKey) s.(sta_tkiptxmickey) s.(sta_qos) s.(sta_macid) s.(init_rate) s.(st_ctl) s.(phy) s.(txseq_tid) s.(BA_starting_seqctrl).
Definition set_seqs t b s := Build_sta_tx s.(state) s.(ieee8021x_blocked) s.(nonenc_ms) s.(dot118021XPrivacy) s.(dot11txpn) s.(sta_UncstKey) s.(sta_tkiptxmickey) s.(sta_qos) s.(sta_macid) s.(init_rate) s.(st_ctl) s.(phy) t b.

(** The parts of [struct pkt_attrib]. *)
Record addr_attrib := { dst : list Z; src : list Z; ta : list Z; ra : list Z }.
Record sec_attrib := {
  encrypt : Z; key_idx : Z; iv_len : nat; icv_len : nat; iv : list Z; bswenc : bool;
  UncstKey : list Z; tkiptxmickey : list Z; bmc_camid : Z; mac_id : Z
}.
Record l4_attrib := { ether_type : Z; pktlen : Z; icmp_pkt : bool; dhcp_pkt : bool; hipriority_pkt : bool }.
Record hdr_attrib := { pkt_hdrlen : nat; hdrlen : nat; subtype : Z; qos_en : bool; priority : Z; ack_policy : Z }.
Record xmit_attrib := {
  x_addr : addr_attrib; x_l4 : l4_attrib; x_sec : sec_attrib; x_hdr : hdr_attrib; x_phy : phy_attrib;
  x_psta : option nat; x_amsdu : Z; rate : Z; trigger_frame : bool; hw_ssn_sel : Z
}.
(** [rtw_init_xmitframe] clears the attributes. *)
Definition no_addr : list Z := replicate 6 0.
Definition no_attrib : xmit_attrib := {|
  x_addr := Build_addr_attrib no_addr no_addr no_addr no_addr;
  x_l4 := Build_l4_attrib 0 0 false false false;
  x_sec := Build_sec_attrib 0 0 0 0 (replicate 18 0) false (replicate 32 0) (replicate 32 0) 0 0;
  x_hdr := Build_hdr_attrib 0 0 0 false 0 0;
  x_phy := Build_phy_attrib 0 0 0 0 0 0 0 0 0 0 0 0 0 false false false;
  x_psta := None; x_amsdu := 0; rate := 0; trigger_frame := false; hw_ssn_sel := 0
|}.
Definition set_addr v a := Build_xmit_attrib v a.(x_l4) a.(x_sec) a.(x_hdr) a.(x_phy) a.(x_psta) a.(x_amsdu) a.(rate) a.(trigger_frame) a.(hw_ssn_sel).
Definition set_l4 v a := Build_xmit_attrib a.(x_addr) v a.(x_sec) a.(x_hdr) a.(x_phy) a.(x_psta) a.(x_amsdu) a.(rate) a.(trigger_frame) a.(hw_ssn_sel).
Definition set_secattr v a := Build_xmit_attrib a.(x_addr) a.(x_l4) v a.(x_hdr) a.(x_phy) a.(x_psta) a.(x_amsdu) a.(rate) a.(trigger_frame) a.(hw_ssn_sel).
Definition set_hdr v a := Build_xmit_attrib a.(x_addr) a.(x_l4) a.(x_sec) v a.(x_phy) a.(x_psta) a.(x_amsdu) a.(rate) a.(trigger_frame) a.(hw_ssn_sel).
Definition set_last p i r t h a := Build_xmit_attrib a.(x_addr) a.(x_l4) a.(x_sec) a.(x_hdr) p i a.(x_amsdu) r t h.

(** The adapter: its state and address, the network, the security settings, the
    registry. *)
Record tx_adapter := {
  fw_state : Z; my_addr : list Z; bssid : list Z; qos_option : bool; acm_mask : Z; uapsd_ap : bool; uapsd_tid : Z;
  pwr_mode : Z; dot11AuthAlgrthm : auth_algrthm; dot11PrivacyAlgrthm : Z; dot118021XGrpPrivacy : Z;
  PrivacyKeyIndex : Z; GrpKeyid : Z; tkipkey_set : bool; sw_encrypt : bool; hw_decrypted : bool;
  bmc_cam_id : Z; pk_gk_conflict : bool; auth_wpapsk : bool;
  cur_channel : Z; cur_bwmode : Z; driver_tx_bw_mode : Z; ht_enable : bool; driver_ampdu_spacing : Z; hw_ssn_seq_no : Z
}.
(** Requests to other parts of the driver. *)
Inductive tx_request :=
  | ScanDeny (ms : Z) | ScanAbort | LpsSpecial | LpsLeave
  | TrackAdd (sta : nat) (la lp ra rp : list Z) | TrackDel (sta : nat) (la lp ra rp : list Z).

(** ** Reading the packet *)
(** [_rtw_pktfile_read] at position [pos]: the bytes and the position behind
    them.  The length is unsigned. *)
Definition pktfile_read (pkt : list Z) (pos : nat) (rlen : Z) : list Z * nat :=
  let rest := drop pos pkt in
  let len := Z.to_nat (Z.min (u32 rlen) (Z.of_nat (length rest))) in
  (take len rest, (pos + len)%nat).
(** What a local array holds after it was read into: a short read leaves the end
    as it was on the stack. *)
Definition filled (stack got : list Z) : list Z := got ++ drop (length got) stack.

(** ** Priority *)
Definition up_mapping_dscp : bool := false.
Definition tos_to_up (tos : Z) : Z :=
  if negb up_mapping_dscp then tos >> 5 else
  let dscp := tos >> 2 in
  if dscp =? 0 then 0
  else if (1 <=? dscp) && (dscp <=? 9) then 1
  else if (10 <=? dscp) && (dscp <=? 16) then 2
  else if (17 <=? dscp) && (dscp <=? 23) then 3
  else if (24 <=? dscp) && (dscp <=? 31) then 4
  else if (33 <=? dscp) && (dscp <=? 40) then 5
  else if ((41 <=? dscp) && (dscp <=? 47)) || (dscp =? 32) then 6
  else if (48 <=? dscp) && (dscp <=? 63) then 7
  else 0.
Definition qos_acm (acm_mask priority : Z) : Z :=
  if (priority =? 0) || (priority =? 3) then if negb (acm_mask .& BIT 1 =? 0) then 1 else priority
  else if (priority =? 1) || (priority =? 2) then priority
  else if (priority =? 4) || (priority =? 5) then if negb (acm_mask .& BIT 2 =? 0) then 0 else priority
  else if (priority =? 6) || (priority =? 7) then if negb (acm_mask .& BIT 3 =? 0) then 5 else priority
  else priority.

(** ** Key handshake frames *)
(** [parsing_eapol_packet] on the memory behind the Ethernet header; the new state of
    the station. *)
Definition KEY_TYPE : Z := BIT 3.
Definition KEY_ACK : Z := BIT 7.
Definition KEY_MIC : Z := BIT 8.
Definition parsing_eapol_packet (wpapsk : bool) (mem : list Z) (st : Z) : cres (eap_type * Z) :=
  let* ty := mem_byte mem 1 in
  let* start := if ty =? 1 then let* len := mem_read mem 2 2 in Ret (RTW_GET_LE16 len =? 0) else Ret false in
  if start then Ret (EAPOL_START, st)
  else if ty =? 0 then Ret (EAPOL_PACKET, st)
  else
    let* ki := mem_read mem 5 2 in
    let* kd := mem_read mem 97 2 in
    let key_info := RTW_GET_BE16 ki in
    let key_data_length := RTW_GET_BE16 kd in
    Ret (if key_info .& KEY_TYPE =? 0 then
           if negb (key_info .& KEY_ACK =? 0) then (EAPOL_WPA_GROUP_KEY_1_2, st)
           else (EAPOL_WPA_GROUP_KEY_2_2, if wpapsk then Z.ldiff st WIFI_UNDER_KEY_HANDSHAKE else st)
         else if negb (key_info .& KEY_MIC =? 0) then
           (if key_data_length =? 0 then EAPOL_4_4 else if negb (key_info .& KEY_ACK =? 0) then EAPOL_3_4 else EAPOL_2_4, st)
         else (EAPOL_1_4, st)).

(** ** The upper layers *)
(** [rtw_xmit_update_attrib_classify_l4] behind the Ethernet header, at position 14 of
    the packet.  The arrays [ip], [udp] and [tcp] are on the stack; what was there
    before is [ip0], [udp0], [tcp0]. *)
Record stack := { ip0 : list Z; udp0 : list Z; tcp0 : list Z }.
Definition classify_udp (udp : list Z) (len : Z) : bool * bool :=
  let sp := RTW_GET_BE16 udp in
  let dp := RTW_GET_BE16 (drop 2 udp) in
  ((((sp =? 68) && (dp =? 67)) || ((sp =? 67) && (dp =? 68))) && (282 <? len),
   ((udp.[8] =? 0xcc) || (udp.[8] =? 0xdd)) && (udp.[23] =? 0xe2)).
Definition classify_tcp (i : nat) (ip tcp : list Z) (c : st_ctl_t) : list tx_request :=
  let saddr := take 4 (drop 12 ip) in
  let daddr := take 4 (drop 16 ip) in
  let sport := take 2 tcp in
  let dport := take 2 (drop 2 tcp) in
  if rtw_st_ctl_chk_reg_rule c saddr sport daddr dport then
    (if Z.testbit (tcp.[13]) 1 && Z.testbit (tcp.[13]) 4 then [TrackAdd i saddr sport saddr dport] else []) ++
    (if Z.testbit (tcp.[13]) 0 then [TrackDel i saddr sport saddr dport] else [])
  else [].
Definition classify_l4 (ad : tx_adapter) (stk : stack) (pkt : list Z) (i : nat) (sta : sta_tx) (l4 : l4_attrib)
    : cres (eap_type * l4_attrib * Z * list tx_request) :=
  let len := Z.of_nat (length pkt - ETH_HLEN) in
  let et := l4.(ether_type) in
  if et =? ETH_P_IP then
    let '(got, pos) := pktfile_read pkt ETH_HLEN 20 in
    let ip := filled stk.(ip0) got in
    let ihl := ip.[0] .& 0xf in
    let pos := if 20 <? ihl * 4 then snd (pktfile_read pkt pos (ihl - 20)) else pos in
    let proto := ip.[9] in
    if proto =? 1 then Ret (NON_EAPOL, Build_l4_attrib et len true false false, sta.(state), [])
    else if proto =? 0x11 then
      let udp := filled stk.(udp0) (fst (pktfile_read pkt pos 24)) in
      let '(dhcp, hi) := classify_udp udp len in
      Ret (NON_EAPOL, Build_l4_attrib et len false dhcp hi, sta.(state), [])
    else if (proto =? 6) && rtw_st_ctl_chk_reg_s_proto sta.(st_ctl) 6 then
      let tcp := filled stk.(tcp0) (fst (pktfile_read pkt pos 20)) in
      Ret (NON_EAPOL, Build_l4_attrib et len false false false, sta.(state), classify_tcp i ip tcp sta.(st_ctl))
    else Ret (NON_EAPOL, Build_l4_attrib et len false false false, sta.(state), [])
  else
    let l4 := Build_l4_attrib et len l4.(icmp_pkt) l4.(dhcp_pkt) l4.(hipriority_pkt) in
    if et =? ETH_P_PAE then
      let* (e, st) := parsing_eapol_packet ad.(auth_wpapsk) (drop ETH_HLEN pkt) sta.(state) in Ret (e, l4, st, [])
    else Ret (NON_EAPOL, l4, sta.(state), []).

(** ** Encryption *)
Definition GET_ENCRY_ALGO (ad : tx_adapter) (privacy old : Z) (bmcst : bool) : Z :=
  match ad.(dot11AuthAlgrthm) with
  | dot11AuthAlgrthm_Open | dot11AuthAlgrthm_Shared | dot11AuthAlgrthm_Auto => u8 ad.(dot11PrivacyAlgrthm)
  | dot11AuthAlgrthm_8021X => if bmcst then u8 ad.(dot118021XGrpPrivacy) else u8 privacy
  | dot11AuthAlgrthm_WAPI => u8 ad.(dot11PrivacyAlgrthm)
  | dot11AuthAlgrthm_MaxNum => old
  end.
Definition TSC (k : Z) (val : Z) : Z := u8 (val >> (8 * k)).
(** The counter, and the IV from it; the rest of the array [iv] is kept. *)
Definition next_pn (val : Z) : Z := if val =? 0xffffffffffff then 0 else u64 (val + 1).
Definition next_wep_pn (val : Z) : Z := if val =? 0xffffff then 0 else u64 (val + 1).
Definition WEP_IV (val keyidx : Z) : list Z := [TSC 0 val; TSC 1 val; TSC 2 val; u8 ((keyidx .& 3) << 6)].
Definition TKIP_IV (val keyidx : Z) : list Z :=
  [TSC 1 val; (TSC 1 val .| 0x20) .& 0x7f; TSC 0 val; u8 (BIT 5 .| ((keyidx .& 3) << 6));
   TSC 2 val; TSC 3 val; TSC 4 val; TSC 5 val].
Definition AES_IV (val keyidx : Z) : list Z :=
  [TSC 0 val; TSC 1 val; 0; u8 (BIT 5 .| ((keyidx .& 3) << 6)); TSC 2 val; TSC 3 val; TSC 4 val; TSC 5 val].

(** The algorithm and the key index, [None] when the packet is dropped: a
    station that is not authenticated only gets key handshake frames. *)
Definition sec_algo (ad : tx_adapter) (sta : sta_tx) (eapol : eap_type) (et : Z) (bmcst : bool) (old_enc old_idx : Z)
    : option (Z * Z) :=
  if sta.(ieee8021x_blocked)
     || (bool_decide (eapol = EAPOL_2_4 ∨ eapol = EAPOL_4_4) && (sta.(nonenc_ms) <=? 100)) then
    if negb (et =? ETH_P_PAE) && (ad.(fw_state) .& WIFI_MP_STATE =? 0) then None else Some (0, old_idx)
  else
    let e := GET_ENCRY_ALGO ad sta.(dot118021XPrivacy) old_enc bmcst in
    let idx := match ad.(dot11AuthAlgrthm) with
               | dot11AuthAlgrthm_Open | dot11AuthAlgrthm_Shared | dot11AuthAlgrthm_Auto => u8 ad.(PrivacyKeyIndex)
               | dot11AuthAlgrthm_8021X => if bmcst then u8 ad.(GrpKeyid) else 0
               | _ => 0
               end in
    Some (if is_wep e && (et =? ETH_P_PAE) then NO_PRIVACY else e, idx).

(** The lengths and the IV with the next packet number, [None] for TKIP without
    a key. *)
Definition sec_iv (ad : tx_adapter) (bmcst : bool) (e idx pn : Z) (old : list Z) : option (nat * nat * list Z * Z) :=
  let idx' := if bmcst then idx else 0 in
  let keep l := l ++ drop (length l) old in
  if is_wep e then let v := next_wep_pn pn in Some (4%nat, 4%nat, keep (WEP_IV v idx), v)
  else if e =? TKIP then
    if ad.(tkipkey_set) then let v := next_pn pn in Some (8%nat, 4%nat, keep (TKIP_IV v idx'), v) else None
  else if e =? SecFrames.AES then let v := next_pn pn in Some (8%nat, 8%nat, keep (AES_IV v idx'), v)
  else if (e =? GCMP) || (e =? GCMP_256) || (e =? CCMP_256) then
    let v := next_pn pn in Some (8%nat, 16%nat, keep (AES_IV v idx'), v)
  else Some (0%nat, 0%nat, old, pn).

(** [update_attrib_sec_info]: success, the attributes and the station. *)
Definition update_attrib_sec_info (ad : tx_adapter) (a : sec_attrib) (sta : sta_tx) (ra : list Z) (et : Z)
    (eapol : eap_type) : bool * sec_attrib * sta_tx :=
  let bmcst := IS_MCAST ra in
  let unc := replicate 16 0 ++ drop 16 a.(UncstKey) in
  let mic := replicate 16 0 ++ drop 16 a.(tkiptxmickey) in
  let mk e idx ivl icvl iv sw unc mic cam := Build_sec_attrib e idx ivl icvl iv sw unc mic cam sta.(sta_macid) in
  match sec_algo ad sta eapol et bmcst a.(encrypt) a.(key_idx) with
  | None => (false, mk 0 a.(key_idx) a.(iv_len) a.(icv_len) a.(iv) a.(bswenc) unc mic a.(bmc_camid), sta)
  | Some (e, idx) =>
      match sec_iv ad bmcst e idx sta.(dot11txpn) a.(iv) with
      | None => (false, mk e idx 8%nat 4%nat a.(iv) a.(bswenc) unc mic a.(bmc_camid), sta)
      | Some (ivl, icvl, iv, v) =>
          let mic := if e =? TKIP then take 16 sta.(sta_tkiptxmickey) ++ drop 16 mic else mic in
          let n := if e .& SEC_TYPE_256 =? 0 then 16%nat else 32%nat in
          let unc := if 0 <? e then take n sta.(sta_UncstKey) ++ drop n unc else unc in
          let sw := negb (e =? 0) &&
            (ad.(sw_encrypt) || negb ad.(hw_decrypted) || (bmcst && ad.(pk_gk_conflict)) || bool_decide (eapol = EAPOL_4_4)) in
          (true, mk e idx ivl icvl iv sw unc mic ad.(bmc_cam_id), set_pn v sta)
      end
  end.

(** ** Radio parameters *)
Definition BW_MODE_2G (bw_mode : Z) : Z := bw_mode .& 0x0F.
Definition BW_MODE_5G (bw_mode : Z) : Z := bw_mode >> 4.
Definition rtw_get_tx_bw_mode (ad : tx_adapter) (p : sta_phy) : Z :=
  let bw := p.(s_bw_mode) in
  if ad.(fw_state) .& WIFI_ASOC_STATE =? 0 then bw
  else if ad.(cur_channel) <=? 14 then Z.min bw (BW_MODE_2G ad.(driver_tx_bw_mode))
  else Z.min bw (BW_MODE_5G ad.(driver_tx_bw_mode)).
Definition query_ra_short_GI (p : sta_phy) (bw : Z) : Z :=
  if bw =? 2 then if p.(s_vht_option) then p.(s_sgi_80m) else 0
  else if bw =? 1 then p.(s_sgi_40m)
  else p.(s_sgi_20m).
Definition update_attrib_phy_info (ad : tx_adapter) (old : phy_attrib) (p : sta_phy) (prio : Z) : phy_attrib :=
  let bw := Z.min (rtw_get_tx_bw_mode ad p) ad.(cur_bwmode) in
  if ad.(ht_enable) then
    let sp := if negb (ad.(driver_ampdu_spacing) =? 0xFF) then ad.(driver_ampdu_spacing) else p.(s_min_spacing) in
    let agg := negb (p.(s_ht_option) =? 0) && p.(s_ampdu_enable) && negb (p.(s_agg_bitmap) .& BIT prio =? 0) in
    Build_phy_attrib p.(s_rtsen) p.(s_cts2self) 0 0 0 sp p.(s_raid) bw (query_ra_short_GI p bw) p.(s_ldpc) p.(s_stbc)
      p.(s_ht_option) p.(s_ch_offset) agg (if agg then p.(s_tx_amsdu) else old.(amsdu_ampdu_en)) false
  else
    Build_phy_attrib p.(s_rtsen) p.(s_cts2self) 0 0 0 0 p.(s_raid) bw (query_ra_short_GI p bw) p.(s_ldpc) p.(s_stbc)
      old.(ht_en) old.(ch_offset) old.(ampdu_en) old.(amsdu_ampdu_en) false.

(** ** The header *)
(** [rtw_xmit_update_attrib_set_qos]; [sizeof(ip_hdr)] is 20. *)
Definition set_qos (stk : stack) (pkt : list Z) (et : Z) : Z :=
  if et =? ETH_P_IP then
    let pos := snd (pktfile_read pkt 0 (Z.of_nat ETH_HLEN)) in
    tos_to_up ((filled stk.(ip0) (fst (pktfile_read pkt pos 20))).[1])
  else 0.
Definition lps_requests (l4 : l4_attrib) : list tx_request :=
  if l4.(icmp_pkt) then [LpsLeave] else if l4.(dhcp_pkt) then [LpsSpecial] else [].
Definition scan_requests (ad : tx_adapter) (l4 : l4_attrib) (dst : list Z) : list tx_request :=
  (if (l4.(ether_type) =? ETH_P_PAE) || l4.(dhcp_pkt) then [ScanDeny 3000] else []) ++
  (if negb (ad.(fw_state) .& WIFI_STATION_STATE =? 0) && (l4.(ether_type) =? ETH_P_ARP) && negb (IS_MCAST dst)
   then [ScanDeny 1000; ScanAbort] else []).
(** A quality-of-service header and its priority, if there is one. *)
Definition hdr_info (ad : tx_adapter) (stk : stack) (pkt : list Z) (sta : sta_tx) (et : Z) : hdr_attrib :=
  let qos prio := Build_hdr_attrib ETH_HLEN 26 WIFI_QOS_DATA_SUBTYPE sta.(sta_qos) prio 0 in
  let plain := Build_hdr_attrib ETH_HLEN 24 WIFI_DATA_SUBTYPE sta.(sta_qos) 0 0 in
  if negb (ad.(fw_state) .& (WIFI_AP_STATE .| WIFI_MESH_STATE .| WIFI_ADHOC_STATE .| WIFI_ADHOC_MASTER_STATE) =? 0)
  then if sta.(sta_qos) then qos (set_qos stk pkt et) else plain
  else if ad.(qos_option) then
    let prio := set_qos stk pkt et in
    qos (if negb (ad.(acm_mask) =? 0) then qos_acm ad.(acm_mask) prio else prio)
  else plain.
Definition PS_MODE_MIN : Z := 1.
Definition PS_MODE_MAX : Z := 2.
(** The masked bit is compared with _TRUE. *)
Definition update_attrib_trigger_frame_info (ad : tx_adapter) (prio : Z) : bool :=
  negb (ad.(fw_state) .& WIFI_STATION_STATE =? 0) && ((ad.(pwr_mode) =? PS_MODE_MIN) || (ad.(pwr_mode) =? PS_MODE_MAX))
  && ad.(uapsd_ap) && (ad.(uapsd_tid) .& BIT prio =? 1).

(** [rtw_xmit_update_attrib_post_l4]: success, the attributes, the station, the
    requests. *)
Definition post_l4 (ad : tx_adapter) (stk : stack) (pkt : list Z) (a : xmit_attrib) (i : nat) (sta : sta_tx)
    (eapol : eap_type) : bool * xmit_attrib * sta_tx * list tx_request :=
  let l4 := a.(x_l4) in
  let reqs := scan_requests ad l4 a.(x_addr).(dst) ++ lps_requests l4 in
  let '(ok, s, sta) := update_attrib_sec_info ad a.(x_sec) sta a.(x_addr).(ra) l4.(ether_type) eapol in
  let a := set_secattr s a in
  if negb ok then (false, a, sta, reqs)
  else
    let h := hdr_info ad stk pkt sta l4.(ether_type) in
    let a := set_hdr h a in
    let p := update_attrib_phy_info ad a.(x_phy) sta.(phy) h.(priority) in
    (true, set_last p (Some i) (if IS_MCAST a.(x_addr).(ra) then sta.(init_rate) else a.(rate))
             (update_attrib_trigger_frame_info ad h.(priority)) ad.(hw_ssn_seq_no) a, sta, reqs).

(** ** [update_attrib] *)
Section update.
(** [rtw_get_stainfo] of the station table; it gives the station of the broadcast
    address for every group address, and is what [rtw_get_bcmc_stainfo] calls. *)
Context (rtw_get_stainfo : list Z → option nat).

(** The addresses of a station or an ad hoc network; those of an access point
    are resolved before. *)
Definition set_addresses (ad : tx_adapter) (ether : list Z) (old : addr_attrib) : addr_attrib :=
  if negb (ad.(fw_state) .& (WIFI_AP_STATE .| WIFI_MESH_STATE) =? 0) then old
  else
    let dst := take 6 ether in
    let src := take 6 (drop 6 ether) in
    Build_addr_attrib dst src ad.(my_addr)
      (if negb (ad.(fw_state) .& (WIFI_ADHOC_STATE .| WIFI_ADHOC_MASTER_STATE) =? 0) then dst
       else if negb (ad.(fw_state) .& WIFI_STATION_STATE =? 0) then ad.(bssid) else old.(ra)).

(** Success, the attributes, the stations and the requests; [ether0]: what was on the
    stack where the Ethernet header is read to. *)
Definition update_attrib (ad : tx_adapter) (stk : stack) (ether0 : list Z) (pkt : list Z) (a : xmit_attrib)
    (stas : list sta_tx) : cres (bool * xmit_attrib * list sta_tx * list tx_request) :=
  let ether := filled ether0 (fst (pktfile_read pkt 0 (Z.of_nat ETH_HLEN))) in
  let et := RTW_GET_BE16 (drop 12 ether) in
  let l4 := a.(x_l4) in
  let a := set_l4 (Build_l4_attrib et l4.(pktlen) l4.(icmp_pkt) l4.(dhcp_pkt) l4.(hipriority_pkt)) a in
  let a := set_addr (set_addresses ad ether a.(x_addr)) a in
  let fail := Ret (false, a, stas, []) in
  match rtw_get_stainfo a.(x_addr).(ra) with
  | None => fail
  | Some i =>
      match stas !! i with
      | None => Oob
      | Some sta =>
          if sta.(state) .& WIFI_ASOC_STATE =? 0 then fail
          else
            let* (eapol, l4, st, reqs) := classify_l4 ad stk pkt i sta a.(x_l4) in
            let '(ok, a, sta, reqs') := post_l4 ad stk pkt (set_l4 l4 a) i (set_state st sta) eapol in
            Ret (ok, a, <[i := sta]> stas, reqs ++ reqs')
      end
  end.
End update.

(** ** Packet numbers *)
(** The number in the IV, as a receiver reads it: for CCMP and GCMP with the macros of
    the replay check, for TKIP from the bytes TSC0 to TSC5. *)
Definition carries_pn (e : Z) : bool :=
  (e =? TKIP) || (e =? SecFrames.AES) || (e =? GCMP) || (e =? GCMP_256) || (e =? CCMP_256).
Definition pn_of (s : sec_attrib) : Z :=
  let v := s.(iv) in
  if s.(encrypt) =? TKIP then be_val [v.[7]; v.[6]; v.[5]; v.[4]; v.[0]; v.[2]]
  else RecvPn.CCMPH_2_PN (RecvPn.le64_to_cpu (take 8 v)).

Lemma TSC_mod k v : 0 ≤ k → TSC k v = (v / 2 ^ (8 * k)) mod 256.
Proof. intros. unfold TSC, u8. rewrite Z.shiftr_div_pow2 by lia. change 0xff with (Z.ones 8). by rewrite Z.land_ones by lia. Qed.
Lemma TSC_uint k v : is_u8 (TSC k v).
Proof. apply u8_uint. Qed.
Lemma be_val_TSC v : 0 ≤ v < 2 ^ 48 → be_val [TSC 5 v; TSC 4 v; TSC 3 v; TSC 2 v; TSC 1 v; TSC 0 v] = v.
Proof.
  intros Hv. rewrite !TSC_mod by lia. unfold be_val. cbn [fold_left].
  change (2 ^ (8 * 0)) with 1. rewrite (Z.div_1_r v).
  assert (∀ k, 0 ≤ k → v / 2 ^ (8 * (k + 1)) = (v / 2 ^ (8 * k)) / 256) as Hd.
  { intros k Hk. change 256 with (2 ^ 8). rewrite Z.div_div by lia. rewrite <- Z.pow_add_r by lia. do 2 f_equal. lia. }
  pose proof (Hd 1 ltac:(lia)) as H8. pose proof (Hd 2 ltac:(lia)) as H16. pose proof (Hd 3 ltac:(lia)) as H24.
  pose proof (Hd 4 ltac:(lia)) as H32. clear Hd. change (2 ^ (8 * 1)) with 256 in *.
  change (8 * (1 + 1)) with (8 * 2) in *. change (8 * (2 + 1)) with (8 * 3) in *. change (8 * (3 + 1)) with (8 * 4) in *.
  change (8 * (4 + 1)) with (8 * 5) in *. change (2 ^ (8 * 2)) with 65536 in *. change (2 ^ (8 * 3)) with 16777216 in *.
  change (2 ^ (8 * 4)) with 4294967296 in *. change (2 ^ (8 * 5)) with 1099511627776 in *.
  change (2 ^ 48) with 281474976710656 in *. rewrite H32, H24, H16, H8.
  clear H8 H16 H24 H32. Z.div_mod_to_equations. lia.
Qed.
Lemma AES_IV_pn v idx rest :
  0 ≤ v < 2 ^ 48 → RecvPn.CCMPH_2_PN (RecvPn.le64_to_cpu (take 8 (AES_IV v idx ++ rest))) = v.
Proof.
  intros Hv. unfold AES_IV. cbn [take app]. rewrite ccmp_header_pn; [by apply be_val_TSC|].
  repeat (apply Forall_cons_iff; split; [first [apply TSC_uint|apply u8_uint|uint_lit]|]). apply Forall_nil_2.
Qed.
Lemma TKIP_IV_pn v idx rest :
  0 ≤ v < 2 ^ 48 →
  let l := TKIP_IV v idx ++ rest in be_val [l.[7]; l.[6]; l.[5]; l.[4]; l.[0]; l.[2]] = v.
Proof. intros Hv. cbv zeta. unfold TKIP_IV. cbn [app aget nth]. by apply be_val_TSC. Qed.
Lemma next_pn_succ v : 0 ≤ v < 2 ^ 48 - 1 → next_pn v = v + 1.
Proof.
  intros Hv. unfold next_pn. rewrite (proj2 (Z.eqb_neq v _)) by lia. apply u64_id. unfold uint. lia.
Qed.

(** What the choice of the cipher does with the counter. *)
Lemma sec_iv_pn ad b e idx pn old ivl icvl iv v :
  0 ≤ pn < 2 ^ 48 - 1 → is_wep e = false → sec_iv ad b e idx pn old = Some (ivl, icvl, iv, v) →
  if carries_pn e then v = pn + 1 ∧ ∀ sw unc mic cam mac, pn_of (Build_sec_attrib e idx ivl icvl iv sw unc mic cam mac) = v else v = pn.
Proof.
  intros Hv Hw. unfold sec_iv, carries_pn, pn_of. rewrite Hw, !(next_pn_succ pn Hv). cbn [XmitAttrib.iv encrypt].
  destruct (e =? TKIP) eqn:Et; cbn [orb].
  { destruct (tkipkey_set ad); [|done]. intros [= <- <- <- <-]. split; [done|]. intros _ _ _ _ _.
    exact (TKIP_IV_pn (pn + 1) (if b then idx else 0) (drop 8 old) ltac:(lia)). }
  destruct (e =? SecFrames.AES); cbn [orb].
  { intros [= <- <- <- <-]. split; [done|]. intros _ _ _ _ _. apply (AES_IV_pn (pn + 1)). lia. }
  destruct ((e =? GCMP) || (e =? GCMP_256) || (e =? CCMP_256)) eqn:Eg; [|by intros [= <- <- <- <-]].
  intros [= <- <- <- <-]. split; [done|]. intros _ _ _ _ _. apply (AES_IV_pn (pn + 1)). lia.
Qed.

(** [update_attrib_sec_info] leaves the station alone when it fails, and moves only its
    counter when it succeeds. *)
Lemma sec_info_pn ad a sta ra et eapol ok s sta' :
  0 ≤ sta.(dot11txpn) < 2 ^ 48 - 1 → update_attrib_sec_info ad a sta ra et eapol = (ok, s, sta') →
  if ok then
    is_wep s.(encrypt) = false → sta' = set_pn (if carries_pn s.(encrypt) then sta.(dot11txpn) + 1 else sta.(dot11txpn)) sta ∧
      (carries_pn s.(encrypt) = true → pn_of s = sta.(dot11txpn) + 1)
  else sta' = sta.
Proof.
  intros Hv. unfold update_attrib_sec_info. cbv zeta.
  destruct (sec_algo _ _ _ _ _ _ _) as [[e idx]|]; [|by intros [= <- <- <-]].
  destruct (sec_iv _ _ _ _ _ _) as [[[[ivl icvl] iv] v]|] eqn:E; [|by intros [= <- <- <-]].
  intros [= <- <- <-]. cbn [encrypt]. intros Hw. pose proof (sec_iv_pn _ _ _ _ _ _ _ _ _ _ Hv Hw E) as H.
  destruct (carries_pn e); [|by subst v]. destruct H as [-> H]. split; [done|]. intros _. apply H.
Qed.

Lemma post_l4_pn ad stk pkt a i sta eapol ok a' sta' reqs :
  0 ≤ sta.(dot11txpn) < 2 ^ 48 - 1 → post_l4 ad stk pkt a i sta eapol = (ok, a', sta', reqs) →
  if ok then
    a'.(x_psta) = Some i ∧ (is_wep a'.(x_sec).(encrypt) = false →
      sta'.(dot11txpn) = (if carries_pn a'.(x_sec).(encrypt) then sta.(dot11txpn) + 1 else sta.(dot11txpn)) ∧
      (carries_pn a'.(x_sec).(encrypt) = true → pn_of a'.(x_sec) = sta.(dot11txpn) + 1))
  else sta' = sta.
Proof.
  intros Hv. unfold post_l4. destruct (update_attrib_sec_info _ _ _ _ _ _) as [[ok0 s] sta0] eqn:E.
  pose proof (sec_info_pn _ _ _ _ _ _ _ _ _ Hv E) as H. destruct ok0; cbn [negb]; intros [= <- <- <- <-]; [|done].
  cbn. split; [done|]. intros Hw. destruct (H Hw) as [-> Hp]. cbn. done.
Qed.

(** ** A run: packets one after the other, each with the adapter at that time *)
Record tx_input := { i_ad : tx_adapter; i_stk : stack; i_ether0 : list Z; i_pkt : list Z; i_attrib : xmit_attrib }.
Section run.
Context (rtw_get_stainfo : list Z → option nat).
(** The station and the security attributes of the packets that pass. *)
Fixpoint tx_run (l : list tx_input) (stas : list sta_tx) : cres (list (nat * sec_attrib) * list sta_tx) :=
  match l with
  | [] => Ret ([], stas)
  | x :: l =>
      let* (ok, a, stas, reqs) := update_attrib rtw_get_stainfo x.(i_ad) x.(i_stk) x.(i_ether0) x.(i_pkt) x.(i_attrib) stas in
      let* (out, stas) := tx_run l stas in
      Ret (match a.(x_psta) with Some i => if ok then (i, a.(x_sec)) :: out else out | None => out end, stas)
  end.
(** The packet numbers of one station, in order. *)
Definition pns_of (i : nat) (out : list (nat * sec_attrib)) : list Z :=
  map (λ o, pn_of o.2) (filter (λ o, o.1 = i ∧ carries_pn o.2.(encrypt) = true) out).

Lemma update_attrib_pn ad stk ether0 pkt a stas ok a' stas' reqs :
  Forall (λ sta, 0 ≤ sta.(dot11txpn) < 2 ^ 48 - 1) stas →
  update_attrib rtw_get_stainfo ad stk ether0 pkt a stas = Ret (ok, a', stas', reqs) →
  length stas' = length stas ∧
  if ok then
    ∃ i sta sta', a'.(x_psta) = Some i ∧ stas !! i = Some sta ∧ stas' = <[i := sta']> stas ∧
      (is_wep a'.(x_sec).(encrypt) = false →
        sta'.(dot11txpn) = (if carries_pn a'.(x_sec).(encrypt) then sta.(dot11txpn) + 1 else sta.(dot11txpn)) ∧
        (carries_pn a'.(x_sec).(encrypt) = true → pn_of a'.(x_sec) = sta.(dot11txpn) + 1))
  else map dot11txpn stas' = map dot11txpn stas.
Proof.
  intros Hs. unfold update_attrib. cbv zeta.
  destruct (rtw_get_stainfo _) as [i|]; [|by intros [= <- <- <- <-]].
  destruct (stas !! i) as [sta|] eqn:Hi; [|done].
  destruct (_ =? 0); [by intros [= <- <- <- <-]|].
  destruct (classify_l4 _ _ _ _ _ _) as [[[[eapol l4] st] r]| |]; [|done..]. cbn [cbind].
  destruct (post_l4 _ _ _ _ _ _ _) as [[[ok0 a0] sta0] r0] eqn:E. intros [= <- <- <- <-].
  pose proof (proj1 (Forall_lookup _ _) Hs i sta Hi) as Hv. split; [apply length_insert|].
  pose proof (post_l4_pn _ _ _ _ _ (set_state st sta) _ _ _ _ _ Hv E) as H. destruct ok0.
  - destruct H as [Hp H]. exists i, sta, sta0. split_and!; done.
  - rewrite H. change (map dot11txpn) with (fmap dot11txpn : list sta_tx → list Z). rewrite list_fmap_insert. apply list_insert_id.
    rewrite list_lookup_fmap, Hi. done.
Qed.

Lemma same_pns stas stas1 k s :
  map dot11txpn stas1 = map dot11txpn stas → stas1 !! k = Some s → ∃ s0, stas !! k = Some s0 ∧ s0.(dot11txpn) = s.(dot11txpn).
Proof.
  intros H Hk. assert ((dot11txpn <$> stas) !! k = Some (dot11txpn s)) as Hk'.
  { change (dot11txpn <$> stas) with (map dot11txpn stas). rewrite <- H. change (map dot11txpn stas1) with (dot11txpn <$> stas1).
    by rewrite list_lookup_fmap, Hk. }
  rewrite list_lookup_fmap in Hk'. destruct (stas !! k) as [s0|]; [|done]. injection Hk' as Hk'. by exists s0.
Qed.
Lemma pns_of_run l : ∀ stas out stas' i sta,
  tx_run l stas = Ret (out, stas') → Forall (λ o, is_wep o.2.(encrypt) = false) out →
  Forall (λ s, 0 ≤ s.(dot11txpn) ∧ s.(dot11txpn) + Z.of_nat (length l) < 2 ^ 48) stas → stas !! i = Some sta →
  ∃ n sta', stas' !! i = Some sta' ∧ sta'.(dot11txpn) = sta.(dot11txpn) + n ∧ 0 ≤ n ∧
    pns_of i out = seqZ (sta.(dot11txpn) + 1) n.
Proof.
  induction l as [|x l IH]; intros stas out stas' i sta Hrun Hw Hs Hi.
  { injection Hrun as <- <-. exists 0, sta. split_and!; [done|lia|lia|done]. }
  cbn [tx_run] in Hrun. destruct (update_attrib _ _ _ _ _ _ _) as [[[[ok a] stas1] reqs]| |] eqn:E; [|done..]. cbn [cbind] in Hrun.
  destruct (tx_run l stas1) as [[out1 stas2]| |] eqn:Er; [|done..]. cbn [cbind] in Hrun. injection Hrun as <- <-.
  rewrite length_cons in Hs.
  assert (Forall (λ s, 0 ≤ s.(dot11txpn) < 2 ^ 48 - 1) stas) as Hs0 by (eapply Forall_impl; [exact Hs|intros; cbv beta in *; lia]).
  destruct (update_attrib_pn _ _ _ _ _ _ _ _ _ _ Hs0 E) as [Hlen H]. destruct ok.
  - destruct H as (j & sj & sj' & Hj & Hsj & -> & H). rewrite Hj in Hw |- *. apply Forall_cons_iff in Hw as [Hw0 Hw].
    cbn [snd] in Hw0. destruct (H Hw0) as [Hpn Hp]. clear H.
    assert (Forall (λ s, 0 ≤ s.(dot11txpn) ∧ s.(dot11txpn) + Z.of_nat (length l) < 2 ^ 48) (<[j:=sj']> stas)) as Hs1.
    { apply Forall_insert; [eapply Forall_impl; [exact Hs|intros; cbv beta in *; lia]|].
      pose proof (proj1 (Forall_lookup _ _) Hs j sj Hsj) as Hb. cbv beta in Hb. destruct (carries_pn _); lia. }
    unfold pns_of. rewrite filter_cons. cbn [fst snd]. destruct (decide (j = i)) as [->|Hne].
    + rewrite Hi in Hsj. injection Hsj as ->.
      edestruct (IH _ _ _ i sj' Er Hw Hs1) as (n & sta' & H1 & H2 & H3 & H4).
      { apply list_lookup_insert_eq, (lookup_lt_Some _ _ _ Hi). }
      destruct (carries_pn (encrypt (x_sec a))) eqn:Ec.
      * exists (n + 1), sta'. rewrite decide_True by done. cbn [map snd]. fold (pns_of i out1). rewrite H4, Hp, Hpn by done.
        split_and!; [done|lia|lia|]. rewrite (seqZ_cons (dot11txpn sj + 1)) by lia. do 2 f_equal; lia.
      * exists n, sta'. rewrite decide_False by (intros [_ ?]; done). fold (pns_of i out1). rewrite H4, Hpn. split_and!; [done|lia|lia|done].
    + rewrite decide_False by (intros [? _]; done). fold (pns_of i out1). apply (IH _ _ _ i sta Er Hw Hs1).
      by rewrite list_lookup_insert_ne.
  - assert (out1 = match x_psta a with Some _ => out1 | None => out1 end) as Eo by (by destruct (x_psta a)).
    rewrite <- Eo in Hw |- *. destruct (same_pns stas1 stas i sta (eq_sym H) Hi) as (s1 & Hi1 & <-).
    apply (IH _ _ _ i s1 Er Hw); [|done]. apply Forall_lookup. intros k s Hk.
    destruct (same_pns stas stas1 k s H Hk) as (s0 & Hk0 & <-).
    pose proof (proj1 (Forall_lookup _ _) Hs k s0 Hk0). cbv beta in *. lia.
Qed.

(** C9: no two packets get the same packet number: whatever packets are sent to
    whatever stations, in whatever order and with whatever settings of the adapter,
    the TKIP, CCMP and GCMP packets of a station carry consecutive packet numbers, as
    its receiver reads them from the IV that [update_attrib] prepares, starting behind
    the last one used; packets that are dropped and packets to other stations take
    none.  This holds until the 48-bit counter is used up; WEP, whose 24-bit counter
    wraps, is excluded.  It counts packets: the fragments of one packet share its
    number, and so the nonce, which is a defect of [rtw_xmitframe_coalesce]
    ([fragments_share_nonce] in XmitAir). *)
Theorem tx_pn_consecutive l stas out stas' i sta :
  tx_run l stas = Ret (out, stas') → Forall (λ o, is_wep o.2.(encrypt) = false) out →
  Forall (λ s, 0 ≤ s.(dot11txpn) ∧ s.(dot11txpn) + Z.of_nat (length l) < 2 ^ 48) stas → stas !! i = Some sta →
  NoDup (pns_of i out) ∧
  ∃ n sta', stas' !! i = Some sta' ∧ sta'.(dot11txpn) = sta.(dot11txpn) + n ∧
    pns_of i out = seqZ (sta.(dot11txpn) + 1) n.
Proof.
  intros Hr Hw Hs Hi. destruct (pns_of_run l stas out stas' i sta Hr Hw Hs Hi) as (n & sta' & H1 & H2 & _ & H3).
  split; [rewrite H3; apply NoDup_seqZ|]. by exists n, sta'.
Qed.

(** A packet that is no key handshake frame changes nothing of its station on the way to
    the security attributes. *)
Lemma classify_data ad stk pkt i sta l4 :
  l4.(ether_type) ≠ ETH_P_PAE →
  ∃ l4' reqs, classify_l4 ad stk pkt i sta l4 = Ret (NON_EAPOL, l4', sta.(state), reqs) ∧ l4'.(ether_type) = l4.(ether_type).
Proof.
  intros He. unfold classify_l4. rewrite (proj2 (Z.eqb_neq _ _) He). destruct (_ =? ETH_P_IP); [|by do 2 eexists].
  destruct (pktfile_read _ _ 20) as [got pos]. destruct (_ =? 1); [by do 2 eexists|].
  destruct (_ =? 17); [destruct (classify_udp _ _); by do 2 eexists|].
  destruct (_ && _); by do 2 eexists.
Qed.

Definition tx_algo (ad : tx_adapter) (sta : sta_tx) (a : xmit_attrib) (ra : list Z) : Z :=
  GET_ENCRY_ALGO ad sta.(dot118021XPrivacy) a.(x_sec).(encrypt) (IS_MCAST ra).
Lemma sec_info_data ad a sta ra et ok s sta' :
  et ≠ ETH_P_PAE → ad.(fw_state) .& WIFI_MP_STATE = 0 → update_attrib_sec_info ad a sta ra et NON_EAPOL = (ok, s, sta') →
  let alg := GET_ENCRY_ALGO ad sta.(dot118021XPrivacy) a.(encrypt) (IS_MCAST ra) in
  (ok = true ↔ sta.(ieee8021x_blocked) = false ∧ (alg = TKIP → ad.(tkipkey_set) = true)) ∧
  (ok = false → sta' = sta) ∧
  (ok = true → s.(encrypt) = alg ∧
    (0 < alg → let n := if alg .& SEC_TYPE_256 =? 0 then 16%nat else 32%nat in
               take (n `min` length sta.(sta_UncstKey)) s.(UncstKey) = take n sta.(sta_UncstKey)) ∧
    (alg ≠ 0 → ad.(hw_decrypted) = false → s.(bswenc) = true)).
Proof.
  intros He Hm. unfold update_attrib_sec_info, sec_algo. rewrite (proj2 (Z.eqb_neq _ _) He), Hm. cbv zeta.
  rewrite (bool_decide_false (NON_EAPOL = EAPOL_2_4 ∨ _)) by (intros [?|?]; done). cbn [andb negb Z.eqb].
  rewrite orb_false_r. destruct (ieee8021x_blocked sta).
  { intros [= <- <- <-]. split; [|done]. split; [done|]. by intros [? _]. }
  set (alg := GET_ENCRY_ALGO _ _ _ _). rewrite andb_false_r. set (idx := match dot11AuthAlgrthm ad with dot11AuthAlgrthm_8021X => _ | _ => _ end).
  destruct (sec_iv ad (IS_MCAST ra) alg idx (dot11txpn sta) (iv a)) as [[[[ivl icvl] ivs] v]|] eqn:E.
  - intros [= <- <- <-]. cbn [encrypt UncstKey bswenc]. split_and!; [|done|].
    + split; [|done]. intros _. split; [done|]. intros Ht. unfold sec_iv in E. rewrite Ht in E. cbn in E.
      by destruct (tkipkey_set ad).
    + intros _. split; [done|]. split.
      * intros Hp. rewrite (proj2 (Z.ltb_lt _ _) Hp). cbv zeta. set (n := if alg .& _ =? 0 then 16%nat else 32%nat).
        rewrite take_app_le by (rewrite length_take; lia). rewrite take_take.
        destruct (Nat.le_ge_cases n (length (sta_UncstKey sta))).
        -- by rewrite (Nat.min_l n), (Nat.min_id n) by lia.
        -- rewrite (Nat.min_r n (length _)), Nat.min_l by lia. by rewrite !take_ge by lia.
      * intros Hne Hh. rewrite Hh, (proj2 (Z.eqb_neq _ _) Hne). cbn [negb andb]. by rewrite !orb_true_r.
  - intros [= <- <- <-]. split_and!; [|done|done]. split; [done|]. intros [_ Ht].
    unfold sec_iv in E. destruct (is_wep alg); [done|]. destruct (Z.eqb_spec alg TKIP) as [Et|]; [by rewrite (Ht Et) in E|].
    destruct (alg =? SecFrames.AES); [done|]. by destruct (_ || _).
Qed.

(** C10: encryption is enforced: a packet to a known station that is no key
    handshake frame (and outside of manufacturing tests) passes exactly when the
    station is associated, has completed authentication and, for TKIP, a key is set;
    then it carries the algorithm configured for its destination, the key of
    the station, and is encrypted in software when the hardware does not; a
    packet that does not pass takes no packet number. *)
Theorem tx_encryption_enforced ad stk ether0 pkt a stas ok a' stas' reqs i sta :
  update_attrib rtw_get_stainfo ad stk ether0 pkt a stas = Ret (ok, a', stas', reqs) →
  rtw_get_stainfo a'.(x_addr).(ra) = Some i → stas !! i = Some sta →
  a'.(x_l4).(ether_type) ≠ ETH_P_PAE → ad.(fw_state) .& WIFI_MP_STATE = 0 →
  let alg := tx_algo ad sta a a'.(x_addr).(ra) in
  (ok = true ↔ sta.(state) .& WIFI_ASOC_STATE ≠ 0 ∧ sta.(ieee8021x_blocked) = false ∧ (alg = TKIP → ad.(tkipkey_set) = true)) ∧
  (ok = false → stas' = stas) ∧
  (ok = true → a'.(x_sec).(encrypt) = alg ∧
    (0 < alg → let n := if alg .& SEC_TYPE_256 =? 0 then 16%nat else 32%nat in
               take (n `min` length sta.(sta_UncstKey)) a'.(x_sec).(UncstKey) = take n sta.(sta_UncstKey)) ∧
    (alg ≠ 0 → ad.(hw_decrypted) = false → a'.(x_sec).(bswenc) = true)).
Proof.
  unfold update_attrib. cbv zeta. set (a1 := set_addr _ _).
  destruct (rtw_get_stainfo (ra (x_addr a1))) as [j|] eqn:Hj; cycle 1.
  { intros [= <- <- <- <-] Hi. by rewrite Hj in Hi. }
  destruct (stas !! j) as [sj|] eqn:Hsj; [|done].
  destruct (Z.eqb_spec (state sj .& WIFI_ASOC_STATE) 0) as [Ha|Ha].
  { intros [= <- <- <- <-] Hi Hs _ _. assert (i = j) as -> by congruence. assert (sj = sta) as -> by congruence. split_and!; [|done..].
    split; [done|]. by intros [? _]. }
  destruct (decide (ether_type (x_l4 a1) = ETH_P_PAE)) as [Hp|Hp].
  { destruct (classify_l4 _ _ _ _ _ _) as [[[[eapol l4] st] r]| |] eqn:Ec; [|done..]. cbn [cbind].
    assert (ether_type l4 = ETH_P_PAE) as Hl.
    { unfold classify_l4 in Ec. rewrite Hp in Ec. cbn in Ec. destruct (parsing_eapol_packet _ _ _) as [[]| |]; [|done..].
      by injection Ec as <- <- <- <-. }
    unfold post_l4. destruct (update_attrib_sec_info _ _ _ _ _ _) as [[[] s] sta0]; cbn [negb]; intros [= <- <- <- <-] _ _ Hne; done. }
  destruct (classify_data ad stk pkt j sj (x_l4 a1) Hp) as (l4 & r & -> & Hl). cbn [cbind].
  assert (set_state (state sj) sj = sj) as -> by (by destruct sj).
  unfold post_l4. destruct (update_attrib_sec_info _ _ _ _ _ _) as [[ok0 s] sta0] eqn:E. intros H Hi Hs He Hm.
  assert (x_addr a' = x_addr a1) as Hadr by (destruct ok0; by injection H as <- <- <- <-). rewrite Hadr in Hi |- *.
  assert (i = j) as -> by congruence. assert (sj = sta) as -> by congruence.
  assert (ether_type (x_l4 (set_l4 l4 a1)) ≠ ETH_P_PAE) as He' by (cbn [x_l4 set_l4]; congruence).
  pose proof (sec_info_data ad _ _ _ _ _ _ _ He' Hm E) as (H1 & H2 & H3).
  assert (ok0 = ok ∧ x_sec a' = s ∧ stas' = <[j := sta0]> stas) as (-> & <- & ->)
    by (destruct ok0; injection H as <- <- <- <-; done).
  split; [split; [intros Hok; by split; [|apply H1]|intros [_ ?]; by apply H1]|]. split; [|exact H3].
  intros Hok. rewrite (H2 Hok). by apply list_insert_id.
Qed.
End run.

(** ** Examples *)
(** A station associated with an access point under CCMP; the table holds the group
    station and the access point. *)
Definition ap_addr : list Z := [2; 0; 0; 0; 0; 1].
Definition sta_addr : list Z := [2; 0; 0; 0; 0; 2].
Definition far_addr : list Z := [2; 0; 0; 0; 0; 9].
Definition demo_table : sta_priv :=
  snd (StaTable.rtw_alloc_stainfo (snd (StaTable.rtw_init_bcmc_stainfo (StaTable.rtw_init_sta_priv 32))) ap_addr).
Definition demo_phy : sta_phy := Build_sta_phy 0 0 4 1 1 1 0 false 0 0 1 0 0 true 1 false.
Definition demo_key : list Z := List.map Z.of_nat (seq 1 16) ++ replicate 16 0.
Definition demo_sta (blocked : bool) : sta_tx :=
  Build_sta_tx 1 blocked 100000 4 7 demo_key (replicate 32 0) true 1 0 rtw_st_ctl_init demo_phy (replicate 16 0) (replicate 16 0).
Definition demo_stas : list sta_tx := replicate NUM_STA (demo_sta false).
Definition demo_adapter : tx_adapter :=
  Build_tx_adapter 9 sta_addr ap_addr true 0 false 0 0 dot11AuthAlgrthm_8021X 4 4 0 1 true true false 0 false false
    6 1 1 true 0xFF 0.
Definition demo_stack : stack := Build_stack (replicate 20 0) (replicate 24 0) (replicate 20 0).
Definition demo_pkt (et : list Z) (payload : list Z) : list Z := far_addr ++ sta_addr ++ et ++ payload.
Definition demo_input (payload : list Z) : tx_input :=
  Build_tx_input demo_adapter demo_stack (replicate 14 0) (demo_pkt [0x86; 0xdd] payload) no_attrib.

Lemma tx_pn_consecutive_witness :
  ∃ i sta out stas', StaTable.rtw_get_stainfo demo_table ap_addr = Some i ∧ demo_stas !! i = Some sta ∧
    tx_run (StaTable.rtw_get_stainfo demo_table) [demo_input [1; 2; 3]; demo_input [4]] demo_stas = Ret (out, stas') ∧
    length out = 2%nat ∧ NoDup (pns_of i out) ∧
    ∃ n sta', stas' !! i = Some sta' ∧ sta'.(dot11txpn) = sta.(dot11txpn) + n ∧ pns_of i out = seqZ (sta.(dot11txpn) + 1) n.
Proof.
  destruct (tx_run (StaTable.rtw_get_stainfo demo_table) [demo_input [1; 2; 3]; demo_input [4]] demo_stas)
    as [[out stas']| |] eqn:E; [|vm_compute in E; discriminate E..].
  assert (length out = 2%nat ∧ Forall (λ o, is_wep o.2.(encrypt) = false) out) as [Hl Hw].
  { vm_compute in E. injection E as <- <-. split; [reflexivity|]. repeat constructor. }
  exists 1%nat, (demo_sta false), out, stas'. split; [vm_compute; reflexivity|]. split; [reflexivity|]. split; [done|]. split; [exact Hl|].
  apply (tx_pn_consecutive (StaTable.rtw_get_stainfo demo_table) _ demo_stas out stas' 1 (demo_sta false) E Hw); [|reflexivity].
  apply Forall_replicate. cbn. lia.
Defined.

Lemma tx_encryption_enforced_witness :
  match update_attrib (StaTable.rtw_get_stainfo demo_table) demo_adapter demo_stack (replicate 14 0)
          (demo_pkt [0x86; 0xdd] [1; 2; 3]) no_attrib demo_stas with
  | Ret (ok, a', stas', reqs) =>
      ok = true ∧ a'.(x_sec).(encrypt) = SecFrames.AES ∧ take 16 a'.(x_sec).(UncstKey) = take 16 demo_key ∧ a'.(x_sec).(bswenc) = true
  | _ => False
  end.
Proof.
  destruct (update_attrib _ _ _ _ _ _ _) as [[[[ok a'] stas'] reqs]| |] eqn:E; [|vm_compute in E; discriminate E..].
  assert (x_addr a' = Build_addr_attrib far_addr sta_addr sta_addr ap_addr ∧ ether_type (x_l4 a') = 0x86dd) as [Ha He].
  { vm_compute in E. injection E as <- <- <- <-. split; reflexivity. }
  pose proof (tx_encryption_enforced (StaTable.rtw_get_stainfo demo_table) demo_adapter demo_stack (replicate 14 0) _ _ _
    ok a' stas' reqs 1 (demo_sta false) E) as H. rewrite Ha, He in H.
  destruct H as (H1 & _ & H3); [vm_compute; reflexivity|reflexivity|discriminate|reflexivity|].
  assert (ok = true) as Hok by (apply H1; split_and!; [discriminate|reflexivity|discriminate]).
  destruct (H3 Hok) as (H4 & H5 & H6). split; [exact Hok|]. split; [exact H4|]. split; [apply H5; reflexivity|].
  apply H6; [discriminate|reflexivity].
Defined.

(** Only the bit of priority 0 makes a trigger frame: the masked bit is compared with 1. *)
Theorem trigger_frame_priority_0 ad prio :
  0 < prio → update_attrib_trigger_frame_info ad prio = false.
Proof.
  intros Hp. unfold update_attrib_trigger_frame_info. apply andb_false_intro2, Z.eqb_neq. intros H.
  assert (Z.testbit (uapsd_tid ad .& BIT prio) 0 = true) as Hb by (by rewrite H).
  unfold BIT in Hb. rewrite Z.land_spec, Z.shiftl_spec_low, andb_false_r in Hb by lia. done.
Qed.
(** An IP packet with options: the bytes skipped are counted wrong, nothing of the
    packet is left, and the ports of a DHCP request are those on the stack. *)
Definition dhcp_with_options : list Z :=
  demo_pkt [8; 0] ([0x46; 0; 1; 48; 0; 0; 0; 0; 64; 0x11; 0; 0; 10; 0; 0; 2; 10; 0; 0; 1] ++ [1; 1; 1; 1]
    ++ [0; 68; 0; 67] ++ replicate 300 0).
Theorem dhcp_with_options_missed :
  classify_l4 demo_adapter demo_stack dhcp_with_options 1 (demo_sta false) (Build_l4_attrib ETH_P_IP 0 false false false) =
  Ret (NON_EAPOL, Build_l4_attrib ETH_P_IP 328 false false false, 1, []).
Proof. vm_compute. reflexivity. Qed.
(** A key handshake packet shorter than the fields that are read runs out of the packet. *)
Theorem short_eapol_oob : parsing_eapol_packet false [2; 3; 0; 95; 2; 1; 8] 1 = Oob.
Proof. vm_compute. reflexivity. Qed.
