(* ===== verification/RxValidate.v ===== *)
(** * Acceptance of received data frames: [validate_recv_data_frame] and [portctrl]
      of [core/rtw_recv.c], [rtw_sta_rx_data_validate_hdr] of
      [core/rtw_recv_sta_rest.c], [rtw_ap_rx_data_validate_hdr] of [core/rtw_ap.c]

    A data frame is taken apart: addresses by the role of the adapter, the station
    it comes from, sequence and packet numbers (RecvPn), the cipher it must be
    protected with; frames without protection are dropped in a protected
    network.  Behind the decryptor (SecFrames) and the reassembly (Defrag),
    [portctrl] lets only key handshake frames of stations pass that are not
    authenticated.  The adapter and the stations are those of XmitAttrib.  What is
    asked of other parts (deauthentication, power saving, statistics) is a list
    of requests.  Mesh, WDS, TDLS and WAPI are configured out. *)
From S2P Require Import Prelude.
From stdpp Require Import list.
From S2P Require Import CryptoWrap Mem Blocks Ccmp Swcrypto StaTable RecvFrame Defrag WepTkip RecvPn SecFrames MgmtProtect XmitAttrib.
Local Open Scope Z_scope.

Definition WIFI_SLEEP_STATE : Z := 0x00000004.
Definition WIFI_UNDER_LINKING : Z := 0x00000080.
Definition LLC_HEADER_SIZE : nat := 6.

Inductive verdict := V_SUCCESS | V_FAIL | V_HANDLED.
Inductive rx_request :=
  | RxDeauth (addr : list Z) | RxPower (sta : nat) (asleep : bool) | RxTrigger (sta : nat) | RxCount (sta : nat).

(** ** The header *)
(** The bits [validate_recv_frame] reads; [mem] is the memory from [rx_data] on. *)
Record rx_hdr := {
  subtype : Z; to_fr_ds : Z; frag_num : Z; seq_num : Z; pw_save : bool; mfrag : bool; privacy : bool; order : bool
}.
Definition read_hdr (mem : list Z) : cres rx_hdr :=
  let* fc := mem_read mem 0 2 in
  let* sc := mem_read mem 22 2 in
  let bit k := Z.testbit (fc.[1]) k in
  Ret {| subtype := fc.[0] .& 0xfc;
         to_fr_ds := ((if bit 1 then 1 else 0) << 1) .| (if bit 0 then 1 else 0);
         frag_num := RTW_GET_LE16 sc .& 0x0f; seq_num := RTW_GET_LE16 sc >> 4;
         pw_save := bit 4; mfrag := bit 2; privacy := bit 6; order := bit 7 |}.
Definition addr_at (mem : list Z) (off : nat) : cres (list Z) := mem_read mem off 6.

(** The addresses of the attributes. *)
Record rx_addrs := { r_ra : list Z; r_ta : list Z; r_dst : list Z; r_src : list Z; r_bssid : list Z }.

Section rx.
Context (rtw_get_stainfo : list Z → option nat).
(** [radar]: IS_RADAR_DETECTED; [deauth_due]: no deauthentication was sent in the last ten
    seconds; [no_amsdu]: WLAN_STA_AMSDU_DISABLE of a station. *)
Context (ad : tx_adapter) (stas : list sta_tx) (radar deauth_due : bool) (no_amsdu : nat → bool).

Definition in_state (st : Z) : bool := negb (ad.(fw_state) .& st =? 0).

(** The three ways out of a validation: the addresses are what was read so far. *)
Definition out : Type := verdict * rx_addrs * option nat * list rx_request.

(** [rtw_sta_rx_data_validate_hdr] *)
Definition rtw_sta_rx_data_validate_hdr (h : rx_hdr) (amsdu : bool) (mem : list Z) (old : rx_addrs) : cres out :=
  let* a1 := addr_at mem 4 in
  let* a2 := addr_at mem 10 in
  let* a3 := addr_at mem 16 in
  let bmc := IS_MCAST a1 in
  if h.(to_fr_ds) =? 0 then
    let a := {| r_ra := a1; r_ta := a2; r_dst := a1; r_src := a2; r_bssid := a3 |} in
    if negb (bool_decide (a3 = a2)) then Ret (V_FAIL, a, None, [])
    else match rtw_get_stainfo a2 with
         | Some i => Ret (V_SUCCESS, a, Some i, [])
         | None => Ret (V_FAIL, a, None, [])
         end
  else if ad.(fw_state) .& (WIFI_ASOC_STATE .| WIFI_UNDER_LINKING) =? 0 then
    Ret (V_FAIL, old, None, if negb bmc && deauth_due then [RxDeauth a2] else [])
  else
    let* r := if h.(to_fr_ds) =? 2 then Ret (Some {| r_ra := a1; r_ta := a2; r_dst := a1; r_src := a3; r_bssid := a2 |})
              else if h.(to_fr_ds) =? 3 then
                let* a4 := addr_at mem 24 in
                Ret (Some {| r_ra := a1; r_ta := a2; r_dst := a3; r_src := a4; r_bssid := a2 |})
              else Ret None in
    match r with
    | None => Ret (V_HANDLED, {| r_ra := a1; r_ta := a2; r_dst := old.(r_dst); r_src := old.(r_src); r_bssid := old.(r_bssid) |}, None, [])
    | Some a =>
        if negb amsdu && bool_decide (ad.(my_addr) = a.(r_src)) then Ret (V_FAIL, a, None, [])
        else match rtw_get_stainfo a2 with
             | None => Ret (V_FAIL, a, None, if negb bmc && negb radar then [RxDeauth a2] else [])
             | Some i =>
                 if Z.testbit h.(subtype) 6 then Ret (V_HANDLED, a, Some i, [RxCount i]) else Ret (V_SUCCESS, a, Some i, [])
             end
    end.

(** [rtw_ap_rx_data_validate_hdr], with [process_pwrbit_data]; [process_wmmps_data] is a
    request. *)
Definition process_pwrbit_data (h : rx_hdr) (i : nat) (sta : sta_tx) : list rx_request :=
  let asleep := negb (sta.(state) .& WIFI_SLEEP_STATE =? 0) in
  if h.(pw_save) then if asleep then [] else [RxPower i true] else if asleep then [RxPower i false] else [].
Definition rtw_ap_rx_data_validate_hdr (h : rx_hdr) (mem : list Z) (old : rx_addrs) : cres out :=
  if ad.(fw_state) .& WIFI_ASOC_STATE =? 0 then Ret (V_FAIL, old, None, [])
  else
    let* a1 := addr_at mem 4 in
    let bmc := IS_MCAST a1 in
    let* r :=
      if h.(to_fr_ds) =? 1 then
        if bmc then Ret (inl V_FAIL)
        else
          let* a2 := addr_at mem 10 in let* a3 := addr_at mem 16 in
          Ret (inr {| r_ra := a1; r_ta := a2; r_dst := a3; r_src := a2; r_bssid := a1 |})
      else if h.(to_fr_ds) =? 3 then
        let* a2 := addr_at mem 10 in let* a3 := addr_at mem 16 in let* a4 := addr_at mem 24 in
        Ret (inr {| r_ra := a1; r_ta := a2; r_dst := a3; r_src := a4; r_bssid := if bmc then old.(r_bssid) else a1 |})
      else Ret (inl V_HANDLED) in
    match r with
    | inl v => Ret (v, old, None, [])
    | inr a =>
        match rtw_get_stainfo a.(r_ta) with
        | None =>
            let multi := (h.(to_fr_ds) =? 3) && bmc in
            Ret (V_HANDLED, a, None, if negb multi && negb radar then [RxDeauth a.(r_ta)] else [])
        | Some i =>
            match stas !! i with
            | None => Oob
            | Some sta =>
                let reqs := process_pwrbit_data h i sta ++
                  (if h.(subtype) .& WIFI_QOS_DATA_SUBTYPE =? WIFI_QOS_DATA_SUBTYPE then [RxTrigger i] else []) in
                if Z.testbit h.(subtype) 6 then Ret (V_HANDLED, a, Some i, reqs ++ [RxCount i]) else Ret (V_SUCCESS, a, Some i, reqs)
            end
        end
    end.

(** The other modes: an ad hoc network, or the manufacturing tests. *)
Definition mp_addrs (a1 a2 a3 : list Z) : rx_addrs := {| r_ra := a1; r_ta := a2; r_dst := a1; r_src := a2; r_bssid := a3 |}.
Definition sta2sta_data_frame (a1 a2 a3 : list Z) : out :=
  let a := mp_addrs a1 a2 a3 in
  if in_state (WIFI_ADHOC_STATE .| WIFI_ADHOC_MASTER_STATE) then
    if bool_decide (ad.(my_addr) = a2)
       || (negb (bool_decide (ad.(my_addr) = a1)) && negb (IS_MCAST a1))
       || bool_decide (a3 = no_addr) || bool_decide (ad.(bssid) = no_addr) || negb (bool_decide (a3 = ad.(bssid)))
    then (V_FAIL, a, None, [])
    else match rtw_get_stainfo a2 with None => (V_FAIL, a, None, []) | Some i => (V_SUCCESS, a, Some i, []) end
  else
    let mp := in_state WIFI_MP_STATE in
    match rtw_get_stainfo (if mp then ad.(bssid) else a2) with
    | None => (V_FAIL, a, None, [])
    | Some i => (if mp then V_SUCCESS else V_FAIL, a, Some i, [])
    end.
Definition sta2ap_data_frame (a1 a2 a3 : list Z) : out :=
  if in_state WIFI_MP_STATE && in_state WIFI_ASOC_STATE then
    match rtw_get_stainfo a3 with
    | None => (V_FAIL, mp_addrs a1 a2 a3, None, [])
    | Some i => (V_SUCCESS, mp_addrs a1 a2 a3, Some i, [])
    end
  else
    (V_HANDLED, {| r_ra := a1; r_ta := a2; r_dst := a3; r_src := a2; r_bssid := a1 |}, None,
     if bool_decide (a1 = ad.(my_addr)) then [RxDeauth a2] else []).
Definition ap2sta_data_frame (a1 a2 a3 : list Z) : out :=
  if in_state WIFI_MP_STATE && in_state WIFI_ASOC_STATE then
    match rtw_get_stainfo a3 with
    | None => (V_FAIL, mp_addrs a1 a2 a3, None, [])
    | Some i => (V_SUCCESS, mp_addrs a1 a2 a3, Some i, [])
    end
  else
    let psta := if bool_decide (ad.(my_addr) = a1) && negb (IS_MCAST a1) then rtw_get_stainfo a2 else None in
    (V_FAIL, {| r_ra := a1; r_ta := a2; r_dst := a1; r_src := a3; r_bssid := a2 |}, psta,
     if bool_decide (ad.(my_addr) = a1) && negb (IS_MCAST a1) && bool_decide (psta = None) && deauth_due then [RxDeauth a2] else []).
Definition other_rx_data_validate_hdr (h : rx_hdr) (mem : list Z) (old : rx_addrs) : cres out :=
  let* a1 := addr_at mem 4 in
  let* a2 := addr_at mem 10 in
  let* a3 := addr_at mem 16 in
  Ret (if h.(to_fr_ds) =? 0 then sta2sta_data_frame a1 a2 a3
       else if h.(to_fr_ds) =? 1 then sta2ap_data_frame a1 a2 a3
       else if h.(to_fr_ds) =? 2 then ap2sta_data_frame a1 a2 a3
       else (V_FAIL, old, None, [])).
Definition validate_hdr (h : rx_hdr) (amsdu : bool) (mem : list Z) (old : rx_addrs) : cres out :=
  if in_state WIFI_AP_STATE then rtw_ap_rx_data_validate_hdr h mem old
  else if in_state WIFI_STATION_STATE then rtw_sta_rx_data_validate_hdr h amsdu mem old
  else other_rx_data_validate_hdr h mem old.

(** ** Protection *)
(** The end of [validate_recv_data_frame]: whether a frame may be without protection. *)
Definition drop_unprotected (h : rx_hdr) (a : rx_addrs) (sta : sta_tx) (amsdu : bool) (hdrlen iv_len : nat) (mem : list Z)
    : cres bool :=
  if ad.(dot11PrivacyAlgrthm) =? NO_PRIVACY then Ret false
  else if IS_MCAST a.(r_ra) then Ret (negb h.(privacy))
  else
    let* et := mem_read mem (hdrlen + iv_len + LLC_HEADER_SIZE) 2 in
    let ether_type := RTW_GET_BE16 et in
    Ret (if bool_decide (ad.(dot11AuthAlgrthm) = dot11AuthAlgrthm_8021X) then
           (negb h.(privacy) && negb (ether_type =? ETH_P_PAE))
           || (negb h.(privacy) && amsdu)
           || ((ether_type =? ETH_P_PAE) && in_state (WIFI_AP_STATE .| WIFI_MESH_STATE)
               && (sta.(dot118021XPrivacy) =? NO_PRIVACY) && negb (bool_decide (ad.(my_addr) = a.(r_dst))))
         else negb h.(privacy)).

(** The attributes of an accepted frame. *)
Record rx_info := {
  v_hdr : rx_hdr; v_addr : rx_addrs; v_psta : nat; v_amsdu : bool; v_qos : bool; v_priority : nat; v_ack_policy : Z;
  v_hdrlen : nat; v_encrypt : Z; v_iv_len : nat; v_icv_len : nat
}.
(** What the duplicate and replay checks of RecvPn keep: a state for every station, and
    the numbers of the group keys. *)
Record rx_counters := { sta_rx : list rx_state; grp_iv : list (list Z) }.

(** [validate_recv_data_frame]; [enc0] is [pattrib->encrypt] as the hardware
    reported it, which the packet number checks look at. *)
Definition validate_recv_data_frame (enc0 : Z) (old : rx_addrs) (c : rx_counters) (h : rx_hdr) (mem : list Z)
    : cres (verdict * option rx_info * rx_counters * list rx_request) :=
  let a4_shift := if h.(to_fr_ds) =? 3 then 6%nat else 0%nat in
  let qos := Z.testbit h.(subtype) 7 in
  let* qc := if qos then let* q := mem_read mem (24 + a4_shift) 2 in Ret (RTW_GET_LE16 q) else Ret 0 in
  let amsdu := Z.testbit qc 7 in
  let* (v, a, psta, reqs) := validate_hdr h amsdu mem old in
  match v, psta with
  | V_FAIL, _ => Ret (V_FAIL, None, c, reqs)
  | V_HANDLED, _ => Ret (V_HANDLED, None, c, reqs)
  | V_SUCCESS, None => Ret (V_FAIL, None, c, reqs)
  | V_SUCCESS, Some i =>
      match stas !! i, c.(sta_rx) !! i with
      | Some sta, Some rx =>
          if no_amsdu i && amsdu then Ret (V_FAIL, None, c, reqs)
          else
            let prio := Z.to_nat (qc .& 0xf) in
            let ack := (qc >> 5) .& 3 in
            let hdrlen := ((if qos then 26 else 24) + a4_shift + if h.(order) then 4 else 0)%nat in
            let mcast := IS_MCAST a.(r_ra) in
            let f := RxAttr enc0 hdrlen prio qos mcast h.(seq_num) h.(frag_num) mem in
            let* (ok, rx') := rx_checks (in_state WIFI_STATION_STATE) (set_iv_seq c.(grp_iv) rx) f in
            let c := {| sta_rx := <[i := rx']> c.(sta_rx); grp_iv := rx'.(iv_seq) |} in
            if negb ok then Ret (V_FAIL, None, c, reqs)
            else
              let e := if h.(privacy) then GET_ENCRY_ALGO ad sta.(dot118021XPrivacy) enc0 mcast else 0 in
              let '(ivl, icvl) := if h.(privacy) then iv_icv_len e else (0, 0)%nat in
              let* bad := drop_unprotected h a sta amsdu hdrlen ivl mem in
              if bad then Ret (V_FAIL, None, c, reqs)
              else Ret (V_SUCCESS, Some (Build_rx_info h a i amsdu qos prio ack hdrlen e ivl icvl), c, reqs)
      | _, _ => Oob
      end
  end.

(** [validate_recv_frame] for the version and type of a data frame; management and
    control frames are handled on other ways and are never passed on. *)
Definition validate_recv_frame (enc0 : Z) (old : rx_addrs) (c : rx_counters) (mem : list Z)
    : cres (verdict * option rx_info * rx_counters * list rx_request) :=
  let* b := mem_byte mem 0 in
  if negb (b .& 3 =? 0) then Ret (V_FAIL, None, c, [])
  else
    let* h := read_hdr mem in
    if b .& 0x0c =? 0x08 then validate_recv_data_frame enc0 old c h mem else Ret (V_FAIL, None, c, []).

(** ** The port *)
(** [portctrl]: whether the frame is passed on; [mem] is decrypted. *)
Definition portctrl (x : rx_info) (mem : list Z) : cres bool :=
  if bool_decide (ad.(dot11AuthAlgrthm) = dot11AuthAlgrthm_8021X) then
    match rtw_get_stainfo x.(v_addr).(r_ta) with
    | None => Ret true
    | Some i =>
        match stas !! i with
        | None => Oob
        | Some sta =>
            if sta.(ieee8021x_blocked) then
              let* et := mem_read mem (x.(v_hdrlen) + x.(v_iv_len) + LLC_HEADER_SIZE) 2 in Ret (RTW_GET_BE16 et =? ETH_P_PAE)
            else Ret true
        end
    end
  else Ret true.
End rx.

(** ** One frame through the receive path *)
(** [recv_func_prehandle] and [recv_func_posthandle] for a frame that is no fragment:
    validation, decryption, the port.  [bdecrypted]: the hardware has decrypted it. *)
Section path.
Context (rtw_get_stainfo : list Z → option nat).
Context (kmalloc : Z → bool) (amsdu_mode : Z) (ieee80211w concurrent : bool).
Context (ad : tx_adapter) (stas : list sta_tx) (radar deauth_due : bool) (no_amsdu : nat → bool).

Definition sta_keys_of (ta : list Z) : option sta_keys :=
  i ← rtw_get_stainfo ta; sta ← stas !! i; Some (StaKeys sta.(sta_UncstKey) [] 0).
Definition frame_of (x : rx_info) (mem : list Z) (len : Z) : recv_frame :=
  RecvFrame x.(v_encrypt) x.(v_hdrlen) x.(v_iv_len) 0 x.(v_addr).(r_ra) x.(v_addr).(r_ta) len mem.
Definition recv_single (s : sec_state) (enc0 : Z) (old : rx_addrs) (c : rx_counters) (mem : list Z) (len : Z) (bdecrypted : bool)
    : cres (option (rx_info * list Z) * sec_state * rx_counters * list rx_request) :=
  let* (v, x, c, reqs) := validate_recv_frame rtw_get_stainfo ad stas radar deauth_due no_amsdu enc0 old c mem in
  match v, x with
  | V_SUCCESS, Some x =>
      let* (s, r) := decryptor kmalloc amsdu_mode true ieee80211w concurrent s (sta_keys_of x.(v_addr).(r_ta))
                       (RxFrame (frame_of x mem len) bdecrypted) in
      match r with
      | None => Ret (None, s, c, reqs)
      | Some rx' =>
          let mem := WepTkip.rx_data (rf rx') in
          let* ok := portctrl rtw_get_stainfo ad stas x mem in
          Ret (if (ok : bool) then Some (x, mem) else None, s, c, reqs)
      end
  | _, _ => Ret (None, s, c, reqs)
  end.

(** What an accepted frame's attributes come from. *)
Record accepted (enc0 : Z) (mem : list Z) (x : rx_info) (sta : sta_tx) : Prop := {
  acc_sta : stas !! x.(v_psta) = Some sta;
  acc_enc : x.(v_encrypt) = if x.(v_hdr).(privacy) then GET_ENCRY_ALGO ad sta.(dot118021XPrivacy) enc0 (IS_MCAST x.(v_addr).(r_ra)) else 0;
  acc_iv : x.(v_iv_len) = if x.(v_hdr).(privacy) then (iv_icv_len x.(v_encrypt)).1 else 0%nat;
  acc_kept : drop_unprotected ad x.(v_hdr) x.(v_addr) sta x.(v_amsdu) x.(v_hdrlen) x.(v_iv_len) mem = Ret false;
  acc_hdr : ∃ old reqs, validate_hdr rtw_get_stainfo ad stas radar deauth_due x.(v_hdr) x.(v_amsdu) mem old =
            Ret (V_SUCCESS, x.(v_addr), Some x.(v_psta), reqs)
}.

Lemma validate_accepted enc0 old c mem x c' reqs :
  validate_recv_frame rtw_get_stainfo ad stas radar deauth_due no_amsdu enc0 old c mem = Ret (V_SUCCESS, Some x, c', reqs) →
  ∃ sta, accepted enc0 mem x sta.
Proof.
  unfold validate_recv_frame. destruct (mem_byte mem 0) as [b| |]; [|done..]. cbn [cbind].
  destruct (negb _); [done|]. destruct (read_hdr mem) as [h| |]; [|done..]. cbn [cbind]. destruct (_ =? 8); [|done].
  unfold validate_recv_data_frame. cbv zeta.
  destruct (if Z.testbit (subtype h) 7 then _ else _) as [qc| |]; [|done..]. cbn [cbind].
  destruct (validate_hdr _ _ _ _ _ _ _ _ _) as [[[[v a] psta] r]| |] eqn:Eh; [|done..]. cbn [cbind].
  destruct v, psta as [i|]; try done. destruct (stas !! i) as [sta|] eqn:Hs; [|done]. destruct (sta_rx c !! i) as [rx|]; [|done].
  destruct (no_amsdu i && _); [done|]. destruct (rx_checks _ _ _) as [[[] rx']| |]; [|done..]. cbn [cbind negb].
  set (e := if privacy h then _ else 0). destruct (if privacy h then iv_icv_len e else _) as [ivl icvl] eqn:Ei.
  destruct (drop_unprotected _ _ _ _ _ _ _ _) as [[]| |] eqn:Ed; [done| |done..]. cbn [cbind]. intros [= <- <- <-].
  exists sta. constructor; cbn [v_psta v_encrypt v_hdr v_addr v_iv_len v_amsdu v_hdrlen]; try done.
  - destruct (privacy h); [|by injection Ei as <- <-]. by rewrite Ei.
  - by exists old, r.
Qed.

(** Outside of the manufacturing tests the station is that of the transmitter address. *)
Lemma validate_hdr_station h amsdu mem old a i reqs :
  ad.(fw_state) .& WIFI_MP_STATE = 0 →
  validate_hdr rtw_get_stainfo ad stas radar deauth_due h amsdu mem old = Ret (V_SUCCESS, a, Some i, reqs) →
  rtw_get_stainfo a.(r_ta) = Some i.
Proof.
  intros Hm. unfold validate_hdr. destruct (in_state ad WIFI_AP_STATE).
  { unfold rtw_ap_rx_data_validate_hdr. destruct (_ =? 0); [done|]. destruct (addr_at mem 4) as [a1| |]; [|done..]. cbn [cbind].
    match goal with |- context [cbind ?r _] => destruct r as [[v|a0]| |] end; cbn [cbind]; [done| |done..].
    destruct (rtw_get_stainfo (r_ta a0)) as [j|] eqn:Ej; [|done]. destruct (stas !! j); [|done].
    destruct (Z.testbit _ _); [done|]. by intros [= <- <- <-]. }
  destruct (in_state ad WIFI_STATION_STATE).
  { unfold rtw_sta_rx_data_validate_hdr. destruct (addr_at mem 4) as [a1| |], (addr_at mem 10) as [a2| |], (addr_at mem 16) as [a3| |]; try done.
    cbn [cbind]. destruct (_ =? 0).
    - destruct (negb _); [done|]. destruct (rtw_get_stainfo a2) eqn:E; [|done]. by intros [= <- <- <-].
    - destruct (_ =? 0); [done|].
      match goal with |- context [cbind ?r _] => destruct r as [[a0|]| |] eqn:Er end; cbn [cbind]; [| |done..]; [|done].
      assert (r_ta a0 = a2) as Ha.
      { destruct (_ =? 2); [by injection Er as <-|]. destruct (_ =? 3); [|done]. destruct (addr_at mem 24); try done. by injection Er as <-. }
      destruct (_ && _); [done|]. destruct (rtw_get_stainfo a2) eqn:E; [|done]. destruct (Z.testbit _ _); [done|]. intros [= <- <- <-].
      by rewrite Ha. }
  unfold other_rx_data_validate_hdr. destruct (addr_at mem 4) as [a1| |], (addr_at mem 10) as [a2| |], (addr_at mem 16) as [a3| |]; try done.
  assert (in_state ad WIFI_MP_STATE = false) as Hmp by (unfold in_state; by rewrite Hm).
  cbn [cbind]. destruct (_ =? 0).
  { unfold sta2sta_data_frame. rewrite Hmp. destruct (in_state ad (WIFI_ADHOC_STATE .| WIFI_ADHOC_MASTER_STATE)); [destruct (_ || _); [done|]|];
      destruct (rtw_get_stainfo a2) eqn:E; try done. by intros [= <- <- <-]. }
  destruct (_ =? 1); [unfold sta2ap_data_frame; by rewrite Hmp|]. destruct (_ =? 2); [unfold ap2sta_data_frame; by rewrite Hmp|done].
Qed.

(** The Ethernet type behind the LLC header. *)
Definition ether_type_at (x : rx_info) (mem : list Z) : Z :=
  RTW_GET_BE16 (slice (x.(v_hdrlen) + x.(v_iv_len) + LLC_HEADER_SIZE) 2 mem).
Lemma accepted_protected enc0 mem x sta :
  ad.(dot11PrivacyAlgrthm) ≠ NO_PRIVACY → accepted enc0 mem x sta →
  x.(v_hdr).(privacy) = true ∨
  ad.(dot11AuthAlgrthm) = dot11AuthAlgrthm_8021X ∧ IS_MCAST x.(v_addr).(r_ra) = false ∧ x.(v_amsdu) = false ∧
    ether_type_at x mem = ETH_P_PAE.
Proof.
  intros Hp Hx. pose proof (acc_kept _ _ _ _ Hx) as Hk. unfold drop_unprotected in Hk.
  rewrite (proj2 (Z.eqb_neq _ _) Hp) in Hk. destruct (privacy (v_hdr x)); [by left|]. right.
  destruct (IS_MCAST _); [done|]. unfold ether_type_at.
  unfold mem_read in Hk. destruct (_ <=? _)%nat; [|done]. cbn [cbind negb andb] in Hk.
  case_bool_decide as Ha; [|done]. injection Hk as Hk. apply orb_false_iff in Hk as [Hk _]. apply orb_false_iff in Hk as [He Hm].
  apply negb_false_iff, Z.eqb_eq in He. done.
Qed.

Lemma decryptor_plain s keys f s' rx' :
  rx_encrypt f = 0 → decryptor kmalloc amsdu_mode true ieee80211w concurrent s keys (RxFrame f false) = Ret (s', Some rx') →
  WepTkip.rx_data (rf rx') = WepTkip.rx_data f.
Proof. intros He. unfold decryptor, read_key_index. cbn [rf bdecrypted]. rewrite He. cbn. rewrite He. cbn. by intros [= <- <-]. Qed.

(** C5: nothing unauthenticated gets through: in a network with 802.1X
    authentication and CCMP, whose authenticated stations have a CCMP key, a frame that
    is no fragment and that the hardware has not decrypted passes validation, decryption
    and the port only if it is a key handshake frame, or if its transmitter is a known
    and authenticated station and the body handed on is the deciphered body of a
    frame with a valid tag under the key of that station, or under the installed group
    key the frame names if it is addressed to a group. *)
Theorem rx_data_authentic s enc0 old c mem len x mem' s' c' reqs :
  (∀ n, kmalloc n = true) → bytes mem → (16 ≤ length mem)%nat →
  ad.(fw_state) .& WIFI_MP_STATE = 0 → ad.(dot11AuthAlgrthm) = dot11AuthAlgrthm_8021X →
  ad.(dot11PrivacyAlgrthm) ≠ NO_PRIVACY → ad.(dot118021XGrpPrivacy) = SecFrames.AES →
  (∀ i sta, stas !! i = Some sta → sta.(ieee8021x_blocked) = false → sta.(dot118021XPrivacy) = SecFrames.AES) →
  recv_single s enc0 old c mem len false = Ret (Some (x, mem'), s', c', reqs) →
  ether_type_at x mem' = ETH_P_PAE ∨
  ∃ i sta key, rtw_get_stainfo x.(v_addr).(r_ta) = Some i ∧ stas !! i = Some sta ∧ sta.(ieee8021x_blocked) = false ∧
    (if IS_MCAST x.(v_addr).(r_ra) then
       binstallGrpkey (sec s) ≠ 0 ∧ dot118021XGrpKey (sec s) !! dot118021XGrpKeyid (sec s) = Some key ∧
       dot118021XGrpKeyid (sec s) = Z.to_nat ((mem.[x.(v_hdrlen) + 3] >> 6) .& 3)
     else key = sta.(sta_UncstKey)) ∧
    ccmp_authentic kmalloc amsdu_mode key 16 x.(v_hdrlen) len mem mem'.
Proof.
  intros Hmal Hb Hl Hmp Hauth Hpriv Hgrp Hkeys. unfold recv_single.
  destruct (validate_recv_frame _ _ _ _ _ _ _ _ _ _) as [[[[v o] c0] r]| |] eqn:Ev; [|done..]. cbn [cbind].
  destruct v, o as [y|]; try done. destruct (validate_accepted _ _ _ _ _ _ _ Ev) as [sta Hy].
  set (rx := RxFrame (frame_of y mem len) false).
  destruct (decryptor _ _ _ _ _ _ _ rx) as [[s1 [rx'|]]| |] eqn:Ed; [|done..]. cbn [cbind].
  destruct (portctrl _ _ _ _ _) as [[]| |] eqn:Ep; [|done..]. cbn [cbind]. intros [= <- <- <- <- <-].
  destruct (acc_hdr _ _ _ _ Hy) as (old' & r' & Eh). pose proof (validate_hdr_station _ _ _ _ _ _ _ Hmp Eh) as Hta.
  pose proof (acc_sta _ _ _ _ Hy) as Hs. unfold portctrl in Ep. rewrite Hauth, bool_decide_true, Hta, Hs in Ep by done.
  destruct (ieee8021x_blocked sta) eqn:Hblk.
  { left. unfold ether_type_at. unfold mem_read in Ep. destruct (_ <=? _)%nat; [|done]. cbn [cbind] in Ep. injection Ep as Ep. by apply Z.eqb_eq. }
  pose proof (acc_enc _ _ _ _ Hy) as He. destruct (privacy (v_hdr y)) eqn:Hp; cycle 1.
  { left. destruct (accepted_protected _ _ _ _ Hpriv Hy) as [?|(_ & _ & _ & Het)]; [congruence|].
    by rewrite (decryptor_plain _ _ (frame_of y mem len) _ _ He Ed). }
  assert (v_encrypt y = SecFrames.AES) as Hae.
  { rewrite He. unfold GET_ENCRY_ALGO. rewrite Hauth, Hgrp, (Hkeys _ _ Hs Hblk). by destruct (IS_MCAST _). }
  right. destruct (decryptor_authentic kmalloc amsdu_mode Hmal ieee80211w concurrent s _ rx s1 rx' (or_introl Hae) eq_refl Hb Hl Ed)
    as (st & key & Hst & _ & Hk & Ha).
  unfold sta_keys_of in Hst. rewrite Hta in Hst. cbn in Hst. rewrite Hs in Hst. injection Hst as <-.
  exists (v_psta y), sta, key. split_and!; [done..| |].
  - change (rx_ra (rf rx)) with (r_ra (v_addr y)) in Hk. destruct (IS_MCAST _); [|done].
    destruct Hk as (H1 & H2 & H3 & H4). rewrite H2. done.
  - change (rx_encrypt (rf rx)) with (v_encrypt y) in Ha. rewrite Hae in Ha. exact Ha.
Qed.
End path.

(** ** Examples *)
(** A station receives from its access point; see XmitAttrib for the adapter and
    the station table. *)
Definition rx_stas : list sta_tx := demo_stas.
Definition rx_adapter : tx_adapter := demo_adapter.
Definition rx_get : list Z → option nat := StaTable.rtw_get_stainfo demo_table.
Definition rx_counters0 : rx_counters := {| sta_rx := replicate NUM_STA rx_init; grp_iv := replicate 4 (replicate 8 0) |}.
Definition rx_addrs0 : rx_addrs := Build_rx_addrs no_addr no_addr no_addr no_addr no_addr.
Definition rx_header (fc1 : Z) (sc : Z) : list Z :=
  [0x88; fc1; 0; 0] ++ sta_addr ++ ap_addr ++ far_addr ++ [sc; 0] ++ [0; 0].
Definition rx_body : list Z := [0xaa; 0xaa; 3; 0; 0; 0; 0x86; 0xdd; 1; 2; 3].
Definition rx_sealed : list Z :=
  match rtw_ccmp_encrypt (λ _, true) 0 demo_key 16 26 (rx_header 0x42 0x10 ++ AES_IV 8 0 ++ rx_body ++ replicate 8 0) 11 with
  | Ret m => m | _ => []
  end.
Definition rx_sec : sec_state := SecFrames.demo_sec.

Lemma rx_data_authentic_witness :
  match recv_single rx_get (λ _, true) 0 false false rx_adapter rx_stas false false (λ _, false) rx_sec 0 rx_addrs0 rx_counters0
          rx_sealed 53 false with
  | Ret (Some (x, mem'), _, _, _) =>
      ether_type_at x mem' = 0x86dd ∧
      ∃ key, key = demo_key ∧ ccmp_authentic (λ _, true) 0 key 16 26 53 rx_sealed mem'
  | _ => False
  end.
Proof.
  destruct (recv_single _ _ _ _ _ _ _ _ _ _ _ _ _ _ _ _ _) as [[[[[[x mem']|] s'] c'] reqs]| |] eqn:E; [|vm_compute in E; discriminate E..].
  assert (ether_type_at x mem' = 0x86dd ∧ v_hdrlen x = 26%nat ∧ v_addr x = Build_rx_addrs sta_addr ap_addr sta_addr far_addr ap_addr)
    as (He & Hh & Ha) by (vm_compute in E; injection E as <- <- <- <- <-; split_and!; reflexivity).
  pose proof (rx_data_authentic rx_get (λ _, true) 0 false false rx_adapter rx_stas false false (λ _, false)
    rx_sec 0 rx_addrs0 rx_counters0 rx_sealed 53 x mem' s' c' reqs) as H.
  destruct H as [H|(i & sta & key & _ & Hs & _ & Hk & Hc)].
  - done.
  - bytes_lit.
  - apply Nat.leb_le. vm_compute. reflexivity.
  - reflexivity.
  - reflexivity.
  - discriminate.
  - reflexivity.
  - intros i sta Hi _. apply lookup_replicate in Hi as [-> _]. reflexivity.
  - exact E.
  - rewrite He in H. discriminate H.
  - split; [exact He|]. exists key. rewrite Ha in Hk. rewrite Hh in Hc. split; [|exact Hc].
    apply lookup_replicate in Hs as [-> _]. exact Hk.
Defined.

(** ** A fragment without protection *)
(** The Ethernet type is looked for in every fragment: the last fragment of a frame, without
    protection, passes when its bytes 6 and 7 are those of a key handshake frame,
    and the reassembly joins it to an encrypted first fragment, whose packet number
    check it is exempt from. *)
Definition plain_fragment : list Z := rx_header 0x02 0x11 ++ [1; 1; 1; 1; 1; 1; 0x88; 0x8e; 6; 6; 6].
Theorem plain_fragment_accepted :
  ∃ x c reqs, validate_recv_frame rx_get rx_adapter rx_stas false false (λ _, false) 0 rx_addrs0 rx_counters0 plain_fragment =
    Ret (V_SUCCESS, Some x, c, reqs) ∧ x.(v_encrypt) = 0 ∧ x.(v_hdr).(frag_num) = 1 ∧ x.(v_hdr).(mfrag) = false.
Proof. do 3 eexists. split; [vm_compute; reflexivity|]. split_and!; reflexivity. Qed.
Definition plain_last : recv_frame_hdr :=
  Build_recv_frame_hdr (Build_rx_pkt_attrib 24 0 0 0 1 0 false false 0 0 2 [] [] demo_addr [2; 0; 0; 0; 0; 1]) 0 35 16 51
    (replicate 16 0 ++ replicate 24 0xa0 ++ [1; 1; 1; 1; 1; 1; 0x88; 0x8e; 6; 6; 6] ++ replicate 60 0).
Theorem plain_fragment_joined :
  ∃ s' f, rx_fragments [demo_arrival 3 0 (demo_frag 0 1 5 [1; 2; 3]); demo_arrival 3 1 plain_last]
            (upd_frame 1 (λ _, plain_last) demo_rx) = Ret ([None; Some 0%nat], s') ∧ s'.(frames) !! 0%nat = Some f ∧
    contents f = replicate 24 0xa0 ++ [5; 0; 0; 0x20; 0; 0; 0; 0] ++ [1; 2; 3] ++ [1; 1; 1; 1; 1; 1; 0x88; 0x8e; 6; 6; 6].
Proof. do 2 eexists. split; [vm_compute; reflexivity|]. split; [vm_compute; reflexivity|]. vm_compute. reflexivity. Qed.
