(* ===== verification/XmitBuild.v ===== *)
(** * Building an 802.11 frame: [rtw_xmitframe_coalesce] of [core/rtw_xmit.c]

    From the packet and the attributes that XmitAttrib derives, the frame is built
    in the transmit buffer: header and sequence number ([rtw_make_wlanhdr]), IV,
    SNAP header, payload, room for the ICV; then the TKIP MIC is added and the
    frame is encrypted in software (WepTkip, SecFrames) if the hardware does not.
    The buffer is the memory from [buf_addr] on; a frame starts behind the space
    for the transmit descriptor.  Built with CONFIG_USB_TX_AGGREGATION and
    CONFIG_80211N_HT, without CONFIG_TDLS, CONFIG_RTW_WDS, CONFIG_RTW_MESH. *)
From S2P Require Import Prelude.
From stdpp Require Import list.
From S2P Require Import CryptoWrap Mem Blocks Ccm Ccmp Swcrypto Tkip WepTkip Reorder RecvPn SecFrames XmitAttrib.
Local Open Scope Z_scope.

Definition TO_DS : Z := BIT 8.
Definition FROM_DS : Z := BIT 9.
Definition MORE_FRAG : Z := BIT 10.
Definition MORE_DATA : Z := BIT 13.
Definition PRIVACY : Z := BIT 14.
Definition WLANHDR_OFFSET : nat := 64.

(** ** The header *)
(** [SET_BITS_TO_LE_2BYTE] on a 16-bit value. *)
Definition put_bits (v : Z) (off len x : Z) : Z :=
  Z.ldiff v (Z.ones len << off) .| ((x .& Z.ones len) << off).
(** The DS bits and the three addresses by the role of the adapter. *)
Definition wlan_addrs (ad : tx_adapter) (x : addr_attrib) : option (Z * list Z * list Z * list Z) :=
  if negb (ad.(fw_state) .& WIFI_STATION_STATE =? 0) then Some (TO_DS, ad.(bssid), x.(ta), x.(dst))
  else if negb (ad.(fw_state) .& WIFI_AP_STATE =? 0) then Some (FROM_DS, x.(dst), ad.(bssid), x.(src))
  else if negb (ad.(fw_state) .& (WIFI_ADHOC_STATE .| WIFI_ADHOC_MASTER_STATE) =? 0) then Some (0, x.(dst), x.(ta), ad.(bssid))
  else None.
Definition has_qos (ad : tx_adapter) (x : xmit_attrib) : bool :=
  if negb (ad.(fw_state) .& WIFI_STATION_STATE =? 0) then ad.(qos_option) else x.(x_hdr).(qos_en).
Definition frame_ctl (ds : Z) (x : xmit_attrib) : Z :=
  let fc := x.(x_hdr).(subtype) .| ds in
  let fc := if x.(x_phy).(mdata) =? 0 then fc else fc .| MORE_DATA in
  u16 (if x.(x_sec).(encrypt) =? 0 then fc else fc .| PRIVACY).
Definition qos_ctl (x : xmit_attrib) (old : Z) : Z :=
  let p := x.(x_hdr).(priority) in
  let qc := if p =? 0 then old else put_bits old 0 4 p in
  let qc := put_bits qc 4 1 x.(x_phy).(eosp) in
  let qc := put_bits qc 5 2 x.(x_hdr).(ack_policy) in
  if x.(x_amsdu) =? 0 then qc else put_bits qc 7 1 x.(x_amsdu).
Definition get16 (h : list Z) (o : nat) : Z := RTW_GET_LE16 (drop o h).
Definition put16 (h : list Z) (o : nat) (v : Z) : list Z := memcpy h o (RTW_PUT_LE16 v).
Definition SetSeqNum (h : list Z) (num : Z) : list Z := put16 h 22 ((get16 h 22 .& 0xf) .| (0xfff0 .& (num << 4))).
(** The 64 bytes of [hdr] before the sequence number. *)
Definition wlan_hdr (ad : tx_adapter) (x : xmit_attrib) (m : Z * list Z * list Z * list Z) : list Z :=
  let '(ds, a1, a2, a3) := m in
  let h := memset WLANHDR_OFFSET 0 in
  let h := put16 h 0 (frame_ctl ds x) in
  let h := memcpy (memcpy (memcpy h 4 a1) 10 a2) 16 a3 in
  if has_qos ad x then let o := (x.(x_hdr).(hdrlen) - 2)%nat in put16 h o (qos_ctl x (get16 h o)) else h.

(** Whether the frame may be part of an A-MPDU, and the start of the block ack
    window. *)
Definition check_ampdu (en : bool) (seqnum tx_seq : Z) : bool * Z :=
  if negb en then (false, tx_seq)
  else if SN_LESS seqnum tx_seq then (false, tx_seq)
  else if SN_EQUAL seqnum tx_seq then (true, (tx_seq + 1) .& 0xfff)
  else (true, (seqnum + 1) .& 0xfff).

Section build.
Context (rtw_get_stainfo : list Z → option nat).

(** [rtw_make_wlanhdr]: the header with its sequence number, whether A-MPDU stays
    enabled, the stations; nothing when the frame is dropped. *)
Definition rtw_make_wlanhdr (ad : tx_adapter) (x : xmit_attrib) (stas : list sta_tx)
    : cres (option (list Z * Z * bool * list sta_tx)) :=
  if x.(x_hdr).(subtype) .& 0x08 =? 0 then
    Ret (Some (put16 (memset WLANHDR_OFFSET 0) 0 (u16 x.(x_hdr).(subtype)), 0, x.(x_phy).(ampdu_en), stas))
  else
    match wlan_addrs ad x.(x_addr) with
    | None => Ret None
    | Some m =>
        match rtw_get_stainfo x.(x_addr).(ra) with
        | None => Ret None
        | Some i =>
            if negb (bool_decide (x.(x_psta) = Some i)) then Ret None
            else
              match stas !! i with
              | None => Oob
              | Some sta =>
                  if sta.(state) .& WIFI_ASOC_STATE =? 0 then Ret None
                  else
                    let tid := Z.to_nat x.(x_hdr).(priority) in
                    match sta.(txseq_tid) !! tid, sta.(BA_starting_seqctrl) !! (Z.to_nat (x.(x_hdr).(priority) .& 0x0f)) with
                    | Some old, Some tx_seq =>
                        let seqnum := u16 (old + 1) .& 0xFFF in
                        let '(en, ba) := check_ampdu x.(x_phy).(ampdu_en) seqnum tx_seq in
                        let sta := set_seqs (<[tid := seqnum]> sta.(txseq_tid))
                                     (<[Z.to_nat (x.(x_hdr).(priority) .& 0x0f) := ba]> sta.(BA_starting_seqctrl)) sta in
                        Ret (Some (SetSeqNum (wlan_hdr ad x m) seqnum, seqnum, en, <[i := sta]> stas))
                    | _, _ => Oob
                    end
              end
        end
    end.

(** ** The body *)
Definition P802_1H_OUI : list Z := [0x00; 0x00; 0xf8].
Definition RFC1042_OUI : list Z := [0x00; 0x00; 0x00].
Definition rtw_put_snap (h_proto : Z) : list Z :=
  [0xaa; 0xaa; 0x03] ++ (if (h_proto =? 0x8137) || (h_proto =? 0x80f3) then P802_1H_OUI else RFC1042_OUI) ++ RTW_PUT_BE16 h_proto.

(** A 16-bit field of the frame at [off]. *)
Definition upd16 (mem : list Z) (off : nat) (f : Z → Z) : cres (list Z) :=
  let* b := mem_read mem off 2 in buf_write mem off (RTW_PUT_LE16 (f (RTW_GET_LE16 b))).
Definition SetMFrag (mem : list Z) (off : nat) : cres (list Z) := upd16 mem off (λ v, v .| MORE_FRAG).
Definition ClearMFrag (mem : list Z) (off : nat) : cres (list Z) := upd16 mem off (λ v, Z.ldiff v MORE_FRAG).

(** The room for the ICV, of zeros: nothing writes [pattrib->icv]. *)
Definition icv_room (s : sec_attrib) : list Z := if s.(bswenc) then replicate s.(icv_len) 0 else [].
Definition E_XMIT_FUEL : Z := -2.
(** The [while (1)]: the fragment [frg_inx] starts at [m]; [pos]: the place in the packet,
    [base]: the first fragment.  The result: the number of fragments, the size of the
    last, the memory.  A fragment that takes nothing of the packet leaves the loop
    where it is. *)
Fixpoint coalesce_loop (fuel : nat) (x : xmit_attrib) (pkt : list Z) (frg_len addr : Z) (hw base : nat)
    (frg_inx : nat) (pos m : nat) (mem : list Z) : cres (nat * Z * list Z) :=
  match fuel with
  | O => Err E_XMIT_FUEL
  | S fuel =>
      let s := x.(x_sec) in
      let h := x.(x_hdr) in
      let bmcst := IS_MCAST x.(x_addr).(ra) in
      let* mem := SetMFrag mem m in
      let p := (m + h.(hdrlen))%nat in
      let ivs := take s.(iv_len) s.(iv) in
      let snap := if (frg_inx =? 0)%nat then rtw_put_snap x.(x_l4).(ether_type) else [] in
      let icv := icv_room s in
      let* mem := buf_write mem p (ivs ++ snap) in
      let p := (p + length (ivs ++ snap))%nat in
      let mpdu_len := frg_len - Z.of_nat h.(hdrlen) - Z.of_nat s.(iv_len) - Z.of_nat (length snap) - Z.of_nat (length icv) in
      let '(got, pos) := pktfile_read pkt pos (if bmcst then x.(x_l4).(pktlen) else mpdu_len) in
      let* mem := buf_write mem p (got ++ icv) in
      let p := (p + length (got ++ icv))%nat in
      let frg_inx := S frg_inx in
      if bmcst || (length pkt <=? pos)%nat then
        let last := Z.of_nat h.(hdrlen) + Z.of_nat s.(iv_len) + (if (frg_inx =? 1)%nat then Z.of_nat (length snap) else 0)
                    + Z.of_nat (length icv) + Z.of_nat (length got) in
        let* mem := ClearMFrag mem m in
        Ret (frg_inx, last, mem)
      else
        let m := (Z.to_nat (u64 (RND4 (addr + Z.of_nat p)) - addr) + hw)%nat in
        let* hd := mem_read mem base h.(hdrlen) in
        let* mem := buf_write mem m hd in
        coalesce_loop fuel x pkt frg_len addr hw base frg_inx pos m mem
  end.

(** ** The TKIP MIC *)
(** The fragments are walked from [p] on, [n] are left. *)
Fixpoint mic_frags (x : xmit_attrib) (frag_len addr last : Z) (n p : nat) (d : mic_data) (mem : list Z)
    : cres (mic_data * nat) :=
  match n with
  | O => Ret (d, p)
  | S n =>
      let p := (Z.to_nat (u64 (RND4 (addr + Z.of_nat p)) - addr) + x.(x_hdr).(hdrlen) + x.(x_sec).(iv_len))%nat in
      let len := s32 ((if (n =? 0)%nat then last else frag_len) - Z.of_nat x.(x_hdr).(hdrlen) - Z.of_nat x.(x_sec).(iv_len)
                      - (if x.(x_sec).(bswenc) then Z.of_nat x.(x_sec).(icv_len) else 0)) in
      if len <? 0 then Oob
      else
        let* b := mem_read mem p (Z.to_nat len) in
        let p := (p + Z.to_nat len + if (n =? 0)%nat then 0 else x.(x_sec).(icv_len))%nat in
        mic_frags x frag_len addr last n p (rtw_secmicappend d b) mem
  end.
Definition null_key : list Z := replicate 16 0.
(** The size of the last fragment and the memory; nothing when there is no MIC key. *)
Definition xmitframe_addmic (s : sec_state) (grptxmickey : list (list Z)) (x : xmit_attrib) (frag_len addr : Z)
    (hw nr_frags : nat) (last : Z) (mem : list Z) : cres (option (Z * list Z)) :=
  if x.(x_sec).(encrypt) =? TKIP then
    match (if IS_MCAST x.(x_addr).(ra) then grptxmickey !! dot118021XGrpKeyid (sec s) else Some x.(x_sec).(tkiptxmickey)) with
    | None => Oob
    | Some key =>
        if bool_decide (take 16 key = null_key) then Ret None
        else
          let* b1 := mem_byte mem (Z.of_nat hw + 1) in
          let '(oda, osa) := if b1 .& 1 =? 0 then (4%nat, if b1 .& 2 =? 0 then 10%nat else 16%nat)
                             else (16%nat, if b1 .& 2 =? 0 then 10%nat else 24%nat) in
          let* da := mem_read mem (hw + oda) 6 in
          let* sa := mem_read mem (hw + osa) 6 in
          let pri := if x.(x_hdr).(qos_en) then u8 x.(x_hdr).(priority) else 0 in
          let d := rtw_secmicappend (rtw_secmicappend (rtw_secmicappend (rtw_secmicsetkey key) da) sa) [pri; 0; 0; 0] in
          let* (d, p) := mic_frags x frag_len addr last nr_frags hw d mem in
          let* mem := buf_write mem p (rtw_secgetmic d).1 in
          Ret (Some (u32 (last + 8), mem))
    end
  else Ret (Some (last, mem)).

(** ** Encryption in software *)
Definition cipher_attrib (x : xmit_attrib) (nr_frags : nat) (last : Z) : pkt_attrib :=
  PktAttrib x.(x_sec).(encrypt) x.(x_hdr).(hdrlen) last nr_frags x.(x_sec).(iv_len) x.(x_sec).(icv_len)
    x.(x_addr).(ra) x.(x_addr).(ta) x.(x_sec).(UncstKey).
Context (kmalloc : Z → bool) (amsdu_mode : Z) (new_crypto ieee80211w : bool).
Definition xmitframe_swencrypt (s : sec_state) (x : xmit_attrib) (frag_len : Z) (f : xmit_frame) : cres (sec_state * list Z) :=
  if x.(x_sec).(bswenc) then
    let e := x.(x_sec).(encrypt) in
    if is_wep e then let* (p, mem) := rtw_wep_encrypt (sec s) frag_len f in Ret (set_sec p s, mem)
    else if e =? TKIP then let* (_, p, mem) := rtw_tkip_encrypt (sec s) frag_len f in Ret (set_sec p s, mem)
    else if (e =? AES) || (e =? CCMP_256) then
      let* (_, s, mem) := rtw_aes_encrypt kmalloc amsdu_mode new_crypto ieee80211w s frag_len f in Ret (s, mem)
    else if (e =? GCMP) || (e =? GCMP_256) then
      let* (_, s, mem) := rtw_gcmp_encrypt_frame kmalloc amsdu_mode s frag_len f in Ret (s, mem)
    else Ret (s, f.(buf))
  else Ret (s, f.(buf)).

(** ** Protection of the medium *)
Definition NONE_VCS : Z := 0.
Definition RTS_CTS : Z := 1.
Definition CTS_TO_SELF : Z := 2.
Definition DISABLE_VCS : Z := 0.
Definition ENABLE_VCS : Z := 1.
Definition AUTO_VCS : Z := 2.
Definition WIRELESS_11_24N : Z := BIT 3.
Definition HT_IOT_PEER_ATHEROS : Z := 5.
(** The settings of the registry and of the network; [v_rssi]: the station's signal. *)
Record vcs_env := {
  vrtl_carrier_sense : Z; vcs_type : Z; wireless_mode : Z; wifi_spec : bool; rts_thresh : Z; assoc_AP_vendor : Z;
  HT_protection : Z; driver_vcs_en : Z; driver_vcs_type : Z; hw_8812 : bool; v_rssi : option Z
}.
Definition validate_vcs (e : vcs_env) (mode : Z) : Z :=
  if e.(vrtl_carrier_sense) =? DISABLE_VCS then NONE_VCS
  else if e.(vrtl_carrier_sense) =? ENABLE_VCS then e.(vcs_type)
  else if e.(vrtl_carrier_sense) =? AUTO_VCS then mode
  else NONE_VCS.
Definition update_attrib_vcs_info (e : vcs_env) (ad : tx_adapter) (x : xmit_attrib) (ampdu : bool) (nr_frags : nat)
    (frag_len last : Z) : Z :=
  let sz := if (nr_frags =? 1)%nat then last else frag_len in
  let p := x.(x_phy) in
  let nz v := negb (v =? 0) in
  let mode :=
    if (e.(wireless_mode) <? WIRELESS_11_24N) || e.(wifi_spec) then
      if e.(rts_thresh) <? sz then RTS_CTS
      else if nz p.(rtsen) then RTS_CTS
      else if nz p.(cts2self) then CTS_TO_SELF else NONE_VCS
    else
      let m :=
        if (e.(assoc_AP_vendor) =? HT_IOT_PEER_ATHEROS) && ampdu && (ad.(dot11PrivacyAlgrthm) =? AES) then CTS_TO_SELF
        else if nz p.(rtsen) then RTS_CTS
        else if nz p.(cts2self) then CTS_TO_SELF
        else if nz p.(ht_en) && ((nz ad.(cur_bwmode) && ((e.(HT_protection) =? 2) || (e.(HT_protection) =? 3)))
                                 || (negb (nz ad.(cur_bwmode)) && (e.(HT_protection) =? 3))) then RTS_CTS
        else if e.(rts_thresh) <? sz then RTS_CTS
        else if ampdu && negb e.(hw_8812) then RTS_CTS
        else NONE_VCS in
      match e.(v_rssi) with
      | Some rssi => if (rssi <? 18) && (m =? RTS_CTS) then CTS_TO_SELF else m
      | None => m
      end in
  if e.(driver_vcs_en) =? 1 then e.(driver_vcs_type) else validate_vcs e mode.

(** ** The whole: [rtw_xmitframe_coalesce] *)
(** What it leaves in the attributes. *)
Record built := { b_nr_frags : nat; b_last_txcmdsz : Z; b_seqnum : Z; b_ampdu_en : bool; b_vcs_mode : Z }.
(** The result ([None] is [_FAIL], after which the frame is freed: what its buffer then holds
    is not tracked), stations, ciphers and buffer. *)
Definition rtw_xmitframe_coalesce (e : vcs_env) (ad : tx_adapter) (s : sec_state) (grptxmickey : list (list Z)) (frag_len : Z)
    (pkt : list Z) (x : xmit_attrib) (f_pkt_offset : Z) (f_buf_addr : option Z) (mem : list Z) (stas : list sta_tx)
    : cres (option built * sec_state * list sta_tx * list Z) :=
  match f_buf_addr with
  | None => Ret (None, s, stas, mem)
  | Some addr =>
      let hw := hw_hdr_offset f_pkt_offset in
      let* r := rtw_make_wlanhdr ad x stas in
      match r with
      | None => Ret (None, s, stas, mem)
      | Some (hdr, seqnum, en, stas) =>
          let* mem := buf_write mem hw hdr in
          let pos := (pktfile_read pkt 0 (Z.of_nat x.(x_hdr).(pkt_hdrlen))).2 in
          let* (n, last, mem) := coalesce_loop (S (length pkt)) x pkt (frag_len - 4) addr hw hw 0 pos hw mem in
          let* r := xmitframe_addmic s grptxmickey x frag_len addr hw n last mem in
          match r with
          | None => Ret (None, s, stas, mem)
          | Some (last, mem) =>
              let* (s, mem) := xmitframe_swencrypt s x frag_len (XmitFrame (cipher_attrib x n last) f_pkt_offset (Some addr) mem) in
              let vcs := if IS_MCAST x.(x_addr).(ra) then NONE_VCS else update_attrib_vcs_info e ad x en n frag_len last in
              Ret (Some {| b_nr_frags := n; b_last_txcmdsz := last; b_seqnum := seqnum; b_ampdu_en := en; b_vcs_mode := vcs |},
                   s, stas, mem)
          end
      end
  end.
End build.
