(* ===== verification/XmitAir.v ===== *)
(** * A packet from one driver to another

    The transmit path of a station (XmitAttrib, XmitBuild, Swcrypto) and the receive path
    of an access point (RxValidate, SecFrames, Msdu) put together: the Ethernet packet
    handed to the one is the Ethernet packet the other hands up. *)
From S2P Require Import Prelude.
From stdpp Require Import list.
From S2P Require Import Aes AesCorrect CryptoWrap Mem Blocks Ccm Ccmp Swcrypto StaTable RecvFrame Msdu WepTkip RecvPn SecFrames MgmtProtect XmitAttrib RxValidate XmitBuild.
Local Open Scope Z_scope.

(** ** The frame in the buffer *)
Lemma length_put_snap et : length (rtw_put_snap et) = 8%nat.
Proof. unfold rtw_put_snap. by destruct (_ || _). Qed.

Section layout.
Context (x : xmit_attrib) (pkt payload pre H B post : list Z) (f0 f1 : Z).
Context (Hcast : IS_MCAST x.(x_addr).(XmitAttrib.ra) = false).
Context (Hhdr : x.(x_hdr).(XmitAttrib.hdrlen) = (2 + length H)%nat).
Context (Hiv : x.(x_sec).(XmitAttrib.iv_len) = 8%nat) (Hivl : (8 ≤ length x.(x_sec).(iv))%nat).
Context (Hicv : x.(x_sec).(XmitAttrib.icv_len) = 8%nat) (Hsw : x.(x_sec).(bswenc) = true).
Context (Hpkt : drop 14 pkt = payload) (Hpl : (14 ≤ length pkt)%nat).
Context (HB : length B = (24 + length payload)%nat).
Context (Hfc : RTW_PUT_LE16 (Z.ldiff (RTW_GET_LE16 (RTW_PUT_LE16 (RTW_GET_LE16 [f0; f1] .| MORE_FRAG))) MORE_FRAG) = [f0; f1]).

Definition air_body : list Z :=
  take 8 x.(x_sec).(iv) ++ rtw_put_snap x.(x_l4).(ether_type) ++ payload ++ replicate 8 0.
Lemma coalesce_one fuel frg_len addr hw :
  Z.of_nat (length payload) ≤ frg_len - Z.of_nat x.(x_hdr).(XmitAttrib.hdrlen) - 24 → frg_len < 2 ^ 31 →
  coalesce_loop (S fuel) x pkt frg_len addr hw hw 0 14 (length pre) (pre ++ [f0; f1] ++ H ++ B ++ post) =
  Ret (1%nat, Z.of_nat x.(x_hdr).(XmitAttrib.hdrlen) + 24 + Z.of_nat (length payload), pre ++ [f0; f1] ++ H ++ air_body ++ post).
Proof using All.
  intros Hfit Hlen. cbn [coalesce_loop]. cbv zeta. unfold SetMFrag, ClearMFrag, upd16, icv_room.
  rewrite (mem_read_mid pre [f0; f1]). cbn [cbind]. rewrite (buf_write_mid pre [f0; f1]) by done. cbn [cbind].
  set (mf := RTW_PUT_LE16 (RTW_GET_LE16 [f0; f1] .| MORE_FRAG)) in *. assert (length mf = 2%nat) as Lmf by done.
  rewrite Hcast, Hiv, Hicv, Hsw, Hhdr. cbn [Nat.eqb orb].
  assert (length (take 8 (iv (x_sec x)) ++ rtw_put_snap (ether_type (x_l4 x))) = 16%nat) as Lis
    by (rewrite length_app, length_take, length_put_snap; lia).
  rewrite <- (take_drop 16 B). rewrite <- !app_assoc.
  assert (length (take 16 B) = 16%nat) as L16 by (rewrite length_take; lia).
  replace (pre ++ mf ++ H ++ take 16 B ++ drop 16 B ++ post)
    with ((pre ++ mf ++ H) ++ take 16 B ++ (drop 16 B ++ post)) by (by rewrite <- !app_assoc).
  replace (length pre + (2 + length H))%nat with (length (pre ++ mf ++ H)) by (rewrite !length_app; lia).
  rewrite buf_write_mid by lia. cbn [cbind].
  unfold pktfile_read. rewrite Hpkt, length_put_snap, length_replicate, Hhdr in *.
  rewrite u32_id by (split; lia). rewrite Z.min_r, Nat2Z.id, firstn_all by lia.
  set (ivs := take 8 _ ++ rtw_put_snap _) in *.
  replace ((pre ++ mf ++ H) ++ ivs ++ drop 16 B ++ post) with (((pre ++ mf ++ H) ++ ivs) ++ drop 16 B ++ post)
    by (by rewrite <- !app_assoc).
  replace (length (pre ++ mf ++ H) + length ivs)%nat with (length ((pre ++ mf ++ H) ++ ivs)) by (rewrite (length_app (_ ++ _)); done).
  rewrite buf_write_mid by (rewrite length_app, length_replicate, length_drop; lia). cbn [cbind].
  rewrite (proj2 (Nat.leb_le (length pkt) _)) by (rewrite <- Hpkt, length_drop; lia).
  replace (((pre ++ mf ++ H) ++ ivs) ++ (payload ++ replicate 8 0) ++ post)
    with (pre ++ mf ++ (H ++ ivs ++ (payload ++ replicate 8 0) ++ post)) by (by rewrite <- !app_assoc).
  replace 2%nat with (length mf) by done. rewrite mem_read_mid. cbn [cbind]. rewrite Hfc, buf_write_mid by done. cbn [cbind].
  f_equal. f_equal; [f_equal; lia|]. unfold air_body, ivs. by rewrite <- !app_assoc.
Qed.
End layout.

(** ** The header of a station's frame *)
Lemma list6 (l : list Z) : length l = 6%nat → ∃ a b c d e f, l = [a; b; c; d; e; f].
Proof. intros H. do 6 (destruct l as [|? l]; [done|]). destruct l; [|done]. by do 6 eexists. Qed.
Lemma hdr_writes f0 f1 a1 a2 a3 : length a1 = 6%nat → length a2 = 6%nat → length a3 = 6%nat →
  memcpy (memcpy (memcpy (memcpy (memset WLANHDR_OFFSET 0) 0 [f0; f1]) 4 a1) 10 a2) 16 a3 =
  [f0; f1; 0; 0] ++ a1 ++ a2 ++ a3 ++ replicate 42 0.
Proof.
  intros (? & ? & ? & ? & ? & ? & ->)%list6 (? & ? & ? & ? & ? & ? & ->)%list6 (? & ? & ? & ? & ? & ? & ->)%list6.
  reflexivity.
Qed.
(** The sequence number and the QoS field of such a header. *)
Lemma hdr_fields (qos : bool) f0 f1 a1 a2 a3 qc seq : length a1 = 6%nat → length a2 = 6%nat → length a3 = 6%nat →
  SetSeqNum (let h := [f0; f1; 0; 0] ++ a1 ++ a2 ++ a3 ++ replicate 42 0 in
             if qos then put16 h 24 (qc (get16 h 24)) else h) seq =
  [f0; f1] ++ ([0; 0] ++ a1 ++ a2 ++ a3 ++ RTW_PUT_LE16 (0xfff0 .& (seq << 4)) ++ (if qos then RTW_PUT_LE16 (qc 0) else [])) ++
  replicate (if qos then 38 else 40) 0.
Proof.
  intros (? & ? & ? & ? & ? & ? & ->)%list6 (? & ? & ? & ? & ? & ? & ->)%list6 (? & ? & ? & ? & ? & ? & ->)%list6.
  unfold SetSeqNum. destruct qos; reflexivity.
Qed.
Section header.
Context (ad : tx_adapter) (x : xmit_attrib).
#[local] Abbreviation q := (qos_option ad).
Definition fc_bytes : list Z := [if q then 0x88 else 0x08; if x.(x_phy).(mdata) =? 0 then 0x41 else 0x61].
Definition hdr_rest (seq : Z) : list Z :=
  [0; 0] ++ ad.(bssid) ++ x.(x_addr).(XmitAttrib.ta) ++ x.(x_addr).(dst) ++ RTW_PUT_LE16 (0xfff0 .& (seq << 4)) ++
  (if q then RTW_PUT_LE16 (qos_ctl x 0) else []).

(** What [update_attrib] leaves for a data packet of a station that is encrypted with
    CCMP in software. *)
Record ccmp_ready (i : nat) (pkt payload : list Z) : Prop := {
  rd_mode : ad.(fw_state) .& WIFI_STATION_STATE ≠ 0;
  rd_bssid : x.(x_addr).(XmitAttrib.ra) = ad.(bssid);
  rd_unicast : IS_MCAST ad.(bssid) = false;
  rd_lens : length ad.(bssid) = 6%nat ∧ length x.(x_addr).(XmitAttrib.ta) = 6%nat ∧ length x.(x_addr).(dst) = 6%nat;
  rd_psta : x.(x_psta) = Some i;
  rd_hdr : x.(x_hdr).(XmitAttrib.subtype) = (if q then 0x88 else 0x08) ∧
           x.(x_hdr).(XmitAttrib.hdrlen) = (if q then 26%nat else 24%nat) ∧ x.(x_hdr).(pkt_hdrlen) = 14%nat;
  rd_prio : 0 ≤ x.(x_hdr).(priority) < 16;
  rd_amsdu : x.(x_amsdu) = 0;
  rd_sec : x.(x_sec).(XmitAttrib.encrypt) = SecFrames.AES ∧ x.(x_sec).(XmitAttrib.iv_len) = 8%nat ∧
           x.(x_sec).(XmitAttrib.icv_len) = 8%nat ∧ x.(x_sec).(bswenc) = true;
  rd_iv : (8 ≤ length x.(x_sec).(iv))%nat ∧ bytes x.(x_sec).(iv);
  rd_pkt : pkt = x.(x_addr).(dst) ++ x.(x_addr).(XmitAttrib.ta) ++ RTW_PUT_BE16 x.(x_l4).(ether_type) ++ payload;
  rd_bytes : bytes pkt ∧ bytes ad.(bssid)
}.
Lemma fc_bytes_eq :
  let s := if q then 0x88 else 0x08 in
  put16 (memset WLANHDR_OFFSET 0) 0 (u16 ((if x.(x_phy).(mdata) =? 0 then s .| TO_DS else (s .| TO_DS) .| MORE_DATA) .| PRIVACY)) =
  memcpy (memset WLANHDR_OFFSET 0) 0 fc_bytes.
Proof. unfold fc_bytes. by destruct q, (mdata (x_phy x) =? 0). Qed.
Lemma wlan_hdr_eq i pkt payload seq : ccmp_ready i pkt payload →
  SetSeqNum (wlan_hdr ad x (TO_DS, ad.(bssid), x.(x_addr).(XmitAttrib.ta), x.(x_addr).(dst))) seq =
  fc_bytes ++ hdr_rest seq ++ replicate (if q then 38 else 40) 0.
Proof.
  intros [Hm _ _ (Hb & Ht & Hd) _ (Hs & Hh & _) _ _ (He & _) _ _ _].
  unfold wlan_hdr, has_qos, frame_ctl. rewrite (proj2 (Z.eqb_neq _ _) Hm), He, Hs, Hh. cbn [negb].
  change (SecFrames.AES =? 0) with false. pose proof fc_bytes_eq as Hf. cbv zeta in Hf.
  cbv iota zeta. rewrite Hf. unfold fc_bytes. rewrite (hdr_writes _ _ _ _ _ Hb Ht Hd).
  etrans; [|apply (hdr_fields q _ _ _ _ _ (qos_ctl x) seq Hb Ht Hd)]. destruct q; reflexivity.
Qed.
End header.

(** ** The cipher depends on the frame alone *)
Section cipher.
Context (kmalloc : Z → bool) (mode : Z) (Hmem : ∀ n, kmalloc n = true) (key : list Z).

Lemma ccmp_sealed h plen F :
  (24 ≤ h)%nat → bytes F → length F = (h + 8 + plen + 8)%nat → Z.of_nat (length F) < 2 ^ 31 →
  ∃ F1, length F1 = length F ∧ take h F1 = set_fc WLAN_FC_ISWEP (take h F) ∧ slice h 8 F1 = slice h 8 F ∧
    ∀ rest, bytes rest → Z.of_nat (length (F ++ rest)) < 2 ^ 32 →
      rtw_ccmp_encrypt kmalloc mode key 16 h (F ++ rest) plen = Ret (F1 ++ rest) ∧
      ∃ F2, rtw_ccmp_decrypt kmalloc mode key 16 h (F1 ++ rest) (Z.of_nat (length F)) = Ret F2 ∧
        length F2 = length (F ++ rest) ∧ slice (h + 8) plen F2 = slice (h + 8) plen F.
Proof using Hmem.
  intros Hh Hb HF H31. destruct (ccmp_variant_init kmalloc 16 8 key ltac:(by left) Hmem) as [HM [ctx Hctx]].
  set (hdr := set_fc WLAN_FC_ISWEP (take h F)). set (iv := slice h 8 F). set (pl := slice (h + 8) plen F).
  set (E := aes_encrypt ctx). set (an := ccmp_aad_nonce mode (hdr ++ iv) iv).
  set (C := ccm_crypt E an.2 pl). set (T := ccm_tag E 8 an.2 an.1 pl).
  assert (∀ rest, ∃ r, ccmp_encrypt kmalloc mode key (F ++ rest) (h + plen) h None 0 = Ret (hdr ++ iv ++ C ++ T ++ r, length F) ∧
    length hdr = h ∧ length iv = 8%nat ∧ length pl = plen) as Henc.
  { intros rest. destruct (ccmp_encrypt_with_eq kmalloc mode Hmem 16 8 HM key ctx Hctx (F ++ rest) (h + plen) h None 0)
      as (L1 & L2 & L3 & r & He); [lia|rewrite length_app; lia|].
    unfold ccmp_frame_hdr, ccmp_frame_iv, ccmp_frame_payload in *.
    replace (h + plen - h)%nat with plen in * by lia.
    rewrite (take_app_le F rest h), (drop_app_le F rest h), (drop_app_le F rest (h + 8)) in * by lia.
    rewrite (take_app_le (drop h F)), (take_app_le (drop (h + 8) F)) in * by (rewrite length_drop; lia).
    fold hdr in L1, He. fold (slice h 8 F) in L2, He. fold iv in L2, He. fold (slice (h + 8) plen F) in L3, He. fold pl in L3, He.
    exists r. split; [|done]. unfold ccmp_encrypt. rewrite He. rewrite HF. by unfold an, C, T, E. }
  assert (length an.2 = 13%nat) as Hn.
  { destruct (Henc []) as (r & _ & L1 & L2 & _). apply ccmp_aad_nonce_length. rewrite length_app. lia. }
  assert (length C = plen) as LC by (destruct (Henc []) as (r & _ & _ & _ & L3); unfold C; by rewrite (length_ccm_crypt E)).
  assert (length T = 8%nat) as LT by (apply (length_ccm_tag E); (done || lia)).
  exists (hdr ++ iv ++ C ++ T). destruct (Henc []) as (_ & _ & L1 & L2 & L3).
  assert (length (hdr ++ iv ++ C ++ T) = length F) as L by (rewrite !length_app; lia). split; [done|].
  split; [by rewrite take_app_length'|]. split; [unfold slice at 1; by rewrite drop_app_length', take_app_length'|].
  intros rest Hr H32. assert (rtw_ccmp_encrypt kmalloc mode key 16 h (F ++ rest) plen = Ret ((hdr ++ iv ++ C ++ T) ++ rest)) as He.
  { unfold rtw_ccmp_encrypt. destruct (Henc rest) as (r & He & _). cbn [Z.eqb Pos.eqb]. rewrite He. unfold copy_back.
    replace (hdr ++ iv ++ C ++ T ++ r) with ((hdr ++ iv ++ C ++ T) ++ r) by (by rewrite <- !app_assoc).
    rewrite take_app_length' by done. rewrite buf_write_ok by (rewrite L, length_app; lia).
    rewrite take_0, Nat.add_0_l, L, drop_app_length. done. }
  split; [done|].
  destruct (rtw_ccmp_inplace_roundtrip kmalloc mode Hmem key 16 h (F ++ rest) plen 8)
    as (f1 & f2 & E1 & _ & _ & E2 & Lf & Ht & _); [by left|by apply bytes_app|done|rewrite length_app; lia|lia|].
  rewrite He in E1. injection E1 as <-. rewrite HF. exists f2. split; [exact E2|]. split; [done|].
  assert (length (take h (F ++ rest)) = h) as Lh by (rewrite length_take, length_app; lia).
  apply (f_equal (drop (h + 8))) in Ht. rewrite app_assoc, drop_app_length' in Ht
    by (rewrite length_app, length_set_fc, Lh, length_take, length_drop, length_app; lia).
  rewrite skipn_firstn_comm in Ht. replace (h + 8 + plen - (h + 8))%nat with plen in Ht by lia.
  unfold slice. rewrite Ht, drop_app_le, take_app_le by (rewrite ?length_drop; lia). done.
Qed.
End cipher.

(** [rtw_aes_encrypt] on a frame that is not fragmented. *)
Lemma aes_encrypt_one kmalloc mode w11 s frag_len a off addr pre frame F2 plen :
  WepTkip.encrypt a = SecFrames.AES → nr_frags a = 1%nat → IS_MCAST (WepTkip.ra a) = false →
  length pre = hw_hdr_offset off → last_txcmdsz a = Z.of_nat (WepTkip.hdrlen a + WepTkip.iv_len a + plen + WepTkip.icv_len a) →
  last_txcmdsz a < 2 ^ 31 →
  rtw_ccmp_encrypt kmalloc mode (WepTkip.UncstKey a) 16 (WepTkip.hdrlen a) frame plen = Ret F2 →
  rtw_aes_encrypt kmalloc mode true w11 s frag_len (XmitFrame a off (Some addr) (pre ++ frame)) =
  Ret (SwCcmp.SUCCESS, AES_SW_ENC_CNT_INC s (WepTkip.ra a), pre ++ F2).
Proof.
  intros He Hn Hc Hp Hl H31 Hs. unfold rtw_aes_encrypt. cbn [buf_addr attrib buf pkt_offset].
  unfold enc_key. rewrite He, Hn, Hc. change (SecFrames.AES =? SecFrames.AES) with true.
  change (SecFrames.AES =? CCMP_256) with false. cbn [orb frag_cipher Nat.eqb].
  assert (frag_length a frag_len true = Z.of_nat plen) as ->.
  { unfold frag_length, s32. rewrite Hl in *. rewrite u32_id by (split; lia). rewrite (proj2 (Z.ltb_lt _ _)) by lia. lia. }
  unfold ccmp_cipher. rewrite u32_id by (split; lia). rewrite (proj2 (Z.ltb_ge _ _)) by lia.
  replace (Z.to_nat _) with plen by lia. rewrite <- Hp, drop_app_length, take_app_length, Hs. done.
Qed.

(** ** Transmission *)
Section transmit.
Context (ad : tx_adapter) (x : xmit_attrib) (i : nat) (pkt payload : list Z) (Hx : ccmp_ready ad x i pkt payload).
#[local] Abbreviation hl := (XmitAttrib.hdrlen (x_hdr x)).

(** The frame before and after encryption. *)
Definition air_plain (seq : Z) : list Z := fc_bytes ad x ++ hdr_rest ad x seq ++ air_body x payload.

Lemma length_hdr_rest seq : length (hdr_rest ad x seq) = (hl - 2)%nat.
Proof using Hx.
  destruct (rd_lens _ _ _ _ _ Hx) as (H1 & H2 & H3). destruct (rd_hdr _ _ _ _ _ Hx) as (_ & Hh & _). rewrite Hh.
  unfold hdr_rest. rewrite !length_app, H1, H2, H3. by destruct (qos_option ad).
Qed.
Lemma hl_bounds : (24 ≤ hl ≤ 26)%nat.
Proof using Hx. destruct (rd_hdr _ _ _ _ _ Hx) as (_ & -> & _). destruct (qos_option ad); lia. Qed.
Lemma length_air_body : length (air_body x payload) = (24 + length payload)%nat.
Proof using Hx.
  destruct (rd_iv _ _ _ _ _ Hx) as [H _]. unfold air_body. rewrite !length_app, length_take, length_put_snap, length_replicate. lia.
Qed.
Lemma length_air_plain seq : length (air_plain seq) = (hl + 24 + length payload)%nat.
Proof using Hx. pose proof hl_bounds. unfold air_plain. rewrite !length_app, length_hdr_rest, length_air_body. cbn. lia. Qed.
Lemma air_plain_body seq :
  slice (hl + 8) (8 + length payload) (air_plain seq) = rtw_put_snap x.(x_l4).(ether_type) ++ payload.
Proof using Hx.
  pose proof hl_bounds as Hh. pose proof (length_hdr_rest seq) as L. destruct (rd_iv _ _ _ _ _ Hx) as [Hi _].
  unfold slice, air_plain, air_body. rewrite !app_assoc.
  rewrite <- (app_assoc _ (rtw_put_snap _)), <- (app_assoc _ (rtw_put_snap _ ++ payload)).
  rewrite drop_app_length'; cycle 1.
  { rewrite !length_app, L, length_take, Nat.min_l by lia. change (length (fc_bytes ad x)) with 2%nat. lia. }
  apply take_app_length'. rewrite length_app, length_put_snap. lia.
Qed.
Lemma put_snap_bytes et : bytes (rtw_put_snap et).
Proof.
  unfold rtw_put_snap. apply bytes_app; [|apply bytes_app; [by destruct (_ || _); repeat constructor|]]. { by repeat constructor. }
  rewrite RTW_PUT_BE16_be. apply be_bytes_uint.
Qed.
Lemma air_plain_bytes seq : bytes (air_plain seq).
Proof using Hx.
  destruct (rd_iv _ _ _ _ _ Hx) as [_ Hi]. destruct (rd_bytes _ _ _ _ _ Hx) as [Hp Hb]. rewrite (rd_pkt _ _ _ _ _ Hx) in Hp.
  apply Forall_app in Hp as [Hd Hp]. apply Forall_app in Hp as [Ht Hp]. apply Forall_app in Hp as [_ Hp].
  unfold air_plain, fc_bytes, hdr_rest, air_body. pose proof (put_snap_bytes (ether_type (x_l4 x))) as Hsn.
  set (sn := rtw_put_snap _) in *. clearbody sn. repeat apply bytes_app; try done.
  all: try apply RTW_PUT_LE16_bytes. all: try by apply bytes_take.
  - destruct (qos_option ad), (mdata (x_phy x) =? 0); by repeat constructor.
  - by repeat constructor.
  - destruct (qos_option ad); [apply RTW_PUT_LE16_bytes|constructor].
  - by repeat constructor.
Qed.

Context (get : list Z → option nat) (kmalloc : Z → bool) (mode : Z) (Hmal : ∀ n, kmalloc n = true) (w11 : bool).
Context (stas : list sta_tx) (sta : sta_tx) (old : Z).
Context (Hget : get ad.(bssid) = Some i) (Hsta : stas !! i = Some sta) (Hasoc : sta.(state) .& WIFI_ASOC_STATE ≠ 0).
Context (Hseq : sta.(txseq_tid) !! Z.to_nat x.(x_hdr).(priority) = Some old) (Hba : length sta.(BA_starting_seqctrl) = 16%nat).
#[local] Abbreviation seqnum := (u16 (old + 1) .& 0xFFF).

Lemma make_wlanhdr_ok : ∃ en stas',
  rtw_make_wlanhdr get ad x stas = Ret (Some (fc_bytes ad x ++ hdr_rest ad x seqnum ++ replicate (if qos_option ad then 38 else 40) 0,
                                             seqnum, en, stas')).
Proof using All.
  unfold rtw_make_wlanhdr, wlan_addrs. destruct (rd_hdr _ _ _ _ _ Hx) as (Hs & _). rewrite Hs.
  replace ((if qos_option ad then 136 else 8) .& 8 =? 0) with false by (by destruct (qos_option ad)).
  rewrite (proj2 (Z.eqb_neq _ _) (rd_mode _ _ _ _ _ Hx)). cbn [negb].
  rewrite (rd_bssid _ _ _ _ _ Hx), Hget, (rd_psta _ _ _ _ _ Hx), bool_decide_true, Hsta by done. cbn [negb].
  rewrite (proj2 (Z.eqb_neq _ _) Hasoc), Hseq. pose proof (rd_prio _ _ _ _ _ Hx) as Hp.
  destruct (lookup_lt_is_Some_2 (BA_starting_seqctrl sta) (Z.to_nat (priority (x_hdr x) .& 15))) as [ba ->].
  { rewrite Hba. change 15 with (Z.ones 4). rewrite Z.land_ones by lia. Z.div_mod_to_equations. lia. }
  destruct (check_ampdu _ _ _) as [en b]. eexists en, _. by rewrite (wlan_hdr_eq ad x i pkt payload seqnum Hx).
Qed.

Lemma fc_bytes_mfrag : ∃ f0 f1, fc_bytes ad x = [f0; f1] ∧
  RTW_PUT_LE16 (Z.ldiff (RTW_GET_LE16 (RTW_PUT_LE16 (RTW_GET_LE16 [f0; f1] .| MORE_FRAG))) MORE_FRAG) = [f0; f1].
Proof. unfold fc_bytes. do 2 eexists. split; [done|]. destruct (qos_option ad), (mdata (x_phy x) =? 0); reflexivity. Qed.

(** The loop, on a buffer that holds the header. *)
Lemma coalesce_buffer frag_len addr hw mem :
  bytes mem → (hw + 64 ≤ length mem)%nat → (hw + hl + 24 + length payload ≤ length mem)%nat →
  Z.of_nat (hl + 24 + length payload) ≤ frag_len - 4 → frag_len < 2 ^ 31 →
  ∃ mem1 post, buf_write mem hw (fc_bytes ad x ++ hdr_rest ad x seqnum ++ replicate (if qos_option ad then 38 else 40) 0) = Ret mem1 ∧
    coalesce_loop (S (length pkt)) x pkt (frag_len - 4) addr hw hw 0 14 hw mem1 =
      Ret (1%nat, Z.of_nat (hl + 24 + length payload), take hw mem ++ air_plain seqnum ++ post) ∧
    bytes post ∧ (hw + (hl + 24 + length payload) + length post = length mem)%nat.
Proof using All.
  intros Hb H64 Hroom Hfit H31. pose proof (length_hdr_rest seqnum) as Lr. pose proof hl_bounds as Hh.
  destruct (rd_hdr _ _ _ _ _ Hx) as (_ & Ehl & _). destruct (rd_sec _ _ _ _ _ Hx) as (_ & Hiv & Hicv & Hsw).
  destruct (rd_iv _ _ _ _ _ Hx) as [Hivl _]. destruct (rd_lens _ _ _ _ _ Hx) as (_ & Lt & Ld).
  set (z := replicate (if qos_option ad then 38 else 40) 0). set (H := hdr_rest ad x seqnum) in *.
  assert (hl + length z = 64)%nat as Lz by (unfold z; rewrite length_replicate, Ehl; by destruct (qos_option ad)).
  assert (length (fc_bytes ad x ++ H ++ z) = 64)%nat as L64 by (rewrite !length_app; change (length (fc_bytes ad x)) with 2%nat; lia).
  set (tl := z ++ drop (hw + 64) mem). set (n := (24 + length payload)%nat).
  assert (n ≤ length tl)%nat as Hn by (unfold tl, n; rewrite length_app, length_drop; lia).
  exists (take hw mem ++ fc_bytes ad x ++ H ++ tl), (drop n tl). split_and!.
  - rewrite buf_write_ok by lia. rewrite L64. unfold tl. by rewrite <- !app_assoc.
  - destruct fc_bytes_mfrag as (f0 & f1 & Ef & Hfc). rewrite <- (take_drop n tl) at 1. unfold air_plain. rewrite Ef.
    replace hw with (length (take hw mem)) at 3 by (rewrite length_take; lia).
    rewrite (coalesce_one x pkt payload (take hw mem) H (take n tl) (drop n tl) f0 f1); try done.
    + rewrite <- !app_assoc. replace (Z.of_nat hl + 24 + Z.of_nat (length payload)) with (Z.of_nat (hl + 24 + length payload)) by lia. done.
    + by rewrite (rd_bssid _ _ _ _ _ Hx), (rd_unicast _ _ _ _ _ Hx).
    + lia.
    + rewrite (rd_pkt _ _ _ _ _ Hx), !app_assoc. apply drop_app_length'. rewrite !length_app, Lt, Ld. done.
    + rewrite (rd_pkt _ _ _ _ _ Hx), !length_app, Lt, Ld. cbn. lia.
    + rewrite length_take. lia.
    + lia.
    + lia.
  - unfold tl. apply bytes_drop, bytes_app; [|by apply bytes_drop]. apply Forall_replicate. by split.
  - rewrite length_drop. unfold tl. rewrite length_app, length_drop. unfold n. lia.
Qed.

Lemma coalesce_sends e s grp frag_len off addr mem F1 :
  let hw := hw_hdr_offset off in
  bytes mem → (hw + 64 ≤ length mem)%nat → (hw + hl + 24 + length payload ≤ length mem)%nat → Z.of_nat (length mem) < 2 ^ 31 →
  Z.of_nat (hl + 24 + length payload) ≤ frag_len - 4 → frag_len < 2 ^ 31 →
  length F1 = (hl + 24 + length payload)%nat →
  (∀ rest, bytes rest → Z.of_nat (length (air_plain seqnum ++ rest)) < 2 ^ 32 →
    rtw_ccmp_encrypt kmalloc mode x.(x_sec).(XmitAttrib.UncstKey) 16 hl (air_plain seqnum ++ rest) (8 + length payload) = Ret (F1 ++ rest)) →
  ∃ b s' stas' mem',
    rtw_xmitframe_coalesce get kmalloc mode true w11 e ad s grp frag_len pkt x off (Some addr) mem stas = Ret (Some b, s', stas', mem') ∧
    b_last_txcmdsz b = Z.of_nat (length F1) ∧ b_nr_frags b = 1%nat ∧ b_seqnum b = seqnum ∧ slice hw (length F1) mem' = F1.
Proof using All.
  intros hw Hb H64 Hroom Hm31 Hfit H31 L1 Hseal. unfold rtw_xmitframe_coalesce. cbv zeta. fold hw.
  destruct make_wlanhdr_ok as (en & stas' & ->). cbn [cbind].
  destruct (coalesce_buffer frag_len addr hw mem Hb H64 Hroom Hfit H31) as (mem1 & post & -> & El & Hpost & Lpost). cbn [cbind].
  destruct (rd_hdr _ _ _ _ _ Hx) as (_ & _ & Hph). destruct (rd_sec _ _ _ _ _ Hx) as (He & Hiv & Hicv & Hsw).
  assert ((pktfile_read pkt 0 (Z.of_nat (pkt_hdrlen (x_hdr x)))).2 = 14%nat) as ->.
  { rewrite Hph. unfold pktfile_read. cbn [snd]. rewrite drop_0, (rd_pkt _ _ _ _ _ Hx), !length_app.
    destruct (rd_lens _ _ _ _ _ Hx) as (_ & -> & ->). change (u32 (Z.of_nat 14)) with 14. change (length (RTW_PUT_BE16 _)) with 2%nat.
    rewrite Z.min_l by lia. done. }
  rewrite El. cbn [cbind]. unfold xmitframe_addmic. rewrite He. change (SecFrames.AES =? TKIP) with false. cbn [cbind].
  unfold xmitframe_swencrypt. rewrite Hsw, He. change (is_wep SecFrames.AES) with false. change (SecFrames.AES =? TKIP) with false.
  change (SecFrames.AES =? SecFrames.AES) with true. cbn [orb].
  rewrite (aes_encrypt_one kmalloc mode w11 s frag_len _ off addr (take hw mem) (air_plain seqnum ++ post) (F1 ++ post) (8 + length payload)); try done.
  - cbn [cbind]. rewrite (rd_bssid _ _ _ _ _ Hx), (rd_unicast _ _ _ _ _ Hx). do 4 eexists. split; [reflexivity|].
    cbn [b_last_txcmdsz b_nr_frags b_seqnum]. split_and!; [by rewrite L1|done|done|]. unfold slice.
    rewrite drop_app_length' by (rewrite length_take; lia). by rewrite take_app_length.
  - cbn [cipher_attrib WepTkip.ra]. by rewrite (rd_bssid _ _ _ _ _ Hx), (rd_unicast _ _ _ _ _ Hx).
  - rewrite length_take. fold hw. lia.
  - cbn [cipher_attrib last_txcmdsz WepTkip.hdrlen WepTkip.iv_len WepTkip.icv_len]. rewrite Hiv, Hicv. lia.
  - cbn [cipher_attrib last_txcmdsz]. lia.
  - cbn [cipher_attrib WepTkip.UncstKey WepTkip.hdrlen]. apply Hseal; [done|]. rewrite length_app, length_air_plain. lia.
Qed.
End transmit.

(** ** Reception *)
Definition qos_checkb (p e a : Z) : bool :=
  let qc := put_bits (put_bits (if p =? 0 then 0 else put_bits 0 0 4 p) 4 1 e) 5 2 a in
  negb (Z.testbit (RTW_GET_LE16 (RTW_PUT_LE16 qc)) 7) && (RTW_GET_LE16 (RTW_PUT_LE16 qc) .& 0xf =? p).
Lemma qos_checkb_small :
  forallb (λ p, forallb (λ e, forallb (λ a, qos_checkb (Z.of_nat p) (Z.of_nat e) (Z.of_nat a)) (seq 0 4)) (seq 0 2)) (seq 0 16) = true.
Proof. vm_compute. reflexivity. Qed.
Lemma put_bits_mod v o n x : 0 ≤ n → put_bits v o n (x mod 2 ^ n) = put_bits v o n x.
Proof. intros Hn. unfold put_bits. by rewrite !Z.land_ones, Z.mod_mod by (done || apply Z.pow_nonzero; lia). Qed.
Lemma qos_ctl_fields x : 0 ≤ x.(x_hdr).(priority) < 16 → x.(x_amsdu) = 0 →
  let qc := RTW_GET_LE16 (RTW_PUT_LE16 (qos_ctl x 0)) in
  Z.testbit qc 7 = false ∧ qc .& 0xf = x.(x_hdr).(priority).
Proof.
  intros Hp Ha. unfold qos_ctl. rewrite Ha. change (0 =? 0) with true. cbv iota zeta.
  rewrite <- (put_bits_mod _ 4 1 (eosp _)), <- (put_bits_mod _ 5 2 (ack_policy _)) by lia.
  set (p := priority _) in *. set (e := eosp _ mod _). set (a := ack_policy _ mod _).
  assert (0 ≤ e < 2) as He by (unfold e; apply Z.mod_pos_bound; lia). assert (0 ≤ a < 4) as Hac by (unfold a; apply Z.mod_pos_bound; lia).
  pose proof qos_checkb_small as H. rewrite List.forallb_forall in H. specialize (H (Z.to_nat p) ltac:(apply List.in_seq; lia)).
  rewrite List.forallb_forall in H. specialize (H (Z.to_nat e) ltac:(apply List.in_seq; lia)).
  rewrite List.forallb_forall in H. specialize (H (Z.to_nat a) ltac:(apply List.in_seq; lia)).
  rewrite !Z2Nat.id in H by lia. apply andb_true_iff in H as [H1 H2]. apply negb_true_iff in H1. apply Z.eqb_eq in H2. done.
Qed.
Lemma seq_ctl_fields v : 0 ≤ v < 4096 →
  let sc := RTW_GET_LE16 (RTW_PUT_LE16 (0xfff0 .& (v << 4))) in sc .& 0xf = 0 ∧ sc >> 4 = v.
Proof.
  intros Hv. assert (0xfff0 .& (v << 4) = v * 16) as ->.
  { apply Z.bits_inj'. intros n Hn. rewrite Z.land_spec, Z.shiftl_spec by done. change (v * 16) with (v * 2 ^ 4).
    rewrite <- Z.shiftl_mul_pow2, Z.shiftl_spec by lia. change 0xfff0 with (Z.ones 12 << 4). rewrite Z.shiftl_spec by lia.
    destruct (decide (n < 4)); [rewrite (Z.testbit_neg_r v) by lia; apply andb_false_r|].
    destruct (decide (n < 16)); [by rewrite Z.ones_spec_low by lia|]. rewrite Z.ones_spec_high by lia. symmetry. apply (uint_testbit 12); [|lia].
    split; lia. }
  assert (RTW_GET_LE16 (RTW_PUT_LE16 (v * 16)) = v * 16) as ->.
  { apply aget_put_le16. split; lia. }
  cbv zeta. change 0xf with (Z.ones 4). rewrite Z.land_ones, Z.shiftr_div_pow2 by lia. change (2 ^ 4) with 16.
  split; [apply Z.mod_mul; lia|apply Z.div_mul; lia].
Qed.

Section receive.
Context (kmalloc : Z → bool) (mode : Z) (Hmal : ∀ n, kmalloc n = true) (w11 concurrent : bool).
Context (ad : tx_adapter) (x : xmit_attrib) (i : nat) (pkt payload : list Z) (Hx : ccmp_ready ad x i pkt payload).
#[local] Abbreviation hl := (XmitAttrib.hdrlen (x_hdr x)).
#[local] Abbreviation q := (qos_option ad).

Definition air_read (seqn : Z) : rx_hdr := {|
  subtype := if q then 0x88 else 0x08; to_fr_ds := 1; frag_num := 0; seq_num := seqn;
  pw_save := false; mfrag := false; privacy := true; order := false |}.
(** The header as the receiver reads it. *)
Lemma air_header seqn Y : 0 ≤ seqn < 4096 →
  let R := fc_bytes ad x ++ hdr_rest ad x seqn ++ Y in
  let qc := if q then RTW_GET_LE16 (RTW_PUT_LE16 (qos_ctl x 0)) else 0 in
  mem_byte R 0 = Ret (if q then 0x88 else 0x08) ∧ read_hdr R = Ret (air_read seqn) ∧
  addr_at R 4 = Ret ad.(bssid) ∧ addr_at R 10 = Ret x.(x_addr).(XmitAttrib.ta) ∧ addr_at R 16 = Ret x.(x_addr).(dst) ∧
  (if q then let* b := mem_read R 24 2 in Ret (RTW_GET_LE16 b) else Ret 0) = Ret qc.
Proof using Hx.
  intros Hs R qc. destruct (rd_lens _ _ _ _ _ Hx) as (H1 & H2 & H3). unfold R, qc, fc_bytes, hdr_rest. clear R qc.
  destruct (list6 _ H1) as (? & ? & ? & ? & ? & ? & ->). destruct (list6 _ H2) as (? & ? & ? & ? & ? & ? & ->).
  destruct (list6 _ H3) as (? & ? & ? & ? & ? & ? & ->). pose proof (seq_ctl_fields seqn Hs) as [Hf Hn]. cbv zeta in Hf, Hn.
  set (sc := RTW_PUT_LE16 (_ .& _)) in *. assert (∃ s0 s1, sc = [s0; s1]) as (s0 & s1 & E) by (by do 2 eexists). clearbody sc. subst sc.
  split; [by destruct q|]. split; [|by destruct q].
  transitivity (Ret {| subtype := if q then 0x88 else 0x08; to_fr_ds := 1; frag_num := RTW_GET_LE16 [s0; s1] .& 0xf; seq_num := RTW_GET_LE16 [s0; s1] >> 4;
    pw_save := false; mfrag := false; privacy := true; order := false |}); [by destruct q, (mdata (x_phy x) =? 0)|].
  by rewrite Hf, Hn.
Qed.

Lemma air_prefix seqn : set_fc WLAN_FC_ISWEP (take hl (air_plain ad x payload seqn)) = fc_bytes ad x ++ hdr_rest ad x seqn.
Proof using Hx.
  pose proof (length_hdr_rest ad x i pkt payload Hx seqn) as L. pose proof (hl_bounds ad x i pkt payload Hx).
  unfold air_plain. rewrite app_assoc, take_app_length' by (rewrite length_app, L; cbn; lia).
  rewrite set_fc_app by done. f_equal. unfold fc_bytes. by destruct q, (mdata (x_phy x) =? 0).
Qed.

(** The receiver: an access point that knows the station, holds its key, and has not
    seen the frame's numbers. *)
Context (get : list Z → option nat) (ad2 : tx_adapter) (stas : list sta_tx) (radar due : bool) (no_amsdu : nat → bool).
Context (j : nat) (sta : sta_tx).
Record ap_receives : Prop := {
  ap_mode : ad2.(fw_state) .& WIFI_AP_STATE ≠ 0;
  ap_asoc : ad2.(fw_state) .& WIFI_ASOC_STATE ≠ 0;
  ap_auth : ad2.(dot11AuthAlgrthm) = dot11AuthAlgrthm_8021X;
  ap_get : get x.(x_addr).(XmitAttrib.ta) = Some j;
  ap_sta : stas !! j = Some sta;
  ap_open : sta.(ieee8021x_blocked) = false;
  ap_cipher : sta.(dot118021XPrivacy) = SecFrames.AES;
  ap_key : sta.(sta_UncstKey) = x.(x_sec).(XmitAttrib.UncstKey)
}.
Context (Hap : ap_receives).
Definition air_attr (enc0 seqn : Z) (R : list Z) : rx_attr :=
  RxAttr enc0 hl (if q then Z.to_nat x.(x_hdr).(priority) else 0%nat) q false seqn 0 R.
Definition air_info (seqn ack : Z) : rx_info :=
  Build_rx_info (air_read seqn)
    (Build_rx_addrs ad.(bssid) x.(x_addr).(XmitAttrib.ta) x.(x_addr).(dst) x.(x_addr).(XmitAttrib.ta) ad.(bssid))
    j false q (if q then Z.to_nat x.(x_hdr).(priority) else 0%nat) ack hl SecFrames.AES 8 8.

Lemma air_kept seqn a Y : (16 ≤ length Y)%nat →
  drop_unprotected ad2 (air_read seqn) a sta false hl 8 (fc_bytes ad x ++ hdr_rest ad x seqn ++ Y) = Ret false.
Proof using Hx Hap.
  intros HY. destruct Hap as [_ _ Hau _ _ _ Hci _]. pose proof (length_hdr_rest ad x i pkt payload Hx seqn) as L.
  unfold drop_unprotected. destruct (_ =? _); [done|]. destruct (IS_MCAST _); [done|].
  rewrite mem_read_ok by (rewrite !length_app, L; unfold LLC_HEADER_SIZE; change (length (fc_bytes ad x)) with 2%nat; lia).
  cbn [cbind air_read privacy negb andb orb]. rewrite Hau, bool_decide_true, Hci by done.
  change (SecFrames.AES =? NO_PRIVACY) with false. by rewrite !andb_false_r.
Qed.
Lemma air_accepted enc0 old c rx rx' seqn Y : 0 ≤ seqn < 4096 → (16 ≤ length Y)%nat →
  let R := fc_bytes ad x ++ hdr_rest ad x seqn ++ Y in
  c.(sta_rx) !! j = Some rx →
  rx_checks (in_state ad2 WIFI_STATION_STATE) (set_iv_seq c.(grp_iv) rx) (air_attr enc0 seqn R) = Ret (true, rx') →
  ∃ ack reqs, validate_recv_frame get ad2 stas radar due no_amsdu enc0 old c R =
    Ret (V_SUCCESS, Some (air_info seqn ack), {| sta_rx := <[j := rx']> c.(sta_rx); grp_iv := rx'.(iv_seq) |}, reqs).
Proof using All.
  intros Hs HY R Hrx Hchk. destruct (air_header seqn Y Hs) as (Hb & Hr & H1 & H2 & H3 & Hq). fold R in Hb, Hr, H1, H2, H3, Hq.
  destruct Hap as [Hm Ha Hau Hg Hst Hbl Hci _].
  unfold validate_recv_frame. rewrite Hb, Hr. cbn [cbind].
  replace (negb ((if q then 136 else 8) .& 3 =? 0)) with false by (by destruct q).
  replace ((if q then 136 else 8) .& 12 =? 8) with true by (by destruct q).
  unfold validate_recv_data_frame. cbn [air_read to_fr_ds subtype frag_num seq_num order privacy]. change (1 =? 3) with false. cbv zeta. cbn [negb].
  replace (Z.testbit (if q then 136 else 8) 7) with q by (by destruct q). rewrite !Nat.add_0_r, Hq. cbn [cbind].
  set (qc := if q then RTW_GET_LE16 _ else 0). destruct (qos_ctl_fields x (rd_prio _ _ _ _ _ Hx) (rd_amsdu _ _ _ _ _ Hx)) as [Q7 Qp].
  assert (Z.testbit qc 7 = false) as -> by (unfold qc; by destruct q).
  assert (Z.to_nat (qc .& 0xf) = if q then Z.to_nat x.(x_hdr).(priority) else 0%nat) as -> by (unfold qc; destruct q; [by rewrite Qp|done]).
  unfold validate_hdr. assert (in_state ad2 WIFI_AP_STATE = true) as -> by (unfold in_state; by rewrite (proj2 (Z.eqb_neq _ _) Hm)).
  unfold rtw_ap_rx_data_validate_hdr. rewrite (proj2 (Z.eqb_neq _ _) Ha), H1. cbn [cbind].
  rewrite (rd_unicast _ _ _ _ _ Hx). cbn [air_read to_fr_ds]. change (1 =? 1) with true. cbv iota. rewrite H2, H3. cbn [cbind r_ta r_ra].
  rewrite Hg, Hst. fold (air_read seqn). cbn [air_read subtype].
  replace (Z.testbit (if q then 136 else 8) 6) with false by (by destruct q). cbn [cbind]. rewrite Hst, Hrx, andb_false_r. cbn [r_ra].
  rewrite (rd_unicast _ _ _ _ _ Hx). destruct (rd_hdr _ _ _ _ _ Hx) as (_ & Eh & _). unfold air_attr in Hchk. rewrite Eh in Hchk.
  rewrite Hchk. cbn [cbind negb]. unfold GET_ENCRY_ALGO. rewrite Hau, Hci. change (u8 SecFrames.AES) with SecFrames.AES.
  change (iv_icv_len SecFrames.AES) with (8%nat, 8%nat). cbv iota.
  fold (air_read seqn). rewrite <- Eh. unfold R. rewrite air_kept by done. cbn [cbind]. do 2 eexists. reflexivity.
Qed.

(** The decryptor on the received frame. *)
Lemma air_decrypted s seqn ack F1 tail F2 :
  let R := F1 ++ tail in
  (∃ Y, R = fc_bytes ad x ++ hdr_rest ad x seqn ++ Y ∧ (8 ≤ length Y)%nat) →
  rtw_ccmp_decrypt kmalloc mode x.(x_sec).(XmitAttrib.UncstKey) 16 hl R (Z.of_nat (length F1)) = Ret F2 →
  ∃ s' rx, decryptor kmalloc mode true w11 concurrent s (sta_keys_of get stas x.(x_addr).(XmitAttrib.ta))
             (RxFrame (frame_of (air_info seqn ack) R (Z.of_nat (length F1))) false) = Ret (s', Some rx) ∧
    WepTkip.rx_data (rf rx) = F2.
Proof using All.
  intros R (Y & ER & HY) Hd. destruct Hap as [_ _ _ Hg Hst _ _ Hk]. pose proof (length_hdr_rest ad x i pkt payload Hx seqn) as L.
  pose proof (hl_bounds ad x i pkt payload Hx) as Hh.
  assert (hl + 8 ≤ length R)%nat as LR by (rewrite ER, !length_app, L; change (length (fc_bytes ad x)) with 2%nat; lia).
  unfold sta_keys_of. rewrite Hg. cbn. rewrite Hst. unfold decryptor, read_key_index. cbn [rf frame_of rx_encrypt v_encrypt air_info rx_hdrlen v_hdrlen WepTkip.rx_data].
  change (0 <? SecFrames.AES) with true. cbv iota.
  destruct (lookup_lt_is_Some_2 R (hl + 3)) as [b Hb]; [lia|].
  replace (Z.of_nat hl + 3) with (Z.of_nat (hl + 3)) by lia. rewrite (mem_byte_at _ _ _ Hb). cbn [cbind].
  set (idx := if WEP_KEYS <? _ then _ else _). cbn [rx_encrypt set_key_index frame_of v_encrypt air_info bdecrypted WepTkip.rx_data rx_ra].
  change (SecFrames.AES =? 0) with false. cbn [negb andb]. rewrite mem_read_ok by lia. cbn [cbind].
  unfold sw_decrypt, rtw_aes_decrypt, dec_frame, dec_key.
  cbn [rx_encrypt set_key_index frame_of v_encrypt air_info WepTkip.rx_data rx_ra rx_hdrlen v_hdrlen v_addr r_ra rx_len].
  change (is_wep SecFrames.AES) with false. change (SecFrames.AES =? TKIP) with false. change (SecFrames.AES =? SecFrames.AES) with true. cbn [orb].
  rewrite (rd_unicast _ _ _ _ _ Hx). cbn [mbind option_bind uncst_key]. rewrite Hk. change (SecFrames.AES =? CCMP_256) with false. cbv iota.
  rewrite Hd. cbn [dec_result cbind]. by do 2 eexists.
Qed.

(** The whole way: validation, decryption and the port. *)
Lemma air_received s enc0 old c rx rx' seqn F1 tail F2 : 0 ≤ seqn < 4096 →
  let R := F1 ++ tail in
  (hl + 16 ≤ length F1)%nat → take hl F1 = fc_bytes ad x ++ hdr_rest ad x seqn →
  rtw_ccmp_decrypt kmalloc mode x.(x_sec).(XmitAttrib.UncstKey) 16 hl R (Z.of_nat (length F1)) = Ret F2 →
  c.(sta_rx) !! j = Some rx →
  rx_checks (in_state ad2 WIFI_STATION_STATE) (set_iv_seq c.(grp_iv) rx) (air_attr enc0 seqn R) = Ret (true, rx') →
  ∃ ack s' c' reqs, recv_single get kmalloc mode w11 concurrent ad2 stas radar due no_amsdu s enc0 old c R (Z.of_nat (length F1)) false =
    Ret (Some (air_info seqn ack, F2), s', c', reqs).
Proof using All.
  intros Hs R HF Ht Hd Hrx Hchk. pose (Y := drop hl F1 ++ tail).
  assert (R = fc_bytes ad x ++ hdr_rest ad x seqn ++ Y) as ER.
  { unfold R, Y. rewrite <- (take_drop hl F1) at 1. by rewrite Ht, <- !app_assoc. }
  assert (16 ≤ length Y)%nat as HY by (unfold Y; rewrite length_app, length_drop; lia).
  rewrite ER in Hchk. destruct (air_accepted enc0 old c rx rx' seqn Y Hs HY Hrx Hchk) as (ack & reqs & Ev). rewrite <- ER in Ev.
  unfold recv_single. rewrite Ev. cbn [cbind]. change (r_ta (v_addr (air_info seqn ack))) with x.(x_addr).(XmitAttrib.ta).
  unfold R. destruct (air_decrypted s seqn ack F1 tail F2 ltac:(exists Y; split; [done|lia]) Hd) as (s' & rx2 & -> & E2). cbn [cbind]. rewrite E2.
  unfold portctrl. destruct Hap as [_ _ Hau Hg Hst Hbl _ _]. rewrite Hau, bool_decide_true by done.
  change (r_ta (v_addr (air_info seqn ack))) with x.(x_addr).(XmitAttrib.ta). rewrite Hg, Hst, Hbl. cbn [cbind]. by do 4 eexists.
Qed.
End receive.

(** ** The packet *)
Lemma to_eth_snap da sa et payload : is_u16 et →
  to_eth da sa (rtw_put_snap et ++ payload) = da ++ sa ++ RTW_PUT_BE16 et ++ payload.
Proof.
  intros He. assert (RTW_GET_BE16 (RTW_PUT_BE16 et ++ payload) = et) as Hb.
  { unfold RTW_GET_BE16, RTW_PUT_BE16. cbn [app aget nth]. rewrite (u16_id et) by done.
    apply (uint_eq_bits 16); [apply u16_uint|done|]. unfold u16. by_bits 16%nat. }
  assert (drop 6 (rtw_put_snap et ++ payload) = RTW_PUT_BE16 et ++ payload) as Hdr by (unfold rtw_put_snap; by destruct (_ || _)).
  unfold to_eth, llc_of. rewrite (proj2 (Nat.ltb_ge _ 8)) by (rewrite length_app, length_put_snap; lia).
  change Msdu.SNAP_SIZE with 6%nat. rewrite Hdr, Hb. unfold rtw_put_snap. destruct ((et =? 0x8137) || (et =? 0x80f3)) eqn:E.
  - rewrite (bool_decide_true (_ = rtw_bridge_tunnel_header)) by done. by rewrite orb_true_r.
  - apply orb_false_iff in E as [E1 E2]. rewrite (bool_decide_true (_ = rtw_rfc1042_header)) by done.
    change ETH_P_IPX with 0x8137. change ETH_P_AARP with 0x80f3. by rewrite E1, E2.
Qed.
(** The attributes that reception hands on. *)
Record attr_of (v : rx_info) (a : rx_pkt_attrib) : Prop := {
  ao_hdrlen : a.(f_hdrlen) = Z.of_nat v.(v_hdrlen);
  ao_iv : a.(f_iv_len) = Z.of_nat v.(v_iv_len);
  ao_icv : a.(f_icv_len) = Z.of_nat v.(v_icv_len);
  ao_encrypt : a.(f_encrypt) = v.(v_encrypt);
  ao_dst : a.(f_dst) = v.(v_addr).(r_dst);
  ao_src : a.(f_src) = v.(v_addr).(r_src)
}.
Lemma mpdu_of_slices f m hl plen n : frame_ok f → contents f = take n m → n = (hl + 8 + plen + 8)%nat → (n ≤ length m)%nat →
  f.(RecvFrame.attrib).(f_hdrlen) = Z.of_nat hl → f.(RecvFrame.attrib).(f_iv_len) = 8 → f.(RecvFrame.attrib).(f_icv_len) = 8 → f.(RecvFrame.attrib).(f_encrypt) ≠ 0 →
  mpdu f (take hl m) (slice hl 8 m) (slice (hl + 8) plen m) (slice (hl + 8 + plen) 8 m).
Proof.
  intros Hf Hc -> Hn Hh Hi Hv He. assert (length (slice (hl + 8 + plen) 8 m) = 8%nat) as L8 by (apply length_slice; lia).
  constructor; [done| |..].
  - rewrite Hc. unfold slice. by rewrite <- !take_take_drop, <- !app_assoc.
  - rewrite length_take, Nat.min_l by lia. done.
  - rewrite length_slice by lia. done.
  - rewrite L8, (proj2 (Z.eqb_neq _ _) He), Hv. done.
Qed.

Section over_air.
Context (kmalloc : Z → bool) (mode : Z) (Hmal : ∀ n, kmalloc n = true).
(** The sender, a station ... *)
Context (get1 : list Z → option nat) (w1 : bool) (e1 : vcs_env) (ad1 : tx_adapter) (s1 : sec_state) (grp1 : list (list Z)) (frag_len : Z).
Context (x : xmit_attrib) (i : nat) (pkt payload : list Z) (stas1 : list sta_tx) (sta1 : sta_tx) (old1 off addr : Z) (mem : list Z).
(** ... and the receiver, its access point. *)
Context (get2 : list Z → option nat) (w2 conc : bool) (ad2 : tx_adapter) (stas2 : list sta_tx) (radar due : bool) (no_amsdu : nat → bool).
Context (j : nat) (sta2 : sta_tx).
#[local] Abbreviation hl := (XmitAttrib.hdrlen (x_hdr x)).

(** The frame fits, and the buffer holds it. *)
Record tx_room : Prop := {
  tr_bytes : bytes mem;
  tr_hdr : (hw_hdr_offset off + 64 ≤ length mem)%nat;
  tr_frame : (hw_hdr_offset off + hl + 24 + length payload ≤ length mem)%nat;
  tr_small : Z.of_nat (length mem) < 2 ^ 31;
  tr_msdu : Z.of_nat (length payload) < 65000;
  tr_frag : Z.of_nat (hl + 24 + length payload) ≤ frag_len - 4 < 2 ^ 31 - 4
}.
(** The station the sender knows its access point as. *)
Record tx_peer : Prop := {
  tp_get : get1 ad1.(bssid) = Some i;
  tp_sta : stas1 !! i = Some sta1;
  tp_asoc : sta1.(state) .& WIFI_ASOC_STATE ≠ 0;
  tp_seq : sta1.(txseq_tid) !! Z.to_nat x.(x_hdr).(priority) = Some old1;
  tp_ba : length sta1.(BA_starting_seqctrl) = 16%nat
}.

(** C1: a packet sent by the driver of a station is the packet the driver of its
    access point hands up: for an associated station that encrypts with CCMP in software, a
    packet from its own address that fits one fragment, when the allocations
    succeed, is built into one frame with the next sequence
    number of its priority; whatever follows the frame in the receiver's memory, an
    access point that shares the key and has not seen the sequence and packet number
    accepts it from that station, and hands up and forwards, as its policy says,
    exactly the Ethernet packet that was sent. *)
Theorem packet_over_air :
  ccmp_ready ad1 x i pkt payload → is_u16 x.(x_l4).(ether_type) → tx_peer → tx_room →
  ap_receives x get2 ad2 stas2 j sta2 →
  ∃ b s1' stas1' mem',
    rtw_xmitframe_coalesce get1 kmalloc mode true w1 e1 ad1 s1 grp1 frag_len pkt x off (Some addr) mem stas1 =
      Ret (Some b, s1', stas1', mem') ∧
    b.(b_nr_frags) = 1%nat ∧ b.(b_seqnum) = u16 (old1 + 1) .& 0xFFF ∧
    let n := Z.to_nat b.(b_last_txcmdsz) in
    let R tail := slice (hw_hdr_offset off) n mem' ++ tail in
    ∀ tail s2 enc0 old c rx rx', bytes tail → Z.of_nat (length tail) < 2 ^ 31 → c.(sta_rx) !! j = Some rx →
      rx_checks (in_state ad2 WIFI_STATION_STATE) (set_iv_seq c.(grp_iv) rx) (air_attr ad1 x enc0 b.(b_seqnum) (R tail)) = Ret (true, rx') →
    ∃ v mem2 s2' c' reqs,
      recv_single get2 kmalloc mode w2 conc ad2 stas2 radar due no_amsdu s2 enc0 old c (R tail) b.(b_last_txcmdsz) false =
        Ret (Some (v, mem2), s2', c', reqs) ∧ v.(v_psta) = j ∧
      ∀ run cx f, frame_ok f → contents f = take n mem2 → attr_of v f.(RecvFrame.attrib) →
        let act := rx_msdu_act cx v.(v_addr).(r_dst) v.(v_addr).(r_src) in
        recv_process_single run cx f = Ret {|
          forwarded := if act .& RTW_RX_MSDU_ACT_FORWARD =? 0 then [] else [pkt];
          indicated := if (act .& RTW_RX_MSDU_ACT_INDICATE =? 0) || negb run then [] else [pkt] |}.
Proof using Hmal.
  intros Hx Het [Hget Hst Has Hsq Hba] [Tb Th Tf Ts Tm [Tg Tg2]] Hap. set (seqn := u16 (old1 + 1) .& 0xFFF).
  assert (0 ≤ seqn < 4096) as Hs.
  { unfold seqn. change 0xFFF with (Z.ones 12). rewrite Z.land_ones by lia. apply Z.mod_pos_bound. lia. }
  pose proof (length_air_plain ad1 x i pkt payload Hx seqn) as LF. pose proof (hl_bounds ad1 x i pkt payload Hx) as Hh.
  destruct (ccmp_sealed kmalloc mode Hmal x.(x_sec).(XmitAttrib.UncstKey) hl (8 + length payload) (air_plain ad1 x payload seqn))
    as (F1 & L1 & HF1 & _ & Hall); [lia|by eapply air_plain_bytes|lia|lia|].
  destruct (coalesce_sends ad1 x i pkt payload Hx get1 kmalloc mode Hmal w1 stas1 sta1 old1 Hget Hst Has Hsq Hba
    e1 s1 grp1 frag_len off addr mem F1) as (b & s1' & stas1' & mem' & Ec & Hlast & Hnr & Hseq & HF); try done; [lia|lia| |].
  { intros rest Hr H32. by apply Hall. }
  exists b, s1', stas1', mem'. split; [done|]. split; [done|]. split; [done|]. cbv zeta. rewrite Hlast, Nat2Z.id, HF, Hseq. fold seqn.
  intros tail s2 enc0 old c rx rx' Ht Hlt Hrx Hchk.
  destruct (Hall tail Ht) as (_ & F2 & Hd & L2 & Hpl); [rewrite length_app; lia|]. rewrite <- L1 in Hd.
  rewrite (air_prefix ad1 x i pkt payload Hx seqn) in HF1.
  destruct (air_received kmalloc mode Hmal w2 conc ad1 x i pkt payload Hx get2 ad2 stas2 radar due no_amsdu j sta2 Hap
    s2 enc0 old c rx rx' seqn F1 tail F2 Hs ltac:(lia) HF1 Hd Hrx Hchk) as (ack & s2' & c' & reqs & Er).
  exists (air_info ad1 x j seqn ack), F2, s2', c', reqs. split; [exact Er|]. split; [done|].
  intros run cx f Hf Hc [A1 A2 A3 A4 A5 A6].
  assert (slice (hl + 8) (8 + length payload) F2 = rtw_put_snap (ether_type (x_l4 x)) ++ payload) as Hbody.
  { rewrite Hpl. apply air_plain_body with (1 := Hx). }
  rewrite length_app in L2.
  pose proof (mpdu_of_slices f F2 hl (8 + length payload) (length F1) Hf Hc ltac:(lia) ltac:(lia) A1 A2 A3 ltac:(by rewrite A4)) as Hm.
  rewrite Hbody in Hm. destruct (rd_lens _ _ _ _ _ Hx) as (_ & Lt & Ld).
  rewrite (single_msdu_packet run cx f _ _ _ _ Hm); cycle 1.
  { by rewrite A5. } { by rewrite A6. } { rewrite length_take, length_slice by lia. lia. } { rewrite length_app, length_put_snap. lia. }
  rewrite A5, A6. cbn [air_info v_addr r_dst r_src]. rewrite to_eth_snap by done. by rewrite <- (rd_pkt _ _ _ _ _ Hx).
Qed.
End over_air.

(** ** Examples *)
(** A station sends to its access point; XmitAttrib has the adapter and the tables of
    the station, [ap_table] is that of the access point. *)
Definition air_payload (n : nat) : list Z := List.map Z.of_nat (seq 1 n).
Definition air_pkt (n : nat) : list Z := demo_pkt [0x86; 0xdd] (air_payload n).
Definition air_attrib (n : nat) : xmit_attrib :=
  match update_attrib (StaTable.rtw_get_stainfo demo_table) demo_adapter demo_stack (replicate 14 0) (air_pkt n) no_attrib demo_stas with
  | Ret (true, a, _, _) => a
  | _ => no_attrib
  end.
Definition air_vcs : vcs_env := Build_vcs_env 2 1 8 false 2347 0 0 0 0 false None.
Definition air_buffer : list Z := replicate 600 0xee.
Definition ap_table : sta_priv :=
  snd (StaTable.rtw_alloc_stainfo (snd (StaTable.rtw_init_bcmc_stainfo (StaTable.rtw_init_sta_priv 32))) sta_addr).
Definition ap_adapter : tx_adapter :=
  Build_tx_adapter 0x11 ap_addr ap_addr true 0 false 0 0 dot11AuthAlgrthm_8021X 4 4 0 1 true true false 0 false false
    6 1 1 true 0xFF 0.
Definition air_send (frag_len : Z) (n : nat) : cres (option built * sec_state * list sta_tx * list Z) :=
  rtw_xmitframe_coalesce (StaTable.rtw_get_stainfo demo_table) (λ _, true) 0 true false air_vcs demo_adapter SecFrames.demo_sec []
    frag_len (air_pkt n) (air_attrib n) 0 (Some 0x1000) air_buffer demo_stas.
Definition air_frame : list Z := match air_send 2346 40 with Ret (_, _, _, m) => slice 48 90 m | _ => [] end.

Lemma packet_over_air_witness :
  match recv_single (StaTable.rtw_get_stainfo ap_table) (λ _, true) 0 false false ap_adapter demo_stas false false (λ _, false)
          SecFrames.demo_sec 0 rx_addrs0 rx_counters0 (air_frame ++ [1; 2; 3]) 90 false with
  | Ret (Some (v, mem2), _, _, _) =>
      ∀ f, frame_ok f → contents f = take 90 mem2 → attr_of v f.(RecvFrame.attrib) →
        ∃ out, recv_process_single true (demo_msdu_ctx MLME_STA) f = Ret out ∧ out.(indicated) = [air_pkt 40]
  | _ => False
  end.
Proof.
  pose proof (packet_over_air (λ _, true) 0 (λ _, eq_refl) (StaTable.rtw_get_stainfo demo_table) false air_vcs demo_adapter SecFrames.demo_sec []
    2346 (air_attrib 40) 1 (air_pkt 40) (air_payload 40) demo_stas (demo_sta false) 0 0 0x1000 air_buffer
    (StaTable.rtw_get_stainfo ap_table) false false ap_adapter demo_stas false false (λ _, false) 1 (demo_sta false)) as H.
  destruct H as (b & s1' & stas1' & mem' & E & _ & Hs & H).
  - constructor.
    + vm_compute. discriminate.
    + vm_compute. reflexivity.
    + vm_compute. reflexivity.
    + vm_compute. repeat split.
    + vm_compute. reflexivity.
    + vm_compute. repeat split.
    + vm_compute. split; congruence.
    + vm_compute. reflexivity.
    + vm_compute. repeat split.
    + split; [apply Nat.leb_le; vm_compute; reflexivity|bytes_lit].
    + vm_compute. reflexivity.
    + split; bytes_lit.
  - vm_compute. split; congruence.
  - constructor; try reflexivity. vm_compute. discriminate.
  - constructor; [bytes_lit|apply Nat.leb_le; vm_compute; reflexivity|apply Nat.leb_le; vm_compute; reflexivity|vm_compute; reflexivity|vm_compute; reflexivity|].
    vm_compute. split; congruence.
  - constructor; try (vm_compute; reflexivity); vm_compute; discriminate.
  - assert (b_last_txcmdsz b = 90 ∧ slice 48 90 mem' = air_frame ∧ b_seqnum b = 1) as (Hl & Hm & Hq).
    { unfold air_frame. unfold air_send. rewrite E. split_and!; [|done|done]. vm_compute in E. injection E as <- <- <- <-. reflexivity. }
    cbv zeta in H. rewrite Hl, Hq in H. change (hw_hdr_offset 0) with 48%nat in H. change (Z.to_nat 90) with 90%nat in H. rewrite Hm in H.
    destruct (H [1; 2; 3] SecFrames.demo_sec 0 rx_addrs0 rx_counters0 rx_init
      match rx_checks false rx_init (air_attr demo_adapter (air_attrib 40) 0 1 (air_frame ++ [1; 2; 3])) with Ret (_, r) => r | _ => rx_init end)
      as (v & mem2 & s2' & c' & reqs & Er & Hj & Hf).
    + bytes_lit.
    + reflexivity.
    + reflexivity.
    + vm_compute. reflexivity.
    + rewrite Er. intros f Hok Hc Ha. rewrite (Hf true (demo_msdu_ctx MLME_STA) f Hok Hc Ha). eexists. split; [reflexivity|].
      cbn [indicated]. reflexivity.
Defined.

(** ** Fragments *)
(** With a fragmentation threshold below the size of the frame, the second fragment is
    built behind the space for its transmit descriptor (at 348), but encryption looks for it
    where a fragment of [frag_len] bytes without descriptor would end (at 304): the
    cipher text runs over the header of the second fragment. *)
Definition frag_memory : list Z := match air_send 256 240 with Ret (_, _, _, m) => m | _ => [] end.
Theorem second_fragment_overwritten :
  (∃ b s stas, air_send 256 240 = Ret (Some b, s, stas, frag_memory) ∧ b.(b_nr_frags) = 2%nat ∧ b.(b_last_txcmdsz) = 80) ∧
  slice (48 + 4) 6 frag_memory = ap_addr ∧ slice (348 + 4) 6 frag_memory ≠ ap_addr.
Proof. split; [vm_compute; do 3 eexists; by split_and!|]. split; [vm_compute; reflexivity|]. vm_compute. discriminate. Qed.
(** When the hardware encrypts, the second fragment goes out with the fragment number and
    the packet number of the first: one nonce for two plain texts. *)
Definition hw_encrypted (a : xmit_attrib) : xmit_attrib :=
  let s := a.(x_sec) in
  set_secattr (Build_sec_attrib s.(XmitAttrib.encrypt) s.(key_idx) s.(XmitAttrib.iv_len) s.(XmitAttrib.icv_len) s.(iv) false
    s.(XmitAttrib.UncstKey) s.(tkiptxmickey) s.(bmc_camid) s.(mac_id)) a.
Theorem fragments_share_nonce :
  ∃ b s stas m,
    rtw_xmitframe_coalesce (StaTable.rtw_get_stainfo demo_table) (λ _, true) 0 true false air_vcs demo_adapter SecFrames.demo_sec []
      256 (air_pkt 240) (hw_encrypted (air_attrib 240)) 0 (Some 0x1000) air_buffer demo_stas = Ret (Some b, s, stas, m) ∧
    b.(b_nr_frags) = 2%nat ∧ slice (348 + 10) 6 m = sta_addr ∧ slice (48 + 22) 2 m = slice (348 + 22) 2 m ∧
    slice (48 + 26) 8 m = slice (348 + 26) 8 m.
Proof. do 4 eexists. split; [vm_compute; reflexivity|]. split_and!; vm_compute; reflexivity. Qed.
