(* ===== verification/XmitQueue.v ===== *)
(** * The transmit queues: [core/rtw_xmit.c], [core/rtw_recv.c] (PS-Poll),
    [core/rtw_sta_mgt_free.c], [core/rtw_ap.c], [hal/rtl8822b/usb/rtl8822bu_xmit.c],
    [os_dep/linux/usb_ops_linux.c]

    A packet of the network stack takes a frame from the free queue, gets its
    attributes and then either goes to the hardware, waits in the service queue
    of its station and access category, or is buffered while the station sleeps;
    the tasklet takes frames off the service queues and packs several into one
    USB buffer.  Frames, buffers and service queues are nodes of intrusive linked
    lists, modelled by the list of all links (queue, node) in the order of their
    insertion; to insert a node that is linked is [Oob], as it corrupts both
    lists.  An operation is the whole call, critical sections and what lies
    between them; operations run one after the other.

    What the environment decides during an operation is the record [env]: the
    state of the device, the answer of the USB core to a submission, and, for a
    frame, the attributes [update_attrib] gives (XmitAttrib) and the outcome of
    [rtw_xmitframe_coalesce] (XmitBuild).  Not modelled: the beacon rewritten
    after a change of the TIM, null frames, block-ack requests, submit contexts,
    counters of debugging, the flow control of the network device. *)
From S2P Require Import Prelude.
From stdpp Require Import list gmap.
From S2P Require Import StaTable WepTkip Defrag XmitAttrib RxValidate.
Local Open Scope Z_scope.

(** ** Linked lists *)
Section Links.
Context {Q N : Type} `{EqDecision Q} `{EqDecision N}.
Definition queue (h : list (Q * N)) (q : Q) : list N := (filter (λ x, x.1 = q) h).*2.
(** [rtw_is_list_empty] of a node is the negation. *)
Definition linked (n : N) (h : list (Q * N)) : bool := bool_decide (n ∈ h.*2).
(** [rtw_list_delete]: [list_del_init]. *)
Definition list_delete (n : N) (h : list (Q * N)) : list (Q * N) := filter (λ x, x.2 ≠ n) h.
(** [rtw_list_insert_tail]: [list_add_tail]. *)
Definition list_insert_tail (n : N) (q : Q) (h : list (Q * N)) : cres (list (Q * N)) :=
  if linked n h then Oob else Ret (h ++ [(q, n)]).
End Links.

(** ** Data *)
Definition NR_XMITFRAME : nat := 256.
Definition NR_XMITBUFF : nat := 4.
Definition NR_XMIT_EXTBUFF : nat := 32.
Definition HWXMIT_ENTRY : nat := 5.
Definition MGMT_IDX : nat := 4.
Definition MAX_XMITBUF_SZ : Z := 20480.
Definition MAX_TX_AGG_PACKET_NUMBER_8822B : Z := 0xff.
Definition WIFI_STA_ALIVE_CHK_STATE : Z := 0x00000400.
Definition QSLT_VO : Z := 0x7.
Definition QSLT_HIGH : Z := 0x11.
Definition RTW_HIQ_FILTER_ALLOW_ALL : Z := 0.
Definition RTW_HIQ_FILTER_ALLOW_SPECIAL : Z := 1.
Definition RTW_HIQ_FILTER_DENY_ALL : Z := 2.

(** The queues a frame may be in: the two free queues, [sta_pending] of the
    service queue of a station for an access category (4: management), its two
    sleep queues, its [tx_queue], the list of copies [rtw_xmit] works on. *)
Inductive qid :=
  | Q_free | Q_ext | Q_pend (s ac : nat) | Q_sleep (s : nat) | Q_mgmt_sleep (s : nat) | Q_tx (s : nat) | Q_b2u.
#[global] Instance qid_eq : EqDecision qid.
Proof. solve_decision. Defined.
Inductive bqid := B_free | B_ext.
#[global] Instance bqid_eq : EqDecision bqid.
Proof. solve_decision. Defined.

(** The fields of [struct pkt_attrib] the queues read. *)
Record sizes := { s_hdrlen : Z; s_iv_len : Z; s_pktlen : Z; s_encrypt : Z; s_bswenc : bool; s_icv_len : Z }.
Record qattrib := {
  ra : list Z; psta : option nat; priority : Z; qsel : Z;
  triggered : Z; mdata : Z; eosp : Z; ps_dontq : bool;
  ether_type : Z; dhcp_pkt : bool; hipriority_pkt : bool; nr_frags : nat; sz : sizes
}.
Record xmit_frame := {
  ext_tag : Z; pkt : option nat; pxmitbuf : option nat; agg_num : Z; pkt_offset : Z; attrib : qattrib
}.
Definition zero_attrib : qattrib := {|
  ra := replicate 6 0; psta := None; priority := 0; qsel := 0; triggered := 0; mdata := 0; eosp := 0;
  ps_dontq := false; ether_type := 0; dhcp_pkt := false; hipriority_pkt := false; nr_frags := 0;
  sz := {| s_hdrlen := 0; s_iv_len := 0; s_pktlen := 0; s_encrypt := 0; s_bswenc := false; s_icv_len := 0 |}
|}.
Definition set_attrib a x := Build_xmit_frame x.(ext_tag) x.(pkt) x.(pxmitbuf) x.(agg_num) x.(pkt_offset) a.
Definition set_pkt p x := Build_xmit_frame x.(ext_tag) p x.(pxmitbuf) x.(agg_num) x.(pkt_offset) x.(attrib).
Definition set_xbuf b x := Build_xmit_frame x.(ext_tag) x.(pkt) b x.(agg_num) x.(pkt_offset) x.(attrib).
Definition set_agg n o x := Build_xmit_frame x.(ext_tag) x.(pkt) x.(pxmitbuf) n o x.(attrib).
Definition set_ra r a := Build_qattrib r a.(psta) a.(priority) a.(qsel) a.(triggered) a.(mdata) a.(eosp) a.(ps_dontq) a.(ether_type) a.(dhcp_pkt) a.(hipriority_pkt) a.(nr_frags) a.(sz).
Definition set_psta p a := Build_qattrib a.(ra) p a.(priority) a.(qsel) a.(triggered) a.(mdata) a.(eosp) a.(ps_dontq) a.(ether_type) a.(dhcp_pkt) a.(hipriority_pkt) a.(nr_frags) a.(sz).
Definition set_prio p q a := Build_qattrib a.(ra) a.(psta) p q a.(triggered) a.(mdata) a.(eosp) a.(ps_dontq) a.(ether_type) a.(dhcp_pkt) a.(hipriority_pkt) a.(nr_frags) a.(sz).
Definition set_qsel q a := set_prio a.(priority) q a.
Definition set_ps t m e a := Build_qattrib a.(ra) a.(psta) a.(priority) a.(qsel) t m e a.(ps_dontq) a.(ether_type) a.(dhcp_pkt) a.(hipriority_pkt) a.(nr_frags) a.(sz).
Definition set_frags n a := Build_qattrib a.(ra) a.(psta) a.(priority) a.(qsel) a.(triggered) a.(mdata) a.(eosp) a.(ps_dontq) a.(ether_type) a.(dhcp_pkt) a.(hipriority_pkt) n a.(sz).

(** The fields of [struct sta_info]; [qcnt] are the counters of the five service
    queues. *)
Record sta := {
  s_mac : list Z; s_aid : Z; state : Z;
  uapsd_bk : Z; uapsd_be : Z; uapsd_vi : Z; uapsd_vo : Z; has_legacy_ac : bool;
  sleepq_len : Z; mgmt_sleepq_len : Z; sleepq_ac_len : Z;
  qcnt : nat → Z; tx_q_enable : bool; expire_to : Z
}.
Definition set_state v s := Build_sta s.(s_mac) s.(s_aid) v s.(uapsd_bk) s.(uapsd_be) s.(uapsd_vi) s.(uapsd_vo) s.(has_legacy_ac) s.(sleepq_len) s.(mgmt_sleepq_len) s.(sleepq_ac_len) s.(qcnt) s.(tx_q_enable) s.(expire_to).
Definition set_lens a b c s := Build_sta s.(s_mac) s.(s_aid) s.(state) s.(uapsd_bk) s.(uapsd_be) s.(uapsd_vi) s.(uapsd_vo) s.(has_legacy_ac) a b c s.(qcnt) s.(tx_q_enable) s.(expire_to).
Definition set_sleepq_len v s := set_lens v s.(mgmt_sleepq_len) s.(sleepq_ac_len) s.
Definition set_mgmt_sleepq_len v s := set_lens s.(sleepq_len) v s.(sleepq_ac_len) s.
Definition set_sleepq_ac_len v s := set_lens s.(sleepq_len) s.(mgmt_sleepq_len) v s.
Definition set_qcnt q s := Build_sta s.(s_mac) s.(s_aid) s.(state) s.(uapsd_bk) s.(uapsd_be) s.(uapsd_vi) s.(uapsd_vo) s.(has_legacy_ac) s.(sleepq_len) s.(mgmt_sleepq_len) s.(sleepq_ac_len) q s.(tx_q_enable) s.(expire_to).
Definition set_tx_q b s := Build_sta s.(s_mac) s.(s_aid) s.(state) s.(uapsd_bk) s.(uapsd_be) s.(uapsd_vi) s.(uapsd_vo) s.(has_legacy_ac) s.(sleepq_len) s.(mgmt_sleepq_len) s.(sleepq_ac_len) s.(qcnt) b s.(expire_to).
Definition set_expire v s := Build_sta s.(s_mac) s.(s_aid) s.(state) s.(uapsd_bk) s.(uapsd_be) s.(uapsd_vi) s.(uapsd_vo) s.(has_legacy_ac) s.(sleepq_len) s.(mgmt_sleepq_len) s.(sleepq_ac_len) s.(qcnt) s.(tx_q_enable) v.

(** The adapter.  [lk]: the links of frames; [tk]: those of service queues, the
    node of the queue [ac] of the station [s] being [(s, ac)], in the lists of
    [hwxmits]; [bk]: those of buffers; [urbs]: the buffers the USB core has.
    [tbl]: the station table (StaTable refines it).  [air]: the frames handed
    over for transmission, with whether their receiver slept; [done]: the
    packets given back; [made]: how many packets there were, copies included. *)
Record counts := { free_xmitframe_cnt : Z; free_xframe_ext_cnt : Z; free_xmitbuf_cnt : Z; free_xmit_extbuf_cnt : Z; tx_drop : Z }.
Record xw := {
  lk : list (qid * nat); tk : list (nat * (nat * nat)); bk : list (bqid * nat); urbs : list nat;
  fr : nat → xmit_frame; st : nat → sta; tbl : gmap (list Z) nat; asoc_list : list nat;
  tim_bitmap : list Z; sta_dz_bitmap : list Z; cn : counts; accnt : nat → Z;
  air : list (xmit_frame * bool); done : list nat; made : nat
}.
Definition set_lk v w := Build_xw v w.(tk) w.(bk) w.(urbs) w.(fr) w.(st) w.(tbl) w.(asoc_list) w.(tim_bitmap) w.(sta_dz_bitmap) w.(cn) w.(accnt) w.(air) w.(done) w.(made).
Definition set_tk v w := Build_xw w.(lk) v w.(bk) w.(urbs) w.(fr) w.(st) w.(tbl) w.(asoc_list) w.(tim_bitmap) w.(sta_dz_bitmap) w.(cn) w.(accnt) w.(air) w.(done) w.(made).
Definition set_bk v w := Build_xw w.(lk) w.(tk) v w.(urbs) w.(fr) w.(st) w.(tbl) w.(asoc_list) w.(tim_bitmap) w.(sta_dz_bitmap) w.(cn) w.(accnt) w.(air) w.(done) w.(made).
Definition set_urbs v w := Build_xw w.(lk) w.(tk) w.(bk) v w.(fr) w.(st) w.(tbl) w.(asoc_list) w.(tim_bitmap) w.(sta_dz_bitmap) w.(cn) w.(accnt) w.(air) w.(done) w.(made).
Definition set_fr v w := Build_xw w.(lk) w.(tk) w.(bk) w.(urbs) v w.(st) w.(tbl) w.(asoc_list) w.(tim_bitmap) w.(sta_dz_bitmap) w.(cn) w.(accnt) w.(air) w.(done) w.(made).
Definition set_st v w := Build_xw w.(lk) w.(tk) w.(bk) w.(urbs) w.(fr) v w.(tbl) w.(asoc_list) w.(tim_bitmap) w.(sta_dz_bitmap) w.(cn) w.(accnt) w.(air) w.(done) w.(made).
Definition set_tbl v a w := Build_xw w.(lk) w.(tk) w.(bk) w.(urbs) w.(fr) w.(st) v a w.(tim_bitmap) w.(sta_dz_bitmap) w.(cn) w.(accnt) w.(air) w.(done) w.(made).
Definition set_maps t d w := Build_xw w.(lk) w.(tk) w.(bk) w.(urbs) w.(fr) w.(st) w.(tbl) w.(asoc_list) t d w.(cn) w.(accnt) w.(air) w.(done) w.(made).
Definition set_tim t w := set_maps t w.(sta_dz_bitmap) w.
Definition set_dz d w := set_maps w.(tim_bitmap) d w.
Definition set_cn v w := Build_xw w.(lk) w.(tk) w.(bk) w.(urbs) w.(fr) w.(st) w.(tbl) w.(asoc_list) w.(tim_bitmap) w.(sta_dz_bitmap) v w.(accnt) w.(air) w.(done) w.(made).
Definition set_accnt v w := Build_xw w.(lk) w.(tk) w.(bk) w.(urbs) w.(fr) w.(st) w.(tbl) w.(asoc_list) w.(tim_bitmap) w.(sta_dz_bitmap) w.(cn) v w.(air) w.(done) w.(made).
Definition set_air v w := Build_xw w.(lk) w.(tk) w.(bk) w.(urbs) w.(fr) w.(st) w.(tbl) w.(asoc_list) w.(tim_bitmap) w.(sta_dz_bitmap) w.(cn) w.(accnt) v w.(done) w.(made).
Definition set_pkts d m w := Build_xw w.(lk) w.(tk) w.(bk) w.(urbs) w.(fr) w.(st) w.(tbl) w.(asoc_list) w.(tim_bitmap) w.(sta_dz_bitmap) w.(cn) w.(accnt) w.(air) d m.

Definition upd {A} (i : nat) (v : A) (f : nat → A) (j : nat) : A := if decide (j = i) then v else f j.
Definition upd_fr f g w := set_fr (upd f (g (w.(fr) f)) w.(fr)) w.
Definition upd_attrib f g w := upd_fr f (λ x, set_attrib (g x.(attrib)) x) w.
Definition upd_st s g w := set_st (upd s (g (w.(st) s)) w.(st)) w.
Definition add_accnt ac n w := set_accnt (upd ac (w.(accnt) ac + n) w.(accnt)) w.
Definition add_qcnt s ac n w := upd_st s (λ p, set_qcnt (upd ac (p.(qcnt) ac + n) p.(qcnt)) p) w.
Definition add_cn f e b x w :=
  set_cn (Build_counts (w.(cn).(free_xmitframe_cnt) + f) (w.(cn).(free_xframe_ext_cnt) + e)
            (w.(cn).(free_xmitbuf_cnt) + b) (w.(cn).(free_xmit_extbuf_cnt) + x) w.(cn).(tx_drop)) w.
Definition drop_one w :=
  set_cn (Build_counts w.(cn).(free_xmitframe_cnt) w.(cn).(free_xframe_ext_cnt) w.(cn).(free_xmitbuf_cnt)
            w.(cn).(free_xmit_extbuf_cnt) (w.(cn).(tx_drop) + 1)) w.
Definition frame_attrib (w : xw) (f : nat) : qattrib := (w.(fr) f).(attrib).

(** What the environment answers during an operation.  [new_attrib f]: the result
    of [update_attrib] for the frame [f]; [coalesce f]: that of
    [rtw_xmitframe_coalesce], the number of fragments when it succeeds;
    [submits b]: [usb_submit_urb] takes the buffer [b]; [copies]: how many copies
    of a packet [rtw_os_pkt_copy] can make. *)
Record new_attribs := {
  n_ra : list Z; n_psta : option nat; n_priority : Z; n_ether_type : Z; n_dhcp : bool; n_hipri : bool; n_sz : sizes
}.
Record env := {
  is_ap : bool; wifi_spec : bool; hiq_filter : Z; cannot_run : bool; cannot_tx : bool; ac_blocked : bool; lg_sta : bool;
  wmm_para_seq : list nat; b2u_flags_ap_src : Z; UsbBulkOutSize : Z; UsbTxAggDescNum : Z; cfg_expire_to : Z;
  new_attrib : nat → option new_attribs; coalesce : nat → option nat; submits : nat → bool; copies : nat → bool
}.

(** ** Bitmaps of association identifiers: [core/rtw_wlan_util.c] *)
Definition rtw_bmp_is_set (bmp : list Z) (id : Z) : bool :=
  let i := Z.to_nat (u8 id / 8) in
  if (length bmp <=? i)%nat then false else negb (bmp.[i] .& BIT (u8 id mod 8) =? 0).
Definition rtw_bmp_set (bmp : list Z) (id : Z) : list Z :=
  let i := Z.to_nat (u8 id / 8) in
  if (i <? length bmp)%nat then <[i := bmp.[i] .| BIT (u8 id mod 8)]> bmp else bmp.
Definition rtw_bmp_clear (bmp : list Z) (id : Z) : list Z :=
  let i := Z.to_nat (u8 id / 8) in
  if (i <? length bmp)%nat then <[i := bmp.[i] .& Z.lnot (BIT (u8 id mod 8))]> bmp else bmp.
Definition rtw_bmp_not_empty (bmp : list Z) : bool := existsb (λ b, negb (b =? 0)) bmp.
Definition rtw_bmp_not_empty_exclude_bit0 (bmp : list Z) : bool :=
  match bmp with [] => false | b :: r => negb (b .& 0xFE =? 0) || existsb (λ b, negb (b =? 0)) r end.

Section Operations.
Variable e : env.

(** ** Pools *)
Definition rtw_os_pkt_complete (p : nat) (w : xw) : xw := set_pkts (w.(done) ++ [p]) w.(made) w.
Definition rtw_os_xmit_complete (f : nat) (w : xw) : xw :=
  upd_fr f (set_pkt None)
    (match (w.(fr) f).(pkt) with Some p => rtw_os_pkt_complete p w | None => w end).

Definition rtw_init_xmitframe (f : nat) (w : xw) : xw :=
  upd_fr f (λ x, {| ext_tag := x.(ext_tag); pkt := None; pxmitbuf := None; agg_num := 1; pkt_offset := 1; attrib := zero_attrib |}) w.
Definition rtw_alloc_xmitframe (w : xw) : option nat * xw :=
  match queue w.(lk) Q_free with
  | [] => (None, w)
  | f :: _ => (Some f, rtw_init_xmitframe f (add_cn (-1) 0 0 0 (set_lk (list_delete f w.(lk)) w)))
  end.
Definition rtw_alloc_xmitframe_ext (w : xw) : option nat * xw :=
  match queue w.(lk) Q_ext with
  | [] => (None, w)
  | f :: _ => (Some f, rtw_init_xmitframe f (add_cn 0 (-1) 0 0 (set_lk (list_delete f w.(lk)) w)))
  end.
Definition rtw_free_xmitframe (f : nat) (w : xw) : cres xw :=
  let x := w.(fr) f in
  let w := upd_fr f (set_pkt None) w in
  let* w :=
    if x.(ext_tag) =? 0 then
      let* l := list_insert_tail f Q_free (list_delete f w.(lk)) in Ret (add_cn 1 0 0 0 (set_lk l w))
    else if x.(ext_tag) =? 1 then
      let* l := list_insert_tail f Q_ext (list_delete f w.(lk)) in Ret (add_cn 0 1 0 0 (set_lk l w))
    else Oob in
  Ret (match x.(pkt) with Some p => rtw_os_pkt_complete p w | None => w end).

Definition rtw_alloc_xmitbuf (w : xw) : option nat * xw :=
  match queue w.(bk) B_free with
  | [] => (None, w)
  | b :: _ => (Some b, add_cn 0 0 (-1) 0 (set_bk (list_delete b w.(bk)) w))
  end.
Definition rtw_alloc_xmitbuf_ext (w : xw) : option nat * xw :=
  match queue w.(bk) B_ext with
  | [] => (None, w)
  | b :: _ => (Some b, add_cn 0 0 0 (-1) (set_bk (list_delete b w.(bk)) w))
  end.
Definition rtw_free_xmitbuf_ext (b : nat) (w : xw) : cres xw :=
  let* l := list_insert_tail b B_ext (list_delete b w.(bk)) in Ret (add_cn 0 0 0 1 (set_bk l w)).
(** The buffers below [NR_XMITBUFF] have the tag [XMITBUF_DATA], the others
    [XMITBUF_MGNT]; those of commands do not come here. *)
Definition is_ext_buf (b : nat) : bool := (NR_XMITBUFF <=? b)%nat.
Definition rtw_free_xmitbuf (b : nat) (w : xw) : cres xw :=
  if is_ext_buf b then rtw_free_xmitbuf_ext b w
  else let* l := list_insert_tail b B_free (list_delete b w.(bk)) in Ret (add_cn 0 0 1 0 (set_bk l w)).

(** ** Service queues *)
Definition rtw_get_stainfo (w : xw) (hwaddr : list Z) : option nat := w.(tbl) !! canon hwaddr.
Definition rtw_get_bcmc_stainfo (w : xw) : option nat := rtw_get_stainfo w bc_addr.
Definition has_state (w : xw) (s : nat) (bit : Z) : bool := negb ((w.(st) s).(state) .& bit =? 0).
(** The station of a frame: the table has it under the receiver's address, it is
    the one of the attributes, it is associated. *)
Definition sta_of_frame (w : xw) (f : nat) : option nat :=
  match rtw_get_stainfo w (frame_attrib w f).(ra) with
  | Some s =>
      if decide ((frame_attrib w f).(psta) = Some s) then
        if has_state w s WIFI_ASOC_STATE then Some s else None
      else None
  | None => None
  end.
Definition rtw_get_sta_pending (up : Z) : nat :=
  if (up =? 1) || (up =? 2) then 3 else if (up =? 4) || (up =? 5) then 1
  else if (up =? 6) || (up =? 7) then 0 else 2.
Definition rtw_txframes_sta_ac_pending (w : xw) (f : nat) : Z :=
  match sta_of_frame w f with
  | Some s => (w.(st) s).(qcnt) (rtw_get_sta_pending (frame_attrib w f).(priority))
  | None => 0
  end.
Definition rtw_txframes_pending (w : xw) : bool := negb (bool_decide (w.(tk) = [])).

(** The frame goes to the service queue, which joins the list of its category
    unless it is linked. *)
Definition servq_insert (s ac f : nat) (w : xw) : cres xw :=
  let* t := if linked (s, ac) w.(tk) then Ret w.(tk) else list_insert_tail (s, ac) ac w.(tk) in
  let* l := list_insert_tail f (Q_pend s ac) w.(lk) in
  Ret (add_accnt ac 1 (add_qcnt s ac 1 (set_lk l (set_tk t w)))).
(** true is [_SUCCESS]. *)
Definition rtw_xmit_classifier (f : nat) (w : xw) : cres (bool * xw) :=
  match sta_of_frame w f with
  | None => Ret (false, w)
  | Some s =>
      let* w := servq_insert s (rtw_get_sta_pending (frame_attrib w f).(priority)) f w in Ret (true, w)
  end.
Definition rtw_mgmt_xmitframe_enqueue (f : nat) (w : xw) : cres (bool * xw) :=
  match sta_of_frame w f with
  | None => Ret (false, w)
  | Some s => let* w := servq_insert s MGMT_IDX f w in Ret (true, w)
  end.
Definition enqueue_or_free (r : cres (bool * xw)) (f : nat) : cres xw :=
  let* (ok, w) := r in
  if (ok : bool) then Ret w else let* w := rtw_free_xmitframe f w in Ret (drop_one w).
Definition rtl8822bu_hal_xmitframe_enqueue (f : nat) (w : xw) : cres xw := enqueue_or_free (rtw_xmit_classifier f w) f.
Definition rtl8822bu_hal_mgmt_xmitframe_enqueue (f : nat) (w : xw) : cres xw :=
  enqueue_or_free (rtw_mgmt_xmitframe_enqueue f w) f.

Definition dequeue_one_xmitframe (s ac : nat) (w : xw) : option nat * xw :=
  match queue w.(lk) (Q_pend s ac) with
  | [] => (None, w)
  | f :: _ => (Some f, add_qcnt s ac (-1) (set_lk (list_delete f w.(lk)) w))
  end.
(** One category: the stations of its list in order, until one has a frame. *)
Fixpoint dequeue_ac (nodes : list (nat * nat)) (ac : nat) (w : xw) : option nat * xw :=
  match nodes with
  | [] => (None, w)
  | (s, a) :: rest =>
      match dequeue_one_xmitframe s a w with
      | (Some f, w) =>
          let w := add_accnt ac (-1) w in
          (Some f, if decide (queue w.(lk) (Q_pend s a) = []) then set_tk (list_delete (s, a) w.(tk)) w else w)
      | (None, _) => dequeue_ac rest ac w
      end
  end.
Definition rtw_dequeue_mgmt_xframe (w : xw) : option nat * xw := dequeue_ac (queue w.(tk) MGMT_IDX) MGMT_IDX w.
Fixpoint dequeue_acs (inx : list nat) (w : xw) : option nat * xw :=
  match inx with
  | [] => (None, w)
  | ac :: rest =>
      match dequeue_ac (queue w.(tk) ac) ac w with
      | (Some f, w) => (Some f, w)
      | (None, _) => dequeue_acs rest w
      end
  end.
Definition rtw_dequeue_xframe (w : xw) : option nat * xw :=
  dequeue_acs (take (HWXMIT_ENTRY - 1) (if e.(wifi_spec) then e.(wmm_para_seq) else [0; 1; 2; 3]%nat)) w.

(** ** Power saving *)
Definition xmitframe_hiq_filter (f : nat) (w : xw) : bool :=
  let a := frame_attrib w f in
  if e.(wifi_spec) then true
  else if e.(hiq_filter) =? RTW_HIQ_FILTER_ALLOW_SPECIAL then
    (a.(ether_type) =? 0x0806) || (a.(ether_type) =? 0x888e) || a.(dhcp_pkt)
  else e.(hiq_filter) =? RTW_HIQ_FILTER_ALLOW_ALL.
(** [uapsd_* & BIT(b)] for the category of a priority. *)
Definition wmmps_ac (p : sta) (prio b : Z) : bool :=
  let u := if (prio =? 1) || (prio =? 2) then p.(uapsd_bk) else if (prio =? 4) || (prio =? 5) then p.(uapsd_vi)
           else if (prio =? 6) || (prio =? 7) then p.(uapsd_vo) else p.(uapsd_be) in
  negb (u .& BIT b =? 0).
Definition aid_of (w : xw) (s : nat) : Z := (w.(st) s).(s_aid).

(** The frame leaves its list for the sleep queue of the station. *)
Definition to_sleep_q (s f : nat) (w : xw) : cres xw :=
  let* l := list_insert_tail f (Q_sleep s) (list_delete f w.(lk)) in
  Ret (upd_st s (λ p, set_sleepq_len (u32 (p.(sleepq_len) + 1)) p) (set_lk l w)).
Definition inc_ac_len (ps : bool) (s : nat) (w : xw) : xw :=
  if ps then upd_st s (λ p, set_sleepq_ac_len (u32 (p.(sleepq_ac_len) + 1)) p) w else w.
Definition xmitframe_enqueue_for_sleeping_sta (f : nat) (w : xw) : cres (bool * xw) :=
  let bmcst := IS_MCAST (frame_attrib w f).(ra) in
  if negb e.(is_ap) then Ret (false, w) else
  match sta_of_frame w f with
  | None => Ret (false, w)
  | Some s =>
      if (frame_attrib w f).(triggered) =? 1 then
        Ret (false, if bmcst && xmitframe_hiq_filter f w then upd_attrib f (set_qsel QSLT_HIGH) w else w)
      else if bmcst then
        if rtw_bmp_not_empty w.(sta_dz_bitmap) then
          let* w := to_sleep_q s f w in
          Ret (true, set_maps (rtw_bmp_set w.(tim_bitmap) 0) (rtw_bmp_set w.(sta_dz_bitmap) 0) w)
        else Ret (false, w)
      else if has_state w s WIFI_SLEEP_STATE && rtw_bmp_is_set w.(sta_dz_bitmap) (aid_of w s) then
        let* w := to_sleep_q s f w in
        let ps := wmmps_ac (w.(st) s) (frame_attrib w f).(priority) 0 in
        let w := inc_ac_len ps s w in
        Ret (true, if xorb (w.(st) s).(has_legacy_ac) ps then set_tim (rtw_bmp_set w.(tim_bitmap) (aid_of w s)) w else w)
      else Ret (false, w)
  end.

(** [_TRUE], [_FALSE], [RTW_QUEUE_MGMT]. *)
Inductive mgmt_ret := M_true | M_false | M_queued.
Definition mgmt_xmitframe_enqueue_for_sleeping_sta (f : nat) (w : xw) : cres (mgmt_ret * xw) :=
  let a := frame_attrib w f in
  if is_broadcast_mac_addr a.(ra) || a.(ps_dontq) then Ret (M_false, w) else
  match a.(psta) with
  | None => Ret (M_false, w)
  | Some s =>
      if negb (has_state w s WIFI_ASOC_STATE) then Ret (M_false, w)
      else if has_state w s WIFI_SLEEP_STATE && rtw_bmp_is_set w.(sta_dz_bitmap) (aid_of w s) then
        let* l := list_insert_tail f (Q_mgmt_sleep s) (list_delete f w.(lk)) in
        let w := upd_st s (λ p, set_mgmt_sleepq_len (u32 (p.(mgmt_sleepq_len) + 1)) p) (set_lk l w) in
        Ret (M_queued, set_tim (rtw_bmp_set w.(tim_bitmap) (aid_of w s)) w)
      else Ret (M_true, w)
  end.

(** The loops over a list keep the successor before they move a frame: they see
    the frames the list had at the start. *)
Fixpoint each (fs : list nat) (body : nat → xw → cres xw) (w : xw) : cres xw :=
  match fs with [] => Ret w | f :: r => let* w := body f w in each r body w end.
Definition untrigger (f : nat) (w : xw) : xw := upd_attrib f (λ a, set_ps 0 a.(mdata) a.(eosp) a) w.
Definition dequeue_mgmt_xmitframe_to_sleepq (s : nat) (w : xw) : cres xw :=
  each (queue w.(lk) (Q_pend s MGMT_IDX)) (λ f w,
    let* (r, w) := mgmt_xmitframe_enqueue_for_sleeping_sta f (untrigger f w) in
    Ret (match r with M_queued => add_accnt MGMT_IDX (-1) (add_qcnt s MGMT_IDX (-1) w) | _ => w end)) w.
Definition dequeue_xmitframes_to_sleeping_queue (s ac : nat) (w : xw) : cres xw :=
  each (queue w.(lk) (Q_pend s ac)) (λ f w,
    let* (r, w) := xmitframe_enqueue_for_sleeping_sta f (untrigger f w) in
    let i := rtw_get_sta_pending (frame_attrib w f).(priority) in
    Ret (if (r : bool) then add_accnt i (-1) (add_qcnt s i (-1) w) else w)) w.
Definition stop_servq (s ac : nat) (w : xw) : cres xw :=
  let* w := dequeue_xmitframes_to_sleeping_queue s ac w in
  Ret (set_tk (list_delete (s, ac) w.(tk)) w).
Definition stop_servqs (s : nat) (w : xw) : cres xw :=
  let* w := stop_servq s 0 w in let* w := stop_servq s 1 w in
  let* w := stop_servq s 2 w in stop_servq s 3 w.
Definition stop_sta_xmit (s : nat) (w : xw) : cres xw :=
  let w := upd_st s (λ p, set_state (p.(state) .| WIFI_SLEEP_STATE) p) w in
  let w := set_dz (rtw_bmp_set w.(sta_dz_bitmap) (aid_of w s)) w in
  let* w := dequeue_mgmt_xmitframe_to_sleepq s w in
  let w := set_tk (list_delete (s, MGMT_IDX) w.(tk)) w in
  let* w := stop_servqs s w in
  match rtw_get_bcmc_stainfo w with
  | Some b => stop_servqs b w
  | None => Ret w
  end.

(** [mdata] and [eosp] of a frame released from a sleep queue, after the lengths
    were decremented. *)
Definition release_bits (ps : bool) (p : sta) (a : qattrib) : qattrib :=
  if ps then if 0 <? p.(sleepq_ac_len) then set_ps 1 1 0 a else set_ps 1 0 1 a
  else set_ps 1 (if 0 <? p.(sleepq_len) then 1 else 0) a.(eosp) a.
Definition from_sleep_q (s f : nat) (w : xw) : xw :=
  upd_st s (λ p, set_sleepq_len (u32 (p.(sleepq_len) - 1)) p) (set_lk (list_delete f w.(lk)) w).
Definition dec_ac_len (s : nat) (w : xw) : xw := upd_st s (λ p, set_sleepq_ac_len (u32 (p.(sleepq_ac_len) - 1)) p) w.
Definition wake_frame (s f : nat) (w : xw) : cres xw :=
  let ps := wmmps_ac (w.(st) s) (frame_attrib w f).(priority) 1 in
  let w := from_sleep_q s f w in
  let w := if ps then dec_ac_len s w else w in
  rtl8822bu_hal_xmitframe_enqueue f (upd_attrib f (release_bits ps (w.(st) s)) w).
Definition wake_mgmt_frame (s f : nat) (w : xw) : cres xw :=
  let w := set_lk (list_delete f w.(lk)) w in
  let w := upd_st s (λ p, set_mgmt_sleepq_len (u32 (p.(mgmt_sleepq_len) - 1)) p) w in
  rtl8822bu_hal_mgmt_xmitframe_enqueue f (upd_attrib f (λ a, set_ps 1 a.(mdata) a.(eosp) a) w).
Definition wake_bmc_frame (hiq : bool) (s f : nat) (w : xw) : cres xw :=
  let w := from_sleep_q s f w in
  let w := upd_attrib f (release_bits false (w.(st) s)) w in
  let w := if hiq && xmitframe_hiq_filter f w then upd_attrib f (set_qsel QSLT_HIGH) w else w in
  rtl8822bu_hal_xmitframe_enqueue f w.
Definition alive_check (s : nat) (w : xw) : xw :=
  if has_state w s WIFI_STA_ALIVE_CHK_STATE
  then upd_st s (λ p, set_expire e.(cfg_expire_to) (set_state (p.(state) ⊕ WIFI_STA_ALIVE_CHK_STATE) p)) w else w.
Definition clear_bmc_bits (w : xw) : xw :=
  set_maps (rtw_bmp_clear w.(tim_bitmap) 0) (rtw_bmp_clear w.(sta_dz_bitmap) 0) w.
Definition wakeup_sta_to_xmit (s : nat) (w : xw) : cres xw :=
  let* w := each (queue w.(lk) (Q_mgmt_sleep s)) (wake_mgmt_frame s) w in
  let* w := each (queue w.(lk) (Q_sleep s)) (wake_frame s) w in
  let w :=
    if ((w.(st) s).(sleepq_len) =? 0) && ((w.(st) s).(mgmt_sleepq_len) =? 0) then
      let w := set_tim (rtw_bmp_clear w.(tim_bitmap) (aid_of w s)) w in
      let w := if has_state w s WIFI_SLEEP_STATE then upd_st s (λ p, set_state (p.(state) ⊕ WIFI_SLEEP_STATE) p) w else w in
      let w := alive_check s w in
      set_dz (rtw_bmp_clear w.(sta_dz_bitmap) (aid_of w s)) w
    else w in
  match rtw_get_bcmc_stainfo w with
  | None => Ret w
  | Some b =>
      if negb (rtw_bmp_not_empty_exclude_bit0 w.(sta_dz_bitmap)) then
        let* w := each (queue w.(lk) (Q_sleep b)) (wake_bmc_frame false b) w in
        Ret (if (w.(st) b).(sleepq_len) =? 0 then clear_bmc_bits w else w)
      else Ret w
  end.

Definition delivery_frame (s f : nat) (w : xw) : cres xw :=
  if wmmps_ac (w.(st) s) (frame_attrib w f).(priority) 1 then
    let w := dec_ac_len s (from_sleep_q s f w) in
    let* w := rtl8822bu_hal_xmitframe_enqueue f (upd_attrib f (release_bits true (w.(st) s)) w) in
    Ret (if ((w.(st) s).(sleepq_ac_len) =? 0) && negb (w.(st) s).(has_legacy_ac)
         then set_tim (rtw_bmp_clear w.(tim_bitmap) (aid_of w s)) w else w)
  else Ret w.
Definition xmit_delivery_enabled_frames (s : nat) (w : xw) : cres xw :=
  each (queue w.(lk) (Q_sleep s)) (delivery_frame s) w.
(** [process_wmmps_data] behind its checks of the QoS options. *)
Definition process_wmmps_data (s : nat) (prio : Z) (w : xw) : cres xw :=
  if has_state w s WIFI_SLEEP_STATE && wmmps_ac (w.(st) s) prio 1 && (0 <? (w.(st) s).(sleepq_ac_len))
  then xmit_delivery_enabled_frames s w else Ret w.

(** The PS-Poll branch of [validate_recv_ctrl_frame] for the station [s], the
    association identifier of the frame and its priority. *)
Definition ps_poll (s : nat) (aid prio : Z) (w : xw) : cres xw :=
  if negb (aid_of w s =? aid) || wmmps_ac (w.(st) s) prio 0 then Ret w else
  let w := alive_check s w in
  if has_state w s WIFI_SLEEP_STATE && rtw_bmp_is_set w.(sta_dz_bitmap) (aid_of w s) then
    match queue w.(lk) (Q_sleep s) with
    | f :: _ =>
        let w := from_sleep_q s f w in
        let* w := rtl8822bu_hal_xmitframe_enqueue f (upd_attrib f (release_bits false (w.(st) s)) w) in
        Ret (if (w.(st) s).(sleepq_len) =? 0 then set_tim (rtw_bmp_clear w.(tim_bitmap) (aid_of w s)) w else w)
    | [] =>
        if rtw_bmp_is_set w.(tim_bitmap) (aid_of w s) then
          let w := if (w.(st) s).(sleepq_len) =? 0 then w else upd_st s (set_sleepq_len 0) w in
          Ret (set_tim (rtw_bmp_clear w.(tim_bitmap) (aid_of w s)) w)
        else Ret w
    end
  else Ret w.

Definition chk_bmc_sleepq_hdl (w : xw) : cres xw :=
  match rtw_get_bcmc_stainfo w with
  | None => Ret w
  | Some b =>
      if rtw_bmp_is_set w.(tim_bitmap) 0 && (0 <? (w.(st) b).(sleepq_len))
      then each (queue w.(lk) (Q_sleep b)) (wake_bmc_frame true b) w else Ret w
  end.
(** [empty]: what the hardware says of its high queue in the end. *)
Definition rtw_chk_hi_queue_hdl (empty : bool) (w : xw) : xw :=
  match rtw_get_bcmc_stainfo w with
  | None => w
  | Some b => if ((w.(st) b).(sleepq_len) =? 0) && empty then clear_bmc_bits w else w
  end.

(** ** Transmission *)

(** Whether the receiver sleeps, as the driver knows: any station for a group
    address. *)
Definition asleep (w : xw) (a : qattrib) : bool :=
  match a.(psta) with
  | None => false
  | Some s =>
      if IS_MCAST a.(ra) then rtw_bmp_not_empty w.(sta_dz_bitmap)
      else has_state w s WIFI_SLEEP_STATE && rtw_bmp_is_set w.(sta_dz_bitmap) (aid_of w s)
  end.
Definition log_air (f : nat) (w : xw) : xw := set_air (w.(air) ++ [(w.(fr) f, asleep w (frame_attrib w f))]) w.

(** [usb_write_port]; true is [_SUCCESS].  A buffer that is not submitted is freed. *)
Definition usb_write_port (b : nat) (w : xw) : cres (bool * xw) :=
  if negb e.(cannot_tx) && e.(submits) b then Ret (true, set_urbs (w.(urbs) ++ [b]) w)
  else let* w := rtw_free_xmitbuf b w in Ret (false, w).
(** [usb_write_port_complete]. *)
Definition usb_write_port_complete (b : nat) (w : xw) : cres xw :=
  rtw_free_xmitbuf b (set_urbs (filter (λ x, x ≠ b) w.(urbs)) w).
Fixpoint write_frags (n : nat) (b : nat) (w : xw) : cres xw :=
  match n with O => Ret w | S n => let* (_, w) := usb_write_port b w in write_frags n b w end.
Definition rtw_dump_xframe (f : nat) (w : xw) : cres xw :=
  match (w.(fr) f).(pxmitbuf) with
  | None => Oob
  | Some b =>
      let* w := write_frags (frame_attrib w f).(nr_frags) b (log_air f w) in
      rtw_free_xmitframe f w
  end.

Definition rtw_calculate_wlan_pkt_size_by_attribue (a : qattrib) : Z :=
  u32 (a.(sz).(s_hdrlen) + a.(sz).(s_iv_len) + SNAP_SIZE + 2 + a.(sz).(s_pktlen)
       + (if a.(sz).(s_encrypt) =? _TKIP_ then 8 else 0) + (if a.(sz).(s_bswenc) then a.(sz).(s_icv_len) else 0)).
Definition _RND8 (n : Z) : Z := u32 (((n >> 3) + (if n .& 7 =? 0 then 0 else 1)) << 3).
Definition rtw_hal_busagg_qsel_check (pre_qsel next_qsel : Z) : bool :=
  negb (e.(is_ap) && ((pre_qsel =? QSLT_HIGH) || (next_qsel =? QSLT_HIGH)) && negb (pre_qsel =? next_qsel)).

(** A frame put behind others into the buffer: its length, the attributes it gets
    from the coalescing, its packet returned. *)
Definition agg_len (w : xw) (f : nat) (off : Z) : Z :=
  u32 (rtw_calculate_wlan_pkt_size_by_attribue (frame_attrib w f) + TXDESC_SIZE + off * PACKET_OFFSET_SZ).
Record agg := { pbuf : Z; pbuf_tail : Z; descCount : Z; bulkPtr : Z; first_agg_num : Z }.
(** [descCount] and [bulkPtr] after a frame; true when the buffer takes no more. *)
Definition agg_count (g : agg) : bool * agg :=
  if g.(pbuf) <? g.(bulkPtr) then
    let d := u8 (g.(descCount) + 1) in
    (d =? e.(UsbTxAggDescNum), Build_agg g.(pbuf) g.(pbuf_tail) d g.(bulkPtr) g.(first_agg_num))
  else (false, Build_agg g.(pbuf) g.(pbuf_tail) 0 (u32 ((g.(pbuf) / e.(UsbBulkOutSize) + 1) * e.(UsbBulkOutSize))) g.(first_agg_num)).
Fixpoint agg_loop (qsel0 : Z) (s ac : nat) (fs : list nat) (g : agg) (w : xw) : cres (agg * xw) :=
  match fs with
  | [] => Ret (g, w)
  | f :: rest =>
      if negb (rtw_hal_busagg_qsel_check qsel0 (frame_attrib w f).(qsel)) then Ret (g, w) else
      let w := upd_fr f (set_agg 0 0) w in
      let len := agg_len w f 0 in
      if MAX_XMITBUF_SZ <? _RND8 (u32 (g.(pbuf) + len)) then Ret (g, upd_fr f (set_agg 1 1) w) else
      let w := add_accnt ac (-1) (add_qcnt s ac (-1) (set_lk (list_delete f w.(lk)) w)) in
      match e.(coalesce) f with
      | None => let* w := rtw_free_xmitframe f w in agg_loop qsel0 s ac rest g w
      | Some n =>
          let w := log_air f (rtw_os_xmit_complete f (upd_attrib f (set_frags n) w)) in
          let* w := rtw_free_xmitframe f w in
          let g := Build_agg (_RND8 (u32 (g.(pbuf) + len))) (u32 (g.(pbuf) + len)) g.(descCount) g.(bulkPtr) (u8 (g.(first_agg_num) + 1)) in
          if g.(first_agg_num) =? MAX_TX_AGG_PACKET_NUMBER_8822B then Ret (g, w) else
          let (full, g) := agg_count g in
          if (full : bool) then Ret (g, w) else agg_loop qsel0 s ac rest g w
      end
  end.
(** 2. of [rtl8822bu_xmitframe_complete]: frames of the same station and category. *)
Definition aggregate (f : nat) (w : xw) : cres (agg * xw) :=
  let len := agg_len w f (w.(fr) f).(pkt_offset) in
  let (full, g) := agg_count (Build_agg (_RND8 len) len 0 e.(UsbBulkOutSize) 1) in
  if (full : bool) then Ret (g, w) else
  match (frame_attrib w f).(psta) with
  | None => Oob
  | Some s =>
      let ac := rtw_get_sta_pending (frame_attrib w f).(priority) in
      let single := (length (queue w.(tk) ac) <=? 1)%nat in
      let* (g, w) := agg_loop (frame_attrib w f).(qsel) s ac (queue w.(lk) (Q_pend s ac)) g w in
      if decide (queue w.(lk) (Q_pend s ac) = []) then Ret (g, set_tk (list_delete (s, ac) w.(tk)) w)
      else if single then Ret (g, w)
      else let* t := list_insert_tail (s, ac) ac (list_delete (s, ac) w.(tk)) in Ret (g, set_tk t w)
  end.
(** 1.: the first frame that can be coalesced. *)
Fixpoint pick_first (fuel : nat) (b : nat) (w : xw) : cres (option nat * xw) :=
  match fuel with
  | O => Err 0
  | S fuel =>
      match rtw_dequeue_xframe w with
      | (None, w) => let* w := rtw_free_xmitbuf b w in Ret (None, w)
      | (Some f, w) =>
          let w := upd_fr f (λ x, set_agg 1 1 (set_xbuf (Some b) x)) w in
          match e.(coalesce) f with
          | None => let* w := rtw_free_xmitframe f w in pick_first fuel b w
          | Some n => Ret (Some f, rtw_os_xmit_complete f (upd_attrib f (set_frags n) w))
          end
      end
  end.
(** The length written: a transfer that ends with a full packet loses the offset. *)
Definition write_len (g : agg) : Z :=
  if g.(pbuf_tail) mod e.(UsbBulkOutSize) =? 0 then u32 (g.(pbuf_tail) - PACKET_OFFSET_SZ) else g.(pbuf_tail).
(** The first frame's descriptor: how many frames follow, whether it keeps its offset. *)
Definition first_txdesc (g : agg) (x : xmit_frame) : xmit_frame :=
  set_agg g.(first_agg_num) (if g.(pbuf_tail) mod e.(UsbBulkOutSize) =? 0 then u8 (x.(pkt_offset) - 1) else x.(pkt_offset)) x.
(** With [pxmitbuf == NULL]; the result says whether the tasklet goes on, and the
    length and the number of frames of the buffer written. *)
Definition rtl8822bu_xmitframe_complete (w : xw) : cres (bool * option (Z * Z) * xw) :=
  match rtw_dequeue_mgmt_xframe w with
  | (Some f, w) => let* w := rtw_dump_xframe f w in Ret (true, None, w)
  | (None, _) =>
      match rtw_alloc_xmitbuf w with
      | (None, _) => Ret (false, None, w)
      | (Some b, w) =>
          let* (o, w) := pick_first (S (length w.(lk))) b w in
          match o with
          | None => Ret (false, None, w)
          | Some f =>
              let* (g, w) := aggregate f w in
              let* (_, w) := usb_write_port b (log_air f (upd_fr f (first_txdesc g) w)) in
              let* w := rtw_free_xmitframe f w in
              Ret (true, Some (write_len g, g.(first_agg_num)), w)
          end
      end
  end.
Fixpoint xmit_tasklet (fuel : nat) (w : xw) : cres xw :=
  match fuel with
  | O => Err 0
  | S fuel =>
      if e.(cannot_tx) || e.(ac_blocked) then Ret w else
      let* (go, _, w) := rtl8822bu_xmitframe_complete w in
      if (go : bool) then xmit_tasklet fuel w else Ret w
  end.
Definition rtl8822bu_xmit_tasklet (w : xw) : cres xw := xmit_tasklet (S (length w.(lk))) w.

(** true: dumped (or dropped), false: queued. *)
Definition pre_xmitframe (f : nat) (w : xw) : cres (bool * xw) :=
  match (if (0 <? rtw_txframes_sta_ac_pending w f) || e.(ac_blocked) || e.(lg_sta) then (None, w) else rtw_alloc_xmitbuf w) with
  | (Some b, w) =>
      let w := upd_fr f (set_xbuf (Some b)) w in
      let* w :=
        match e.(coalesce) f with
        | Some n => rtw_dump_xframe f (upd_attrib f (set_frags n) w)
        | None => let* w := rtw_free_xmitbuf b w in rtw_free_xmitframe f w
        end in
      Ret (true, w)
  | (None, _) =>
      let* (ok, w) := rtw_xmit_classifier f w in
      if (ok : bool) then Ret (false, w)
      else let* w := rtw_free_xmitframe f w in Ret (true, drop_one w)
  end.

(** ** [tx_queue]: frames held back while a station changes *)
Definition xmit_enqueue (f : nat) (w : xw) : cres (bool * xw) :=
  match (frame_attrib w f).(psta) with
  | None => Ret (false, w)
  | Some s =>
      if bool_decide (queue w.(lk) (Q_tx s) = []) && negb (w.(st) s).(tx_q_enable) then Ret (false, w)
      else let* l := list_insert_tail f (Q_tx s) w.(lk) in Ret (true, set_lk l w)
  end.
Definition xmit_dequeue (s : nat) (w : xw) : cres xw :=
  each (queue w.(lk) (Q_tx s)) (λ f w,
    let* (_, w) := pre_xmitframe f (set_lk (list_delete f w.(lk)) w) in Ret w) w.
Definition rtw_xmit_queue_set (s : nat) (w : xw) : xw := upd_st s (set_tx_q true) w.
(** [rtw_xmit_queue_clear] and the work item it schedules. *)
Definition rtw_xmit_queue_clear (s : nat) (w : xw) : cres xw :=
  if (w.(st) s).(tx_q_enable) then xmit_dequeue s (upd_st s (set_tx_q false) w) else Ret w.

(** ** Entry of packets *)
Definition do_queue_select (a : qattrib) : qattrib :=
  if a.(hipriority_pkt) then set_prio QSLT_VO QSLT_VO a else set_qsel a.(priority) a.
(** [update_attrib] on the attributes of a frame; it clears [mdata], [eosp] and
    [triggered]. *)
Definition give_attribs (n : new_attribs) (a : qattrib) : qattrib := {|
  ra := n.(n_ra); psta := n.(n_psta); priority := n.(n_priority); qsel := a.(qsel);
  triggered := 0; mdata := 0; eosp := 0; ps_dontq := a.(ps_dontq);
  ether_type := n.(n_ether_type); dhcp_pkt := n.(n_dhcp); hipriority_pkt := n.(n_hipri);
  nr_frags := a.(nr_frags); sz := n.(n_sz)
|}.
(** The result: 1, 0 or -1. *)
Definition rtw_xmit_posthandle (f p : nat) (w : xw) : cres (Z * xw) :=
  match e.(new_attrib) f with
  | None => let* w := rtw_free_xmitframe f w in Ret (-1, w)
  | Some n =>
      let w := upd_fr f (λ x, set_pkt (Some p) (set_attrib (do_queue_select (give_attribs n x.(attrib))) x)) w in
      let* (buffered, w) := xmitframe_enqueue_for_sleeping_sta f w in
      if (buffered : bool) then Ret (1, w) else
      let* (held, w) := xmit_enqueue f w in
      if (held : bool) then Ret (1, w) else
      let* (dumped, w) := pre_xmitframe f w in
      Ret (if (dumped : bool) then 0 else 1, w)
  end.

(** Packets to a group address as copies to the stations, [rtw_ap_data_bmc_to_uc]
    without [ori_ta]; the result is [bmc_need]. *)
Fixpoint rtw_ap_data_bmc_to_uc (stas : list nat) (sa : list Z) (w : xw) : cres (bool * xw) :=
  match stas with
  | [] => Ret (false, w)
  | s :: rest =>
      let mac := (w.(st) s).(s_mac) in
      if negb (has_state w s WIFI_ASOC_STATE) || bool_decide (mac = sa) || is_broadcast_mac_addr mac || bool_decide (mac = replicate 6 0)
      then rtw_ap_data_bmc_to_uc rest sa w else
      match rtw_alloc_xmitframe w with
      | (None, w) => Ret (true, w)
      | (Some f, w) =>
          let* l := list_insert_tail f Q_b2u w.(lk) in
          rtw_ap_data_bmc_to_uc rest sa (upd_attrib f (set_ra mac) (set_lk l w))
      end
  end.
Definition IP_MCAST_MAC (mac : list Z) : bool := (mac.[0] =? 0x01) && (mac.[1] =? 0x00) && (mac.[2] =? 0x5e).
Definition ICMPV6_MCAST_MAC (mac : list Z) : bool := (mac.[0] =? 0x33) && (mac.[1] =? 0x33) && negb (mac.[2] =? 0xff).
Definition rtw_ap_src_b2u_policy_chk (flags : Z) (da : list Z) : bool :=
  negb (flags .& BIT 0 =? 0) || (negb (flags .& BIT 2 =? 0) && is_broadcast_mac_addr da)
  || (negb (flags .& BIT 3 =? 0) && (IP_MCAST_MAC da || ICMPV6_MCAST_MAC da)).
Inductive ra_res := RA_success | RA_fail | RA_bmc_no_need.
(** [pkt]: the addresses of the packet, or less than a header. *)
Definition rtw_ap_addr_resolve (f p : nat) (hdr : option (list Z * list Z)) (w : xw) : cres (ra_res * xw) :=
  match hdr with
  | None => Ret (RA_fail, w)
  | Some (da, sa) =>
      let w := upd_fr f (set_pkt (Some p)) w in
      let* (need, w) :=
        if IS_MCAST da && rtw_ap_src_b2u_policy_chk e.(b2u_flags_ap_src) da && negb e.(wifi_spec)
           && (Z.of_nat NR_XMITFRAME / 4 <? w.(cn).(free_xmitframe_cnt))
        then rtw_ap_data_bmc_to_uc w.(asoc_list) sa w else Ret (true, w) in
      if (need : bool) then Ret (RA_success, upd_attrib f (set_ra da) w) else Ret (RA_bmc_no_need, w)
  end.
(** The copies: each frame of the list gets a copy of the packet. *)
Fixpoint send_copies (fs : list nat) (res : ra_res) (w : xw) : cres (ra_res * xw) :=
  match fs with
  | [] => Ret (res, w)
  | f :: rest =>
      let w := set_lk (list_delete f w.(lk)) w in
      if e.(copies) w.(made) then
        let p := w.(made) in
        let w := upd_fr f (set_pkt (Some p)) (set_pkts w.(done) (S w.(made)) w) in
        let* (_, w) := rtw_xmit_posthandle f p w in send_copies rest res w
      else
        let* w := rtw_free_xmitframe f (upd_fr f (set_pkt None) w) in
        send_copies rest (match res with RA_bmc_no_need => RA_success | r => r end) w
  end.
(** [rtw_xmit] on a link that is up, without a bridge and outside roaming. *)
Definition rtw_xmit (p : nat) (hdr : option (list Z * list Z)) (w : xw) : cres (Z * xw) :=
  match rtw_alloc_xmitframe w with
  | (None, w) => Ret (-1, w)
  | (Some f, w) =>
      let* (res, w) := if e.(is_ap) then rtw_ap_addr_resolve f p hdr w else Ret (RA_success, w) in
      match res with
      | RA_fail => Ret (-1, w)
      | _ =>
          let* (res, w) := if e.(is_ap) then send_copies (queue w.(lk) Q_b2u) res w else Ret (res, w) in
          match res with
          | RA_bmc_no_need => let* w := rtw_free_xmitframe f w in Ret (0, w)
          | _ => rtw_xmit_posthandle f p (upd_fr f (set_pkt None) w)
          end
      end
  end.
(** [_rtw_xmit_entry]: a packet the driver refuses is freed by the caller. *)
Definition rtw_xmit_entry (hdr : option (list Z * list Z)) (w : xw) : cres xw :=
  let p := w.(made) in
  let* (r, w) := rtw_xmit p hdr (set_pkts w.(done) (S w.(made)) w) in
  Ret (if r <? 0 then rtw_os_pkt_complete p (drop_one w) else w).

(** ** Management frames *)
Definition alloc_mgtxmitframe (w : xw) : cres (option nat * xw) :=
  match rtw_alloc_xmitframe_ext w with
  | (None, w) => Ret (None, w)
  | (Some f, w) =>
      match rtw_alloc_xmitbuf_ext w with
      | (None, w) => let* w := rtw_free_xmitframe f w in Ret (None, w)
      | (Some b, w) => Ret (Some f, upd_fr f (set_xbuf (Some b)) w)
      end
  end.
Definition rtw_hal_mgnt_xmit (f : nat) (w : xw) : cres xw :=
  let* (r, w) := if e.(is_ap) then mgmt_xmitframe_enqueue_for_sleeping_sta f w else Ret (M_true, w) in
  match r with M_queued => Ret w | _ => rtw_dump_xframe f w end.
(** [alloc_mgtxmitframe], the frame written for the receiver [addr1],
    [update_mgntframe_attrib_addr], [dump_mgntframe]. *)
Definition send_mgmt (addr1 : list Z) (dontq : bool) (w : xw) : cres xw :=
  let* (o, w) := alloc_mgtxmitframe w in
  match o with
  | None => Ret w
  | Some f =>
      let w := upd_attrib f (λ a, {| ra := addr1; psta := rtw_get_stainfo w addr1; priority := a.(priority); qsel := a.(qsel);
        triggered := a.(triggered); mdata := a.(mdata); eosp := a.(eosp); ps_dontq := dontq; ether_type := a.(ether_type);
        dhcp_pkt := a.(dhcp_pkt); hipriority_pkt := a.(hipriority_pkt); nr_frags := 1; sz := a.(sz) |}) w in
      if e.(cannot_run) then
        let* w := match (w.(fr) f).(pxmitbuf) with Some b => rtw_free_xmitbuf b w | None => Ret w end in
        rtw_free_xmitframe f w
      else rtw_hal_mgnt_xmit f w
  end.

(** ** Stations *)
Definition rtw_free_xmitframe_queue (q : qid) (w : xw) : cres xw := each (queue w.(lk) q) rtw_free_xmitframe w.
Definition rtw_free_mgmt_xmitframe_queue (q : qid) (w : xw) : cres xw :=
  each (queue w.(lk) q) (λ f w,
    let* w := match (w.(fr) f).(pxmitbuf) with Some b => rtw_free_xmitbuf_ext b w | None => Ret w end in
    rtw_free_xmitframe f w) w.
Definition flush_servq (s ac : nat) (w : xw) : cres xw :=
  let* w := rtw_free_xmitframe_queue (Q_pend s ac) w in
  let w := set_tk (list_delete (s, ac) w.(tk)) w in
  let n := (w.(st) s).(qcnt) ac in
  Ret (add_qcnt s ac (- n) (add_accnt ac (- n) w)).
Definition rtw_free_stainfo_flush_xmit (s : nat) (w : xw) : cres xw :=
  let* w := rtw_free_xmitframe_queue (Q_tx s) w in
  let* w := rtw_free_xmitframe_queue (Q_sleep s) w in
  let w := upd_st s (set_sleepq_len 0) w in
  let* w := rtw_free_mgmt_xmitframe_queue (Q_mgmt_sleep s) w in
  let w := upd_st s (set_mgmt_sleepq_len 0) w in
  let* w := flush_servq s 0 w in let* w := flush_servq s 1 w in
  let* w := flush_servq s 2 w in let* w := flush_servq s 3 w in
  flush_servq s MGMT_IDX w.
(** [rtw_free_stainfo]: off the table, no longer associated, its frames freed, its
    bits cleared. *)
Definition rtw_free_stainfo (s : nat) (w : xw) : cres xw :=
  let w := set_tbl (delete (canon (w.(st) s).(s_mac)) w.(tbl)) (filter (λ x, x ≠ s) w.(asoc_list)) w in
  let w := upd_st s (λ p, set_state (p.(state) .& Z.lnot WIFI_ASOC_STATE) p) w in
  let* w := rtw_free_stainfo_flush_xmit s w in
  let w := if e.(is_ap) then set_maps (rtw_bmp_clear w.(tim_bitmap) (aid_of w s)) (rtw_bmp_clear w.(sta_dz_bitmap) (aid_of w s)) w else w in
  Ret (upd_st s (λ p, {| s_mac := p.(s_mac); s_aid := if e.(is_ap) then 0 else p.(s_aid); state := p.(state); uapsd_bk := 0; uapsd_be := 0; uapsd_vi := 0;
    uapsd_vo := 0; has_legacy_ac := false; sleepq_len := p.(sleepq_len); mgmt_sleepq_len := p.(mgmt_sleepq_len);
    sleepq_ac_len := 0; qcnt := p.(qcnt); tx_q_enable := p.(tx_q_enable); expire_to := 0 |}) w).
End Operations.

(** [rtw_alloc_stainfo] and the end of an association: the record is initialised,
    joins the table and the list of associated stations; the U-APSD categories
    come from the QoS information, as [rtw_ap_parse_sta_wmm_ie] reads it. *)
Definition uapsd_bits (qos_info i : Z) : Z := if qos_info .& BIT i =? 0 then 0 else BIT 0 .| BIT 1.
Definition add_stainfo (s : nat) (mac : list Z) (aid qos_info : Z) (w : xw) : xw :=
  set_tbl (<[canon mac := s]> w.(tbl)) (if IS_MCAST mac then w.(asoc_list) else w.(asoc_list) ++ [s])
    (upd_st s (λ _, {| s_mac := mac; s_aid := aid; state := WIFI_ASOC_STATE;
       uapsd_bk := uapsd_bits qos_info 2; uapsd_be := uapsd_bits qos_info 3;
       uapsd_vi := uapsd_bits qos_info 1; uapsd_vo := uapsd_bits qos_info 0;
       has_legacy_ac := negb (qos_info .& 0xf =? 0xf);
       sleepq_len := 0; mgmt_sleepq_len := 0; sleepq_ac_len := 0; qcnt := λ _, 0; tx_q_enable := false; expire_to := 0 |}) w).

(** ** The adapter at work *)
Definition NR_FRAMES : nat := NR_XMITFRAME + NR_XMIT_EXTBUFF.
(** [_rtw_init_xmit_priv], with memory available and no station yet; [n] is
    [aid_bmp_len]. *)
Definition init_xw (n : nat) : xw := {|
  lk := map (pair Q_free) (seq 0 NR_XMITFRAME) ++ map (pair Q_ext) (seq NR_XMITFRAME NR_XMIT_EXTBUFF);
  tk := []; bk := map (pair B_free) (seq 0 NR_XMITBUFF) ++ map (pair B_ext) (seq NR_XMITBUFF NR_XMIT_EXTBUFF); urbs := [];
  fr := λ f, {| ext_tag := if (f <? NR_XMITFRAME)%nat then 0 else 1; pkt := None; pxmitbuf := None; agg_num := 0; pkt_offset := 0; attrib := zero_attrib |};
  st := λ _, {| s_mac := replicate 6 0; s_aid := 0; state := 0; uapsd_bk := 0; uapsd_be := 0; uapsd_vi := 0; uapsd_vo := 0; has_legacy_ac := false;
    sleepq_len := 0; mgmt_sleepq_len := 0; sleepq_ac_len := 0; qcnt := λ _, 0; tx_q_enable := false; expire_to := 0 |};
  tbl := ∅; asoc_list := []; tim_bitmap := replicate n 0; sta_dz_bitmap := replicate n 0;
  cn := {| free_xmitframe_cnt := Z.of_nat NR_XMITFRAME; free_xframe_ext_cnt := Z.of_nat NR_XMIT_EXTBUFF;
           free_xmitbuf_cnt := Z.of_nat NR_XMITBUFF; free_xmit_extbuf_cnt := Z.of_nat NR_XMIT_EXTBUFF; tx_drop := 0 |};
  accnt := λ _, 0; air := []; done := []; made := 0
|}.

Inductive op :=
  | OpXmit (hdr : option (list Z * list Z))         (* a packet of the network stack *)
  | OpMgmt (addr1 : list Z) (dontq : bool)          (* a management frame *)
  | OpTasklet                                       (* the transmit tasklet *)
  | OpComplete (b : nat)                            (* the USB core is done with a buffer *)
  | OpSleep (s : nat) | OpWake (s : nat)            (* the power management bit of a station *)
  | OpTrigger (s : nat) (prio : Z) | OpPsPoll (s : nat) (aid prio : Z)
  | OpBmc | OpHiq (empty : bool)                    (* after a beacon; the high queue *)
  | OpTxSet (s : nat) | OpTxClear (s : nat)
  | OpJoin (s : nat) (mac : list Z) (aid qos_info : Z) | OpFree (s : nat).

Definition step (e : env) (o : op) (w : xw) : cres xw :=
  match o with
  | OpXmit hdr => rtw_xmit_entry e hdr w
  | OpMgmt addr1 dontq => send_mgmt e addr1 dontq w
  | OpTasklet => rtl8822bu_xmit_tasklet e w
  | OpComplete b => usb_write_port_complete b w
  | OpSleep s => stop_sta_xmit e s w
  | OpWake s => wakeup_sta_to_xmit e s w
  | OpTrigger s prio => process_wmmps_data s prio w
  | OpPsPoll s aid prio => ps_poll e s aid prio w
  | OpBmc => chk_bmc_sleepq_hdl e w
  | OpHiq empty => Ret (rtw_chk_hi_queue_hdl empty w)
  | OpTxSet s => Ret (rtw_xmit_queue_set s w)
  | OpTxClear s => rtw_xmit_queue_clear e s w
  | OpJoin s mac aid qos_info => Ret (add_stainfo s mac aid qos_info w)
  | OpFree s => rtw_free_stainfo e s w
  end.
