(* ===== verification/XmitQueueInv.v ===== *)
(** * The invariant of the transmit queues

    [inv M H K O w]: every frame is linked once or in the hands [H] of the
    operation; every packet was given back, is attached to one frame or is in the
    hands [K]; every counter is the length of its queue up to the entries of [O];
    a service queue with frames is in the list of its category; the frames of a
    queue have the attributes the queue stands for, with respect to the station
    table of [M].  Between operations [H], [K] and [O] are empty.  [M] also says
    for which stations a pending frame has to respect power saving, and whether
    the frames on the air had to. *)
From S2P Require Import Prelude.
From stdpp Require Import list gmap.
From S2P Require Import StaTable WepTkip XmitAttrib RxValidate XmitQueue.
Local Open Scope Z_scope.

(** ** Outcomes *)
Definition rp {A} (m : cres A) (Φ : A → Prop) : Prop := match m with Ret a => Φ a | _ => False end.
Lemma rp_bind {A B} (m : cres A) (k : A → cres B) Φ : rp m (λ a, rp (k a) Φ) → rp (cbind m k) Φ.
Proof. by destruct m. Qed.
Lemma rp_mono {A} (m : cres A) (Φ Ψ : A → Prop) : rp m Φ → (∀ a, Φ a → Ψ a) → rp m Ψ.
Proof. destruct m; simpl; auto. Qed.
Lemma rp_ret {A} (m : cres A) Φ : rp m Φ → ∃ a, m = Ret a ∧ Φ a.
Proof. destruct m; simpl; [eauto|done|done]. Qed.

Lemma filter_true {A} (P : A → Prop) `{∀ x, Decision (P x)} (l : list A) : (∀ x, x ∈ l → P x) → filter P l = l.
Proof.
  induction l as [|x l IH]; intros Hp; [done|]. rewrite filter_cons, decide_True by (apply Hp; left).
  f_equal. apply IH. intros y Hy. apply Hp. by right.
Qed.

(** A loop keeps a predicate on the frames that are left. *)
Lemma each_rp (I : list nat → xw → Prop) body fs w :
  (∀ f r w, I (f :: r) w → rp (body f w) (I r)) → I fs w → rp (each fs body w) (I []).
Proof.
  intros Hb. revert w. induction fs as [|f r IH]; intros w Hi; simpl; [done|].
  apply rp_bind. apply (rp_mono _ _ _ (Hb f r w Hi)). auto.
Qed.

(** ** Linked lists *)
Section Links.
Context {Q N : Type} `{EqDecision Q} `{EqDecision N}.
Implicit Types (h : list (Q * N)) (n : N) (q : Q).

Lemma elem_of_queue h q n : n ∈ queue h q ↔ (q, n) ∈ h.
Proof.
  unfold queue. rewrite list_elem_of_fmap. split.
  - intros ((q', n') & -> & [Hq ?]%list_elem_of_filter). simpl in Hq. by subst.
  - intros ?. exists (q, n). by rewrite list_elem_of_filter.
Qed.
Lemma queue_app h h' q : queue (h ++ h') q = queue h q ++ queue h' q.
Proof. unfold queue. by rewrite filter_app, fmap_app. Qed.
Lemma queue_one q q' n : queue [(q, n)] q' = if decide (q = q') then [n] else [].
Proof. unfold queue. rewrite filter_cons, filter_nil. simpl. by case_decide. Qed.
Lemma linked_elem n h : linked n h = true ↔ n ∈ h.*2.
Proof. unfold linked. by rewrite bool_decide_eq_true. Qed.
Lemma delete_fresh n h : n ∉ h.*2 → list_delete n h = h.
Proof. intros Hn. apply filter_true. intros x Hx <-. apply Hn. rewrite list_elem_of_fmap. eauto. Qed.
Lemma delete_gone n h : n ∉ (list_delete n h).*2.
Proof. rewrite list_elem_of_fmap. intros (x & -> & [? ?]%list_elem_of_filter). done. Qed.
Lemma elem_of_delete x n h : x ∈ list_delete n h ↔ x ∈ h ∧ x.2 ≠ n.
Proof. unfold list_delete. rewrite list_elem_of_filter. tauto. Qed.
Lemma insert_fresh n q h : n ∉ h.*2 → list_insert_tail n q h = Ret (h ++ [(q, n)]).
Proof. intros Hn. unfold list_insert_tail. case_eq (linked n h); [|done]. by intros ?%linked_elem. Qed.
Lemma delete_cons n q m h : list_delete n ((q, m) :: h) = if decide (m = n) then list_delete n h else (q, m) :: list_delete n h.
Proof. unfold list_delete. rewrite filter_cons. simpl. repeat case_decide; congruence || done. Qed.
Lemma queue_cons q q' n h : queue ((q, n) :: h) q' = if decide (q = q') then n :: queue h q' else queue h q'.
Proof. unfold queue. rewrite filter_cons. simpl. by case_decide. Qed.
Lemma delete_perm n q h : NoDup h.*2 → (q, n) ∈ h → h ≡ₚ (q, n) :: list_delete n h.
Proof.
  induction h as [|[q' m] h IH]; intros Hd Hi; [by apply elem_of_nil in Hi|].
  rewrite fmap_cons, NoDup_cons in Hd. destruct Hd as [Hm Hd]. rewrite delete_cons. simpl in *.
  apply elem_of_cons in Hi as [[= <- <-]|Hi].
  - rewrite decide_True by done. by rewrite delete_fresh.
  - case_decide as E.
    + subst m. exfalso. apply Hm. rewrite list_elem_of_fmap. by exists (q, n).
    + rewrite (IH Hd Hi) at 1. apply Permutation_swap.
Qed.
Lemma queue_delete n h q : queue (list_delete n h) q = filter (λ x, x ≠ n) (queue h q).
Proof.
  induction h as [|[q' m] h IH]; [done|]. rewrite delete_cons, queue_cons.
  destruct (decide (m = n)), (decide (q' = q)); rewrite ?queue_cons, ?filter_cons; simpl;
    repeat case_decide; congruence || (by rewrite IH).
Qed.
Lemma queue_NoDup h q : NoDup h.*2 → NoDup (queue h q).
Proof.
  induction h as [|[q' m] h IH]; intros Hd; [constructor|].
  rewrite fmap_cons, NoDup_cons in Hd. destruct Hd as [Hm Hd]. rewrite queue_cons.
  case_decide; [|auto]. rewrite NoDup_cons. split; [|auto].
  intros Hq%elem_of_queue. apply Hm. rewrite list_elem_of_fmap. by exists (q, m).
Qed.
Lemma delete_NoDup n h : NoDup h.*2 → NoDup (list_delete n h).*2.
Proof.
  induction h as [|[q m] h IH]; intros Hd; [constructor|]. rewrite fmap_cons, NoDup_cons in Hd. destruct Hd as [Hm Hd].
  rewrite delete_cons. case_decide; [auto|]. rewrite fmap_cons, NoDup_cons. split; [|auto]. simpl.
  intros (z & ? & [? ?]%elem_of_delete)%list_elem_of_fmap. apply Hm. rewrite list_elem_of_fmap. eauto.
Qed.
Lemma queue_unique h q q' n : NoDup h.*2 → (q, n) ∈ h → (q', n) ∈ h → q = q'.
Proof.
  intros Hd H1 H2. rewrite (delete_perm n q h Hd H1) in H2. apply elem_of_cons in H2 as [[=]|[_ []]%elem_of_delete]; done.
Qed.
Lemma queue_delete_head h q n r : NoDup h.*2 → queue h q = n :: r → queue (list_delete n h) q = r.
Proof.
  intros Hd Hq. rewrite queue_delete, Hq, filter_cons. pose proof (queue_NoDup h q Hd) as Hn. rewrite Hq, NoDup_cons in Hn.
  simpl. case_decide; [done|]. apply filter_true. intros x Hx ->. tauto.
Qed.
Lemma queue_delete_other h q q' n : NoDup h.*2 → (q, n) ∈ h → q' ≠ q → queue (list_delete n h) q' = queue h q'.
Proof.
  intros Hd Hi Hq. rewrite queue_delete. apply filter_true. intros x Hx%elem_of_queue ->.
  by rewrite (queue_unique h q q' n) in Hq.
Qed.
End Links.

(** ** The invariant *)
Definition cnt (w : xw) (q : qid) : Z :=
  match q with
  | Q_free => w.(cn).(free_xmitframe_cnt)
  | Q_ext => w.(cn).(free_xframe_ext_cnt)
  | Q_pend s a => (w.(st) s).(qcnt) a
  | Q_sleep s => (w.(st) s).(sleepq_len)
  | Q_mgmt_sleep s => (w.(st) s).(mgmt_sleepq_len)
  | Q_tx _ | Q_b2u => Z.of_nat (length (queue w.(lk) q))
  end.
(** The queue has a counter. *)
Definition counted (q : qid) : Prop := match q with Q_tx _ | Q_b2u => False | _ => True end.
Definition in_ac (a : nat) (q : qid) : Prop := match q with Q_pend _ a' => a' = a | _ => False end.
#[global] Instance in_ac_dec a q : Decision (in_ac a q).
Proof. destruct q; simpl; apply _. Defined.
#[global] Instance counted_dec q : Decision (counted q).
Proof. destruct q; simpl; apply _. Defined.
Definition sumz (l : list Z) : Z := fold_right Z.add 0 l.
(** What the entries of [O] add to a counter, to the counter of a category. *)
Definition off (O : list (qid * Z)) (q : qid) : Z := sumz (map (λ x, if decide (x.1 = q) then x.2 else 0) O).
Definition off_ac (O : list (qid * Z)) (a : nat) : Z := sumz (map (λ x, if decide (in_ac a x.1) then x.2 else 0) O).

Record mode := { m_tbl : gmap (list Z) nat; m_strict : nat → bool; m_air : bool }.
Definition to_sta (M : mode) (x : xmit_frame) (s : nat) : Prop :=
  x.(attrib).(psta) = Some s ∧ M.(m_tbl) !! canon x.(attrib).(ra) = Some s.
(** A frame may go out: its receiver is awake or asked for it. *)
Definition respects (w : xw) (x : xmit_frame) : Prop := asleep w x.(attrib) = true → x.(attrib).(triggered) = 1.
Definition air_ok (y : xmit_frame * bool) : Prop := y.1.(ext_tag) = 0 → y.2 = true → y.1.(attrib).(triggered) = 1.
Definition mgmt_ok (x : xmit_frame) : Prop :=
  is_broadcast_mac_addr x.(attrib).(ra) = false ∧ x.(attrib).(ps_dontq) = false ∧ x.(pxmitbuf) ≠ None ∧ x.(ext_tag) = 1.
Definition fact (M : mode) (w : xw) (x : xmit_frame) (q : qid) : Prop :=
  match q with
  | Q_free | Q_b2u => x.(pkt) = None
  | Q_ext => x.(pkt) = None ∧ x.(ext_tag) = 1
  | Q_pend s a =>
      to_sta M x s ∧
      if decide (a = MGMT_IDX) then mgmt_ok x
      else a = rtw_get_sta_pending x.(attrib).(priority) ∧ (M.(m_strict) s = true → respects w x)
  | Q_sleep s | Q_tx s => to_sta M x s
  | Q_mgmt_sleep s => to_sta M x s ∧ mgmt_ok x
  end.
Definition held (w : xw) : list nat := omap (λ f, (w.(fr) f).(pkt)) (seq 0 NR_FRAMES).

Record inv (M : mode) (H K : list nat) (O : list (qid * Z)) (w : xw) : Prop := {
  i_links : w.(lk).*2 ++ H ≡ₚ seq 0 NR_FRAMES;
  i_cnt q : counted q → cnt w q = Z.of_nat (length (queue w.(lk) q)) + off O q;
  i_acc a : w.(accnt) a = Z.of_nat (length (filter (λ x, in_ac a x.1) w.(lk))) + off_ac O a;
  i_servq s a : queue w.(lk) (Q_pend s a) ≠ [] → (a, (s, a)) ∈ w.(tk);
  i_nodes : NoDup w.(tk).*2 ∧ ∀ x, x ∈ w.(tk) → x.1 = x.2.2;
  i_facts q f : (q, f) ∈ w.(lk) → fact M w (w.(fr) f) q;
  i_pkts : w.(done) ++ held w ++ K ≡ₚ seq 0 w.(made);
  i_ext f : (f < NR_FRAMES)%nat → (w.(fr) f).(ext_tag) = if (f <? NR_XMITFRAME)%nat then 0 else 1;
  i_air : M.(m_air) = true → Forall air_ok w.(air)
}.

Lemma NR_FRAMES_eq : NR_FRAMES = 288%nat.
Proof. done. Qed.
#[local] Opaque NR_FRAMES NR_XMITFRAME NR_XMIT_EXTBUFF.

Section Inv.
Context (M : mode).
Implicit Types (H K : list nat) (O : list (qid * Z)) (w : xw).

Lemma inv_nodup H K O w : inv M H K O w → NoDup (w.(lk).*2 ++ H).
Proof. intros [Hl _ _ _ _ _ _ _ _]. rewrite Hl. apply NoDup_seq. Qed.
Lemma inv_nodup_lk H K O w : inv M H K O w → NoDup w.(lk).*2.
Proof. intros Hi. by apply inv_nodup, NoDup_app in Hi as (? & _). Qed.
Lemma inv_fresh H K O w f : inv M (f :: H) K O w → f ∉ w.(lk).*2.
Proof. intros Hi%inv_nodup Hf. rewrite NoDup_app in Hi. destruct Hi as (_ & Hi & _). apply (Hi f Hf). left. Qed.
Lemma inv_range H K O w f : inv M H K O w → f ∈ w.(lk).*2 ++ H → (f < NR_FRAMES)%nat.
Proof. intros [Hl _ _ _ _ _ _ _ _]. rewrite Hl, elem_of_seq. lia. Qed.
Lemma inv_hand H K O w f : inv M (f :: H) K O w → (f < NR_FRAMES)%nat.
Proof. intros Hi. apply (inv_range _ _ _ _ _ Hi). rewrite elem_of_app. right. left. Qed.
Lemma inv_link H K O w q f : inv M H K O w → (q, f) ∈ w.(lk) → (f < NR_FRAMES)%nat.
Proof.
  intros Hi Hf. apply (inv_range _ _ _ _ _ Hi). rewrite elem_of_app. left. rewrite list_elem_of_fmap. by exists (q, f).
Qed.
Lemma inv_length H K O w q : inv M H K O w → Z.of_nat (length (queue w.(lk) q)) ≤ 288.
Proof.
  intros [Hl _ _ _ _ _ _ _ _]. apply Permutation_length in Hl. rewrite length_app, length_fmap, length_seq in Hl.
  unfold queue. rewrite length_fmap. pose proof (length_filter (λ x : qid * nat, x.1 = q) w.(lk)).
  rewrite NR_FRAMES_eq in Hl. lia.
Qed.

(** Only the sums of [O] matter. *)
Lemma inv_off H K O O' w :
  inv M H K O w → (∀ q, counted q → off O q = off O' q) → (∀ a, off_ac O a = off_ac O' a) → inv M H K O' w.
Proof.
  intros [? Hc Ha ? ? ? ? ? ?] Hq Hac. split; try done.
  - intros q Hq'. by rewrite <- (Hq q Hq'), <- Hc.
  - intros a. by rewrite <- Hac, <- Ha.
Qed.
Lemma inv_perm H H' K K' O w : inv M H K O w → H ≡ₚ H' → K ≡ₚ K' → inv M H' K' O w.
Proof.
  intros [Hl ? ? ? ? ? Hp ? ?] E1 E2. split; try done.
  - by rewrite <- E1.
  - by rewrite <- E2.
Qed.

Lemma queue_perm (h h' : list (qid * nat)) q : h ≡ₚ h' → length (queue h q) = length (queue h' q).
Proof. intros Hp. unfold queue. rewrite !length_fmap. by rewrite Hp. Qed.

Lemma ac_perm (h h' : list (qid * nat)) a :
  h ≡ₚ h' → length (filter (λ x, in_ac a x.1) h) = length (filter (λ x, in_ac a x.1) h').
Proof. intros Hp. by rewrite Hp. Qed.

(** *** Links *)
Lemma inv_unlink H K O w q f :
  inv M H K O w → (q, f) ∈ w.(lk) → inv M (f :: H) K ((q, 1) :: O) (set_lk (list_delete f w.(lk)) w).
Proof.
  intros Hi Hf. pose proof (delete_perm f q _ (inv_nodup_lk _ _ _ _ Hi) Hf) as Hp. destruct Hi as [Hl Hc Ha Hs Hn Hx Hk He Hr].
  split; try done; cbn [set_lk lk tk fr].
  - rewrite Hp in Hl. rewrite <- Hl. simpl. symmetry. apply Permutation_middle.
  - intros x Hx'. assert (cnt (set_lk (list_delete f w.(lk)) w) x = cnt w x) as -> by (by destruct x).
    rewrite (Hc x Hx'), (queue_perm _ _ x Hp), queue_cons. unfold off. simpl. case_decide; simpl; lia.
  - intros a. cbn [accnt set_lk]. rewrite Ha, (ac_perm _ _ a Hp), filter_cons. unfold off_ac. simpl. case_decide; simpl; lia.
  - intros s a Hq. apply Hs. intros E. apply Hq. by rewrite queue_delete, E.
  - intros x g [Hg _]%elem_of_delete. by apply Hx.
Qed.
Lemma inv_insert H K O w q f :
  inv M (f :: H) K O w → fact M w (w.(fr) f) q → (∀ s a, q = Q_pend s a → (a, (s, a)) ∈ w.(tk)) →
  list_insert_tail f q w.(lk) = Ret (w.(lk) ++ [(q, f)]) ∧ inv M H K ((q, -1) :: O) (set_lk (w.(lk) ++ [(q, f)]) w).
Proof.
  intros Hi Hf Ht. split; [apply insert_fresh; by eapply inv_fresh|]. destruct Hi as [Hl Hc Ha Hs Hn Hx Hk He Hr].
  split; try done; cbn [set_lk lk tk fr].
  - rewrite <- Hl, fmap_app, <- app_assoc. done.
  - intros x Hx'. assert (cnt (set_lk (w.(lk) ++ [(q, f)]) w) x = cnt w x) as -> by (by destruct x).
    rewrite (Hc x Hx'), queue_app, queue_one, length_app. unfold off. simpl. repeat case_decide; simpl; lia.
  - intros a. cbn [accnt set_lk]. rewrite Ha, filter_app, filter_cons, filter_nil, length_app. unfold off_ac. simpl. case_decide; simpl; lia.
  - intros s a Hq. rewrite queue_app, queue_one in Hq. case_decide as E; [by apply Ht|]. rewrite app_nil_r in Hq. auto.
  - intros x g. rewrite elem_of_app, list_elem_of_singleton. intros [Hg|[= -> ->]]; [by apply Hx|exact Hf].
Qed.
(** A frame that is in hand is not in a list: [rtw_list_delete] does nothing. *)
Lemma inv_delete_hand H K O w f : inv M (f :: H) K O w → list_delete f w.(lk) = w.(lk).
Proof. intros Hi. apply delete_fresh. by eapply inv_fresh. Qed.

(** *** Service queues *)
Lemma inv_node_delete H K O w s a :
  inv M H K O w → queue w.(lk) (Q_pend s a) = [] → inv M H K O (set_tk (list_delete (s, a) w.(tk)) w).
Proof.
  intros [Hl Hc Ha Hs [Hn Hn'] Hx Hk He Hr] Hq. split; try done; cbn [set_tk tk lk].
  - intros s' a' Hq'. rewrite elem_of_delete. split; [auto|]. simpl. by intros [= -> ->].
  - split.
    + by apply delete_NoDup.
    + intros x [? _]%elem_of_delete. auto.
Qed.
Lemma inv_node_insert H K O w s a :
  inv M H K O w → (s, a) ∉ w.(tk).*2 → inv M H K O (set_tk (w.(tk) ++ [(a, (s, a))]) w).
Proof.
  intros [Hl Hc Ha Hs [Hn Hn'] Hx Hk He Hr] Hf. split; try done; cbn [set_tk tk lk].
  - intros s' a' Hq'. rewrite elem_of_app. auto.
  - split.
    + rewrite fmap_app, NoDup_app. split; [done|]. split; [|apply NoDup_singleton].
      intros x Hx1 ->%list_elem_of_singleton. done.
    + intros x [?| ->%list_elem_of_singleton]%elem_of_app; auto.
Qed.
Lemma inv_node_move H K O w s a :
  inv M H K O w → inv M H K O (set_tk (list_delete (s, a) w.(tk) ++ [(a, (s, a))]) w).
Proof.
  intros [Hl Hc Ha Hs [Hn Hn'] Hx Hk He Hr]. split; try done; cbn [set_tk tk lk].
  - intros s' a' Hq'. rewrite elem_of_app, list_elem_of_singleton, elem_of_delete.
    destruct (decide ((s', a') = (s, a))) as [[= -> ->]|]; [by right|]. left. auto.
  - pose proof (delete_NoDup (s, a) _ Hn) as Hd.
    split.
    + rewrite fmap_app, NoDup_app. split; [done|]. split; [|apply NoDup_singleton].
      intros x Hx1 ->%list_elem_of_singleton. by apply delete_gone in Hx1.
    + intros x [[? _]%elem_of_delete| ->%list_elem_of_singleton]%elem_of_app; auto.
Qed.
Lemma inv_node_in H K O w s a : inv M H K O w → (s, a) ∈ w.(tk).*2 → (a, (s, a)) ∈ w.(tk).
Proof.
  intros [_ _ _ _ [_ Hn] _ _ _ _] ((x, y) & E & Hx)%list_elem_of_fmap. simpl in E. subst y.
  pose proof (Hn _ Hx) as E. simpl in E. by subst x.
Qed.

(** *** Counters and other state *)
Lemma upd_eq {A} i (v : A) f : upd i v f i = v.
Proof. unfold upd. by rewrite decide_True. Qed.
Lemma upd_ne {A} i j (v : A) f : j ≠ i → upd i v f j = f j.
Proof. intros. unfold upd. by rewrite decide_False. Qed.

(** Less sleep asks for less. *)
Definition calm (w w' : xw) : Prop := ∀ a s,
  a.(psta) = Some s → M.(m_tbl) !! canon a.(ra) = Some s → M.(m_strict) s = true → asleep w' a = true → asleep w a = true.
Lemma fact_awake w w' x q : calm w w' → fact M w x q → fact M w' x q.
Proof.
  intros Hz. destruct q; simpl; try done. intros [[E1 E2] Hf]. split; [done|]. case_decide; [done|].
  destruct Hf as [? Hf]. split; [done|]. intros Hs Ha. apply (Hf Hs). by eapply Hz.
Qed.
Lemma calm_same w w' : (∀ a, asleep w' a = asleep w a) → calm w w'.
Proof. intros E a s _ _ _. by rewrite E. Qed.
Lemma asleep_upd_st s g w a :
  (g (w.(st) s)).(state) = (w.(st) s).(state) → (g (w.(st) s)).(s_aid) = (w.(st) s).(s_aid) →
  asleep (upd_st s g w) a = asleep w a.
Proof.
  intros E1 E2. unfold asleep, has_state, aid_of. cbn [upd_st set_st st sta_dz_bitmap].
  destruct (psta a) as [s'|]; [|done]. unfold upd. destruct (decide (s' = s)) as [->|]; [by rewrite E1, E2|done].
Qed.
Lemma inv_cn H K O w f e b x : inv M H K O w → inv M H K ((Q_free, f) :: (Q_ext, e) :: O) (add_cn f e b x w).
Proof.
  intros [Hl Hc Ha Hs Hn Hx Hk He Hr]. split; try done.
  intros q Hq. specialize (Hc q Hq). unfold off in *. simpl. destruct q; simpl in *; done || lia.
Qed.
Lemma inv_pend_cnt H K O w s a n :
  inv M H K O w → inv M H K ((Q_pend s a, n) :: O) (add_accnt a n (add_qcnt s a n w)).
Proof.
  intros [Hl Hc Ha Hs Hn Hx Hk He Hr]. split; try done.
  - intros q Hq. specialize (Hc q Hq). unfold off in *. simpl. cbn [add_accnt set_accnt lk].
    destruct q as [| |s' a'|s'|s'|s'|]; simpl in *; rewrite ?Z.add_0_l; try done; unfold upd; destruct (decide (s' = s)) as [->|Hne]; simpl.
    + unfold upd. destruct (decide (a' = a)) as [->|Hne]; [rewrite decide_True by done|rewrite decide_False by congruence]; lia.
    + rewrite decide_False by congruence. lia.
    + done.
    + done.
    + done.
    + done.
  - intros a'. cbn [add_accnt set_accnt accnt lk]. specialize (Ha a'). unfold off_ac in *. simpl. unfold upd.
    destruct (decide (a' = a)) as [->|Hne]; [rewrite decide_True by done|rewrite decide_False by congruence]; simpl; lia.
  - intros q f Hf. apply (fact_awake w); [|by apply Hx]. apply calm_same. intros y.
    change (asleep (add_qcnt s a n w) y = asleep w y). unfold add_qcnt. by rewrite asleep_upd_st.
Qed.
(** A change of a station that keeps its counters but for the ones of [q]. *)
Lemma inv_st H K O O' w s g :
  inv M H K O w →
  (∀ q, counted q → cnt (upd_st s g w) q - cnt w q = off O' q) → (∀ a, off_ac O' a = 0) →
  calm w (upd_st s g w) → inv M H K (O' ++ O) (upd_st s g w).
Proof.
  intros [Hl Hc Ha Hs Hn Hx Hk He Hr] Hd Ha' Hz. assert (∀ l q, off (l ++ O) q = off l q + off O q) as Happ.
  { intros l q. unfold off. induction l; simpl; lia. }
  assert (∀ l q, off_ac (l ++ O) q = off_ac l q + off_ac O q) as Happ'.
  { intros l q. unfold off_ac. induction l; simpl; lia. }
  split; try done.
  - intros q Hq. rewrite Happ, <- (Hd q Hq). cbn [upd_st set_st lk]. rewrite (Hc q Hq). lia.
  - intros a. rewrite Happ', Ha'. apply Ha.
  - intros q f Hf. by apply (fact_awake w), Hx.
Qed.
Lemma inv_st_static H K O w s g :
  inv M H K O w →
  (g (w.(st) s)).(qcnt) = (w.(st) s).(qcnt) → (g (w.(st) s)).(sleepq_len) = (w.(st) s).(sleepq_len) →
  (g (w.(st) s)).(mgmt_sleepq_len) = (w.(st) s).(mgmt_sleepq_len) →
  calm w (upd_st s g w) → inv M H K O (upd_st s g w).
Proof.
  intros Hi H1 H2 H3 Hz. apply (inv_st _ _ _ [] _ s g Hi); [|done|done].
  intros [| |s' a'|s'|s'|s'|] _; simpl; unfold upd; try (destruct (decide (s' = s)) as [->|]); rewrite ?H1, ?H2, ?H3; unfold off; simpl; lia.
Qed.
Lemma inv_sleep_cnt H K O w s n :
  inv M H K O w → 0 ≤ (w.(st) s).(sleepq_len) + n < 2 ^ 32 →
  inv M H K ((Q_sleep s, n) :: O) (upd_st s (λ p, set_sleepq_len (u32 (p.(sleepq_len) + n)) p) w).
Proof.
  intros Hi Hn. apply (inv_st _ _ _ [(Q_sleep s, n)] _ s _ Hi); [|done|apply calm_same; intros; by rewrite asleep_upd_st].
  intros q _. unfold off. destruct q as [| |s' a'|s'|s'|s'|]; simpl; unfold upd; try lia;
    destruct (decide (s' = s)) as [->|]; simpl; rewrite ?u32_id by done;
    try (rewrite decide_True by done); try (rewrite decide_False by congruence); lia.
Qed.
Lemma inv_mgmt_sleep_cnt H K O w s n :
  inv M H K O w → 0 ≤ (w.(st) s).(mgmt_sleepq_len) + n < 2 ^ 32 →
  inv M H K ((Q_mgmt_sleep s, n) :: O) (upd_st s (λ p, set_mgmt_sleepq_len (u32 (p.(mgmt_sleepq_len) + n)) p) w).
Proof.
  intros Hi Hn. apply (inv_st _ _ _ [(Q_mgmt_sleep s, n)] _ s _ Hi); [|done|apply calm_same; intros; by rewrite asleep_upd_st].
  intros q _. unfold off. destruct q as [| |s' a'|s'|s'|s'|]; simpl; unfold upd; try lia;
    destruct (decide (s' = s)) as [->|]; simpl; rewrite ?u32_id by done;
    try (rewrite decide_True by done); try (rewrite decide_False by congruence); lia.
Qed.
(** The state the invariant does not mention. *)
Lemma inv_same H K O w w' :
  w'.(lk) = w.(lk) → w'.(tk) = w.(tk) → w'.(fr) = w.(fr) → w'.(st) = w.(st) → w'.(accnt) = w.(accnt) →
  w'.(cn).(free_xmitframe_cnt) = w.(cn).(free_xmitframe_cnt) → w'.(cn).(free_xframe_ext_cnt) = w.(cn).(free_xframe_ext_cnt) →
  w'.(done) = w.(done) → w'.(made) = w.(made) → w'.(air) = w.(air) →
  calm w w' → inv M H K O w → inv M H K O w'.
Proof.
  intros E1 E2 E3 E4 E5 E6 E7 E8 E9 E10 Hz [Hl Hc Ha Hs Hn Hx Hk He Hr].
  split; unfold held; rewrite ?E1, ?E2, ?E3, ?E5, ?E8, ?E9, ?E10; try done.
  2: { intros q f Hf. by apply (fact_awake w), Hx. }
  intros q Hq. rewrite <- (Hc q Hq). destruct q; simpl; rewrite ?E4, ?E6, ?E7; done.
Qed.

(** *** Packets *)
Definition olist (o : option nat) : list nat := match o with Some p => [p] | None => [] end.
Lemma omap_upd (g : xmit_frame → option nat) f x (m : nat → xmit_frame) (l : list nat) :
  NoDup l → f ∈ l → olist (g (m f)) ++ omap (λ i, g (upd f x m i)) l ≡ₚ olist (g x) ++ omap (λ i, g (m i)) l.
Proof.
  intros Hd Hf. assert (∀ l : list nat, f ∉ l → omap (λ i, g (upd f x m i)) l = omap (λ i, g (m i)) l) as Hout.
  { clear. intros l. induction l as [|i l IH]; intros Hf; [done|]. rewrite not_elem_of_cons in Hf. destruct Hf.
    csimpl. rewrite upd_ne by done. by rewrite IH. }
  induction l as [|i l IH]; [by apply elem_of_nil in Hf|]. rewrite NoDup_cons in Hd. destruct Hd as [Hi Hd].
  destruct (decide (i = f)) as [->|Hne].
  - csimpl. rewrite upd_eq, Hout by done. destruct (g x), (g (m f)); simpl; try done. apply Permutation_swap.
  - csimpl. rewrite upd_ne by done. destruct (g (m i)) as [p|]; [|apply IH; set_solver].
    rewrite <- !Permutation_middle. f_equiv. apply IH; [done|]. set_solver.
Qed.
Lemma inv_pkt H K K' O w f x :
  inv M H K O w → (f < NR_FRAMES)%nat → x.(ext_tag) = (w.(fr) f).(ext_tag) →
  (∀ q, (q, f) ∈ w.(lk) → fact M w x q) → olist x.(pkt) ++ K' ≡ₚ olist (w.(fr) f).(pkt) ++ K →
  inv M H K' O (set_fr (upd f x w.(fr)) w).
Proof.
  intros [Hl Hc Ha Hs Hn Hx Hk He Hr] Hf E1 Hfact Hp. split; try done; cbn [set_fr fr lk].
  - intros q g Hg. unfold upd. destruct (decide (g = f)) as [->|]; [exact (Hfact q Hg)|exact (Hx q g Hg)].
  - rewrite <- Hk. cbn [set_fr done made]. unfold held. cbn [set_fr fr].
    pose proof (omap_upd pkt f x w.(fr) (seq 0 NR_FRAMES) (NoDup_seq _ _)) as Hu.
    rewrite elem_of_seq in Hu. specialize (Hu ltac:(lia)).
    apply Permutation_app_head, (Permutation_app_inv_l (olist (w.(fr) f).(pkt))). rewrite app_assoc, Hu.
    rewrite (Permutation_app_comm (olist (pkt x))), <- app_assoc, Hp, !app_assoc. apply Permutation_app_tail, Permutation_app_comm.
  - intros g Hg. unfold upd. destruct (decide (g = f)) as [->|]; [rewrite E1|]; auto.
Qed.
Lemma inv_done H K O w p : inv M H (p :: K) O w → inv M H K O (rtw_os_pkt_complete p w).
Proof.
  intros [Hl Hc Ha Hs Hn Hx Hk He Hr]. split; try done. cbn [rtw_os_pkt_complete set_pkts done made].
  rewrite <- Hk, <- app_assoc. apply Permutation_app_head. simpl. rewrite Permutation_middle. done.
Qed.
Lemma inv_make H K O w : inv M H K O w → inv M H (w.(made) :: K) O (set_pkts w.(done) (S w.(made)) w).
Proof.
  intros [Hl Hc Ha Hs Hn Hx Hk He Hr]. split; try done. cbn [set_pkts done made].
  rewrite seq_S, <- Hk, <- !app_assoc. do 2 apply Permutation_app_head. apply Permutation_cons_append.
Qed.
End Inv.

(** The entries of [O] cancel. *)
Ltac off_solve :=
  intros; unfold off, off_ac, sumz; cbn [map fold_right fst snd in_ac]; repeat case_decide;
  lia || (subst; simpl in *; done || congruence).

(** ** What an operation on a frame leaves alone *)
Definition stat (p : sta) := (p.(s_mac), p.(s_aid), p.(state), (p.(uapsd_bk), p.(uapsd_be), p.(uapsd_vi), p.(uapsd_vo)), p.(has_legacy_ac), p.(tx_q_enable)).
Record keeps (w w' : xw) : Prop := {
  k_tbl : w'.(tbl) = w.(tbl);
  k_asoc : w'.(asoc_list) = w.(asoc_list);
  k_stat s : stat (w'.(st) s) = stat (w.(st) s);
  k_dz : w'.(sta_dz_bitmap) = w.(sta_dz_bitmap)
}.
Record only (f : nat) (w w' : xw) : Prop := {
  o_keeps : keeps w w';
  o_links q g : g ≠ f → (q, g) ∈ w'.(lk) ↔ (q, g) ∈ w.(lk);
  o_fr g : g ≠ f → w'.(fr) g = w.(fr) g
}.
#[global] Instance keeps_refl : Reflexive keeps.
Proof. by split. Qed.
#[global] Instance keeps_trans : Transitive keeps.
Proof. intros x y z [A1 A2 A3 A4] [B1 B2 B3 B4]. split; [congruence|congruence| |congruence]. intros s. by rewrite B3, A3. Qed.
#[global] Instance only_refl f : Reflexive (only f).
Proof. by split. Qed.
#[global] Instance only_trans f : Transitive (only f).
Proof.
  intros x y z [A1 A2 A3] [B1 B2 B3]. split; [by etrans| |]; intros; [rewrite B2, A2 by done; done|rewrite B3, A3 by done; done].
Qed.
Lemma stat_state p p' : stat p = stat p' → p.(state) = p'.(state) ∧ p.(s_aid) = p'.(s_aid).
Proof. unfold stat. by intros [= ]. Qed.
Lemma keeps_asleep w w' a : keeps w w' → asleep w' a = asleep w a.
Proof.
  intros [_ _ Hs Hd]. unfold asleep, has_state, aid_of. destruct (psta a) as [s|]; [|done].
  destruct (stat_state _ _ (Hs s)) as [-> ->]. by rewrite Hd.
Qed.
Lemma keeps_state w w' s b : keeps w w' → has_state w' s b = has_state w s b.
Proof. intros [_ _ Hs _]. unfold has_state. by destruct (stat_state _ _ (Hs s)) as [-> _]. Qed.
Lemma keeps_sta w w' f : keeps w w' → w'.(fr) f = w.(fr) f → sta_of_frame w' f = sta_of_frame w f.
Proof.
  intros Hk Hf. unfold sta_of_frame, rtw_get_stainfo, frame_attrib. rewrite Hf, (k_tbl _ _ Hk).
  destruct (tbl w !! _) as [s|]; [|done]. by rewrite (keeps_state _ _ _ _ Hk).
Qed.

(** A change of the frame, of a link of the frame, of counters. *)
Lemma only_fr f x w : only f w (set_fr (upd f x w.(fr)) w).
Proof. split; [done|done|]. intros g Hg. cbn [set_fr fr]. by rewrite upd_ne. Qed.
Lemma only_unlink f w : only f w (set_lk (list_delete f w.(lk)) w).
Proof. split; [done| |done]. intros q g Hg. cbn [set_lk lk]. rewrite elem_of_delete. naive_solver. Qed.
Lemma only_insert f q w : only f w (set_lk (w.(lk) ++ [(q, f)]) w).
Proof. split; [done| |done]. intros q' g Hg. cbn [set_lk lk]. rewrite elem_of_app, list_elem_of_singleton. naive_solver. Qed.
Lemma only_st f s g w : stat (g (w.(st) s)) = stat (w.(st) s) → only f w (upd_st s g w).
Proof. intros E. split; [|done|done]. split; try done. intros s'. cbn [upd_st set_st st]. unfold upd. destruct (decide (s' = s)) as [->|]; done. Qed.
Lemma only_same f w w' :
  w'.(lk) = w.(lk) → w'.(fr) = w.(fr) → w'.(st) = w.(st) → w'.(tbl) = w.(tbl) → w'.(asoc_list) = w.(asoc_list) →
  w'.(sta_dz_bitmap) = w.(sta_dz_bitmap) → only f w w'.
Proof. intros E1 E2 E3 E4 E5 E6. split; [split; try done; by rewrite E3|by rewrite E1|by rewrite E2]. Qed.
