(* ===== verification/XmitQueueOps.v ===== *)
(** * Every operation on the transmit queues keeps their invariant *)
From S2P Require Import Prelude.
From stdpp Require Import list gmap.
From S2P Require Import StaTable WepTkip XmitAttrib RxValidate XmitQueue XmitQueueInv.
Local Open Scope Z_scope.
#[local] Opaque NR_FRAMES NR_XMITFRAME NR_XMIT_EXTBUFF.

Definition freed (f : nat) (w : xw) : Prop := ∀ q, (q, f) ∈ w.(lk) → q = Q_free ∨ q = Q_ext.

(** A change of buffers, of the TIM and of statistics. *)
Record aside (w w' : xw) : Prop := {
  a_lk : w'.(lk) = w.(lk); a_tk : w'.(tk) = w.(tk); a_fr : w'.(fr) = w.(fr); a_st : w'.(st) = w.(st);
  a_accnt : w'.(accnt) = w.(accnt); a_free : w'.(cn).(free_xmitframe_cnt) = w.(cn).(free_xmitframe_cnt);
  a_ext : w'.(cn).(free_xframe_ext_cnt) = w.(cn).(free_xframe_ext_cnt);
  a_done : w'.(done) = w.(done); a_made : w'.(made) = w.(made); a_air : w'.(air) = w.(air);
  a_tbl : w'.(tbl) = w.(tbl); a_asoc : w'.(asoc_list) = w.(asoc_list); a_dz : w'.(sta_dz_bitmap) = w.(sta_dz_bitmap)
}.
#[global] Instance aside_refl : Reflexive aside.
Proof. by split. Qed.
#[global] Instance aside_trans : Transitive aside.
Proof. intros x y z [] []. split; congruence. Qed.
Lemma only_aside f w w' : aside w w' → only f w w'.
Proof. intros []. by apply only_same. Qed.
Lemma keeps_aside w w' : aside w w' → keeps w w'.
Proof. intros Ha. apply (o_keeps 0%nat), only_aside, Ha. Qed.
Lemma inv_aside M H K O w w' : inv M H K O w → aside w w' → inv M H K O w'.
Proof.
  intros Hi Ha. pose proof (keeps_aside _ _ Ha) as Hk. destruct Ha. apply (inv_same M H K O w); try done.
  apply calm_same. intros a. by rewrite (keeps_asleep _ _ _ Hk).
Qed.
Lemma aside_free_xmitbuf b w : rp (rtw_free_xmitbuf b w) (aside w).
Proof.
  unfold rtw_free_xmitbuf, rtw_free_xmitbuf_ext. destruct (is_ext_buf b).
  all: rewrite insert_fresh by apply delete_gone; simpl; split; cbn; done || lia.
Qed.
Lemma aside_free_xmitbuf_ext b w : rp (rtw_free_xmitbuf_ext b w) (aside w).
Proof. unfold rtw_free_xmitbuf_ext. rewrite insert_fresh by apply delete_gone. simpl; split; cbn; done || lia. Qed.
Lemma aside_alloc_xmitbuf w : aside w (rtw_alloc_xmitbuf w).2.
Proof. unfold rtw_alloc_xmitbuf. destruct (queue _ _); simpl; [done|split; cbn; done || lia]. Qed.
Lemma aside_alloc_xmitbuf_ext w : aside w (rtw_alloc_xmitbuf_ext w).2.
Proof. unfold rtw_alloc_xmitbuf_ext. destruct (queue _ _); simpl; [done|split; cbn; done || lia]. Qed.
Lemma aside_drop w : aside w (drop_one w).
Proof. by split. Qed.
Lemma aside_tim t w : aside w (set_tim t w).
Proof. by split. Qed.

(** An operation that touches the frames of [S] only. *)
Record within (S : list nat) (w w' : xw) : Prop := {
  in_keeps : keeps w w';
  in_links q g : g ∉ S → (q, g) ∈ w'.(lk) ↔ (q, g) ∈ w.(lk);
  in_fr g : g ∉ S → w'.(fr) g = w.(fr) g
}.
Lemma within_refl S w : within S w w.
Proof. by split. Qed.
Lemma within_trans S w w' w'' : within S w w' → within S w' w'' → within S w w''.
Proof.
  intros [A1 A2 A3] [B1 B2 B3]. split; [by etrans| |]; intros; [rewrite B2, A2 by done; done|rewrite B3, A3 by done; done].
Qed.
Lemma only_within f S w w' : only f w w' → f ∈ S → within S w w'.
Proof. intros [A1 A2 A3] Hf. split; [done| |]; intros; [apply A2|apply A3]; by intros ->. Qed.

(** The number of frames in service queues. *)
Definition is_pend (q : qid) : Prop := match q with Q_pend _ _ => True | _ => False end.
#[global] Instance is_pend_dec q : Decision (is_pend q).
Proof. destruct q; simpl; apply _. Defined.
Definition pend (w : xw) : nat := length (filter (λ x, is_pend x.1) w.(lk)).
Lemma NoDup_links (h : list (qid * nat)) : NoDup h.*2 → NoDup h.
Proof. apply NoDup_fmap_1. Qed.
Lemma pend_mono w w' :
  NoDup w'.(lk).*2 → (∀ q g, is_pend q → (q, g) ∈ w'.(lk) → (q, g) ∈ w.(lk)) → (pend w' ≤ pend w)%nat.
Proof.
  intros Hd Hs. apply submseteq_length, NoDup_submseteq; [by apply NoDup_filter, NoDup_links|].
  intros [q g] [? ?]%list_elem_of_filter. apply list_elem_of_filter. auto.
Qed.
Lemma pend_less w w' q f :
  NoDup w'.(lk).*2 → (∀ q g, is_pend q → (q, g) ∈ w'.(lk) → (q, g) ∈ w.(lk)) →
  is_pend q → (q, f) ∈ w.(lk) → (q, f) ∉ w'.(lk) → (pend w' < pend w)%nat.
Proof.
  intros Hd Hs Hp Hf Hn. assert (S (pend w') = length ((q, f) :: filter (λ x, is_pend x.1) (lk w'))) as E by done.
  unfold lt. rewrite E. apply submseteq_length, NoDup_submseteq.
  - apply NoDup_cons. split; [by intros [_ ?]%list_elem_of_filter|by apply NoDup_filter, NoDup_links].
  - intros [q' g]. rewrite elem_of_cons, !list_elem_of_filter. intros [[= -> ->]|[? ?]]; auto.
Qed.

(** Where a frame is once it was queued for transmission or dropped. *)
Definition sent_on (f : nat) (w : xw) : Prop :=
  ∀ q, (q, f) ∈ w.(lk) → match q with Q_free | Q_ext | Q_pend _ _ => True | _ => False end.
Lemma freed_sent_on f w : freed f w → sent_on f w.
Proof. intros Hf q Hq. by destruct (Hf q Hq) as [-> | ->]. Qed.
Lemma data_ac up : rtw_get_sta_pending up ≠ MGMT_IDX.
Proof. unfold rtw_get_sta_pending. by repeat (destruct (_ || _)). Qed.

Section Ops.
Context (M : mode) (e : env).
Implicit Types (H K : list nat) (O : list (qid * Z)) (w : xw).

(** ** A frame in hand *)
Lemma not_linked H K O w f q : inv M (f :: H) K O w → (q, f) ∉ w.(lk).
Proof. intros Hi Hq. apply (inv_fresh _ _ _ _ _ _ Hi). rewrite list_elem_of_fmap. by exists (q, f). Qed.
Lemma inv_fr_hand H K K' O w f g :
  inv M (f :: H) K O w → (g (w.(fr) f)).(ext_tag) = (w.(fr) f).(ext_tag) →
  olist (g (w.(fr) f)).(pkt) ++ K' ≡ₚ olist (w.(fr) f).(pkt) ++ K → inv M (f :: H) K' O (upd_fr f g w).
Proof.
  intros Hi E1 E2. apply (inv_pkt M _ K _ _ w f _ Hi); [by eapply inv_hand|done| |done].
  intros q Hq. by destruct (not_linked _ _ _ _ _ _ Hi Hq).
Qed.
Lemma inv_attrib_hand H K O w f g : inv M (f :: H) K O w → inv M (f :: H) K O (upd_attrib f g w).
Proof. intros Hi. by apply (inv_fr_hand _ K _ _ _ _ _ Hi). Qed.
Lemma only_upd_fr f g w : only f w (upd_fr f g w).
Proof. apply only_fr. Qed.
Lemma only_attrib f g w : only f w (upd_attrib f g w).
Proof. apply only_fr. Qed.
Lemma only_complete f p w : only f w (rtw_os_pkt_complete p w).
Proof. by apply only_same. Qed.
#[local] Hint Resolve only_upd_fr only_attrib only_complete only_unlink only_insert : core.

(** ** Pools *)
Lemma complete_spec H K O w f : inv M (f :: H) K O w →
  inv M (f :: H) K O (rtw_os_xmit_complete f w) ∧ only f w (rtw_os_xmit_complete f w).
Proof.
  intros Hi. unfold rtw_os_xmit_complete. destruct (pkt (fr w f)) as [p|] eqn:Ep.
  - split; [|apply (only_trans f _ (rtw_os_pkt_complete p w)); auto]. change (inv M (f :: H) K O (rtw_os_pkt_complete p (upd_fr f (set_pkt None) w))).
    apply inv_done. apply (inv_fr_hand _ K _ _ _ _ _ Hi); [done|]. by rewrite Ep.
  - split; [|done]. apply (inv_fr_hand _ K _ _ _ _ _ Hi); [done|]. by rewrite Ep.
Qed.
Lemma free_insert H K O w f q z : inv M (f :: H) K O w → (w.(fr) f).(pkt) = None →
  (q = Q_free ∧ z = add_cn 1 0 0 0 ∨ q = Q_ext ∧ z = add_cn 0 1 0 0 ∧ (w.(fr) f).(ext_tag) = 1) →
  rp (let* l := list_insert_tail f q (list_delete f w.(lk)) in Ret (z (set_lk l w)))
    (λ w', inv M H K O w' ∧ only f w w' ∧ freed f w' ∧ w'.(fr) = w.(fr)).
Proof.
  intros Hi Hp Hq. rewrite (inv_delete_hand _ _ _ _ _ _ Hi).
  destruct (inv_insert M H K O w q f Hi) as [-> Hi']; [by destruct Hq as [[-> _]|(-> & _ & ?)]|by destruct Hq as [[-> _]|[-> _]]|].
  simpl. assert (freed f (set_lk (lk w ++ [(q, f)]) w)) as Hfr.
  { intros q'. cbn [set_lk lk]. rewrite elem_of_app, list_elem_of_singleton. intros [Hl|[= ->]].
    - by destruct (not_linked _ _ _ _ _ _ Hi Hl).
    - naive_solver. }
  destruct Hq as [[-> ->]|(-> & -> & _)]; (split; [|split; [|done]]).
  1, 3: eapply inv_off; [by apply inv_cn|off_solve..].
  all: etrans; [apply only_insert|by apply only_same].
Qed.
Lemma free_frame_spec H K O w f : inv M (f :: H) K O w →
  rp (rtw_free_xmitframe f w) (λ w', inv M H K O w' ∧ only f w w' ∧ freed f w').
Proof.
  intros Hi. unfold rtw_free_xmitframe. set (w1 := upd_fr f (set_pkt None) w).
  assert (inv M (f :: H) (olist (fr w f).(pkt) ++ K) O w1) as H1.
  { apply (inv_fr_hand _ K _ _ _ _ _ Hi); [done|]. done. }
  assert (pkt (fr w1 f) = None) as Hp by (unfold w1; cbn [upd_fr set_fr fr]; by rewrite upd_eq).
  apply rp_bind. eapply rp_mono with (Φ := λ w', inv M H (olist (fr w f).(pkt) ++ K) O w' ∧ only f w1 w' ∧ freed f w' ∧ w'.(fr) = w1.(fr)).
  - pose proof (i_ext _ _ _ _ _ Hi f ltac:(by eapply inv_hand)) as Ee.
    assert (ext_tag (fr w1 f) = ext_tag (fr w f)) as Ee' by (unfold w1; cbn; by rewrite upd_eq).
    rewrite Ee in *. destruct (f <? NR_XMITFRAME)%nat; [apply (free_insert H _ O w1 f Q_free _ H1 Hp)|apply (free_insert H _ O w1 f Q_ext _ H1 Hp)]; auto.
  - intros w' (Hi' & Ho & Hf & _). simpl. assert (only f w w') as Ho' by (etrans; [apply only_upd_fr|done]).
    destruct (pkt (fr w f)) as [p|]; simpl in *; [|done]. split; [by apply inv_done|]. split; [|done]. etrans; [exact Ho'|apply only_complete].
Qed.

Lemma free_unlinked f w : rtw_free_xmitframe f (set_lk (list_delete f w.(lk)) w) = rtw_free_xmitframe f w.
Proof.
  unfold rtw_free_xmitframe. cbn [upd_fr set_fr set_lk fr lk]. by rewrite (delete_fresh f (list_delete f (lk w))) by apply delete_gone.
Qed.
Lemma free_linked_spec H K O w q f : inv M H K O w → (q, f) ∈ w.(lk) →
  rp (rtw_free_xmitframe f w) (λ w', inv M H K ((q, 1) :: O) w' ∧ only f w w' ∧ freed f w').
Proof.
  intros Hi Hf. rewrite <- free_unlinked. eapply rp_mono; [apply free_frame_spec; by apply inv_unlink|].
  intros w' (? & ? & ?). split; [done|]. split; [|done]. etrans; [apply only_unlink|done].
Qed.
(** A frame of the free queue, initialised. *)
Definition fresh_frame (x : xmit_frame) : Prop := x.(pkt) = None ∧ x.(pxmitbuf) = None ∧ x.(attrib) = zero_attrib.
Lemma init_spec H K O w f : inv M (f :: H) K O w → (w.(fr) f).(pkt) = None →
  inv M (f :: H) K O (rtw_init_xmitframe f w) ∧ fresh_frame ((rtw_init_xmitframe f w).(fr) f) ∧ only f w (rtw_init_xmitframe f w).
Proof.
  intros Hi Hp. unfold rtw_init_xmitframe. split; [|split; [|auto]].
  - apply (inv_fr_hand _ K _ _ _ _ _ Hi); [done|]. by rewrite Hp.
  - cbn [upd_fr set_fr fr]. rewrite upd_eq. done.
Qed.
Lemma alloc_spec H K O w f w' : inv M H K O w →
  (rtw_alloc_xmitframe w = (Some f, w') ∨ rtw_alloc_xmitframe_ext w = (Some f, w')) →
  inv M (f :: H) K O w' ∧ fresh_frame (w'.(fr) f) ∧ only f w w'.
Proof.
  intros Hi Ha. assert (∃ q n m, (q, f) ∈ w.(lk) ∧ (q = Q_free ∧ n = -1 ∧ m = 0 ∨ q = Q_ext ∧ n = 0 ∧ m = -1)
    ∧ w' = rtw_init_xmitframe f (add_cn n m 0 0 (set_lk (list_delete f w.(lk)) w))) as (q & n & m & Hf & Hq & ->).
  { unfold rtw_alloc_xmitframe, rtw_alloc_xmitframe_ext in Ha. destruct Ha as [Ha|Ha].
    - destruct (queue (lk w) Q_free) eqn:E; [done|]. injection Ha as -> <-.
      exists Q_free, (-1), 0. rewrite <- elem_of_queue, E. naive_solver set_solver.
    - destruct (queue (lk w) Q_ext) eqn:E; [done|]. injection Ha as -> <-.
      exists Q_ext, 0, (-1). rewrite <- elem_of_queue, E. naive_solver set_solver. }
  pose proof (i_facts _ _ _ _ _ Hi q f Hf) as Hp. pose proof (inv_unlink _ _ _ _ _ _ _ Hi Hf) as H1.
  destruct (init_spec H K O (add_cn n m 0 0 (set_lk (list_delete f w.(lk)) w)) f) as (A & B & C).
  - destruct Hq as [(-> & -> & ->)|(-> & -> & ->)]; (eapply inv_off; [by apply inv_cn|off_solve..]).
  - destruct Hq as [(-> & _)|(-> & _)]; [done|apply Hp].
  - split; [done|]. split; [done|]. etrans; [apply only_unlink|]. etrans; [|done]. by apply only_same.
Qed.
Lemma alloc_ext_tag H K O w f w' : inv M H K O w → rtw_alloc_xmitframe_ext w = (Some f, w') → (w'.(fr) f).(ext_tag) = 1.
Proof.
  intros Hi Ha. unfold rtw_alloc_xmitframe_ext in Ha. destruct (queue (lk w) Q_ext) eqn:E; [done|]. injection Ha as -> <-.
  cbn. rewrite upd_eq. cbn. apply (i_facts _ _ _ _ _ Hi Q_ext f). rewrite <- elem_of_queue, E. left.
Qed.

(** ** Service queues *)
Lemma sta_of_frame_spec w f s : sta_of_frame w f = Some s →
  w.(tbl) !! canon (frame_attrib w f).(ra) = Some s ∧ (frame_attrib w f).(psta) = Some s ∧ has_state w s WIFI_ASOC_STATE = true.
Proof.
  unfold sta_of_frame, rtw_get_stainfo. destruct (tbl w !! _) as [s'|]; [|done]. case_decide; [|done].
  destruct (has_state _ _ _) eqn:E; [|done]. by intros [= ->].
Qed.
Lemma servq_insert_spec H K O w s a f : inv M (f :: H) K O w → fact M w (w.(fr) f) (Q_pend s a) →
  rp (servq_insert s a f w) (λ w', inv M H K O w' ∧ only f w w' ∧ w'.(lk) = w.(lk) ++ [(Q_pend s a, f)] ∧ w'.(fr) = w.(fr)).
Proof.
  intros Hi Hf. unfold servq_insert. apply rp_bind.
  assert (rp (if linked (s, a) (tk w) then Ret (tk w) else list_insert_tail (s, a) a (tk w))
    (λ t, inv M (f :: H) K O (set_tk t w) ∧ (a, (s, a)) ∈ t)) as Ht.
  { destruct (linked (s, a) (tk w)) eqn:E; simpl.
    - apply linked_elem in E. split; [by apply (inv_aside _ _ _ _ w)|by eapply inv_node_in].
    - assert ((s, a) ∉ (tk w).*2) as Hn by (intros ?%linked_elem; congruence).
      rewrite insert_fresh by done. simpl. split; [by apply inv_node_insert|]. rewrite elem_of_app, list_elem_of_singleton. auto. }
  eapply rp_mono; [exact Ht|]. clear Ht. intros t [Hi' Ht]. apply rp_bind.
  destruct (inv_insert M H K O (set_tk t w) (Q_pend s a) f Hi') as [E Hi'']; [done|by intros ? ? [= <- <-]|].
  change (lk (set_tk t w)) with (lk w) in *. rewrite E. simpl. split; [|split; [|done]].
  - eapply inv_off; [apply inv_pend_cnt, Hi''|off_solve..].
  - apply (only_trans f _ (set_tk t w)); [by apply only_same|]. apply (only_trans f _ (set_lk (lk w ++ [(Q_pend s a, f)]) (set_tk t w))); [apply (only_insert f (Q_pend s a) (set_tk t w))|].
    etrans; [apply (only_st f s)|by apply only_same]. done.
Qed.

(** What lets a frame into a service queue. *)
Definition may_go (w : xw) (f : nat) : Prop :=
  ∀ s, (frame_attrib w f).(psta) = Some s → M.(m_strict) s = true → respects w (w.(fr) f).
Lemma classifier_spec H K O w f : inv M (f :: H) K O w → w.(tbl) = M.(m_tbl) → may_go w f →
  rp (rtw_xmit_classifier f w) (λ r, only f w r.2 ∧
    match sta_of_frame w f with
    | Some s => r.1 = true ∧ inv M H K O r.2 ∧ r.2.(fr) = w.(fr) ∧
                r.2.(lk) = w.(lk) ++ [(Q_pend s (rtw_get_sta_pending (frame_attrib w f).(priority)), f)]
    | None => r = (false, w)
    end).
Proof.
  intros Hi Ht Hg. unfold rtw_xmit_classifier. destruct (sta_of_frame w f) as [s|] eqn:Es; [|by split].
  apply sta_of_frame_spec in Es as (E1 & E2 & _). apply rp_bind. eapply rp_mono.
  - apply servq_insert_spec; [done|]. split; [by rewrite Ht in E1|].
    rewrite decide_False by apply data_ac. split; [done|]. intros. by eapply Hg.
  - intros w' (? & ? & ? & ?). done.
Qed.
Lemma mgmt_enqueue_spec H K O w f : inv M (f :: H) K O w → w.(tbl) = M.(m_tbl) → mgmt_ok (w.(fr) f) →
  rp (rtw_mgmt_xmitframe_enqueue f w) (λ r, only f w r.2 ∧
    match sta_of_frame w f with
    | Some s => r.1 = true ∧ inv M H K O r.2 ∧ r.2.(fr) = w.(fr) ∧ r.2.(lk) = w.(lk) ++ [(Q_pend s MGMT_IDX, f)]
    | None => r = (false, w)
    end).
Proof.
  intros Hi Ht Hg. unfold rtw_mgmt_xmitframe_enqueue. destruct (sta_of_frame w f) as [s|] eqn:Es; [|by split].
  apply sta_of_frame_spec in Es as (E1 & E2 & _). apply rp_bind. eapply rp_mono.
  - apply servq_insert_spec; [done|]. split; [by rewrite Ht in E1|]. by rewrite decide_True.
  - intros w' (? & ? & ? & ?). done.
Qed.
Lemma appended_sent_on H K O w w' f s a : inv M (f :: H) K O w → w'.(lk) = w.(lk) ++ [(Q_pend s a, f)] → sent_on f w'.
Proof.
  intros Hi E q. rewrite E, elem_of_app, list_elem_of_singleton. intros [Hq|[= ->]]; [|done].
  by destruct (not_linked _ _ _ _ _ _ Hi Hq).
Qed.
Lemma enqueue_or_free_spec H K O w f g m :
  inv M (f :: H) K O w →
  rp m (λ r, only f w r.2 ∧
    match sta_of_frame w f with
    | Some s => r.1 = true ∧ inv M H K O r.2 ∧ r.2.(fr) = w.(fr) ∧ r.2.(lk) = w.(lk) ++ [(Q_pend s (g f), f)]
    | None => r = (false, w)
    end) →
  rp (enqueue_or_free m f) (λ w', inv M H K O w' ∧ only f w w' ∧ sent_on f w').
Proof.
  intros Hi Hm. unfold enqueue_or_free. apply rp_bind. eapply rp_mono; [exact Hm|]. intros [ok w'] [Ho Hr]. simpl in *.
  destruct (sta_of_frame w f) as [s|].
  - destruct Hr as (-> & ? & ? & ?). simpl. split; [done|]. split; [done|]. by eapply appended_sent_on.
  - injection Hr as -> ->. apply rp_bind. eapply rp_mono; [by apply free_frame_spec|]. intros w1 (? & ? & ?). simpl.
    split; [apply (inv_aside _ _ _ _ w1); [done|apply aside_drop]|]. split; [|by apply freed_sent_on].
    etrans; [done|by apply only_same].
Qed.
Lemma hal_enqueue_spec H K O w f : inv M (f :: H) K O w → w.(tbl) = M.(m_tbl) → may_go w f →
  rp (rtl8822bu_hal_xmitframe_enqueue f w) (λ w', inv M H K O w' ∧ only f w w' ∧ sent_on f w').
Proof.
  intros Hi Ht Hg. apply (enqueue_or_free_spec _ _ _ _ _ (λ _, rtw_get_sta_pending (frame_attrib w f).(priority)) _ Hi).
  by apply classifier_spec.
Qed.
Lemma hal_mgmt_enqueue_spec H K O w f : inv M (f :: H) K O w → w.(tbl) = M.(m_tbl) → mgmt_ok (w.(fr) f) →
  rp (rtl8822bu_hal_mgmt_xmitframe_enqueue f w) (λ w', inv M H K O w' ∧ only f w w' ∧ sent_on f w').
Proof.
  intros Hi Ht Hg. apply (enqueue_or_free_spec _ _ _ _ _ (λ _, MGMT_IDX) _ Hi). by apply mgmt_enqueue_spec.
Qed.

(** A frame off a service queue, its counters adjusted, the queue off its list when
    it is empty. *)
Definition taken (w : xw) (s a f : nat) (w' : xw) : Prop :=
  (∃ r, queue w.(lk) (Q_pend s a) = f :: r) ∧ only f w w' ∧ w'.(lk) = list_delete f w.(lk) ∧ w'.(fr) = w.(fr) ∧
  w'.(air) = w.(air).
Lemma dequeue_ac_spec H K O nodes a w : inv M H K O w → Forall (λ x, x.2 = a) nodes →
  match dequeue_ac nodes a w with
  | (Some f, w') => ∃ s, (s, a) ∈ nodes ∧ taken w s a f w' ∧ inv M (f :: H) K O w'
  | (None, w') => w' = w ∧ ∀ s, (s, a) ∈ nodes → queue w.(lk) (Q_pend s a) = []
  end.
Proof.
  intros Hi. induction 1 as [|[s a'] nodes Ha Hn IH]; simpl; [split; [done|]; by intros s ?%elem_of_nil|].
  simpl in Ha. subst a'. unfold dequeue_one_xmitframe. destruct (queue (lk w) (Q_pend s a)) as [|f r] eqn:Eq.
  - destruct (dequeue_ac nodes a w) as [[f|] w'].
    + destruct IH as (s' & ? & ?). exists s'. split; [by right|done].
    + destruct IH as [-> IH]. split; [done|]. intros s'. rewrite elem_of_cons. intros [[= ->]|]; auto.
  - assert ((Q_pend s a, f) ∈ lk w) as Hf by (rewrite <- elem_of_queue, Eq; left).
    pose proof (inv_unlink _ _ _ _ _ _ _ Hi Hf) as H1. apply (inv_pend_cnt _ _ _ _ _ s a (-1)) in H1.
    set (w1 := add_accnt a (-1) _) in *. exists s. split; [left|].
    assert (inv M (f :: H) K O w1) as H2 by (eapply inv_off; [exact H1|off_solve..]).
    assert (only f w w1) as Ho.
    { etrans; [apply only_unlink|]. etrans; [apply (only_st f s)|by apply only_same]. done. }
    unfold taken. case_decide; (split; [split; [by eexists|]|]); try done.
    + split; [|done]. etrans; [exact Ho|]. by apply only_same.
    + by apply (inv_node_delete M _ _ _ w1 s a H2).
Qed.
Lemma nodes_ac H K O w a : inv M H K O w → Forall (λ x, x.2 = a) (queue w.(tk) a).
Proof.
  intros Hi. apply Forall_forall. intros x Hx%elem_of_queue. destruct (i_nodes _ _ _ _ _ Hi) as [_ Hn]. by specialize (Hn _ Hx).
Qed.
Lemma no_nodes H K O w a s : inv M H K O w → (∀ s, (s, a) ∈ queue w.(tk) a → queue w.(lk) (Q_pend s a) = []) → queue w.(lk) (Q_pend s a) = [].
Proof.
  intros Hi Hn. destruct (queue (lk w) (Q_pend s a)) eqn:E; [done|]. rewrite <- E. apply Hn, elem_of_queue.
  apply (i_servq _ _ _ _ _ Hi). by rewrite E.
Qed.
Lemma dequeue_acs_spec H K O inx w : inv M H K O w →
  match dequeue_acs inx w with
  | (Some f, w') => ∃ s a, a ∈ inx ∧ taken w s a f w' ∧ inv M (f :: H) K O w'
  | (None, w') => w' = w ∧ ∀ s a, a ∈ inx → queue w.(lk) (Q_pend s a) = []
  end.
Proof.
  intros Hi. induction inx as [|a inx IH]; simpl; [split; [done|]; by intros s a ?%elem_of_nil|].
  pose proof (dequeue_ac_spec H K O _ a w Hi (nodes_ac _ _ _ _ a Hi)) as Hd.
  destruct (dequeue_ac _ a w) as [[f|] w1].
  - destruct Hd as (s & _ & ?). exists s, a. split; [left|done].
  - destruct Hd as [-> Hd]. destruct (dequeue_acs inx w) as [[f|] w'].
    + destruct IH as (s & a' & ? & ?). exists s, a'. split; [by right|done].
    + destruct IH as [-> IH]. split; [done|]. intros s a'. rewrite elem_of_cons. intros [->|]; [|auto]. by eapply no_nodes.
Qed.
Lemma dequeue_mgmt_spec H K O w : inv M H K O w →
  match rtw_dequeue_mgmt_xframe w with
  | (Some f, w') => ∃ s, taken w s MGMT_IDX f w' ∧ inv M (f :: H) K O w'
  | (None, w') => w' = w ∧ ∀ s, queue w.(lk) (Q_pend s MGMT_IDX) = []
  end.
Proof.
  intros Hi. pose proof (dequeue_ac_spec H K O _ MGMT_IDX w Hi (nodes_ac _ _ _ _ _ Hi)) as Hd.
  unfold rtw_dequeue_mgmt_xframe. destruct (dequeue_ac _ _ w) as [[f|] w1]; [naive_solver|].
  destruct Hd as [-> Hd]. split; [done|]. intros s. by eapply no_nodes.
Qed.
Lemma taken_facts H K O w s a f w' : inv M H K O w → taken w s a f w' → fact M w' (w'.(fr) f) (Q_pend s a).
Proof.
  intros Hi ((r & Eq) & Ho & _ & Ef & _). rewrite Ef.
  apply (fact_awake M w); [apply calm_same; intros ?; by rewrite (keeps_asleep _ _ _ (o_keeps _ _ _ Ho))|].
  apply (i_facts _ _ _ _ _ Hi). rewrite <- elem_of_queue, Eq. left.
Qed.
Lemma taken_length H K O w s a f w' : inv M H K O w → taken w s a f w' → length w.(lk) = S (length w'.(lk)).
Proof.
  intros Hi ((r & Eq) & _ & -> & _). assert ((Q_pend s a, f) ∈ lk w) as Hf by (rewrite <- elem_of_queue, Eq; left).
  by rewrite (Permutation_length (delete_perm f (Q_pend s a) (lk w) (inv_nodup_lk _ _ _ _ _ Hi) Hf)).
Qed.

(** ** Transmission *)
Context (Hm : M.(m_air) = true → ∀ s, M.(m_strict) s = true).
Lemma write_port_aside b w : rp (usb_write_port e b w) (λ r, aside w r.2).
Proof.
  unfold usb_write_port. destruct (_ && _); [by split|]. apply rp_bind. eapply rp_mono; [apply aside_free_xmitbuf|done].
Qed.
Lemma write_frags_aside n b w : rp (write_frags e n b w) (aside w).
Proof.
  revert w. induction n as [|n IH]; intros w; simpl; [done|]. apply rp_bind. eapply rp_mono; [apply write_port_aside|].
  intros [ok w1] Ha. simpl in *. eapply rp_mono; [apply IH|]. intros w2 ?. by etrans.
Qed.
Lemma may_go_respects w f : may_go w f → M.(m_air) = true → respects w (w.(fr) f).
Proof.
  intros Hg Ha Hs. unfold asleep in Hs. destruct (psta (attrib (fr w f))) as [s|] eqn:E; [|done].
  apply (Hg s E); [by apply Hm|]. unfold asleep. by rewrite E.
Qed.
Lemma only_log f g w : only f w (log_air g w).
Proof. by apply only_same. Qed.
Lemma inv_log H K O w f : inv M H K O w → (M.(m_air) = true → (w.(fr) f).(ext_tag) = 0 → respects w (w.(fr) f)) → inv M H K O (log_air f w).
Proof.
  intros [Hl Hc Ha Hs Hn Hx Hk He Hr] Hg. split; try done. intros Hma. cbn [log_air set_air air].
  apply Forall_app. split; [by apply Hr|]. apply Forall_singleton. intros Hext Hz. by apply Hg.
Qed.
Lemma dump_spec H K O w f : inv M (f :: H) K O w → (w.(fr) f).(pxmitbuf) ≠ None →
  (M.(m_air) = true → (w.(fr) f).(ext_tag) = 0 → respects w (w.(fr) f)) →
  rp (rtw_dump_xframe e f w) (λ w', inv M H K O w' ∧ only f w w' ∧ freed f w').
Proof.
  intros Hi Hb Hg. unfold rtw_dump_xframe. destruct (pxmitbuf (fr w f)) as [b|]; [|done]. apply rp_bind.
  eapply rp_mono; [apply write_frags_aside|]. intros w1 Ha.
  eapply rp_mono; [apply free_frame_spec; apply (inv_aside _ _ _ _ (log_air f w)); [by apply inv_log|done]|].
  intros w2 (? & ? & ?). split; [done|]. split; [|done]. etrans; [apply (only_log f f)|]. etrans; [by apply only_aside|done].
Qed.

Lemma may_go_only w w' f : keeps w w' → w'.(fr) f = w.(fr) f → may_go w f → may_go w' f.
Proof.
  intros Hk Ef Hg s. unfold frame_attrib, respects. rewrite Ef, (keeps_asleep _ _ _ Hk). apply Hg.
Qed.
Lemma may_go_attrib w w' f :
  keeps w w' → (frame_attrib w' f).(psta) = (frame_attrib w f).(psta) → (frame_attrib w' f).(ra) = (frame_attrib w f).(ra) →
  (frame_attrib w' f).(triggered) = (frame_attrib w f).(triggered) → may_go w f → may_go w' f.
Proof.
  intros Hk E1 E2 E3 Hg s Es Hs. unfold respects. fold (frame_attrib w' f). rewrite E3, (keeps_asleep _ _ _ Hk).
  unfold asleep. rewrite E1, E2. rewrite E1 in Es. exact (Hg s Es Hs).
Qed.

Lemma pre_xmitframe_spec H K O w f : inv M (f :: H) K O w → w.(tbl) = M.(m_tbl) → may_go w f →
  rp (pre_xmitframe e f w) (λ r, inv M H K O r.2 ∧ only f w r.2 ∧ sent_on f r.2).
Proof.
  intros Hi Ht Hg. unfold pre_xmitframe.
  assert (∀ w1, rp (let* (ok, w) := rtw_xmit_classifier f w in
      if (ok : bool) then Ret (false, w) else let* w := rtw_free_xmitframe f w in Ret (true, drop_one w))
      (λ r, inv M H K O r.2 ∧ only f w r.2 ∧ sent_on f r.2)) as Hq.
  { intros _. apply rp_bind. eapply rp_mono; [by apply classifier_spec|]. intros [ok w'] [Ho Hr]. simpl in *.
    destruct (sta_of_frame w f) as [s|].
    - destruct Hr as (-> & ? & ? & ?). simpl. split; [done|]. split; [done|]. by eapply appended_sent_on.
    - injection Hr as -> ->. apply rp_bind. eapply rp_mono; [by apply free_frame_spec|]. intros w1 (? & ? & ?). simpl.
      split; [apply (inv_aside _ _ _ _ w1); [done|apply aside_drop]|]. split; [|by apply freed_sent_on].
      etrans; [done|by apply only_same]. }
  destruct (_ || _); [exact (Hq w)|]. pose proof (aside_alloc_xmitbuf w) as Ha.
  destruct (rtw_alloc_xmitbuf w) as [[b|] w1]; simpl in Ha; [|exact (Hq w)].
  assert (inv M (f :: H) K O w1) as H1 by by apply (inv_aside _ _ _ _ w).
  set (w2 := upd_fr f (set_xbuf (Some b)) w1).
  assert (inv M (f :: H) K O w2) as H2 by by apply (inv_fr_hand _ K).
  assert (only f w w2) as O2 by (etrans; [by apply only_aside|apply only_upd_fr]).
  apply rp_bind. eapply rp_mono with (Φ := λ w', inv M H K O w' ∧ only f w w' ∧ freed f w').
  - destruct (coalesce e f) as [n|].
    + set (w3 := upd_attrib f (set_frags n) w2).
      assert (only f w w3) as O3 by (etrans; [exact O2|apply only_attrib]).
      assert (frame_attrib w3 f = set_frags n (frame_attrib w f)) as E3.
      { unfold frame_attrib, w3, w2. cbn. rewrite !upd_eq. cbn. by rewrite (a_fr _ _ Ha). }
      eapply rp_mono; [apply dump_spec|].
      * by apply inv_attrib_hand.
      * unfold w3, w2. cbn. by rewrite !upd_eq.
      * intros Hma _. apply may_go_respects; [|done]. apply (may_go_attrib w); [apply O3|by rewrite E3..|done].
      * intros w' (? & ? & ?). split; [done|]. split; [by etrans|done].
    + apply rp_bind. eapply rp_mono; [apply aside_free_xmitbuf|]. intros w3 Ha3.
      eapply rp_mono; [apply free_frame_spec; by apply (inv_aside _ _ _ _ w2)|].
      intros w' (? & ? & ?). split; [done|]. split; [|done]. etrans; [exact O2|]. etrans; [by apply only_aside|done].
  - intros w' (? & ? & ?). simpl. split; [done|]. split; [done|]. by apply freed_sent_on.
Qed.

(** *** Aggregation *)
Lemma free_tk f w : match rtw_free_xmitframe f w with Ret w' => w'.(tk) = w.(tk) | _ => True end.
Proof.
  unfold rtw_free_xmitframe. rewrite !insert_fresh by apply delete_gone. simpl.
  destruct (_ =? 0); [|destruct (_ =? 1)]; simpl; try done; by destruct (pkt _).
Qed.
Lemma inv_set_agg H K O w q f n o : inv M H K O w → (q, f) ∈ w.(lk) → inv M H K O (upd_fr f (set_agg n o) w).
Proof.
  intros Hi Hl. apply (inv_pkt M H K K O w f _ Hi); [by eapply inv_link|done| |done].
  intros q' Hq. exact (i_facts _ _ _ _ _ Hi q' f Hq).
Qed.
Lemma pend_take H K O w s a f : inv M H K O w → (Q_pend s a, f) ∈ w.(lk) →
  let w' := add_accnt a (-1) (add_qcnt s a (-1) (set_lk (list_delete f w.(lk)) w)) in
  inv M (f :: H) K O w' ∧ only f w w'.
Proof.
  intros Hi Hl w'. split.
  - eapply inv_off; [apply inv_pend_cnt, (inv_unlink _ _ _ _ _ _ _ Hi Hl)|off_solve..].
  - etrans; [apply only_unlink|]. etrans; [apply (only_st f s)|by apply only_same]. done.
Qed.
(** A frame in hand is coalesced: its packet goes back, it is ready to be sent. *)
Definition coalesced (f n : nat) (w : xw) : xw := rtw_os_xmit_complete f (upd_attrib f (set_frags n) w).
Lemma coalesced_spec H K O w f n : inv M (f :: H) K O w → may_go w f →
  inv M (f :: H) K O (coalesced f n w) ∧ only f w (coalesced f n w) ∧ may_go (coalesced f n w) f ∧ (coalesced f n w).(tk) = w.(tk) ∧
  attrib ((coalesced f n w).(fr) f) = set_frags n (attrib (w.(fr) f)) ∧ (coalesced f n w).(lk) = w.(lk).
Proof.
  intros Hi Hg. destruct (complete_spec _ _ _ _ f (inv_attrib_hand _ _ _ w f (set_frags n) Hi)) as [I1 O1].
  fold (coalesced f n w) in I1, O1. assert (only f w (coalesced f n w)) as Ho by (etrans; [apply only_attrib|exact O1]).
  assert (attrib (fr (coalesced f n w) f) = set_frags n (attrib (fr w f))) as Ea.
  { unfold coalesced, rtw_os_xmit_complete. destruct (pkt _); cbn; rewrite !upd_eq; cbn; by rewrite ?upd_eq. }
  split_and!; try done.
  - apply (may_go_attrib w); [apply Ho|unfold frame_attrib; by rewrite Ea..|done].
  - unfold coalesced, rtw_os_xmit_complete. by destruct (pkt _).
  - unfold coalesced, rtw_os_xmit_complete. by destruct (pkt _).
Qed.
Definition out_of_queues (f : nat) (w w' : xw) : Prop := only f w w' ∧ freed f w' ∧ w'.(tk) = w.(tk).
Lemma free_out H K O w f : inv M (f :: H) K O w → rp (rtw_free_xmitframe f w) (λ w', inv M H K O w' ∧ out_of_queues f w w').
Proof.
  intros Hi. pose proof (free_frame_spec _ _ _ _ _ Hi) as Hw. pose proof (free_tk f w) as Ht.
  destruct (rtw_free_xmitframe f w); simpl in *; try done. by destruct Hw as (? & ? & ?).
Qed.
Lemma coalesced_out H K O w f n : inv M (f :: H) K O w → may_go w f →
  rp (rtw_free_xmitframe f (log_air f (coalesced f n w))) (λ w', inv M H K O w' ∧ out_of_queues f w w').
Proof.
  intros Hi Hg. destruct (coalesced_spec _ _ _ _ _ n Hi Hg) as (I1 & O1 & G1 & T1 & _).
  eapply rp_mono; [apply free_out, inv_log; [exact I1|]|].
  - intros Hma _. by apply may_go_respects.
  - intros w' (? & ? & ? & Et). split; [done|]. split; [|split; [done|by rewrite Et]]. etrans; [exact O1|]. etrans; [apply (only_log f f)|done].
Qed.
Lemma out_pend f w w' q g : out_of_queues f w w' → is_pend q → (q, g) ∈ w'.(lk) → (q, g) ∈ w.(lk).
Proof.
  intros (Ho & Hf & _) Hq Hg. destruct (decide (g = f)) as [->|]; [by destruct (Hf _ Hg) as [-> | ->]|by apply (o_links _ _ _ Ho)].
Qed.
(** What packing frames of [fs] changes. *)
Definition packed (fs : list nat) (w w' : xw) : Prop :=
  within fs w w' ∧ w'.(tk) = w.(tk) ∧ ∀ q g, is_pend q → (q, g) ∈ w'.(lk) → (q, g) ∈ w.(lk).
Lemma packed_refl fs w : packed fs w w.
Proof. split; [apply within_refl|done]. Qed.
Lemma packed_cons f fs w w1 w' : only f w w1 → w1.(tk) = w.(tk) → (∀ q g, is_pend q → (q, g) ∈ w1.(lk) → (q, g) ∈ w.(lk)) →
  packed fs w1 w' → packed (f :: fs) w w'.
Proof.
  intros Ho Ht Hp (Hw & Ht' & Hp'). split; [|split; [congruence|auto]].
  apply (within_trans _ _ w1); [apply (only_within f); [done|left]|].
  destruct Hw as [A1 A2 A3]. split; [done| |]; intros; [apply A2|apply A3]; set_solver.
Qed.
Lemma agg_loop_spec H K qsel0 s a fs : ∀ g w, inv M H K [] w → a ≠ MGMT_IDX →
  NoDup fs → (∀ f, f ∈ fs → (Q_pend s a, f) ∈ w.(lk)) →
  rp (agg_loop e qsel0 s a fs g w) (λ r, inv M H K [] r.2 ∧ packed fs w r.2).
Proof.
  induction fs as [|f fs IH]; intros g w Hi Ha Hd Hf; simpl; [split; [done|apply packed_refl]|].
  rewrite NoDup_cons in Hd. destruct Hd as [Hd1 Hd2]. assert ((Q_pend s a, f) ∈ lk w) as Hl by (apply Hf; left).
  destruct (negb _); simpl; [split; [done|apply packed_refl]|].
  set (w1 := upd_fr f (set_agg 0 0) w). pose proof (inv_set_agg _ _ _ _ _ _ 0 0 Hi Hl : inv M H K [] w1) as I1.
  destruct (MAX_XMITBUF_SZ <? _); simpl.
  { split; [by apply (inv_set_agg _ _ _ w1 (Q_pend s a))|].
    apply (packed_cons _ _ _ (upd_fr f (set_agg 1 1) w1)); [etrans; apply only_upd_fr|done|done|apply packed_refl]. }
  destruct (pend_take _ _ _ w1 s a f I1 Hl) as [I2 O2]. set (w2 := add_accnt _ _ _) in *.
  assert (may_go w2 f) as G2.
  { pose proof (i_facts _ _ _ _ _ I1 _ _ Hl) as [[Hp _] Hx]. rewrite decide_False in Hx by done.
    apply (may_go_only w1); [apply O2|done|]. intros s' E Hs. unfold frame_attrib in E. rewrite E in Hp. injection Hp as ->. by apply Hx. }
  assert (∀ w', out_of_queues f w2 w' → only f w w' ∧ tk w' = tk w ∧ (∀ q g, is_pend q → (q, g) ∈ lk w' → (q, g) ∈ lk w)) as Hout.
  { intros w' Ho. split; [|split].
    - etrans; [apply (only_upd_fr f (set_agg 0 0))|]. etrans; [exact O2|apply Ho].
    - by destruct Ho as (_ & _ & ->).
    - intros q h Hq Hh. apply (out_pend _ _ _ _ _ Ho Hq) in Hh. by apply elem_of_delete in Hh as [? _]. }
  assert (∀ g' w', inv M H K [] w' → out_of_queues f w2 w' →
    rp (agg_loop e qsel0 s a fs g' w') (λ r, inv M H K [] r.2 ∧ packed (f :: fs) w r.2)) as Hrest.
  { intros g' w' I' Ho. destruct (Hout _ Ho) as (A1 & A2 & A3). eapply rp_mono; [apply IH; [done|done|done|]|].
    - intros h Hh. apply (o_links _ _ _ A1); [by intros ->|]. apply Hf. by right.
    - intros r [? ?]. split; [done|]. by eapply packed_cons. }
  destruct (coalesce e f) as [n|]; apply rp_bind.
  - eapply rp_mono; [by apply (coalesced_out H K [] w2 f n)|]. intros w' [I' Ho]. destruct (Hout _ Ho) as (A1 & A2 & A3).
    assert (∀ g', rp (Ret (g', w')) (λ r : agg * xw, inv M H K [] r.2 ∧ packed (f :: fs) w r.2)) as Hstop.
    { intros g'. split; [done|]. eapply packed_cons; [done..|apply packed_refl]. }
    destruct (_ =? MAX_TX_AGG_PACKET_NUMBER_8822B); [apply Hstop|]. destruct (agg_count _ _) as [full g']. destruct full; [apply Hstop|by apply Hrest].
  - eapply rp_mono; [by apply (free_out H K [] w2 f)|]. intros w' [I' Ho]. by apply Hrest.
Qed.

Lemma aggregate_spec H K w f : inv M (f :: H) K [] w → (frame_attrib w f).(psta) ≠ None →
  rp (aggregate e f w) (λ r, inv M (f :: H) K [] r.2 ∧ keeps w r.2 ∧ r.2.(fr) f = w.(fr) f ∧
    ∀ q g, is_pend q → (q, g) ∈ r.2.(lk) → (q, g) ∈ w.(lk)).
Proof.
  intros Hi Hp. unfold aggregate. destruct (agg_count _ _) as [full g].
  destruct full; [simpl; by split_and!; try reflexivity|].
  destruct (psta (frame_attrib w f)) as [s|] eqn:Ep; [|by destruct Hp]. set (a := rtw_get_sta_pending _). apply rp_bind.
  assert (f ∉ queue (lk w) (Q_pend s a)) as Hf.
  { intros ?%elem_of_queue. by eapply not_linked. }
  eapply rp_mono; [apply agg_loop_spec; [exact Hi|apply data_ac|by eapply queue_NoDup, inv_nodup_lk|by intros h ?%elem_of_queue]|].
  intros [g' w'] (I' & W' & T' & P'). simpl in *. pose proof (in_keeps _ _ _ W') as Hk. pose proof (in_fr _ _ _ W' _ Hf) as Ef.
  assert (∀ t, keeps w (set_tk t w')) as Hk' by (intros; destruct Hk; by split).
  case_decide as Eq; [simpl; split; [by apply inv_node_delete|done]|]. destruct (_ <=? _)%nat; [done|].
  rewrite insert_fresh by apply delete_gone. simpl. split; [by apply inv_node_move|done].
Qed.

Lemma taken_may_go H K O w s a f w' : inv M H K O w → taken w s a f w' → a ≠ MGMT_IDX → may_go w' f.
Proof.
  intros Hi Ht Ha. pose proof (taken_facts _ _ _ _ _ _ _ _ Hi Ht) as [[Hp _] Hx]. rewrite decide_False in Hx by done.
  intros s' E Hs. unfold frame_attrib in E. rewrite Hp in E. injection E as <-. by apply Hx.
Qed.
Lemma taken_pend H K O w s a f w' w'' : inv M H K O w → taken w s a f w' →
  NoDup w''.(lk).*2 → (∀ q g, is_pend q → (q, g) ∈ w''.(lk) → (q, g) ∈ w'.(lk)) → (pend w'' < pend w)%nat.
Proof.
  intros Hi ((r & Eq) & Ho & El & _) Hd Hs. assert ((Q_pend s a, f) ∈ lk w) as Hf by (rewrite <- elem_of_queue, Eq; left).
  apply (pend_less w w'' (Q_pend s a) f); [done| |done|done|].
  - intros q g Hq Hg. apply Hs in Hg; [|done]. rewrite El in Hg. by apply elem_of_delete in Hg as [? _].
  - intros Hg. apply Hs in Hg; [|done]. rewrite El in Hg. by apply elem_of_delete in Hg as [_ []].
Qed.
Lemma inx_data : (wifi_spec e = true → Forall (λ a, a ≠ MGMT_IDX) e.(wmm_para_seq)) →
  ∀ a, a ∈ take (HWXMIT_ENTRY - 1) (if wifi_spec e then wmm_para_seq e else [0; 1; 2; 3]%nat) → a ≠ MGMT_IDX.
Proof.
  intros Hw a Ha. destruct (wifi_spec e).
  - specialize (Hw eq_refl). rewrite Forall_forall in Hw. apply Hw. eapply elem_of_take in Ha as (i & ? & _). by eapply list_elem_of_lookup_2.
  - intros ->. simpl in Ha. set_solver.
Qed.
Context (Hwmm : wifi_spec e = true → Forall (λ a, a ≠ MGMT_IDX) e.(wmm_para_seq)).
(** The categories [rtw_dequeue_xframe] goes through. *)
Definition inx : list nat := take (HWXMIT_ENTRY - 1) (if wifi_spec e then wmm_para_seq e else [0; 1; 2; 3]%nat).
(** No frame waits, or there is no buffer to send one with. *)
Definition served (w : xw) : Prop :=
  queue w.(bk) B_free = [] ∨ ∀ s a, a = MGMT_IDX ∨ a ∈ inx → queue w.(lk) (Q_pend s a) = [].
Lemma pend_empty w w' s a : (∀ q g, is_pend q → (q, g) ∈ w'.(lk) → (q, g) ∈ w.(lk)) →
  queue w.(lk) (Q_pend s a) = [] → queue w'.(lk) (Q_pend s a) = [].
Proof.
  intros Hs E. destruct (queue w'.(lk) (Q_pend s a)) as [|g r] eqn:Eq; [done|]. exfalso.
  assert (g ∈ queue w'.(lk) (Q_pend s a)) as Hg%elem_of_queue by (rewrite Eq; left). apply (Hs (Q_pend s a) g I), elem_of_queue in Hg. rewrite E in Hg. set_solver.
Qed.
Lemma pick_first_spec fuel b H K : ∀ w, inv M H K [] w → (pend w < fuel)%nat →
  rp (pick_first e fuel b w) (λ r,
    match r.1 with
    | None => inv M H K [] r.2 ∧ keeps w r.2 ∧ (∀ q g, is_pend q → (q, g) ∈ r.2.(lk) → (q, g) ∈ w.(lk)) ∧
        ∀ s a, a ∈ inx → queue r.2.(lk) (Q_pend s a) = []
    | Some f => inv M (f :: H) K [] r.2 ∧ keeps w r.2 ∧ (frame_attrib r.2 f).(psta) ≠ None ∧ may_go r.2 f ∧
        (∀ q g, is_pend q → (q, g) ∈ r.2.(lk) → (q, g) ∈ w.(lk)) ∧ ∃ q, is_pend q ∧ (q, f) ∈ w.(lk)
    end).
Proof.
  induction fuel as [|fuel IH]; intros w Hi Hp; [lia|]. simpl. pose proof (dequeue_acs_spec H K []
    (take (HWXMIT_ENTRY - 1) (if wifi_spec e then wmm_para_seq e else [0; 1; 2; 3]%nat)) w Hi) as Hd.
  unfold rtw_dequeue_xframe. destruct (dequeue_acs _ w) as [[f|] w1].
  - destruct Hd as (s & a & Ha & Ht & I1). pose proof (taken_may_go _ _ _ _ _ _ _ _ Hi Ht (inx_data Hwmm a Ha)) as G1.
    pose proof (taken_facts _ _ _ _ _ _ _ _ Hi Ht) as [[Hpsta _] _]. pose proof Ht as ((r & Eq) & O1 & L1 & _).
    set (w2 := upd_fr f (λ x, set_agg 1 1 (set_xbuf (Some b) x)) w1).
    assert (inv M (f :: H) K [] w2) as I2 by by apply (inv_fr_hand _ K).
    assert (only f w1 w2) as O2 by apply only_upd_fr.
    assert (frame_attrib w2 f = frame_attrib w1 f) as A2 by (unfold frame_attrib, w2; cbn; by rewrite upd_eq).
    assert (may_go w2 f) as G2 by (apply (may_go_attrib w1); [apply O2|by rewrite A2..|done]).
    assert (∀ q g, is_pend q → (q, g) ∈ lk w1 → (q, g) ∈ lk w) as Hsub by (intros q g _; rewrite L1; by intros [? _]%elem_of_delete).
    destruct (coalesce e f) as [n|].
    + destruct (coalesced_spec _ _ _ w2 f n I2 G2) as (I3 & O3 & G3 & _ & A3 & L3). fold (coalesced f n w2). simpl.
      assert (keeps w (coalesced f n w2)) as K3. { etrans; [apply O1|]. etrans; [apply O2|apply O3]. }
      split_and!; try done.
      * unfold frame_attrib. rewrite A3. fold (frame_attrib w2 f). rewrite A2. unfold frame_attrib. cbn. by rewrite Hpsta.
      * intros q g Hq Hg. apply (Hsub q g Hq). assert (lk (coalesced f n w2) = lk w1) as <- by done. exact Hg.
      * exists (Q_pend s a). split; [done|]. rewrite <- elem_of_queue, Eq. left.
    + apply rp_bind. eapply rp_mono; [apply (free_out H K [] w2 f I2)|]. intros w3 (I3 & Ho).
      assert (∀ q g, is_pend q → (q, g) ∈ lk w3 → (q, g) ∈ lk w1) as Hsub3.
      { intros q g Hq Hg. exact (out_pend _ _ _ _ _ Ho Hq Hg). }
      assert (pend w3 < pend w)%nat as Hlt by (eapply taken_pend; [exact Hi|exact Ht|by eapply inv_nodup_lk|exact Hsub3]).
      assert (keeps w w3) as K3. { etrans; [apply O1|]. etrans; [apply O2|apply Ho]. }
      eapply rp_mono; [apply (IH w3 I3); lia|]. intros [[f'|] w4]; simpl.
      * intros (? & ? & ? & ? & ? & (q & Hq & ?)). split_and!; try done; [by etrans|auto|]. exists q. eauto.
      * intros (? & ? & ? & ?). split_and!; [done|by etrans|auto|done].
  - destruct Hd as [-> Hd]. apply rp_bind. eapply rp_mono; [apply aside_free_xmitbuf|]. intros w1 Ha. simpl.
    split_and!; [by apply (inv_aside _ _ _ _ w)|by apply keeps_aside| |]; rewrite (a_lk _ _ Ha); auto.
Qed.

Lemma out_only_pend f w w' q g : only f w w' → freed f w' → is_pend q → (q, g) ∈ w'.(lk) → (q, g) ∈ w.(lk).
Proof.
  intros Ho Hf Hq Hg. destruct (decide (g = f)) as [->|]; [by destruct (Hf _ Hg) as [-> | ->]|by apply (o_links _ _ _ Ho)].
Qed.
(** The first frame of the buffer, with the frames packed behind it, goes out. *)
Lemma first_out H K w f b g : inv M (f :: H) K [] w → may_go w f →
  rp (let* (_, w) := usb_write_port e b (log_air f (upd_fr f (first_txdesc e g) w)) in rtw_free_xmitframe f w)
    (λ w', inv M H K [] w' ∧ only f w w' ∧ freed f w').
Proof.
  intros Hi Hg. set (w1 := upd_fr f (first_txdesc e g) w).
  assert (inv M (f :: H) K [] w1) as I1 by by apply (inv_fr_hand _ K).
  assert (may_go w1 f) as G1.
  { apply (may_go_attrib w); try done; unfold frame_attrib, w1; cbn; by rewrite upd_eq. }
  apply rp_bind. eapply rp_mono; [apply write_port_aside|]. intros [ok w2] Ha. simpl in *.
  eapply rp_mono; [apply (free_frame_spec H K [] w2 f), (inv_aside _ _ _ _ (log_air f w1)); [|done]|].
  - apply inv_log; [done|]. intros Hma _. by apply may_go_respects.
  - intros w' (? & ? & ?). split; [done|]. split; [|done]. etrans; [apply (only_upd_fr f (first_txdesc e g))|].
    etrans; [apply (only_log f f)|]. etrans; [by apply only_aside|done].
Qed.
Lemma complete_tx_spec H K w : inv M H K [] w →
  rp (rtl8822bu_xmitframe_complete e w) (λ r, inv M H K [] r.2 ∧ keeps w r.2 ∧ (r.1.1 = true → (pend r.2 < pend w)%nat) ∧ (r.1.1 = false → served r.2)).
Proof.
  intros Hi. unfold rtl8822bu_xmitframe_complete. pose proof (dequeue_mgmt_spec H K [] w Hi) as Hd.
  destruct (rtw_dequeue_mgmt_xframe w) as [[f|] w1].
  - destruct Hd as (s & Ht & I1). pose proof (taken_facts _ _ _ _ _ _ _ _ Hi Ht) as [_ Hx]. rewrite decide_True in Hx by done.
    destruct Hx as (_ & _ & Hb & He). apply rp_bind. eapply rp_mono; [apply (dump_spec H K [] w1 f I1 Hb); intros; lia|].
    intros w2 (I2 & O2 & F2). simpl. split; [done|]. split; [etrans; [apply Ht|apply O2]|]. split; [|done]. intros _.
    eapply taken_pend; [exact Hi|exact Ht|by eapply inv_nodup_lk|]. intros q g. by apply (out_only_pend f).
  - destruct Hd as [-> Hm0]. pose proof (aside_alloc_xmitbuf w) as Ha. destruct (rtw_alloc_xmitbuf w) as [[b|] w1] eqn:Eb; simpl in Ha.
    2: { split_and!; [done|done|done|]. intros _. left. unfold rtw_alloc_xmitbuf in Eb. destruct (queue (bk w) B_free) eqn:Ef; by simplify_eq. }
    pose proof (inv_aside _ _ _ _ _ _ Hi Ha) as I1. apply rp_bind. eapply rp_mono; [apply (pick_first_spec _ b H K w1 I1)|].
    { unfold pend. pose proof (length_filter (λ x : qid * nat, is_pend x.1) (lk w1)). lia. }
    intros [[f|] w2]; cbn [fst snd].
    + intros (I2 & K2 & Hp & G2 & P2 & (q & Hq & Hl)). apply rp_bind. eapply rp_mono; [by apply (aggregate_spec H K w2 f I2)|].
      intros [g w3] (I3 & K3 & F3 & P3). simpl in *.
      pose proof (first_out H K w3 f b g I3 (may_go_only _ _ _ K3 F3 G2)) as Hf. destruct (usb_write_port _ _ _) as [[ok w4]| |]; simpl in *; try done.
      apply rp_bind. eapply rp_mono; [exact Hf|]. intros w5 (I5 & O5 & F5). simpl. split; [done|].
      split; [etrans; [by apply keeps_aside|]; etrans; [exact K2|]; etrans; [exact K3|apply O5]|]. split; [|done]. intros _.
      assert (∀ q g, is_pend q → (q, g) ∈ lk w5 → (q, g) ∈ lk w2) as P5.
      { intros q' h Hq' Hh. apply P3, (out_only_pend f _ w5); done. }
      apply (pend_less w w5 q f); [by eapply inv_nodup_lk| |done|by rewrite <- (a_lk _ _ Ha)|].
      * intros q' h Hq' Hh. rewrite <- (a_lk _ _ Ha). apply P2; auto.
      * intros Hh. eapply (not_linked _ _ _ w2 f q I2). by apply P5.
    + intros (? & ? & P2 & E2). split_and!; [done|etrans; [by apply keeps_aside|done]|done|]. intros _. right.
      intros s a [-> |Hin]; [|by apply E2]. apply (pend_empty w1); [done|]. by rewrite (a_lk _ _ Ha).
Qed.
Lemma tasklet_loop_spec H K fuel : ∀ w, inv M H K [] w → (pend w < fuel)%nat →
  rp (xmit_tasklet e fuel w) (λ w', inv M H K [] w' ∧ keeps w w' ∧ (e.(cannot_tx) || e.(ac_blocked) = false → served w')).
Proof.
  induction fuel as [|fuel IH]; intros w Hi Hp; [lia|]. simpl. destruct (_ || _) eqn:Eb; [by split_and!|].
  apply rp_bind. eapply rp_mono; [by apply complete_tx_spec|]. intros [[go l] w1] (I1 & K1 & Hlt & Hend). simpl in *.
  destruct go; [|by split_and!; auto]. eapply rp_mono; [apply IH; [done|]; specialize (Hlt eq_refl); lia|].
  intros w2 (? & ? & Hs). split_and!; [done|by etrans|intros _; by apply Hs].
Qed.
Lemma tasklet_spec H K w : inv M H K [] w →
  rp (rtl8822bu_xmit_tasklet e w) (λ w', inv M H K [] w' ∧ keeps w w' ∧ (e.(cannot_tx) || e.(ac_blocked) = false → served w')).
Proof.
  intros Hi. apply tasklet_loop_spec; [done|]. unfold pend. pose proof (length_filter (λ x : qid * nat, is_pend x.1) (lk w)). lia.
Qed.
End Ops.
