(* ===== verification/XmitQueuePs.v ===== *)
(** * Power saving keeps the invariant of the transmit queues *)
From S2P Require Import Prelude.
From stdpp Require Import list gmap.
From S2P Require Import StaTable WepTkip XmitAttrib RxValidate XmitQueue XmitQueueInv XmitQueueOps.
Local Open Scope Z_scope.
#[local] Opaque NR_FRAMES NR_XMITFRAME NR_XMIT_EXTBUFF.

(** ** Bitmaps *)
Lemma bit_is_zero b j : 0 ≤ j → (b .& BIT j =? 0) = negb (Z.testbit b j).
Proof. intros Hj. unfold BIT. by rewrite Z.shiftl_1_l, land_bit_eqb. Qed.
Lemma u8_split id id' : u8 id / 8 = u8 id' / 8 → u8 id mod 8 = u8 id' mod 8 → u8 id = u8 id'.
Proof. intros. pose proof (Z.div_mod (u8 id) 8). pose proof (Z.div_mod (u8 id') 8). lia. Qed.
Lemma u8_parts id : 0 ≤ u8 id / 8 ∧ 0 ≤ u8 id mod 8 < 8.
Proof. pose proof (u8_uint id) as [? ?]. split; [by apply Z.div_pos|by apply Z.mod_pos_bound]. Qed.

Lemma bmp_is_set_spec bmp id : rtw_bmp_is_set bmp id = Z.testbit (bmp.[Z.to_nat (u8 id / 8)]) (u8 id mod 8) && (Z.to_nat (u8 id / 8) <? length bmp)%nat.
Proof.
  unfold rtw_bmp_is_set. destruct (u8_parts id) as [_ [? _]]. rewrite bit_is_zero, negb_involutive by done.
  destruct (Nat.leb_spec (length bmp) (Z.to_nat (u8 id / 8))), (Nat.ltb_spec (Z.to_nat (u8 id / 8)) (length bmp)); try lia;
    by rewrite ?andb_false_r, ?andb_true_r.
Qed.
Lemma bmp_set_spec bmp id id' :
  rtw_bmp_is_set (rtw_bmp_set bmp id) id' =
  rtw_bmp_is_set bmp id' || (bool_decide (u8 id = u8 id') && (Z.to_nat (u8 id / 8) <? length bmp)%nat).
Proof.
  rewrite !bmp_is_set_spec. unfold rtw_bmp_set. destruct (u8_parts id) as [? [? _]], (u8_parts id') as [? [? _]].
  destruct (Nat.ltb_spec (Z.to_nat (u8 id / 8)) (length bmp)) as [Hl|Hl]; [|by rewrite andb_false_r, orb_false_r].
  rewrite length_insert, andb_true_r. destruct (decide (Z.to_nat (u8 id / 8) = Z.to_nat (u8 id' / 8))) as [E|Hne].
  - rewrite <- E, aget_insert_eq by done. destruct (Nat.ltb_spec (Z.to_nat (u8 id / 8)) (length bmp)); [|lia]. rewrite !andb_true_r.
    unfold BIT. rewrite Z.shiftl_1_l, Z.lor_spec, Z.pow2_bits_eqb by done. f_equal.
    destruct (Z.eqb_spec (u8 id mod 8) (u8 id' mod 8)); case_bool_decide as Hid; try done; [|congruence].
    destruct Hid. apply u8_split; [lia|done].
  - rewrite aget_insert_ne by done. rewrite bool_decide_eq_false_2 by congruence. by rewrite orb_false_r.
Qed.
Lemma bmp_clear_sub bmp id id' : rtw_bmp_is_set (rtw_bmp_clear bmp id) id' = true → rtw_bmp_is_set bmp id' = true.
Proof.
  rewrite !bmp_is_set_spec. unfold rtw_bmp_clear. destruct (Nat.ltb_spec (Z.to_nat (u8 id / 8)) (length bmp)) as [Hl|Hl]; [|done].
  rewrite length_insert. destruct (decide (Z.to_nat (u8 id / 8) = Z.to_nat (u8 id' / 8))) as [E|Hne].
  - rewrite <- E, aget_insert_eq by done. rewrite Z.land_spec, !andb_true_iff. tauto.
  - by rewrite aget_insert_ne.
Qed.
Lemma bmp_not_empty_spec bmp : rtw_bmp_not_empty bmp = true ↔ ∃ i, bmp.[i] ≠ 0.
Proof.
  unfold rtw_bmp_not_empty. rewrite existsb_exists. split.
  - intros (b & Hb & Hz). rewrite <- list_elem_of_In in Hb. apply list_elem_of_lookup_1 in Hb as (i & Hi). exists i.
    rewrite (aget_lookup _ _ _ Hi). by destruct (Z.eqb_spec b 0).
  - intros (i & Hi). destruct (decide (i < length bmp)%nat); [|rewrite aget_default in Hi by lia; done].
    exists (bmp.[i]). rewrite <- list_elem_of_In. split; [by eapply list_elem_of_lookup_2, lookup_aget|]. by destruct (Z.eqb_spec (bmp.[i]) 0).
Qed.
Lemma bmp_set_not_empty bmp id : (Z.to_nat (u8 id / 8) < length bmp)%nat → rtw_bmp_not_empty (rtw_bmp_set bmp id) = true.
Proof.
  intros Hl. apply bmp_not_empty_spec. exists (Z.to_nat (u8 id / 8)). unfold rtw_bmp_set.
  destruct (Nat.ltb_spec (Z.to_nat (u8 id / 8)) (length bmp)); [|lia]. rewrite aget_insert_eq by done.
  destruct (u8_parts id) as [_ [? _]]. unfold BIT. rewrite Z.shiftl_1_l. intros E%Z.lor_eq_0_iff. destruct E as [_ E].
  by apply Z.pow_nonzero in E.
Qed.
Lemma bmp_clear_not_empty bmp id : rtw_bmp_not_empty (rtw_bmp_clear bmp id) = true → rtw_bmp_not_empty bmp = true.
Proof.
  rewrite !bmp_not_empty_spec. intros (i & Hi). exists i. intros E. apply Hi. unfold rtw_bmp_clear.
  destruct (Nat.ltb_spec (Z.to_nat (u8 id / 8)) (length bmp)); [|done].
  destruct (decide (Z.to_nat (u8 id / 8) = i)) as [<-|]; [by rewrite aget_insert_eq, E by done|by rewrite aget_insert_ne].
Qed.
Lemma bmp_set_keeps bmp id : rtw_bmp_not_empty bmp = true → rtw_bmp_not_empty (rtw_bmp_set bmp id) = true.
Proof.
  intros Hn. destruct (decide (Z.to_nat (u8 id / 8) < length bmp)%nat); [by apply bmp_set_not_empty|].
  unfold rtw_bmp_set. by destruct (Nat.ltb_spec (Z.to_nat (u8 id / 8)) (length bmp)).
Qed.

(** ** Buffering a frame *)

(** Buffering for a group sets the bit 0 of the bitmap of dozing stations, when it
    is not empty. *)
Record drifts (w w' : xw) : Prop := {
  d_tbl : w'.(tbl) = w.(tbl);
  d_asoc : w'.(asoc_list) = w.(asoc_list);
  d_stat s : stat (w'.(st) s) = stat (w.(st) s);
  d_len : length w'.(sta_dz_bitmap) = length w.(sta_dz_bitmap);
  d_set id : rtw_bmp_is_set w.(sta_dz_bitmap) id = true → rtw_bmp_is_set w'.(sta_dz_bitmap) id = true;
  d_back id : u8 id ≠ 0 → rtw_bmp_is_set w'.(sta_dz_bitmap) id = true → rtw_bmp_is_set w.(sta_dz_bitmap) id = true;
  d_any : rtw_bmp_not_empty w'.(sta_dz_bitmap) = rtw_bmp_not_empty w.(sta_dz_bitmap)
}.
Record moves (f : nat) (w w' : xw) : Prop := {
  m_drifts : drifts w w';
  m_links q g : g ≠ f → (q, g) ∈ w'.(lk) ↔ (q, g) ∈ w.(lk);
  m_fr g : g ≠ f → w'.(fr) g = w.(fr) g
}.
#[global] Instance drifts_refl : Reflexive drifts.
Proof. by split. Qed.
#[global] Instance drifts_trans : Transitive drifts.
Proof.
  intros x y z [A1 A2 A3 A4 A5 A6 A7] [B1 B2 B3 B4 B5 B6 B7]. split; congruence || auto.
Qed.
#[global] Instance moves_trans f : Transitive (moves f).
Proof.
  intros x y z [A1 A2 A3] [B1 B2 B3]. split; [by etrans| |]; intros; [rewrite B2, A2 by done; done|rewrite B3, A3 by done; done].
Qed.
Lemma keeps_drifts w w' : keeps w w' → drifts w w'.
Proof. intros [A1 A2 A3 A4]. split; rewrite ?A4; done. Qed.
Lemma only_moves f w w' : only f w w' → moves f w w'.
Proof. intros [A1 A2 A3]. split; [by apply keeps_drifts|done|done]. Qed.
Lemma drifts_state w w' s b : drifts w w' → has_state w' s b = has_state w s b.
Proof. intros Hd. unfold has_state. by destruct (stat_state _ _ (d_stat _ _ Hd s)) as [-> _]. Qed.
Lemma drifts_aid w w' s : drifts w w' → aid_of w' s = aid_of w s.
Proof. intros Hd. unfold aid_of. by destruct (stat_state _ _ (d_stat _ _ Hd s)) as [_ ->]. Qed.

(** What the station table says. *)
Record sinv (w : xw) : Prop := {
  si_mac a s : w.(tbl) !! a = Some s → canon (w.(st) s).(s_mac) = a;
  si_asoc a s : w.(tbl) !! a = Some s → has_state w s WIFI_ASOC_STATE = true;
  si_len a s : w.(tbl) !! a = Some s → (Z.to_nat (u8 (aid_of w s) / 8) < length w.(sta_dz_bitmap))%nat
}.
(** The association identifiers, for a mode that watches power saving. *)
Record ainv (w : xw) : Prop := {
  ai_range a s : w.(tbl) !! a = Some s → a ≠ bc_addr → 1 ≤ aid_of w s ≤ 255;
  ai_inj a a' s s' : w.(tbl) !! a = Some s → w.(tbl) !! a' = Some s' → aid_of w s = aid_of w s' → s = s'
}.
Lemma stat_mac p p' : stat p = stat p' → p.(s_mac) = p'.(s_mac).
Proof. unfold stat. by intros [= ]. Qed.
Lemma sinv_drifts w w' : sinv w → drifts w w' → sinv w'.
Proof.
  intros [A B C] Hd. split; intros a s; rewrite (d_tbl _ _ Hd).
  - rewrite (stat_mac _ _ (d_stat _ _ Hd s)). apply A.
  - rewrite (drifts_state _ _ _ _ Hd). apply B.
  - rewrite (drifts_aid _ _ _ Hd), (d_len _ _ Hd). apply C.
Qed.
Lemma ainv_drifts w w' : ainv w → drifts w w' → ainv w'.
Proof.
  intros [A C] Hd. split; intros a s; rewrite ?(d_tbl _ _ Hd), ?(drifts_aid _ _ _ Hd); [apply A|].
  intros s1 s2. rewrite !(drifts_aid _ _ _ Hd). apply C.
Qed.
Lemma canon_bc ra : canon ra = bc_addr ↔ IS_MCAST ra = true.
Proof. unfold canon. destruct (IS_MCAST ra) eqn:E; [done|]. split; [|done]. intros ->. by vm_compute in E. Qed.
Lemma u8_aid z : 0 ≤ z ≤ 255 → u8 z = z.
Proof. intros. apply u8_id. split; lia. Qed.

Section Ps.
Context (M : mode) (e : env).
Implicit Types (H K : list nat) (O : list (qid * Z)) (w : xw).
(** The mode watches power saving only where identifiers are in order. *)
Definition watched (w : xw) : Prop := (∀ s, M.(m_strict) s = false) ∨ ainv w.
Lemma watched_drifts w w' : watched w → drifts w w' → watched w'.
Proof. intros [?|?] Hd; [by left|right]. by eapply ainv_drifts. Qed.

Lemma drifts_calm w w' : w.(tbl) = M.(m_tbl) → watched w → drifts w w' → calm M w w'.
Proof.
  intros Ht [Hs|Ha] Hd a s Ep Et Em; [by rewrite Hs in Em|]. unfold asleep. rewrite Ep, (d_any _ _ Hd).
  destruct (IS_MCAST (ra a)) eqn:Emc; [done|]. rewrite (drifts_state _ _ _ _ Hd), (drifts_aid _ _ _ Hd), !andb_true_iff.
  intros [? Hb]. split; [done|]. apply (d_back _ _ Hd); [|done]. rewrite <- Ht in Et.
  assert (1 ≤ aid_of w s ≤ 255); [|rewrite u8_aid; lia]. eapply ai_range; [done|done|]. rewrite canon_bc. congruence.
Qed.

Lemma sleep_len H K O w s : inv M H K O w → off O (Q_sleep s) = 0 → 0 ≤ (w.(st) s).(sleepq_len) ≤ 288 ∧
  (w.(st) s).(sleepq_len) = Z.of_nat (length (queue w.(lk) (Q_sleep s))).
Proof.
  intros Hi Ho. pose proof (i_cnt _ _ _ _ _ Hi (Q_sleep s) I) as Hc. simpl in Hc. pose proof (inv_length _ _ _ _ _ (Q_sleep s) Hi). lia.
Qed.
Lemma mgmt_sleep_len H K O w s : inv M H K O w → off O (Q_mgmt_sleep s) = 0 → 0 ≤ (w.(st) s).(mgmt_sleepq_len) ≤ 288 ∧
  (w.(st) s).(mgmt_sleepq_len) = Z.of_nat (length (queue w.(lk) (Q_mgmt_sleep s))).
Proof.
  intros Hi Ho. pose proof (i_cnt _ _ _ _ _ Hi (Q_mgmt_sleep s) I) as Hc. simpl in Hc. pose proof (inv_length _ _ _ _ _ (Q_mgmt_sleep s) Hi). lia.
Qed.
Lemma to_sleep_spec H K O w s f : inv M (f :: H) K O w → off O (Q_sleep s) = 0 → to_sta M (w.(fr) f) s →
  rp (to_sleep_q s f w) (λ w', inv M H K O w' ∧ only f w w' ∧ w'.(lk) = w.(lk) ++ [(Q_sleep s, f)] ∧ w'.(fr) = w.(fr)).
Proof.
  intros Hi Ho Hf. unfold to_sleep_q. rewrite (inv_delete_hand _ _ _ _ _ _ Hi).
  destruct (sleep_len _ _ _ _ _ Hi Ho) as [Hl _].
  destruct (inv_insert M H K O w (Q_sleep s) f Hi Hf ltac:(done)) as [-> Hi']. simpl. split; [|split; [|done]].
  - eapply inv_off; [apply inv_sleep_cnt; [exact Hi'|]|off_solve..]. cbn [set_lk st]. lia.
  - etrans; [apply (only_insert f (Q_sleep s))|]. by apply only_st.
Qed.
Lemma inv_drift H K O w t d : inv M H K O w → w.(tbl) = M.(m_tbl) → watched w → drifts w (set_maps t d w) →
  inv M H K O (set_maps t d w).
Proof. intros Hi Ht Hw Hd. apply (inv_same M H K O w); try done. by apply drifts_calm. Qed.
Lemma drifts_bmc w t : rtw_bmp_not_empty w.(sta_dz_bitmap) = true → drifts w (set_maps t (rtw_bmp_set w.(sta_dz_bitmap) 0) w).
Proof.
  intros Hn. split; try done; cbn [set_maps sta_dz_bitmap].
  - unfold rtw_bmp_set. destruct (_ <? _)%nat; [by rewrite length_insert|done].
  - intros id Hid. by rewrite bmp_set_spec, Hid.
  - intros id Hid. rewrite bmp_set_spec. by rewrite bool_decide_eq_false_2, orb_false_r.
  - rewrite Hn. by apply bmp_set_keeps.
Qed.

(** What makes the driver buffer a frame. *)
Definition must_buffer (w : xw) (f : nat) : bool :=
  match sta_of_frame w f with
  | Some _ => negb ((frame_attrib w f).(triggered) =? 1) && asleep w (frame_attrib w f)
  | None => false
  end.
Lemma buffer_spec H K O w f : inv M (f :: H) K O w → w.(tbl) = M.(m_tbl) → watched w →
  (∀ s, off O (Q_sleep s) = 0) → e.(is_ap) = true → must_buffer w f = true →
  rp (xmitframe_enqueue_for_sleeping_sta e f w) (λ r, r.1 = true ∧ inv M H K O r.2 ∧ moves f w r.2 ∧ r.2.(fr) = w.(fr) ∧
    ∃ s, sta_of_frame w f = Some s ∧ r.2.(lk) = w.(lk) ++ [(Q_sleep s, f)]).
Proof.
  intros Hi Ht Hw Ho Hap. unfold xmitframe_enqueue_for_sleeping_sta, must_buffer. rewrite Hap. simpl negb. cbv iota.
  destruct (sta_of_frame w f) as [s|] eqn:Es; [|done]. apply sta_of_frame_spec in Es as (E1 & E2 & E3).
  rewrite andb_true_iff, negb_true_iff. intros [-> Ha]. unfold asleep in Ha. rewrite E2 in Ha.
  assert (to_sta M (fr w f) s) as Hts by (split; [done|by rewrite <- Ht]).
  pose proof (to_sleep_spec H K O w s f Hi (Ho s) Hts) as Hs.
  destruct (IS_MCAST (ra (frame_attrib w f))).
  - rewrite Ha. apply rp_bind. eapply rp_mono; [exact Hs|]. intros w1 (I1 & O1 & L1 & F1). simpl.
    assert (drifts w1 (set_maps (rtw_bmp_set (tim_bitmap w1) 0) (rtw_bmp_set (sta_dz_bitmap w1) 0) w1)) as D1.
    { apply drifts_bmc. by rewrite (k_dz _ _ (o_keeps _ _ _ O1)). }
    split; [done|]. split; [|split; [|split; [done|by exists s]]].
    + apply inv_drift; [done|by rewrite (k_tbl _ _ (o_keeps _ _ _ O1))| |done].
      by eapply watched_drifts, keeps_drifts, O1.
    + etrans; [by apply only_moves|]. by split.
  - rewrite Ha. apply rp_bind. eapply rp_mono; [exact Hs|]. intros w1 (I1 & O1 & L1 & F1). simpl.
    set (w2 := inc_ac_len _ s w1). assert (inv M H K O w2 ∧ only f w w2 ∧ lk w2 = lk w1 ∧ fr w2 = fr w1) as (I2 & O2 & L2 & F2).
    { unfold w2, inc_ac_len. destruct (wmmps_ac _ _ _); [|done]. split; [|split; [|done]].
      - apply inv_st_static; try done. apply calm_same. intros. by rewrite asleep_upd_st.
      - etrans; [exact O1|]. by apply only_st. }
    split; [done|]. split; [|split; [|split; [|exists s; split; [done|]]]]; destruct (xorb _ _); try done.
    + by apply (inv_aside _ _ _ _ w2).
    + apply only_moves. etrans; [exact O2|]. by apply only_same.
    + by apply only_moves.
    + cbn [set_tim set_maps fr]. congruence.
    + congruence.
    + cbn [set_tim set_maps lk]. congruence.
    + congruence.
Qed.
Lemma pass_spec H K O w f : inv M (f :: H) K O w → must_buffer w f = false →
  rp (xmitframe_enqueue_for_sleeping_sta e f w) (λ r, r.1 = false ∧ inv M (f :: H) K O r.2 ∧ only f w r.2 ∧ r.2.(lk) = w.(lk) ∧
    ∃ q, frame_attrib r.2 f = set_qsel q (frame_attrib w f)).
Proof.
  intros Hi Hb. unfold xmitframe_enqueue_for_sleeping_sta, must_buffer in *.
  assert (rp (Ret (false, w)) (λ r, r.1 = false ∧ inv M (f :: H) K O r.2 ∧ only f w r.2 ∧ r.2.(lk) = w.(lk) ∧
    ∃ q, frame_attrib r.2 f = set_qsel q (frame_attrib w f))) as Hno.
  { simpl. split_and!; try done. exists (qsel (frame_attrib w f)). by destruct (frame_attrib w f). }
  destruct (negb (is_ap e)); [exact Hno|]. destruct (sta_of_frame w f) as [s|] eqn:Es; [|exact Hno].
  apply sta_of_frame_spec in Es as (E1 & E2 & E3). unfold asleep in Hb. rewrite E2 in Hb.
  destruct (triggered (frame_attrib w f) =? 1); simpl in Hb.
  - destruct (_ && _); [|exact Hno]. simpl. split_and!; [done|by apply inv_attrib_hand|apply only_attrib|done|].
    exists QSLT_HIGH. unfold frame_attrib. cbn. by rewrite upd_eq.
  - destruct (IS_MCAST _); rewrite Hb; exact Hno.
Qed.

(** ** A station falls asleep *)
Definition unlink (f : nat) (w : xw) : xw := set_lk (list_delete f w.(lk)) w.
Lemma to_sleep_unlinked s f w : to_sleep_q s f (unlink f w) = to_sleep_q s f w.
Proof. unfold to_sleep_q, unlink. cbn [set_lk lk]. by rewrite (delete_fresh f (list_delete f (lk w))) by apply delete_gone. Qed.
Lemma buffer_unlinked f w w' : xmitframe_enqueue_for_sleeping_sta e f (unlink f w) = Ret (true, w') →
  xmitframe_enqueue_for_sleeping_sta e f w = Ret (true, w').
Proof.
  unfold xmitframe_enqueue_for_sleeping_sta.
  change (frame_attrib (unlink f w) f) with (frame_attrib w f). change (sta_of_frame (unlink f w) f) with (sta_of_frame w f).
  destruct (negb (is_ap e)); [done|]. destruct (sta_of_frame w f) as [s|]; [|done]. rewrite to_sleep_unlinked.
  destruct (_ =? 1); [done|]. destruct (IS_MCAST _).
  - change (sta_dz_bitmap (unlink f w)) with (sta_dz_bitmap w). by destruct (rtw_bmp_not_empty _).
  - change (has_state (unlink f w) s WIFI_SLEEP_STATE) with (has_state w s WIFI_SLEEP_STATE).
    change (sta_dz_bitmap (unlink f w)) with (sta_dz_bitmap w). change (aid_of (unlink f w) s) with (aid_of w s). by destruct (_ && _).
Qed.
(** The frames of a queue that wait for a station that sleeps now. *)
Definition sleeper (w : xw) (s : nat) : Prop :=
  ∃ a, w.(tbl) !! a = Some s ∧
    (a = bc_addr ∧ rtw_bmp_not_empty w.(sta_dz_bitmap) = true ∨
     a ≠ bc_addr ∧ has_state w s WIFI_SLEEP_STATE = true ∧ rtw_bmp_is_set w.(sta_dz_bitmap) (aid_of w s) = true).
Lemma sleeper_drifts w w' s : sleeper w s → drifts w w' → sleeper w' s.
Proof.
  intros (a & Ha & Hs) Hd. exists a. rewrite (d_tbl _ _ Hd), (d_any _ _ Hd), (drifts_state _ _ _ _ Hd), (drifts_aid _ _ _ Hd).
  split; [done|]. destruct Hs as [?|(? & ? & ?)]; [by left|right]. split_and!; [done|done|by apply (d_set _ _ Hd)].
Qed.
Lemma sleeper_buffers w f s : sinv w → sleeper w s →
  (frame_attrib w f).(psta) = Some s → w.(tbl) !! canon (frame_attrib w f).(ra) = Some s → (frame_attrib w f).(triggered) = 0 →
  must_buffer w f = true.
Proof.
  intros Hs (a & Ha & Hz) E1 E2 E3. unfold must_buffer, sta_of_frame, rtw_get_stainfo. rewrite E2, decide_True, (si_asoc _ Hs _ _ E2) by done.
  rewrite E3. simpl. unfold asleep. rewrite E1.
  assert (canon (ra (frame_attrib w f)) = a) as Ec by (by rewrite <- (si_mac _ Hs _ _ Ha), <- (si_mac _ Hs _ _ E2)).
  destruct (IS_MCAST (ra (frame_attrib w f))) eqn:Em.
  - apply canon_bc in Em. destruct Hz as [[_ ?]|[? _]]; [done|congruence].
  - destruct Hz as [[-> _]|(_ & -> & ->)]; [|done]. apply canon_bc in Ec. congruence.
Qed.
Lemma untrigger_spec H K w f s a : inv M H K [] w → (Q_pend s a, f) ∈ w.(lk) → M.(m_strict) s = false →
  inv M H K [] (untrigger f w) ∧ only f w (untrigger f w).
Proof.
  intros Hi Hl Hs. split; [|apply only_attrib]. apply (inv_pkt M H K K [] w f _ Hi); [by eapply inv_link|done| |done].
  intros q Hq. rewrite (queue_unique _ _ _ _ (inv_nodup_lk _ _ _ _ _ Hi) Hq Hl).
  pose proof (i_facts _ _ _ _ _ Hi _ _ Hl) as [Hx Hy]. split; [done|]. case_decide; [done|].
  destruct Hy. split; [done|]. by rewrite Hs.
Qed.
Definition leaves (f : nat) (w : xw) : Prop := ∀ q, (q, f) ∈ w.(lk) → ¬ is_pend q.
Definition shrinks (w w' : xw) : Prop := ∀ q g, is_pend q → (q, g) ∈ w'.(lk) → (q, g) ∈ w.(lk).
#[global] Instance shrinks_refl : Reflexive shrinks.
Proof. by intros w q g. Qed.
#[global] Instance shrinks_trans : Transitive shrinks.
Proof. intros x y z A B q g Hq Hg. auto. Qed.
(** A loop that moves the frames of a service queue away empties it. *)
Lemma pend_loop (P : xw → Prop) s a body w :
  NoDup w.(lk).*2 →
  (∀ f w', P w' → drifts w w' → (Q_pend s a, f) ∈ w'.(lk) → rp (body f w') (λ w'', P w'' ∧ moves f w' w'' ∧ leaves f w'')) →
  P w → rp (each (queue w.(lk) (Q_pend s a)) body w) (λ w', P w' ∧ drifts w w' ∧ queue w'.(lk) (Q_pend s a) = [] ∧ shrinks w w').
Proof.
  intros Hd Hb Hp. set (I := λ rest w', P w' ∧ drifts w w' ∧ shrinks w w' ∧ NoDup rest ∧ ∀ g, (Q_pend s a, g) ∈ w'.(lk) ↔ g ∈ rest).
  eapply rp_mono; [apply (each_rp I)|].
  - intros f r w1 (P1 & D1 & S1 & N1 & E1). rewrite NoDup_cons in N1. destruct N1 as [N1 N2].
    eapply rp_mono; [apply Hb; [done|done|apply E1; left]|]. intros w2 (P2 & M2 & L2). split; [done|]. split; [etrans; [done|apply M2]|].
    split; [|split; [done|]].
    + intros q g Hq Hg. apply S1; [done|]. destruct (decide (g = f)) as [->|]; [by destruct (L2 _ Hg)|by apply (m_links _ _ _ M2)].
    + intros g. destruct (decide (g = f)) as [->|Hne].
      * split; [intros Hg; by destruct (L2 _ Hg)|done].
      * rewrite (m_links _ _ _ M2), E1 by done. set_solver.
  - split_and!; [done|done|by intros q g|by apply queue_NoDup|intros g; by rewrite elem_of_queue].
  - intros w' (P1 & D1 & S1 & _ & E1). split_and!; try done. apply elem_of_nil_inv. intros g. rewrite elem_of_queue, E1. apply not_elem_of_nil.
Qed.
Definition stop_frame (s f : nat) (w : xw) : cres xw :=
  let* (r, w) := xmitframe_enqueue_for_sleeping_sta e f (untrigger f w) in
  let i := rtw_get_sta_pending (frame_attrib w f).(priority) in
  Ret (if (r : bool) then add_accnt i (-1) (add_qcnt s i (-1) w) else w).
Lemma stop_frame_spec H K w s a f : inv M H K [] w → w.(tbl) = M.(m_tbl) → watched w → e.(is_ap) = true → sinv w → sleeper w s →
  M.(m_strict) s = false → a ≠ MGMT_IDX → (Q_pend s a, f) ∈ w.(lk) →
  rp (stop_frame s f w) (λ w', inv M H K [] w' ∧ moves f w w' ∧ leaves f w').
Proof.
  intros Hi Ht Hw Hap Hs Hz Hm Ha Hl. destruct (untrigger_spec _ _ _ _ _ _ Hi Hl Hm) as [I1 O1].
  set (w1 := untrigger f w) in *. assert ((Q_pend s a, f) ∈ lk w1) as Hl1 by done.
  pose proof (i_facts _ _ _ _ _ I1 _ _ Hl1) as [[Hp Hr] Hx]. rewrite decide_False in Hx by done. destruct Hx as [Hx _].
  pose proof (inv_unlink _ _ _ _ _ _ _ I1 Hl1) as I2. fold (unlink f w1) in I2.
  assert (only f w (unlink f w1)) as O2 by (etrans; [exact O1|apply (only_unlink f w1)]).
  pose proof (keeps_drifts _ _ (o_keeps _ _ _ O2)) as D2.
  assert (must_buffer (unlink f w1) f = true) as Hb.
  { apply (sleeper_buffers _ _ s); [by apply (sinv_drifts w)|by apply (sleeper_drifts w)|done|rewrite <- Ht in Hr; exact Hr|].
    unfold frame_attrib, w1. cbn. by rewrite upd_eq. }
  destruct (rp_ret _ _ (buffer_spec _ _ _ _ f I2 Ht (watched_drifts _ _ Hw D2) ltac:(done) Hap Hb)) as ([r w3] & E3 & Er & I3 & M3 & F3 & s' & _ & L3).
  simpl in *. subst r. unfold stop_frame. fold w1. rewrite (buffer_unlinked _ _ _ E3). simpl.
  assert (rtw_get_sta_pending (priority (frame_attrib w3 f)) = a) as -> by (unfold frame_attrib; by rewrite F3).
  split; [|split].
  - eapply inv_off; [apply inv_pend_cnt, I3|off_solve..].
  - apply (moves_trans f _ (unlink f w1)); [by apply only_moves|]. apply (moves_trans f _ w3); [exact M3|].
    apply only_moves. etrans; [apply (only_st f s)|by apply only_same]. done.
  - intros q. cbn. rewrite L3, elem_of_app, list_elem_of_singleton. intros [Hq|[= ->]]; [|by intros []].
    by apply elem_of_delete in Hq as [_ []].
Qed.

(** *** Management frames *)
Definition mgmt_sleeps (w : xw) (s : nat) : bool :=
  has_state w s WIFI_ASOC_STATE && has_state w s WIFI_SLEEP_STATE && rtw_bmp_is_set w.(sta_dz_bitmap) (aid_of w s).
Lemma mgmt_buffer_spec H K O w f s : inv M (f :: H) K O w → off O (Q_mgmt_sleep s) = 0 →
  to_sta M (w.(fr) f) s → mgmt_ok (w.(fr) f) → mgmt_sleeps w s = true →
  rp (mgmt_xmitframe_enqueue_for_sleeping_sta f w) (λ r, r.1 = M_queued ∧ inv M H K O r.2 ∧ only f w r.2 ∧
    r.2.(lk) = w.(lk) ++ [(Q_mgmt_sleep s, f)]).
Proof.
  intros Hi Ho Hf Hg. pose proof Hf as [E1 _]. pose proof Hg as (E2 & E3 & _). unfold mgmt_sleeps, mgmt_xmitframe_enqueue_for_sleeping_sta.
  unfold frame_attrib. rewrite E1, E2, E3. rewrite <- andb_assoc, andb_true_iff. intros [-> ->]. simpl.
  rewrite (inv_delete_hand _ _ _ _ _ _ Hi). destruct (mgmt_sleep_len _ _ _ _ _ Hi Ho) as [Hl _].
  destruct (inv_insert M H K O w (Q_mgmt_sleep s) f Hi (conj Hf Hg) ltac:(done)) as [-> Hi']. simpl.
  split; [done|]. split; [|split; [|done]].
  - set (w1 := upd_st s _ (set_lk (lk w ++ [(Q_mgmt_sleep s, f)]) w)). assert (inv M H K O w1) as I1; [|by apply (inv_aside _ _ _ _ w1)].
    eapply inv_off; [apply inv_mgmt_sleep_cnt; [exact Hi'|]|off_solve..]. cbn [set_lk st]. lia.
  - etrans; [apply (only_insert f (Q_mgmt_sleep s))|]. etrans; [apply (only_st f s)|by apply only_same]. done.
Qed.
Lemma mgmt_pass w f : match mgmt_xmitframe_enqueue_for_sleeping_sta f w with Ret (M_queued, _) => ∃ s, (frame_attrib w f).(psta) = Some s ∧ mgmt_sleeps w s = true ∧ is_broadcast_mac_addr (frame_attrib w f).(ra) = false ∧ (frame_attrib w f).(ps_dontq) = false | Ret (_, w') => w' = w | _ => True end.
Proof.
  unfold mgmt_xmitframe_enqueue_for_sleeping_sta. destruct (is_broadcast_mac_addr _ || _) eqn:E; [done|]. apply orb_false_iff in E as [E1 E2].
  destruct (psta _) as [s|] eqn:Ep; [|done]. destruct (has_state w s WIFI_ASOC_STATE) eqn:Ea; [|done]. simpl. destruct (_ && _) eqn:Ez; [|done].
  destruct (list_insert_tail _ _ _); simpl; [|done|done]. exists s. split_and!; try done. unfold mgmt_sleeps. by rewrite Ea.
Qed.
Lemma mgmt_unlinked f w w' : mgmt_xmitframe_enqueue_for_sleeping_sta f (unlink f w) = Ret (M_queued, w') →
  mgmt_xmitframe_enqueue_for_sleeping_sta f w = Ret (M_queued, w').
Proof.
  unfold mgmt_xmitframe_enqueue_for_sleeping_sta. change (frame_attrib (unlink f w) f) with (frame_attrib w f).
  destruct (_ || _); [done|]. destruct (psta _) as [s|]; [|done].
  change (has_state (unlink f w) s WIFI_ASOC_STATE) with (has_state w s WIFI_ASOC_STATE). destruct (negb _); [done|].
  change (has_state (unlink f w) s WIFI_SLEEP_STATE) with (has_state w s WIFI_SLEEP_STATE).
  change (sta_dz_bitmap (unlink f w)) with (sta_dz_bitmap w). change (aid_of (unlink f w) s) with (aid_of w s). destruct (_ && _); [|done].
  unfold unlink. cbn [set_lk lk]. by rewrite (delete_fresh f (list_delete f (lk w))) by apply delete_gone.
Qed.
Definition stop_mgmt_frame (s f : nat) (w : xw) : cres xw :=
  let* (r, w) := mgmt_xmitframe_enqueue_for_sleeping_sta f (untrigger f w) in
  Ret (match r with M_queued => add_accnt MGMT_IDX (-1) (add_qcnt s MGMT_IDX (-1) w) | _ => w end).
Lemma stop_mgmt_frame_spec H K w s f : inv M H K [] w → M.(m_strict) s = false → mgmt_sleeps w s = true → (Q_pend s MGMT_IDX, f) ∈ w.(lk) →
  rp (stop_mgmt_frame s f w) (λ w', inv M H K [] w' ∧ moves f w w' ∧ leaves f w').
Proof.
  intros Hi Hm Hz Hl. destruct (untrigger_spec _ _ _ _ _ _ Hi Hl Hm) as [I1 O1].
  set (w1 := untrigger f w) in *. assert ((Q_pend s MGMT_IDX, f) ∈ lk w1) as Hl1 by done.
  pose proof (i_facts _ _ _ _ _ I1 _ _ Hl1) as [Hp Hx]. rewrite decide_True in Hx by done.
  pose proof (inv_unlink _ _ _ _ _ _ _ I1 Hl1) as I2. fold (unlink f w1) in I2.
  assert (only f w (unlink f w1)) as O2 by (etrans; [exact O1|apply (only_unlink f w1)]).
  destruct (rp_ret _ _ (mgmt_buffer_spec _ _ _ (unlink f w1) f s I2 ltac:(done) Hp Hx Hz)) as ([r w3] & E3 & Er & I3 & O3 & L3).
  simpl in *. subst r. unfold stop_mgmt_frame. fold w1. rewrite (mgmt_unlinked _ _ _ E3). simpl. split; [|split].
  - eapply inv_off; [apply inv_pend_cnt, I3|off_solve..].
  - apply only_moves. etrans; [exact O2|]. etrans; [exact O3|]. etrans; [apply (only_st f s)|by apply only_same]. done.
  - intros q. cbn. rewrite L3, elem_of_app, list_elem_of_singleton. intros [Hq|[= ->]]; [|by intros []].
    by apply elem_of_delete in Hq as [_ []].
Qed.
Lemma stop_mgmt_spec H K w s : inv M H K [] w → M.(m_strict) s = false → mgmt_sleeps w s = true →
  rp (dequeue_mgmt_xmitframe_to_sleepq s w) (λ w', inv M H K [] w' ∧ drifts w w' ∧ queue w'.(lk) (Q_pend s MGMT_IDX) = [] ∧ shrinks w w').
Proof.
  intros Hi Hm Hz. apply (pend_loop (inv M H K []) s MGMT_IDX (stop_mgmt_frame s)); [by eapply inv_nodup_lk| |done].
  intros f w1 I1 D1 Hl. apply stop_mgmt_frame_spec; try done. unfold mgmt_sleeps in *. rewrite !(drifts_state _ _ _ _ D1), (drifts_aid _ _ _ D1).
  rewrite !andb_true_iff in *. destruct Hz as [? ?]. split; [done|]. by apply (d_set _ _ D1).
Qed.

Section Stop.
Context (H K : list nat) (w0 : xw).
Context (Ht : w0.(tbl) = M.(m_tbl)) (Hw : watched w0) (Hap : e.(is_ap) = true) (Hs : sinv w0).
(** The state while the queues of [s] are stopped. *)
Definition stopping (w : xw) : Prop := inv M H K [] w ∧ drifts w0 w.
Lemma stop_servq_spec s a w : sleeper w0 s → M.(m_strict) s = false → a ≠ MGMT_IDX → stopping w →
  rp (stop_servq e s a w) (λ w', stopping w' ∧ queue w'.(lk) (Q_pend s a) = [] ∧ shrinks w w').
Proof.
  intros Hz Hm Ha [Hi Hd]. unfold stop_servq. apply rp_bind.
  eapply rp_mono; [apply (pend_loop (inv M H K []) s a (stop_frame s)); [by eapply inv_nodup_lk| |done]|].
  - intros f w1 I1 D1 Hl. assert (drifts w0 w1) as D1' by by etrans.
    apply (stop_frame_spec _ _ _ _ a); try done; [by rewrite (d_tbl _ _ D1')|by apply (watched_drifts w0)|by apply (sinv_drifts w0)|by apply (sleeper_drifts w0)].
  - intros w1 (I1 & D1 & Q1 & S1). simpl. split; [|done]. split; [by apply inv_node_delete|].
    etrans; [exact Hd|]. destruct D1. by split.
Qed.
Lemma shrinks_empty w w' s a : shrinks w w' → queue w.(lk) (Q_pend s a) = [] → queue w'.(lk) (Q_pend s a) = [].
Proof.
  intros Hsh E. apply elem_of_nil_inv. intros g Hg%elem_of_queue. apply Hsh in Hg; [|done].
  apply elem_of_queue in Hg. rewrite E in Hg. by apply elem_of_nil in Hg.
Qed.
Lemma stop_servqs_spec s w : sleeper w0 s → M.(m_strict) s = false → stopping w →
  rp (stop_servqs e s w) (λ w', stopping w' ∧ (∀ a, (a < 4)%nat → queue w'.(lk) (Q_pend s a) = []) ∧ shrinks w w').
Proof.
  intros Hz Hm Hst. unfold stop_servqs.
  apply rp_bind. eapply rp_mono; [by apply (stop_servq_spec s 0)|]. intros w1 (T1 & Q1 & S1).
  apply rp_bind. eapply rp_mono; [by apply (stop_servq_spec s 1)|]. intros w2 (T2 & Q2 & S2).
  apply rp_bind. eapply rp_mono; [by apply (stop_servq_spec s 2)|]. intros w3 (T3 & Q3 & S3).
  eapply rp_mono; [by apply (stop_servq_spec s 3)|]. intros w4 (T4 & Q4 & S4).
  split; [done|]. split; [|do 3 (etrans; [eassumption|]); done].
  intros [|[|[|[|]]]] Ha; [| | |done|lia].
  - eapply (shrinks_empty w1); [|done]. do 2 (etrans; [eassumption|]); done.
  - eapply (shrinks_empty w2); [|done]. etrans; eassumption.
  - by eapply (shrinks_empty w3).
Qed.
End Stop.
End Ps.

(** ** Changes of the mode *)
Lemma data_ac_lt up : (rtw_get_sta_pending up < 4)%nat.
Proof. unfold rtw_get_sta_pending. repeat (destruct (_ || _)); lia. Qed.
Lemma inv_mode M M' H K O w : inv M H K O w → M'.(m_tbl) = M.(m_tbl) → M'.(m_air) = M.(m_air) →
  (∀ s a f, M'.(m_strict) s = true → M.(m_strict) s = true ∨ ((a < 4)%nat → (Q_pend s a, f) ∉ w.(lk))) → inv M' H K O w.
Proof.
  intros [Hl Hc Ha Hs Hn Hx Hk He Hr] E1 E2 Hm. split; try done; [|by rewrite E2].
  intros q f Hf. pose proof (Hx q f Hf) as Hq. destruct q as [| |s a|s|s|s|]; simpl in *; unfold to_sta in *; rewrite ?E1; try done.
  destruct Hq as [? Hq]. split; [done|]. case_decide; [done|]. destruct Hq as [-> Hq]. split; [done|].
  intros Hs'. destruct (Hm s (rtw_get_sta_pending (priority (attrib (fr w f)))) f Hs') as [Hs''|Hno]; [by apply Hq|]. by destruct (Hno (data_ac_lt _)).
Qed.
(** The invariant between operations; [b]: power saving is watched; [L]: the frames
    that are in no queue and in nobody's hands, lost for good. *)
Section Lost.
Context {L : list nat}.
Definition mode_of (b : bool) (w : xw) : mode := {| m_tbl := w.(tbl); m_strict := λ _, b; m_air := b |}.
Record good (b : bool) (w : xw) : Prop := {
  g_inv : inv (mode_of b w) L [] [] w;
  g_sinv : sinv w;
  g_ainv : b = true → ainv w
}.
Lemma mode_of_tbl b w w' : w'.(tbl) = w.(tbl) → mode_of b w' = mode_of b w.
Proof. intros E. unfold mode_of. by rewrite E. Qed.
Lemma good_drifts b w w' : good b w → drifts w w' → inv (mode_of b w) L [] [] w' → good b w'.
Proof.
  intros [_ Hs Ha] Hd Hi. split; [by rewrite (mode_of_tbl _ w) by apply Hd|by apply (sinv_drifts w)|].
  intros Hb. by apply (ainv_drifts w); auto.
Qed.
Lemma good_watched b w : good b w → watched (mode_of b w) w.
Proof. intros [_ _ Ha]. destruct b; [right; auto|by left]. Qed.

(** ** The station falls asleep *)
Lemma sleep_state_spec w s : sinv w → w.(tbl) !! canon (w.(st) s).(s_mac) = Some s →
  let w1 := upd_st s (λ p, set_state (p.(state) .| WIFI_SLEEP_STATE) p) w in
  let w2 := set_dz (rtw_bmp_set w1.(sta_dz_bitmap) (aid_of w1 s)) w1 in
  sinv w2 ∧ has_state w2 s WIFI_SLEEP_STATE = true ∧ rtw_bmp_is_set w2.(sta_dz_bitmap) (aid_of w2 s) = true ∧
  rtw_bmp_not_empty w2.(sta_dz_bitmap) = true ∧ (∀ s', s' ≠ s → st w2 s' = st w s') ∧ (∀ s', aid_of w2 s' = aid_of w s').
Proof.
  intros Hs Ht w1 w2. assert (∀ s', aid_of w2 s' = aid_of w s') as Eaid.
  { intros s'. unfold aid_of, w2, w1. cbn. unfold upd. by destruct (decide (s' = s)) as [->|]. }
  assert (sta_dz_bitmap w2 = rtw_bmp_set (sta_dz_bitmap w) (aid_of w s)) as Edz.
  { unfold w2, w1, aid_of. cbn. by rewrite upd_eq. }
  assert (length (sta_dz_bitmap w2) = length (sta_dz_bitmap w)) as Elen.
  { rewrite Edz. unfold rtw_bmp_set. destruct (_ <? _)%nat; [by rewrite length_insert|done]. }
  pose proof (si_len _ Hs _ _ Ht) as Hl.
  assert (∀ s', st w2 s' = if decide (s' = s) then set_state (state (st w s) .| WIFI_SLEEP_STATE) (st w s) else st w s') as Est.
  { intros s'. unfold w2, w1. cbn. done. }
  split; [|split; [|split; [|split; [|split; [|done]]]]].
  - split; intros a s' Ha.
    + rewrite Est. pose proof (si_mac _ Hs a s' Ha). by case_decide; [subst s'|].
    + unfold has_state. rewrite Est. pose proof (si_asoc _ Hs a s' Ha) as Has. unfold has_state in Has.
      case_decide; [subst s'|done]. cbn [set_state state]. change WIFI_ASOC_STATE with (BIT 0) in *. rewrite bit_is_zero, negb_involutive in * by done.
      by rewrite Z.lor_spec, Has.
    + rewrite Eaid, Elen. by apply (si_len _ Hs a).
  - unfold has_state. rewrite Est, decide_True by done. cbn [set_state state]. change WIFI_SLEEP_STATE with (BIT 2). rewrite bit_is_zero, Z.lor_spec by done.
    unfold BIT. rewrite Z.shiftl_1_l, Z.pow2_bits_true by done. by rewrite orb_true_r.
  - rewrite Edz, Eaid, bmp_set_spec, bool_decide_eq_true_2 by done. destruct (Nat.ltb_spec (Z.to_nat (u8 (aid_of w s) / 8)) (length (sta_dz_bitmap w))); [by rewrite orb_true_r|lia].
  - rewrite Edz. by apply bmp_set_not_empty.
  - intros s' Hne. by rewrite Est, decide_False.
Qed.
(** The mode while the frames of [s] and of the group are moved. *)
Definition stop_mode (b : bool) (w : xw) (s : nat) : mode := {|
  m_tbl := w.(tbl); m_air := b;
  m_strict := λ x, b && negb (bool_decide (x = s)) && negb (bool_decide (w.(tbl) !! bc_addr = Some x))
|}.
Lemma stop_enter b w s : good b w → w.(tbl) !! canon (w.(st) s).(s_mac) = Some s → canon (w.(st) s).(s_mac) ≠ bc_addr →
  let w1 := upd_st s (λ p, set_state (p.(state) .| WIFI_SLEEP_STATE) p) w in
  let w2 := set_dz (rtw_bmp_set w1.(sta_dz_bitmap) (aid_of w1 s)) w1 in
  inv (stop_mode b w s) L [] [] w2 ∧ watched (stop_mode b w s) w2.
Proof.
  intros [Hi Hs Ha] Ht Hbc w1 w2. destruct (sleep_state_spec w s Hs Ht) as (S2 & _ & _ & _ & Est & Eaid). fold w1 w2 in S2, Est, Eaid.
  assert (watched (stop_mode b w s) w2) as Hw.
  { destruct b; [right|by left]. destruct (Ha eq_refl) as [A B]. split; [intros a s'; rewrite Eaid; apply A|].
    intros a a' s' s''. rewrite !Eaid. apply B. }
  split; [|done]. assert (inv (stop_mode b w s) L [] [] w) as I0.
  { apply (inv_mode (mode_of b w)); try done. intros s' a f. simpl. intros Hb. left. by destruct b. }
  assert (∀ x s', m_strict (stop_mode b w s) s' = true → tbl w !! canon (ra x) = Some s' → s' ≠ s ∧ IS_MCAST (ra x) = false ∧ b = true) as Hst.
  { intros x s'. simpl. rewrite !andb_true_iff, !negb_true_iff, !bool_decide_eq_false. intros [[? ?] Hne] Hx. split_and!; [done| |done].
    destruct (IS_MCAST (ra x)) eqn:E; [|done]. apply canon_bc in E. by rewrite E in Hx. }
  assert (inv (stop_mode b w s) L [] [] w1) as I1.
  { apply inv_st_static; try done. intros x s' Ep Et Em. destruct (Hst x s' Em Et) as (Hne & Emc & _).
    unfold asleep, has_state, aid_of, w1. rewrite Ep, Emc. cbn. by rewrite upd_ne. }
  apply (inv_same _ _ _ _ w1); try done. intros x s' Ep Et Em. destruct (Hst x s' Em Et) as (Hne & Emc & Hb).
  unfold asleep. rewrite Ep, Emc, !andb_true_iff. unfold has_state. rewrite (Est s' Hne).
  assert (st w1 s' = st w s') as -> by (unfold w1; cbn; by rewrite upd_ne). intros [? Hset]. split; [done|].
  assert (aid_of w1 s' = aid_of w s') as -> by (unfold aid_of, w1; cbn; by rewrite upd_ne). rewrite Eaid in Hset.
  assert (sta_dz_bitmap w2 = rtw_bmp_set (sta_dz_bitmap w) (aid_of w s)) as Edz by (unfold w2, w1, aid_of; cbn; by rewrite upd_eq).
  rewrite Edz, bmp_set_spec in Hset. destruct (Ha Hb) as [A B]. assert (canon (ra x) ≠ bc_addr) as Hnbc by (rewrite canon_bc; congruence).
  pose proof (A _ _ Ht Hbc). pose proof (A _ _ Et Hnbc). rewrite bool_decide_eq_false_2 in Hset; [by rewrite orb_false_r in Hset|].
  rewrite !u8_aid by lia. intros E. by destruct Hne; apply (B _ _ _ _ Et Ht).
Qed.
Lemma stop_spec b e w s : good b w → e.(is_ap) = true → w.(tbl) !! canon (w.(st) s).(s_mac) = Some s →
  canon (w.(st) s).(s_mac) ≠ bc_addr → rp (stop_sta_xmit e s w) (good b).
Proof.
  intros Hg Hap Ht Hbc. destruct (stop_enter b w s Hg Ht Hbc) as [I2 W2].
  destruct (sleep_state_spec w s (g_sinv _ _ Hg) Ht) as (S2 & Z1 & Z2 & Z3 & Est & Eaid). unfold stop_sta_xmit.
  set (w2 := set_dz _ _) in *. set (M := stop_mode b w s) in *.
  assert (m_strict M s = false) as Ms by (simpl; rewrite (bool_decide_eq_true_2 (s = s)) by done; by rewrite andb_false_r).
  assert (mgmt_sleeps w2 s = true) as Zm.
  { unfold mgmt_sleeps. rewrite Z1, Z2. by rewrite (si_asoc _ S2 _ s Ht). }
  apply rp_bind. eapply rp_mono; [apply (stop_mgmt_spec M L [] w2 s I2 Ms Zm)|]. intros w3 (I3 & D3 & Q3 & S3).
  set (w4 := set_tk (list_delete (s, MGMT_IDX) (tk w3)) w3).
  assert (stopping M L [] w2 w4) as T4.
  { split; [by apply inv_node_delete|]. destruct D3. by split. }
  assert (sleeper w2 s) as Zs by (exists (canon (s_mac (st w s))); split; [done|right; done]).
  apply rp_bind. eapply rp_mono; [by apply (stop_servqs_spec M e L [] w2)|]. intros w5 (T5 & Q5 & S5).
  assert (∀ w6, stopping M L [] w2 w6 → shrinks w5 w6 → (∀ x a, tbl w !! bc_addr = Some x → (a < 4)%nat → queue (lk w6) (Q_pend x a) = []) → good b w6) as Hfin.
  { intros w6 [I6 D6] S6 Q6. split.
    - rewrite (mode_of_tbl b w) by apply D6. apply (inv_mode M); try done. intros x a f. simpl. intros ->. rewrite andb_true_l.
      destruct (decide (x = s)) as [->|Hne]; [right; intros Ha Hf; by rewrite <- elem_of_queue, (shrinks_empty _ _ _ _ S6 (Q5 a Ha)), elem_of_nil in Hf|].
      rewrite bool_decide_eq_false_2 by done. case_bool_decide as Eb; [right|by left]. intros Ha Hf. by rewrite <- elem_of_queue, (Q6 x a Eb Ha), elem_of_nil in Hf.
    - by apply (sinv_drifts w2).
    - intros ->. apply (ainv_drifts w2); [|done]. destruct (g_ainv _ _ Hg eq_refl) as [A B].
      split; [intros a s'; rewrite Eaid; apply A|]. intros a a' s' s''. rewrite !Eaid. apply B. }
  destruct T5 as [I5 D5]. unfold rtw_get_bcmc_stainfo, rtw_get_stainfo. rewrite (d_tbl _ _ D5). change (canon bc_addr) with bc_addr. change (tbl w2) with (tbl w).
  destruct (tbl w !! bc_addr) as [x|] eqn:Ex.
  - assert (sleeper w2 x) as Zx by (exists bc_addr; split; [done|left; done]).
    assert (m_strict M x = false) as Mx by (simpl; rewrite Ex, (bool_decide_eq_true_2 (Some x = Some x)) by done; by rewrite andb_false_r).
    eapply rp_mono; [by apply (stop_servqs_spec M e L [] w2)|]. intros w6 (T6 & Q6 & S6). apply Hfin; [done|done|]. intros y a [= <-]. apply Q6.
  - simpl. by apply Hfin.
Qed.

(** ** Frames are released *)

(** A loop over the frames of a queue that touches each only once. *)
Lemma each_linked (P : xw → Prop) q body w : NoDup w.(lk).*2 →
  (∀ f w', P w' → (q, f) ∈ w'.(lk) → rp (body f w') (λ w'', P w'' ∧ only f w' w'')) → P w → rp (each (queue w.(lk) q) body w) P.
Proof.
  intros Hd Hb Hp. eapply rp_mono; [apply (each_rp (λ rest w', P w' ∧ NoDup rest ∧ ∀ g, g ∈ rest → (q, g) ∈ w'.(lk)))|].
  - intros f r w1 (P1 & N1 & E1). rewrite NoDup_cons in N1. destruct N1 as [N1 N2].
    eapply rp_mono; [apply Hb; [done|apply E1; left]|]. intros w2 (P2 & O2). split_and!; [done|done|].
    intros g Hg. apply (o_links _ _ _ O2); [by intros ->|]. apply E1. by right.
  - split_and!; [done|by apply queue_NoDup|by intros g ?%elem_of_queue].
  - by intros w' (? & _).
Qed.
Section Release.
Context (M : mode) (e : env) (w0 : xw) (Ht : w0.(tbl) = M.(m_tbl)).
(** Within an operation that releases frames. *)
Definition releasing (w : xw) : Prop := inv M L [] [] w ∧ keeps w0 w.
Lemma from_sleep_spec w s f : inv M L [] [] w → (Q_sleep s, f) ∈ w.(lk) → inv M (f :: L) [] [] (from_sleep_q s f w) ∧ only f w (from_sleep_q s f w).
Proof.
  intros Hi Hl. split.
  - destruct (sleep_len _ _ _ _ _ s Hi ltac:(done)) as [Hb E]. unfold from_sleep_q.
    assert (0 < length (queue (lk w) (Q_sleep s)))%nat.
    { apply elem_of_queue in Hl. destruct (queue _ _); [by apply elem_of_nil in Hl|simpl; lia]. }
    apply (inv_off M _ _ [(Q_sleep s, -1); (Q_sleep s, 1)]); [|off_solve..].
    apply (inv_sleep_cnt M _ _ _ _ s (-1) (inv_unlink _ _ _ _ _ _ _ Hi Hl)). cbn [set_lk st]. lia.
  - unfold from_sleep_q. etrans; [apply only_unlink|]. by apply only_st.
Qed.
Lemma dec_ac_spec H K O w s f : inv M H K O w → inv M H K O (dec_ac_len s w) ∧ only f w (dec_ac_len s w).
Proof.
  intros Hi. split; [|by apply only_st]. apply inv_st_static; try done. apply calm_same. intros. by apply asleep_upd_st.
Qed.
(** A triggered frame may be queued. *)
Lemma triggered_enqueue w f g : inv M (f :: L) [] [] w → keeps w0 w → (∀ a, (g a).(triggered) = 1) →
  rp (rtl8822bu_hal_xmitframe_enqueue f (upd_attrib f g w)) (λ w', releasing w' ∧ only f w w').
Proof.
  intros Hi Hk Hg. eapply rp_mono; [apply (hal_enqueue_spec M L [] []); [by apply inv_attrib_hand| |]|].
  - change (tbl w = m_tbl M). by rewrite (k_tbl _ _ Hk).
  - intros s _ _ _. cbn. rewrite upd_eq. apply Hg.
  - intros w' (I' & O' & _). assert (only f w w') as O1 by (etrans; [apply (only_attrib f g)|done]).
    split; [split; [done|]|done]. etrans; [exact Hk|apply O1].
Qed.
Lemma release_triggered ps p a : (release_bits ps p a).(triggered) = 1.
Proof. unfold release_bits. destruct ps; [by destruct (_ <? _)|done]. Qed.
Lemma wake_frame_spec w s f : releasing w → (Q_sleep s, f) ∈ w.(lk) → rp (wake_frame s f w) (λ w', releasing w' ∧ only f w w').
Proof.
  intros [Hi Hk] Hl. unfold wake_frame. destruct (from_sleep_spec _ _ _ Hi Hl) as [I1 O1]. set (w1 := from_sleep_q s f w) in *.
  set (ps := wmmps_ac _ _ _). assert (inv M (f :: L) [] [] (if ps then dec_ac_len s w1 else w1) ∧ only f w (if ps then dec_ac_len s w1 else w1)) as [I2 O2].
  { destruct ps; [|done]. destruct (dec_ac_spec _ _ _ w1 s f I1) as [? ?]. split; [done|by etrans]. }
  set (w2 := if ps then _ else _) in *. eapply rp_mono; [apply triggered_enqueue; [done|etrans; [done|apply O2]|intros; apply release_triggered]|].
  intros w3 [? ?]. split; [done|by etrans].
Qed.
Lemma wake_bmc_frame_spec h w s f : releasing w → (Q_sleep s, f) ∈ w.(lk) → rp (wake_bmc_frame e h s f w) (λ w', releasing w' ∧ only f w w').
Proof.
  intros [Hi Hk] Hl. unfold wake_bmc_frame. destruct (from_sleep_spec _ _ _ Hi Hl) as [I1 O1]. set (w1 := from_sleep_q s f w) in *.
  assert (keeps w0 w1) as K1 by (etrans; [done|apply O1]).
  set (w2 := upd_attrib f (release_bits false (st w1 s)) w1). destruct (_ && _).
  - eapply rp_mono; [apply (hal_enqueue_spec M L [] []); [by do 2 apply inv_attrib_hand| |]|].
    + change (tbl w1 = m_tbl M). by rewrite (k_tbl _ _ K1).
    + intros x _ _ _. unfold w2. cbn. rewrite upd_eq. cbn. rewrite upd_eq. cbn. done.
    + intros w3 (? & O3 & _). assert (only f w w3) as O4.
      { etrans; [exact O1|]. etrans; [apply (only_attrib f (release_bits false (st w1 s)))|]. etrans; [apply (only_attrib f (set_qsel QSLT_HIGH))|exact O3]. }
      split; [split; [done|]|done]. etrans; [exact Hk|apply O4].
  - eapply rp_mono; [apply triggered_enqueue; [done|done|intros; apply release_triggered]|]. intros w3 [? ?]. split; [done|by etrans].
Qed.
Lemma from_mgmt_sleep_spec w s f : inv M L [] [] w → (Q_mgmt_sleep s, f) ∈ w.(lk) →
  let w' := upd_st s (λ p, set_mgmt_sleepq_len (u32 (p.(mgmt_sleepq_len) - 1)) p) (set_lk (list_delete f w.(lk)) w) in
  inv M (f :: L) [] [] w' ∧ only f w w'.
Proof.
  intros Hi Hl w'. split; [|by etrans; [apply only_unlink|]; apply only_st].
  destruct (mgmt_sleep_len _ _ _ _ _ s Hi ltac:(done)) as [Hb E].
  assert (0 < length (queue (lk w) (Q_mgmt_sleep s)))%nat.
  { apply elem_of_queue in Hl. destruct (queue _ _); [by apply elem_of_nil in Hl|simpl; lia]. }
  apply (inv_off M _ _ [(Q_mgmt_sleep s, -1); (Q_mgmt_sleep s, 1)]); [|off_solve..].
  apply (inv_mgmt_sleep_cnt M _ _ _ _ s (-1) (inv_unlink _ _ _ _ _ _ _ Hi Hl)). cbn [set_lk st]. lia.
Qed.
Lemma wake_mgmt_frame_spec w s f : releasing w → (Q_mgmt_sleep s, f) ∈ w.(lk) → rp (wake_mgmt_frame s f w) (λ w', releasing w' ∧ only f w w').
Proof.
  intros [Hi Hk] Hl. unfold wake_mgmt_frame. pose proof (i_facts _ _ _ _ _ Hi _ _ Hl) as [_ Hok].
  destruct (from_mgmt_sleep_spec w s f Hi Hl) as [I2 O2]. set (w2 := upd_st s _ _) in *.
  eapply rp_mono; [apply (hal_mgmt_enqueue_spec M L [] []); [by apply inv_attrib_hand| |]|].
  - change (tbl w = m_tbl M). by rewrite (k_tbl _ _ Hk).
  - cbn. by rewrite upd_eq.
  - intros w3 (? & O3 & _). assert (only f w w3) as O4 by (etrans; [exact O2|]; etrans; [apply only_attrib|exact O3]).
    split; [split; [done|]|done]. etrans; [exact Hk|apply O4].
Qed.
Lemma delivery_frame_spec w s f : releasing w → (Q_sleep s, f) ∈ w.(lk) → rp (delivery_frame s f w) (λ w', releasing w' ∧ only f w w').
Proof.
  intros [Hi Hk] Hl. unfold delivery_frame. destruct (wmmps_ac _ _ _); [|by split; try reflexivity].
  destruct (from_sleep_spec _ _ _ Hi Hl) as [I1 O1]. destruct (dec_ac_spec _ _ _ _ s f I1) as [I2 O2].
  set (w2 := dec_ac_len s _) in *. assert (only f w w2) as O2' by by etrans. apply rp_bind.
  eapply rp_mono; [apply triggered_enqueue; [done|etrans; [done|apply O2']|intros; apply release_triggered]|].
  intros w3 [[I3 K3] O3]. simpl. assert (only f w w3) as O4 by by etrans.
  destruct (_ && _); [|done]. split; [split|].
  - apply (inv_aside _ _ _ _ w3); [done|apply aside_tim].
  - etrans; [exact K3|by apply keeps_aside].
  - etrans; [exact O4|by apply only_aside].
Qed.
End Release.

(** ** Changes of the state of a station and of the bitmaps *)
Lemma good_st b w s g : good b w →
  (g (w.(st) s)).(s_mac) = (w.(st) s).(s_mac) → (g (w.(st) s)).(s_aid) = (w.(st) s).(s_aid) →
  (g (w.(st) s)).(qcnt) = (w.(st) s).(qcnt) → (g (w.(st) s)).(sleepq_len) = (w.(st) s).(sleepq_len) →
  (g (w.(st) s)).(mgmt_sleepq_len) = (w.(st) s).(mgmt_sleepq_len) →
  (has_state w s WIFI_ASOC_STATE = true → negb ((g (w.(st) s)).(state) .& WIFI_ASOC_STATE =? 0) = true) →
  (negb ((g (w.(st) s)).(state) .& WIFI_SLEEP_STATE =? 0) = true → has_state w s WIFI_SLEEP_STATE = true) →
  good b (upd_st s g w).
Proof.
  intros [Hi Hs Ha] E1 E2 E3 E4 E5 E6 E7. assert (∀ s', aid_of (upd_st s g w) s' = aid_of w s') as Eaid.
  { intros s'. unfold aid_of. cbn. unfold upd. by destruct (decide (s' = s)) as [->|]. }
  split.
  - apply (inv_st_static (mode_of b w)); try done. intros x s' Ep _ _. unfold asleep. rewrite Ep, Eaid. cbn [upd_st set_st sta_dz_bitmap].
    destruct (IS_MCAST _); [done|]. rewrite !andb_true_iff. intros [Hx ?]. split; [|done].
    unfold has_state in *. cbn in Hx. unfold upd in Hx. destruct (decide (s' = s)) as [->|]; auto.
  - split; intros a s' Hl; [|unfold has_state|rewrite Eaid; apply (si_len _ Hs a s' Hl)].
    + cbn. unfold upd. destruct (decide (s' = s)) as [->|]; [rewrite E1|]; by apply (si_mac _ Hs).
    + cbn. unfold upd. pose proof (si_asoc _ Hs a s' Hl). destruct (decide (s' = s)) as [->|]; auto.
  - intros Hb. destruct (Ha Hb) as [A B]. split; [intros a s'; rewrite Eaid; apply A|]. intros a a' s' s''. rewrite !Eaid. apply B.
Qed.
Lemma good_maps b w t d : good b w → length d = length w.(sta_dz_bitmap) →
  (∀ id, rtw_bmp_is_set d id = true → rtw_bmp_is_set w.(sta_dz_bitmap) id = true) →
  (rtw_bmp_not_empty d = true → rtw_bmp_not_empty w.(sta_dz_bitmap) = true) → good b (set_maps t d w).
Proof.
  intros [Hi Hs Ha] El Hd Hn. split.
  - apply (inv_same (mode_of b w) _ _ _ w); try done. intros x s' Ep _ _. unfold asleep. rewrite Ep. cbn [set_maps sta_dz_bitmap].
    destruct (IS_MCAST _); [done|]. rewrite !andb_true_iff. intros [? ?]. split; [done|]. by apply Hd.
  - destruct Hs as [A B C]. split; [exact A|exact B|]. intros a s' Hl. cbn [set_maps sta_dz_bitmap]. rewrite El. exact (C a s' Hl).
  - intros Hb. destruct (Ha Hb) as [A B]. by split.
Qed.
Lemma good_clear b w t id : good b w → good b (set_maps t (rtw_bmp_clear w.(sta_dz_bitmap) id) w).
Proof.
  intros Hg. apply good_maps; [done| |apply bmp_clear_sub|apply bmp_clear_not_empty].
  unfold rtw_bmp_clear. destruct (_ <? _)%nat; [by rewrite length_insert|done].
Qed.
Lemma good_tim b w t : good b w → good b (set_tim t w).
Proof. intros Hg. by apply good_maps. Qed.
Lemma lxor_asoc v n : 0 < n → negb (v .& WIFI_ASOC_STATE =? 0) = true → negb ((v ⊕ BIT n) .& WIFI_ASOC_STATE =? 0) = true.
Proof.
  intros Hn. change WIFI_ASOC_STATE with (BIT 0). rewrite !bit_is_zero, !negb_involutive, Z.lxor_spec by done. intros ->.
  unfold BIT. rewrite Z.shiftl_1_l, Z.pow2_bits_false by lia. done.
Qed.
Lemma good_alive b e w s : good b w → good b (alive_check e s w).
Proof.
  intros Hg. unfold alive_check. destruct (has_state w s WIFI_STA_ALIVE_CHK_STATE); [|done]. apply good_st; try done.
  - intros Ha. apply (lxor_asoc _ 10); done.
  - unfold has_state. cbn. change WIFI_STA_ALIVE_CHK_STATE with (BIT 10). change WIFI_SLEEP_STATE with (BIT 2).
    rewrite !bit_is_zero, !negb_involutive, Z.lxor_spec by done. unfold BIT. rewrite !Z.shiftl_1_l, Z.pow2_bits_false by lia. by rewrite xorb_false_r.
Qed.
Lemma good_wake_state b w s : good b w → has_state w s WIFI_SLEEP_STATE = true →
  good b (upd_st s (λ p, set_state (p.(state) ⊕ WIFI_SLEEP_STATE) p) w).
Proof. intros Hg Hz. apply good_st; try done. intros Ha. by apply (lxor_asoc _ 2). Qed.
Lemma good_release b w w' : good b w → releasing (mode_of b w) w w' → good b w'.
Proof. intros Hg [Hi Hk]. apply (good_drifts b w); [done|by apply keeps_drifts|done]. Qed.

(** A loop that releases frames of a queue. *)
Lemma release_loop b w q body : good b w →
  (∀ w0 f w', good b w0 → releasing (mode_of b w0) w0 w' → (q, f) ∈ w'.(lk) → rp (body f w') (λ w'', releasing (mode_of b w0) w0 w'' ∧ only f w' w'')) →
  rp (each (queue w.(lk) q) body w) (good b).
Proof.
  intros Hg Hb. eapply rp_mono; [apply (each_linked (releasing (mode_of b w) w) q body w)|].
  - by eapply inv_nodup_lk, g_inv.
  - intros f w' Hr Hl. by apply Hb.
  - split; [by apply g_inv|done].
  - intros w' Hr. by apply (good_release b w).
Qed.
(** The station is awake: its bits and its state. *)
Definition woken (e : env) (s : nat) (w : xw) : xw :=
  let w := set_tim (rtw_bmp_clear w.(tim_bitmap) (aid_of w s)) w in
  let w := if has_state w s WIFI_SLEEP_STATE then upd_st s (λ p, set_state (p.(state) ⊕ WIFI_SLEEP_STATE) p) w else w in
  let w := alive_check e s w in
  set_dz (rtw_bmp_clear w.(sta_dz_bitmap) (aid_of w s)) w.
Lemma good_woken b e w s : good b w → good b (woken e s w).
Proof.
  intros Hg. apply good_clear, good_alive.
  pose proof (good_tim b w (rtw_bmp_clear (tim_bitmap w) (aid_of w s)) Hg) as G3. set (w3 := set_tim _ w) in *.
  destruct (has_state w3 s WIFI_SLEEP_STATE) eqn:Ez; [by apply good_wake_state|done].
Qed.
Lemma wakeup_spec b e w s : good b w → rp (wakeup_sta_to_xmit e s w) (good b).
Proof.
  intros Hg. unfold wakeup_sta_to_xmit.
  apply rp_bind. eapply rp_mono; [apply (release_loop b w); [done|]; intros; by apply wake_mgmt_frame_spec|]. intros w1 G1.
  apply rp_bind. eapply rp_mono; [apply (release_loop b w1); [done|]; intros; by apply wake_frame_spec|]. intros w2 G2.
  assert (∀ w3, good b w3 → rp (match rtw_get_bcmc_stainfo w3 with
      | None => Ret w3
      | Some x => if negb (rtw_bmp_not_empty_exclude_bit0 w3.(sta_dz_bitmap)) then
          let* w := each (queue w3.(lk) (Q_sleep x)) (wake_bmc_frame e false x) w3 in
          Ret (if (w.(st) x).(sleepq_len) =? 0 then clear_bmc_bits w else w) else Ret w3 end) (good b)) as Hbmc.
  { intros w3 G3. destruct (rtw_get_bcmc_stainfo w3) as [x|]; [|done]. destruct (negb _); [|done]. apply rp_bind.
    eapply rp_mono; [apply (release_loop b w3); [done|]; intros; by apply wake_bmc_frame_spec|]. intros w4 G4. simpl.
    destruct (_ =? 0); [by apply good_clear|done]. }
  apply Hbmc. destruct (_ && _); [|done]. by apply (good_woken b e w2 s).
Qed.
Lemma trigger_spec b w s prio : good b w → rp (process_wmmps_data s prio w) (good b).
Proof.
  intros Hg. unfold process_wmmps_data. destruct (_ && _); [|done]. apply (release_loop b w); [done|]. intros. by apply delivery_frame_spec.
Qed.
Lemma chk_bmc_spec b e w : good b w → rp (chk_bmc_sleepq_hdl e w) (good b).
Proof.
  intros Hg. unfold chk_bmc_sleepq_hdl. destruct (rtw_get_bcmc_stainfo w); [|done]. destruct (_ && _); [|done].
  apply (release_loop b w); [done|]. intros. by apply wake_bmc_frame_spec.
Qed.
Lemma hiq_spec b em w : good b w → good b (rtw_chk_hi_queue_hdl em w).
Proof. intros Hg. unfold rtw_chk_hi_queue_hdl. destruct (rtw_get_bcmc_stainfo w); [|done]. destruct (_ && _); [by apply good_clear|done]. Qed.
Lemma ps_poll_spec b e w s aid prio : good b w → rp (ps_poll e s aid prio w) (good b).
Proof.
  intros Hg. unfold ps_poll. destruct (_ || _); [done|]. pose proof (good_alive b e w s Hg) as G1. set (w1 := alive_check e s w) in *.
  destruct (_ && _); [|done]. destruct (queue (lk w1) (Q_sleep s)) as [|f r] eqn:Eq.
  - destruct (rtw_bmp_is_set _ _); [|done]. simpl. destruct (sleep_len _ _ _ _ _ s (g_inv _ _ G1) ltac:(done)) as [_ E]. rewrite Eq in E. simpl in E.
    rewrite E. simpl. by apply good_tim.
  - assert ((Q_sleep s, f) ∈ lk w1) as Hl by (rewrite <- elem_of_queue, Eq; left).
    destruct (from_sleep_spec _ _ _ _ (g_inv _ _ G1) Hl) as [I2 O2]. apply rp_bind.
    eapply rp_mono; [apply (triggered_enqueue (mode_of b w1) w1); [done|exact I2|apply O2|intros; apply release_triggered]|].
    intros w3 [Hr _]. simpl. pose proof (good_release _ _ _ G1 Hr) as G3. destruct (_ =? 0); [by apply good_tim|done].
Qed.
End Lost.
#[global] Arguments good L b w : clear implicits.
#[global] Arguments releasing L M w0 w : clear implicits.
Lemma good_lost L L' b w w' : good L b w → drifts w w' → inv (mode_of b w) L' [] [] w' → good L' b w'.
Proof.
  intros [_ Hs Ha] Hd Hi. split; [by rewrite (mode_of_tbl _ w) by apply Hd|by apply (sinv_drifts w)|].
  intros Hb. by apply (ainv_drifts w); auto.
Qed.
