(* ===== verification/XmitQueueSafe.v ===== *)
(** * The transmit queues at work: packets, stations, every sequence of operations *)
From S2P Require Import Prelude.
From stdpp Require Import list gmap.
From S2P Require Import StaTable WepTkip XmitAttrib RxValidate XmitQueue XmitQueueInv XmitQueueOps XmitQueuePs.
Local Open Scope Z_scope.
#[local] Opaque NR_FRAMES NR_XMITFRAME NR_XMIT_EXTBUFF.

(** [update_attrib] takes the station from the table; the order of the categories
    is one of the four data categories. *)
Definition attribs_ok (e : env) (w : xw) : Prop :=
  ∀ f n, e.(new_attrib) f = Some n → n.(n_psta) = w.(tbl) !! canon n.(n_ra).
Definition env_ok (e : env) : Prop := Forall (λ a, a ≠ MGMT_IDX) e.(wmm_para_seq).

(** Whether an access point is given a packet without an Ethernet header. *)
Definition runt (e : env) (hdr : option (list Z * list Z)) : nat := if e.(is_ap) && bool_decide (hdr = None) then 1 else 0.

Section Lost.
Context {L : list nat}.
Abbreviation good := (good L).

Section Entry.
Context (b : bool) (e : env) (w0 : xw) (Hg0 : good b w0) (Hat : attribs_ok e w0) (Hap : b = true → e.(is_ap) = true).
Implicit Types (H K : list nat) (O : list (qid * Z)) (w : xw).

Lemma mode_air : (mode_of b w0).(m_air) = true → ∀ s, (mode_of b w0).(m_strict) s = true.
Proof. done. Qed.
(** The state within an operation that sends packets. *)
Definition sending H K w : Prop := inv (mode_of b w0) H K [] w ∧ drifts w0 w.
Lemma sending_tbl H K w : sending H K w → w.(tbl) = (mode_of b w0).(m_tbl).
Proof. intros [_ Hd]. apply (d_tbl _ _ Hd). Qed.
Lemma sending_watched H K w : sending H K w → watched (mode_of b w0) w.
Proof. intros [_ Hd]. by apply (watched_drifts _ w0), Hd; eapply good_watched. Qed.
Lemma sending_sinv H K w : sending H K w → sinv w.
Proof. intros [_ Hd]. apply (sinv_drifts w0), Hd. apply Hg0. Qed.
Lemma sending_only H K H' K' w w' f : sending H K w → inv (mode_of b w0) H' K' [] w' → moves f w w' → sending H' K' w'.
Proof. intros [_ Hd] Hi Hm. split; [done|]. etrans; [done|apply Hm]. Qed.

Lemma pass_may_go H K w f : sending (f :: H) K w → (∀ s, (frame_attrib w f).(psta) = Some s → w.(tbl) !! canon (frame_attrib w f).(ra) = Some s) →
  (b = true → must_buffer w f = false) → may_go (mode_of b w0) w f.
Proof.
  intros Hs Hp Hb s Es Hst Hz. simpl in Hst. specialize (Hb Hst). specialize (Hp s Es).
  unfold must_buffer, sta_of_frame, rtw_get_stainfo in Hb. rewrite Hp, decide_True in Hb by done.
  rewrite (si_asoc _ (sending_sinv _ _ _ Hs) _ _ Hp) in Hb. fold (frame_attrib w f) in Hz. rewrite Hz, andb_true_r, negb_false_iff in Hb.
  by apply Z.eqb_eq.
Qed.
Lemma xmit_enqueue_spec H K w f : sending (f :: H) K w → (∀ s, (frame_attrib w f).(psta) = Some s → w.(tbl) !! canon (frame_attrib w f).(ra) = Some s) →
  rp (xmit_enqueue f w) (λ r, if r.1 then sending H K r.2 ∧ only f w r.2 else r = (false, w)).
Proof.
  intros Hs Hp. unfold xmit_enqueue. destruct (psta (frame_attrib w f)) as [s|] eqn:Es; [|done]. destruct (_ && _); [done|].
  assert (fact (mode_of b w0) w (fr w f) (Q_tx s)) as Hf. { split; [done|]. rewrite <- (sending_tbl _ _ _ Hs). by apply Hp. }
  destruct Hs as [Hi Hd]. destruct (inv_insert (mode_of b w0) H K [] w (Q_tx s) f Hi Hf ltac:(done)) as [-> I1]. simpl.
  assert (only f w (set_lk (lk w ++ [(Q_tx s, f)]) w)) as O1 by apply only_insert. split; [|done]. split.
  - apply (inv_off (mode_of b w0) _ _ [(Q_tx s, -1)]); [done|off_solve..].
  - etrans; [done|]. apply keeps_drifts, O1.
Qed.
(** The packet [p] belongs to the caller, or to the frame already. *)
Lemma posthandle_spec H K K' w f p : sending (f :: H) K w →
  (w.(fr) f).(pkt) = None ∧ K = p :: K' ∨ (w.(fr) f).(pkt) = Some p ∧ K = K' →
  rp (rtw_xmit_posthandle e f p w) (λ r, sending H (if r.1 <? 0 then K else K') r.2 ∧ moves f w r.2).
Proof.
  intros Hs Hp. unfold rtw_xmit_posthandle. destruct (new_attrib e f) as [n|] eqn:En.
  2: { apply rp_bind. eapply rp_mono; [apply free_frame_spec, Hs|]. intros w' (I' & O' & _). simpl.
       assert (moves f w w') as Hm by by apply only_moves. split; [by eapply sending_only|done]. }
  set (g := λ x, set_pkt _ _). set (w1 := upd_fr f g w).
  assert (sending (f :: H) K' w1) as S1.
  { apply (sending_only _ _ _ _ _ _ f Hs); [|apply only_moves, only_upd_fr]. apply (inv_fr_hand (mode_of b w0) _ K); [apply Hs|done|].
    by destruct Hp as [[-> ->]|[-> ->]]. }
  assert (only f w w1) as O1 by apply only_upd_fr.
  assert (∀ s, psta (frame_attrib w1 f) = Some s → tbl w1 !! canon (ra (frame_attrib w1 f)) = Some s) as Hpt.
  { intros s. unfold frame_attrib, w1, g. cbn. rewrite upd_eq. cbn. unfold do_queue_select. rewrite (sending_tbl _ _ _ Hs). cbn.
    destruct (n_hipri n); cbn; rewrite (Hat _ _ En); done. }
  assert (∀ w2, sending (f :: H) K' w2 → moves f w w2 → (∀ s, psta (frame_attrib w2 f) = Some s → tbl w2 !! canon (ra (frame_attrib w2 f)) = Some s) →
      (b = true → must_buffer w2 f = false) →
      rp (let* (held, w) := xmit_enqueue f w2 in if (held : bool) then Ret (1, w) else
          let* (dumped, w) := pre_xmitframe e f w in Ret (if (dumped : bool) then 0 else 1, w))
        (λ r, sending H (if r.1 <? 0 then K else K') r.2 ∧ moves f w r.2)) as Hrest.
  { intros w2 S2 M2 P2 B2. apply rp_bind. eapply rp_mono; [by apply xmit_enqueue_spec|]. intros [held w3]. simpl. destruct held; simpl.
    - intros (? & O3). split; [done|]. etrans; [done|by apply only_moves].
    - intros [= ->]. apply rp_bind. eapply rp_mono; [apply (pre_xmitframe_spec (mode_of b w0) e mode_air H K' [] w2 f)|].
      + apply S2.
      + by eapply sending_tbl.
      + by eapply pass_may_go.
      + intros [d w4] (I4 & O4 & _). simpl in *. apply only_moves in O4. assert (sending H K' w4) as S4 by by eapply sending_only.
        destruct d; simpl; (split; [done|by etrans]). }
  destruct (is_ap e) eqn:Eap.
  2: { unfold xmitframe_enqueue_for_sleeping_sta. rewrite Eap. apply Hrest; [done|by apply only_moves|done|]. intros E. specialize (Hap E). congruence. }
  apply rp_bind. destruct (must_buffer w1 f) eqn:Eb.
  - eapply rp_mono; [apply (buffer_spec (mode_of b w0) e H K' [] w1 f); [apply S1|by eapply sending_tbl|by eapply sending_watched|done|done|done]|].
    intros [r w2] (Er & I2 & M2 & _). simpl in *. subst r. simpl. assert (moves f w w2) by (etrans; [by apply only_moves|done]). split; [by eapply sending_only|done].
  - eapply rp_mono; [apply (pass_spec (mode_of b w0) e H K' [] w1 f); [apply S1|done]|]. intros [r w2] (Er & I2 & O2 & L2 & q & A2). simpl in *. subst r.
    assert (moves f w w2) as M2 by (etrans; by apply only_moves).
    assert (psta (frame_attrib w2 f) = psta (frame_attrib w1 f) ∧ ra (frame_attrib w2 f) = ra (frame_attrib w1 f) ∧ triggered (frame_attrib w2 f) = triggered (frame_attrib w1 f)) as (A3 & A4 & A5) by by rewrite A2.
    apply Hrest; [exact (sending_only _ _ _ _ _ _ f Hs I2 M2)|done| |].
    + intros s. rewrite A3, A4. rewrite (k_tbl _ _ (o_keeps _ _ _ O2)). apply Hpt.
    + intros _. rewrite <- Eb. unfold must_buffer, sta_of_frame, rtw_get_stainfo. rewrite A3, A4, A5, (k_tbl _ _ (o_keeps _ _ _ O2)).
      destruct (tbl w1 !! _); [|done]. case_decide; [|done]. rewrite (keeps_state _ _ _ _ (o_keeps _ _ _ O2)). destruct (has_state _ _ _); [|done].
      rewrite (keeps_asleep _ _ _ (o_keeps _ _ _ O2)). unfold asleep. by rewrite A3, A4.
Qed.

(** ** Copies for the stations *)
Definition same_frame (f : nat) (w w' : xw) : Prop := w'.(fr) f = w.(fr) f.
Lemma hands_differ H K O w f g : inv (mode_of b w0) (f :: g :: H) K O w → f ≠ g.
Proof. intros Hi%inv_nodup. apply NoDup_app in Hi as (_ & _ & Hi). apply NoDup_cons in Hi as [Hi _]. set_solver. Qed.
Lemma copies_listed stas sa f0 H K : ∀ w, sending (f0 :: H) K w →
  rp (rtw_ap_data_bmc_to_uc stas sa w) (λ r, sending (f0 :: H) K r.2 ∧ same_frame f0 w r.2).
Proof.
  induction stas as [|s stas IH]; intros w Hs; simpl; [done|]. destruct (_ || _); [by apply IH|].
  destruct (rtw_alloc_xmitframe w) as [[f|] w1] eqn:Ea.
  2: { unfold rtw_alloc_xmitframe in Ea. destruct (queue _ _); simplify_eq. done. }
  destruct Hs as [Hi Hd]. destruct (alloc_spec (mode_of b w0) (f0 :: H) K [] w f w1 Hi (or_introl Ea)) as (I1 & F1 & O1).
  destruct F1 as (P1 & _). destruct (inv_insert _ _ _ [] w1 Q_b2u f I1 P1 ltac:(done)) as [-> I2]. cbn [cbind].
  set (w2 := set_lk _ w1) in *. assert (only f w w2) as O2 by (etrans; [done|apply only_insert]).
  set (w3 := upd_attrib f _ w2). assert (only f w w3) as O3 by (etrans; [done|apply only_attrib]).
  eapply rp_mono; [apply IH|].
  - split; [|etrans; [done|apply keeps_drifts, O3]].
    apply (inv_off _ _ _ [(Q_b2u, -1)]); [|off_solve..]. apply (inv_pkt _ _ K); [done|by eapply inv_hand|done| |done].
    intros q Hq. assert (q = Q_b2u) as ->; [|done].
    apply (queue_unique (lk w2) q Q_b2u f); [by eapply inv_nodup_lk|done|]. cbn [set_lk lk w2]. set_solver.
  - intros [r w4] [S4 E4]. split; [done|]. unfold same_frame in *. rewrite E4.
    apply (o_fr _ _ _ O3). intros ->. by apply hands_differ in I1.
Qed.
Lemma copies_sent f0 H K fs : ∀ res w, sending (f0 :: H) K w → NoDup fs → (∀ f, f ∈ fs → (Q_b2u, f) ∈ w.(lk)) →
  rp (send_copies e fs res w) (λ r, sending (f0 :: H) K r.2 ∧ same_frame f0 w r.2).
Proof.
  induction fs as [|f fs IH]; intros res w Hs Hn Hq; simpl; [done|]. apply NoDup_cons in Hn as [Hf Hn].
  assert ((Q_b2u, f) ∈ lk w) as Hl by (apply Hq; left). pose proof (i_facts _ _ _ _ _ (proj1 Hs) _ _ Hl) as Hx. cbn in Hx.
  set (w1 := set_lk (list_delete f (lk w)) w).
  assert (sending (f :: f0 :: H) K w1) as S1.
  { destruct Hs as [Hi Hd]. split; [|etrans; [done|apply keeps_drifts, (only_unlink f w)]].
    apply (inv_off _ _ _ [(Q_b2u, 1)]); [by apply inv_unlink|off_solve..]. }
  assert (f0 ≠ f) as Hne by apply not_eq_sym, (hands_differ _ _ _ _ _ _ (proj1 S1)).
  assert (∀ res w', sending (f0 :: H) K w' → moves f w w' →
    rp (send_copies e fs res w') (λ r, sending (f0 :: H) K r.2 ∧ same_frame f0 w r.2)) as Hrest.
  { intros res' w' S' M'. eapply rp_mono; [apply IH; [done|done|]|].
    - intros g Hg. apply (m_links _ _ _ M'); [set_solver|]. apply Hq. by right.
    - intros r [S2 E2]. split; [done|]. unfold same_frame in *. by rewrite E2, (m_fr _ _ _ M'). }
  destruct (copies e _).
  - set (w2 := upd_fr f _ _). assert (only f w w2) as O2.
    { etrans; [apply (only_unlink f)|]. etrans; [by apply (only_same f w1 (set_pkts (done w1) (S (made w1)) w1))|apply only_upd_fr]. }
    assert (sending (f :: f0 :: H) K w2) as S2.
    { split; [|destruct Hs; etrans; [done|apply keeps_drifts, O2]]. pose proof (inv_make _ _ _ _ w1 (proj1 S1)) as I1.
      apply (inv_fr_hand _ _ (made w1 :: K)); [exact I1|done|].
      cbn. by rewrite Hx. }
    apply rp_bind. eapply rp_mono; [apply (posthandle_spec (f0 :: H) K K w2 f (made w1)); [done|]|].
    + right. split; [|done]. cbn. by rewrite upd_eq.
    + intros [r w3] [S3 M3]. cbn [fst snd] in *. apply Hrest; [by destruct (r <? 0)|]. etrans; [by apply only_moves|done].
  - apply rp_bind. eapply rp_mono; [apply free_frame_spec, (inv_fr_hand _ _ K K); [apply S1|done|cbn; by rewrite Hx]|].
    intros w2 (I2 & O2 & _). apply Hrest.
    + split; [done|]. destruct S1. etrans; [done|]. apply keeps_drifts. etrans; [apply (only_upd_fr f)|apply O2].
    + apply only_moves. etrans; [apply (only_unlink f)|]. etrans; [apply (only_upd_fr f)|apply O2].
Qed.

(** ** The packet of the caller *)
(** An access point gives back a packet without a header, but not the frame. *)
Lemma xmit_spec p hdr w : sending L [p] w →
  rp (rtw_xmit e p hdr w) (λ r, ∃ L', (length L' ≤ runt e hdr)%nat ∧ sending (L' ++ L) (if r.1 <? 0 then [p] else []) r.2).
Proof.
  intros Hs. assert (∀ m, rp m (λ r, sending L (if r.1 <? 0 then [p] else []) r.2) →
    rp m (λ r, ∃ L', (length L' ≤ runt e hdr)%nat ∧ sending (L' ++ L) (if r.1 <? 0 then [p] else []) r.2)) as Hno.
  { intros m Hm. eapply rp_mono; [exact Hm|]. intros r Hr. exists []. split; [simpl; lia|done]. } unfold rtw_xmit. destruct (rtw_alloc_xmitframe w) as [[f|] w1] eqn:Ea.
  2: { apply Hno. unfold rtw_alloc_xmitframe in Ea. destruct (queue _ _); simplify_eq. done. }
  destruct Hs as [Hi Hd]. destruct (alloc_spec _ _ _ _ _ _ _ Hi (or_introl Ea)) as (I1 & F1 & O1). destruct F1 as (P1 & _).
  assert (sending (f :: L) [p] w1) as S1 by (split; [done|etrans; [done|apply keeps_drifts, O1]]).
  assert (∀ K w2, sending (f :: L) K w2 → (fr w2 f).(pkt) = None ∧ K = [p] ∨ (fr w2 f).(pkt) = Some p ∧ K = [] →
    rp (rtw_xmit_posthandle e f p (upd_fr f (set_pkt None) w2)) (λ r, sending L (if r.1 <? 0 then [p] else []) r.2)) as Hpost.
  { intros K w2 [I2 D2] Hp. eapply rp_mono; [apply (posthandle_spec L [p] [] _ f p)|].
    - split; [|etrans; [done|apply keeps_drifts, (only_upd_fr f)]]. apply (inv_fr_hand _ _ K); [done|done|].
      by destruct Hp as [[-> ->]|[-> ->]].
    - left. split; [|done]. cbn. by rewrite upd_eq.
    - by intros r [? _]. }
  case_eq (is_ap e); intros Eap; cbn [cbind].
  2: { apply Hno, (Hpost [p]); [done|by left]. }
  destruct hdr as [[da sa]|]; [apply Hno|exists [f]; split; [unfold runt; rewrite Eap; cbn; lia|done]]. unfold rtw_ap_addr_resolve.
  set (w2 := upd_fr f _ w1). assert (sending (f :: L) [] w2 ∧ (fr w2 f).(pkt) = Some p) as [S2 P2].
  { destruct S1. split; [split; [|etrans; [done|apply keeps_drifts, (only_upd_fr f)]]|cbn; by rewrite upd_eq].
    apply (inv_fr_hand _ _ [p]); [done|done|]. cbn. by rewrite P1. }
  apply rp_bind, (rp_mono _ (λ r, sending (f :: L) [] r.2 ∧ (fr r.2 f).(pkt) = Some p ∧ r.1 ≠ RA_fail)).
  - apply rp_bind, (rp_mono _ (λ r, sending (f :: L) [] r.2 ∧ (fr r.2 f).(pkt) = Some p)).
    + destruct (_ && _); [|done]. eapply rp_mono; [by apply copies_listed|]. intros r [? E]. split; [done|]. unfold same_frame in E. by rewrite E.
    + intros [need w3] [S3 P3]. cbn [fst snd] in *. destruct need; [|done]. cbn. rewrite upd_eq. split; [|done].
      destruct S3. split; [by apply inv_attrib_hand|etrans; [done|apply keeps_drifts, (only_attrib f)]].
  - intros [res w3] (S3 & P3 & Hr). cbn [fst snd] in *.
    assert (∀ (k : ra_res → xw → cres (Z * xw)) Φ, (∀ res w4, sending (f :: L) [] w4 → (fr w4 f).(pkt) = Some p → rp (k res w4) Φ) →
      rp (let* (res, w) := send_copies e (queue (lk w3) Q_b2u) res w3 in k res w) Φ) as Hc.
    { intros k Φ Hk. apply rp_bind. eapply rp_mono; [apply (copies_sent f L []); [done| |]|].
      - eapply queue_NoDup, inv_nodup_lk, S3.
      - intros g. by rewrite elem_of_queue.
      - intros [r w4] [S4 E4]. cbn [fst snd] in *. apply Hk; [done|]. unfold same_frame in E4. by rewrite E4. }
    destruct res; [|done|]; apply Hc; intros res w4 S4 P4; destruct res.
    all: try (apply (Hpost []); [done|by right]).
    all: apply rp_bind; eapply rp_mono; [apply free_frame_spec, S4|]; intros w5 (I5 & O5 & _); cbn;
      split; [done|]; destruct S4; (etrans; [done|]); apply keeps_drifts, O5.
Qed.
End Entry.

Lemma xmit_entry_spec b e hdr w : good b w → attribs_ok e w → (b = true → e.(is_ap) = true) →
  rp (rtw_xmit_entry e hdr w) (λ w', ∃ L', (length L' ≤ runt e hdr)%nat ∧ XmitQueuePs.good (L' ++ L) b w').
Proof.
  intros Hg Hat Hap. unfold rtw_xmit_entry. apply rp_bind.
  eapply rp_mono; [apply (xmit_spec b e w Hg Hat Hap (made w) hdr)|].
  - split; [apply inv_make, Hg|by apply keeps_drifts, (only_same 0%nat)].
  - intros [r w'] (L' & Hl & Hi & Hd). cbn [fst snd rp] in *. exists L'. split; [done|]. destruct (r <? 0).
    + apply (good_lost L _ b w); [done|etrans; [done|by apply keeps_drifts, (only_same 0%nat)]|].
      apply inv_done. eapply inv_aside, aside_drop. done.
    + by apply (good_lost L _ b w).
Qed.

(** ** Management frames *)
Lemma mgmt_decides f w :
  rp (mgmt_xmitframe_enqueue_for_sleeping_sta f w) (λ r, r.1 ≠ M_queued ∧ r.2 = w) ∨
  ∃ s, (frame_attrib w f).(psta) = Some s ∧ mgmt_sleeps w s = true ∧
    is_broadcast_mac_addr (frame_attrib w f).(ra) = false ∧ (frame_attrib w f).(ps_dontq) = false.
Proof.
  unfold mgmt_xmitframe_enqueue_for_sleeping_sta, mgmt_sleeps. destruct (is_broadcast_mac_addr _), (ps_dontq _); cbn [orb]; try by left.
  destruct (psta _) as [s|]; [|by left]. destruct (has_state w s WIFI_ASOC_STATE) eqn:E1; [|by left]. cbn [negb].
  destruct (_ && _) eqn:E2; [|by left]. right. exists s. by rewrite E1.
Qed.
Lemma mgnt_xmit_spec b e w f : good b w → ∀ w', inv (mode_of b w) (f :: L) [] [] w' → keeps w w' →
  (w'.(fr) f).(ext_tag) = 1 → (w'.(fr) f).(pxmitbuf) ≠ None →
  (frame_attrib w' f).(psta) = rtw_get_stainfo w (frame_attrib w' f).(ra) →
  rp (rtw_hal_mgnt_xmit e f w') (good b).
Proof.
  intros Hg w' Hi Hk He Hx Hp. unfold rtw_hal_mgnt_xmit.
  assert (rp (rtw_dump_xframe e f w') (good b)) as Hd.
  { eapply rp_mono; [by apply (dump_spec (mode_of b w) e L [] [] w' f); [done|done|intros _ E0; rewrite E0 in He]|].
    intros w'' (I2 & O2 & _). apply (good_drifts b w); [done|etrans; apply keeps_drifts; [done|apply O2]|done]. }
  destruct (is_ap e); [|done]. destruct (mgmt_decides f w') as [Hm|(s & E1 & E2 & E3 & E4)].
  - apply rp_bind. eapply rp_mono; [done|]. intros [r w2] [Hr Ew]. cbn [fst snd] in *. subst w2. by destruct r.
  - apply rp_bind. eapply rp_mono; [apply (mgmt_buffer_spec (mode_of b w) L [] [] w' f s); [done|done| |done|done]|].
    + split; [done|]. cbn. by rewrite <- E1, Hp.
    + intros [r w''] (Er & I2 & O2 & _). cbn [rp fst snd] in *. subst r.
      apply (good_drifts b w); [done|etrans; apply keeps_drifts; [done|apply O2]|done].
Qed.
Lemma send_mgmt_spec b e addr1 dontq w : good b w → rp (send_mgmt e addr1 dontq w) (good b).
Proof.
  intros Hg. unfold send_mgmt, alloc_mgtxmitframe. destruct (rtw_alloc_xmitframe_ext w) as [[f|] w1] eqn:Ea.
  2: { unfold rtw_alloc_xmitframe_ext in Ea. destruct (queue _ _); simplify_eq. done. }
  destruct (alloc_spec _ _ _ _ _ _ _ (g_inv _ _ Hg) (or_intror Ea)) as (I1 & _ & O1).
  pose proof (alloc_ext_tag _ _ _ _ _ _ _ (g_inv _ _ Hg) Ea) as T1. pose proof (aside_alloc_xmitbuf_ext w1) as A2.
  destruct (rtw_alloc_xmitbuf_ext w1) as [[x|] w2]; cbn [snd] in A2; pose proof (inv_aside _ _ _ _ _ _ I1 A2) as I2.
  - cbn [cbind]. set (w3 := upd_attrib f _ _).
    assert (inv (mode_of b w) (f :: L) [] [] w3) as I3 by (apply inv_attrib_hand, (inv_fr_hand _ _ []); done).
    assert (keeps w w3) as K3 by (etrans; [apply O1|]; etrans; [by apply keeps_aside|]; etrans; [apply (only_upd_fr f)|apply (only_attrib f)]).
    destruct (cannot_run e).
    { apply rp_bind, (rp_mono _ (aside w3)); [destruct (pxmitbuf _); [apply aside_free_xmitbuf|done]|]. intros w4 A4.
      eapply rp_mono; [apply free_frame_spec; by eapply inv_aside|]. intros w5 (I5 & O5 & _).
      apply (good_drifts b w); [done|apply keeps_drifts|done]. etrans; [exact K3|]. etrans; [by apply keeps_aside|apply O5]. }
    apply (mgnt_xmit_spec b e w f Hg w3 I3 K3).
    + cbn. rewrite !upd_eq. cbn. by rewrite (a_fr _ _ A2).
    + cbn. rewrite !upd_eq. done.
    + unfold frame_attrib. cbn. rewrite !upd_eq. cbn. unfold rtw_get_stainfo. cbn. by rewrite (a_tbl _ _ A2), (k_tbl _ _ (o_keeps _ _ _ O1)).
  - cbn [cbind]. apply rp_bind, rp_bind. eapply rp_mono; [by apply free_frame_spec|]. intros w3 (I3 & O3 & _). cbn.
    apply (good_drifts b w); [done|apply keeps_drifts|done]. etrans; [apply O1|]. etrans; [by apply keeps_aside|apply O3].
Qed.

(** ** The queue of a station that changes *)
Lemma xmit_dequeue_spec b e s w : good b w → (b = true → ¬ sleeper w s) → rp (xmit_dequeue e s w) (good b).
Proof.
  intros Hg Hs. unfold xmit_dequeue. eapply rp_mono.
  - apply (each_linked (λ w', inv (mode_of b w) L [] [] w' ∧ keeps w w')); [eapply inv_nodup_lk, Hg| |by split; [apply Hg|]].
    intros f w' [Hi Hk] Hf. pose proof (i_facts _ _ _ _ _ Hi _ _ Hf) as [F1 F2].
    set (w1 := set_lk _ w'). assert (inv (mode_of b w) (f :: L) [] [] w1) as I1.
    { apply (inv_off _ _ _ [(Q_tx s, 1)]); [by apply inv_unlink|off_solve..]. }
    assert (only f w' w1) as O1 by apply only_unlink. apply rp_bind.
    eapply rp_mono; [apply (pre_xmitframe_spec (mode_of b w) e ltac:(done) L [] [] w1 f I1)|].
    + apply Hk.
    + intros s' E Hb Hz. exfalso. apply (Hs Hb). cbn in E. assert (s' = s) as -> by (unfold frame_attrib in E; cbn in E; congruence).
      rewrite (keeps_asleep w w1) in Hz by (etrans; [exact Hk|apply O1]). unfold asleep in Hz. cbn [set_lk fr w1] in Hz. rewrite F1 in Hz.
      exists (canon (ra (attrib (fr w' f)))). split; [done|]. destruct (IS_MCAST _) eqn:Em.
      * left. by rewrite canon_bc.
      * right. split; [by rewrite canon_bc, Em|]. by apply andb_true_iff in Hz.
    + intros [r w2] (I2 & O2 & _). cbn [rp fst snd] in *. split; [split; [done|]|by etrans].
      etrans; [done|]. etrans; [apply O1|apply O2].
  - intros w' [Hi Hk]. by apply (good_drifts b w); [|apply keeps_drifts|].
Qed.
Lemma queue_clear_spec b e s w : good b w → (b = true → ¬ sleeper w s) → rp (rtw_xmit_queue_clear e s w) (good b).
Proof.
  intros Hg Hs. unfold rtw_xmit_queue_clear. destruct (tx_q_enable _); [|done]. apply xmit_dequeue_spec; [by apply good_st|].
  intros Hb (a & Ha & Hz). apply (Hs Hb). exists a. split; [done|]. destruct Hz as [|(? & E1 & E2)]; [by left|right].
  unfold has_state, aid_of in *. cbn in *. rewrite upd_eq in *. done.
Qed.

(** ** Stations that leave *)
Definition pooled (q : qid) : Prop := match q with Q_free | Q_ext => True | _ => False end.
#[global] Instance pooled_dec q : Decision (pooled q).
Proof. destruct q; simpl; apply _. Defined.
(** Frames only go back to the pools. *)
Definition drains (w w' : xw) : Prop := ∀ q g, ¬ pooled q → (q, g) ∈ w'.(lk) → (q, g) ∈ w.(lk).
#[global] Instance drains_refl : Reflexive drains.
Proof. by intros ? ?. Qed.
#[global] Instance drains_trans : Transitive drains.
Proof. intros ? ? ? H1 H2 q g Hq Hg. by apply H1, H2. Qed.
Lemma drains_out f w w' : only f w w' → freed f w' → drains w w'.
Proof.
  intros Ho Hf q g Hq Hg. destruct (decide (g = f)) as [->|]; [|by apply (o_links _ _ _ Ho)].
  by destruct (Hf _ Hg) as [-> | ->].
Qed.
Lemma drains_empty w w' q : drains w w' → ¬ pooled q → queue w.(lk) q = [] → queue w'.(lk) q = [].
Proof.
  intros Hd Hq E. destruct (queue w'.(lk) q) as [|g r] eqn:Eq; [done|]. exfalso.
  assert (g ∈ queue w'.(lk) q) as Hg%elem_of_queue by (rewrite Eq; left). apply (Hd _ _ Hq), elem_of_queue in Hg. rewrite E in Hg. set_solver.
Qed.

Section Flush.
Context (M : mode) (w0 : xw).
(** The state within a flush, up to the entries [O] of the counters. *)
Definition flushing (O : list (qid * Z)) (w : xw) : Prop := inv M L [] O w ∧ keeps w0 w ∧ drains w0 w.
Lemma flush_loop q body O w : ¬ pooled q →
  (∀ f O w', flushing O w' → (q, f) ∈ w'.(lk) → rp (body f w') (λ w'', flushing ((q, 1) :: O) w'' ∧ only f w' w'' ∧ freed f w'')) →
  flushing O w → rp (each (queue w.(lk) q) body w) (λ w', ∃ n, flushing ((q, n) :: O) w' ∧ queue w'.(lk) q = [] ∧ drains w w').
Proof.
  intros Hq Hb Hw. eapply rp_mono.
  - apply (each_rp (λ fs w', (∃ n, flushing ((q, n) :: O) w') ∧ drains w w' ∧ NoDup fs ∧ ∀ f, f ∈ fs ↔ (q, f) ∈ w'.(lk))).
    + intros f r w' ([n Hf] & Hd & [Hn1 Hn2]%NoDup_cons & Hx). eapply rp_mono; [apply Hb; [done|apply Hx; left]|].
      intros w'' (F2 & O2 & R2). split; [|split; [|split; [done|]]].
      * exists (n + 1). destruct F2 as (I2 & ? & ?). split; [|done]. apply (inv_off _ _ _ _ _ _ I2); off_solve.
      * etrans; [done|by eapply drains_out].
      * intros g. destruct (decide (g = f)) as [->|Hne].
        -- split; [done|]. intros Hg. by destruct (R2 _ Hg) as [-> | ->].
        -- rewrite (o_links _ _ _ O2), <- Hx, elem_of_cons by done. naive_solver.
    + split; [|split; [done|split]].
      * exists 0. destruct Hw as (I & ? & ?). split; [|done]. apply (inv_off _ _ _ _ _ _ I); off_solve.
      * eapply queue_NoDup, inv_nodup_lk, Hw.
      * intros f. apply elem_of_queue.
  - intros w' ([n Hf] & Hd & _ & Hx). exists n. split; [done|]. split; [|done].
    destruct (queue w'.(lk) q) as [|g r] eqn:Eq; [done|]. assert (g ∈ queue w'.(lk) q) as Hg%elem_of_queue%Hx by (rewrite Eq; left). set_solver.
Qed.
Lemma flush_one q f O w : flushing O w → (q, f) ∈ w.(lk) →
  rp (rtw_free_xmitframe f w) (λ w', flushing ((q, 1) :: O) w' ∧ only f w w' ∧ freed f w').
Proof.
  intros (Hi & Hk & Hd) Hf. eapply rp_mono; [by apply free_linked_spec|]. intros w' (I2 & O2 & R2).
  split; [|done]. split; [done|]. split; [etrans; [done|apply O2]|]. etrans; [done|by eapply drains_out].
Qed.
Lemma flush_mgmt_one q f O w : flushing O w → (q, f) ∈ w.(lk) →
  rp (let* w := match (w.(fr) f).(pxmitbuf) with Some b => rtw_free_xmitbuf_ext b w | None => Ret w end in rtw_free_xmitframe f w)
    (λ w', flushing ((q, 1) :: O) w' ∧ only f w w' ∧ freed f w').
Proof.
  intros (Hi & Hk & Hd) Hf. apply rp_bind, (rp_mono _ (aside w)).
  - destruct (pxmitbuf _); [apply aside_free_xmitbuf_ext|done].
  - intros w1 A1. eapply rp_mono; [apply (flush_one q f O w1)|].
    + split; [by eapply inv_aside|]. split; [etrans; [done|by apply keeps_aside]|].
      intros q' g Hq Hg. rewrite (a_lk _ _ A1) in Hg. by apply Hd.
    + by rewrite (a_lk _ _ A1).
    + intros w' (F & O2 & R2). split; [done|]. split; [|done]. etrans; [by apply only_aside|done].
Qed.
(** The counter of a queue that is empty is reset. *)
Lemma flush_reset w w' n q m : flushing [(q, n)] w → queue w.(lk) q = [] → cnt w q = m → counted q →
  inv M L [] ((q, - m) :: [(q, n)]) w' → keeps w w' → w'.(lk) = w.(lk) → flushing [] w'.
Proof.
  intros (Hi & Hk & Hd) Hq Hm Hc I' Hk' El. pose proof (i_cnt _ _ _ _ _ Hi q Hc) as E. rewrite Hq, Hm in E.
  assert (n = m) as ->. { unfold off in E. cbn in E. rewrite decide_True in E by done. lia. }
  split; [apply (inv_off _ _ _ _ _ _ I'); off_solve|]. split; [by etrans|]. intros q' g Hq' Hg. rewrite El in Hg. by apply Hd.
Qed.
Lemma flush_servq_spec s a w : flushing [] w →
  rp (flush_servq s a w) (λ w', flushing [] w' ∧ queue w'.(lk) (Q_pend s a) = [] ∧ drains w w').
Proof.
  intros Hw. unfold flush_servq. apply rp_bind. eapply rp_mono; [apply (flush_loop (Q_pend s a)); [naive_solver|intros; by apply flush_one|done]|].
  intros w1 (n & F1 & E1 & D1). cbn [rp]. split; [|done].
  set (w2 := set_tk _ w1). assert (inv M L [] [(Q_pend s a, n)] w2) as I2 by (apply inv_node_delete; [apply F1|done]).
  apply (flush_reset w1 _ n (Q_pend s a) (qcnt (st w1 s) a)); [done|done|done|done| | |done].
  - exact (inv_pend_cnt M L [] _ w2 s a (- qcnt (st w1 s) a) I2).
  - split; try done. intros s'. cbn. unfold upd. by destruct (decide (s' = s)) as [->|].
Qed.
Lemma reset_sleep_cnt O w s n : inv M L [] O w → (w.(st) s).(sleepq_len) = n →
  inv M L [] ((Q_sleep s, - n) :: O) (upd_st s (set_sleepq_len 0) w).
Proof.
  intros Hi E. apply (inv_st _ _ _ _ [(Q_sleep s, - n)] _ s _ Hi); [|done|apply calm_same; intros; by rewrite asleep_upd_st].
  intros q _. unfold off. destruct q as [| |s' a'|s'|s'|s'|]; simpl; unfold upd; try lia;
    destruct (decide (s' = s)) as [->|]; simpl; try (rewrite decide_True by done); try (rewrite decide_False by congruence); lia.
Qed.
Lemma reset_mgmt_sleep_cnt O w s n : inv M L [] O w → (w.(st) s).(mgmt_sleepq_len) = n →
  inv M L [] ((Q_mgmt_sleep s, - n) :: O) (upd_st s (set_mgmt_sleepq_len 0) w).
Proof.
  intros Hi E. apply (inv_st _ _ _ _ [(Q_mgmt_sleep s, - n)] _ s _ Hi); [|done|apply calm_same; intros; by rewrite asleep_upd_st].
  intros q _. unfold off. destruct q as [| |s' a'|s'|s'|s'|]; simpl; unfold upd; try lia;
    destruct (decide (s' = s)) as [->|]; simpl; try (rewrite decide_True by done); try (rewrite decide_False by congruence); lia.
Qed.
(** The queues of a station. *)
Definition of_sta (s : nat) (q : qid) : Prop :=
  match q with Q_pend s' a => s' = s ∧ (a < HWXMIT_ENTRY)%nat | Q_sleep s' | Q_mgmt_sleep s' | Q_tx s' => s' = s | _ => False end.
Lemma flush_servqs_spec s w : flushing [] w →
  rp (let* w := flush_servq s 0 w in let* w := flush_servq s 1 w in let* w := flush_servq s 2 w in
      let* w := flush_servq s 3 w in flush_servq s MGMT_IDX w)
    (λ w', flushing [] w' ∧ drains w w' ∧ ∀ a, (a < HWXMIT_ENTRY)%nat → queue w'.(lk) (Q_pend s a) = []).
Proof.
  intros F0. do 4 (apply rp_bind; eapply rp_mono; [by apply flush_servq_spec|]; intros ? (? & ? & ?)).
  eapply rp_mono; [by apply flush_servq_spec|]. intros w' (F & E & D). split; [done|]. split; [by repeat (etrans; [done|])|].
  intros ac Ha. do 4 (destruct ac as [|ac]; [eapply drains_empty; [|naive_solver|done]; by repeat (etrans; [eassumption|])|]).
  destruct ac; [done|]. unfold HWXMIT_ENTRY in Ha. lia.
Qed.
Lemma flush_xmit_spec s w : flushing [] w →
  rp (rtw_free_stainfo_flush_xmit s w) (λ w', flushing [] w' ∧ ∀ q, of_sta s q → queue w'.(lk) q = []).
Proof.
  intros F0. unfold rtw_free_stainfo_flush_xmit. apply rp_bind. eapply rp_mono; [apply (flush_loop (Q_tx s)); [naive_solver|intros; by apply flush_one|done]|].
  intros w1 (n1 & (I1 & K1 & D1') & E1 & D1).
  assert (flushing [] w1) as F1 by (split; [apply (inv_off _ _ _ _ _ _ I1); off_solve|done]).
  apply rp_bind. eapply rp_mono; [apply (flush_loop (Q_sleep s)); [naive_solver|intros; by apply flush_one|done]|].
  intros w2 (n2 & F2 & E2 & D2). set (w3 := upd_st s _ w2). assert (flushing [] w3) as F3.
  { apply (flush_reset w2 _ n2 (Q_sleep s) (sleepq_len (st w2 s))); [done|done|done|done|by apply reset_sleep_cnt; [apply F2|]| |done].
    by apply (only_st 0%nat). }
  apply rp_bind. eapply rp_mono; [apply (flush_loop (Q_mgmt_sleep s)); [naive_solver|intros; by apply flush_mgmt_one|done]|].
  intros w4 (n4 & F4 & E4 & D4). set (w5 := upd_st s _ w4). assert (flushing [] w5) as F5.
  { apply (flush_reset w4 _ n4 (Q_mgmt_sleep s) (mgmt_sleepq_len (st w4 s))); [done|done|done|done|by apply reset_mgmt_sleep_cnt; [apply F4|]| |done].
    by apply (only_st 0%nat). }
  eapply rp_mono; [by apply flush_servqs_spec|]. intros w6 (F6 & D6 & E6). split; [done|].
  assert (drains w4 w6) as D46 by done. assert (drains w2 w6) as D26 by (etrans; [exact D4|done]).
  intros q Hq. destruct q as [| |s' a|s'|s'|s'|]; simpl in Hq; try done.
  - destruct Hq as [-> ?]. by apply E6.
  - subst s'. eapply drains_empty; [exact D26|naive_solver|done].
  - subst s'. eapply drains_empty; [exact D46|naive_solver|done].
  - subst s'. eapply drains_empty; [|naive_solver|exact E1]. by etrans.
Qed.
End Flush.

(** ** The table changes *)
(** A frame of a queue of a station is for a station of the table. *)
Lemma queue_sta M H K O w q f : inv M H K O w → (q, f) ∈ w.(lk) →
  pooled q ∨ q = Q_b2u ∨ ∃ s, of_sta s q ∧ to_sta M (w.(fr) f) s.
Proof.
  intros Hi Hf. pose proof (i_facts _ _ _ _ _ Hi _ _ Hf) as Hx. destruct q as [| |s a|s|s|s|]; simpl in *; try (by left); try (by right; left);
    right; right; exists s.
  - destruct Hx as [? Hx]. split; [|done]. split; [done|]. unfold HWXMIT_ENTRY. case_decide as E; [subst; unfold MGMT_IDX; lia|].
    destruct Hx as [-> _]. pose proof (data_ac_lt (priority (attrib (fr w f)))). lia.
  - done.
  - by destruct Hx.
  - done.
Qed.
Lemma of_sta_fun s s' q : of_sta s q → of_sta s' q → s = s'.
Proof. destruct q; simpl; naive_solver. Qed.
Lemma inv_retable b w w' t :
  inv (mode_of b w) L [] [] w' → (∀ q f s, (q, f) ∈ w'.(lk) → of_sta s q → ∀ a, w.(tbl) !! a = Some s → t !! a = Some s) →
  inv {| m_tbl := t; m_strict := λ _, b; m_air := b |} L [] [] w'.
Proof.
  intros Hi Ht. assert (∀ q f, (q, f) ∈ w'.(lk) → fact {| m_tbl := t; m_strict := λ _, b; m_air := b |} w' (w'.(fr) f) q) as Hx; [|by destruct Hi].
  intros q f Hf. pose proof (i_facts _ _ _ _ _ Hi _ _ Hf) as Hx. pose proof (queue_sta _ _ _ _ _ _ _ Hi Hf) as Hs.
  destruct q as [| |s a|s|s|s|]; try done; destruct Hs as [[]|[[=]|(s' & Ho & Hs)]];
    (assert (s' = s) as -> by (by simpl in Ho; naive_solver)); pose proof (Ht _ _ _ Hf Ho _ (proj2 Hs)) as E; destruct Hs as [? _]; simpl in *.
  - destruct Hx as [_ ?]. done.
  - done.
  - destruct Hx. done.
  - done.
Qed.
Lemma good_off_table b w s g : good b w → (∀ a, w.(tbl) !! a ≠ Some s) →
  (∀ a, (g (w.(st) s)).(qcnt) a = (w.(st) s).(qcnt) a) → (g (w.(st) s)).(sleepq_len) = (w.(st) s).(sleepq_len) →
  (g (w.(st) s)).(mgmt_sleepq_len) = (w.(st) s).(mgmt_sleepq_len) → good b (upd_st s g w).
Proof.
  intros [Hi [S1 S2 S3] Ha] Ht H1 H2 H3.
  assert (∀ a s', tbl w !! a = Some s' → st (upd_st s g w) s' = st w s') as Hst.
  { intros a s' E. cbn. apply upd_ne. intros ->. by apply (Ht a). }
  assert (∀ a s' bit, tbl w !! a = Some s' → has_state (upd_st s g w) s' bit = has_state w s' bit ∧ aid_of (upd_st s g w) s' = aid_of w s') as Hsa.
  { intros a s' bit E. unfold has_state, aid_of. by rewrite (Hst _ _ E). }
  split.
  - apply (inv_st _ _ _ _ [] _ s g Hi); [|done|].
    + intros [| |s' a'|s'|s'|s'|] _; simpl; unfold upd; try (destruct (decide (s' = s)) as [->|]); rewrite ?H1, ?H2, ?H3; unfold off; simpl; lia.
    + intros a s' E1 E2 _. cbn in E2. unfold asleep. rewrite E1. destruct (Hsa _ _ WIFI_SLEEP_STATE E2) as [-> ->]. done.
  - split; intros a s' E; cbn [upd_st set_st tbl] in E.
    + rewrite (Hst _ _ E). by apply S1.
    + rewrite (proj1 (Hsa _ _ _ E)). by eapply S2.
    + rewrite (proj2 (Hsa _ _ 0 E)). by eapply S3.
  - intros Hb. destruct (Ha Hb) as [A1 A2]. split.
    + intros a s' E. rewrite (proj2 (Hsa _ _ 0 E)). by apply A1.
    + intros a a' s1 s2 E1 E2. rewrite (proj2 (Hsa _ _ 0 E1)), (proj2 (Hsa _ _ 0 E2)). by eapply A2.
Qed.

(** [rtw_free_stainfo] up to the flush, for a station of the table. *)
Lemma leave_state w s b : good b w → w.(tbl) !! canon (w.(st) s).(s_mac) = Some s →
  let w1 := set_tbl (delete (canon (w.(st) s).(s_mac)) w.(tbl)) (filter (λ x, x ≠ s) w.(asoc_list)) w in
  let w2 := upd_st s (λ p, set_state (p.(state) .& Z.lnot WIFI_ASOC_STATE) p) w1 in
  inv (mode_of b w) L [] [] w2.
Proof.
  intros Hg Ht w1 w2. assert (inv (mode_of b w) L [] [] w1) as I1 by (apply (inv_same _ _ _ _ w); try done; [by apply calm_same|apply Hg]).
  apply inv_st_static; [done|done|done|done|]. intros a s' E1 _ _. unfold asleep. rewrite E1. destruct (IS_MCAST _); [done|].
  rewrite !andb_true_iff. intros [Hz Hd]. unfold has_state, aid_of in *. cbn in Hz, Hd |- *. unfold upd in Hz, Hd.
  destruct (decide (s' = s)) as [->|]; [|done]. split; [|done]. cbn in Hz. rewrite <- Z.land_assoc in Hz. exact Hz.
Qed.
Lemma left_table w s b a s' : good b w → delete (canon (w.(st) s).(s_mac)) w.(tbl) !! a = Some s' →
  w.(tbl) !! a = Some s' ∧ s' ≠ s.
Proof.
  intros Hg [Hne E]%lookup_delete_Some. split; [done|]. intros ->. by apply Hne, (si_mac _ (g_sinv _ _ Hg)).
Qed.
Lemma sta_leave_spec b w s : good b w → w.(tbl) !! canon (w.(st) s).(s_mac) = Some s →
  let w1 := set_tbl (delete (canon (w.(st) s).(s_mac)) w.(tbl)) (filter (λ x, x ≠ s) w.(asoc_list)) w in
  let w2 := upd_st s (λ p, set_state (p.(state) .& Z.lnot WIFI_ASOC_STATE) p) w1 in
  rp (rtw_free_stainfo_flush_xmit s w2) (λ w', good b w' ∧ ∀ a, w'.(tbl) !! a ≠ Some s).
Proof.
  intros Hg Ht w1 w2. eapply rp_mono; [apply (flush_xmit_spec (mode_of b w) w2)|].
  { split; [by apply leave_state|]. split; done. }
  intros w' ((Hi & Hk & _) & He). pose proof (k_tbl _ _ Hk : tbl w' = delete (canon (s_mac (st w s))) (tbl w)) as Et.
  assert (∀ s', s' ≠ s → stat (st w' s') = stat (st w s')) as Hst.
  { intros s' Hne. rewrite (k_stat _ _ Hk). cbn. by rewrite upd_ne. }
  assert (∀ a s', tbl w' !! a = Some s' → tbl w !! a = Some s' ∧ stat (st w' s') = stat (st w s')) as Htw.
  { intros a s' E. rewrite Et in E. destruct (left_table w s b a s' Hg E). auto. }
  split; [split|].
  - unfold mode_of. rewrite Et. apply (inv_retable b w); [done|]. intros q f s' Hf Ho a Ea. apply lookup_delete_Some. split; [|done].
    intros <-. assert (s' = s) as -> by congruence. apply elem_of_queue in Hf. rewrite (He _ Ho) in Hf. set_solver.
  - destruct (g_sinv _ _ Hg) as [S1 S2 S3]. split; intros a s' E; destruct (Htw _ _ E) as [E' Es].
    + rewrite (stat_mac _ _ Es). by apply S1.
    + unfold has_state. destruct (stat_state _ _ Es) as [-> _]. by eapply S2.
    + unfold aid_of. destruct (stat_state _ _ Es) as [_ ->]. rewrite (k_dz _ _ Hk). by eapply S3.
  - intros Hb. destruct (g_ainv _ _ Hg Hb) as [A1 A2]. split.
    + intros a s' E. destruct (Htw _ _ E) as [E' Es]. unfold aid_of. destruct (stat_state _ _ Es) as [_ ->]. by apply A1.
    + intros a a' s1 s2 E1 E2. destruct (Htw _ _ E1) as [E1' Es1], (Htw _ _ E2) as [E2' Es2]. unfold aid_of.
      destruct (stat_state _ _ Es1) as [_ ->], (stat_state _ _ Es2) as [_ ->]. by eapply A2.
  - intros a E. rewrite Et in E. by destruct (left_table w s b a s Hg E).
Qed.
Lemma free_stainfo_spec b e w s : good b w → w.(tbl) !! canon (w.(st) s).(s_mac) = Some s → rp (rtw_free_stainfo e s w) (good b).
Proof.
  intros Hg Ht. unfold rtw_free_stainfo. apply rp_bind. eapply rp_mono; [by apply sta_leave_spec|]. intros w' [Hg' Ht']. cbn [rp].
  apply good_off_table; [|by destruct (is_ap e)|done|done|done]. destruct (is_ap e); [by apply good_clear|done].
Qed.

(** ** Stations that join *)
Lemma join_spec b w s mac aid qos : good b w → (∀ a, w.(tbl) !! a ≠ Some s) → w.(tbl) !! canon mac = None →
  (Z.to_nat (u8 aid / 8) < length w.(sta_dz_bitmap))%nat →
  (b = true → (canon mac ≠ bc_addr → 1 ≤ aid ≤ 255) ∧ ∀ a s', w.(tbl) !! a = Some s' → aid_of w s' ≠ aid) →
  good b (add_stainfo s mac aid qos w).
Proof.
  intros Hg Hs Hm Hl Ha. unfold add_stainfo. set (g := λ _ : sta, _).
  assert (∀ q, of_sta s q → queue w.(lk) q = []) as Hq.
  { intros q Ho. destruct (queue w.(lk) q) as [|f r] eqn:Eq; [done|]. assert (f ∈ queue w.(lk) q) as Hf%elem_of_queue by (rewrite Eq; left).
    destruct (queue_sta _ _ _ _ _ _ _ (g_inv _ _ Hg) Hf) as [Hp|[-> |(s' & Ho' & _ & Hx)]]; [by destruct q|done|].
    assert (s' = s) as -> by by eapply of_sta_fun. by destruct (Hs _ Hx). }
  assert (∀ q, of_sta s q → counted q → cnt w q = 0) as Hc.
  { intros q Ho Hc. by rewrite (i_cnt _ _ _ _ _ (g_inv _ _ Hg) q Hc), (Hq q Ho). }
  assert (good b (upd_st s g w)) as Hg1.
  { apply good_off_table; [done|done| | |].
    - intros a. cbn. destruct (decide (a < HWXMIT_ENTRY)%nat) as [Hlt|Hge]; [symmetry; by apply (Hc (Q_pend s a))|].
      pose proof (i_cnt _ _ _ _ _ (g_inv _ _ Hg) (Q_pend s a) I) as E. cbn in E. rewrite E.
      destruct (queue (lk w) (Q_pend s a)) as [|f r] eqn:Eq; [done|]. assert (f ∈ queue w.(lk) (Q_pend s a)) as Hf%elem_of_queue by (rewrite Eq; left).
      destruct (queue_sta _ _ _ _ _ _ _ (g_inv _ _ Hg) Hf) as [[]|[[=]|(s' & [-> Hlt] & _)]]. lia.
    - symmetry. by apply (Hc (Q_sleep s)).
    - symmetry. by apply (Hc (Q_mgmt_sleep s)). }
  set (w1 := upd_st s g w) in *. assert (st w1 s = g (st w s)) as Es by (cbn; by rewrite upd_eq).
  destruct Hg1 as [I1 [S1 S2 S3] A1]. split.
  - cbn. apply (inv_same _ _ _ _ w1); try done; [by apply calm_same|]. apply (inv_retable b w1); [done|]. intros _ _ s' _ _ a E. apply lookup_insert_Some. right. split; [|done].
    intros <-. cbn in E. by rewrite Hm in E.
  - split; intros a s'; cbn [set_tbl tbl]; (intros [[<- <-]|[Hne E]]%lookup_insert_Some; [|by eauto]).
    + cbn [set_tbl st]. by rewrite Es.
    + unfold has_state. cbn [set_tbl st]. by rewrite Es.
    + unfold aid_of. cbn [set_tbl st]. by rewrite Es.
  - intros Hb. destruct (A1 Hb) as [R1 R2]. destruct (Ha Hb) as [Ha1 Ha2]. assert (aid_of w1 s = aid) as Ea by (unfold aid_of; by rewrite Es).
    assert (∀ a s', tbl w !! a = Some s' → aid_of w1 s' ≠ aid) as Ha3.
    { intros a s' E. unfold aid_of. cbn. rewrite upd_ne; [by eapply Ha2|]. intros ->. by apply (Hs a). }
    split.
    + intros a s'; cbn [set_tbl tbl]; intros [[<- <-]|[Hne E]]%lookup_insert_Some; [|by apply R1].
      change (canon mac ≠ bc_addr → 1 ≤ aid_of w1 s ≤ 255). by rewrite Ea.
    + intros a a' s1 s2; cbn [set_tbl tbl]. change (aid_of (set_tbl _ _ w1) s1 = aid_of (set_tbl _ _ w1) s2) with (aid_of w1 s1 = aid_of w1 s2).
      intros [[<- <-]|[Hne E]]%lookup_insert_Some [[<- <-]|[Hne' E']]%lookup_insert_Some; [done| | |by eapply R2]; rewrite Ea; intros Eq.
      * by destruct (Ha3 _ _ E').
      * by destruct (Ha3 _ _ E).
Qed.
End Lost.
