(* ===== verification/XmitQueueRun.v ===== *)
(** * The transmit queues: every sequence of operations

    An adapter starts with its pools full and then runs any operations in any
    order: packets and management frames to send, the tasklet, completions of the
    USB core, power saving of the stations, stations that join and leave.  What
    holds of every state so reached is the invariant of XmitQueueInv; here it is
    read as what users of the queues rely on. *)
From S2P Require Import Prelude.
From stdpp Require Import list gmap.
From S2P Require Import StaTable WepTkip XmitAttrib RxValidate XmitQueue XmitQueueInv XmitQueueOps XmitQueuePs XmitQueueSafe.
Local Open Scope Z_scope.
#[local] Opaque NR_FRAMES NR_XMITFRAME NR_XMIT_EXTBUFF.

(** When the driver runs an operation.  A packet gets the station the table has for
    its receiver; only an access point sees stations sleep, and only stations of
    its table; a station that joins has a record not in use, a new address and an
    identifier the bitmaps have room for.  With [b], for what is said of stations
    asleep, identifiers are also distinct, packets are sent as an access point, and
    held frames are released only when the station is awake: the driver does not
    ensure that ([held_frames_reach_sleeper] in XmitQueueLive). *)
Definition legal (b : bool) (e : env) (o : op) (w : xw) : Prop :=
  match o with
  | OpXmit hdr => attribs_ok e w ∧ (b = true → e.(is_ap) = true)
  | OpTasklet => e.(wifi_spec) = true → Forall (λ a, a ≠ MGMT_IDX) e.(wmm_para_seq)
  | OpSleep s => e.(is_ap) = true ∧ w.(tbl) !! canon (w.(st) s).(s_mac) = Some s ∧ IS_MCAST (w.(st) s).(s_mac) = false
  | OpTxClear s => b = true → ¬ sleeper w s
  | OpJoin s mac aid _ =>
      (∀ a, w.(tbl) !! a ≠ Some s) ∧ w.(tbl) !! canon mac = None ∧ (Z.to_nat (u8 aid / 8) < length w.(sta_dz_bitmap))%nat ∧
      (b = true → (IS_MCAST mac = false → 1 ≤ aid ≤ 255) ∧ ∀ a s', w.(tbl) !! a = Some s' → aid_of w s' ≠ aid)
  | OpFree s => w.(tbl) !! canon (w.(st) s).(s_mac) = Some s
  | _ => True
  end.
Fixpoint run (l : list (env * op)) (w : xw) : cres xw :=
  match l with [] => Ret w | (e, o) :: l => let* w := step e o w in run l w end.
(** How many packets without an Ethernet header an access point is given. *)
Definition runts (l : list (env * op)) : nat := sum_list (map (λ x, match x.2 with OpXmit hdr => runt x.1 hdr | _ => 0%nat end) l).
Fixpoint legal_run (b : bool) (l : list (env * op)) (w : xw) : Prop :=
  match l with [] => True | (e, o) :: l => legal b e o w ∧ ∀ w', step e o w = Ret w' → legal_run b l w' end.

(** ** The start *)
Lemma queue_pairs {Q N} `{EqDecision Q} (q q' : Q) (l : list N) : queue (map (pair q) l) q' = if decide (q = q') then l else [].
Proof. induction l as [|x l IH]; [by case_decide|]. cbn [map]. rewrite queue_cons, IH. by case_decide. Qed.
Lemma init_queue n q : queue (init_xw n).(lk) q =
  match q with Q_free => seq 0 NR_XMITFRAME | Q_ext => seq NR_XMITFRAME NR_XMIT_EXTBUFF | _ => [] end.
Proof. unfold init_xw. cbn [lk]. rewrite queue_app, !queue_pairs. destruct q; cbn; by rewrite ?app_nil_r. Qed.
Lemma init_link n q f : (q, f) ∈ (init_xw n).(lk) →
  q = Q_free ∨ q = Q_ext ∧ (NR_XMITFRAME ≤ f)%nat.
Proof. rewrite <- elem_of_queue, init_queue. destruct q; rewrite ?elem_of_nil, ?elem_of_seq; try done; [by left|]. right. split; [done|lia]. Qed.
Lemma init_good b n : good [] b (init_xw n).
Proof.
  split; [|by split; intros a s; cbn; rewrite lookup_empty|by split; intros ??; cbn; rewrite ?lookup_empty].
  split.
  - unfold init_xw. cbn [lk]. rewrite app_nil_r, fmap_app. change (map (pair ?q) ?l) with (pair q <$> l).
    rewrite <- !list_fmap_compose. unfold compose. cbn. rewrite !list_fmap_id. change NR_FRAMES with (NR_XMITFRAME + NR_XMIT_EXTBUFF)%nat.
    by rewrite seq_app.
  - intros q Hq. rewrite init_queue. destruct q; try done; cbn; by rewrite length_seq, Z.add_0_r.
  - intros a. cbn [accnt init_xw]. assert (filter (λ x, in_ac a x.1) (init_xw n).(lk) = []) as ->; [|done].
    destruct (filter _ _) as [|[q f] r] eqn:E; [done|]. assert ((q, f) ∈ filter (λ x, in_ac a x.1) (init_xw n).(lk)) as Hx by (rewrite E; left).
    apply list_elem_of_filter in Hx as [Hx [-> |[-> _]]%init_link]; done.
  - intros s a. by rewrite init_queue.
  - split; [by apply NoDup_nil_2|]. intros x Hx. by apply elem_of_nil in Hx.
  - intros q f [-> |[-> Hf]]%init_link; [done|]. split; [done|]. cbn [init_xw fr ext_tag]. by rewrite (proj2 (Nat.ltb_ge _ _) Hf).
  - assert (held (init_xw n) = []) as ->; [|done]. unfold held. by induction (seq 0 NR_FRAMES).
  - done.
  - done.
Qed.

(** ** The steps *)
(** The state after an operation that loses at most [n] frames. *)
Definition loses (n : nat) (L : list nat) (b : bool) (w : xw) : Prop := ∃ L', (length L' ≤ n)%nat ∧ good (L' ++ L) b w.
Lemma loses_none n L b w : good L b w → loses n L b w.
Proof. intros Hg. exists []. split; [simpl; lia|done]. Qed.
Lemma step_keeps L b e o w : good L b w → legal b e o w → (∀ hdr, o ≠ OpXmit hdr) → rp (step e o w) (good L b).
Proof.
  intros Hg Hl Hx. destruct o; simpl in Hl |- *.
  - by destruct (Hx hdr).
  - by apply send_mgmt_spec.
  - eapply rp_mono; [apply (tasklet_spec (mode_of b w) e ltac:(done) Hl L [] w), Hg|].
    intros w' (Hi & Hk & _). by apply (good_drifts b w); [|apply keeps_drifts|].
  - unfold usb_write_port_complete. eapply rp_mono; [apply aside_free_xmitbuf|]. intros w' A.
    assert (aside w w') as A' by (etrans; [|exact A]; done).
    apply (good_drifts b w); [done|by apply keeps_drifts, keeps_aside|]. by eapply inv_aside; [apply Hg|].
  - destruct Hl as (? & ? & Hm). apply stop_spec; [done..|]. by rewrite canon_bc, Hm.
  - by apply wakeup_spec.
  - by apply trigger_spec.
  - by apply ps_poll_spec.
  - by apply chk_bmc_spec.
  - by apply hiq_spec.
  - by apply good_st.
  - by apply queue_clear_spec.
  - destruct Hl as (? & ? & ? & Hb). apply join_spec; [done..|]. intros E. destruct (Hb E) as [Hr Hd]. split; [|done].
    rewrite canon_bc. intros Hm. apply Hr. by destruct (IS_MCAST mac).
  - by apply free_stainfo_spec.
Qed.
Lemma step_spec L b e o w : good L b w → legal b e o w →
  rp (step e o w) (loses (match o with OpXmit hdr => runt e hdr | _ => 0%nat end) L b).
Proof.
  intros Hg Hl. destruct o; try (eapply rp_mono; [by apply (step_keeps L b)|]; intros w' G; by apply loses_none).
  destruct Hl. by apply xmit_entry_spec.
Qed.
Lemma run_good b l : ∀ L w, good L b w → legal_run b l w → rp (run l w) (loses (runts l) L b).
Proof.
  induction l as [|[e o] l IH]; intros L w Hg Hl; [by apply loses_none|]. destruct Hl as [Hl Hr].
  destruct (rp_ret _ _ (step_spec L b e o w Hg Hl)) as (w' & E & L1 & Hn & Hg'). cbn [run]. rewrite E.
  eapply rp_mono; [apply (IH _ w' Hg'), Hr, E|]. intros w'' (L2 & Hn2 & Hg2). exists (L2 ++ L1). rewrite <- app_assoc. split; [|done].
  unfold runts in *. cbn [map sum_list snd fst]. rewrite length_app. cbn. lia.
Qed.
Lemma run_init b n l : legal_run b l (init_xw n) → ∃ w lost, run l (init_xw n) = Ret w ∧ (length lost ≤ runts l)%nat ∧ good lost b w.
Proof.
  intros Hl. destruct (rp_ret _ _ (run_good b l _ _ (init_good b n) Hl)) as (w & E & L' & Hn & Hg).
  rewrite app_nil_r in Hg. eauto.
Qed.

(** ** What every state reached has *)
(** Each frame in one queue or lost, each counter the length of its queue, each service
    queue with frames in the list of its category and there once, each frame that
    waits for a station with that station's record, which the table has under the
    receiver's address. *)
Record well_queued (lost : list nat) (w : xw) : Prop := {
  wq_links : w.(lk).*2 ++ lost ≡ₚ seq 0 NR_FRAMES;
  wq_cnt q : counted q → cnt w q = Z.of_nat (length (queue w.(lk) q));
  wq_acc a : w.(accnt) a = Z.of_nat (length (filter (λ x, in_ac a x.1) w.(lk)));
  wq_servq s a : queue w.(lk) (Q_pend s a) ≠ [] → (a, (s, a)) ∈ w.(tk);
  wq_nodes : NoDup w.(tk).*2;
  wq_sta s q f : of_sta s q → (q, f) ∈ w.(lk) →
    (frame_attrib w f).(psta) = Some s ∧ w.(tbl) !! canon (frame_attrib w f).(ra) = Some s;
  wq_ac s a f : (Q_pend s a, f) ∈ w.(lk) → a = MGMT_IDX ∨ a = rtw_get_sta_pending (frame_attrib w f).(priority)
}.
Lemma good_well_queued L b w : good L b w → well_queued L w.
Proof.
  intros [Hi _ _]. split.
  - apply (i_links _ _ _ _ _ Hi).
  - intros q Hq. rewrite (i_cnt _ _ _ _ _ Hi q Hq). unfold off. simpl. lia.
  - intros a. rewrite (i_acc _ _ _ _ _ Hi a). unfold off_ac. simpl. lia.
  - apply (i_servq _ _ _ _ _ Hi).
  - apply (i_nodes _ _ _ _ _ Hi).
  - intros s q f Ho Hf. destruct (queue_sta _ _ _ _ _ _ _ Hi Hf) as [Hp|[-> |(s' & Ho' & Hx)]]; [by destruct q|done|].
    by assert (s' = s) as -> by by eapply of_sta_fun.
  - intros s a f Hf. destruct (i_facts _ _ _ _ _ Hi _ _ Hf) as [_ Hx]. case_decide; [by left|]. right. apply Hx.
Qed.

(** C2: No sequence of operations on the transmit queues, from the initialised
    adapter on, corrupts a list: none inserts a node that is linked, frees a frame
    of no pool, sends a frame without a buffer, or runs its loops for ever.  After
    each sequence every frame is in exactly one queue, every counter is the length
    of its queue, every service queue with frames is listed, once, in its category,
    and the frames of a station's queues belong to a station of the table.  The one
    way to lose a frame is an access point that is given a packet without an
    Ethernet header: it loses at most one for each such packet, and none otherwise.
    The operations are those of [legal false]: a packet gets the station the table
    has for its receiver, the categories served are data categories, a station that
    falls asleep or leaves is in the table (and the driver an access point when it
    sleeps), one that joins has a record not in use, a new address and an
    identifier within the bitmaps. *)
Theorem queues_never_corrupt n (l : list (env * op)) : legal_run false l (init_xw n) →
  ∃ w lost, run l (init_xw n) = Ret w ∧ well_queued lost w ∧ (length lost ≤ runts l)%nat.
Proof.
  intros Hl. destruct (run_init false n l Hl) as (w & lost & E & Hn & Hg). exists w, lost. split; [done|]. split; [|done].
  by eapply good_well_queued.
Qed.

(** C3: After any sequence of operations, every packet the network stack handed
    over and every copy made of one was given back exactly once, or is attached to
    exactly one frame: no packet is lost, none is freed twice.  The operations are
    those of [legal false], as for [queues_never_corrupt]. *)
Theorem packets_exactly_once n (l : list (env * op)) : legal_run false l (init_xw n) →
  ∃ w, run l (init_xw n) = Ret w ∧ w.(done) ++ omap (λ f, (w.(fr) f).(pkt)) (seq 0 NR_FRAMES) ≡ₚ seq 0 w.(made).
Proof.
  intros Hl. destruct (run_init false n l Hl) as (w & lost & E & _ & Hg).
  exists w. split; [done|]. rewrite <- (i_pkts _ _ _ _ _ (g_inv _ _ Hg)). by rewrite app_nil_r.
Qed.

(** C4: On an access point whose stations have distinct identifiers from 1 to 255,
    a data frame that is handed to the hardware while its receiver sleeps (any
    station, for a group address) was released for it: by PS-Poll, by a trigger,
    after a beacon or by its waking up.  This holds in every sequence of the
    operations of [legal true], which leave out one that the driver performs:
    [rtw_xmit_queue_clear] for a station that fell asleep while [tx_queue] held
    frames for it sends them ([held_frames_reach_sleeper]); apart from frames so
    held, no other data frame goes out to a station that sleeps. *)
Theorem sleepers_get_what_they_asked n (l : list (env * op)) : legal_run true l (init_xw n) →
  ∃ w, run l (init_xw n) = Ret w ∧
    ∀ x, (x, true) ∈ w.(air) → x.(ext_tag) = 0 → x.(attrib).(triggered) = 1.
Proof.
  intros Hl. destruct (run_init true n l Hl) as (w & lost & E & _ & Hg).
  exists w. split; [done|]. intros x Hx Ht. pose proof (i_air _ _ _ _ _ (g_inv _ _ Hg) eq_refl) as Ha.
  rewrite Forall_forall in Ha. by apply (Ha _ Hx).
Qed.

(** ** A run *)
Definition result (r : cres xw) : xw := match r with Ret w => w | _ => init_xw 0 end.
Lemma legal_run_cons b e o l w : legal b e o w → legal_run b l (result (step e o w)) → legal_run b ((e, o) :: l) w.
Proof. intros Hl Hr. split; [done|]. intros w' E. by rewrite E in Hr. Qed.
Lemma unused_sta (t : gmap (list Z) nat) s : forallb (λ x, negb (x.2 =? s)%nat) (map_to_list t) = true → ∀ a, t !! a ≠ Some s.
Proof.
  rewrite forallb_forall. intros Hf a E. apply elem_of_map_to_list, list_elem_of_In, Hf in E. simpl in E. by rewrite Nat.eqb_refl in E.
Qed.
Definition sta_mac : list Z := [2; 0; 0; 0; 0; 1].
Definition pkt_sz : sizes := {| s_hdrlen := 26; s_iv_len := 8; s_pktlen := 100; s_encrypt := 4; s_bswenc := false; s_icv_len := 8 |}.
Definition an_env (blocked : bool) (prio : Z) : env := {|
  is_ap := true; wifi_spec := false; hiq_filter := RTW_HIQ_FILTER_ALLOW_ALL; cannot_run := false; cannot_tx := false; ac_blocked := blocked; lg_sta := false;
  wmm_para_seq := [0; 1; 2; 3]%nat; b2u_flags_ap_src := 8; UsbBulkOutSize := 512; UsbTxAggDescNum := 3; cfg_expire_to := 0;
  new_attrib := λ _, Some {| n_ra := sta_mac; n_psta := Some 1%nat; n_priority := prio; n_ether_type := 0x800; n_dhcp := false; n_hipri := false; n_sz := pkt_sz |};
  coalesce := λ _, Some 1%nat; submits := λ _, true; copies := λ _, true
|}.
Definition pkt_hdr : option (list Z * list Z) := Some (sta_mac, [4; 0; 0; 0; 0; 9]).
(** A station joins, sleeps and polls for one of two packets; the tasklet sends it;
    the station wakes up, is sent the other, a management frame, and leaves. *)
Definition a_run : list (env * op) := [
  (an_env true 0, OpJoin 0 bc_addr 0 0); (an_env true 0, OpJoin 1 sta_mac 1 1);
  (an_env true 0, OpXmit pkt_hdr); (an_env true 0, OpSleep 1); (an_env true 0, OpXmit pkt_hdr); (an_env true 0, OpPsPoll 1 1 0);
  (an_env false 0, OpTasklet); (an_env true 0, OpWake 1); (an_env false 0, OpMgmt sta_mac false); (an_env false 0, OpTasklet);
  (an_env true 0, OpXmit pkt_hdr); (an_env true 0, OpFree 1)].
Lemma xmit_legal b x prio w : w.(tbl) !! canon sta_mac = Some 1%nat → legal b (an_env x prio) (OpXmit pkt_hdr) w.
Proof. intros Ht. split; [|done]. intros f m [= <-]. symmetry. exact Ht. Qed.
Lemma join_legal b x prio qos : let w1 := result (step (an_env x prio) (OpJoin 0 bc_addr 0 0) (init_xw 1)) in
  legal b (an_env x prio) (OpJoin 0 bc_addr 0 0) (init_xw 1) ∧ legal b (an_env x prio) (OpJoin 1 sta_mac 1 qos) w1.
Proof.
  split.
  - split; [by intros a; cbn; rewrite lookup_empty|]. split; [done|]. split; [vm_compute; lia|]. intros _. split; [done|].
    by intros a s'; cbn; rewrite lookup_empty.
  - split; [by apply unused_sta; vm_compute|]. split; [by vm_compute|]. split; [vm_compute; lia|].
    intros _. split; [intros _; lia|]. intros a s'. cbn [step result add_stainfo set_tbl tbl]. intros [[_ <-]|[_ E]]%lookup_insert_Some; [by vm_compute|].
    cbn in E. by rewrite lookup_empty in E.
Qed.
(** The legality of a run on concrete states. *)
Ltac legal_run_solve :=
  repeat apply legal_run_cons;
  lazymatch goal with
  | |- legal ?b (an_env ?x ?p) (OpJoin 0 _ _ _) _ => exact (proj1 (join_legal b x p 0))
  | |- legal ?b (an_env ?x ?p) (OpJoin 1 _ _ ?q) _ => exact (proj2 (join_legal b x p q))
  | |- legal _ _ (OpXmit _) _ => apply xmit_legal; by vm_compute
  | |- _ => done
  end.
Lemma a_run_legal b : legal_run b a_run (init_xw 1).
Proof. unfold a_run. legal_run_solve. Qed.
Lemma queues_never_corrupt_witness : ∃ w lost, run a_run (init_xw 1) = Ret w ∧ well_queued lost w ∧ (length lost ≤ runts a_run)%nat.
Proof. apply (queues_never_corrupt 1 a_run). apply a_run_legal. Defined.
Lemma packets_exactly_once_witness : ∃ w, run a_run (init_xw 1) = Ret w ∧
  w.(done) ++ omap (λ f, (w.(fr) f).(pkt)) (seq 0 NR_FRAMES) ≡ₚ seq 0 w.(made).
Proof. apply (packets_exactly_once 1 a_run). apply a_run_legal. Defined.
Lemma sleepers_witness : ∃ w, run a_run (init_xw 1) = Ret w ∧
  ∀ x, (x, true) ∈ w.(air) → x.(ext_tag) = 0 → x.(attrib).(triggered) = 1.
Proof. apply (sleepers_get_what_they_asked 1 a_run). apply a_run_legal. Defined.
(** In that run two data frames went out, one to the station asleep. *)
Example a_run_air : match run a_run (init_xw 1) with Ret w => map (λ x, (x.1.(ext_tag), x.1.(attrib).(triggered), x.2)) w.(air) | _ => [] end =
  [(0, 1, true); (1, 0, false); (0, 1, false)].
Proof. vm_compute. reflexivity. Qed.
