(* ===== verification/XmitQueueBuf.v ===== *)
(** * The transmit queues: where the buffers for data are

    A buffer for data is in the list of free buffers or with the USB core, between
    any two operations: an operation that takes one hands it over or frees it. *)
From S2P Require Import Prelude.
From stdpp Require Import list gmap.
From S2P Require Import StaTable WepTkip XmitAttrib RxValidate XmitQueue XmitQueueInv XmitQueueOps XmitQueueRun.
Local Open Scope Z_scope.
#[local] Opaque NR_FRAMES NR_XMITFRAME NR_XMIT_EXTBUFF NR_XMITBUFF.

(** What holds of the result, if there is one. *)
Definition pw {A} (m : cres A) (Φ : A → Prop) : Prop := match m with Ret a => Φ a | _ => True end.
Lemma pw_bind {A B} (m : cres A) (k : A → cres B) Φ : pw m (λ a, pw (k a) Φ) → pw (cbind m k) Φ.
Proof. by destruct m. Qed.
Lemma pw_mono {A} (m : cres A) (Φ Ψ : A → Prop) : pw m Φ → (∀ a, Φ a → Ψ a) → pw m Ψ.
Proof. destruct m; simpl; auto. Qed.
Lemma each_pw (I : list nat → xw → Prop) body fs : ∀ w,
  (∀ f r w, I (f :: r) w → pw (body f w) (I r)) → I fs w → pw (each fs body w) (I []).
Proof.
  induction fs as [|f fs IH]; intros w Hb Hi; [done|]. cbn [each]. apply pw_bind. eapply pw_mono; [by apply Hb|]. intros w' Hi'. by apply IH.
Qed.
Lemma insert_tail_pw {Q N} `{EqDecision N} (n : N) (q : Q) h : pw (list_insert_tail n q h) (λ h', h' = h ++ [(q, n)]).
Proof. unfold list_insert_tail. by destruct (linked n h). Qed.

(** The queues of management frames, whose frames bring their buffers. *)
Definition mq (q : qid) : Prop := match q with Q_mgmt_sleep _ => True | Q_pend _ a => a = MGMT_IDX | _ => False end.
Definition ext_buf (w : xw) (f : nat) : Prop := ∀ b, (w.(fr) f).(pxmitbuf) = Some b → (NR_XMITBUFF ≤ b)%nat.
(** [R]: the buffers in the hands of the operation. *)
Record bufs (R : list nat) (w : xw) : Prop := {
  b_data b : (b < NR_XMITBUFF)%nat → b ∈ R ∨ (B_free, b) ∈ w.(bk) ∨ b ∈ w.(urbs);
  b_free b : (B_free, b) ∈ w.(bk) → (b < NR_XMITBUFF)%nat;
  b_ext b : (B_ext, b) ∈ w.(bk) → (NR_XMITBUFF ≤ b)%nat;
  b_mgmt q f : mq q → (q, f) ∈ w.(lk) → ext_buf w f;
  b_tk x : x ∈ w.(tk) → x.1 = x.2.2
}.
(** An operation that leaves the buffers alone and queues no management frame. *)
Record quiet (w w' : xw) : Prop := {
  q_bk : w'.(bk) = w.(bk); q_urbs : w'.(urbs) = w.(urbs);
  q_buf f : (w'.(fr) f).(pxmitbuf) = (w.(fr) f).(pxmitbuf);
  q_lk q f : mq q → (q, f) ∈ w'.(lk) → (q, f) ∈ w.(lk);
  q_tk x : x ∈ w'.(tk) → x ∈ w.(tk) ∨ x.1 = x.2.2
}.
#[global] Instance quiet_refl : Reflexive quiet.
Proof. split; auto. Qed.
#[global] Instance quiet_trans : Transitive quiet.
Proof.
  intros w w' w'' [A1 A2 A3 A4 A5] [B1 B2 B3 B4 B5]. split; [congruence|congruence|congruence|auto|].
  intros x Hx. destruct (B5 x Hx); auto.
Qed.
Lemma bufs_quiet R w w' : bufs R w → quiet w w' → bufs R w'.
Proof.
  intros [A B C D E] [Q1 Q2 Q3 Q4 Q5]. split; rewrite ?Q1, ?Q2; auto.
  - intros q f Hq Hf b. rewrite Q3. by apply (D q f Hq), Q4.
  - intros x Hx. destruct (Q5 x Hx); auto.
Qed.
Lemma ext_quiet w w' f : ext_buf w f → quiet w w' → ext_buf w' f.
Proof. intros H Q b. rewrite (q_buf _ _ Q). apply H. Qed.
Lemma bufs_more R b w : bufs R w → bufs (b :: R) w.
Proof. intros [A B C D E]. split; auto. intros x Hx. destruct (A x Hx); set_solver. Qed.
Lemma bufs_less R b w : bufs (b :: R) w → (NR_XMITBUFF ≤ b)%nat → bufs R w.
Proof. intros [A B C D E] Hb. split; auto. intros x Hx. destruct (A x Hx) as [[->|]%elem_of_cons|]; [lia|auto..]. Qed.

(** Changes of one part. *)
Lemma quiet_lk l w : (∀ q f, mq q → (q, f) ∈ l → (q, f) ∈ w.(lk)) → quiet w (set_lk l w).
Proof. by split; auto. Qed.
Lemma quiet_delete f w : quiet w (set_lk (list_delete f w.(lk)) w).
Proof. apply quiet_lk. intros q g _. by intros [? _]%elem_of_delete. Qed.
Lemma quiet_insert q f w h : ¬ mq q → (∀ x, x ∈ h → x ∈ w.(lk)) → quiet w (set_lk (h ++ [(q, f)]) w).
Proof. intros Hq Hh. apply quiet_lk. intros q' g Hq' [|Hx]%elem_of_app; [auto|]. set_solver. Qed.
Lemma quiet_tk t w : (∀ x, x ∈ t → x ∈ w.(tk) ∨ x.1 = x.2.2) → quiet w (set_tk t w).
Proof. by split; auto. Qed.
Lemma quiet_tk_delete n w : quiet w (set_tk (list_delete n w.(tk)) w).
Proof. apply quiet_tk. intros x Hx. left. unfold list_delete in Hx. by apply list_elem_of_filter in Hx as [_ ?]. Qed.
Lemma quiet_fr f g w : (∀ x, (g x).(pxmitbuf) = x.(pxmitbuf)) → quiet w (upd_fr f g w).
Proof. intros Hg. split; auto. intros h. cbn. unfold upd. by destruct (decide (h = f)) as [->|]. Qed.
Lemma quiet_same w w' : w'.(bk) = w.(bk) → w'.(urbs) = w.(urbs) → w'.(fr) = w.(fr) → w'.(lk) = w.(lk) → w'.(tk) = w.(tk) → quiet w w'.
Proof. intros E1 E2 E3 E4 E5. split; rewrite ?E1, ?E2, ?E3, ?E4, ?E5; auto. Qed.

(** ** Operations that leave the buffers alone *)
Lemma free_frame_quiet f w : pw (rtw_free_xmitframe f w) (quiet w).
Proof.
  assert (∀ q w', ¬ mq q → w'.(bk) = w.(bk) → w'.(urbs) = w.(urbs) → w'.(fr) = (upd_fr f (set_pkt None) w).(fr) → w'.(tk) = w.(tk) →
    w'.(lk) = list_delete f w.(lk) ++ [(q, f)] → quiet w w') as Hq.
  { intros q w' Hq E1 E2 E3 E4 E5. etrans; [by apply (quiet_fr f (set_pkt None))|]. split; rewrite ?E1, ?E2, ?E3, ?E4; auto.
    intros q' g Hq' Hg. rewrite E5 in Hg. apply elem_of_app in Hg as [[? _]%elem_of_delete|]; [done|]. set_solver. }
  unfold rtw_free_xmitframe. apply pw_bind. destruct (_ =? 0); [|destruct (_ =? 1); [|done]]; apply pw_bind;
    (eapply pw_mono; [apply insert_tail_pw|]); intros l ->; [apply (Hq Q_free)|apply (Hq Q_ext)]; try (by intros []); by destruct (pkt _).
Qed.
Lemma complete_quiet f w : quiet w (rtw_os_xmit_complete f w).
Proof. unfold rtw_os_xmit_complete. etrans; [|by apply quiet_fr]. destruct (pkt _); [by apply quiet_same|done]. Qed.
Lemma servq_quiet s a f w : a ≠ MGMT_IDX → pw (servq_insert s a f w) (quiet w).
Proof.
  intros Ha. unfold servq_insert. apply pw_bind. apply (pw_mono _ (λ t, ∀ x, x ∈ t → x ∈ w.(tk) ∨ x.1 = x.2.2)).
  - destruct (linked _ _); [by left|]. eapply pw_mono; [apply insert_tail_pw|]. intros t -> x [|Hx]%elem_of_app; [by left|right]. set_solver.
  - intros t Ht. apply pw_bind. eapply pw_mono; [apply insert_tail_pw|]. intros l ->. cbn [pw].
    etrans; [by apply (quiet_tk t)|]. etrans; [by apply (quiet_insert (Q_pend s a) f _ (lk w))|]. by apply quiet_same.
Qed.
Lemma classifier_quiet f w : pw (rtw_xmit_classifier f w) (λ r, quiet w r.2).
Proof.
  unfold rtw_xmit_classifier. destruct (sta_of_frame w f); [|by cbn]. apply pw_bind. eapply pw_mono; [apply servq_quiet, data_ac|]. done.
Qed.
Lemma enqueue_quiet f w : pw (rtl8822bu_hal_xmitframe_enqueue f w) (quiet w).
Proof.
  unfold rtl8822bu_hal_xmitframe_enqueue, enqueue_or_free. apply pw_bind. eapply pw_mono; [apply classifier_quiet|]. intros [ok w'] Hq.
  cbn [snd] in Hq. destruct ok; [done|]. apply pw_bind. eapply pw_mono; [apply free_frame_quiet|]. intros w'' Hq'. cbn [pw].
  etrans; [done|]. etrans; [done|by apply quiet_same].
Qed.
Lemma to_sleep_quiet s f w : pw (to_sleep_q s f w) (quiet w).
Proof.
  unfold to_sleep_q. apply pw_bind. eapply pw_mono; [apply insert_tail_pw|]. intros l ->. cbn [pw].
  etrans; [apply (quiet_insert (Q_sleep s) f w (list_delete f w.(lk))); [naive_solver|by intros x [? _]%elem_of_delete]|]. by apply quiet_same.
Qed.
Lemma sleeping_quiet e f w : pw (xmitframe_enqueue_for_sleeping_sta e f w) (λ r, quiet w r.2).
Proof.
  unfold xmitframe_enqueue_for_sleeping_sta. destruct (negb _); [by cbn|]. destruct (sta_of_frame w f) as [s|]; [|by cbn].
  destruct (_ =? 1); [cbn; destruct (_ && _); [by apply quiet_fr|done]|]. destruct (IS_MCAST _).
  - destruct (rtw_bmp_not_empty _); [|by cbn]. apply pw_bind. eapply pw_mono; [apply to_sleep_quiet|]. intros w' Hq. cbn.
    etrans; [done|by apply quiet_same].
  - destruct (_ && _); [|by cbn]. apply pw_bind. eapply pw_mono; [apply to_sleep_quiet|]. intros w' Hq. cbn. etrans; [done|].
    unfold inc_ac_len. destruct (wmmps_ac _ _ _), (xorb _ _); by apply quiet_same.
Qed.
Lemma dequeue_ac_quiet nodes a : ∀ w, let r := dequeue_ac nodes a w in quiet w r.2 ∧
  ∀ f, r.1 = Some f → (∃ s a', (s, a') ∈ nodes ∧ (Q_pend s a', f) ∈ w.(lk)) ∧ f ∉ r.2.(lk).*2.
Proof.
  induction nodes as [|[s a'] nodes IH]; intros w; [done|]. cbn [dequeue_ac]. unfold dequeue_one_xmitframe.
  destruct (queue (lk w) (Q_pend s a')) as [|f l] eqn:Eq.
  - destruct (IH w) as [H1 H2]. split; [done|]. intros f Hf. destruct (H2 f Hf) as [(s' & a1 & ? & ?) ?]. split; [|done]. exists s', a1. split; [by right|done].
  - assert ((Q_pend s a', f) ∈ lk w) as Hl by (rewrite <- elem_of_queue, Eq; left). cbn [fst snd]. split.
    + etrans; [apply (quiet_delete f)|]. case_decide; [|by apply quiet_same]. etrans; [|apply quiet_tk_delete]. by apply quiet_same.
    + intros g [= <-]. split; [exists s, a'; split; [left|done]|]. case_decide; apply delete_gone.
Qed.
Lemma dequeue_acs_quiet inx w : let r := dequeue_acs inx w in quiet w r.2 ∧ ∀ f, r.1 = Some f → f ∉ r.2.(lk).*2.
Proof.
  induction inx as [|a inx IH]; [done|]. cbn [dequeue_acs]. destruct (dequeue_ac_quiet (queue w.(tk) a) a w) as [H1 H2].
  destruct (dequeue_ac _ a w) as [[f|] w']; [|apply IH]. cbn [fst snd] in *. split; [done|]. intros g [= <-]. by apply H2.
Qed.

(** ** Buffers taken and given back *)
Lemma alloc_bufs R w : bufs R w → match rtw_alloc_xmitbuf w with
  | (Some b, w') => bufs (b :: R) w' ∧ w'.(lk) = w.(lk) ∧ w'.(fr) = w.(fr)
  | (None, w') => w' = w
  end.
Proof.
  intros [A B C D E]. unfold rtw_alloc_xmitbuf. destruct (queue (bk w) B_free) as [|b l]; [done|]. split; [|done]. split; cbn; auto.
  - intros x Hx. destruct (decide (x = b)) as [->|Hne]; [left; left|]. destruct (A x Hx) as [?|[?|?]]; [left; by right|right; left|by right; right].
    by apply elem_of_delete.
  - intros x [? _]%elem_of_delete. auto.
  - intros x [? _]%elem_of_delete. auto.
Qed.
Lemma alloc_ext_bufs R w : bufs R w → match rtw_alloc_xmitbuf_ext w with
  | (Some b, w') => bufs R w' ∧ (NR_XMITBUFF ≤ b)%nat ∧ w'.(lk) = w.(lk) ∧ w'.(fr) = w.(fr)
  | (None, w') => w' = w
  end.
Proof.
  intros [A B C D E]. unfold rtw_alloc_xmitbuf_ext. destruct (queue (bk w) B_ext) as [|b l] eqn:Eq; [done|].
  assert (NR_XMITBUFF ≤ b)%nat as Hb by (apply C; rewrite <- elem_of_queue, Eq; left). split; [|done]. split; cbn; auto.
  - intros x Hx. destruct (A x Hx) as [?|[?|?]]; [by left|right; left|by right; right]. apply elem_of_delete. split; [done|]. cbn. lia.
  - intros x [? _]%elem_of_delete. auto.
  - intros x [? _]%elem_of_delete. auto.
Qed.
(** What [rtw_free_xmitbuf] and its relatives leave of the frames. *)
Definition same_frames (w w' : xw) : Prop := w'.(lk) = w.(lk) ∧ w'.(fr) = w.(fr).
Lemma free_ext_bufs R b w : bufs R w → (NR_XMITBUFF ≤ b)%nat → pw (rtw_free_xmitbuf_ext b w) (λ w', bufs R w' ∧ same_frames w w').
Proof.
  intros [A B C D E] Hb. unfold rtw_free_xmitbuf_ext. apply pw_bind. eapply pw_mono; [apply insert_tail_pw|]. intros l ->. cbn [pw].
  split; [|done]. split; cbn; auto.
  - intros x Hx. destruct (A x Hx) as [?|[?|?]]; [by left|right; left|by right; right]. apply elem_of_app. left.
    apply elem_of_delete. split; [done|]. cbn. lia.
  - intros x [[? _]%elem_of_delete|Hx]%elem_of_app; [auto|]. set_solver.
  - intros x [[? _]%elem_of_delete|Hx]%elem_of_app; [auto|]. apply list_elem_of_singleton in Hx. by simplify_eq.
Qed.
Lemma free_bufs R b w : bufs (b :: R) w → pw (rtw_free_xmitbuf b w) (λ w', bufs R w' ∧ same_frames w w').
Proof.
  intros Hw. unfold rtw_free_xmitbuf, is_ext_buf. destruct (Nat.leb_spec NR_XMITBUFF b) as [Hb|Hb].
  - apply free_ext_bufs; [|done]. by eapply bufs_less.
  - destruct Hw as [A B C D E]. apply pw_bind. eapply pw_mono; [apply insert_tail_pw|]. intros l ->. cbn [pw].
    split; [|done]. split; cbn; auto.
    + intros x Hx. rewrite elem_of_app, elem_of_delete. destruct (decide (x = b)) as [->|Hne]; [set_solver|].
      destruct (A x Hx) as [[?|?]%elem_of_cons|[?|?]]; [done|by left|right; left; by left|by right; right].
    + intros x [[? _]%elem_of_delete|Hx]%elem_of_app; [auto|]. apply list_elem_of_singleton in Hx. by simplify_eq.
    + intros x [[? _]%elem_of_delete|Hx]%elem_of_app; [auto|]. set_solver.
Qed.
Lemma write_bufs e R b w : bufs (b :: R) w → pw (usb_write_port e b w) (λ r, bufs R r.2 ∧ same_frames w r.2).
Proof.
  intros Hw. unfold usb_write_port. destruct (_ && _).
  - destruct Hw as [A B C D E]. cbn [pw snd]. split; [|done]. split; cbn; auto. intros x Hx.
    rewrite elem_of_app. destruct (A x Hx) as [[->|?]%elem_of_cons|[?|?]]; [right; right; right; left|by left|by right; left|right; right; by left].
  - apply pw_bind. eapply pw_mono; [by apply free_bufs|]. done.
Qed.
Lemma write_frags_bufs e n : ∀ R b w, bufs (b :: R) w → n ≠ 0%nat ∨ (NR_XMITBUFF ≤ b)%nat →
  pw (write_frags e n b w) (λ w', bufs R w' ∧ same_frames w w').
Proof.
  induction n as [|n IH]; intros R b w Hw Hn.
  - cbn. split; [|done]. destruct Hn; [done|]. by eapply bufs_less.
  - cbn [write_frags]. apply pw_bind. eapply pw_mono; [by apply write_bufs|]. intros [ok w1] [H1 [E1 E2]]. cbn [snd] in *.
    destruct n as [|n]; [done|]. eapply pw_mono; [apply (IH R b w1); [by apply bufs_more|by left]|].
    intros w2 [H2 [E3 E4]]. split; [done|]. split; congruence.
Qed.
Lemma bufs_log R f w : bufs R w → bufs R (log_air f w).
Proof. intros H. apply (bufs_quiet R w); [done|by apply quiet_same]. Qed.
(** The part of [quiet] that operations on buffers have too. *)
Definition no_mgmt (w w' : xw) : Prop := ∀ q f, mq q → (q, f) ∈ w'.(lk) → (q, f) ∈ w.(lk).
Lemma no_mgmt_quiet w w' : quiet w w' → no_mgmt w w'.
Proof. intros Q q f. apply Q. Qed.
#[global] Instance no_mgmt_refl : Reflexive no_mgmt.
Proof. by intros ??. Qed.
#[global] Instance no_mgmt_trans : Transitive no_mgmt.
Proof. intros w w' w'' A B q f Hq Hf. by apply A, B. Qed.
Lemma dump_bufs e R f b w : bufs (b :: R) w → (w.(fr) f).(pxmitbuf) = Some b →
  (frame_attrib w f).(nr_frags) ≠ 0%nat ∨ (NR_XMITBUFF ≤ b)%nat → pw (rtw_dump_xframe e f w) (λ w', bufs R w' ∧ no_mgmt w w').
Proof.
  intros Hw Hb Hn. unfold rtw_dump_xframe. rewrite Hb. apply pw_bind.
  eapply pw_mono; [apply (write_frags_bufs e _ R b (log_air f w)); [by apply bufs_log|done]|]. intros w1 [H1 [E1 E2]].
  eapply pw_mono; [apply free_frame_quiet|]. intros w2 Q. split; [by eapply bufs_quiet|].
  intros q g Hq Hg. apply Q in Hg; [|done]. rewrite E1 in Hg. exact Hg.
Qed.

(** ** Packets *)
Definition off_mq (w : xw) (f : nat) : Prop := ∀ q, mq q → (q, f) ∉ w.(lk).
Lemma off_mq_mono w w' f : off_mq w f → no_mgmt w w' → off_mq w' f.
Proof. intros H N q Hq Hf. by apply (H q Hq), N. Qed.
Lemma off_mq_fresh w f : f ∉ w.(lk).*2 → off_mq w f.
Proof. intros Hf q _ Hq. apply Hf. apply list_elem_of_fmap. by exists (q, f). Qed.
Lemma bufs_fr R f g w : bufs R w → off_mq w f → bufs R (upd_fr f g w).
Proof.
  intros [A B C D E] Hf. split; cbn; auto. intros q h Hq Hh. unfold ext_buf. cbn. rewrite upd_ne; [by eapply D|].
  intros ->. by eapply Hf.
Qed.
Section Packets.
Context (e : env) (Hco : ∀ f n, e.(coalesce) f = Some n → n ≠ 0%nat).
Lemma pre_bufs f w : off_mq w f → ∀ R, bufs R w → pw (pre_xmitframe e f w) (λ r, bufs R r.2 ∧ no_mgmt w r.2).
Proof.
  intros Hf R Hw. unfold pre_xmitframe.
  assert (pw (let* (ok, w) := rtw_xmit_classifier f w in if (ok : bool) then Ret (false, w)
      else let* w := rtw_free_xmitframe f w in Ret (true, drop_one w)) (λ r, bufs R r.2 ∧ no_mgmt w r.2)) as Hclass.
  { apply pw_bind. eapply pw_mono; [apply classifier_quiet|]. intros [ok w1] Q1. cbn [snd] in Q1. destruct ok; cbn [pw snd].
    - split; [by eapply bufs_quiet|by apply no_mgmt_quiet].
    - apply pw_bind. eapply pw_mono; [apply free_frame_quiet|]. intros w2 Q2. cbn [pw snd].
      assert (quiet w (drop_one w2)) as Q by (etrans; [exact Q1|]; etrans; [exact Q2|by apply quiet_same]).
      split; [by eapply bufs_quiet|by apply no_mgmt_quiet]. }
  destruct (_ || _); [exact Hclass|]. pose proof (alloc_bufs R w Hw) as Ha. destruct (rtw_alloc_xmitbuf w) as [[b|] w1]; [|by subst w1].
  destruct Ha as (H1 & El & Ef). assert (off_mq w1 f) as Hf1 by (unfold off_mq; by rewrite El).
  set (w2 := upd_fr f (set_xbuf (Some b)) w1). assert (bufs (b :: R) w2) as H2 by by apply bufs_fr.
  apply pw_bind. apply (pw_mono _ (λ w', bufs R w' ∧ no_mgmt w w')); [|by intros w' ?].
  destruct (coalesce e f) as [n|] eqn:Ec.
  - set (w3 := upd_attrib f (set_frags n) w2). assert (quiet w2 w3) as Q3 by by apply quiet_fr.
    eapply pw_mono; [apply (dump_bufs e R f b w3); [by eapply bufs_quiet| |left]|].
    + cbn. by rewrite !upd_eq.
    + unfold frame_attrib. cbn. rewrite !upd_eq. cbn. by eapply Hco.
    + intros w4 [H4 N4]. split; [done|]. intros q g Hq Hg. apply N4 in Hg; [|done]. cbn in Hg. by rewrite El in Hg.
  - apply pw_bind. eapply pw_mono; [by apply free_bufs|]. intros w3 [H3 [E3 _]]. eapply pw_mono; [apply free_frame_quiet|].
    intros w4 Q4. split; [by eapply bufs_quiet|]. intros q g Hq Hg. apply Q4 in Hg; [|done]. rewrite E3 in Hg. cbn in Hg. by rewrite El in Hg.
Qed.
Lemma xmit_enqueue_quiet f w : pw (xmit_enqueue f w) (λ r, quiet w r.2).
Proof.
  unfold xmit_enqueue. destruct (psta _) as [s|]; [|by cbn]. destruct (_ && _); [by cbn|]. apply pw_bind.
  eapply pw_mono; [apply insert_tail_pw|]. intros l ->. cbn. apply quiet_insert; [naive_solver|done].
Qed.
Lemma posthandle_bufs f p w R : off_mq w f → bufs R w → pw (rtw_xmit_posthandle e f p w) (λ r, bufs R r.2 ∧ no_mgmt w r.2).
Proof.
  intros Hf Hw. unfold rtw_xmit_posthandle. destruct (new_attrib e f) as [n|].
  2: { apply pw_bind. eapply pw_mono; [apply free_frame_quiet|]. intros w' Q. cbn. split; [by eapply bufs_quiet|by apply no_mgmt_quiet]. }
  set (w1 := upd_fr f _ w). assert (quiet w w1) as Q1 by by apply quiet_fr.
  apply pw_bind. eapply pw_mono; [apply sleeping_quiet|]. intros [r w2] Q2. cbn [snd] in Q2. assert (quiet w w2) as Q02 by by etrans.
  destruct r; [cbn; split; [by eapply bufs_quiet|by apply no_mgmt_quiet]|].
  apply pw_bind. eapply pw_mono; [apply xmit_enqueue_quiet|]. intros [h w3] Q3. cbn [snd] in Q3. assert (quiet w w3) as Q03 by by etrans.
  destruct h; [cbn; split; [by eapply bufs_quiet|by apply no_mgmt_quiet]|].
  apply pw_bind. eapply pw_mono; [apply (pre_bufs f w3); [by eapply off_mq_mono, no_mgmt_quiet|by eapply bufs_quiet]|].
  intros [d w4] [H4 N4]. cbn in *. split; [by destruct d|]. etrans; [by apply no_mgmt_quiet|done].
Qed.
Lemma alloc_frame_bufs R w : bufs R w → let r := rtw_alloc_xmitframe w in
  bufs R r.2 ∧ no_mgmt w r.2 ∧ ∀ f, r.1 = Some f → off_mq r.2 f.
Proof.
  intros Hw. unfold rtw_alloc_xmitframe. destruct (queue (lk w) Q_free) as [|f l]; [done|]. cbn [fst snd].
  set (w1 := add_cn _ _ _ _ _). assert (quiet w w1) as Q1 by (etrans; [apply (quiet_delete f)|by apply quiet_same]).
  assert (off_mq w1 f) as Hf by (apply off_mq_fresh, delete_gone). split; [|split; [|by intros g [= <-]]].
  - apply bufs_fr; [by eapply bufs_quiet|done].
  - apply no_mgmt_quiet in Q1. exact Q1.
Qed.
Lemma copies_listed_bufs stas sa : ∀ w R, bufs R w → pw (rtw_ap_data_bmc_to_uc stas sa w) (λ r, bufs R r.2 ∧ no_mgmt w r.2).
Proof.
  induction stas as [|s stas IH]; intros w R Hw; [done|]. cbn [rtw_ap_data_bmc_to_uc]. destruct (_ || _); [by apply IH|].
  destruct (alloc_frame_bufs R w Hw) as (H1 & N1 & _). destruct (rtw_alloc_xmitframe w) as [[f|] w1]; cbn [fst snd] in *; [|done].
  apply pw_bind. eapply pw_mono; [apply insert_tail_pw|]. intros l ->. set (w2 := upd_attrib f _ _).
  assert (quiet w1 w2) as Q2 by (etrans; [apply (quiet_insert Q_b2u f w1 (lk w1)); [naive_solver|done]|by apply quiet_fr]).
  eapply pw_mono; [apply (IH w2 R); by eapply bufs_quiet|]. intros r [H3 N3]. split; [done|].
  etrans; [exact N1|]. etrans; [by apply no_mgmt_quiet|done].
Qed.
Lemma copies_sent_bufs fs : ∀ res w R, bufs R w → pw (send_copies e fs res w) (λ r, bufs R r.2 ∧ no_mgmt w r.2).
Proof.
  induction fs as [|f fs IH]; intros res w R Hw; [done|]. cbn [send_copies].
  set (w1 := set_lk (list_delete f w.(lk)) w). assert (quiet w w1) as Q1 by apply quiet_delete.
  assert (off_mq w1 f) as Hf by (apply off_mq_fresh, delete_gone).
  assert (∀ res w', bufs R w' → no_mgmt w w' → pw (send_copies e fs res w') (λ r, bufs R r.2 ∧ no_mgmt w r.2)) as Hrest.
  { intros res' w' H' N'. eapply pw_mono; [by apply IH|]. intros r [? ?]. split; [done|by etrans]. }
  destruct (copies e _).
  - set (w2 := upd_fr f _ _). assert (quiet w w2) as Q2 by (etrans; [exact Q1|]; etrans; [by apply (quiet_same _ (set_pkts (done w1) (S (made w1)) w1))|by apply quiet_fr]).
    apply pw_bind. eapply pw_mono; [apply (posthandle_bufs f (made w1) w2 R); [exact Hf|by eapply bufs_quiet]|].
    intros [r w3] [H3 N3]. cbn [snd] in *. apply Hrest; [done|]. etrans; [by apply no_mgmt_quiet|done].
  - apply pw_bind. eapply pw_mono; [apply free_frame_quiet|]. intros w3 Q3.
    assert (quiet w w3) as Q03 by (etrans; [exact Q1|]; etrans; [by apply (quiet_fr f (set_pkt None))|exact Q3]).
    apply Hrest; [by eapply bufs_quiet|by apply no_mgmt_quiet].
Qed.
Lemma xmit_bufs p hdr w R : bufs R w → pw (rtw_xmit e p hdr w) (λ r, bufs R r.2).
Proof.
  intros Hw. unfold rtw_xmit. destruct (alloc_frame_bufs R w Hw) as (H1 & N1 & F1). destruct (rtw_alloc_xmitframe w) as [[f|] w1]; cbn [fst snd] in *; [|done].
  specialize (F1 f eq_refl). apply pw_bind. apply (pw_mono _ (λ r, bufs R r.2 ∧ off_mq r.2 f)).
  - destruct (is_ap e); [|done]. unfold rtw_ap_addr_resolve. destruct hdr as [[da sa]|]; [|done].
    set (w2 := upd_fr f _ w1). assert (quiet w1 w2) as Q2 by by apply quiet_fr.
    assert (bufs R w2 ∧ off_mq w2 f) as [H2 F2] by (split; [by eapply bufs_quiet|done]).
    apply pw_bind, (pw_mono _ (λ r, bufs R r.2 ∧ off_mq r.2 f)).
    + destruct (_ && _); [|done]. eapply pw_mono; [by apply copies_listed_bufs|]. intros r [? ?]. split; [done|by eapply off_mq_mono].
    + intros [need w3] [H3 F3]. cbn [snd] in *. destruct need; cbn [pw snd]; [|done]. split; [|done]. eapply bufs_quiet; [done|by apply quiet_fr].
  - intros [res w2] [H2 F2]. cbn [snd] in *.
    assert (∀ res, pw (let* (res, w) := if is_ap e then send_copies e (queue w2.(lk) Q_b2u) res w2 else Ret (res, w2) in
      match res with RA_bmc_no_need => let* w := rtw_free_xmitframe f w in Ret (0, w)
      | _ => rtw_xmit_posthandle e f p (upd_fr f (set_pkt None) w) end) (λ r, bufs R r.2)) as Hrest.
    { intros res'. apply pw_bind, (pw_mono _ (λ r, bufs R r.2 ∧ off_mq r.2 f)).
      - destruct (is_ap e); [|done]. eapply pw_mono; [by apply copies_sent_bufs|]. intros r [? ?]. split; [done|by eapply off_mq_mono].
      - intros [r w3] [H3 F3]. cbn [snd] in *. assert (bufs R (upd_fr f (set_pkt None) w3)) as H4 by (eapply bufs_quiet; [done|by apply quiet_fr]).
        destruct r; try (eapply pw_mono; [apply (posthandle_bufs f p _ R); [exact F3|exact H4]|]; by intros ? [? _]).
        apply pw_bind. eapply pw_mono; [apply free_frame_quiet|]. intros w5 Q5. exact (bufs_quiet _ _ _ H3 Q5). }
    destruct res; [apply Hrest|done|apply Hrest].
Qed.
Lemma xmit_entry_bufs hdr w R : bufs R w → pw (rtw_xmit_entry e hdr w) (bufs R).
Proof.
  intros Hw. unfold rtw_xmit_entry. apply pw_bind. eapply pw_mono; [apply (xmit_bufs _ hdr _ R); eapply bufs_quiet; [done|by apply quiet_same]|].
  intros [r w1] H1. cbn in *. destruct (r <? 0); [|done]. eapply bufs_quiet; [done|by apply quiet_same].
Qed.
Lemma queue_clear_bufs s w R : bufs R w → pw (rtw_xmit_queue_clear e s w) (bufs R).
Proof.
  intros Hw. unfold rtw_xmit_queue_clear. destruct (tx_q_enable _); [|done]. unfold xmit_dequeue.
  apply (each_pw (λ _, bufs R)); [|by eapply bufs_quiet; [done|by apply quiet_same]]. intros f r w' H'. apply pw_bind.
  eapply pw_mono; [apply (pre_bufs f (set_lk (list_delete f w'.(lk)) w'))|].
  - apply off_mq_fresh, delete_gone.
  - eapply bufs_quiet; [done|apply quiet_delete].
  - by intros [d w2] [? _].
Qed.
End Packets.

(** ** The tasklet *)
Lemma dump_mgmt_bufs e R f w : bufs R w → ext_buf w f → pw (rtw_dump_xframe e f w) (bufs R).
Proof.
  intros Hw Hf. destruct (pxmitbuf (fr w f)) as [b|] eqn:Eb; [|unfold rtw_dump_xframe; by rewrite Eb].
  eapply pw_mono; [apply (dump_bufs e R f b w); [by apply bufs_more|done|right; by apply Hf]|]. by intros w' [? _].
Qed.
Lemma agg_loop_quiet e qsel0 s a fs : ∀ g w, pw (agg_loop e qsel0 s a fs g w) (λ r, quiet w r.2).
Proof.
  induction fs as [|f fs IH]; intros g w; [by cbn|]. cbn [agg_loop]. destruct (negb _); [by cbn|].
  set (w1 := upd_fr f (set_agg 0 0) w). assert (quiet w w1) as Q1 by by apply quiet_fr.
  destruct (_ <? _); [cbn; etrans; [exact Q1|by apply quiet_fr]|].
  set (w2 := add_accnt _ _ _). assert (quiet w w2) as Q2 by (etrans; [exact Q1|]; etrans; [apply (quiet_delete f)|by apply quiet_same]).
  destruct (coalesce e f) as [n|].
  - set (w3 := upd_attrib f (set_frags n) w2). assert (quiet w w3) as Q3 by (etrans; [exact Q2|by apply quiet_fr]).
    pose proof (complete_quiet f w3) as Q4. apply pw_bind. eapply pw_mono; [apply free_frame_quiet|]. intros w5 Q5.
    assert (quiet w w5) as Q05.
    { etrans; [exact Q3|]. etrans; [exact Q4|]. etrans; [by apply (quiet_same _ (log_air f (rtw_os_xmit_complete f w3)))|exact Q5]. }
    destruct (_ =? _); [done|]. destruct (agg_count e _) as [full g']. destruct full; [done|].
    eapply pw_mono; [apply IH|]. intros r Qr. by etrans.
  - apply pw_bind. eapply pw_mono; [apply free_frame_quiet|]. intros w3 Q3. eapply pw_mono; [apply IH|]. intros r Qr. etrans; [exact Q2|by etrans].
Qed.
Lemma aggregate_quiet e f w : pw (aggregate e f w) (λ r, quiet w r.2).
Proof.
  unfold aggregate. destruct (agg_count e _) as [full g]. destruct full; [by cbn|]. destruct (psta _) as [s|]; [|done].
  apply pw_bind. eapply pw_mono; [apply agg_loop_quiet|]. intros [g' w1] Q1. cbn [snd] in Q1.
  case_decide; [cbn; etrans; [exact Q1|apply quiet_tk_delete]|]. destruct (_ <=? 1)%nat; [done|]. apply pw_bind.
  eapply pw_mono; [apply insert_tail_pw|]. intros t ->. cbn. etrans; [exact Q1|]. apply quiet_tk. intros x [Hx|Hx]%elem_of_app.
  - left. unfold list_delete in Hx. by apply list_elem_of_filter in Hx as [_ ?].
  - right. apply list_elem_of_singleton in Hx. by subst x.
Qed.
Lemma pick_first_bufs e b R fuel : ∀ w, bufs (b :: R) w →
  pw (pick_first e fuel b w) (λ r, if r.1 is Some _ then bufs (b :: R) r.2 else bufs R r.2).
Proof.
  induction fuel as [|fuel IH]; intros w Hw; [done|]. cbn [pick_first]. unfold rtw_dequeue_xframe.
  set (inx := take _ _). destruct (dequeue_acs_quiet inx w) as [Q1 F1]. destruct (dequeue_acs inx w) as [[f|] w1]; cbn [fst snd] in *.
  - specialize (F1 f eq_refl). pose proof (bufs_quiet _ _ _ Hw Q1) as H1.
    set (w2 := upd_fr f _ w1). assert (bufs (b :: R) w2) as H2 by by apply bufs_fr, off_mq_fresh.
    destruct (coalesce e f) as [n|].
    + cbn. apply (bufs_quiet _ w2); [done|]. etrans; [|apply complete_quiet]. by apply quiet_fr.
    + apply pw_bind. eapply pw_mono; [apply free_frame_quiet|]. intros w3 Q3. apply IH. exact (bufs_quiet _ _ _ H2 Q3).
  - apply pw_bind. eapply pw_mono; [apply (free_bufs R b w1), (bufs_quiet _ _ _ Hw Q1)|]. by intros w2 [? _].
Qed.
Lemma complete_tx_bufs e R w : bufs R w → pw (rtl8822bu_xmitframe_complete e w) (λ r, bufs R r.2).
Proof.
  intros Hw. unfold rtl8822bu_xmitframe_complete, rtw_dequeue_mgmt_xframe.
  destruct (dequeue_ac_quiet (queue w.(tk) MGMT_IDX) MGMT_IDX w) as [Q1 F1]. destruct (dequeue_ac _ _ w) as [[f|] w1]; cbn [fst snd] in *.
  - destruct (F1 f eq_refl) as [(s & a & Hn & Hl) _]. pose proof (b_tk _ _ Hw _ (proj1 (elem_of_queue _ _ _) Hn)) as Ea. cbn in Ea.
    apply pw_bind. eapply pw_mono; [apply (dump_mgmt_bufs e R f w1); [exact (bufs_quiet _ _ _ Hw Q1)|]|done].
    apply (ext_quiet w); [|done]. apply (b_mgmt _ _ Hw (Q_pend s a)); [by simpl|done].
  - pose proof (alloc_bufs R w Hw) as Ha. destruct (rtw_alloc_xmitbuf w) as [[b|] w2]; [|done]. destruct Ha as (H2 & _).
    apply pw_bind. eapply pw_mono; [by apply (pick_first_bufs e b R)|]. intros [[f|] w3] H3; cbn [fst snd] in H3; [|done].
    apply pw_bind. eapply pw_mono; [apply aggregate_quiet|]. intros [g w4] Q4. cbn [snd] in Q4.
    apply pw_bind. eapply pw_mono; [apply (write_bufs e R b)|].
    + apply bufs_log. apply (bufs_quiet _ w4); [exact (bufs_quiet _ _ _ H3 Q4)|by apply quiet_fr].
    + intros [ok w5] [H5 _]. cbn [snd] in H5. apply pw_bind. eapply pw_mono; [apply free_frame_quiet|]. intros w6 Q6. exact (bufs_quiet _ _ _ H5 Q6).
Qed.
Lemma tasklet_bufs e R w : bufs R w → pw (rtl8822bu_xmit_tasklet e w) (bufs R).
Proof.
  unfold rtl8822bu_xmit_tasklet. generalize (S (length (lk w))) as fuel. intros fuel. revert w. induction fuel as [|fuel IH]; intros w Hw; [done|].
  cbn [xmit_tasklet]. destruct (_ || _); [done|]. apply pw_bind. eapply pw_mono; [by apply complete_tx_bufs|]. intros [[go o] w1] H1. cbn [snd] in H1.
  destruct go; [by apply IH|done].
Qed.

(** ** Management frames *)
(** A frame that brings its buffer joins a queue of management frames. *)
Lemma bufs_insert R q f w h : bufs R w → (∀ x, x ∈ h → x ∈ w.(lk)) → ext_buf w f → bufs R (set_lk (h ++ [(q, f)]) w).
Proof.
  intros [A B C D E] Hh Hf. split; cbn; auto. intros q' g Hq [Hx|Hx]%elem_of_app; [by eapply D; [|apply Hh]|].
  apply list_elem_of_singleton in Hx. by simplify_eq.
Qed.
Lemma mgmt_sleeping_bufs R f w : bufs R w → ext_buf w f →
  pw (mgmt_xmitframe_enqueue_for_sleeping_sta f w) (λ r, bufs R r.2 ∧ r.2.(fr) = w.(fr)).
Proof.
  intros Hw Hf. unfold mgmt_xmitframe_enqueue_for_sleeping_sta. destruct (_ || _); [done|]. destruct (psta _) as [s|]; [|done].
  destruct (negb _); [done|]. destruct (_ && _); [|done]. apply pw_bind. eapply pw_mono; [apply insert_tail_pw|]. intros l ->. cbn. split; [|done].
  eapply bufs_quiet; [apply (bufs_insert R (Q_mgmt_sleep s) f w (list_delete f w.(lk)) Hw); [by intros x [? _]%elem_of_delete|done]|].
  by apply quiet_same.
Qed.
Lemma mgmt_enqueue_bufs R f w : bufs R w → ext_buf w f →
  pw (rtl8822bu_hal_mgmt_xmitframe_enqueue f w) (λ w', bufs R w' ∧ ∀ g, ext_buf w g → ext_buf w' g).
Proof.
  intros Hw Hf. unfold rtl8822bu_hal_mgmt_xmitframe_enqueue, enqueue_or_free, rtw_mgmt_xmitframe_enqueue.
  destruct (sta_of_frame w f) as [s|].
  - apply pw_bind, pw_bind. unfold servq_insert. apply pw_bind. apply (pw_mono _ (λ t, ∀ x, x ∈ t → x ∈ w.(tk) ∨ x.1 = x.2.2)).
    + destruct (linked _ _); [by left|]. eapply pw_mono; [apply insert_tail_pw|]. intros t -> x [|Hx]%elem_of_app; [by left|right]. set_solver.
    + intros t Ht. apply pw_bind. eapply pw_mono; [apply insert_tail_pw|]. intros l ->. cbn. split; [|done].
      eapply bufs_quiet; [apply (bufs_insert R (Q_pend s MGMT_IDX) f (set_tk t w) (lk w)); [|done|done]|by apply quiet_same].
      eapply bufs_quiet; [done|by apply quiet_tk].
  - cbn [cbind]. apply pw_bind. eapply pw_mono; [apply free_frame_quiet|]. intros w1 Q1. cbn. split.
    + eapply bufs_quiet; [exact (bufs_quiet _ _ _ Hw Q1)|by apply quiet_same].
    + intros g Hg. exact (ext_quiet _ _ _ Hg Q1).
Qed.
Lemma send_mgmt_bufs e addr1 dontq R w : bufs R w → pw (send_mgmt e addr1 dontq w) (bufs R).
Proof.
  intros Hw. unfold send_mgmt, alloc_mgtxmitframe, rtw_alloc_xmitframe_ext. destruct (queue (lk w) Q_ext) as [|f l]; [done|].
  set (w1 := rtw_init_xmitframe f _). assert (bufs R w1 ∧ off_mq w1 f) as [H1 F1].
  { assert (off_mq w1 f) as Hf by (apply off_mq_fresh, delete_gone). split; [|done]. apply bufs_fr; [|exact Hf].
    eapply bufs_quiet; [done|]. etrans; [apply (quiet_delete f)|by apply quiet_same]. }
  pose proof (alloc_ext_bufs R w1 H1) as Ha. destruct (rtw_alloc_xmitbuf_ext w1) as [[b|] w2].
  - destruct Ha as (H2 & Hb & El & _). cbn [cbind]. set (w3 := upd_fr f (set_xbuf (Some b)) w2).
    assert (bufs R w3) as H3 by (apply bufs_fr; [done|unfold off_mq; by rewrite El]).
    set (w4 := upd_attrib f _ w3). assert (bufs R w4) as H4 by (eapply bufs_quiet; [done|by apply quiet_fr]).
    assert (pxmitbuf (fr w4 f) = Some b) as E4 by (cbn; by rewrite !upd_eq).
    assert (ext_buf w4 f) as X4 by (intros b'; rewrite E4; by intros [= <-]).
    destruct (cannot_run e).
    { rewrite E4. apply pw_bind. eapply pw_mono; [apply (free_bufs R b w4); by apply bufs_more|]. intros w5 [H5 _].
      eapply pw_mono; [apply free_frame_quiet|]. intros w6 Q6. exact (bufs_quiet _ _ _ H5 Q6). }
    unfold rtw_hal_mgnt_xmit. apply pw_bind, (pw_mono _ (λ r, bufs R r.2 ∧ r.2.(fr) = w4.(fr))).
    + destruct (is_ap e); [by apply mgmt_sleeping_bufs|done].
    + intros [r w5] [H5 E5]. cbn [snd] in *. destruct r; [| |done]; apply dump_mgmt_bufs; try done; unfold ext_buf; by rewrite E5.
  - subst w2. cbn [cbind]. apply pw_bind, pw_bind. eapply pw_mono; [apply free_frame_quiet|]. intros w3 Q3. cbn. exact (bufs_quiet _ _ _ H1 Q3).
Qed.

(** ** Stations *)
(** A loop over frames that leaves the buffers alone; one over management frames. *)
Lemma each_quiet fs body w : (∀ f w, pw (body f w) (quiet w)) → pw (each fs body w) (quiet w).
Proof.
  intros Hb. apply (each_pw (λ _, quiet w)); [|done]. intros f r w' Q. eapply pw_mono; [apply Hb|]. intros w'' Q'. by etrans.
Qed.
Lemma each_mgmt R q body w : mq q → bufs R w →
  (∀ f w, bufs R w → ext_buf w f → pw (body f w) (λ w', bufs R w' ∧ ∀ g, ext_buf w g → ext_buf w' g)) →
  pw (each (queue w.(lk) q) body w) (bufs R).
Proof.
  intros Hq Hw Hb. eapply pw_mono.
  - apply (each_pw (λ rest w', bufs R w' ∧ ∀ f, f ∈ rest → ext_buf w' f)).
    + intros f r w' [H' X']. eapply pw_mono; [apply Hb; [done|apply X'; left]|]. intros w'' [H'' X'']. split; [done|]. intros g Hg. apply X'', X'. by right.
    + split; [done|]. intros f Hf%elem_of_queue. by eapply b_mgmt.
  - by intros w' [? _].
Qed.
Lemma sleep_frame_quiet s f w : quiet w (from_sleep_q s f w) ∧ quiet w (dec_ac_len s (from_sleep_q s f w)).
Proof.
  assert (quiet w (from_sleep_q s f w)) as Q by (etrans; [apply (quiet_delete f)|by apply quiet_same]).
  split; [done|]. etrans; [exact Q|by apply quiet_same].
Qed.
Lemma released_quiet f g w w1 : quiet w w1 → pw (rtl8822bu_hal_xmitframe_enqueue f (upd_attrib f g w1)) (quiet w).
Proof.
  intros Q. eapply pw_mono; [apply enqueue_quiet|]. intros w' Q'. etrans; [exact Q|]. etrans; [|exact Q']. by apply quiet_fr.
Qed.
Lemma wake_frame_quiet s f w : pw (wake_frame s f w) (quiet w).
Proof. unfold wake_frame. apply released_quiet. destruct (wmmps_ac _ _ _); apply sleep_frame_quiet. Qed.
Lemma wake_bmc_quiet e h s f w : pw (wake_bmc_frame e h s f w) (quiet w).
Proof.
  unfold wake_bmc_frame. destruct (_ && _); apply released_quiet; [|apply sleep_frame_quiet].
  etrans; [apply (proj1 (sleep_frame_quiet s f w))|by apply quiet_fr].
Qed.
Lemma delivery_quiet s f w : pw (delivery_frame s f w) (quiet w).
Proof.
  unfold delivery_frame. destruct (wmmps_ac _ _ _); [|by cbn]. apply pw_bind.
  eapply pw_mono; [apply (released_quiet f _ w), sleep_frame_quiet|]. intros w' Q. cbn. destruct (_ && _); [etrans; [exact Q|by apply quiet_same]|done].
Qed.
Lemma alive_untouched e s w : quiet w (alive_check e s w).
Proof. unfold alive_check. destruct (has_state _ _ _); [by apply quiet_same|done]. Qed.
Lemma ps_poll_quiet e s aid prio w : pw (ps_poll e s aid prio w) (quiet w).
Proof.
  unfold ps_poll. destruct (_ || _); [by cbn|]. pose proof (alive_untouched e s w) as Q1. destruct (_ && _); [|done].
  destruct (queue _ _) as [|f r].
  - destruct (rtw_bmp_is_set _ _); [|done]. cbn. etrans; [exact Q1|]. destruct (_ =? 0); by apply quiet_same.
  - apply pw_bind. eapply pw_mono; [apply (released_quiet f _ w); etrans; [exact Q1|apply sleep_frame_quiet]|]. intros w' Q. cbn.
    destruct (_ =? 0); [etrans; [exact Q|by apply quiet_same]|done].
Qed.
Lemma wakeup_bufs e s R w : bufs R w → pw (wakeup_sta_to_xmit e s w) (bufs R).
Proof.
  intros Hw. unfold wakeup_sta_to_xmit. apply pw_bind. eapply pw_mono.
  { apply (each_mgmt R (Q_mgmt_sleep s)); [done|done|]. intros f w' H' X'. unfold wake_mgmt_frame. set (w1 := upd_attrib f _ _).
    assert (quiet w' w1) as Q1 by (etrans; [|by apply quiet_fr]; etrans; [apply (quiet_delete f)|by apply quiet_same]).
    eapply pw_mono; [apply (mgmt_enqueue_bufs R f w1); [exact (bufs_quiet _ _ _ H' Q1)|exact (ext_quiet _ _ _ X' Q1)]|].
    intros w2 [H2 X2]. split; [done|]. intros g Hg. apply X2. exact (ext_quiet _ _ _ Hg Q1). }
  intros w1 H1. apply pw_bind. eapply pw_mono; [apply each_quiet; intros; apply wake_frame_quiet|]. intros w2 Q2.
  set (w3 := if ((w2.(st) s).(sleepq_len) =? 0) && _ then _ else w2). assert (quiet w2 w3) as Q3.
  { unfold w3. destruct (_ && _); [|done]. set (w4 := if has_state _ _ _ then _ else _). assert (quiet w2 w4) as Q4.
    { unfold w4. destruct (has_state _ _ _); by apply quiet_same. }
    etrans; [exact Q4|]. etrans; [apply (alive_untouched e s)|]. by apply quiet_same. }
  pose proof (bufs_quiet _ _ _ (bufs_quiet _ _ _ H1 Q2) Q3) as H3. destruct (rtw_get_bcmc_stainfo w3) as [x|]; [|done].
  destruct (negb _); [|done]. apply pw_bind. eapply pw_mono; [apply each_quiet; intros; apply wake_bmc_quiet|]. intros w4 Q4. cbn [pw].
  apply (bufs_quiet R w4); [exact (bufs_quiet _ _ _ H3 Q4)|]. destruct (sleepq_len (st w4 x) =? 0); [by apply quiet_same|done].
Qed.
Lemma stop_servqs_quiet e s w : pw (stop_servqs e s w) (quiet w).
Proof.
  assert (∀ a w, pw (stop_servq e s a w) (quiet w)) as Hs.
  { intros a w1. unfold stop_servq, dequeue_xmitframes_to_sleeping_queue. apply pw_bind. eapply pw_mono; [apply each_quiet|].
    - intros f w2. assert (quiet w2 (untrigger f w2)) as Q1 by by apply quiet_fr. apply pw_bind. eapply pw_mono; [apply sleeping_quiet|].
      intros [r w3] Q3. cbn in *. etrans; [exact Q1|]. etrans; [exact Q3|]. destruct r; [by apply quiet_same|done].
    - intros w2 Q2. cbn. etrans; [exact Q2|apply quiet_tk_delete]. }
  unfold stop_servqs. do 3 (apply pw_bind; eapply pw_mono; [apply Hs|]; intros ? ?). eapply pw_mono; [apply Hs|]. intros w' ?.
  by repeat (etrans; [eassumption|]).
Qed.
Lemma stop_bufs e s R w : bufs R w → pw (stop_sta_xmit e s w) (bufs R).
Proof.
  intros Hw. unfold stop_sta_xmit. set (w1 := upd_st s _ w). set (w2 := set_dz _ w1). assert (bufs R w2) as H2 by (eapply bufs_quiet; [done|by apply quiet_same]).
  apply pw_bind. eapply pw_mono.
  { apply (each_mgmt R (Q_pend s MGMT_IDX)); [done|done|]. intros f w' H' X'. assert (quiet w' (untrigger f w')) as Q1 by by apply quiet_fr.
    apply pw_bind. eapply pw_mono; [apply (mgmt_sleeping_bufs R f); [exact (bufs_quiet _ _ _ H' Q1)|exact (ext_quiet _ _ _ X' Q1)]|].
    intros [r w3] [H3 E3]. cbn [pw snd] in *. split.
    - apply (bufs_quiet R w3); [done|]. destruct r; [done|done|by apply quiet_same].
    - intros g Hg b. pose proof (ext_quiet _ _ _ Hg Q1 b) as Hb. rewrite <- E3 in Hb. by destruct r. }
  intros w3 H3. set (w4 := set_tk _ w3). assert (bufs R w4) as H4 by (eapply bufs_quiet; [done|apply quiet_tk_delete]).
  apply pw_bind. eapply pw_mono; [apply stop_servqs_quiet|]. intros w5 Q5. pose proof (bufs_quiet _ _ _ H4 Q5) as H5.
  destruct (rtw_get_bcmc_stainfo w5); [|done]. eapply pw_mono; [apply stop_servqs_quiet|]. intros w6 Q6. exact (bufs_quiet _ _ _ H5 Q6).
Qed.
Lemma flush_servq_quiet s a w : pw (flush_servq s a w) (quiet w).
Proof.
  unfold flush_servq, rtw_free_xmitframe_queue. apply pw_bind. eapply pw_mono; [apply each_quiet; intros; apply free_frame_quiet|]. intros w1 Q1. cbn.
  etrans; [exact Q1|]. etrans; [apply (quiet_tk_delete (s, a))|by apply quiet_same].
Qed.
Lemma free_stainfo_bufs e s R w : bufs R w → pw (rtw_free_stainfo e s w) (bufs R).
Proof.
  intros Hw. unfold rtw_free_stainfo. set (w1 := set_tbl _ _ w). set (w2 := upd_st s _ w1).
  assert (bufs R w2) as H2 by (eapply bufs_quiet; [done|by apply quiet_same]). apply pw_bind, (pw_mono _ (bufs R)).
  - unfold rtw_free_stainfo_flush_xmit, rtw_free_xmitframe_queue, rtw_free_mgmt_xmitframe_queue.
    do 2 (apply pw_bind; eapply pw_mono; [apply each_quiet; intros; apply free_frame_quiet|]; intros ? ?).
    set (w3 := upd_st s _ _). assert (bufs R w3) as H3.
    { eapply bufs_quiet; [eapply bufs_quiet; [eapply bufs_quiet; [exact H2|eassumption]|eassumption]|by apply quiet_same]. }
    apply pw_bind. eapply pw_mono.
    { apply (each_mgmt R (Q_mgmt_sleep s)); [done|done|]. intros f w' H' X'.
      apply pw_bind, (pw_mono _ (λ w1, bufs R w1 ∧ same_frames w' w1)).
      - destruct (pxmitbuf (fr w' f)) as [b|] eqn:Eb; [|done]. apply free_ext_bufs; [done|by apply X'].
      - intros w4 [H4 [_ E4]]. eapply pw_mono; [apply free_frame_quiet|]. intros w5 Q5. split; [exact (bufs_quiet _ _ _ H4 Q5)|].
        intros g Hg. apply (ext_quiet w4); [|done]. unfold ext_buf. by rewrite E4. }
    intros w4 H4. set (w5 := upd_st s _ w4). assert (bufs R w5) as H5 by (eapply bufs_quiet; [done|by apply quiet_same]).
    do 4 (apply pw_bind; eapply pw_mono; [apply flush_servq_quiet|]; intros ? ?). eapply pw_mono; [apply flush_servq_quiet|]. intros w6 ?.
    apply (bufs_quiet R w5); [done|]. by repeat (etrans; [eassumption|]).
  - intros w3 H3. cbn. eapply bufs_quiet; [exact H3|]. destruct (is_ap e); by apply quiet_same.
Qed.

(** ** Every sequence of operations *)
(** [rtw_xmitframe_coalesce] makes one fragment at least. *)
Definition coalesces (e : env) : Prop := ∀ f n, e.(coalesce) f = Some n → n ≠ 0%nat.
Lemma step_bufs e o w : coalesces e → bufs [] w → pw (step e o w) (bufs []).
Proof.
  intros Hc Hw. assert (∀ m, pw m (quiet w) → pw m (bufs [])) as Hq.
  { intros m Hm. eapply pw_mono; [exact Hm|]. intros w' Q. exact (bufs_quiet _ _ _ Hw Q). }
  destruct o; cbn [step].
  - by apply xmit_entry_bufs.
  - by apply send_mgmt_bufs.
  - by apply tasklet_bufs.
  - unfold usb_write_port_complete. eapply pw_mono; [apply (free_bufs [] b)|by intros w' [? _]].
    destruct Hw as [A B C D E]. split; cbn; auto. intros x Hx. destruct (decide (x = b)) as [->|Hne]; [left; left|].
    destruct (A x Hx) as [[]%elem_of_nil|[?|?]]; [by right; left|right; right]. by apply list_elem_of_filter.
  - by apply stop_bufs.
  - by apply wakeup_bufs.
  - apply Hq. unfold process_wmmps_data. destruct (_ && _); [|by cbn]. apply each_quiet. intros. apply delivery_quiet.
  - apply Hq, ps_poll_quiet.
  - apply Hq. unfold chk_bmc_sleepq_hdl. destruct (rtw_get_bcmc_stainfo w); [|by cbn]. destruct (_ && _); [|by cbn]. apply each_quiet. intros. apply wake_bmc_quiet.
  - apply Hq. cbn. unfold rtw_chk_hi_queue_hdl. destruct (rtw_get_bcmc_stainfo w); [|done]. destruct (_ && _); [by apply quiet_same|done].
  - apply Hq. by apply quiet_same.
  - by apply queue_clear_bufs.
  - apply Hq. by apply quiet_same.
  - by apply free_stainfo_bufs.
Qed.
Lemma init_bufs n : bufs [] (init_xw n).
Proof.
  split.
  - intros b Hb. right. left. cbn [bk init_xw]. apply elem_of_app. left. apply list_elem_of_fmap. exists b. split; [done|]. apply elem_of_seq. lia.
  - intros b. cbn [bk init_xw]. intros [Hb|Hb]%elem_of_app; apply list_elem_of_fmap in Hb as (x & [= ->] & Hx). apply elem_of_seq in Hx. lia.
  - intros b. cbn [bk init_xw]. intros [Hb|Hb]%elem_of_app; apply list_elem_of_fmap in Hb as (x & [= ->] & Hx). apply elem_of_seq in Hx. lia.
  - intros q f Hq Hf b. done.
  - intros x Hx. by apply elem_of_nil in Hx.
Qed.
Lemma run_bufs l : ∀ w, Forall (λ x, coalesces x.1) l → bufs [] w → pw (run l w) (bufs []).
Proof.
  induction l as [|[e o] l IH]; intros w Hc Hw; [done|]. apply Forall_cons in Hc as [Hc Hr]. cbn [run]. apply pw_bind.
  eapply pw_mono; [by apply step_bufs|]. intros w' H'. by apply IH.
Qed.
(** With no free buffer for data, the USB core has them all. *)
Lemma bufs_busy w : bufs [] w → queue w.(bk) B_free = [] → ∀ b, (b < NR_XMITBUFF)%nat → b ∈ w.(urbs).
Proof.
  intros Hw E b Hb. destruct (b_data _ _ Hw b Hb) as [[]%elem_of_nil|[Hf|]]; [|done]. apply elem_of_queue in Hf. rewrite E in Hf. by apply elem_of_nil in Hf.
Qed.
