(* ===== verification/XmitQueueLive.v ===== *)
(** * The transmit queues: what the driver gets done

    A station that wakes up gets the frames that were kept for it, in their order;
    the tasklet leaves a frame waiting only when there is no buffer for it; the
    frames packed into a buffer fit into it. *)
From S2P Require Import Prelude.
From stdpp Require Import list gmap.
From S2P Require Import StaTable WepTkip XmitAttrib RxValidate XmitQueue XmitQueueInv XmitQueueOps XmitQueuePs XmitQueueSafe XmitQueueRun XmitQueueBuf.
Local Open Scope Z_scope.
#[local] Opaque NR_FRAMES NR_XMITFRAME NR_XMIT_EXTBUFF.

(** ** Frames that move from a queue to others *)
Lemma filter_same {A} (P P' : A → Prop) `{∀ x, Decision (P x)} `{∀ x, Decision (P' x)} (l : list A) :
  (∀ x, x ∈ l → P x ↔ P' x) → filter P l = filter P' l.
Proof.
  induction l as [|x l IH]; intros Hp; [done|]. rewrite !filter_cons, IH by (intros; apply Hp; by right).
  specialize (Hp x ltac:(left)). repeat case_decide; tauto || done.
Qed.
Lemma filter_false {A} (P : A → Prop) `{∀ x, Decision (P x)} (l : list A) : (∀ x, x ∈ l → ¬ P x) → filter P l = [].
Proof.
  induction l as [|x l IH]; intros Hp; [done|]. rewrite filter_cons, decide_False by (apply Hp; left). apply IH. intros y Hy. apply Hp. by right.
Qed.
Lemma queue_moved (h : list (qid * nat)) q q' f r x : NoDup h.*2 → queue h q = f :: r → q' ≠ q →
  queue (list_delete f h ++ [(q', f)]) x =
  if decide (x = q) then r else queue h x ++ if decide (q' = x) then [f] else [].
Proof.
  intros Hd Hq Hn. rewrite queue_app, queue_one. destruct (decide (x = q)) as [->|E].
  - rewrite (queue_delete_head h q f r), decide_False by done. apply app_nil_r.
  - rewrite (queue_delete_other h q); [done|done| |done]. rewrite <- elem_of_queue, Hq. left.
Qed.
Section Move.
Context (P : xw → Prop) (q : qid) (dest : nat → qid) (R : nat → list nat → xmit_frame → Prop) (body : nat → xw → cres xw) (w : xw).
Context (Hnodup : ∀ w', P w' → NoDup w'.(lk).*2) (Hdest : ∀ f, dest f ≠ q).
Context (Hbody : ∀ f rest w', P w' → queue w'.(lk) q = f :: rest → w'.(fr) f = w.(fr) f →
  rp (body f w') (λ w'', P w'' ∧ w''.(lk) = list_delete f w'.(lk) ++ [(dest f, f)] ∧ (∀ g, g ≠ f → w''.(fr) g = w'.(fr) g) ∧
    R f rest (w''.(fr) f))).
(** The queue is emptied; each frame is at the end of its destination, in order;
    [R] holds of the frame and the frames that were behind it. *)
Record moved (l : list nat) (w' : xw) : Prop := {
  mv_queue x : x ≠ q → queue w'.(lk) x = queue w.(lk) x ++ filter (λ f, dest f = x) l;
  mv_other f : f ∉ l → w'.(fr) f = w.(fr) f;
  mv_frame i f : l !! i = Some f → R f (drop (S i) (queue w.(lk) q)) (w'.(fr) f)
}.
Lemma move_loop : P w →
  rp (each (queue w.(lk) q) body w) (λ w', P w' ∧ queue w'.(lk) q = [] ∧ moved (queue w.(lk) q) w').
Proof.
  intros Hp. eapply rp_mono.
  - apply (each_rp (λ rest w', P w' ∧ queue w'.(lk) q = rest ∧ ∃ l, queue w.(lk) q = l ++ rest ∧ moved l w')).
    + intros f rest w' (Hp' & Hq & l & El & [M1 M2 M3]). pose proof (Hnodup _ Hp') as Hd.
      assert (NoDup (l ++ f :: rest)) as Hn by (rewrite <- El; eapply queue_NoDup, Hnodup, Hp).
      assert (f ∉ l) as Hfl. { apply NoDup_app in Hn as (_ & Hn & _). intros Hf. apply (Hn f Hf). left. }
      eapply rp_mono; [apply (Hbody f rest w' Hp' Hq (M2 f Hfl))|]. intros w'' (Hp'' & El'' & Ho & Hr).
      split; [done|]. rewrite El''. split.
      * rewrite (queue_moved _ q _ _ rest) by done. by rewrite decide_True.
      * exists (l ++ [f]). rewrite <- app_assoc. split; [done|]. split.
        -- intros x Hx. rewrite El'', (queue_moved _ q _ _ rest), decide_False, M1, filter_app, filter_cons, filter_nil, <- app_assoc by done. done.
        -- intros g [Hg1 Hg2]%not_elem_of_app. rewrite Ho by set_solver. by apply M2.
        -- intros i g. destruct (decide (g = f)) as [->|Hne].
           ++ intros [Hi|[Hi Hi']]%lookup_app_Some; [by apply list_elem_of_lookup_2 in Hi|].
              apply list_lookup_singleton_Some in Hi' as [Hi' _]. rewrite El. assert (i = length l) as -> by lia.
              rewrite (cons_middle f l rest), app_assoc, drop_app_length' by (rewrite length_app; simpl; lia). done.
           ++ intros [Hi|[Hi Hi']]%lookup_app_Some; [rewrite Ho by done; by apply M3|].
              apply list_lookup_singleton_Some in Hi' as [_ Hi']. done.
    + split; [done|]. split; [done|]. exists []. split; [done|]. split; [intros; by rewrite filter_nil, app_nil_r|done|done].
  - intros w' (? & ? & l & El & Hm). rewrite app_nil_r in El. by subst l.
Qed.
End Move.

(** ** Frames released for a station *)
Section Release.
Context {L : list nat} (M : mode) (w0 : xw) (Ht : w0.(tbl) = M.(m_tbl)) (Hs0 : sinv w0).
Lemma frame_sta w f s : keeps w0 w → to_sta M (w.(fr) f) s → sta_of_frame w f = Some s.
Proof.
  intros Hk [E1 E2]. unfold sta_of_frame, rtw_get_stainfo, frame_attrib. rewrite (k_tbl _ _ Hk), Ht, E2, decide_True by done.
  rewrite (keeps_state _ _ _ _ Hk). by rewrite (si_asoc _ Hs0 _ _ (eq_trans (f_equal (λ t, t !! _) Ht) E2)).
Qed.
Lemma enqueue_exact w f s g : inv M (f :: L) [] [] w → keeps w0 w → to_sta M (w.(fr) f) s → (∀ a, (g a).(triggered) = 1) →
  (∀ a, (g a).(ra) = a.(ra) ∧ (g a).(psta) = a.(psta) ∧ (g a).(priority) = a.(priority)) →
  rp (rtl8822bu_hal_xmitframe_enqueue f (upd_attrib f g w)) (λ w', releasing L M w0 w' ∧ w'.(fr) = (upd_attrib f g w).(fr) ∧
    w'.(lk) = w.(lk) ++ [(Q_pend s (rtw_get_sta_pending (frame_attrib w f).(priority)), f)] ∧ w'.(tim_bitmap) = w.(tim_bitmap)).
Proof.
  intros Hi Hk Hs Hg He. unfold rtl8822bu_hal_xmitframe_enqueue, enqueue_or_free. set (w1 := upd_attrib f g w).
  assert (attrib (fr w1 f) = g (attrib (fr w f))) as Ea by (cbn; by rewrite upd_eq).
  assert (keeps w0 w1) as K1 by (etrans; [exact Hk|apply (only_attrib f g)]). destruct (He (attrib (fr w f))) as (E1 & E2 & E3).
  assert (sta_of_frame w1 f = Some s) as Ef. { apply frame_sta; [done|]. destruct Hs. split; rewrite Ea; [by rewrite E2|by rewrite E1]. }
  assert (tim_bitmap w1 = tim_bitmap w) as Etim by done.
  apply rp_bind. pose proof (classifier_spec M L [] [] w1 f) as Hc. rewrite Ef in Hc.
  assert (match rtw_xmit_classifier f w1 with Ret r => tim_bitmap r.2 = tim_bitmap w1 | _ => True end) as Hti.
  { unfold rtw_xmit_classifier, servq_insert, list_insert_tail. rewrite Ef. by repeat (case_match; simplify_eq/=). }
  destruct (rtw_xmit_classifier f w1) as [[ok w2]| |]; cbn [rp fst snd] in *.
  - destruct Hc as (Ho & -> & I2 & F2 & L2); [by apply inv_attrib_hand|by rewrite (k_tbl _ _ K1)|intros s' _ _ _; rewrite Ea; apply Hg|].
    split; [split; [done|]; etrans; [exact K1|apply Ho]|]. split; [done|]. split; [|by rewrite Hti].
    rewrite L2. unfold frame_attrib. by rewrite Ea, E3.
  - destruct Hc; [by apply inv_attrib_hand|by rewrite (k_tbl _ _ K1)|intros s' _ _ _; rewrite Ea; apply Hg].
  - destruct Hc; [by apply inv_attrib_hand|by rewrite (k_tbl _ _ K1)|intros s' _ _ _; rewrite Ea; apply Hg].
Qed.
Lemma mgmt_enqueue_exact w f s g : inv M (f :: L) [] [] w → keeps w0 w → to_sta M (w.(fr) f) s → mgmt_ok (w.(fr) f) →
  (∀ a, (g a).(ra) = a.(ra) ∧ (g a).(psta) = a.(psta) ∧ (g a).(ps_dontq) = a.(ps_dontq)) →
  rp (rtl8822bu_hal_mgmt_xmitframe_enqueue f (upd_attrib f g w)) (λ w', releasing L M w0 w' ∧ w'.(fr) = (upd_attrib f g w).(fr) ∧
    w'.(lk) = w.(lk) ++ [(Q_pend s MGMT_IDX, f)]).
Proof.
  intros Hi Hk Hs Hok He. unfold rtl8822bu_hal_mgmt_xmitframe_enqueue, enqueue_or_free. set (w1 := upd_attrib f g w).
  assert (fr w1 f = set_attrib (g (attrib (fr w f))) (fr w f)) as Ea by (cbn; by rewrite upd_eq).
  assert (keeps w0 w1) as K1 by (etrans; [exact Hk|apply (only_attrib f g)]). destruct (He (attrib (fr w f))) as (E1 & E2 & E3).
  assert (sta_of_frame w1 f = Some s) as Ef. { apply frame_sta; [done|]. destruct Hs. split; rewrite Ea; cbn; [by rewrite E2|by rewrite E1]. }
  apply rp_bind. pose proof (mgmt_enqueue_spec M L [] [] w1 f) as Hc. rewrite Ef in Hc. eapply rp_mono; [apply Hc|].
  - by apply inv_attrib_hand.
  - by rewrite (k_tbl _ _ K1).
  - rewrite Ea. destruct Hok as (? & ? & ? & ?). split_and!; cbn; [by rewrite E1|by rewrite E3|done|done].
  - intros [ok w2] (Ho & Eok & I2 & F2 & L2). cbn [rp fst snd] in *. subst ok. split; [split; [done|]; etrans; [exact K1|apply Ho]|done].
Qed.
Lemma release_same ps p a : (release_bits ps p a).(ra) = a.(ra) ∧ (release_bits ps p a).(psta) = a.(psta) ∧ (release_bits ps p a).(priority) = a.(priority).
Proof. unfold release_bits. destruct ps; [by destruct (_ <? _)|done]. Qed.
Definition dest_pend (s : nat) (w : xw) (f : nat) : qid := Q_pend s (rtw_get_sta_pending (frame_attrib w f).(priority)).
(** A frame released to a station: it is marked as asked for; without U-APSD, its
    more-data bit says whether others are behind it. *)
Definition released (s : nat) (w : xw) (f : nat) (rest : list nat) (x : xmit_frame) : Prop :=
  x.(attrib).(triggered) = 1 ∧ x.(pkt) = (w.(fr) f).(pkt) ∧
  (wmmps_ac (w0.(st) s) (frame_attrib w f).(priority) 1 = false → x.(attrib).(mdata) = if decide (rest = []) then 0 else 1).
Lemma stat_wmmps p p' prio n : stat p = stat p' → wmmps_ac p prio n = wmmps_ac p' prio n.
Proof.
  unfold stat, wmmps_ac. intros E.
  assert (uapsd_bk p = uapsd_bk p' ∧ uapsd_be p = uapsd_be p' ∧ uapsd_vi p = uapsd_vi p' ∧ uapsd_vo p = uapsd_vo p') as (-> & -> & -> & ->); [|done].
  split_and!; congruence.
Qed.
Lemma left_len w s f rest : releasing L M w0 w → queue w.(lk) (Q_sleep s) = f :: rest →
  ((from_sleep_q s f w).(st) s).(sleepq_len) = Z.of_nat (length rest).
Proof.
  intros [Hi _] Eq. destruct (sleep_len _ _ _ _ _ s Hi ltac:(done)) as [Hb E]. rewrite Eq in E. simpl in E.
  unfold from_sleep_q. cbn. rewrite upd_eq. cbn. rewrite u32_id; [lia|]. split; [lia|]. apply (Z.le_lt_trans _ 288); [lia|done].
Qed.
Lemma legacy_mdata p a (rest : list nat) : p.(sleepq_len) = Z.of_nat (length rest) → (release_bits false p a).(mdata) = if decide (rest = []) then 0 else 1.
Proof. unfold release_bits. cbn. intros ->. destruct rest; [by rewrite decide_True|]. rewrite decide_False by done. by destruct (Z.ltb_spec 0 (Z.of_nat (length (n :: rest)))); [|simpl in *; lia]. Qed.
Lemma release_exact w f s w1 ps : releasing L M w0 w → (Q_sleep s, f) ∈ w.(lk) → inv M (f :: L) [] [] w1 → only f w w1 →
  w1.(fr) = w.(fr) → w1.(lk) = list_delete f w.(lk) → w1.(tim_bitmap) = w.(tim_bitmap) →
  rp (rtl8822bu_hal_xmitframe_enqueue f (upd_attrib f (release_bits ps (w1.(st) s)) w1))
    (λ w', (releasing L M w0 w' ∧ w'.(tim_bitmap) = w.(tim_bitmap)) ∧ w'.(lk) = list_delete f w.(lk) ++ [(dest_pend s w f, f)] ∧
      (∀ g, g ≠ f → w'.(fr) g = w.(fr) g) ∧ w'.(fr) f = set_attrib (release_bits ps (w1.(st) s) (w.(fr) f).(attrib)) (w.(fr) f)).
Proof.
  intros [Hi Hk] Hl I1 O1 F1 L1 T1. pose proof (i_facts _ _ _ _ _ Hi _ _ Hl) as Hx.
  eapply rp_mono; [apply (enqueue_exact w1 f s); [done|etrans; [exact Hk|apply O1]|by rewrite F1|intros; apply release_triggered|intros; apply release_same]|].
  intros w2 (R2 & F2 & L2 & T2). split; [by rewrite T2|]. rewrite L2, L1. unfold dest_pend, frame_attrib. rewrite F1. split; [done|].
  rewrite F2. cbn. rewrite F1. split; [intros g Hg; by rewrite upd_ne|]. by rewrite upd_eq.
Qed.
Lemma wake_exact w s f rest : releasing L M w0 w → queue w.(lk) (Q_sleep s) = f :: rest →
  rp (wake_frame s f w) (λ w', releasing L M w0 w' ∧ w'.(lk) = list_delete f w.(lk) ++ [(dest_pend s w f, f)] ∧
    (∀ g, g ≠ f → w'.(fr) g = w.(fr) g) ∧ released s w f rest (w'.(fr) f)).
Proof.
  intros Hr Eq. assert ((Q_sleep s, f) ∈ w.(lk)) as Hl by (rewrite <- elem_of_queue, Eq; left). destruct Hr as [Hi Hk]. unfold wake_frame.
  destruct (from_sleep_spec _ _ _ _ Hi Hl) as [I1 O1]. pose proof (left_len w s f rest (conj Hi Hk) Eq) as El. set (w1 := from_sleep_q s f w) in *.
  set (ps := wmmps_ac _ _ _). set (w2 := if ps then dec_ac_len s w1 else w1).
  assert (inv M (f :: L) [] [] w2 ∧ only f w w2 ∧ fr w2 = fr w ∧ lk w2 = list_delete f (lk w) ∧ tim_bitmap w2 = tim_bitmap w) as (I2 & O2 & F2 & L2 & T2).
  { unfold w2. destruct ps; [|done]. destruct (dec_ac_spec M _ _ _ w1 s f I1) as [? ?]. split; [done|]. split; [by etrans|done]. }
  eapply rp_mono; [by apply (release_exact w f s w2 ps)|]. intros w3 ((R3 & _) & L3 & F3 & X3). split_and!; [done..|].
  rewrite X3. split_and!; [apply release_triggered|done|]. intros Elg.
  assert (ps = false) as Eps. { unfold ps. rewrite <- Elg. by apply stat_wmmps, Hk. }
  cbn [set_attrib attrib]. rewrite Eps. apply legacy_mdata. unfold w2. by rewrite Eps.
Qed.
Lemma wake_bmc_exact e w s f : releasing L M w0 w → (Q_sleep s, f) ∈ w.(lk) →
  rp (wake_bmc_frame e false s f w) (λ w', (releasing L M w0 w' ∧ w'.(tim_bitmap) = w.(tim_bitmap)) ∧
    w'.(lk) = list_delete f w.(lk) ++ [(dest_pend s w f, f)] ∧ (∀ g, g ≠ f → w'.(fr) g = w.(fr) g)).
Proof.
  intros Hr Hl. unfold wake_bmc_frame. cbn [andb]. destruct Hr as [Hi Hk]. destruct (from_sleep_spec _ _ _ _ Hi Hl) as [I1 O1].
  eapply rp_mono; [by apply (release_exact w f s (from_sleep_q s f w) false)|]. intros w3 (? & ? & ? & _). done.
Qed.
Lemma wake_mgmt_exact w s f : releasing L M w0 w → (Q_mgmt_sleep s, f) ∈ w.(lk) →
  rp (wake_mgmt_frame s f w) (λ w', releasing L M w0 w' ∧ w'.(lk) = list_delete f w.(lk) ++ [(Q_pend s MGMT_IDX, f)] ∧
    (∀ g, g ≠ f → w'.(fr) g = w.(fr) g) ∧ (w'.(fr) f).(attrib).(triggered) = 1).
Proof.
  intros [Hi Hk] Hl. unfold wake_mgmt_frame. pose proof (i_facts _ _ _ _ _ Hi _ _ Hl) as [Hx Hok].
  destruct (from_mgmt_sleep_spec M w s f Hi Hl) as [I2 O2]. set (w2 := upd_st s _ _) in *.
  eapply rp_mono; [apply (mgmt_enqueue_exact w2 f s); [done|etrans; [exact Hk|apply O2]|done|done|done]|].
  intros w3 (R3 & F3 & L3). split; [done|]. split; [done|]. rewrite F3. cbn. rewrite upd_eq. split; [|done].
  intros g Hg. by rewrite upd_ne.
Qed.
End Release.

(** ** Waking up *)
Lemma bmp_clear_gone bmp id : rtw_bmp_is_set (rtw_bmp_clear bmp id) id = false.
Proof.
  rewrite bmp_is_set_spec. unfold rtw_bmp_clear. destruct (Nat.ltb_spec (Z.to_nat (u8 id / 8)) (length bmp)) as [Hl|Hl].
  - rewrite aget_insert_eq by done. destruct (u8_parts id) as [_ Hm].
    rewrite Z.land_spec, Z.lnot_spec by lia. unfold BIT. rewrite Z.shiftl_1_l, Z.pow2_bits_true by lia. by rewrite andb_false_r.
  - destruct (Nat.ltb_spec (Z.to_nat (u8 id / 8)) (length bmp)); [lia|]. by rewrite andb_false_r.
Qed.
Lemma bmp_clear_off bmp id id' : rtw_bmp_is_set bmp id' = false → rtw_bmp_is_set (rtw_bmp_clear bmp id) id' = false.
Proof. intros E. destruct (rtw_bmp_is_set (rtw_bmp_clear bmp id) id') eqn:E'; [|done]. apply bmp_clear_sub in E'. congruence. Qed.
Lemma xor_bit v n : 0 ≤ n → negb (v .& BIT n =? 0) = true → negb ((v ⊕ BIT n) .& BIT n =? 0) = false.
Proof.
  intros Hn. rewrite !bit_is_zero, !negb_involutive, Z.lxor_spec by done. intros ->.
  unfold BIT. by rewrite Z.shiftl_1_l, Z.pow2_bits_true.
Qed.
(** [woken]: the queues stay, the state and the bits of the station are those of
    one that is awake. *)
Lemma woken_spec e s w : let w' := woken e s w in
  w'.(lk) = w.(lk) ∧ w'.(fr) = w.(fr) ∧ w'.(tbl) = w.(tbl) ∧ aid_of w' s = aid_of w s ∧
  has_state w' s WIFI_SLEEP_STATE = false ∧ rtw_bmp_is_set w'.(tim_bitmap) (aid_of w s) = false ∧
  rtw_bmp_is_set w'.(sta_dz_bitmap) (aid_of w s) = false.
Proof.
  unfold woken. set (w1 := set_tim _ w). set (w2 := if has_state w1 s WIFI_SLEEP_STATE then _ else w1).
  assert (lk w2 = lk w ∧ fr w2 = fr w ∧ tbl w2 = tbl w ∧ tim_bitmap w2 = tim_bitmap w1 ∧ aid_of w2 s = aid_of w s ∧ has_state w2 s WIFI_SLEEP_STATE = false)
    as (E1 & E2 & E3 & E4 & E5 & E6).
  { unfold w2. destruct (has_state w1 s WIFI_SLEEP_STATE) eqn:Ez; [|done]. split_and!; try done.
    - unfold aid_of. cbn. by rewrite upd_eq.
    - unfold has_state in *. cbn in *. rewrite upd_eq. cbn. apply (xor_bit _ 2); done. }
  set (w3 := alive_check e s w2).
  assert (lk w3 = lk w2 ∧ fr w3 = fr w2 ∧ tbl w3 = tbl w2 ∧ tim_bitmap w3 = tim_bitmap w2 ∧ aid_of w3 s = aid_of w2 s ∧
    has_state w3 s WIFI_SLEEP_STATE = has_state w2 s WIFI_SLEEP_STATE) as (F1 & F2 & F3 & F4 & F5 & F6).
  { unfold w3, alive_check. destruct (has_state w2 s WIFI_STA_ALIVE_CHK_STATE); [|done]. split_and!; try done.
    - unfold aid_of. cbn. by rewrite upd_eq.
    - unfold has_state. cbn. rewrite upd_eq. cbn. change WIFI_STA_ALIVE_CHK_STATE with (BIT 10). change WIFI_SLEEP_STATE with (BIT 2).
      rewrite !bit_is_zero, !negb_involutive, Z.lxor_spec by done. unfold BIT. rewrite !Z.shiftl_1_l, Z.pow2_bits_false by lia. by rewrite xorb_false_r. }
  cbn [set_dz set_maps lk fr tbl tim_bitmap sta_dz_bitmap]. split_and!; try congruence.
  - change (aid_of w3 s = aid_of w s). congruence.
  - change (has_state w3 s WIFI_SLEEP_STATE = false). congruence.
  - rewrite F4, E4. apply bmp_clear_gone.
  - rewrite F5, E5. apply bmp_clear_gone.
Qed.

Section Wakeup.
Context {L : list nat} (b : bool) (e : env) (s : nat).
(** What a station that wakes up finds: its sleep queues emptied into its service
    queues, each frame released. *)
Definition delivered (w w' : xw) : Prop :=
  queue w'.(lk) (Q_mgmt_sleep s) = [] ∧ queue w'.(lk) (Q_sleep s) = [] ∧
  queue w'.(lk) (Q_pend s MGMT_IDX) = queue w.(lk) (Q_pend s MGMT_IDX) ++ queue w.(lk) (Q_mgmt_sleep s) ∧
  (∀ a, a ≠ MGMT_IDX → queue w'.(lk) (Q_pend s a) =
     queue w.(lk) (Q_pend s a) ++ filter (λ f, rtw_get_sta_pending (frame_attrib w f).(priority) = a) (queue w.(lk) (Q_sleep s))) ∧
  (∀ i f, queue w.(lk) (Q_sleep s) !! i = Some f → released w s w f (drop (S i) (queue w.(lk) (Q_sleep s))) (w'.(fr) f)).
Lemma wake_queues w : good L b w →
  rp (let* w := each (queue w.(lk) (Q_mgmt_sleep s)) (wake_mgmt_frame s) w in each (queue w.(lk) (Q_sleep s)) (wake_frame s) w)
    (λ w', releasing L (mode_of b w) w w' ∧ delivered w w').
Proof.
  intros Hg. assert (∀ w', releasing L (mode_of b w) w w' → NoDup (lk w').*2) as Hd by (intros w' [Hi _]; by eapply inv_nodup_lk).
  apply rp_bind. eapply rp_mono.
  { apply (move_loop (releasing L (mode_of b w) w) (Q_mgmt_sleep s) (λ _, Q_pend s MGMT_IDX) (λ _ _ _, True)); [done|done| |by split; [apply g_inv|]].
    intros f rest w' Hr Eq _. eapply rp_mono; [apply (wake_mgmt_exact (L:=L) (mode_of b w) w eq_refl (g_sinv _ _ Hg) w' s f); [done|rewrite <- elem_of_queue, Eq; left]|].
    intros w'' (? & ? & ? & _). done. }
  intros w1 (R1 & E1 & [Q1 F1 _]).
  assert (∀ f, f ∈ queue (lk w) (Q_sleep s) → fr w1 f = fr w f) as Fs.
  { intros f Hf. apply F1. intros Hm. apply elem_of_queue in Hf, Hm.
    by pose proof (queue_unique (lk w) _ _ _ (inv_nodup_lk _ _ _ _ _ (g_inv _ _ Hg)) Hf Hm). }
  assert (queue (lk w1) (Q_sleep s) = queue (lk w) (Q_sleep s)) as Es.
  { rewrite Q1 by done. rewrite filter_false; [apply app_nil_r|done]. }
  eapply rp_mono.
  { apply (move_loop (releasing L (mode_of b w) w) (Q_sleep s) (dest_pend s w1) (λ f rest x, released w s w1 f rest x)); [done|done| |done].
    intros f rest w' Hr Eq Ef. eapply rp_mono; [by apply (wake_exact (L:=L) (mode_of b w) w eq_refl (g_sinv _ _ Hg) w' s f rest)|].
    intros w'' (? & Hl & ? & Hx). unfold dest_pend, released, frame_attrib in *. rewrite Ef in *. done. }
  intros w2 (R2 & E2 & [Q2 F2 X2]). split; [done|]. unfold delivered. split_and!; [|done| | |].
  - rewrite Q2, E1 by done. by rewrite filter_false.
  - rewrite Q2, Q1 by done. rewrite filter_true by done.
    rewrite filter_false; [apply app_nil_r|]. intros f _. unfold dest_pend. intros [= E]. by apply data_ac in E.
  - intros a Ha. rewrite Q2, Q1, Es by done. rewrite (filter_false _ (queue (lk w) (Q_mgmt_sleep s))), app_nil_r.
    + f_equal. apply filter_same. intros f Hf. unfold dest_pend, frame_attrib. rewrite (Fs f Hf). naive_solver.
    + intros f _ [= E]. done.
  - intros i f Hi. rewrite <- Es in Hi |- *. specialize (X2 i f Hi). rewrite Es in Hi. apply list_elem_of_lookup_2 in Hi.
    unfold released, frame_attrib in *. rewrite (Fs f Hi) in X2. done.
Qed.
Definition owned (q : qid) : Prop := match q with Q_pend s' _ | Q_sleep s' | Q_mgmt_sleep s' | Q_tx s' => s' = s | _ => False end.
(** The broadcast frames released when the last station wakes up. *)
Lemma bmc_phase w x : good L b w → x ≠ s →
  rp (each (queue w.(lk) (Q_sleep x)) (wake_bmc_frame e false x) w) (λ w',
    keeps w w' ∧ w'.(tim_bitmap) = w.(tim_bitmap) ∧ (∀ q, owned q → queue w'.(lk) q = queue w.(lk) q) ∧
    ∀ q f, owned q → (q, f) ∈ w.(lk) → w'.(fr) f = w.(fr) f).
Proof.
  intros Hg Hx. eapply rp_mono.
  { apply (move_loop (λ w', releasing L (mode_of b w) w w' ∧ tim_bitmap w' = tim_bitmap w) (Q_sleep x) (dest_pend x w) (λ _ _ _, True)).
    - intros w' [[Hi _] _]. by eapply inv_nodup_lk.
    - done.
    - intros f rest w' [Hr Et] Eq Ef. eapply rp_mono; [apply (wake_bmc_exact (L:=L) (mode_of b w) w eq_refl (g_sinv _ _ Hg) e w' x f); [done|rewrite <- elem_of_queue, Eq; left]|].
      intros w'' ((? & Et') & Hl & ?). unfold dest_pend, frame_attrib in *. rewrite Ef in Hl. by rewrite Et', Et.
    - split; [by split; [apply g_inv|]|done]. }
  intros w' ([[Hi Hk] Et] & _ & [Q F _]). split; [done|]. split; [done|]. assert (∀ q, owned q → q ≠ Q_sleep x) as Hne.
  { intros q Ho ->. simpl in Ho. congruence. }
  split.
  - intros q Ho. rewrite Q by auto. rewrite filter_false; [apply app_nil_r|]. intros f _ <-. simpl in Ho. congruence.
  - intros q f Ho Hf. apply F. intros Hm%elem_of_queue. apply (Hne q Ho). exact (queue_unique (lk w) _ _ _ (inv_nodup_lk _ _ _ _ _ (g_inv _ _ Hg)) Hf Hm).
Qed.
Lemma wakeup_exact w : good L b w → w.(tbl) !! canon (w.(st) s).(s_mac) = Some s → IS_MCAST (w.(st) s).(s_mac) = false →
  rp (wakeup_sta_to_xmit e s w) (λ w', delivered w w' ∧ has_state w' s WIFI_SLEEP_STATE = false ∧
    rtw_bmp_is_set w'.(tim_bitmap) (aid_of w s) = false ∧ rtw_bmp_is_set w'.(sta_dz_bitmap) (aid_of w s) = false).
Proof.
  intros Hg Ht Hm. unfold wakeup_sta_to_xmit. pose proof (wake_queues w Hg) as Hq.
  destruct (each _ (wake_mgmt_frame s) w) as [w1| |]; cbn [cbind] in *; try done. apply rp_bind. eapply rp_mono; [exact Hq|].
  intros w2 (R2 & D2). pose proof (good_release _ _ _ Hg R2) as G2. destruct R2 as [I2 K2].
  assert (aid_of w2 s = aid_of w s) as Ea by (apply drifts_aid, keeps_drifts, K2).
  destruct (sleep_len _ _ _ _ _ s I2 ltac:(done)) as [_ ->], (mgmt_sleep_len _ _ _ _ _ s I2 ltac:(done)) as [_ ->].
  rewrite (proj1 D2), (proj1 (proj2 D2)). cbn [length Z.of_nat Z.eqb andb].
  pose proof (good_woken b e w2 s G2) as G3. destruct (woken_spec e s w2) as (L3 & F3 & T3 & A3 & S3 & Tim3 & Dz3). set (w3 := woken e s w2) in *.
  rewrite Ea in Tim3, Dz3.
  assert (delivered w w3) as D3 by (unfold delivered in *; by rewrite L3, F3).
  match goal with |- rp _ ?Φ => change (rp (match rtw_get_bcmc_stainfo w3 with
      | None => Ret w3
      | Some x => if negb (rtw_bmp_not_empty_exclude_bit0 w3.(sta_dz_bitmap)) then
          let* w := each (queue w3.(lk) (Q_sleep x)) (wake_bmc_frame e false x) w3 in
          Ret (if (w.(st) x).(sleepq_len) =? 0 then clear_bmc_bits w else w) else Ret w3 end) Φ) end.
  destruct (rtw_get_bcmc_stainfo w3) as [x|] eqn:Ex; [|done]. destruct (negb _); [|done].
  assert (x ≠ s) as Hx.
  { intros ->. unfold rtw_get_bcmc_stainfo, rtw_get_stainfo in Ex. rewrite T3, (k_tbl _ _ K2) in Ex.
    apply (si_mac _ (g_sinv _ _ Hg)) in Ex. change (canon bc_addr) with bc_addr in Ex. apply canon_bc in Ex. congruence. }
  apply rp_bind. eapply rp_mono; [by apply bmc_phase|]. intros w4 (K4 & Tim4 & Q4 & F4).
  assert (delivered w w4 ∧ has_state w4 s WIFI_SLEEP_STATE = false ∧ rtw_bmp_is_set (tim_bitmap w4) (aid_of w s) = false ∧
    rtw_bmp_is_set (sta_dz_bitmap w4) (aid_of w s) = false) as (D4 & S4 & Tm4 & Dz4).
  { rewrite Tim4, (k_dz _ _ K4), (keeps_state _ _ _ _ K4). split; [|done]. destruct D3 as (D31 & D32 & D33 & D34 & D35).
    unfold delivered. rewrite !Q4 by done. split_and!; try done.
    - intros a Ha. rewrite Q4 by done. auto.
    - intros i f Hi. rewrite (F4 (dest_pend s w f)); [auto|done|]. apply elem_of_queue. unfold dest_pend. rewrite D34 by apply data_ac.
      apply elem_of_app. right. apply list_elem_of_filter. split; [done|]. by eapply list_elem_of_lookup_2. }
  destruct (_ =? 0); [|done]. cbn [rp clear_bmc_bits set_maps tim_bitmap sta_dz_bitmap]. split; [done|]. split; [done|].
  split; by apply bmp_clear_off.
Qed.
End Wakeup.

(** ** Packing frames into a buffer *)
Lemma rnd8_spec n : 0 ≤ n ≤ 2 ^ 31 → n ≤ _RND8 n < n + 8 ∧ _RND8 n mod 8 = 0.
Proof.
  intros Hn. change (2 ^ 31) with 2147483648 in Hn. unfold _RND8. change 7 with (Z.ones 3). rewrite Z.land_ones, Z.shiftr_div_pow2, Z.shiftl_mul_pow2 by done.
  change (2 ^ 3) with 8. pose proof (Z.div_mod n 8 ltac:(done)) as E. pose proof (Z.mod_pos_bound n 8 ltac:(done)).
  rewrite u32_id; [rewrite Z.mod_mul by done|unfold is_u32, uint; change (2 ^ 32) with 4294967296]; destruct (Z.eqb_spec (n mod 8) 0); lia.
Qed.
Lemma rnd8_max n : 0 ≤ n ≤ MAX_XMITBUF_SZ → n ≤ _RND8 n ≤ MAX_XMITBUF_SZ.
Proof.
  intros Hn. unfold MAX_XMITBUF_SZ in *. destruct (rnd8_spec n) as [[Hl Hu] Hm]; [change (2 ^ 31) with 2147483648; lia|].
  pose proof (Z.div_mod (_RND8 n) 8 ltac:(done)). lia.
Qed.
(** What a step of the packing leaves: the attributes of frames up to the number of
    fragments, and the frames handed over. *)
Definition sz_of (w : xw) (f : nat) : sizes := (frame_attrib w f).(sz).
Definition packs (k : nat) (w w' : xw) : Prop := (∀ g, sz_of w' g = sz_of w g) ∧ length w'.(air) = (length w.(air) + k)%nat.
Lemma packs_trans k k' w w' w'' : packs k w w' → packs k' w' w'' → packs (k + k') w w''.
Proof. intros [A1 A2] [B1 B2]. split; [intros; by rewrite B1|lia]. Qed.
Lemma packs_fr f g w : (∀ x, (g x).(attrib).(sz) = x.(attrib).(sz)) → packs 0 w (upd_fr f g w).
Proof. intros E. split; [|cbn; lia]. intros h. unfold sz_of, frame_attrib. cbn. unfold upd. by destruct (decide (h = f)) as [->|]. Qed.
Lemma free_packs f w : match rtw_free_xmitframe f w with Ret w' => packs 0 w w' | _ => True end.
Proof.
  unfold rtw_free_xmitframe, list_insert_tail.
  assert (∀ w', fr w' = fr (upd_fr f (set_pkt None) w) → air w' = air w → packs 0 w w') as Hp.
  { intros w' E1 E2. destruct (packs_fr f (set_pkt None) w) as [A _]; [done|]. split; [|rewrite E2; lia].
    intros g. rewrite <- A. unfold sz_of, frame_attrib. by rewrite E1. }
  repeat (case_match; simplify_eq/=; try done); by apply Hp.
Qed.
Record fits (g : agg) : Prop := {
  ft_tail : 48 ≤ g.(pbuf_tail) ≤ g.(pbuf); ft_max : g.(pbuf) ≤ MAX_XMITBUF_SZ; ft_num : 1 ≤ g.(first_agg_num) ≤ 255
}.
Definition small (w : xw) : Prop := ∀ f, rtw_calculate_wlan_pkt_size_by_attribue (frame_attrib w f) ≤ MAX_XMITBUF_SZ - 56.
Lemma pkt_size_sz a a' : a.(sz) = a'.(sz) → rtw_calculate_wlan_pkt_size_by_attribue a = rtw_calculate_wlan_pkt_size_by_attribue a'.
Proof. unfold rtw_calculate_wlan_pkt_size_by_attribue. by intros ->. Qed.
Lemma small_packs k w w' : small w → packs k w w' → small w'.
Proof. intros Hs [E _] f. rewrite (pkt_size_sz _ _ (E f)). apply Hs. Qed.
Lemma agg_len_bound w f o : small w → 0 ≤ o ≤ 1 → 48 + 8 * o ≤ agg_len w f o ≤ MAX_XMITBUF_SZ.
Proof.
  intros Hs Ho. specialize (Hs f). unfold agg_len, TXDESC_SIZE, PACKET_OFFSET_SZ, MAX_XMITBUF_SZ in *.
  assert (0 ≤ rtw_calculate_wlan_pkt_size_by_attribue (frame_attrib w f)) by (apply (uint_ones 32); done).
  rewrite u32_id; [lia|]. unfold is_u32, uint. change (2 ^ 32) with 4294967296. lia.
Qed.
Lemma agg_count_same e g : let g' := (agg_count e g).2 in
  g'.(pbuf) = g.(pbuf) ∧ g'.(pbuf_tail) = g.(pbuf_tail) ∧ g'.(first_agg_num) = g.(first_agg_num).
Proof. unfold agg_count. by destruct (_ <? _). Qed.
Lemma fits_count e g : fits g → fits (agg_count e g).2.
Proof. destruct (agg_count_same e g) as (E1 & E2 & E3). intros [? ? ?]. by split; rewrite ?E1, ?E2, ?E3. Qed.
(** A frame behind the others. *)
Lemma fits_next g w f : fits g → g.(first_agg_num) < 255 → small w → (MAX_XMITBUF_SZ <? _RND8 (u32 (g.(pbuf) + agg_len w f 0))) = false →
  fits (Build_agg (_RND8 (u32 (g.(pbuf) + agg_len w f 0))) (u32 (g.(pbuf) + agg_len w f 0)) g.(descCount) g.(bulkPtr) (u8 (g.(first_agg_num) + 1))) ∧
  u8 (g.(first_agg_num) + 1) = g.(first_agg_num) + 1.
Proof.
  intros [H1 H2 H3] Hn Hs Hm%Z.ltb_ge. pose proof (agg_len_bound w f 0 Hs ltac:(lia)). unfold MAX_XMITBUF_SZ in *.
  assert (u8 (first_agg_num g + 1) = first_agg_num g + 1) as Eu by (apply u8_aid; lia).
  assert (u32 (pbuf g + agg_len w f 0) = pbuf g + agg_len w f 0) as El.
  { apply u32_id. unfold uint. change (2 ^ 32) with 4294967296. lia. }
  rewrite Eu, El in *. destruct (rnd8_spec (pbuf g + agg_len w f 0)) as [? _]; [change (2 ^ 31) with 2147483648; lia|].
  split; [|done]. split; simpl; unfold MAX_XMITBUF_SZ; lia.
Qed.
Lemma agg_loop_fits e qsel0 s a fs : ∀ g w, fits g → g.(first_agg_num) < 255 → small w →
  match agg_loop e qsel0 s a fs g w with
  | Ret (g', w') => fits g' ∧ ∃ k, packs k w w' ∧ g'.(first_agg_num) = g.(first_agg_num) + Z.of_nat k
  | _ => True
  end.
Proof.
  induction fs as [|f fs IH]; intros g w Hf Hn Hs; cbn [agg_loop]; [split; [done|]; exists 0%nat; split; [by split; [|lia]|lia]|].
  destruct (negb _); [split; [done|]; exists 0%nat; split; [by split; [|lia]|lia]|].
  set (w1 := upd_fr f (set_agg 0 0) w). assert (packs 0 w w1) as P1 by by apply packs_fr.
  pose proof (small_packs _ _ _ Hs P1) as S1.
  destruct (MAX_XMITBUF_SZ <? _) eqn:Em.
  { split; [done|]. exists 0%nat. split; [|lia]. apply (packs_trans 0 0 _ w1); [done|by apply packs_fr]. }
  destruct (fits_next g w1 f Hf Hn S1 Em) as [Hf' Hn']. set (g1 := Build_agg _ _ _ _ _) in *.
  set (w2 := add_accnt _ _ _). assert (packs 0 w w2) as P2 by (destruct P1; by split).
  destruct (coalesce e f) as [n|].
  - set (w3 := log_air f _). assert (packs 1 w w3) as P3.
    { apply (packs_trans 0 1 _ w2); [done|]. unfold w3. split; [|unfold rtw_os_xmit_complete; cbn; rewrite length_app; destruct (pkt _); simpl; lia].
      intros h. unfold sz_of, frame_attrib, rtw_os_xmit_complete. cbn. destruct (pkt _); cbn; unfold upd; by destruct (decide (h = f)) as [->|]; cbn; rewrite ?decide_True by done. }
    pose proof (free_packs f w3) as P4. destruct (rtw_free_xmitframe f w3) as [w4| |]; cbn [cbind]; [|done|done].
    pose proof (packs_trans _ _ _ _ _ P3 P4) as P5. change (1 + 0)%nat with 1%nat in P5.
    destruct (Z.eqb_spec g1.(first_agg_num) MAX_TX_AGG_PACKET_NUMBER_8822B) as [E|E].
    { split; [done|]. exists 1%nat. split; [done|]. cbn [g1 first_agg_num]. by rewrite Hn'. }
    pose proof (fits_count e g1 Hf') as Hc. destruct (agg_count_same e g1) as (_ & _ & Ec). destruct (agg_count e g1) as [full g2]. cbn [snd] in *.
    destruct full; [split; [done|]; exists 1%nat; split; [done|]; rewrite Ec; cbn [g1 first_agg_num]; by rewrite Hn'|].
    assert (first_agg_num g1 = first_agg_num g + 1) as Eg by exact Hn'.
    specialize (IH g2 w4 Hc). destruct (agg_loop e qsel0 s a fs g2 w4) as [[g' w']| |]; [|done|done].
    destruct IH as (? & k & Pk & Ek).
    + rewrite Ec, Eg. rewrite Eg in E. change MAX_TX_AGG_PACKET_NUMBER_8822B with 255 in E. lia.
    + exact (small_packs _ _ _ Hs P5).
    + split; [done|]. exists (S k). split; [by apply (packs_trans 1 k _ w4)|]. rewrite Ek, Ec, Eg. lia.
  - pose proof (free_packs f w2) as P4. destruct (rtw_free_xmitframe f w2) as [w4| |]; cbn [cbind]; [|done|done].
    pose proof (packs_trans _ _ _ _ _ P2 P4) as P5. specialize (IH g w4 Hf Hn (small_packs _ _ _ Hs P5)).
    destruct (agg_loop e qsel0 s a fs g w4) as [[g' w']| |]; [|done|done].
    destruct IH as (? & k & Pk & Ek). split; [done|]. exists k. split; [by apply (packs_trans 0 k _ w4)|done].
Qed.
Lemma aggregate_fits e f w : small w → (w.(fr) f).(pkt_offset) = 1 →
  match aggregate e f w with
  | Ret (g, w') => fits g ∧ ∃ k, packs k w w' ∧ g.(first_agg_num) = 1 + Z.of_nat k
  | _ => True
  end.
Proof.
  intros Hs Ho. unfold aggregate. rewrite Ho. pose proof (agg_len_bound w f 1 Hs ltac:(lia)) as Hl.
  pose proof (rnd8_max (agg_len w f 1) ltac:(lia)) as Hr. set (g0 := Build_agg _ _ _ _ _).
  assert (fits g0) as F0 by (split; simpl; lia). pose proof (fits_count e g0 F0) as Hc. destruct (agg_count_same e g0) as (_ & _ & Ec).
  destruct (agg_count e g0) as [full g1]. cbn [snd] in *. change (first_agg_num g0) with 1 in Ec.
  destruct full; [split; [done|]; exists 0%nat; split; [by split; [|lia]|lia]|]. destruct (psta _) as [s|]; [|done].
  set (a := rtw_get_sta_pending _). pose proof (agg_loop_fits e (frame_attrib w f).(qsel) s a (queue w.(lk) (Q_pend s a)) g1 w Hc ltac:(lia) Hs) as Hloop.
  destruct (agg_loop _ _ _ _ _ _ _) as [[g2 w2]| |]; cbn [cbind]; [|done|done]. destruct Hloop as (F2 & k & P2 & E2). rewrite Ec in E2.
  unfold list_insert_tail. destruct (decide _); [|destruct (_ <=? _)%nat; [|destruct (linked _ _); [done|]]]; (split; [done|]; exists k; split; [|done]).
  - by destruct P2.
  - done.
  - by destruct P2.
Qed.
Lemma dequeue_ac_packs nodes ac : ∀ w, (dequeue_ac nodes ac w).2.(fr) = w.(fr) ∧ (dequeue_ac nodes ac w).2.(air) = w.(air).
Proof.
  induction nodes as [|[s a] nodes IH]; intros w; [done|]. cbn [dequeue_ac]. unfold dequeue_one_xmitframe.
  destruct (queue (lk w) (Q_pend s a)); [apply IH|]. cbn [snd]. by destruct (decide _).
Qed.
Lemma dequeue_packs e w : packs 0 w (rtw_dequeue_xframe e w).2.
Proof.
  assert (∀ inx, (dequeue_acs inx w).2.(fr) = w.(fr) ∧ (dequeue_acs inx w).2.(air) = w.(air)) as Hd.
  { intros inx. induction inx as [|ac inx IH]; [done|]. cbn [dequeue_acs]. pose proof (dequeue_ac_packs (queue w.(tk) ac) ac w) as Hd.
    by destruct (dequeue_ac _ _ _) as [[f|] w']. }
  unfold rtw_dequeue_xframe. destruct (Hd (take (HWXMIT_ENTRY - 1) (if wifi_spec e then wmm_para_seq e else [0; 1; 2; 3]%nat))) as [E1 E2].
  split; [intros g; unfold sz_of, frame_attrib; by rewrite E1|rewrite E2; lia].
Qed.
Lemma buf_packs b w : match rtw_free_xmitbuf b w with Ret w' => packs 0 w w' | _ => True end.
Proof.
  pose proof (aside_free_xmitbuf b w) as Ha. destruct (rtw_free_xmitbuf b w); [|done|done]. cbn in Ha.
  split; [intros g; unfold sz_of, frame_attrib; by rewrite (a_fr _ _ Ha)|rewrite (a_air _ _ Ha); lia].
Qed.
Lemma pick_first_packs e fuel b : ∀ w, match pick_first e fuel b w with
  | Ret (Some f, w') => packs 0 w w' ∧ (w'.(fr) f).(pkt_offset) = 1
  | _ => True
  end.
Proof.
  induction fuel as [|fuel IH]; intros w; [done|]. cbn [pick_first]. pose proof (dequeue_packs e w) as P1.
  destruct (rtw_dequeue_xframe e w) as [[f|] w1]; cbn [snd] in P1; [|by destruct (rtw_free_xmitbuf b w1)].
  set (w2 := upd_fr f _ w1). assert (packs 0 w w2) as P2 by (apply (packs_trans 0 0 _ w1); [done|by apply packs_fr]).
  destruct (coalesce e f) as [n|].
  - unfold rtw_os_xmit_complete. split; [|destruct (pkt _); cbn; by rewrite !upd_eq].
    apply (packs_trans 0 0 _ w2); [done|]. assert (packs 0 w2 (upd_attrib f (set_frags n) w2)) as P3 by by apply packs_fr.
    apply (packs_trans 0 0 _ _ _ P3). destruct (pkt _); [|by apply packs_fr].
    apply (packs_trans 0 0 _ (rtw_os_pkt_complete n0 (upd_attrib f (set_frags n) w2))); [by split; [|simpl; lia]|by apply packs_fr].
  - pose proof (free_packs f w2) as P3. destruct (rtw_free_xmitframe f w2) as [w3| |]; cbn [cbind]; [|done|done].
    specialize (IH w3). destruct (pick_first e fuel b w3) as [[[f'|] w4]| |]; [|done..]. destruct IH as [P4 E4]. split; [|done].
    apply (packs_trans 0 0 _ w2); [done|]. by apply (packs_trans 0 0 _ w3).
Qed.
Lemma write_len_fits e g : fits g → 0 < write_len e g ≤ MAX_XMITBUF_SZ.
Proof.
  intros [? ? ?]. unfold write_len, PACKET_OFFSET_SZ, MAX_XMITBUF_SZ in *. destruct (_ =? 0); [|lia].
  rewrite u32_id; [lia|]. unfold uint. change (2 ^ 32) with 4294967296. lia.
Qed.
Lemma complete_fits e w : small w →
  match rtl8822bu_xmitframe_complete e w with
  | Ret (_, Some (len, n), w') => 0 < len ≤ MAX_XMITBUF_SZ ∧ 1 ≤ n ≤ 255 ∧ Z.of_nat (length w'.(air)) = Z.of_nat (length w.(air)) + n
  | _ => True
  end.
Proof.
  intros Hs. unfold rtl8822bu_xmitframe_complete. destruct (rtw_dequeue_mgmt_xframe w) as [[f|] w1]; [by destruct (rtw_dump_xframe e f w1)|].
  pose proof (aside_alloc_xmitbuf w) as Ha. destruct (rtw_alloc_xmitbuf w) as [[b|] w2]; cbn [snd] in Ha; [|done].
  assert (packs 0 w w2) as P2 by (split; [intros g; unfold sz_of, frame_attrib; by rewrite (a_fr _ _ Ha)|rewrite (a_air _ _ Ha); lia]).
  pose proof (pick_first_packs e (S (length (lk w2))) b w2) as Hp. destruct (pick_first _ _ _ _) as [[[f|] w3]| |]; cbn [cbind]; [|done..].
  destruct Hp as [P3 O3]. pose proof (packs_trans _ _ _ _ _ P2 P3) as P3'. pose proof (aggregate_fits e f w3 (small_packs _ _ _ Hs P3') O3) as Hag.
  destruct (aggregate e f w3) as [[g w4]| |]; cbn [cbind]; [|done..]. destruct Hag as (Hf & k & P4 & Ek).
  set (w5 := log_air f _). pose proof (write_port_aside e b w5) as Hw. destruct (usb_write_port e b w5) as [[ok w6]| |]; cbn [cbind rp snd] in *; [|done..].
  pose proof (free_packs f w6) as P7. destruct (rtw_free_xmitframe f w6) as [w7| |]; cbn [cbind]; [|done..].
  split; [by apply write_len_fits|]. split; [apply Hf|]. destruct P2 as [_ L2], P3 as [_ L3], P4 as [_ L4], P7 as [_ L7].
  rewrite L7, (a_air _ _ Hw). unfold w5. cbn. rewrite length_app. cbn. lia.
Qed.

(** ** The states reached *)
Lemma reached n l w : legal_run false l (init_xw n) → run l (init_xw n) = Ret w → ∃ L, good L false w.
Proof. intros Hl E. destruct (run_init false n l Hl) as (w' & lost & E' & _ & Hg). exists lost. congruence. Qed.

(** C12: When a station of the table wakes up, every frame kept for it moves to its
    service queues, behind what waits there and in the order of arrival within its
    category; each data frame is marked as released and, where the category does
    not use U-APSD, its more-data bit is set exactly when a frame was kept behind
    it.  The sleep queues are then empty, the station is no longer marked as
    sleeping and its bits in the TIM and in the bitmap of sleepers are clear.  The
    operations before it are those of [legal false]. *)
Theorem wakeup_delivers n l w e s : legal_run false l (init_xw n) → run l (init_xw n) = Ret w →
  w.(tbl) !! canon (w.(st) s).(s_mac) = Some s → IS_MCAST (w.(st) s).(s_mac) = false →
  ∃ w', wakeup_sta_to_xmit e s w = Ret w' ∧ delivered s w w' ∧ has_state w' s WIFI_SLEEP_STATE = false ∧
    rtw_bmp_is_set w'.(tim_bitmap) (aid_of w s) = false ∧ rtw_bmp_is_set w'.(sta_dz_bitmap) (aid_of w s) = false.
Proof. intros Hl E Ht Hm. destruct (reached n l w Hl E) as [L Hg]. apply (rp_ret _ _ (wakeup_exact false e s w Hg Ht Hm)). Qed.

(** C13: On a device that can transmit and with no category blocked, the tasklet
    returns only when no frame waits in a service queue any more, of any station
    and category, or every buffer for data is with the USB core: none is lost.  The
    operations before it are those of [legal false]; packets are built with one
    fragment at least, and under [wifi_spec] the order of the categories is some
    order of the four. *)
Theorem tasklet_serves n l w e : legal_run false l (init_xw n) → Forall (λ x, coalesces x.1) l → run l (init_xw n) = Ret w →
  e.(cannot_tx) = false → e.(ac_blocked) = false → (e.(wifi_spec) = true → e.(wmm_para_seq) ≡ₚ [0; 1; 2; 3]%nat) →
  ∃ w', rtl8822bu_xmit_tasklet e w = Ret w' ∧
    ((∀ b, (b < NR_XMITBUFF)%nat → b ∈ w'.(urbs)) ∨ ∀ s a, queue w'.(lk) (Q_pend s a) = []).
Proof.
  intros Hl Hco E Hc Hb Hw. pose proof (run_bufs l _ Hco (init_bufs n)) as Hbu. rewrite E in Hbu. destruct (reached n l w Hl E) as [L Hg].
  assert (wifi_spec e = true → Forall (λ a, a ≠ MGMT_IDX) (wmm_para_seq e)) as Hwmm.
  { intros Ew. rewrite (Hw Ew). repeat constructor; done. }
  assert (∀ a, (a < 4)%nat → a ∈ inx e) as Hin.
  { intros a Ha. unfold inx. destruct (wifi_spec e).
    - specialize (Hw eq_refl). rewrite take_ge by (by rewrite Hw). rewrite Hw. change (a ∈ seq 0 4). rewrite elem_of_seq. lia.
    - change (a ∈ seq 0 4). rewrite elem_of_seq. lia. }
  destruct (rp_ret _ _ (tasklet_spec (mode_of false w) e ltac:(done) Hwmm L [] w (g_inv _ _ Hg))) as (w' & E' & Hi & _ & Hs).
  exists w'. split; [done|]. pose proof (tasklet_bufs e [] w Hbu) as Hbu'. rewrite E' in Hbu'.
  destruct Hs as [Hs|Hs]; [by rewrite Hc, Hb|left; exact (bufs_busy w' Hbu' Hs)|right]. intros s a.
  destruct (decide (a < HWXMIT_ENTRY)%nat) as [Ha|Ha]; unfold HWXMIT_ENTRY in Ha.
  - apply Hs. destruct (decide (a = MGMT_IDX)) as [|Hn]; [by left|right]. apply Hin. unfold MGMT_IDX in Hn. lia.
  - destruct (queue (lk w') (Q_pend s a)) as [|f r] eqn:Eq; [done|]. assert (f ∈ queue (lk w') (Q_pend s a)) as Hf%elem_of_queue by (rewrite Eq; left).
    destruct (queue_sta _ _ _ _ _ _ _ Hi Hf) as [[]|[[=]|(s' & [_ Hlt] & _)]]. unfold HWXMIT_ENTRY in Hlt. lia.
Qed.

(** C14: When every packet by itself fits a USB buffer with its descriptor, what the
    driver packs into one buffer fits it too: the length written is positive and at
    most [MAX_XMITBUF_SZ], the number of frames in the first descriptor is at most
    255, and it is the number of frames handed over with this buffer.  The
    operations before it are those of [legal false]. *)
Theorem usb_buffer_fits n l w e : legal_run false l (init_xw n) → run l (init_xw n) = Ret w →
  (e.(wifi_spec) = true → Forall (λ a, a ≠ MGMT_IDX) e.(wmm_para_seq)) →
  (∀ f, rtw_calculate_wlan_pkt_size_by_attribue (frame_attrib w f) ≤ MAX_XMITBUF_SZ - TXDESC_SIZE - PACKET_OFFSET_SZ) →
  ∃ go o w', rtl8822bu_xmitframe_complete e w = Ret (go, o, w') ∧
    match o with
    | Some (len, num) => 0 < len ≤ MAX_XMITBUF_SZ ∧ 1 ≤ num ≤ 255 ∧ Z.of_nat (length w'.(air)) = Z.of_nat (length w.(air)) + num
    | None => True
    end.
Proof.
  intros Hl E Hwmm Hs. destruct (reached n l w Hl E) as [L Hg].
  destruct (rp_ret _ _ (complete_tx_spec (mode_of false w) e ltac:(done) Hwmm L [] w (g_inv _ _ Hg))) as ([[go o] w'] & E' & _).
  exists go, o, w'. split; [done|]. pose proof (complete_fits e w Hs) as Hc. by rewrite E' in Hc.
Qed.

(** A station asleep with three packets and a management frame kept for it. *)
Definition b_run : list (env * op) := [
  (an_env true 0, OpJoin 0 bc_addr 0 0); (an_env true 0, OpJoin 1 sta_mac 1 0); (an_env true 0, OpSleep 1);
  (an_env true 0, OpXmit pkt_hdr); (an_env true 6, OpXmit pkt_hdr); (an_env true 0, OpXmit pkt_hdr); (an_env true 0, OpMgmt sta_mac false)].
(** Three packets wait. *)
Definition c_run : list (env * op) := [
  (an_env true 0, OpJoin 0 bc_addr 0 0); (an_env true 0, OpJoin 1 sta_mac 1 0);
  (an_env true 6, OpXmit pkt_hdr); (an_env true 0, OpXmit pkt_hdr); (an_env true 6, OpXmit pkt_hdr)].
Lemma b_run_legal : legal_run false b_run (init_xw 1).
Proof. unfold b_run. legal_run_solve. Qed.
Lemma c_run_legal : legal_run false c_run (init_xw 1).
Proof. unfold c_run. legal_run_solve. Qed.
Definition returns {A} (r : cres A) : bool := match r with Ret _ => true | _ => false end.
Lemma run_result r : returns r = true → r = Ret (result r).
Proof. by destruct r. Qed.
Lemma wakeup_delivers_witness : let w := result (run b_run (init_xw 1)) in
  ∃ w', wakeup_sta_to_xmit (an_env true 0) 1 w = Ret w' ∧ delivered 1 w w' ∧ has_state w' 1 WIFI_SLEEP_STATE = false ∧
    rtw_bmp_is_set w'.(tim_bitmap) (aid_of w 1) = false ∧ rtw_bmp_is_set w'.(sta_dz_bitmap) (aid_of w 1) = false.
Proof.
  apply (wakeup_delivers 1 b_run); [apply b_run_legal|apply run_result; vm_compute; reflexivity|vm_compute; reflexivity|vm_compute; reflexivity].
Defined.
Lemma tasklet_serves_witness : let w := result (run c_run (init_xw 1)) in
  ∃ w', rtl8822bu_xmit_tasklet (an_env false 0) w = Ret w' ∧
    ((∀ b, (b < NR_XMITBUFF)%nat → b ∈ w'.(urbs)) ∨ ∀ s a, queue w'.(lk) (Q_pend s a) = []).
Proof.
  apply (tasklet_serves 1 c_run); [apply c_run_legal|repeat constructor; intros ?? [= <-]; discriminate|apply run_result; vm_compute; reflexivity|reflexivity|reflexivity|discriminate].
Defined.
(** The packets of the run above are all of one size. *)
Lemma c_run_small f : rtw_calculate_wlan_pkt_size_by_attribue (frame_attrib (result (run c_run (init_xw 1))) f) ≤ 150.
Proof.
  destruct (decide (f < 300)%nat) as [Hf|Hf].
  - assert (forallb (λ g, rtw_calculate_wlan_pkt_size_by_attribue (frame_attrib (result (run c_run (init_xw 1))) g) <=? 150) (seq 0 300) = true) as Hb
      by (vm_compute; reflexivity).
    rewrite forallb_forall in Hb. apply Z.leb_le, Hb, in_seq. lia.
  - replace f with (300 + (f - 300))%nat by lia. generalize (f - 300)%nat as g. intros g. vm_compute. discriminate.
Qed.
Lemma usb_buffer_fits_witness : let w := result (run c_run (init_xw 1)) in
  ∃ go o w', rtl8822bu_xmitframe_complete (an_env false 0) w = Ret (go, o, w') ∧
    match o with
    | Some (len, num) => 0 < len ≤ MAX_XMITBUF_SZ ∧ 1 ≤ num ≤ 255 ∧ Z.of_nat (length w'.(air)) = Z.of_nat (length w.(air)) + num
    | None => True
    end.
Proof.
  apply (usb_buffer_fits 1 c_run); [apply c_run_legal|apply run_result; vm_compute; reflexivity|discriminate|].
  intros f. apply (Z.le_trans _ 150); [apply c_run_small|]. vm_compute. discriminate.
Defined.
(** There the tasklet first writes the two packets of one category as one buffer. *)
Example c_run_written : match rtl8822bu_xmitframe_complete (an_env false 0) (result (run c_run (init_xw 1))) with
  | Ret (go, o, _) => Some (go, o) | _ => None end = Some (true, Some (390, 2)).
Proof. vm_compute. reflexivity. Qed.

(** ** Where the code does less than it means to *)
Definition joined (qos : Z) (l : list (env * op)) : xw :=
  result (run ([(an_env true 0, OpJoin 0 bc_addr 0 0); (an_env true 0, OpJoin 1 sta_mac 1 qos)] ++ l) (init_xw 1)).
(** PS-Poll releases a frame of a U-APSD category without counting it out of
    [sleepq_ac_len]: the only frame of the next service period then claims that
    more follow and does not end the period. *)
Example poll_breaks_service_period :
  let w := joined 1 [(an_env true 0, OpSleep 1); (an_env true 6, OpXmit pkt_hdr); (an_env true 0, OpPsPoll 1 1 0);
                     (an_env false 0, OpTasklet); (an_env true 6, OpXmit pkt_hdr); (an_env true 0, OpTrigger 1 6); (an_env false 0, OpTasklet)] in
  (queue w.(lk) (Q_sleep 1), (w.(st) 1).(sleepq_ac_len), map (λ x, (x.1.(attrib).(mdata), x.1.(attrib).(eosp))) w.(air)) = ([], 1, [(0, 0); (1, 0)]).
Proof. vm_compute. reflexivity. Qed.
(** PS-Poll with no data frame kept clears the station's TIM bit although a
    management frame is kept. *)
Example poll_hides_mgmt_frame :
  let w := joined 0 [(an_env true 0, OpSleep 1); (an_env true 0, OpMgmt sta_mac false); (an_env true 0, OpPsPoll 1 1 0)] in
  (length (queue w.(lk) (Q_mgmt_sleep 1)), rtw_bmp_is_set w.(tim_bitmap) 1) = (1%nat, false).
Proof. vm_compute. reflexivity. Qed.
(** A station that leaves while a management frame waits in its service queue
    takes the buffer of the frame with it: 31 of the 32 remain. *)
Example leaving_loses_mgmt_buffer :
  let w := joined 0 [(an_env true 0, OpSleep 1); (an_env true 0, OpMgmt sta_mac false); (an_env true 0, OpWake 1); (an_env true 0, OpFree 1)] in
  (length (queue w.(lk) Q_ext), length (queue w.(bk) B_ext), w.(urbs)) = (32%nat, 31%nat, []).
Proof. vm_compute. reflexivity. Qed.
(** Frames held in [tx_queue] go out although the station sleeps by then. *)
Example held_frames_reach_sleeper :
  let w := joined 0 [(an_env true 0, OpTxSet 1); (an_env true 0, OpXmit pkt_hdr); (an_env true 0, OpSleep 1); (an_env false 0, OpTxClear 1)] in
  map (λ x, (x.1.(attrib).(triggered), x.2)) w.(air) = [(0, true)].
Proof. vm_compute. reflexivity. Qed.
(** An access point given a packet shorter than an Ethernet header loses the frame
    it took: 255 of the 256 remain. *)
Example runt_loses_frame :
  let w := joined 0 [(an_env true 0, OpXmit None)] in (length (queue w.(lk) Q_free), linked 0%nat w.(lk), w.(done)) = (255%nat, false, [0%nat]).
Proof. vm_compute. reflexivity. Qed.
