(* ===== verification/BcnIe.v ===== *)
(** * Elements of the beacon: [core/rtw_ap_rest.c], [core/rtw_ap_bcn_ie.c], [core/rtw_ap_bcn_update.c]

    An access point keeps the body of its beacon in [WLAN_BSSID_EX.IEs]: twelve
    fixed bytes and the elements behind them.  The driver edits it in place:
    it replaces the TIM element, adds and removes elements by their identifier
    and exchanges the WPS element.  Every access is checked against the
    [MAX_IE_SZ] bytes of the array; [kmalloc] says which allocations succeed. *)
From S2P Require Import Prelude CryptoWrap Blocks Mem Ie WepTkip XmitQueue XmitQueuePs.

Definition MAX_IE_SZ : Z := 768.
Definition _FIXED_IE_LENGTH_ : nat := 12.
Definition _SSID_IE_ : Z := 0.
Definition _SUPPORTEDRATES_IE_ : Z := 1.
Definition _TIM_IE_ : Z := 5.
Definition _EXT_CAP_IE_ : Z := 127.

(** The fields of [WLAN_BSSID_EX] that hold the beacon body. *)
Record WLAN_BSSID_EX := { IELength : Z; IEs : list Z }.

(** ** The TIM element *)

(** The index of the first octet that is not zero. *)
Fixpoint first_nonzero (bmp : list Z) : nat :=
  match bmp with
  | [] => O
  | b :: bmp => if b =? 0 then S (first_nonzero bmp) else O
  end.
(** The index of the last octet that is not zero, from [i] down; 0 is not tested. *)
Fixpoint last_nonzero (bmp : list Z) (i : nat) : nat :=
  match i with
  | O => O
  | S j => if bmp.[i] =? 0 then last_nonzero bmp j else i
  end.

(** [rtw_set_tim_ie]: the element is written at [off]; the result has the
    length of the element, which the C function returns. *)
Definition rtw_set_tim_ie (dtim_cnt dtim_period : Z) (tim_bmp buf : list Z) (off : nat) : cres (list Z * Z) :=
  let '(n1, bmp_len) :=
    if rtw_bmp_not_empty tim_bmp then
      let n1 := Z.of_nat (first_nonzero tim_bmp) .& 0xFE in
      let n2 := Z.of_nat (last_nonzero tim_bmp (length tim_bmp - 1)) in
      (n1, u8 (n2 - n1 + 1))
    else (0, 1) in
  let* buf := buf_write buf off [_TIM_IE_; u8 (2 + 1 + bmp_len); dtim_cnt; dtim_period;
                                 (if rtw_bmp_is_set tim_bmp 0 then BIT 0 else 0) .| n1] in
  let* b := mem_readz tim_bmp (Z.to_nat n1) bmp_len in
  let* buf := buf_write buf (off + 5) b in
  Ret (buf, u8 (2 + 2 + 1 + bmp_len)).

Section Edits.
Context (kmalloc : Z → bool).

(** The copy of the bytes behind the edited element, and its return. *)
Definition backup (ies : list Z) (premainder_ie : nat) (remainder_ielen : Z) : cres (option (list Z)) :=
  if (0 <? remainder_ielen) && kmalloc remainder_ielen then
    let* b := mem_readz ies premainder_ie remainder_ielen in Ret (Some b)
  else Ret None.
Definition restore (ies : list Z) (dst_ie : nat) (pbackup : option (list Z)) : cres (list Z) :=
  match pbackup with Some b => buf_write ies dst_ie b | None => Ret ies end.

(** The elements of the beacon as [rtw_get_ie] gets them. *)
Definition bcn_get_ie (n : WLAN_BSSID_EX) (index : Z) : cres (option (nat * Z)) :=
  rtw_get_ie (drop _FIXED_IE_LENGTH_ n.(IEs)) index (s32 (n.(IELength) - Z.of_nat _FIXED_IE_LENGTH_)).

(** [update_BCNTIM] *)
Definition tim_place (n : WLAN_BSSID_EX) : cres (nat * nat * Z) :=
  let* r := bcn_get_ie n _TIM_IE_ in
  let missing :=
    let* s := bcn_get_ie n _SSID_IE_ in
    let* r := bcn_get_ie n _SUPPORTEDRATES_IE_ in
    let len r := match r with Some (_, l) => Z.to_nat (l + 2) | None => O end in
    let offset := (_FIXED_IE_LENGTH_ + len s + len r + 3)%nat in
    Ret (offset, offset, u32 (n.(IELength) - Z.of_nat offset)) in
  match r with
  | Some (o, l) =>
      if 0 <? l then
        let p := (_FIXED_IE_LENGTH_ + o)%nat in
        let tim_ielen := l + 2 in
        Ret (p, (p + Z.to_nat tim_ielen)%nat, u32 (n.(IELength) - Z.of_nat p - tim_ielen))
      else missing
  | None => missing
  end.
Definition update_BCNTIM (tim_bitmap : list Z) (n : WLAN_BSSID_EX) : cres WLAN_BSSID_EX :=
  let* (dst_ie, premainder_ie, remainder_ielen) := tim_place n in
  let* b := backup n.(IEs) premainder_ie remainder_ielen in
  let* (ies, k) := rtw_set_tim_ie 0 1 tim_bitmap n.(IEs) dst_ie in
  let dst_ie := (dst_ie + Z.to_nat k)%nat in
  let* ies := restore ies dst_ie b in
  Ret {| IELength := u32 (Z.of_nat dst_ie + remainder_ielen); IEs := ies |}.

(** The loop of [rtw_add_bcn_ie] at offset [i]: [p] and [ielen] as the last
    element before the place for the new one, or [bmatch] and the element to
    replace.  Every iteration advances, so a fuel of [IELength] is enough. *)
Fixpoint add_scan (fuel : nat) (ies : list Z) (ielength index : Z) (i : nat) (p : option (nat * Z))
    : cres (option (nat * Z) * bool) :=
  match fuel with
  | O => Ret (p, false)
  | S fuel =>
      if Z.of_nat i <? ielength then
        let* id := mem_byte ies (Z.of_nat i) in
        if index <? id then Ret (p, false)
        else
          let* l := mem_byte ies (Z.of_nat i + 1) in
          if id =? index then Ret (Some (i, l), true)
          else add_scan fuel ies ielength index (i + Z.to_nat (l + 2)) (Some (i, l))
      else Ret (p, false)
  end.
Definition rtw_add_bcn_ie (n : WLAN_BSSID_EX) (index : Z) (data : list Z) : cres WLAN_BSSID_EX :=
  let* (p, bmatch) := add_scan (Z.to_nat n.(IELength)) n.(IEs) n.(IELength) index _FIXED_IE_LENGTH_ None in
  match p with
  | Some (p, ielen) =>
      if 0 <? ielen then
        let ielen := ielen + 2 in
        let premainder_ie := (p + Z.to_nat ielen)%nat in
        let remainder_ielen := u32 (n.(IELength) - Z.of_nat p - ielen) in
        let dst_ie := if bmatch : bool then p else premainder_ie in
        let* b := backup n.(IEs) premainder_ie remainder_ielen in
        let* ies := buf_write n.(IEs) dst_ie [index] in
        let* ies := buf_write ies (dst_ie + 1) [u8 (Z.of_nat (length data))] in
        let* ies := buf_write ies (dst_ie + 2) data in
        let dst_ie := (dst_ie + 2 + length data)%nat in
        let* ies := restore ies dst_ie b in
        Ret {| IELength := u32 (Z.of_nat dst_ie + remainder_ielen); IEs := ies |}
      else Ret n
  | None => Ret n
  end.

Definition rtw_remove_bcn_ie (n : WLAN_BSSID_EX) (index : Z) : cres WLAN_BSSID_EX :=
  let* r := bcn_get_ie n index in
  match r with
  | Some (o, ielen) =>
      if 0 <? ielen then
        let p := (_FIXED_IE_LENGTH_ + o)%nat in
        let ielen := ielen + 2 in
        let remainder_ielen := u32 (n.(IELength) - Z.of_nat p - ielen) in
        let* b := backup n.(IEs) (p + Z.to_nat ielen) remainder_ielen in
        let* ies := restore n.(IEs) p b in
        Ret {| IELength := u32 (Z.of_nat p + remainder_ielen); IEs := ies |}
      else Ret n
  | None => Ret n
  end.

(** [update_bcn_ext_capab_ie]: [data] is the array of eight bytes and [len]
    the number of them in use. *)
Definition update_bcn_ext_capab_ie (data : list Z) (len : Z) (n : WLAN_BSSID_EX) : cres WLAN_BSSID_EX :=
  let* r := bcn_get_ie n _EXT_CAP_IE_ in
  let* n := match r with
            | Some (_, l) => if 0 <? l then rtw_remove_bcn_ie n _EXT_CAP_IE_ else Ret n
            | None => Ret n
            end in
  if (0 <? len) && negb (bool_decide (data = replicate 8 0)) then
    let* d := mem_readz data 0 len in rtw_add_bcn_ie n _EXT_CAP_IE_ d
  else Ret n.

(** [rtw_get_wps_ie] without a buffer for the copy: the offset of the element
    and [*wps_ielen]. *)
Definition wps_oui : list Z := [0x00; 0x50; 0xf2; 0x04].
Fixpoint get_wps_ie_loop (fuel : nat) (in_ie : list Z) (in_len : Z) (cnt : nat) : cres (option (nat * Z)) :=
  match fuel with
  | O => Ret None
  | S fuel =>
      if Z.of_nat cnt + 1 + 4 <? in_len then
        let* eid := mem_byte in_ie (Z.of_nat cnt) in
        if MAX_IE_SZ <=? Z.of_nat cnt + 1 + 4 then Ret None
        else
          let* m := if eid =? 0xdd then oui_matches in_ie cnt (Some wps_oui) else Ret false in
          let* l := mem_byte in_ie (Z.of_nat cnt + 1) in
          if m then Ret (Some (cnt, l + 2)) else get_wps_ie_loop fuel in_ie in_len (cnt + Z.to_nat (l + 2))
      else Ret None
  end.
Definition rtw_get_wps_ie (in_ie : list Z) (in_len : Z) : cres (option (nat * Z)) :=
  get_wps_ie_loop (S (Z.to_nat in_len)) in_ie in_len 0.

(** [update_bcn_wps_ie]: [src] is [wps_beacon_ie]. *)
Definition update_bcn_wps_ie (src : option (list Z)) (n : WLAN_BSSID_EX) : cres WLAN_BSSID_EX :=
  let* r := rtw_get_wps_ie (drop _FIXED_IE_LENGTH_ n.(IEs)) (u32 (n.(IELength) - Z.of_nat _FIXED_IE_LENGTH_)) in
  match r, src with
  | Some (o, wps_ielen), Some src =>
      if wps_ielen =? 0 then Ret n
      else
        let wps_offset := (_FIXED_IE_LENGTH_ + o)%nat in
        let remainder_ielen := u32 (n.(IELength) - Z.of_nat wps_offset - wps_ielen) in
        let* b := backup n.(IEs) (wps_offset + Z.to_nat wps_ielen) remainder_ielen in
        let* l := mem_byte src 1 in
        if u32 (Z.of_nat wps_offset + l + 2 + remainder_ielen) <=? MAX_IE_SZ then
          let* s := mem_readz src 0 (l + 2) in
          let* ies := buf_write n.(IEs) wps_offset s in
          let* ies := restore ies (wps_offset + Z.to_nat (l + 2)) b in
          Ret {| IELength := u32 (Z.of_nat wps_offset + (l + 2) + remainder_ielen); IEs := ies |}
        else Ret n
  | _, _ => Ret n
  end.
End Edits.

(** ** What a station reads from a TIM element

    The bit of association identifier [aid] in the body of the element, the way
    the standard defines the partial virtual bitmap: bit 0 of the control octet
    for group traffic, and the octets from number [ctl & 0xFE] on. *)
Definition tim_indicates (body : list Z) (aid : Z) : bool :=
  let ctl := body.[2] in
  if aid =? 0 then Z.testbit ctl 0
  else
    let n1 := ctl .& 0xFE in
    (n1 <=? aid / 8) && (aid / 8 - n1 <? Z.of_nat (length body) - 3)
      && Z.testbit (body.[3 + Z.to_nat (aid / 8 - n1)]) (aid mod 8).

(** The window of octets that the element carries. *)
Definition tim_window (bmp : list Z) : nat * nat :=
  if rtw_bmp_not_empty bmp then
    let n1 := Z.to_nat (Z.of_nat (first_nonzero bmp) .& 0xFE) in
    (n1, (last_nonzero bmp (length bmp - 1) - n1 + 1)%nat)
  else (O, 1%nat).
Definition tim_body (dtim_cnt dtim_period : Z) (bmp : list Z) : list Z :=
  let '(n1, k) := tim_window bmp in
  [dtim_cnt; dtim_period; (if rtw_bmp_is_set bmp 0 then BIT 0 else 0) .| Z.of_nat n1] ++ slice n1 k bmp.

Lemma first_nonzero_spec bmp :
  rtw_bmp_not_empty bmp = true →
  (first_nonzero bmp < length bmp)%nat ∧ bmp.[first_nonzero bmp] ≠ 0 ∧ ∀ j, (j < first_nonzero bmp)%nat → bmp.[j] = 0.
Proof.
  induction bmp as [|b bmp IH]; [done|]. unfold rtw_bmp_not_empty in *. cbn [existsb first_nonzero length].
  destruct (Z.eqb_spec b 0) as [->|Hb]; cbn [negb orb].
  - intros H. destruct (IH H) as (H1 & H2 & H3). split_and!; [lia|exact H2|].
    intros [|j] Hj; [done|]. change ((0 :: bmp).[S j]) with (bmp.[j]). apply H3. lia.
  - intros _. split_and!; [lia|done|lia].
Qed.
Lemma last_nonzero_spec bmp i :
  (last_nonzero bmp i ≤ i)%nat ∧ ∀ j, (last_nonzero bmp i < j ≤ i)%nat → bmp.[j] = 0.
Proof.
  induction i as [|i IH]; cbn [last_nonzero]; [split; [lia|intros; lia]|].
  destruct (Z.eqb_spec (bmp.[S i]) 0) as [E|E]; [|split; [lia|intros; lia]].
  destruct IH as [H1 H2]. split; [lia|]. intros j Hj. destruct (decide (j = S i)) as [->|]; [done|]. apply H2. lia.
Qed.
Lemma bmp_empty_zero bmp j : rtw_bmp_not_empty bmp = false → bmp.[j] = 0.
Proof.
  intros H. destruct (Z.eqb_spec (bmp.[j]) 0); [done|].
  rewrite (proj2 (bmp_not_empty_spec bmp)) in H by (by exists j). done.
Qed.

(** Clearing the low bit of an octet number. *)
Lemma even_below (i : nat) :
  (i < 256)%nat → let n := Z.to_nat (Z.of_nat i .& 0xFE) in Z.of_nat i .& 0xFE = Z.of_nat n ∧ (n ≤ i ≤ n + 1)%nat.
Proof.
  intros Hi n.
  assert (0 ≤ Z.of_nat i .& 0xFE ∧ Z.of_nat i .& 0xFE ≤ Z.of_nat i ≤ (Z.of_nat i .& 0xFE) + 1) as H.
  { pose proof (all_below_spec 256 (λ x, (0 <=? x .& 0xFE) && (x .& 0xFE <=? x) && (x <=? (x .& 0xFE) + 1)) (Z.of_nat i)) as H.
    specialize (H ltac:(vm_compute; reflexivity) ltac:(lia)). rewrite !andb_true_iff, !Z.leb_le in H. tauto. }
  unfold n. split; [rewrite Z2Nat.id; lia|lia].
Qed.
Lemma ctl_parts (i : nat) (b : bool) :
  (i < 256)%nat →
  let ctl := (if b then BIT 0 else 0) .| (Z.of_nat i .& 0xFE) in
  is_u8 ctl ∧ Z.testbit ctl 0 = b ∧ ctl .& 0xFE = Z.of_nat i .& 0xFE.
Proof.
  intros Hi ctl.
  pose proof (all_below_spec 256 (λ x,
    let c := (if b then BIT 0 else 0) .| (x .& 0xFE) in
    (0 <=? c) && (c <? 256) && Bool.eqb (Z.testbit c 0) b && (c .& 0xFE =? x .& 0xFE)) (Z.of_nat i)) as H.
  specialize (H ltac:(destruct b; vm_compute; reflexivity) ltac:(lia)). cbn zeta in H. fold ctl in H.
  rewrite !andb_true_iff, Z.leb_le, Z.ltb_lt, Z.eqb_eq, Bool.eqb_true_iff in H. destruct H as [[[H1 H2] H3] H4].
  by split_and!.
Qed.

(** The window is inside the bitmap, and every octet outside it is zero. *)
Lemma tim_window_spec bmp n1 k :
  tim_window bmp = (n1, k) → (1 ≤ length bmp ≤ 250)%nat →
  (n1 + k ≤ length bmp)%nat ∧ (1 ≤ k)%nat ∧ (∃ i, (i < 256)%nat ∧ Z.of_nat n1 = Z.of_nat i .& 0xFE) ∧
  ∀ j, (j < n1 ∨ n1 + k ≤ j)%nat → bmp.[j] = 0.
Proof.
  unfold tim_window. intros E Hl. destruct (rtw_bmp_not_empty bmp) eqn:Hne.
  - injection E as <- <-. destruct (first_nonzero_spec bmp Hne) as (H1 & H2 & H3).
    destruct (last_nonzero_spec bmp (length bmp - 1)) as [H4 H5].
    destruct (even_below (first_nonzero bmp)) as [H6 H7]; [lia|].
    assert (first_nonzero bmp ≤ last_nonzero bmp (length bmp - 1))%nat.
    { destruct (decide (first_nonzero bmp ≤ last_nonzero bmp (length bmp - 1))%nat); [done|]. destruct H2. apply H5. lia. }
    split_and!; [lia|lia|exists (first_nonzero bmp); split; [lia|done]|].
    intros j [Hj|Hj]; [apply H3; lia|]. destruct (decide (j < length bmp)%nat); [apply H5; lia|]. apply aget_default. lia.
  - injection E as <- <-. split_and!; [lia|lia|exists O; split; [lia|done]|]. intros j _. by apply bmp_empty_zero.
Qed.

(** The element is written in one piece. *)
Lemma buf_write_adj m p a b :
  (let* m := buf_write m p a in buf_write m (p + length a) b) = buf_write m p (a ++ b).
Proof.
  unfold buf_write. rewrite length_app. destruct (Nat.leb_spec (p + length a) (length m)) as [H|H]; cbn [cbind].
  - rewrite length_memcpy, memcpy_memcpy, Nat.add_assoc. done.
  - by rewrite (proj2 (Nat.leb_gt _ _)) by lia.
Qed.
Lemma set_tim_ie_eq cnt per bmp buf off :
  (1 ≤ length bmp ≤ 250)%nat →
  rtw_set_tim_ie cnt per bmp buf off =
    let* buf := buf_write buf off (encode1 (_TIM_IE_, tim_body cnt per bmp)) in
    Ret (buf, Z.of_nat (length (encode1 (_TIM_IE_, tim_body cnt per bmp)))).
Proof.
  intros Hl. unfold tim_body. destruct (tim_window bmp) as [n1 k] eqn:W.
  pose proof (tim_window_spec bmp n1 k W Hl) as (H1 & H2 & _ & _).
  assert ((if rtw_bmp_not_empty bmp then
      (Z.of_nat (first_nonzero bmp) .& 0xFE,
       u8 (Z.of_nat (last_nonzero bmp (length bmp - 1)) - (Z.of_nat (first_nonzero bmp) .& 0xFE) + 1))
    else (0, 1)) = (Z.of_nat n1, Z.of_nat k)) as E.
  { revert W. unfold tim_window. destruct (rtw_bmp_not_empty bmp) eqn:Hne; intros [= <- <-]; [|done].
    destruct (first_nonzero_spec bmp Hne) as (F1 & F2 & _). destruct (last_nonzero_spec bmp (length bmp - 1)) as [L1 L2].
    destruct (even_below (first_nonzero bmp)) as [H6 H7]; [lia|]. rewrite H6.
    assert (first_nonzero bmp ≤ last_nonzero bmp (length bmp - 1))%nat.
    { destruct (decide (first_nonzero bmp ≤ last_nonzero bmp (length bmp - 1))%nat); [done|]. destruct F2. apply L2. lia. }
    rewrite u8_id by (split; lia). f_equal; lia. }
  unfold rtw_set_tim_ie. cbn zeta. rewrite E. clear E.
  rewrite Nat2Z.id, mem_readz_nat, mem_read_ok by lia. rewrite !u8_id by (split; lia).
  assert (length (slice n1 k bmp) = k) as Hk by (by apply length_slice).
  change (off + 5)%nat with (off + length [0; 0; 0; 0; 0])%nat.
  unfold encode1. cbn [fst snd app length]. rewrite Hk.
  replace (2 + 1 + Z.of_nat k) with (Z.of_nat (S (S (S k)))) by lia.
  replace (2 + 2 + 1 + Z.of_nat k) with (Z.of_nat (S (S (S (S (S k)))))) by lia.
  set (h := [_TIM_IE_; _; cnt; per; _]).
  change (_TIM_IE_ :: _ :: _ :: _ :: _ :: slice n1 k bmp) with (h ++ slice n1 k bmp).
  rewrite <- buf_write_adj. change 5%nat with (length h).
  destruct (buf_write buf off h) as [buf'| |]; reflexivity.
Qed.

(** Every bit of the bitmap is in the element. *)
Lemma tim_body_bits cnt per bmp aid :
  (1 ≤ length bmp ≤ 250)%nat → 0 ≤ aid →
  tim_indicates (tim_body cnt per bmp) aid = Z.testbit (bmp.[Z.to_nat (aid / 8)]) (aid mod 8).
Proof.
  intros Hl Ha. unfold tim_body. destruct (tim_window bmp) as [n1 k] eqn:W.
  destruct (tim_window_spec bmp n1 k W Hl) as (H1 & H2 & (i & Hi & Hn) & H3).
  assert (length (slice n1 k bmp) = k) as Hk by (by apply length_slice).
  set (b := rtw_bmp_is_set bmp 0). destruct (ctl_parts i b Hi) as (_ & C0 & C1). rewrite <- Hn in C0, C1.
  unfold tim_indicates. set (ctl := _ .| _) in *.
  change (([cnt; per; ctl] ++ slice n1 k bmp).[2]) with ctl. destruct (Z.eqb_spec aid 0) as [->|Hz].
  - rewrite C0. unfold b. rewrite bmp_is_set_spec. change (u8 0) with 0. cbn [Z.div Z.modulo Z.to_nat].
    change (Z.to_nat (0 / 8)) with O. change (0 mod 8) with 0. rewrite (proj2 (Nat.ltb_lt _ _)) by lia. apply andb_true_r.
  - rewrite C1, length_app, Hk. change (length [cnt; per; ctl]) with 3%nat.
    set (o := Z.to_nat (aid / 8)).
    assert (0 ≤ aid / 8) by (apply Z.div_pos; lia). replace (aid / 8) with (Z.of_nat o) by lia.
    destruct (decide (n1 ≤ o < n1 + k)%nat) as [Hin|Hout].
    + rewrite (proj2 (Z.leb_le _ _)), (proj2 (Z.ltb_lt _ _)) by lia. cbn [andb]. f_equal.
      rewrite (aget_app_r [cnt; per; ctl]) by done. unfold slice. rewrite aget_take, aget_drop by lia. f_equal. lia.
    + rewrite (H3 o) by lia. rewrite Z.testbit_0_l. apply andb_false_iff. left. apply andb_false_iff.
      destruct (decide (n1 ≤ o)%nat); [right; apply Z.ltb_ge|left; apply Z.leb_gt]; lia.
Qed.
Lemma tim_body_ok cnt per bmp :
  is_u8 cnt → is_u8 per → bytes bmp → (1 ≤ length bmp ≤ 250)%nat → element_ok (_TIM_IE_, tim_body cnt per bmp).
Proof.
  intros Hc Hp Hb Hl. unfold tim_body. destruct (tim_window bmp) as [n1 k] eqn:W.
  destruct (tim_window_spec bmp n1 k W Hl) as (H1 & H2 & (i & Hi & Hn) & _).
  split_and!; cbn [fst snd].
  - split; [discriminate|reflexivity].
  - rewrite Hn. repeat constructor; [apply Hc..|apply Hp|apply Hp|apply (ctl_parts i); done|apply (ctl_parts i); done|].
    by apply slice_bytes.
  - rewrite length_app, length_slice by done. cbn [length]. lia.
Qed.

(** [rtw_set_tim_ie] writes a well-formed TIM element into its buffer, no
    byte outside it, and returns its length; a station that decodes the element
    by the standard reads for every association identifier exactly the bit that
    the bitmap has for it, also where the element leaves the leading and the
    trailing zero octets of the bitmap out. *)
Theorem tim_element_exact dtim_cnt dtim_period tim_bmp pre gap rest :
  is_u8 dtim_cnt → is_u8 dtim_period → bytes tim_bmp → (1 ≤ length tim_bmp ≤ 250)%nat →
  length gap = (length tim_bmp + 5)%nat →
  ∃ body gap', rtw_set_tim_ie dtim_cnt dtim_period tim_bmp (pre ++ gap ++ rest) (length pre) =
      Ret (pre ++ encode1 (_TIM_IE_, body) ++ gap' ++ rest, Z.of_nat (length (encode1 (_TIM_IE_, body)))) ∧
    element_ok (_TIM_IE_, body) ∧ body.[0] = dtim_cnt ∧ body.[1] = dtim_period ∧
    ∀ aid, 0 ≤ aid → tim_indicates body aid = Z.testbit (tim_bmp.[Z.to_nat (aid / 8)]) (aid mod 8).
Proof.
  intros Hc Hp Hb Hl Hg. set (body := tim_body dtim_cnt dtim_period tim_bmp). set (e := encode1 (_TIM_IE_, body)).
  assert (length e ≤ length gap)%nat as He.
  { unfold e, body. rewrite length_encode1, Hg. cbn [snd]. unfold tim_body. destruct (tim_window tim_bmp) as [n1 k] eqn:W.
    destruct (tim_window_spec tim_bmp n1 k W Hl) as (H1 & _). rewrite length_app, length_slice by done. cbn [length]. lia. }
  exists body, (drop (length e) gap). split_and!.
  - rewrite set_tim_ie_eq by done. fold body. fold e. rewrite <- (take_drop (length e) gap) at 1. rewrite <- app_assoc.
    rewrite buf_write_mid by (rewrite length_take; lia). done.
  - by apply tim_body_ok.
  - unfold body, tim_body. by destruct (tim_window tim_bmp).
  - unfold body, tim_body. by destruct (tim_window tim_bmp).
  - intros aid Ha. by apply tim_body_bits.
Qed.

Lemma tim_element_exact_witness :
  ∃ body gap', rtw_set_tim_ie 0 1 [0; 0; 0; 0x82; 0] ([7] ++ replicate 10 0 ++ [8]) 1 =
      Ret ([7] ++ encode1 (_TIM_IE_, body) ++ gap' ++ [8], Z.of_nat (length (encode1 (_TIM_IE_, body)))) ∧
    tim_indicates body 25 = true ∧ tim_indicates body 26 = false ∧ tim_indicates body 0 = false.
Proof.
  destruct (tim_element_exact 0 1 [0; 0; 0; 0x82; 0] [7] (replicate 10 0) [8]) as (body & gap' & H1 & H2 & H3 & H4 & H5);
    [uint_lit|uint_lit|bytes_lit|cbn; lia|reflexivity|].
  exists body, gap'. split; [exact H1|]. split; [|split]; (rewrite H5 by lia); reflexivity.
Defined.

(** ** The edits on well-formed elements *)

(** The beacon body is twelve fixed bytes and the elements [l]. *)
Record shows (n : WLAN_BSSID_EX) (fixed : list Z) (l : list element) : Prop := {
  sh_fixed : length fixed = _FIXED_IE_LENGTH_;
  sh_ok : Forall element_ok l;
  sh_len : n.(IELength) = Z.of_nat (_FIXED_IE_LENGTH_ + length (encode l));
  sh_size : length n.(IEs) = Z.to_nat MAX_IE_SZ;
  sh_ies : ∃ junk, n.(IEs) = fixed ++ encode l ++ junk
}.

(** The abstract edits.  The first element with the identifier is replaced,
    unless it is empty. *)
Fixpoint set_first (index : Z) (new l : list element) : list element :=
  match l with
  | [] => []
  | e :: l => if e.1 =? index then match e.2 with [] => e :: l | _ => new ++ l end else e :: set_first index new l
  end.
Definition filled (index : Z) (l : list element) : bool :=
  match find (λ e, e.1 =? index) l with Some (_, _ :: _) => true | _ => false end.
(** The new element is put behind the elements with smaller identifiers, if
    there are any and the last of them is not empty ([prev]). *)
Fixpoint add_first (prev : bool) (index : Z) (data : list Z) (l : list element) : list element :=
  match l with
  | [] => if prev then [(index, data)] else []
  | e :: l' =>
      if index <? e.1 then (if prev then (index, data) :: l else l)
      else if e.1 =? index then match e.2 with [] => l | _ => (index, data) :: l' end
      else e :: add_first (match e.2 with [] => false | _ => true end) index data l'
  end.
(** A TIM element that is not there yet comes behind the third element; the
    code computes the place from the lengths of the SSID and of the rates and
    the three bytes of a DS parameter set. *)
Definition tim_ready (l : list element) : bool :=
  filled _TIM_IE_ l ||
  match l with
  | (s, _) :: (r, _) :: (_, [_]) :: _ => (s =? _SSID_IE_) && (r =? _SUPPORTEDRATES_IE_)
  | _ => false
  end.
Definition put_tim (bmp : list Z) (l : list element) : list element :=
  let e := (_TIM_IE_, tim_body 0 1 bmp) in
  if filled _TIM_IE_ l then set_first _TIM_IE_ [e] l else take 3 l ++ e :: drop 3 l.

(** *** Lemmas *)
Lemma buf_write_end a t s :
  (length s ≤ length t)%nat → buf_write (a ++ t) (length a) s = Ret (a ++ s ++ drop (length s) t).
Proof.
  intros H. rewrite <- (take_drop (length s) t) at 1. rewrite buf_write_mid by (rewrite length_take; lia). done.
Qed.

(** The shape of every edit: the bytes [r] behind the edited place are kept,
    and [x] is replaced by [y]. *)
Lemma backup_ok kmalloc (a r junk : list Z) :
  (∀ k, kmalloc k = true) →
  backup kmalloc (a ++ r ++ junk) (length a) (Z.of_nat (length r)) = Ret (match r with [] => None | _ => Some r end).
Proof.
  intros Hk. unfold backup. rewrite Hk, andb_true_r. destruct r as [|c r]; [done|].
  rewrite (proj2 (Z.ltb_lt _ _)) by (cbn; lia). rewrite mem_readz_nat, mem_read_mid. done.
Qed.
Lemma edit_ok (a x r junk y : list Z) b :
  (length a + length y + length r ≤ length (a ++ x ++ r ++ junk))%nat →
  b = (match r with [] => None | _ => Some r end) →
  ∃ junk', (let* m := buf_write (a ++ x ++ r ++ junk) (length a) y in restore m (length a + length y) b) =
      Ret (a ++ y ++ r ++ junk') ∧
    length (a ++ y ++ r ++ junk') = length (a ++ x ++ r ++ junk).
Proof.
  intros Hl ->. exists (drop (length (y ++ r)) (x ++ r ++ junk)). rewrite !length_app in Hl. split.
  - transitivity (buf_write (a ++ x ++ r ++ junk) (length a) (y ++ r)).
    + rewrite <- buf_write_adj. destruct r as [|c r]; [|done].
      destruct (buf_write _ _ y) as [m| |] eqn:E; [|done..]. cbn [cbind restore].
      unfold buf_write in *. cbn [length]. rewrite Nat.add_0_r.
      destruct (Nat.leb_spec (length a + length y) (length (a ++ x ++ [] ++ junk))) as [Hw|Hw]; [|done]. injection E as <-.
      rewrite length_memcpy. change (x ++ [] ++ junk) with (x ++ junk) in Hw. by rewrite (proj2 (Nat.leb_le _ _) Hw).
    + rewrite buf_write_end by (rewrite !length_app; lia). by rewrite <- app_assoc.
  - rewrite !length_app, length_drop, !length_app. lia.
Qed.

(** [rtw_get_ie] on the beacon finds what the list of elements has. *)
Lemma shows_len_ge n fixed l : shows n fixed l → (_FIXED_IE_LENGTH_ + length (encode l) ≤ Z.to_nat MAX_IE_SZ)%nat.
Proof. intros [Hf _ _ Hs [junk E]]. rewrite <- Hs, E, !length_app, Hf. lia. Qed.
Lemma bcn_get_ie_shows n fixed l index :
  shows n fixed l →
  bcn_get_ie n index = Ret ((λ '(o, k), (o, k - 2)) <$> find_element index None l 0).
Proof.
  intros S. pose proof (shows_len_ge n fixed l S) as Hm. destruct S as [Hf _ Hl _ [junk E]].
  unfold bcn_get_ie. rewrite E, <- Hf, drop_app_length, Hf, Hl.
  replace (s32 _) with (Z.of_nat (length (encode l)))
    by (unfold s32; rewrite u32_id by (split; unfold _FIXED_IE_LENGTH_, MAX_IE_SZ in *; lia);
        rewrite (proj2 (Z.ltb_lt _ _)) by (unfold _FIXED_IE_LENGTH_, MAX_IE_SZ in *; lia); lia).
  destruct l as [|e l]; [reflexivity|]. by apply get_ie_encode.
Qed.

(** The element that a search finds splits the list. *)
Lemma find_element_split index l o k :
  find_element index None l 0 = Some (o, k) →
  ∃ l1 e l2, l = l1 ++ e :: l2 ∧ Forall (λ e, (e.1 =? index) = false) l1 ∧ e.1 = index ∧
    o = length (encode l1) ∧ k = Z.of_nat (length e.2) + 2.
Proof.
  intros E. pose proof (find_element_first index None l 0) as H. rewrite E in H.
  destruct H as (l1 & e & l2 & -> & H1 & H2 & -> & ->). exists l1, e, l2. unfold matches in *. rewrite andb_true_r in H2.
  split_and!; [done| |by apply Z.eqb_eq|lia|rewrite length_encode1; lia].
  eapply Forall_impl; [|exact H1]. cbn. intros e' H'. by rewrite andb_true_r in H'.
Qed.
Lemma find_element_absent index l :
  find_element index None l 0 = None → Forall (λ e, (e.1 =? index) = false) l.
Proof.
  intros E. pose proof (find_element_first index None l 0) as H. rewrite E in H. destruct H as [_ H].
  eapply Forall_impl; [|exact H]. unfold matches. cbn. intros e' H'. by rewrite andb_true_r in H'.
Qed.
Lemma set_first_split index new l1 e l2 :
  Forall (λ e, (e.1 =? index) = false) l1 → e.1 = index →
  set_first index new (l1 ++ e :: l2) = match e.2 with [] => l1 ++ e :: l2 | _ => l1 ++ new ++ l2 end.
Proof.
  intros H <-. induction H as [|e' l1 He H IH]; cbn [app set_first].
  - rewrite Z.eqb_refl. by destruct e.2.
  - rewrite He, IH. by destruct e.2.
Qed.
Lemma set_first_absent index new l : Forall (λ e, (e.1 =? index) = false) l → set_first index new l = l.
Proof. induction 1 as [|e l He H IH]; [done|]. cbn [set_first]. by rewrite He, IH. Qed.
Lemma filled_split index l1 e l2 :
  Forall (λ e, (e.1 =? index) = false) l1 → e.1 = index →
  filled index (l1 ++ e :: l2) = match e.2 with [] => false | _ => true end.
Proof.
  intros H <-. unfold filled. induction H as [|e' l1 He H IH]; cbn [app find].
  - rewrite Z.eqb_refl. destruct e as [i [|c d]]; done.
  - by rewrite He.
Qed.
Lemma filled_absent index l : Forall (λ e, (e.1 =? index) = false) l → filled index l = false.
Proof. unfold filled. induction 1 as [|e l He H IH]; [done|]. cbn [find]. by rewrite He. Qed.

(** The result of an edit shows the new elements. *)
Lemma shows_edit n fixed l1 old l2 new junk ies k :
  shows n fixed (l1 ++ old ++ l2) → Forall element_ok new →
  ies = (fixed ++ encode l1) ++ encode new ++ encode l2 ++ junk → length ies = length n.(IEs) →
  k = Z.of_nat (_FIXED_IE_LENGTH_ + length (encode (l1 ++ new ++ l2))) →
  shows {| IELength := k; IEs := ies |} fixed (l1 ++ new ++ l2).
Proof.
  intros [Hf Ho _ Hs _] Hn -> Hlen ->. rewrite !Forall_app in Ho.
  constructor; cbn [IELength IEs]; [done|rewrite !Forall_app; tauto|done|by rewrite Hlen|].
  exists junk. by rewrite !encode_app, <- !app_assoc.
Qed.
Lemma shows_parts n fixed l1 old l2 :
  shows n fixed (l1 ++ old ++ l2) →
  ∃ junk, n.(IEs) = (fixed ++ encode l1) ++ encode old ++ encode l2 ++ junk ∧
    n.(IELength) = Z.of_nat (length (fixed ++ encode l1) + length (encode old) + length (encode l2)) ∧
    length (fixed ++ encode l1) = (_FIXED_IE_LENGTH_ + length (encode l1))%nat.
Proof.
  intros [Hf _ Hl _ [junk E]]. exists junk. rewrite E, Hl, !encode_app, !length_app, Hf, <- !app_assoc. split_and!; [done|lia|done].
Qed.

Section Refine.
Context (kmalloc : Z → bool) (Hk : ∀ k, kmalloc k = true).

(** An edit that replaces [old] by [new]. *)
Lemma splice_shows n fixed l1 old l2 new :
  shows n fixed (l1 ++ old ++ l2) → Forall element_ok new →
  (_FIXED_IE_LENGTH_ + length (encode (l1 ++ new ++ l2)) ≤ Z.to_nat MAX_IE_SZ)%nat →
  let p := (_FIXED_IE_LENGTH_ + length (encode l1))%nat in
  let rem := Z.of_nat (length (encode l2)) in
  ∃ b n', backup kmalloc n.(IEs) (p + length (encode old)) rem = Ret b ∧
    (let* ies := buf_write n.(IEs) p (encode new) in
     let* ies := restore ies (p + length (encode new)) b in
     Ret {| IELength := u32 (Z.of_nat (p + length (encode new)) + rem); IEs := ies |}) = Ret n' ∧
    shows n' fixed (l1 ++ new ++ l2).
Proof.
  intros S Hn Hfit p rem. destruct (shows_parts n fixed l1 old l2 S) as (junk & E & Hl & Hp). fold p in Hp.
  set (a := fixed ++ encode l1) in *. set (r := encode l2) in *. set (x := encode old) in *. set (y := encode new) in *.
  assert (length n.(IEs) = Z.to_nat MAX_IE_SZ) as Hs by apply S.
  rewrite !encode_app, !length_app in Hfit. fold y r in Hfit. fold p in Hfit. rewrite Nat.add_assoc in Hfit. fold p in Hfit.
  destruct (edit_ok a x r junk y (match r with [] => None | _ => Some r end)) as (junk' & E1 & E2); [rewrite <- E, Hs; lia|done|].
  rewrite <- E, Hp in E1. rewrite <- E in E2.
  exists (match r with [] => None | _ => Some r end). eexists. split_and!.
  - rewrite E, app_assoc. rewrite <- Hp, <- length_app. by apply backup_ok.
  - destruct (buf_write _ _ y) as [m| |]; [|discriminate E1..]. cbn [cbind] in E1 |- *. rewrite E1. reflexivity.
  - apply (shows_edit n fixed l1 old l2 new junk'); [done|done|done|done|].
    rewrite !encode_app, !length_app. fold y r. unfold rem. rewrite u32_id; [lia|].
    split; [lia|]. unfold MAX_IE_SZ in *. lia.
Qed.

(** The room that a new beacon body needs. *)
Definition fits (l : list element) : bool := (_FIXED_IE_LENGTH_ + length (encode l) <=? Z.to_nat MAX_IE_SZ)%nat.

Lemma encode_one e : encode [e] = encode1 e.
Proof. unfold encode. cbn. by rewrite app_nil_r. Qed.
Lemma shows_rem n fixed l1 e l2 :
  shows n fixed (l1 ++ e :: l2) →
  u32 (n.(IELength) - Z.of_nat (_FIXED_IE_LENGTH_ + length (encode l1)) - (Z.of_nat (length e.2) + 2)) =
    Z.of_nat (length (encode l2)).
Proof.
  intros S. pose proof (shows_len_ge _ _ _ S) as Hm. destruct S as [_ _ -> _ _].
  rewrite encode_app, encode_cons, !length_app, length_encode1 in *. rewrite u32_id; [lia|].
  split; [lia|]. unfold MAX_IE_SZ in *. lia.
Qed.

Lemma remove_shows n fixed l index :
  shows n fixed l →
  ∃ n', rtw_remove_bcn_ie kmalloc n index = Ret n' ∧ shows n' fixed (set_first index [] l).
Proof.
  intros S. unfold rtw_remove_bcn_ie. rewrite (bcn_get_ie_shows n fixed l) by done. cbn [cbind].
  destruct (find_element index None l 0) as [[o k]|] eqn:F; cbn [fmap option_fmap option_map].
  - destruct (find_element_split index l o k F) as (l1 & e & l2 & -> & H1 & H2 & -> & ->).
    rewrite set_first_split by done. replace (Z.of_nat (length e.2) + 2 - 2) with (Z.of_nat (length e.2)) by lia.
    destruct e.2 as [|c d] eqn:Ed; [exists n; split; done|]. rewrite (proj2 (Z.ltb_lt _ _)) by (cbn; lia). rewrite <- Ed.
    pose proof (shows_rem n fixed l1 e l2 S) as Hr. rewrite Hr.
    destruct (splice_shows n fixed l1 [e] l2 []) as (b & n' & B & W & S'); [done|constructor| |].
    { pose proof (shows_len_ge _ _ _ S) as Hm. cbn [app]. rewrite encode_app, encode_cons, !length_app in *. lia. }
    exists n'. split; [|done]. rewrite encode_one, length_encode1 in B.
    replace (Z.to_nat (Z.of_nat (length e.2) + 2)) with (length e.2 + 2)%nat by lia. rewrite B. cbn [cbind].
    rewrite <- W. cbn [encode map concat length]. rewrite !Nat.add_0_r. unfold buf_write. cbn [length].
    rewrite (proj2 (Nat.leb_le _ _)); [done|]. destruct (shows_parts n fixed l1 [e] l2 S) as (junk & E & _ & Hp).
    rewrite E, !length_app, <- Hp, length_app. lia.
  - rewrite set_first_absent by (by apply find_element_absent). by exists n.
Qed.

(** What the loop of [rtw_add_bcn_ie] finds, on the list. *)
Fixpoint scan (index : Z) (l : list element) (i : nat) (p : option (nat * Z)) : option (nat * Z) * bool :=
  match l with
  | [] => (p, false)
  | e :: l =>
      if index <? e.1 then (p, false)
      else if e.1 =? index then (Some (i, Z.of_nat (length e.2)), true)
      else scan index l (i + length (encode1 e)) (Some (i, Z.of_nat (length e.2)))
  end.
Lemma add_scan_encode index l : ∀ fuel pre junk p,
  (length l < fuel)%nat →
  add_scan fuel (pre ++ encode l ++ junk) (Z.of_nat (length pre + length (encode l))) index (length pre) p =
    Ret (scan index l (length pre) p).
Proof.
  induction l as [|e l IH]; intros fuel pre junk p Hf; (destruct fuel as [|fuel]; [cbn in Hf; lia|]); cbn [add_scan scan].
  - change (length (encode [])) with O. rewrite Nat.add_0_r, Z.ltb_irrefl. done.
  - rewrite encode_cons, length_app, length_encode1, (proj2 (Z.ltb_lt _ _)) by lia. rewrite <- app_assoc.
    destruct (element_head pre e (encode l ++ junk) _ eq_refl) as [-> ->]. cbn [cbind].
    destruct (index <? e.1); [done|]. destruct (e.1 =? index); [done|].
    replace (Z.to_nat (Z.of_nat (length e.2) + 2)) with (length (encode1 e)) by (rewrite length_encode1; lia).
    rewrite <- length_app, app_assoc, <- length_encode1, Nat.add_assoc, <- length_app. apply IH. cbn [length] in Hf. lia.
Qed.
Definition nonempty (d : list Z) : bool := match d with [] => false | _ => true end.
Lemma scan_add index data l : ∀ a p prev,
  match p with
  | None => a = [] ∧ prev = false
  | Some (i, k) => ∃ a' e, a = a' ++ [e] ∧ i = (_FIXED_IE_LENGTH_ + length (encode a'))%nat ∧
                     k = Z.of_nat (length e.2) ∧ prev = nonempty e.2
  end →
  match scan index l (_FIXED_IE_LENGTH_ + length (encode a)) p with
  | (None, _) => a ++ add_first prev index data l = a ++ l
  | (Some (i, k), m) => ∃ l1 e l2, a ++ l = l1 ++ e :: l2 ∧ i = (_FIXED_IE_LENGTH_ + length (encode l1))%nat ∧
      k = Z.of_nat (length e.2) ∧
      a ++ add_first prev index data l =
        if nonempty e.2 then (if m then l1 ++ (index, data) :: l2 else l1 ++ e :: (index, data) :: l2) else a ++ l
  end.
Proof.
  induction l as [|e l IH]; intros a p prev Hp; cbn [scan add_first].
  - destruct p as [[i k]|]; [|by destruct Hp as [_ ->]]. destruct Hp as (a' & e & -> & Hi & Hk' & ->). exists a', e, [].
    split_and!; [by rewrite app_nil_r|done|done|]. destruct (nonempty e.2); [by rewrite <- app_assoc|done].
  - destruct (index <? e.1).
    { destruct p as [[i k]|]; [|by destruct Hp as [_ ->]]. destruct Hp as (a' & e' & -> & Hi & Hk' & ->). exists a', e', (e :: l).
      split_and!; [by rewrite <- app_assoc|done|done|]. destruct (nonempty e'.2); [by rewrite <- app_assoc|done]. }
    destruct (e.1 =? index).
    { exists a, e, l. split_and!; [done..|]. by destruct e.2. }
    specialize (IH (a ++ [e]) (Some ((_FIXED_IE_LENGTH_ + length (encode a))%nat, Z.of_nat (length e.2))) (nonempty e.2)).
    rewrite encode_app, length_app, encode_one, Nat.add_assoc in IH. specialize (IH ltac:(by exists a, e)).
    destruct (scan index l _ _) as [[[i k]|] m].
    + destruct IH as (l1 & e1 & l2 & H1 & H2 & H3 & H4). exists l1, e1, l2. rewrite <- app_assoc in H1. rewrite <- !app_assoc in H4.
      split_and!; [done..|]. exact H4.
    + rewrite <- !app_assoc in IH. exact IH.
Qed.

Lemma add_shows n fixed l index data :
  shows n fixed l → element_ok (index, data) → fits (add_first false index data l) = true →
  ∃ n', rtw_add_bcn_ie kmalloc n index data = Ret n' ∧ shows n' fixed (add_first false index data l).
Proof.
  intros S Hd Hfit. apply Nat.leb_le in Hfit. unfold rtw_add_bcn_ie.
  assert (∃ junk, n.(IEs) = fixed ++ encode l ++ junk ∧ length fixed = _FIXED_IE_LENGTH_ ∧
    n.(IELength) = Z.of_nat (length fixed + length (encode l))) as (junk & E & Hf & Hl).
  { destruct S as [Hf _ -> _ [junk E]]. exists junk. by rewrite E, Hf. }
  assert (add_scan (Z.to_nat n.(IELength)) n.(IEs) n.(IELength) index _FIXED_IE_LENGTH_ None =
    Ret (scan index l _FIXED_IE_LENGTH_ None)) as ->.
  { rewrite E, Hl, <- Hf. apply add_scan_encode. pose proof (length_encode_ge l). unfold _FIXED_IE_LENGTH_ in *. lia. }
  cbn [cbind].
  pose proof (scan_add index data l [] None false ltac:(done)) as A. cbn [app] in A.
  change (length (encode [])) with O in A. rewrite Nat.add_0_r in A.
  destruct (scan index l _ None) as [[[i k]|] m]; [|rewrite A; by exists n].
  destruct A as (l1 & e & l2 & -> & -> & -> & A). rewrite A in Hfit |- *.
  destruct e.2 as [|c d] eqn:Ed; [exists n; split; done|]. cbn [nonempty] in *. rewrite <- Ed.
  rewrite (proj2 (Z.ltb_lt _ _)) by (rewrite Ed; cbn; lia). rewrite (shows_rem n fixed l1 e l2 S).
  set (e' := (index, data)) in *. set (p := (_FIXED_IE_LENGTH_ + length (encode l1))%nat).
  replace (p + Z.to_nat (Z.of_nat (length e.2) + 2))%nat with (p + length (encode [e]))%nat
    by (rewrite encode_one, length_encode1; lia).
  assert (∀ q b rem, (let* ies := buf_write n.(IEs) q [index] in
      let* ies := buf_write ies (q + 1) [u8 (Z.of_nat (length data))] in
      let* ies := buf_write ies (q + 2) data in
      let* ies := restore ies (q + 2 + length data) b in
      Ret {| IELength := u32 (Z.of_nat (q + 2 + length data) + rem); IEs := ies |}) =
    (let* ies := buf_write n.(IEs) q (encode [e']) in
     let* ies := restore ies (q + length (encode [e'])) b in
     Ret {| IELength := u32 (Z.of_nat (q + length (encode [e'])) + rem); IEs := ies |})) as W.
  { intros q b rem. rewrite encode_one, length_encode1. cbn [snd e']. destruct Hd as (_ & _ & Hd). unfold e' in Hd |- *. cbn [snd] in Hd |- *.
    rewrite (u8_id (Z.of_nat (length data))) by (split; lia). unfold encode1. cbn [fst snd e'].
    change (index :: ?x :: data) with ([index] ++ [x] ++ data). rewrite <- buf_write_adj. cbn [length].
    replace (q + (length data + 2))%nat with (q + 2 + length data)%nat by lia.
    destruct (buf_write n.(IEs) q [index]) as [m1| |]; [|done..]. cbn [cbind]. rewrite <- buf_write_adj. cbn [length].
    replace (q + 1 + 1)%nat with (q + 2)%nat by lia. by destruct (buf_write m1 _ _). }
  destruct m.
  - destruct (splice_shows n fixed l1 [e] l2 [e']) as (b & n' & B & W' & S'); [done|by constructor|exact Hfit|].
    exists n'. fold p in B, W'. rewrite B. cbn [cbind]. rewrite W. split; [exact W'|exact S'].
  - destruct (splice_shows n fixed (l1 ++ [e]) [] l2 [e']) as (b & n' & B & W' & S');
      [by rewrite <- app_assoc|by constructor|by rewrite <- app_assoc|].
    exists n'. rewrite encode_app, length_app, Nat.add_assoc in B, W'. fold p in B, W'.
    change (length (encode [])) with O in B. rewrite Nat.add_0_r in B. rewrite B. cbn [cbind]. rewrite W.
    split; [exact W'|]. by rewrite <- app_assoc in S'.
Qed.

Lemma tim_place_filled n fixed l :
  shows n fixed l → filled _TIM_IE_ l = true →
  ∃ l1 e l2, l = l1 ++ e :: l2 ∧ (∀ bmp, put_tim bmp l = l1 ++ (_TIM_IE_, tim_body 0 1 bmp) :: l2) ∧
    let p := (_FIXED_IE_LENGTH_ + length (encode l1))%nat in
    tim_place n = Ret (p, (p + length (encode [e]))%nat, Z.of_nat (length (encode l2))).
Proof.
  intros S Hf. unfold tim_place. rewrite (bcn_get_ie_shows n fixed l) by done. cbn [cbind].
  destruct (find_element _TIM_IE_ None l 0) as [[o k]|] eqn:F; cbn [fmap option_fmap option_map].
  - destruct (find_element_split _TIM_IE_ l o k F) as (l1 & e & l2 & -> & H1 & H2 & -> & ->).
    exists l1, e, l2. split; [done|].
    assert (∀ bmp, put_tim bmp (l1 ++ e :: l2) = l1 ++ (_TIM_IE_, tim_body 0 1 bmp) :: l2) as P.
    { intros bmp. unfold put_tim. rewrite Hf, set_first_split by done. rewrite filled_split in Hf by done. by destruct e.2. }
    split; [exact P|]. rewrite filled_split in Hf by done.
    replace (Z.of_nat (length e.2) + 2 - 2) with (Z.of_nat (length e.2)) by lia.
    rewrite (proj2 (Z.ltb_lt _ _)) by (destruct e.2; cbn in *; [done|lia]). cbn zeta.
    rewrite (shows_rem n fixed l1 e l2 S), encode_one, length_encode1. do 3 f_equal. lia.
  - rewrite filled_absent in Hf by (by apply find_element_absent). done.
Qed.
Lemma tim_place_missing n fixed sd rd did dd l :
  let h := [(_SSID_IE_, sd); (_SUPPORTEDRATES_IE_, rd); (did, [dd])] in
  shows n fixed (h ++ l) → filled _TIM_IE_ (h ++ l) = false →
  let p := (_FIXED_IE_LENGTH_ + length (encode h))%nat in
  tim_place n = Ret (p, p, Z.of_nat (length (encode l))).
Proof.
  intros h S Hf p. pose proof (shows_len_ge _ _ _ S) as Hm. assert (n.(IELength) = Z.of_nat (p + length (encode l))) as HL.
  { destruct S as [_ _ -> _ _]. rewrite encode_app, length_app. unfold p. lia. }
  assert (p = _FIXED_IE_LENGTH_ + (length sd + 2) + (length rd + 2) + 3)%nat as Hp.
  { unfold p, h. rewrite !encode_cons, !length_app, !length_encode1. cbn [snd length]. change (length (encode [])) with O. lia. }
  assert (u32 (n.(IELength) - Z.of_nat p) = Z.of_nat (length (encode l))) as HR.
  { rewrite HL, u32_id; [lia|]. rewrite encode_app, length_app in Hm. unfold MAX_IE_SZ in Hm. split; lia. }
  assert (∀ index, bcn_get_ie n index = _) as G by (intros; apply (bcn_get_ie_shows n fixed (h ++ l) index S)).
  unfold tim_place. rewrite !G. cbn [cbind].
  change (find_element _SSID_IE_ None (h ++ l) 0) with (Some (O, Z.of_nat (length sd) + 2)).
  change (find_element _SUPPORTEDRATES_IE_ None (h ++ l) 0)
    with (Some (length (encode1 (_SSID_IE_, sd)), Z.of_nat (length rd) + 2)).
  cbn [fmap option_fmap option_map cbind].
  replace (Z.to_nat (Z.of_nat (length sd) + 2 - 2 + 2)) with (length sd + 2)%nat by lia.
  replace (Z.to_nat (Z.of_nat (length rd) + 2 - 2 + 2)) with (length rd + 2)%nat by lia. rewrite <- Hp, HR.
  destruct (find_element _TIM_IE_ None (h ++ l) 0) as [[o k]|] eqn:F; [|done]. cbn [fmap option_fmap option_map].
  destruct (find_element_split _TIM_IE_ _ o k F) as (l1 & e & l2 & E & H1 & H2 & -> & ->).
  rewrite E, filled_split in Hf by done. destruct e.2; [done|discriminate].
Qed.

(** *** The edit of the TIM element *)
Lemma tim_shows n fixed l bmp :
  shows n fixed l → tim_ready l = true → bytes bmp → (1 ≤ length bmp ≤ 250)%nat → fits (put_tim bmp l) = true →
  ∃ n', update_BCNTIM kmalloc bmp n = Ret n' ∧ shows n' fixed (put_tim bmp l).
Proof.
  intros S Hr Hb Hl Hfit. apply Nat.leb_le in Hfit. set (e' := (_TIM_IE_, tim_body 0 1 bmp)).
  assert (Forall element_ok [e']) as He by (constructor; [apply tim_body_ok; [uint_lit|uint_lit|done|done]|constructor]).
  assert (∀ l1 old l2, l = l1 ++ old ++ l2 → put_tim bmp l = l1 ++ [e'] ++ l2 →
    let p := (_FIXED_IE_LENGTH_ + length (encode l1))%nat in
    tim_place n = Ret (p, (p + length (encode old))%nat, Z.of_nat (length (encode l2))) →
    ∃ n', update_BCNTIM kmalloc bmp n = Ret n' ∧ shows n' fixed (put_tim bmp l)) as Go.
  { intros l1 old l2 El Ep p T. rewrite Ep in Hfit |- *. rewrite El in S.
    destruct (splice_shows n fixed l1 old l2 [e'] S He Hfit) as (b & n' & B & W & S'). exists n'. split; [|done].
    unfold update_BCNTIM. rewrite T. cbn [cbind]. unfold p. rewrite B. cbn [cbind].
    rewrite set_tim_ie_eq by done. fold e'. rewrite <- W, encode_one. clear W.
    destruct (buf_write _ _ (encode1 e')); [|done..]. cbn [cbind]. by rewrite Nat2Z.id. }
  destruct (filled _TIM_IE_ l) eqn:F.
  - destruct (tim_place_filled n fixed l S F) as (l1 & e & l2 & E & P & T). by apply (Go l1 [e] l2).
  - unfold tim_ready in Hr. rewrite F in Hr. cbn [orb] in Hr.
    destruct l as [|[i0 sd] [|[i1 rd] [|[i2 [|dd [|]]] l]]]; try discriminate.
    apply andb_true_iff in Hr as [->%Z.eqb_eq ->%Z.eqb_eq].
    apply (Go [(_SSID_IE_, sd); (_SUPPORTEDRATES_IE_, rd); (i2, [dd])] [] l); [done| |].
    + unfold put_tim. by rewrite F.
    + change (length (encode [])) with O. rewrite Nat.add_0_r. by apply (tim_place_missing n fixed sd rd i2 dd l).
Qed.

(** *** The edit of the WPS element *)
Fixpoint set_wps (new : element) (l : list element) : list element :=
  match l with
  | [] => []
  | e :: l => if matches 0xdd (Some wps_oui) e then new :: l else e :: set_wps new l
  end.
Lemma wps_short e l :
  (length (encode (e :: l)) ≤ 5)%nat → oui_fits 0xdd (Some wps_oui) (e :: l) →
  find_element 0xdd (Some wps_oui) (e :: l) 0 = None.
Proof.
  intros Hs Ho. assert (∀ o, find_element 0xdd (Some wps_oui) (e :: l) o = None) as H; [|apply H].
  revert Hs Ho. generalize (e :: l). clear e l. induction l as [|e l IH]; intros Hs Ho o; [done|].
  rewrite encode_cons, length_app, length_encode1 in Hs. inversion Ho as [|? ? H1 H2]; subst. cbn [find_element].
  unfold matches. destruct (Z.eqb_spec e.1 0xdd) as [E|_]; cbn [andb].
  - specialize (H1 E). cbn in H1. lia.
  - apply IH; [lia|done].
Qed.
Lemma find_element_shift eid oui l : ∀ o, find_element eid oui l o = (λ '(p, k), ((o + p)%nat, k)) <$> find_element eid oui l 0.
Proof.
  induction l as [|e l IH]; intros o; [done|]. cbn [find_element]. destruct (matches eid oui e); [cbn; by rewrite Nat.add_0_r|].
  rewrite IH, (IH (0 + _)%nat). destruct (find_element eid oui l 0) as [[p k]|]; [cbn|done]. do 2 f_equal. lia.
Qed.
Lemma get_wps_loop_encode l : ∀ fuel pre junk,
  oui_fits 0xdd (Some wps_oui) l → (length l < fuel)%nat → Z.of_nat (length pre + length (encode l)) < MAX_IE_SZ →
  get_wps_ie_loop fuel (pre ++ encode l ++ junk) (Z.of_nat (length pre + length (encode l))) (length pre) =
    Ret (find_element 0xdd (Some wps_oui) l (length pre)).
Proof.
  induction l as [|e l IH]; intros fuel pre junk Ho Hf Hm; (destruct fuel as [|fuel]; [cbn in Hf; lia|]); cbn [get_wps_ie_loop].
  - change (length (encode [])) with O. rewrite (proj2 (Z.ltb_ge _ _)) by lia. done.
  - destruct (Z.ltb_spec (Z.of_nat (length pre) + 1 + 4) (Z.of_nat (length pre + length (encode (e :: l))))) as [Hlt|Hge].
    2: { rewrite find_element_shift, wps_short by (done || lia). done. }
    rewrite (proj2 (Z.leb_gt _ _)) by lia. cbn [find_element]. apply oui_fits_cons in Ho as [Ho1 Ho2].
    rewrite encode_cons, length_app, <- app_assoc in *.
    destruct (element_head pre e (encode l ++ junk) _ eq_refl) as [-> ->]. cbn [cbind].
    assert ((if e.1 =? 0xdd then oui_matches (pre ++ encode1 e ++ encode l ++ junk) (length pre) (Some wps_oui) else Ret false)
      = Ret (matches 0xdd (Some wps_oui) e)) as ->.
    { destruct (Z.eqb_spec e.1 0xdd) as [E|E].
      - by apply (element_oui pre e (encode l ++ junk)).
      - unfold matches. by rewrite (proj2 (Z.eqb_neq _ _) E). }
    cbn [cbind]. destruct (matches 0xdd (Some wps_oui) e); [done|].
    replace (Z.to_nat (Z.of_nat (length e.2) + 2)) with (length (encode1 e)) by (rewrite length_encode1; lia).
    rewrite (app_assoc pre), Nat.add_assoc, <- length_app. apply IH; [done|cbn [length] in Hf; lia|].
    rewrite length_app. lia.
Qed.
Lemma set_wps_split new l1 e l2 :
  Forall (λ e, matches 0xdd (Some wps_oui) e = false) l1 → matches 0xdd (Some wps_oui) e = true →
  set_wps new (l1 ++ e :: l2) = l1 ++ [new] ++ l2.
Proof.
  intros H He. induction H as [|e' l1 H' H IH]; cbn [app set_wps]; [by rewrite He|]. by rewrite H', IH.
Qed.
Lemma set_wps_absent new l : Forall (λ e, matches 0xdd (Some wps_oui) e = false) l → set_wps new l = l.
Proof. induction 1 as [|e l He H IH]; [done|]. cbn [set_wps]. by rewrite He, IH. Qed.

Lemma wps_shows n fixed l new :
  shows n fixed l → oui_fits 0xdd (Some wps_oui) l → element_ok new →
  ∃ n', update_bcn_wps_ie kmalloc (Some (encode1 new)) n = Ret n' ∧
    shows n' fixed (if fits (set_wps new l) then set_wps new l else l).
Proof.
  intros S Ho Hn. pose proof (shows_len_ge _ _ _ S) as Hm. unfold update_bcn_wps_ie.
  assert (rtw_get_wps_ie (drop _FIXED_IE_LENGTH_ n.(IEs)) (u32 (n.(IELength) - Z.of_nat _FIXED_IE_LENGTH_)) =
    Ret (find_element 0xdd (Some wps_oui) l 0)) as ->.
  { destruct S as [Hf _ -> _ [junk ->]]. rewrite <- Hf, drop_app_length, Hf.
    rewrite u32_id by (split; unfold MAX_IE_SZ in *; lia).
    replace (Z.of_nat (_FIXED_IE_LENGTH_ + length (encode l)) - Z.of_nat _FIXED_IE_LENGTH_) with (Z.of_nat (length (encode l))) by lia.
    unfold rtw_get_wps_ie. pose proof (length_encode_ge l).
    apply (get_wps_loop_encode l _ [] junk); [done|lia|]. cbn [length Nat.add]. unfold MAX_IE_SZ, _FIXED_IE_LENGTH_ in *. lia. }
  cbn [cbind]. pose proof (find_element_first 0xdd (Some wps_oui) l 0) as F.
  destruct (find_element 0xdd (Some wps_oui) l 0) as [[o k]|].
  - destruct F as (l1 & e & l2 & -> & F1 & F2 & -> & ->). rewrite set_wps_split by done.
    assert (Z.of_nat (length (encode1 e)) = Z.of_nat (length e.2) + 2) as He by (rewrite length_encode1; lia).
    rewrite (proj2 (Z.eqb_neq _ _)) by lia. rewrite Nat.add_0_l.
    set (p := (_FIXED_IE_LENGTH_ + length (encode l1))%nat). set (rem := Z.of_nat (length (encode l2))).
    assert (u32 (n.(IELength) - Z.of_nat p - Z.of_nat (length (encode1 e))) = rem) as -> by (rewrite He; by apply shows_rem with fixed).
    rewrite Nat2Z.id.
    assert (∃ b, backup kmalloc n.(IEs) (p + length (encode1 e)) rem = Ret b) as [b B].
    { destruct (splice_shows n fixed l1 [e] l2 [e] S) as (b & _ & B & _).
      - constructor; [|constructor]. destruct S as [_ Hok _ _ _]. apply Forall_app in Hok as [_ Hok]. by inversion Hok.
      - exact Hm.
      - exists b. by rewrite encode_one in B. }
    rewrite B. cbn [cbind].
    assert (mem_byte (encode1 new) 1 = Ret (Z.of_nat (length new.2))) as ->
      by (destruct (element_head [] new [] (encode1 new)) as [_ H]; [cbn; by rewrite app_nil_r|exact H]).
    cbn [cbind]. replace (Z.of_nat (length new.2) + 2) with (Z.of_nat (length (encode1 new))) by (rewrite length_encode1; lia).
    replace (Z.of_nat p + Z.of_nat (length new.2) + 2 + rem)
      with (Z.of_nat (_FIXED_IE_LENGTH_ + length (encode (l1 ++ [new] ++ l2))))
      by (rewrite !encode_app, encode_one, !length_app, length_encode1; unfold p, rem; lia).
    destruct Hn as (Hn1 & Hn2 & Hn3).
    assert (length (encode1 new) ≤ 257)%nat as Hle by (rewrite length_encode1; lia).
    rewrite u32_id.
    2: { rewrite !encode_app, encode_one, !length_app in *. rewrite encode_cons, length_app in Hm.
         unfold MAX_IE_SZ, _FIXED_IE_LENGTH_ in *. split; lia. }
    unfold fits. destruct (Z.leb_spec (Z.of_nat (_FIXED_IE_LENGTH_ + length (encode (l1 ++ [new] ++ l2)))) MAX_IE_SZ) as [Hfit|Hno].
    + rewrite (proj2 (Nat.leb_le _ _)) by (unfold MAX_IE_SZ in *; lia).
      destruct (splice_shows n fixed l1 [e] l2 [new] S) as (b' & n' & B' & W & S');
        [constructor; [by split|constructor]|unfold MAX_IE_SZ in *; lia|].
      exists n'. split; [|exact S']. rewrite encode_one in B'. fold p rem in B'. rewrite B in B'. injection B' as <-.
      rewrite encode_one in W. fold p rem in W. rewrite mem_readz_nat, mem_read_ok by done. unfold slice.
      rewrite drop_0, take_ge by done. cbn [cbind]. rewrite Nat2Z.id, <- Nat2Z.inj_add. exact W.
    + rewrite (proj2 (Nat.leb_gt _ _)) by (unfold MAX_IE_SZ in *; lia). by exists n.
  - destruct F as [_ F]. rewrite set_wps_absent by done. exists n. split; [done|]. by destruct (fits l).
Qed.
End Refine.

(** ** Sequences of edits *)
Inductive bcn_edit :=
  | Ed_tim (tim_bitmap : list Z)
  | Ed_add (index : Z) (data : list Z)
  | Ed_remove (index : Z)
  | Ed_ext_cap (data : list Z) (len : Z)
  | Ed_wps (new : element).
Definition do_edit (kmalloc : Z → bool) (n : WLAN_BSSID_EX) (ed : bcn_edit) : cres WLAN_BSSID_EX :=
  match ed with
  | Ed_tim bmp => update_BCNTIM kmalloc bmp n
  | Ed_add index data => rtw_add_bcn_ie kmalloc n index data
  | Ed_remove index => rtw_remove_bcn_ie kmalloc n index
  | Ed_ext_cap data len => update_bcn_ext_capab_ie kmalloc data len n
  | Ed_wps new => update_bcn_wps_ie kmalloc (Some (encode1 new)) n
  end.
Fixpoint do_edits (kmalloc : Z → bool) (n : WLAN_BSSID_EX) (eds : list bcn_edit) : cres WLAN_BSSID_EX :=
  match eds with
  | [] => Ret n
  | ed :: eds => let* n := do_edit kmalloc n ed in do_edits kmalloc n eds
  end.

(** The same edits on the list of elements. *)
Definition put_ext_cap (data : list Z) (len : Z) (l : list element) : list element :=
  let l := set_first _EXT_CAP_IE_ [] l in
  if (0 <? len) && negb (bool_decide (data = replicate 8 0))
  then add_first false _EXT_CAP_IE_ (take (Z.to_nat len) data) l else l.
Definition spec_edit (l : list element) (ed : bcn_edit) : list element :=
  match ed with
  | Ed_tim bmp => put_tim bmp l
  | Ed_add index data => add_first false index data l
  | Ed_remove index => set_first index [] l
  | Ed_ext_cap data len => put_ext_cap data len l
  | Ed_wps new => if fits (set_wps new l) then set_wps new l else l
  end.

(** What an edit needs: bytes and lengths in range, room for the result, and
    for the first TIM element the head of the beacon that the code expects. *)
Definition element_okb (e : element) : bool :=
  (0 <=? e.1) && (e.1 <? 256) && bytesb e.2 && (length e.2 <=? 255)%nat.
Definition wps_readyb (l : list element) : bool := forallb (λ e, negb (e.1 =? 0xdd) || (4 <=? length e.2)%nat) l.
Definition edit_ready (l : list element) (ed : bcn_edit) : bool :=
  match ed with
  | Ed_tim bmp => tim_ready l && bytesb bmp && (1 <=? length bmp)%nat && (length bmp <=? 250)%nat && fits (put_tim bmp l)
  | Ed_add index data => element_okb (index, data) && fits (add_first false index data l)
  | Ed_remove _ => true
  | Ed_ext_cap data len =>
      bytesb data && (length data =? 8)%nat && (0 <=? len) && (len <=? 8) && fits (put_ext_cap data len l)
  | Ed_wps new => element_okb new && wps_readyb l
  end.
Fixpoint edits_ready (l : list element) (eds : list bcn_edit) : bool :=
  match eds with
  | [] => true
  | ed :: eds => edit_ready l ed && edits_ready (spec_edit l ed) eds
  end.

Lemma element_okb_ok e : element_okb e = true → element_ok e.
Proof.
  unfold element_okb. rewrite !andb_true_iff, Z.leb_le, Z.ltb_lt, Nat.leb_le. intros [[[H1 H2] H3] H4].
  split_and!; [by split|by apply bytesb_spec|done].
Qed.
Lemma wps_readyb_ok l : wps_readyb l = true → oui_fits 0xdd (Some wps_oui) l.
Proof.
  unfold wps_readyb, oui_fits. rewrite forallb_forall, List.Forall_forall. intros H e He E.
  apply H in He. rewrite E in He. by apply Nat.leb_le in He.
Qed.
Lemma ext_cap_shows kmalloc n fixed l data len :
  (∀ k, kmalloc k = true) → shows n fixed l → bytes data → length data = 8%nat → 0 ≤ len ≤ 8 →
  fits (put_ext_cap data len l) = true →
  ∃ n', update_bcn_ext_capab_ie kmalloc data len n = Ret n' ∧ shows n' fixed (put_ext_cap data len l).
Proof.
  intros Hk S Hb Hd Hl Hfit. unfold update_bcn_ext_capab_ie. rewrite (bcn_get_ie_shows n fixed l) by done. cbn [cbind].
  assert (∃ n1, (match (λ '(o, k), (o, k - 2)) <$> find_element _EXT_CAP_IE_ None l 0 with
      | Some (_, l0) => if 0 <? l0 then rtw_remove_bcn_ie kmalloc n _EXT_CAP_IE_ else Ret n
      | None => Ret n end) = Ret n1 ∧ shows n1 fixed (set_first _EXT_CAP_IE_ [] l)) as (n1 & -> & S1).
  { destruct (find_element _EXT_CAP_IE_ None l 0) as [[o k]|] eqn:F; cbn [fmap option_fmap option_map].
    - destruct (find_element_split _ l o k F) as (l1 & e & l2 & -> & H1 & H2 & -> & ->).
      destruct (Z.ltb_spec 0 (Z.of_nat (length e.2) + 2 - 2)) as [H|H]; [by apply remove_shows|].
      exists n. split; [done|]. rewrite set_first_split by done. destruct e.2; [done|cbn in H; lia].
    - exists n. split; [done|]. by rewrite set_first_absent by (by apply find_element_absent). }
  cbn [cbind]. unfold put_ext_cap in *. destruct (_ && _); [|by exists n1].
  assert (mem_readz data 0 len = Ret (take (Z.to_nat len) data)) as ->.
  { rewrite <- (Z2Nat.id len), mem_readz_nat, mem_read_ok, Nat2Z.id by lia. unfold slice. by rewrite drop_0. }
  cbn [cbind].
  apply add_shows; [done|done| |done]. split_and!; cbn [fst snd]; [uint_lit|by apply bytes_take|rewrite length_take; lia].
Qed.
Lemma edit_shows kmalloc n fixed l ed :
  (∀ k, kmalloc k = true) → shows n fixed l → edit_ready l ed = true →
  ∃ n', do_edit kmalloc n ed = Ret n' ∧ shows n' fixed (spec_edit l ed).
Proof.
  intros Hk S Hr. destruct ed as [bmp|index data|index|data len|new]; cbn [edit_ready do_edit spec_edit] in *;
    rewrite ?andb_true_iff, ?Nat.leb_le, ?Nat.eqb_eq, ?Z.leb_le in Hr.
  - destruct Hr as [[[[H1 H2] H3] H4] H5]. apply tim_shows; [done|done|done|by apply bytesb_spec|lia|done].
  - destruct Hr as [H1 H2]. apply add_shows; [done|done|by apply element_okb_ok|done].
  - by apply remove_shows.
  - destruct Hr as [[[[H1 H2] H3] H4] H5]. apply ext_cap_shows; [done|done|by apply bytesb_spec|done|lia|done].
  - destruct Hr as [H1 H2]. apply wps_shows; [done|done|by apply wps_readyb_ok|by apply element_okb_ok].
Qed.

(** The edits of the beacon body - the TIM element from the bitmap of the
    sleeping stations, adding and removing elements, the extended capabilities
    and the WPS element - do on the bytes what they do on the list of elements,
    in any sequence: no access is outside the [MAX_IE_SZ] bytes, the fixed
    fields stay, the length of the body is the length of the elements, and
    [rtw_get_ie] finds in the body exactly the elements of the list. *)
Theorem beacon_edits_refine kmalloc n fixed l eds :
  (∀ k, kmalloc k = true) → shows n fixed l → edits_ready l eds = true →
  ∃ n', do_edits kmalloc n eds = Ret n' ∧ shows n' fixed (fold_left spec_edit eds l) ∧
    ∀ index, bcn_get_ie n' index =
      Ret ((λ '(o, k), (o, k - 2)) <$> find_element index None (fold_left spec_edit eds l) 0).
Proof.
  intros Hk. revert n l. induction eds as [|ed eds IH]; intros n l S Hr; cbn [do_edits edits_ready fold_left] in *.
  - exists n. split_and!; [done|done|]. intros. by apply (bcn_get_ie_shows n fixed).
  - apply andb_true_iff in Hr as [H1 H2]. destruct (edit_shows kmalloc n fixed l ed Hk S H1) as (n1 & -> & S1).
    cbn [cbind]. by apply IH.
Qed.

(** A beacon with the elements [l]. *)
Definition beacon_of (l : list element) : WLAN_BSSID_EX :=
  {| IELength := Z.of_nat (12 + length (encode l));
     IEs := replicate 12 0 ++ encode l ++ replicate (768 - 12 - length (encode l)) 0 |}.
Lemma shows_beacon_of l : forallb element_okb l = true → fits l = true → shows (beacon_of l) (replicate 12 0) l.
Proof.
  intros Ho Hf%Nat.leb_le. constructor; [done| |done| |by eexists].
  - apply List.Forall_forall. intros e He. apply element_okb_ok. rewrite forallb_forall in Ho. by apply Ho.
  - cbn [beacon_of IEs]. rewrite !length_app, !length_replicate. unfold MAX_IE_SZ, _FIXED_IE_LENGTH_ in *. lia.
Qed.
Definition ap_beacon : list element :=
  [(0, [97; 98]); (1, [0x82; 0x84]); (3, [6]); (42, [0]); (45, replicate 26 0); (61, 6 :: replicate 21 0);
   (0xdd, [0x00; 0x50; 0xf2; 0x04; 1; 2])].
Definition ap_edits : list bcn_edit :=
  [Ed_tim [0; 2]; Ed_add 50 [0x30]; Ed_tim [1; 0]; Ed_remove 42; Ed_ext_cap [4; 0; 0; 0; 0; 0; 0; 0] 8;
   Ed_wps (0xdd, [0x00; 0x50; 0xf2; 0x04; 9])].
Lemma beacon_edits_refine_witness :
  ∃ n', do_edits (λ _, true) (beacon_of ap_beacon) ap_edits = Ret n' ∧
    shows n' (replicate 12 0)
      [(0, [97; 98]); (1, [0x82; 0x84]); (3, [6]); (5, [0; 1; 1; 1]); (45, replicate 26 0); (50, [0x30]);
       (61, 6 :: replicate 21 0); (127, [4; 0; 0; 0; 0; 0; 0; 0]); (0xdd, [0x00; 0x50; 0xf2; 0x04; 9])].
Proof.
  destruct (beacon_edits_refine (λ _, true) (beacon_of ap_beacon) (replicate 12 0) ap_beacon ap_edits) as (n' & H1 & H2 & _).
  - reflexivity.
  - apply shows_beacon_of; vm_compute; reflexivity.
  - vm_compute. reflexivity.
  - exists n'. split; [exact H1|exact H2].
Defined.

(** ** Where the edits go wrong *)

(** Without a DS parameter set the first TIM element is put three bytes into
    the next element: on 5 GHz the element behind the rates, here a country
    element, is cut in two. *)
Example tim_cuts_element :
  update_BCNTIM (λ _, true) [0; 0] (beacon_of [(0, [97]); (1, [0x8c]); (7, [85; 83; 32; 36; 4; 23])]) =
  Ret {| IELength := 12 + 3 + 3 + 3 + 6 + 5;
         IEs := replicate 12 0 ++ [0; 1; 97] ++ [1; 1; 0x8c] ++ [7; 6; 85] ++ [5; 4; 0; 1; 0; 0] ++ [83; 32; 36; 4; 23]
                ++ replicate 736 0 |}.
Proof. vm_compute. reflexivity. Qed.
(** Behind an empty element, the SSID of a hidden network, nothing is added. *)
Example add_behind_hidden_ssid :
  rtw_add_bcn_ie (λ _, true) (beacon_of [(0, []); (3, [6])]) 1 [0x82; 0x84] = Ret (beacon_of [(0, []); (3, [6])]).
Proof. vm_compute. reflexivity. Qed.
(** The room is not checked, except for the WPS element: a full body is
    written past its end. *)
Example add_past_the_end :
  rtw_add_bcn_ie (λ _, true) (beacon_of [(0, [97]); (0xdd, replicate 255 1); (0xdd, replicate 255 1); (0xdd, replicate 235 1)])
    50 [1; 2; 3; 4] = Oob.
Proof. vm_compute. reflexivity. Qed.
(** When the copy cannot be allocated the elements behind are overwritten, and
    the length still counts them. *)
Example add_without_memory :
  ∃ n, rtw_add_bcn_ie (λ _, false) (beacon_of [(0, [97]); (3, [6]); (42, [0])]) 1 [0x82] = Ret n ∧
    n.(IELength) = 12 + 3 + 3 + 3 + 3 ∧ take 12 (drop 12 n.(IEs)) = [0; 1; 97; 1; 1; 0x82; 42; 1; 0; 0; 0; 0].
Proof. eexists. split; [vm_compute; reflexivity|split; reflexivity]. Qed.
