(* ===== verification/ApBss.v ===== *)
(** * What an access point announces: [core/rtw_ap.c], [core/rtw_ap_bcn_update.c]

    When stations join and leave, the access point counts the stations with the
    features that the others must know of - long preamble, no ERP, long slot
    time, no HT, no greenfield, 20 MHz only, 40 MHz intolerant - and keeps the
    ERP, the HT operation and the TIM element of its beacon in step.

    The marks [no_short_preamble_set], [nonerp_set], ... of a [sta_info] and the
    counters [num_sta_no_short_preamble], [num_sta_non_erp], ... of [mlme_priv]
    are functions of a common index, the [mark]. *)
From S2P Require Import Prelude CryptoWrap Blocks Mem Ie WepTkip XmitQueue XmitQueuePs BcnIe.

(** ** State *)
Inductive mark :=
  | no_short_preamble | nonerp | no_short_slot_time | no_ht | no_ht_gf | ht_20mhz | ht_40mhz_intolerant.
#[global] Instance mark_eq_dec : EqDecision mark.
Proof. solve_decision. Defined.
Definition fupd {A B} `{EqDecision A} (a : A) (b : B) (f : A → B) : A → B := λ x, if decide (x = a) then b else f x.

Record asta := {
  flags : Z; capability : Z; ht_cap_info : Z; aid : Z; marks : mark → bool;
  bw_mode : Z; sgi_40m : bool; rtsen : Z; cts2self : Z
}.
(** The beacon: its body, the ERP state of [mlme_ext_info], whether the channel
    width was reduced, and the commands queued to send it. *)
Record bcn := {
  network : WLAN_BSSID_EX; ERP_enable : bool; ERP_IE : Z; sw_to_20mhz : bool; update_bcn : bool; tx_cmds : nat
}.
Record bss := {
  bc : bcn; num : mark → Z; ht_op_mode : Z; olbc : bool; olbc_ht : bool; ht_20mhz_width_req : bool;
  ht_intolerant_ch_reported : bool; bstart_bss : bool; tim : list Z; asoc : list nat; sta_of : nat → asta; chk_count : Z
}.
(** What the operations read and do not change. *)
Record cfg := {
  kmalloc : Z → bool; NUM_STA : nat; ht_option : bool; HT_info_enable : Z; ap_cap_info : Z; cur_wireless_mode : Z;
  cur_channel : Z; cur_bwmode : Z; cur_ch_offset : Z; ht_enable : bool; is_supported_ht : bool;
  vrtl_carrier_sense : Z; vcs_type : Z; is_wifi_spec : bool; ext_capab : list Z; ext_capab_len : Z;
  wps_beacon_ie : option (list Z)
}.
Definition set_bc b w := Build_bss b w.(num) w.(ht_op_mode) w.(olbc) w.(olbc_ht) w.(ht_20mhz_width_req) w.(ht_intolerant_ch_reported) w.(bstart_bss) w.(tim) w.(asoc) w.(sta_of) w.(chk_count).
Definition set_num v w := Build_bss w.(bc) v w.(ht_op_mode) w.(olbc) w.(olbc_ht) w.(ht_20mhz_width_req) w.(ht_intolerant_ch_reported) w.(bstart_bss) w.(tim) w.(asoc) w.(sta_of) w.(chk_count).
Definition set_op v w := Build_bss w.(bc) w.(num) v w.(olbc) w.(olbc_ht) w.(ht_20mhz_width_req) w.(ht_intolerant_ch_reported) w.(bstart_bss) w.(tim) w.(asoc) w.(sta_of) w.(chk_count).
Definition set_olbc v w := Build_bss w.(bc) w.(num) w.(ht_op_mode) v v w.(ht_20mhz_width_req) w.(ht_intolerant_ch_reported) w.(bstart_bss) w.(tim) w.(asoc) w.(sta_of) w.(chk_count).
Definition set_coex r i w := Build_bss w.(bc) w.(num) w.(ht_op_mode) w.(olbc) w.(olbc_ht) r i w.(bstart_bss) w.(tim) w.(asoc) w.(sta_of) w.(chk_count).
Definition set_tim_map v w := Build_bss w.(bc) w.(num) w.(ht_op_mode) w.(olbc) w.(olbc_ht) w.(ht_20mhz_width_req) w.(ht_intolerant_ch_reported) w.(bstart_bss) v w.(asoc) w.(sta_of) w.(chk_count).
Definition set_asoc v w := Build_bss w.(bc) w.(num) w.(ht_op_mode) w.(olbc) w.(olbc_ht) w.(ht_20mhz_width_req) w.(ht_intolerant_ch_reported) w.(bstart_bss) w.(tim) v w.(sta_of) w.(chk_count).
Definition set_stas v w := Build_bss w.(bc) w.(num) w.(ht_op_mode) w.(olbc) w.(olbc_ht) w.(ht_20mhz_width_req) w.(ht_intolerant_ch_reported) w.(bstart_bss) w.(tim) w.(asoc) v w.(chk_count).
Definition set_chk_count v w := Build_bss w.(bc) w.(num) w.(ht_op_mode) w.(olbc) w.(olbc_ht) w.(ht_20mhz_width_req) w.(ht_intolerant_ch_reported) w.(bstart_bss) w.(tim) w.(asoc) w.(sta_of) v.
Definition set_network n b := Build_bcn n b.(ERP_enable) b.(ERP_IE) b.(sw_to_20mhz) b.(update_bcn) b.(tx_cmds).
Definition set_ERP e i b := Build_bcn b.(network) e i b.(sw_to_20mhz) b.(update_bcn) b.(tx_cmds).
Definition set_sw v b := Build_bcn b.(network) b.(ERP_enable) b.(ERP_IE) v b.(update_bcn) b.(tx_cmds).
Definition set_marks v s := Build_asta s.(flags) s.(capability) s.(ht_cap_info) s.(aid) v s.(bw_mode) s.(sgi_40m) s.(rtsen) s.(cts2self).
Definition set_bw m g s := Build_asta s.(flags) s.(capability) s.(ht_cap_info) s.(aid) s.(marks) m g s.(rtsen) s.(cts2self).
Definition set_vcs r c s := Build_asta s.(flags) s.(capability) s.(ht_cap_info) s.(aid) s.(marks) s.(bw_mode) s.(sgi_40m) r c.
Definition set_req f c h a s := Build_asta f c h a s.(marks) s.(bw_mode) s.(sgi_40m) s.(rtsen) s.(cts2self).

Definition _ERPINFO_IE_ : Z := 42.
Definition _HT_CAPABILITY_IE_ : Z := 45.
Definition _RSN_IE_2_ : Z := 48.
Definition _HT_ADD_INFO_IE_ : Z := 61.
Definition _VENDOR_SPECIFIC_IE_ : Z := 221.
Definition RTW_ERP_INFO_NON_ERP_PRESENT := BIT 0.
Definition RTW_ERP_INFO_USE_PROTECTION := BIT 1.
Definition RTW_ERP_INFO_BARKER_PREAMBLE_MODE := BIT 2.
Definition WLAN_STA_SHORT_PREAMBLE := BIT 7.
Definition WLAN_STA_HT := BIT 11.
Definition WLAN_STA_NONERP := BIT 31.
Definition WLAN_CAPABILITY_SHORT_SLOT : Z := 1 << 10.
Definition WIRELESS_11B := BIT 0.
Definition IEEE80211_HT_CAP_SUP_WIDTH : Z := 0x0002.
Definition IEEE80211_HT_CAP_GRN_FLD : Z := 0x0010.
Definition RTW_IEEE80211_HT_CAP_40MHZ_INTOLERANT := BIT 14.
Definition HT_INFO_OPERATION_MODE_OP_MODE_MASK : Z := 3.
Definition HT_INFO_OPERATION_MODE_NON_GF_DEVS_PRESENT := BIT 2.
Definition HT_INFO_OPERATION_MODE_NON_HT_STA_PRESENT := BIT 4.
Definition OP_MODE_PURE : Z := 0.
Definition OP_MODE_MAY_BE_LEGACY_STAS : Z := 1.
Definition OP_MODE_20MHZ_HT_STA_ASSOCED : Z := 2.
Definition OP_MODE_MIXED : Z := 3.
Definition EID_BSSCoexistence : Z := 72.
Definition EID_BSSIntolerantChlReport : Z := 73.
Definition HAL_PRIME_CHNL_OFFSET_LOWER : Z := 1.
Definition has (v bit : Z) : bool := negb (v .& bit =? 0).

Section Ap.
Variable c : cfg.

(** ** The elements of the beacon *)

(** [ERP_IE_handler] on an element of [len] bytes that starts with [d]. *)
Definition ERP_IE_handler (len d : Z) (b : bcn) : bcn := if 1 <? len then b else set_ERP true d b.

Definition update_bcn_erpinfo_ie (w : bss) : cres bss :=
  if negb w.(bc).(ERP_enable) then Ret w
  else
    let n := w.(bc).(network) in
    let* r := bcn_get_ie n _ERPINFO_IE_ in
    match r with
    | Some (o, len) =>
        if 0 <? len then
          let p := (_FIXED_IE_LENGTH_ + o)%nat in
          let* d := mem_byte n.(IEs) (Z.of_nat (p + 2)) in
          let present := RTW_ERP_INFO_NON_ERP_PRESENT .| RTW_ERP_INFO_USE_PROTECTION in
          let d := if w.(num) nonerp =? 1 then d .| present else u8 (d .& Z.lnot present) in
          let d := if 0 <? w.(num) no_short_preamble then d .| RTW_ERP_INFO_BARKER_PREAMBLE_MODE
                   else u8 (d .& Z.lnot RTW_ERP_INFO_BARKER_PREAMBLE_MODE) in
          let* ies := buf_write n.(IEs) (p + 2) [d] in
          Ret (set_bc (ERP_IE_handler len d (set_network {| IELength := n.(IELength); IEs := ies |} w.(bc))) w)
        else Ret w
    | None => Ret w
    end.

(** [SET_BITS_TO_LE_1BYTE] *)
Definition SET_BITS (b off len v : Z) : Z :=
  let m := (1 << len) - 1 in u8 (b .& Z.lnot (m << off)) .| ((v .& m) << off).
Definition SET_HT_OP_ELE_2ND_CHL_OFFSET (b v : Z) : Z := SET_BITS b 0 2 v.
Definition SET_HT_OP_ELE_STA_CHL_WIDTH (b v : Z) : Z := SET_BITS b 2 1 v.

(** The channel width in the first byte of [infos]: the byte and [sw_to_20mhz]. *)
Definition ht_width (w : bss) (d : Z) : Z * bool :=
  let sw := w.(bc).(sw_to_20mhz) in
  if negb sw && (cur_channel c <=? 14) then
    if (0 <? w.(num) ht_40mhz_intolerant) || w.(ht_20mhz_width_req) || w.(ht_intolerant_ch_reported) || w.(olbc)
    then (SET_HT_OP_ELE_STA_CHL_WIDTH (SET_HT_OP_ELE_2ND_CHL_OFFSET d 0) 0, true)
    else (d, sw)
  else if (w.(num) ht_40mhz_intolerant =? 0) && negb w.(ht_20mhz_width_req) && negb w.(ht_intolerant_ch_reported) && negb w.(olbc) then
    if 1 <=? cur_bwmode c
    then (SET_HT_OP_ELE_2ND_CHL_OFFSET (SET_HT_OP_ELE_STA_CHL_WIDTH d 1)
            (if cur_ch_offset c =? HAL_PRIME_CHNL_OFFSET_LOWER then 1 else 3), false)
    else (d, sw)
  else (d, sw).
Definition update_bcn_htinfo_ie (w : bss) : cres bss :=
  if negb (ht_option c) then Ret w
  else if negb (HT_info_enable c =? 1) then Ret w
  else
    let n := w.(bc).(network) in
    let* r := bcn_get_ie n _HT_ADD_INFO_IE_ in
    match r with
    | Some (o, len) =>
        if 0 <? len then
          let infos := (_FIXED_IE_LENGTH_ + o + 2 + 1)%nat in
          let* d := mem_byte n.(IEs) (Z.of_nat infos) in
          let '(d, sw) := ht_width w d in
          let* ies := buf_write n.(IEs) infos [d] in
          let* ies := buf_write ies (infos + 1) [u8 w.(ht_op_mode); u8 (w.(ht_op_mode) >> 8)] in
          Ret (set_bc (set_sw sw (set_network {| IELength := n.(IELength); IEs := ies |} w.(bc))) w)
        else Ret w
    | None => Ret w
    end.

Definition edit_network (f : WLAN_BSSID_EX → cres WLAN_BSSID_EX) (w : bss) : cres bss :=
  let* n := f w.(bc).(network) in Ret (set_bc (set_network n w.(bc)) w).

Definition RTW_WPA_OUI : list Z := [0x00; 0x50; 0xf2; 0x01].
Definition WMM_OUI : list Z := [0x00; 0x50; 0xf2; 0x02].
Definition update_bcn_vendor_spec_ie (oui : list Z) (w : bss) : cres bss :=
  if bool_decide (oui = RTW_WPA_OUI) then Ret w
  else if bool_decide (oui = WMM_OUI) then Ret w
  else if bool_decide (oui = wps_oui) then edit_network (update_bcn_wps_ie (kmalloc c) (wps_beacon_ie c)) w
  else Ret w.

(** [_update_beacon]; with [tx] a command to send the beacon is queued.  The
    handlers of the HT capabilities and of the RSN element only log. *)
Definition _update_beacon (ie_id : Z) (oui : list Z) (tx : bool) (w : bss) : cres bss :=
  if negb w.(bstart_bss) then Ret w
  else
    let* w :=
      if ie_id =? _TIM_IE_ then edit_network (update_BCNTIM (kmalloc c) w.(tim)) w
      else if ie_id =? _ERPINFO_IE_ then update_bcn_erpinfo_ie w
      else if ie_id =? _HT_CAPABILITY_IE_ then Ret w
      else if ie_id =? _RSN_IE_2_ then Ret w
      else if ie_id =? _HT_ADD_INFO_IE_ then update_bcn_htinfo_ie w
      else if ie_id =? _EXT_CAP_IE_ then edit_network (update_bcn_ext_capab_ie (kmalloc c) (ext_capab c) (ext_capab_len c)) w
      else if ie_id =? _VENDOR_SPECIFIC_IE_ then update_bcn_vendor_spec_ie oui w
      else Ret w in
    let b := w.(bc) in
    Ret (set_bc (Build_bcn b.(network) b.(ERP_enable) b.(ERP_IE) b.(sw_to_20mhz) true
                   (if tx then S b.(tx_cmds) else b.(tx_cmds))) w).
Definition update_beacon (ie_id : Z) (tx : bool) (w : bss) : cres bss := _update_beacon ie_id [] tx w.

(** ** Counting *)
Definition put_mark (m : mark) (v : bool) (s : nat) (w : bss) : bss :=
  set_stas (fupd s (set_marks (fupd m v (w.(sta_of) s).(marks)) (w.(sta_of) s)) w.(sta_of)) w.
(** A mark of station [s] is brought to [v] and the counter with it; the result
    says whether the counter has just become one (set) or zero (cleared). *)
Definition set_mark (m : mark) (v : bool) (s : nat) (w : bss) : bss * bool :=
  if Bool.eqb ((w.(sta_of) s).(marks) m) v then (w, false)
  else
    let w := put_mark m v s (set_num (fupd m (w.(num) m + (if v then 1 else -1)) w.(num)) w) in
    (w, w.(num) m =? (if v then 1 else 0)).

(** [rtw_ht_operation_update]: the number of changes is returned. *)
Definition flip_bit (op bit : Z) (v : bool) : Z * Z :=
  if negb (has op bit) && v then (op .| bit, 1)
  else if has op bit && negb v then (u16 (op .& Z.lnot bit), 1)
  else (op, 0).
Definition new_op_mode (w : bss) : Z :=
  if negb (w.(num) no_ht =? 0) then OP_MODE_MIXED
  else if has (ap_cap_info c) IEEE80211_HT_CAP_SUP_WIDTH && negb (w.(num) ht_20mhz =? 0) then OP_MODE_20MHZ_HT_STA_ASSOCED
  else if w.(olbc_ht) then OP_MODE_MAY_BE_LEGACY_STAS
  else OP_MODE_PURE.
Definition rtw_ht_operation_update (w : bss) : bss * Z :=
  if negb (ht_option c) then (w, 0)
  else
    let '(op, c1) := flip_bit w.(ht_op_mode) HT_INFO_OPERATION_MODE_NON_GF_DEVS_PRESENT (negb (w.(num) no_ht_gf =? 0)) in
    let '(op, c2) := flip_bit op HT_INFO_OPERATION_MODE_NON_HT_STA_PRESENT (negb (w.(num) no_ht =? 0) || w.(olbc_ht)) in
    let '(op, c3) :=
      if op .& HT_INFO_OPERATION_MODE_OP_MODE_MASK =? new_op_mode w then (op, 0)
      else (u16 (op .& Z.lnot HT_INFO_OPERATION_MODE_OP_MODE_MASK) .| new_op_mode w, 1) in
    (set_op op w, c1 + c2 + c3).

(** ** The associated stations *)
Definition VCS_update (s : nat) (w : bss) : bss :=
  let on := if vcs_type c =? 1 then (1, 0) else (0, 1) in
  let '(r, k) :=
    if vrtl_carrier_sense c =? 0 then (0, 0)
    else if vrtl_carrier_sense c =? 1 then on
    else if w.(bc).(ERP_enable) && has w.(bc).(ERP_IE) (BIT 1) then on else (0, 0) in
  set_stas (fupd s (set_vcs r k (w.(sta_of) s)) w.(sta_of)) w.
Definition STA_INFO_UPDATE_BW := BIT 0.
Definition STA_INFO_UPDATE_PROTECTION_MODE := BIT 2.
Definition STA_INFO_UPDATE_ALL : Z := 0x3f.
Definition associated_stainfo_update (ty : Z) (w : bss) (s : nat) : bss :=
  let a := w.(sta_of) s in
  let w :=
    if has ty STA_INFO_UPDATE_BW && has a.(flags) WLAN_STA_HT && negb (a.(marks) ht_20mhz) && w.(bc).(sw_to_20mhz)
    then set_stas (fupd s (set_bw 0 false a) w.(sta_of)) w else w in
  if has ty STA_INFO_UPDATE_PROTECTION_MODE then VCS_update s w else w.
Definition associated_clients_update (updated : bool) (ty : Z) (w : bss) : bss :=
  if updated then fold_left (associated_stainfo_update ty) w.(asoc) w else w.

(** ** Stations join and leave *)
Definition ht_changed (w : bss) : cres (bss * bool) :=
  let '(w, changes) := rtw_ht_operation_update w in
  if 0 <? changes then
    let* w := update_beacon _HT_CAPABILITY_IE_ false w in
    let* w := update_beacon _HT_ADD_INFO_IE_ false w in
    Ret (w, true)
  else Ret (w, false).
Definition join_ht (s : nat) (w : bss) : bss :=
  let a := w.(sta_of) s in
  if has a.(flags) WLAN_STA_HT then
    let w := (set_mark no_ht false s w).1 in
    let w := if has a.(ht_cap_info) IEEE80211_HT_CAP_GRN_FLD then w else (set_mark no_ht_gf true s w).1 in
    let w := if has a.(ht_cap_info) IEEE80211_HT_CAP_SUP_WIDTH then w else (set_mark ht_20mhz true s w).1 in
    if has a.(ht_cap_info) RTW_IEEE80211_HT_CAP_40MHZ_INTOLERANT then (set_mark ht_40mhz_intolerant true s w).1 else w
  else (set_mark no_ht true s w).1.
Definition bss_cap_update_on_sta_join (s : nat) (w : bss) : cres bss :=
  let a := w.(sta_of) s in
  let beyond_b := WIRELESS_11B <? cur_wireless_mode c in
  let '(w, x) := set_mark no_short_preamble (negb (has a.(flags) WLAN_STA_SHORT_PREAMBLE)) s w in
  let beacon_updated := beyond_b && x in
  let '(w, x) := set_mark nonerp (has a.(flags) WLAN_STA_NONERP) s w in
  let* w := if x then update_beacon _ERPINFO_IE_ false w else Ret w in
  let beacon_updated := beacon_updated || x in
  let '(w, x) := set_mark no_short_slot_time (negb (has a.(capability) WLAN_CAPABILITY_SHORT_SLOT)) s w in
  let beacon_updated := beacon_updated || (beyond_b && x) in
  let* (w, x) := if ht_enable c && is_supported_ht c then ht_changed (join_ht s w) else Ret (w, false) in
  let beacon_updated := beacon_updated || x in
  let* w := if beacon_updated then update_beacon 0xFF true w else Ret w in
  Ret (associated_clients_update beacon_updated STA_INFO_UPDATE_ALL w).

(** The mark of a 40 MHz intolerant station is cleared; its counter does not
    go below zero. *)
Definition clear_intolerant (s : nat) (w : bss) : bss :=
  if (w.(sta_of) s).(marks) ht_40mhz_intolerant then
    let w := put_mark ht_40mhz_intolerant false s w in
    if 0 <? w.(num) ht_40mhz_intolerant
    then set_num (fupd ht_40mhz_intolerant (w.(num) ht_40mhz_intolerant - 1) w.(num)) w else w
  else w.
Definition bss_cap_update_on_sta_leave (s : nat) (w : bss) : cres (bss * bool) :=
  let a := w.(sta_of) s in
  let beyond_b := WIRELESS_11B <? cur_wireless_mode c in
  let t := rtw_bmp_is_set w.(tim) a.(aid) in
  let* w := if t then update_beacon _TIM_IE_ false (set_tim_map (rtw_bmp_clear w.(tim) a.(aid)) w) else Ret w in
  let beacon_updated := t in
  let '(w, x) := set_mark no_short_preamble false s w in
  let beacon_updated := beacon_updated || (beyond_b && x) in
  let '(w, x) := set_mark nonerp false s w in
  let* w := if x then update_beacon _ERPINFO_IE_ false w else Ret w in
  let beacon_updated := beacon_updated || x in
  let '(w, x) := set_mark no_short_slot_time false s w in
  let beacon_updated := beacon_updated || (beyond_b && x) in
  let w := (set_mark no_ht_gf false s w).1 in
  let w := (set_mark no_ht false s w).1 in
  let w := (set_mark ht_20mhz false s w).1 in
  let w := clear_intolerant s w in
  let* (w, _) := ht_changed w in
  let* w := if beacon_updated then update_beacon 0xFF true w else Ret w in
  Ret (w, beacon_updated).

(** [rtw_process_public_act_bsscoex] for a frame of station [s] with the body
    [frame_body]. *)
Definition rtw_process_public_act_bsscoex (s : nat) (frame_body : list Z) (w : bss) : cres bss :=
  let len := Z.of_nat (length frame_body) in
  let* _ := mem_byte frame_body 0 in
  let* _ := mem_byte frame_body 1 in
  let* (w, up) :=
    if 0 <? len then
      let* id := mem_byte frame_body 2 in
      let* l := if id =? EID_BSSCoexistence then mem_byte frame_body 3 else Ret 0 in
      if 0 <? l then
        let* d := mem_byte frame_body 4 in
        if has d (BIT 1) then
          if (w.(sta_of) s).(marks) ht_40mhz_intolerant then Ret (w, false)
          else Ret ((set_mark ht_40mhz_intolerant true s w).1, true)
        else if has d (BIT 2) then
          if w.(ht_20mhz_width_req) then Ret (w, false) else Ret (set_coex true w.(ht_intolerant_ch_reported) w, true)
        else Ret (w, false)
      else Ret (w, false)
    else Ret (w, false) in
  let* (w, up) :=
    if 8 <? len then
      let* id := mem_byte frame_body 5 in
      let* l := if id =? EID_BSSIntolerantChlReport then mem_byte frame_body 6 else Ret 0 in
      if (0 <? l) && negb w.(ht_intolerant_ch_reported) then Ret (set_coex w.(ht_20mhz_width_req) true w, true)
      else Ret (w, up)
    else Ret (w, up) in
  if up : bool then
    let* w := update_beacon _HT_ADD_INFO_IE_ true w in
    Ret (associated_stainfo_update STA_INFO_UPDATE_BW w s)
  else Ret w.

(** [dynamic_update_bcn_check], every two seconds. *)
Definition ht_changed_tx (w : bss) : cres bss :=
  let '(w, changes) := rtw_ht_operation_update w in
  if 0 <? changes then
    let* w := update_beacon _HT_CAPABILITY_IE_ false w in update_beacon _HT_ADD_INFO_IE_ true w
  else Ret w.
Definition dynamic_update_bcn_check (w : bss) : cres bss :=
  if negb (is_wifi_spec c) then Ret w
  else if negb (ht_enable c) || negb (is_supported_ht c) then Ret w
  else if w.(bstart_bss) then
    let* w :=
      if w.(chk_count) mod 10 =? 0 then
        let w := set_chk_count 1 w in
        if negb w.(olbc) && negb w.(olbc_ht) then ht_changed_tx w else Ret w
      else Ret w in
    let* w :=
      if w.(olbc) && w.(olbc_ht) then
        let* w := ht_changed_tx w in Ret (set_chk_count 0 (set_olbc false w))
      else Ret w in
    Ret (set_chk_count (u8 (w.(chk_count) + 1)) w)
  else Ret w.
End Ap.
