(* ===== verification/ApBssInv.v ===== *)
(** * The announcements of an access point are true

    The invariant of the counters and of the beacon of [ApBss], its
    preservation by every operation, and what stations read from the beacon. *)
From S2P Require Import Prelude CryptoWrap Blocks Mem Ie WepTkip XmitQueue XmitQueuePs BcnIe ApBss.

(** ** Elements of the beacon by identifier *)
Definition body_of (id : Z) (l : list element) : option (list Z) := snd <$> find (λ e, e.1 =? id) l.

Lemma body_of_split id l b :
  body_of id l = Some b →
  ∃ l1 l2, l = l1 ++ (id, b) :: l2 ∧ Forall (λ e, (e.1 =? id) = false) l1.
Proof.
  unfold body_of. induction l as [|e l IH]; [done|]. cbn [find]. destruct (Z.eqb_spec e.1 id) as [E|E].
  - intros [= <-]. exists [], l. split; [|constructor]. destruct e. cbn in *. by subst.
  - intros H. destruct (IH H) as (l1 & l2 & -> & F). exists (e :: l1), l2. split; [done|]. constructor; [by apply Z.eqb_neq|done].
Qed.
Lemma body_of_app id l1 e l2 :
  Forall (λ e, (e.1 =? id) = false) l1 → e.1 = id → body_of id (l1 ++ e :: l2) = Some e.2.
Proof.
  intros F E. unfold body_of. induction F as [|e' l1 H F IH]; cbn [app find]; [by rewrite (proj2 (Z.eqb_eq _ _) E)|]. by rewrite H.
Qed.
Lemma body_of_set_first id b b' l :
  body_of id l = Some b → b ≠ [] → body_of id (set_first id [(id, b')] l) = Some b'.
Proof.
  intros H Hb. destruct (body_of_split id l b H) as (l1 & l2 & -> & F). rewrite set_first_split by done. cbn [snd].
  destruct b; [done|]. by apply (body_of_app id l1 (id, b')).
Qed.
Lemma body_of_set_other id id' b' l : id ≠ id' → body_of id' (set_first id [(id, b')] l) = body_of id' l.
Proof.
  intros Hne. unfold body_of. induction l as [|e l IH]; [done|]. cbn [set_first]. destruct (Z.eqb_spec e.1 id) as [E|E].
  - destruct e as [i [|x d]]; [done|]. cbn in *. subst. by rewrite (proj2 (Z.eqb_neq _ _) Hne).
  - cbn [find]. by destruct (e.1 =? id').
Qed.
Lemma length_set_first id b b' l :
  body_of id l = Some b → b ≠ [] →
  (length (encode (set_first id [(id, b')] l)) + length b = length (encode l) + length b')%nat.
Proof.
  intros H Hb. destruct (body_of_split id l b H) as (l1 & l2 & -> & F). rewrite set_first_split by done. cbn [snd].
  destruct b; [done|]. rewrite !encode_app, encode_one, (encode_cons _ l2), !length_app, !length_encode1. cbn [snd]. lia.
Qed.
Lemma body_of_filled id l b : body_of id l = Some b → b ≠ [] → filled id l = true.
Proof.
  intros H Hb. destruct (body_of_split id l b H) as (l1 & l2 & -> & F). rewrite filled_split by done. by destruct b.
Qed.

(** Bytes inside an element are read and written where the driver finds them. *)
Lemma poke_shows n fixed l id b :
  shows n fixed l → body_of id l = Some b → b ≠ [] →
  ∃ o, bcn_get_ie n id = Ret (Some (o, Z.of_nat (length b))) ∧
    (∀ k, (k < length b)%nat → mem_byte n.(IEs) (Z.of_nat (_FIXED_IE_LENGTH_ + o + 2 + k)) = Ret (b.[k])) ∧
    (∀ b1 x s b2, b = b1 ++ x ++ b2 → length s = length x → bytes s →
      ∃ ies, buf_write n.(IEs) (_FIXED_IE_LENGTH_ + o + 2 + length b1) s = Ret ies ∧
        shows {| IELength := n.(IELength); IEs := ies |} fixed (set_first id [(id, b1 ++ s ++ b2)] l)).
Proof.
  intros S H Hb. rewrite (bcn_get_ie_shows n fixed l id S). destruct (body_of_split id l b H) as (l1 & l2 & -> & F).
  assert (find_element id None (l1 ++ (id, b) :: l2) 0 = Some (length (encode l1), Z.of_nat (length b) + 2)) as ->.
  { pose proof (find_element_first id None (l1 ++ (id, b) :: l2) 0) as E.
    destruct (find_element id None (l1 ++ (id, b) :: l2) 0) as [[o k]|] eqn:Ef.
    - destruct (find_element_split id _ o k Ef) as (k1 & e & k2 & El & F1 & F2 & -> & ->).
      assert (l1 = k1 ∧ (id, b) :: l2 = e :: k2) as [-> [= <- _]]; [|done].
      clear -El F F1 F2. revert k1 El F1. induction F as [|x l1 Hx F IH]; intros [|y k1] El F1; cbn in El.
      + done.
      + injection El as <- _. inversion F1 as [|? ? Hy _]; subst. cbn in Hy. by rewrite Z.eqb_refl in Hy.
      + injection El as -> _. by rewrite (proj2 (Z.eqb_eq _ _) F2) in Hx.
      + injection El as -> El. inversion F1; subst. destruct (IH k1 El) as [-> ?]; [done|]. done.
    - destruct E as [_ E]. apply Forall_app in E as [_ E]. inversion E as [|? ? Hy _]; subst.
      unfold matches in Hy. cbn in Hy. by rewrite Z.eqb_refl in Hy. }
  exists (length (encode l1)). split; [cbn; do 3 f_equal; lia|].
  destruct (shows_parts n fixed l1 [(id, b)] l2 S) as (junk & E & Hl & Hp). rewrite encode_one in E.
  set (a := (fixed ++ encode l1) ++ [id; Z.of_nat (length b)]).
  assert (n.(IEs) = a ++ b ++ encode l2 ++ junk) as Ea by (unfold a; rewrite E, <- !app_assoc; done).
  assert (length a = _FIXED_IE_LENGTH_ + length (encode l1) + 2)%nat as La by (unfold a; rewrite length_app, Hp; done).
  rewrite <- La. split.
  - intros k Hk. apply mem_byte_at. rewrite Ea, lookup_app_r by lia. rewrite lookup_app_l by lia.
    replace (length a + k - length a)%nat with k by lia. by apply lookup_aget.
  - intros b1 x s b2 Hbx Hs Hbs. exists (a ++ (b1 ++ s ++ b2) ++ encode l2 ++ junk). split.
    + rewrite Ea, Hbx. replace (a ++ (b1 ++ x ++ b2) ++ encode l2 ++ junk) with ((a ++ b1) ++ x ++ b2 ++ encode l2 ++ junk)
        by (by rewrite <- !app_assoc).
      rewrite <- length_app, buf_write_mid by done. by rewrite <- !app_assoc.
    + rewrite set_first_split by done. cbn [snd]. destruct b as [|c0 d0]; [done|].
      assert (length (b1 ++ s ++ b2) = length (c0 :: d0)) as Hlen by (rewrite Hbx, !length_app; lia).
      apply (shows_edit n fixed l1 [(id, c0 :: d0)] l2 [(id, b1 ++ s ++ b2)] junk); [done| | | |].
      * destruct S as [_ Ho _ _ _]. apply Forall_app in Ho as [_ Ho]. inversion Ho as [|? ? (Ho1 & Ho2 & Ho3) _]; subst.
        constructor; [|constructor]. cbn [fst snd] in *. split_and!; [done| |cbn [snd]; rewrite Hlen; done].
        rewrite Hbx in Ho2. apply Forall_app in Ho2 as [O1 O2]. apply Forall_app in O2 as [_ O3].
        apply bytes_app; [done|]. by apply bytes_app.
      * rewrite encode_one. unfold a, encode1. cbn [fst snd]. rewrite Hlen. cbn [app]. rewrite <- !app_assoc. done.
      * rewrite Ea, Hbx, !length_app. lia.
      * destruct S as [_ _ -> _ _]. rewrite !encode_app, encode_one, (encode_cons _ l2), !length_app, !length_encode1. cbn [snd].
        rewrite Hlen. lia.
Qed.

(** ** The beacon *)

(** The beacon body is well formed; its ERP element has the bits for stations
    without ERP and for protection as [e], its HT operation element carries the
    operation mode [h] and its TIM element the bitmap [t]; there is room for
    the longest TIM element. *)
Record bcn_ok (b : bcn) (e : bool) (h : Z) (t : list Z) : Prop := {
  b_erp_on : b.(ERP_enable) = true;
  b_tim_len : (1 ≤ length t ≤ 250)%nat;
  b_tim_bytes : bytes t;
  b_body : ∃ fixed l, shows b.(network) fixed l ∧
    (body_of _ERPINFO_IE_ l = Some [b.(ERP_IE)] ∧ Z.testbit b.(ERP_IE) 0 = e ∧ Z.testbit b.(ERP_IE) 1 = e) ∧
    (∃ x, body_of _HT_ADD_INFO_IE_ l = Some x ∧ (4 ≤ length x)%nat ∧ x.[2] = u8 h ∧ x.[3] = u8 (h >> 8)) ∧
    body_of _TIM_IE_ l = Some (tim_body 0 1 t) ∧
    (_FIXED_IE_LENGTH_ + length (encode l) + length t + 3 ≤ Z.to_nat MAX_IE_SZ + length (tim_body 0 1 t))%nat
}.

Lemma tim_body_size t : (1 ≤ length t ≤ 250)%nat → (length (tim_body 0 1 t) ≤ length t + 3)%nat ∧ tim_body 0 1 t ≠ [].
Proof.
  intros Hl. unfold tim_body. destruct (tim_window t) as [n1 k] eqn:W.
  destruct (tim_window_spec t n1 k W Hl) as (H1 & _). split; [|done]. rewrite length_app, length_slice by done. cbn [length]. lia.
Qed.
Lemma shows_byte n fixed l id d : shows n fixed l → body_of id l = Some [d] → is_u8 d.
Proof.
  intros [_ Ho _ _ _] H. destruct (body_of_split id l [d] H) as (l1 & l2 & -> & _).
  apply Forall_app in Ho as [_ Ho]. inversion Ho as [|? ? (_ & Hb & _) _]; subst. by inversion Hb.
Qed.

(** The bits that [update_bcn_erpinfo_ie] writes. *)
Definition erp_byte (non_erp : bool) (barker : bool) (d : Z) : Z :=
  let d := if non_erp then d .| (RTW_ERP_INFO_NON_ERP_PRESENT .| RTW_ERP_INFO_USE_PROTECTION)
           else u8 (d .& Z.lnot (RTW_ERP_INFO_NON_ERP_PRESENT .| RTW_ERP_INFO_USE_PROTECTION)) in
  if barker then d .| RTW_ERP_INFO_BARKER_PREAMBLE_MODE else u8 (d .& Z.lnot RTW_ERP_INFO_BARKER_PREAMBLE_MODE).
Lemma erp_byte_bits x y d :
  is_u8 d → let d' := erp_byte x y d in is_u8 d' ∧ Z.testbit d' 0 = x ∧ Z.testbit d' 1 = x ∧ Z.testbit d' 2 = y.
Proof.
  intros Hd d'. pose proof (all_below_spec 256 (λ d, let d' := erp_byte x y d in
    (0 <=? d') && (d' <? 256) && Bool.eqb (Z.testbit d' 0) x && Bool.eqb (Z.testbit d' 1) x && Bool.eqb (Z.testbit d' 2) y) d) as H.
  specialize (H ltac:(destruct x, y; vm_compute; reflexivity) Hd). cbn zeta in H. fold d' in H.
  rewrite !andb_true_iff, Z.leb_le, Z.ltb_lt, !Bool.eqb_true_iff in H. destruct H as [[[[H1 H2] H3] H4] H5].
  by split_and!.
Qed.

Section Inv.
Variable c : cfg.
(** Memory is never short, and an access point that runs HT has its HT
    operation element. *)
Record cfg_ok : Prop := {
  ok_mem : ∀ k, kmalloc c k = true;
  ok_ht : ht_option c = true → HT_info_enable c = 1
}.
Hypothesis Hc : cfg_ok.

Lemma erp_update w e h t :
  bcn_ok w.(bc) e h t → w.(num) nonerp = 0 ∨ w.(num) nonerp = 1 →
  ∃ b, update_bcn_erpinfo_ie w = Ret (set_bc b w) ∧ bcn_ok b (0 <? w.(num) nonerp) h t.
Proof.
  intros [B1 B2 B2' (fixed & l & S & (E1 & E2 & E3) & (x & X1 & X2 & X3 & X4) & T & Room)] Hn.
  unfold update_bcn_erpinfo_ie. rewrite B1. cbn [negb].
  destruct (poke_shows _ fixed l _ERPINFO_IE_ _ S E1) as (o & -> & Hr & Hw); [done|]. cbn [cbind].
  rewrite (proj2 (Z.ltb_lt 0 (Z.of_nat (length [ERP_IE (bc w)])))) by (cbn; lia).
  specialize (Hr O ltac:(cbn; lia)). rewrite Nat.add_0_r in Hr. rewrite Hr. cbn [cbind].
  set (d' := erp_byte (w.(num) nonerp =? 1) (0 <? w.(num) no_short_preamble) w.(bc).(ERP_IE)).
  destruct (erp_byte_bits (w.(num) nonerp =? 1) (0 <? w.(num) no_short_preamble) _ (shows_byte _ _ _ _ _ S E1))
    as (D0 & D1 & D2 & _). fold d' in D0, D1, D2.
  destruct (Hw [] [ERP_IE (bc w)] [d'] []) as (ies & W & S'); [done|done|by constructor|].
  cbn [length] in W. rewrite Nat.add_0_r in W. change ([ERP_IE (bc w)].[0]) with (ERP_IE (bc w)).
  match goal with |- ∃ b, (let* ies := buf_write _ _ [?v] in _) = _ ∧ _ => change v with d' end. rewrite W. cbn [cbind].
  eexists. split; [reflexivity|]. constructor; [done|done|done|]. exists fixed, (set_first _ERPINFO_IE_ [(_ERPINFO_IE_, [d'])] l).
  cbn [ERP_IE_handler set_ERP set_network network ERP_IE]. split_and!.
  - exact S'.
  - by apply (body_of_set_first _ _ _ _ E1).
  - change (Z.testbit d' 0 = (0 <? w.(num) nonerp)). rewrite D1. destruct Hn as [-> | ->]; done.
  - change (Z.testbit d' 1 = (0 <? w.(num) nonerp)). rewrite D2. destruct Hn as [-> | ->]; done.
  - exists x. by rewrite body_of_set_other.
  - by rewrite body_of_set_other.
  - pose proof (length_set_first _ _ [d'] l E1 ltac:(done)) as HL. cbn [length] in HL. lia.
Qed.

Lemma ht_width_byte w d : is_u8 d → is_u8 (ht_width c w d).1.
Proof.
  intros Hd. assert (is_u8 (SET_HT_OP_ELE_STA_CHL_WIDTH (SET_HT_OP_ELE_2ND_CHL_OFFSET d 0) 0) ∧
    is_u8 (SET_HT_OP_ELE_2ND_CHL_OFFSET (SET_HT_OP_ELE_STA_CHL_WIDTH d 1) 1) ∧
    is_u8 (SET_HT_OP_ELE_2ND_CHL_OFFSET (SET_HT_OP_ELE_STA_CHL_WIDTH d 1) 3)) as (H1 & H2 & H3).
  { pose proof (all_below_spec 256 (λ d,
      let a := SET_HT_OP_ELE_STA_CHL_WIDTH (SET_HT_OP_ELE_2ND_CHL_OFFSET d 0) 0 in
      let b := SET_HT_OP_ELE_2ND_CHL_OFFSET (SET_HT_OP_ELE_STA_CHL_WIDTH d 1) 1 in
      let g := SET_HT_OP_ELE_2ND_CHL_OFFSET (SET_HT_OP_ELE_STA_CHL_WIDTH d 1) 3 in
      (0 <=? a) && (a <? 256) && ((0 <=? b) && (b <? 256)) && ((0 <=? g) && (g <? 256))) d) as H.
    specialize (H ltac:(vm_compute; reflexivity) Hd). cbn zeta in H.
    rewrite !andb_true_iff, !Z.leb_le, !Z.ltb_lt in H. destruct H as [[[] []] []]. by split_and!. }
  unfold ht_width. repeat match goal with |- context [if ?b then _ else _] => destruct b end; done.
Qed.
Lemma ht_update w e h t :
  ht_option c = true → bcn_ok w.(bc) e h t →
  ∃ b, update_bcn_htinfo_ie c w = Ret (set_bc b w) ∧ bcn_ok b e w.(ht_op_mode) t.
Proof.
  intros Hht [B1 B2 B2' (fixed & l & S & (E1 & E2 & E3) & (x & X1 & X2 & X3 & X4) & T & Room)].
  unfold update_bcn_htinfo_ie. rewrite Hht, (ok_ht Hc Hht). cbn [negb Z.eqb Pos.eqb].
  destruct (poke_shows _ fixed l _HT_ADD_INFO_IE_ _ S X1) as (o & -> & Hr & Hw); [by destruct x; cbn in X2; [lia|]|]. cbn [cbind].
  rewrite (proj2 (Z.ltb_lt 0 (Z.of_nat (length x)))) by lia. rewrite Hr by lia. cbn [cbind].
  destruct (ht_width c w (x.[1])) as [d sw] eqn:W.
  assert (is_u8 (x.[1])) as Hx1.
  { destruct S as [_ Ho _ _ _]. destruct (body_of_split _ l x X1) as (l1 & l2 & -> & _).
    apply Forall_app in Ho as [_ Ho]. inversion Ho as [|? ? (_ & Hb & _) _]; subst. by apply aget_uint. }
  assert (is_u8 d) as Hd by (pose proof (ht_width_byte w (x.[1]) Hx1) as H; by rewrite W in H).
  destruct x as [|x0 [|x1 [|x2 [|x3 x]]]]; cbn [length] in X2; try lia.
  set (lo := u8 w.(ht_op_mode)). set (hi := u8 (w.(ht_op_mode) >> 8)).
  destruct (Hw [x0] [x1; x2; x3] [d; lo; hi] x) as (ies & Wr & S'); [done|done|repeat constructor; try apply Hd; apply u8_uint|].
  change [d; lo; hi] with ([d] ++ [lo; hi]) in Wr. rewrite <- buf_write_adj in Wr. cbn [length] in Wr.
  destruct (buf_write _ _ [d]) as [m| |]; [|discriminate Wr..]. cbn [cbind] in Wr |- *. rewrite Wr. cbn [cbind].
  eexists. split; [reflexivity|]. constructor; [done|done|done|].
  exists fixed, (set_first _HT_ADD_INFO_IE_ [(_HT_ADD_INFO_IE_, [x0] ++ [d; lo; hi] ++ x)] l).
  cbn [set_sw set_network network ERP_IE]. split_and!.
  - exact S'.
  - by rewrite body_of_set_other.
  - exact E2.
  - exact E3.
  - exists ([x0] ++ [d; lo; hi] ++ x). split_and!; [by apply (body_of_set_first _ _ _ _ X1)|cbn; lia|done|done].
  - by rewrite body_of_set_other.
  - pose proof (length_set_first _ _ ([x0] ++ [d; lo; hi] ++ x) l X1 ltac:(done)) as HL.
    assert (length ([x0] ++ [d; lo; hi] ++ x) = length (x0 :: x1 :: x2 :: x3 :: x)) as Hx by done. lia.
Qed.
Lemma tim_update w e h t :
  bcn_ok w.(bc) e h t → bytes w.(tim) → length w.(tim) = length t →
  ∃ b, edit_network (update_BCNTIM (kmalloc c) w.(tim)) w = Ret (set_bc b w) ∧ bcn_ok b e h w.(tim).
Proof.
  intros [B1 B2 B2' (fixed & l & S & (E1 & E2 & E3) & (x & X1 & X2 & X3 & X4) & T & Room)] Hb Hl. unfold edit_network.
  destruct (tim_body_size t B2) as [T1 T2]. pose proof (body_of_filled _ l _ T T2) as Hf.
  assert (put_tim w.(tim) l = set_first _TIM_IE_ [(_TIM_IE_, tim_body 0 1 w.(tim))] l) as Ep by (unfold put_tim; by rewrite Hf).
  pose proof (length_set_first _ _ (tim_body 0 1 w.(tim)) l T T2) as HL.
  destruct (tim_body_size w.(tim)) as [T3 T4]; [lia|].
  destruct (tim_shows (kmalloc c) (ok_mem Hc) _ fixed l w.(tim) S) as (n' & -> & S').
  { unfold tim_ready. by rewrite Hf. } { done. } { lia. }
  { apply Nat.leb_le. rewrite Ep. lia. }
  cbn [cbind]. eexists. split; [reflexivity|]. rewrite Ep in S'. constructor; [done|lia|done|].
  exists fixed, (set_first _TIM_IE_ [(_TIM_IE_, tim_body 0 1 w.(tim))] l). cbn [set_network network ERP_IE]. split_and!.
  - exact S'.
  - by rewrite body_of_set_other.
  - exact E2.
  - exact E3.
  - exists x. by rewrite body_of_set_other.
  - by apply (body_of_set_first _ _ _ _ T).
  - lia.
Qed.

(** [_update_beacon] changes the beacon only. *)
Definition sends (tx : bool) (b : bcn) : bcn :=
  Build_bcn b.(network) b.(ERP_enable) b.(ERP_IE) b.(sw_to_20mhz) true (if tx then S b.(tx_cmds) else b.(tx_cmds)).
Lemma sends_ok tx b e h t : bcn_ok b e h t → bcn_ok (sends tx b) e h t.
Proof. by intros [? ? ? ?]. Qed.
Lemma update_beacon_erp w tx e h t :
  w.(bstart_bss) = true → bcn_ok w.(bc) e h t → w.(num) nonerp = 0 ∨ w.(num) nonerp = 1 →
  ∃ b, update_beacon c _ERPINFO_IE_ tx w = Ret (set_bc b w) ∧ bcn_ok b (0 <? w.(num) nonerp) h t.
Proof.
  intros Hs B Hn. destruct (erp_update w e h t B Hn) as (b & E & B'). exists (sends tx b).
  unfold update_beacon, _update_beacon. rewrite Hs. cbn [negb].
  change ((let* w := update_bcn_erpinfo_ie w in Ret (set_bc (sends tx w.(bc)) w)) = Ret (set_bc (sends tx b) w) ∧
    bcn_ok (sends tx b) (0 <? w.(num) nonerp) h t). rewrite E. split; [done|by apply sends_ok].
Qed.
Lemma update_beacon_ht w tx e h t :
  ht_option c = true → w.(bstart_bss) = true → bcn_ok w.(bc) e h t →
  ∃ b, update_beacon c _HT_ADD_INFO_IE_ tx w = Ret (set_bc b w) ∧ bcn_ok b e w.(ht_op_mode) t.
Proof.
  intros Hht Hs B. destruct (ht_update w e h t Hht B) as (b & E & B'). exists (sends tx b).
  unfold update_beacon, _update_beacon. rewrite Hs. cbn [negb].
  change ((let* w := update_bcn_htinfo_ie c w in Ret (set_bc (sends tx w.(bc)) w)) = Ret (set_bc (sends tx b) w) ∧
    bcn_ok (sends tx b) e w.(ht_op_mode) t). rewrite E. split; [done|by apply sends_ok].
Qed.
Lemma update_beacon_tim w tx e h t :
  w.(bstart_bss) = true → bcn_ok w.(bc) e h t → bytes w.(tim) → length w.(tim) = length t →
  ∃ b, update_beacon c _TIM_IE_ tx w = Ret (set_bc b w) ∧ bcn_ok b e h w.(tim).
Proof.
  intros Hs B Hb Hl. destruct (tim_update w e h t B Hb Hl) as (b & E & B'). exists (sends tx b).
  unfold update_beacon, _update_beacon. rewrite Hs. cbn [negb].
  change ((let* w := edit_network (update_BCNTIM (kmalloc c) w.(tim)) w in Ret (set_bc (sends tx w.(bc)) w)) = Ret (set_bc (sends tx b) w) ∧
    bcn_ok (sends tx b) e h w.(tim)). rewrite E. split; [done|by apply sends_ok].
Qed.
Lemma update_beacon_none id w tx e h t :
  id = _HT_CAPABILITY_IE_ ∨ id = 0xFF → w.(bstart_bss) = true → bcn_ok w.(bc) e h t →
  ∃ b, update_beacon c id tx w = Ret (set_bc b w) ∧ bcn_ok b e h t.
Proof.
  intros Hid Hs B. exists (sends tx w.(bc)). unfold update_beacon, _update_beacon. rewrite Hs.
  destruct Hid as [-> | ->]; (split; [reflexivity|by apply sends_ok]).
Qed.

(** ** The counters *)
Definition tally (f : nat → bool) : Z := Z.of_nat (length (List.filter f (seq 0 (NUM_STA c)))).
Definition mk (w : bss) (s : nat) (m : mark) : bool := (w.(sta_of) s).(marks) m.

Lemma tally_nonneg f : 0 ≤ tally f.
Proof. unfold tally. lia. Qed.
Lemma tally_ext f g : (∀ s, f s = g s) → tally f = tally g.
Proof. intros H. unfold tally. by rewrite (List.filter_ext f g). Qed.
Lemma tally_set f g s v :
  (s < NUM_STA c)%nat → f s = negb v → (∀ s', g s' = if decide (s' = s) then v else f s') →
  tally g = tally f + (if v then 1 else -1).
Proof.
  intros Hs Hf Hg. unfold tally. assert (seq 0 (NUM_STA c) = seq 0 s ++ s :: seq (S s) (NUM_STA c - S s)) as E.
  { replace (NUM_STA c) with (s + S (NUM_STA c - S s))%nat at 1 by lia. by rewrite seq_app. }
  rewrite E, !List.filter_app, !length_app. cbn [List.filter].
  assert (∀ l, s ∉ l → List.filter g l = List.filter f l) as H.
  { intros l Hl. apply List.filter_ext_in. intros s' Hin. rewrite Hg. destruct (decide (s' = s)) as [->|]; [|done].
    by apply list_elem_of_In in Hin. }
  rewrite !H by (rewrite elem_of_seq; lia). rewrite Hf, Hg. destruct (decide (s = s)); [|done]. destruct v; cbn [negb length]; lia.
Qed.
Lemma tally_pos f s : (s < NUM_STA c)%nat → f s = true → 1 ≤ tally f.
Proof.
  intros Hs Hf. rewrite (tally_set (λ s', if decide (s' = s) then false else f s') f s true); [|done|by rewrite decide_True| ].
  - pose proof (tally_nonneg (λ s', if decide (s' = s) then false else f s')). lia.
  - intros s'. by destruct (decide (s' = s)) as [->|].
Qed.

(** What an operation on station [s] keeps: who is associated, and what the
    stations asked for. *)
Definition req (a : asta) : Z * Z * Z * Z := (a.(flags), a.(capability), a.(ht_cap_info), a.(aid)).
Record frame (w w' : bss) : Prop := {
  f_asoc : w'.(asoc) = w.(asoc);
  f_olbc : w'.(olbc_ht) = w.(olbc_ht);
  f_req : ∀ s, req (w'.(sta_of) s) = req (w.(sta_of) s)
}.
#[local] Instance frame_preorder : PreOrder frame.
Proof.
  split; [by constructor|]. intros x y z [A1 A2 A3] [B1 B2 B3]. constructor; [congruence|congruence|]. intros s. by rewrite B3, A3.
Qed.

Record sound (w : bss) : Prop := {
  s_start : w.(bstart_bss) = true;
  s_num : ∀ m, w.(num) m = tally (λ s, mk w s m);
  s_op : is_u16 w.(ht_op_mode);
  s_bcn : bcn_ok w.(bc) (0 <? w.(num) nonerp) w.(ht_op_mode) w.(tim)
}.

Lemma fupd_eq {A B} `{EqDecision A} (a : A) (b : B) f : fupd a b f a = b.
Proof. unfold fupd. by rewrite decide_True. Qed.
Lemma fupd_ne {A B} `{EqDecision A} (a a' : A) (b : B) f : a' ≠ a → fupd a b f a' = f a'.
Proof. intros. unfold fupd. by rewrite decide_False. Qed.
Lemma mk_put m v s w s' m' : mk (put_mark m v s w) s' m' = if decide (s' = s ∧ m' = m) then v else mk w s' m'.
Proof.
  unfold mk, put_mark, set_stas. cbn [sta_of]. unfold fupd at 1. destruct (decide (s' = s)) as [->|Hs].
  - unfold set_marks. cbn [marks]. unfold fupd. destruct (decide (m' = m)), (decide (s = s ∧ m' = m)); tauto.
  - rewrite decide_False by tauto. done.
Qed.
Lemma frame_put m v s w : frame w (put_mark m v s w).
Proof.
  constructor; [done|done|]. intros s'. unfold put_mark, set_stas. cbn [sta_of]. unfold fupd at 1. by destruct (decide (s' = s)) as [->|].
Qed.

(** [set_mark] on the counters: it keeps them exact, and says when the first
    station with the mark came or the last one went. *)
Record marked (m : mark) (v : bool) (s : nat) (w w' : bss) (x : bool) : Prop := {
  m_frame : frame w w';
  m_start : w'.(bstart_bss) = w.(bstart_bss);
  m_bc : w'.(bc) = w.(bc);
  m_op : w'.(ht_op_mode) = w.(ht_op_mode);
  m_tim : w'.(tim) = w.(tim);
  m_mk : ∀ s' m', mk w' s' m' = if decide (s' = s ∧ m' = m) then v else mk w s' m';
  m_num : ∀ m', w'.(num) m' = tally (λ s, mk w' s m');
  m_cross : if x then w'.(num) m = (if v then 1 else 0) else (0 <? w'.(num) m) = (0 <? w.(num) m)
}.
Lemma set_mark_marked m v s w :
  (∀ m, w.(num) m = tally (λ s, mk w s m)) → (s < NUM_STA c)%nat →
  marked m v s w (set_mark m v s w).1 (set_mark m v s w).2.
Proof.
  intros Hn Hs. unfold set_mark. fold (mk w s m). destruct (Bool.eqb (mk w s m) v) eqn:E; cbn [fst snd].
  - apply Bool.eqb_prop in E. constructor; [done..| | |done]; [|done].
    intros s' m'. destruct (decide (s' = s ∧ m' = m)) as [[-> ->]|]; done.
  - apply Bool.eqb_false_iff in E. set (w1 := set_num _ w).
    assert (mk w s m = negb v) as Ev by (by destruct (mk w s m), v).
    assert (∀ m', w1.(num) m' = tally (λ s', mk (put_mark m v s w1) s' m')) as Hnum.
    { intros m'. cbn [num w1 set_num]. destruct (decide (m' = m)) as [->|Hm].
      - rewrite fupd_eq, Hn. symmetry. apply (tally_set _ _ s); [done|done|].
        intros s'. rewrite mk_put. destruct (decide (s' = s)), (decide (s' = s ∧ m = m)); tauto.
      - rewrite fupd_ne, Hn by done. apply tally_ext. intros s'. rewrite mk_put, decide_False by tauto. done. }
    constructor; [|done|done|done|done| |done|].
    + transitivity w1; [by constructor|apply frame_put].
    + intros s' m'. by rewrite mk_put.
    + change (num (put_mark m v s w1)) with (num w1). cbn [num w1 set_num]. rewrite fupd_eq.
      pose proof (Hn m) as Hm. pose proof (tally_nonneg (λ s, mk w s m)).
      destruct (Z.eqb_spec (num w m + (if v then 1 else -1)) (if v then 1 else 0)) as [H1|H1]; [done|].
      destruct v.
      * rewrite !(proj2 (Z.ltb_lt _ _)) by lia. done.
      * pose proof (tally_pos (λ s, mk w s m) s Hs Ev). rewrite !(proj2 (Z.ltb_lt _ _)) by lia. done.
Qed.

(** *** The operation mode *)
Lemma BIT_pow n : 0 ≤ n → BIT n = 2 ^ n.
Proof. intros. unfold BIT. by rewrite Z.shiftl_1_l. Qed.
Lemma has_bit v n : 0 ≤ n → has v (BIT n) = Z.testbit v n.
Proof. intros. unfold has. by rewrite BIT_pow, land_bit_eqb, negb_involutive. Qed.
Lemma land_lnot_u16 op k : is_u16 op → 0 ≤ k → u16 (op .& Z.lnot k) = op .& Z.lnot k ∧ is_u16 (op .& Z.lnot k).
Proof. intros H Hk. assert (is_u16 (op .& Z.lnot k)) by (apply uint_land_l; [lia|done]). by rewrite u16_id. Qed.

Record flipped (op op' n : Z) (v : bool) (ch : Z) : Prop := {
  fl_u16 : is_u16 op';
  fl_bit : Z.testbit op' n = v;
  fl_other : ∀ i, 0 ≤ i → i ≠ n → Z.testbit op' i = Z.testbit op i;
  fl_ch : 0 ≤ ch ∧ (ch = 0 → op' = op)
}.
Lemma flip_bit_spec op n v :
  is_u16 op → 0 ≤ n < 16 → flipped op (flip_bit op (BIT n) v).1 n v (flip_bit op (BIT n) v).2.
Proof.
  intros Hop Hn. unfold flip_bit. rewrite has_bit by lia. destruct (Z.testbit op n) eqn:E, v; cbn [negb andb fst snd].
  - by constructor.
  - assert (0 ≤ BIT n) by (rewrite BIT_pow by lia; apply Z.pow_nonneg; lia).
    destruct (land_lnot_u16 op (BIT n) Hop) as [-> Hu]; [done|]. rewrite <- Z.ldiff_land in *. constructor; [done| | |lia].
    + rewrite BIT_pow, <- Z.clearbit_spec' by lia. apply Z.clearbit_eq.
    + intros i Hi Hne. rewrite BIT_pow, <- Z.clearbit_spec' by lia. by apply Z.clearbit_neq.
  - constructor; [| | |lia].
    + apply uint_lor; [lia|done|]. rewrite BIT_pow by lia. split; [apply Z.pow_nonneg; lia|apply Z.pow_lt_mono_r; lia].
    + rewrite BIT_pow, <- Z.setbit_spec' by lia. apply Z.setbit_eq. lia.
    + intros i Hi Hne. rewrite BIT_pow, <- Z.setbit_spec' by lia. apply Z.setbit_neq; lia.
  - by constructor.
Qed.
Lemma mode_spec op m :
  is_u16 op → 0 ≤ m < 4 →
  let op' := u16 (op .& Z.lnot 3) .| m in
  is_u16 op' ∧ op' .& 3 = m ∧ ∀ i, 2 ≤ i → Z.testbit op' i = Z.testbit op i.
Proof.
  intros Hop Hm op'. unfold op'. destruct (land_lnot_u16 op 3 Hop) as [-> Hu]; [lia|]. split_and!.
  - apply uint_lor; [lia|done|split; lia].
  - rewrite Z.land_lor_distr_l, <- Z.land_assoc. change (Z.lnot 3 .& 3) with 0. rewrite Z.land_0_r, Z.lor_0_l.
    change 3 with (Z.ones 2). apply uint_id; [lia|split; lia].
  - intros i Hi. rewrite Z.lor_spec, Z.land_spec, Z.lnot_spec by lia.
    rewrite (uint_testbit 2 3 i), (uint_testbit 2 m i) by (done || split; lia). by rewrite andb_true_r, orb_false_r.
Qed.

(** The mode that the comment on [rtw_ht_operation_update] defines, from the
    stations themselves. *)
Definition present (w : bss) (m : mark) : bool := existsb (λ s, mk w s m) (seq 0 (NUM_STA c)).
Definition op_mode_spec (w : bss) : Z :=
  if present w no_ht then OP_MODE_MIXED
  else if has (ap_cap_info c) IEEE80211_HT_CAP_SUP_WIDTH && present w ht_20mhz then OP_MODE_20MHZ_HT_STA_ASSOCED
  else if w.(olbc_ht) then OP_MODE_MAY_BE_LEGACY_STAS
  else OP_MODE_PURE.
Definition op_exact (w : bss) : Prop :=
  w.(ht_op_mode) .& HT_INFO_OPERATION_MODE_OP_MODE_MASK = op_mode_spec w ∧
  has w.(ht_op_mode) HT_INFO_OPERATION_MODE_NON_GF_DEVS_PRESENT = present w no_ht_gf ∧
  has w.(ht_op_mode) HT_INFO_OPERATION_MODE_NON_HT_STA_PRESENT = present w no_ht || w.(olbc_ht).

Lemma tally_present f : negb (tally f =? 0) = existsb f (seq 0 (NUM_STA c)).
Proof.
  unfold tally. generalize (seq 0 (NUM_STA c)). induction l as [|s l IH]; [done|]. cbn [List.filter existsb].
  destruct (f s); [|exact IH]. cbn [length orb]. rewrite (proj2 (Z.eqb_neq _ _)) by lia. done.
Qed.
Lemma ht_operation_spec w :
  (∀ m, w.(num) m = tally (λ s, mk w s m)) → is_u16 w.(ht_op_mode) → ht_option c = true →
  ∃ op ch, rtw_ht_operation_update c w = (set_op op w, ch) ∧ is_u16 op ∧ 0 ≤ ch ∧ (ch = 0 → op = w.(ht_op_mode)) ∧
    op_exact (set_op op w).
Proof.
  intros Hn Hop Hht. unfold rtw_ht_operation_update. rewrite Hht. cbn [negb].
  assert (∀ m, negb (w.(num) m =? 0) = present w m) as Hp by (intros m; rewrite Hn; apply tally_present). rewrite !Hp.
  assert (new_op_mode c w = op_mode_spec w) as Hmode by (unfold new_op_mode, op_mode_spec; by rewrite !Hp). rewrite !Hmode.
  assert (0 ≤ op_mode_spec w < 4) as Hr.
  { unfold op_mode_spec. repeat match goal with |- context [if ?b then _ else _] => destruct b end; split; reflexivity || discriminate. }
  pose proof (flip_bit_spec w.(ht_op_mode) 2 (present w no_ht_gf) Hop ltac:(lia)) as F1.
  change (BIT 2) with HT_INFO_OPERATION_MODE_NON_GF_DEVS_PRESENT in F1.
  destruct (flip_bit w.(ht_op_mode) HT_INFO_OPERATION_MODE_NON_GF_DEVS_PRESENT _) as [op1 c1]. cbn [fst snd] in F1.
  destruct F1 as [U1 B1 O1 [P1 P1']].
  pose proof (flip_bit_spec op1 4 (present w no_ht || w.(olbc_ht)) U1 ltac:(lia)) as F2.
  change (BIT 4) with HT_INFO_OPERATION_MODE_NON_HT_STA_PRESENT in F2.
  destruct (flip_bit op1 HT_INFO_OPERATION_MODE_NON_HT_STA_PRESENT _) as [op2 c2]. cbn [fst snd] in F2.
  destruct F2 as [U2 B2 O2 [P2 P2']].
  assert (∃ op c3, (if op2 .& HT_INFO_OPERATION_MODE_OP_MODE_MASK =? op_mode_spec w then (op2, 0)
      else (u16 (op2 .& Z.lnot HT_INFO_OPERATION_MODE_OP_MODE_MASK) .| op_mode_spec w, 1)) = (op, c3) ∧
    is_u16 op ∧ op .& 3 = op_mode_spec w ∧ (∀ i, 2 ≤ i → Z.testbit op i = Z.testbit op2 i) ∧ 0 ≤ c3 ∧ (c3 = 0 → op = op2))
    as (op & c3 & -> & U3 & M3 & O3 & P3 & P3').
  { unfold HT_INFO_OPERATION_MODE_OP_MODE_MASK. destruct (Z.eqb_spec (op2 .& 3) (op_mode_spec w)) as [E|E].
    - exists op2, 0. by split_and!.
    - destruct (mode_spec op2 (op_mode_spec w) U2 Hr) as (M1 & M2 & M3). eexists _, 1. split; [reflexivity|].
      split_and!; [done|done|done|lia|lia]. }
  exists op, (c1 + c2 + c3). split; [done|]. split_and!; [done|lia|intros; rewrite P3', P2', P1' by lia; done|].
  split_and!; [exact M3| |]; unfold HT_INFO_OPERATION_MODE_NON_GF_DEVS_PRESENT, HT_INFO_OPERATION_MODE_NON_HT_STA_PRESENT;
    rewrite has_bit by lia; cbn [ht_op_mode set_op].
  - rewrite O3, O2 by lia. exact B1.
  - rewrite O3 by lia. exact B2.
Qed.

(** ** Every operation keeps the invariant *)

(** An operation on [w] ends in [w'] with the marks [f]. *)
Record went (w w' : bss) (f : nat → mark → bool) : Prop := {
  g_sound : sound w';
  g_frame : frame w w';
  g_mk : ∀ s m, mk w' s m = f s m
}.
Definition ov (m : mark) (v : bool) (s : nat) (f : nat → mark → bool) : nat → mark → bool :=
  λ s' m', if decide (s' = s ∧ m' = m) then v else f s' m'.
Lemma went_refl w : sound w → went w w (mk w).
Proof. intros. by constructor. Qed.
Lemma went_trans w w1 w2 f g : went w w1 f → went w1 w2 g → (∀ s m, g s m = f s m) → went w w2 f.
Proof. intros [A1 A2 A3] [B1 B2 B3] H. constructor; [done|by transitivity w1|]. intros. by rewrite B3, H. Qed.

Lemma num_of_mk w w' m : (∀ m, w.(num) m = tally (λ s, mk w s m)) → (∀ m, w'.(num) m = tally (λ s, mk w' s m)) →
  (∀ s, mk w' s m = mk w s m) → w'.(num) m = w.(num) m.
Proof. intros H H' E. rewrite H, H'. by apply tally_ext. Qed.
Lemma set_mark_went m v s w :
  sound w → (s < NUM_STA c)%nat → m ≠ nonerp → went w (set_mark m v s w).1 (ov m v s (mk w)) ∧ (set_mark m v s w).1.(tim) = w.(tim).
Proof.
  intros S Hs Hm. destruct S as [S1 S2 S3 S4]. destruct (set_mark_marked m v s w S2 Hs) as [M1 M2 M3 M4 M5 M6 M7 _].
  split; [|done]. constructor; [|done|exact M6].
  assert ((set_mark m v s w).1.(num) nonerp = w.(num) nonerp) as E.
  { apply num_of_mk; [done|done|]. intros s'. rewrite M6, decide_False; [done|]. intros [_ ?]. congruence. }
  constructor; [by rewrite M2|done|by rewrite M4|]. by rewrite M3, M4, M5, E.
Qed.
(** The mark that the ERP element announces. *)
Lemma nonerp_went v s w :
  sound w → (s < NUM_STA c)%nat →
  ∃ w', (if (set_mark nonerp v s w).2 then update_beacon c _ERPINFO_IE_ false (set_mark nonerp v s w).1
         else Ret (set_mark nonerp v s w).1) = Ret w' ∧ went w w' (ov nonerp v s (mk w)) ∧ w'.(tim) = w.(tim).
Proof.
  intros [S1 S2 S3 S4] Hs. destruct (set_mark_marked nonerp v s w S2 Hs) as [M1 M2 M3 M4 M5 M6 M7 M8].
  destruct (set_mark nonerp v s w) as [w1 x]. cbn [fst snd] in *. rewrite <- M3, <- M4, <- M5 in S4. destruct x.
  - destruct (update_beacon_erp w1 false _ _ _ ltac:(by rewrite M2) S4) as (b & -> & B).
    { rewrite M8. destruct v; tauto. }
    exists (set_bc b w1). split; [done|]. split; [|exact M5]. constructor; [|by destruct M1; constructor|exact M6].
    constructor; [by rewrite <- S1, <- M2|done|change (is_u16 w1.(ht_op_mode)); by rewrite M4|exact B].
  - exists w1. split; [done|]. split; [|exact M5]. constructor; [|done|exact M6].
    constructor; [by rewrite M2|done|by rewrite M4|by rewrite M8].
Qed.
Lemma update_went id tx w :
  id = _HT_CAPABILITY_IE_ ∨ id = 0xFF → sound w →
  ∃ w', update_beacon c id tx w = Ret w' ∧ went w w' (mk w) ∧ w'.(ht_op_mode) = w.(ht_op_mode) ∧ w'.(tim) = w.(tim).
Proof.
  intros Hid [S1 S2 S3 S4]. destruct (update_beacon_none id w tx _ _ _ Hid S1 S4) as (b & -> & B).
  exists (set_bc b w). split; [done|]. split; [|done]. constructor; [by constructor|by constructor|done].
Qed.
Lemma ht_changed_gen w (f : bss → cres bss) :
  sound w →
  (∀ w1 h, bcn_ok w1.(bc) (0 <? w1.(num) nonerp) h w1.(tim) → w1.(bstart_bss) = true → ht_option c = true →
    ∃ b, f w1 = Ret (set_bc b w1) ∧ bcn_ok b (0 <? w1.(num) nonerp) w1.(ht_op_mode) w1.(tim)) →
  ∃ w', (let '(w, changes) := rtw_ht_operation_update c w in
         if 0 <? changes then let* w := f w in Ret (w, true) else Ret (w, false)) =
        Ret (w', 0 <? (rtw_ht_operation_update c w).2) ∧
    went w w' (mk w) ∧ w'.(tim) = w.(tim) ∧ (ht_option c = true → op_exact w').
Proof.
  intros [S1 S2 S3 S4] Hf. destruct (ht_option c) eqn:Hht.
  - destruct (ht_operation_spec w S2 S3 Hht) as (op & ch & -> & U & P & P' & X). cbn [snd].
    destruct (Z.ltb_spec 0 ch) as [Hch|Hch].
    + destruct (Hf (set_op op w) _ S4 S1 eq_refl) as (b & -> & B). cbn [cbind]. exists (set_bc b (set_op op w)).
      split; [done|]. split; [constructor; [by constructor|by constructor|done]|]. split; [done|]. intros _. exact X.
    + exists (set_op op w). split; [done|]. rewrite P' in * by lia. split; [constructor; [by constructor|by constructor|done]|]. split; [done|]. intros _. exact X.
  - unfold rtw_ht_operation_update. rewrite Hht. exists w. split; [done|]. split; [constructor; [by constructor|by constructor|done]|]. split; [done|]. done.
Qed.
Lemma ht_beacons tx w1 h :
  bcn_ok w1.(bc) (0 <? w1.(num) nonerp) h w1.(tim) → w1.(bstart_bss) = true → ht_option c = true →
  ∃ b, (let* w := update_beacon c _HT_CAPABILITY_IE_ false w1 in update_beacon c _HT_ADD_INFO_IE_ tx w) = Ret (set_bc b w1) ∧
    bcn_ok b (0 <? w1.(num) nonerp) w1.(ht_op_mode) w1.(tim).
Proof.
  intros B Hs Hht. destruct (update_beacon_none _HT_CAPABILITY_IE_ w1 false _ _ _ ltac:(by left) Hs B) as (b1 & -> & B1). cbn [cbind].
  destruct (update_beacon_ht (set_bc b1 w1) tx _ _ _ Hht Hs B1) as (b2 & -> & B2). by exists b2.
Qed.
Lemma ht_changed_went w :
  sound w → ∃ w' x, ht_changed c w = Ret (w', x) ∧ went w w' (mk w) ∧ w'.(tim) = w.(tim) ∧ (ht_option c = true → op_exact w').
Proof.
  intros S. destruct (ht_changed_gen w _ S (ht_beacons false)) as (w' & E & G). exists w', (0 <? (rtw_ht_operation_update c w).2).
  split; [|exact G]. rewrite <- E. unfold ht_changed. destruct (rtw_ht_operation_update c w) as [w1 ch]. destruct (0 <? ch); [|done].
  by destruct (update_beacon c _HT_CAPABILITY_IE_ false w1).
Qed.
Lemma ht_changed_tx_went w :
  sound w → ∃ w', ht_changed_tx c w = Ret w' ∧ went w w' (mk w) ∧ w'.(tim) = w.(tim) ∧ (ht_option c = true → op_exact w').
Proof.
  intros S. destruct (ht_changed_gen w _ S (ht_beacons true)) as (w' & E & G). exists w'. split; [|exact G].
  unfold ht_changed_tx. revert E. destruct (rtw_ht_operation_update c w) as [w1 ch]. cbn [snd]. destruct (0 <? ch); [|by intros [= ->]].
  destruct (let* w := update_beacon c _HT_CAPABILITY_IE_ false w1 in update_beacon c _HT_ADD_INFO_IE_ true w) as [w2| |]; [|done..].
  cbn [cbind]. by intros [= ->].
Qed.

(** Updating the associated stations leaves their marks alone. *)
Lemma stainfo_update_went ty w s : sound w → went w (associated_stainfo_update c ty w s) (mk w) ∧
  (associated_stainfo_update c ty w s).(tim) = w.(tim) ∧ (associated_stainfo_update c ty w s).(ht_op_mode) = w.(ht_op_mode).
Proof.
  intros S. assert (∀ w a, sound w → req a = req (w.(sta_of) s) → a.(marks) = (w.(sta_of) s).(marks) →
    went w (set_stas (fupd s a w.(sta_of)) w) (mk w)) as G.
  { intros w0 a [S1 S2 S3 S4] Hr Hm. set (w1 := set_stas _ w0).
    assert (∀ s' m, mk w1 s' m = mk w0 s' m) as Hmk.
    { intros s' m. unfold mk, w1, set_stas, fupd. cbn [sta_of]. by destruct (decide (s' = s)) as [->|]; [rewrite Hm|]. }
    constructor; [|constructor; [done|done|]|exact Hmk].
    - constructor; [done| |done|done]. intros m. change (num w1) with (num w0). rewrite S2. apply tally_ext. intros s'. by rewrite Hmk.
    - intros s'. unfold w1, set_stas, fupd. cbn [sta_of]. by destruct (decide (s' = s)) as [->|]. }
  unfold associated_stainfo_update. set (w1 := if _ && _ then _ else _).
  assert (went w w1 (mk w) ∧ w1.(tim) = w.(tim) ∧ w1.(ht_op_mode) = w.(ht_op_mode)) as (G1 & T1 & O1).
  { unfold w1. destruct (_ && _); [|split; [by apply went_refl|done]]. split; [by apply G|done]. }
  destruct (has ty STA_INFO_UPDATE_PROTECTION_MODE); [|done]. unfold VCS_update.
  match goal with |- context [let '(r, k) := ?p in _] => destruct p as [r k] end. split; [|done].
  eapply went_trans; [exact G1|apply G; [apply G1|done|done]|]. intros. apply G1.
Qed.
Lemma clients_went up ty w : sound w → went w (associated_clients_update c up ty w) (mk w) ∧
  (associated_clients_update c up ty w).(tim) = w.(tim) ∧ (associated_clients_update c up ty w).(ht_op_mode) = w.(ht_op_mode).
Proof.
  intros S. unfold associated_clients_update. destruct up; [|split; [by apply went_refl|done]].
  generalize (asoc w). intros l. revert w S. induction l as [|s l IH]; intros w S; cbn [fold_left]; [split; [by apply went_refl|done]|].
  destruct (stainfo_update_went ty w s S) as (G & T & O). destruct (IH _ (g_sound _ _ _ G)) as (G' & T' & O').
  split; [|by rewrite T', O']. eapply went_trans; [exact G|exact G'|]. intros. apply G.
Qed.

Lemma op_exact_eq w w' f :
  went w w' f → (∀ s m, f s m = mk w s m) → w'.(ht_op_mode) = w.(ht_op_mode) → op_exact w → op_exact w'.
Proof.
  intros [_ F M] Hf O. assert (∀ m, present w' m = present w m) as Hp.
  { intros m. unfold present. generalize (seq 0 (NUM_STA c)). induction l as [|s l IH]; [done|]. cbn [existsb]. by rewrite IH, M, Hf. }
  unfold op_exact, op_mode_spec. rewrite !Hp, O, (f_olbc _ _ F). done.
Qed.

(** The marks of [s] say what it asked for when it joined. *)
Definition ht_on : bool := ht_enable c && is_supported_ht c.
Record told (w : bss) (s : nat) : Prop := {
  t_preamble : mk w s no_short_preamble = negb (has (w.(sta_of) s).(flags) WLAN_STA_SHORT_PREAMBLE);
  t_nonerp : mk w s nonerp = has (w.(sta_of) s).(flags) WLAN_STA_NONERP;
  t_slot : mk w s no_short_slot_time = negb (has (w.(sta_of) s).(capability) WLAN_CAPABILITY_SHORT_SLOT);
  t_ht : ht_on = true → mk w s no_ht = negb (has (w.(sta_of) s).(flags) WLAN_STA_HT)
}.
Lemma told_eq w w' s : (∀ m, m ≠ ht_40mhz_intolerant → mk w' s m = mk w s m) → frame w w' → told w s → told w' s.
Proof.
  intros M F [T1 T2 T3 T4]. pose proof (f_req _ _ F s) as [= R1 R2 _ _]. constructor; rewrite M, ?R1, ?R2 by done; done.
Qed.

Ltac mk_solve := unfold ov; repeat match goal with |- context [decide ?P] =>
  first [rewrite (decide_True (P := P)) by (split; congruence) | rewrite (decide_False (P := P)) by (intros [? ?]; congruence)] end.

(** The HT part of a join. *)
Lemma join_ht_went s w :
  sound w → (s < NUM_STA c)%nat →
  ∃ f, went w (join_ht s w) f ∧ (join_ht s w).(tim) = w.(tim) ∧ (∀ s' m, s' ≠ s → f s' m = mk w s' m) ∧
    (∀ m, m = no_short_preamble ∨ m = nonerp ∨ m = no_short_slot_time → f s m = mk w s m) ∧
    f s no_ht = negb (has (w.(sta_of) s).(flags) WLAN_STA_HT).
Proof.
  intros S Hs. unfold join_ht. destruct (has (flags (sta_of w s)) WLAN_STA_HT).
  - assert (∀ (b : bool) m w1 f, went w w1 f → w1.(tim) = w.(tim) → m ≠ nonerp →
      ∃ w2 f', (if b then (set_mark m true s w1).1 else w1) = w2 ∧ went w w2 f' ∧ w2.(tim) = w.(tim) ∧
        (∀ s' m', s' ≠ s ∨ m' ≠ m → f' s' m' = f s' m')) as Go.
    { intros b m w1 f G T Hm. destruct b.
      - destruct (set_mark_went m true s w1 (g_sound _ _ _ G) Hs Hm) as [G1 T1]. exists (set_mark m true s w1).1, (ov m true s f).
        split; [done|]. split_and!; [|congruence|].
        + constructor; [apply G1|etransitivity; [apply G|apply G1]|]. intros s' m'. rewrite (g_mk _ _ _ G1). unfold ov.
          destruct (decide _); [done|apply G].
        + intros s' m' Hne. unfold ov. by rewrite decide_False by (intros [? ?]; tauto).
      - exists w1, f. by split_and!. }
    destruct (set_mark_went no_ht false s w S Hs ltac:(done)) as [G1 T1].
    assert (∀ (b : bool) (x y : bss), (if b then x else y) = (if negb b then y else x)) as Hneg by (by intros []).
    rewrite (Hneg (has _ IEEE80211_HT_CAP_GRN_FLD)), (Hneg (has _ IEEE80211_HT_CAP_SUP_WIDTH)).
    destruct (Go (negb (has (ht_cap_info (sta_of w s)) IEEE80211_HT_CAP_GRN_FLD)) no_ht_gf _ _ G1 T1) as (w2 & f2 & -> & G2 & T2 & M2); [done|].
    destruct (Go (negb (has (ht_cap_info (sta_of w s)) IEEE80211_HT_CAP_SUP_WIDTH)) ht_20mhz _ _ G2 T2) as (w3 & f3 & -> & G3 & T3 & M3); [done|].
    destruct (Go (has (ht_cap_info (sta_of w s)) RTW_IEEE80211_HT_CAP_40MHZ_INTOLERANT) ht_40mhz_intolerant _ _ G3 T3)
      as (w4 & f4 & -> & G4 & T4 & M4); [done|].
    exists f4. split_and!; [done|done| | |].
    + intros s' m Hne. rewrite M4, M3, M2 by (by left). by mk_solve.
    + intros m Hm. rewrite M4, M3, M2 by (right; destruct Hm as [->|[->| ->]]; done). destruct Hm as [->|[->| ->]]; by mk_solve.
    + rewrite M4, M3, M2 by (by right). by mk_solve.
  - destruct (set_mark_went no_ht true s w S Hs ltac:(done)) as [G1 T1]. exists (ov no_ht true s (mk w)).
    split_and!; [done|done| | |].
    + intros s' m Hne. by mk_solve.
    + intros m Hm. destruct Hm as [->|[->| ->]]; by mk_solve.
    + by mk_solve.
Qed.

(** The end of a join and of a leave: the beacon is sent and the associated
    stations are updated. *)
Lemma announce_went (up : bool) w :
  sound w → ∃ w', (if up then update_beacon c 0xFF true w else Ret w) = Ret w' ∧ went w w' (mk w) ∧
    w'.(ht_op_mode) = w.(ht_op_mode) ∧ w'.(tim) = w.(tim).
Proof.
  intros S. destruct up; [apply update_went; [by right|done]|]. exists w. split; [done|]. split; [by apply went_refl|done].
Qed.

Record joined (s : nat) (w w' : bss) : Prop := {
  j_sound : sound w';
  j_frame : frame w w';
  j_tim : w'.(tim) = w.(tim);
  j_others : ∀ s' m, s' ≠ s → mk w' s' m = mk w s' m;
  j_told : told w' s;
  j_op : ht_on = true → ht_option c = true → op_exact w'
}.
Lemma join_joined s w :
  sound w → (s < NUM_STA c)%nat → ∃ w', bss_cap_update_on_sta_join c s w = Ret w' ∧ joined s w w'.
Proof.
  intros S Hs. unfold bss_cap_update_on_sta_join. set (a := sta_of w s).
  pose proof (set_mark_went no_short_preamble (negb (has a.(flags) WLAN_STA_SHORT_PREAMBLE)) s w S Hs ltac:(done)) as [G1 T1].
  destruct (set_mark no_short_preamble _ s w) as [w1 x1]. cbn [fst] in G1, T1.
  destruct (nonerp_went (has a.(flags) WLAN_STA_NONERP) s w1 (g_sound _ _ _ G1) Hs) as (w2 & E2 & G2 & T2).
  destruct (set_mark nonerp _ s w1) as [w2' x2]. cbn [fst snd] in E2. rewrite E2. cbn [cbind]. clear E2.
  pose proof (set_mark_went no_short_slot_time (negb (has a.(capability) WLAN_CAPABILITY_SHORT_SLOT)) s w2 (g_sound _ _ _ G2) Hs ltac:(done))
    as [G3 T3].
  destruct (set_mark no_short_slot_time _ s w2) as [w3 x3]. cbn [fst] in G3, T3.
  assert (∃ w4 x4, (if ht_enable c && is_supported_ht c then ht_changed c (join_ht s w3) else Ret (w3, false)) = Ret (w4, x4) ∧
    sound w4 ∧ frame w3 w4 ∧ w4.(tim) = w3.(tim) ∧ (∀ s' m, s' ≠ s → mk w4 s' m = mk w3 s' m) ∧
    (∀ m, m = no_short_preamble ∨ m = nonerp ∨ m = no_short_slot_time → mk w4 s m = mk w3 s m) ∧
    (ht_on = true → mk w4 s no_ht = negb (has (w3.(sta_of) s).(flags) WLAN_STA_HT)) ∧
    (ht_on = true → ht_option c = true → op_exact w4)) as (w4 & x4 & -> & S4 & F4 & T4 & O4 & M4 & N4 & X4).
  { fold ht_on. destruct ht_on.
    - destruct (join_ht_went s w3 (g_sound _ _ _ G3) Hs) as (f & G & T & J1 & J2 & J3).
      destruct (ht_changed_went (join_ht s w3) (g_sound _ _ _ G)) as (w4 & x4 & -> & G4 & T4 & X4). exists w4, x4.
      assert (∀ s' m, mk w4 s' m = f s' m) as Hmk by (intros; rewrite (g_mk _ _ _ G4); apply G).
      split_and!; [done|apply G4|etransitivity; [apply G|apply G4]|congruence| | | |done].
      + intros. rewrite Hmk. by apply J1.
      + intros. rewrite Hmk. by apply J2.
      + intros _. by rewrite Hmk.
    - exists w3, false. split_and!; try done. apply G3. }
  cbn [cbind]. set (up := _ || x4). destruct (announce_went up w4 S4) as (w6 & -> & G6 & P6 & T6). cbn [cbind].
  destruct (clients_went up STA_INFO_UPDATE_ALL w6 (g_sound _ _ _ G6)) as (G7 & T7 & P7).
  eexists. split; [reflexivity|]. set (w7 := associated_clients_update _ _ _ _) in *.
  assert (frame w w7) as F by (etransitivity; [apply G1|]; etransitivity; [apply G2|]; etransitivity; [apply G3|];
    etransitivity; [apply F4|]; etransitivity; [apply G6|apply G7]).
  assert (∀ s' m, mk w7 s' m = mk w4 s' m) as M7 by (intros; rewrite (g_mk _ _ _ G7); apply G6).
  pose proof (f_req _ _ F s) as [= R1 R2 _ _]. fold a in R1, R2.
  assert (flags (sta_of w3 s) = a.(flags)) as R3.
  { pose proof (f_req _ _ (g_frame _ _ _ G3) s) as [= Q3 _ _ _]. pose proof (f_req _ _ (g_frame _ _ _ G2) s) as [= Q2 _ _ _].
    pose proof (f_req _ _ (g_frame _ _ _ G1) s) as [= Q1 _ _ _]. unfold a. congruence. }
  constructor.
  - apply G7.
  - exact F.
  - congruence.
  - intros s' m Hne. rewrite M7, O4, (g_mk _ _ _ G3) by done. mk_solve. rewrite (g_mk _ _ _ G2). mk_solve. rewrite (g_mk _ _ _ G1). by mk_solve.
  - constructor; rewrite M7, ?R1, ?R2.
    + rewrite M4, (g_mk _ _ _ G3) by tauto. mk_solve. rewrite (g_mk _ _ _ G2). mk_solve. rewrite (g_mk _ _ _ G1). by mk_solve.
    + rewrite M4, (g_mk _ _ _ G3) by tauto. mk_solve. rewrite (g_mk _ _ _ G2). by mk_solve.
    + rewrite M4, (g_mk _ _ _ G3) by tauto. by mk_solve.
    + intros H. rewrite N4, R3 by done. done.
  - intros H1 H2. apply (op_exact_eq w6 w7 _ G7); [done|done|]. apply (op_exact_eq w4 w6 _ G6); [done|done|]. by apply X4.
Qed.

(** *** The bitmap and its element *)
Lemma length_bmp_clear bmp id : length (rtw_bmp_clear bmp id) = length bmp.
Proof. unfold rtw_bmp_clear. destruct (_ <? _)%nat; [by rewrite length_insert|done]. Qed.
Lemma length_bmp_set bmp id : length (rtw_bmp_set bmp id) = length bmp.
Proof. unfold rtw_bmp_set. destruct (_ <? _)%nat; [by rewrite length_insert|done]. Qed.
Lemma bytes_bmp_clear bmp id : bytes bmp → bytes (rtw_bmp_clear bmp id).
Proof.
  intros H. unfold rtw_bmp_clear. destruct (_ <? _)%nat; [|done]. apply Forall_insert; [done|].
  apply uint_land_l; [lia|]. by apply aget_uint.
Qed.
Lemma bytes_bmp_set bmp id : bytes bmp → bytes (rtw_bmp_set bmp id).
Proof.
  intros H. unfold rtw_bmp_set. destruct (_ <? _)%nat; [|done]. apply Forall_insert; [done|].
  apply uint_lor; [lia|by apply aget_uint|]. pose proof (Z.mod_pos_bound (u8 id) 8 ltac:(lia)).
  rewrite BIT_pow by lia. split; [apply Z.pow_nonneg; lia|]. apply Z.pow_lt_mono_r; lia.
Qed.
(** Setting a set bit and clearing a clear one change nothing. *)
Lemma bmp_write_same bmp id (v : bool) :
  rtw_bmp_is_set bmp id = v → (if v then rtw_bmp_set bmp id else rtw_bmp_clear bmp id) = bmp.
Proof.
  rewrite bmp_is_set_spec. pose proof (Z.mod_pos_bound (u8 id) 8 ltac:(lia)) as Hm. set (i := Z.to_nat (u8 id / 8)). set (n := u8 id mod 8) in *.
  unfold rtw_bmp_set, rtw_bmp_clear. fold i n. destruct (Nat.ltb_spec i (length bmp)) as [Hi|Hi]; [|by destruct v].
  rewrite andb_true_r. intros E. assert (∀ x, bmp.[i] = x → <[i := x]> bmp = bmp) as G.
  { intros x <-. apply list_insert_id. by apply lookup_aget. }
  destruct v; apply G, Z.bits_inj'; intros j Hj; rewrite ?Z.lor_spec, ?Z.land_spec, ?Z.lnot_spec, BIT_pow, Z.pow2_bits_eqb by lia;
    (destruct (Z.eqb_spec n j) as [->|]; [rewrite E|]); by rewrite ?orb_true_r, ?orb_false_r, ?andb_true_r, ?andb_false_r.
Qed.
(** A new bitmap of the same length is announced. *)
Lemma new_tim_went t tx w :
  sound w → bytes t → length t = length w.(tim) →
  ∃ w', update_beacon c _TIM_IE_ tx (set_tim_map t w) = Ret w' ∧ went w w' (mk w) ∧ w'.(tim) = t ∧ w'.(ht_op_mode) = w.(ht_op_mode).
Proof.
  intros [S1 S2 S3 S4] Hb Hl. destruct (update_beacon_tim (set_tim_map t w) tx _ _ _ S1 S4 Hb Hl) as (b & -> & B).
  exists (set_bc b (set_tim_map t w)). split; [done|]. split; [|done]. constructor; [by constructor|by constructor|done].
Qed.

Lemma clear_intolerant_eq s w :
  sound w → (s < NUM_STA c)%nat → clear_intolerant s w = (set_mark ht_40mhz_intolerant false s w).1.
Proof.
  intros [_ S2 _ _] Hs. unfold clear_intolerant, set_mark. fold (mk w s ht_40mhz_intolerant).
  destruct (mk w s ht_40mhz_intolerant) eqn:E; cbn [Bool.eqb]; [|done].
  change (num (put_mark ht_40mhz_intolerant false s w)) with (num w).
  rewrite (proj2 (Z.ltb_lt _ _)); [done|]. rewrite S2. pose proof (tally_pos (λ s, mk w s ht_40mhz_intolerant) s Hs E). lia.
Qed.

Record left_bss (s : nat) (w w' : bss) : Prop := {
  l_sound : sound w';
  l_frame : frame w w';
  l_tim : w'.(tim) = rtw_bmp_clear w.(tim) (w.(sta_of) s).(aid) ∨
          w'.(tim) = w.(tim) ∧ rtw_bmp_is_set w.(tim) (w.(sta_of) s).(aid) = false;
  l_others : ∀ s' m, s' ≠ s → mk w' s' m = mk w s' m;
  l_clear : ∀ m, mk w' s m = false;
  l_op : ht_option c = true → op_exact w'
}.
Lemma leave_left s w :
  sound w → (s < NUM_STA c)%nat → ∃ w' x, bss_cap_update_on_sta_leave c s w = Ret (w', x) ∧ left_bss s w w'.
Proof.
  intros S Hs. unfold bss_cap_update_on_sta_leave. set (a := sta_of w s).
  assert (∃ w0, (if rtw_bmp_is_set w.(tim) a.(aid) then update_beacon c _TIM_IE_ false (set_tim_map (rtw_bmp_clear w.(tim) a.(aid)) w) else Ret w)
    = Ret w0 ∧ went w w0 (mk w) ∧ (w0.(tim) = rtw_bmp_clear w.(tim) a.(aid) ∨ w0.(tim) = w.(tim) ∧ rtw_bmp_is_set w.(tim) a.(aid) = false))
    as (w0 & -> & G0 & T0).
  { destruct (rtw_bmp_is_set w.(tim) a.(aid)).
    - destruct (new_tim_went (rtw_bmp_clear w.(tim) a.(aid)) false w S) as (w0 & -> & G & T & _);
        [apply bytes_bmp_clear, (b_tim_bytes _ _ _ _ (s_bcn _ S))|apply length_bmp_clear|]. exists w0. tauto.
    - exists w. split; [done|]. split; [by apply went_refl|]. tauto. }
  cbn [cbind].
  pose proof (set_mark_went no_short_preamble false s w0 (g_sound _ _ _ G0) Hs ltac:(done)) as [G1 T1].
  destruct (set_mark no_short_preamble _ s w0) as [w1 x1]. cbn [fst] in G1, T1.
  destruct (nonerp_went false s w1 (g_sound _ _ _ G1) Hs) as (w2 & E2 & G2 & T2).
  destruct (set_mark nonerp _ s w1) as [w2' x2]. cbn [fst snd] in E2. rewrite E2. cbn [cbind]. clear E2.
  pose proof (set_mark_went no_short_slot_time false s w2 (g_sound _ _ _ G2) Hs ltac:(done)) as [G3 T3].
  destruct (set_mark no_short_slot_time _ s w2) as [w3 x3]. cbn [fst] in G3, T3.
  pose proof (set_mark_went no_ht_gf false s w3 (g_sound _ _ _ G3) Hs ltac:(done)) as [G4 T4].
  set (w4 := (set_mark no_ht_gf false s w3).1) in *.
  pose proof (set_mark_went no_ht false s w4 (g_sound _ _ _ G4) Hs ltac:(done)) as [G5 T5].
  set (w5 := (set_mark no_ht false s w4).1) in *.
  pose proof (set_mark_went ht_20mhz false s w5 (g_sound _ _ _ G5) Hs ltac:(done)) as [G6 T6].
  set (w6 := (set_mark ht_20mhz false s w5).1) in *.
  rewrite (clear_intolerant_eq s w6 (g_sound _ _ _ G6) Hs).
  pose proof (set_mark_went ht_40mhz_intolerant false s w6 (g_sound _ _ _ G6) Hs ltac:(done)) as [G7 T7].
  set (w7 := (set_mark ht_40mhz_intolerant false s w6).1) in *.
  destruct (ht_changed_went w7 (g_sound _ _ _ G7)) as (w8 & x8 & -> & G8 & T8 & X8). cbn [cbind].
  set (up := _ || _). destruct (announce_went up w8 (g_sound _ _ _ G8)) as (w9 & -> & G9 & P9 & T9). cbn [cbind].
  exists w9, up. split; [done|].
  assert (∀ s' m, mk w9 s' m = mk w7 s' m) as M9 by (intros; rewrite (g_mk _ _ _ G9); apply G8).
  assert (∀ s' m, mk w7 s' m = if decide (s' = s) then false else mk w s' m) as M7.
  { intros s' m. rewrite (g_mk _ _ _ G7). unfold ov. rewrite (g_mk _ _ _ G6). unfold ov. rewrite (g_mk _ _ _ G5). unfold ov.
    rewrite (g_mk _ _ _ G4). unfold ov. rewrite (g_mk _ _ _ G3). unfold ov. rewrite (g_mk _ _ _ G2). unfold ov.
    rewrite (g_mk _ _ _ G1). unfold ov. rewrite (g_mk _ _ _ G0). destruct (decide (s' = s)) as [->|Hne].
    - destruct m; repeat case_decide; try tauto; congruence || (exfalso; naive_solver).
    - by repeat rewrite decide_False by tauto. }
  constructor.
  - apply G9.
  - etransitivity; [apply G0|]; etransitivity; [apply G1|]; etransitivity; [apply G2|]; etransitivity; [apply G3|];
      etransitivity; [apply G4|]; etransitivity; [apply G5|]; etransitivity; [apply G6|]; etransitivity; [apply G7|];
      etransitivity; [apply G8|apply G9].
  - replace (tim w9) with (tim w0) by congruence. exact T0.
  - intros s' m Hne. rewrite M9, M7. by rewrite decide_False.
  - intros m. rewrite M9, M7. by rewrite decide_True.
  - intros Hht. apply (op_exact_eq w8 w9 _ G9); [done|done|]. by apply X8.
Qed.
End Inv.
