(* ===== verification/ApBssRun.v ===== *)
(** * The life of an access point: stations come and go

    The events that change what an access point announces, the states they
    lead to, and what holds in all of them. *)
From S2P Require Import Prelude CryptoWrap Blocks Mem Ie WepTkip XmitQueue XmitQueuePs BcnIe ApBss ApBssInv.

(** ** Events *)
Inductive event :=
  | E_assoc (s : nat) (flags capability ht_cap aid : Z)
  | E_deauth (s : nat)
  | E_auth (s : nat)
  | E_auth_expire (s : nat)
  | E_coex (s : nat) (frame_body : list Z)
  | E_legacy_ap
  | E_check
  | E_tim (id : Z) (v : bool).

Section Run.
Variable c : cfg.
Definition drop_asoc (s : nat) (w : bss) : bss := set_asoc (List.filter (λ x, negb (x =? s)%nat) w.(asoc)) w.
Definition is_asoc (s : nat) (w : bss) : bool := existsb (Nat.eqb s) w.(asoc).

(** The end of [OnAssocReq] for a request with these capabilities and the
    identifier [a] that [rtw_aid_alloc] gave: the station is put on [asoc_list]
    unless it is there, and joins.  The events are those of stations without
    management frame protection or without their pairwise key; the others are
    neither taken off the list by [OnAuth] nor joined again. *)
Definition OnAssocReq_success (s : nat) (f k h a : Z) (w : bss) : cres bss :=
  let w := set_stas (fupd s (set_req f k h a (w.(sta_of) s)) w.(sta_of)) w in
  let w := if is_asoc s w then w else set_asoc (w.(asoc) ++ [s]) w in
  bss_cap_update_on_sta_join c s w.
(** [OnDeAuth] of an access point. *)
Definition OnDeAuth_ap (s : nat) (w : bss) : cres bss :=
  if is_asoc s w then
    let* (w, updated) := bss_cap_update_on_sta_leave c s (drop_asoc s w) in
    Ret (associated_clients_update c updated STA_INFO_UPDATE_ALL w)
  else Ret w.
(** [OnAuth] of a station that is known: it leaves [asoc_list] and nothing else. *)
Definition OnAuth_known (s : nat) (w : bss) : bss := drop_asoc s w.
(** A station whose authentication has expired is freed: [rtw_free_stainfo] clears
    its bit and takes it off the lists, and its record starts again from zero. *)
Definition blank : asta := Build_asta 0 0 0 0 (λ _, false) 0 false 0 0.
Definition rtw_ap_expire_auth (s : nat) (w : bss) : bss :=
  let w := set_tim_map (rtw_bmp_clear w.(tim) (w.(sta_of) s).(aid)) w in
  drop_asoc s (set_stas (fupd s blank w.(sta_of)) w).
(** [rtw_check_legacy_ap] on the beacon of a network without HT elements. *)
Definition OnBeacon_legacy (w : bss) : bss :=
  if negb (is_wifi_spec c) then w else if w.(bstart_bss) then set_olbc true w else w.
(** The transmit path sets or clears a bit of the bitmap and announces it when
    it changes. *)
Definition tim_changes (id : Z) (v : bool) (w : bss) : cres bss :=
  let update_tim := negb (Bool.eqb (rtw_bmp_is_set w.(tim) id) v) in
  let w := set_tim_map (if v then rtw_bmp_set w.(tim) id else rtw_bmp_clear w.(tim) id) w in
  if update_tim then update_beacon c _TIM_IE_ true w else Ret w.

Definition ap_step (ev : event) (w : bss) : cres bss :=
  match ev with
  | E_assoc s f k h a => OnAssocReq_success s f k h a w
  | E_deauth s => OnDeAuth_ap s w
  | E_auth s => Ret (OnAuth_known s w)
  | E_auth_expire s => Ret (rtw_ap_expire_auth s w)
  | E_coex s b => rtw_process_public_act_bsscoex c s b w
  | E_legacy_ap => Ret (OnBeacon_legacy w)
  | E_check => dynamic_update_bcn_check c w
  | E_tim id v => tim_changes id v w
  end.

(** The station table has the station; a coexistence frame has its nine bytes;
    and only a station that is not counted and has no traffic waiting is freed
    by the expiry of its authentication. *)
Definition ev_ok (w : bss) (ev : event) : Prop :=
  match ev with
  | E_assoc s _ _ _ _ => (s < NUM_STA c)%nat
  | E_coex s b => (s < NUM_STA c)%nat ∧ (8 < length b)%nat
  | E_auth_expire s => (∀ m, mk w s m = false) ∧ rtw_bmp_is_set w.(tim) (w.(sta_of) s).(aid) = false
  | _ => True
  end.
Inductive reach (w : bss) : bss → Prop :=
  | reach_refl : reach w w
  | reach_step w1 ev w2 : reach w w1 → ev_ok w1 ev → ap_step ev w1 = Ret w2 → reach w w2.

(** An access point that has just started: no station is counted, and the
    beacon has its three elements. *)
Record started (w : bss) : Prop := {
  st_start : w.(bstart_bss) = true;
  st_num : ∀ m, w.(num) m = 0;
  st_marks : ∀ s m, mk w s m = false;
  st_asoc : w.(asoc) = [];
  st_op : is_u16 w.(ht_op_mode);
  st_bcn : bcn_ok w.(bc) false w.(ht_op_mode) w.(tim)
}.

(** ** The invariant *)
Hypothesis Hc : cfg_ok c.
Record inv (w : bss) : Prop := {
  i_sound : sound c w;
  i_asoc : ∀ s, s ∈ w.(asoc) → (s < NUM_STA c)%nat ∧ told c w s
}.
Record calm (w w' : bss) : Prop := {
  c_asoc : ∀ s, s ∈ w'.(asoc) → s ∈ w.(asoc);
  c_mk : ∀ s m, s ∈ w'.(asoc) → m ≠ ht_40mhz_intolerant → mk w' s m = mk w s m;
  c_req : ∀ s, s ∈ w'.(asoc) → req (w'.(sta_of) s) = req (w.(sta_of) s)
}.
Lemma inv_calm w w' : inv w → sound c w' → calm w w' → inv w'.
Proof.
  intros [_ I] S [C1 C2 C3]. constructor; [done|]. intros s Hs. destruct (I s (C1 s Hs)) as [H [T1 T2 T3 T4]]. split; [done|].
  pose proof (C3 s Hs) as [= R1 R2 _ _]. constructor; rewrite ?C2, ?R1, ?R2 by done; done.
Qed.
Lemma calm_went w w' : went c w w' (mk w) → calm w w'.
Proof.
  intros [_ F M]. constructor; [by rewrite (f_asoc _ _ F)|by intros; apply M|by intros; apply F].
Qed.
#[local] Instance calm_preorder : PreOrder calm.
Proof.
  split; [by constructor|]. intros x y z [A1 A2 A3] [B1 B2 B3]. constructor; [auto| |].
  - intros s m H1 H2. rewrite B2, A2; auto.
  - intros s H. rewrite B3, A3; auto.
Qed.

Lemma in_drop_asoc s x w : x ∈ (drop_asoc s w).(asoc) → x ∈ w.(asoc) ∧ x ≠ s.
Proof.
  cbn [drop_asoc set_asoc asoc]. rewrite !list_elem_of_In, List.filter_In. intros [H1 H2]. split; [done|].
  by apply negb_true_iff, Nat.eqb_neq in H2.
Qed.
Lemma calm_drop s w : calm w (drop_asoc s w).
Proof. constructor; [by intros x [? _]%in_drop_asoc|done|done]. Qed.
(** Fields that the invariant does not read. *)
Lemma sound_same w w' :
  w'.(bstart_bss) = w.(bstart_bss) → w'.(num) = w.(num) → w'.(ht_op_mode) = w.(ht_op_mode) → w'.(bc) = w.(bc) → w'.(tim) = w.(tim) →
  (∀ s m, mk w' s m = mk w s m) → sound c w → sound c w'.
Proof.
  intros E1 E2 E3 E4 E5 M [S1 S2 S3 S4]. constructor; rewrite ?E1, ?E2, ?E3, ?E4, ?E5; try done.
  intros m. rewrite S2. apply tally_ext. intros s. by rewrite M.
Qed.
Lemma is_asoc_in s w : is_asoc s w = true ↔ s ∈ w.(asoc).
Proof.
  unfold is_asoc. rewrite existsb_exists, list_elem_of_In. split.
  - intros (x & H1 & H2%Nat.eqb_eq). by subst.
  - intros H. exists s. split; [done|apply Nat.eqb_refl].
Qed.

Lemma assoc_inv s f k h a w :
  inv w → (s < NUM_STA c)%nat →
  ∃ w', OnAssocReq_success s f k h a w = Ret w' ∧ inv w' ∧ (ht_on c = true → ht_option c = true → op_exact c w').
Proof.
  intros [S I] Hs. unfold OnAssocReq_success. set (w1 := set_stas _ w). set (w2 := if is_asoc s w1 then _ else _).
  assert (∀ s' m, mk w2 s' m = mk w s' m) as M2.
  { intros s' m. assert (mk w2 s' m = mk w1 s' m) as -> by (unfold w2; by destruct (is_asoc s w1)).
    unfold mk, w1, set_stas, fupd. cbn [sta_of]. by destruct (decide (s' = s)) as [->|]. }
  assert (sound c w2) as S2.
  { apply (sound_same w); try done; unfold w2; by destruct (is_asoc s w1). }
  destruct (join_joined c Hc s w2 S2 Hs) as (w' & -> & [J1 J2 J3 J4 J5 J6]). exists w'. split; [done|]. split; [|done].
  constructor; [done|]. intros s' Hin. rewrite (f_asoc _ _ J2) in Hin. destruct (decide (s' = s)) as [->|Hne]; [done|].
  assert (s' ∈ w.(asoc)) as Hw.
  { unfold w2 in Hin. destruct (is_asoc s w1); [exact Hin|]. cbn [asoc set_asoc] in Hin. apply elem_of_app in Hin as [|Hin]; [done|].
    by apply list_elem_of_singleton in Hin. }
  destruct (I s' Hw) as [Hlt [T1 T2 T3 T4]]. split; [done|].
  pose proof (f_req _ _ J2 s') as [= R1 R2 _ _].
  assert (sta_of w2 s' = sta_of w s') as E.
  { assert (sta_of w2 = sta_of w1) as -> by (unfold w2; by destruct (is_asoc s w1)). unfold w1, set_stas. cbn [sta_of]. by apply fupd_ne. }
  rewrite E in R1, R2. constructor; rewrite J4, M2, ?R1, ?R2 by done; done.
Qed.
Lemma deauth_inv s w :
  inv w → ∃ w', OnDeAuth_ap s w = Ret w' ∧ inv w' ∧ (s ∈ w.(asoc) → ht_option c = true → op_exact c w').
Proof.
  intros I. unfold OnDeAuth_ap. destruct (is_asoc s w) eqn:E.
  - apply is_asoc_in in E. destruct (i_asoc _ I s E) as [Hs _].
    assert (sound c (drop_asoc s w)) as S1 by (by apply (sound_same w); [..|apply I]).
    destruct (leave_left c Hc s _ S1 Hs) as (w2 & x & -> & [L1 L2 L3 L4 L5 L6]). cbn [cbind]. eexists. split; [reflexivity|].
    destruct (clients_went c x STA_INFO_UPDATE_ALL w2 L1) as (G & _ & P). split.
    + apply (inv_calm w); [done|apply G|]. transitivity (drop_asoc s w); [apply calm_drop|]. transitivity w2; [|by apply calm_went].
      constructor.
      * by rewrite (f_asoc _ _ L2).
      * intros s' m Hin _. rewrite (f_asoc _ _ L2) in Hin. apply in_drop_asoc in Hin as [_ Hne]. by apply L4.
      * intros s' _. apply L2.
    + intros _ Hht. apply (op_exact_eq c w2 _ _ G); [done|done|]. by apply L6.
  - exists w. split; [done|]. split; [done|]. intros H. apply is_asoc_in in H. congruence.
Qed.

Lemma expire_inv s w :
  inv w → (∀ m, mk w s m = false) → rtw_bmp_is_set w.(tim) (w.(sta_of) s).(aid) = false → inv (rtw_ap_expire_auth s w).
Proof.
  intros I Hm Ht. unfold rtw_ap_expire_auth. rewrite (bmp_write_same w.(tim) (w.(sta_of) s).(aid) false Ht).
  change (set_tim_map w.(tim) w) with (Build_bss w.(bc) w.(num) w.(ht_op_mode) w.(olbc) w.(olbc_ht) w.(ht_20mhz_width_req)
    w.(ht_intolerant_ch_reported) w.(bstart_bss) w.(tim) w.(asoc) w.(sta_of) w.(chk_count)).
  set (w1 := set_stas _ _).
  assert (∀ s' m, mk w1 s' m = mk w s' m) as M.
  { intros s' m. destruct (decide (s' = s)) as [->|Hne].
    - rewrite Hm. unfold mk, w1, set_stas. cbn [sta_of]. by rewrite fupd_eq.
    - unfold mk, w1, set_stas. cbn [sta_of]. by rewrite fupd_ne. }
  apply (inv_calm w); [done|by apply (sound_same w); [..|apply I]|]. constructor.
  - by intros x [? _]%in_drop_asoc.
  - intros x m _ _. apply M.
  - intros x [_ Hne]%in_drop_asoc. unfold w1, drop_asoc, set_asoc, set_stas. cbn [sta_of]. by rewrite fupd_ne.
Qed.
Lemma ht_info_went tx w : sound c w → ∃ w', update_beacon c _HT_ADD_INFO_IE_ tx w = Ret w' ∧ went c w w' (mk w).
Proof.
  intros [S1 S2 S3 S4]. destruct (ht_option c) eqn:Hht.
  - destruct (update_beacon_ht c Hc w tx _ _ _ Hht S1 S4) as (b & -> & B). exists (set_bc b w). split; [done|].
    constructor; [by constructor|by constructor|done].
  - exists (set_bc (sends tx w.(bc)) w). split.
    + unfold update_beacon, _update_beacon, update_bcn_htinfo_ie. rewrite S1, Hht. done.
    + constructor; [constructor; [done|done|done|by apply sends_ok]|by constructor|done].
Qed.
Lemma mem_byte_in_body b i : 0 ≤ i < Z.of_nat (length b) → ∃ x, mem_byte b i = Ret x.
Proof. intros H. exists (b.[Z.to_nat i]). rewrite <- (Z2Nat.id i) at 1 by lia. apply mem_byte_at. apply lookup_aget. lia. Qed.
Lemma coex_inv s b w :
  inv w → (s < NUM_STA c)%nat → (8 < length b)%nat → ∃ w', rtw_process_public_act_bsscoex c s b w = Ret w' ∧ inv w'.
Proof.
  intros I Hs Hb. unfold rtw_process_public_act_bsscoex.
  destruct (mem_byte_in_body b 0) as [b0 E0]; [lia|]. destruct (mem_byte_in_body b 1) as [b1 E1]; [lia|]. destruct (mem_byte_in_body b 2) as [b2 E2]; [lia|].
  destruct (mem_byte_in_body b 3) as [b3 E3]; [lia|]. destruct (mem_byte_in_body b 4) as [b4 E4]; [lia|]. destruct (mem_byte_in_body b 5) as [b5 E5]; [lia|].
  destruct (mem_byte_in_body b 6) as [b6 E6]; [lia|].
  rewrite E0, E1, E2, E3, E4, E5, E6. cbn [cbind]. rewrite (proj2 (Z.ltb_lt 0 _)), (proj2 (Z.ltb_lt 8 _)) by lia.
  assert (∀ r i, sound c (set_coex r i w) ∧ calm w (set_coex r i w)) as Gc.
  { intros r i. split; [by apply (sound_same w); [..|apply I]|by constructor]. }
  assert (∃ w1 up, (let* l := if b2 =? EID_BSSCoexistence then Ret b3 else Ret 0 in
      if 0 <? l then
        if has b4 (BIT 1) then
          if (w.(sta_of) s).(marks) ht_40mhz_intolerant then Ret (w, false)
          else Ret ((set_mark ht_40mhz_intolerant true s w).1, true)
        else if has b4 (BIT 2) then
          if w.(ht_20mhz_width_req) then Ret (w, false) else Ret (set_coex true w.(ht_intolerant_ch_reported) w, true)
        else Ret (w, false)
      else Ret (w, false)) = Ret (w1, up) ∧ sound c w1 ∧ calm w w1) as (w1 & up & E & S1 & C1).
  { assert (∀ up : bool, ∃ w1 up', Ret (w, up) = Ret (w1, up') ∧ sound c w1 ∧ calm w w1) as Same
      by (intros up; exists w, up; split; [done|split; [apply I|done]]).
    assert (∃ l, (if b2 =? EID_BSSCoexistence then Ret b3 else Ret 0) = Ret l) as [l ->]
      by (destruct (b2 =? EID_BSSCoexistence); by eexists). cbn [cbind].
    destruct (0 <? l); [|done]. destruct (has b4 (BIT 1)).
    - destruct ((w.(sta_of) s).(marks) ht_40mhz_intolerant); [done|].
      destruct (set_mark_went c ht_40mhz_intolerant true s w (i_sound _ I) Hs ltac:(done)) as [G _]. eexists _, true. split; [reflexivity|].
      split; [apply G|]. constructor.
      + intros s'. by rewrite (f_asoc _ _ (g_frame _ _ _ _ G)).
      + intros s' m _ Hm. rewrite (g_mk _ _ _ _ G). unfold ov. by rewrite decide_False by (intros [_ ?]; done).
      + intros s' _. apply G.
    - destruct (has b4 (BIT 2)); [|done]. destruct w.(ht_20mhz_width_req); [done|]. eexists _, true. split; [reflexivity|]. apply Gc. }
  rewrite E. cbn [cbind]. clear E Gc.
  assert (∃ w2 up2, (let* l := if b5 =? EID_BSSIntolerantChlReport then Ret b6 else Ret 0 in
      if (0 <? l) && negb w1.(ht_intolerant_ch_reported) then Ret (set_coex w1.(ht_20mhz_width_req) true w1, true)
      else Ret (w1, up)) = Ret (w2, up2) ∧ sound c w2 ∧ calm w w2) as (w2 & up2 & -> & S2 & C2).
  { assert (∃ l, (if b5 =? EID_BSSIntolerantChlReport then Ret b6 else Ret 0) = Ret l) as [l ->]
      by (destruct (b5 =? EID_BSSIntolerantChlReport); by eexists). cbn [cbind].
    destruct (_ && _); eexists _, _; (split; [reflexivity|]); [|done].
    split; [by apply (sound_same w1)|]. transitivity w1; [done|]. by constructor. }
  cbn [cbind]. destruct up2; [|exists w2; split; [done|by apply (inv_calm w)]].
  destruct (ht_info_went true w2 S2) as (w3 & -> & G3). cbn [cbind]. eexists. split; [reflexivity|].
  destruct (stainfo_update_went c STA_INFO_UPDATE_BW w3 s (g_sound _ _ _ _ G3)) as (G4 & _).
  apply (inv_calm w); [done|apply G4|]. transitivity w2; [done|]. transitivity w3; by apply calm_went.
Qed.
Lemma check_inv w : inv w → ∃ w', dynamic_update_bcn_check c w = Ret w' ∧ inv w'.
Proof.
  intros I. unfold dynamic_update_bcn_check. destruct (negb (is_wifi_spec c)); [by exists w|].
  destruct (negb (ht_enable c) || negb (is_supported_ht c)); [by exists w|]. destruct (bstart_bss w); [|by exists w].
  assert (∀ w n, inv w → inv (set_chk_count n w)) as Hcount.
  { intros w0 n I0. apply (inv_calm w0); [done|by apply (sound_same w0); [..|apply I0]|by constructor]. }
  assert (∀ w, inv w → ∃ w', ht_changed_tx c w = Ret w' ∧ inv w') as Htx.
  { intros w0 I0. destruct (ht_changed_tx_went c Hc w0 (i_sound _ I0)) as (w1 & -> & G & _). exists w1. split; [done|].
    apply (inv_calm w0); [done|apply G|by apply calm_went]. }
  assert (∃ w1, (if w.(chk_count) mod 10 =? 0 then
      if negb (set_chk_count 1 w).(olbc) && negb (set_chk_count 1 w).(olbc_ht) then ht_changed_tx c (set_chk_count 1 w) else Ret (set_chk_count 1 w)
    else Ret w) = Ret w1 ∧ inv w1) as (w1 & E1 & I1).
  { destruct (w.(chk_count) mod 10 =? 0); [|by exists w]. destruct (_ && _); [by apply Htx, Hcount|]. eexists. split; [reflexivity|]. by apply Hcount. }
  rewrite E1. cbn [cbind].
  assert (∃ w2, (if w1.(olbc) && w1.(olbc_ht) then let* w := ht_changed_tx c w1 in Ret (set_chk_count 0 (set_olbc false w)) else Ret w1)
    = Ret w2 ∧ inv w2) as (w2 & -> & I2).
  { destruct (w1.(olbc) && w1.(olbc_ht)) eqn:Eo; cycle 1. { exists w1. done. } destruct (Htx w1 I1) as (w2 & -> & I2). cbn [cbind]. eexists. split; [reflexivity|]. apply Hcount.
    apply (inv_calm w2); [done|by apply (sound_same w2); [..|apply I2]|by constructor]. }
  cbn [cbind]. eexists. split; [reflexivity|]. by apply Hcount.
Qed.
Lemma ap_step_inv ev w : inv w → ev_ok w ev → ∃ w', ap_step ev w = Ret w' ∧ inv w'.
Proof.
  intros I Ho. destruct ev as [s f k h a|s|s|s|s b| | |id v]; cbn [ap_step ev_ok] in *.
  - destruct (assoc_inv s f k h a w I Ho) as (w' & E & I' & _). by exists w'.
  - destruct (deauth_inv s w I) as (w' & E & I' & _). by exists w'.
  - eexists. split; [reflexivity|]. apply (inv_calm w); [done|by apply (sound_same w); [..|apply I]|apply calm_drop].
  - eexists. split; [reflexivity|]. destruct Ho. by apply expire_inv.
  - destruct Ho. by apply coex_inv.
  - eexists. split; [reflexivity|]. unfold OnBeacon_legacy. destruct (negb (is_wifi_spec c)); [done|]. destruct (bstart_bss w); [|done].
    apply (inv_calm w); [done|by apply (sound_same w); [..|apply I]|by constructor].
  - by apply check_inv.
  - unfold tim_changes. destruct (Bool.eqb (rtw_bmp_is_set w.(tim) id) v) eqn:Ev; cbn [negb].
    { apply Bool.eqb_prop in Ev. eexists. split; [reflexivity|]. rewrite (bmp_write_same _ _ _ Ev).
      apply (inv_calm w); [done|by apply (sound_same w); [..|apply I]|by constructor]. }
    set (t := if v then _ else _). pose proof (b_tim_bytes _ _ _ _ (s_bcn _ _ (i_sound _ I))) as Hb.
    destruct (new_tim_went c Hc t true w (i_sound _ I)) as (w' & -> & G & _).
    { unfold t. destruct v; [by apply bytes_bmp_set|by apply bytes_bmp_clear]. }
    { unfold t. destruct v; [by apply length_bmp_set|by apply length_bmp_clear]. }
    exists w'. split; [done|]. apply (inv_calm w); [done|apply G|by apply calm_went].
Qed.
Lemma started_inv w : started w → inv w.
Proof.
  intros [H1 H2 H3 H4 H5 H6]. constructor; [|rewrite H4; intros s Hs; by apply not_elem_of_nil in Hs].
  constructor; [done| |done|by rewrite H2].
  intros m. rewrite H2. unfold tally. induction (seq 0 (NUM_STA c)) as [|s l IH]; [done|]. cbn [List.filter]. by rewrite H3.
Qed.
Lemma reach_inv w w' : started w → reach w w' → inv w'.
Proof.
  intros Hs Hr. induction Hr as [|w1 ev w2 Hr IH Ho E]; [by apply started_inv|].
  destruct (ap_step_inv ev w1 IH Ho) as (w2' & E' & I). congruence.
Qed.
End Run.

(** ** Properties *)

(** In every state of an access point that stations join and leave in any
    order - with authentications in between, coexistence reports, legacy
    networks nearby and traffic for sleeping stations - each of the seven
    counters is the number of stations that carry its mark, and the marks of
    every associated station are those of its last association request.  The
    one event left out ([ev_ok]) is the expiry of an authentication that frees
    a station which is still counted. *)
Theorem ap_counters_exact c w w' :
  cfg_ok c → started w → reach c w w' →
  (∀ m, w'.(num) m = tally c (λ s, mk w' s m)) ∧
  ∀ s, s ∈ w'.(asoc) → (s < NUM_STA c)%nat ∧ told c w' s.
Proof.
  intros Hc Hs Hr. destruct (reach_inv c Hc w w' Hs Hr) as [S I]. split; [apply S|exact I].
Qed.


(** When a station joins or leaves an access point that runs HT, the
    operation mode is afterwards the one that the comment on
    [rtw_ht_operation_update] defines: mixed when a station without HT is
    associated, else 20 MHz when a 20 MHz station is and the access point runs
    40 MHz, else legacy networks nearby, else pure; the bits for stations
    without greenfield and without HT agree with the stations, and the HT
    operation element carries the mode. *)
Theorem ap_ht_mode_exact c w w1 s ev :
  cfg_ok c → started w → reach c w w1 → ht_option c = true → ht_on c = true → (s < NUM_STA c)%nat →
  (∃ f k h a, ev = E_assoc s f k h a) ∨ ev = E_deauth s ∧ s ∈ w1.(asoc) →
  ∃ w2 fixed l x, ap_step c ev w1 = Ret w2 ∧ op_exact c w2 ∧
    shows w2.(bc).(network) fixed l ∧ body_of _HT_ADD_INFO_IE_ l = Some x ∧
    x.[2] = u8 w2.(ht_op_mode) ∧ x.[3] = u8 (w2.(ht_op_mode) >> 8).
Proof.
  intros Hc Hs Hr Hht Hon Hlt Hev. pose proof (reach_inv c Hc w w1 Hs Hr) as I.
  assert (∃ w2, ap_step c ev w1 = Ret w2 ∧ inv c w2 ∧ op_exact c w2) as (w2 & E & I2 & X).
  { destruct Hev as [(f & k & h & a & ->)|[-> Hin]]; cbn [ap_step].
    - destruct (assoc_inv c Hc s f k h a w1 I Hlt) as (w2 & E & I2 & X). exists w2. split; [done|]. split; [done|]. by apply X.
    - destruct (deauth_inv c Hc s w1 I) as (w2 & E & I2 & X). exists w2. split; [done|]. split; [done|]. by apply X. }
  destruct (i_sound _ _ I2) as [S1 S2 S3 [B1 B2 B2' (fixed & l & S & _ & (x & X1 & X2 & X3 & X4) & _)]].
  exists w2, fixed, l, x. by split_and!.
Qed.

(** ** A concrete access point *)
Definition all_marks : list mark :=
  [no_short_preamble; nonerp; no_short_slot_time; no_ht; no_ht_gf; ht_20mhz; ht_40mhz_intolerant].
Definition ev_okb (c : cfg) (w : bss) (ev : event) : bool :=
  match ev with
  | E_assoc s _ _ _ _ => (s <? NUM_STA c)%nat
  | E_coex s b => (s <? NUM_STA c)%nat && (8 <? length b)%nat
  | E_auth_expire s => forallb (λ m, negb (mk w s m)) all_marks && negb (rtw_bmp_is_set w.(tim) (w.(sta_of) s).(aid))
  | _ => true
  end.
Fixpoint run (c : cfg) (evs : list event) (w : bss) : cres bss :=
  match evs with
  | [] => Ret w
  | ev :: evs => if ev_okb c w ev then let* w := ap_step c ev w in run c evs w else Err 0
  end.
Lemma ev_okb_ok c w ev : ev_okb c w ev = true → ev_ok c w ev.
Proof.
  destruct ev; cbn [ev_okb ev_ok]; try done.
  - apply Nat.ltb_lt.
  - rewrite andb_true_iff, forallb_forall, negb_true_iff. intros [H Ht]. split; [|done]. intros m. apply negb_true_iff, H. destruct m; cbn; tauto.
  - rewrite andb_true_iff, !Nat.ltb_lt. done.
Qed.
Lemma run_reach c evs : ∀ w0 w w', reach c w0 w → run c evs w = Ret w' → reach c w0 w'.
Proof.
  induction evs as [|ev evs IH]; intros w0 w w' Hr E; cbn [run] in E; [by injection E as <-|].
  destruct (ev_okb c w ev) eqn:Ho; [|done]. destruct (ap_step c ev w) as [w1| |] eqn:Es; [|done..]. cbn [cbind] in E.
  apply (IH w0 w1); [|done]. eapply reach_step; [exact Hr|by apply ev_okb_ok|exact Es].
Qed.

Definition ap_cfg : cfg := {|
  kmalloc := λ _, true; NUM_STA := 4; ht_option := true; HT_info_enable := 1; ap_cap_info := 0x2; cur_wireless_mode := 0xb;
  cur_channel := 6; cur_bwmode := 1; cur_ch_offset := 1; ht_enable := true; is_supported_ht := true; vrtl_carrier_sense := 2;
  vcs_type := 1; is_wifi_spec := true; ext_capab := replicate 8 0; ext_capab_len := 0; wps_beacon_ie := None
|}.
Definition ap_elems : list element :=
  [(0, [97]); (1, [0x82; 0x84]); (3, [6]); (5, tim_body 0 1 [0]); (42, [0]); (61, [6; 5; 0; 0] ++ replicate 18 0)].
Definition ap_start : bss := {|
  bc := {| network := beacon_of ap_elems; ERP_enable := true; ERP_IE := 0; sw_to_20mhz := false; update_bcn := false; tx_cmds := 0 |};
  num := λ _, 0; ht_op_mode := 0; olbc := false; olbc_ht := false; ht_20mhz_width_req := false; ht_intolerant_ch_reported := false;
  bstart_bss := true; tim := [0]; asoc := []; sta_of := λ s, Build_asta 0 0 0 (Z.of_nat s) (λ _, false) 1 true 0 0; chk_count := 1
|}.
Lemma ap_cfg_ok : cfg_ok ap_cfg.
Proof. by constructor. Qed.
Lemma ap_started : started ap_start.
Proof.
  constructor; [done|done|done|done|uint_lit|]. constructor; [done|cbn; lia|bytes_lit|].
  exists (replicate 12 0), ap_elems. split_and!; [apply shows_beacon_of; vm_compute; reflexivity|done|done|done| |done|vm_compute; lia].
  exists ([6; 5; 0; 0] ++ replicate 18 0). split_and!; [done|cbn; lia|done|done].
Qed.
(** Requests: a station of 802.11b, one with HT at 20 MHz, one with HT, and one
    with HT that is 40 MHz intolerant. *)
Definition assoc_b (s : nat) : event := E_assoc s (BIT 31) 0 0 (Z.of_nat s).
Definition assoc_20 (s : nat) : event := E_assoc s (BIT 11 .| BIT 7) 0x400 0 (Z.of_nat s).
Definition assoc_40 (s : nat) : event := E_assoc s (BIT 11 .| BIT 7) 0x400 0x2 (Z.of_nat s).
Definition assoc_gf (s : nat) : event := E_assoc s (BIT 11 .| BIT 7) 0x400 0x12 (Z.of_nat s).
Definition assoc_intol (s : nat) : event := E_assoc s (BIT 11 .| BIT 7) 0x400 0x4002 (Z.of_nat s).
Definition ap_events : list event :=
  [assoc_b 1; assoc_20 2; E_tim 2 true; assoc_b 3; E_auth 1; assoc_20 1; E_coex 2 [4; 0; 72; 1; 2; 73; 1; 0; 0]; E_deauth 2;
   E_legacy_ap; E_check; E_auth_expire 0].
Definition after {A} (P : bss → A) (d : A) (evs : list event) : A :=
  match run ap_cfg evs ap_start with Ret w => P w | _ => d end.
Lemma after_run {A} (P : bss → A) d evs w : run ap_cfg evs ap_start = Ret w → after P d evs = P w.
Proof. unfold after. by intros ->. Qed.

Lemma ap_counters_exact_witness :
  ∃ w', run ap_cfg ap_events ap_start = Ret w' ∧ w'.(num) nonerp = tally ap_cfg (λ s, mk w' s nonerp) ∧ w'.(num) nonerp = 1.
Proof.
  assert (after (λ w, num w nonerp) 0 ap_events = 1) as N by (vm_compute; reflexivity).
  destruct (run ap_cfg ap_events ap_start) as [w'| |] eqn:E; [|unfold after in N; rewrite E in N; discriminate N..].
  exists w'. split; [reflexivity|].
  destruct (ap_counters_exact ap_cfg ap_start w' ap_cfg_ok ap_started (run_reach _ _ _ _ _ (reach_refl _ _) E)) as [H _].
  split; [apply H|]. by rewrite (after_run _ _ _ _ E) in N.
Defined.
Lemma ap_ht_mode_exact_witness :
  ∃ w1 w2, run ap_cfg ap_events ap_start = Ret w1 ∧ ap_step ap_cfg (assoc_b 2) w1 = Ret w2 ∧ op_exact ap_cfg w2.
Proof.
  assert (after (λ _, true) false ap_events = true) as N by (vm_compute; reflexivity).
  destruct (run ap_cfg ap_events ap_start) as [w1| |] eqn:E; [|unfold after in N; rewrite E in N; discriminate N..].
  destruct (ap_ht_mode_exact ap_cfg ap_start w1 2 (assoc_b 2) ap_cfg_ok ap_started (run_reach _ _ _ _ _ (reach_refl _ _) E))
    as (w2 & _ & _ & _ & H1 & H2 & _); [reflexivity|reflexivity|cbn; lia|left; by eexists _, _, _, _|].
  exists w1, w2. by split_and!.
Defined.

(** ** Where the announcements lag behind *)

(** The bytes of an element of the beacon. *)
Definition ie_bytes (id : Z) (w : bss) : list Z :=
  match bcn_get_ie w.(bc).(network) id with
  | Ret (Some (o, l)) => slice (_FIXED_IE_LENGTH_ + o + 2) (Z.to_nat l) w.(bc).(network).(IEs)
  | _ => []
  end.
(** A station with ERP but without short preambles joins: it is counted, and a
    new beacon is sent, but the Barker preamble bit stays clear. *)
Example barker_bit_stale :
  after (λ w, (w.(num) no_short_preamble, w.(bc).(tx_cmds), ie_bytes _ERPINFO_IE_ w)) (0, O, [])
    [assoc_40 1; E_assoc 2 (BIT 11) 0x400 0x2 2] = (1, 2%nat, [0]).
Proof. vm_compute. reflexivity. Qed.
(** A 40 MHz intolerant station joins while the operation mode does not change:
    the beacon keeps announcing 40 MHz. *)
Example intolerant_join_keeps_40mhz :
  after (λ w, (w.(num) ht_40mhz_intolerant, w.(bc).(sw_to_20mhz), take 2 (ie_bytes _HT_ADD_INFO_IE_ w))) (0, true, [])
    [assoc_40 1; assoc_intol 2] = (1, false, [6; 5]).
Proof. vm_compute. reflexivity. Qed.
(** The last station without HT leaves: the operation mode in the stored beacon
    changes, but no new beacon is sent. *)
Example leave_not_sent :
  let evs := [E_assoc 1 (BIT 7) 0x400 0 1] in
  let f w := (slice 2 1 (ie_bytes _HT_ADD_INFO_IE_ w), w.(bc).(tx_cmds)) in
  after f ([], O) evs = ([19], 1%nat) ∧ after f ([], O) (evs ++ [E_deauth 1]) = ([0], 1%nat).
Proof. vm_compute. split; reflexivity. Qed.
(** A station that associates again with greenfield support stays counted as
    one without. *)
Example rejoin_keeps_no_gf :
  after (λ w, w.(num) no_ht_gf) 0 [assoc_40 1; assoc_gf 1] = 1 ∧ after (λ w, w.(num) no_ht_gf) 0 [assoc_gf 1] = 0.
Proof. vm_compute. split; reflexivity. Qed.
(** A counted station that authenticates again and then is silent is freed
    without being uncounted: protection stays on for ever. *)
Example auth_expiry_leaks :
  after (λ w, let w := rtw_ap_expire_auth 1 w in (w.(num) nonerp, present ap_cfg w nonerp, ie_bytes _ERPINFO_IE_ w)) (0, true, [])
    [assoc_b 1; E_auth 1] = (1, false, [7]).
Proof. vm_compute. reflexivity. Qed.
(** A coexistence frame with nothing behind its action code is read past its end. *)
Example coex_reads_past_end : rtw_process_public_act_bsscoex ap_cfg 1 [4; 0] ap_start = Oob.
Proof. vm_compute. reflexivity. Qed.
